(* ===== verification/_CoqProject ===== *)
-Q . S2P
Prelude.v
GoSort.v
GoAny.v
GoPath.v
RoutePath.v
GoTime.v
Sql.v
Database.v
DataDir.v
TimeText.v
NetIP.v
Utf8.v
Canonical.v
NetHttp.v
NetSniff.v
Widgets.v
WidgetJSON.v
Config.v
Manifest.v
Secrets.v
Connections.v
HttpClient.v
Fingerprint.v
Grant.v
Assets.v
Broker.v
Approval.v
ConfigStore.v
Homepage.v
Contracts.v
State.v
Scheduler.v
Storage.v
AuditLog.v
Rules.v
NotifyOut.v
AssetCache.v
Password.v
Auth.v
Forward.v
Sse.v
Api.v
App.v
AssetApi.v
Icons.v
Declarative.v
Wasm.v
Docker.v
Serve.v
Cli.v
