(* ===== verification/Prelude.v ===== *)
(** * Veduta: a verification library of its server

    Veduta is a self-hosted dashboard. Its configuration names connections (an upstream with its
    credentials), integrations (plugins: declarative manifests, WebAssembly modules, the http-json
    escape hatch, Docker) and cards that run them; a refresh of a card asks its integration for a
    Widget Document through a broker that holds the credentials, and the browser is served the
    resulting card states. What a plugin may ask for is a manifest an administrator approved by its
    digest. This library models the Go code under src/internal and src/cmd that decides: who may send what
    where, what is stored and served, when, and what survives failures and restarts.

    ** Parts

    Shared: [Prelude] (results and their monad, Go's integers, strings and maps, automation);
    [GoSort], [GoAny], [GoPath], [GoTime], [TimeText], [NetIP], [Utf8], [NetHttp] (the standard
    library the program leans on: string order and sorting, values of type any, file paths, RFC 3339
    times and their text order, addresses and prefixes, UTF-8 and UTF-16, headers, queries, URLs and
    requests), [NetSniff] (what a body is taken for); [Sql] and [Database] (statements that may fail, transactions, the tables of
    internal/storage/migrations).

    - [RoutePath]: internal/connections/routepath, the canonicalisation, glob matching and templates
      every authority check goes through.
    - [Canonical]: internal/canonical, the text whose hash identifies a manifest.
    - [Widgets], [WidgetJSON], [State]: internal/widgets and internal/state, the documents integrations
      return, their JSON, and the card states the API serves.
    - [Config], [Secrets], [Connections], [HttpClient], [Fingerprint]: internal/config, internal/secrets
      and internal/connections, from the configuration tree through resolved secrets to the requests put
      on the wire, and the digest by which a change of a connection is noticed.
    - [ConfigStore]: internal/config's load, watch and apply: what is live, how a change of a file
      gets there, and how an edit of the file is written.
    - [Grant], [Assets], [Broker]: internal/capabilities, what a run may do and the host functions
      it does it with. [Broker] is written against the class of connection registries whose laws
      [HttpClient] proves of its registry and of the swappable one.
    - [Approval], [Manifest], [App]: internal/integrations, internal/integrations/manifestload and
      internal/app, what was approved, what a manifest may say at all, and the decision per card.
    - [Declarative], [Wasm], [Docker]: internal/integrations/declarative, wasm and docker, the runtimes of
      declarative manifests and of WebAssembly modules, on [Broker], and the built-in integration.
    - [Scheduler], [Storage], [DataDir]: internal/scheduler and internal/storage, refreshes under
      concurrency, what they keep, and where. [Storage] discharges the interface [Scheduler] is proved against.
    - [Rules], [NotifyOut]: internal/rules and internal/notify, alert rules and their outbox.
    - [AssetCache], [Password], [Auth], [Forward], [AuditLog], [Sse]: internal/storage/assetcache,
      internal/auth with its sessions and its trusted proxies, internal/audit, internal/api/sse.go.
    - [Api]: internal/api, the routes, the authentication in front of them and the handlers, which
      call [ConfigStore], [Approval], [Auth], [Scheduler] and [Sse]; [AssetApi] and [Icons]: its handlers of
      signed assets, backgrounds and icons, with internal/app/assets.go and internal/icons, on [Broker]
      and [AssetCache].
    - [Homepage], [Contracts]: internal/homepageimport, from another dashboard's configuration to a patch
      of this one that [ConfigStore] applies, and internal/contracts, the checks between the documents of
      the repository.
    - [Serve], [Cli]: cmd/veduta, from a configuration to a running server and from one configuration to
      the next in it, on all of the above; and the commands that write files or decide approvals.

    ** How code becomes definitions

    A definition carries the name of the function, type or constant it translates; the field of a
    struct is a record field with a two-letter prefix. A function returning an error returns [res];
    code that mutates is explicit state passing; code under a mutex is one function on the guarded
    state, and step relations ([Scheduler.run_step], [Scheduler.env_step], those of [NotifyOut], [Sse],
    [ConfigStore] and [Serve]) interleave such functions with each other and with failures. An [int] or [int64] is a [Z], with the wrap-around
    written out where a value can reach it ([wrap64]). A map is a [gmap]; where the code ranges over
    one, the order is an argument, so a theorem holds for every order. A run-time panic is a value
    of the result type, or [None] where panicking is the only failure.

    Code outside the repository is an argument of the definitions that use it: the YAML, JSON and
    schema libraries, the MIME parser, SHA-256, HMAC and Argon2id, the expression library, the
    network, the file system, the clock, and which database statements fail. What a theorem relies
    on of such an argument is a hypothesis of that theorem, and its witness instantiates it.

    ** What the theorems show

    - Authority: a path has one canonical form and the matcher is the declarative glob relation; a
      request goes out only when the manifest, the lock and the connection each admit it, also after
      redirects, with the host, method, path and query that were admitted ([Broker], [AssetApi], [Wasm];
      a segment with an escape in a first request's path is sent decoded once more); what the lock
      approves is contained in what the manifest asks for; a card runs only under the manifest that was
      approved, docker and http-json cards needing no approval; the digest pins the document; the lock
      changes only by an approval, through the API or the command line.
    - Confidentiality: credentials are the connection's and are put last; nothing tracked as a secret
      leaves in a log record, and no document served contains, in the texts that are scanned, one that
      was known when the configuration was applied. The text of a run's error is not scanned.
    - Bounds: budgets, cached bytes, response bodies, the asset cache, guesses of a password, active
      notifications, delivery attempts, and what a guest can reach.
    - State: for every interleaving each card has one state, legal, its own; replaced definitions
      write nothing; every refresh ends and leaves no worker or run behind; the store the scheduler
      assumes is the one the tables implement; a rule fires after holding for its debounce, across failed
      commits and restarts; sessions and the event stream keep their promises under the same conditions;
      an activation is all or nothing while its rollback succeeds, and what runs is what is live.
    - Pictures: what the asset and icon routes serve is a picture, authorised or public.
    - Text: canonicalisation, the canonical document, the wire form of documents, timestamps and hashes
      read back as written; files are written whole or not at all; an import fits the configuration.

    ** Fuel and bounds

    Recursion is structural except in a few places. The walk of a YAML tree with aliases
    ([Canonical.yamlToAnyBounded]) and that of a manifest's templates ([Manifest.compileTemplate])
    recurse on a depth the code limits to 32, hence [Manifest.tree_fuel]. [AssetCache.evict] has as
    fuel the number of rows, of which each round removes one ([AssetCache.evict_fuel]). Following
    redirects has the limit of the connection and one more as fuel, which is never used up
    ([HttpClient.do_redirects_checked]); icons have the limit of [Icons.icon_fuel] likewise. Looking for
    a free id ([Homepage.next_id]) tries one more candidate than there are ids in use, and loops over
    a text ([DataDir.walk], [GoTime.duration_parts], [Contracts.spans_from]) have its length. The retry
    of [Storage.Setting] has a fuel its theorems leave open. Refreshes are steps of a relation with a
    measure that each step lowers ([Scheduler.refresh_terminates]).

    ** Not modelled

    - Cryptography, sockets, TLS and opening files and the database: input and output whose outcome
      is an argument here.
    - The WebAssembly engine: a guest is the tree of its host calls ([Wasm]).
    - Of cmd/: parsing flags, printing, signals, the goroutines and constructors the server is wired
      from, and the plugin and import commands around [Wasm] and [Homepage].
    - The handlers that serve the web client's files and the fixtures, the web client itself and the
      tools under hack/: glue over the parts above.
*)
From stdpp Require Export base gmap sets list strings pretty.
From Stdlib Require Export ZArith Ascii Lia.
From Stdlib Require Floats.SpecFloat.

Declare Scope go_scope.
Delimit Scope go_scope with go.
Open Scope go_scope.

(** ** Fallible computations *)

(** A Go function returning [(T, error)]: the value, or the error. *)
Inductive res (E A : Type) : Type :=
| Ok (a : A)
| Err (e : E).
Arguments Ok {E A} a.
Arguments Err {E A} e.

Definition res_bind {E A B} (m : res E A) (k : A -> res E B) : res E B :=
  match m with Ok a => k a | Err e => Err e end.

Definition res_map_err {E F A} (f : E -> F) (m : res E A) : res F A :=
  match m with Ok a => Ok a | Err e => Err (f e) end.

Definition is_ok {E A} (m : res E A) : bool :=
  match m with Ok _ => true | Err _ => false end.

Notation "'let!' x ':=' m 'in' k" := (res_bind m (fun x => k))
  (at level 10, x pattern, m at level 100, k at level 200,
   format "'[v' 'let!'  x  ':='  m  'in' '/' k ']'") : go_scope.

(** A guard: the early return of an error. *)
Notation "'guard!' c 'else' e ';' k" := (if (c : bool) then k else Err e)
  (at level 10, c at level 100, e at level 100, k at level 200) : go_scope.

(** [for] loop over a slice that stops at the first error. *)
Fixpoint res_mapM {E A B} (f : A -> res E B) (l : list A) : res E (list B) :=
  match l with
  | [] => Ok []
  | x :: l' => let! y := f x in let! ys := res_mapM f l' in Ok (y :: ys)
  end.

(** ** Machine integers and time *)

(** Two's-complement wrap-around of Go's [int]/[int64]. *)
Definition wrap64 (z : Z) : Z := (z + 2 ^ 63) mod 2 ^ 64 - 2 ^ 63.

Definition in64 (z : Z) : Prop := (- 2 ^ 63 <= z < 2 ^ 63)%Z.

(** A [time.Time] is the number of nanoseconds since Go's zero instant, so the zero value is [0]
    and [IsZero] is equality with it. A [time.Duration] is an [int64] of nanoseconds. *)
Abbreviation Time := Z (only parsing).
Abbreviation Duration := Z (only parsing).

Definition isZero (t : Time) : bool := Z.eqb t 0.
Definition before (a b : Time) : bool := Z.ltb a b.

Definition nanosecond : Duration := 1%Z.
Definition millisecond : Duration := 1000000%Z.
Definition second : Duration := 1000000000%Z.
Definition minute : Duration := (60 * 1000000000)%Z.
Definition hour : Duration := (3600 * 1000000000)%Z.

(** ** float64 *)

Abbreviation Float64 := SpecFloat.spec_float (only parsing).

#[export] Instance float64_eq_dec : EqDecision SpecFloat.spec_float.
Proof. solve_decision. Defined.

(** Go's [<], [<=] and [==] on float64; each is false when an operand is NaN. *)
Definition float_lt (a b : Float64) : bool := SpecFloat.SFltb a b.
Definition float_le (a b : Float64) : bool := SpecFloat.SFleb a b.
Definition float_eq (a b : Float64) : bool := SpecFloat.SFeqb a b.

(** ** Go strings: byte sequences *)

Definition byteN (c : ascii) : N := N_of_ascii c.

Fixpoint strip_prefix (p s : string) : option string :=
  match p with
  | EmptyString => Some s
  | String a p' =>
      match s with
      | EmptyString => None
      | String b s' => if decide (a = b) then strip_prefix p' s' else None
      end
  end.

Fixpoint strip_suffix (suf s : string) : option string :=
  if decide (s = suf) then Some ""
  else match s with
       | EmptyString => None
       | String c s' => String c <$> strip_suffix suf s'
       end.

(** [strings.HasPrefix], [strings.HasSuffix], [strings.TrimPrefix], [strings.TrimSuffix] *)
Definition HasPrefix (s p : string) : bool :=
  match strip_prefix p s with Some _ => true | None => false end.
Definition HasSuffix (s p : string) : bool :=
  match strip_suffix p s with Some _ => true | None => false end.
Definition TrimPrefix (s p : string) : string :=
  match strip_prefix p s with Some r => r | None => s end.
Definition TrimSuffix (s p : string) : string :=
  match strip_suffix p s with Some r => r | None => s end.

(** [s[n:]]; the source only slices inside the string. *)
Fixpoint drop_str (n : nat) (s : string) : string :=
  match n, s with
  | O, _ => s
  | S n', String _ s' => drop_str n' s'
  | S _, EmptyString => EmptyString
  end.

(** [strings.Index]: [None] is Go's [-1]. *)
Fixpoint Index (s sub : string) : option nat :=
  match strip_prefix sub s with
  | Some _ => Some O
  | None => match s with
            | EmptyString => None
            | String _ s' => S <$> Index s' sub
            end
  end.

Definition Contains (s sub : string) : bool :=
  match Index s sub with Some _ => true | None => false end.

(** Every byte of [s] satisfies [P]. *)
Fixpoint all_bytes (P : ascii -> bool) (s : string) : bool :=
  match s with
  | EmptyString => true
  | String c s' => P c && all_bytes P s'
  end.

Definition contains_byte (c : ascii) (s : string) : bool :=
  negb (all_bytes (fun d => negb (Ascii.eqb c d)) s).

(** [strings.Split] by a one-byte separator. *)
Fixpoint Split (sep : ascii) (s : string) : list string :=
  match s with
  | EmptyString => [""]
  | String c s' =>
      if Ascii.eqb c sep then "" :: Split sep s'
      else match Split sep s' with
           | [] => [String c ""]
           | h :: t => String c h :: t
           end
  end.

(** [strings.Cut] at one byte. *)
Fixpoint Cut (s : string) (sep : ascii) : option (string * string) :=
  match s with
  | "" => None
  | String c r => if Ascii.eqb c sep then Some ("", r) else ab ← Cut r sep; Some (String c ab.1, ab.2)
  end.

(** [strings.Join] with a one-byte separator. *)
Fixpoint Join (sep : ascii) (l : list string) : string :=
  match l with
  | [] => ""
  | [x] => x
  | x :: l' => x +:+ String sep (Join sep l')
  end.

(** ASCII lower-casing ([strings.ToLower] on the header and media-type tokens the code handles). *)
Definition lower_byte (c : ascii) : ascii :=
  let n := byteN c in
  if ((65 <=? n) && (n <=? 90))%N then ascii_of_N (n + 32) else c.

Fixpoint ToLower (s : string) : string :=
  match s with
  | EmptyString => EmptyString
  | String c s' => String (lower_byte c) (ToLower s')
  end.

(** [strings.ReplaceAll] with a non-empty [old]: at each occurrence, scanning from the left, the
    bytes of [old] are skipped. [strings.Replace(s, old, new, 1)] is [ReplaceFirst]. *)
Fixpoint replace_from (old new : string) (skip : nat) (s : string) : string :=
  match s with
  | EmptyString => EmptyString
  | String c s' =>
      match skip with
      | S k => replace_from old new k s'
      | O => if HasPrefix s old then new +:+ replace_from old new (String.length old - 1) s'
             else String c (replace_from old new 0 s')
      end
  end.
Definition ReplaceAll (s old new : string) : string := replace_from old new 0 s.

Fixpoint ReplaceFirst (s old new : string) : string :=
  match strip_prefix old s with
  | Some r => new +:+ r
  | None => match s with EmptyString => EmptyString | String c s' => String c (ReplaceFirst s' old new) end
  end.

(** The UTF-8 encodings of the characters [unicode.IsSpace] accepts. *)
Definition bytes_of (l : list N) : string := foldr (fun n s => String (ascii_of_N n) s) "" l.
Definition unicode_spaces : list string :=
  Eval vm_compute in map bytes_of (
    [[9]; [10]; [11]; [12]; [13]; [32]; [194; 133]; [194; 160]; [225; 154; 128];
     [226; 128; 168]; [226; 128; 169]; [226; 128; 175]; [226; 129; 159]; [227; 128; 128];
     [226; 128; 128]; [226; 128; 129]; [226; 128; 130]; [226; 128; 131]; [226; 128; 132];
     [226; 128; 133]; [226; 128; 134]; [226; 128; 135]; [226; 128; 136]; [226; 128; 137];
     [226; 128; 138]])%N.

(** [strings.TrimSpace] *)
Fixpoint trim_with (strip : string -> string -> option string) (fuel : nat) (s : string) : string :=
  match fuel with
  | O => s
  | S f => match head (omap (fun sp => strip sp s) unicode_spaces) with
           | Some r => trim_with strip f r
           | None => s
           end
  end.
Definition TrimSpace (s : string) : string :=
  let l := trim_with strip_prefix (String.length s) s in
  trim_with strip_suffix (String.length l) l.

(** Decimal rendering ([strconv.Itoa], [%d]) and [strconv.Atoi]. *)
Definition Itoa (n : nat) : string := pretty (N.of_nat n).
Definition decimal (z : Z) : string := pretty z.

Fixpoint atoi_digits (s : string) (acc : Z) : option Z :=
  match s with
  | EmptyString => Some acc
  | String c s' => let d := (Z.of_N (byteN c) - 48)%Z in
                   if ((0 <=? d) && (d <=? 9))%Z then atoi_digits s' (10 * acc + d)%Z else None
  end.
Definition Atoi (s : string) : option Z :=
  let '(neg, ds) := match s with
                    | String "-" r => (true, r)
                    | String "+" r => (false, r)
                    | _ => (false, s)
                    end in
  match ds with
  | EmptyString => None
  | _ => match atoi_digits ds 0 with
         | Some n => let v := if neg then (- n)%Z else n in
                     if ((- 2 ^ 63 <=? v) && (v <? 2 ^ 63))%Z then Some v else None
         | None => None
         end
  end.

(** [encoding/hex] and [%x]. *)
Definition lower_hex (n : N) : ascii := ascii_of_N (if (n <? 10)%N then n + 48 else n + 87).
Fixpoint hex_encode (s : string) : string :=
  match s with
  | EmptyString => ""
  | String c r => String (lower_hex (byteN c / 16)) (String (lower_hex (byteN c mod 16)) (hex_encode r))
  end.

(** [hex.DecodeString] *)
Definition unhex (c : ascii) : option N :=
  let n := byteN c in
  if ((48 <=? n) && (n <=? 57))%N then Some (n - 48)%N
  else if ((97 <=? n) && (n <=? 102))%N then Some (n - 87)%N
  else if ((65 <=? n) && (n <=? 70))%N then Some (n - 55)%N else None.
Fixpoint hex_decode (s : string) : option string :=
  match s with
  | EmptyString => Some ""
  | String a (String b r) =>
      x ← unhex a; y ← unhex b; t ← hex_decode r; Some (String (ascii_of_N (16 * x + y)) t)
  | _ => None
  end.

(** ** Tactics *)

Create HintDb go.

(** Case analysis on every [match]/[if] scrutinee of the goal, then of the hypotheses. *)
Ltac case_goal :=
  repeat match goal with
         | |- context [match ?x with _ => _ end] => destruct x eqn:?; simplify_eq/=
         end.
Ltac case_in H :=
  repeat match type of H with
         | context [match ?x with _ => _ end] => destruct x eqn:?; simplify_eq/=
         end.

(** Reflects the boolean connectives and comparisons of the code in the context. *)
Ltac bool_prop :=
  repeat match goal with
         | H : _ && _ = true |- _ => apply andb_true_iff in H as [? ?]
         | H : _ || _ = false |- _ => apply orb_false_iff in H as [? ?]
         | H : negb _ = true |- _ => apply negb_true_iff in H
         | H : negb _ = false |- _ => apply negb_false_iff in H
         | H : Ascii.eqb _ _ = true |- _ => apply Ascii.eqb_eq in H
         | H : Ascii.eqb _ _ = false |- _ => apply Ascii.eqb_neq in H
         | H : String.eqb _ _ = true |- _ => apply String.eqb_eq in H
         | H : String.eqb _ _ = false |- _ => apply String.eqb_neq in H
         | H : bool_decide _ = true |- _ => apply bool_decide_eq_true in H
         | H : bool_decide _ = false |- _ => apply bool_decide_eq_false in H
         end.

(** Case analysis on all 256 bytes. *)
Ltac all_ascii c := destruct c as [[] [] [] [] [] [] [] []].

(** ** Lemmas on results *)

Lemma res_bind_Ok {E A B} (m : res E A) (k : A -> res E B) b :
  res_bind m k = Ok b <-> exists a, m = Ok a /\ k a = Ok b.
Proof. destruct m; simpl; naive_solver. Qed.

Lemma guard_Ok {E A} (c : bool) (e : E) (k : res E A) a :
  (if c then k else Err e) = Ok a <-> c = true /\ k = Ok a.
Proof. destruct c; naive_solver. Qed.

Lemma res_mapM_Ok {E A B} (f : A -> res E B) l ys :
  res_mapM f l = Ok ys <-> Forall2 (fun x y => f x = Ok y) l ys.
Proof.
  revert ys; induction l as [|x l IH]; intros ys; simpl.
  - split; [intros [= <-]; constructor | by inversion 1].
  - rewrite res_bind_Ok. split.
    + intros (y & Hy & H). apply res_bind_Ok in H as (zs & Hzs & [= <-]).
      constructor; [done | by apply IH].
    + inversion 1 as [|? y ? zs Hy Hzs]; subst. exists y; split; [done|].
      apply res_bind_Ok. exists zs; split; [by apply IH | done].
Qed.

Lemma res_mapM_length {E A B} (f : A -> res E B) l ys :
  res_mapM f l = Ok ys -> length ys = length l.
Proof. intros H%res_mapM_Ok. symmetry. by eapply Forall2_length. Qed.

Lemma res_bind_Err {E A B} (m : res E A) (k : A -> res E B) e :
  res_bind m k = Err e <-> m = Err e \/ exists a, m = Ok a /\ k a = Err e.
Proof. destruct m; simpl; naive_solver. Qed.

(** The error of a loop is the error of one of its iterations. *)
Lemma res_mapM_Err {E A B} (f : A -> res E B) l e :
  res_mapM f l = Err e -> exists x, x ∈ l /\ f x = Err e.
Proof.
  induction l as [|x l IH]; simpl; [done|].
  intros [H|(y & _ & [H|(ys & _ & H)]%res_bind_Err)]%res_bind_Err; [|apply IH in H|done].
  - exists x. split; [by left|done].
  - destruct H as (z & Hz & He). exists z. split; [by right|done].
Qed.

(** ** Lemmas on lists *)

Lemma elem_of_map {A B} (f : A -> B) l y : y ∈ map f l <-> exists x, y = f x /\ x ∈ l.
Proof.
  rewrite list_elem_of_In, in_map_iff. split; intros (x & H1 & H2); exists x.
  - split; [done|by apply list_elem_of_In].
  - split; [done|by apply list_elem_of_In].
Qed.

Lemma elem_of_map_2 {A B} (f : A -> B) l x : x ∈ l -> f x ∈ map f l.
Proof. intros H. apply elem_of_map. eauto. Qed.

Lemma app_nil_iff {A} (l k : list A) : l ++ k = [] <-> l = [] /\ k = [].
Proof. split; [apply app_eq_nil | by intros [-> ->]]. Qed.

Lemma concat_imap_nil {A B} (f : nat -> A -> list B) l :
  concat (imap f l) = [] <-> forall j x, l !! j = Some x -> f j x = [].
Proof.
  revert f; induction l as [|x l IH]; intros f; simpl; [done|].
  rewrite app_nil_iff, IH. split.
  - intros [H1 H2] [|j] y; simpl; [naive_solver | apply H2].
  - intros H. split; [by apply (H 0)|]. intros j y Hj. by apply (H (S j)).
Qed.

Lemma concat_map_nil {A B} (f : A -> list B) l : concat (map f l) = [] <-> Forall (fun x => f x = []) l.
Proof.
  induction l as [|x l IH]; simpl; [split; [constructor|done]|].
  rewrite Forall_cons, <- IH. destruct (f x); simpl; naive_solver.
Qed.

(** ** Lemmas on strings *)

Lemma app_nil_str s : s +:+ "" = s.
Proof. induction s as [|c s IH]; [done|]. change (String c (s +:+ "") = String c s). by f_equal. Qed.

Lemma app_cons_str c s t : String c s +:+ t = String c (s +:+ t).
Proof. done. Qed.

Lemma app_assoc_str a b c : (a +:+ b) +:+ c = a +:+ b +:+ c.
Proof. induction a as [|x a IH]; [done|]. rewrite !app_cons_str. by f_equal. Qed.

Lemma length_app_str a b : String.length (a +:+ b) = String.length a + String.length b.
Proof. induction a as [|x a IH]; [done|]. rewrite app_cons_str; simpl. by f_equal. Qed.

Lemma app_inj_l a b c : a +:+ b = a +:+ c -> b = c.
Proof. induction a as [|x a IH]; [done|]. rewrite !app_cons_str. intros [=]; auto. Qed.

Lemma app_inj_r a b c : a +:+ c = b +:+ c -> a = b.
Proof.
  revert b; induction a as [|x a IH]; intros b H.
  - assert (HL := f_equal String.length H). rewrite !length_app_str in HL.
    destruct b; [done|simpl in HL; lia].
  - destruct b as [|y b].
    + assert (HL := f_equal String.length H). rewrite !length_app_str in HL. simpl in HL; lia.
    + rewrite !app_cons_str in H. injection H as -> H. f_equal. by apply IH.
Qed.

Lemma all_bytes_app P a b : all_bytes P (a +:+ b) = all_bytes P a && all_bytes P b.
Proof. induction a as [|x a IH]; [done|]. rewrite app_cons_str; simpl. by rewrite IH, andb_assoc. Qed.

Lemma all_bytes_impl (P Q : ascii -> bool) s :
  (forall c, P c = true -> Q c = true) -> all_bytes P s = true -> all_bytes Q s = true.
Proof.
  intros HPQ. induction s as [|x s IH]; simpl; [done|].
  rewrite !andb_true_iff. naive_solver.
Qed.

Lemma contains_byte_false c s :
  contains_byte c s = false <-> all_bytes (fun d => negb (Ascii.eqb c d)) s = true.
Proof. unfold contains_byte. by rewrite negb_false_iff. Qed.

Lemma strip_prefix_Some p s r : strip_prefix p s = Some r <-> s = p +:+ r.
Proof.
  revert s; induction p as [|a p IH]; intros s; simpl; [naive_solver|].
  destruct s as [|b s]; [by split|]. rewrite app_cons_str.
  case_decide; simplify_eq; [rewrite IH|]; naive_solver.
Qed.

Lemma strip_prefix_app p r : strip_prefix p (p +:+ r) = Some r.
Proof. by apply strip_prefix_Some. Qed.

Lemma HasPrefix_true s p : HasPrefix s p = true <-> exists r, s = p +:+ r.
Proof.
  unfold HasPrefix. destruct (strip_prefix p s) as [r|] eqn:H.
  - apply strip_prefix_Some in H as ->. naive_solver.
  - split; [done|]. intros [r ->]. by rewrite strip_prefix_app in H.
Qed.

Lemma strip_suffix_Some suf s r : strip_suffix suf s = Some r <-> s = r +:+ suf.
Proof.
  revert r; induction s as [|c s IH]; intros r; simpl.
  - case_decide; subst.
    + rewrite app_nil_str. naive_solver.
    + split; [done|]. destruct r; [|done]. naive_solver.
  - case_decide as Hd.
    + subst. split; [by intros [= <-]|]. intros H. symmetry in H.
      change (String c s) with ("" +:+ String c s) in H at 2.
      apply app_inj_r in H as ->. done.
    + rewrite fmap_Some. split.
      * intros (r' & Hr' & ->). apply IH in Hr' as ->. done.
      * destruct r as [|d r]; [naive_solver|]. rewrite app_cons_str.
        intros [= <- ->]. exists r. by rewrite IH.
Qed.

Lemma strip_suffix_app r suf : strip_suffix suf (r +:+ suf) = Some r.
Proof. by apply strip_suffix_Some. Qed.

Lemma drop_str_app a b : drop_str (String.length a) (a +:+ b) = b.
Proof. induction a; [done|]. rewrite app_cons_str. done. Qed.

Lemma Index_Some s sub n :
  Index s sub = Some n -> exists a b, s = a +:+ sub +:+ b /\ String.length a = n.
Proof.
  revert n; induction s as [|c s IH]; intros n; simpl.
  - destruct (strip_prefix sub "") as [r|] eqn:E; [|done]. apply strip_prefix_Some in E.
    intros [= <-]. exists "", r. by split; [exact E|].
  - destruct (strip_prefix sub (String c s)) as [r|] eqn:E.
    + apply strip_prefix_Some in E. intros [= <-]. exists "", r. by split; [exact E|].
    + intros (m & Hm & ->)%fmap_Some. apply IH in Hm as (a & b & -> & <-).
      by exists (String c a), b.
Qed.

(** The occurrence [Index] finds is the first one. *)
Lemma Index_first s sub a b :
  s = a +:+ sub +:+ b ->
  exists n, Index s sub = Some n /\ n <= String.length a.
Proof.
  revert s; induction a as [|c a IH]; intros s ->.
  - exists O. split; [|lia]. change ("" +:+ sub +:+ b) with (sub +:+ b).
    destruct (sub +:+ b) eqn:E; simpl;
      rewrite <- E, strip_prefix_app; done.
  - rewrite app_cons_str. simpl.
    destruct (strip_prefix sub (String c (a +:+ sub +:+ b))); [exists O; split; [done|lia]|].
    destruct (IH _ eq_refl) as (n & -> & Hn). exists (S n). split; [done|lia].
Qed.

Lemma Contains_true s sub : Contains s sub = true <-> exists a b, s = a +:+ sub +:+ b.
Proof.
  unfold Contains. split.
  - destruct (Index s sub) eqn:E; [|done]. apply Index_Some in E as (a & b & -> & _). eauto.
  - intros (a & b & H). apply Index_first in H as (n & -> & _). done.
Qed.

(** ** Lemmas on Split and Join *)

Lemma Split_nonempty sep s : Split sep s <> [].
Proof. destruct s; simpl; [done|]. by repeat case_match. Qed.

Lemma Join_cons sep x l : l <> [] -> Join sep (x :: l) = x +:+ String sep (Join sep l).
Proof. by destruct l. Qed.

Lemma Join_Split sep s : Join sep (Split sep s) = s.
Proof.
  induction s as [|c s IH]; [done|]. simpl.
  destruct (Ascii.eqb c sep) eqn:E; bool_prop.
  - subst. rewrite Join_cons by apply Split_nonempty. by rewrite IH.
  - destruct (Split sep s) as [|h t] eqn:Hs; [by apply Split_nonempty in Hs|].
    rewrite <- IH. by destruct t.
Qed.

Definition no_sep (sep : ascii) (s : string) : Prop :=
  all_bytes (fun d => negb (Ascii.eqb d sep)) s = true.

Lemma Cut_first a b sep : no_sep sep a -> Cut (a +:+ String sep b) sep = Some (a, b).
Proof.
  induction a as [|c a IH]; intros H; [simpl; by rewrite Ascii.eqb_refl|]. rewrite app_cons_str. unfold no_sep in *. simpl in *.
  apply andb_true_iff in H as [Hc Ha]. destruct (Ascii.eqb c sep); [done|]. by rewrite IH.
Qed.

Lemma Split_no_sep sep s : no_sep sep s -> Split sep s = [s].
Proof.
  unfold no_sep. induction s as [|c s IH]; simpl; [done|]. intros H; bool_prop.
  rewrite (proj2 (Ascii.eqb_neq c sep)) by done. by rewrite IH.
Qed.

Lemma Split_app sep a b : Split sep (a +:+ String sep b) = Split sep a ++ Split sep b.
Proof.
  induction a as [|c a IH].
  - change ("" +:+ String sep b) with (String sep b). simpl. by rewrite Ascii.eqb_refl.
  - rewrite app_cons_str. simpl. rewrite IH. destruct (Ascii.eqb c sep); [done|].
    destruct (Split sep a) eqn:E; [by apply Split_nonempty in E|done].
Qed.

Lemma Split_app_sep sep a s : no_sep sep a -> Split sep (a +:+ String sep s) = a :: Split sep s.
Proof. intros H. by rewrite Split_app, Split_no_sep. Qed.

Lemma Split_Join sep l : l <> [] -> Forall (no_sep sep) l -> Split sep (Join sep l) = l.
Proof.
  intros Hne Hl. induction Hl as [|x l Hx Hl IH]; [done|].
  destruct l as [|y l]; [by apply Split_no_sep|].
  rewrite Join_cons by done. rewrite Split_app_sep by done. by rewrite IH.
Qed.

Lemma Split_pieces sep s : Forall (no_sep sep) (Split sep s).
Proof.
  induction s as [|c s IH]; simpl; [by repeat constructor|].
  destruct (Ascii.eqb c sep) eqn:E; [by constructor|].
  destruct (Split sep s) as [|h t] eqn:Hs; [by apply Split_nonempty in Hs|].
  inversion IH; subst. constructor; [|done]. unfold no_sep; simpl. by rewrite E.
Qed.

Lemma Split_all_bytes P sep s :
  all_bytes P s = true -> Forall (fun p => all_bytes P p = true) (Split sep s).
Proof.
  induction s as [|c s IH]; simpl; [by repeat constructor|].
  intros H; bool_prop. destruct (Ascii.eqb c sep); [constructor; auto|].
  specialize (IH H0). destruct (Split sep s); inversion IH; subst; constructor; simpl; auto.
  - by rewrite H.
  - rewrite H. auto.
Qed.

Lemma Join_all_bytes P sep l :
  P sep = true -> Forall (fun p => all_bytes P p = true) l -> all_bytes P (Join sep l) = true.
Proof.
  intros Hsep Hl. induction Hl as [|x l Hx Hl IH]; [done|].
  destruct l as [|y l]; [done|]. rewrite Join_cons by done.
  rewrite all_bytes_app, Hx. cbn [all_bytes andb]. rewrite Hsep. exact IH.
Qed.

(** ** Lemmas on boolean searches *)

Lemma existsb_ext {A} (f g : A -> bool) l : (forall x, f x = g x) -> existsb f l = existsb g l.
Proof. intros H. induction l; simpl; [done|]. by rewrite H, IHl. Qed.

Lemma existsb_elem {A} (f : A -> bool) l :
  existsb f l = true <-> exists x, x ∈ l /\ f x = true.
Proof.
  rewrite existsb_exists. split; intros (x & H1 & H2); exists x; split; try done;
    by apply list_elem_of_In.
Qed.

(** ** Lemmas on machine integers *)

Lemma wrap64_id z : in64 z -> wrap64 z = z.
Proof. unfold in64, wrap64. intros H. rewrite Z.mod_small; lia. Qed.

Lemma wrap64_range z : in64 (wrap64 z).
Proof.
  unfold in64, wrap64. assert (H := Z.mod_pos_bound (z + 2 ^ 63) (2 ^ 64)). lia.
Qed.

#[export] Hint Resolve wrap64_range Split_nonempty Split_pieces : go.
#[export] Hint Rewrite app_nil_str app_assoc_str strip_prefix_app strip_suffix_app : go.
