(* ===== verification/GoSort.v ===== *)
(** * [sort.Strings], [slices.Sort] and ordering of Go strings

    Byte-wise string comparison and an insertion sort. Sorting a list of strings has one possible
    result, so the algorithm Go uses is immaterial; the lemmas say the result is a sorted
    permutation, and that two permutations sort alike. *)
From Stdlib Require Import Sorting.Sorted.
From S2P Require Import Prelude.

(** Go's [<=] on strings. *)
Fixpoint str_leb (a b : string) : bool :=
  match a, b with
  | EmptyString, _ => true
  | String _ _, EmptyString => false
  | String x a', String y b' =>
      if (byteN x <? byteN y)%N then true
      else if (byteN y <? byteN x)%N then false
      else str_leb a' b'
  end.
Definition str_ltb (a b : string) : bool := negb (str_leb b a).

Fixpoint insert_sorted {A} (leb : A -> A -> bool) (x : A) (l : list A) : list A :=
  match l with
  | [] => [x]
  | y :: r => if leb x y then x :: l else y :: insert_sorted leb x r
  end.
Fixpoint isort {A} (leb : A -> A -> bool) (l : list A) : list A :=
  match l with [] => [] | x :: r => insert_sorted leb x (isort leb r) end.

Definition sort_strings : list string -> list string := isort str_leb.

(** ** Lemmas *)

Lemma byteN_inj a b : byteN a = byteN b -> a = b.
Proof. intros H. rewrite <- (ascii_N_embedding a), <- (ascii_N_embedding b). unfold byteN in H. by rewrite H. Qed.

Lemma str_leb_refl a : str_leb a a = true.
Proof. induction a as [|c a IH]; simpl; [done|]. by rewrite N.ltb_irrefl. Qed.

Lemma str_leb_total a b : str_leb a b = true \/ str_leb b a = true.
Proof.
  revert b; induction a as [|x a IH]; intros [|y b]; simpl; auto.
  destruct (N.ltb_spec (byteN x) (byteN y)); [by left|].
  destruct (N.ltb_spec (byteN y) (byteN x)); [by right|]. apply IH.
Qed.

Lemma str_leb_antisym a b : str_leb a b = true -> str_leb b a = true -> a = b.
Proof.
  revert b; induction a as [|x a IH]; intros [|y b]; simpl; try done.
  destruct (N.ltb_spec (byteN x) (byteN y)); destruct (N.ltb_spec (byteN y) (byteN x)); try done; [lia|].
  intros H1 H2. f_equal; [apply byteN_inj; lia|auto].
Qed.

Lemma str_leb_trans a b c : str_leb a b = true -> str_leb b c = true -> str_leb a c = true.
Proof.
  revert b c; induction a as [|x a IH]; intros [|y b] [|z c]; simpl; try done.
  destruct (N.ltb_spec (byteN x) (byteN y)); destruct (N.ltb_spec (byteN y) (byteN z));
    destruct (N.ltb_spec (byteN x) (byteN z)); destruct (N.ltb_spec (byteN y) (byteN x));
    destruct (N.ltb_spec (byteN z) (byteN y)); destruct (N.ltb_spec (byteN z) (byteN x)); try done; try lia.
  apply IH.
Qed.

Section Sort.
Context {A : Type} (leb : A -> A -> bool).
Hypothesis leb_total : forall a b, leb a b = true \/ leb b a = true.
Hypothesis leb_trans : forall a b c, leb a b = true -> leb b c = true -> leb a c = true.

Lemma insert_sorted_perm x l : insert_sorted leb x l ≡ₚ x :: l.
Proof.
  induction l as [|y l IH]; simpl; [done|]. destruct (leb x y); [done|].
  rewrite IH. constructor.
Qed.

Lemma isort_perm l : isort leb l ≡ₚ l.
Proof. induction l as [|x l IH]; simpl; [done|]. by rewrite insert_sorted_perm, IH. Qed.

Lemma insert_sorted_sorted x l :
  StronglySorted (fun a b => leb a b = true) l -> StronglySorted (fun a b => leb a b = true) (insert_sorted leb x l).
Proof.
  induction 1 as [|y l Hl IH Hy]; simpl; [repeat constructor|].
  destruct (leb x y) eqn:E.
  - constructor; [by constructor|]. constructor; [done|]. eapply Forall_impl; [exact Hy|].
    intros z Hz. by eapply leb_trans.
  - constructor; [done|]. rewrite insert_sorted_perm. constructor; [|done].
    by destruct (leb_total y x); [|congruence].
Qed.

Lemma isort_sorted l : StronglySorted (fun a b => leb a b = true) (isort leb l).
Proof. induction l; simpl; [constructor|by apply insert_sorted_sorted]. Qed.
End Sort.

Lemma isort_map {A B} (leb : A -> A -> bool) (leb' : B -> B -> bool) (f : A -> B) l :
  (forall a b, leb' (f a) (f b) = leb a b) -> isort leb' (map f l) = map f (isort leb l).
Proof.
  intros H. induction l as [|x l IH]; simpl; [done|]. rewrite IH. clear IH. induction (isort leb l) as [|y k IH]; simpl; [done|].
  rewrite H. destruct (leb x y); simpl; [done|]. by rewrite IH.
Qed.

Lemma strongly_sorted_unique_in {A} (R : A -> A -> Prop) l k :
  (forall a b, a ∈ l -> b ∈ l -> R a b -> R b a -> a = b) ->
  StronglySorted R l -> StronglySorted R k -> l ≡ₚ k -> l = k.
Proof.
  intros Hanti Hl. revert k Hanti; induction Hl as [|x l Hl IH Hx]; intros k Hanti Hk Hp.
  - by apply Permutation_nil_l in Hp.
  - destruct Hk as [|y k Hk Hy]; [by apply Permutation_nil_r in Hp|].
    assert (x = y).
    { assert (H1 : y ∈ x :: l) by (rewrite Hp; left). assert (H2 : x ∈ y :: k) by (rewrite <- Hp; left). pose proof H1 as H1'.
      apply elem_of_cons in H1 as [->|H1]; [done|]. apply elem_of_cons in H2 as [->|H2]; [done|].
      rewrite Forall_forall in Hx, Hy. apply Hanti; auto. left. }
    subst y. f_equal. apply IH; [|done|by apply Permutation_cons_inv in Hp]. intros a b Ha Hb. apply Hanti; by right.
Qed.
Lemma strongly_sorted_unique {A} (R : A -> A -> Prop) l k :
  (forall a b, R a b -> R b a -> a = b) ->
  StronglySorted R l -> StronglySorted R k -> l ≡ₚ k -> l = k.
Proof. intros H. apply strongly_sorted_unique_in. auto. Qed.

(** Sorting forgets the order, where the order relation tells the elements apart. *)
Lemma isort_unique {A} (leb : A -> A -> bool) l k :
  (forall a b, leb a b = true \/ leb b a = true) -> (forall a b c, leb a b = true -> leb b c = true -> leb a c = true) ->
  (forall a b, a ∈ l -> b ∈ l -> leb a b = true -> leb b a = true -> a = b) -> l ≡ₚ k -> isort leb l = isort leb k.
Proof.
  intros Htot Htr Hanti Hp. apply (strongly_sorted_unique_in (fun a b => leb a b = true)).
  - intros a b. rewrite !(isort_perm leb l). apply Hanti.
  - by apply isort_sorted.
  - by apply isort_sorted.
  - by rewrite !isort_perm.
Qed.

Lemma sort_strings_perm l : sort_strings l ≡ₚ l.
Proof. apply isort_perm. Qed.

Lemma sort_strings_sorted l : StronglySorted (fun a b => str_leb a b = true) (sort_strings l).
Proof. apply isort_sorted; [apply str_leb_total|apply str_leb_trans]. Qed.

Lemma sort_strings_ext l k : l ≡ₚ k <-> sort_strings l = sort_strings k.
Proof.
  split.
  - intros H. apply (strongly_sorted_unique (fun a b => str_leb a b = true));
      [apply str_leb_antisym|apply sort_strings_sorted..|]. by rewrite !sort_strings_perm.
  - intros H. by rewrite <- (sort_strings_perm l), H, sort_strings_perm.
Qed.
