(* ===== verification/GoAny.v ===== *)
(** * Values of type [any]: what decoders, parameters and expressions pass around

    The dynamic types the program meets, the lookups and type assertions it makes on them, and
    induction over them. No source line maps here. *)
From S2P Require Import Prelude.

(** [AInt] is an int or int64, [ANumber] a [json.Number], [AOther] any other Go type by its name,
    such as the uint64 of a YAML scalar. A map is its entries, in whatever order it is ranged in. *)
Inductive any :=
| ANil | ABool (b : bool) | AString (s : string) | AInt (z : Z) | ANumber (s : string) | AFloat (f : Float64) | ATime (t : Time)
| AOther (type : string) | AList (l : list any) | AMap (m : list (string * any)).

(** [m[k]] *)
Definition assoc {A} (k : string) (m : list (string * A)) : option A := (fun p => p.2.2) <$> list_find (fun p => p.1 = k) m.

(** [v.(map[string]any)], [v.([]any)] and [v.(string)] with the second result ignored. *)
Definition as_map (v : any) : list (string * any) := match v with AMap m => m | _ => [] end.
Definition as_list (v : any) : list any := match v with AList l => l | _ => [] end.
Definition as_string (v : any) : string := match v with AString s => s | _ => "" end.

Section AnyInduction.
Variable P : any -> Prop.
Hypothesis Hleaf : forall v, match v with AList _ | AMap _ => False | _ => True end -> P v.
Hypothesis Hlist : forall l, Forall P l -> P (AList l).
Hypothesis Hmap : forall m, Forall (fun p => P p.2) m -> P (AMap m).
Fixpoint any_nested_ind (v : any) : P v :=
  match v with
  | AList l => Hlist l ((fix go l : Forall P l :=
      match l with [] => @List.Forall_nil _ _ | x :: r => @List.Forall_cons _ _ x r (any_nested_ind x) (go r) end) l)
  | AMap m => Hmap m ((fix go m : Forall (fun p => P p.2) m :=
      match m with [] => @List.Forall_nil _ _ | x :: r => @List.Forall_cons _ (fun p => P p.2) x r (any_nested_ind x.2) (go r) end) m)
  | v => Hleaf v I
  end.
End AnyInduction.

Lemma assoc_Some {A} k (m : list (string * A)) v : assoc k m = Some v -> (k, v) ∈ m.
Proof.
  unfold assoc. destruct (list_find _ m) as [[i [k' v']]|] eqn:E; [|done]. apply list_find_Some in E as (Hl & Hk & _).
  intros [= <-]. simpl in *. subst k'. by eapply list_elem_of_lookup_2.
Qed.
