(* ===== verification/GoPath.v ===== *)
(** * path/filepath on Unix paths

    [Clean], [Join], [Dir], [Base], [Ext], [IsAbs] and [IsLocal]: standard-library operations, written out as
    executable definitions; no source line maps here. [path.Clean] is the same function. *)
From S2P Require Import Prelude.

(** [filepath.Clean] on its elements: what stays, innermost first. *)
Fixpoint clean_parts (rooted : bool) (out parts : list string) : list string :=
  match parts with
  | [] => reverse out
  | p :: rest =>
      if String.eqb p "" || String.eqb p "." then clean_parts rooted out rest
      else if String.eqb p ".." then
        match out with
        | [] => clean_parts rooted (if rooted then [] else [".."]) rest
        | o :: out' => if String.eqb o ".." then clean_parts rooted (".." :: out) rest else clean_parts rooted out' rest
        end
      else clean_parts rooted (p :: out) rest
  end.

Definition filepath_Clean (p : string) : string :=
  let rooted := HasPrefix p "/" in
  let body := Join "/" (clean_parts rooted [] (Split "/" p)) in
  if rooted then "/" +:+ body else if String.eqb body "" then "." else body.

(** [filepath.Join] of two elements: empty ones are ignored. *)
Definition filepath_Join (a b : string) : string :=
  if String.eqb a "" then (if String.eqb b "" then "" else filepath_Clean b)
  else if String.eqb b "" then filepath_Clean a else filepath_Clean (a +:+ "/" +:+ b).

(** The path up to and including its last slash, and what follows. *)
Fixpoint split_dir (s : string) : string * string :=
  match s with
  | EmptyString => ("", "")
  | String c r => let '(d, b) := split_dir r in
                  if String.eqb d "" && negb (Ascii.eqb c "/") then (d, String c b) else (String c d, b)
  end.
Definition filepath_Dir (p : string) : string := filepath_Clean (split_dir p).1.
Fixpoint trim_slashes (s : string) : string :=
  match s with
  | EmptyString => ""
  | String c r => let r' := trim_slashes r in if String.eqb r' "" && Ascii.eqb c "/" then "" else String c r'
  end.
Definition filepath_Base (p : string) : string :=
  if String.eqb p "" then "."
  else let b := (split_dir (trim_slashes p)).2 in if String.eqb b "" then "/" else b.
Definition filepath_IsAbs (p : string) : bool := HasPrefix p "/".

(** [filepath.IsLocal]: relative, not empty, and not out of the directory it is taken from. *)
Definition filepath_IsLocal (p : string) : bool :=
  if filepath_IsAbs p || String.eqb p "" then false
  else
    let dotted := existsb (fun x => String.eqb x "." || String.eqb x "..") (Split "/" p) in
    let p := if dotted then filepath_Clean p else p in
    negb (String.eqb p ".." || HasPrefix p "../").

Fixpoint ext_from (s cur : string) : string :=
  match s with
  | "" => cur
  | String c r => if Ascii.eqb c "/" then ext_from r "" else if Ascii.eqb c "." then ext_from r s else ext_from r cur
  end.
Definition filepath_Ext (path : string) : string := ext_from path "".

Example path_samples :
  map filepath_Dir ["/etc/veduta/veduta.yaml"; "veduta.yaml"; "/x"; "a//b/"; ""] = ["/etc/veduta"; "."; "/"; "a/b"; "."]
  /\ map filepath_Base ["/etc/veduta/veduta.yaml"; "veduta.yaml"; "/"; "a//b/"; ""] = ["veduta.yaml"; "veduta.yaml"; "/"; "b"; "."]
  /\ map filepath_Ext ["/a.b/c"; "x.tar.gz"; "."; "a/.yaml"] = [""; ".gz"; "."; ".yaml"]
  /\ map filepath_IsLocal ["x.wasm"; "a/../b"; "a/../../b"; "/x"; ""; ".."; "..x"] = [true; true; false; false; false; false; true].
Proof. by vm_compute. Qed.
