(* ===== verification/RoutePath.v ===== *)
(** * Route paths (src/internal/connections/routepath)

    The one canonicalisation and glob-matching routine behind every authority check: [Canonicalise]
    (canonicalise.go), [Match] (match.go), [HasPathPrefix] (prefix.go) and path templates
    (template.go). A Go string is a byte string; a slice index out of range, which Go turns into a
    run-time panic, is the explicit error [PanicIndex], and the theorems show it is unreachable.

    Definitions come first; then the proof that the escape checker accepts exactly the
    well-formed strings, that canonical paths are a normal form, that the segment matcher decides
    the declarative glob relation, that [HasPathPrefix] is the subtree relation on segments, and
    that a template covered by a route only expands to paths of that route. *)
From S2P Require Import Prelude.

(** The distinct errors of canonicalise.go and template.go, and the run-time panic. *)
Inductive path_error :=
| ErrNotAbsolute
| ErrBackslash
| ErrControlOrSpace
| ErrMalformedEscape
| ErrEncodedSeparator
| ErrDotSegment
| ErrEmptySegment
| ErrQueryOrFragment
| ErrTemplateBrace
| ErrPlaceholderName
| ErrPlaceholderValue
| ErrPlaceholderAbsent
| PanicIndex.

Definition slash : ascii := "/"%char.
Definition backslash : ascii := "\"%char.
Definition percent : ascii := "%"%char.
Definition star : ascii := "*"%char.

(** ** canonicalise.go *)

Definition in_range (lo hi : N) (b : ascii) : bool := ((lo <=? byteN b) && (byteN b <=? hi))%N.

Definition isHex (b : ascii) : bool :=
  in_range 48 57 b || in_range 97 102 b || in_range 65 70 b.

(** [uint8] arithmetic: the default branch wraps for a byte that is not a hex digit. *)
Definition hexVal (b : ascii) : N :=
  if in_range 48 57 b then (byteN b - 48)%N
  else if in_range 97 102 b then (byteN b - 97 + 10)%N
  else ((byteN b + 256 - 65 + 10) mod 256)%N.

Definition hexByte (hi lo : ascii) : ascii :=
  ascii_of_N (N.lor (N.shiftl (hexVal hi) 4 mod 256) (hexVal lo)).

Definition isUnreserved (b : ascii) : bool :=
  in_range 65 90 b || in_range 97 122 b || in_range 48 57 b
  || (Ascii.eqb b "-" || Ascii.eqb b "." || Ascii.eqb b "_" || Ascii.eqb b "~").

(** [fmt.Fprintf(&normalised, "%%%02x", b)] *)
Definition hexDigit (n : N) : ascii := ascii_of_N (if (n <? 10)%N then n + 48 else n + 87).
Definition percent02x (b : ascii) : string :=
  String percent (String (hexDigit (byteN b / 16)) (String (hexDigit (byteN b mod 16)) "")).

Fixpoint checkEscapesWellFormed (raw : string) : option path_error :=
  match raw with
  | EmptyString => None
  | String c rest =>
      if negb (Ascii.eqb c percent) then checkEscapesWellFormed rest
      else match rest with
           | String h (String l rest') =>
               if negb (isHex h && isHex l) then Some ErrMalformedEscape
               else let b := hexByte h l in
                    if Ascii.eqb b slash || Ascii.eqb b backslash then Some ErrEncodedSeparator
                    else checkEscapesWellFormed rest'
           | _ => Some ErrMalformedEscape
           end
  end.

(** The loop of [canonicaliseSegment]: the decoded bytes and the normalised text, or the panic of
    reading past the end of the segment. *)
Fixpoint segment_loop (seg : string) : res path_error (string * string) :=
  match seg with
  | EmptyString => Ok ("", "")
  | String c rest =>
      if negb (Ascii.eqb c percent) then
        let! (d, n) := segment_loop rest in Ok (String c d, String c n)
      else match rest with
           | String h (String l rest') =>
               let b := hexByte h l in
               let! (d, n) := segment_loop rest' in
               Ok (String b d, if isUnreserved b then String b n else percent02x b +:+ n)
           | _ => Err PanicIndex
           end
  end.

Definition is_dots (s : string) : bool := String.eqb s "." || String.eqb s "..".

Definition canonicaliseSegment (seg : string) : res path_error string :=
  if String.eqb seg "" then Err ErrEmptySegment
  else if is_dots seg then Err ErrDotSegment
  else let! (d, normalised) := segment_loop seg in
       if is_dots d then Err ErrDotSegment else Ok normalised.

(** [raw[i] <= 0x20 || raw[i] == 0x7f] *)
Definition isControlOrSpace (b : ascii) : bool := ((byteN b <=? 32) || (byteN b =? 127))%N.

Definition Canonicalise (raw : string) : res path_error string :=
  if negb (HasPrefix raw "/") then Err ErrNotAbsolute
  else if contains_byte backslash raw then Err ErrBackslash
  else if contains_byte "?" raw || contains_byte "#" raw then Err ErrQueryOrFragment
  else if negb (all_bytes (fun b => negb (isControlOrSpace b)) raw) then Err ErrControlOrSpace
  else match checkEscapesWellFormed raw with
       | Some e => Err e
       | None =>
           if String.eqb raw "/" then Ok "/"
           else let! out := res_mapM canonicaliseSegment (Split slash (drop_str 1 raw)) in
                Ok (String slash (Join slash out))
       end.

(** ** match.go *)

(** The loop over the middle parts of a pattern segment. *)
Fixpoint match_middle (parts : list string) (seg : string) : bool :=
  match parts with
  | [] => true
  | part :: parts' =>
      if String.eqb part "" then match_middle parts' seg
      else match Index seg part with
           | None => false
           | Some idx => match_middle parts' (drop_str (idx + String.length part) seg)
           end
  end.

Definition matchSegment (pattern seg : string) : bool :=
  if negb (contains_byte star pattern) then String.eqb pattern seg
  else
    let parts := Split star pattern in
    let first := List.hd "" parts in
    let last := List.last parts "" in
    if negb (HasPrefix seg first) then false
    else
      let seg := drop_str (String.length first) seg in
      if negb (HasSuffix seg last) then false
      else match_middle (removelast (tl parts)) (TrimSuffix seg last).

(** The [for i, ps := range patternSegs] loop, the lengths being equal. *)
Fixpoint match_all (patternSegs pathSegs : list string) : bool :=
  match patternSegs, pathSegs with
  | ps :: patternSegs', s :: pathSegs' => matchSegment ps s && match_all patternSegs' pathSegs'
  | _, _ => true
  end.

Definition Match (pattern path : string) : bool :=
  let patternSegs := Split slash (TrimPrefix pattern "/") in
  let pathSegs := Split slash (TrimPrefix path "/") in
  if negb (Nat.eqb (length patternSegs) (length pathSegs)) then false
  else match_all patternSegs pathSegs.

(** ** prefix.go *)

Definition HasPathPrefix (canonicalPath canonicalPrefix : string) : bool :=
  if String.eqb canonicalPrefix "/" || String.eqb canonicalPath canonicalPrefix then true
  else HasPrefix canonicalPath (TrimSuffix canonicalPrefix "/" +:+ "/").

(** ** template.go *)

Record templateSegment := { literal : string; placeholder : string }.
Record Template := { raw : string; segments : list templateSegment }.

Definition isLetter (b : ascii) : bool := in_range 65 90 b || in_range 97 122 b.
Definition isWord (b : ascii) : bool := isLetter b || in_range 48 57 b || Ascii.eqb b "_".

(** [^[A-Za-z][A-Za-z0-9_]{0,31}$] *)
Definition placeholderName (name : string) : bool :=
  match name with
  | EmptyString => false
  | String c rest => isLetter c && all_bytes isWord rest && Nat.leb (String.length rest) 31
  end.

Definition ValidPlaceholderValue (v : string) : bool :=
  if String.eqb v "" || Nat.ltb 128 (String.length v) || is_dots v then false
  else all_bytes (fun b => isUnreserved b || Ascii.eqb b ":" || Ascii.eqb b "@") v.

Definition has_brace (s : string) : bool := contains_byte "{" s || contains_byte "}" s.

(** [part[1:len(part)-1]] together with the checks on its first and last byte. *)
Definition placeholder_body (part : string) : option string :=
  match strip_prefix "{" part with
  | None => None
  | Some rest => match strip_suffix "}" rest with
                 | None => None
                 | Some name => if String.eqb name "" || has_brace name then None else Some name
                 end
  end.

(** One iteration of [ParseTemplate]'s loop: the template segment and its stand-in. *)
Definition parse_part (part : string) : res path_error (templateSegment * string) :=
  if has_brace part then
    match placeholder_body part with
    | None => Err ErrTemplateBrace
    | Some name =>
        if negb (placeholderName name) then Err ErrPlaceholderName
        else Ok ({| literal := ""; placeholder := name |}, "x")
    end
  else Ok ({| literal := ""; placeholder := "" |}, part).

(** The loop that fills in the canonical literals, [t.segments[i].literal = seg]. *)
Fixpoint fill_literals (ts : list templateSegment) (segs : list string)
    : res path_error (list templateSegment) :=
  match segs, ts with
  | [], _ => Ok ts
  | _ :: _, [] => Err PanicIndex
  | seg :: segs', t :: ts' =>
      let! ts'' := fill_literals ts' segs' in
      Ok ((if String.eqb (placeholder t) ""
           then {| literal := seg; placeholder := placeholder t |} else t) :: ts'')
  end.

Definition ParseTemplate (s : string) : res path_error Template :=
  if String.eqb s "/" then
    let! _ := Canonicalise s in Ok {| raw := s; segments := [] |}
  else if negb (HasPrefix s "/") then Err ErrNotAbsolute
  else
    let! parsed := res_mapM parse_part (Split slash (drop_str 1 s)) in
    let! canonical := Canonicalise (String slash (Join slash (map snd parsed))) in
    let! segs := fill_literals (map fst parsed) (Split slash (drop_str 1 canonical)) in
    Ok {| raw := s; segments := segs |}.

Definition Placeholders (t : Template) : list string :=
  List.filter (fun n => negb (String.eqb n "")) (map placeholder (segments t)).

Fixpoint covered_all (globSegments : list string) (ts : list templateSegment) : bool :=
  match globSegments, ts with
  | g :: globSegments', s :: ts' =>
      (if negb (String.eqb (placeholder s) "") then String.eqb g "*"
       else matchSegment g (literal s)) && covered_all globSegments' ts'
  | _, _ => true
  end.

Definition CoveredBy (t : Template) (pattern : string) : bool :=
  match Canonicalise pattern with
  | Err _ => false
  | Ok canonical =>
      match segments t with
      | [] => String.eqb canonical "/"
      | _ =>
          let globSegments := Split slash (TrimPrefix canonical "/") in
          if String.eqb canonical "/"
             || negb (Nat.eqb (length globSegments) (length (segments t))) then false
          else covered_all globSegments (segments t)
      end
  end.

Definition expand_segment (values : gmap string string) (s : templateSegment)
    : res path_error string :=
  if String.eqb (placeholder s) "" then Ok (literal s)
  else match values !! placeholder s with
       | None => Err ErrPlaceholderAbsent
       | Some v => if ValidPlaceholderValue v then Ok v else Err ErrPlaceholderValue
       end.

Definition Expand (t : Template) (values : gmap string string) : res path_error string :=
  match segments t with
  | [] => Ok "/"
  | ts => let! out := res_mapM (expand_segment values) ts in
          Canonicalise (String slash (Join slash out))
  end.

(** ** Escapes: the checker accepts exactly the well-formed strings *)

Inductive wf_esc : string -> Prop :=
| wf_nil : wf_esc ""
| wf_lit c s : c <> percent -> wf_esc s -> wf_esc (String c s)
| wf_pct h l s :
    isHex h = true -> isHex l = true ->
    hexByte h l <> slash -> hexByte h l <> backslash ->
    wf_esc s -> wf_esc (String percent (String h (String l s))).

#[local] Hint Constructors wf_esc : go.

Lemma check_wf s : wf_esc s -> checkEscapesWellFormed s = None.
Proof.
  induction 1 as [|c s Hc Hs IH|h l s Hh Hl H1 H2 Hs IH]; simpl; [done| |].
  - by rewrite (proj2 (Ascii.eqb_neq c percent)).
  - rewrite Hh, Hl, (proj2 (Ascii.eqb_neq _ slash)), (proj2 (Ascii.eqb_neq _ backslash)); done.
Qed.

Lemma wf_check s : checkEscapesWellFormed s = None -> wf_esc s.
Proof.
  remember (String.length s) as n eqn:Hn. assert (Hle : String.length s <= n) by lia. clear Hn.
  revert s Hle; induction n as [|n IH]; intros s Hle H; destruct s as [|c s]; simpl in *;
    [auto with go|lia|auto with go|].
  destruct (Ascii.eqb c percent) eqn:Ec; simpl in H.
  - bool_prop; subst. destruct s as [|h [|l s]]; try done.
    destruct (isHex h && isHex l) eqn:Eh; simpl in H; [|done].
    destruct (_ || _) eqn:Es in H; [done|]. bool_prop.
    apply wf_pct; auto. apply IH; [simpl in Hle; lia|done].
  - bool_prop. constructor; [done|]. apply IH; [lia|done].
Qed.

(** Hex digits are never separators, so a well-formed string stays so segment by segment. *)
Lemma isHex_not_slash c : isHex c = true -> Ascii.eqb c slash = false.
Proof. all_ascii c; done. Qed.

Lemma wf_Split s : wf_esc s -> Forall wf_esc (Split slash s).
Proof.
  induction 1 as [|c s Hc Hs IH|h l s Hh Hl H1 H2 Hs IH]; simpl; [by repeat constructor| |].
  - destruct (Ascii.eqb c slash); [constructor; auto with go|].
    destruct (Split slash s); inversion IH; subst; repeat constructor; auto.
  - rewrite (isHex_not_slash h), (isHex_not_slash l) by done.
    destruct (Split slash s) as [|p ps] eqn:E; [by apply Split_nonempty in E|].
    inversion IH; subst. constructor; [by apply wf_pct|done].
Qed.

Lemma wf_app a b : wf_esc a -> wf_esc b -> wf_esc (a +:+ b).
Proof. induction 1; intros Hb; rewrite ?app_cons_str; auto with go. Qed.

Lemma wf_Join l : Forall wf_esc l -> wf_esc (Join slash l).
Proof.
  induction 1 as [|x l Hx Hl IH]; [constructor|].
  destruct l as [|y l]; [done|]. rewrite Join_cons by done.
  apply wf_app; [done|]. constructor; [done|exact IH].
Qed.

(** ** One segment *)

Lemma hex_roundtrip b :
  hexByte (hexDigit (byteN b / 16)) (hexDigit (byteN b mod 16)) = b
  /\ isHex (hexDigit (byteN b / 16)) = true /\ isHex (hexDigit (byteN b mod 16)) = true.
Proof. all_ascii b; vm_compute; done. Qed.

Lemma unreserved_not_percent b : isUnreserved b = true -> b <> percent.
Proof. intros H ->. done. Qed.

Lemma percent02x_app b n :
  percent02x b +:+ n
  = String percent (String (hexDigit (byteN b / 16)) (String (hexDigit (byteN b mod 16)) n)).
Proof. done. Qed.

Lemma segment_loop_pct h l s :
  segment_loop (String percent (String h (String l s)))
  = let! (d, n) := segment_loop s in
    Ok (String (hexByte h l) d,
        if isUnreserved (hexByte h l) then String (hexByte h l) n
        else percent02x (hexByte h l) +:+ n).
Proof. done. Qed.

(** On a well-formed segment the loop terminates normally, its output is well formed, decodes to
    the same bytes and is a fixed point of the loop. *)
Lemma segment_loop_spec s :
  wf_esc s ->
  exists d n, segment_loop s = Ok (d, n) /\ wf_esc n /\ segment_loop n = Ok (d, n).
Proof.
  induction 1 as [|c s Hc Hs IH|h l s Hh Hl H1 H2 Hs IH].
  - exists "", "". auto with go.
  - destruct IH as (d & n & E1 & Hn & E2).
    assert (Ec := proj2 (Ascii.eqb_neq c percent) Hc).
    exists (String c d), (String c n). simpl. rewrite Ec, E1, E2. auto with go.
  - destruct IH as (d & n & E1 & Hn & E2). set (b := hexByte h l) in *.
    exists (String b d), (if isUnreserved b then String b n else percent02x b +:+ n).
    split; [by rewrite segment_loop_pct, E1|]. destruct (isUnreserved b) eqn:Eu.
    + apply unreserved_not_percent in Eu. split; [by constructor|].
      simpl. by rewrite (proj2 (Ascii.eqb_neq b percent) Eu), E2.
    + destruct (hex_roundtrip b) as (Hb & Hx & Hy). rewrite percent02x_app.
      split; [by apply wf_pct; rewrite ?Hb|]. rewrite segment_loop_pct, Hb.
      by rewrite E2; cbn [res_bind]; rewrite Eu.
Qed.

(** What the normalised text may contain: bytes of the input, unreserved bytes, or escapes. *)
Lemma segment_loop_bytes (P : ascii -> bool) s d n :
  P percent = true -> (forall b, isHex b = true -> P b = true) ->
  (forall b, isUnreserved b = true -> P b = true) ->
  wf_esc s -> segment_loop s = Ok (d, n) -> all_bytes P s = true -> all_bytes P n = true.
Proof.
  intros Hp Hh Hu Hwf; revert d n; induction Hwf as [|c s Hc Hs IH|h l s Hhx Hlx H1 H2 Hs IH];
    intros d n Hl H.
  - by simplify_eq/=.
  - simpl in Hl, H. rewrite (proj2 (Ascii.eqb_neq c percent) Hc) in Hl; simpl in Hl.
    destruct (segment_loop s) as [[d' n']|]; simplify_eq/=. bool_prop.
    apply andb_true_iff; split; [done|by eapply IH].
  - rewrite segment_loop_pct in Hl.
    destruct (segment_loop s) as [[d' n']|]; cbn [res_bind] in Hl; [|done].
    injection Hl as <- <-. cbn [all_bytes] in H; bool_prop.
    assert (Hn' : all_bytes P n' = true) by (by eapply IH).
    destruct (isUnreserved _) eqn:Eu.
    + cbn [all_bytes]. by rewrite Hu, Hn'.
    + rewrite percent02x_app. cbn [all_bytes].
      destruct (hex_roundtrip (hexByte h l)) as (_ & Hx & Hy).
      rewrite Hp, (Hh _ Hx), (Hh _ Hy). exact Hn'.
Qed.

Lemma segment_loop_nonempty s d n : segment_loop s = Ok (d, n) -> s <> "" -> n <> "".
Proof.
  destruct s as [|c s]; [done|]. simpl. destruct (negb _).
  - destruct (segment_loop s) as [[]|]; naive_solver.
  - destruct s as [|h [|l s]]; try done. destruct (segment_loop s) as [[]|]; simpl; [|done].
    intros [= <- <-] _. by destruct (isUnreserved _).
Qed.

Lemma segment_loop_dots s d :
  is_dots s = true -> segment_loop s = Ok (d, s) -> is_dots d = true.
Proof.
  unfold is_dots. intros [H|H]%orb_true_iff; bool_prop; subst; vm_compute; by intros [= <-].
Qed.

(** A canonical segment: the text [canonicaliseSegment] leaves alone, free of separators and of
    the bytes [Canonicalise] rejects. *)
Definition safe_byte (b : ascii) : bool :=
  negb (isControlOrSpace b) && negb (Ascii.eqb b backslash)
  && negb (Ascii.eqb b "?") && negb (Ascii.eqb b "#").

Record canonical_seg (s : string) : Prop := {
  cs_fix : canonicaliseSegment s = Ok s;
  cs_wf : wf_esc s;
  cs_sep : no_sep slash s;
  cs_safe : all_bytes safe_byte s = true;
}.

Lemma hex_safe b : isHex b = true -> safe_byte b && negb (Ascii.eqb b slash) = true.
Proof. all_ascii b; vm_compute; done. Qed.
Lemma unreserved_safe b : isUnreserved b = true -> safe_byte b && negb (Ascii.eqb b slash) = true.
Proof. all_ascii b; vm_compute; done. Qed.

Lemma all_bytes_and P Q s :
  all_bytes (fun b => P b && Q b) s = all_bytes P s && all_bytes Q s.
Proof.
  induction s as [|c s IH]; simpl; [done|]. rewrite IH.
  destruct (P c), (Q c), (all_bytes P s), (all_bytes Q s); done.
Qed.

Lemma canonicaliseSegment_Ok s n :
  wf_esc s -> no_sep slash s -> all_bytes safe_byte s = true ->
  canonicaliseSegment s = Ok n -> canonical_seg n.
Proof.
  intros Hwf Hsep Hsafe. unfold canonicaliseSegment.
  destruct (segment_loop_spec s Hwf) as (d & n' & E1 & Hn' & E2).
  destruct (String.eqb s "") eqn:He; [done|]. destruct (is_dots s); [done|].
  rewrite E1; simpl. destruct (is_dots d) eqn:Hd; intros [= ->]. bool_prop.
  assert (Hb : all_bytes (fun b => safe_byte b && negb (Ascii.eqb b slash)) n = true).
  { eapply (segment_loop_bytes _ s d n); eauto using hex_safe, unreserved_safe.
    rewrite all_bytes_and. unfold no_sep in Hsep. by rewrite Hsafe, Hsep. }
  rewrite all_bytes_and in Hb; bool_prop.
  assert (Hne : n <> "") by (by eapply segment_loop_nonempty).
  split; [|done..]. unfold canonicaliseSegment.
  rewrite (proj2 (String.eqb_neq n "") Hne).
  destruct (is_dots n) eqn:Hdn; [by rewrite (segment_loop_dots n d Hdn E2) in Hd|].
  rewrite E2; simpl. by rewrite Hd.
Qed.

(** The loop never runs off the end of a segment of a checked path. *)
Lemma canonicaliseSegment_total s : wf_esc s -> canonicaliseSegment s <> Err PanicIndex.
Proof.
  intros Hwf. unfold canonicaliseSegment. destruct (segment_loop_spec s Hwf) as (d & n & -> & _).
  simpl. by destruct (String.eqb s ""), (is_dots s), (is_dots d).
Qed.

(** ** Whole paths *)

Lemma safe_byte_checks s :
  all_bytes safe_byte s = true
  <-> contains_byte backslash s = false
      /\ contains_byte "?" s || contains_byte "#" s = false
      /\ all_bytes (fun b => negb (isControlOrSpace b)) s = true.
Proof.
  rewrite orb_false_iff, !contains_byte_false.
  induction s as [|c s IH]; simpl; [done|]. unfold safe_byte at 1.
  rewrite (Ascii.eqb_sym c backslash), (Ascii.eqb_sym c "?"), (Ascii.eqb_sym c "#").
  rewrite !andb_true_iff, IH. tauto.
Qed.

Lemma Canonicalise_rooted raw p :
  Canonicalise raw = Ok p ->
  exists rest, raw = String slash rest /\ all_bytes safe_byte raw = true /\ wf_esc raw.
Proof.
  unfold Canonicalise. destruct (HasPrefix raw "/") eqn:Hp; simpl; [|done].
  apply HasPrefix_true in Hp as (rest & ->).
  destruct (contains_byte backslash _) eqn:E1; [done|].
  destruct (_ || _) eqn:E2; [done|].
  destruct (all_bytes _ _) eqn:E3; simpl; [|done].
  destruct (checkEscapesWellFormed _) eqn:E4; [done|]. intros _.
  exists rest. split; [done|]. split; [by apply safe_byte_checks|by apply wf_check].
Qed.

Lemma wf_tail s : wf_esc (String slash s) -> wf_esc s.
Proof. inversion 1; subst; done. Qed.

Lemma Canonicalise_unfold rest :
  all_bytes safe_byte (String slash rest) = true -> wf_esc (String slash rest) -> rest <> "" ->
  Canonicalise (String slash rest)
  = let! out := res_mapM canonicaliseSegment (Split slash rest) in
    Ok (String slash (Join slash out)).
Proof.
  intros (H1 & H2 & H3)%safe_byte_checks Hwf Hne. unfold Canonicalise.
  rewrite H1, H2, H3, (check_wf _ Hwf).
  assert (HasPrefix (String slash rest) "/" = true) as -> by (apply HasPrefix_true; by exists rest).
  cbn [negb drop_str].
  rewrite (proj2 (String.eqb_neq (String slash rest) "/")); [done|]. by intros [= ->].
Qed.

(** The result of [Canonicalise], segment by segment. *)
Lemma Canonicalise_shape raw p :
  Canonicalise raw = Ok p ->
  (raw = "/" /\ p = "/")
  \/ exists segs, p = String slash (Join slash segs) /\ segs <> [] /\ Forall canonical_seg segs
     /\ Forall2 (fun s n => canonicaliseSegment s = Ok n) (Split slash (drop_str 1 raw)) segs.
Proof.
  intros H. destruct (Canonicalise_rooted _ _ H) as (rest & -> & Hsafe & Hwf).
  destruct (decide (rest = "")) as [->|Hne]; [left; by vm_compute in H; simplify_eq|right].
  rewrite Canonicalise_unfold in H by done. apply res_bind_Ok in H as (out & Hout & [= <-]).
  apply res_mapM_Ok in Hout. exists out. split; [done|]. split; [|split; [|done]].
  - intros ->. apply Forall2_nil_inv_r in Hout. by apply Split_nonempty in Hout.
  - cbn [all_bytes] in Hsafe. apply andb_true_iff in Hsafe as [_ Hsafe]. apply wf_tail, wf_Split in Hwf.
    assert (Hs := Split_pieces slash rest).
    assert (Hb := Split_all_bytes safe_byte slash rest Hsafe).
    clear -Hout Hwf Hs Hb. induction Hout as [|s n ss ns Hsn Hout IH]; [constructor|].
    inversion Hwf; inversion Hs; inversion Hb; subst.
    constructor; [by eapply canonicaliseSegment_Ok|by apply IH].
Qed.

Lemma canonical_seg_nonempty s : canonical_seg s -> s <> "".
Proof. intros [H _ _ _] ->. done. Qed.

Lemma Join_nonempty segs : segs <> [] -> Forall canonical_seg segs -> Join slash segs <> "".
Proof.
  intros Hne Hall. destruct segs as [|s l]; [done|]. apply Forall_cons in Hall as [Hs _].
  apply canonical_seg_nonempty in Hs. destruct l; [done|]. rewrite Join_cons by done.
  by destruct s.
Qed.

(** Canonical segments, joined, are left alone. *)
Lemma Canonicalise_join segs :
  segs <> [] -> Forall canonical_seg segs ->
  Canonicalise (String slash (Join slash segs)) = Ok (String slash (Join slash segs)).
Proof.
  intros Hne Hall. rewrite Canonicalise_unfold.
  - rewrite Split_Join; [|done|by eapply Forall_impl; [|apply cs_sep]].
    replace (res_mapM canonicaliseSegment segs) with (@Ok path_error _ segs); [done|].
    symmetry. apply res_mapM_Ok. clear Hne. induction Hall as [|s l [Hs _ _ _]]; by constructor.
  - cbn [all_bytes]. rewrite (Join_all_bytes safe_byte); [done..|].
    by eapply Forall_impl; [|apply cs_safe].
  - constructor; [done|]. apply wf_Join. by eapply Forall_impl; [|apply cs_wf].
  - by apply Join_nonempty.
Qed.

(** A canonical path: one [Canonicalise] leaves alone. *)
Definition canonical (p : string) : Prop := Canonicalise p = Ok p.

Lemma Canonicalise_canonical raw p : Canonicalise raw = Ok p -> canonical p.
Proof.
  intros [[-> ->]|(segs & -> & Hne & Hall & _)]%Canonicalise_shape; [done|].
  by apply Canonicalise_join.
Qed.

(** The segments of a path, the bare root having none. *)
Definition path_segments (p : string) : list string :=
  if String.eqb p "/" then [] else Split slash (drop_str 1 p).

Lemma canonical_inv p :
  canonical p ->
  (p = "/" /\ path_segments p = [])
  \/ exists segs, p = String slash (Join slash segs) /\ segs <> [] /\ Forall canonical_seg segs
     /\ path_segments p = segs.
Proof.
  intros [[-> _]|(segs & Hp & Hne & Hall & _)]%Canonicalise_shape; [by left|right].
  exists segs. rewrite Hp. repeat split; [done..|]. unfold path_segments.
  rewrite (proj2 (String.eqb_neq _ "/")) by (intros [=]; by eapply Join_nonempty).
  cbn [drop_str]. apply Split_Join; [done|]. by eapply Forall_impl; [|apply cs_sep].
Qed.

(** ** The glob matcher *)

(** Reference definition: [*] stands for any text, every other byte for itself. *)
Inductive glob : string -> string -> Prop :=
| glob_nil : glob "" ""
| glob_lit c p s : c <> star -> glob p s -> glob (String c p) (String c s)
| glob_star p a s : glob p s -> glob (String star p) (a +:+ s).

(** The same relation on the parts between the stars. *)
Fixpoint parts_match (parts : list string) (s : string) : Prop :=
  match parts with
  | [] => False
  | [x] => s = x
  | x :: parts' => exists a r, s = x +:+ a +:+ r /\ parts_match parts' r
  end.

Fixpoint in_order (parts : list string) (u : string) : Prop :=
  match parts with
  | [] => True
  | x :: parts' => exists a r, u = a +:+ x +:+ r /\ in_order parts' r
  end.

Lemma parts_match_cons x l s :
  l <> [] -> parts_match (x :: l) s <-> exists a r, s = x +:+ a +:+ r /\ parts_match l r.
Proof. by destruct l. Qed.

Lemma glob_parts p s : glob p s <-> parts_match (Split star p) s.
Proof.
  revert s; induction p as [|c p IH]; intros s; simpl.
  - split; [by inversion 1|]. intros ->. constructor.
  - destruct (Ascii.eqb c star) eqn:E; bool_prop.
    + subst. rewrite parts_match_cons by apply Split_nonempty. setoid_rewrite <- IH. split.
      * inversion 1 as [| |? a s' Hg]; subst; [done|]. by exists a, s'.
      * intros (a & r & -> & H). by apply (glob_star p a r).
    + destruct (Split star p) as [|h t] eqn:Hs; [by apply Split_nonempty in Hs|].
      destruct t as [|h' t].
      * split; [inversion 1; subst; [|done]; f_equal; by apply IH|].
        intros ->. constructor; [done|]. by apply IH.
      * rewrite parts_match_cons by done.
        setoid_rewrite parts_match_cons in IH; [|done]. split.
        { inversion 1 as [|? ? s' ? Hg|]; subst; [|done].
          apply IH in Hg as (a & r & -> & Hr). by exists a, r. }
        { intros (a & r & -> & Hr). rewrite app_cons_str. constructor; [done|].
          apply IH. by exists a, r. }
Qed.

(** Parts found later in the text are found in any longer text that ends the same way. *)
Lemma in_order_suffix parts u v : in_order parts u -> in_order parts (v +:+ u).
Proof.
  destruct parts as [|x parts]; simpl; [done|]. intros (a & r & -> & H).
  exists (v +:+ a), r. by rewrite !app_assoc_str.
Qed.

Lemma drop_str_prefix a b n :
  String.length a <= n -> drop_str n (a +:+ b) = drop_str (n - String.length a) b.
Proof.
  revert n; induction a as [|c a IH]; intros n Hn; simpl in *.
  - by rewrite Nat.sub_0_r.
  - destruct n as [|n]; [lia|]. rewrite app_cons_str. simpl. apply IH. lia.
Qed.

Lemma app_split_le (a b c d : string) :
  a +:+ b = c +:+ d -> String.length a <= String.length c ->
  exists e, c = a +:+ e /\ b = e +:+ d.
Proof.
  revert c; induction a as [|x a IH]; intros c H Hle; [by exists c|].
  destruct c as [|y c]; simpl in *; [lia|]. rewrite !app_cons_str in H.
  injection H as -> H. destruct (IH c H) as (e & -> & ->); [lia|]. by exists e.
Qed.

(** Greedy search for the leftmost occurrence decides [in_order]. *)
Lemma match_middle_in_order parts u : match_middle parts u = true <-> in_order parts u.
Proof.
  revert u; induction parts as [|x parts IH]; intros u; simpl; [done|].
  destruct (String.eqb x "") eqn:Ex; bool_prop.
  - subst. rewrite IH. split.
    + intros H. by exists "", u.
    + intros (a & r & -> & H). by apply in_order_suffix, (in_order_suffix _ _ "").
  - split.
    + destruct (Index u x) as [n|] eqn:Ei; [|done]. rewrite IH.
      apply Index_Some in Ei as (a & b & -> & <-). intros H. exists a, b. split; [done|].
      rewrite drop_str_prefix in H by lia.
      by rewrite (Nat.add_comm (String.length a)), Nat.add_sub, drop_str_app in H.
    + intros (a & r & Hu & H). destruct (Index_first _ _ _ _ Hu) as (n & Hi & Hle).
      rewrite Hi. apply IH. apply Index_Some in Hi as (a' & b' & -> & Hn).
      rewrite drop_str_prefix by lia.
      replace (n + String.length x - String.length a') with (String.length x) by lia.
      rewrite drop_str_app. rewrite <- !app_assoc_str in Hu.
      apply app_split_le in Hu as (e & _ & ->); [by apply in_order_suffix|].
      rewrite !length_app_str. lia.
Qed.

(** The last part is anchored at the end: the middle parts are searched before it. *)
Lemma parts_anchor mid last t :
  (exists a r, t = a +:+ r /\ parts_match (mid ++ [last]) r)
  <-> exists u, t = u +:+ last /\ in_order mid u.
Proof.
  revert t; induction mid as [|x mid IH]; intros t; simpl.
  - split; [intros (a & r & -> & ->); by exists a|]. intros (u & -> & _). by exists u, last.
  - setoid_rewrite (parts_match_cons x); [|by destruct mid]. split.
    + intros (a & r & -> & b & r' & -> & H).
      destruct (proj1 (IH (b +:+ r'))) as (u & Hu & Ho); [by exists b, r'|].
      exists (a +:+ x +:+ u). rewrite Hu, !app_assoc_str. split; [done|]. by exists a, u.
    + intros (u & -> & a & v & -> & Ho).
      destruct (proj2 (IH (v +:+ last))) as (b & r & Hr & Hp); [by exists v|].
      exists a, (x +:+ b +:+ r). rewrite !app_assoc_str, Hr. split; [done|]. by exists b, r.
Qed.

Lemma contains_no_sep c s : no_sep c s -> contains_byte c s = false.
Proof.
  intros H. apply contains_byte_false. eapply all_bytes_impl; [|exact H]. simpl.
  intros d. by rewrite Ascii.eqb_sym.
Qed.

Lemma Split_star_shape p :
  contains_byte star p = true -> exists f mid l, Split star p = f :: mid ++ [l].
Proof.
  intros Hc. destruct (Split star p) as [|f t] eqn:E; [by apply Split_nonempty in E|].
  destruct t as [|y t].
  - exfalso. assert (Hp := Join_Split star p). rewrite E in Hp. simpl in Hp. subst f.
    assert (Hs := Split_pieces star p). rewrite E in Hs. inversion Hs as [|? ? Hn]; subst.
    by rewrite contains_no_sep in Hc.
  - destruct (exists_last (l := y :: t)) as (mid & l & ->); [done|]. by exists f, mid, l.
Qed.

Lemma matchSegment_glob p s : matchSegment p s = true <-> glob p s.
Proof.
  rewrite glob_parts. unfold matchSegment.
  destruct (contains_byte star p) eqn:Hc; cbn [negb].
  - destruct (Split_star_shape p Hc) as (f & mid & l & E). rewrite E. cbn [hd tl].
    rewrite parts_match_cons by (by destruct mid).
    rewrite removelast_last, app_comm_cons, last_last.
    destruct (HasPrefix s f) eqn:Hp; cbn [negb].
    + apply HasPrefix_true in Hp as (t & ->). rewrite drop_str_app.
      transitivity (exists u, t = u +:+ l /\ in_order mid u).
      * unfold HasSuffix, TrimSuffix. destruct (strip_suffix l t) as [u|] eqn:Hs.
        { apply strip_suffix_Some in Hs as ->. simpl. rewrite match_middle_in_order. split; [eauto|].
          intros (u' & ->%app_inj_r & H). done. }
        { split; [done|]. intros (u & -> & _). by rewrite strip_suffix_app in Hs. }
      * rewrite <- parts_anchor. split; intros (a & r & H & Hr).
        { subst. by exists a, r. }
        { apply app_inj_l in H as ->. by exists a, r. }
    + split; [done|]. intros (a & r & -> & _).
      assert (HasPrefix (f +:+ a +:+ r) f = true) by (apply HasPrefix_true; eauto). congruence.
  - assert (Hn : no_sep star p).
    { apply contains_byte_false in Hc. eapply all_bytes_impl; [|exact Hc]. simpl.
      intros d. by rewrite Ascii.eqb_sym. }
    rewrite (Split_no_sep _ _ Hn), String.eqb_eq. simpl. naive_solver.
Qed.

Lemma match_all_glob ps ss :
  length ps = length ss -> match_all ps ss = true <-> Forall2 glob ps ss.
Proof.
  revert ss; induction ps as [|p ps IH]; intros [|s ss] Hl; simplify_eq/=.
  - split; [constructor|done].
  - rewrite andb_true_iff, matchSegment_glob, IH by lia. split.
    + intros [??]. by constructor.
    + by inversion 1.
Qed.

Lemma Match_glob pattern path :
  Match pattern path = true
  <-> Forall2 glob (Split slash (TrimPrefix pattern "/")) (Split slash (TrimPrefix path "/")).
Proof.
  unfold Match. destruct (Nat.eqb _ _) eqn:E; cbn [negb].
  - apply Nat.eqb_eq in E. by apply match_all_glob.
  - split; [done|]. intros H%Forall2_length. by apply Nat.eqb_neq in E.
Qed.

(** ** Path prefixes *)

Lemma Split_canonical segs :
  segs <> [] -> Forall canonical_seg segs -> Split slash (Join slash segs) = segs.
Proof. intros Hne Hall. apply Split_Join; [done|]. by eapply Forall_impl; [|apply cs_sep]. Qed.

Lemma Join_canonical_inj segs segs' :
  segs <> [] -> Forall canonical_seg segs -> segs' <> [] -> Forall canonical_seg segs' ->
  Join slash segs = Join slash segs' -> segs = segs'.
Proof.
  intros ???? H%(f_equal (Split slash)). by rewrite !Split_canonical in H.
Qed.

Lemma Join_app a b :
  a <> [] -> b <> [] -> Join slash (a ++ b) = Join slash a +:+ String slash (Join slash b).
Proof.
  intros Ha Hb. induction a as [|x a IH]; [done|]. destruct a as [|y a].
  - change ([x] ++ b) with (x :: b). by rewrite Join_cons.
  - rewrite <- app_comm_cons, !Join_cons by done. rewrite IH by done. by rewrite app_assoc_str.
Qed.

(** A canonical path other than the root does not end in a separator. *)
Lemma TrimSuffix_slash_canonical q : canonical q -> q <> "/" -> TrimSuffix q "/" = q.
Proof.
  intros [[-> _]|(segs & -> & Hne & Hall & _)]%canonical_inv Hq; [done|].
  unfold TrimSuffix. destruct (strip_suffix _ _) as [r|] eqn:E; [exfalso|done].
  apply strip_suffix_Some in E.
  destruct r as [|c r]; [injection E as E; by eapply Join_nonempty|].
  rewrite app_cons_str in E. injection E as _ E. apply (f_equal (Split slash)) in E.
  rewrite Split_canonical, Split_app in E by done. rewrite E in Hall.
  apply Forall_app in Hall as [_ Hall]. inversion Hall as [|? ? Hc]; subst.
  by apply canonical_seg_nonempty in Hc.
Qed.

Lemma HasPathPrefix_root q : canonical q -> q <> "/" -> HasPrefix "/" (q +:+ "/") = false.
Proof.
  intros Hq Hn. apply not_true_iff_false. intros (r & Hr)%HasPrefix_true.
  destruct (canonical_inv q Hq) as [[-> _]|(qs & -> & Hne & Hall & _)]; [done|].
  rewrite app_assoc_str, app_cons_str in Hr. injection Hr as Hr.
  destruct (Join slash qs) eqn:Ej; [|done]. by eapply Join_nonempty.
Qed.

Lemma HasPathPrefix_segments p q :
  canonical p -> canonical q ->
  HasPathPrefix p q = true <-> path_segments q `prefix_of` path_segments p.
Proof.
  intros Hp Hq. unfold HasPathPrefix.
  destruct (decide (q = "/")) as [->|Hqn]; [split; [intros _; apply prefix_nil|done]|].
  rewrite (proj2 (String.eqb_neq q "/")), (TrimSuffix_slash_canonical q) by done. cbn [orb].
  destruct (String.eqb p q) eqn:Epq; bool_prop; [by subst|].
  destruct (canonical_inv p Hp) as [[-> Hps]|(ps & Hpe & Hpne & Hpall & ->)].
  - rewrite HasPathPrefix_root by done. split; [done|]. rewrite Hps. intros H%prefix_nil_inv.
    destruct (canonical_inv q Hq) as [[-> _]|(qs & _ & ? & _ & E)]; congruence.
  - destruct (canonical_inv q Hq) as [[-> _]|(qs & Hqe & Hqne & Hqall & ->)]; [done|].
    rewrite HasPrefix_true, Hpe, Hqe. split.
    + intros (r & Hr). rewrite app_assoc_str, app_cons_str in Hr. injection Hr as Hr.
      exists (Split slash r). apply (f_equal (Split slash)) in Hr.
      change ("/" +:+ r) with (String slash r) in Hr. by rewrite Split_app, !Split_canonical in Hr.
    + intros (t & ->). destruct t as [|x t]; [rewrite app_nil_r in Hpe; congruence|].
      exists (Join slash (x :: t)). rewrite Join_app by done. by rewrite app_assoc_str, app_cons_str.
Qed.

(** ** Templates *)

Lemma value_byte b :
  isUnreserved b || Ascii.eqb b ":" || Ascii.eqb b "@" = true ->
  safe_byte b = true /\ Ascii.eqb b slash = false /\ Ascii.eqb b percent = false.
Proof. all_ascii b; vm_compute; done. Qed.

Lemma literal_loop s :
  all_bytes (fun b => negb (Ascii.eqb b percent)) s = true -> wf_esc s /\ segment_loop s = Ok (s, s).
Proof.
  induction s as [|c s IH]; simpl; [by split; [constructor|]|]. intros H; bool_prop.
  destruct (IH H0) as [Hw ->]. rewrite (proj2 (Ascii.eqb_neq c percent) H). by split; [constructor|].
Qed.

(** A valid placeholder value is a canonical segment as it stands. *)
Lemma value_canonical v : ValidPlaceholderValue v = true -> canonical_seg v.
Proof.
  unfold ValidPlaceholderValue. destruct (String.eqb v "") eqn:Ee; [done|].
  destruct (Nat.ltb _ _); [done|]. destruct (is_dots v) eqn:Ed; [done|]. simpl. intros Hb.
  destruct (literal_loop v) as [Hw Hl].
  { eapply all_bytes_impl; [|exact Hb]. intros c (_ & _ & ->)%value_byte. done. }
  split; [|done| |].
  - unfold canonicaliseSegment. rewrite Ee, Ed, Hl. simpl. by rewrite Ed.
  - eapply all_bytes_impl; [|exact Hb]. intros c (_ & -> & _)%value_byte. done.
  - eapply all_bytes_impl; [|exact Hb]. by intros c (-> & _ & _)%value_byte.
Qed.

(** Every segment of a parsed template is a placeholder or a canonical literal. *)
Definition segment_ok (t : templateSegment) : Prop :=
  placeholder t <> "" \/ canonical_seg (literal t).

Lemma fill_literals_ok ts segs :
  length segs = length ts -> Forall canonical_seg segs ->
  exists ts', fill_literals ts segs = Ok ts' /\ length ts' = length ts /\ Forall segment_ok ts'.
Proof.
  intros Hlen Hall. revert ts Hlen; induction Hall as [|s l Hs Hl IH]; intros [|t ts] Hlen; simplify_eq/=.
  - by exists [].
  - destruct (IH ts) as (ts' & -> & Hl' & Hok); [done|]. eexists. split; [done|]. simpl.
    split; [by f_equal|]. constructor; [|done]. unfold segment_ok.
    destruct (String.eqb (placeholder t) "") eqn:E; bool_prop; [by right|by left].
Qed.

Lemma parse_part_sep p t s : no_sep slash p -> parse_part p = Ok (t, s) -> no_sep slash s.
Proof.
  unfold parse_part. intros Hp. destruct (has_brace p); [|by intros [= <- <-]].
  destruct (placeholder_body p); [|done]. destruct (negb _); [done|]. by intros [= <- <-].
Qed.

Lemma standins_sep parts parsed :
  Forall (no_sep slash) parts -> Forall2 (fun p r => parse_part p = Ok r) parts parsed ->
  Forall (no_sep slash) (map snd parsed).
Proof.
  intros Hp Hf. induction Hf as [|p [t s] parts parsed Hpp Hf IH]; [constructor|].
  inversion Hp; subst. constructor; [by eapply parse_part_sep|by apply IH].
Qed.

(** The canonical stand-in path has one canonical segment per template part. *)
Lemma standin_segments l p :
  l <> [] -> Forall (no_sep slash) l -> Canonicalise (String slash (Join slash l)) = Ok p ->
  p = "/" \/ Forall canonical_seg (Split slash (drop_str 1 p))
             /\ length (Split slash (drop_str 1 p)) = length l.
Proof.
  intros Hne Hl [[_ ->]|(segs & -> & Hne' & Hall & Hf)]%Canonicalise_shape; [by left|right].
  cbn [drop_str] in *. rewrite Split_Join in Hf by done. rewrite Split_canonical by done.
  split; [done|]. symmetry. by eapply Forall2_length.
Qed.

Lemma standin_root l :
  l <> [] -> Canonicalise (String slash (Join slash l)) = Ok "/" -> Join slash l = "".
Proof.
  intros Hne [[[= H] _]|(segs & [= E] & Hne' & Hall & _)]%Canonicalise_shape; [done|].
  exfalso. symmetry in E. by eapply Join_nonempty.
Qed.

Lemma parse_part_empty p t : parse_part p = Ok (t, "") -> p = "".
Proof.
  unfold parse_part. destruct (has_brace p); [|by intros [= <- ->]].
  destruct (placeholder_body p); [|done]. by destruct (negb _).
Qed.

Lemma HasPrefix_slash s : HasPrefix s "/" = true -> s = String slash (drop_str 1 s).
Proof. intros (r & ->)%HasPrefix_true. done. Qed.

(** [ParseTemplate] on a path other than the root: the fill loop stays in range and leaves only
    placeholders and canonical literals. *)
Lemma parse_fill body parsed p :
  body <> "" -> res_mapM parse_part (Split slash body) = Ok parsed ->
  Canonicalise (String slash (Join slash (map snd parsed))) = Ok p ->
  exists ts, fill_literals (map fst parsed) (Split slash (drop_str 1 p)) = Ok ts
             /\ ts <> [] /\ Forall segment_ok ts.
Proof.
  intros Hs Hmap Hcan. assert (Hf := proj1 (res_mapM_Ok _ _ _) Hmap).
  assert (Hne : parsed <> []).
  { intros ->. apply Forall2_nil_inv_r in Hf. by apply Split_nonempty in Hf. }
  assert (Hsep := standins_sep _ _ (Split_pieces _ _) Hf).
  assert (Hne' : map snd parsed <> []) by (by destruct parsed).
  destruct (standin_segments _ _ Hne' Hsep Hcan) as [->|[Hall Hl]].
  - exfalso. apply standin_root in Hcan; [|done].
    assert (Hj := Join_Split slash body). revert Hf Hj. generalize (Split slash body).
    intros parts Hf Hj. destruct Hf as [|q [t x] qs rs Hq Hf]; [done|].
    destruct Hf as [|? [t' y] ? ? ? Hf]; simpl in *.
    + subst x. by apply parse_part_empty in Hq as ->.
    + by destruct x.
  - destruct (fill_literals_ok (map fst parsed) (Split slash (drop_str 1 p))) as (ts & Hts & Hl' & Hok);
      [by rewrite Hl, !length_map|done|].
    exists ts. split; [done|]. split; [|done]. intros ->. by destruct parsed.
Qed.

Lemma template_body s :
  s <> "/" -> HasPrefix s "/" = true -> exists body, s = String slash body /\ body <> "".
Proof. intros Hs (r & ->)%HasPrefix_true. exists r. split; [done|]. by intros ->. Qed.

Lemma ParseTemplate_ok s t :
  ParseTemplate s = Ok t -> segments t = [] \/ segments t <> [] /\ Forall segment_ok (segments t).
Proof.
  unfold ParseTemplate. destruct (String.eqb s "/") eqn:E; bool_prop.
  - intros (p & _ & [= <-])%res_bind_Ok. by left.
  - destruct (HasPrefix s "/") eqn:Hp; cbn [negb]; [|done].
    destruct (template_body s E Hp) as (body & -> & Hb).
    change (drop_str 1 (String slash body)) with body.
    intros (parsed & Hm & (p & Hc & (ts & Hts & [= <-])%res_bind_Ok)%res_bind_Ok)%res_bind_Ok.
    destruct (parse_fill body parsed p Hb Hm Hc) as (ts' & Hts' & Hne & Hok).
    rewrite Hts' in Hts. injection Hts as <-. by right.
Qed.

(** What a template expands to: the literals and the values, segment by segment. *)
Lemma expand_segments_canonical values ts out :
  Forall segment_ok ts -> res_mapM (expand_segment values) ts = Ok out -> Forall canonical_seg out.
Proof.
  intros Hok Hf%res_mapM_Ok. induction Hf as [|t o ts out Ho Hf IH]; [constructor|].
  inversion Hok as [|? ? Ht Hts]; subst. constructor; [|by apply IH].
  unfold expand_segment in Ho. destruct (String.eqb (placeholder t) "") eqn:E; bool_prop.
  - simplify_eq. by destruct Ht.
  - destruct (values !! placeholder t) as [v|]; [|done].
    destruct (ValidPlaceholderValue v) eqn:Hv; simplify_eq. by apply value_canonical.
Qed.

Lemma expand_segments_total values ts :
  (forall name, name ∈ List.filter (fun n => negb (String.eqb n "")) (map placeholder ts) ->
     exists v, values !! name = Some v /\ ValidPlaceholderValue v = true) ->
  exists out, res_mapM (expand_segment values) ts = Ok out.
Proof.
  induction ts as [|a l IH]; intros Hv; [by eexists|]. simpl in Hv.
  destruct IH as (out & Hout). { intros name Hn. apply Hv. destruct (negb _); [by right|done]. }
  assert (Ho : exists o, expand_segment values a = Ok o).
  { unfold expand_segment. destruct (String.eqb (placeholder a) "") eqn:E; [by eexists|].
    destruct (Hv (placeholder a)) as (v & -> & ->); [by left|]. by eexists. }
  destruct Ho as (o & Ho). simpl. rewrite Ho. simpl. rewrite Hout. by eexists.
Qed.

Lemma Expand_eq t values out :
  segments t <> [] -> Forall segment_ok (segments t) ->
  res_mapM (expand_segment values) (segments t) = Ok out ->
  Expand t values = Ok (String slash (Join slash out)).
Proof.
  intros Hne Hok Hm. unfold Expand. destruct (segments t) as [|a ts]; [done|]. rewrite Hm.
  apply Canonicalise_join; [|by eapply expand_segments_canonical].
  intros ->. by apply res_mapM_length in Hm.
Qed.

Lemma TrimPrefix_slash s : TrimPrefix (String slash s) "/" = s.
Proof. done. Qed.

Lemma covered_all_match gs ts values out :
  length gs = length ts -> covered_all gs ts = true ->
  res_mapM (expand_segment values) ts = Ok out -> match_all gs out = true.
Proof.
  intros Hl Hc Hf%res_mapM_Ok. revert gs Hl Hc.
  induction Hf as [|t o ts out Ho Hf IH]; intros [|g gs] Hl Hc; simplify_eq/=; [done|].
  bool_prop. rewrite IH by done. rewrite andb_true_r. unfold expand_segment in Ho.
  destruct (String.eqb (placeholder t) "") eqn:E; simplify_eq/=; [done|].
  bool_prop. subst. apply matchSegment_glob. rewrite <- (app_nil_str o). by constructor; constructor.
Qed.

(** ** Slicing stays in range *)

Lemma check_no_panic s : checkEscapesWellFormed s <> Some PanicIndex.
Proof.
  remember (String.length s) as n eqn:Hn. assert (Hle : String.length s <= n) by lia. clear Hn.
  revert s Hle; induction n as [|n IH]; intros [|c s] Hle; simpl in *; [done|lia|done|].
  destruct (negb _); [apply IH; lia|]. destruct s as [|h [|l s]]; [done..|].
  destruct (negb _); [done|]. destruct (_ || _); [done|]. simpl in Hle. apply IH. lia.
Qed.

Lemma Canonicalise_total s : Canonicalise s <> Err PanicIndex.
Proof.
  unfold Canonicalise. destruct (HasPrefix s "/") eqn:Hp; [cbn [negb]|done].
  apply HasPrefix_true in Hp as (rest & ->). change ("/" +:+ rest) with (String slash rest).
  destruct (contains_byte _ _); [done|]. destruct (_ || _); [done|].
  destruct (all_bytes _ _); [cbn [negb]|done].
  destruct (checkEscapesWellFormed _) as [e|] eqn:E.
  - intros [= ->]. by apply check_no_panic in E.
  - destruct (String.eqb _ _); [done|]. change (drop_str 1 (String slash rest)) with rest.
    intros [(x & Hx & He)%res_mapM_Err|(? & _ & ?)]%res_bind_Err; [|done].
    assert (Hw := wf_Split _ (wf_tail _ (wf_check _ E))).
    rewrite Forall_forall in Hw. by apply (canonicaliseSegment_total x (Hw _ Hx)).
Qed.

Lemma parse_part_no_panic p : parse_part p <> Err PanicIndex.
Proof. unfold parse_part. repeat case_match; done. Qed.

Lemma ParseTemplate_total s : ParseTemplate s <> Err PanicIndex.
Proof.
  unfold ParseTemplate. destruct (String.eqb s "/") eqn:E; bool_prop.
  - subst. by vm_compute.
  - destruct (HasPrefix s "/") eqn:Hp; cbn [negb]; [|done].
    destruct (template_body s E Hp) as (body & -> & Hb).
    change (drop_str 1 (String slash body)) with body.
    intros [(x & _ & He)%res_mapM_Err|(parsed & Hm & H)]%res_bind_Err.
    { by apply parse_part_no_panic in He. }
    apply res_bind_Err in H as [He|(p & Hc & H)]; [by apply Canonicalise_total in He|].
    destruct (parse_fill body parsed p Hb Hm Hc) as (ts & Hts & _). by rewrite Hts in H.
Qed.

Lemma Expand_canonical t values p : Expand t values = Ok p -> canonical p.
Proof.
  unfold Expand. destruct (segments t); [by intros [= <-]|]. intros (out & _ & H)%res_bind_Ok. by eapply Canonicalise_canonical.
Qed.

Lemma Expand_total t values : Expand t values <> Err PanicIndex.
Proof.
  unfold Expand. destruct (segments t); [done|].
  intros [(x & _ & He)%res_mapM_Err|(out & _ & He)]%res_bind_Err; [|by apply Canonicalise_total in He].
  revert He. unfold expand_segment. repeat case_match; done.
Qed.

(** Bytes an upstream may read as a path separator. *)
Definition not_separator (b : ascii) : bool := negb (Ascii.eqb b slash) && negb (Ascii.eqb b backslash).

(** Decoding a canonical segment yields no separator either. *)
Lemma segment_loop_decoded s d n :
  wf_esc s -> segment_loop s = Ok (d, n) -> all_bytes not_separator s = true ->
  all_bytes not_separator d = true.
Proof.
  intros Hwf; revert d n; induction Hwf as [|c s Hc Hs IH|h l s Hhx Hlx H1 H2 Hs IH];
    intros d n Hl H.
  - by simplify_eq/=.
  - simpl in Hl, H. rewrite (proj2 (Ascii.eqb_neq c percent) Hc) in Hl; simpl in Hl.
    destruct (segment_loop s) as [[d' n']|]; simplify_eq/=. bool_prop.
    apply andb_true_iff; split; [done|by eapply IH].
  - rewrite segment_loop_pct in Hl.
    destruct (segment_loop s) as [[d' n']|]; cbn [res_bind] in Hl; [|done].
    injection Hl as <- <-. cbn [all_bytes] in H. apply andb_true_iff in H as [_ H].
    apply andb_true_iff in H as [_ H]. apply andb_true_iff in H as [_ H].
    cbn [all_bytes]. apply andb_true_iff; split; [|by eapply IH].
    unfold not_separator. by rewrite (proj2 (Ascii.eqb_neq _ slash) H1), (proj2 (Ascii.eqb_neq _ backslash) H2).
Qed.

Lemma canonical_seg_decoded s :
  canonical_seg s ->
  is_dots s = false
  /\ exists d, segment_loop s = Ok (d, s) /\ is_dots d = false /\ all_bytes not_separator d = true.
Proof.
  intros [Hfix Hwf Hsep Hsafe]. unfold canonicaliseSegment in Hfix.
  destruct (String.eqb s ""); [done|]. destruct (is_dots s) eqn:Ed; [done|]. split; [done|].
  destruct (segment_loop s) as [[d n]|] eqn:El; cbn [res_bind] in Hfix; [|done].
  destruct (is_dots d) eqn:Edd; simplify_eq. exists d. do 2 (split; [done|]).
  eapply segment_loop_decoded; [exact Hwf|exact El|]. unfold not_separator.
  rewrite all_bytes_and. apply andb_true_iff; split; [exact Hsep|].
  eapply all_bytes_impl; [|exact Hsafe]. unfold safe_byte. intros c H. rewrite !andb_true_iff in H. tauto.
Qed.

(** ** The properties *)

(** Canonicalisation is a normal form: running [Canonicalise] on an accepted result returns
    that result unchanged. *)
Theorem canonicalise_idempotent raw p :
  Canonicalise raw = Ok p -> Canonicalise p = Ok p.
Proof. apply Canonicalise_canonical. Qed.

Example canonicalise_idempotent_witness :
  Canonicalise "/a%2d%3F/b" = Ok "/a-%3f/b" /\ Canonicalise "/a-%3f/b" = Ok "/a-%3f/b".
Proof. split; [reflexivity|]. apply (canonicalise_idempotent "/a%2d%3F/b"). reflexivity. Defined.

(** What an accepted path cannot smuggle: canonicalisation keeps the number of segments, every
    byte is free of controls, whitespace, backslash, [?] and [#], and no segment is empty, is a dot
    segment, or percent-decodes to a dot segment or to text with a separator in it. *)
Theorem canonicalise_safe raw p :
  Canonicalise raw = Ok p ->
  length (path_segments p) = length (path_segments raw)
  /\ all_bytes safe_byte p = true
  /\ Forall (fun s => s <> "" /\ is_dots s = false
        /\ exists d, segment_loop s = Ok (d, s) /\ is_dots d = false
                     /\ all_bytes not_separator d = true) (path_segments p).
Proof.
  intros H. assert (Hc := Canonicalise_canonical _ _ H).
  split; [|split].
  - destruct (Canonicalise_shape _ _ H) as [[-> ->]|(segs & -> & Hne & Hall & Hf)]; [done|].
    apply Forall2_length in Hf. unfold path_segments at 2.
    destruct (String.eqb raw "/") eqn:E; bool_prop.
    + subst. vm_compute in H. injection H as H. exfalso. symmetry in H. by eapply Join_nonempty.
    + destruct (canonical_inv _ Hc) as [[E' _]|(segs' & E' & Hne' & Hall' & ->)].
      * injection E' as E'. exfalso. by eapply Join_nonempty.
      * injection E' as E'. apply Join_canonical_inj in E' as <-; [|done..]. by rewrite Hf.
  - by destruct (Canonicalise_rooted _ _ Hc) as (rest & _ & Hs & _).
  - destruct (canonical_inv _ Hc) as [[_ ->]|(segs & _ & _ & Hall & ->)]; [constructor|].
    eapply Forall_impl; [exact Hall|]. intros s Hs. split; [by apply canonical_seg_nonempty|].
    by apply canonical_seg_decoded.
Qed.

Example canonicalise_safe_witness :
  Canonicalise "/x%2Ey/%41" = Ok "/x.y/A"
  /\ length (path_segments "/x.y/A") = length (path_segments "/x%2Ey/%41").
Proof. split; [reflexivity|]. apply (canonicalise_safe "/x%2Ey/%41" "/x.y/A"). reflexivity. Defined.

(** No input makes path handling panic: every byte index the escape, segment and template
    loops use is in range. *)
Theorem routepath_no_panic s t values :
  Canonicalise s <> Err PanicIndex
  /\ ParseTemplate s <> Err PanicIndex
  /\ Expand t values <> Err PanicIndex.
Proof. auto using Canonicalise_total, ParseTemplate_total, Expand_total. Qed.

(** [Match] decides the declarative glob relation segment by segment: the greedy scan of
    [matchSegment] accepts exactly when some choice of text for each [*] does, and a star never
    reaches across a [/]. *)
Theorem match_segmentwise_glob pattern path :
  Match pattern path = true
  <-> Forall2 glob (Split slash (TrimPrefix pattern "/")) (Split slash (TrimPrefix path "/")).
Proof. apply Match_glob. Qed.

(** [HasPathPrefix] is the subtree relation: on canonical paths it holds exactly when the
    prefix's segments are an initial part of the path's segments. *)
Theorem path_prefix_is_subtree p q :
  Canonicalise p = Ok p -> Canonicalise q = Ok q ->
  HasPathPrefix p q = true <-> path_segments q `prefix_of` path_segments p.
Proof. apply HasPathPrefix_segments. Qed.

Example path_prefix_is_subtree_witness :
  HasPathPrefix "/api/items" "/api" = true
  <-> path_segments "/api" `prefix_of` path_segments "/api/items".
Proof. apply (path_prefix_is_subtree "/api/items" "/api"); reflexivity. Defined.

Lemma covered_expansion s t pattern values p :
  ParseTemplate s = Ok t -> CoveredBy t pattern = true -> Expand t values = Ok p ->
  exists cp, Canonicalise pattern = Ok cp /\ Match cp p = true.
Proof.
  intros Hparse Hcov Hexp. unfold CoveredBy in Hcov.
  destruct (Canonicalise pattern) as [cp|] eqn:Hcp; [|done]. exists cp. split; [done|].
  destruct (ParseTemplate_ok _ _ Hparse) as [Hn|[Hne Hok]].
  - unfold Expand in Hexp. rewrite Hn in *. bool_prop. by simplify_eq.
  - destruct (res_mapM (expand_segment values) (segments t)) as [out|] eqn:Hm.
    2: { unfold Expand in Hexp. destruct (segments t); [done|]. by rewrite Hm in Hexp. }
    rewrite (Expand_eq t values out) in Hexp by done. injection Hexp as <-.
    destruct (segments t) as [|a ts] eqn:Hts; [done|].
    destruct (_ || _) eqn:Eg in Hcov; [done|]. apply orb_false_iff in Eg as [Er Eg].
    apply negb_false_iff, Nat.eqb_eq in Eg. unfold Match.
    assert (Hlen := res_mapM_length _ _ _ Hm). rewrite TrimPrefix_slash, Split_canonical.
    + rewrite Eg, <- Hlen, Nat.eqb_refl. simpl. by eapply covered_all_match.
    + by intros ->.
    + by eapply expand_segments_canonical.
Qed.

(** A template covered by a route glob only ever expands to paths of that route: whatever the
    placeholder values, an expansion that succeeds matches the canonical pattern. *)
Theorem template_covered_sound s t pattern values p :
  ParseTemplate s = Ok t -> CoveredBy t pattern = true -> Expand t values = Ok p ->
  exists cp, Canonicalise pattern = Ok cp /\ Match cp p = true.
Proof. apply covered_expansion. Qed.

Example template_covered_sound_witness :
  exists cp, Canonicalise "/api/*/x" = Ok cp /\ Match cp "/api/7/x" = true.
Proof.
  apply (template_covered_sound "/api/{env}/x"
           {| raw := "/api/{env}/x";
              segments := [ {| literal := "api"; placeholder := "" |};
                            {| literal := ""; placeholder := "env" |};
                            {| literal := "x"; placeholder := "" |} ] |}
           "/api/*/x" {["env" := "7"]} "/api/7/x"); reflexivity.
Defined.

(** Expansion is total and verbatim: when every placeholder has a valid value, [Expand]
    succeeds, and the segments of the resulting canonical path are exactly the template's canonical
    literals and the given values. *)
Theorem template_expand_verbatim s t values :
  ParseTemplate s = Ok t ->
  (forall name, name ∈ Placeholders t ->
     exists v, values !! name = Some v /\ ValidPlaceholderValue v = true) ->
  exists p, Expand t values = Ok p /\ Canonicalise p = Ok p
    /\ Forall2 (fun ts seg => if String.eqb (placeholder ts) "" then seg = literal ts
                              else values !! placeholder ts = Some seg)
               (segments t) (path_segments p).
Proof.
  intros Hparse Hvals.
  assert (Hm := expand_segments_total values (segments t) Hvals).
  destruct Hm as (out & Hm).
  assert (Hf : Forall2 (fun ts seg => if String.eqb (placeholder ts) "" then seg = literal ts
                              else values !! placeholder ts = Some seg) (segments t) out).
  { apply res_mapM_Ok in Hm. eapply Forall2_impl; [exact Hm|]. unfold expand_segment.
    intros a b. repeat case_match; naive_solver. }
  destruct (ParseTemplate_ok _ _ Hparse) as [Hn|[Hne Hok]].
  - exists "/". unfold Expand. rewrite Hn in *. inversion Hf. by repeat split.
  - exists (String slash (Join slash out)). rewrite (Expand_eq t values out) by done.
    assert (Hc := expand_segments_canonical _ _ _ Hok Hm).
    assert (Hno : out <> []) by (intros ->; by inversion Hf; destruct (segments t)).
    split; [done|]. assert (Hcan := Canonicalise_join _ Hno Hc). split; [done|].
    destruct (canonical_inv _ Hcan) as [[[= E] _]|(segs & [= E] & Hs & Ha & ->)].
    + exfalso. by eapply Join_nonempty.
    + by apply Join_canonical_inj in E as <-.
Qed.

Example template_expand_verbatim_witness :
  exists p, Expand {| raw := "/e/{id}"; segments := [ {| literal := "e"; placeholder := "" |};
                                                      {| literal := ""; placeholder := "id" |} ] |}
                   {["id" := "a:1"]} = Ok p /\ Canonicalise p = Ok p.
Proof.
  destruct (template_expand_verbatim "/e/{id}"
     {| raw := "/e/{id}"; segments := [ {| literal := "e"; placeholder := "" |};
                                        {| literal := ""; placeholder := "id" |} ] |}
     {["id" := "a:1"]}) as (p & H1 & H2 & _).
  - reflexivity.
  - intros name Hn. exists "a:1". vm_compute in Hn.
    apply list_elem_of_singleton in Hn as ->. split; reflexivity.
  - exists p. exact (conj H1 H2).
Defined.
