(* ===== verification/GoTime.v ===== *)
(** * Go's [time.Parse] and [Time.Format] at the layouts RFC3339 and RFC3339Nano

    The standard-library routine behind every timestamp the program reads: field by field, with
    Go's own leniencies (a one-digit hour, a comma before the fraction, any number of fraction
    digits of which nine count, zone offsets of up to 24:60), and every timestamp it writes. No source line maps here. *)
From S2P Require Import Prelude RoutePath.

Definition isDigit (c : ascii) : bool := in_range 48 57 c.
Definition digit (c : ascii) : Z := Z.of_N (byteN c) - 48.

(** [getnum]: two digits, or one where the width is not fixed. *)
Definition getnum (fixed : bool) (s : string) : option (Z * string) :=
  match s with
  | String a (String b r) =>
      if negb (isDigit a) then None
      else if isDigit b then Some (10 * digit a + digit b, r)%Z
      else if fixed then None else Some (digit a, String b r)
  | String a "" => if isDigit a && negb fixed then Some (digit a, "") else None
  | _ => None
  end.

Definition getyear (s : string) : option (Z * string) :=
  match s with
  | String a (String b (String c (String d r))) =>
      if isDigit a && isDigit b && isDigit c && isDigit d
      then Some (1000 * digit a + 100 * digit b + 10 * digit c + digit d, r)%Z else None
  | _ => None
  end.

(** The literal [skip] of a one-byte layout prefix. *)
Definition skip1 (c : ascii) (s : string) : option string :=
  match s with String a r => if Ascii.eqb a c then Some r else None | _ => None end.

(** The value of the leading digits at the given place value, and what follows them; digits past
    the ninth have place value zero. *)
Fixpoint frac_digits (place : Z) (s : string) : Z * string :=
  match s with
  | String c r =>
      if isDigit c then let '(n, r') := frac_digits (place / 10) r in (digit c * place + n, r')%Z
      else (0%Z, s)
  | "" => (0%Z, "")
  end.

Definition getfrac (s : string) : Z * string :=
  match s with
  | String p (String d r) =>
      if (Ascii.eqb p "." || Ascii.eqb p ",") && isDigit d then frac_digits 100000000 (String d r)
      else (0%Z, s)
  | _ => (0%Z, s)
  end.

(** [Z07:00]: the offset in seconds. *)
Definition getzone (s : string) : option (Z * string) :=
  match s with
  | String "Z" r => Some (0%Z, r)
  | String sg (String h1 (String h2 (String col (String m1 (String m2 r))))) =>
      if negb (Ascii.eqb col ":") then None
      else match getnum true (String h1 (String h2 "")), getnum true (String m1 (String m2 "")) with
           | Some (hr, _), Some (mm, _) =>
               if ((24 <? hr) || (60 <? mm))%Z then None
               else if Ascii.eqb sg "+" then Some ((hr * 60 + mm) * 60, r)%Z
               else if Ascii.eqb sg "-" then Some (- ((hr * 60 + mm) * 60), r)%Z
               else None
           | _, _ => None
           end
  | _ => None
  end.

(** ** The proleptic Gregorian calendar *)

Definition leap (y : Z) : bool :=
  ((y mod 4 =? 0) && (negb (y mod 100 =? 0) || (y mod 400 =? 0)))%Z.

Definition month_days (lp : bool) : list Z :=
  [31; if lp then 29 else 28; 31; 30; 31; 30; 31; 31; 30; 31; 30; 31]%Z.

(** [daysIn], for a month in 1..12 *)
Definition daysIn (m y : Z) : Z := nth (Z.to_nat (m - 1)) (month_days (leap y)) 0%Z.

Definition days_before_month (m : Z) (lp : bool) : Z :=
  foldr Z.add 0%Z (take (Z.to_nat (m - 1)) (month_days lp)).

(** Days from 0001-01-01 to the given date. *)
Definition days_of_date (y m d : Z) : Z :=
  (365 * (y - 1) + (y - 1) / 4 - (y - 1) / 100 + (y - 1) / 400 + days_before_month m (leap y) + (d - 1))%Z.

(** [time.Parse(time.RFC3339Nano, s)]: the instant, in nanoseconds since Go's zero time. *)
Definition time_Parse (s : string) : option Z :=
  '(y, s) ← getyear s; s ← skip1 "-" s;
  '(mo, s) ← getnum true s; if ((mo <? 1) || (12 <? mo))%Z then None else
  s ← skip1 "-" s;
  '(d, s) ← getnum true s; s ← skip1 "T" s;
  '(h, s) ← getnum false s; if (24 <=? h)%Z then None else
  s ← skip1 ":" s;
  '(mi, s) ← getnum true s; if (60 <=? mi)%Z then None else
  s ← skip1 ":" s;
  '(se, s) ← getnum true s; if (60 <=? se)%Z then None else
  let '(ns, s) := getfrac s in
  '(off, s) ← getzone s;
  if negb (String.eqb s "") then None
  else if ((d <? 1) || (daysIn mo y <? d))%Z then None
  else Some ((((days_of_date y mo d * 24 + h) * 60 + mi) * 60 + se - off) * second + ns)%Z.

(** ** [Time.UTC().Format(time.RFC3339)] *)

(** The year (from 1) and the day in it (from 0) of a day count from 0001-01-01. *)
Definition year_of_days (n : Z) : Z * Z :=
  let q400 := (n / 146097)%Z in let r := (n mod 146097)%Z in
  let q100 := Z.min 3 (r / 36524)%Z in let r := (r - q100 * 36524)%Z in
  let q4 := (r / 1461)%Z in let r := (r mod 1461)%Z in
  let q1 := Z.min 3 (r / 365)%Z in
  (400 * q400 + 100 * q100 + 4 * q4 + q1 + 1, r - q1 * 365)%Z.

(** The month (from 1) and the day in it (from 1) of a day in the year. *)
Fixpoint month_of_day (months : list Z) (m yday : Z) : Z * Z :=
  match months with
  | [] => (m, (yday + 1)%Z)
  | d :: rest => if (yday <? d)%Z then (m, (yday + 1)%Z) else month_of_day rest (m + 1) (yday - d)
  end.

(** [appendInt]: at least [w] digits. *)
Definition pad (w : nat) (z : Z) : string :=
  let s := decimal z in String.concat "" (repeat "0" (w - String.length s)) +:+ s.

(** The date and time of day of an instant, in UTC. *)
Definition format_seconds (t : Time) : string :=
  let secs := (t / second)%Z in
  let '(y, yday) := year_of_days (secs / 86400) in
  let '(m, d) := month_of_day (month_days (leap y)) 1 yday in
  let s := (secs mod 86400)%Z in
  pad 4 y +:+ "-" +:+ pad 2 m +:+ "-" +:+ pad 2 d +:+ "T" +:+ pad 2 (s / 3600) +:+ ":"
    +:+ pad 2 (s / 60 mod 60) +:+ ":" +:+ pad 2 (s mod 60).

Definition Format_RFC3339 (t : Time) : string := format_seconds t +:+ "Z".

(** ** [Time.UTC().Format(time.RFC3339Nano)]: the fraction without its trailing zeros *)

Fixpoint trim_zeros (s : string) : string :=
  match s with
  | EmptyString => ""
  | String c r => let r' := trim_zeros r in
                  if Ascii.eqb c "0" && String.eqb r' "" then "" else String c r'
  end.

Definition Format_RFC3339Nano (t : Time) : string :=
  let ns := (t mod second)%Z in
  format_seconds t +:+ (if (ns =? 0)%Z then "" else "." +:+ trim_zeros (pad 9 ns)) +:+ "Z".

(** Formatting then parsing gives the instant back, to the second: leap days, year ends. *)
Example format_parse_samples :
  forallb (fun s => match time_Parse s with Some t => String.eqb (Format_RFC3339 t) s | None => false end)
    ["0001-01-01T00:00:00Z"; "2000-02-29T23:59:59Z"; "1900-02-28T12:00:00Z"; "2100-03-01T00:00:01Z";
     "2024-12-31T23:59:59Z"; "2026-07-04T09:08:07Z"; "1999-12-31T00:00:00Z"; "2400-02-29T01:02:03Z"] = true.
Proof. vm_compute. reflexivity. Qed.
Example format_parse_nano_samples :
  forallb (fun s => match time_Parse s with Some t => String.eqb (Format_RFC3339Nano t) s | None => false end)
    ["2000-02-29T23:59:59.000000001Z"; "2024-12-31T23:59:59.5Z"; "2026-07-04T09:08:07Z"; "1999-12-31T00:00:00.12003Z"] = true.
Proof. vm_compute. reflexivity. Qed.

(** ** [time.ParseDuration] *)

Definition uint63 : Z := 2 ^ 63.

(** [leadingInt]: [None] is the overflow error. *)
Fixpoint leadingInt (acc : Z) (s : string) : option (Z * string) :=
  match s with
  | String c r =>
      if isDigit c then
        if (uint63 / 10 <? acc)%Z then None
        else let acc' := (10 * acc + digit c)%Z in
             if (uint63 <? acc')%Z then None else leadingInt acc' r
      else Some (acc, s)
  | EmptyString => Some (acc, "")
  end.

(** [leadingFraction]: the accumulated digits, the power of ten, and the rest; digits past the
    capacity are consumed and ignored. *)
Fixpoint leadingFraction (f scale : Z) (overflow : bool) (s : string) : Z * Z * string :=
  match s with
  | String c r =>
      if isDigit c then
        if overflow then leadingFraction f scale true r
        else if ((uint63 - 1) / 10 <? f)%Z then leadingFraction f scale true r
        else let y := (10 * f + digit c)%Z in
             if (uint63 <? y)%Z then leadingFraction f scale true r
             else leadingFraction y (scale * 10)%Z false r
      else (f, scale, s)
  | EmptyString => (f, scale, "")
  end.

Fixpoint take_unit (s : string) : string * string :=
  match s with
  | String c r => if isDigit c || Ascii.eqb c "." then ("", s)
                  else let '(u, r') := take_unit r in (String c u, r')
  | EmptyString => ("", "")
  end.

(** [unitMap]; the micro sign has two encodings. *)
Definition unit_of (u : string) : option Z :=
  if String.eqb u "ns" then Some 1%Z
  else if String.eqb u "us" || String.eqb u (bytes_of [194; 181; 115]%N) || String.eqb u (bytes_of [206; 188; 115]%N)
  then Some 1000%Z
  else if String.eqb u "ms" then Some millisecond
  else if String.eqb u "s" then Some second
  else if String.eqb u "m" then Some minute
  else if String.eqb u "h" then Some hour
  else None.

(** float64 arithmetic: [float64(z)] for a non-negative [z], [*], [/], and the truncation to an
    unsigned integer. *)
Definition float_of (z : Z) : Float64 := SpecFloat.binary_normalize 53 1024 z 0 false.
Definition float_mul : Float64 -> Float64 -> Float64 := SpecFloat.SFmul 53 1024.
Definition float_add : Float64 -> Float64 -> Float64 := SpecFloat.SFadd 53 1024.
Definition float_div : Float64 -> Float64 -> Float64 := SpecFloat.SFdiv 53 1024.
Definition float_trunc (f : Float64) : Z :=
  match f with
  | SpecFloat.S754_finite sg m e =>
      let v := if (0 <=? e)%Z then (Zpos m * 2 ^ e)%Z else (Zpos m / 2 ^ (- e))%Z in
      if sg then (- v)%Z else v
  | _ => 0%Z
  end.

(** One number-unit pair: its value in nanoseconds and the rest of the string. *)
Definition duration_part (s : string) : option (Z * string) :=
  match s with
  | EmptyString => None
  | String c _ =>
      if negb (isDigit c || Ascii.eqb c ".") then None
      else
        '(v, s1) ← leadingInt 0 s;
        let pre := negb (Nat.eqb (String.length s1) (String.length s)) in
        let '(f, scale, s2, post) :=
          match s1 with
          | String "." s1' => let '(f, sc, r) := leadingFraction 0 1 false s1' in
                              (f, sc, r, negb (Nat.eqb (String.length r) (String.length s1')))
          | _ => (0%Z, 1%Z, s1, false)
          end in
        if negb pre && negb post then None
        else
          let '(u, s3) := take_unit s2 in
          unit ← unit_of u;
          if (uint63 / unit <? v)%Z then None
          else
            let v' := (v * unit)%Z in
            let v'' := if (0 <? f)%Z
                       then (v' + float_trunc (float_mul (float_of f) (float_div (float_of unit) (float_of scale))))%Z
                       else v' in
            if (uint63 <? v'')%Z then None else Some (v'', s3)
  end.

Fixpoint duration_parts (fuel : nat) (d : Z) (s : string) : option Z :=
  match fuel with
  | O => None
  | S f => match s with
           | EmptyString => Some d
           | _ => '(v, r) ← duration_part s;
                  if (uint63 <? d + v)%Z then None else duration_parts f (d + v)%Z r
           end
  end.

(** Every pair consumes at least one byte, so the length bounds the loop. *)
Definition ParseDuration (orig : string) : option Duration :=
  let '(neg, s) := match orig with
                   | String "-" r => (true, r)
                   | String "+" r => (false, r)
                   | _ => (false, orig)
                   end in
  if String.eqb s "0" then Some 0%Z
  else if String.eqb s "" then None
  else d ← duration_parts (S (String.length s)) 0 s;
       if neg then Some (- d)%Z
       else if (uint63 - 1 <? d)%Z then None else Some d.

Example parse_duration_units : ParseDuration "1h30m" = Some (90 * minute)%Z.
Proof. vm_compute. reflexivity. Qed.
Example parse_duration_fraction : ParseDuration "-1.5s" = Some (- (1500 * millisecond))%Z.
Proof. vm_compute. reflexivity. Qed.
Example parse_duration_unit_missing : ParseDuration "15" = None.
Proof. vm_compute. reflexivity. Qed.
