(* ===== verification/Sql.v ===== *)
(** * database/sql: statements that can fail, and transactions

    A statement either runs on the whole database or fails and leaves it as it was; which of them
    fail is up to the engine, so a session carries the outcomes of the statements to come. A
    transaction that does not commit leaves the database it began on. SQLite serialises writers:
    the operations of the store are the steps between which others interleave. *)
From S2P Require Import Prelude.

Section Sql.
Context {DB : Type}.

(** [faults]: for each statement to come, the error the engine fails it with, if any. *)
Record session := { db : DB; faults : list (option string) }.

Definition Sql (A : Type) := session -> session * res string A.

Definition sql_ret {A} (a : A) : Sql A := fun s => (s, Ok a).
Definition sql_fail {A} (e : string) : Sql A := fun s => (s, Err e).
Definition sql_bind {A B} (m : Sql A) (k : A -> Sql B) : Sql B :=
  fun s => match m s with (s', Ok a) => k a s' | (s', Err e) => (s', Err e) end.

(** An error the code looks at, or drops. *)
Definition sql_try {A} (m : Sql A) : Sql (res string A) := fun s => let '(s', r) := m s in (s', Ok r).

(** A result the caller is handed, as the computation's own. *)
Definition lift {A} (r : res string A) : Sql A := match r with Ok a => sql_ret a | Err e => sql_fail e end.

(** The engine's say on the next statement. *)
Definition tick (s : session) : session * option string :=
  match faults s with
  | [] => (s, None)
  | f :: r => ({| db := db s; faults := r |}, f)
  end.

Definition exec {A} (f : DB -> res string (DB * A)) : Sql A := fun s =>
  match tick s with
  | (s, Some e) => (s, Err e)
  | (s, None) => match f (db s) with
                 | Ok (d, a) => ({| db := d; faults := faults s |}, Ok a)
                 | Err e => (s, Err e)
                 end
  end.

Definition update (f : DB -> DB) : Sql unit := exec (fun d => Ok (f d, tt)).
Definition query {A} (f : DB -> A) : Sql A := exec (fun d => Ok (d, f d)).

(** A step of the process's own memory kept beside the tables: it draws no fault. *)
Definition assign (f : DB -> DB) : Sql unit := fun s => ({| db := f (db s); faults := faults s |}, Ok tt).
Definition look {A} (f : DB -> A) : Sql A := fun s => (s, Ok (f (db s))).

Definition rollback (s0 s : session) : session := {| db := db s0; faults := faults s |}.

(** The body says with a boolean whether to commit. *)
Definition transaction {A} (body : Sql (A * bool)) : Sql A := fun s =>
  match tick s with
  | (s0, Some e) => (s0, Err e)
  | (s0, None) =>
      match body s0 with
      | (s1, Err e) => (rollback s0 s1, Err e)
      | (s1, Ok (a, false)) => (rollback s0 s1, Ok a)
      | (s1, Ok (a, true)) => match tick s1 with
                              | (s2, Some e) => (rollback s0 s2, Err e)
                              | (s2, None) => (s2, Ok a)
                              end
      end
  end.

Fixpoint sql_each {A} (f : A -> Sql unit) (l : list A) : Sql unit :=
  match l with
  | [] => sql_ret tt
  | x :: r => sql_bind (f x) (fun _ => sql_each f r)
  end.

(** ** Rules of reasoning *)

(** From a database in [P], a result [a] comes with a database in [Q a] and an error with one in
    [E]. *)
Definition hoare {A} (P : DB -> Prop) (m : Sql A) (Q : A -> DB -> Prop) (E : DB -> Prop) : Prop :=
  forall s, P (db s) -> match m s with (s', Ok a) => Q a (db s') | (s', Err _) => E (db s') end.

(** [m] keeps [I] whatever fails. *)
Definition preserves {A} (I : DB -> Prop) (m : Sql A) : Prop := hoare I m (fun _ => I) I.

Lemma tick_db s : db (tick s).1 = db s.
Proof. unfold tick. by destruct (faults s). Qed.

Lemma hoare_ret {A} (a : A) P Q E : (forall d, P d -> Q a d) -> hoare P (sql_ret a) Q E.
Proof. intros H s HP. by apply H. Qed.

Lemma hoare_fail {A} e P (Q : A -> DB -> Prop) E : (forall d, P d -> E d) -> hoare P (sql_fail e) Q E.
Proof. intros H s HP. by apply H. Qed.

Lemma hoare_bind {A B} (m : Sql A) (k : A -> Sql B) P R Q E :
  hoare P m R E -> (forall a, hoare (R a) (k a) Q E) -> hoare P (sql_bind m k) Q E.
Proof. intros Hm Hk s HP. specialize (Hm s HP). unfold sql_bind. destruct (m s) as [s' [a|e]]; [by apply Hk|done]. Qed.

Lemma hoare_try {A} (m : Sql A) P Q E Q' :
  hoare P m Q E -> (forall a d, Q a d -> Q' (Ok a) d) -> (forall e d, E d -> Q' (Err e) d) -> hoare P (sql_try m) Q' E.
Proof. intros Hm H1 H2 s HP. specialize (Hm s HP). unfold sql_try. destruct (m s) as [s' [a|e]]; auto. Qed.

Lemma hoare_exec {A} (f : DB -> res string (DB * A)) P Q E :
  (forall d, P d -> E d) -> (forall d d' a, P d -> f d = Ok (d', a) -> Q a d') -> hoare P (exec f) Q E.
Proof.
  intros HE HQ s HP. unfold exec. pose proof (tick_db s) as Ht. destruct (tick s) as [s0 [e|]]; simpl in Ht; rewrite <- Ht in HP.
  - by apply HE.
  - destruct (f (db s0)) as [[d a]|e] eqn:Ef; [by eapply HQ|by apply HE].
Qed.

Lemma hoare_update f P (Q : unit -> DB -> Prop) : (forall d, P d -> Q tt (f d)) -> hoare P (update f) Q (fun _ => True).
Proof. intros H. apply hoare_exec; [done|]. intros d d' a Hd [= <- <-]. auto. Qed.
Lemma hoare_query {A} (f : DB -> A) P (Q : A -> DB -> Prop) : (forall d, P d -> Q (f d) d) -> hoare P (query f) Q (fun _ => True).
Proof. intros H. apply hoare_exec; [done|]. intros d d' a Hd [= <- <-]. auto. Qed.

Lemma hoare_assign f P (Q : unit -> DB -> Prop) E : (forall d, P d -> Q tt (f d)) -> hoare P (assign f) Q E.
Proof. intros H s Hs. by apply H. Qed.
Lemma hoare_look {A} (f : DB -> A) P (Q : A -> DB -> Prop) E : (forall d, P d -> Q (f d) d) -> hoare P (look f) Q E.
Proof. intros H s Hs. by apply H. Qed.
Lemma hoare_lift {A} (r : res string A) P (Q : A -> DB -> Prop) (E : DB -> Prop) :
  (forall a d, r = Ok a -> P d -> Q a d) -> (forall d, P d -> E d) -> hoare P (lift r) Q E.
Proof. intros H1 H2 s Hs. destruct r; simpl; auto. Qed.

Lemma hoare_conseq {A} (m : Sql A) P P' (Q Q' : A -> DB -> Prop) E E' :
  hoare P m Q E -> (forall d, P' d -> P d) -> (forall a d, Q a d -> Q' a d) -> (forall d, E d -> E' d) -> hoare P' m Q' E'.
Proof. intros Hm HP HQ HE s H. specialize (Hm s (HP _ H)). destruct (m s) as [s' [a|e]]; auto. Qed.

(** A transaction is all or nothing: an error or a rollback leaves the database it began on, a
    commit leaves what its body made. *)
Lemma transaction_outcome {A} (body : Sql (A * bool)) s s' r :
  transaction body s = (s', r) ->
  match r with
  | Err _ => db s' = db s
  | Ok a => exists s0 s1 c, db s0 = db s /\ body s0 = (s1, Ok (a, c)) /\ db s' = if c : bool then db s1 else db s
  end.
Proof.
  unfold transaction. pose proof (tick_db s) as Ht. destruct (tick s) as [s0 [e|]]; simpl in Ht; [intros [= <- <-]; done|].
  destruct (body s0) as [s1 [[a c]|e]] eqn:Eb; [|intros [= <- <-]; done].
  pose proof (tick_db s1) as Ht1. destruct c; [destruct (tick s1) as [s2 [e|]]; simpl in Ht1|]; intros [= <- <-]; try done.
  - exists s0, s1, true. done.
  - exists s0, s1, false. done.
Qed.

Lemma hoare_transaction {A} (body : Sql (A * bool)) P Q E :
  hoare P body (fun r d => r.2 = true -> Q r.1 d) (fun _ => True) ->
  (forall s a s', P (db s) -> body s = (s', Ok (a, false)) -> Q a (db s)) ->
  (forall d, P d -> E d) -> hoare P (transaction body) Q E.
Proof.
  intros Hb Hr HE s HP. destruct (transaction body s) as [s' r] eqn:Et. apply transaction_outcome in Et.
  destruct r as [a|e]; [|rewrite Et; auto]. destruct Et as (s0 & s1 & c & E0 & Eb & ->). rewrite <- E0 in HP.
  destruct c; [specialize (Hb s0 HP); rewrite Eb in Hb; auto|rewrite <- E0; eauto].
Qed.

Lemma query_run {A} (f : DB -> A) s : exists s', db s' = db s /\ (query f s = (s', Ok (f (db s))) \/ exists e, query f s = (s', Err e)).
Proof.
  unfold query, exec. pose proof (tick_db s) as Ht. destruct (tick s) as [s0 [e|]]; simpl in Ht.
  - exists s0. eauto.
  - eexists. split; [|left; rewrite Ht; reflexivity]. done.
Qed.
Lemma faultless_query {A} (f : DB -> A) d : query f {| db := d; faults := [] |} = ({| db := d; faults := [] |}, Ok (f d)).
Proof. done. Qed.

(** *** What a successful step did *)

Lemma update_run (f : DB -> DB) s s' : update f s = (s', Ok tt) -> db s' = f (db s).
Proof.
  unfold update, exec. pose proof (tick_db s) as Ht. destruct (tick s) as [s0 [e|]]; simpl in *; [done|].
  intros [= <-]. simpl. by rewrite Ht.
Qed.
Lemma update_outcome (f : DB -> DB) s s' r : update f s = (s', r) -> db s' = f (db s) \/ db s' = db s.
Proof.
  unfold update, exec. pose proof (tick_db s) as Ht. destruct (tick s) as [s0 [e|]]; simpl in *; intros [= <- <-]; simpl; rewrite Ht; auto.
Qed.
Lemma query_Ok {A} (f : DB -> A) s s' a : query f s = (s', Ok a) -> db s' = db s /\ a = f (db s).
Proof.
  unfold query, exec. pose proof (tick_db s) as Ht. destruct (tick s) as [s0 [e|]]; simpl in *; [done|].
  intros [= <- <-]. simpl. by rewrite Ht.
Qed.
Lemma bind_Ok {A B} (m : Sql A) (k : A -> Sql B) s s' b :
  sql_bind m k s = (s', Ok b) -> exists s1 a, m s = (s1, Ok a) /\ k a s1 = (s', Ok b).
Proof. unfold sql_bind. destruct (m s) as [s1 [a|e]]; [eauto|done]. Qed.
Lemma try_Ok {A} (m : Sql A) s s' r : sql_try m s = (s', Ok r) -> m s = (s', r).
Proof. unfold sql_try. destruct (m s). congruence. Qed.

(** *** Keeping an invariant *)

Lemma preserves_ret {A} I (a : A) : preserves I (sql_ret a).
Proof. by apply hoare_ret. Qed.
Lemma preserves_fail {A} I e : preserves (A:=A) I (sql_fail e).
Proof. by apply hoare_fail. Qed.
Lemma preserves_bind {A B} I (m : Sql A) (k : A -> Sql B) :
  preserves I m -> (forall a, preserves I (k a)) -> preserves I (sql_bind m k).
Proof. intros. by eapply hoare_bind. Qed.
Lemma preserves_try {A} I (m : Sql A) : preserves I m -> preserves I (sql_try m).
Proof. intros. by eapply hoare_try. Qed.
Lemma hoare_try_keep {A} I (m : Sql A) E : preserves I m -> hoare I (sql_try m) (fun _ => I) E.
Proof. intros H s Hs. specialize (H s Hs). unfold sql_try. by destruct (m s) as [s' [a|e]]. Qed.
Lemma preserves_exec {A} I (f : DB -> res string (DB * A)) :
  (forall d d' a, I d -> f d = Ok (d', a) -> I d') -> preserves I (exec f).
Proof. intros. by eapply hoare_exec. Qed.
Lemma preserves_update I f : (forall d, I d -> I (f d)) -> preserves I (update f).
Proof. intros H. apply preserves_exec. intros d d' a Hd [= <- <-]. auto. Qed.
Lemma preserves_query {A} I (f : DB -> A) : preserves I (query f).
Proof. apply preserves_exec. by intros d d' a Hd [= <- <-]. Qed.
Lemma preserves_assign I f : (forall d, I d -> I (f d)) -> preserves I (assign f).
Proof. intros H s Hs. by apply H. Qed.
Lemma preserves_look {A} I (f : DB -> A) : preserves I (look f).
Proof. by intros s Hs. Qed.
Lemma preserves_each {A} I (f : A -> Sql unit) l : (forall x, preserves I (f x)) -> preserves I (sql_each f l).
Proof. intros Hf. induction l as [|x r IH]; simpl; [apply preserves_ret|by apply preserves_bind]. Qed.
Lemma preserves_transaction {A} I (body : Sql (A * bool)) : preserves I body -> preserves I (transaction body).
Proof.
  intros Hb s Hs. destruct (transaction body s) as [s' r] eqn:Et. apply transaction_outcome in Et.
  destruct r as [a|e]; [|by rewrite Et]. destruct Et as (s0 & s1 & c & E0 & Eb & ->). destruct c; [|done].
  rewrite <- E0 in Hs. specialize (Hb s0 Hs). by rewrite Eb in Hb.
Qed.
End Sql.

Arguments session DB : clear implicits.
Arguments Sql DB A : clear implicits.

Create HintDb sql.
#[export] Hint Resolve preserves_ret preserves_fail preserves_bind preserves_try preserves_query preserves_look
  preserves_each preserves_transaction : sql.

Notation "'do*' x <- m ; k" := (sql_bind m (fun x => k)) (at level 200, x name, m at level 100, k at level 200).
Notation "'do*' ' p <- m ; k" := (sql_bind m (fun p => k)) (at level 200, p pattern, m at level 100, k at level 200).

(** Walks a computation down to its statements. *)
Ltac sql_step :=
  match goal with
  | |- preserves _ (sql_bind _ _) => apply preserves_bind; [|intros ?]
  | |- preserves _ (transaction _) => apply preserves_transaction
  | |- preserves _ (sql_each _ _) => apply preserves_each; intros ?
  | |- preserves _ (query _) => apply preserves_query
  | |- preserves _ (look _) => apply preserves_look
  | |- preserves _ (sql_try _) => apply preserves_try
  | |- preserves _ (sql_ret _) => apply preserves_ret
  | |- preserves _ (sql_fail _) => apply preserves_fail
  | |- preserves _ (match ?x with _ => _ end) => destruct x eqn:?
  end.
Ltac sql_walk := repeat sql_step.

(** ** A computation on a part of a larger state *)

Definition zoom {D B A} (get : D -> B) (put : B -> D -> D) (m : Sql B A) : Sql D A := fun s =>
  let '(s', r) := m {| db := get (db s); faults := faults s |} in ({| db := put (db s') (db s); faults := faults s' |}, r).

Lemma hoare_zoom {D B A} (get : D -> B) (put : B -> D -> D) (m : Sql B A) (P : D -> Prop) Q E :
  (forall d, P d -> hoare (fun b => b = get d) m (fun a b => Q a (put b d)) (fun b => E (put b d))) -> hoare P (zoom get put m) Q E.
Proof.
  intros H s HP. specialize (H _ HP {| db := get (db s); faults := faults s |} eq_refl). unfold zoom.
  destruct (m _) as [s' [a|e]]; exact H.
Qed.
Lemma preserves_zoom {D B A} (get : D -> B) (put : B -> D -> D) (m : Sql B A) (I : D -> Prop) :
  (forall d, I d -> preserves (fun b => I (put b d)) m) -> (forall d, put (get d) d = d) -> preserves I (zoom get put m).
Proof.
  intros H Hp. apply hoare_zoom. intros d Hd s Hs. apply (H d Hd). by rewrite Hs, Hp.
Qed.
