(* ===== verification/Database.v ===== *)
(** * internal/storage/migrations: the tables

    One record per table the queries of the program use, a [gmap] by primary key where the table
    has a natural one and a list in id order where ids are assigned (AUTOINCREMENT: [_seq] is the
    last one given out). A column that may be NULL is an option; a time is its text. Columns no
    query reads or writes ([suppressed_until], [last_health]) are left out. *)
From S2P Require Import Prelude.

Record card_row := {
  cw_card_hash : string; cw_manifest_digest : string; cw_approval_revision : string; cw_slot_revisions : string;
  cw_envelope : string; cw_state : string; cw_generated_at : option string; cw_expires_at : option string;
  cw_next_run_at : option string; cw_updated_at : string }.

Record event_row := {
  er_id : Z; er_ts : string; er_type : string; er_severity : string; er_source : option string;
  er_card_id : option string; er_message : option string; er_data : string }.

Record connection_row := { cx_revision : string; cx_material_hmac : string; cx_rotated_at : string }.

Record asset_row := {
  ar_connection_id : string; ar_content_type : string; ar_bytes : Z; ar_created_at : string; ar_last_access_at : string }.

Record rule_row := {
  rl_rule_hash : string; rl_since : option string; rl_deadline_at : option string; rl_last_result : string;
  rl_fired_at : option string; rl_resolved_at : option string; rl_wrong_type : bool }.

Record note_row := {
  nt_id : Z; nt_created_at : string; nt_channel : string; nt_dedupe_key : option string; nt_payload : string;
  nt_state : string; nt_attempts : Z; nt_next_attempt_at : option string; nt_last_error : option string }.

Record channel_row := { ch_suspended_until : option string; ch_suspension_reported_at : option string }.

Record user_row := {
  us_username : string; us_password_hash : string; us_created_at : string; us_last_login_at : option string }.

Record session_row := {
  ss_user_id : string; ss_csrf_token : string; ss_created_at : string; ss_expires_at : string; ss_last_seen_at : option string;
  ss_user_agent : string; ss_ip : string }.

Record audit_row := {
  au_ts : string; au_actor : option string; au_ip : option string; au_action : string; au_target : option string;
  au_outcome : string; au_detail : option string }.

Record DB := {
  t_cards : gmap string card_row;
  t_history : gmap (string * string * string) Float64;
  t_events : list event_row;
  t_event_seq : Z;
  t_kv : gmap (string * string * string * string) (string * option string);
  t_connections : gmap string connection_row;
  t_settings : gmap string string;
  t_assets : gmap string asset_row;
  t_rules : gmap string rule_row;
  t_notes : list note_row;
  t_note_seq : Z;
  t_channels : gmap string channel_row;
  t_users : gmap string user_row;
  t_sessions : gmap string session_row;
  t_audit : list audit_row;
  t_versions : gset Z }.

(** A database no migration has run on has no tables; its first one makes them empty. *)
Definition empty_db : DB :=
  {| t_cards := ∅; t_history := ∅; t_events := []; t_event_seq := 0; t_kv := ∅;
     t_connections := ∅; t_settings := ∅; t_assets := ∅; t_rules := ∅; t_notes := [];
     t_note_seq := 0; t_channels := ∅; t_users := ∅; t_sessions := ∅; t_audit := [];
     t_versions := ∅ |}.

Definition on_cards (f : gmap string card_row -> gmap string card_row) (d : DB) : DB :=
  Build_DB (f (t_cards d)) (t_history d) (t_events d) (t_event_seq d) (t_kv d) (t_connections d) (t_settings d)
    (t_assets d) (t_rules d) (t_notes d) (t_note_seq d) (t_channels d) (t_users d) (t_sessions d) (t_audit d)
    (t_versions d).
Definition on_history (f : gmap (string * string * string) Float64 -> gmap (string * string * string) Float64) (d : DB) : DB :=
  Build_DB (t_cards d) (f (t_history d)) (t_events d) (t_event_seq d) (t_kv d) (t_connections d) (t_settings d)
    (t_assets d) (t_rules d) (t_notes d) (t_note_seq d) (t_channels d) (t_users d) (t_sessions d) (t_audit d)
    (t_versions d).
Definition on_events (f : list event_row -> list event_row) (d : DB) : DB :=
  Build_DB (t_cards d) (t_history d) (f (t_events d)) (t_event_seq d) (t_kv d) (t_connections d) (t_settings d)
    (t_assets d) (t_rules d) (t_notes d) (t_note_seq d) (t_channels d) (t_users d) (t_sessions d) (t_audit d)
    (t_versions d).
Definition on_event_seq (f : Z -> Z) (d : DB) : DB :=
  Build_DB (t_cards d) (t_history d) (t_events d) (f (t_event_seq d)) (t_kv d) (t_connections d) (t_settings d)
    (t_assets d) (t_rules d) (t_notes d) (t_note_seq d) (t_channels d) (t_users d) (t_sessions d) (t_audit d)
    (t_versions d).
Definition on_kv (f : gmap (string * string * string * string) (string * option string) -> gmap (string * string * string * string) (string * option string)) (d : DB) : DB :=
  Build_DB (t_cards d) (t_history d) (t_events d) (t_event_seq d) (f (t_kv d)) (t_connections d) (t_settings d)
    (t_assets d) (t_rules d) (t_notes d) (t_note_seq d) (t_channels d) (t_users d) (t_sessions d) (t_audit d)
    (t_versions d).
Definition on_connections (f : gmap string connection_row -> gmap string connection_row) (d : DB) : DB :=
  Build_DB (t_cards d) (t_history d) (t_events d) (t_event_seq d) (t_kv d) (f (t_connections d)) (t_settings d)
    (t_assets d) (t_rules d) (t_notes d) (t_note_seq d) (t_channels d) (t_users d) (t_sessions d) (t_audit d)
    (t_versions d).
Definition on_settings (f : gmap string string -> gmap string string) (d : DB) : DB :=
  Build_DB (t_cards d) (t_history d) (t_events d) (t_event_seq d) (t_kv d) (t_connections d) (f (t_settings d))
    (t_assets d) (t_rules d) (t_notes d) (t_note_seq d) (t_channels d) (t_users d) (t_sessions d) (t_audit d)
    (t_versions d).
Definition on_assets (f : gmap string asset_row -> gmap string asset_row) (d : DB) : DB :=
  Build_DB (t_cards d) (t_history d) (t_events d) (t_event_seq d) (t_kv d) (t_connections d) (t_settings d) (f
    (t_assets d)) (t_rules d) (t_notes d) (t_note_seq d) (t_channels d) (t_users d) (t_sessions d) (t_audit d)
    (t_versions d).
Definition on_rules (f : gmap string rule_row -> gmap string rule_row) (d : DB) : DB :=
  Build_DB (t_cards d) (t_history d) (t_events d) (t_event_seq d) (t_kv d) (t_connections d) (t_settings d)
    (t_assets d) (f (t_rules d)) (t_notes d) (t_note_seq d) (t_channels d) (t_users d) (t_sessions d) (t_audit d)
    (t_versions d).
Definition on_notes (f : list note_row -> list note_row) (d : DB) : DB :=
  Build_DB (t_cards d) (t_history d) (t_events d) (t_event_seq d) (t_kv d) (t_connections d) (t_settings d)
    (t_assets d) (t_rules d) (f (t_notes d)) (t_note_seq d) (t_channels d) (t_users d) (t_sessions d) (t_audit d)
    (t_versions d).
Definition on_note_seq (f : Z -> Z) (d : DB) : DB :=
  Build_DB (t_cards d) (t_history d) (t_events d) (t_event_seq d) (t_kv d) (t_connections d) (t_settings d)
    (t_assets d) (t_rules d) (t_notes d) (f (t_note_seq d)) (t_channels d) (t_users d) (t_sessions d) (t_audit d)
    (t_versions d).
Definition on_channels (f : gmap string channel_row -> gmap string channel_row) (d : DB) : DB :=
  Build_DB (t_cards d) (t_history d) (t_events d) (t_event_seq d) (t_kv d) (t_connections d) (t_settings d)
    (t_assets d) (t_rules d) (t_notes d) (t_note_seq d) (f (t_channels d)) (t_users d) (t_sessions d) (t_audit d)
    (t_versions d).
Definition on_users (f : gmap string user_row -> gmap string user_row) (d : DB) : DB :=
  Build_DB (t_cards d) (t_history d) (t_events d) (t_event_seq d) (t_kv d) (t_connections d) (t_settings d)
    (t_assets d) (t_rules d) (t_notes d) (t_note_seq d) (t_channels d) (f (t_users d)) (t_sessions d) (t_audit d)
    (t_versions d).
Definition on_sessions (f : gmap string session_row -> gmap string session_row) (d : DB) : DB :=
  Build_DB (t_cards d) (t_history d) (t_events d) (t_event_seq d) (t_kv d) (t_connections d) (t_settings d)
    (t_assets d) (t_rules d) (t_notes d) (t_note_seq d) (t_channels d) (t_users d) (f (t_sessions d)) (t_audit d)
    (t_versions d).
Definition on_audit (f : list audit_row -> list audit_row) (d : DB) : DB :=
  Build_DB (t_cards d) (t_history d) (t_events d) (t_event_seq d) (t_kv d) (t_connections d) (t_settings d)
    (t_assets d) (t_rules d) (t_notes d) (t_note_seq d) (t_channels d) (t_users d) (t_sessions d) (f (t_audit d))
    (t_versions d).
Definition on_versions (f : gset Z -> gset Z) (d : DB) : DB :=
  Build_DB (t_cards d) (t_history d) (t_events d) (t_event_seq d) (t_kv d) (t_connections d) (t_settings d)
    (t_assets d) (t_rules d) (t_notes d) (t_note_seq d) (t_channels d) (t_users d) (t_sessions d) (t_audit d) (f
    (t_versions d)).

(** [nullString], [nullIfEmpty]: the empty string is stored as NULL. *)
Definition nullString (v : string) : option string := if String.eqb v "" then None else Some v.
