(* ===== verification/DataDir.v ===== *)
(** * internal/storage/datadir.go: whether a directory can hold the data

    The check of the configured data directory. What the file system says of a path is an argument;
    what the check itself does to it (a directory made, a directory probed with a temporary file) is
    a list of effects. *)
From S2P Require Import Prelude GoPath.

(** [os.Stat]: a directory or a file, or one of the errors the check tells apart. *)
Inductive stat_result := Found (dir : bool) | NotExist | NotADirectory | StatError (e : string).

Inductive effect := MkdirAll (path : string) | Probe (dir : string).

Inductive datadir_error :=
| EAbs (e : string) | EIsFile (path : string) | ECannotCreate (path e : string) | EParentIsFile (path parent : string)
| EParentNotWritable (path parent e : string) | ENoParent (path : string) | EStat (path e : string) | ENotWritable (path e : string)
| EWalkFuel.            (* the bound below is never reached: [walk_enough] *)

Section CheckDataDir.
Variable Abs : string -> res string string.
Variable Stat : string -> stat_result.
Variable mkdir_all : string -> option string.
Variable create_temp : string -> res string string.        (* the file's name *)
Variable remove : string -> option string.

(** [writable] *)
Definition writable (dir : string) : option string :=
  match create_temp dir with Err e => Some e | Ok name => remove name end.

(** The loop over the ancestors of a missing directory: a missing one, and any other failure to look
    at one, goes on to the next. *)
Fixpoint walk (fuel : nat) (abs parent : string) : list effect * res datadir_error string :=
  match fuel with
  | O => ([], Err EWalkFuel)
  | S fuel =>
      match Stat parent with
      | Found false => ([], Err (EParentIsFile abs parent))
      | Found true => ([Probe parent], match writable parent with Some e => Err (EParentNotWritable abs parent e) | None => Ok abs end)
      | _ => let next := filepath_Dir parent in
             if String.eqb next parent then ([], Err (ENoParent abs)) else walk fuel abs next
      end
  end.

Definition probe (abs : string) : list effect * res datadir_error string :=
  ([Probe abs], match writable abs with Some e => Err (ENotWritable abs e) | None => Ok abs end).

Definition CheckDataDir (dir : string) (create : bool) : list effect * res datadir_error string :=
  match Abs (if String.eqb dir "" then "data" else dir) with
  | Err e => ([], Err (EAbs e))
  | Ok abs =>
      match Stat abs, create with
      | Found false, _ => ([], Err (EIsFile abs))
      | Found true, _ => probe abs
      | NotExist, true =>
          match mkdir_all abs with
          | Some e => ([MkdirAll abs], Err (ECannotCreate abs e))
          | None => let '(es, r) := probe abs in (MkdirAll abs :: es, r)
          end
      | NotExist, false | NotADirectory, _ => walk (S (String.length abs)) abs (filepath_Dir abs)
      | StatError e, _ => ([], Err (EStat abs e))
      end
  end.
End CheckDataDir.

(** ** The loop ends *)

(** The length of a path's elements, each with its slash. *)
Definition weight (l : list string) : nat := foldr (fun p n => S (String.length p) + n) 0 l.

Lemma weight_app a b : weight (a ++ b) = weight a + weight b.
Proof. induction a as [|x a IH]; simpl; [done|]. rewrite IH. lia. Qed.
Lemma weight_reverse l : weight (reverse l) = weight l.
Proof. induction l as [|x l IH]; [done|]. rewrite reverse_cons, weight_app, IH. simpl. lia. Qed.
Lemma weight_Split s : weight (Split "/" s) = S (String.length s).
Proof.
  induction s as [|c s IH]; [done|]. simpl. destruct (Ascii.eqb c "/"); simpl; [by rewrite IH|].
  destruct (Split "/" s) as [|h t] eqn:E; [by apply Split_nonempty in E|]. simpl in *. lia.
Qed.
Lemma weight_Join l : l <> [] -> S (String.length (Join "/" l)) = weight l.
Proof.
  induction l as [|x l IH]; [done|]. intros _. destruct l as [|y l]; [simpl; lia|].
  rewrite Join_cons by done. rewrite length_app_str. simpl String.length.
  change (weight (x :: y :: l)) with (S (String.length x) + weight (y :: l)). rewrite <- IH by done. simpl. lia.
Qed.

Lemma clean_parts_weight parts : forall out, weight (clean_parts true out parts) <= weight out + weight parts.
Proof.
  induction parts as [|p parts IH]; intros out; cbn [clean_parts]; [rewrite weight_reverse; lia|].
  destruct (_ || _); [rewrite IH; simpl; lia|]. destruct (String.eqb_spec p "..") as [->|].
  - destruct out as [|o out]; [rewrite IH; simpl; lia|]. destruct (String.eqb_spec o ".."); rewrite IH; simpl; lia.
  - rewrite IH. simpl. lia.
Qed.

Lemma clean_rooted s : String.length (filepath_Clean (String "/" s)) <= S (String.length s).
Proof.
  unfold filepath_Clean. cbn [HasPrefix]. change (HasPrefix (String "/" s) "/") with true. cbn [Split].
  change (Split "/" (String "/" s)) with ("" :: Split "/" s). cbn [clean_parts String.eqb orb].
  pose proof (clean_parts_weight (Split "/" s) []) as Hw. rewrite weight_Split in Hw. simpl in Hw. rewrite length_app_str. simpl.
  destruct (clean_parts true [] (Split "/" s)) as [|x l]; [simpl; lia|].
  pose proof (weight_Join (x :: l) ltac:(done)) as Hj. lia.
Qed.

(** A slash at the end is dropped. *)
Lemma clean_rooted_slash s : s <> "" -> String.length (filepath_Clean (String "/" (s +:+ "/"))) <= S (String.length s).
Proof.
  intros Hs. unfold filepath_Clean. change (HasPrefix (String "/" (s +:+ "/")) "/") with true.
  change (Split "/" (String "/" (s +:+ "/"))) with ("" :: Split "/" (s +:+ "/")). cbn [clean_parts String.eqb orb].
  assert (E : Split "/" (s +:+ "/") = Split "/" s ++ [""]) by apply (Split_app "/" s "").
  rewrite E. assert (Ec : forall l out, clean_parts true out (l ++ [""]) = clean_parts true out l).
  { induction l as [|p l IH]; intros out; [done|]. cbn [clean_parts app]. by repeat (rewrite ?IH; case_match). }
  rewrite Ec. pose proof (clean_parts_weight (Split "/" s) []) as Hw. rewrite weight_Split in Hw. simpl in Hw.
  rewrite length_app_str. simpl. destruct (clean_parts true [] (Split "/" s)) as [|x l]; [simpl; lia|].
  pose proof (weight_Join (x :: l) ltac:(done)) as Hj. lia.
Qed.

Lemma split_dir_spec s : (split_dir s).1 +:+ (split_dir s).2 = s /\ ((split_dir s).1 = "" \/ exists d, (split_dir s).1 = d +:+ "/").
Proof.
  induction s as [|c s [E H]]; [by split; [|left]|]. cbn [split_dir]. destruct (split_dir s) as [d b]. simpl in *.
  destruct (String.eqb_spec d "") as [->|Hd]; simpl in *.
  - destruct (Ascii.eqb_spec c "/") as [->|]; simpl; subst.
    + split; [done|]. right. by exists "".
    + split; [done|by left].
  - subst s. split; [done|]. right. destruct H as [->|[d' ->]]; [done|]. by exists (String c d').
Qed.

(** The directory of a rooted path is rooted, and shorter unless the path is the root. *)
Lemma Dir_rooted s : filepath_Dir (String "/" s) = String "/" s
  \/ exists t, filepath_Dir (String "/" s) = String "/" t /\ String.length t < String.length s.
Proof.
  assert (Hr : forall u, exists t, filepath_Clean (String "/" u) = String "/" t).
  { intros u. unfold filepath_Clean. change (HasPrefix (String "/" u) "/") with true. cbv zeta. eexists. reflexivity. }
  unfold filepath_Dir. destruct (split_dir_spec (String "/" s)) as [E [H|[d H]]]; destruct (split_dir (String "/" s)) as [x b] eqn:Es; simpl in *; subst x.
  - exfalso. cbn [split_dir] in Es. destruct (split_dir s) as [d0 b0]. by destruct (String.eqb d0 ""), (Ascii.eqb "/" "/").
  - destruct d as [|c d].
    + change (String "/" b = String "/" s) in E. injection E as ->. destruct s as [|c s]; [by left|]. right. exists "". split; [done|simpl; lia].
    + change (String c ((d +:+ "/") +:+ b) = String "/" s) in E. injection E as -> E. destruct (Hr (d +:+ "/")) as [t Et]. change (String "/" d +:+ "/") with (String "/" (d +:+ "/")) in *. rewrite Et.
      right. exists t. split; [done|].
      assert (Hl : String.length (String "/" t) <= S (String.length d)).
      { rewrite <- Et. destruct d as [|c' d']; [apply Nat.leb_le; vm_compute; reflexivity|by apply clean_rooted_slash]. }
      simpl in Hl. apply (f_equal String.length) in E. rewrite !length_app_str in E. simpl in E. lia.
Qed.

Section Sound.
Variable Stat : string -> stat_result.
Variable create_temp : string -> res string string.
Variable remove : string -> option string.

Definition absent (p : string) : Prop := forall b, Stat p <> Found b.
(** The nearest existing ancestor of a path, its directory onwards. *)
Definition nearest (p parent : string) : Prop :=
  exists n, parent = Nat.iter n filepath_Dir p /\ forall m, m < n -> absent (Nat.iter m filepath_Dir p).

Lemma nearest_here p : nearest p p.
Proof. exists 0. split; [done|lia]. Qed.
Lemma nearest_up p q : absent p -> nearest (filepath_Dir p) q -> nearest p q.
Proof.
  intros Ha (n & -> & Hn). exists (S n). split; [by rewrite Nat.iter_succ_r|]. intros [|m] Hm; [done|].
  rewrite Nat.iter_succ_r. apply Hn. lia.
Qed.

(** With fuel for the length of the path the loop ends, and it says what the nearest ancestor says. *)
Lemma walk_enough fuel abs s : String.length s < fuel ->
  let '(es, r) := walk Stat create_temp remove fuel abs (String "/" s) in
  r <> Err EWalkFuel /\ (forall p, MkdirAll p ∉ es)
  /\ forall a, r = Ok a -> a = abs /\ exists parent, es = [Probe parent] /\ nearest (String "/" s) parent
       /\ Stat parent = Found true /\ writable create_temp remove parent = None.
Proof.
  revert s; induction fuel as [|fuel IH]; intros s Hs; [lia|]. cbn [walk].
  assert (Hup : absent (String "/" s) ->
    let '(es, r) := if String.eqb (filepath_Dir (String "/" s)) (String "/" s) then ([], Err (ENoParent abs)) else walk Stat create_temp remove fuel abs (filepath_Dir (String "/" s)) in
    r <> Err EWalkFuel /\ (forall p, MkdirAll p ∉ es)
    /\ forall a, r = Ok a -> a = abs /\ exists parent, es = [Probe parent] /\ nearest (String "/" s) parent
       /\ Stat parent = Found true /\ writable create_temp remove parent = None).
  { intros Ha. destruct (String.eqb_spec (filepath_Dir (String "/" s)) (String "/" s)) as [E|Hne]; [split_and!; [done|by intros p ?%elem_of_nil|done]|].
    destruct (Dir_rooted s) as [E|(t & Et & Hl)]; [done|]. assert (Hi := IH t ltac:(lia)). rewrite <- Et in Hi.
    destruct (walk _ _ _ fuel abs _) as [es r]. destruct Hi as (H1 & H2 & H3). split_and!; [done..|].
    intros a (-> & parent & He & Hn & Hd)%H3. split; [done|]. exists parent. split_and!; try done; [by apply nearest_up|apply Hd..]. }
  destruct (Stat (String "/" s)) as [[|]| | |e] eqn:Est; try (apply Hup; intros b; by rewrite Est).
  - split_and!; [by destruct (writable _ _ _)|by intros p [=]%list_elem_of_singleton|]. destruct (writable _ _ _) eqn:Ew; [done|]. intros a [= <-].
    split; [done|]. exists (String "/" s). split_and!; try done. apply nearest_here.
  - split_and!; [done|by intros p ?%elem_of_nil|done].
Qed.
Definition passed (es : list effect) (abs parent : string) : Prop :=
  Probe parent ∈ es /\ nearest (filepath_Dir abs) parent /\ Stat parent = Found true /\ writable create_temp remove parent = None.

(** The loop, from the directory of a missing path. *)
Lemma walk_from s :
  let abs := String "/" s in
  let '(es, r) := walk Stat create_temp remove (S (String.length abs)) abs (filepath_Dir abs) in
  r <> Err EWalkFuel /\ (forall p, MkdirAll p ∉ es) /\ forall a, r = Ok a -> a = abs /\ exists parent, passed es abs parent.
Proof.
  intros abs. assert (H : exists t, filepath_Dir abs = String "/" t /\ String.length t <= String.length s).
  { unfold abs. destruct (Dir_rooted s) as [E|(t & E & Hl)]; rewrite E; eexists; split; [done|done|done|lia]. }
  destruct H as (t & E & Hl). assert (Hw := walk_enough (S (String.length abs)) abs t ltac:(simpl; lia)). rewrite <- E in Hw.
  destruct (walk _ _ _ _ _ _) as [es r]. destruct Hw as (H1 & H2 & H3). split_and!; [done..|].
  intros a (-> & parent & -> & Hn & Hs & Hwr)%H3. split; [done|]. exists parent. split; [by apply list_elem_of_singleton|done].
Qed.

Lemma probe_sound abs :
  let '(es, r) := probe create_temp remove abs in
  r <> Err EWalkFuel /\ (forall p, MkdirAll p ∉ es) /\ forall a, r = Ok a -> a = abs /\ Probe abs ∈ es /\ writable create_temp remove abs = None.
Proof.
  unfold probe. split_and!; [by destruct (writable _ _ _)|by intros p [=]%list_elem_of_singleton|].
  destruct (writable _ _ _) eqn:Ew; [done|]. intros a [= <-]. split_and!; try done. by apply list_elem_of_singleton.
Qed.
End Sound.

(** ** The property *)

(** The check of the data directory ends on every file system, and it passes a directory only if it
    can hold the data: it was probed by writing in it, or it is missing and the nearest ancestor that
    exists is a directory and was probed. A check that may not create anything creates nothing. *)
Theorem check_data_dir_sound Abs Stat mkdir_all create_temp remove dir create abs
  (Habs : Abs (if String.eqb dir "" then "data" else dir) = Ok abs) (Hrooted : HasPrefix abs "/" = true) :
  let '(es, r) := CheckDataDir Abs Stat mkdir_all create_temp remove dir create in
  r <> Err EWalkFuel
  /\ (create = false -> forall p, MkdirAll p ∉ es)
  /\ forall a, r = Ok a -> a = abs /\
     ((Probe abs ∈ es /\ writable create_temp remove abs = None)
      \/ (forall b, Stat abs <> Found b)
         /\ exists parent, Probe parent ∈ es /\ nearest Stat (filepath_Dir abs) parent /\ Stat parent = Found true
                           /\ writable create_temp remove parent = None).
Proof.
  apply HasPrefix_true in Hrooted as [s Es]. change ("/" +:+ s) with (String "/" s) in Es. subst abs.
  unfold CheckDataDir. rewrite Habs. assert (Hw := walk_from Stat create_temp remove s). cbv zeta in Hw.
  assert (Hp := probe_sound create_temp remove (String "/" s)).
  destruct (Stat (String "/" s)) as [[|]| | |e] eqn:Est.
  - destruct (probe _ _ _) as [es r]. destruct Hp as (H1 & H2 & H3). split_and!; [done..|]. intros a (-> & Ha)%H3. auto.
  - split_and!; [done|by intros _ p ?%elem_of_nil|done].
  - destruct create.
    + destruct (mkdir_all _); [split_and!; done|]. destruct (probe _ _ _) as [es r]. destruct Hp as (H1 & H2 & H3).
      split_and!; [done..|]. intros a (-> & Hi & Hwr)%H3. split; [done|]. left. split; [by right|done].
    + destruct (walk _ _ _ _ _ _) as [es r]. destruct Hw as (H1 & H2 & H3). split_and!; [done..|]. intros a (-> & Ha)%H3.
      split; [done|]. right. by split; [intros b|].
  - destruct (walk _ _ _ _ _ _) as [es r]. destruct Hw as (H1 & H2 & H3). split_and!; [done..|]. intros a (-> & Ha)%H3.
    split; [done|]. right. by split; [intros b|].
  - split_and!; [done|by intros _ p ?%elem_of_nil|done].
Qed.

(** A data directory two levels below an existing one: checked without being made, and made. *)
Definition sample_stat (p : string) : stat_result := if String.eqb p "/srv" then Found true else NotExist.
Example check_data_dir_sound_witness :
  CheckDataDir (fun d => Ok ("/srv/app/" +:+ d)) sample_stat (fun _ => None) (fun d => Ok "x") (fun _ => None) "" false = ([Probe "/srv"], Ok "/srv/app/data")
  /\ CheckDataDir (fun d => Ok ("/srv/app/" +:+ d)) sample_stat (fun _ => None) (fun d => Ok "x") (fun _ => None) "" true
     = ([MkdirAll "/srv/app/data"; Probe "/srv/app/data"], Ok "/srv/app/data")
  /\ exists parent, nearest sample_stat "/srv/app" parent /\ sample_stat parent = Found true.
Proof.
  split; [vm_compute; reflexivity|]. split; [vm_compute; reflexivity|].
  pose proof (check_data_dir_sound (fun d => Ok ("/srv/app/" +:+ d)) sample_stat (fun _ => None) (fun d => Ok "x") (fun _ => None) "" false
    "/srv/app/data" eq_refl eq_refl) as H.
  destruct (CheckDataDir _ _ _ _ _ _ _) as [es r] eqn:E. vm_compute in E. injection E as <- <-.
  destruct H as (_ & _ & H). destruct (H _ eq_refl) as [_ [[Hin _]|(_ & parent & _ & Hn & Hs & _)]].
  - apply list_elem_of_singleton in Hin. discriminate Hin.
  - exists parent. split; [exact Hn|exact Hs].
Defined.
