(* ===== verification/TimeText.v ===== *)
(** * Timestamps as text: order and round trip

    The database keeps every timestamp as the text [Format(time.RFC3339Nano)] writes and several
    queries compare that text. The digits come first and are of fixed width, so text order is time
    order between instants of different seconds ([nano_order]); within a second it is not, because
    trailing zeros of the fraction are dropped ([text_order_within_a_second]). What is written
    reads back as the same instant ([parse_format]). No source line maps here. *)
From S2P Require Import Prelude GoSort GoTime.

(** ** Text order *)
Lemma str_ltb_app_l p a b : str_ltb (p +:+ a) (p +:+ b) = str_ltb a b.
Proof.
  induction p as [|c p IH]; [done|]. unfold str_ltb in *. rewrite !app_cons_str. cbn [str_leb].
  by rewrite N.ltb_irrefl.
Qed.

Lemma str_ltb_app p q a b :
  String.length p = String.length q -> str_ltb p q = true -> str_ltb (p +:+ a) (q +:+ b) = true.
Proof.
  revert q; induction p as [|c p IH]; intros [|d q] Hl Hlt; try done. unfold str_ltb in *. rewrite !app_cons_str. cbn [str_leb] in *.
  simpl in Hl.
  destruct (N.ltb_spec (byteN d) (byteN c)); [done|]. destruct (N.ltb_spec (byteN c) (byteN d)); [done|].
  apply (IH q); [lia|done].
Qed.

Definition below (n : nat) (f : Z -> bool) : bool := forallb (fun k => f (Z.of_nat k)) (seq 0 n).
Lemma below_spec n f z : below n f = true -> (0 <= z < Z.of_nat n)%Z -> f z = true.
Proof.
  unfold below. intros H Hz. rewrite forallb_forall in H. specialize (H (Z.to_nat z)). rewrite Z2Nat.id in H by lia.
  apply H. apply in_seq. lia.
Qed.

Lemma pad2_lt a b : (0 <= a < b)%Z -> (b < 100)%Z -> str_ltb (pad 2 a) (pad 2 b) = true.
Proof.
  intros. assert (Hc : below 100 (fun x => below 100 (fun y => (y <=? x)%Z || str_ltb (pad 2 x) (pad 2 y))) = true) by (vm_compute; reflexivity).
  pose proof (below_spec _ _ a Hc ltac:(lia)) as H1. simpl in H1. pose proof (below_spec _ _ b H1 ltac:(lia)) as H2. cbv beta in H2.
  destruct (Z.leb_spec b a); [lia|]. done.
Qed.
Lemma pad2_length a : (0 <= a < 100)%Z -> String.length (pad 2 a) = 2.
Proof.
  intros Ha. assert (Hc : below 100 (fun x => Nat.eqb (String.length (pad 2 x)) 2) = true) by (vm_compute; reflexivity).
  apply Nat.eqb_eq. by apply (below_spec _ _ a Hc).
Qed.
Lemma pad4_split a : (0 <= a < 10000)%Z -> pad 4 a = pad 2 (a / 100) +:+ pad 2 (a mod 100).
Proof.
  intros Ha. assert (Hc : below 10000 (fun x => String.eqb (pad 4 x) (pad 2 (x / 100) +:+ pad 2 (x mod 100))) = true) by (vm_compute; reflexivity).
  apply String.eqb_eq. by apply (below_spec _ _ a Hc).
Qed.
Lemma year_of_days_digits n : (0 <= n)%Z -> exists q400 q100 q4 q1 r,
  (n = 146097 * q400 + 36524 * q100 + 1461 * q4 + 365 * q1 + r /\ 0 <= q400 /\ 0 <= q100 <= 3 /\ 0 <= q4 <= 24
   /\ 0 <= q1 <= 3 /\ 0 <= r <= 365 /\ (q1 < 3 -> r < 365) /\ 365 * q1 + r < 1461
   /\ 1461 * q4 + 365 * q1 + r <= 36524 /\ (q100 < 3 -> 1461 * q4 + 365 * q1 + r < 36524))%Z
  /\ year_of_days n = (400 * q400 + 100 * q100 + 4 * q4 + q1 + 1, r)%Z.
Proof.
  intros Hn. eexists _, _, _, _, _. split; [|reflexivity].
  set (r := (n mod 146097)%Z). set (q := Z.min 3 (r / 36524)). set (r2 := (r - q * 36524)%Z).
  assert (0 <= r < 146097)%Z by (apply Z.mod_pos_bound; lia).
  assert (n = 146097 * (n / 146097) + r)%Z by (apply Z.div_mod; lia).
  assert (0 <= q <= 3 /\ 0 <= r2 /\ (q < 3 -> r2 < 36524) /\ r2 <= 36524)%Z.
  { subst q r2. pose proof (Z.div_mod r 36524 ltac:(lia)). pose proof (Z.mod_pos_bound r 36524 ltac:(lia)). lia. }
  set (q4 := (r2 / 1461)%Z). set (r3 := (r2 mod 1461)%Z).
  assert (r2 = 1461 * q4 + r3)%Z by (apply Z.div_mod; lia). assert (0 <= r3 < 1461)%Z by (apply Z.mod_pos_bound; lia).
  set (q1 := Z.min 3 (r3 / 365)). pose proof (Z.div_mod r3 365 ltac:(lia)). pose proof (Z.mod_pos_bound r3 365 ltac:(lia)).
  assert (0 <= n / 146097)%Z by (apply Z.div_pos; lia). repeat split; lia.
Qed.

Lemma year_of_days_mono n1 n2 : (0 <= n1 < n2)%Z ->
  let '(y1, d1) := year_of_days n1 in let '(y2, d2) := year_of_days n2 in (y1 < y2 \/ y1 = y2 /\ d1 < d2)%Z.
Proof.
  intros H. destruct (year_of_days_digits n1 ltac:(lia)) as (a & b & c & d & e & H1 & ->).
  destruct (year_of_days_digits n2 ltac:(lia)) as (a' & b' & c' & d' & e' & H2 & ->). lia.
Qed.

Lemma month_of_day_mono ms m d1 d2 : Forall (fun d => 0 < d)%Z ms -> (0 <= d1 < d2)%Z ->
  let '(m1, a1) := month_of_day ms m d1 in let '(m2, a2) := month_of_day ms m d2 in (m1 < m2 \/ m1 = m2 /\ a1 < a2)%Z.
Proof.
  revert m d1 d2; induction ms as [|d ms IH]; intros m d1 d2 Hms H; simpl; [lia|]. inversion_clear Hms as [|?? Hd Hms'].
  destruct (Z.ltb_spec d1 d), (Z.ltb_spec d2 d); try lia.
  - assert (Hge : forall ms m d, (m <= (month_of_day ms m d).1)%Z).
    { clear. induction ms as [|x ms IH]; intros m d; simpl; [lia|]. destruct (_ <? _)%Z; simpl; [lia|]. specialize (IH (m + 1)%Z (d - x)%Z). lia. }
    specialize (Hge ms (m + 1)%Z (d2 - d)%Z). destruct (month_of_day ms (m + 1) (d2 - d)). simpl in Hge. lia.
  - apply IH; [done|lia].
Qed.

Lemma month_of_day_range lp yday : (0 <= yday <= 365)%Z ->
  (1 <= (month_of_day (month_days lp) 1 yday).1 < 100 /\ 1 <= (month_of_day (month_days lp) 1 yday).2 < 100)%Z.
Proof.
  intros Hy. assert (Hc : forall lp, below 366 (fun y => let p := month_of_day (month_days lp) 1 y in
    (1 <=? p.1) && (p.1 <? 100) && (1 <=? p.2) && (p.2 <? 100))%Z = true) by (intros []; vm_compute; reflexivity).
  pose proof (below_spec _ _ yday (Hc lp) ltac:(lia)) as H. cbv zeta beta in H. lia.
Qed.

(** The year, month, day, hour, minute and second written for an instant. *)
Definition last_second : Z := (3652059 * 86400)%Z.
Definition written (t : Time) : Prop := (0 <= t < last_second * second)%Z.

Definition two (z : Z) (s : string) : string := pad 2 z +:+ s.
Lemma two_lt a b s t : (0 <= a < b)%Z -> (b < 100)%Z -> str_ltb (two a s) (two b t) = true.
Proof. intros. apply str_ltb_app; [by rewrite !pad2_length by lia|by apply pad2_lt]. Qed.
Lemma two_eq a s t : str_ltb (two a s) (two a t) = str_ltb s t.
Proof. apply str_ltb_app_l. Qed.
Lemma cons_eq c s t : str_ltb (String c s) (String c t) = str_ltb s t.
Proof. exact (str_ltb_app_l (String c "") s t). Qed.

Definition year_of (t : Time) : Z := (year_of_days (t / second / 86400)).1.
Lemma written_days t : written t -> (0 <= t / second / 86400 < 3652059)%Z.
Proof.
  unfold written, last_second, second. intros Ht.
  split; [apply Z.div_pos; [apply Z.div_pos|]; lia|apply Z.div_lt_upper_bound; [lia|apply Z.div_lt_upper_bound; lia]].
Qed.

Lemma year_range t : written t -> (1 <= year_of t < 10000 /\ 0 <= (year_of_days (t / second / 86400)).2 <= 365)%Z.
Proof.
  intros Ht%written_days. unfold year_of. generalize dependent (t / second / 86400)%Z. intros n Hn.
  destruct (year_of_days_digits n ltac:(lia)) as (a & b & c & d & e & H & ->). cbn [fst snd]. lia.
Qed.

(** The text of an instant, digits first. *)
Lemma format_shape t tail : written t ->
  let n := (t / second / 86400)%Z in let s := (t / second mod 86400)%Z in
  let '(y, yday) := year_of_days n in let '(m, d) := month_of_day (month_days (leap y)) 1 yday in
  format_seconds t +:+ tail =
    two (y / 100) (two (y mod 100) (String "-" (two m (String "-" (two d (String "T" (two (s / 3600)
      (String ":" (two (s / 60 mod 60) (String ":" (two (s mod 60) tail))))))))))).
Proof.
  intros Ht. pose proof (year_range t Ht) as Hr. unfold year_of in Hr. unfold format_seconds, two. cbv zeta.
  destruct (year_of_days _) as [y yday]. destruct (month_of_day _ _ _) as [m d]. simpl in Hr.
  rewrite pad4_split by lia. by rewrite !app_assoc_str.
Qed.

Lemma format_order t1 t2 r1 r2 : written t1 -> written t2 -> (t1 / second < t2 / second)%Z ->
  str_ltb (format_seconds t1 +:+ r1) (format_seconds t2 +:+ r2) = true.
Proof.
  intros H1 H2 Hlt. pose proof (format_shape t1 r1 H1) as E1. pose proof (format_shape t2 r2 H2) as E2.
  pose proof (year_range t1 H1) as R1. pose proof (year_range t2 H2) as R2. unfold year_of in R1, R2. cbv zeta in E1, E2.
  assert (0 <= t1 / second)%Z by (apply Z.div_pos; unfold written in H1; [lia|unfold second; lia]).
  set (q1 := (t1 / second)%Z) in *. set (q2 := (t2 / second)%Z) in *.
  pose proof (Z.div_mod q1 86400 ltac:(lia)). pose proof (Z.div_mod q2 86400 ltac:(lia)).
  pose proof (Z.mod_pos_bound q1 86400 ltac:(lia)). pose proof (Z.mod_pos_bound q2 86400 ltac:(lia)).
  assert (0 <= q1 / 86400)%Z by (apply Z.div_pos; lia).
  destruct (decide (q1 / 86400 = q2 / 86400)%Z) as [Eq|Ne].
  - rewrite Eq in E1. destruct (year_of_days _) as [y yday]. destruct (month_of_day _ _ _) as [m d]. rewrite E1, E2.
    set (s1 := (q1 mod 86400)%Z) in *. set (s2 := (q2 mod 86400)%Z) in *. assert (s1 < s2)%Z by lia.
    rewrite !two_eq, !cons_eq, !two_eq, !cons_eq, !two_eq, !cons_eq.
    clear E1 E2 R1 R2 Eq. clearbody s1 s2.
    destruct (decide (s1 / 3600 = s2 / 3600)%Z) as [Eh|]; [|apply two_lt; Z.div_mod_to_equations; lia].
    rewrite Eh, two_eq, cons_eq.
    destruct (decide (s1 / 60 mod 60 = s2 / 60 mod 60)%Z) as [Em|]; [|apply two_lt; Z.div_mod_to_equations; lia].
    rewrite Em, two_eq, cons_eq. apply two_lt; Z.div_mod_to_equations; lia.
  - pose proof (year_of_days_mono (q1 / 86400) (q2 / 86400) ltac:(lia)) as Hy.
    destruct (year_of_days (q1 / 86400)) as [y1 d1], (year_of_days (q2 / 86400)) as [y2 d2]. simpl in R1, R2.
    pose proof (month_of_day_range (leap y1) d1 ltac:(lia)) as M1. pose proof (month_of_day_range (leap y2) d2 ltac:(lia)) as M2.
    destruct Hy as [Hy|[-> Hd]].
    + destruct (month_of_day _ _ d1) as [m1 a1], (month_of_day _ _ d2) as [m2 a2]. rewrite E1, E2.
      destruct (decide (y1 / 100 = y2 / 100)%Z) as [Ey|]; [|apply two_lt; Z.div_mod_to_equations; lia].
      rewrite Ey, two_eq. apply two_lt; Z.div_mod_to_equations; lia.
    + pose proof (month_of_day_mono (month_days (leap y2)) 1 d1 d2 ltac:(by destruct (leap y2); repeat constructor) ltac:(lia)) as Hm.
      destruct (month_of_day _ _ d1) as [m1 a1], (month_of_day _ _ d2) as [m2 a2]. simpl in M1, M2. rewrite E1, E2.
      rewrite !two_eq, !cons_eq. destruct Hm as [Hm|[-> Ha]]; [apply two_lt; lia|].
      rewrite two_eq, cons_eq. apply two_lt; lia.
Qed.

(** ** Round trip *)

Definition digit_char (z : Z) : ascii := pretty_N_char (Z.to_N z).

Lemma digit_char_spec z : (0 <= z < 10)%Z -> isDigit (digit_char z) = true /\ digit (digit_char z) = z.
Proof.
  intros Hz. assert (Hc : below 10 (fun x => isDigit (digit_char x) && (digit (digit_char x) =? x)%Z) = true)
    by (vm_compute; reflexivity). pose proof (below_spec _ _ z Hc ltac:(lia)) as H. cbv beta in H.
  apply andb_true_iff in H as [-> H]. split; [done|lia].
Qed.

Lemma pretty_N_go_app x s : pretty_N_go x s = pretty_N_go x "" +:+ s.
Proof.
  revert s. induction (N.lt_wf_0 x) as [x _ IH]; intros s.
  assert (x = 0 \/ 0 < x)%N as [->|Hx] by lia; [by rewrite !pretty_N_go_0|].
  rewrite !(pretty_N_go_step x) by done.
  assert (x `div` 10 < x)%N as Hd by (apply N.div_lt; lia).
  rewrite (IH _ Hd). symmetry. rewrite (IH _ Hd (String _ "")). by rewrite app_assoc_str.
Qed.

Lemma decimal_pos z : (0 < z)%Z -> decimal z = pretty_N_go (Z.to_N z) "".
Proof. destruct z; try lia. intros _. reflexivity. Qed.
Lemma decimal_digit z : (0 <= z < 10)%Z -> decimal z = String (digit_char z) "".
Proof.
  intros Hz. assert (Hc : below 10 (fun x => String.eqb (decimal x) (String (digit_char x) "")) = true)
    by (vm_compute; reflexivity). apply String.eqb_eq. by apply (below_spec _ _ z Hc).
Qed.
Lemma decimal_step z : (10 <= z)%Z -> decimal z = decimal (z / 10) +:+ String (digit_char (z mod 10)) "".
Proof.
  intros Hz. pose proof (Z.div_mod z 10 ltac:(lia)). pose proof (Z.mod_pos_bound z 10 ltac:(lia)).
  assert (0 < z / 10)%Z by (apply Z.div_str_pos; lia).
  rewrite !decimal_pos by lia. rewrite (pretty_N_go_step (Z.to_N z)) by lia. rewrite pretty_N_go_app. unfold digit_char.
  by rewrite Z2N.inj_div, Z2N.inj_mod by lia.
Qed.

Definition zeros (k : nat) : string := String.concat "" (repeat "0" k).
Lemma zeros_S k : zeros (S k) = String "0" (zeros k).
Proof. destruct k; reflexivity. Qed.

Lemma pad_S w z : (0 < w)%nat -> (0 <= z)%Z -> pad (S w) z = pad w (z / 10) +:+ String (digit_char (z mod 10)) "".
Proof.
  intros Hw Hz. unfold pad. cbv zeta. destruct (Z.ltb_spec z 10) as [Hlt|Hge].
  - rewrite (decimal_digit z) by lia. rewrite Z.div_small, Z.mod_small by lia.
    change (decimal 0) with "0". cbn [String.length]. replace (S w - 1) with (S (w - 1)) by lia.
    f_equal. change (zeros (S (w - 1)) = zeros (w - 1) +:+ "0"). generalize (w - 1). clear.
    induction n; [done|]. by rewrite zeros_S, IHn, zeros_S, app_cons_str at 1.
  - rewrite (decimal_step z) by lia. rewrite length_app_str. cbn [String.length].
    replace (S w - (String.length (decimal (z / 10)) + 1)) with (w - String.length (decimal (z / 10))) by lia.
    by rewrite app_assoc_str.
Qed.

Lemma pad_1 z : (0 <= z < 10)%Z -> pad 1 z = String (digit_char z) "".
Proof. intros Hz. unfold pad. by rewrite decimal_digit. Qed.

(** The first digit and the rest. *)
Lemma pad_cons w z : (0 < w)%nat -> (0 <= z < 10 ^ Z.of_nat (S w))%Z ->
  pad (S w) z = String (digit_char (z / 10 ^ Z.of_nat w)) (pad w (z mod 10 ^ Z.of_nat w)).
Proof.
  revert z; induction w as [|w IH]; intros z Hw Hz; [lia|].
  assert (0 < 10 ^ Z.of_nat w)%Z by (apply Z.pow_pos_nonneg; lia).
  rewrite pad_S by lia. replace (10 ^ Z.of_nat (S w))%Z with (10 * 10 ^ Z.of_nat w)%Z by (rewrite Nat2Z.inj_succ, Z.pow_succ_r; lia).
  destruct w as [|w].
  - change (Z.of_nat 0) with 0%Z in *. rewrite Z.mul_1_r. change (10 ^ Z.of_nat 2)%Z with 100%Z in Hz.
    pose proof (Z.mod_pos_bound z 10 ltac:(lia)). rewrite !pad_1; [done|lia|]. split; [apply Z.div_pos; lia|apply Z.div_lt_upper_bound; lia].
  - rewrite IH; [|lia|].
    + rewrite Z.div_div by lia. rewrite app_cons_str. f_equal.
      rewrite (pad_S (S w)) by (first [lia|apply Z.mod_pos_bound; lia]).
      rewrite Z.rem_mul_r by lia. f_equal.
      * f_equal. rewrite Z.mul_comm, Z.div_add by lia.
        rewrite (Z.div_small (z mod 10)) by (apply Z.mod_pos_bound; lia). lia.
      * f_equal. f_equal. rewrite Z.mul_comm, Z.mod_add by lia. by rewrite Z.mod_mod by lia.
    + split; [apply Z.div_pos; lia|]. apply Z.div_lt_upper_bound; [lia|].
      replace (Z.of_nat (S (S (S w)))) with (Z.succ (Z.of_nat (S (S w)))) in Hz by lia. rewrite Z.pow_succ_r in Hz by lia. lia.
Qed.

Lemma frac_digits_pad w z : (0 < w)%nat -> (0 <= z < 10 ^ Z.of_nat w)%Z ->
  (trim_zeros (pad w z) = "" <-> z = 0%Z)
  /\ frac_digits (10 ^ (Z.of_nat w - 1)) (trim_zeros (pad w z) +:+ "Z") = (z, "Z")
  /\ (z <> 0%Z -> exists c r, trim_zeros (pad w z) = String c r /\ isDigit c = true).
Proof.
  assert (Hdig : forall q, (0 <= q < 10)%Z -> Ascii.eqb (digit_char q) "0" = (q =? 0)%Z).
  { intros q Hq. assert (Hc : below 10 (fun q => Bool.eqb (Ascii.eqb (digit_char q) "0") (q =? 0)%Z) = true) by (vm_compute; reflexivity).
    apply Bool.eqb_prop. by apply (below_spec _ _ q Hc). }
  revert z; induction w as [|w IH]; intros z Hw Hz; [lia|]. destruct w as [|w].
  - change (10 ^ Z.of_nat 1)%Z with 10%Z in Hz. rewrite pad_1 by lia. cbn [trim_zeros]. rewrite Hdig by lia.
    destruct (digit_char_spec z ltac:(lia)) as [Hi Hd].
    destruct (Z.eqb_spec z 0) as [->|Hn]; simpl; [split; [|split]; try done|].
    rewrite Hi, Hd. split; [|split]; [done|f_equal; lia|]. intros _. by exists (digit_char z), "".
  - set (p := (10 ^ Z.of_nat (S w))%Z) in *. assert (0 < p)%Z by (apply Z.pow_pos_nonneg; lia).
    assert (Hp : (10 ^ Z.of_nat (S (S w)) = 10 * p)%Z) by (rewrite Nat2Z.inj_succ, Z.pow_succ_r; lia).
    rewrite pad_cons by lia. fold p. rewrite Hp in Hz.
    pose proof (Z.mod_pos_bound z p ltac:(lia)). pose proof (Z.div_mod z p ltac:(lia)) as Hdm.
    assert (0 <= z / p < 10)%Z by (split; [apply Z.div_pos; lia|apply Z.div_lt_upper_bound; lia]).
    destruct (IH (z mod p)%Z ltac:(lia) ltac:(lia)) as (I1 & I2 & _).
    destruct (digit_char_spec (z / p) ltac:(lia)) as [Hi Hd].
    cbn [trim_zeros]. rewrite Hdig by lia.
    replace (10 ^ (Z.of_nat (S (S w)) - 1))%Z with p by (unfold p; f_equal; lia).
    assert (Hp' : (p / 10 = 10 ^ (Z.of_nat (S w) - 1))%Z).
    { unfold p. replace (Z.of_nat (S w)) with (Z.succ (Z.of_nat (S w) - 1)) at 1 by lia. rewrite Z.pow_succ_r by lia.
      rewrite Z.mul_comm. apply Z.div_mul. lia. }
    destruct (Z.eqb_spec (z / p) 0) as [E|E]; destruct (String.eqb_spec (trim_zeros (pad (S w) (z mod p))) "") as [E'|E']; simpl.
    all: try (assert (z mod p <> 0)%Z by (intros E0; apply E', I1, E0)).
    + apply I1 in E'. assert (z = 0)%Z by (rewrite Hdm, E, E'; lia). by subst.
    + rewrite Hi, Hd, Hp', I2. split; [split; [done|]|split; [|eauto]]; [intros Hz0; exfalso; pose proof (Z.mod_0_l p ltac:(lia)); rewrite Hz0 in *; lia|f_equal; lia].
    + apply I1 in E' as E''. rewrite E', Hi, Hd. cbn. split; [split; [done|]|split; [|eauto]]; [intros Hz0; exfalso; rewrite Hz0, Z.div_0_l in E; lia|f_equal; lia].
    + rewrite Hi, Hd, Hp', I2. split; [split; [done|]|split; [|eauto]]; [intros Hz0; exfalso; pose proof (Z.mod_0_l p ltac:(lia)); rewrite Hz0 in *; lia|f_equal; lia].
Qed.

Lemma pad2_digits a : (0 <= a < 100)%Z -> exists x y, pad 2 a = String x (String y "")
  /\ isDigit x = true /\ isDigit y = true /\ (10 * digit x + digit y = a)%Z.
Proof.
  intros Ha. pose proof (Z.mod_pos_bound a 10 ltac:(lia)). pose proof (Z.div_mod a 10 ltac:(lia)).
  rewrite (pad_cons 1) by (simpl; lia). change (10 ^ Z.of_nat 1)%Z with 10%Z. rewrite pad_1 by lia.
  assert (0 <= a / 10 < 10)%Z by (split; [apply Z.div_pos; lia|apply Z.div_lt_upper_bound; lia]).
  destruct (digit_char_spec (a / 10) ltac:(lia)) as [Hi1 E1], (digit_char_spec (a mod 10) ltac:(lia)) as [Hi2 E2].
  eexists _, _. split; [reflexivity|]. rewrite E1, E2. repeat split; [done|done|lia].
Qed.

Lemma getnum_two fixed a s : (0 <= a < 100)%Z -> getnum fixed (two a s) = Some (a, s).
Proof.
  intros Ha. destruct (pad2_digits a Ha) as (x & y & E & Hx & Hy & Hv). unfold two. rewrite E. cbn [String.append].
  unfold getnum. simpl. by rewrite Hx, Hy, Hv.
Qed.
Lemma getyear_two a b s : (0 <= a < 100)%Z -> (0 <= b < 100)%Z -> getyear (two a (two b s)) = Some (100 * a + b, s)%Z.
Proof.
  intros Ha Hb. destruct (pad2_digits a Ha) as (x & y & E & Hx & Hy & Hv), (pad2_digits b Hb) as (x' & y' & E' & Hx' & Hy' & Hv').
  unfold two. rewrite E, E'. simpl. rewrite Hx, Hy, Hx', Hy'. simpl. do 2 f_equal. lia.
Qed.

(** The date of a day count is the date that counts to it. *)
Lemma date_of_days n : (0 <= n)%Z -> let '(y, yday) := year_of_days n in let '(m, d) := month_of_day (month_days (leap y)) 1 yday in
  days_of_date y m d = n /\ (1 <= m <= 12)%Z /\ (1 <= d <= daysIn m y)%Z.
Proof.
  intros Hn. destruct (year_of_days_digits n Hn) as (a & b & c & d & r & H & ->).
  set (y := (400 * a + 100 * b + 4 * c + d + 1)%Z).
  assert (Hy : ((y - 1) / 4 = 100 * a + 25 * b + c /\ (y - 1) / 100 = 4 * a + b /\ (y - 1) / 400 = a)%Z).
  { unfold y. repeat split; symmetry; [apply Z.div_unique with d|apply Z.div_unique with (4 * c + d)%Z|apply Z.div_unique with (100 * b + 4 * c + d)%Z]; lia. }
  assert (Hleap : (r = 365)%Z -> leap y = true).
  { intros Hr. assert (d = 3)%Z by lia. unfold leap. apply andb_true_iff. split.
    - apply Z.eqb_eq. replace y with ((100 * a + 25 * b + c + 1) * 4)%Z by (unfold y; lia). by apply Z.mod_mul.
    - destruct (decide (c = 24)%Z) as [->|Hc].
      + assert (b = 3)%Z by lia. subst b. apply orb_true_iff. right. apply Z.eqb_eq.
        replace y with ((a + 1) * 400)%Z by (unfold y; lia). by apply Z.mod_mul.
      + apply orb_true_iff. left. apply negb_true_iff, Z.eqb_neq.
        replace y with ((4 * c + 4) + (4 * a + b) * 100)%Z by (unfold y; lia). rewrite Z.mod_add by lia.
        rewrite Z.mod_small by lia. lia. }
  assert (Hc : forall lp : bool, below (if lp then 366 else 365) (fun x => let '(m, d) := month_of_day (month_days lp) 1 x in
    (days_before_month m lp + (d - 1) =? x) && (1 <=? m) && (m <=? 12) && (1 <=? d) && (d <=? nth (Z.to_nat (m - 1)) (month_days lp) 0))%Z = true)
    by (intros []; vm_compute; reflexivity).
  pose proof (below_spec _ _ r (Hc (leap y))) as Hm. cbv beta in Hm.
  destruct (month_of_day _ _ _) as [m dd]. unfold days_of_date, daysIn. destruct Hy as (-> & -> & ->).
  assert (0 <= r < Z.of_nat (if leap y then 366 else 365))%Z as Hr by (destruct (leap y); [|destruct (decide (r = 365)%Z) as [E|]; [specialize (Hleap E); done|]]; lia).
  specialize (Hm Hr). unfold y at 1. lia.
Qed.

(** An instant written as RFC 3339 with a fraction reads back as itself. *)
Lemma parse_format t : written t -> time_Parse (Format_RFC3339Nano t) = Some t.
Proof.
  intros Ht. unfold Format_RFC3339Nano. cbv zeta. pose proof (format_shape t) as Hs.
  set (tail := (if (t mod second =? 0)%Z then "" else "." +:+ trim_zeros (pad 9 (t mod second))) +:+ "Z").
  specialize (Hs tail Ht). pose proof (year_range t Ht) as Hy. unfold year_of in Hy. pose proof (written_days t Ht) as Hd.
  pose proof (date_of_days _ (proj1 Hd)) as Hdate. cbv zeta in Hs.
  assert (Hns : (0 <= t mod second < 1000000000)%Z) by (apply Z.mod_pos_bound; unfold second; lia).
  assert (Hfrac : getfrac tail = ((t mod second)%Z, "Z")).
  { unfold tail. destruct (Z.eqb_spec (t mod second) 0) as [->|Hn]; [done|].
    destruct (frac_digits_pad 9 (t mod second) ltac:(lia) ltac:(lia)) as (_ & Hf & Hc). destruct (Hc Hn) as (c & r & E & Hi).
    rewrite app_assoc_str. change (10 ^ (Z.of_nat 9 - 1))%Z with 100000000%Z in Hf. rewrite E in *. 
    change (getfrac (String "." (String c (r +:+ "Z"))) = ((t mod second)%Z, "Z")). unfold getfrac. rewrite Hi. exact Hf. }
  clearbody tail. set (secs := (t / second)%Z) in *. set (n := (secs / 86400)%Z) in *. set (s := (secs mod 86400)%Z) in *.
  assert (Hsecs : (secs = 86400 * n + s /\ 0 <= s < 86400)%Z) by (split; [apply Z.div_mod; lia|apply Z.mod_pos_bound; lia]).
  assert (Htt : (t = second * secs + t mod second)%Z) by (apply Z.div_mod; unfold second; lia).
  destruct (year_of_days n) as [y yday]. pose proof (month_of_day_range (leap y) yday ltac:(simpl in Hy; lia)) as Hm.
  destruct (month_of_day _ _ _) as [m d]. simpl in Hy, Hm. destruct Hdate as (Hdate & Hm12 & Hdi). rewrite Hs. clear Hs.
  assert (0 <= s / 3600 < 24 /\ 0 <= s / 60 mod 60 < 60 /\ 0 <= s mod 60 < 60 /\ s = s / 3600 * 3600 + (s / 60 mod 60) * 60 + s mod 60)%Z as Hhms
    by (clearbody s; Z.div_mod_to_equations; lia).
  unfold time_Parse. rewrite getyear_two by (Z.div_mod_to_equations; lia). cbn [mbind option_bind skip1]. rewrite Ascii.eqb_refl.
  cbn [mbind option_bind]. rewrite getnum_two by lia. cbn [mbind option_bind].
  rewrite (proj2 (orb_false_iff _ _)) by lia. cbn [mbind option_bind skip1]. rewrite Ascii.eqb_refl. cbn [mbind option_bind].
  rewrite getnum_two by lia. cbn [mbind option_bind skip1]. rewrite Ascii.eqb_refl. cbn [mbind option_bind].
  rewrite getnum_two by lia. cbn [mbind option_bind]. rewrite (proj2 (Z.leb_gt _ _)) by lia.
  cbn [mbind option_bind skip1]. rewrite Ascii.eqb_refl. cbn [mbind option_bind].
  rewrite getnum_two by lia. cbn [mbind option_bind]. rewrite (proj2 (Z.leb_gt _ _)) by lia.
  cbn [mbind option_bind skip1]. rewrite Ascii.eqb_refl. cbn [mbind option_bind].
  rewrite getnum_two by lia. cbn [mbind option_bind]. rewrite (proj2 (Z.leb_gt _ _)) by lia.
  rewrite Hfrac. cbn [getzone mbind option_bind String.eqb negb].
  replace (100 * (y / 100) + y mod 100)%Z with y by (apply Z.div_mod; lia).
  rewrite (proj2 (orb_false_iff _ _)) by lia. f_equal. rewrite Hdate. clearbody s n secs. unfold second in *. lia.
Qed.

(** ** Text order of whole timestamps *)

Lemma nano_order t1 t2 : written t1 -> written t2 -> (t1 / second < t2 / second)%Z ->
  str_ltb (Format_RFC3339Nano t1) (Format_RFC3339Nano t2) = true.
Proof. apply format_order. Qed.

(** The converse: text that is not after another is of a second not after it. *)
Lemma nano_le_seconds t1 t2 : written t1 -> written t2 ->
  str_leb (Format_RFC3339Nano t1) (Format_RFC3339Nano t2) = true -> (t1 / second <= t2 / second)%Z.
Proof.
  intros H1 H2 Hle. destruct (Z.le_gt_cases (t1 / second) (t2 / second)) as [|Hgt]; [done|].
  pose proof (nano_order t2 t1 H2 H1 ltac:(lia)) as Hlt. unfold str_ltb in Hlt. by rewrite Hle in Hlt.
Qed.

(** Noon is written after half a second past noon. *)
Example text_order_within_a_second :
  let noon := (738000 * 86400 * second + 43200 * second)%Z in
  let later := (noon + 500 * millisecond)%Z in
  (noon < later)%Z /\ str_ltb (Format_RFC3339Nano later) (Format_RFC3339Nano noon) = true.
Proof. vm_compute. done. Qed.

(** ** Decimal text reads back *)

Lemma atoi_digits_snoc s c acc :
  atoi_digits (s +:+ String c "") acc = n ← atoi_digits s acc; atoi_digits (String c "") n.
Proof. revert acc; induction s as [|d s IH]; intros acc; [done|]. rewrite app_cons_str. cbn [atoi_digits]. cbv zeta. case_match; [apply IH|done]. Qed.

Lemma atoi_digit z acc : (0 <= z < 10)%Z -> atoi_digits (String (digit_char z) "") acc = Some (10 * acc + z)%Z.
Proof.
  intros Hz. destruct (digit_char_spec z Hz) as [_ Hd]. unfold digit in Hd. cbn [atoi_digits]. rewrite Hd. cbv zeta.
  destruct (Z.leb_spec 0 z), (Z.leb_spec z 9); try lia. done.
Qed.

Lemma atoi_decimal z : (0 <= z)%Z -> atoi_digits (decimal z) 0 = Some z.
Proof.
  intros Hz. induction (Z.lt_wf 0 z) as [z _ IH]. destruct (decide (z < 10)%Z) as [Hlt|Hge].
  - rewrite decimal_digit by lia. rewrite atoi_digit by lia. f_equal; lia.
  - pose proof (Z.div_mod z 10 ltac:(lia)). pose proof (Z.mod_pos_bound z 10 ltac:(lia)).
    rewrite decimal_step, atoi_digits_snoc by lia. rewrite IH by (split || idtac; lia). cbn [mbind option_bind]. rewrite atoi_digit by lia. f_equal; lia.
Qed.

Lemma decimal_digits z : (0 <= z)%Z -> all_bytes isDigit (decimal z) = true.
Proof.
  intros Hz. induction (Z.lt_wf 0 z) as [z _ IH]. destruct (decide (z < 10)%Z) as [Hlt|Hge].
  - rewrite decimal_digit by lia. simpl. by destruct (digit_char_spec z ltac:(lia)) as [-> _].
  - pose proof (Z.div_mod z 10 ltac:(lia)). pose proof (Z.mod_pos_bound z 10 ltac:(lia)).
    rewrite decimal_step, all_bytes_app, IH by (lia || split; lia). simpl. by destruct (digit_char_spec (z mod 10) ltac:(lia)) as [-> _].
Qed.

Lemma decimal_nonempty z : (0 <= z)%Z -> decimal z <> "".
Proof.
  intros Hz. destruct (decide (z < 10)%Z); [by rewrite decimal_digit by lia|]. rewrite decimal_step by lia.
  by destruct (decimal (z / 10)).
Qed.
