(* ===== verification/NetIP.v ===== *)
(** * The net and net/netip behaviour the program relies on

    Addresses and prefixes as [netip.ParseAddr] and [netip.ParsePrefix] read them, membership of a
    prefix, the classes of addresses, and [net.SplitHostPort]. These are standard-library
    operations, written out as executable definitions; no source line maps here. *)
From S2P Require Import Prelude RoutePath GoTime.

(** ** Addresses *)

(** [netip.Addr]: its bits as a number of 32 or 128 bits, and the zone of an IPv6 address. *)
Record Addr := { ad_v6 : bool; ad_bits : Z; ad_zone : string }.
#[export] Instance Addr_eq_dec : EqDecision Addr.
Proof. solve_decision. Defined.

Definition addr4 (bits : Z) : Addr := {| ad_v6 := false; ad_bits := bits; ad_zone := "" |}.
Definition addr6 (bits : Z) (zone : string) : Addr := {| ad_v6 := true; ad_bits := bits; ad_zone := zone |}.
Definition BitLen (a : Addr) : Z := if ad_v6 a then 128 else 32.
Definition addr_ok (a : Addr) : Prop := (0 <= ad_bits a < 2 ^ BitLen a)%Z.

(** The number written by digits of [w] bits, the most significant first. *)
Definition big_endian (w : Z) (l : list Z) : Z := fold_left (fun acc x => (acc * 2 ^ w + x)%Z) l 0%Z.

(** One octet of a dotted address: at most 255, no leading zero. *)
Fixpoint octet_digits (s : string) (val : Z) (n : nat) : option Z :=
  match s with
  | EmptyString => match n with O => None | _ => Some val end
  | String c r =>
      if negb (isDigit c) || ((n =? 1)%nat && (val =? 0)%Z) then None
      else let v := (val * 10 + digit c)%Z in if (255 <? v)%Z then None else octet_digits r v (S n)
  end.
Definition parseIPv4 (s : string) : option Z :=
  l ← mapM (fun p => octet_digits p 0 0) (Split "." s);
  match l with [_; _; _; _] => Some (big_endian 8 l) | _ => None end.

(** The hexadecimal digits a group begins with, and the rest. *)
Definition hex_value (c : ascii) : Z :=
  Z.of_N (byteN c) - (if in_range 48 57 c then 48 else if in_range 97 102 c then 87 else 55).
Fixpoint hex_group (s : string) : string * string :=
  match s with
  | String c r => if isHex c then let '(a, b) := hex_group r in (String c a, b) else ("", s)
  | EmptyString => ("", "")
  end.
Fixpoint hex_number (s : string) (acc : Z) : Z :=
  match s with String c r => hex_number r (acc * 16 + hex_value c)%Z | EmptyString => acc end.

(** The groups of an IPv6 address: [room] of its eight are left, [got] are read (last first), and
    [ellipsis] is how many were read before a [::]. The result's string is what was not read. *)
Definition dotted_tail (got : list Z) (ellipsis : option nat) (s : string) : option (list Z * option nat * string) :=
  v ← parseIPv4 s; Some ((v mod 65536)%Z :: (v / 65536)%Z :: got, ellipsis, "").
Fixpoint groups (room : nat) (got : list Z) (ellipsis : option nat) (s : string) : option (list Z * option nat * string) :=
  match room with
  | O => Some (got, ellipsis, s)
  | S room' =>
      let '(g, rest) := hex_group s in
      let got' := hex_number g 0 :: got in
      if (String.length g =? 0)%nat || (4 <? String.length g)%nat then None
      else match rest with
           | EmptyString => Some (got', ellipsis, "")
           | String "." _ =>
               if match ellipsis with None => (length got =? 6)%nat | Some _ => (1 <=? room')%nat end
               then dotted_tail got ellipsis s else None
           | String ":" EmptyString => None
           | String ":" (String ":" r) =>
               match ellipsis, r with
               | Some _, _ => None
               | None, EmptyString => Some (got', Some (length got'), "")
               | None, _ => groups room' got' (Some (length got')) r
               end
           | String ":" r => groups room' got' ellipsis r
           | _ => None
           end
  end.

Definition zeros (n : nat) : list Z := repeat 0%Z n.
Definition parse_groups (s : string) : option Z :=
  let '(ellipsis, body) := match strip_prefix "::" s with Some r => (Some 0%nat, r) | None => (None, s) end in
  match ellipsis, body with
  | Some _, EmptyString => Some 0%Z
  | _, _ =>
      '(got, e, rest) ← groups 8 [] ellipsis body;
      let l := rev got in
      match rest with
      | String _ _ => None
      | EmptyString =>
          match e with
          | None => if (length l <? 8)%nat then None else Some (big_endian 16 l)
          | Some k => if (length l <? 8)%nat then Some (big_endian 16 (take k l ++ zeros (8 - length l) ++ drop k l)) else None
          end
      end
  end.

Definition parseIPv6 (s : string) : option Addr :=
  match Cut s "%" with
  | None => (fun b => addr6 b "") <$> parse_groups s
  | Some (_, EmptyString) => None
  | Some (a, zone) => (fun b => addr6 b zone) <$> parse_groups a
  end.

(** [netip.ParseAddr]: the first of ['.'], [':'] and ['%'] tells the kind of address. *)
Fixpoint first_of (s : string) : option ascii :=
  match s with
  | EmptyString => None
  | String c r => if Ascii.eqb c "." || Ascii.eqb c ":" || Ascii.eqb c "%" then Some c else first_of r
  end.
Definition ParseAddr (s : string) : option Addr :=
  match first_of s with
  | Some "."%char => addr4 <$> parseIPv4 s
  | Some ":"%char => parseIPv6 s
  | _ => None
  end.

(** ** Prefixes *)

(** [netip.Prefix]: an address without its zone and how many of its bits count. *)
Record Prefix := { px_v6 : bool; px_addr : Z; px_bits : Z }.
Definition PrefixFrom (a : Addr) (bits : Z) : Prefix := {| px_v6 := ad_v6 a; px_addr := ad_bits a; px_bits := bits |}.
Definition px_len (p : Prefix) : Z := if px_v6 p then 128 else 32.
Definition Masked (p : Prefix) : Prefix :=
  let k := (px_len p - px_bits p)%Z in
  {| px_v6 := px_v6 p; px_addr := Z.shiftl (Z.shiftr (px_addr p) k) k; px_bits := px_bits p |}.

(** [strings.LastIndexByte] and the two sides of it. *)
Definition cut_last (c : ascii) (s : string) : option (string * string) :=
  match rev (Split c s) with
  | lst :: x :: l => Some (Join c (rev (x :: l)), lst)
  | _ => None
  end.
Definition prefix_bits (s : string) : option Z :=
  match s with
  | String c (String _ _) => if in_range 49 57 c then Atoi s else None
  | _ => Atoi s
  end.
Definition ParsePrefix (s : string) : option Prefix :=
  '(a, b) ← cut_last "/" s;
  ip ← ParseAddr a;
  if negb (String.eqb (ad_zone ip) "") then None
  else bits ← prefix_bits b;
       if ((bits <? 0) || (BitLen ip <? bits))%Z then None else Some (PrefixFrom ip bits).

(** [Prefix.Contains]: an address with a zone is in no prefix. *)
Definition Contains_addr (p : Prefix) (a : Addr) : bool :=
  String.eqb (ad_zone a) "" && Bool.eqb (px_v6 p) (ad_v6 a)
  && (let k := (px_len p - px_bits p)%Z in Z.shiftr (ad_bits a) k =? Z.shiftr (px_addr p) k)%Z.

(** ** Classes of addresses *)

(** [Unmap] *)
Definition Is4In6 (a : Addr) : bool := ad_v6 a && (Z.shiftr (ad_bits a) 32 =? 65535)%Z.
Definition Unmap (a : Addr) : Addr := if Is4In6 a then addr4 (Z.land (ad_bits a) 4294967295) else a.
(** The octet of an IPv4 address [k] bits from its end; the first sixteen bits of an IPv6 one. *)
Definition octet (a : Addr) (k : Z) : Z := Z.land (Z.shiftr (ad_bits a) k) 255.
Definition word0 (a : Addr) : Z := Z.land (Z.shiftr (ad_bits a) 112) 65535.

Definition IsUnspecified (a : Addr) : bool := (ad_bits a =? 0)%Z && String.eqb (ad_zone a) "".
Definition IsLoopback (a : Addr) : bool := if ad_v6 a then (ad_bits a =? 1)%Z else (octet a 24 =? 127)%Z.
Definition IsPrivate (a : Addr) : bool :=
  if ad_v6 a then (Z.land (word0 a) 65024 =? 64512)%Z
  else ((octet a 24 =? 10) || (octet a 24 =? 172) && (Z.land (octet a 16) 240 =? 16)
        || (octet a 24 =? 192) && (octet a 16 =? 168))%Z.
Definition IsLinkLocalUnicast (a : Addr) : bool :=
  if ad_v6 a then (Z.land (word0 a) 65472 =? 65152)%Z else ((octet a 24 =? 169) && (octet a 16 =? 254))%Z.
Definition IsMulticast (a : Addr) : bool :=
  if ad_v6 a then (Z.shiftr (word0 a) 8 =? 255)%Z else (Z.land (octet a 24) 240 =? 224)%Z.
Definition IsLinkLocalMulticast (a : Addr) : bool :=
  if ad_v6 a then (Z.land (word0 a) 65295 =? 65282)%Z
  else ((octet a 24 =? 224) && (octet a 16 =? 0) && (octet a 8 =? 0))%Z.

(** [net.ParseIP], and [IsUnspecified] and [IsLoopback] of a [net.IP], which see a mapped address as
    the IPv4 one. *)
Definition ParseIP (s : string) : option Addr :=
  a ← ParseAddr s; if String.eqb (ad_zone a) "" then Some (Unmap a) else None.

(** ** Host and port *)

(** [net.SplitHostPort] *)
Definition SplitHostPort (hostport : string) : option (string * string) :=
  '(before, port) ← cut_last ":" hostport;
  match hostport with
  | String "[" inner =>
      '(h, after) ← Cut inner "]";
      if String.eqb after (String ":" port) && negb (contains_byte "[" inner) && negb (contains_byte "]" after)
      then Some (h, port) else None
  | _ =>
      if contains_byte ":" before || contains_byte "[" hostport || contains_byte "]" hostport then None
      else Some (before, port)
  end.

Example addr_forms : map ParseAddr ["10.0.0.1"; "::1"; "fe80::1%eth0"; "::ffff:1.2.3.4"; "1:2:3:4:5:6:7:8"; "2001:db8::"]
  = [Some (addr4 167772161); Some (addr6 1 ""); Some (addr6 (65152 * 2 ^ 112 + 1) "eth0"); Some (addr6 (65535 * 2 ^ 32 + 16909060) "");
     Some (addr6 (big_endian 16 [1; 2; 3; 4; 5; 6; 7; 8]%Z) ""); Some (addr6 (big_endian 16 [8193; 3512; 0; 0; 0; 0; 0; 0]%Z) "")].
Proof. vm_compute. reflexivity. Qed.
Example addr_refused : map ParseAddr ["10.0.0"; "10.0.0.01"; "1.2.3.4.5"; "256.0.0.1"; "1::2::3"; "1:2:3:4:5:6:7"; "1:2:3:4:5:6:7::8";
    "::%"; "%eth0"; "localhost"; "12345::"; "1:2:3:4:5:6:7:8:9"; ":1"; "1:"; "::1.2.3.4.5"; ""] = repeat None 16.
Proof. vm_compute. reflexivity. Qed.
Example hostport_forms : map SplitHostPort ["127.0.0.1:80"; ":8099"; "[::1]:80"; "[fe80::1%eth0]:1"; "::1:80"; "host"; "[::1]"; "[::1]80"; "[a]b:80"]
  = [Some ("127.0.0.1", "80"); Some ("", "8099"); Some ("::1", "80"); Some ("fe80::1%eth0", "1"); None; None; None; None; None].
Proof. vm_compute. reflexivity. Qed.
Definition in_prefix (p a : string) : option bool :=
  match ParsePrefix p, ParseAddr a with Some p, Some a => Some (Contains_addr p a) | _, _ => None end.
Example prefix_forms :
  map (fun x => in_prefix x.1 x.2) [("10.0.0.0/8", "10.200.3.4"); ("10.0.0.0/8", "11.0.0.1"); ("fe80::/10", "febf::1");
    ("::/0", "1.2.3.4"); ("10.0.0.0/08", "10.0.0.1"); ("10.0.0.0/33", "10.0.0.1")]
  = [Some true; Some false; Some true; Some false; None; None].
Proof. vm_compute. reflexivity. Qed.

(** ** Lemmas *)

Lemma px_len_from a bits : px_len (PrefixFrom a bits) = BitLen a.
Proof. done. Qed.

(** Membership, arithmetically: the same block of the address space. *)
Lemma Contains_addr_spec p a : (0 <= px_bits p <= px_len p)%Z ->
  Contains_addr p a = true <->
  ad_zone a = "" /\ px_v6 p = ad_v6 a /\ (ad_bits a / 2 ^ (px_len p - px_bits p) = px_addr p / 2 ^ (px_len p - px_bits p))%Z.
Proof.
  intros H. unfold Contains_addr. rewrite !andb_true_iff, String.eqb_eq, Bool.eqb_true_iff, Z.eqb_eq.
  rewrite !Z.shiftr_div_pow2 by lia. tauto.
Qed.

(** Masking a prefix changes no membership. *)
Lemma Masked_contains p a : (0 <= px_bits p <= px_len p)%Z -> Contains_addr (Masked p) a = Contains_addr p a.
Proof.
  intros H. unfold Contains_addr, Masked. cbn [px_v6 px_addr px_bits px_len].
  assert (px_len {| px_v6 := px_v6 p; px_addr := Z.shiftl (Z.shiftr (px_addr p) (px_len p - px_bits p)) (px_len p - px_bits p);
                    px_bits := px_bits p |} = px_len p) as -> by done.
  do 2 f_equal. rewrite Z.shiftr_shiftl_l by lia.
  by rewrite Z.sub_diag, Z.shiftl_0_r.
Qed.

(** The prefix of all of an address's bits contains that address only. *)
Lemma full_prefix a b : Contains_addr (PrefixFrom a (BitLen a)) b = true <-> b = {| ad_v6 := ad_v6 a; ad_bits := ad_bits a; ad_zone := "" |}.
Proof.
  rewrite Contains_addr_spec by (rewrite px_len_from; cbn; unfold BitLen; destruct (ad_v6 a); lia).
  rewrite px_len_from. cbn [px_v6 px_addr px_bits PrefixFrom]. rewrite Z.sub_diag, !Z.div_1_r.
  destruct b as [v bits z]; cbn. split; [intros (-> & -> & ->); done | intros [= -> -> ->]; done].
Qed.

Lemma ParsePrefix_bits s p : ParsePrefix s = Some p -> (0 <= px_bits p <= px_len p)%Z.
Proof.
  unfold ParsePrefix. intros H. destruct (cut_last "/" s) as [[a b]|]; [|done]. cbn in H.
  destruct (ParseAddr a) as [ip|]; [|done]. cbn in H. case_in H.
  apply bind_Some in H as (bits & Hb & H). case_in H.
  rewrite px_len_from. apply orb_false_iff in Heqb1 as [?%Z.ltb_ge ?%Z.ltb_ge]. cbn. lia.
Qed.
