(* ===== verification/Utf8.v ===== *)
(** * Go strings as text: [range] over a string, [utf8] and [utf16]

    Ranging over a string decodes one character after another and gives U+FFFD for each byte that
    starts none; [WriteRune] encodes them back. Text is valid when that is the identity. The order of
    UTF-16 code units is RFC 8785's order of keys. No source line maps here. *)
From S2P Require Import Prelude RoutePath GoSort.

Definition cont (b : ascii) : bool := in_range 128 191 b.
Definition RuneError : N := 65533.
Definition rune1 (a : ascii) : N := if (byteN a <? 128)%N then byteN a else RuneError.
Definition ok2 (a b : ascii) : bool := in_range 194 223 a && cont b.
Definition rune2 (a b : ascii) : N := ((byteN a - 192) * 64 + (byteN b - 128))%N.
Definition ok3 (a b c : ascii) : bool :=
  (if N.eqb (byteN a) 224 then in_range 160 191 b else if N.eqb (byteN a) 237 then in_range 128 159 b
   else in_range 225 239 a && cont b) && cont c.
Definition rune3 (a b c : ascii) : N := (((byteN a - 224) * 64 + (byteN b - 128)) * 64 + (byteN c - 128))%N.
Definition ok4 (a b c d : ascii) : bool :=
  (if N.eqb (byteN a) 240 then in_range 144 191 b else if N.eqb (byteN a) 244 then in_range 128 143 b
   else in_range 241 243 a && cont b) && cont c && cont d.
Definition rune4 (a b c d : ascii) : N :=
  ((((byteN a - 240) * 64 + (byteN b - 128)) * 64 + (byteN c - 128)) * 64 + (byteN d - 128))%N.

Fixpoint runes (s : string) : list N :=
  match s with
  | "" => []
  | String a s1 =>
      match s1 with
      | String b s2 =>
          if ok2 a b then rune2 a b :: runes s2
          else match s2 with
               | String c s3 =>
                   if ok3 a b c then rune3 a b c :: runes s3
                   else match s3 with
                        | String d s4 => if ok4 a b c d then rune4 a b c d :: runes s4 else rune1 a :: runes s1
                        | "" => rune1 a :: runes s1
                        end
               | "" => rune1 a :: runes s1
               end
      | "" => rune1 a :: runes s1
      end
  end.

Definition byte_of (n : N) : ascii := ascii_of_N n.
Definition surrogate (n : N) : bool := (55296 <=? n)%N && (n <? 57344)%N.
Definition encode_rune (n : N) : string :=
  if (n <? 128)%N then String (byte_of n) ""
  else if (n <? 2048)%N then String (byte_of (192 + n / 64)) (String (byte_of (128 + n mod 64)) "")
  else if surrogate n || (1114111 <? n)%N then String "239" (String "191" (String "189" ""))
  else if (n <? 65536)%N
       then String (byte_of (224 + n / 4096)) (String (byte_of (128 + n / 64 mod 64)) (String (byte_of (128 + n mod 64)) ""))
  else String (byte_of (240 + n / 262144)) (String (byte_of (128 + n / 4096 mod 64))
         (String (byte_of (128 + n / 64 mod 64)) (String (byte_of (128 + n mod 64)) ""))).
Definition encode_runes (l : list N) : string := foldr (fun n s => encode_rune n +:+ s) "" l.

Definition valid_text (s : string) : bool := String.eqb (encode_runes (runes s)) s.

(** [utf16.Encode] *)
Definition units1 (n : N) : list N :=
  if (65536 <=? n)%N && (n <=? 1114111)%N then [55296 + (n - 65536) / 1024; 56320 + (n - 65536) mod 1024]%N
  else if surrogate n || (1114111 <? n)%N then [RuneError] else [n].
Definition utf16 (l : list N) : list N := concat (map units1 l).

Fixpoint units_leb (a b : list N) : bool :=
  match a, b with
  | [], _ => true
  | _ :: _, [] => false
  | x :: a, y :: b => if N.eqb x y then units_leb a b else (x <? y)%N
  end.
Definition key_leb (a b : string) : bool := units_leb (utf16 (runes a)) (utf16 (runes b)).

(** ** Lemmas *)

(** The characters a decoder gives: no surrogates, nothing past the last plane. *)
Definition scalar (n : N) : Prop := (n < 1114112)%N /\ surrogate n = false.

Lemma in_range_bounds lo hi c : in_range lo hi c = true -> (lo <= byteN c <= hi)%N.
Proof. unfold in_range. rewrite andb_true_iff, !N.leb_le. done. Qed.

Lemma scalar1 a : scalar (rune1 a).
Proof. unfold rune1, scalar, surrogate, RuneError. destruct (N.ltb_spec (byteN a) 128); [|done]. split; [lia|]. rewrite andb_false_iff, N.leb_gt. left. lia. Qed.
Lemma scalar2 a b : ok2 a b = true -> scalar (rune2 a b) /\ (128 <= rune2 a b)%N.
Proof.
  unfold ok2, cont, rune2, scalar, surrogate. intros [Ha%in_range_bounds Hb%in_range_bounds]%andb_true_iff.
  rewrite andb_false_iff, N.leb_gt, N.ltb_ge. lia.
Qed.
Lemma scalar3 a b c : ok3 a b c = true -> scalar (rune3 a b c) /\ (2048 <= rune3 a b c)%N.
Proof.
  unfold ok3, cont, rune3, scalar, surrogate. intros [Hab Hc%in_range_bounds]%andb_true_iff. rewrite andb_false_iff, N.leb_gt, N.ltb_ge.
  destruct (N.eqb_spec (byteN a) 224); [apply in_range_bounds in Hab; lia|].
  destruct (N.eqb_spec (byteN a) 237); [apply in_range_bounds in Hab; lia|].
  apply andb_true_iff in Hab as [Ha%in_range_bounds Hb%in_range_bounds]. lia.
Qed.
Lemma scalar4 a b c d : ok4 a b c d = true -> scalar (rune4 a b c d) /\ (65536 <= rune4 a b c d)%N.
Proof.
  unfold ok4, cont, rune4, scalar, surrogate. intros [[Hab Hc%in_range_bounds]%andb_true_iff Hd%in_range_bounds]%andb_true_iff.
  rewrite andb_false_iff, N.leb_gt, N.ltb_ge.
  destruct (N.eqb_spec (byteN a) 240); [apply in_range_bounds in Hab; lia|].
  destruct (N.eqb_spec (byteN a) 244); [apply in_range_bounds in Hab; lia|].
  apply andb_true_iff in Hab as [Ha%in_range_bounds Hb%in_range_bounds]. lia.
Qed.

Lemma runes_scalar s : Forall scalar (runes s).
Proof.
  assert (H : forall n s, String.length s <= n -> Forall scalar (runes s)); [|by apply (H (String.length s))].
  induction n as [|n IH]; intros [|a s1] Hl; simpl in Hl; try constructor; try lia. cbn [runes].
  assert (H1 : Forall scalar (rune1 a :: runes s1)) by (constructor; [apply scalar1|apply IH; lia]).
  destruct s1 as [|b s2]; [done|]. destruct (ok2 a b) eqn:E2; [constructor; [by apply scalar2|apply IH; simpl in Hl; lia]|].
  destruct s2 as [|c s3]; [done|]. destruct (ok3 a b c) eqn:E3; [constructor; [by apply scalar3|apply IH; simpl in Hl; lia]|].
  destruct s3 as [|d s4]; [done|]. destruct (ok4 a b c d) eqn:E4; [constructor; [by apply scalar4|apply IH; simpl in Hl; lia]|]. done.
Qed.

Lemma valid_text_runes a b : valid_text a = true -> valid_text b = true -> runes a = runes b -> a = b.
Proof. unfold valid_text. intros Ha%String.eqb_eq Hb%String.eqb_eq E. by rewrite <- Ha, <- Hb, E. Qed.

(** *** UTF-16 *)

Lemma units1_scalar n : scalar n ->
  units1 n = [n] /\ (n < 65536)%N /\ surrogate n = false
  \/ (65536 <= n)%N /\ units1 n = [55296 + (n - 65536) / 1024; 56320 + (n - 65536) mod 1024]%N
     /\ surrogate (55296 + (n - 65536) / 1024) = true.
Proof.
  intros [Hn Hs]. unfold units1. destruct (N.leb_spec 65536 n); simpl.
  - right. rewrite (proj2 (N.leb_le _ _)) by lia. split; [done|]. split; [done|]. unfold surrogate. rewrite andb_true_iff, N.leb_le, N.ltb_lt.
    assert ((n - 65536) / 1024 < 1024)%N by (apply N.Div0.div_lt_upper_bound; lia). generalize dependent ((n - 65536) / 1024)%N. intros. split; lia.
  - left. rewrite Hs. rewrite (proj2 (N.ltb_ge _ _)) by lia. done.
Qed.

Lemma utf16_inj a b : Forall scalar a -> Forall scalar b -> utf16 a = utf16 b -> a = b.
Proof.
  intros Ha. revert b; induction Ha as [|x a Hx Ha IH]; intros b Hb E; destruct Hb as [|y b Hy Hb]; try done; unfold utf16 in *; cbn [map concat] in E.
  - by destruct (units1_scalar y Hy) as [(Ey & _)|(_ & Ey & _)]; rewrite Ey in E.
  - by destruct (units1_scalar x Hx) as [(Ex & _)|(_ & Ex & _)]; rewrite Ex in E.
  - destruct (units1_scalar x Hx) as [(Ex & Hx1 & Hx2)|(Hx1 & Ex & Hx2)], (units1_scalar y Hy) as [(Ey & Hy1 & Hy2)|(Hy1 & Ey & Hy2)];
      rewrite Ex, Ey in E; cbn [app] in E.
    + injection E as -> E. f_equal. by apply IH.
    + injection E as -> E. congruence.
    + injection E as E1 E. rewrite <- E1 in Hy2. congruence.
    + injection E as E1 E2 E. apply IH in E; [|done]. subst b. f_equal.
      pose proof (N.div_mod' (x - 65536) 1024). pose proof (N.div_mod' (y - 65536) 1024). lia.
Qed.

Lemma units_leb_refl a : units_leb a a = true.
Proof. induction a as [|x a IH]; simpl; [done|]. by rewrite N.eqb_refl. Qed.
Lemma units_leb_total a b : units_leb a b = true \/ units_leb b a = true.
Proof.
  revert b; induction a as [|x a IH]; intros [|y b]; simpl; auto. rewrite (N.eqb_sym y x). destruct (N.eqb_spec x y); [apply IH|].
  rewrite !N.ltb_lt. lia.
Qed.
Lemma units_leb_antisym a b : units_leb a b = true -> units_leb b a = true -> a = b.
Proof.
  revert b; induction a as [|x a IH]; intros [|y b]; simpl; try done. rewrite (N.eqb_sym y x). destruct (N.eqb_spec x y) as [->|]; [intros; f_equal; auto|].
  rewrite !N.ltb_lt. lia.
Qed.
Lemma units_leb_trans a b c : units_leb a b = true -> units_leb b c = true -> units_leb a c = true.
Proof.
  revert b c; induction a as [|x a IH]; intros [|y b] [|z c]; simpl; try done.
  destruct (N.eqb_spec x y), (N.eqb_spec y z), (N.eqb_spec x z); subst; try congruence; rewrite ?N.ltb_lt; try lia. by eauto.
Qed.

Lemma key_leb_total a b : key_leb a b = true \/ key_leb b a = true.
Proof. apply units_leb_total. Qed.
Lemma key_leb_trans a b c : key_leb a b = true -> key_leb b c = true -> key_leb a c = true.
Proof. apply units_leb_trans. Qed.
Lemma key_leb_antisym a b : valid_text a = true -> valid_text b = true -> key_leb a b = true -> key_leb b a = true -> a = b.
Proof.
  intros Ha Hb H1 H2. apply valid_text_runes; [done..|]. apply utf16_inj; [apply runes_scalar..|]. by apply units_leb_antisym.
Qed.
