(* ===== verification/Canonical.v ===== *)
(** * internal/canonical: the digest of a manifest

    A decoded document is normalised (integers only, the set-like arrays sorted and without
    repetitions) and written as RFC 8785 JSON, whose SHA-256 is the digest an approval pins. The YAML
    and JSON parsers are arguments; a document's tree is walked here with the limits of the code. *)
From S2P Require Import Prelude GoAny RoutePath GoSort GoTime TimeText Utf8.
From Stdlib Require Import Sorting.Sorted.

(** A normalised value: an integer is an int64. *)
Inductive doc :=
| DNull | DBool (b : bool) | DInt (z : Z) | DStr (s : string) | DOther (type : string)
| DArr (l : list doc) | DObj (m : list (string * doc)).

Inductive canonical_error :=
| SetOfNonStrings (path : list string) | FloatingPoint (path : list string) | UnsafeInteger (path : list string)
| TooDeep | TooManyNodes | TooManyAliases | DuplicateKey (key : string) | YamlFloat | UnsupportedNode | DecodeError (e : string)
| NotOneDocument | TrailingContent.

Definition maxSafeInt : Z := (2 ^ 53 - 1)%Z.
Definition minSafeInt : Z := (- (2 ^ 53 - 1))%Z.

Definition setLikePaths : list (list string) :=
  [["spec"; "capabilities"]; ["spec"; "operations"; "*"; "routes"; "*"; "queryKeys"]].
Definition match_path (p path : list string) : bool :=
  Nat.eqb (length p) (length path) && forallb (fun xy => String.eqb xy.1 "*" || String.eqb xy.1 xy.2) (zip p path).
Definition isSetLike (path : list string) : bool := existsb (fun p => match_path p path) setLikePaths.

Definition safe (path : list string) (z : Z) : res canonical_error doc :=
  if ((z <? minSafeInt) || (maxSafeInt <? z))%Z then Err (UnsafeInteger path) else Ok (DInt z).

(** [t.Int64()] of a number with none of [.eE]. *)
Definition number_chars (s : string) : bool := contains_byte "." s || contains_byte "e" s || contains_byte "E" s.

(** The value of a float that is its own [math.Trunc]; an infinity is too, and out of range. *)
Inductive integral := NotIntegral | Infinite | Integral (z : Z).
Definition float_integral (f : Float64) : integral :=
  match f with
  | SpecFloat.S754_zero _ => Integral 0
  | SpecFloat.S754_infinity _ => Infinite
  | SpecFloat.S754_nan => NotIntegral
  | SpecFloat.S754_finite s m e =>
      let v := if (0 <=? e)%Z then Some (Zpos m * 2 ^ e)%Z
               else if (Zpos m mod 2 ^ (- e) =? 0)%Z then Some (Zpos m / 2 ^ (- e))%Z else None in
      match v with Some v => Integral (if s then - v else v)%Z | None => NotIntegral end
  end.

Definition strings_of (out : list doc) : option (list string) :=
  mapM (fun d => match d with DStr s => Some s | _ => None end) out.
Fixpoint ded (prev : option string) (l : list string) : list string :=
  match l with
  | [] => []
  | s :: r => if bool_decide (prev = Some s) then ded (Some s) r else s :: ded (Some s) r
  end.
Definition set_like (path : list string) (out : list doc) : res canonical_error doc :=
  match strings_of out with
  | None => Err (SetOfNonStrings path)
  | Some strs => Ok (DArr (map DStr (ded None (sort_strings strs))))
  end.

Fixpoint normalise (path : list string) (v : any) : res canonical_error doc :=
  match v with
  | AMap m =>
      let! out := (fix entries (m : list (string * any)) : res canonical_error (list (string * doc)) :=
                     match m with
                     | [] => Ok []
                     | (k, e) :: r => let! n := normalise (path ++ [k]) e in let! r' := entries r in Ok ((k, n) :: r')
                     end) m in
      Ok (DObj out)
  | AList l =>
      let! out := (fix elements (i : nat) (l : list any) : res canonical_error (list doc) :=
                     match l with
                     | [] => Ok []
                     | e :: r => let! n := normalise (path ++ [Itoa i]) e in let! r' := elements (S i) r in Ok (n :: r')
                     end) 0 l in
      if isSetLike path then set_like path out else Ok (DArr out)
  | ANumber s =>
      if number_chars s then Err (FloatingPoint path)
      else match Atoi s with Some z => safe path z | None => Err (UnsafeInteger path) end
  | AFloat f => match float_integral f with
                | NotIntegral => Err (FloatingPoint path)
                | Infinite => Err (UnsafeInteger path)
                | Integral z => safe path z
                end
  | AInt z => safe path z
  | ANil => Ok DNull
  | ABool b => Ok (DBool b)
  | AString s => Ok (DStr s)
  | ATime _ => Ok (DOther "time.Time")
  | AOther t => Ok (DOther t)
  end.

(** ** Writing *)

Definition escape_rune (r : N) : string :=
  if N.eqb r 34 then String "\" (String "034" "")
  else if N.eqb r 92 then "\\"
  else if N.eqb r 8 then "\b" else if N.eqb r 12 then "\f" else if N.eqb r 10 then "\n"
  else if N.eqb r 13 then "\r" else if N.eqb r 9 then "\t"
  else if (r <? 32)%N then "\u00" +:+ String (lower_hex (r / 16)) (String (lower_hex (r mod 16)) "")
  else encode_rune r.
Definition dquote : string := String "034" "".
Definition escape (s : string) : string :=
  dquote +:+ foldr (fun r b => escape_rune r +:+ b) "" (runes s) +:+ dquote.

(** [sortKeys], on keys with what is written of their values. *)
Definition entry_leb {A} (p q : string * A) : bool := key_leb p.1 q.1.

(** What [serialise] writes; it panics on a value of another type. *)
Fixpoint print (v : doc) : string :=
  match v with
  | DNull => "null"
  | DBool b => if b then "true" else "false"
  | DInt z => decimal z
  | DStr s => escape s
  | DOther _ => ""
  | DArr l => "[" +:+ Join "," (map print l) +:+ "]"
  | DObj m => "{" +:+ Join "," (map (fun p => escape p.1 +:+ ":" +:+ p.2) (isort entry_leb (map (fun p => (p.1, print p.2)) m))) +:+ "}"
  end.
Fixpoint printable (v : doc) : bool :=
  match v with
  | DOther _ => false
  | DArr l => forallb printable l
  | DObj m => forallb (fun p => printable p.2) m
  | _ => true
  end.
Definition serialise (v : doc) : option string := if printable v then Some (print v) else None.

(** ** Decoding YAML

    A parsed document ([yaml.Node]): the keys of a mapping are their scalars' texts; a scalar carries
    what [Decode] makes of it; an alias names a node, which may be one it is inside of. *)
Inductive yaml :=
| YDocument (y : yaml) | YMapping (m : list (string * yaml)) | YSequence (l : list yaml) | YAlias (anchor : nat)
| YScalar (v : res string any) | YUnknown.

Record yamlBudget := { b_nodes : nat; b_aliases : nat }.
Definition maxYAMLDepth : nat := 32.
Definition maxYAMLNodes : nat := 20000.
Definition maxYAMLAliases : nat := 100.

Section Yaml.
Variable anchors : nat -> yaml.

(** [yamlToAnyBounded] and [yamlNode] in one; [room] is what is left of the depth, so that the
    depth check ends the recursion. *)
Fixpoint yamlToAnyBounded (room : nat) (n : yaml) (b : yamlBudget) : res canonical_error (any * yamlBudget) :=
  let b := {| b_nodes := S (b_nodes b); b_aliases := b_aliases b |} in
  match room with
  | 0 => Err TooDeep
  | S room =>
      if Nat.ltb maxYAMLNodes (b_nodes b) then Err TooManyNodes
      else match n with
           | YDocument y => yamlToAnyBounded room y b
           | YMapping m =>
               let! out := (fix entries (m : list (string * yaml)) (out : list (string * any)) (b : yamlBudget) :=
                              match m with
                              | [] => Ok (out, b)
                              | (k, y) :: r =>
                                  if bool_decide (k ∈ map fst out) then Err (DuplicateKey k)
                                  else let! vb := yamlToAnyBounded room y b in entries r (out ++ [(k, vb.1)]) vb.2
                              end) m [] b in
               Ok (AMap out.1, out.2)
           | YSequence l =>
               let! out := (fix elements (l : list yaml) (b : yamlBudget) : res canonical_error (list any * yamlBudget) :=
                              match l with
                              | [] => Ok ([], b)
                              | y :: r => let! vb := yamlToAnyBounded room y b in
                                          let! rb := elements r vb.2 in Ok (vb.1 :: rb.1, rb.2)
                              end) l b in
               Ok (AList out.1, out.2)
           | YAlias a =>
               let b := {| b_nodes := b_nodes b; b_aliases := S (b_aliases b) |} in
               if Nat.ltb maxYAMLAliases (b_aliases b) then Err TooManyAliases
               else yamlToAnyBounded room (anchors a) b
           | YScalar (Err e) => Err (DecodeError e)
           | YScalar (Ok (AFloat _)) => Err YamlFloat
           | YScalar (Ok v) => Ok (v, b)
           | YUnknown => Err UnsupportedNode
           end
  end.
Definition yamlToAny (n : yaml) : res canonical_error any :=
  let! vb := yamlToAnyBounded maxYAMLDepth n {| b_nodes := 0; b_aliases := 0 |} in Ok vb.1.
End Yaml.

Section Digest.
Variable yaml_documents : string -> list (res string (yaml * (nat -> yaml))).  (* the documents of a yaml.Decoder, to its EOF *)
Variable json_document : string -> res string (any * bool).                    (* json.Decoder.Decode, and whether the next token is EOF *)
Variable sha256 : string -> string.

Definition LoadBytes (raw ext : string) : res canonical_error any :=
  if String.eqb ext ".yaml" || String.eqb ext ".yml" then
    match yaml_documents raw with
    | [] => Err (DecodeError "EOF")
    | Err e :: _ => Err (DecodeError e)
    | [Ok (n, anchors)] => yamlToAny anchors n
    | Ok _ :: _ :: _ => Err NotOneDocument
    end
  else match json_document raw with
       | Err e => Err (DecodeError e)
       | Ok (d, eof) => if eof then Ok d else Err TrailingContent
       end.

(** [None] is the panic of [serialise]. *)
Definition Digest (d : any) : option (res canonical_error string) :=
  match normalise [] d with
  | Err e => Some (Err e)
  | Ok n => s ← serialise n; Some (Ok (hex_encode (sha256 s)))
  end.
Definition DigestBytes (raw ext : string) : option (res canonical_error string) :=
  match LoadBytes raw ext with
  | Err e => Some (Err e)
  | Ok d => Digest d
  end.
End Digest.

(** ** Lemmas *)

(** *** Induction *)

Section Induction.
Variable P : doc -> Prop.
Hypothesis Hnull : P DNull.
Hypothesis Hbool : forall b, P (DBool b).
Hypothesis Hint_ : forall z, P (DInt z).
Hypothesis Hstr : forall s, P (DStr s).
Hypothesis Hother : forall t, P (DOther t).
Hypothesis Harr : forall l, Forall P l -> P (DArr l).
Hypothesis Hobj : forall m, Forall (fun p => P p.2) m -> P (DObj m).
Fixpoint doc_nested_ind (d : doc) : P d :=
  match d with
  | DNull => Hnull | DBool b => Hbool b | DInt z => Hint_ z | DStr s => Hstr s | DOther t => Hother t
  | DArr l => Harr l ((fix go l : Forall P l :=
      match l with [] => @List.Forall_nil _ _ | x :: r => @List.Forall_cons _ _ x r (doc_nested_ind x) (go r) end) l)
  | DObj m => Hobj m ((fix go m : Forall (fun p => P p.2) m :=
      match m with [] => @List.Forall_nil _ _ | x :: r => @List.Forall_cons _ (fun p => P p.2) x r (doc_nested_ind x.2) (go r) end) m)
  end.
End Induction.

(** *** Escaped strings *)

(** The escape, byte by byte: what is not ASCII is written as it is. *)
Definition escape_byte (c : ascii) : string := if (byteN c <? 128)%N then escape_rune (byteN c) else String c "".
Fixpoint escape_bytes (s : string) : string := match s with "" => "" | String c r => escape_byte c +:+ escape_bytes r end.

Lemma escape_bytes_app a b : escape_bytes (a +:+ b) = escape_bytes a +:+ escape_bytes b.
Proof. induction a as [|c a IH]; [done|]. rewrite app_cons_str. simpl. by rewrite IH, app_assoc_str. Qed.

Lemma byteN_of n : (n < 256)%N -> byteN (byte_of n) = n.
Proof. apply N_ascii_embedding. Qed.

Lemma escape_high k q : (128 <= k)%N -> (q < 256 - k)%N -> escape_byte (byte_of (k + q)) = String (byte_of (k + q)) "".
Proof. intros Hk Hq. unfold escape_byte. rewrite byteN_of by lia. by rewrite (proj2 (N.ltb_ge _ _)) by lia. Qed.

Lemma escape_rune_bytes n : scalar n -> escape_rune n = escape_bytes (encode_rune n).
Proof.
  intros [Hn Hs]. unfold encode_rune. destruct (N.ltb_spec n 128).
  - cbn [escape_bytes]. unfold escape_byte. rewrite byteN_of, app_nil_str by lia. by rewrite (proj2 (N.ltb_lt _ _)) by lia.
  - assert (E : escape_rune n = encode_rune n).
    { unfold escape_rune. repeat (rewrite (proj2 (N.eqb_neq _ _)) by lia). by rewrite (proj2 (N.ltb_ge _ _)) by lia. }
    rewrite E. unfold encode_rune. rewrite (proj2 (N.ltb_ge n 128)) by lia. pose proof (N.mod_lt n 64 ltac:(lia)).
    pose proof (N.mod_lt (n / 64) 64 ltac:(lia)). pose proof (N.mod_lt (n / 4096) 64 ltac:(lia)).
    destruct (N.ltb_spec n 2048).
    { assert (n / 64 < 32)%N by (apply N.Div0.div_lt_upper_bound; lia). cbn [escape_bytes]. rewrite !escape_high by lia. reflexivity. }
    rewrite Hs, (proj2 (N.ltb_ge 1114111 n)) by lia. cbn [orb]. destruct (N.ltb_spec n 65536).
    { assert (n / 4096 < 16)%N by (apply N.Div0.div_lt_upper_bound; lia). cbn [escape_bytes]. rewrite !escape_high by lia. reflexivity. }
    assert (n / 262144 < 8)%N by (apply N.Div0.div_lt_upper_bound; lia). cbn [escape_bytes]. rewrite !escape_high by lia. reflexivity.
Qed.

Lemma escape_valid s : valid_text s = true -> escape s = dquote +:+ escape_bytes s +:+ dquote.
Proof.
  unfold valid_text, escape. intros E%String.eqb_eq. assert (H : forall l, Forall scalar l ->
    foldr (fun r b => escape_rune r +:+ b) "" l = escape_bytes (encode_runes l)).
  { induction 1 as [|n l Hn Hl IH]; [done|]. cbn [foldr encode_runes]. by rewrite escape_bytes_app, escape_rune_bytes, IH. }
  rewrite H by apply runes_scalar. by rewrite E.
Qed.

(** A reader of one escaped byte. *)
Definition unescape (s : string) : option (ascii * string) :=
  match s with
  | String "\" (String "u" (String _ (String _ (String h (String l r))))) =>
      let v c := if (byteN c <? 97)%N then (byteN c - 48)%N else (byteN c - 87)%N in Some (ascii_of_N (v h * 16 + v l), r)
  | String "\" (String c r) =>
      Some ((if Ascii.eqb c "b" then "008" else if Ascii.eqb c "f" then "012" else if Ascii.eqb c "n" then "010"
             else if Ascii.eqb c "r" then "013" else if Ascii.eqb c "t" then "009" else c)%char, r)
  | String c r => if Ascii.eqb c "034" then None else Some (c, r)
  | "" => None
  end.
Lemma unescape_byte c r : unescape (escape_byte c +:+ r) = Some (c, r).
Proof. all_ascii c; reflexivity. Qed.

Lemma escape_bytes_inj a b r1 r2 : escape_bytes a +:+ String "034" r1 = escape_bytes b +:+ String "034" r2 -> a = b /\ r1 = r2.
Proof.
  revert b; induction a as [|c a IH]; intros [|d b] E; cbn [escape_bytes] in E; rewrite ?app_assoc_str in E.
  - simpl in E. by injection E.
  - apply (f_equal unescape) in E. by rewrite unescape_byte in E.
  - apply (f_equal unescape) in E. by rewrite unescape_byte in E.
  - apply (f_equal unescape) in E. rewrite !unescape_byte in E. injection E as -> E. destruct (IH b E) as [-> ->]. done.
Qed.

Lemma escape_inj a b r1 r2 : valid_text a = true -> valid_text b = true -> escape a +:+ r1 = escape b +:+ r2 -> a = b /\ r1 = r2.
Proof.
  intros Ha Hb. rewrite !escape_valid by done. rewrite !app_assoc_str. unfold dquote. rewrite !app_cons_str. intros E. injection E as E.
  by apply escape_bytes_inj in E.
Qed.

(** *** Canonical text is read in one way *)

(** The canonical form: every object's entries in the order of keys. *)
Fixpoint canon (d : doc) : doc :=
  match d with
  | DArr l => DArr (map canon l)
  | DObj m => DObj (isort entry_leb (map (fun p => (p.1, canon p.2)) m))
  | _ => d
  end.
Fixpoint texts_ok (d : doc) : bool :=
  match d with
  | DStr s => valid_text s
  | DArr l => forallb texts_ok l
  | DObj m => forallb (fun p => valid_text p.1 && texts_ok p.2) m
  | _ => true
  end.

Definition number_byte (c : ascii) : bool := isDigit c || Ascii.eqb c "-".
Definition ends (r : string) : Prop := match r with "" => True | String c _ => number_byte c = false end.

Lemma run_inj (P : ascii -> bool) a b r1 r2 : all_bytes P a = true -> all_bytes P b = true ->
  match r1 with "" => True | String c _ => P c = false end -> match r2 with "" => True | String c _ => P c = false end ->
  a +:+ r1 = b +:+ r2 -> a = b /\ r1 = r2.
Proof.
  revert b; induction a as [|c a IH]; intros [|d b] Ha Hb H1 H2 E; cbn [all_bytes] in *; rewrite ?app_cons_str in E; try done.
  - change ("" +:+ r1) with r1 in E. rewrite E in H1. apply andb_true_iff in Hb as [Hd _]. congruence.
  - change ("" +:+ r2) with r2 in E. rewrite <- E in H2. apply andb_true_iff in Ha as [Hc _]. congruence.
  - injection E as -> E. apply andb_true_iff in Ha as [_ Ha], Hb as [_ Hb]. by destruct (IH b Ha Hb H1 H2 E) as [-> ->].
Qed.

Lemma decimal_bytes z : all_bytes number_byte (decimal z) = true /\ decimal z <> "".
Proof.
  assert (Hpos : forall z, (0 <= z)%Z -> all_bytes number_byte (decimal z) = true).
  { intros z0 Hz. eapply all_bytes_impl; [|by apply decimal_digits]. intros c Hc. unfold number_byte. by rewrite Hc. }
  destruct (Z.leb_spec 0 z); [split; [by apply Hpos|by apply decimal_nonempty]|]. destruct z as [|p|p]; [lia|lia|].
  assert (E : decimal (Z.neg p) = "-" +:+ decimal (Z.pos p)) by reflexivity. rewrite E. split; [|done]. rewrite all_bytes_app, Hpos by lia. done.
Qed.
Lemma decimal_inj a b : decimal a = decimal b -> a = b.
Proof. apply pretty_Z_inj. Qed.

(** What each kind of value begins with. *)
Definition first_byte (d : doc) (c : ascii) : Prop :=
  match d with
  | DNull => c = "n"%char | DBool b => c = if b then "t"%char else "f"%char | DInt _ => number_byte c = true
  | DStr _ => c = "034"%char | DOther _ => False | DArr _ => c = "["%char | DObj _ => c = "{"%char
  end.
Lemma print_first d : printable d = true -> exists c r, print d = String c r /\ first_byte d c.
Proof.
  destruct d as [|[]|z|s|t|l|m]; simpl; try done; intros _; try by eexists _, _.
  destruct (decimal_bytes z) as [H Hn]. destruct (decimal z) as [|c r]; [done|]. exists c, r. split; [done|].
  simpl in H. by apply andb_true_iff in H as [H _].
Qed.

Section Lists.
Context {X Y : Type} (pr : X -> string) (f : X -> Y) (close : ascii).

Definition tail_text (l : list X) : string := foldr (fun x s => "," +:+ pr x +:+ s) "" l.
Lemma Join_text x l : Join "," (map pr (x :: l)) = pr x +:+ tail_text l.
Proof.
  revert x; induction l as [|y l IH]; intros x; [cbn [map Join tail_text foldr]; by rewrite app_nil_str|].
  change (map pr (x :: y :: l)) with (pr x :: map pr (y :: l)). rewrite Join_cons by done. by rewrite IH.
Qed.

(** Lists whose elements are read in one way are read in one way, up to the closing byte. *)
Lemma list_inj l1 l2 r1 r2 :
  number_byte close = false -> close <> ","%char ->
  (forall x y s1 s2, x ∈ l1 -> y ∈ l2 -> ends s1 -> ends s2 -> pr x +:+ s1 = pr y +:+ s2 -> f x = f y /\ s1 = s2) ->
  (forall x, x ∈ l1 \/ x ∈ l2 -> exists c r, pr x = String c r /\ c <> close) ->
  Join "," (map pr l1) +:+ String close r1 = Join "," (map pr l2) +:+ String close r2 -> map f l1 = map f l2 /\ r1 = r2.
Proof.
  intros Hc Hcomma Hinj Hfirst.
  assert (Hends : forall l r, ends (tail_text l +:+ String close r)) by (intros [|x l] r; simpl; [done|reflexivity]).
  assert (Htail : forall k1 k2 s1 s2, (forall x, x ∈ k1 -> x ∈ l1) -> (forall y, y ∈ k2 -> y ∈ l2) ->
    tail_text k1 +:+ String close s1 = tail_text k2 +:+ String close s2 -> map f k1 = map f k2 /\ s1 = s2).
  { induction k1 as [|x k1 IH]; intros [|y k2] s1 s2 H1 H2 E; simpl in E.
    - by injection E.
    - injection E as E _. by destruct Hcomma.
    - injection E as E _. by destruct Hcomma.
    - injection E as E. rewrite !app_assoc_str in E.
      destruct (Hinj x y _ _ (H1 _ ltac:(left)) (H2 _ ltac:(left)) (Hends _ _) (Hends _ _) E) as [Ef E'].
      destruct (IH k2 s1 s2) as [Em ->]; [intros z Hz; apply H1; by right|intros z Hz; apply H2; by right|done|]. cbn [map]. by rewrite Ef, Em. }
  destruct l1 as [|x l1], l2 as [|y l2]; rewrite ?Join_text; intros E.
  - simpl in E. by injection E.
  - simpl in E. destruct (Hfirst y ltac:(right; left)) as (c & r & Ey & Hne). rewrite Ey in E. simpl in E. injection E as E _. by destruct Hne.
  - simpl in E. destruct (Hfirst x ltac:(left; left)) as (c & r & Ex & Hne). rewrite Ex in E. simpl in E. injection E as E _. by destruct Hne.
  - rewrite !app_assoc_str in E. destruct (Hinj x y _ _ ltac:(left) ltac:(left) (Hends _ _) (Hends _ _) E) as [Ef E'].
    destruct (Htail l1 l2 r1 r2) as [Em ->]; [intros z Hz; by right|intros z Hz; by right|done|]. cbn [map]. by rewrite Ef, Em.
Qed.
End Lists.

Definition entry_text (p : string * doc) : string := escape p.1 +:+ ":" +:+ print p.2.
Definition canon_entry (p : string * doc) : string * doc := (p.1, canon p.2).

Lemma print_obj m : print (DObj m) = "{" +:+ Join "," (map entry_text (isort entry_leb m)) +:+ "}".
Proof.
  cbn [print]. rewrite (isort_map entry_leb entry_leb (fun p => (p.1, print p.2))) by done. rewrite map_map. done.
Qed.
Lemma canon_obj m : canon (DObj m) = DObj (map canon_entry (isort entry_leb m)).
Proof. cbn [canon]. f_equal. by apply (isort_map entry_leb entry_leb canon_entry). Qed.

Lemma escape_first s : exists r, escape s = String "034" r.
Proof. by eexists. Qed.

Lemma print_inj d1 : forall d2 r1 r2, texts_ok d1 = true -> texts_ok d2 = true -> printable d1 = true -> printable d2 = true ->
  ends r1 -> ends r2 -> print d1 +:+ r1 = print d2 +:+ r2 -> canon d1 = canon d2 /\ r1 = r2.
Proof.
  induction d1 as [|b|z|s|t|l IH|m IH] using doc_nested_ind; intros d2 r1 r2 Ht1 Ht2 Hp1 Hp2 He1 He2 E.
  all: pose proof E as E0; destruct (print_first _ Hp1) as (c1 & k1 & F1 & G1), (print_first _ Hp2) as (c2 & k2 & F2 & G2);
    rewrite F1, F2 in E0; rewrite !app_cons_str in E0; injection E0 as E0 _; subst c2; clear F1 F2 k1 k2.
  all: destruct d2 as [|b2|z2|s2|t2|l2|m2]; simpl in G1, G2; try done; try (exfalso; subst; by (done || destruct b || destruct b2)).
  all: try (exfalso; subst; destruct b; discriminate).
  - by injection E.
  - destruct b, b2; subst; try done; simpl in E; by injection E.
  - cbn [print] in E. destruct (decimal_bytes z) as [D1 _], (decimal_bytes z2) as [D2 _].
    apply (run_inj number_byte) in E as [E ->]; [|done..]. by apply decimal_inj in E as ->.
  - cbn [print] in E. apply escape_inj in E as [-> ->]; [|done..]. done.
  - cbn [print] in E. rewrite !app_assoc_str in E. injection E as E. simpl in Ht1, Ht2, Hp1, Hp2.
    rewrite forallb_forall in Ht1, Ht2. rewrite forallb_forall in Hp1, Hp2. rewrite Forall_forall in IH.
    apply (list_inj print canon "]") in E as [Em ->]; [cbn [canon]; by rewrite Em|done|done| |].
    + intros x y s1 s2 Hx Hy. apply list_elem_of_In in Hy. pose proof (IH x Hx) as IHx. apply list_elem_of_In in Hx. apply IHx; auto.
    + intros x Hx. assert (Hpx : printable x = true) by (destruct Hx as [Hx|Hx]; apply list_elem_of_In in Hx; auto).
      destruct (print_first x Hpx) as (c & r & Ex & Hf). exists c, r. split; [done|]. destruct x as [|[]|?|?|?|?|?]; simpl in Hf; subst; try done. intros ->. done.
  - rewrite !print_obj, !app_assoc_str in E. injection E as E. rewrite !canon_obj. simpl in Ht1, Ht2, Hp1, Hp2.
    rewrite forallb_forall in Ht1, Ht2. rewrite forallb_forall in Hp1, Hp2. rewrite Forall_forall in IH.
    assert (Hin : forall (k : list (string * doc)) x, x ∈ isort entry_leb k -> List.In x k) by (intros k x Hx; apply list_elem_of_In; by rewrite <- (isort_perm entry_leb k)).
    apply (list_inj entry_text canon_entry "}") in E as [Em ->]; [by rewrite Em|done|done| |].
    + intros [k1 x] [k2 y] s1 s2 Hx%Hin Hy%Hin Hs1 Hs2 Exy. unfold entry_text in Exy. cbn [fst snd] in Exy. rewrite !app_assoc_str in Exy.
      pose proof (Ht1 _ Hx) as [Hk1 Hx1]%andb_true_iff. pose proof (Ht2 _ Hy) as [Hk2 Hy2]%andb_true_iff.
      apply escape_inj in Exy as [Ek Exy]; [|done..]. injection Exy as Exy. cbn [fst] in Ek. subst k2.
      assert (IHx := IH (k1, x) (proj2 (list_elem_of_In _ _) Hx)). destruct (IHx y s1 s2 Hx1 Hy2 (Hp1 _ Hx) (Hp2 _ Hy) Hs1 Hs2 Exy) as [Ec ->].
      split; [|done]. unfold canon_entry. cbn [fst snd] in *. by rewrite Ec.
    + intros x _. unfold entry_text. destruct (escape_first x.1) as [r ->]. by eexists _, _.
Qed.

(** Two printable documents of valid text are written alike exactly when their canonical forms agree. *)
Lemma print_eq_canon d1 d2 : texts_ok d1 = true -> texts_ok d2 = true -> printable d1 = true -> printable d2 = true ->
  print d1 = print d2 -> canon d1 = canon d2.
Proof. intros H1 H2 H3 H4 E. apply (print_inj d1 d2 "" ""); try done. by rewrite !app_nil_str. Qed.

(** *** Set-like arrays *)

Lemma ded_spec prev l : StronglySorted (fun a b => str_leb a b = true) l -> (forall s, prev = Some s -> Forall (fun x => str_leb s x = true) l) ->
  (forall s, s ∈ ded prev l <-> s ∈ l /\ prev <> Some s) /\ NoDup (ded prev l) /\ StronglySorted (fun a b => str_leb a b = true) (ded prev l).
Proof.
  intros Hs. revert prev; induction Hs as [|x l Hs IH Hx]; intros prev Hp; cbn [ded].
  - split; [|split; constructor]. intros s. rewrite elem_of_nil. tauto.
  - destruct (IH (Some x)) as (I1 & I2 & I3); [by intros s [= <-]|]. case_bool_decide as E.
    + subst prev. split; [|done]. intros s. rewrite I1, elem_of_cons. split; [intros [? ?]; split; [by right|done]|]. intros [[->|?] ?]; [done|]. done.
    + split; [|split].
      * intros s. rewrite !elem_of_cons, I1. split; [|intros [[->|Hin] Hne]; [by left|]].
        -- intros [->|[Hin Hne]]; [split; [by left|done]|]. split; [by right|]. intros ->. specialize (Hp s eq_refl).
           inversion_clear Hp as [|?? H1 H2]. rewrite Forall_forall in Hx. apply Hne. f_equal. apply str_leb_antisym; [by apply Hx|done].
        -- destruct (decide (s = x)) as [->|]; [by left|]. right. split; [done|]. congruence.
      * constructor; [|done]. rewrite I1. intros [_ H]. by apply H.
      * constructor; [done|]. rewrite Forall_forall in Hx |- *. intros y [Hy _]%I1. by apply Hx.
Qed.

(** Two arrays of strings hash alike at a set-like path exactly when they have the same elements. *)
Lemma ded_sets ss tt : ded None (sort_strings ss) = ded None (sort_strings tt) <-> (forall s, s ∈ ss <-> s ∈ tt).
Proof.
  destruct (ded_spec None (sort_strings ss)) as (A1 & A2 & A3); [apply sort_strings_sorted|done|].
  destruct (ded_spec None (sort_strings tt)) as (B1 & B2 & B3); [apply sort_strings_sorted|done|].
  assert (HA : forall s, s ∈ ded None (sort_strings ss) <-> s ∈ ss) by (intros s; rewrite A1, sort_strings_perm; intuition congruence).
  assert (HB : forall s, s ∈ ded None (sort_strings tt) <-> s ∈ tt) by (intros s; rewrite B1, sort_strings_perm; intuition congruence).
  split; [intros E s; by rewrite <- HA, <- HB, E|]. intros H. apply (strongly_sorted_unique (fun a b => str_leb a b = true)); [apply str_leb_antisym|done..|].
  apply NoDup_Permutation; [done..|]. intros s. by rewrite HA, HB.
Qed.

Lemma strings_of_map out ss : strings_of out = Some ss <-> out = map DStr ss.
Proof.
  unfold strings_of. revert ss; induction out as [|d out IH]; intros ss; simpl.
  - split; [by intros [= <-]|by destruct ss].
  - destruct d as [| | |s| | |]; simpl; try (split; [done|by destruct ss]). destruct (mapM _ out) as [ss'|] eqn:E; simpl.
    + specialize (IH ss'). rewrite (proj1 IH eq_refl). split; [by intros [= <-]|]. destruct ss as [|t ss]; [done|]. intros [= -> Hm].
      f_equal. f_equal. revert Hm. apply list_fmap_eq_inj. by intros ?? [= ->].
    + split; [done|]. destruct ss as [|t ss]; [done|]. intros [= -> Hm]. by apply IH in Hm.
Qed.

(** *** What [normalise] accepts *)

Lemma normalise_map path m d : normalise path (AMap m) = Ok d <->
  exists out, d = DObj out /\ Forall2 (fun x y => x.1 = y.1 /\ normalise (path ++ [x.1]) x.2 = Ok y.2) m out.
Proof.
  cbn [normalise]. rewrite res_bind_Ok.
  match goal with |- (exists a, ?f m = _ /\ _) <-> _ => set (go := f) end.
  assert (H : forall m out, go m = Ok out <-> Forall2 (fun x y => x.1 = y.1 /\ normalise (path ++ [x.1]) x.2 = Ok y.2) m out).
  { clear m d. induction m as [|[k e] m IH]; intros out; cbn [go].
    - split; [by intros [= <-]|]. intros H%Forall2_nil_inv_l. by rewrite H.
    - rewrite res_bind_Ok. split.
      + intros (n & Hn & [r [Hr [= <-]]]%res_bind_Ok). constructor; [done|]. by apply IH.
      + intros H. inversion H as [|? [k' n] ? r [Hk Hn] Hr]; subst. simpl in Hk, Hn. subst k'. exists n. split; [done|]. apply res_bind_Ok. exists r. split; [by apply IH|done]. }
  split; [intros (out & Hout & [= <-]); exists out; split; [done|by apply H]|]. intros (out & -> & Hout). exists out. split; [by apply H|done].
Qed.

Lemma normalise_list path l d : normalise path (AList l) = Ok d <->
  exists out, length out = length l
    /\ (forall i x y, l !! i = Some x -> out !! i = Some y -> normalise (path ++ [Itoa i]) x = Ok y)
    /\ (if isSetLike path then set_like path out else Ok (DArr out)) = Ok d.
Proof.
  cbn [normalise]. rewrite res_bind_Ok.
  match goal with |- (exists a, ?f 0 l = _ /\ _) <-> _ => set (go := f) end.
  assert (H : forall l j out, go j l = Ok out <-> length out = length l
    /\ forall i x y, l !! i = Some x -> out !! i = Some y -> normalise (path ++ [Itoa (j + i)]) x = Ok y).
  { clear l d. induction l as [|e l IH]; intros j out; cbn [go].
    - split; [by intros [= <-]|]. intros [Hl _]. by destruct out.
    - rewrite res_bind_Ok. split.
      + intros (n & Hn & [r [Hr [= <-]]]%res_bind_Ok). apply IH in Hr as [Hl Hr]. split; [simpl; by rewrite Hl|].
        intros [|i] x y Hx Hy; simpl in Hx, Hy; [injection Hx as ->; injection Hy as ->; by rewrite Nat.add_0_r|].
        rewrite Nat.add_succ_r. by apply (Hr i).
      + intros [Hl H]. destruct out as [|n r]; [done|]. exists n. split; [rewrite <- (Nat.add_0_r j); by apply (H 0)|].
        apply res_bind_Ok. exists r. split; [|done]. apply IH. split; [by injection Hl|]. intros i x y Hx Hy.
        rewrite Nat.add_succ_l, <- Nat.add_succ_r. by apply (H (S i)). }
  split.
  - intros (out & Hout & Hd). apply H in Hout as [Hl Hn]. by exists out.
  - intros (out & Hl & Hn & Hd). exists out. split; [|done]. apply H. done.
Qed.

(** *** Documents that mean the same *)

(** The integer a decoded value stands for. *)
Definition as_integer (v : any) : option Z :=
  match v with
  | AInt z => Some z
  | ANumber s => if number_chars s then None else Atoi s
  | AFloat f => match float_integral f with Integral z => Some z | _ => None end
  | _ => None
  end.

(** Text is valid and the keys of a map are distinct, as decoders leave them. *)
Fixpoint wf (v : any) : bool :=
  match v with
  | AString s => valid_text s
  | AList l => forallb wf l
  | AMap m => bool_decide (NoDup (map fst m)) && forallb (fun p => valid_text p.1 && wf p.2) m
  | _ => true
  end.

(** Equal but for the order of keys, the order and repetitions in the arrays at the set-like paths,
    and which Go type carries an integer. *)
Inductive sim : list string -> any -> any -> Prop :=
| SimNil path : sim path ANil ANil
| SimBool path b : sim path (ABool b) (ABool b)
| SimString path s : sim path (AString s) (AString s)
| SimInteger path a b z : as_integer a = Some z -> as_integer b = Some z -> sim path a b
| SimList path l k : isSetLike path = false -> length l = length k ->
    (forall i x y, l !! i = Some x -> k !! i = Some y -> sim (path ++ [Itoa i]) x y) -> sim path (AList l) (AList k)
| SimSet path ss tt : isSetLike path = true -> (forall s, s ∈ ss <-> s ∈ tt) -> sim path (AList (map AString ss)) (AList (map AString tt))
| SimMap path m n : (forall k, k ∈ map fst m <-> k ∈ map fst n) ->
    (forall k x y, (k, x) ∈ m -> (k, y) ∈ n -> sim (path ++ [k]) x y) -> sim path (AMap m) (AMap n).

Lemma safe_Ok path z d : safe path z = Ok d -> d = DInt z.
Proof. unfold safe. case_match; [done|]. by intros [= <-]. Qed.

Definition other_type (v : any) : option string :=
  match v with AOther t => Some t | ATime _ => Some "time.Time" | _ => None end.

(** The kinds of value a normalised value comes from. *)
Lemma normalise_leaf path v d : match v with AList _ | AMap _ => False | _ => True end -> normalise path v = Ok d ->
  (v = ANil /\ d = DNull) \/ (exists b, v = ABool b /\ d = DBool b) \/ (exists s, v = AString s /\ d = DStr s)
  \/ (exists z, as_integer v = Some z /\ d = DInt z) \/ (exists t, other_type v = Some t /\ d = DOther t).
Proof.
  destruct v; simpl; try done; intros _.
  - intros [= <-]. by left.
  - intros [= <-]. right; left. by eexists.
  - intros [= <-]. do 2 right; left. by eexists.
  - intros ->%safe_Ok. do 3 right; left. by eexists.
  - destruct (number_chars s); [done|]. destruct (Atoi s) as [z|]; [|done]. intros ->%safe_Ok. do 3 right; left. by eexists.
  - destruct (float_integral f) as [| |z]; try done. intros ->%safe_Ok. do 3 right; left. by eexists.
  - intros [= <-]. do 4 right. by eexists.
  - intros [= <-]. do 4 right. by eexists.
Qed.

Lemma normalise_shape path v d : normalise path v = Ok d ->
  match v, d with
  | AMap _, DObj _ | AList _, DArr _ => True
  | AMap _, _ | AList _, _ | _, DObj _ | _, DArr _ => False
  | _, _ => True
  end.
Proof.
  intros H. destruct v as [|b|s|z|s|f|t|t|l|m].
  1-8: apply normalise_leaf in H; [|done]; by destruct H as [[? ->]|[(? & ? & ->)|[(? & ? & ->)|[(? & ? & ->)|(? & ? & ->)]]]].
  - apply normalise_list in H as (out & _ & _ & H). destruct (isSetLike path); [|by injection H as <-].
    unfold set_like in H. destruct (strings_of out); [|done]. by injection H as <-.
  - by apply normalise_map in H as (out & -> & _).
Qed.

Lemma Forall2_in_l {A B} (R : A -> B -> Prop) l k x : Forall2 R l k -> x ∈ l -> exists y, y ∈ k /\ R x y.
Proof. intros H [i Hi]%list_elem_of_lookup. destruct (Forall2_lookup_l _ _ _ _ _ H Hi) as (y & Hy & HR). exists y. split; [by eapply list_elem_of_lookup_2|done]. Qed.
Lemma Forall2_in_r {A B} (R : A -> B -> Prop) l k y : Forall2 R l k -> y ∈ k -> exists x, x ∈ l /\ R x y.
Proof. intros H [i Hi]%list_elem_of_lookup. destruct (Forall2_lookup_r _ _ _ _ _ H Hi) as (x & Hx & HR). exists x. split; [by eapply list_elem_of_lookup_2|done]. Qed.

Lemma normalise_texts v : forall path d, wf v = true -> normalise path v = Ok d -> texts_ok d = true.
Proof.
  induction v as [v Hv|l IH|m IH] using any_nested_ind; intros path d Hw H.
  - apply normalise_leaf in H; [|done]. destruct H as [[-> ->]|[(? & -> & ->)|[(? & -> & ->)|[(? & ? & ->)|(? & ? & ->)]]]]; done.
  - apply normalise_list in H as (out & Hl & Hn & H). simpl in Hw. rewrite forallb_forall in Hw. rewrite Forall_forall in IH.
    assert (Hout : forall y, y ∈ out -> texts_ok y = true).
    { intros y [i Hi]%list_elem_of_lookup. destruct (lookup_lt_is_Some_2 l i) as [x Hx]; [rewrite <- Hl; by eapply lookup_lt_Some|].
      assert (Hin : x ∈ l) by (by eapply list_elem_of_lookup_2). apply (IH x Hin (path ++ [Itoa i])); [by apply Hw, list_elem_of_In|by eapply Hn]. }
    destruct (isSetLike path).
    + unfold set_like in H. destruct (strings_of out) as [ss|] eqn:Es; [|done]. injection H as <-. apply strings_of_map in Es as ->.
      simpl. rewrite forallb_forall. intros d [s [<- Hs]]%in_map_iff. apply list_elem_of_In in Hs.
      destruct (ded_spec None (sort_strings ss)) as (Hd & _); [apply sort_strings_sorted|done|]. apply Hd in Hs as [Hs _]. rewrite sort_strings_perm in Hs.
      apply (Hout (DStr s)). apply elem_of_map. by exists s.
    + injection H as <-. simpl. rewrite forallb_forall. intros y Hy. apply Hout. by apply list_elem_of_In.
  - apply normalise_map in H as (out & -> & H). simpl in Hw. apply andb_true_iff in Hw as [_ Hw]. rewrite forallb_forall in Hw. rewrite Forall_forall in IH.
    simpl. rewrite forallb_forall. intros y Hy%list_elem_of_In. destruct (Forall2_in_r _ _ _ _ H Hy) as (x & Hx & Ek & Hn).
    specialize (Hw x (proj1 (list_elem_of_In _ _) Hx)). apply andb_true_iff in Hw as [Hk Hw]. rewrite <- Ek, Hk. simpl. by eapply IH.
Qed.

Lemma normalise_string path v s : normalise path v = Ok (DStr s) -> v = AString s.
Proof.
  intros H. pose proof (normalise_shape _ _ _ H) as Hs. destruct v as [|b|t|z|t|f|t|t|l|m]; try done.
  all: apply normalise_leaf in H; [|done]; by destruct H as [[? [=]]|[(? & ? & [=])|[(? & [= ->] & [= ->])|[(? & ? & [=])|(? & ? & [=])]]]].
Qed.

Lemma map_DStr_inj ss tt : map DStr ss = map DStr tt -> ss = tt.
Proof. apply list_fmap_eq_inj. by intros ?? [= ->]. Qed.
Lemma canon_strings ss : map canon (map DStr ss) = map DStr ss.
Proof. by rewrite map_map. Qed.

Lemma set_like_strings path l out d :
  length out = length l -> (forall i x y, l !! i = Some x -> out !! i = Some y -> normalise (path ++ [Itoa i]) x = Ok y) ->
  set_like path out = Ok d -> exists ss, l = map AString ss /\ d = DArr (map DStr (ded None (sort_strings ss))).
Proof.
  intros Hl Hn H. unfold set_like in H. destruct (strings_of out) as [ss|] eqn:Es; [|done]. injection H as <-.
  apply strings_of_map in Es as ->. exists ss. split; [|done]. apply list_eq. intros i. rewrite list_lookup_fmap.
  rewrite length_map in Hl. destruct (ss !! i) as [s|] eqn:Ei; simpl.
  - destruct (lookup_lt_is_Some_2 l i) as [x Hx]; [rewrite <- Hl; by eapply lookup_lt_Some|]. rewrite Hx. f_equal.
    eapply normalise_string. apply (Hn i x (DStr s) Hx). by rewrite list_lookup_fmap, Ei.
  - apply lookup_ge_None_2. rewrite <- Hl. by apply lookup_ge_None.
Qed.

Lemma canon_sim v : forall path w d1 d2, wf v = true -> wf w = true -> normalise path v = Ok d1 -> normalise path w = Ok d2 ->
  printable d1 = true -> canon d1 = canon d2 -> sim path v w.
Proof.
  induction v as [v Hv|l IH|m IH] using any_nested_ind; intros path w d1 d2 Hw1 Hw2 H1 H2 Hp E.
  - pose proof (normalise_shape _ _ _ H2) as Hs. apply normalise_leaf in H1; [|done].
    assert (Hwl : match w with AList _ | AMap _ => False | _ => True end).
    { destruct H1 as [[-> ->]|[(? & -> & ->)|[(? & -> & ->)|[(? & ? & ->)|(? & ? & ->)]]]]; simpl in E; destruct d2; try discriminate E; by destruct w. }
    apply normalise_leaf in H2; [|done].
    destruct H1 as [[-> ->]|[(? & -> & ->)|[(? & -> & ->)|[(? & E1 & ->)|(? & ? & ->)]]]]; [..|done];
      destruct H2 as [[-> ->]|[(? & -> & ->)|[(? & -> & ->)|[(? & E2 & ->)|(? & ? & ->)]]]]; simpl in E; try discriminate E; try (injection E as ->); try constructor.
    by econstructor.
  - assert (Hs2 := normalise_shape _ _ _ H2). pose proof (normalise_shape _ _ _ H1) as Hs1. destruct d1 as [| | | | |k1|]; try done.
    destruct d2 as [| | | | |k2|]; try discriminate E. destruct w as [| | | | | | | |l2|]; try done. cbn [canon] in E. injection E as E.
    apply normalise_list in H1 as (o1 & L1 & N1 & R1), H2 as (o2 & L2 & N2 & R2). destruct (isSetLike path) eqn:Eset.
    + destruct (set_like_strings _ _ _ _ L1 N1 R1) as (ss & -> & [= ->]), (set_like_strings _ _ _ _ L2 N2 R2) as (tt & -> & [= ->]).
      rewrite !canon_strings in E. apply map_DStr_inj in E. constructor; [done|by apply ded_sets].
    + injection R1 as ->. injection R2 as ->. assert (Hlen : length l = length l2) by (rewrite <- L1, <- L2, <- (length_map canon k1), E; apply length_map).
      simpl in Hp, Hw1, Hw2. rewrite forallb_forall in Hp. rewrite forallb_forall in Hw1, Hw2. rewrite Forall_forall in IH.
      constructor; [done..|]. intros i x y Hx Hy. destruct (lookup_lt_is_Some_2 k1 i) as [a Ha]; [rewrite L1; by eapply lookup_lt_Some|].
      destruct (lookup_lt_is_Some_2 k2 i) as [b Hb]; [rewrite L2; by eapply lookup_lt_Some|].
      apply (IH x (list_elem_of_lookup_2 _ _ _ Hx) _ y a b); [apply Hw1, list_elem_of_In; by eapply list_elem_of_lookup_2|apply Hw2, list_elem_of_In; by eapply list_elem_of_lookup_2
        |by eapply N1|by eapply N2|apply Hp, list_elem_of_In; by eapply list_elem_of_lookup_2|].
      apply (f_equal (.!! i)) in E. rewrite !list_lookup_fmap, Ha, Hb in E. by injection E.
  - assert (Hs2 := normalise_shape _ _ _ H2). pose proof (normalise_shape _ _ _ H1) as Hs1. destruct d1 as [| | | | | |k1]; try done.
    destruct d2 as [| | | | | |k2]; try discriminate E. destruct w as [| | | | | | | | |m2]; try done. cbn [canon] in E. injection E as E.
    apply normalise_map in H1 as (o1 & [= ->] & N1), H2 as (o2 & [= ->] & N2). set (ce := fun p : string * doc => (p.1, canon p.2)) in E.
    assert (Hin : forall q, q ∈ map ce o1 <-> q ∈ map ce o2) by (intros q; rewrite <- (isort_perm entry_leb (map ce o1)), E; by rewrite isort_perm).
    simpl in Hp, Hw1, Hw2. apply andb_true_iff in Hw1 as [D1 W1], Hw2 as [D2 W2]. apply bool_decide_eq_true in D1, D2.
    rewrite forallb_forall in Hp. rewrite forallb_forall in W1, W2. rewrite Forall_forall in IH.
    assert (Hkeys : forall m o path, Forall2 (fun x y => x.1 = y.1 /\ normalise (path ++ [x.1]) x.2 = Ok y.2) m o -> map fst m = map fst o).
    { clear. intros m o path H. induction H as [|x y m o [Hk _] _ IH]; [done|]. simpl. by rewrite Hk, IH. }
    pose proof (Hkeys _ _ _ N1) as K1. pose proof (Hkeys _ _ _ N2) as K2.
    constructor.
    + intros k. rewrite K1, K2. rewrite !elem_of_map. split; intros (p & -> & Hpin).
      * assert (H : ce p ∈ map ce o2) by (apply Hin, elem_of_map_2; done). apply elem_of_map in H as (q & Eq & Hq). exists q. by injection Eq.
      * assert (H : ce p ∈ map ce o1) by (apply Hin, elem_of_map_2; done). apply elem_of_map in H as (q & Eq & Hq). exists q. by injection Eq.
    + intros k x y Hx Hy. destruct (Forall2_in_l _ _ _ _ N1 Hx) as ([k' a] & Ha & Ek & Na), (Forall2_in_l _ _ _ _ N2 Hy) as ([k'' b] & Hb & Ek' & Nb).
      simpl in Ek, Ek', Na, Nb. subst k' k''. apply (IH (k, x) Hx _ y a b); [|..|done|done| |].
      * specialize (W1 (k, x) (proj1 (list_elem_of_In _ _) Hx)). by apply andb_true_iff in W1 as [_ W1].
      * specialize (W2 (k, y) (proj1 (list_elem_of_In _ _) Hy)). by apply andb_true_iff in W2 as [_ W2].
      * by apply (Hp (k, a)), list_elem_of_In.
      * assert (H : ce (k, a) ∈ map ce o2) by (apply Hin, elem_of_map_2; done). apply elem_of_map in H as ([k2 b2] & Eq & Hb2). injection Eq as -> Eq.
        rewrite Eq. f_equal. rewrite K2 in D2.
        apply list_elem_of_lookup in Hb as [i Hi], Hb2 as [j Hj].
        assert (i = j) as ->; [|congruence]. apply (NoDup_lookup (map fst o2) i j k2 D2); by rewrite list_lookup_fmap, ?Hi, ?Hj.
Qed.

Lemma normalise_integer path v z d : as_integer v = Some z -> normalise path v = Ok d -> d = DInt z.
Proof.
  intros Hz H. assert (Hv : match v with AList _ | AMap _ => False | _ => True end) by (by destruct v).
  destruct (normalise_leaf _ _ _ Hv H) as [[-> _]|[(? & -> & _)|[(? & -> & _)|[(z' & E & ->)|(? & E & _)]]]]; try done; [congruence|by destruct v].
Qed.

Lemma entries_fst m o path : Forall2 (fun x y => x.1 = y.1 /\ normalise (path ++ [x.1]) x.2 = Ok y.2) m o -> map fst m = map fst o.
Proof. induction 1 as [|x y m o [Hk _] _ IH]; [done|]. simpl. by rewrite Hk, IH. Qed.

Lemma NoDup_fst_inj {A} (m : list (string * A)) k a b : NoDup (map fst m) -> (k, a) ∈ m -> (k, b) ∈ m -> a = b.
Proof.
  intros Hd [i Hi]%list_elem_of_lookup [j Hj]%list_elem_of_lookup.
  assert (i = j) as ->; [|congruence]. apply (NoDup_lookup (map fst m) i j k Hd); by rewrite list_lookup_fmap, ?Hi, ?Hj.
Qed.

Definition printed (p : string * doc) : string * string := (p.1, print p.2).

Lemma sim_print v : forall path w d1 d2, wf v = true -> wf w = true -> sim path v w -> normalise path v = Ok d1 -> normalise path w = Ok d2 ->
  print d1 = print d2.
Proof.
  induction v as [v Hv|l IH|m IH] using any_nested_ind; intros path w d1 d2 Hw1 Hw2 Hs H1 H2.
  - destruct Hs as [path|path b|path s|path a b z Ea Eb|? ? ? ? ? ?|? ? ? ? ?|? ? ? ? ?]; try done; try congruence.
    by rewrite (normalise_integer _ _ _ _ Ea H1), (normalise_integer _ _ _ _ Eb H2).
  - inversion Hs as [| | |? ? ? z Ea|? ? k Hset Hlen Hpt|? ss tt Hset Hst|]; subst; [done| |].
    + apply normalise_list in H1 as (o1 & L1 & N1 & R1), H2 as (o2 & L2 & N2 & R2). rewrite Hset in R1, R2. injection R1 as <-. injection R2 as <-.
      cbn [print]. f_equal. f_equal. f_equal. apply list_eq. intros i. rewrite !list_lookup_fmap.
      destruct (l !! i) as [x|] eqn:Ex.
      * destruct (lookup_lt_is_Some_2 k i) as [y Hy]; [rewrite <- Hlen; by eapply lookup_lt_Some|].
        destruct (lookup_lt_is_Some_2 o1 i) as [a Ha]; [rewrite L1; by eapply lookup_lt_Some|].
        destruct (lookup_lt_is_Some_2 o2 i) as [b Hb]; [rewrite L2; by eapply lookup_lt_Some|]. rewrite Ha, Hb. simpl. f_equal.
        simpl in Hw1, Hw2. rewrite forallb_forall in Hw1, Hw2. rewrite Forall_forall in IH.
        apply (IH x (list_elem_of_lookup_2 _ _ _ Ex) (path ++ [Itoa i]) y); [apply Hw1, list_elem_of_In; by eapply list_elem_of_lookup_2
          |apply Hw2, list_elem_of_In; by eapply list_elem_of_lookup_2|by eapply Hpt|by eapply N1|by eapply N2].
      * apply lookup_ge_None in Ex. rewrite (lookup_ge_None_2 o1 i) by lia. by rewrite (lookup_ge_None_2 o2 i) by lia.
    + apply normalise_list in H1 as (o1 & L1 & N1 & R1), H2 as (o2 & L2 & N2 & R2). rewrite Hset in R1, R2.
      destruct (set_like_strings _ _ _ _ L1 N1 R1) as (ss' & Es & ->), (set_like_strings _ _ _ _ L2 N2 R2) as (tt' & Et & ->).
      assert (Hinj : forall a b, map AString a = map AString b -> a = b) by (intros a b; apply list_fmap_eq_inj; by intros ?? [= ->]).
      apply Hinj in Es, Et. subst. by rewrite (proj2 (ded_sets ss' tt') Hst).
  - inversion Hs as [| | |? ? ? z Ea| | |? ? n Hk Hpt]; subst; [done|].
    apply normalise_map in H1 as (o1 & -> & N1), H2 as (o2 & -> & N2). simpl in Hw1, Hw2.
    apply andb_true_iff in Hw1 as [D1 W1], Hw2 as [D2 W2]. apply bool_decide_eq_true in D1, D2. rewrite forallb_forall in W1, W2. rewrite Forall_forall in IH.
    pose proof (entries_fst _ _ _ N1) as K1. pose proof (entries_fst _ _ _ N2) as K2. rewrite K1 in D1. rewrite K2 in D2.
    assert (Hprint : forall k a b, (k, a) ∈ o1 -> (k, b) ∈ o2 -> print a = print b).
    { intros k a b Ha Hb. destruct (Forall2_in_r _ _ _ _ N1 Ha) as ([k1 x] & Hx & E1 & Nx), (Forall2_in_r _ _ _ _ N2 Hb) as ([k2 y] & Hy & E2 & Ny).
      simpl in E1, E2, Nx, Ny. subst k1 k2. specialize (W1 (k, x) (proj1 (list_elem_of_In _ _) Hx)). specialize (W2 (k, y) (proj1 (list_elem_of_In _ _) Hy)).
      apply andb_true_iff in W1 as [_ W1], W2 as [_ W2]. by apply (IH (k, x) Hx (path ++ [k]) y a b W1 W2); [eapply Hpt|..]. }
    assert (Hkeys : forall k, k ∈ map fst o1 <-> k ∈ map fst o2) by (intros k; by rewrite <- K1, <- K2).
    assert (Hvalid : forall p, p ∈ o1 -> valid_text p.1 = true).
    { intros [k a] Ha. destruct (Forall2_in_r _ _ _ _ N1 Ha) as (x & Hx & E & _). specialize (W1 x (proj1 (list_elem_of_In _ _) Hx)).
      apply andb_true_iff in W1 as [W1 _]. by rewrite <- E. }
    cbn [print]. f_equal. f_equal. f_equal. f_equal. change (isort entry_leb (map printed o1) = isort entry_leb (map printed o2)).
    assert (Hnd : forall o : list (string * doc), NoDup (map fst o) -> NoDup (map printed o)) by (intros o Ho; apply (NoDup_fmap_1 fst); by rewrite <- list_fmap_compose).
    apply isort_unique; [intros [? ?] [? ?]; apply key_leb_total|intros [? ?] [? ?] [? ?]; apply key_leb_trans| |apply NoDup_Permutation; [by apply Hnd..|]].
    + intros p q (a & -> & Ha)%elem_of_map (b & -> & Hb)%elem_of_map L1 L2. unfold printed in *.
      assert (E : a.1 = b.1) by (apply key_leb_antisym; [by apply Hvalid..|done|done]). destruct a as [k a], b as [k' b]. simpl in E. subst k'.
      by rewrite (NoDup_fst_inj o1 k a b).
    + intros q. rewrite !elem_of_map. unfold printed. split.
      * intros ([k a] & -> & Ha). assert (Hb : k ∈ map fst o2) by (apply Hkeys, elem_of_map; by exists (k, a)).
        apply elem_of_map in Hb as ([k' b] & Ek & Hb). simpl in Ek. subst k'. exists (k, b). simpl. by rewrite (Hprint k a b).
      * intros ([k b] & -> & Hb). assert (Ha : k ∈ map fst o1) by (apply Hkeys, elem_of_map; by exists (k, b)).
        apply elem_of_map in Ha as ([k' a] & Ek & Ha). simpl in Ek. subst k'. exists (k, a). simpl. by rewrite (Hprint k a b).
Qed.

(** *** What decoding YAML gives *)

(** A parsed document whose text is valid. *)
Fixpoint yaml_ok (n : yaml) : bool :=
  match n with
  | YDocument y => yaml_ok y
  | YMapping m => forallb (fun p => valid_text p.1 && yaml_ok p.2) m
  | YSequence l => forallb yaml_ok l
  | YScalar (Ok v) => wf v
  | _ => true
  end.
Definition within (b : yamlBudget) : Prop := b_nodes b <= maxYAMLNodes /\ b_aliases b <= maxYAMLAliases.

(** However aliases are wound up, decoding ends within its budgets and gives well-formed documents. *)
Lemma decoded_wf anchors room n b v b' : (forall a, yaml_ok (anchors a) = true) -> yaml_ok n = true -> b_aliases b <= maxYAMLAliases ->
  yamlToAnyBounded anchors room n b = Ok (v, b') -> wf v = true /\ within b'.
Proof.
  intros Ha. revert n b v b'; induction room as [|room IH]; intros n b v b' Hn Hal H; cbn [yamlToAnyBounded] in H; [done|]. cbn [b_nodes b_aliases] in H.
  destruct (Nat.ltb_spec maxYAMLNodes (S (b_nodes b))) as [|Hle]; [done|]. set (b1 := {| b_nodes := S (b_nodes b); b_aliases := b_aliases b |}) in H.
  assert (Hw1 : within b1) by done.
  destruct n as [y|m|l|a|[w|e]|]; try done.
  - by eapply IH; [| |exact H].
  - match type of H with res_bind (?f m [] b1) _ = _ => set (go := f) in H end.
    assert (Hgo : forall m out b out' b', forallb (fun p => valid_text p.1 && yaml_ok p.2) m = true -> within b -> wf (AMap out) = true ->
      go m out b = Ok (out', b') -> wf (AMap out') = true /\ within b').
    { clear m Hn H b1 Hw1 v b' b Hal Hle. induction m as [|[k y] m IHm]; intros out b out' b' Hm Hb Hout E; cbn [go] in E; [by injection E as <- <-|].
      simpl in Hm. apply andb_true_iff in Hm as [[Hk Hy]%andb_true_iff Hm]. case_bool_decide as Hdup; [done|].
      apply res_bind_Ok in E as ([v' b2] & Ev & E). destruct (IH y b v' b2 Hy (proj2 Hb) Ev) as [Hv Hb2].
      eapply IHm; [done|exact Hb2| |exact E]. simpl in Hout |- *. apply andb_true_iff in Hout as [Hd%bool_decide_eq_true Hall].
      rewrite map_app, forallb_app, Hall. simpl. rewrite Hk, Hv. rewrite bool_decide_eq_true_2; [done|].
      apply NoDup_app. split; [done|]. split; [|apply NoDup_singleton]. intros x Hx ->%list_elem_of_singleton. done. }
    apply res_bind_Ok in H as ([out b2] & Hout & [= <- <-]). exact (Hgo m [] b1 out b2 Hn Hw1 eq_refl Hout).
  - match type of H with res_bind (?f l b1) _ = _ => set (go := f) in H end.
    assert (Hgo : forall l b out b', forallb yaml_ok l = true -> within b -> go l b = Ok (out, b') -> forallb wf out = true /\ within b').
    { clear l Hn H b1 Hw1 v b' b Hal Hle. induction l as [|y l IHl]; intros b out b' Hl Hb E; cbn [go] in E; [by injection E as <- <-|].
      simpl in Hl. apply andb_true_iff in Hl as [Hy Hl]. apply res_bind_Ok in E as ([v' b2] & Ev & E).
      apply res_bind_Ok in E as ([r b3] & Er & [= <- <-]). destruct (IH y b v' b2 Hy (proj2 Hb) Ev) as [Hv Hb2].
      destruct (IHl _ _ _ Hl Hb2 Er) as [Hr Hb3]. simpl. by rewrite Hv, Hr. }
    apply res_bind_Ok in H as ([out b2] & Hout & [= <- <-]). by eapply Hgo.
  - cbn [b_nodes b_aliases b1] in H. destruct (Nat.ltb_spec maxYAMLAliases (S (b_aliases b))) as [|Hlt]; [done|]. eapply IH; [by apply Ha| |exact H]. done.
  - destruct w; simpl in Hn; try done; by injection H as <- <-.
Qed.

(** ** The properties *)

(** C10. What a digest pins. Two documents that both have a digest are hashed from the same text
    exactly when they mean the same: equal but for the order of keys, the order and repetitions
    within spec.capabilities and an operation route's queryKeys, and the Go type an integer came in.
    So up to collisions of SHA-256 an approval holds for one manifest and its reorderings only. The
    documents are taken to be text throughout, valid UTF-8 with no key twice, as decoders leave them; a
    binary scalar of YAML is the one that need not be ([binary_scalars_collide]). *)
Theorem digest_pins_document (a b : any) (d1 d2 : doc) (s1 s2 : string)
  (Ha : wf a = true) (Hb : wf b = true) (Hn1 : normalise [] a = Ok d1) (Hn2 : normalise [] b = Ok d2)
  (Hs1 : serialise d1 = Some s1) (Hs2 : serialise d2 = Some s2) : s1 = s2 <-> sim [] a b.
Proof.
  unfold serialise in *. destruct (printable d1) eqn:P1; [|done]. destruct (printable d2) eqn:P2; [|done]. injection Hs1 as <-. injection Hs2 as <-.
  split; [|intros Hsim; exact (sim_print a [] b d1 d2 Ha Hb Hsim Hn1 Hn2)]. intros E. apply (canon_sim a [] b d1 d2); try done.
  apply print_eq_canon; try done; [by apply (normalise_texts a [])|by apply (normalise_texts b [])].
Qed.

(** The same request for authority, its keys and its capabilities in another order. *)
Definition sample_manifest (caps : list string) : any :=
  AMap [("id", AString "demo"); ("spec", AMap [("capabilities", AList (map AString caps)); ("retries", AInt 3)])].
Definition sample_reordered : any :=
  AMap [("spec", AMap [("retries", ANumber "3"); ("capabilities", AList (map AString ["http"; "kv"; "http"]))]); ("id", AString "demo")].

Definition doc_of (v : any) : doc := match normalise [] v with Ok d => d | Err _ => DNull end.
Definition text_of (v : any) : string := print (doc_of v).

Example digest_pins_document_witness :
  sim [] (sample_manifest ["kv"; "http"]) sample_reordered /\ ~ sim [] (sample_manifest ["kv"; "http"]) (sample_manifest ["kv"]).
Proof.
  assert (W1 : wf (sample_manifest ["kv"; "http"]) = true) by (vm_compute; reflexivity).
  assert (W2 : wf sample_reordered = true) by (vm_compute; reflexivity).
  assert (W3 : wf (sample_manifest ["kv"]) = true) by (vm_compute; reflexivity).
  assert (N1 : normalise [] (sample_manifest ["kv"; "http"]) = Ok (doc_of (sample_manifest ["kv"; "http"]))) by (vm_compute; reflexivity).
  assert (N2 : normalise [] sample_reordered = Ok (doc_of sample_reordered)) by (vm_compute; reflexivity).
  assert (N3 : normalise [] (sample_manifest ["kv"]) = Ok (doc_of (sample_manifest ["kv"]))) by (vm_compute; reflexivity).
  assert (S1 : serialise (doc_of (sample_manifest ["kv"; "http"])) = Some (text_of (sample_manifest ["kv"; "http"]))) by (vm_compute; reflexivity).
  assert (S2 : serialise (doc_of sample_reordered) = Some (text_of sample_reordered)) by (vm_compute; reflexivity).
  assert (S3 : serialise (doc_of (sample_manifest ["kv"])) = Some (text_of (sample_manifest ["kv"]))) by (vm_compute; reflexivity).
  assert (E12 : text_of (sample_manifest ["kv"; "http"]) = text_of sample_reordered) by (vm_compute; reflexivity).
  assert (E13 : String.eqb (text_of (sample_manifest ["kv"; "http"])) (text_of (sample_manifest ["kv"])) = false) by (vm_compute; reflexivity).
  split; [exact (proj1 (digest_pins_document _ _ _ _ _ _ W1 W2 N1 N2 S1 S2) E12)|].
  intros H. apply String.eqb_neq in E13. exact (E13 (proj2 (digest_pins_document _ _ _ _ _ _ W1 W3 N1 N3 S1 S3) H)).
Defined.

(** A scalar that YAML reads as a time passes [normalise], and [serialise] panics on it. *)
Example timestamp_panics : forall sha256, Digest sha256 (AMap [("version", ATime 0)]) = None.
Proof. reflexivity. Qed.

(** Bytes that are no text, which a scalar tagged as binary may hold, are all written as U+FFFD: two
    different documents of them have one digest. *)
Example binary_scalars_collide : forall sha256,
  AMap [("id", AString (String "128" ""))] <> AMap [("id", AString (String "129" ""))]
  /\ Digest sha256 (AMap [("id", AString (String "128" ""))]) = Digest sha256 (AMap [("id", AString (String "129" ""))])
  /\ is_Some (Digest sha256 (AMap [("id", AString (String "128" ""))])).
Proof. intros sha256. split; [discriminate|]. split; [reflexivity|by eexists]. Qed.
