(* ===== verification/NetHttp.v ===== *)
(** * The net/http and net/url behaviour the program relies on

    Headers ([http.Header] with canonicalised keys), query values ([url.Values]), the parts of a
    URL the code reads, and the percent-decoding of a path-only reference ([url.Parse]). These are
    standard-library operations, written out as executable definitions; no source line maps here. *)
From S2P Require Import Prelude RoutePath.

(** ** Header names *)

(** The token bytes of RFC 7230: [textproto]'s [validHeaderFieldByte]. *)
Definition validHeaderFieldByte (b : ascii) : bool :=
  isLetter b || in_range 48 57 b
  || existsb (Ascii.eqb b) ["!"; "#"; "$"; "%"; "&"; "'"; "*"; "+"; "-"; "."; "^"; "_"; "`"; "|"; "~"]%char.

Definition upper_byte (c : ascii) : ascii :=
  if in_range 97 122 c then ascii_of_N (byteN c - 32) else c.

Fixpoint canonical_case (upper : bool) (s : string) : string :=
  match s with
  | EmptyString => EmptyString
  | String c s' =>
      String (if upper then upper_byte c else lower_byte c) (canonical_case (Ascii.eqb c "-") s')
  end.

(** [http.CanonicalHeaderKey]: a name with a byte that is not a token byte is left alone. *)
Definition CanonicalHeaderKey (s : string) : string :=
  if all_bytes validHeaderFieldByte s then canonical_case true s else s.

(** [http.Header] and [url.Values] *)
Abbreviation Header := (gmap string (list string)) (only parsing).
Abbreviation Values := (gmap string (list string)) (only parsing).

Definition header_Set (h : Header) (k v : string) : Header := <[CanonicalHeaderKey k := [v]]> h.

(** [Header.Get]/[Values.Get]: the first value, or the empty string. *)
Definition first_value (o : option (list string)) : string :=
  match o with Some (v :: _) => v | _ => "" end.
Definition header_Get (h : Header) (k : string) : string := first_value (h !! CanonicalHeaderKey k).
Definition values_Set (q : Values) (k v : string) : Values := <[k := [v]]> q.

(** A [for k, v := range m] loop that sets each entry; Go leaves the order open, and the model
    takes one order. *)
Definition set_all_headers (m : gmap string string) (h : Header) : Header :=
  map_fold (fun k v acc => header_Set acc k v) h m.
Definition set_all_values (m : gmap string string) (q : Values) : Values :=
  map_fold (fun k v acc => values_Set acc k v) q m.

(** ** URLs *)

Record URL := { scheme : string; host : string; upath : string; uquery : Values }.

Definition with_path (u : URL) (p : string) (q : Values) : URL :=
  {| scheme := scheme u; host := host u; upath := p; uquery := q |}.

(** [unescape(s, encodePath)] of net/url: one pass of percent-decoding. *)
Fixpoint path_unescape (s : string) : option string :=
  match s with
  | EmptyString => Some EmptyString
  | String c rest =>
      if negb (Ascii.eqb c percent) then String c <$> path_unescape rest
      else match rest with
           | String h (String l rest') =>
               if isHex h && isHex l then String (hexByte h l) <$> path_unescape rest' else None
           | _ => None
           end
  end.

Definition is_control (b : ascii) : bool := ((byteN b <? 32) || (byteN b =? 127))%N.

(** [url.Parse] of a reference without [?], [#], [://] or a leading [//]. A control byte or a
    malformed escape is an error; a reference that is not rooted either fails to parse, or is read
    as scheme-bearing, or yields a relative path, and is reported as [None] here because the caller
    refuses all three. *)
Definition url_parse_path (p : string) : option string :=
  if negb (all_bytes (fun b => negb (is_control b)) p) then None
  else if negb (HasPrefix p "/") then None
  else path_unescape p.

(** [url.QueryUnescape]: a plus is a space. *)
Fixpoint query_unescape (s : string) : option string :=
  match s with
  | EmptyString => Some EmptyString
  | String c rest =>
      if Ascii.eqb c "+" then String " " <$> query_unescape rest
      else if negb (Ascii.eqb c percent) then String c <$> query_unescape rest
      else match rest with
           | String h (String l rest') =>
               if isHex h && isHex l then String (hexByte h l) <$> query_unescape rest' else None
           | _ => None
           end
  end.

(** [url.ParseQuery]: an empty piece is skipped and a semicolon is an error; the caller drops the values
    when there is one. *)
Definition values_Add (q : Values) (k v : string) : Values := <[k := default [] (q !! k) ++ [v]]> q.
Fixpoint parse_pairs (pieces : list string) (q : Values) : option Values :=
  match pieces with
  | [] => Some q
  | piece :: rest =>
      if contains_byte ";" piece then None
      else if String.eqb piece "" then parse_pairs rest q
      else
        let '(k, v) := match Cut piece "=" with Some p => p | None => (piece, "") end in
        k' ← query_unescape k; v' ← query_unescape v; parse_pairs rest (values_Add q k' v')
  end.
Definition ParseQuery (query : string) : option Values := parse_pairs (Split "&" query) ∅.

(** ** Requests as a handler sees them *)

(** What the handlers read of an [http.Request]: [hr_escaped] is [URL.EscapedPath()] and [hr_cookies]
    the name-value pairs of the Cookie header. *)
Record http_request := {
  hr_method : string; hr_path : string; hr_escaped : string; hr_query : Values; hr_host : string; hr_remote : string;
  hr_tls : bool; hr_headers : Header; hr_cookies : list (string * string); hr_body : string }.

(** [URL.EscapedPath] decodes to [URL.Path]. *)
Definition well_formed (r : http_request) : Prop := path_unescape (hr_escaped r) = Some (hr_path r).

(** [Request.Cookie] *)
Definition Cookie (r : http_request) (name : string) : option string :=
  snd <$> list_find (fun p => p.1 = name) (hr_cookies r) ≫= fun p => Some p.2.

(** ** Lemmas *)

Lemma header_Get_Set h k v : header_Get (header_Set h k v) k = v.
Proof. unfold header_Get, header_Set. by rewrite lookup_insert_eq. Qed.

Lemma header_Set_other h k v k' :
  CanonicalHeaderKey k <> k' -> header_Set h k v !! k' = h !! k'.
Proof. intros H. unfold header_Set. by rewrite lookup_insert_ne. Qed.

(** A key no entry of the loop canonicalises to is left alone by it. *)
Lemma set_all_headers_other m h k :
  (forall n, is_Some (m !! n) -> CanonicalHeaderKey n <> k) -> set_all_headers m h !! k = h !! k.
Proof.
  unfold set_all_headers.
  apply (map_fold_weak_ind
    (fun acc m' => (forall n, is_Some (m' !! n) -> CanonicalHeaderKey n <> k) -> acc !! k = h !! k)); [done|].
  intros n v m' acc Hn IH Hk. rewrite header_Set_other.
  - apply IH. intros n' Hn'. apply Hk. rewrite lookup_insert. by case_decide.
  - apply Hk. rewrite lookup_insert_eq. by eexists.
Qed.

Lemma set_all_values_lookup m q k :
  set_all_values m q !! k = match m !! k with Some v => Some [v] | None => q !! k end.
Proof.
  unfold set_all_values.
  apply (map_fold_weak_ind
    (fun acc m' => acc !! k = match m' !! k with Some v => Some [v] | None => q !! k end)).
  - by rewrite lookup_empty.
  - intros n v m' acc Hn IH. unfold values_Set. rewrite !lookup_insert.
    case_decide; [done|exact IH].
Qed.

Lemma slash_not_hex h l : (Ascii.eqb h "/" || Ascii.eqb l "/") = true -> isHex h && isHex l = false.
Proof. intros [E|E]%orb_true_iff; apply Ascii.eqb_eq in E as ->; [done|]. by rewrite andb_false_r. Qed.

(** Unescaping goes through a slash: it begins no escape and is no hexadecimal digit. *)
Lemma path_unescape_slash a b : path_unescape (a +:+ String "/" b)
  = (x ← path_unescape a; y ← path_unescape b; Some (x +:+ String "/" y)).
Proof.
  remember (String.length a) as n eqn:Hn. revert a Hn. induction (lt_wf n) as [n _ IH]. intros a ->.
  destruct a as [|c a]; cbn [path_unescape].
  - change (("" +:+ String "/" b)) with (String "/" b). cbn. by destruct (path_unescape b).
  - change (String c a +:+ String "/" b) with (String c (a +:+ String "/" b)). cbn [path_unescape].
    destruct (negb (Ascii.eqb c percent)).
    + rewrite (IH (String.length a)) by (cbn; lia || done). by destruct (path_unescape a), (path_unescape b).
    + destruct a as [|h a]; [by destruct b|].
      change (String h a +:+ String "/" b) with (String h (a +:+ String "/" b)).
      destruct a as [|l a].
      * change ("" +:+ String "/" b) with (String "/" b). cbv beta iota. by rewrite slash_not_hex by (by rewrite orb_true_r).
      * change (String l a +:+ String "/" b) with (String l (a +:+ String "/" b)). cbv beta iota. destruct (isHex h && isHex l); [|done].
        rewrite (IH (String.length a)) by (cbn; lia || done). by destruct (path_unescape a), (path_unescape b).
Qed.

Lemma path_unescape_literal s :
  all_bytes (fun b => negb (Ascii.eqb b percent)) s = true -> path_unescape s = Some s.
Proof.
  induction s as [|c s IH]; simpl; [done|]. intros H; bool_prop.
  rewrite (proj2 (Ascii.eqb_neq c percent) H). simpl. by rewrite IH.
Qed.
