(* ===== verification/NetSniff.v ===== *)
(** * net/http's DetectContentType

    The signatures of [net/http/sniff.go] in their order, over the first 512 bytes. A standard-library
    operation, written out as an executable definition; no source line maps here. *)
From S2P Require Import Prelude.

Definition sniffLen : nat := 512.
Definition isWS (b : ascii) : bool := existsb (N.eqb (byteN b)) [9; 10; 12; 13; 32]%N.
Fixpoint skip_ws (s : string) : string :=
  match s with String b r => if isWS b then skip_ws r else s | EmptyString => "" end.

(** A pattern whose bytes under a zero mask are [None]. *)
Fixpoint masked (pat : list (option N)) (s : string) : bool :=
  match pat, s with
  | [], _ => true
  | p :: pat, String b s => match p with Some n => N.eqb (byteN b) n | None => true end && masked pat s
  | _ :: _, EmptyString => false
  end.
Definition any (n : nat) : list (option N) := repeat None n.
Fixpoint codes (s : string) : list (option N) := match s with String b r => Some (byteN b) :: codes r | EmptyString => [] end.
Definition raw (l : list N) : list (option N) := map Some l.

(** An HTML tag, in either case, and the byte that ends it. *)
Definition is_upper (b : ascii) : bool := ((65 <=? byteN b) && (byteN b <=? 90))%N.
Fixpoint html_tag (h s : string) : bool :=
  match h, s with
  | EmptyString, String b _ => Ascii.eqb b " " || Ascii.eqb b ">"
  | String b h, String d s => Ascii.eqb b (if is_upper b then ascii_of_N (N.land (byteN d) 223) else d) && html_tag h s
  | _, EmptyString => false
  end.

(** An MP4 box: its size within the data and a multiple of four, the type ftyp, and a brand mp4. *)
Definition byte_at (s : string) (n : nat) : N := match String.get n s with Some b => byteN b | None => 0 end.
Definition mp4 (s : string) : bool :=
  let boxSize := fold_left (fun acc i => acc * 256 + byte_at s i)%N (seq 0 4) 0%N in
  negb (Nat.ltb (String.length s) 12)
  && negb ((N.of_nat (String.length s) <? boxSize) || negb (boxSize mod 4 =? 0))%N
  && String.eqb (String.substring 4 4 s) "ftyp"
  && existsb (fun st => (8 <=? N.of_nat st)%N && (N.of_nat st <? boxSize)%N && Nat.eqb (st mod 4) 0 && negb (Nat.eqb st 12)
                        && String.eqb (String.substring st 3 s) "mp4") (seq 0 sniffLen).

(** No byte a text would not have. *)
Definition binary_byte (b : ascii) : bool :=
  let n := byteN b in ((n <=? 8) || (n =? 11) || (14 <=? n) && (n <=? 26) || (28 <=? n) && (n <=? 31))%N.

Inductive sniff_sig :=
| HtmlSig (h : string)
| MaskedSig (skipWS : bool) (pat : list (option N)) (ct : string)
| Mp4Sig
| TextSig.
Definition exactSig (pat : list (option N)) (ct : string) : sniff_sig := MaskedSig false pat ct.
Definition match_sig (s : string) (sig : sniff_sig) : option string :=
  match sig with
  | HtmlSig h => if html_tag h (skip_ws s) then Some "text/html; charset=utf-8" else None
  | MaskedSig ws pat ct => if masked pat (if ws then skip_ws s else s) then Some ct else None
  | Mp4Sig => if mp4 s then Some "video/mp4" else None
  | TextSig => if all_bytes (fun b => negb (binary_byte b)) (skip_ws s) then Some "text/plain; charset=utf-8" else None
  end.

Definition sniffSignatures : list sniff_sig :=
  map HtmlSig ["<!DOCTYPE HTML"; "<HTML"; "<HEAD"; "<SCRIPT"; "<IFRAME"; "<H1"; "<DIV"; "<FONT"; "<TABLE"; "<A"; "<STYLE"; "<TITLE"; "<B";
               "<BODY"; "<BR"; "<P"; "<!--"]
  ++ [MaskedSig true (codes "<?xml") "text/xml; charset=utf-8"; exactSig (codes "%PDF-") "application/pdf";
      exactSig (codes "%!PS-Adobe-") "application/postscript";
      exactSig (raw [254; 255]%N ++ any 2) "text/plain; charset=utf-16be"; exactSig (raw [255; 254]%N ++ any 2) "text/plain; charset=utf-16le";
      exactSig (raw [239; 187; 191]%N ++ any 1) "text/plain; charset=utf-8";
      exactSig (raw [0; 0; 1; 0]%N) "image/x-icon"; exactSig (raw [0; 0; 2; 0]%N) "image/x-icon"; exactSig (codes "BM") "image/bmp";
      exactSig (codes "GIF87a") "image/gif"; exactSig (codes "GIF89a") "image/gif";
      exactSig (codes "RIFF" ++ any 4 ++ codes "WEBPVP") "image/webp"; exactSig (raw [137; 80; 78; 71; 13; 10; 26; 10]%N) "image/png";
      exactSig (raw [255; 216; 255]%N) "image/jpeg";
      exactSig (codes "FORM" ++ any 4 ++ codes "AIFF") "audio/aiff"; exactSig (codes "ID3") "audio/mpeg";
      exactSig (codes "OggS" ++ raw [0]%N) "application/ogg"; exactSig (codes "MThd" ++ raw [0; 0; 0; 6]%N) "audio/midi";
      exactSig (codes "RIFF" ++ any 4 ++ codes "AVI ") "video/avi"; exactSig (codes "RIFF" ++ any 4 ++ codes "WAVE") "audio/wave"; Mp4Sig;
      exactSig (raw [26; 69; 223; 163]%N) "video/webm"; exactSig (any 34 ++ codes "LP") "application/vnd.ms-fontobject";
      exactSig (raw [0; 1; 0; 0]%N) "font/ttf"; exactSig (codes "OTTO") "font/otf"; exactSig (codes "ttcf") "font/collection";
      exactSig (codes "wOFF") "font/woff"; exactSig (codes "wOF2") "font/woff2";
      exactSig (raw [31; 139; 8]%N) "application/x-gzip"; exactSig (codes "PK" ++ raw [3; 4]%N) "application/zip";
      exactSig (codes "Rar!" ++ raw [26; 7; 0]%N) "application/x-rar-compressed"; exactSig (codes "Rar!" ++ raw [26; 7; 1; 0]%N) "application/x-rar-compressed";
      exactSig (raw [0; 97; 115; 109]%N) "application/wasm"; TextSig].

Definition DetectContentType (data : string) : string :=
  let data := String.substring 0 sniffLen data in
  match head (omap (match_sig data) sniffSignatures) with Some ct => ct | None => "application/octet-stream" end.

Example detected : map DetectContentType [""; "GIF89a"; "  <svg xmlns=''>"; " <?xml version='1.0'?><svg/>"; "<p>x"; "<pre>"; bytes_of [255; 216; 255; 224]%N;
    "RIFF1234WEBPVP8 "; bytes_of [0; 0; 0; 16; 102; 116; 121; 112; 109; 112; 52; 50; 0; 0; 0; 0]%N; bytes_of [1; 2]%N]
  = ["text/plain; charset=utf-8"; "image/gif"; "text/plain; charset=utf-8"; "text/xml; charset=utf-8"; "text/html; charset=utf-8";
     "text/plain; charset=utf-8"; "image/jpeg"; "image/webp"; "video/mp4"; "application/octet-stream"].
Proof. vm_compute. reflexivity. Qed.
