(* ===== verification/Widgets.v ===== *)
(** * internal/widgets: the Widget Document and its validation

    The document types with the source's fields, [HistoryBindings] and [ValidateWithLimit] with its
    semantic checks. The JSON decoder and the JSON Schema validator (encoding/json on this type's
    wire format, and the jsonschema module with the embedded schema) are arguments of
    [ValidateWithLimit]; everything the code adds on top of them is defined here. *)
From Stdlib Require Import Sorting.Sorted.
From S2P Require Import Prelude RoutePath GoTime.

(** ** Data *)

Abbreviation Level := string (only parsing).
Abbreviation Format := string (only parsing).
Abbreviation Emphasis := string (only parsing).

(** [Scalar = any], restricted to the values a decoded JSON scalar can hold. *)
Inductive Scalar :=
| SString (s : string)
| SNumber (f : Float64)
| SBool (b : bool)
| SNull.

Record Status := { st_Level : Level; st_Text : string; st_Since : string }.
Record Signal := { sig_Value : Scalar; sig_Unit : string; sig_Level : Level }.
Record Notice := { no_Level : string; no_Message : string }.
Record Hints := { TTLSeconds : Z }.
Record Image := { img_Ref : string; img_Alt : string; img_Aspect : string; img_Blurhash : string }.

Record MetricItem := {
  mi_Label : string; mi_Value : Scalar; mi_Format : Format; mi_Unit : string; mi_Level : Level;
  mi_Icon : string; mi_Link : string }.
Record ProgressItem := {
  pi_Label : string; pi_Progress : Float64; pi_Value : Scalar; pi_Format : Format; pi_Level : Level }.
Record StatusItem := {
  si_Label : string; si_Level : Level; si_Text : string; si_Since : string; si_Link : string }.
Record ListItem := {
  li_ID : string; li_Title : string; li_Subtitle : string; li_Value : Scalar; li_Format : Format;
  li_Level : Level; li_Icon : string; li_Image : option Image; li_Link : string; li_Timestamp : string }.
Record MediaItem := {
  me_ID : string; me_Image : Image; me_Title : string; me_Subtitle : string; me_Badge : string;
  me_Level : Level; me_Link : string; me_Timestamp : string }.
Record TableColumn := { tc_Key : string; tc_Label : string; tc_Format : Format; tc_Align : string }.
Record Action := { ac_ID : string; ac_Label : string; ac_Icon : string; ac_Confirm : bool; ac_Danger : bool }.

Record SeriesPoint := { sp_T : string; sp_V : option Float64 }.
Record SeriesLine := { sl_Label : string; sl_Level : Level; sl_Points : list SeriesPoint }.
Record HistoryLine := { hl_Signal : string; hl_Label : string; hl_Level : Level }.
Record SeriesHistory := { sh_Window : string; sh_Lines : list HistoryLine }.

Record BlockMetrics := {
  bm_Title : string; bm_Emphasis : Emphasis; bm_Columns : Z; bm_Items : list MetricItem }.
Record BlockKeyValue := { bk_Title : string; bk_Emphasis : Emphasis; bk_Items : list MetricItem }.
Record BlockProgress := { bp_Title : string; bp_Emphasis : Emphasis; bp_Items : list ProgressItem }.
Record BlockStatus := { bs_Title : string; bs_Emphasis : Emphasis; bs_Items : list StatusItem }.
Record BlockList := {
  bl_Title : string; bl_Emphasis : Emphasis; bl_Empty : string; bl_Items : list ListItem }.
Record BlockMedia := {
  bmd_Kind : string; bmd_Title : string; bmd_Emphasis : Emphasis; bmd_Columns : Z;
  bmd_Empty : string; bmd_Items : list MediaItem }.
Record BlockText := {
  bt_Kind : string; bt_Title : string; bt_Emphasis : Emphasis; bt_Level : Level; bt_Content : string }.
Record BlockTable := {
  btb_Title : string; btb_Emphasis : Emphasis; btb_Columns : list TableColumn;
  btb_Rows : list (gmap string Scalar) }.
Record BlockActions := { ba_Title : string; ba_Emphasis : Emphasis; ba_Actions : list Action }.
Record BlockSeries := {
  bse_Title : string; bse_Emphasis : Emphasis; bse_Format : Format; bse_Unit : string;
  bse_Min : option Float64; bse_Max : option Float64; bse_Series : list SeriesLine;
  bse_History : option SeriesHistory }.

(** The closed [Block] interface. A nil interface value is the one other value a [[]Block] can
    hold. *)
Inductive Block :=
| BMetrics (b : BlockMetrics)
| BKeyValue (b : BlockKeyValue)
| BProgress (b : BlockProgress)
| BStatus (b : BlockStatus)
| BList (b : BlockList)
| BMedia (b : BlockMedia)
| BText (b : BlockText)
| BTable (b : BlockTable)
| BActions (b : BlockActions)
| BSeries (b : BlockSeries)
| BNil.

Definition MediaImage : string := "image".
Definition MediaImageGrid : string := "image-grid".
Definition MediaPosterGrid : string := "poster-grid".
Definition TextPlain : string := "text".
Definition TextMarkdown : string := "markdown".

(** The ten [BlockType] methods; a call on a nil interface panics. *)
Definition BlockType (b : Block) : option string :=
  match b with
  | BMetrics _ => Some "metrics"
  | BKeyValue _ => Some "key-value"
  | BProgress _ => Some "progress"
  | BStatus _ => Some "status"
  | BList _ => Some "list"
  | BMedia b => Some (bmd_Kind b)
  | BText b => Some (bt_Kind b)
  | BTable _ => Some "table"
  | BActions _ => Some "actions"
  | BSeries _ => Some "series"
  | BNil => None
  end.

Record Document := {
  doc_Title : string; doc_Subtitle : string; doc_Link : string; doc_Status : option Status;
  doc_Blocks : list Block; doc_Signals : gmap string Signal; doc_Notices : list Notice;
  doc_Hints : option Hints }.

(** ** History bindings *)

Definition HistoryWindows : gmap string Duration :=
  list_to_map [("1h", hour); ("6h", 6 * hour); ("24h", 24 * hour); ("7d", 7 * 24 * hour)]%Z.

(** Reading a Go map: the zero value for an absent key. *)
Definition window_of (w : string) : Duration :=
  let window := default 0%Z (HistoryWindows !! w) in
  if (window =? 0)%Z then default 0%Z (HistoryWindows !! "24h") else window.

Definition bind_lines (window : Duration) (lines : list HistoryLine) (out : gmap string Duration)
  : gmap string Duration :=
  foldl (fun out l => <[hl_Signal l := window]> out) out lines.

Definition HistoryBindings (doc : Document) : gmap string Duration :=
  foldl (fun out b =>
           match b with
           | BSeries s => match bse_History s with
                          | Some h => bind_lines (window_of (sh_Window h)) (sh_Lines h) out
                          | None => out
                          end
           | _ => out
           end) ∅ (doc_Blocks doc).

(** ** Semantic validation *)

(** The field paths [checkTime] is called with. *)
Inductive time_field :=
| StatusSince
| ItemSince (block item : nat)
| ItemTimestamp (block item : nat).

(** One entry of [ValidationError.Problems]: the formatted message, by its arguments. *)
Inductive problem :=
| NotATimestamp (field : time_field) (value : string)
| AlreadyBound (block : nat) (signal window : string)
| MinNotBelowMax (block : nat)
| PointBadTime (block line point : nat) (value : string)
| PointNotAfter (block line point : nat) (value : string)
| MarkdownTooLong (block : nat)
| RawHTML (block : nat) (tag : string)
| TooLarge (size limit : Z)
| NotJSON
| SchemaProblem (msg : string)
| DecodeProblem (msg : string).

Definition maxDocumentBytes : Z := 64 * 1024.
Definition maxMarkdownBytes : nat := Eval vm_compute in 2048.
Definition MaxDocumentBytesHardCap : Z := 256 * 1024.

(** [checkTime] *)
Definition checkTime (field : time_field) (value : string) : list problem :=
  if String.eqb value "" then []
  else match time_Parse value with Some _ => [] | None => [NotATimestamp field value] end.

(** The loops over the items of the status, list and media blocks. *)
Definition check_times {A} (field : nat -> time_field) (get : A -> string) (items : list A)
  : list problem :=
  concat (imap (fun j it => checkTime (field j) (get it)) items).

(** The loop over the bound lines of one series block, threading [boundAt]. *)
Fixpoint check_bound (i : nat) (window : string) (lines : list HistoryLine)
  (boundAt : gmap string string) : list problem * gmap string string :=
  match lines with
  | [] => ([], boundAt)
  | line :: lines' =>
      let ps := match boundAt !! hl_Signal line with
                | Some w => if String.eqb w window then [] else [AlreadyBound i (hl_Signal line) w]
                | None => []
                end in
      let '(ps', b') := check_bound i window lines' (<[hl_Signal line := window]> boundAt) in
      (ps ++ ps', b')
  end.

(** The loop over one line's points, with its two [break]s. [prev] is [None] before the first. *)
Fixpoint check_points (i j k : nat) (prev : option Time) (pts : list SeriesPoint) : list problem :=
  match pts with
  | [] => []
  | pt :: pts' =>
      match time_Parse (sp_T pt) with
      | None => [PointBadTime i j k (sp_T pt)]
      | Some t =>
          match prev with
          | Some p => if (p <? t)%Z then check_points i j (S k) (Some t) pts' else [PointNotAfter i j k (sp_T pt)]
          | None => check_points i j (S k) (Some t) pts'
          end
      end
  end.

Definition check_lines (i : nat) (lines : list SeriesLine) : list problem :=
  concat (imap (fun j l => check_points i j 0 None (sl_Points l)) lines).

(** [rawHTMLTag]: the leftmost match of [<[a-zA-Z][a-zA-Z0-9-]*[\s/>]]. *)
Definition tag_char (c : ascii) : bool := isLetter c || isDigit c || Ascii.eqb c "-".
Definition tag_end (c : ascii) : bool :=
  existsb (Ascii.eqb c) ["009"; "010"; "012"; "013"; " "; "/"; ">"]%char.

Fixpoint tag_rest (s : string) : option string :=
  match s with
  | EmptyString => None
  | String c r => if tag_end c then Some (String c "")
                  else if tag_char c then String c <$> tag_rest r
                  else None
  end.

Definition tag_here (s : string) : option string :=
  match s with
  | String "<" (String c r) =>
      if isLetter c then (fun t => String "<" (String c t)) <$> tag_rest r else None
  | _ => None
  end.

Fixpoint rawHTMLTag (s : string) : option string :=
  match tag_here s with
  | Some t => Some t
  | None => match s with EmptyString => None | String _ s' => rawHTMLTag s' end
  end.

(** The body of the loop over the blocks. *)
Definition check_block (i : nat) (b : Block) (boundAt : gmap string string)
  : list problem * gmap string string :=
  match b with
  | BStatus v => (check_times (ItemSince i) si_Since (bs_Items v), boundAt)
  | BList v => (check_times (ItemTimestamp i) li_Timestamp (bl_Items v), boundAt)
  | BMedia v => (check_times (ItemTimestamp i) me_Timestamp (bmd_Items v), boundAt)
  | BSeries v =>
      let '(ps, boundAt') :=
        match bse_History v with
        | Some h =>
            let window := if String.eqb (sh_Window h) "" then "24h" else sh_Window h in
            check_bound i window (sh_Lines h) boundAt
        | None => ([], boundAt)
        end in
      let mm := match bse_Min v, bse_Max v with
                | Some a, Some b => if float_le b a then [MinNotBelowMax i] else []
                | _, _ => []
                end in
      (ps ++ mm ++ check_lines i (bse_Series v), boundAt')
  | BText v =>
      ((if String.eqb (bt_Kind v) TextMarkdown then
          (if Nat.ltb maxMarkdownBytes (String.length (bt_Content v)) then [MarkdownTooLong i] else [])
          ++ match rawHTMLTag (bt_Content v) with Some tag => [RawHTML i tag] | None => [] end
        else []), boundAt)
  | _ => ([], boundAt)
  end.

Fixpoint check_blocks (i : nat) (bs : list Block) (boundAt : gmap string string) : list problem :=
  match bs with
  | [] => []
  | b :: bs' => let '(ps, boundAt') := check_block i b boundAt in ps ++ check_blocks (S i) bs' boundAt'
  end.

Definition validateSemantics (doc : Document) : list problem :=
  match doc_Status doc with Some s => checkTime StatusSince (st_Since s) | None => [] end
  ++ check_blocks 0 (doc_Blocks doc) ∅.

Section Validate.
(** The JSON value a byte string decodes to, the embedded schema's verdict on it (the flattened
    problems, empty for a valid value) and the decoding into a [Document]. *)
Variable Json : Type.
Variable decode_generic : string -> option Json.
Variable schema_problems : Json -> list string.
Variable unmarshal : string -> res string Document.

(** The clamping of [maxBytes] *)
Definition document_limit (maxBytes : Z) : Z :=
  let m := if (maxBytes <=? 0)%Z then maxDocumentBytes else maxBytes in
  if (MaxDocumentBytesHardCap <? m)%Z then MaxDocumentBytesHardCap else m.

Definition ValidateWithLimit (raw : string) (maxBytes : Z) : res (list problem) Document :=
  let limit := document_limit maxBytes in
  let size := Z.of_nat (String.length raw) in
  if (limit <? size)%Z then Err [TooLarge size limit]
  else match decode_generic raw with
       | None => Err [NotJSON]
       | Some generic =>
           let ps := map SchemaProblem (schema_problems generic) in
           match unmarshal raw with
           | Err msg => Err (ps ++ [DecodeProblem msg])
           | Ok doc => match ps ++ validateSemantics doc with
                       | [] => Ok doc
                       | problems => Err problems
                       end
           end
       end.

Definition Validate (raw : string) : res (list problem) Document :=
  ValidateWithLimit raw maxDocumentBytes.
End Validate.

(** ** What a valid document is *)

Definition time_ok (s : string) : Prop := s = "" \/ is_Some (time_Parse s).

(** The points of a line have real timestamps, strictly increasing. *)
Definition points_ok (pts : list SeriesPoint) : Prop :=
  exists ts, Forall2 (fun p t => time_Parse (sp_T p) = Some t) pts ts /\ StronglySorted Z.lt ts.

(** No HTML tag opener occurs anywhere in the text. *)
Definition no_html (s : string) : Prop :=
  ~ exists a c name e b, s = a +:+ String "<" (String c (name +:+ String e b))
      /\ isLetter c = true /\ all_bytes tag_char name = true /\ tag_end e = true.

Definition block_ok (b : Block) : Prop :=
  match b with
  | BStatus v => Forall (fun it => time_ok (si_Since it)) (bs_Items v)
  | BList v => Forall (fun it => time_ok (li_Timestamp it)) (bl_Items v)
  | BMedia v => Forall (fun it => time_ok (me_Timestamp it)) (bmd_Items v)
  | BSeries v =>
      Forall (fun l => points_ok (sl_Points l)) (bse_Series v)
      /\ (forall a b, bse_Min v = Some a -> bse_Max v = Some b -> float_le b a = false)
  | BText v =>
      bt_Kind v = TextMarkdown ->
      String.length (bt_Content v) <= maxMarkdownBytes /\ no_html (bt_Content v)
  | _ => True
  end.

(** Every (signal, window) pair the series blocks bind, in document order; the empty window is
    the default one. *)
Definition block_bindings (b : Block) : list (string * string) :=
  match b with
  | BSeries v => match bse_History v with
                 | Some h => map (fun l => (hl_Signal l, if String.eqb (sh_Window h) "" then "24h" else sh_Window h)) (sh_Lines h)
                 | None => []
                 end
  | _ => []
  end.
Definition doc_bindings (doc : Document) : list (string * string) :=
  concat (map block_bindings (doc_Blocks doc)).

Definition one_window (l : list (string * string)) : Prop :=
  forall sg w w', (sg, w) ∈ l -> (sg, w') ∈ l -> w = w'.

Definition doc_ok (doc : Document) : Prop :=
  (forall s, doc_Status doc = Some s -> time_ok (st_Since s))
  /\ Forall block_ok (doc_Blocks doc)
  /\ one_window (doc_bindings doc).

(** ** Lemmas *)

Lemma checkTime_nil f s : checkTime f s = [] <-> time_ok s.
Proof.
  unfold checkTime, time_ok. destruct (String.eqb s "") eqn:E; bool_prop; [naive_solver|].
  destruct (time_Parse s); split; naive_solver.
Qed.

Lemma check_times_nil {A} f (get : A -> string) l :
  check_times f get l = [] <-> Forall (fun it => time_ok (get it)) l.
Proof.
  unfold check_times. rewrite concat_imap_nil, Forall_lookup.
  by setoid_rewrite checkTime_nil.
Qed.

Lemma check_points_nil i j k prev pts :
  check_points i j k prev pts = [] <->
  exists ts, Forall2 (fun p t => time_Parse (sp_T p) = Some t) pts ts
    /\ StronglySorted Z.lt ts /\ (forall p, prev = Some p -> Forall (Z.lt p) ts).
Proof.
  revert k prev; induction pts as [|pt pts IH]; intros k prev; simpl.
  - split; [|done]. intros _. exists []. split_and!; [constructor|constructor|intros; constructor].
  - destruct (time_Parse (sp_T pt)) as [t|] eqn:Ht; cycle 1.
    { split; [done|]. intros (ts & H & _). inversion H; congruence. }
    assert (Hnext : check_points i j (S k) (Some t) pts = [] <->
      exists ts, Forall2 (fun p t => time_Parse (sp_T p) = Some t) (pt :: pts) (t :: ts)
        /\ StronglySorted Z.lt (t :: ts)).
    { rewrite IH. split.
      - intros (ts & H1 & H2 & H3). exists ts. split; constructor; auto.
      - intros (ts & H1 & H2). inversion H1; inversion H2; subst. exists ts. naive_solver. }
    destruct prev as [p|].
    + destruct (Z.ltb_spec p t).
      * rewrite Hnext. split.
        -- intros (ts & H1 & H2). exists (t :: ts). split_and!; [done|done|].
           intros ? [= <-]. constructor; [done|]. inversion H2; subst.
           eapply Forall_impl; [done|]. simpl; lia.
        -- intros (ts & H1 & H2 & _). inversion H1; subst. simplify_eq. eauto.
      * split; [done|]. intros (ts & H1 & _ & H3). specialize (H3 p eq_refl).
        inversion H1; subst; inversion H3; subst. simplify_eq. lia.
    + rewrite Hnext. split.
      * intros (ts & H1 & H2). exists (t :: ts). naive_solver.
      * intros (ts & H1 & H2 & _). inversion H1; subst. simplify_eq. eauto.
Qed.

Lemma check_lines_nil i lines :
  check_lines i lines = [] <-> Forall (fun l => points_ok (sl_Points l)) lines.
Proof.
  unfold check_lines. rewrite concat_imap_nil, Forall_lookup. unfold points_ok.
  split; intros H j x Hj; specialize (H j x Hj).
  - apply check_points_nil in H as (ts & ? & ? & _). eauto.
  - apply check_points_nil. destruct H as (ts & ? & ?). naive_solver.
Qed.

Lemma tag_rest_Some s t :
  tag_rest s = Some t -> exists name e b, s = name +:+ String e b /\ t = name +:+ String e ""
    /\ all_bytes tag_char name = true /\ tag_end e = true.
Proof.
  revert t; induction s as [|c s IH]; intros t; simpl; [done|].
  destruct (tag_end c) eqn:E; [intros [= <-]; by exists "", c, s|].
  destruct (tag_char c) eqn:Ec; [|done].
  intros (t' & Ht & ->)%fmap_Some. apply IH in Ht as (n & e & b & -> & -> & Hn & He).
  exists (String c n), e, b. rewrite !app_cons_str. simpl. by rewrite Ec, Hn.
Qed.

Lemma tag_char_not_end c : tag_char c = true -> tag_end c = false.
Proof. all_ascii c; vm_compute; congruence. Qed.

Lemma tag_rest_complete name e b :
  all_bytes tag_char name = true -> tag_end e = true -> is_Some (tag_rest (name +:+ String e b)).
Proof.
  induction name as [|c n IH]; intros Hn He.
  - change ("" +:+ String e b) with (String e b). simpl. by rewrite He.
  - simpl in Hn. bool_prop. rewrite app_cons_str. simpl.
    rewrite tag_char_not_end, H by done. apply fmap_is_Some. by apply IH.
Qed.

Lemma rawHTMLTag_app_None a s : rawHTMLTag (a +:+ s) = None -> rawHTMLTag s = None.
Proof.
  induction a as [|c a IH]; [done|]. rewrite app_cons_str. cbn [rawHTMLTag].
  destruct (tag_here _); [done|exact IH].
Qed.

Lemma rawHTMLTag_None s : rawHTMLTag s = None <-> no_html s.
Proof.
  split.
  - intros H (a & c & n & e & b & -> & Hc & Hn & He). apply rawHTMLTag_app_None in H.
    cbn [rawHTMLTag tag_here] in H. rewrite Hc in H.
    destruct (tag_rest_complete n e b Hn He) as [t Ht]. by rewrite Ht in H.
  - induction s as [|c s IH]; [done|]. intros H. cbn [rawHTMLTag].
    assert (Hh : tag_here (String c s) = None).
    { destruct (tag_here (String c s)) as [t|] eqn:E; [|done]. exfalso. apply H.
      unfold tag_here in E.
      destruct (decide (c = "<"%char)) as [->|Hne]; [|exfalso; revert E; all_ascii c; done].
      destruct s as [|d s]; [done|]. destruct (isLetter d) eqn:Hd; [|done].
      apply fmap_Some in E as (t' & Ht & ->).
      apply tag_rest_Some in Ht as (n & e & b & -> & _ & Hn & He).
      by exists "", d, n, e, b. }
    rewrite Hh. apply IH. intros (a & d & n & e & b & -> & Hr). apply H.
    by exists (String c a), d, n, e, b.
Qed.

(** The map of a list of pairs, later pairs overwriting earlier ones. *)
Definition bind_pairs {V} (l : list (string * V)) (m : gmap string V) : gmap string V :=
  foldl (fun m p => <[p.1 := p.2]> m) m l.

Lemma bind_pairs_app {V} (l k : list (string * V)) m :
  bind_pairs (l ++ k) m = bind_pairs k (bind_pairs l m).
Proof. apply foldl_app. Qed.

Lemma bind_pairs_lookup {V} (l : list (string * V)) m sg v :
  bind_pairs l m !! sg = Some v -> (sg, v) ∈ l \/ m !! sg = Some v /\ forall w, (sg, w) ∉ l.
Proof.
  revert m; induction l as [|[a w] l IH]; intros m; simpl.
  - intros H. right. split; [done|]. intros w; apply not_elem_of_nil.
  - intros H. apply IH in H as [H|[H Hn]]; [left; by right|].
    rewrite lookup_insert in H. case_decide; simplify_eq; [left; by left|].
    right. split; [done|]. intros w' [[=]|Hw]%elem_of_cons; [congruence|by eapply Hn].
Qed.

Lemma bind_pairs_elem {V} (l : list (string * V)) m sg v :
  (sg, v) ∈ l -> is_Some (bind_pairs l m !! sg).
Proof.
  revert m; induction l as [|[a w] l IH]; intros m; simpl; [by intros ?%not_elem_of_nil|].
  intros [[= <- <-]|H]%elem_of_cons; [|by apply IH].
  clear IH. assert (Hm : is_Some (<[sg := v]> m !! sg)) by (rewrite lookup_insert_eq; by eexists).
  revert Hm. generalize (<[sg := v]> m) as m'.
  induction l as [|[b u] l IH]; intros m' Hm; [done|]. simpl. apply IH.
  rewrite lookup_insert. by case_decide.
Qed.

(** Binding the pairs of [l] on top of [m] never rebinds a signal to another window. *)
Definition compat (m : gmap string string) (l : list (string * string)) : Prop :=
  (forall sg w w', (sg, w) ∈ l -> m !! sg = Some w' -> w' = w) /\ one_window l.

Lemma compat_cons m sg w l :
  compat m ((sg, w) :: l) <->
  (forall w', m !! sg = Some w' -> w' = w) /\ compat (<[sg := w]> m) l.
Proof.
  unfold compat, one_window. split.
  - intros [H1 H2]. split_and!.
    + intros w' Hw. eapply H1; [by left|done].
    + intros s v v' Hv. rewrite lookup_insert. case_decide; subst.
      * intros [= <-]. eapply H2; [by left|by right].
      * intros Hm. eapply H1; [by right|done].
    + intros s v v' Hv Hv'. eapply H2; by right.
  - intros (H0 & H1 & H2). split.
    + intros s v v' [[= -> ->]|Hv]%elem_of_cons Hm; [by apply H0|].
      destruct (decide (s = sg)) as [->|Hne].
      * pose proof (H0 _ Hm) as ->. apply (H1 sg v w Hv). by rewrite lookup_insert_eq.
      * eapply H1; [done|]. by rewrite lookup_insert_ne.
    + intros s v v' [Ev|Hv]%elem_of_cons [Ev'|Hv']%elem_of_cons; simplify_eq.
      * done.
      * eapply H1; [done|]. by rewrite lookup_insert_eq.
      * symmetry. eapply H1; [done|]. by rewrite lookup_insert_eq.
      * by eapply H2.
Qed.

Lemma compat_app m l k : compat m (l ++ k) <-> compat m l /\ compat (bind_pairs l m) k.
Proof.
  revert m; induction l as [|[sg w] l IH]; intros m.
  - simpl. split; [|by intros [_ ?]]. intros H. split; [|done].
    split; [by intros ??? ?%not_elem_of_nil|by intros ??? ?%not_elem_of_nil].
  - change (((sg, w) :: l) ++ k) with ((sg, w) :: (l ++ k)).
    rewrite !compat_cons, IH. simpl. tauto.
Qed.

Definition line_pairs (w : string) (lines : list HistoryLine) : list (string * string) :=
  map (fun l => (hl_Signal l, w)) lines.

Lemma check_bound_spec i w lines m :
  (check_bound i w lines m).2 = bind_pairs (line_pairs w lines) m
  /\ ((check_bound i w lines m).1 = [] <-> compat m (line_pairs w lines)).
Proof.
  revert m; induction lines as [|l lines IH]; intros m; simpl.
  - split; [done|]. split; [|done]. intros _.
    split; [by intros ??? ?%not_elem_of_nil|by intros ??? ?%not_elem_of_nil].
  - destruct (IH (<[hl_Signal l := w]> m)) as [E1 E2].
    destruct (check_bound i w lines (<[hl_Signal l := w]> m)) as [ps b]; simpl in *.
    split; [done|]. rewrite app_nil_iff, E2, compat_cons.
    destruct (m !! hl_Signal l) as [w'|]; [|naive_solver].
    destruct (String.eqb w' w) eqn:E; bool_prop; [naive_solver|].
    split; [by intros [[=] _]|]. intros [H _]. destruct E. by apply H.
Qed.

Lemma check_block_spec i b m :
  (check_block i b m).2 = bind_pairs (block_bindings b) m
  /\ ((check_block i b m).1 = [] <-> block_ok b /\ compat m (block_bindings b)).
Proof.
  assert (Hnil : forall m, compat m []) by
    (intros ?; split; [by intros ??? ?%not_elem_of_nil|by intros ??? ?%not_elem_of_nil]).
  destruct b; simpl; try (split; [done|]; (rewrite check_times_nil || idtac); naive_solver).
  - split; [done|]. destruct (String.eqb (bt_Kind b) TextMarkdown) eqn:E; bool_prop; [|naive_solver].
    rewrite app_nil_iff, <- rawHTMLTag_None.
    destruct (Nat.ltb_spec maxMarkdownBytes (String.length (bt_Content b)));
      destruct (rawHTMLTag (bt_Content b)); split; try naive_solver lia.
  - set (r := match bse_History b with Some h => _ | None => _ end).
    set (l := match bse_History b with Some h => map _ _ | None => _ end).
    assert (Hr : r.2 = bind_pairs l m /\ (r.1 = [] <-> compat m l)).
    { subst r l. destruct (bse_History b) as [h|]; [apply check_bound_spec|naive_solver]. }
    destruct r as [ps m']; simpl in *. destruct Hr as [-> Hr]. split; [done|].
    rewrite !app_nil_iff, check_lines_nil, Hr.
    destruct (bse_Min b) as [a|], (bse_Max b) as [c|]; try naive_solver.
    clearbody l. destruct (float_le c a) eqn:E; split.
    + by intros (_ & [=] & _).
    + intros [[_ H] _]. specialize (H _ _ eq_refl eq_refl). congruence.
    + intros (Hc & _ & Hp). split; [split; [done|]|done]. by intros ?? [= <-] [= <-].
    + tauto.
Qed.

Lemma check_blocks_nil i bs m :
  check_blocks i bs m = [] <-> Forall block_ok bs /\ compat m (concat (map block_bindings bs)).
Proof.
  revert i m; induction bs as [|b bs IH]; intros i m; simpl.
  - split; [|done]. intros _. split; [constructor|].
    split; [by intros ??? ?%not_elem_of_nil|by intros ??? ?%not_elem_of_nil].
  - destruct (check_block_spec i b m) as [E1 E2].
    destruct (check_block i b m) as [ps m']; simpl in *. subst.
    rewrite app_nil_iff, IH, E2, compat_app, Forall_cons. tauto.
Qed.

Lemma validateSemantics_nil doc : validateSemantics doc = [] <-> doc_ok doc.
Proof.
  unfold validateSemantics, doc_ok, doc_bindings. rewrite app_nil_iff, check_blocks_nil.
  assert (Hc : forall l, compat ∅ l <-> one_window l).
  { intros l. unfold compat. split; [tauto|]. intros H; split; [|done].
    intros sg w w' _. by rewrite lookup_empty. }
  rewrite Hc. destruct (doc_Status doc) as [s|]; [rewrite checkTime_nil|]; naive_solver.
Qed.

(** ** The bindings the core reads *)

Lemma bind_lines_pairs d lines m :
  bind_lines d lines m = bind_pairs (map (fun l => (hl_Signal l, d)) lines) m.
Proof. unfold bind_lines, bind_pairs. revert m; induction lines; intros m; simpl; auto. Qed.

Lemma HistoryBindings_pairs doc :
  HistoryBindings doc = bind_pairs (prod_map id window_of <$> doc_bindings doc) ∅.
Proof.
  unfold HistoryBindings, doc_bindings. generalize (∅ : gmap string Duration) as m.
  induction (doc_Blocks doc) as [|b bs IH]; intros m; simpl; [done|].
  rewrite fmap_app, bind_pairs_app, <- IH. f_equal.
  destruct b; simpl; try done. destruct (bse_History b) as [h|]; simpl; [|done].
  rewrite bind_lines_pairs. f_equal. unfold fmap. rewrite list_fmap_alt, map_map. apply map_ext.
  intros l. unfold prod_map; simpl. f_equal.
  destruct (String.eqb (sh_Window h) "") eqn:E; bool_prop; [by rewrite E|done].
Qed.

Lemma document_limit_bound m : (0 < document_limit m <= MaxDocumentBytesHardCap)%Z.
Proof.
  unfold document_limit, MaxDocumentBytesHardCap, maxDocumentBytes.
  destruct (Z.leb_spec m 0); simpl; [lia|]. destruct (Z.ltb_spec (256 * 1024) m); lia.
Qed.

(** What [ValidateWithLimit] lets through. *)
Lemma ValidateWithLimit_Ok :
  forall Json (decode : string -> option Json) (schema : Json -> list string)
         (unmarshal : string -> res string Document) raw maxBytes doc,
  ValidateWithLimit Json decode schema unmarshal raw maxBytes = Ok doc <->
  (Z.of_nat (String.length raw) <= Z.min (document_limit maxBytes) MaxDocumentBytesHardCap)%Z
  /\ (exists j, decode raw = Some j /\ schema j = [])
  /\ unmarshal raw = Ok doc /\ doc_ok doc.
Proof.
  intros Json decode schema unmarshal raw maxBytes doc. unfold ValidateWithLimit.
  assert (Hb := document_limit_bound maxBytes). rewrite Z.min_l by lia.
  destruct (Z.ltb_spec (document_limit maxBytes) (Z.of_nat (String.length raw))); [naive_solver lia|].
  destruct (decode raw) as [j|]; [|naive_solver].
  destruct (unmarshal raw) as [d|e]; [|naive_solver].
  destruct (map SchemaProblem (schema j) ++ validateSemantics d) as [|q qs] eqn:E.
  - apply app_nil_iff in E as [E1%map_eq_nil E2%validateSemantics_nil]. naive_solver.
  - split; [done|]. intros (_ & (j' & [= <-] & Hs) & [= ->] & Hd%validateSemantics_nil).
    by rewrite Hs, Hd in E.
Qed.

(** ** The properties *)

(** [ValidateWithLimit] returns a document exactly when the input is within the requested
    limit (never above the 256 KiB hard cap), is JSON the schema accepts, decodes to that
    document, and the document is semantically valid: every timestamp is a real instant, the
    points of every series line are strictly increasing in time, min is not at or above max, no
    markdown holds an HTML tag opener or exceeds its length, and no signal is bound at two
    windows. *)
Theorem validate_exact :
  forall Json (decode : string -> option Json) (schema : Json -> list string)
         (unmarshal : string -> res string Document) raw maxBytes doc,
  ValidateWithLimit Json decode schema unmarshal raw maxBytes = Ok doc <->
  (Z.of_nat (String.length raw) <= Z.min (document_limit maxBytes) MaxDocumentBytesHardCap)%Z
  /\ (exists j, decode raw = Some j /\ schema j = [])
  /\ unmarshal raw = Ok doc /\ doc_ok doc.
Proof. exact ValidateWithLimit_Ok. Qed.

(** In a document that passes the semantic checks, [HistoryBindings] holds every signal a
    series block binds, at that block's own window, and nothing else. *)
Theorem history_bindings_exact doc :
  validateSemantics doc = [] ->
  forall sg d, HistoryBindings doc !! sg = Some d <->
    exists w, (sg, w) ∈ doc_bindings doc /\ d = window_of w.
Proof.
  intros Hv%validateSemantics_nil sg d. destruct Hv as (_ & _ & H1).
  rewrite HistoryBindings_pairs. split.
  - intros [H|[H _]]%bind_pairs_lookup; [|by rewrite lookup_empty in H].
    apply list_elem_of_fmap in H as ([s w] & [= -> ->] & Hw). eauto.
  - intros (w & Hw & ->).
    assert (Hp : (sg, window_of w) ∈ prod_map id window_of <$> doc_bindings doc)
      by (apply list_elem_of_fmap; by exists (sg, w)).
    destruct (bind_pairs_elem _ ∅ _ _ Hp) as [d Hd]. rewrite Hd.
    apply bind_pairs_lookup in Hd as [H|[H _]]; [|by rewrite lookup_empty in H].
    apply list_elem_of_fmap in H as ([s w'] & [= <- ->] & Hw'). f_equal. f_equal. by eapply H1.
Qed.

Definition sample_series (w : string) (ss : list string) : Block :=
  BSeries {| bse_Title := ""; bse_Emphasis := ""; bse_Format := ""; bse_Unit := "";
             bse_Min := None; bse_Max := None; bse_Series := [];
             bse_History := Some {| sh_Window := w;
               sh_Lines := map (fun s => {| hl_Signal := s; hl_Label := s; hl_Level := "" |}) ss |} |}.

Definition sample_doc (bs : list Block) : Document :=
  {| doc_Title := "t"; doc_Subtitle := ""; doc_Link := ""; doc_Status := None; doc_Blocks := bs;
     doc_Signals := ∅; doc_Notices := []; doc_Hints := None |}.

Example history_bindings_exact_witness :
  validateSemantics (sample_doc [sample_series "" ["cpu"]; sample_series "6h" ["mem"]]) = []
  /\ HistoryBindings (sample_doc [sample_series "" ["cpu"]; sample_series "6h" ["mem"]]) !! "cpu"
     = Some (24 * hour)%Z.
Proof.
  split; [reflexivity|].
  apply (proj2 (history_bindings_exact (sample_doc [sample_series "" ["cpu"]; sample_series "6h" ["mem"]])
                  eq_refl "cpu" (24 * hour)%Z)).
  exists "24h". split; [left | reflexivity].
Defined.

(** A signal bound at two windows is reported. *)
Example two_windows_refused :
  validateSemantics (sample_doc [sample_series "" ["cpu"]; sample_series "6h" ["cpu"]])
  = [AlreadyBound 1 "cpu" "24h"].
Proof. reflexivity. Qed.
