(* ===== verification/WidgetJSON.v ===== *)
(** * internal/widgets: the wire form of a Widget Document

    blocks.go's MarshalJSON and UnmarshalJSON with what encoding/json does for the struct tags of document.go and
    blocks.go: a field is found by its exact name or else without regard to case, a key met again is decoded into
    what is already there, null leaves a value alone, a value of another type fails the whole, and an [omitempty]
    field is left out when it is zero. Both sides work on the tree of a JSON text: an object's entries in their
    order, with repeated keys, and numbers as they are written. Reading and printing a float are arguments, and
    so is whether an empty slice or map is nil, which prints as null. Strings are valid UTF-8: Go replaces other bytes when it writes.
    Three things are not kept: the text of an error; the order in which Go sorts the keys of a map, and so of a block,
    when it writes them (an object's entries stand here in the order of the fields); and an array or object in the
    place of a scalar, which Go would keep, counts as a failure. *)
From S2P Require Import Prelude GoAny RoutePath GoTime TimeText Utf8 Widgets.
Create HintDb wire.

(** ** encoding/json *)

(** [foldName]: upper case over ASCII, with the two other runes that fold to an ASCII letter. *)
Definition fold_rune (r : N) : N :=
  if ((97 <=? r) && (r <=? 122))%N then (r - 32)%N else if N.eqb r 383 then 83%N else if N.eqb r 8490 then 75%N else r.
Definition foldName (s : string) : list N := map fold_rune (runes s).
Definition resolve (names : list string) (key : string) : option string :=
  if existsb (String.eqb key) names then Some key else List.find (fun n => bool_decide (foldName n = foldName key)) names.

(** Decoding into a value: the value after it, and whether something did not fit. *)
Definition decoder (A : Type) : Type := A -> any -> A * bool.

Definition values_of (names : list string) (name : string) (m : list (string * any)) : list any :=
  map snd (List.filter (fun e => bool_decide (resolve names e.1 = Some name)) m).
Definition decode_all {A} (d : decoder A) (old : A) (vs : list any) : A * bool :=
  foldl (fun st v => let '(a, bad) := d (fst st) v in (a, snd st || bad)) (old, false) vs.
Definition field {A} (names : list string) (name : string) (d : decoder A) (old : A) (m : list (string * any)) : A * bool :=
  decode_all d old (values_of names name m).
Definition d_object {A} (old : A) (v : any) (fields : list (string * any) -> A * bool) : A * bool :=
  match v with AMap m => fields m | ANil => (old, false) | _ => (old, true) end.

Definition d_string : decoder string := fun old v => match v with AString s => (s, false) | ANil => (old, false) | _ => (old, true) end.
Definition d_bool : decoder bool := fun old v => match v with ABool b => (b, false) | ANil => (old, false) | _ => (old, true) end.
Definition d_int : decoder Z := fun old v =>
  match v with ANumber s => match Atoi s with Some z => (z, false) | None => (old, true) end | ANil => (old, false) | _ => (old, true) end.
(** A raw message: the value as it stands. *)
Definition d_raw : decoder any := fun _ v => (v, false).
Definition d_ptr {A} (zero : A) (d : decoder A) : decoder (option A) := fun old v =>
  match v with ANil => (None, false) | _ => let '(a, bad) := d (default zero old) v in (Some a, bad) end.
(** The elements of a slice, into the ones that were there. *)
Fixpoint d_elements {A} (zero : A) (d : decoder A) (old : list A) (vs : list any) : list A * bool :=
  match vs with
  | [] => ([], false)
  | v :: rest =>
      let '(a, bad) := d (hd zero old) v in
      let '(l, bad') := d_elements zero d (tail old) rest in (a :: l, bad || bad')
  end.
Definition d_slice {A} (zero : A) (d : decoder A) : decoder (list A) := fun old v =>
  match v with AList vs => d_elements zero d old vs | ANil => ([], false) | _ => (old, true) end.
Definition d_map {A} (zero : A) (d : decoder A) : decoder (gmap string A) := fun old v =>
  match v with
  | AMap m => foldl (fun st e => let '(a, bad) := d zero e.2 in (<[e.1 := a]> (fst st), snd st || bad)) (old, false) m
  | ANil => (∅, false)
  | _ => (old, true)
  end.

Definition float_zero : Float64 := SpecFloat.S754_zero false.
(** A double that is neither an infinity nor NaN. *)
Definition finite (f : Float64) : bool :=
  SpecFloat.valid_binary 53 1024 f && match f with SpecFloat.S754_zero _ | SpecFloat.S754_finite _ _ _ => true | _ => false end.

Section Wire.
Variable ParseFloat : string -> option Float64.
Variable fmt_float : Float64 -> string.
Variable nil_slice : bool.
(** The value of the JSON text made by putting quotes around a name that needs escapes, if it is one. *)
Variable raw_text : string -> option any.

Definition d_float : decoder Float64 := fun old v =>
  match v with ANumber s => match ParseFloat s with Some f => (f, false) | None => (old, true) end | ANil => (old, false) | _ => (old, true) end.
Definition d_scalar : decoder Scalar := fun old v =>
  match v with
  | AString s => (SString s, false) | ABool b => (SBool b, false) | ANil => (SNull, false)
  | ANumber s => match ParseFloat s with Some f => (SNumber f, false) | None => (old, true) end
  | _ => (old, true)
  end.

(** A float that is not finite has no text; it stays in the tree and fails the whole. *)
Definition e_float (f : Float64) : any := if finite f then ANumber (fmt_float f) else AFloat f.
Definition e_int (z : Z) : any := ANumber (decimal z).
Definition e_scalar (s : Scalar) : any := match s with SString s => AString s | SNumber f => e_float f | SBool b => ABool b | SNull => ANil end.
Definition e_ptr {A} (e : A -> any) (x : option A) : any := match x with Some a => e a | None => ANil end.
Definition e_slice {A} (e : A -> any) (l : list A) : any := match l with [] => if nil_slice then ANil else AList [] | _ => AList (map e l) end.
Definition e_map {A} (e : A -> any) (m : gmap string A) : any :=
  if bool_decide (m = ∅) && nil_slice then ANil else AMap (map (fun p => (p.1, e p.2)) (map_to_list m)).
Definition omit (empty : bool) (name : string) (v : any) : list (string * any) := if empty then [] else [(name, v)].
Definition is_null (s : Scalar) : bool := match s with SNull => true | _ => false end.
Definition is_none {A} (x : option A) : bool := match x with None => true | Some _ => false end.
Definition is_empty {A} (l : list A) : bool := match l with [] => true | _ => false end.

(** ** The structs *)

Definition Status_zero : Status := {| st_Level := ""; st_Text := ""; st_Since := "" |}.
Definition Signal_zero : Signal := {| sig_Value := SNull; sig_Unit := ""; sig_Level := "" |}.
Definition Notice_zero : Notice := {| no_Level := ""; no_Message := "" |}.
Definition Hints_zero : Hints := {| TTLSeconds := 0%Z |}.
Definition Image_zero : Image := {| img_Ref := ""; img_Alt := ""; img_Aspect := ""; img_Blurhash := "" |}.
Definition MetricItem_zero : MetricItem := {| mi_Label := ""; mi_Value := SNull; mi_Format := ""; mi_Unit := ""; mi_Level := ""; mi_Icon := ""; mi_Link := "" |}.
Definition ProgressItem_zero : ProgressItem := {| pi_Label := ""; pi_Progress := float_zero; pi_Value := SNull; pi_Format := ""; pi_Level := "" |}.
Definition StatusItem_zero : StatusItem := {| si_Label := ""; si_Level := ""; si_Text := ""; si_Since := ""; si_Link := "" |}.
Definition ListItem_zero : ListItem := {| li_ID := ""; li_Title := ""; li_Subtitle := ""; li_Value := SNull; li_Format := ""; li_Level := ""; li_Icon := ""; li_Image := None; li_Link := ""; li_Timestamp := "" |}.
Definition MediaItem_zero : MediaItem := {| me_ID := ""; me_Image := Image_zero; me_Title := ""; me_Subtitle := ""; me_Badge := ""; me_Level := ""; me_Link := ""; me_Timestamp := "" |}.
Definition TableColumn_zero : TableColumn := {| tc_Key := ""; tc_Label := ""; tc_Format := ""; tc_Align := "" |}.
Definition Action_zero : Action := {| ac_ID := ""; ac_Label := ""; ac_Icon := ""; ac_Confirm := false; ac_Danger := false |}.
Definition SeriesPoint_zero : SeriesPoint := {| sp_T := ""; sp_V := None |}.
Definition SeriesLine_zero : SeriesLine := {| sl_Label := ""; sl_Level := ""; sl_Points := [] |}.
Definition HistoryLine_zero : HistoryLine := {| hl_Signal := ""; hl_Label := ""; hl_Level := "" |}.
Definition SeriesHistory_zero : SeriesHistory := {| sh_Window := ""; sh_Lines := [] |}.
Definition BlockMetrics_zero : BlockMetrics := {| bm_Title := ""; bm_Emphasis := ""; bm_Columns := 0%Z; bm_Items := [] |}.
Definition BlockKeyValue_zero : BlockKeyValue := {| bk_Title := ""; bk_Emphasis := ""; bk_Items := [] |}.
Definition BlockProgress_zero : BlockProgress := {| bp_Title := ""; bp_Emphasis := ""; bp_Items := [] |}.
Definition BlockStatus_zero : BlockStatus := {| bs_Title := ""; bs_Emphasis := ""; bs_Items := [] |}.
Definition BlockList_zero : BlockList := {| bl_Title := ""; bl_Emphasis := ""; bl_Empty := ""; bl_Items := [] |}.
Definition BlockMedia_zero : BlockMedia := {| bmd_Kind := ""; bmd_Title := ""; bmd_Emphasis := ""; bmd_Columns := 0%Z; bmd_Empty := ""; bmd_Items := [] |}.
Definition BlockText_zero : BlockText := {| bt_Kind := ""; bt_Title := ""; bt_Emphasis := ""; bt_Level := ""; bt_Content := "" |}.
Definition BlockTable_zero : BlockTable := {| btb_Title := ""; btb_Emphasis := ""; btb_Columns := []; btb_Rows := [] |}.
Definition BlockActions_zero : BlockActions := {| ba_Title := ""; ba_Emphasis := ""; ba_Actions := [] |}.
Definition BlockSeries_zero : BlockSeries := {| bse_Title := ""; bse_Emphasis := ""; bse_Format := ""; bse_Unit := ""; bse_Min := None; bse_Max := None; bse_Series := []; bse_History := None |}.

Definition Status_names : list string := ["level"; "text"; "since"].
Definition d_Status : decoder Status := fun old v => d_object old v (fun m =>
      let f_level := field Status_names "level" d_string (st_Level old) m in
      let f_text := field Status_names "text" d_string (st_Text old) m in
      let f_since := field Status_names "since" d_string (st_Since old) m in
      ({| st_Level := f_level.1; st_Text := f_text.1; st_Since := f_since.1 |}, f_level.2 || f_text.2 || f_since.2)).
Definition Signal_names : list string := ["value"; "unit"; "level"].
Definition d_Signal : decoder Signal := fun old v => d_object old v (fun m =>
      let f_value := field Signal_names "value" d_scalar (sig_Value old) m in
      let f_unit := field Signal_names "unit" d_string (sig_Unit old) m in
      let f_level := field Signal_names "level" d_string (sig_Level old) m in
      ({| sig_Value := f_value.1; sig_Unit := f_unit.1; sig_Level := f_level.1 |}, f_value.2 || f_unit.2 || f_level.2)).
Definition Notice_names : list string := ["level"; "message"].
Definition d_Notice : decoder Notice := fun old v => d_object old v (fun m =>
      let f_level := field Notice_names "level" d_string (no_Level old) m in
      let f_message := field Notice_names "message" d_string (no_Message old) m in
      ({| no_Level := f_level.1; no_Message := f_message.1 |}, f_level.2 || f_message.2)).
Definition Hints_names : list string := ["ttlSeconds"].
Definition d_Hints : decoder Hints := fun old v => d_object old v (fun m =>
      let f_ttlSeconds := field Hints_names "ttlSeconds" d_int (TTLSeconds old) m in
      ({| TTLSeconds := f_ttlSeconds.1 |}, f_ttlSeconds.2)).
Definition Image_names : list string := ["ref"; "alt"; "aspect"; "blurhash"].
Definition d_Image : decoder Image := fun old v => d_object old v (fun m =>
      let f_ref := field Image_names "ref" d_string (img_Ref old) m in
      let f_alt := field Image_names "alt" d_string (img_Alt old) m in
      let f_aspect := field Image_names "aspect" d_string (img_Aspect old) m in
      let f_blurhash := field Image_names "blurhash" d_string (img_Blurhash old) m in
      ({| img_Ref := f_ref.1; img_Alt := f_alt.1; img_Aspect := f_aspect.1; img_Blurhash := f_blurhash.1 |}, f_ref.2 || f_alt.2 || f_aspect.2 || f_blurhash.2)).
Definition MetricItem_names : list string := ["label"; "value"; "format"; "unit"; "level"; "icon"; "link"].
Definition d_MetricItem : decoder MetricItem := fun old v => d_object old v (fun m =>
      let f_label := field MetricItem_names "label" d_string (mi_Label old) m in
      let f_value := field MetricItem_names "value" d_scalar (mi_Value old) m in
      let f_format := field MetricItem_names "format" d_string (mi_Format old) m in
      let f_unit := field MetricItem_names "unit" d_string (mi_Unit old) m in
      let f_level := field MetricItem_names "level" d_string (mi_Level old) m in
      let f_icon := field MetricItem_names "icon" d_string (mi_Icon old) m in
      let f_link := field MetricItem_names "link" d_string (mi_Link old) m in
      ({| mi_Label := f_label.1; mi_Value := f_value.1; mi_Format := f_format.1; mi_Unit := f_unit.1; mi_Level := f_level.1; mi_Icon := f_icon.1; mi_Link := f_link.1 |}, f_label.2 || f_value.2 || f_format.2 || f_unit.2 || f_level.2 || f_icon.2 || f_link.2)).
Definition ProgressItem_names : list string := ["label"; "progress"; "value"; "format"; "level"].
Definition d_ProgressItem : decoder ProgressItem := fun old v => d_object old v (fun m =>
      let f_label := field ProgressItem_names "label" d_string (pi_Label old) m in
      let f_progress := field ProgressItem_names "progress" d_float (pi_Progress old) m in
      let f_value := field ProgressItem_names "value" d_scalar (pi_Value old) m in
      let f_format := field ProgressItem_names "format" d_string (pi_Format old) m in
      let f_level := field ProgressItem_names "level" d_string (pi_Level old) m in
      ({| pi_Label := f_label.1; pi_Progress := f_progress.1; pi_Value := f_value.1; pi_Format := f_format.1; pi_Level := f_level.1 |}, f_label.2 || f_progress.2 || f_value.2 || f_format.2 || f_level.2)).
Definition StatusItem_names : list string := ["label"; "level"; "text"; "since"; "link"].
Definition d_StatusItem : decoder StatusItem := fun old v => d_object old v (fun m =>
      let f_label := field StatusItem_names "label" d_string (si_Label old) m in
      let f_level := field StatusItem_names "level" d_string (si_Level old) m in
      let f_text := field StatusItem_names "text" d_string (si_Text old) m in
      let f_since := field StatusItem_names "since" d_string (si_Since old) m in
      let f_link := field StatusItem_names "link" d_string (si_Link old) m in
      ({| si_Label := f_label.1; si_Level := f_level.1; si_Text := f_text.1; si_Since := f_since.1; si_Link := f_link.1 |}, f_label.2 || f_level.2 || f_text.2 || f_since.2 || f_link.2)).
Definition ListItem_names : list string := ["id"; "title"; "subtitle"; "value"; "format"; "level"; "icon"; "image"; "link"; "timestamp"].
Definition d_ListItem : decoder ListItem := fun old v => d_object old v (fun m =>
      let f_id := field ListItem_names "id" d_string (li_ID old) m in
      let f_title := field ListItem_names "title" d_string (li_Title old) m in
      let f_subtitle := field ListItem_names "subtitle" d_string (li_Subtitle old) m in
      let f_value := field ListItem_names "value" d_scalar (li_Value old) m in
      let f_format := field ListItem_names "format" d_string (li_Format old) m in
      let f_level := field ListItem_names "level" d_string (li_Level old) m in
      let f_icon := field ListItem_names "icon" d_string (li_Icon old) m in
      let f_image := field ListItem_names "image" (d_ptr Image_zero d_Image) (li_Image old) m in
      let f_link := field ListItem_names "link" d_string (li_Link old) m in
      let f_timestamp := field ListItem_names "timestamp" d_string (li_Timestamp old) m in
      ({| li_ID := f_id.1; li_Title := f_title.1; li_Subtitle := f_subtitle.1; li_Value := f_value.1; li_Format := f_format.1; li_Level := f_level.1; li_Icon := f_icon.1; li_Image := f_image.1; li_Link := f_link.1; li_Timestamp := f_timestamp.1 |}, f_id.2 || f_title.2 || f_subtitle.2 || f_value.2 || f_format.2 || f_level.2 || f_icon.2 || f_image.2 || f_link.2 || f_timestamp.2)).
Definition MediaItem_names : list string := ["id"; "image"; "title"; "subtitle"; "badge"; "level"; "link"; "timestamp"].
Definition d_MediaItem : decoder MediaItem := fun old v => d_object old v (fun m =>
      let f_id := field MediaItem_names "id" d_string (me_ID old) m in
      let f_image := field MediaItem_names "image" d_Image (me_Image old) m in
      let f_title := field MediaItem_names "title" d_string (me_Title old) m in
      let f_subtitle := field MediaItem_names "subtitle" d_string (me_Subtitle old) m in
      let f_badge := field MediaItem_names "badge" d_string (me_Badge old) m in
      let f_level := field MediaItem_names "level" d_string (me_Level old) m in
      let f_link := field MediaItem_names "link" d_string (me_Link old) m in
      let f_timestamp := field MediaItem_names "timestamp" d_string (me_Timestamp old) m in
      ({| me_ID := f_id.1; me_Image := f_image.1; me_Title := f_title.1; me_Subtitle := f_subtitle.1; me_Badge := f_badge.1; me_Level := f_level.1; me_Link := f_link.1; me_Timestamp := f_timestamp.1 |}, f_id.2 || f_image.2 || f_title.2 || f_subtitle.2 || f_badge.2 || f_level.2 || f_link.2 || f_timestamp.2)).
Definition TableColumn_names : list string := ["key"; "label"; "format"; "align"].
Definition d_TableColumn : decoder TableColumn := fun old v => d_object old v (fun m =>
      let f_key := field TableColumn_names "key" d_string (tc_Key old) m in
      let f_label := field TableColumn_names "label" d_string (tc_Label old) m in
      let f_format := field TableColumn_names "format" d_string (tc_Format old) m in
      let f_align := field TableColumn_names "align" d_string (tc_Align old) m in
      ({| tc_Key := f_key.1; tc_Label := f_label.1; tc_Format := f_format.1; tc_Align := f_align.1 |}, f_key.2 || f_label.2 || f_format.2 || f_align.2)).
Definition Action_names : list string := ["id"; "label"; "icon"; "confirm"; "danger"].
Definition d_Action : decoder Action := fun old v => d_object old v (fun m =>
      let f_id := field Action_names "id" d_string (ac_ID old) m in
      let f_label := field Action_names "label" d_string (ac_Label old) m in
      let f_icon := field Action_names "icon" d_string (ac_Icon old) m in
      let f_confirm := field Action_names "confirm" d_bool (ac_Confirm old) m in
      let f_danger := field Action_names "danger" d_bool (ac_Danger old) m in
      ({| ac_ID := f_id.1; ac_Label := f_label.1; ac_Icon := f_icon.1; ac_Confirm := f_confirm.1; ac_Danger := f_danger.1 |}, f_id.2 || f_label.2 || f_icon.2 || f_confirm.2 || f_danger.2)).
Definition SeriesPoint_names : list string := ["t"; "v"].
Definition d_SeriesPoint : decoder SeriesPoint := fun old v => d_object old v (fun m =>
      let f_t := field SeriesPoint_names "t" d_string (sp_T old) m in
      let f_v := field SeriesPoint_names "v" (d_ptr float_zero d_float) (sp_V old) m in
      ({| sp_T := f_t.1; sp_V := f_v.1 |}, f_t.2 || f_v.2)).
Definition SeriesLine_names : list string := ["label"; "level"; "points"].
Definition d_SeriesLine : decoder SeriesLine := fun old v => d_object old v (fun m =>
      let f_label := field SeriesLine_names "label" d_string (sl_Label old) m in
      let f_level := field SeriesLine_names "level" d_string (sl_Level old) m in
      let f_points := field SeriesLine_names "points" (d_slice SeriesPoint_zero d_SeriesPoint) (sl_Points old) m in
      ({| sl_Label := f_label.1; sl_Level := f_level.1; sl_Points := f_points.1 |}, f_label.2 || f_level.2 || f_points.2)).
Definition HistoryLine_names : list string := ["signal"; "label"; "level"].
Definition d_HistoryLine : decoder HistoryLine := fun old v => d_object old v (fun m =>
      let f_signal := field HistoryLine_names "signal" d_string (hl_Signal old) m in
      let f_label := field HistoryLine_names "label" d_string (hl_Label old) m in
      let f_level := field HistoryLine_names "level" d_string (hl_Level old) m in
      ({| hl_Signal := f_signal.1; hl_Label := f_label.1; hl_Level := f_level.1 |}, f_signal.2 || f_label.2 || f_level.2)).
Definition SeriesHistory_names : list string := ["window"; "lines"].
Definition d_SeriesHistory : decoder SeriesHistory := fun old v => d_object old v (fun m =>
      let f_window := field SeriesHistory_names "window" d_string (sh_Window old) m in
      let f_lines := field SeriesHistory_names "lines" (d_slice HistoryLine_zero d_HistoryLine) (sh_Lines old) m in
      ({| sh_Window := f_window.1; sh_Lines := f_lines.1 |}, f_window.2 || f_lines.2)).
Definition BlockMetrics_names : list string := ["title"; "emphasis"; "columns"; "items"].
Definition d_BlockMetrics : decoder BlockMetrics := fun old v => d_object old v (fun m =>
      let f_title := field BlockMetrics_names "title" d_string (bm_Title old) m in
      let f_emphasis := field BlockMetrics_names "emphasis" d_string (bm_Emphasis old) m in
      let f_columns := field BlockMetrics_names "columns" d_int (bm_Columns old) m in
      let f_items := field BlockMetrics_names "items" (d_slice MetricItem_zero d_MetricItem) (bm_Items old) m in
      ({| bm_Title := f_title.1; bm_Emphasis := f_emphasis.1; bm_Columns := f_columns.1; bm_Items := f_items.1 |}, f_title.2 || f_emphasis.2 || f_columns.2 || f_items.2)).
Definition BlockKeyValue_names : list string := ["title"; "emphasis"; "items"].
Definition d_BlockKeyValue : decoder BlockKeyValue := fun old v => d_object old v (fun m =>
      let f_title := field BlockKeyValue_names "title" d_string (bk_Title old) m in
      let f_emphasis := field BlockKeyValue_names "emphasis" d_string (bk_Emphasis old) m in
      let f_items := field BlockKeyValue_names "items" (d_slice MetricItem_zero d_MetricItem) (bk_Items old) m in
      ({| bk_Title := f_title.1; bk_Emphasis := f_emphasis.1; bk_Items := f_items.1 |}, f_title.2 || f_emphasis.2 || f_items.2)).
Definition BlockProgress_names : list string := ["title"; "emphasis"; "items"].
Definition d_BlockProgress : decoder BlockProgress := fun old v => d_object old v (fun m =>
      let f_title := field BlockProgress_names "title" d_string (bp_Title old) m in
      let f_emphasis := field BlockProgress_names "emphasis" d_string (bp_Emphasis old) m in
      let f_items := field BlockProgress_names "items" (d_slice ProgressItem_zero d_ProgressItem) (bp_Items old) m in
      ({| bp_Title := f_title.1; bp_Emphasis := f_emphasis.1; bp_Items := f_items.1 |}, f_title.2 || f_emphasis.2 || f_items.2)).
Definition BlockStatus_names : list string := ["title"; "emphasis"; "items"].
Definition d_BlockStatus : decoder BlockStatus := fun old v => d_object old v (fun m =>
      let f_title := field BlockStatus_names "title" d_string (bs_Title old) m in
      let f_emphasis := field BlockStatus_names "emphasis" d_string (bs_Emphasis old) m in
      let f_items := field BlockStatus_names "items" (d_slice StatusItem_zero d_StatusItem) (bs_Items old) m in
      ({| bs_Title := f_title.1; bs_Emphasis := f_emphasis.1; bs_Items := f_items.1 |}, f_title.2 || f_emphasis.2 || f_items.2)).
Definition BlockList_names : list string := ["title"; "emphasis"; "empty"; "items"].
Definition d_BlockList : decoder BlockList := fun old v => d_object old v (fun m =>
      let f_title := field BlockList_names "title" d_string (bl_Title old) m in
      let f_emphasis := field BlockList_names "emphasis" d_string (bl_Emphasis old) m in
      let f_empty := field BlockList_names "empty" d_string (bl_Empty old) m in
      let f_items := field BlockList_names "items" (d_slice ListItem_zero d_ListItem) (bl_Items old) m in
      ({| bl_Title := f_title.1; bl_Emphasis := f_emphasis.1; bl_Empty := f_empty.1; bl_Items := f_items.1 |}, f_title.2 || f_emphasis.2 || f_empty.2 || f_items.2)).
Definition BlockMedia_names : list string := ["title"; "emphasis"; "columns"; "empty"; "items"].
Definition d_BlockMedia : decoder BlockMedia := fun old v => d_object old v (fun m =>
      let f_title := field BlockMedia_names "title" d_string (bmd_Title old) m in
      let f_emphasis := field BlockMedia_names "emphasis" d_string (bmd_Emphasis old) m in
      let f_columns := field BlockMedia_names "columns" d_int (bmd_Columns old) m in
      let f_empty := field BlockMedia_names "empty" d_string (bmd_Empty old) m in
      let f_items := field BlockMedia_names "items" (d_slice MediaItem_zero d_MediaItem) (bmd_Items old) m in
      ({| bmd_Kind := bmd_Kind old; bmd_Title := f_title.1; bmd_Emphasis := f_emphasis.1; bmd_Columns := f_columns.1; bmd_Empty := f_empty.1; bmd_Items := f_items.1 |}, f_title.2 || f_emphasis.2 || f_columns.2 || f_empty.2 || f_items.2)).
Definition BlockText_names : list string := ["title"; "emphasis"; "level"; "content"].
Definition d_BlockText : decoder BlockText := fun old v => d_object old v (fun m =>
      let f_title := field BlockText_names "title" d_string (bt_Title old) m in
      let f_emphasis := field BlockText_names "emphasis" d_string (bt_Emphasis old) m in
      let f_level := field BlockText_names "level" d_string (bt_Level old) m in
      let f_content := field BlockText_names "content" d_string (bt_Content old) m in
      ({| bt_Kind := bt_Kind old; bt_Title := f_title.1; bt_Emphasis := f_emphasis.1; bt_Level := f_level.1; bt_Content := f_content.1 |}, f_title.2 || f_emphasis.2 || f_level.2 || f_content.2)).
Definition BlockTable_names : list string := ["title"; "emphasis"; "columns"; "rows"].
Definition d_BlockTable : decoder BlockTable := fun old v => d_object old v (fun m =>
      let f_title := field BlockTable_names "title" d_string (btb_Title old) m in
      let f_emphasis := field BlockTable_names "emphasis" d_string (btb_Emphasis old) m in
      let f_columns := field BlockTable_names "columns" (d_slice TableColumn_zero d_TableColumn) (btb_Columns old) m in
      let f_rows := field BlockTable_names "rows" (d_slice ∅ (d_map SNull d_scalar)) (btb_Rows old) m in
      ({| btb_Title := f_title.1; btb_Emphasis := f_emphasis.1; btb_Columns := f_columns.1; btb_Rows := f_rows.1 |}, f_title.2 || f_emphasis.2 || f_columns.2 || f_rows.2)).
Definition BlockActions_names : list string := ["title"; "emphasis"; "actions"].
Definition d_BlockActions : decoder BlockActions := fun old v => d_object old v (fun m =>
      let f_title := field BlockActions_names "title" d_string (ba_Title old) m in
      let f_emphasis := field BlockActions_names "emphasis" d_string (ba_Emphasis old) m in
      let f_actions := field BlockActions_names "actions" (d_slice Action_zero d_Action) (ba_Actions old) m in
      ({| ba_Title := f_title.1; ba_Emphasis := f_emphasis.1; ba_Actions := f_actions.1 |}, f_title.2 || f_emphasis.2 || f_actions.2)).
Definition BlockSeries_names : list string := ["title"; "emphasis"; "format"; "unit"; "min"; "max"; "series"; "history"].
Definition d_BlockSeries : decoder BlockSeries := fun old v => d_object old v (fun m =>
      let f_title := field BlockSeries_names "title" d_string (bse_Title old) m in
      let f_emphasis := field BlockSeries_names "emphasis" d_string (bse_Emphasis old) m in
      let f_format := field BlockSeries_names "format" d_string (bse_Format old) m in
      let f_unit := field BlockSeries_names "unit" d_string (bse_Unit old) m in
      let f_min := field BlockSeries_names "min" (d_ptr float_zero d_float) (bse_Min old) m in
      let f_max := field BlockSeries_names "max" (d_ptr float_zero d_float) (bse_Max old) m in
      let f_series := field BlockSeries_names "series" (d_slice SeriesLine_zero d_SeriesLine) (bse_Series old) m in
      let f_history := field BlockSeries_names "history" (d_ptr SeriesHistory_zero d_SeriesHistory) (bse_History old) m in
      ({| bse_Title := f_title.1; bse_Emphasis := f_emphasis.1; bse_Format := f_format.1; bse_Unit := f_unit.1; bse_Min := f_min.1; bse_Max := f_max.1; bse_Series := f_series.1; bse_History := f_history.1 |}, f_title.2 || f_emphasis.2 || f_format.2 || f_unit.2 || f_min.2 || f_max.2 || f_series.2 || f_history.2)).

Definition e_Status (x : Status) : any := AMap ([("level", AString (st_Level x))] ++ omit (String.eqb (st_Text x) "") "text" (AString (st_Text x)) ++ omit (String.eqb (st_Since x) "") "since" (AString (st_Since x))).
Definition e_Signal (x : Signal) : any := AMap ([("value", e_scalar (sig_Value x))] ++ omit (String.eqb (sig_Unit x) "") "unit" (AString (sig_Unit x)) ++ omit (String.eqb (sig_Level x) "") "level" (AString (sig_Level x))).
Definition e_Notice (x : Notice) : any := AMap ([("level", AString (no_Level x))] ++ [("message", AString (no_Message x))]).
Definition e_Hints (x : Hints) : any := AMap (omit (Z.eqb (TTLSeconds x) 0) "ttlSeconds" (e_int (TTLSeconds x))).
Definition e_Image (x : Image) : any := AMap ([("ref", AString (img_Ref x))] ++ omit (String.eqb (img_Alt x) "") "alt" (AString (img_Alt x)) ++ omit (String.eqb (img_Aspect x) "") "aspect" (AString (img_Aspect x)) ++ omit (String.eqb (img_Blurhash x) "") "blurhash" (AString (img_Blurhash x))).
Definition e_MetricItem (x : MetricItem) : any := AMap ([("label", AString (mi_Label x))] ++ [("value", e_scalar (mi_Value x))] ++ omit (String.eqb (mi_Format x) "") "format" (AString (mi_Format x)) ++ omit (String.eqb (mi_Unit x) "") "unit" (AString (mi_Unit x)) ++ omit (String.eqb (mi_Level x) "") "level" (AString (mi_Level x)) ++ omit (String.eqb (mi_Icon x) "") "icon" (AString (mi_Icon x)) ++ omit (String.eqb (mi_Link x) "") "link" (AString (mi_Link x))).
Definition e_ProgressItem (x : ProgressItem) : any := AMap ([("label", AString (pi_Label x))] ++ [("progress", e_float (pi_Progress x))] ++ omit (is_null (pi_Value x)) "value" (e_scalar (pi_Value x)) ++ omit (String.eqb (pi_Format x) "") "format" (AString (pi_Format x)) ++ omit (String.eqb (pi_Level x) "") "level" (AString (pi_Level x))).
Definition e_StatusItem (x : StatusItem) : any := AMap ([("label", AString (si_Label x))] ++ [("level", AString (si_Level x))] ++ omit (String.eqb (si_Text x) "") "text" (AString (si_Text x)) ++ omit (String.eqb (si_Since x) "") "since" (AString (si_Since x)) ++ omit (String.eqb (si_Link x) "") "link" (AString (si_Link x))).
Definition e_ListItem (x : ListItem) : any := AMap (omit (String.eqb (li_ID x) "") "id" (AString (li_ID x)) ++ [("title", AString (li_Title x))] ++ omit (String.eqb (li_Subtitle x) "") "subtitle" (AString (li_Subtitle x)) ++ omit (is_null (li_Value x)) "value" (e_scalar (li_Value x)) ++ omit (String.eqb (li_Format x) "") "format" (AString (li_Format x)) ++ omit (String.eqb (li_Level x) "") "level" (AString (li_Level x)) ++ omit (String.eqb (li_Icon x) "") "icon" (AString (li_Icon x)) ++ omit (is_none (li_Image x)) "image" (e_ptr e_Image (li_Image x)) ++ omit (String.eqb (li_Link x) "") "link" (AString (li_Link x)) ++ omit (String.eqb (li_Timestamp x) "") "timestamp" (AString (li_Timestamp x))).
Definition e_MediaItem (x : MediaItem) : any := AMap (omit (String.eqb (me_ID x) "") "id" (AString (me_ID x)) ++ [("image", e_Image (me_Image x))] ++ omit (String.eqb (me_Title x) "") "title" (AString (me_Title x)) ++ omit (String.eqb (me_Subtitle x) "") "subtitle" (AString (me_Subtitle x)) ++ omit (String.eqb (me_Badge x) "") "badge" (AString (me_Badge x)) ++ omit (String.eqb (me_Level x) "") "level" (AString (me_Level x)) ++ omit (String.eqb (me_Link x) "") "link" (AString (me_Link x)) ++ omit (String.eqb (me_Timestamp x) "") "timestamp" (AString (me_Timestamp x))).
Definition e_TableColumn (x : TableColumn) : any := AMap ([("key", AString (tc_Key x))] ++ omit (String.eqb (tc_Label x) "") "label" (AString (tc_Label x)) ++ omit (String.eqb (tc_Format x) "") "format" (AString (tc_Format x)) ++ omit (String.eqb (tc_Align x) "") "align" (AString (tc_Align x))).
Definition e_Action (x : Action) : any := AMap ([("id", AString (ac_ID x))] ++ [("label", AString (ac_Label x))] ++ omit (String.eqb (ac_Icon x) "") "icon" (AString (ac_Icon x)) ++ omit (negb (ac_Confirm x)) "confirm" (ABool (ac_Confirm x)) ++ omit (negb (ac_Danger x)) "danger" (ABool (ac_Danger x))).
Definition e_SeriesPoint (x : SeriesPoint) : any := AMap ([("t", AString (sp_T x))] ++ [("v", e_ptr e_float (sp_V x))]).
Definition e_SeriesLine (x : SeriesLine) : any := AMap ([("label", AString (sl_Label x))] ++ omit (String.eqb (sl_Level x) "") "level" (AString (sl_Level x)) ++ [("points", e_slice e_SeriesPoint (sl_Points x))]).
Definition e_HistoryLine (x : HistoryLine) : any := AMap ([("signal", AString (hl_Signal x))] ++ [("label", AString (hl_Label x))] ++ omit (String.eqb (hl_Level x) "") "level" (AString (hl_Level x))).
Definition e_SeriesHistory (x : SeriesHistory) : any := AMap (omit (String.eqb (sh_Window x) "") "window" (AString (sh_Window x)) ++ [("lines", e_slice e_HistoryLine (sh_Lines x))]).
Definition e_BlockMetrics (x : BlockMetrics) : any := AMap (omit (String.eqb (bm_Title x) "") "title" (AString (bm_Title x)) ++ omit (String.eqb (bm_Emphasis x) "") "emphasis" (AString (bm_Emphasis x)) ++ omit (Z.eqb (bm_Columns x) 0) "columns" (e_int (bm_Columns x)) ++ [("items", e_slice e_MetricItem (bm_Items x))]).
Definition e_BlockKeyValue (x : BlockKeyValue) : any := AMap (omit (String.eqb (bk_Title x) "") "title" (AString (bk_Title x)) ++ omit (String.eqb (bk_Emphasis x) "") "emphasis" (AString (bk_Emphasis x)) ++ [("items", e_slice e_MetricItem (bk_Items x))]).
Definition e_BlockProgress (x : BlockProgress) : any := AMap (omit (String.eqb (bp_Title x) "") "title" (AString (bp_Title x)) ++ omit (String.eqb (bp_Emphasis x) "") "emphasis" (AString (bp_Emphasis x)) ++ [("items", e_slice e_ProgressItem (bp_Items x))]).
Definition e_BlockStatus (x : BlockStatus) : any := AMap (omit (String.eqb (bs_Title x) "") "title" (AString (bs_Title x)) ++ omit (String.eqb (bs_Emphasis x) "") "emphasis" (AString (bs_Emphasis x)) ++ [("items", e_slice e_StatusItem (bs_Items x))]).
Definition e_BlockList (x : BlockList) : any := AMap (omit (String.eqb (bl_Title x) "") "title" (AString (bl_Title x)) ++ omit (String.eqb (bl_Emphasis x) "") "emphasis" (AString (bl_Emphasis x)) ++ omit (String.eqb (bl_Empty x) "") "empty" (AString (bl_Empty x)) ++ [("items", e_slice e_ListItem (bl_Items x))]).
Definition e_BlockMedia (x : BlockMedia) : any := AMap (omit (String.eqb (bmd_Title x) "") "title" (AString (bmd_Title x)) ++ omit (String.eqb (bmd_Emphasis x) "") "emphasis" (AString (bmd_Emphasis x)) ++ omit (Z.eqb (bmd_Columns x) 0) "columns" (e_int (bmd_Columns x)) ++ omit (String.eqb (bmd_Empty x) "") "empty" (AString (bmd_Empty x)) ++ [("items", e_slice e_MediaItem (bmd_Items x))]).
Definition e_BlockText (x : BlockText) : any := AMap (omit (String.eqb (bt_Title x) "") "title" (AString (bt_Title x)) ++ omit (String.eqb (bt_Emphasis x) "") "emphasis" (AString (bt_Emphasis x)) ++ omit (String.eqb (bt_Level x) "") "level" (AString (bt_Level x)) ++ [("content", AString (bt_Content x))]).
Definition e_BlockTable (x : BlockTable) : any := AMap (omit (String.eqb (btb_Title x) "") "title" (AString (btb_Title x)) ++ omit (String.eqb (btb_Emphasis x) "") "emphasis" (AString (btb_Emphasis x)) ++ [("columns", e_slice e_TableColumn (btb_Columns x))] ++ [("rows", e_slice (e_map e_scalar) (btb_Rows x))]).
Definition e_BlockActions (x : BlockActions) : any := AMap (omit (String.eqb (ba_Title x) "") "title" (AString (ba_Title x)) ++ omit (String.eqb (ba_Emphasis x) "") "emphasis" (AString (ba_Emphasis x)) ++ [("actions", e_slice e_Action (ba_Actions x))]).
Definition e_BlockSeries (x : BlockSeries) : any := AMap (omit (String.eqb (bse_Title x) "") "title" (AString (bse_Title x)) ++ omit (String.eqb (bse_Emphasis x) "") "emphasis" (AString (bse_Emphasis x)) ++ omit (String.eqb (bse_Format x) "") "format" (AString (bse_Format x)) ++ omit (String.eqb (bse_Unit x) "") "unit" (AString (bse_Unit x)) ++ omit (is_none (bse_Min x)) "min" (e_ptr e_float (bse_Min x)) ++ omit (is_none (bse_Max x)) "max" (e_ptr e_float (bse_Max x)) ++ omit (is_empty (bse_Series x)) "series" (e_slice e_SeriesLine (bse_Series x)) ++ omit (is_none (bse_History x)) "history" (e_ptr e_SeriesHistory (bse_History x))).

(** ** Blocks *)

(** The discriminator is spliced in as raw text: a quote or a backslash in it is not escaped. *)
Definition plain_byte (c : ascii) : bool := (32 <=? byteN c)%N && negb (Ascii.eqb c "034") && negb (Ascii.eqb c "\").
Definition type_text (typ : string) : any := if all_bytes plain_byte typ then AString typ else default (AOther "type") (raw_text typ).
Definition withType (typ : string) (v : any) : any := AMap (("type", type_text typ) :: as_map v).

Definition e_Block (b : Block) : any :=
  match b with
  | BMetrics v => withType "metrics" (e_BlockMetrics v)
  | BKeyValue v => withType "key-value" (e_BlockKeyValue v)
  | BProgress v => withType "progress" (e_BlockProgress v)
  | BStatus v => withType "status" (e_BlockStatus v)
  | BList v => withType "list" (e_BlockList v)
  | BMedia v => withType (bmd_Kind v) (e_BlockMedia v)
  | BText v => withType (bt_Kind v) (e_BlockText v)
  | BTable v => withType "table" (e_BlockTable v)
  | BActions v => withType "actions" (e_BlockActions v)
  | BSeries v => withType "series" (e_BlockSeries v)
  | BNil => ANil
  end.

Inductive wire_error := EType | EVersion (v : Z) | EUnknownBlock (type : string) | EBlock (index : nat) (e : wire_error).

Definition checked {A} (wrap : A -> Block) (d : decoder A) (zero : A) (raw : any) : res wire_error Block :=
  let '(a, bad) := d zero raw in if bad then Err EType else Ok (wrap a).
Definition media_kinds : list string := [MediaImage; MediaImageGrid; MediaPosterGrid].
Definition text_kinds : list string := [TextPlain; TextMarkdown].
Definition media_of (kind : string) : BlockMedia :=
  {| bmd_Kind := kind; bmd_Title := ""; bmd_Emphasis := ""; bmd_Columns := 0; bmd_Empty := ""; bmd_Items := [] |}.
Definition text_of (kind : string) : BlockText := {| bt_Kind := kind; bt_Title := ""; bt_Emphasis := ""; bt_Level := ""; bt_Content := "" |}.
Definition decodeBlock (raw : any) : res wire_error Block :=
  let '(type, bad) := d_object "" raw (fun m => field ["type"] "type" d_string "" m) in
  if bad then Err EType
  else if String.eqb type "metrics" then checked BMetrics d_BlockMetrics BlockMetrics_zero raw
  else if String.eqb type "key-value" then checked BKeyValue d_BlockKeyValue BlockKeyValue_zero raw
  else if String.eqb type "progress" then checked BProgress d_BlockProgress BlockProgress_zero raw
  else if String.eqb type "status" then checked BStatus d_BlockStatus BlockStatus_zero raw
  else if String.eqb type "list" then checked BList d_BlockList BlockList_zero raw
  else if existsb (String.eqb type) media_kinds then checked BMedia d_BlockMedia (media_of type) raw
  else if existsb (String.eqb type) text_kinds then checked BText d_BlockText (text_of type) raw
  else if String.eqb type "table" then checked BTable d_BlockTable BlockTable_zero raw
  else if String.eqb type "actions" then checked BActions d_BlockActions BlockActions_zero raw
  else if String.eqb type "series" then checked BSeries d_BlockSeries BlockSeries_zero raw
  else Err (EUnknownBlock type).

(** ** Documents *)

Definition document_names : list string := ["schemaVersion"; "title"; "subtitle"; "link"; "status"; "blocks"; "signals"; "notices"; "hints"].
(** The alias UnmarshalJSON decodes into: the version, and the document with its blocks still raw. *)
Record alias := { al_SchemaVersion : Z; al_Document : Document; al_Blocks : list any }.
Definition d_alias (v : any) : alias * bool :=
  let zero := {| al_SchemaVersion := 0; al_Blocks := [];
                 al_Document := {| doc_Title := ""; doc_Subtitle := ""; doc_Link := ""; doc_Status := None; doc_Blocks := []; doc_Signals := ∅; doc_Notices := []; doc_Hints := None |} |} in
  d_object zero v (fun m =>
    let version := field document_names "schemaVersion" d_int 0%Z m in
    let title := field document_names "title" d_string "" m in
    let subtitle := field document_names "subtitle" d_string "" m in
    let link := field document_names "link" d_string "" m in
    let status := field document_names "status" (d_ptr Status_zero d_Status) None m in
    let blocks := field document_names "blocks" (d_slice ANil d_raw) [] m in
    let signals := field document_names "signals" (d_map Signal_zero d_Signal) ∅ m in
    let notices := field document_names "notices" (d_slice Notice_zero d_Notice) [] m in
    let hints := field document_names "hints" (d_ptr Hints_zero d_Hints) None m in
    ({| al_SchemaVersion := version.1; al_Blocks := blocks.1;
        al_Document := {| doc_Title := title.1; doc_Subtitle := subtitle.1; doc_Link := link.1; doc_Status := status.1; doc_Blocks := [];
                          doc_Signals := signals.1; doc_Notices := notices.1; doc_Hints := hints.1 |} |},
     version.2 || title.2 || subtitle.2 || link.2 || status.2 || blocks.2 || signals.2 || notices.2 || hints.2)).
Fixpoint decode_blocks (i : nat) (raws : list any) : res wire_error (list Block) :=
  match raws with
  | [] => Ok []
  | raw :: rest =>
      let! b := res_map_err (EBlock i) (decodeBlock raw) in
      let! bs := decode_blocks (S i) rest in Ok (b :: bs)
  end.
Definition with_blocks (d : Document) (bs : list Block) : Document :=
  {| doc_Title := doc_Title d; doc_Subtitle := doc_Subtitle d; doc_Link := doc_Link d; doc_Status := doc_Status d; doc_Blocks := bs;
     doc_Signals := doc_Signals d; doc_Notices := doc_Notices d; doc_Hints := doc_Hints d |}.
Definition UnmarshalJSON (v : any) : res wire_error Document :=
  let '(a, bad) := d_alias v in
  if bad then Err EType
  else if negb (Z.eqb (al_SchemaVersion a) 0) && negb (Z.eqb (al_SchemaVersion a) 1) then Err (EVersion (al_SchemaVersion a))
  else let! blocks := decode_blocks 0 (al_Blocks a) in Ok (with_blocks (al_Document a) blocks).

(** No value that has no text: a float that is not finite, or a discriminator that is not JSON. *)
Fixpoint encodable (v : any) : bool :=
  match v with
  | AFloat _ | AOther _ => false
  | AList l => forallb encodable l
  | AMap m => forallb (fun e => encodable e.2) m
  | _ => true
  end.
Definition e_Document (d : Document) : any :=
  AMap ([("schemaVersion", e_int 1)] ++ omit (String.eqb (doc_Title d) "") "title" (AString (doc_Title d))
        ++ omit (String.eqb (doc_Subtitle d) "") "subtitle" (AString (doc_Subtitle d)) ++ omit (String.eqb (doc_Link d) "") "link" (AString (doc_Link d))
        ++ omit (is_none (doc_Status d)) "status" (e_ptr e_Status (doc_Status d)) ++ [("blocks", AList (map e_Block (doc_Blocks d)))]
        ++ omit (bool_decide (doc_Signals d = ∅)) "signals" (e_map e_Signal (doc_Signals d)) ++ omit (is_empty (doc_Notices d)) "notices" (e_slice e_Notice (doc_Notices d))
        ++ omit (is_none (doc_Hints d)) "hints" (e_ptr e_Hints (doc_Hints d))).
Definition MarshalJSON (d : Document) : option any := if encodable (e_Document d) then Some (e_Document d) else None.

(** ** What is written is read back *)

Lemma decode_one {A} (d : decoder A) zero v x : d zero v = (x, false) -> decode_all d zero [v] = (x, false).
Proof. unfold decode_all. cbn. by intros ->. Qed.
Lemma decode_omit {A} (d : decoder A) zero c v x :
  (c = true -> x = zero) -> (c = false -> d zero v = (x, false)) -> decode_all d zero (if c then [] else [v]) = (x, false).
Proof. destruct c; [intros -> _; done|]. intros _ H. by apply decode_one, H. Qed.
Lemma values_app names name a b : values_of names name (a ++ b) = values_of names name a ++ values_of names name b.
Proof. unfold values_of. by rewrite List.filter_app, map_app. Qed.
Lemma values_cons names name k v m : values_of names name ((k, v) :: m) = (if bool_decide (resolve names k = Some name) then [v] else []) ++ values_of names name m.
Proof. unfold values_of. cbn [List.filter fst]. by case_bool_decide. Qed.
Lemma values_omit names name c k v : values_of names name (omit c k v) = if bool_decide (resolve names k = Some name) then (if c then [] else [v]) else [].
Proof. unfold omit. destruct c; [by case_bool_decide|]. rewrite values_cons. case_bool_decide; done. Qed.
Lemma values_nil names name : values_of names name [] = [].
Proof. done. Qed.
Lemma field_type {A} names name (d : decoder A) old v m : resolve names "type" = None -> field names name d old (("type", v) :: m) = field names name d old m.
Proof. intros H. unfold field. rewrite values_cons, H. by rewrite bool_decide_false. Qed.
Lemma encodable_omit c k v : forallb (fun e => encodable e.2) (omit c k v) = c || encodable v.
Proof. destruct c; [done|]. cbn. by rewrite andb_true_r. Qed.

Ltac decide_names :=
  repeat match goal with |- context [bool_decide (resolve ?N ?k = Some ?n)] =>
    let b := eval vm_compute in (bool_decide (resolve N k = Some n)) in change (bool_decide (resolve N k = Some n)) with b end.
(** The values a struct's decoder finds in what its encoder wrote. *)
Ltac wire_fields := cbn [d_object]; unfold field; rewrite ?values_app, ?values_cons, ?values_omit, ?values_nil; decide_names; cbn beta iota; cbn [app]; rewrite ?app_nil_r.
Ltac wire_facts H := cbn [encodable] in H; rewrite ?forallb_app, ?encodable_omit, ?andb_true_iff in H; cbn [forallb fst snd andb] in H; rewrite ?andb_true_r in H.

Lemma Atoi_decimal z : in64 z -> Atoi (decimal z) = Some z.
Proof.
  intros Hz. unfold in64 in Hz. destruct (Z.leb_spec 0 z) as [Hp|Hn].
  - assert (Hd := atoi_decimal z Hp). assert (Hb := decimal_digits z Hp). assert (Hne := decimal_nonempty z Hp). unfold Atoi.
    destruct (decimal z) as [|c r] eqn:E; [done|]. cbn [all_bytes] in Hb. apply andb_true_iff in Hb as [Hc _].
    assert (Hs : match String c r with String "-" r0 => (true, r0) | String "+" r0 => (false, r0) | _ => (false, String c r) end = (false, String c r)).
    { clear -Hc. revert Hc. destruct c as [[] [] [] [] [] [] [] []]; done. }
    rewrite Hs. rewrite Hd. cbv zeta. assert (Hr : ((- 2 ^ 63 <=? z) && (z <? 2 ^ 63))%Z = true) by lia. by rewrite Hr.
  - destruct z as [|p|p]; [lia|lia|]. assert (E : decimal (Z.neg p) = "-" +:+ decimal (Z.pos p)) by reflexivity. rewrite E. change ("-" +:+ decimal (Z.pos p)) with (String "-" (decimal (Z.pos p))).
    unfold Atoi. assert (Hd := atoi_decimal (Z.pos p) ltac:(lia)). assert (Hne := decimal_nonempty (Z.pos p) ltac:(lia)). destruct (decimal (Z.pos p)) as [|c r]; [done|]. rewrite Hd. cbv zeta.
    assert (Hr : ((- 2 ^ 63 <=? - Z.pos p) && (- Z.pos p <? 2 ^ 63))%Z = true) by lia. by rewrite Hr.
Qed.

(** ParseFloat reads what is printed for a float that is finite: strconv prints the shortest text that does. *)
Hypothesis float_round_trip : forall f, finite f = true -> ParseFloat (fmt_float f) = Some f.

(** What is written of a value that has a text is read back. *)
Definition reads_back {A} (d : decoder A) (zero : A) (e : A -> any) (x : A) : Prop := encodable (e x) = true -> d zero (e x) = (x, false).

Lemma float_back zero f : encodable (e_float f) = true -> d_float zero (e_float f) = (f, false).
Proof. unfold e_float. destruct (finite f) eqn:Hf; [|done]. intros _. cbn. by rewrite float_round_trip. Qed.
Lemma scalar_back zero s : encodable (e_scalar s) = true -> d_scalar zero (e_scalar s) = (s, false).
Proof. destruct s as [s|f|b|]; try done. cbn [e_scalar]. unfold e_float. destruct (finite f) eqn:Hf; [|done]. intros _. cbn. by rewrite float_round_trip. Qed.
Lemma int_back zero z : in64 z -> d_int zero (e_int z) = (z, false).
Proof. intros Hz. cbn. by rewrite Atoi_decimal. Qed.
Lemma slice_back {A} (d : decoder A) zero (e : A -> any) l :
  (forall x, x ∈ l -> reads_back d zero e x) -> encodable (e_slice e l) = true -> d_slice zero d [] (e_slice e l) = (l, false).
Proof.
  intros He Hl. destruct l as [|x l]; [unfold e_slice; by destruct nil_slice|]. set (l' := x :: l) in *. change (e_slice e l') with (AList (map e l')) in *.
  cbn [d_slice]. cbn [encodable] in Hl. clearbody l'. induction l' as [|y l' IH]; [done|]. cbn [map forallb] in Hl. apply andb_true_iff in Hl as [Hy Hl].
  cbn [map d_elements hd tail]. rewrite (He y) by (done || by left). rewrite IH; [done| |done]. intros z Hz. apply He. by right.
Qed.
Lemma map_back {A} (d : decoder A) zero (e : A -> any) (m : gmap string A) :
  (forall k x, m !! k = Some x -> reads_back d zero e x) -> encodable (e_map e m) = true -> d_map zero d ∅ (e_map e m) = (m, false).
Proof.
  intros He. unfold e_map. case_bool_decide as Hm; cbn [andb]; [subst m; destruct nil_slice; done|]. intros Henc. cbn [d_map]. cbn [encodable] in Henc.
  assert (Hg : forall (l : list (string * A)) (acc : gmap string A), (forall p, p ∈ l -> reads_back d zero e p.2) -> forallb (fun p => encodable p.2) (map (fun p : string * A => (p.1, e p.2)) l) = true ->
    foldl (fun st p => let '(a, bad) := d zero p.2 in (<[p.1 := a]> (fst st), snd st || bad)) (acc, false) (map (fun p : string * A => (p.1, e p.2)) l)
    = (foldl (fun (acc : gmap string A) (p : string * A) => <[p.1 := p.2]> acc) acc l, false)).
  { induction l as [|p l IH]; intros acc Hl Hf; [done|]. cbn [map forallb fst snd] in Hf. apply andb_true_iff in Hf as [Hp Hf]. cbn [map foldl fst snd].
    rewrite (Hl p) by (done || by left). cbn [orb]. apply IH; [|done]. intros q Hq. apply Hl. by right. }
  rewrite Hg; [|intros [k x] Hp%elem_of_map_to_list; by apply (He k)|done]. f_equal. clear -Hm.
  assert (H : forall l (acc : gmap string A), NoDup l.*1 -> foldl (fun (acc : gmap string A) (p : string * A) => <[p.1 := p.2]> acc) acc l = list_to_map l ∪ acc).
  { induction l as [|[k x] l IH]; intros acc Hnd; [change (acc = ∅ ∪ acc); by rewrite (left_id_L ∅ (∪))|]. cbn [foldl fst snd]. apply NoDup_cons in Hnd as [Hk Hnd].
    rewrite IH by done. change (list_to_map ((k, x) :: l) : gmap string A) with (<[k := x]> (list_to_map l : gmap string A)). rewrite <- insert_union_l. symmetry. apply insert_union_r. by apply not_elem_of_list_to_map_1. }
  rewrite H by apply NoDup_fst_map_to_list. by rewrite list_to_map_to_list, (right_id_L ∅ (∪)).
Qed.
Lemma ptr_back {A} (d : decoder A) zero (e : A -> any) x :
  (forall a, x = Some a -> reads_back d zero e a /\ e a <> ANil) -> encodable (e_ptr e x) = true -> d_ptr zero d None (e_ptr e x) = (x, false).
Proof.
  destruct x as [a|]; [|done]. intros H Henc. destruct (H a eq_refl) as [Hb Hn]. cbn [e_ptr] in *. unfold d_ptr. specialize (Hb Henc).
  destruct (e a) eqn:E; try done; cbn [default from_option id]; by rewrite Hb.
Qed.

Lemma orb_left c b : c || b = true -> c = false -> b = true.
Proof. by intros H ->. Qed.
Lemma struct_back {A} (d : decoder A) zero e x : reads_back d zero e x -> encodable (e x) = true -> d zero (e x) = (x, false).
Proof. auto. Qed.
Lemma float_reads zero f : reads_back d_float zero e_float f.
Proof. intros H. by apply float_back. Qed.
#[local] Hint Resolve float_reads : wire.

(** Whether a part that was written has a text. *)
Ltac has_text := first [assumption | eapply orb_left; [eassumption|assumption] | done].
Ltac part_back :=
  first
    [ reflexivity
    | apply float_back; has_text
    | apply scalar_back; has_text
    | apply int_back; assumption
    | apply slice_back; [intros ? _; solve [auto with wire]|has_text]
    | apply ptr_back; [intros ? _; split; [solve [auto with wire]|done]|has_text]
    | apply ptr_back; [intros ? _; split; [solve [auto with wire]|unfold e_float; by destruct (finite _)]|has_text]
    | eapply struct_back; [solve [auto with wire]|has_text] ].
Ltac zero_part := first [by intros ?%String.eqb_eq | by intros ?%Z.eqb_eq | by intros ?%negb_true_iff | by (match goal with |- _ ?s = true -> _ => destruct s end) ].
Ltac wire_struct prepare :=
  unfold reads_back; prepare; intros;
  match goal with H : encodable _ = true |- _ => wire_facts H end; destruct_and?;
  wire_fields;
  repeat match goal with |- context [decode_all ?d ?z ?vs] =>
    let E := fresh in
    eassert (E : decode_all d z vs = (_, false));
    [first [apply decode_one; part_back | refine (decode_omit _ _ _ _ _ _ _); [|intros ?; part_back]; zero_part] | rewrite E; clear E]
  end; reflexivity.
Lemma Status_back x : reads_back d_Status Status_zero e_Status x.
Proof. destruct x as [x0 x1 x2]; wire_struct ltac:(unfold e_Status, d_Status, Status_zero in *; cbn [st_Level st_Text st_Since] in *). Qed.
#[local] Hint Resolve Status_back : wire.
Lemma Signal_back x : reads_back d_Signal Signal_zero e_Signal x.
Proof. destruct x as [x0 x1 x2]; wire_struct ltac:(unfold e_Signal, d_Signal, Signal_zero in *; cbn [sig_Value sig_Unit sig_Level] in *). Qed.
#[local] Hint Resolve Signal_back : wire.
Lemma Notice_back x : reads_back d_Notice Notice_zero e_Notice x.
Proof. destruct x as [x0 x1]; wire_struct ltac:(unfold e_Notice, d_Notice, Notice_zero in *; cbn [no_Level no_Message] in *). Qed.
#[local] Hint Resolve Notice_back : wire.
Lemma Hints_back x : in64 (TTLSeconds x) -> reads_back d_Hints Hints_zero e_Hints x.
Proof. destruct x as [x0]; wire_struct ltac:(unfold e_Hints, d_Hints, Hints_zero in *; cbn [TTLSeconds] in *). Qed.
#[local] Hint Resolve Hints_back : wire.
Lemma Image_back x : reads_back d_Image Image_zero e_Image x.
Proof. destruct x as [x0 x1 x2 x3]; wire_struct ltac:(unfold e_Image, d_Image, Image_zero in *; cbn [img_Ref img_Alt img_Aspect img_Blurhash] in *). Qed.
#[local] Hint Resolve Image_back : wire.
Lemma MetricItem_back x : reads_back d_MetricItem MetricItem_zero e_MetricItem x.
Proof. destruct x as [x0 x1 x2 x3 x4 x5 x6]; wire_struct ltac:(unfold e_MetricItem, d_MetricItem, MetricItem_zero in *; cbn [mi_Label mi_Value mi_Format mi_Unit mi_Level mi_Icon mi_Link] in *). Qed.
#[local] Hint Resolve MetricItem_back : wire.
Lemma ProgressItem_back x : reads_back d_ProgressItem ProgressItem_zero e_ProgressItem x.
Proof. destruct x as [x0 x1 x2 x3 x4]; wire_struct ltac:(unfold e_ProgressItem, d_ProgressItem, ProgressItem_zero in *; cbn [pi_Label pi_Progress pi_Value pi_Format pi_Level] in *). Qed.
#[local] Hint Resolve ProgressItem_back : wire.
Lemma StatusItem_back x : reads_back d_StatusItem StatusItem_zero e_StatusItem x.
Proof. destruct x as [x0 x1 x2 x3 x4]; wire_struct ltac:(unfold e_StatusItem, d_StatusItem, StatusItem_zero in *; cbn [si_Label si_Level si_Text si_Since si_Link] in *). Qed.
#[local] Hint Resolve StatusItem_back : wire.
Lemma ListItem_back x : reads_back d_ListItem ListItem_zero e_ListItem x.
Proof. destruct x as [x0 x1 x2 x3 x4 x5 x6 x7 x8 x9]; wire_struct ltac:(unfold e_ListItem, d_ListItem, ListItem_zero in *; cbn [li_ID li_Title li_Subtitle li_Value li_Format li_Level li_Icon li_Image li_Link li_Timestamp] in *). Qed.
#[local] Hint Resolve ListItem_back : wire.
Lemma MediaItem_back x : reads_back d_MediaItem MediaItem_zero e_MediaItem x.
Proof. destruct x as [x0 x1 x2 x3 x4 x5 x6 x7]; wire_struct ltac:(unfold e_MediaItem, d_MediaItem, MediaItem_zero in *; cbn [me_ID me_Image me_Title me_Subtitle me_Badge me_Level me_Link me_Timestamp] in *). Qed.
#[local] Hint Resolve MediaItem_back : wire.
Lemma TableColumn_back x : reads_back d_TableColumn TableColumn_zero e_TableColumn x.
Proof. destruct x as [x0 x1 x2 x3]; wire_struct ltac:(unfold e_TableColumn, d_TableColumn, TableColumn_zero in *; cbn [tc_Key tc_Label tc_Format tc_Align] in *). Qed.
#[local] Hint Resolve TableColumn_back : wire.
Lemma Action_back x : reads_back d_Action Action_zero e_Action x.
Proof. destruct x as [x0 x1 x2 x3 x4]; wire_struct ltac:(unfold e_Action, d_Action, Action_zero in *; cbn [ac_ID ac_Label ac_Icon ac_Confirm ac_Danger] in *). Qed.
#[local] Hint Resolve Action_back : wire.
Lemma SeriesPoint_back x : reads_back d_SeriesPoint SeriesPoint_zero e_SeriesPoint x.
Proof. destruct x as [x0 x1]; wire_struct ltac:(unfold e_SeriesPoint, d_SeriesPoint, SeriesPoint_zero in *; cbn [sp_T sp_V] in *). Qed.
#[local] Hint Resolve SeriesPoint_back : wire.
Lemma SeriesLine_back x : reads_back d_SeriesLine SeriesLine_zero e_SeriesLine x.
Proof. destruct x as [x0 x1 x2]; wire_struct ltac:(unfold e_SeriesLine, d_SeriesLine, SeriesLine_zero in *; cbn [sl_Label sl_Level sl_Points] in *). Qed.
#[local] Hint Resolve SeriesLine_back : wire.
Lemma HistoryLine_back x : reads_back d_HistoryLine HistoryLine_zero e_HistoryLine x.
Proof. destruct x as [x0 x1 x2]; wire_struct ltac:(unfold e_HistoryLine, d_HistoryLine, HistoryLine_zero in *; cbn [hl_Signal hl_Label hl_Level] in *). Qed.
#[local] Hint Resolve HistoryLine_back : wire.
Lemma SeriesHistory_back x : reads_back d_SeriesHistory SeriesHistory_zero e_SeriesHistory x.
Proof. destruct x as [x0 x1]; wire_struct ltac:(unfold e_SeriesHistory, d_SeriesHistory, SeriesHistory_zero in *; cbn [sh_Window sh_Lines] in *). Qed.
#[local] Hint Resolve SeriesHistory_back : wire.
Lemma BlockMetrics_back x : in64 (bm_Columns x) -> reads_back d_BlockMetrics BlockMetrics_zero e_BlockMetrics x.
Proof. destruct x as [x0 x1 x2 x3]; wire_struct ltac:(unfold e_BlockMetrics, d_BlockMetrics, BlockMetrics_zero in *; cbn [bm_Title bm_Emphasis bm_Columns bm_Items] in *). Qed.
#[local] Hint Resolve BlockMetrics_back : wire.
Lemma BlockKeyValue_back x : reads_back d_BlockKeyValue BlockKeyValue_zero e_BlockKeyValue x.
Proof. destruct x as [x0 x1 x2]; wire_struct ltac:(unfold e_BlockKeyValue, d_BlockKeyValue, BlockKeyValue_zero in *; cbn [bk_Title bk_Emphasis bk_Items] in *). Qed.
#[local] Hint Resolve BlockKeyValue_back : wire.
Lemma BlockProgress_back x : reads_back d_BlockProgress BlockProgress_zero e_BlockProgress x.
Proof. destruct x as [x0 x1 x2]; wire_struct ltac:(unfold e_BlockProgress, d_BlockProgress, BlockProgress_zero in *; cbn [bp_Title bp_Emphasis bp_Items] in *). Qed.
#[local] Hint Resolve BlockProgress_back : wire.
Lemma BlockStatus_back x : reads_back d_BlockStatus BlockStatus_zero e_BlockStatus x.
Proof. destruct x as [x0 x1 x2]; wire_struct ltac:(unfold e_BlockStatus, d_BlockStatus, BlockStatus_zero in *; cbn [bs_Title bs_Emphasis bs_Items] in *). Qed.
#[local] Hint Resolve BlockStatus_back : wire.
Lemma BlockList_back x : reads_back d_BlockList BlockList_zero e_BlockList x.
Proof. destruct x as [x0 x1 x2 x3]; wire_struct ltac:(unfold e_BlockList, d_BlockList, BlockList_zero in *; cbn [bl_Title bl_Emphasis bl_Empty bl_Items] in *). Qed.
#[local] Hint Resolve BlockList_back : wire.
Lemma BlockMedia_back x : in64 (bmd_Columns x) -> reads_back d_BlockMedia (media_of (bmd_Kind x)) e_BlockMedia x.
Proof. destruct x as [x0 x1 x2 x3 x4 x5]; wire_struct ltac:(unfold e_BlockMedia, d_BlockMedia, media_of in *; cbn [bmd_Kind bmd_Title bmd_Emphasis bmd_Columns bmd_Empty bmd_Items] in *). Qed.
#[local] Hint Resolve BlockMedia_back : wire.
Lemma BlockText_back x : reads_back d_BlockText (text_of (bt_Kind x)) e_BlockText x.
Proof. destruct x as [x0 x1 x2 x3 x4]; wire_struct ltac:(unfold e_BlockText, d_BlockText, text_of in *; cbn [bt_Kind bt_Title bt_Emphasis bt_Level bt_Content] in *). Qed.
#[local] Hint Resolve BlockText_back : wire.
Lemma row_back (x : gmap string Scalar) : reads_back (d_map SNull d_scalar) ∅ (e_map e_scalar) x.
Proof. intros H. apply map_back; [|done]. intros k s _ Hs. by apply scalar_back. Qed.
#[local] Hint Resolve row_back : wire.
Lemma BlockTable_back x : reads_back d_BlockTable BlockTable_zero e_BlockTable x.
Proof. destruct x as [x0 x1 x2 x3]; wire_struct ltac:(unfold e_BlockTable, d_BlockTable, BlockTable_zero in *; cbn [btb_Title btb_Emphasis btb_Columns btb_Rows] in *). Qed.
#[local] Hint Resolve BlockTable_back : wire.
Lemma BlockActions_back x : reads_back d_BlockActions BlockActions_zero e_BlockActions x.
Proof. destruct x as [x0 x1 x2]; wire_struct ltac:(unfold e_BlockActions, d_BlockActions, BlockActions_zero in *; cbn [ba_Title ba_Emphasis ba_Actions] in *). Qed.
#[local] Hint Resolve BlockActions_back : wire.
Lemma BlockSeries_back x : reads_back d_BlockSeries BlockSeries_zero e_BlockSeries x.
Proof. destruct x as [x0 x1 x2 x3 x4 x5 x6 x7]; wire_struct ltac:(unfold e_BlockSeries, d_BlockSeries, BlockSeries_zero in *; cbn [bse_Title bse_Emphasis bse_Format bse_Unit bse_Min bse_Max bse_Series bse_History] in *). Qed.
#[local] Hint Resolve BlockSeries_back : wire.

(** A block of a known kind, with integers of 64 bits. *)
Definition block_fits (b : Block) : Prop :=
  match b with
  | BMetrics v => in64 (bm_Columns v)
  | BMedia v => in64 (bmd_Columns v) /\ bmd_Kind v ∈ media_kinds
  | BText v => bt_Kind v ∈ text_kinds
  | BNil => False
  | _ => True
  end.

Definition head_of (raw : any) : string * bool := d_object "" raw (fun m => field ["type"] "type" d_string "" m).
Lemma head_with_type typ m : all_bytes plain_byte typ = true -> values_of ["type"] "type" m = [] -> head_of (withType typ (AMap m)) = (typ, false).
Proof.
  intros Hp Hm. unfold head_of, withType, type_text. rewrite Hp. cbn [d_object as_map]. unfold field. rewrite values_cons, Hm. decide_names. done.
Qed.
(** A decoder of a struct that has no field of that name does not see the discriminator. *)
Definition ignores_type {A} (d : decoder A) : Prop := forall old v m, d old (AMap (("type", v) :: m)) = d old (AMap m).
Ltac ignore_type := intros old v m; cbn [d_object]; rewrite !field_type by reflexivity; reflexivity.
Lemma metrics_ignores : ignores_type d_BlockMetrics. Proof. unfold d_BlockMetrics. ignore_type. Qed.
Lemma key_value_ignores : ignores_type d_BlockKeyValue. Proof. unfold d_BlockKeyValue. ignore_type. Qed.
Lemma progress_ignores : ignores_type d_BlockProgress. Proof. unfold d_BlockProgress. ignore_type. Qed.
Lemma status_ignores : ignores_type d_BlockStatus. Proof. unfold d_BlockStatus. ignore_type. Qed.
Lemma list_ignores : ignores_type d_BlockList. Proof. unfold d_BlockList. ignore_type. Qed.
Lemma media_ignores : ignores_type d_BlockMedia. Proof. unfold d_BlockMedia. ignore_type. Qed.
Lemma text_ignores : ignores_type d_BlockText. Proof. unfold d_BlockText. ignore_type. Qed.
Lemma table_ignores : ignores_type d_BlockTable. Proof. unfold d_BlockTable. ignore_type. Qed.
Lemma actions_ignores : ignores_type d_BlockActions. Proof. unfold d_BlockActions. ignore_type. Qed.
Lemma series_ignores : ignores_type d_BlockSeries. Proof. unfold d_BlockSeries. ignore_type. Qed.

Lemma checked_back {A} (wrap : A -> Block) (d : decoder A) zero typ (e : A -> any) x m :
  ignores_type d -> e x = AMap m -> reads_back d zero e x -> encodable (withType typ (e x)) = true -> checked wrap d zero (withType typ (e x)) = Ok (wrap x).
Proof.
  intros Hi He Hb Henc. unfold reads_back in Hb. unfold checked, withType in *. rewrite He in *. cbn [as_map] in *. rewrite Hi, Hb; [done|].
  cbn [encodable forallb] in *. by apply andb_true_iff in Henc as [_ ?].
Qed.
Ltac no_type := rewrite ?values_app, ?values_cons, ?values_omit, ?values_nil; decide_names; reflexivity.
Lemma decode_as typ raw : head_of raw = (typ, false) -> decodeBlock raw =
  if String.eqb typ "metrics" then checked BMetrics d_BlockMetrics BlockMetrics_zero raw
  else if String.eqb typ "key-value" then checked BKeyValue d_BlockKeyValue BlockKeyValue_zero raw
  else if String.eqb typ "progress" then checked BProgress d_BlockProgress BlockProgress_zero raw
  else if String.eqb typ "status" then checked BStatus d_BlockStatus BlockStatus_zero raw
  else if String.eqb typ "list" then checked BList d_BlockList BlockList_zero raw
  else if existsb (String.eqb typ) media_kinds then checked BMedia d_BlockMedia (media_of typ) raw
  else if existsb (String.eqb typ) text_kinds then checked BText d_BlockText (text_of typ) raw
  else if String.eqb typ "table" then checked BTable d_BlockTable BlockTable_zero raw
  else if String.eqb typ "actions" then checked BActions d_BlockActions BlockActions_zero raw
  else if String.eqb typ "series" then checked BSeries d_BlockSeries BlockSeries_zero raw
  else Err (EUnknownBlock typ).
Proof. unfold decodeBlock. intros H. change (d_object "" raw _) with (head_of raw). by rewrite H. Qed.

Ltac read_block e back ignores :=
  erewrite decode_as by (apply head_with_type; [reflexivity|no_type]); cbn [String.eqb Ascii.eqb Bool.eqb];
  eapply (checked_back _ _ _ _ e); [apply ignores|reflexivity|by apply back|assumption].
Lemma Block_back b : block_fits b -> encodable (e_Block b) = true -> decodeBlock (e_Block b) = Ok b.
Proof.
  intros Hf Henc. destruct b as [v|v|v|v|v|v|v|v|v|v|]; cbn [block_fits] in Hf; cbn [e_Block] in *; [| | | | | | | | | |done].
  - read_block e_BlockMetrics BlockMetrics_back metrics_ignores.
  - read_block e_BlockKeyValue BlockKeyValue_back key_value_ignores.
  - read_block e_BlockProgress BlockProgress_back progress_ignores.
  - read_block e_BlockStatus BlockStatus_back status_ignores.
  - read_block e_BlockList BlockList_back list_ignores.
  - destruct Hf as [Hc Hk]. assert (Hb := BlockMedia_back v Hc). unfold media_kinds in Hk. set (typ := bmd_Kind v) in *.
    assert (Hcases : typ = MediaImage \/ typ = MediaImageGrid \/ typ = MediaPosterGrid) by set_solver. clearbody typ.
    destruct Hcases as [->|[->| ->]]; read_block e_BlockMedia Hb media_ignores.
  - assert (Hb := BlockText_back v). unfold text_kinds in Hf. set (typ := bt_Kind v) in *.
    assert (Hcases : typ = TextPlain \/ typ = TextMarkdown) by set_solver. clearbody typ. destruct Hcases as [->| ->]; read_block e_BlockText Hb text_ignores.
  - read_block e_BlockTable BlockTable_back table_ignores.
  - read_block e_BlockActions BlockActions_back actions_ignores.
  - read_block e_BlockSeries BlockSeries_back series_ignores.
Qed.

Lemma raw_elements old l : d_elements ANil d_raw old l = (l, false).
Proof. revert old. induction l as [|v l IH]; intros old; [done|]. cbn [d_elements]. unfold d_raw at 1. by rewrite IH. Qed.
Lemma raw_slice l : d_slice ANil d_raw [] (AList l) = (l, false).
Proof. apply raw_elements. Qed.
Lemma blocks_back i bs : Forall block_fits bs -> forallb encodable (map e_Block bs) = true -> decode_blocks i (map e_Block bs) = Ok bs.
Proof.
  intros Hf. revert i. induction Hf as [|b bs Hb _ IH]; intros i; [done|]. cbn [map forallb decode_blocks]. intros [He Hes]%andb_true_iff.
  rewrite (Block_back b Hb He). cbn [res_map_err res_bind]. by rewrite IH.
Qed.

(** A document whose blocks are of known kinds and whose integers have 64 bits. *)
Definition doc_fits (d : Document) : Prop :=
  Forall block_fits (doc_Blocks d) /\ forall h, doc_Hints d = Some h -> in64 (TTLSeconds h).

Lemma signals_back (m : gmap string Signal) : encodable (e_map e_Signal m) = true -> d_map Signal_zero d_Signal ∅ (e_map e_Signal m) = (m, false).
Proof. apply map_back. intros k x _. apply Signal_back. Qed.
Lemma hints_back (h : option Hints) : (forall x, h = Some x -> in64 (TTLSeconds x)) -> encodable (e_ptr e_Hints h) = true -> d_ptr Hints_zero d_Hints None (e_ptr e_Hints h) = (h, false).
Proof. intros Hh. apply ptr_back. intros x Hx. split; [|done]. apply Hints_back. auto. Qed.
Lemma alias_back d : doc_fits d -> encodable (e_Document d) = true ->
  d_alias (e_Document d) = ({| al_SchemaVersion := 1; al_Blocks := map e_Block (doc_Blocks d); al_Document := with_blocks d [] |}, false).
Proof.
  destruct d as [title subtitle link status bs signals notices hints]. intros [_ Hh]. cbn [doc_Hints] in Hh. unfold d_alias, e_Document, with_blocks.
  cbn [doc_Title doc_Subtitle doc_Link doc_Status doc_Blocks doc_Signals doc_Notices doc_Hints]. intros Henc. wire_facts Henc. destruct_and?. wire_fields.
  rewrite (decode_one d_int 0%Z (e_int 1) 1%Z) by (by apply int_back). rewrite (decode_one _ _ _ _ (raw_slice (map e_Block bs))).
  rewrite (decode_omit (d_map Signal_zero d_Signal) ∅ _ _ signals);
    [|by intros ?%bool_decide_eq_true|intros Hc; apply signals_back; has_text].
  rewrite (decode_omit (d_ptr Hints_zero d_Hints) None _ _ hints); [|by destruct hints|intros Hc; apply hints_back; [done|has_text]].
  repeat match goal with |- context [decode_all ?d ?z ?vs] =>
    let E := fresh in
    eassert (E : decode_all d z vs = (_, false)); [refine (decode_omit _ _ _ _ _ _ _); [|intros ?; part_back]; zero_part|rewrite E; clear E]
  end. reflexivity.
Qed.
Lemma unmarshal_back d : doc_fits d -> encodable (e_Document d) = true -> UnmarshalJSON (e_Document d) = Ok d.
Proof.
  intros Hfits Henc. unfold UnmarshalJSON. rewrite (alias_back d Hfits Henc). cbn [al_SchemaVersion al_Blocks al_Document Z.eqb negb andb].
  destruct Hfits as [Hb _]. unfold e_Document in Henc. wire_facts Henc. destruct_and?.
  rewrite (blocks_back 0 (doc_Blocks d) Hb) by has_text. cbn [res_bind]. by destruct d.
Qed.
End Wire.

(** ** Properties *)

(** C30. A document with known block kinds that has a JSON text is read back from it unchanged: every field, block, signal, notice and
    hint, whether empty slices are written as null or as []. It assumes of strconv that a finite float's text parses to it, and
    takes every string as valid UTF-8, as what is decoded from JSON is. *)
Theorem document_round_trip (ParseFloat : string -> option Float64) (fmt_float : Float64 -> string) (nil_slice : bool) (raw_text : string -> option any)
  (Hfloat : forall f, finite f = true -> ParseFloat (fmt_float f) = Some f) (d : Document) (j : any)
  (Hfits : doc_fits d) (Hj : MarshalJSON fmt_float nil_slice raw_text d = Some j) : UnmarshalJSON ParseFloat j = Ok d.
Proof.
  unfold MarshalJSON in Hj. destruct (encodable _) eqn:Henc; [|done]. injection Hj as <-. by eapply unmarshal_back.
Qed.

Definition demo_doc : Document :=
  {| doc_Title := "Disk"; doc_Subtitle := ""; doc_Link := ""; doc_Status := Some {| st_Level := "ok"; st_Text := ""; st_Since := "" |};
     doc_Blocks := [BMetrics {| bm_Title := ""; bm_Emphasis := ""; bm_Columns := 2; bm_Items :=
                       [{| mi_Label := "used"; mi_Value := SNumber float_zero; mi_Format := "bytes"; mi_Unit := ""; mi_Level := ""; mi_Icon := ""; mi_Link := "" |}] |};
                    BText {| bt_Kind := "markdown"; bt_Title := ""; bt_Emphasis := ""; bt_Level := ""; bt_Content := "*hi*" |}];
     doc_Signals := {[ "used" := {| sig_Value := SBool true; sig_Unit := "count"; sig_Level := "" |} ]}; doc_Notices := []; doc_Hints := Some {| TTLSeconds := 60 |} |}.
(** Texts for the examples: a finite float's sign, mantissa and exponent in one number. *)
Definition demo_fmt (f : Float64) : string :=
  match f with
  | SpecFloat.S754_zero s => decimal (Z.pos (encode (inl s : bool + bool * positive * Z)))
  | SpecFloat.S754_finite s m e => decimal (Z.pos (encode (inr (s, m, e) : bool + bool * positive * Z)))
  | _ => ""
  end.
Definition demo_parse (s : string) : option Float64 :=
  match (decode (Z.to_pos (default 1%Z (atoi_digits s 0))) : option (bool + bool * positive * Z)) with
  | Some (inl s) => Some (SpecFloat.S754_zero s)
  | Some (inr (s, m, e)) => Some (SpecFloat.S754_finite s m e)
  | None => None
  end.
Lemma demo_parse_fmt f : finite f = true -> demo_parse (demo_fmt f) = Some f.
Proof.
  unfold finite. intros [_ Hf]%andb_true_iff. unfold demo_parse, demo_fmt.
  destruct f as [s| | |s m e]; try done; rewrite atoi_decimal by lia; cbn [default from_option id Z.to_pos]; by rewrite decode_encode.
Qed.

Example document_round_trip_witness : exists j, MarshalJSON demo_fmt false (fun _ => None) demo_doc = Some j /\ UnmarshalJSON demo_parse j = Ok demo_doc.
Proof.
  eexists. split; [vm_compute; reflexivity|]. eapply (document_round_trip demo_parse demo_fmt false (fun _ => None) demo_parse_fmt); [|vm_compute; reflexivity].
  split; [|intros h [= <-]; done]. repeat constructor. by vm_compute.
Defined.

Example demo_wire : MarshalJSON demo_fmt true (fun _ => None) demo_doc <> None.
Proof. vm_compute. discriminate. Qed.
(** A key given twice: the validator's decoder keeps the last value, UnmarshalJSON the signals of both. *)
Example repeated_key_merges :
  let signal := AMap [("value", ABool true)] in
  let raw := AMap [("blocks", AList []); ("signals", AMap [("NOT A NAME", signal)]); ("signals", AMap [("ok", signal)])] in
  exists d, UnmarshalJSON demo_parse raw = Ok d /\ dom (doc_Signals d) = {["NOT A NAME"; "ok"]}.
Proof. eexists. split; [vm_compute; reflexivity|]. by vm_compute. Qed.
