(* ===== verification/Config.v ===== *)
(** * internal/config: the configuration tree, its merge and its loading

    The YAML node tree, conf.d merging with file provenance, duplicate-key detection, [${secret:..}]
    references and their locations, the typed configuration, semantic validation, and [Load]. The
    YAML parser and decoder (gopkg.in/yaml.v3) and the schema validator (jsonschema) are arguments
    of [Load]. *)
From S2P Require Import Prelude GoAny RoutePath.

(** ** YAML nodes *)

Inductive Kind := DocumentNode | SequenceNode | MappingNode | ScalarNode | AliasNode.

#[export] Instance Kind_eq_dec : EqDecision Kind.
Proof. solve_decision. Defined.

(** A [*yaml.Node]. The merger's [file map[*yaml.Node]string] is kept with the node it is keyed by:
    every parsed tree is fresh, so a pointer is one node; [None] is a node never tagged. *)
Inductive Node := mkNode {
  n_Kind : Kind; n_Tag : string; n_Value : string; n_Line : Z; n_Column : Z;
  n_file : option string; n_Content : list Node }.

Definition isMapping (n : Node) : bool := bool_decide (n_Kind n = MappingNode).

(** [merger.fileOf] *)
Definition fileOf (n : Node) : string := default "" (n_file n).

(** [merger.tag] *)
Fixpoint tag (file : string) (n : Node) : Node :=
  match n with
  | mkNode k t v l c (Some f) cs => mkNode k t v l c (Some f) cs
  | mkNode k t v l c None cs => mkNode k t v l c (Some file) (map (tag file) cs)
  end.

(** [pairsOf]: an odd last entry is dropped. *)
Fixpoint pairs_of (l : list Node) : list (Node * Node) :=
  match l with
  | k :: v :: r => (k, v) :: pairs_of r
  | _ => []
  end.
Definition pairsOf (n : Node) : list (Node * Node) := pairs_of (n_Content n).

Fixpoint find_pair (l : list (Node * Node)) (key : string) : option (Node * Node) :=
  match l with
  | [] => None
  | (k, v) :: r => if String.eqb (n_Value k) key then Some (k, v) else find_pair r key
  end.

(** [mapLookup] *)
Definition mapLookup (m : Node) (key : string) : option Node :=
  if isMapping m then snd <$> find_pair (pairsOf m) key else None.

(** [overrideByKey]: a map built front to back, so the last pair of a key stays. *)
Definition override_by_key (l : list (Node * Node)) (key : string) : option (Node * Node) :=
  find_pair (rev l) key.

(** [merger.merge] and [merger.mergeMappings] on non-nil nodes. *)
Fixpoint merge (base override : Node) (overrideFile : string) {struct base} : Node :=
  match base with
  | mkNode kb _ _ _ _ _ cb =>
      if bool_decide (kb = MappingNode) && isMapping override then
        let ops := pairsOf override in
        let fromBase := (fix go (c : list Node) : list Node :=
          match c with
          | k :: v :: rest =>
              match override_by_key ops (n_Value k) with
              | Some (ok, ov) => ok :: merge v ov overrideFile :: go rest
              | None => k :: v :: go rest
              end
          | _ => []
          end) cb in
        let seen key := match find_pair (pairs_of cb) key with Some _ => true | None => false end in
        let added := concat (map (fun p : Node * Node => if seen (n_Value p.1) then [] else [p.1; p.2]) ops) in
        mkNode MappingNode "!!map" "" 0 0 (Some overrideFile) (fromBase ++ added)
      else override
  end.

(** [merger.merge] with its nil cases. *)
Definition merge_opt (base override : option Node) (file : string) : option Node :=
  match base, override with
  | None, o => o
  | b, None => b
  | Some b, Some o => Some (merge b o file)
  end.

(** ** Diagnostics *)

Inductive Severity := SeverityError | SeverityWarning.

(** The messages of the package's own diagnostics, by their arguments. *)
Inductive message :=
| MText (s : string)
| MDuplicateKey (key : string) (firstLine : Z)
| MMalformedSecret (value : string)
| MDuplicateIntegration (id : string)
| MDuplicateCard (id : string)
| MUndeclaredIntegration (card integration : string)
| MUndeclaredConnection (card slot conn : string)
| MDuplicateRule (id : string)
| MUndeclaredChannel (rule channel : string)
| MUnknownCard (rule card : string)
| MAuth (mode what : string)
| MSecretUnresolved (name : string)
| MSecretError (name err : string).

Record Diagnostic := {
  d_Severity : Severity; d_File : string; d_Line : Z; d_Column : Z; d_Message : message }.

Abbreviation Diagnostics := (list Diagnostic) (only parsing).

Definition isError (d : Diagnostic) : bool :=
  match d_Severity d with SeverityError => true | SeverityWarning => false end.

Definition HasErrors (ds : Diagnostics) : bool := existsb isError ds.

Definition node_diag (s : Severity) (n : Node) (m : message) : Diagnostic :=
  {| d_Severity := s; d_File := fileOf n; d_Line := n_Line n; d_Column := n_Column n; d_Message := m |}.

(** ** duplicateKeys *)

Fixpoint dup_pairs (file : string) (seen : gmap string Node) (l : list (Node * Node)) : Diagnostics :=
  match l with
  | [] => []
  | (k, _) :: r =>
      match seen !! n_Value k with
      | Some prior =>
          {| d_Severity := SeverityError; d_File := file; d_Line := n_Line k; d_Column := n_Column k;
             d_Message := MDuplicateKey (n_Value k) (n_Line prior) |} :: dup_pairs file seen r
      | None => dup_pairs file (<[n_Value k := k]> seen) r
      end
  end.

Fixpoint duplicateKeys (file : string) (n : Node) : Diagnostics :=
  match n with
  | mkNode k _ _ _ _ _ cs =>
      (if bool_decide (k = MappingNode) then dup_pairs file ∅ (pairs_of cs) else [])
      ++ concat (map (duplicateKeys file) cs)
  end.

(** ** nodeAtPath *)

Fixpoint nodeAtPath (cur : Node) (path : list string) : Node :=
  match path with
  | [] => cur
  | seg :: rest =>
      match n_Kind cur with
      | MappingNode => match find_pair (pairsOf cur) seg with
                       | Some (_, v) => nodeAtPath v rest
                       | None => cur
                       end
      | SequenceNode =>
          match Atoi seg with
          | Some idx => if (idx <? 0)%Z then cur
                        else match n_Content cur !! Z.to_nat idx with
                             | Some c => nodeAtPath c rest
                             | None => cur
                             end
          | None => cur
          end
      | _ => cur
      end
  end.

(** ** Secret references *)

Fixpoint word_run (s : string) : string * string :=
  match s with
  | String c r => if isWord c then let '(w, r') := word_run r in (String c w, r') else ("", s)
  | EmptyString => ("", "")
  end.

(** [\$\{secret:([A-Za-z0-9_]+)\}] at the start of [s]: the name and what follows. *)
Definition ref_here (s : string) : option (string * string) :=
  match strip_prefix "${secret:" s with
  | None => None
  | Some r => match word_run r with
              | (EmptyString, _) => None
              | (name, String "}" r') => Some (name, r')
              | _ => None
              end
  end.

(** [secretRefPattern.FindStringSubmatch]: the whole value is one reference. *)
Definition secretRefPattern (s : string) : option string :=
  match ref_here s with Some (name, EmptyString) => Some name | _ => None end.

(** [secretRefOccurrencePattern.FindAllStringSubmatch]: no reference starts inside another one, so
    trying every position finds the non-overlapping matches. *)
Fixpoint secretRefOccurrences (s : string) : list string :=
  match s with
  | EmptyString => []
  | String _ s' => match ref_here s with
                   | Some (name, _) => name :: secretRefOccurrences s'
                   | None => secretRefOccurrences s'
                   end
  end.

Record SecretRef := { sr_Literal : string; sr_Name : string; sr_Template : string; sr_Names : list string }.

Definition IsSecret (r : SecretRef) : bool :=
  negb (String.eqb (sr_Name r) "") || negb (Nat.eqb (length (sr_Names r)) 0).

(** [SecretRef.UnmarshalYAML], after the scalar has been decoded to the string [s]. *)
Definition secret_ref_of (s : string) : SecretRef :=
  match secretRefPattern s with
  | Some name => {| sr_Literal := ""; sr_Name := name; sr_Template := ""; sr_Names := [] |}
  | None => match secretRefOccurrences s with
            | [] => {| sr_Literal := s; sr_Name := ""; sr_Template := ""; sr_Names := [] |}
            | names => {| sr_Literal := ""; sr_Name := ""; sr_Template := s; sr_Names := names |}
            end
  end.

Record SecretLocation := { loc_Name : string; loc_File : string; loc_Line : Z; loc_Column : Z }.

Definition disabledConnectionNode (n : Node) : bool :=
  if negb (isMapping n) then false
  else match mapLookup n "kind", mapLookup n "enabled" with
       | Some k, Some e =>
           (String.eqb (n_Value k) "http" || String.eqb (n_Value k) "docker")
           && String.eqb (n_Tag e) "!!bool" && String.eqb (n_Value e) "false"
       | _, _ => false
       end.

Definition scalar_locations (n : Node) : list SecretLocation :=
  if bool_decide (n_Kind n = ScalarNode) then
    map (fun name => {| loc_Name := name; loc_File := fileOf n; loc_Line := n_Line n; loc_Column := n_Column n |})
        (secretRefOccurrences (n_Value n))
  else [].

Fixpoint secretLocations (n : Node) : list SecretLocation :=
  if disabledConnectionNode n then []
  else scalar_locations n ++ concat (map secretLocations (n_Content n)).

Definition suspicious_here (n : Node) : Diagnostics :=
  if bool_decide (n_Kind n = ScalarNode) && Contains (n_Value n) "${secret:"
     && Nat.eqb (length (secretRefOccurrences (n_Value n))) 0
  then [node_diag SeverityWarning n (MMalformedSecret (n_Value n))] else [].

Fixpoint suspiciousSecretRefs (n : Node) : Diagnostics :=
  suspicious_here n ++ concat (map suspiciousSecretRefs (n_Content n)).

(** ** The typed configuration *)

Record Server := {
  Listen : string; DataDir : string; srv_BaseURL : string; srv_TrustedProxies : list string }.

Definition AuthPassword : string := "password".
Definition AuthForward : string := "forward".
Definition AuthNone : string := "none".

Record AdminAuth := { Username : string; PasswordHash : string }.

Definition PrivilegedCLIOnly : string := "cli-only".
Definition PrivilegedAdminGroup : string := "admin-group".

Record ForwardAuth := {
  TrustedProxies : list string; UserHeader : string; GroupsHeader : string;
  AdminGroups : list string; PrivilegedOperations : string }.

Record Auth := {
  Mode : string; Admin : option AdminAuth; Forward : option ForwardAuth; SessionTTL : string }.

Record Layout := { Columns : Z; Gap : string }.
Record Dashboard := {
  dash_Title : string; Appearance : string; Background : string; dash_Layout : Layout; GroupBy : string }.

Record ConnectionAuth := {
  ca_Type : string; ca_Name : string; ca_Value : SecretRef; ca_Username : string; ca_Password : SecretRef }.
Record TLSConfig := { InsecureSkipVerify : bool; CAFile : string; ServerName : string }.
Record RateLimit := { RPS : Float64; Burst : Z }.
Record HTTPConnection := {
  BaseURL : string; hc_Auth : ConnectionAuth; hc_Headers : gmap string SecretRef; TLS : TLSConfig;
  hc_Timeout : string; MaxResponseBytes : Z; MaxRedirects : Z; AllowedPaths : list string;
  hc_RateLimit : RateLimit; Concurrency : Z }.
Record DockerConnection := { Endpoint : string; AllowActions : bool; dc_Timeout : string }.
Record Connection := {
  conn_Kind : string; conn_Enabled : option bool; HTTP : option HTTPConnection;
  Docker : option DockerConnection }.

Record Integration := {
  in_ID : string; in_Source : string; in_Enabled : option bool; in_Description : string }.

Definition IsEnabled (i : Integration) : bool :=
  match in_Enabled i with None => true | Some b => b end.

Record Span := { span_Columns : Z; span_Rows : Z }.
Record Card := {
  card_ID : string; card_Title : string; card_Href : string; card_Icon : string;
  card_Integration : string; card_Operation : string; card_Slots : gmap string string;
  card_Params : list (string * any); card_View : list (string * any); card_Refresh : string;
  card_Span : Span; card_Tags : list string }.
Record ConfigSection := { sec_Title : string; Collapsed : bool; Cards : list Card }.

Record Rule := {
  rule_ID : string; When : string; For : string; rule_Severity : string; Notify : list string;
  Resolve : bool }.

Record NotifyRateLimit := { PerHour : Z; Cooldown : string }.
Record NtfyChannel := {
  ntfy_URL : string; Topic : string; Token : SecretRef; Priority : Z; ntfy_RateLimit : NotifyRateLimit }.
Record WebhookChannel := {
  wh_URL : SecretRef; wh_Method : string; wh_Headers : gmap string SecretRef; wh_RateLimit : NotifyRateLimit }.
Record Channel := { ch_Type : string; Ntfy : option NtfyChannel; Webhook : option WebhookChannel }.

Record Config := {
  Version : Z; cfg_Server : Server; cfg_Auth : Auth; cfg_Dashboard : Dashboard;
  Connections : gmap string Connection; Integrations : list Integration;
  Sections : list ConfigSection; Rules : list Rule; Channels : gmap string Channel }.

(** ** Semantic validation *)

(** [semanticCtx.errf] *)
Definition errf (root : Node) (path : list string) (m : message) : Diagnostic :=
  node_diag SeverityError (nodeAtPath root path) m.

(** [cardRefPattern]: [state] or [signal], an opening parenthesis, white space, a quoted literal. *)
Definition re_space (c : ascii) : bool :=
  existsb (Ascii.eqb c) ["009"; "010"; "012"; "013"; " "]%char.

Fixpoint skip_spaces (s : string) : string :=
  match s with
  | String c r => if re_space c then skip_spaces r else s
  | EmptyString => EmptyString
  end.

Definition dquote : ascii := "034".

Fixpoint until_quote (s : string) : option (string * string) :=
  match s with
  | EmptyString => None
  | String c r => if Ascii.eqb c dquote then Some ("", r)
                  else match until_quote r with
                       | Some (w, r') => Some (String c w, r')
                       | None => None
                       end
  end.

Definition card_ref_here (s : string) : option (string * string) :=
  let after := match strip_prefix "state(" s with
               | Some r => Some r
               | None => strip_prefix "signal(" s
               end in
  match after with
  | Some r => match skip_spaces r with
              | String c r' => if Ascii.eqb c dquote then until_quote r' else None
              | EmptyString => None
              end
  | None => None
  end.

(** [FindAllStringSubmatch]: [prev] says whether the previous byte is a word byte (the pattern
    starts at a word boundary), [skip] counts the bytes of the current match still to pass. *)
Fixpoint card_refs (prev : bool) (skip : nat) (s : string) : list string :=
  match s with
  | EmptyString => []
  | String c s' =>
      match skip with
      | S k => card_refs (isWord c) k s'
      | O => match (if prev then None else card_ref_here s) with
             | Some (name, rest) =>
                 name :: card_refs (isWord c) (String.length s - String.length rest - 1) s'
             | None => card_refs (isWord c) 0 s'
             end
      end
  end.
Definition referencedCardIDs (when : string) : list string := card_refs false 0 when.

Definition validateAuth (root : Node) (a : Auth) : Diagnostics :=
  let path := ["auth"; "mode"] in
  let err what := errf root path (MAuth (Mode a) what) in
  if String.eqb (Mode a) AuthPassword then
    match Admin a with None => [err "auth.admin is not set"] | Some _ => [] end
    ++ match Forward a with Some _ => [err "auth.forward is also set"] | None => [] end
  else if String.eqb (Mode a) AuthForward then
    match Forward a with None => [err "auth.forward is not set"] | Some _ => [] end
    ++ match Admin a with Some _ => [err "auth.admin is also set"] | None => [] end
  else if String.eqb (Mode a) AuthNone then
    match Admin a, Forward a with
    | None, None => []
    | _, _ => [err "auth.admin or auth.forward is set"]
    end
  else [].

(** A loop over a slice that reports every element whose id has been seen. *)
Fixpoint dup_ids {A} (id : A -> string) (diag : nat -> A -> Diagnostic) (i : nat)
  (seen : gset string) (l : list A) : Diagnostics :=
  match l with
  | [] => []
  | x :: r => (if bool_decide (id x ∈ seen) then [diag i x] else [])
              ++ dup_ids id diag (S i) ({[id x]} ∪ seen) r
  end.

Definition id_set {A} (id : A -> string) (l : list A) : gset string := list_to_set (map id l).

Section Semantics.
Variable cfg : Config.
Variable root : Node.

Definition integrationIDs : gset string := id_set in_ID (Integrations cfg).
Definition all_cards : list Card := concat (map Cards (Sections cfg)).
Definition cardIDs : gset string := id_set card_ID all_cards.
Definition channelIDs : gset string := dom (Channels cfg).

Definition check_integrations : Diagnostics :=
  dup_ids in_ID (fun i x => errf root ["integrations"; Itoa i; "id"] (MDuplicateIntegration (in_ID x)))
          0 ∅ (Integrations cfg).

(** The integration and slot checks of one card. *)
Definition check_card_refs (cardPath : list string) (card : Card) : Diagnostics :=
  (if negb (String.eqb (card_Integration card) "") && negb (bool_decide (card_Integration card ∈ integrationIDs))
   then [errf root (cardPath ++ ["integration"]) (MUndeclaredIntegration (card_ID card) (card_Integration card))]
   else [])
  ++ concat (map (fun p : string * string =>
       if bool_decide (p.2 ∈ dom (Connections cfg)) then []
       else [errf root (cardPath ++ ["slots"; p.1]) (MUndeclaredConnection (card_ID card) p.1 p.2)])
     (map_to_list (card_Slots card))).

(** The two nested loops over sections and cards, threading [cardIDs]. *)
Fixpoint check_cards (si ci : nat) (seen : gset string) (cs : list Card) : Diagnostics * gset string :=
  match cs with
  | [] => ([], seen)
  | card :: r =>
      let cardPath := ["sections"; Itoa si; "cards"; Itoa ci] in
      let dup := if bool_decide (card_ID card ∈ seen)
                 then [errf root (cardPath ++ ["id"]) (MDuplicateCard (card_ID card))] else [] in
      let '(ds, seen') := check_cards si (S ci) ({[card_ID card]} ∪ seen) r in
      (dup ++ check_card_refs cardPath card ++ ds, seen')
  end.

Fixpoint check_sections (si : nat) (seen : gset string) (ss : list ConfigSection) : Diagnostics :=
  match ss with
  | [] => []
  | s :: r => let '(ds, seen') := check_cards si 0 seen (Cards s) in
              ds ++ check_sections (S si) seen' r
  end.

(** The body of the loop over the rules, after the duplicate check. *)
Definition check_rule_refs (ri : nat) (rule : Rule) : Diagnostics :=
  let rulePath := ["rules"; Itoa ri] in
  concat (imap (fun ni ch => if bool_decide (ch ∈ channelIDs) then []
                             else [errf root (rulePath ++ ["notify"; Itoa ni]) (MUndeclaredChannel (rule_ID rule) ch)])
               (Notify rule))
  ++ concat (map (fun c => if bool_decide (c ∈ cardIDs) then []
                           else [errf root (rulePath ++ ["when"]) (MUnknownCard (rule_ID rule) c)])
                 (referencedCardIDs (When rule))).

Fixpoint check_rules (ri : nat) (seen : gset string) (rs : list Rule) : Diagnostics :=
  match rs with
  | [] => []
  | r :: rest =>
      (if bool_decide (rule_ID r ∈ seen)
       then [errf root (["rules"; Itoa ri] ++ ["id"]) (MDuplicateRule (rule_ID r))] else [])
      ++ check_rule_refs ri r ++ check_rules (S ri) ({[rule_ID r]} ∪ seen) rest
  end.

Definition validateSemantics : Diagnostics :=
  check_integrations ++ check_sections 0 ∅ (Sections cfg) ++ check_rules 0 ∅ (Rules cfg)
  ++ validateAuth root (cfg_Auth cfg).
End Semantics.

(** ** Snapshots *)

(** The indices map an id to the address of the last element that has it: its position. *)
Record Snapshot := {
  snap_Config : Config; SecretRefs : list SecretLocation;
  cardsByID : gmap string Card; integrationsByID : gmap string Integration }.

Definition index_by {A} (id : A -> string) (l : list A) : gmap string A :=
  foldl (fun m x => <[id x := x]> m) ∅ l.

Definition newSnapshot (cfg : Config) (refs : list SecretLocation) : Snapshot :=
  {| snap_Config := cfg; SecretRefs := refs; cardsByID := index_by card_ID (all_cards cfg);
     integrationsByID := index_by in_ID (Integrations cfg) |}.

Definition CardByID (s : Snapshot) (id : string) : option Card := cardsByID s !! id.
Definition IntegrationByID (s : Snapshot) (id : string) : option Integration := integrationsByID s !! id.

(** ** Load *)

(** A jsonschema.ValidationError tree: a leaf carries its location, the first additional property
    it names, and its message. *)
Inductive ValidationError := VErr {
  InstanceLocation : list string; additionalProperty : option string; ve_msg : string;
  Causes : list ValidationError }.

Fixpoint flatten_verr (root : Node) (e : ValidationError) : Diagnostics :=
  match e with
  | VErr loc extra msg [] =>
      let path := match extra with Some p => loc ++ [p] | None => loc end in
      [node_diag SeverityError (nodeAtPath root path) (MText msg)]
  | VErr _ _ _ causes => concat (map (flatten_verr root) causes)
  end.

Definition file_diag (file : string) (m : message) : Diagnostic :=
  {| d_Severity := SeverityError; d_File := file; d_Line := 0; d_Column := 0; d_Message := m |}.

Section Load.
(** [os.ReadFile], [yaml.Unmarshal] into a node, the generic decoding followed by the schema's
    verdict, and the decoding into [Config]. *)
Variable read_file : string -> res string string.
Variable yaml_unmarshal : string -> res string Node.
Variable Generic : Type.
Variable decode_generic : Node -> res string Generic.
Variable schema_validate : Generic -> option ValidationError.
Variable decode_config : Node -> res string Config.

(** One iteration of the loop over the paths: diagnostics, and the root when the file has one. *)
Definition load_file (path : string) : Diagnostics * option Node :=
  match read_file path with
  | Err e => ([file_diag path (MText e)], None)
  | Ok body =>
      match yaml_unmarshal body with
      | Err e => ([file_diag path (MText ("parsing YAML: " +:+ e))], None)
      | Ok doc =>
          match n_Content doc with
          | [] => ([file_diag path (MText "empty document")], None)
          | root :: _ =>
              if negb (isMapping root) then
                ([{| d_Severity := SeverityError; d_File := path; d_Line := n_Line root;
                     d_Column := n_Column root; d_Message := MText "top level must be a mapping" |}], None)
              else (duplicateKeys path root, Some (tag path root))
          end
      end
  end.

Fixpoint load_files (paths : list string) (merged : option Node) : Diagnostics * option Node :=
  match paths with
  | [] => ([], merged)
  | path :: rest =>
      let '(ds, r) := load_file path in
      let '(ds', merged') := load_files rest (match r with
                                              | Some n => merge_opt merged (Some n) path
                                              | None => merged
                                              end) in
      (ds ++ ds', merged')
  end.

Definition Load (paths : list string) : option Snapshot * Diagnostics :=
  match paths with
  | [] => (None, [file_diag "" (MText "config: at least one path is required")])
  | _ =>
      let '(diags, merged) := load_files paths None in
      if HasErrors diags then (None, diags)
      else match merged with
           | None => (None, diags)   (* a nil merged tree; unreachable, see [load_merged] *)
           | Some m =>
               match decode_generic m with
               | Err e => (None, diags ++ [file_diag "" (MText ("decoding merged document: " +:+ e))])
               | Ok g =>
                   match schema_validate g with
                   | Some e => (None, diags ++ flatten_verr m e)
                   | None =>
                       match decode_config m with
                       | Err e => (None, diags ++ [file_diag "" (MText ("internal: schema-valid config failed to decode: " +:+ e))])
                       | Ok cfg =>
                           let diags' := diags ++ validateSemantics cfg m ++ suspiciousSecretRefs m in
                           if HasErrors diags' then (None, diags')
                           else (Some (newSnapshot cfg (secretLocations m)), diags')
                       end
                   end
               end
           end
  end.
End Load.

(** ** What a consistent configuration is *)

Definition auth_ok (a : Auth) : Prop :=
  (Mode a = AuthPassword -> is_Some (Admin a) /\ Forward a = None)
  /\ (Mode a = AuthForward -> is_Some (Forward a) /\ Admin a = None)
  /\ (Mode a = AuthNone -> Admin a = None /\ Forward a = None).

(** Ids are unique and every reference between parts of the document is to something declared. *)
Record refs_closed (cfg : Config) : Prop := {
  rc_integrations : NoDup (map in_ID (Integrations cfg));
  rc_cards : NoDup (map card_ID (all_cards cfg));
  rc_rules : NoDup (map rule_ID (Rules cfg));
  rc_card_integration : forall c, c ∈ all_cards cfg -> card_Integration c <> "" ->
    card_Integration c ∈ map in_ID (Integrations cfg);
  rc_slots : forall c slot conn, c ∈ all_cards cfg -> card_Slots c !! slot = Some conn ->
    is_Some (Connections cfg !! conn);
  rc_notify : forall r ch, r ∈ Rules cfg -> ch ∈ Notify r -> is_Some (Channels cfg !! ch);
  rc_when : forall r c, r ∈ Rules cfg -> c ∈ referencedCardIDs (When r) ->
    c ∈ map card_ID (all_cards cfg);
  rc_auth : auth_ok (cfg_Auth cfg) }.

(** The node a list of mapping keys leads to. *)
Fixpoint path_get (n : Node) (path : list string) : option Node :=
  match path with
  | [] => Some n
  | k :: p => match mapLookup n k with Some v => path_get v p | None => None end
  end.

(** The override leaves the path alone: following it, the override runs out of keys inside a
    mapping. *)
Fixpoint untouched (n : Node) (path : list string) : Prop :=
  match path with
  | [] => False
  | k :: p => isMapping n = true
              /\ match mapLookup n k with Some v => untouched v p | None => True end
  end.

(** ** Lemmas on nodes *)

Section NodeInd.
Variable P : Node -> Prop.
Hypothesis Hmk : forall k t v l c f cs, Forall P cs -> P (mkNode k t v l c f cs).
Definition Node_nested_ind : forall n, P n :=
  fix F (n : Node) : P n :=
    match n with
    | mkNode k t v l c f cs =>
        Hmk k t v l c f cs
          ((fix G (l : list Node) : Forall P l :=
              match l with
              | [] => List.Forall_nil P
              | x :: r => List.Forall_cons P x r (F x) (G r)
              end) cs)
    end.
End NodeInd.

Definition flatten (ps : list (Node * Node)) : list Node := concat (map (fun p => [p.1; p.2]) ps).

Lemma pairs_of_flatten ps : pairs_of (flatten ps) = ps.
Proof. unfold flatten. induction ps as [|[k v] ps IH]; [done|]. simpl. by rewrite IH. Qed.

Lemma pairs_of_ind (P : list Node -> Prop) :
  P [] -> (forall k, P [k]) -> (forall k v r, P r -> P (k :: v :: r)) -> forall l, P l.
Proof.
  intros H0 H1 H2. assert (H : forall l, P l /\ forall x, P (x :: l)); [|intros l; apply H].
  induction l as [|a l [IH1 IH2]]; [auto|]. split; [auto|]. intros x. apply H2. destruct l; auto.
Qed.

(** What [merge] does to one pair of the base. *)
Definition upd_pair (ops : list (Node * Node)) (file : string) (p : Node * Node) : Node * Node :=
  match override_by_key ops (n_Value p.1) with
  | Some (ok, ov) => (ok, merge p.2 ov file)
  | None => p
  end.

Definition unseen (base : list (Node * Node)) (ops : list (Node * Node)) : list (Node * Node) :=
  List.filter (fun p => match find_pair base (n_Value p.1) with Some _ => false | None => true end) ops.

Lemma pairsOf_merge b o file :
  isMapping b = true -> isMapping o = true ->
  isMapping (merge b o file) = true
  /\ pairsOf (merge b o file) = map (upd_pair (pairsOf o) file) (pairsOf b) ++ unseen (pairsOf b) (pairsOf o).
Proof.
  destruct b as [k t v l c f cb]. unfold isMapping at 1; simpl. intros Hk Ho. rewrite Hk, Ho. simpl.
  split; [done|]. unfold pairsOf at 1; simpl.
  transitivity (pairs_of (flatten (map (upd_pair (pairsOf o) file) (pairs_of cb) ++ unseen (pairs_of cb) (pairsOf o))));
    [|by rewrite pairs_of_flatten].
  f_equal. unfold flatten. rewrite map_app, concat_app. f_equal.
  - induction cb as [| |x y r IH] using pairs_of_ind; [done|done|].
    assert (Hu : upd_pair (pairsOf o) file (x, y) =
                 match override_by_key (pairsOf o) (n_Value x) with
                 | Some (ok, ov) => (ok, merge y ov file) | None => (x, y) end) by done.
    simpl. rewrite Hu. destruct (override_by_key (pairsOf o) (n_Value x)) as [[ok ov]|];
      simpl; do 2 f_equal; exact IH.
  - unfold unseen. induction (pairsOf o) as [|p r IH]; [done|]. simpl. rewrite IH.
    by destruct (find_pair (pairs_of cb) (n_Value p.1)).
Qed.

Lemma find_pair_app l k key :
  find_pair (l ++ k) key = match find_pair l key with Some p => Some p | None => find_pair k key end.
Proof. induction l as [|[x v] l IH]; [done|]. simpl. by destruct (String.eqb (n_Value x) key). Qed.

Lemma find_pair_Some l key p : find_pair l key = Some p -> p ∈ l /\ n_Value p.1 = key.
Proof.
  induction l as [|[x v] l IH]; [done|]. simpl. destruct (String.eqb (n_Value x) key) eqn:E; bool_prop.
  - intros [= <-]. split; [left|done].
  - intros H. apply IH in H as [H ?]. split; [by right|done].
Qed.

Lemma find_pair_None l key : find_pair l key = None <-> forall p, p ∈ l -> n_Value p.1 <> key.
Proof.
  induction l as [|[x v] l IH]; simpl.
  - split; [|done]. by intros _ p ?%not_elem_of_nil.
  - destruct (String.eqb (n_Value x) key) eqn:E; bool_prop.
    + split; [done|]. intros H. exfalso. apply (H (x, v)); [left|done].
    + rewrite IH. split.
      * intros H p [->|Hp]%elem_of_cons; auto.
      * intros H p Hp. apply H. by right.
Qed.

Lemma find_pair_upd ops file l key :
  find_pair (map (upd_pair ops file) l) key = upd_pair ops file <$> find_pair l key.
Proof.
  induction l as [|[x v] l IH]; [done|]. simpl. unfold upd_pair at 1; simpl.
  destruct (override_by_key ops (n_Value x)) as [[ok ov]|] eqn:Eo.
  - destruct (find_pair_Some _ _ _ Eo) as [_ Hv]. simpl in Hv. rewrite Hv.
    destruct (String.eqb (n_Value x) key); [|done]. simpl. unfold upd_pair; simpl. by rewrite Eo.
  - destruct (String.eqb (n_Value x) key); [|done]. simpl. unfold upd_pair; simpl. by rewrite Eo.
Qed.

Lemma find_pair_unseen base l key :
  find_pair (unseen base l) key = match find_pair base key with Some _ => None | None => find_pair l key end.
Proof.
  induction l as [|[x v] l IH]; simpl; [by destruct (find_pair base key)|].
  destruct (String.eqb (n_Value x) key) eqn:E; bool_prop.
  - subst. destruct (find_pair base (n_Value x)) eqn:Eb; simpl.
    + by rewrite IH.
    + by rewrite String.eqb_refl.
  - destruct (find_pair base (n_Value x)); simpl; [done|].
    by rewrite (proj2 (String.eqb_neq _ _) E).
Qed.

(** The key of a merged mapping: merged when both have it, otherwise the one that has it. *)
Lemma mapLookup_merge b o file key :
  isMapping b = true -> isMapping o = true ->
  mapLookup (merge b o file) key =
  match mapLookup b key, snd <$> override_by_key (pairsOf o) key with
  | Some bv, Some ov => Some (merge bv ov file)
  | Some bv, None => Some bv
  | None, _ => mapLookup o key
  end.
Proof.
  intros Hb Ho. destruct (pairsOf_merge b o file Hb Ho) as [Hm Hp].
  unfold mapLookup. rewrite Hm, Hb, Ho, Hp, find_pair_app, find_pair_upd, find_pair_unseen.
  destruct (find_pair (pairsOf b) key) as [[k v]|] eqn:E; simpl; [|done].
  apply find_pair_Some in E as [_ E]; simpl in E. subst. unfold upd_pair; simpl.
  by destruct (override_by_key (pairsOf o) (n_Value k)) as [[ok ov]|].
Qed.

(** ** Lemmas on duplicate keys *)

Definition pair_keys (l : list (Node * Node)) : list string := map (fun p => n_Value p.1) l.

Lemma dup_pairs_nil file seen l :
  dup_pairs file seen l = [] ->
  NoDup (pair_keys l) /\ forall k, k ∈ pair_keys l -> seen !! k = None.
Proof.
  revert seen; induction l as [|[k v] l IH]; intros seen; simpl.
  - split; [constructor|]. by intros k ?%not_elem_of_nil.
  - destruct (seen !! n_Value k) eqn:E; [done|]. intros H. apply IH in H as [H1 H2]. split.
    + constructor; [|done]. intros Hin. specialize (H2 _ Hin). by rewrite lookup_insert_eq in H2.
    + intros k' [->|Hin]%elem_of_cons; [done|]. specialize (H2 _ Hin).
      rewrite lookup_insert in H2. by case_decide.
Qed.

Lemma find_pair_rev l key : NoDup (pair_keys l) -> find_pair (rev l) key = find_pair l key.
Proof.
  induction l as [|[k v] l IH]; [done|]. simpl. intros H. inversion H as [|? ? Hn Hd]; subst.
  rewrite find_pair_app, IH by done. simpl. destruct (String.eqb (n_Value k) key) eqn:E; bool_prop.
  - subst. assert (Hf : find_pair l (n_Value k) = None); [|by rewrite Hf].
    apply find_pair_None. intros p Hp He. apply Hn. rewrite <- He.
    by apply (elem_of_map_2 (fun p : Node * Node => n_Value p.1)).
  - by destruct (find_pair l key).
Qed.

Lemma pairs_of_sub l p : p ∈ pairs_of l -> p.2 ∈ l.
Proof.
  induction l as [| |k v r IH] using pairs_of_ind; simpl; [by intros ?%not_elem_of_nil..|].
  intros [->|H]%elem_of_cons; [right; left|]. right; right. by apply IH.
Qed.

(** In a tree without duplicate keys the override the merge uses is the one a lookup finds, and
    the subtrees are again without duplicates. *)
Lemma duplicateKeys_lookup file n key :
  duplicateKeys file n = [] -> isMapping n = true ->
  snd <$> override_by_key (pairsOf n) key = mapLookup n key.
Proof.
  unfold mapLookup, override_by_key, isMapping, pairsOf. destruct n as [k t v l c f cs]; simpl.
  intros H Hk. rewrite Hk in *. apply app_eq_nil in H as [H _]. apply dup_pairs_nil in H as [H _].
  by rewrite find_pair_rev.
Qed.

Lemma duplicateKeys_sub file n key v :
  duplicateKeys file n = [] -> mapLookup n key = Some v -> duplicateKeys file v = [].
Proof.
  unfold mapLookup, pairsOf. destruct (isMapping n); [|done]. destruct n as [k t w l c f cs]; simpl.
  intros H Hf. apply app_eq_nil in H as [_ H]. apply concat_map_nil in H.
  apply fmap_Some in Hf as (p & Hp & ->). apply find_pair_Some in Hp as [Hp _].
  apply pairs_of_sub in Hp. rewrite Forall_forall in H. by apply H, Hp.
Qed.

Lemma merge_not_mapping b o file : isMapping b && isMapping o = false -> merge b o file = o.
Proof. destruct b. unfold isMapping at 1; simpl. intros ->. done. Qed.

Lemma merge_override_path b o file path n :
  duplicateKeys file o = [] -> path_get o path = Some n -> isMapping n = false ->
  path_get (merge b o file) path = Some n.
Proof.
  revert b o; induction path as [|k p IH]; intros b o Hd; simpl.
  - intros [= ->] Hn. by rewrite merge_not_mapping, ?Hn by (by rewrite Hn, andb_false_r).
  - intros Ho Hn. destruct (isMapping b && isMapping o) eqn:E; [|by rewrite merge_not_mapping].
    apply andb_true_iff in E as [Hb Hm]. rewrite mapLookup_merge, (duplicateKeys_lookup file) by done.
    destruct (mapLookup o k) as [ov|] eqn:Eo; [|done].
    destruct (mapLookup b k) as [bv|]; [|done]. apply IH; [|done|done].
    by eapply duplicateKeys_sub.
Qed.

Lemma merge_base_path b o file path n :
  duplicateKeys file o = [] -> path_get b path = Some n -> untouched o path ->
  path_get (merge b o file) path = Some n.
Proof.
  revert b o; induction path as [|k p IH]; intros b o Hd; simpl; [done|].
  intros Hb [Hm Hu]. assert (Hbm : isMapping b = true).
  { unfold mapLookup in Hb. by destruct (isMapping b). }
  rewrite mapLookup_merge, (duplicateKeys_lookup file) by done.
  destruct (mapLookup b k) as [bv|] eqn:Eb; [|done].
  destruct (mapLookup o k) as [ov|] eqn:Eo; [|done].
  apply IH; [by eapply duplicateKeys_sub|done|done].
Qed.

(** ** Lemmas on the semantic checks *)

Lemma dup_ids_nil {A} id (diag : nat -> A -> Diagnostic) i seen l :
  dup_ids id diag i seen l = [] <-> NoDup (map id l) /\ forall x, x ∈ l -> id x ∉ seen.
Proof.
  revert i seen; induction l as [|x l IH]; intros i seen; simpl.
  - split; [|done]. intros _. split; [constructor|by intros x ?%not_elem_of_nil].
  - rewrite NoDup_cons. case_bool_decide as Hx; simpl.
    + split; [done|]. intros [_ H]. exfalso. apply (H x); [left|done].
    + rewrite IH. split.
      * intros [H1 H2]. split_and!; [|done|].
        -- intros (y & Hy & He)%elem_of_map. specialize (H2 y He). set_solver.
        -- intros y [->|Hy]%elem_of_cons; [done|]. specialize (H2 y Hy). set_solver.
      * intros [[H1 H2] H3]. split; [done|]. intros y Hy.
        assert (id y ∉ seen) by (apply H3; by right).
        assert (id y <> id x); [|set_solver]. intros He. apply H1. rewrite <- He.
        by apply elem_of_map_2.
Qed.

Lemma if_nil {A} (P : Prop) `{Decision P} (x : A) : (if bool_decide P then [] else [x]) = [] <-> P.
Proof. case_bool_decide; naive_solver. Qed.

(** No id of [l] is repeated or in [seen]. *)
Definition fresh {A} (id : A -> string) (seen : gset string) (l : list A) : Prop :=
  NoDup (map id l) /\ forall x, x ∈ l -> id x ∉ seen.

Lemma fresh_nil {A} (id : A -> string) seen : fresh id seen [].
Proof. split; [constructor|by intros x ?%not_elem_of_nil]. Qed.

Lemma fresh_cons {A} (id : A -> string) seen x l :
  fresh id seen (x :: l) <-> id x ∉ seen /\ fresh id ({[id x]} ∪ seen) l.
Proof.
  unfold fresh. simpl. rewrite NoDup_cons. split.
  - intros [[H1 H2] H3]. split; [apply H3; left|]. split; [done|]. intros y Hy.
    assert (id y ∉ seen) by (apply H3; by right).
    assert (id y <> id x); [|set_solver]. intros He. apply H1. rewrite <- He. by apply elem_of_map_2.
  - intros (H1 & H2 & H3). split_and!; [|done|].
    + intros (y & Hy & He)%elem_of_map. specialize (H3 y He). set_solver.
    + intros y [->|Hy]%elem_of_cons; [done|]. specialize (H3 y Hy). set_solver.
Qed.

Lemma fresh_app {A} (id : A -> string) seen l k :
  fresh id seen (l ++ k) <-> fresh id seen l /\ fresh id (id_set id l ∪ seen) k.
Proof.
  revert seen; induction l as [|x l IH]; intros seen; simpl.
  - assert (E : id_set id ([] : list A) ∪ seen = seen) by (unfold id_set; simpl; set_solver).
    rewrite E. split; [|tauto]. intros H; split; [apply fresh_nil|done].
  - rewrite !fresh_cons, IH.
    assert (E : id_set id l ∪ ({[id x]} ∪ seen) = id_set id (x :: l) ∪ seen)
      by (unfold id_set; simpl; set_solver).
    rewrite E. tauto.
Qed.

Lemma elem_of_id_set {A} (id : A -> string) l x : x ∈ id_set id l <-> x ∈ map id l.
Proof. unfold id_set. by rewrite elem_of_list_to_set. Qed.

(** The references one card makes are declared. *)
Definition card_refs_ok (cfg : Config) (c : Card) : Prop :=
  (card_Integration c <> "" -> card_Integration c ∈ map in_ID (Integrations cfg))
  /\ forall slot conn, card_Slots c !! slot = Some conn -> is_Some (Connections cfg !! conn).

Lemma check_card_refs_nil cfg root path c : check_card_refs cfg root path c = [] <-> card_refs_ok cfg c.
Proof.
  unfold check_card_refs, card_refs_ok. rewrite app_nil_iff, concat_map_nil.
  assert (H1 : (if negb (String.eqb (card_Integration c) "") && negb (bool_decide (card_Integration c ∈ integrationIDs cfg))
     then [errf root (path ++ ["integration"]) (MUndeclaredIntegration (card_ID c) (card_Integration c))] else []) = []
     <-> (card_Integration c <> "" -> card_Integration c ∈ map in_ID (Integrations cfg))).
  { unfold integrationIDs. destruct (String.eqb (card_Integration c) "") eqn:E; bool_prop; simpl; [naive_solver|].
    case_bool_decide as H; rewrite elem_of_id_set in H; naive_solver. }
  rewrite H1. apply and_iff_compat_l. rewrite Forall_forall. split.
  - intros H slot conn Hs. apply elem_of_dom, (if_nil (conn ∈ dom (Connections cfg))
      (errf root (path ++ ["slots"; slot]) (MUndeclaredConnection (card_ID c) slot conn))).
    apply (H (slot, conn)). by apply elem_of_map_to_list.
  - intros H [slot conn] Hs%elem_of_map_to_list. simpl. apply if_nil, elem_of_dom. by eapply H.
Qed.

Lemma check_cards_spec cfg root si ci seen cs :
  (check_cards cfg root si ci seen cs).2 = id_set card_ID cs ∪ seen
  /\ ((check_cards cfg root si ci seen cs).1 = [] <->
      fresh card_ID seen cs /\ Forall (card_refs_ok cfg) cs).
Proof.
  revert ci seen; induction cs as [|c cs IH]; intros ci seen; simpl.
  - split; [unfold id_set; set_solver|]. split; [|done]. intros _. split; [apply fresh_nil|constructor].
  - destruct (IH (S ci) ({[card_ID c]} ∪ seen)) as [E1 E2].
    destruct (check_cards cfg root si (S ci) ({[card_ID c]} ∪ seen) cs) as [ds seen']; simpl in *.
    subst. split; [unfold id_set; simpl; set_solver|].
    rewrite !app_nil_iff, E2, check_card_refs_nil, fresh_cons, Forall_cons.
    case_bool_decide; naive_solver.
Qed.

Lemma check_sections_nil cfg root si seen ss :
  check_sections cfg root si seen ss = [] <->
  fresh card_ID seen (concat (map Cards ss)) /\ Forall (card_refs_ok cfg) (concat (map Cards ss)).
Proof.
  revert si seen; induction ss as [|s ss IH]; intros si seen; simpl.
  - split; [|done]. intros _. split; [apply fresh_nil|constructor].
  - destruct (check_cards_spec cfg root si 0 seen (Cards s)) as [E1 E2].
    destruct (check_cards cfg root si 0 seen (Cards s)) as [ds seen']; simpl in *. subst.
    rewrite app_nil_iff, E2, IH, fresh_app, Forall_app. tauto.
Qed.

Definition rule_refs_ok (cfg : Config) (r : Rule) : Prop :=
  (forall ch, ch ∈ Notify r -> is_Some (Channels cfg !! ch))
  /\ forall c, c ∈ referencedCardIDs (When r) -> c ∈ map card_ID (all_cards cfg).

Lemma check_rule_refs_nil cfg root ri r : check_rule_refs cfg root ri r = [] <-> rule_refs_ok cfg r.
Proof.
  unfold check_rule_refs, rule_refs_ok. rewrite app_nil_iff, concat_imap_nil, concat_map_nil, Forall_forall.
  setoid_rewrite if_nil. unfold channelIDs, cardIDs. setoid_rewrite elem_of_dom.
  setoid_rewrite elem_of_id_set. setoid_rewrite list_elem_of_lookup. naive_solver.
Qed.

Lemma check_rules_nil cfg root ri seen rs :
  check_rules cfg root ri seen rs = [] <->
  fresh rule_ID seen rs /\ Forall (rule_refs_ok cfg) rs.
Proof.
  revert ri seen; induction rs as [|r rs IH]; intros ri seen; cbn [check_rules].
  - split; [|done]. intros _. split; [apply fresh_nil|constructor].
  - rewrite !app_nil_iff, IH, check_rule_refs_nil, fresh_cons, Forall_cons.
    case_bool_decide; naive_solver.
Qed.

Lemma validateAuth_nil root a : validateAuth root a = [] <-> auth_ok a.
Proof.
  unfold validateAuth, auth_ok, AuthPassword, AuthForward, AuthNone.
  destruct (String.eqb (Mode a) "password") eqn:E1; bool_prop.
  { rewrite E1. destruct (Admin a), (Forward a); simpl; split; naive_solver. }
  destruct (String.eqb (Mode a) "forward") eqn:E2; bool_prop.
  { rewrite E2. destruct (Admin a), (Forward a); simpl; split; naive_solver. }
  destruct (String.eqb (Mode a) "none") eqn:E3; bool_prop; [|naive_solver].
  rewrite E3. destruct (Admin a), (Forward a); simpl; split; naive_solver.
Qed.

Lemma semantics_closed cfg root : validateSemantics cfg root = [] <-> refs_closed cfg.
Proof.
  unfold validateSemantics, check_integrations.
  rewrite !app_nil_iff, dup_ids_nil, check_sections_nil, check_rules_nil, validateAuth_nil, !Forall_forall.
  unfold fresh, card_refs_ok, rule_refs_ok. change (concat (map Cards (Sections cfg))) with (all_cards cfg).
  split.
  - intros ([H1 _] & [[H2 _] H3] & [[H4 _] H5] & H6). split; try done.
    + intros c Hc. by apply (H3 c Hc).
    + intros c slot conn Hc. by apply (H3 c Hc).
    + intros r ch Hr. by apply (H5 r Hr).
    + intros r c Hr. by apply (H5 r Hr).
  - intros []. split_and!; try done; eauto with set_solver.
Qed.

(** ** Lemmas on loading *)

Definition all_errors (ds : Diagnostics) : Prop := Forall (fun d => isError d = true) ds.

Lemma all_errors_HasErrors ds : all_errors ds -> HasErrors ds = false -> ds = [].
Proof. intros H. destruct H as [|d ds Hd]; [done|]. simpl. by rewrite Hd. Qed.

Lemma HasErrors_app a b : HasErrors (a ++ b) = HasErrors a || HasErrors b.
Proof. apply existsb_app. Qed.

Lemma Forall_concat_map {A B} (P : B -> Prop) (f : A -> list B) l :
  (forall x, Forall P (f x)) -> Forall P (concat (map f l)).
Proof. intros H. induction l; simpl; [constructor|]. apply Forall_app; auto. Qed.

Lemma dup_ids_errors {A} id (diag : nat -> A -> Diagnostic) i seen l :
  (forall i x, isError (diag i x) = true) -> all_errors (dup_ids id diag i seen l).
Proof.
  intros H. revert i seen; induction l as [|x l IH]; intros i seen; simpl; [constructor|].
  apply Forall_app. split; [|apply IH]. case_bool_decide; repeat constructor; auto.
Qed.

Lemma check_card_refs_errors cfg root path c : all_errors (check_card_refs cfg root path c).
Proof.
  unfold check_card_refs. apply Forall_app. split.
  - case_match; repeat constructor.
  - apply Forall_concat_map. intros p. case_bool_decide; repeat constructor.
Qed.

Lemma check_cards_errors cfg root si ci seen cs : all_errors (check_cards cfg root si ci seen cs).1.
Proof.
  revert ci seen; induction cs as [|c cs IH]; intros ci seen; simpl; [constructor|].
  specialize (IH (S ci) ({[card_ID c]} ∪ seen)).
  destruct (check_cards cfg root si (S ci) ({[card_ID c]} ∪ seen) cs); simpl in *.
  apply Forall_app; split; [case_bool_decide; repeat constructor|].
  apply Forall_app; split; [apply check_card_refs_errors|done].
Qed.

Lemma check_sections_errors cfg root si seen ss : all_errors (check_sections cfg root si seen ss).
Proof.
  revert si seen; induction ss as [|s ss IH]; intros si seen; simpl; [constructor|].
  assert (H := check_cards_errors cfg root si 0 seen (Cards s)).
  destruct (check_cards cfg root si 0 seen (Cards s)); simpl in *.
  apply Forall_app; split; [done|apply IH].
Qed.

Lemma Forall_concat_imap {A B} (P : B -> Prop) (f : nat -> A -> list B) l :
  (forall i x, Forall P (f i x)) -> Forall P (concat (imap f l)).
Proof. revert f. induction l; intros f H; simpl; [constructor|]. apply Forall_app; split; [|apply IHl]; auto. intros; apply H. Qed.

Lemma check_rules_errors cfg root ri seen rs : all_errors (check_rules cfg root ri seen rs).
Proof.
  revert ri seen; induction rs as [|r rs IH]; intros ri seen; cbn [check_rules]; [constructor|].
  apply Forall_app; split; [case_bool_decide; repeat constructor|]. apply Forall_app; split; [|apply IH].
  apply Forall_app; split.
  - apply Forall_concat_imap. intros i x. case_bool_decide; repeat constructor.
  - apply Forall_concat_map. intros x. case_bool_decide; repeat constructor.
Qed.

Lemma validateSemantics_errors cfg root : all_errors (validateSemantics cfg root).
Proof.
  unfold validateSemantics. apply Forall_app; split; [by apply dup_ids_errors|].
  apply Forall_app; split; [apply check_sections_errors|].
  apply Forall_app; split; [apply check_rules_errors|].
  unfold validateAuth. repeat case_match; simpl; repeat constructor.
Qed.

Section VerrInd.
Variable P : ValidationError -> Prop.
Hypothesis Hmk : forall l p m cs, Forall P cs -> P (VErr l p m cs).
Definition verr_nested_ind : forall e, P e :=
  fix F (e : ValidationError) : P e :=
    match e with
    | VErr l p m cs =>
        Hmk l p m cs
          ((fix G (l : list ValidationError) : Forall P l :=
              match l with
              | [] => List.Forall_nil P
              | x :: r => List.Forall_cons P x r (F x) (G r)
              end) cs)
    end.
End VerrInd.

(** A rejection by the schema always yields at least one error. *)
Lemma flatten_verr_error root e : HasErrors (flatten_verr root e) = true.
Proof.
  induction e as [l p m cs IH] using verr_nested_ind. destruct cs as [|c cs]; [done|].
  inversion IH as [|? ? Hc]; subst. cbn [flatten_verr map concat]. by rewrite HasErrors_app, Hc.
Qed.

Lemma index_by_fold {A} (id : A -> string) l (m : gmap string A) x :
  NoDup (map id l) -> x ∈ l -> foldl (fun m x => <[id x := x]> m) m l !! id x = Some x.
Proof.
  revert m; induction l as [|y l IH]; intros m; simpl; [by intros _ ?%not_elem_of_nil|].
  intros H. inversion H as [|? ? Hn Hd]; subst. intros [->|Hx]%elem_of_cons; [|by apply IH].
  clear IH H Hd. assert (Hm : <[id y := y]> m !! id y = Some y) by apply lookup_insert_eq.
  revert Hm. generalize (<[id y := y]> m) as m'.
  induction l as [|z l IH]; intros m' Hm; simpl; [done|]. simpl in Hn.
  apply not_elem_of_cons in Hn as [Hz Hn]. apply IH; [done|]. by rewrite lookup_insert_ne.
Qed.

Lemma index_by_inv {A} (id : A -> string) l k x : index_by id l !! k = Some x -> x ∈ l /\ id x = k.
Proof.
  unfold index_by.
  assert (H : forall m : gmap string A, foldl (fun m x => <[id x := x]> m) m l !! k = Some x ->
              m !! k = Some x \/ x ∈ l /\ id x = k); [|intros H'; apply H in H' as [H'|H']; [|done]; by rewrite lookup_empty in H'].
  induction l as [|y l IH]; intros m; simpl; [by left|]. intros [Hm|[Hx Hk]]%IH.
  - rewrite lookup_insert in Hm. case_decide; simplify_eq; [right; split; [left|done]|by left].
  - right. split; [by right|done].
Qed.

(** The loop over the files ends with a tree unless some file reported an error. *)
Lemma load_merged rf yu paths m :
  paths <> [] \/ is_Some m -> HasErrors (load_files rf yu paths m).1 = false ->
  is_Some (load_files rf yu paths m).2.
Proof.
  revert m; induction paths as [|p paths IH]; intros m Hp; simpl; [naive_solver|].
  destruct (load_file rf yu p) as [ds r] eqn:El.
  assert (Hr : HasErrors ds = false -> is_Some r).
  { revert El. unfold load_file. repeat case_match; intros [= <- <-]; naive_solver. }
  specialize (IH (match r with Some n => merge_opt m (Some n) p | None => m end)).
  destruct (load_files rf yu paths _) as [ds' m']; simpl in *. rewrite HasErrors_app.
  intros [H1 H2]%orb_false_iff. apply IH; [|done]. right.
  destruct (Hr H1) as [n ->]. by destruct m.
Qed.

(** The properties, one per group of lemmas above. *)
Section LoadSpec.
Variable rf : string -> res string string.
Variable yu : string -> res string Node.
Variable G : Type.
Variable dg : Node -> res string G.
Variable sv : G -> option ValidationError.
Variable dc : Node -> res string Config.

Lemma load_cases paths :
  (exists m cfg, (load_files rf yu paths None).2 = Some m /\ dc m = Ok cfg
     /\ HasErrors (Load rf yu G dg sv dc paths).2 = false /\ validateSemantics cfg m = []
     /\ (Load rf yu G dg sv dc paths).1 = Some (newSnapshot cfg (secretLocations m)))
  \/ ((Load rf yu G dg sv dc paths).1 = None /\ HasErrors (Load rf yu G dg sv dc paths).2 = true).
Proof.
  unfold Load. destruct paths as [|p0 ps]; [by right|]. remember (p0 :: ps) as paths.
  assert (Hm := load_merged rf yu paths None). destruct (load_files rf yu paths None) as [ds mo]; simpl in *.
  destruct (HasErrors ds) eqn:Ed; simpl; [by right|].
  destruct Hm as [m ->]; [left; by subst|done|].
  destruct (dg m) as [g|e]; simpl; [|right; by rewrite HasErrors_app, orb_true_r].
  destruct (sv g) as [e|]; simpl; [right; by rewrite HasErrors_app, flatten_verr_error, orb_true_r|].
  destruct (dc m) as [cfg|e] eqn:Edc; simpl; [|right; by rewrite HasErrors_app, orb_true_r].
  destruct (HasErrors (ds ++ _)) eqn:Ev; simpl; [by right|]. left. exists m, cfg.
  split_and!; try done. rewrite !HasErrors_app, !orb_false_iff in Ev.
  apply all_errors_HasErrors; [apply validateSemantics_errors|tauto].
Qed.
End LoadSpec.

(** ** Lemmas on secret references *)

Lemma word_run_app s w r : word_run s = (w, r) -> s = w +:+ r /\ all_bytes isWord w = true.
Proof.
  revert w; induction s as [|c s IH]; intros w; simpl; [intros [= <- <-]; done|].
  destruct (isWord c) eqn:E; [|by intros [= <- <-]].
  destruct (word_run s) as [w' r'] eqn:Ew. intros [= <- <-].
  destruct (IH w' eq_refl) as [-> Hw]. rewrite app_cons_str. simpl. by rewrite E, Hw.
Qed.

Lemma word_run_word w r :
  all_bytes isWord w = true -> word_run (w +:+ String "}" r) = (w, String "}" r).
Proof.
  induction w as [|c w IH]; [done|]. cbn [all_bytes]. intros H; bool_prop.
  rewrite app_cons_str. cbn [word_run]. rewrite H, IH by done. done.
Qed.

Definition reference (name : string) : string := "${secret:" +:+ name +:+ "}".

Lemma ref_here_Some s name r :
  ref_here s = Some (name, r) <->
  s = reference name +:+ r /\ name <> "" /\ all_bytes isWord name = true.
Proof.
  unfold ref_here, reference. split.
  - destruct (strip_prefix "${secret:" s) as [t|] eqn:E; [|done]. apply strip_prefix_Some in E as ->.
    destruct (word_run t) as [w u] eqn:Ew. apply word_run_app in Ew as [-> Hw].
    destruct w as [|c w]; [done|]. destruct u as [|d u]; [done|].
    destruct (decide (d = "}"%char)) as [->|Hd].
    + intros [= <- <-]. split_and!; [|done|done]. by rewrite !app_assoc_str.
    + intros H. exfalso. revert H. all_ascii d; done.
  - intros (-> & Hne & Hw). rewrite !app_assoc_str, strip_prefix_app.
    change ("}" +:+ r) with (String "}" r). rewrite word_run_word by done. by destruct name.
Qed.

(** The scan finds exactly the well-formed references that occur in the text. *)
Lemma occurrences_exact s name :
  name ∈ secretRefOccurrences s <->
  (exists a b, s = a +:+ reference name +:+ b) /\ name <> "" /\ all_bytes isWord name = true.
Proof.
  induction s as [|c s IH]; cbn [secretRefOccurrences].
  - split; [by intros ?%not_elem_of_nil|]. intros [(a & b & H) _].
    assert (HL := f_equal String.length H). unfold reference in HL.
    rewrite !length_app_str in HL. simpl in HL. lia.
  - assert (Hstep : name ∈ (match ref_here (String c s) with
                             | Some (n, _) => n :: secretRefOccurrences s
                             | None => secretRefOccurrences s end)
       <-> (exists r, ref_here (String c s) = Some (name, r)) \/ name ∈ secretRefOccurrences s).
    { destruct (ref_here (String c s)) as [[n r]|]; [rewrite elem_of_cons|]; naive_solver. }
    rewrite Hstep, IH. split.
    + intros [[r Hr%ref_here_Some]|((a & b & ->) & H)].
      * destruct Hr as (-> & Hn & Hw). split; [by exists "", r|done].
      * split; [by exists (String c a), b|done].
    + intros [(a & b & H) [Hn Hw]]. destruct a as [|d a].
      * left. exists b. apply ref_here_Some. by split_and!.
      * right. rewrite app_cons_str in H. injection H as -> ->. split; [by exists a, b|done].
Qed.

(** The scalars of a tree that do not sit under a disabled connection. *)
Inductive active_in : Node -> Node -> Prop :=
| active_here n : disabledConnectionNode n = false -> active_in n n
| active_sub n c x : disabledConnectionNode n = false -> c ∈ n_Content n -> active_in c x -> active_in n x.

Lemma secretLocations_unfold n :
  secretLocations n =
  if disabledConnectionNode n then [] else scalar_locations n ++ concat (map secretLocations (n_Content n)).
Proof. by destruct n. Qed.

Lemma elem_of_concat_map {A B} (f : A -> list B) l y :
  y ∈ concat (map f l) <-> exists x, x ∈ l /\ y ∈ f x.
Proof.
  induction l as [|x l IH]; simpl.
  - split; [by intros ?%not_elem_of_nil|]. by intros (x & ?%not_elem_of_nil & _).
  - rewrite elem_of_app, IH. setoid_rewrite elem_of_cons. naive_solver.
Qed.

Lemma scalar_locations_exact n l :
  l ∈ scalar_locations n <->
  n_Kind n = ScalarNode /\ exists name, name ∈ secretRefOccurrences (n_Value n)
    /\ l = {| loc_Name := name; loc_File := fileOf n; loc_Line := n_Line n; loc_Column := n_Column n |}.
Proof.
  unfold scalar_locations. case_bool_decide as H; [|split; [by intros ?%not_elem_of_nil|naive_solver]].
  rewrite elem_of_map. naive_solver.
Qed.

Lemma secretLocations_exact root l :
  l ∈ secretLocations root <-> exists n, active_in root n /\ l ∈ scalar_locations n.
Proof.
  induction root as [k t v li c f cs IH] using Node_nested_ind.
  set (root := mkNode k t v li c f cs) in *. rewrite secretLocations_unfold.
  destruct (disabledConnectionNode root) eqn:E.
  { split; [by intros ?%not_elem_of_nil|]. intros (n & H & _). inversion H; subst; congruence. }
  rewrite elem_of_app, elem_of_concat_map. rewrite Forall_forall in IH. split.
  - intros [H|(x & Hx & H)]; [by exists root; split; [constructor|]|].
    apply (IH x Hx) in H as (n & Hn & Hl). exists n. split; [|done]. by eapply active_sub.
  - intros (n & H & Hl). inversion H as [|? x ? ? Hx Hn]; subst; [by left|].
    right. exists x. split; [done|]. apply (IH x Hx). eauto.
Qed.

(** ** The properties *)

(** Merging a conf.d file (without duplicate keys) over the accumulated configuration: every
    value the file sets that is not itself a mapping is in the result at the same path, and every
    value of the base at a path the file leaves alone is kept, whatever the nesting depth. *)
Theorem merge_override_or_keep b o file :
  duplicateKeys file o = [] ->
  (forall path n, path_get o path = Some n -> isMapping n = false ->
     path_get (merge b o file) path = Some n)
  /\ (forall path n, path_get b path = Some n -> untouched o path ->
     path_get (merge b o file) path = Some n).
Proof.
  intros Hd. split; intros path n; [by apply merge_override_path | by apply merge_base_path].
Qed.

Definition sample_scalar (v : string) : Node := mkNode ScalarNode "!!str" v 1 1 None [].
Definition sample_map (l : list (string * Node)) : Node :=
  mkNode MappingNode "!!map" "" 1 1 None (flatten (map (fun p => (sample_scalar p.1, p.2)) l)).
Definition sample_base : Node :=
  sample_map [("server", sample_map [("listen", sample_scalar ":80"); ("dataDir", sample_scalar "/d")])].
Definition sample_over : Node :=
  sample_map [("server", sample_map [("listen", sample_scalar ":81")])].

Example merge_override_or_keep_witness :
  duplicateKeys "b.yaml" sample_over = []
  /\ path_get (merge sample_base sample_over "b.yaml") ["server"; "listen"] = Some (sample_scalar ":81")
  /\ path_get (merge sample_base sample_over "b.yaml") ["server"; "dataDir"] = Some (sample_scalar "/d").
Proof.
  split_and!; [reflexivity| |].
  - apply (proj1 (merge_override_or_keep sample_base sample_over "b.yaml" eq_refl)); reflexivity.
  - apply (proj2 (merge_override_or_keep sample_base sample_over "b.yaml" eq_refl)); [reflexivity|].
    vm_compute. tauto.
Defined.

(** [Load] returns a snapshot exactly when no diagnostic is an error, and in the configuration
    of a returned snapshot ids are unique and every integration, connection, channel and card that
    a card or rule names is declared; the snapshot's indices find exactly the declared cards and
    integrations. *)
Theorem load_sound rf yu G dg sv dc paths :
  let r := Load rf yu G dg sv dc paths in
  (is_Some r.1 <-> HasErrors r.2 = false)
  /\ forall snap, r.1 = Some snap ->
     refs_closed (snap_Config snap)
     /\ (forall id c, CardByID snap id = Some c <-> c ∈ all_cards (snap_Config snap) /\ card_ID c = id)
     /\ (forall id i, IntegrationByID snap id = Some i <-> i ∈ Integrations (snap_Config snap) /\ in_ID i = id).
Proof.
  intros r. subst r.
  destruct (load_cases rf yu G dg sv dc paths) as [(m & cfg & Hm & Hc & He & Hv%semantics_closed & Hs)|[Hn He]].
  - rewrite Hs, He. split; [naive_solver|]. intros snap [= <-]. simpl.
    destruct Hv as [Hi Hcd]. split_and!; [by split| |]; unfold CardByID, IntegrationByID; simpl;
      (intros id x; split; [apply index_by_inv|]); intros [Hx <-]; by apply index_by_fold.
  - rewrite Hn, He. split; [|done]. split; [by intros [? ?]|done].
Qed.

Definition sample_config : Config :=
  {| Version := 1;
     cfg_Server := {| Listen := ":80"; DataDir := "/d"; srv_BaseURL := ""; srv_TrustedProxies := [] |};
     cfg_Auth := {| Mode := "none"; Admin := None; Forward := None; SessionTTL := "" |};
     cfg_Dashboard := {| dash_Title := "t"; Appearance := ""; Background := "";
                         dash_Layout := {| Columns := 0; Gap := "" |}; GroupBy := "" |};
     Connections := ∅; Integrations := [{| in_ID := "a"; in_Source := "builtin:a"; in_Enabled := None; in_Description := "" |}];
     Sections := [{| sec_Title := "s"; Collapsed := false; Cards :=
       [{| card_ID := "c1"; card_Title := ""; card_Href := ""; card_Icon := ""; card_Integration := "a";
           card_Operation := "op"; card_Slots := ∅; card_Params := []; card_View := []; card_Refresh := "";
           card_Span := {| span_Columns := 0; span_Rows := 0 |}; card_Tags := [] |}] |}];
     Rules := [{| rule_ID := "r"; When := bytes_of [115; 116; 97; 116; 101; 40; 34; 99; 49; 34; 41]%N; For := "";
                  rule_Severity := ""; Notify := []; Resolve := false |}];
     Channels := ∅ |}.

Example load_sound_witness :
  let r := Load (fun _ => Ok "x") (fun _ => Ok (mkNode DocumentNode "" "" 1 1 None [sample_base]))
                unit (fun _ => Ok tt) (fun _ => None) (fun _ => Ok sample_config) ["veduta.yaml"] in
  referencedCardIDs (bytes_of [115; 116; 97; 116; 101; 40; 34; 99; 49; 34; 41]%N) = ["c1"]
  /\ is_Some r.1 /\ HasErrors r.2 = false.
Proof.
  split_and!; [reflexivity| |reflexivity].
  apply (proj1 (load_sound (fun _ => Ok "x") (fun _ => Ok (mkNode DocumentNode "" "" 1 1 None [sample_base]))
                unit (fun _ => Ok tt) (fun _ => None) (fun _ => Ok sample_config) ["veduta.yaml"])).
  reflexivity.
Defined.

(** The secret locations recorded for a configuration are exactly the occurrences of
    [${secret:NAME}] with a non-empty word as NAME in a scalar that is not inside a disabled
    connection, each with that scalar's file, line and column. *)
Theorem secret_locations_exact root l :
  l ∈ secretLocations root <->
  exists n, active_in root n /\ n_Kind n = ScalarNode
    /\ (exists a b, n_Value n = a +:+ reference (loc_Name l) +:+ b)
    /\ loc_Name l <> "" /\ all_bytes isWord (loc_Name l) = true
    /\ loc_File l = fileOf n /\ loc_Line l = n_Line n /\ loc_Column l = n_Column n.
Proof.
  rewrite secretLocations_exact. setoid_rewrite scalar_locations_exact.
  setoid_rewrite occurrences_exact. split.
  - intros (n & Ha & Hk & name & ((Hs & Hn & Hw) & ->)). exists n. by split_and!.
  - intros (n & Ha & Hk & Hs & Hn & Hw & Hf & Hl & Hc). exists n. split; [done|]. split; [done|].
    exists (loc_Name l). split; [done|]. destruct l; simpl in *. by subst.
Qed.
