(* ===== verification/Manifest.v ===== *)
(** * internal/integrations/manifestload: what a manifest may say

    The types of types.go, the loader of load.go and the synthesised manifest of httpjson.go. The YAML
    library is a parser of text to nodes and the decoding of a node into a Go value; the expression
    library is a parser, the order [ast.Walk] visits an expression's nodes in, and a printer. *)
From S2P Require Import Prelude GoPath GoAny RoutePath Config Canonical.

(** ** types.go *)

Record SlotSpec := { ss_Name : string; ss_Kind : string; ss_Required : bool }.
Record SignalDecl := { sd_Name : string; sd_Type : string; sd_Unit : string; sd_History : bool }.

(** [manifestload.Route] *)
Record MRoute := {
  mr_Slot : string; mr_Method : string; mr_Path : string; mr_Use : string; mr_ContentType : string;
  mr_QueryKeys : option (list string); mr_MaxBodyKB : Z }.

(** [manifestload.Limits]: zero is an omitted limit. *)
Record MLimits := {
  ml_MemoryMB : Z; ml_TimeoutMs : Z; ml_OutputKB : Z; ml_HTTPRequests : Z; ml_ResponseMB : Z; ml_CacheEntries : Z;
  ml_InputMB : Z; ml_JSONDepth : Z; ml_JSONNodes : Z; ml_ExprNodes : Z; ml_Iterations : Z; ml_RequestBodyKB : Z;
  ml_HostCalls : Z; ml_CacheBytesKB : Z }.

Definition or_default (v d : Z) : Z := if (v =? 0)%Z then d else v.

Definition WithDefaults (l : MLimits) : MLimits :=
  {| ml_MemoryMB := or_default (ml_MemoryMB l) 64; ml_TimeoutMs := or_default (ml_TimeoutMs l) 3000;
     ml_OutputKB := or_default (ml_OutputKB l) 64; ml_HTTPRequests := or_default (ml_HTTPRequests l) 8;
     ml_ResponseMB := or_default (ml_ResponseMB l) 4; ml_CacheEntries := or_default (ml_CacheEntries l) 64;
     ml_InputMB := or_default (ml_InputMB l) 4; ml_JSONDepth := or_default (ml_JSONDepth l) 32;
     ml_JSONNodes := or_default (ml_JSONNodes l) 200000; ml_ExprNodes := or_default (ml_ExprNodes l) 512;
     ml_Iterations := or_default (ml_Iterations l) 20000; ml_RequestBodyKB := or_default (ml_RequestBodyKB l) 64;
     ml_HostCalls := or_default (ml_HostCalls l) 256; ml_CacheBytesKB := or_default (ml_CacheBytesKB l) 256 |}.

Definition zero_limits : MLimits :=
  {| ml_MemoryMB := 0; ml_TimeoutMs := 0; ml_OutputKB := 0; ml_HTTPRequests := 0; ml_ResponseMB := 0; ml_CacheEntries := 0;
     ml_InputMB := 0; ml_JSONDepth := 0; ml_JSONNodes := 0; ml_ExprNodes := 0; ml_Iterations := 0; ml_RequestBodyKB := 0;
     ml_HostCalls := 0; ml_CacheBytesKB := 0 |}.

Record Expression := { ex_Source : string; ex_Line : Z; ex_Column : Z; ex_Nodes : Z }.

(** [Template] by its [Kind]; a [*Template] that can be nil is an option, a map is its entries in
    whatever order it is ranged in. *)
Inductive Template :=
| TLiteral (v : any) | TObject (m : list (string * Template)) | TArray (l : list Template) | TExpr (e : Expression)
| TAsset (slot : string) (path : option Template) (query : list (string * option Template)) (transform : string)
| TEach (e : Expression) (name : string) (item : Template) | TCond (cond : Expression) (body : Template).

Record BodyDef := { bd_JSON : option Template; bd_Form : option (list (string * option Template)) }.
Record RequestDef := {
  rqd_Slot : string; rqd_Method : string; rqd_Path : option Template; rqd_PathTemplate : option RoutePath.Template;
  rqd_Query : list (string * option Template); rqd_Headers : list (string * option Template); rqd_Body : option BodyDef }.
Record PipelineStep := { ps_As : string; ps_When : option Expression; ps_Request : RequestDef }.

Record OperationDef := {
  op_ID : string; op_Name : string; op_DefaultRefresh : string; op_Params : any; op_Routes : list MRoute;
  op_Signals : list SignalDecl; op_Pipeline : list PipelineStep; op_Output : option Template }.

(** [manifestload.Manifest] *)
Record MManifest := {
  mm_Path : string; mm_Digest : string; mm_ID : string; mm_Name : string; mm_Version : string; mm_Runtime : string;
  mm_Module : string; mm_ModuleSHA256 : string; mm_Capabilities : list string; mm_Slots : list SlotSpec;
  mm_Limits : MLimits; mm_Operations : list OperationDef }.

Definition set_PathTemplate (r : RequestDef) (tpl : RoutePath.Template) : RequestDef :=
  {| rqd_Slot := rqd_Slot r; rqd_Method := rqd_Method r; rqd_Path := rqd_Path r; rqd_PathTemplate := Some tpl;
     rqd_Query := rqd_Query r; rqd_Headers := rqd_Headers r; rqd_Body := rqd_Body r |}.
Definition slot_spec (name kind : string) (required : option bool) : SlotSpec :=
  {| ss_Name := name; ss_Kind := kind; ss_Required := default true required |}.
Definition set_operations (m : MManifest) (ops : list OperationDef) : MManifest :=
  {| mm_Path := mm_Path m; mm_Digest := mm_Digest m; mm_ID := mm_ID m; mm_Name := mm_Name m; mm_Version := mm_Version m;
     mm_Runtime := mm_Runtime m; mm_Module := mm_Module m; mm_ModuleSHA256 := mm_ModuleSHA256 m; mm_Capabilities := mm_Capabilities m;
     mm_Slots := mm_Slots m; mm_Limits := mm_Limits m; mm_Operations := ops |}.

(** ** load.go: the decoded manifest

    A [nodeValue] holds a node, unless the value is absent or null. *)
Record rawBody := { rb_JSON : option Node; rb_Form : option (list (string * option Node)) }.
Record rawRequest := {
  rr_Slot : string; rr_Method : string; rr_Path : option Node; rr_Query : list (string * option Node);
  rr_Headers : list (string * option Node); rr_Body : option rawBody }.
Record rawStep := { rs_As : string; rs_When : option Node; rs_Request : rawRequest }.
Record rawOperation := {
  ro_ID : string; ro_Name : string; ro_DefaultRefresh : string; ro_Params : any; ro_Routes : list MRoute;
  ro_Signals : list SignalDecl; ro_Pipeline : list rawStep; ro_Output : option Node }.
Record rawSlot := { rsl_Name : string; rsl_Kind : string; rsl_Required : option bool }.
Record rawManifest := {
  rm_ID : string; rm_Name : string; rm_Version : string; rm_Runtime : string; rm_Module : string; rm_SHA256 : string;
  rm_Capabilities : list string; rm_Slots : list rawSlot; rm_Limits : MLimits; rm_Operations : list rawOperation }.

(** The struct an asset node is decoded into. *)
Record rawAsset := {
  ra_Slot : string; ra_Transform : string; ra_Path : option Node; ra_Query : list (string * option Node) }.

Inductive load_error :=
| LRead (e : string) | LTooLarge | LYaml (e : string) | LEmpty | LAlias (line column : Z) | LDuplicate (key : string) (line column : Z)
| LTreeLimit | LDecode (e : string) | LSchema (e : string) | LDigest (e : canonical_error) | LDigestPanic
| LUnsupportedNode (line column : Z) | LMissingValue | LFuel
| LParse (e : string) | LForbidden (name : string) | LMatches | LCustomCall | LUnsupportedExpr | LExprNodes (n : Z)
| LNoHTTP | LUndeclaredSlot (slot : string) | LPathNotLiteral | LPathNotString | LPath (e : path_error)
| LNoParameter (name : string) | LParameterType (name : string) | LParameterOptional (name : string)
| LNoRoute (method path : string) | LNoAssets | LAssetPathNotString | LNoAssetRoute (path : string) | LUndeclaredSignal (name : string)
| LOperationExpr (n : Z) | LTemplateLimit | LManifestExpr (n : Z) | LLiterals | LMethod (method : string).

Definition maxManifestBytes : Z := 256 * 1024.

(** ** Expressions

    The node types of the expression library's tree, as the code tells them apart; [OtherNode] is any
    type the code does not name. *)
Module Ast.
Inductive Node :=
| NilNode | IntegerNode (z : Z) | FloatNode (f : Float64) | BoolNode (b : bool) | StringNode (s : string) | ConstantNode | BytesNode
| IdentifierNode (Value : string) | UnaryNode (Operator : string) (n : Node) | BinaryNode (Operator : string) (Left Right : Node)
| ChainNode (n : Node) | MemberNode (n Property : Node) | SliceNode (n from to : Node) | CallNode (Callee : Node) (Arguments : list Node)
| BuiltinNode (Name : string) (Arguments : list Node) | PredicateNode (n : Node) | PointerNode (Name : string)
| VariableDeclaratorNode (Name : string) (Value Expr : Node) | SequenceNode (Nodes : list Node)
| ConditionalNode (Cond Exp1 Exp2 : Node) | ArrayNode (Nodes : list Node) | MapNode (Pairs : list Node) | PairNode (Key Value : Node)
| OtherNode.
End Ast.

Definition CoreFunctions (name : string) : bool := String.eqb name "fromUnix" || String.eqb name "unix".

(** What [Visit] finds wrong with one node. *)
Definition node_error (n : Ast.Node) : option load_error :=
  match n with
  | Ast.IdentifierNode v => if String.eqb v "$env" || HasPrefix v "__" then Some (LForbidden v) else None
  | Ast.BinaryNode op _ _ => if String.eqb op "matches" then Some LMatches else None
  | Ast.CallNode callee _ =>
      match callee with
      | Ast.IdentifierNode v => if CoreFunctions v then None else Some LCustomCall
      | _ => Some LCustomCall
      end
  | Ast.VariableDeclaratorNode _ _ _ | Ast.SequenceNode _ | Ast.SliceNode _ _ _ | Ast.ChainNode _ | Ast.BytesNode => Some LUnsupportedExpr
  | Ast.NilNode | Ast.IntegerNode _ | Ast.FloatNode _ | Ast.BoolNode _ | Ast.StringNode _ | Ast.ConstantNode
  | Ast.UnaryNode _ _ | Ast.MemberNode _ _ | Ast.BuiltinNode _ _ | Ast.PredicateNode _ | Ast.PointerNode _
  | Ast.ConditionalNode _ _ _ | Ast.ArrayNode _ | Ast.MapNode _ | Ast.PairNode _ _ => None
  | Ast.OtherNode => Some LUnsupportedExpr
  end.

Record exprVisitor := { ev_count : Z; ev_err : option load_error }.
Definition Visit (v : exprVisitor) (n : Ast.Node) : exprVisitor :=
  {| ev_count := ev_count v + 1; ev_err := match node_error n with Some e => Some e | None => ev_err v end |}.

(** ** The tree limits *)

Record yamlStats := { ys_nodes : Z; ys_depth : Z }.

(** The first key that repeats an earlier one. *)
Fixpoint repeated_key (seen : gset string) (l : list Node) : option Node :=
  match l with
  | [] => None
  | k :: r => if decide (n_Value k ∈ seen) then Some k
              else match r with [] => None | _ :: r => repeated_key ({[n_Value k]} ∪ seen) r end
  end.

Fixpoint walkYAML (n : Node) (d : Z) (s : yamlStats) : res load_error yamlStats :=
  let s := {| ys_nodes := ys_nodes s + 1; ys_depth := if (ys_depth s <? d)%Z then d else ys_depth s |} in
  match n with
  | mkNode AliasNode _ _ line column _ _ => Err (LAlias line column)
  | mkNode kind _ _ _ _ _ content =>
      match (if decide (kind = MappingNode) then repeated_key ∅ content else None) with
      | Some k => Err (LDuplicate (n_Value k) (n_Line k) (n_Column k))
      | None => (fix children (l : list Node) (s : yamlStats) : res load_error yamlStats :=
                   match l with [] => Ok s | c :: r => let! s := walkYAML c (d + 1) s in children r s end) content s
      end
  end.

(** ** Templates *)

(** What a mapping node is, by the keys it has. *)
Inductive mapping_form := FExpr | FAsset (a : Node) | FCond (c body : Node) | FEach (e name item : Node) | FObject.
(** The entries of a mapping node, [None] where a key has no value: indexing it panics. *)
Fixpoint entries_of (l : list Node) : option (list (Node * Node)) :=
  match l with
  | [] => Some []
  | [_] => None
  | k :: v :: r => es ← entries_of r; Some ((k, v) :: es)
  end.

(** Assignment to a map: a key that is there keeps its place. *)
Fixpoint assign_key {A} (k : string) (v : A) (m : list (string * A)) : list (string * A) :=
  match m with
  | [] => [(k, v)]
  | (k', v') :: r => if String.eqb k' k then (k, v) :: r else (k', v') :: assign_key k v r
  end.

(** A loop that threads the running total of expression nodes. *)
Fixpoint each_total {A B} (f : A -> Z -> res load_error (B * Z)) (l : list A) (total : Z) : res load_error (list B * Z) :=
  match l with
  | [] => Ok ([], total)
  | x :: r => let! (y, total) := f x total in let! (ys, total) := each_total f r total in Ok (y :: ys, total)
  end.

Definition form_of (keys : list (string * Node)) : mapping_form :=
  match assoc "expr" keys, length keys with
  | Some _, 1 => FExpr
  | _, _ => match assoc "asset" keys, length keys with
            | Some a, 1 => FAsset a
            | _, _ => match assoc "if" keys, assoc "then" keys, length keys with
                      | Some c, Some body, 2 => FCond c body
                      | _, _, _ => match assoc "each" keys, assoc "as" keys, assoc "item" keys, length keys with
                                   | Some e, Some name, Some item, 3 => FEach e name item
                                   | _, _, _, _ => FObject
                                   end
                      end
            end
  end.

Section Load.
Variable parser_Parse : string -> res string Ast.Node.
Variable ast_Walk : Ast.Node -> list Ast.Node.               (* the nodes visited, in order *)
Variable decode_value : Node -> res string any.              (* n.Decode(&v) with v any *)
Variable decode_expr : Node -> res string string.            (* into struct{ Expr string } *)
Variable decode_asset : Node -> res string rawAsset.
Variable decode_manifest : Node -> res string rawManifest.
Variable yaml_unmarshal : string -> res string Node.
Variable validateSchema : any -> option string.
(** The arguments of [canonical.DigestBytes]. *)
Variable yaml_documents : string -> list (res string (yaml * (nat -> yaml))).
Variable json_document : string -> res string (any * bool).
Variable sha256 : string -> string.
Variable strings_ToLower : string -> string.

Definition lift_err {A} (f : string -> load_error) (m : res string A) : res load_error A := res_map_err f m.

Definition compileExprSource (src : string) (line col max : Z) : res load_error Expression :=
  let! tree := lift_err LParse (parser_Parse src) in
  let v := foldl Visit {| ev_count := 0; ev_err := None |} (ast_Walk tree) in
  match ev_err v with
  | Some e => Err e
  | None => if (max <? ev_count v)%Z then Err (LExprNodes (ev_count v))
            else Ok {| ex_Source := src; ex_Line := line; ex_Column := col; ex_Nodes := ev_count v |}
  end.

Definition compileExprNode (n : Node) (max : Z) : res load_error Expression :=
  let! src := lift_err LDecode (decode_expr n) in compileExprSource src (n_Line n) (n_Column n) max.

Section Compile.
Variable compile : Node -> Z -> res load_error (Template * Z).
Definition compile_nil (n : option Node) (total : Z) : res load_error (option Template * Z) :=
  match n with None => Ok (None, total) | Some n => let! (t, total) := compile n total in Ok (Some t, total) end.
Definition compile_entry (e : string * option Node) (total : Z) : res load_error ((string * option Template) * Z) :=
  let! (t, total) := compile_nil e.2 total in Ok ((e.1, t), total).
Definition compileMap (m : list (string * option Node)) (total : Z) : res load_error (list (string * option Template) * Z) :=
  each_total compile_entry m total.
Definition compile_field (e : Node * Node) (total : Z) : res load_error ((string * Template) * Z) :=
  let! (t, total) := compile e.2 total in Ok ((n_Value e.1, t), total).
Definition counted (x : Expression) (total : Z) : Z := (total + ex_Nodes x)%Z.

Definition compile_mapping (n : Node) (total max : Z) : res load_error (Template * Z) :=
  match entries_of (n_Content n) with
  | None => Err LMissingValue
  | Some es =>
      match form_of (foldl (fun m e => assign_key (n_Value e.1) e.2 m) [] es) with
      | FExpr => let! x := compileExprNode n max in Ok (TExpr x, counted x total)
      | FAsset a =>
          let! raw := lift_err LDecode (decode_asset a) in
          let! (p, total) := compile_nil (ra_Path raw) total in
          let! (q, total) := compileMap (ra_Query raw) total in
          Ok (TAsset (ra_Slot raw) p q (ra_Transform raw), total)
      | FCond c body =>
          let! x := compileExprNode c max in
          let! (body, total) := compile body (counted x total) in
          Ok (TCond x body, total)
      | FEach e name item =>
          let! x := compileExprNode e max in
          let! (item, total) := compile item (counted x total) in
          Ok (TEach x (n_Value name) item, total)
      | FObject =>
          let! (m, total) := each_total compile_field es total in
          Ok (TObject (foldl (fun m e => assign_key e.1 e.2 m) [] m), total)
      end
  end.
End Compile.

(** [compileTemplate] of a node; the depth of the tree bounds the recursion. *)
Fixpoint compileTemplate (fuel : nat) (max : Z) (n : Node) (total : Z) : res load_error (Template * Z) :=
  match fuel with
  | 0 => Err LFuel
  | S fuel =>
      match n_Kind n with
      | ScalarNode => let! v := lift_err LDecode (decode_value n) in Ok (TLiteral v, total)
      | SequenceNode => let! (l, total) := each_total (compileTemplate fuel max) (n_Content n) total in Ok (TArray l, total)
      | MappingNode => compile_mapping (compileTemplate fuel max) n total max
      | _ => Err (LUnsupportedNode (n_Line n) (n_Column n))
      end
  end.

(** [walkYAML] has refused deeper trees. *)
Definition tree_fuel : nat := 33.

(** ** The size of a template *)

Record templateStats := { ts_nodes : Z; ts_depth : Z; ts_literalBytes : Z }.
Definition count_nil (f : Template -> Z -> templateStats -> templateStats) (t : option Template) (d : Z) (s : templateStats) : templateStats :=
  match t with None => s | Some t => f t d s end.
Fixpoint countTemplate (t : Template) (d : Z) (s : templateStats) : templateStats :=
  let s := {| ts_nodes := ts_nodes s + 1; ts_depth := if (ts_depth s <? d)%Z then d else ts_depth s;
              ts_literalBytes := match t with TLiteral (AString x) => (ts_literalBytes s + Z.of_nat (String.length x))%Z | _ => ts_literalBytes s end |} in
  match t with
  | TLiteral _ | TExpr _ => s
  | TObject m => foldl (fun s p => countTemplate p.2 (d + 1) s) s m
  | TArray l => foldl (fun s x => countTemplate x (d + 1) s) s l
  | TEach _ _ item => countTemplate item (d + 1) s
  | TCond _ body => countTemplate body (d + 1) s
  | TAsset _ path query _ =>
      foldl (fun s q => match q.2 with Some t => countTemplate t (d + 1) s | None => s end)
            (match path with Some t => countTemplate t (d + 1) s | None => s end) query
  end.

(** ** Requests *)

Definition hasCapability (m : MManifest) (want : string) : bool := existsb (String.eqb want) (mm_Capabilities m).
Definition has_slot (m : MManifest) (name : string) : bool := existsb (fun s => String.eqb (ss_Name s) name) (mm_Slots m).

(** A type assertion to a map: [None] is the nil map, which has no entries either. *)
Definition field (k : string) (v : any) : option any := assoc k (as_map v).

Definition placeholderParam (op : OperationDef) (name : string) : option load_error :=
  match field name (default ANil (field "properties" (op_Params op))) with
  | Some (AMap prop) =>
      let t := as_string (default ANil (assoc "type" prop)) in
      if negb (String.eqb t "string") && negb (String.eqb t "integer") then Some (LParameterType name)
      else match assoc "default" prop with
           | Some _ => None
           | None => if existsb (fun r => match r with AString s => String.eqb s name | _ => false end)
                                (as_list (default ANil (field "required" (op_Params op))))
                     then None else Some (LParameterOptional name)
           end
  | _ => Some (LNoParameter name)
  end.

Definition routeCoversRequest (r : MRoute) (req : RequestDef) : bool :=
  match mr_QueryKeys r with
  | None => true
  | Some keys => forallb (fun q => existsb (String.eqb q.1) keys) (rqd_Query req)
  end
  && match rqd_Body req with
     | None => true
     | Some b =>
         let want := match bd_Form b with Some _ => "application/x-www-form-urlencoded" | None => "application/json" end in
         String.eqb (mr_ContentType r) "" || HasPrefix (strings_ToLower (mr_ContentType r)) want
     end.

Definition data_use (rt : MRoute) : bool := String.eqb (mr_Use rt) "" || String.eqb (mr_Use rt) "data".

(** The template [validateRequest] sets as the request's [PathTemplate]. *)
Definition validateRequest (m : MManifest) (op : OperationDef) (r : RequestDef) : res load_error RoutePath.Template :=
  if negb (hasCapability m "http") then Err LNoHTTP
  else if negb (has_slot m (rqd_Slot r)) then Err (LUndeclaredSlot (rqd_Slot r))
  else match rqd_Path r with
       | Some (TLiteral (AString p)) =>
           let! tpl := res_map_err LPath (ParseTemplate p) in
           match omap (placeholderParam op) (Placeholders tpl) with
           | e :: _ => Err e
           | [] =>
               if existsb (fun rt => String.eqb (mr_Slot rt) (rqd_Slot r) && String.eqb (mr_Method rt) (rqd_Method r) && data_use rt
                                     && CoveredBy tpl (mr_Path rt) && routeCoversRequest rt r) (op_Routes op)
               then Ok tpl else Err (LNoRoute (rqd_Method r) p)
           end
       | Some (TLiteral _) => Err LPathNotString
       | _ => Err LPathNotLiteral
       end.

(** ** The output *)

Definition asset_route (slot cp : string) (r : MRoute) : bool :=
  match Canonicalise (mr_Path r) with
  | Ok rp => String.eqb (mr_Slot r) slot && String.eqb (mr_Use r) "asset" && String.eqb (mr_Method r) "GET" && Match rp cp
  | Err _ => false
  end.

(** [validateOutput]'s check of an asset node. *)
Definition asset_error (m : MManifest) (op : OperationDef) (slot : string) (path : option Template) : option load_error :=
  if negb (hasCapability m "assets") then Some LNoAssets
  else if negb (has_slot m slot) then Some (LUndeclaredSlot slot)
  else match path with
       | Some (TLiteral (AString p)) =>
           match Canonicalise p with
           | Err e => Some (LPath e)
           | Ok cp => if existsb (asset_route slot cp) (op_Routes op) then None else Some (LNoAssetRoute p)
           end
       | Some (TLiteral _) => Some LAssetPathNotString
       | _ => None
       end.

Fixpoint first_error {A} (f : A -> option load_error) (l : list A) : option load_error :=
  match l with [] => None | x :: r => match f x with Some e => Some e | None => first_error f r end end.

Definition undeclared_signal (op : OperationDef) (name : string) : option load_error :=
  if existsb (fun s => String.eqb (sd_Name s) name) (op_Signals op) then None else Some (LUndeclaredSignal name).

(** The check of the keys of [signals], made at the root of the output. *)
Definition signals_error (op : OperationDef) (t : Template) : option load_error :=
  match t with
  | TObject m => match assoc "signals" m with
                 | Some (TObject signals) => first_error (undeclared_signal op) (map fst signals)
                 | _ => None
                 end
  | _ => None
  end.

Fixpoint output_error (m : MManifest) (op : OperationDef) (t : Template) : option load_error :=
  match t with
  | TAsset slot path _ _ => asset_error m op slot path
  | TEach _ _ item => output_error m op item
  | TCond _ body => output_error m op body
  | TObject l => first_error (fun p => output_error m op p.2) l
  | TArray l => first_error (output_error m op) l
  | TLiteral _ | TExpr _ => None
  end.

Definition validateOutput (m : MManifest) (op : OperationDef) (t : option Template) : option load_error :=
  match t with
  | None => None
  | Some t => match output_error m op t with Some e => Some e | None => signals_error op t end
  end.
(** ** Loading *)

Definition compile_body (max : Z) (b : rawBody) (total : Z) : res load_error (BodyDef * Z) :=
  match rb_JSON b with
  | Some n => let! (t, total) := compileTemplate tree_fuel max n total in Ok ({| bd_JSON := Some t; bd_Form := None |}, total)
  | None =>
      match rb_Form b with
      | None => Ok ({| bd_JSON := None; bd_Form := None |}, total)
      | Some form => let! (f, total) := compileMap (compileTemplate tree_fuel max) form total in
                     Ok ({| bd_JSON := None; bd_Form := Some f |}, total)
      end
  end.

(** One pipeline step: compiled, then validated. *)
Definition compile_step (m : MManifest) (op : OperationDef) (s : rawStep) (total : Z) : res load_error (PipelineStep * Z) :=
  let max := ml_ExprNodes (mm_Limits m) in
  let q := rs_Request s in
  let! (when_, total) := match rs_When s with
                         | None => Ok (None, total)
                         | Some n => let! x := compileExprNode n max in Ok (Some x, counted x total)
                         end in
  let! (path, total) := compile_nil (compileTemplate tree_fuel max) (rr_Path q) total in
  let! (query, total) := compileMap (compileTemplate tree_fuel max) (rr_Query q) total in
  let! (headers, total) := compileMap (compileTemplate tree_fuel max) (rr_Headers q) total in
  let! (body, total) := match rr_Body q with
                        | None => Ok (None, total)
                        | Some b => let! (b, total) := compile_body max b total in Ok (Some b, total)
                        end in
  let r := {| rqd_Slot := rr_Slot q; rqd_Method := if String.eqb (rr_Method q) "" then "GET" else rr_Method q; rqd_Path := path;
              rqd_PathTemplate := None; rqd_Query := query; rqd_Headers := headers; rqd_Body := body |} in
  let! tpl := validateRequest m op r in
  Ok ({| ps_As := rs_As s; ps_When := when_; ps_Request := set_PathTemplate r tpl |}, total).

(** One operation: with its expression nodes and the bytes of its output's literals. *)
Definition load_operation (m : MManifest) (o : rawOperation) : res load_error (OperationDef * Z * Z) :=
  let head := {| op_ID := ro_ID o; op_Name := ro_Name o; op_DefaultRefresh := ro_DefaultRefresh o; op_Params := ro_Params o;
                 op_Routes := ro_Routes o; op_Signals := ro_Signals o; op_Pipeline := []; op_Output := None |} in
  let! (pipeline, total) := each_total (compile_step m head) (ro_Pipeline o) 0 in
  let! (output, total) := compile_nil (compileTemplate tree_fuel (ml_ExprNodes (mm_Limits m))) (ro_Output o) total in
  if (4096 <? total)%Z then Err (LOperationExpr total)
  else
    let ts := count_nil countTemplate output 1 {| ts_nodes := 0; ts_depth := 0; ts_literalBytes := 0 |} in
    if ((4096 <? ts_nodes ts) || (24 <? ts_depth ts))%Z then Err LTemplateLimit
    else match validateOutput m head output with
         | Some e => Err e
         | None => Ok ({| op_ID := ro_ID o; op_Name := ro_Name o; op_DefaultRefresh := ro_DefaultRefresh o; op_Params := ro_Params o;
                          op_Routes := ro_Routes o; op_Signals := ro_Signals o; op_Pipeline := pipeline; op_Output := output |},
                       total, ts_literalBytes ts)
         end.

Definition sum_by {A} (f : A -> Z) (l : list A) : Z := foldr (fun x s => (f x + s)%Z) 0%Z l.

Definition loadBytes (path raw : string) : res load_error MManifest :=
  if (maxManifestBytes <? Z.of_nat (String.length raw))%Z then Err LTooLarge
  else
    let! root := lift_err LYaml (yaml_unmarshal raw) in
    match n_Content root with
    | [] => Err LEmpty
    | top :: _ =>
        let! stats := walkYAML top 1 {| ys_nodes := 0; ys_depth := 0 |} in
        if ((20000 <? ys_nodes stats) || (32 <? ys_depth stats))%Z then Err LTreeLimit
        else
          let! generic := lift_err LDecode (decode_value top) in
          match validateSchema generic with
          | Some e => Err (LSchema e)
          | None =>
              let! doc := lift_err LDecode (decode_manifest top) in
              match DigestBytes yaml_documents json_document sha256 raw (filepath_Ext path) with
              | None => Err LDigestPanic
              | Some (Err e) => Err (LDigest e)
              | Some (Ok digest) =>
                  let m := {| mm_Path := path; mm_Digest := digest; mm_ID := rm_ID doc; mm_Name := rm_Name doc; mm_Version := rm_Version doc;
                              mm_Runtime := rm_Runtime doc; mm_Module := rm_Module doc; mm_ModuleSHA256 := rm_SHA256 doc;
                              mm_Capabilities := rm_Capabilities doc; mm_Slots := map (fun s => slot_spec (rsl_Name s) (rsl_Kind s) (rsl_Required s)) (rm_Slots doc);
                              mm_Limits := WithDefaults (rm_Limits doc); mm_Operations := [] |} in
                  let! ops := res_mapM (load_operation m) (rm_Operations doc) in
                  let exprs := sum_by (fun o => o.1.2) ops in
                  if (32768 <? exprs)%Z then Err (LManifestExpr exprs)
                  else if (64 * 1024 <? sum_by snd ops)%Z then Err LLiterals
                  else Ok (set_operations m (map (fun o => o.1.1) ops))
              end
          end
    end.

(** The file is read to one byte beyond the limit. *)
Definition Load (read_file : string -> res string string) (path : string) : res load_error MManifest :=
  let! content := lift_err LRead (read_file path) in
  let raw := String.substring 0 (Z.to_nat (maxManifestBytes + 1)) content in
  if (maxManifestBytes <? Z.of_nat (String.length raw))%Z then Err LTooLarge else loadBytes path raw.

(** ** httpjson.go *)

Definition HTTPJSONDigest : string := "http-json".
Definition httpJSONExprMax : Z := 512.
Definition httpJSONAggregateExprMax : Z := 4096.
Definition httpJSONReservedNames (name : string) : bool := String.eqb name "params" || String.eqb name "now".

Fixpoint bindNode (n : Ast.Node) : Ast.Node :=
  match n with
  | Ast.IdentifierNode v => if httpJSONReservedNames v then n else Ast.MemberNode (Ast.IdentifierNode "data") (Ast.StringNode v)
  | Ast.MemberNode a p => Ast.MemberNode (bindNode a) (bindNode p)
  | Ast.BinaryNode op l r => Ast.BinaryNode op (bindNode l) (bindNode r)
  | Ast.UnaryNode op a => Ast.UnaryNode op (bindNode a)
  | Ast.ConditionalNode c a b => Ast.ConditionalNode (bindNode c) (bindNode a) (bindNode b)
  | Ast.ArrayNode l => Ast.ArrayNode (map bindNode l)
  | Ast.MapNode l => Ast.MapNode (map bindNode l)
  | Ast.PairNode k v => Ast.PairNode (bindNode k) (bindNode v)
  | _ => n
  end.

Variable ast_String : Ast.Node -> string.

Definition bindBareFieldsToData (src : string) : res load_error string :=
  let! tree := lift_err LParse (parser_Parse src) in Ok (ast_String (bindNode tree)).

Definition view_field (k : string) (v : any) : option string :=
  match v with AString s => if String.eqb k "value" || String.eqb k "progress" then Some s else None | _ => None end.

Fixpoint compileView (v : any) (total max : Z) : res load_error (Template * Z) :=
  match v with
  | AMap m =>
      let! (obj, total) := each_total (fun (p : string * any) total =>
        match view_field p.1 p.2 with
        | Some s =>
            let! bound := bindBareFieldsToData s in
            let! e := compileExprSource bound 0 0 max in
            Ok ((p.1, TExpr e), counted e total)
        | None => let! (t, total) := compileView p.2 total max in Ok ((p.1, t), total)
        end) m total in
      Ok (TObject obj, total)
  | AList l => let! (arr, total) := each_total (fun x total => compileView x total max) l total in Ok (TArray arr, total)
  | _ => Ok (TLiteral v, total)
  end.

Definition SynthesizeHTTPJSON (slot method path : string) (query : list (string * string)) (view : list (string * any))
  : res load_error MManifest :=
  let method := if String.eqb method "" then "GET" else method in
  if negb (String.eqb method "GET") && negb (String.eqb method "POST") then Err (LMethod method)
  else
    let! cp := res_map_err LPath (Canonicalise path) in
    let m := {| mm_Path := ""; mm_Digest := HTTPJSONDigest; mm_ID := "http-json"; mm_Name := "Generic HTTP/JSON"; mm_Version := "";
                mm_Runtime := "declarative"; mm_Module := ""; mm_ModuleSHA256 := ""; mm_Capabilities := ["http"];
                mm_Slots := [{| ss_Name := slot; ss_Kind := "http"; ss_Required := true |}];
                mm_Limits := WithDefaults zero_limits; mm_Operations := [] |} in
    let r := {| rqd_Slot := slot; rqd_Method := method; rqd_Path := Some (TLiteral (AString cp)); rqd_PathTemplate := None;
                rqd_Query := map (fun q => (q.1, Some (TLiteral (AString q.2)))) query; rqd_Headers := []; rqd_Body := None |} in
    let op pipeline output := {| op_ID := "request"; op_Name := ""; op_DefaultRefresh := ""; op_Params := ANil;
      op_Routes := [{| mr_Slot := slot; mr_Method := method; mr_Path := cp; mr_Use := ""; mr_ContentType := ""; mr_QueryKeys := None;
                       mr_MaxBodyKB := 0 |}];
      op_Signals := []; op_Pipeline := pipeline; op_Output := output |} in
    let! tpl := validateRequest m (op [] None) r in
    let! (output, total) := compileView (AMap view) 0 httpJSONExprMax in
    if (httpJSONAggregateExprMax <? total)%Z then Err (LOperationExpr total)
    else Ok (set_operations m [op [{| ps_As := "data"; ps_When := None; ps_Request := set_PathTemplate r tpl |}] (Some output)]).

(** ** What loading promises *)

Fixpoint exprs (t : Template) : list Expression :=
  match t with
  | TLiteral _ => []
  | TExpr e => [e]
  | TObject m => concat (map (fun p => exprs p.2) m)
  | TArray l => concat (map exprs l)
  | TEach e _ item => e :: exprs item
  | TCond e body => e :: exprs body
  | TAsset _ path query _ =>
      match path with Some t => exprs t | None => [] end
      ++ concat (map (fun q => match q.2 with Some t => exprs t | None => [] end) query)
  end.
Definition exprs_nil (t : option Template) : list Expression := match t with Some t => exprs t | None => [] end.
Definition exprs_map (m : list (string * option Template)) : list Expression := concat (map (fun q => exprs_nil q.2) m).
Definition exprs_body (b : BodyDef) : list Expression := exprs_nil (bd_JSON b) ++ exprs_map (default [] (bd_Form b)).
Definition exprs_step (s : PipelineStep) : list Expression :=
  let r := ps_Request s in
  option_list (ps_When s) ++ exprs_nil (rqd_Path r) ++ exprs_map (rqd_Query r) ++ exprs_map (rqd_Headers r)
  ++ match rqd_Body r with Some b => exprs_body b | None => [] end.
Definition exprs_op (op : OperationDef) : list Expression := concat (map exprs_step (op_Pipeline op)) ++ exprs_nil (op_Output op).

Definition nodes (l : list Expression) : Z := sum_by ex_Nodes l.

(** An expression that parses to a tree of the counted size with nothing forbidden in it. *)
Definition expr_ok (max : Z) (e : Expression) : Prop :=
  exists tree, parser_Parse (ex_Source e) = Ok tree /\ ex_Nodes e = Z.of_nat (length (ast_Walk tree))
    /\ (ex_Nodes e <= max)%Z /\ Forall (fun n => node_error n = None) (ast_Walk tree).

(** A parameter every card that runs has, of a type a path segment can be written from. *)
Definition always_present (op : OperationDef) (name : string) : Prop :=
  exists props prop, field "properties" (op_Params op) = Some (AMap props) /\ assoc name props = Some (AMap prop)
    /\ (assoc "type" prop = Some (AString "string") \/ assoc "type" prop = Some (AString "integer"))
    /\ (is_Some (assoc "default" prop) \/ exists l, field "required" (op_Params op) = Some (AList l) /\ AString name ∈ l).

Definition request_ok (m : MManifest) (op : OperationDef) (r : RequestDef) : Prop :=
  "http" ∈ mm_Capabilities m /\ rqd_Slot r ∈ map ss_Name (mm_Slots m)
  /\ exists p tpl rt, rqd_Path r = Some (TLiteral (AString p)) /\ ParseTemplate p = Ok tpl /\ rqd_PathTemplate r = Some tpl
     /\ Forall (always_present op) (Placeholders tpl)
     /\ rt ∈ op_Routes op /\ mr_Slot rt = rqd_Slot r /\ mr_Method rt = rqd_Method r /\ (mr_Use rt = "" \/ mr_Use rt = "data")
     /\ CoveredBy tpl (mr_Path rt) = true /\ routeCoversRequest rt r = true.

(** The asset nodes of an output. *)
Fixpoint assets (t : Template) : list (string * option Template) :=
  match t with
  | TLiteral _ | TExpr _ => []
  | TAsset slot path _ _ => [(slot, path)]
  | TObject m => concat (map (fun p => assets p.2) m)
  | TArray l => concat (map assets l)
  | TEach _ _ item => assets item
  | TCond _ body => assets body
  end.
Definition asset_ok (m : MManifest) (op : OperationDef) (a : string * option Template) : Prop :=
  "assets" ∈ mm_Capabilities m /\ a.1 ∈ map ss_Name (mm_Slots m)
  /\ forall v, a.2 = Some (TLiteral v) -> exists p cp rt rp, v = AString p /\ Canonicalise p = Ok cp
     /\ rt ∈ op_Routes op /\ mr_Slot rt = a.1 /\ mr_Use rt = "asset" /\ mr_Method rt = "GET" /\ Canonicalise (mr_Path rt) = Ok rp /\ Match rp cp = true.

Definition operation_ok (m : MManifest) (op : OperationDef) : Prop :=
  Forall (fun s => request_ok m op (ps_Request s)) (op_Pipeline op)
  /\ Forall (expr_ok (ml_ExprNodes (mm_Limits m))) (exprs_op op) /\ (nodes (exprs_op op) <= 4096)%Z
  /\ (forall t a, op_Output op = Some t -> a ∈ assets t -> asset_ok m op a)
  /\ (forall o signals name, op_Output op = Some (TObject o) -> assoc "signals" o = Some (TObject signals) ->
       name ∈ map fst signals -> name ∈ map sd_Name (op_Signals op)).

(** ** Lemmas *)

Lemma sum_by_nil {A} (f : A -> Z) : sum_by f [] = 0%Z.
Proof. done. Qed.
Lemma sum_by_app {A} (f : A -> Z) l k : sum_by f (l ++ k) = (sum_by f l + sum_by f k)%Z.
Proof. unfold sum_by. induction l as [|x l IH]; simpl; [done|]. rewrite IH. lia. Qed.
Lemma sum_by_concat {A} (f : A -> Z) (ls : list (list A)) : sum_by f (concat ls) = sum_by (sum_by f) ls.
Proof. induction ls as [|l ls IH]; [done|]. simpl. by rewrite sum_by_app, IH. Qed.
Lemma sum_by_map {A B} (g : A -> B) (f : B -> Z) l : sum_by f (map g l) = sum_by (fun x => f (g x)) l.
Proof. induction l as [|x l IH]; [done|]. simpl. by rewrite IH. Qed.

(** A list is good when each element is, and its expressions are those of its elements. *)
Definition good (max : Z) (l : list Expression) : Prop := Forall (expr_ok max) l.

Lemma expr_ok_nonneg max e : expr_ok max e -> (0 <= ex_Nodes e)%Z.
Proof. intros (tree & _ & -> & _). lia. Qed.
Lemma good_nonneg max l : good max l -> (0 <= nodes l)%Z.
Proof.
  unfold good, nodes. induction 1 as [|e l He _ IH]; [done|]. apply expr_ok_nonneg in He. unfold sum_by in *. simpl. lia.
Qed.
Lemma good_app max l k : good max (l ++ k) <-> good max l /\ good max k.
Proof. apply Forall_app. Qed.
Lemma nodes_app l k : nodes (l ++ k) = (nodes l + nodes k)%Z.
Proof. apply sum_by_app. Qed.
Lemma nodes_nil : nodes [] = 0%Z.
Proof. done. Qed.
Lemma nodes_cons e l : nodes (e :: l) = (ex_Nodes e + nodes l)%Z.
Proof. done. Qed.

Lemma visit_all l v : ev_err (foldl Visit v l) = None -> ev_err v = None
  /\ ev_count (foldl Visit v l) = (ev_count v + Z.of_nat (length l))%Z /\ Forall (fun n => node_error n = None) l.
Proof.
  revert v; induction l as [|n l IH]; intros v H; [simpl in *; split_and!; [done|lia|constructor]|].
  apply IH in H as (He & Hc & Hl). cbn [foldl] in *. simpl in He, Hc. destruct (node_error n) eqn:E; [done|].
  split_and!; [done|simpl length; lia|by constructor].
Qed.

Lemma compileExprSource_Ok src line col max e : compileExprSource src line col max = Ok e -> expr_ok max e.
Proof.
  unfold compileExprSource, lift_err, expr_ok. destruct (parser_Parse src) as [tree|] eqn:Ep; [|done]. cbn [res_map_err res_bind]. set (v := foldl _ _ _).
  destruct (ev_err v) eqn:Ee; [done|]. destruct (Z.ltb_spec max (ev_count v)) as [|Hm]; [done|]. intros [= <-]. simpl.
  apply visit_all in Ee as (_ & Ec & Hl). fold v in Ec. exists tree. simpl in Ec. split_and!; [done|lia|done|done].
Qed.
Lemma compileExprNode_Ok n max e : compileExprNode n max = Ok e -> expr_ok max e.
Proof. unfold compileExprNode. intros (src & _ & H)%res_bind_Ok. by eapply compileExprSource_Ok. Qed.

(** What compiling adds to the total covers the expressions of what it returns. *)
Definition adds (max : Z) (l : list Expression) (total total' : Z) : Prop := good max l /\ (total + nodes l <= total')%Z.

Lemma adds_app max l k a b c : adds max l a b -> adds max k b c -> adds max (l ++ k) a c.
Proof. intros [Gl Hl] [Gk Hk]. split; [by apply good_app|]. rewrite nodes_app. lia. Qed.
Lemma adds_nil max a : adds max [] a a.
Proof. split; [constructor|]. rewrite nodes_nil. lia. Qed.
Lemma adds_one max e a : expr_ok max e -> adds max [e] a (counted e a).
Proof. intros H. split; [by constructor|]. unfold counted, nodes, sum_by. simpl. lia. Qed.

Lemma each_total_adds {A B} (f : A -> Z -> res load_error (B * Z)) (ex : B -> list Expression) max l :
  (forall x t y t', f x t = Ok (y, t') -> adds max (ex y) t t') ->
  forall t ys t', each_total f l t = Ok (ys, t') -> adds max (concat (map ex ys)) t t'.
Proof.
  intros Hf. induction l as [|x l IH]; intros t ys t' H; simpl in H; [injection H as <- <-; apply adds_nil|].
  apply res_bind_Ok in H as ([y t1] & Hy & H). apply res_bind_Ok in H as ([ys' t2] & Hys & [= <- <-]). simpl.
  eapply adds_app; [by eapply Hf|by eapply IH].
Qed.

Lemma each_total_forall {A B} (f : A -> Z -> res load_error (B * Z)) (P : B -> Prop) l :
  (forall x t y t', f x t = Ok (y, t') -> P y) -> forall t ys t', each_total f l t = Ok (ys, t') -> Forall P ys.
Proof.
  intros Hf. induction l as [|x l IH]; intros t ys t' H; simpl in H; [injection H as <- <-; constructor|].
  apply res_bind_Ok in H as ([y t1] & Hy & H). apply res_bind_Ok in H as ([ys' t2] & Hys & [= <- <-]). constructor; [by eapply Hf|by eapply IH].
Qed.

Lemma assign_key_exprs max k (v : Template) m : good max (concat (map (fun p : string * Template => exprs p.2) m)) -> good max (exprs v) ->
  good max (concat (map (fun p => exprs p.2) (assign_key k v m)))
  /\ (nodes (concat (map (fun p => exprs p.2) (assign_key k v m))) <= nodes (concat (map (fun p => exprs p.2) m)) + nodes (exprs v))%Z.
Proof.
  induction m as [|[k' v'] m IH]; intros Hm Hv; simpl in *.
  - rewrite app_nil_r. split; [done|]. lia.
  - apply good_app in Hm as [Hv' Hm]. pose proof (good_nonneg _ _ Hv'). rewrite nodes_app. destruct (String.eqb k' k); simpl; rewrite nodes_app.
    + split; [by apply good_app|]. lia.
    + destruct (IH Hm Hv) as [Hg Hn]. split; [by apply good_app|]. lia.
Qed.

Lemma assign_keys_adds max m : forall acc a b,
  good max (concat (map (fun p : string * Template => exprs p.2) acc)) ->
  adds max (concat (map (fun p => exprs p.2) m)) (a + nodes (concat (map (fun p => exprs p.2) acc))) b ->
  adds max (concat (map (fun p => exprs p.2) (foldl (fun m e => assign_key e.1 e.2 m) acc m))) a b.
Proof.
  induction m as [|[k v] m IH]; intros acc a b Hacc [Hg Hn]; simpl in *; [split; [done|]; lia|].
  apply good_app in Hg as [Hv Hg]. rewrite nodes_app in Hn. destruct (assign_key_exprs max k v acc Hacc Hv) as [Hg' Hn'].
  apply IH; [done|]. split; [done|]. lia.
Qed.

Section CompileAdds.
Variable compile : Node -> Z -> res load_error (Template * Z).
Variable max : Z.
Hypothesis Hcompile : forall n t x t', compile n t = Ok (x, t') -> adds max (exprs x) t t'.

Lemma compile_nil_adds n t x t' : compile_nil compile n t = Ok (x, t') -> adds max (exprs_nil x) t t'.
Proof.
  destruct n as [n|]; simpl; [|intros [= <- <-]; apply adds_nil]. intros ([y t1] & Hy & [= <- <-])%res_bind_Ok. by eapply Hcompile.
Qed.
Lemma compileMap_adds m t x t' : compileMap compile m t = Ok (x, t') -> adds max (exprs_map x) t t'.
Proof.
  apply each_total_adds. intros [k n] a y b. unfold compile_entry. intros ([z c] & Hz & [= <- <-])%res_bind_Ok. by eapply compile_nil_adds.
Qed.
Lemma compile_fields_adds es t m t' : each_total (compile_field compile) es t = Ok (m, t') ->
  adds max (concat (map (fun p => exprs p.2) m)) t t'.
Proof.
  apply (each_total_adds _ (fun p : string * Template => exprs p.2)). intros [k n] a y b. unfold compile_field.
  intros ([z c] & Hz & [= <- <-])%res_bind_Ok. by eapply Hcompile.
Qed.

Lemma compile_mapping_adds n t x t' : compile_mapping compile n t max = Ok (x, t') -> adds max (exprs x) t t'.
Proof.
  unfold compile_mapping. destruct (entries_of _) as [es|]; [|done]. destruct (form_of _) as [|a|c body|e name item|].
  - intros (e & He & [= <- <-])%res_bind_Ok. by eapply adds_one, compileExprNode_Ok.
  - intros (raw & _ & ([p t1] & Hp & ([q t2] & Hq & [= <- <-])%res_bind_Ok)%res_bind_Ok)%res_bind_Ok. simpl.
    eapply adds_app; [by eapply compile_nil_adds|by eapply compileMap_adds].
  - intros (e & He & ([b t1] & Hb & [= <- <-])%res_bind_Ok)%res_bind_Ok. simpl.
    apply (adds_app _ [e] _ _ (counted e t)); [by eapply adds_one, compileExprNode_Ok|by eapply Hcompile].
  - intros (e' & He & ([b t1] & Hb & [= <- <-])%res_bind_Ok)%res_bind_Ok. simpl.
    apply (adds_app _ [e'] _ _ (counted e' t)); [by eapply adds_one, compileExprNode_Ok|by eapply Hcompile].
  - intros ([m t1] & Hm & [= <- <-])%res_bind_Ok. cbn [exprs]. apply assign_keys_adds; [constructor|]. cbn [map concat].
    rewrite nodes_nil, Z.add_0_r. by eapply compile_fields_adds.
Qed.
End CompileAdds.

Lemma compileTemplate_adds fuel max n t x t' : compileTemplate fuel max n t = Ok (x, t') -> adds max (exprs x) t t'.
Proof.
  revert n t x t'; induction fuel as [|fuel IH]; intros n t x t' H; [done|]. cbn [compileTemplate] in H.
  destruct (n_Kind n); try done.
  - apply res_bind_Ok in H as ([l t1] & Hl & [= <- <-]). cbn [exprs]. by eapply each_total_adds.
  - by eapply compile_mapping_adds.
  - apply res_bind_Ok in H as (v & _ & [= <- <-]). apply adds_nil.
Qed.

Lemma compile_body_adds max b t x t' : compile_body max b t = Ok (x, t') -> adds max (exprs_body x) t t'.
Proof.
  unfold compile_body, exprs_body. destruct (rb_JSON b) as [n|]; [|destruct (rb_Form b) as [f|]].
  - intros ([y t1] & Hy & [= <- <-])%res_bind_Ok. simpl. unfold exprs_map. simpl. rewrite app_nil_r. by eapply compileTemplate_adds.
  - intros ([y t1] & Hy & [= <- <-])%res_bind_Ok. simpl. eapply compileMap_adds, Hy. intros. by eapply compileTemplate_adds.
  - intros [= <- <-]. apply adds_nil.
Qed.

Lemma hasCapability_true m c : hasCapability m c = true <-> c ∈ mm_Capabilities m.
Proof. unfold hasCapability. rewrite existsb_elem. split; [intros (x & Hx & ->%String.eqb_eq)|]; eauto using String.eqb_refl. Qed.
Lemma has_slot_true m c : has_slot m c = true <-> c ∈ map ss_Name (mm_Slots m).
Proof.
  unfold has_slot. rewrite existsb_elem, elem_of_map. split; intros (x & Hx & E); exists x; [apply String.eqb_eq in E|by rewrite Hx, String.eqb_refl]. done.
Qed.

Lemma placeholderParam_None op name : placeholderParam op name = None -> always_present op name.
Proof.
  unfold placeholderParam, always_present. destruct (field "properties" (op_Params op)) as [v|] eqn:Ep; [|done]. cbn [default from_option].
  unfold field at 1. destruct v as [| | | | | | | | |props]; cbn; try done. fold (assoc name props).
  destruct (assoc name props) as [[| | | | | | | | |m]|] eqn:Ea; try done. intros H. exists props, m. split_and!; [done|done|..].
  - destruct (assoc "type" m) as [[| |s| | | | | | |]|]; simpl in H; try done. destruct (String.eqb_spec s "string") as [E|]; [left; by rewrite E|].
    destruct (String.eqb_spec s "integer") as [E|]; [right; by rewrite E|done].
  - destruct (negb _ && negb _); [done|]. destruct (assoc "default" m); [by left; eexists|]. destruct (existsb _ _) eqn:Ex; [|done]. right.
    apply existsb_elem in Ex as (x & Hx & E). destruct x; try done. apply String.eqb_eq in E as ->.
    destruct (field "required" (op_Params op)) as [[]|]; simpl in Hx; try by apply not_elem_of_nil in Hx. by eexists.
Qed.

Lemma omap_nil_None {A B} (f : A -> option B) l : omap f l = [] -> Forall (fun x => f x = None) l.
Proof. induction l as [|x l IH]; [constructor|]. csimpl. destruct (f x) eqn:E; [done|]. intros H. constructor; [done|by apply IH]. Qed.

Lemma validateRequest_Ok m op r tpl : validateRequest m op r = Ok tpl -> request_ok m op (set_PathTemplate r tpl).
Proof.
  unfold validateRequest, request_ok. destruct (hasCapability m "http") eqn:Eh; [|done]. destruct (has_slot m (rqd_Slot r)) eqn:Es; [|done]. cbn [negb].
  destruct (rqd_Path r) as [[[| |p| | | | | | |]| | | | | |]|] eqn:Ep; try done. intros (t & Ht & H)%res_bind_Ok.
  destruct (ParseTemplate p) as [t'|] eqn:Et; simplify_eq/=. destruct (omap _ _) as [|e l] eqn:Eo; [|done].
  destruct (existsb _ _) eqn:Ex; [|done]. injection H as ->. apply existsb_elem in Ex as (rt & Hrt & E). unfold data_use in E. bool_prop.
  split; [by apply hasCapability_true|]. split; [by apply has_slot_true|]. exists p, tpl, rt. split_and!; try done.
  - apply (Forall_impl _ _ _ (omap_nil_None _ _ Eo)). intros x. apply placeholderParam_None.
  - destruct (String.eqb_spec (mr_Use rt) ""); [by left|]. right. by apply String.eqb_eq.
Qed.

Lemma compile_step_Ok m op s t x t' : compile_step m op s t = Ok (x, t') ->
  request_ok m op (ps_Request x) /\ adds (ml_ExprNodes (mm_Limits m)) (exprs_step x) t t'.
Proof.
  unfold compile_step. set (max := ml_ExprNodes _). intros H.
  assert (HT : forall n a y b, compileTemplate tree_fuel max n a = Ok (y, b) -> adds max (exprs y) a b) by (intros; by eapply compileTemplate_adds).
  apply res_bind_Ok in H as ([w t1] & Hw & H). apply res_bind_Ok in H as ([p t2] & Hp & H).
  apply res_bind_Ok in H as ([q t3] & Hq & H). apply res_bind_Ok in H as ([h t4] & Hh & H).
  apply res_bind_Ok in H as ([b t5] & Hb & H). apply res_bind_Ok in H as (tpl & Hr & [= <- <-]).
  split; [by apply validateRequest_Ok in Hr|]. unfold exprs_step, set_PathTemplate. cbn [ps_Request ps_When rqd_Path rqd_Query rqd_Headers rqd_Body].
  apply (adds_app _ _ _ _ t1); [|apply (adds_app _ _ _ _ t2); [|apply (adds_app _ _ _ _ t3); [|apply (adds_app _ _ _ _ t4)]]].
  - destruct (rs_When s) as [n|]; [|injection Hw as <- <-; apply adds_nil]. apply res_bind_Ok in Hw as (e & He & [= <- <-]).
    by eapply adds_one, compileExprNode_Ok.
  - by eapply compile_nil_adds.
  - by eapply compileMap_adds.
  - by eapply compileMap_adds.
  - destruct (rr_Body _) as [rb|]; [|injection Hb as <- <-; apply adds_nil]. apply res_bind_Ok in Hb as ([b' t6] & Hb & [= <- <-]).
    by eapply compile_body_adds.
Qed.

Section TemplateInd.
Variable P : Template -> Prop.
Hypothesis Hlit : forall v, P (TLiteral v).
Hypothesis Hobj : forall m, Forall (fun p => P p.2) m -> P (TObject m).
Hypothesis Harr : forall l, Forall P l -> P (TArray l).
Hypothesis Hexpr : forall e, P (TExpr e).
Hypothesis Hasset : forall slot path q tr, (forall t, path = Some t -> P t) -> Forall (fun p => forall t, p.2 = Some t -> P t) q -> P (TAsset slot path q tr).
Hypothesis Heach : forall e n t, P t -> P (TEach e n t).
Hypothesis Hcond : forall e t, P t -> P (TCond e t).
Fixpoint Template_nested_ind (t : Template) : P t :=
  let opt (o : option Template) : forall t, o = Some t -> P t :=
    match o with
    | Some x => fun t H => eq_rect x P (Template_nested_ind x) t (f_equal (default x) H)
    | None => fun t H => match H in _ = y return match y with Some t => P t | None => True end with eq_refl => I end
    end in
  match t with
  | TLiteral v => Hlit v
  | TExpr e => Hexpr e
  | TObject m => Hobj m ((fix go m : Forall (fun p => P p.2) m :=
      match m with [] => @List.Forall_nil _ _ | x :: r => @List.Forall_cons _ (fun p => P p.2) x r (Template_nested_ind x.2) (go r) end) m)
  | TArray l => Harr l ((fix go l : Forall P l :=
      match l with [] => @List.Forall_nil _ _ | x :: r => @List.Forall_cons _ _ x r (Template_nested_ind x) (go r) end) l)
  | TAsset slot path q tr => Hasset slot path q tr (opt path)
      ((fix go q : Forall (fun p => forall t, p.2 = Some t -> P t) q :=
          match q with [] => @List.Forall_nil _ _ | x :: r => @List.Forall_cons _ (fun p => forall t, p.2 = Some t -> P t) x r (opt x.2) (go r) end) q)
  | TEach e n t => Heach e n t (Template_nested_ind t)
  | TCond e t => Hcond e t (Template_nested_ind t)
  end.
End TemplateInd.

Lemma first_error_None {A} (f : A -> option load_error) l : first_error f l = None <-> Forall (fun x => f x = None) l.
Proof.
  induction l as [|x l IH]; simpl; [split; by constructor|]. rewrite Forall_cons. destruct (f x); [split; [done|by intros [? _]]|].
  rewrite IH. tauto.
Qed.

Lemma asset_error_None m op slot path : asset_error m op slot path = None -> asset_ok m op (slot, path).
Proof.
  unfold asset_error, asset_ok. destruct (hasCapability m "assets") eqn:Eh; [|done]. destruct (has_slot m slot) eqn:Es; [|done]. cbn [negb fst snd].
  intros H. split; [by apply hasCapability_true|]. split; [by apply has_slot_true|]. intros v ->.
  destruct v as [| |p| | | | | | |]; try done. exists p. destruct (Canonicalise p) as [cp|]; [|done]. destruct (existsb _ _) eqn:Ex; [|done].
  apply existsb_elem in Ex as (rt & Hrt & E). unfold asset_route in E. destruct (Canonicalise (mr_Path rt)) as [rp|] eqn:Er; [|done]. bool_prop.
  by exists cp, rt, rp.
Qed.

Lemma elem_of_concat_map_1 {A B} (f : A -> list B) l y : y ∈ concat (map f l) -> exists x, x ∈ l /\ y ∈ f x.
Proof. induction l as [|x l IH]; simpl; [by intros ?%not_elem_of_nil|]. intros [H|H]%elem_of_app; [|apply IH in H as (z & Hz & H)]; eauto using list_elem_of_here, list_elem_of_further. Qed.

Lemma output_error_None m op t : output_error m op t = None -> forall a, a ∈ assets t -> asset_ok m op a.
Proof.
  induction t as [v|l IH|l IH|e|slot path q tr _ _|e n t IH|e t IH] using Template_nested_ind; cbn [output_error assets]; try done.
  - by intros _ a ?%not_elem_of_nil.
  - intros H a (p & Hp & Ha)%elem_of_concat_map_1. apply first_error_None in H. rewrite Forall_forall in H, IH. by eapply IH; [|apply H|].
  - intros H a (p & Hp & Ha)%elem_of_concat_map_1. apply first_error_None in H. rewrite Forall_forall in H, IH. by eapply IH; [|apply H|].
  - by intros _ a ?%not_elem_of_nil.
  - intros H a ->%list_elem_of_singleton. by apply asset_error_None.
Qed.

Lemma load_operation_Ok m o op total literals : load_operation m o = Ok (op, total, literals) ->
  operation_ok m op /\ (nodes (exprs_op op) <= total)%Z.
Proof.
  unfold load_operation. intros ([ps t1] & Hp & ([out t2] & Ho & H)%res_bind_Ok)%res_bind_Ok.
  destruct (Z.ltb_spec 4096 t2) as [|Hmax]; [done|]. destruct (_ || _) in H; [done|]. destruct (validateOutput _ _ _) eqn:Ev; [done|].
  injection H as <- <- <-. set (max := ml_ExprNodes (mm_Limits m)) in *.
  assert (A : adds max (concat (map exprs_step ps) ++ exprs_nil out) 0 t2).
  { eapply adds_app.
    - apply (each_total_adds _ exprs_step max) in Hp; [done|]. intros x t y t' H. by eapply compile_step_Ok.
    - eapply compile_nil_adds, Ho. intros. by eapply compileTemplate_adds. }
  destruct A as [Hg Hn]. unfold operation_ok. cbn [op_Pipeline op_Output op_Signals]. split; [|unfold exprs_op; simpl; lia].
  split_and!.
  - eapply each_total_forall, Hp. intros x t y t' H. by eapply (compile_step_Ok m) in H as [H _].
  - done.
  - unfold exprs_op. simpl. lia.
  - intros t a -> Ha. simpl in Ev. destruct (output_error _ _ t) eqn:Eo; [done|]. by eapply (output_error_None m) in Ha; [|exact Eo].
  - intros obj signals name -> Hs Hname. simpl in Ev. destruct (first_error _ _) in Ev; [done|]. rewrite Hs in Ev.
    apply first_error_None in Ev. rewrite Forall_forall in Ev. specialize (Ev _ Hname). unfold undeclared_signal in Ev. simpl in Ev.
    destruct (existsb _ _) eqn:Ex; [|done]. apply existsb_elem in Ex as (x & Hx & <-%String.eqb_eq). by apply elem_of_map_2.
Qed.

Lemma load_operations_Ok m l ops : res_mapM (load_operation m) l = Ok ops ->
  Forall (operation_ok m) (map (fun o => o.1.1) ops)
  /\ (sum_by (fun op => nodes (exprs_op op)) (map (fun o => o.1.1) ops) <= sum_by (fun o => o.1.2) ops)%Z.
Proof.
  revert ops; induction l as [|o l IH]; intros ops H; simpl in H; [injection H as <-; split; [constructor|done]|].
  apply res_bind_Ok in H as ([[op t] lit] & Ho & (ops' & Hops & [= <-])%res_bind_Ok). apply IH in Hops as [Hf Hs].
  apply load_operation_Ok in Ho as [Hop Ht]. cbn [map fst snd]. split; [by constructor|]. unfold sum_by in *. simpl. lia.
Qed.

(** *** The depth of the tree is fuel enough *)

Fixpoint n_depth (n : Node) : nat :=
  match n with mkNode _ _ _ _ _ _ cs => S (foldr (fun c d => Nat.max (n_depth c) d) 0 cs) end.

Lemma foldr_max_in {A} (f : A -> nat) l x : x ∈ l -> f x <= foldr (fun c d => Nat.max (f c) d) 0 l.
Proof. induction l as [|y l IH]; simpl; [by intros ?%not_elem_of_nil|]. intros [->|H]%elem_of_cons; [lia|]. apply IH in H. lia. Qed.
Lemma child_depth n c : c ∈ n_Content n -> n_depth c < n_depth n.
Proof. destruct n as [k t v li co f cs]. simpl. intros H%(foldr_max_in n_depth). lia. Qed.

Lemma entries_in l es k v : entries_of l = Some es -> (k, v) ∈ es -> v ∈ l.
Proof.
  revert l; induction es as [|[k' v'] es IH]; intros l H Hin; [by apply not_elem_of_nil in Hin|].
  destruct l as [|a [|b r]]; try done. simpl in H. destruct (entries_of r) as [es'|] eqn:E; [|done]. injection H as <- <- <-.
  apply elem_of_cons in Hin as [[= -> ->]|Hin]; [apply elem_of_cons; right; apply list_elem_of_here|].
  do 2 (apply elem_of_cons; right). by eapply IH.
Qed.
Lemma assign_key_in {A} k (v : A) m p : p ∈ assign_key k v m -> p = (k, v) \/ p ∈ m.
Proof.
  induction m as [|[k' v'] m IH]; simpl; [intros ->%list_elem_of_singleton; by left|].
  destruct (String.eqb k' k); intros [->|H]%elem_of_cons; eauto using list_elem_of_here, list_elem_of_further.
  apply IH in H as [->|H]; eauto using list_elem_of_further.
Qed.
Lemma keys_in (es : list (Node * Node)) acc p : p ∈ foldl (fun m e => assign_key (n_Value e.1) e.2 m) acc es ->
  p ∈ acc \/ exists k, (k, p.2) ∈ es.
Proof.
  revert acc; induction es as [|[k v] es IH]; intros acc H; [by left|]. simpl in H. apply IH in H as [H|[k' H]]; [|right; exists k'; by apply list_elem_of_further].
  apply assign_key_in in H as [->|H]; [|by left]. right. exists k. apply list_elem_of_here.
Qed.
Lemma form_in keys : match form_of keys with
  | FAsset a => exists k, (k, a) ∈ keys
  | FCond _ body => exists k, (k, body) ∈ keys
  | FEach _ _ item => exists k, (k, item) ∈ keys
  | _ => True
  end.
Proof. unfold form_of. repeat case_match; simplify_eq/=; try done; eexists; by eapply assoc_Some. Qed.

Lemma each_total_fuel {A B} (f : A -> Z -> res load_error (B * Z)) l : (forall x t, x ∈ l -> f x t <> Err LFuel) ->
  forall t, each_total f l t <> Err LFuel.
Proof.
  induction l as [|x l IH]; intros Hf t; [done|]. simpl. intros H. apply res_bind_Err in H as [H|([y t1] & _ & H)].
  - by eapply Hf; [apply list_elem_of_here|].
  - apply res_bind_Err in H as [H|([ys t2] & _ & H)]; [|done]. eapply IH; [|exact H]. intros z u Hz. by apply Hf, list_elem_of_further.
Qed.

Lemma lift_not_fuel {A} f (m : res string A) : (forall e, f e <> LFuel) -> lift_err f m <> Err LFuel.
Proof. intros Hf. unfold lift_err. destruct m; simpl; [done|]. intros [= E]. by eapply Hf. Qed.
Lemma node_error_not_fuel n : node_error n <> Some LFuel.
Proof. destruct n as [| | | | | | |v| |op a b| | | |c l| | | | | | | | | |]; simpl; try done; [by destruct (_ || _)|by destruct (String.eqb _ _)|]. destruct c; try done. by destruct (CoreFunctions _). Qed.
Lemma visit_not_fuel l v : ev_err v <> Some LFuel -> ev_err (foldl Visit v l) <> Some LFuel.
Proof.
  revert v; induction l as [|n l IH]; intros v H; [done|]. simpl. apply IH. simpl. pose proof (node_error_not_fuel n). by destruct (node_error n).
Qed.
Lemma compileExpr_not_fuel n max : compileExprNode n max <> Err LFuel.
Proof.
  unfold compileExprNode, compileExprSource. intros H. apply res_bind_Err in H as [H|(src & _ & H)]; [by eapply lift_not_fuel, H|].
  apply res_bind_Err in H as [H|(tree & _ & H)]; [by eapply lift_not_fuel, H|].
  pose proof (visit_not_fuel (ast_Walk tree) {| ev_count := 0; ev_err := None |}) as Hv. cbv zeta in H.
  destruct (ev_err _) as [e|]; [injection H as ->; by apply Hv|]. by destruct (_ <? _)%Z.
Qed.

(** The nodes an asset node is decoded to are inside it. *)
Definition decodes_inside : Prop := forall n raw x, decode_asset n = Ok raw ->
  Some x = ra_Path raw \/ Some x ∈ map snd (ra_Query raw) -> n_depth x < n_depth n.

(** Compiling never runs out of fuel on a tree no deeper than the fuel. *)
Lemma compileTemplate_fuel (Hin : decodes_inside) fuel max n t : n_depth n <= fuel -> compileTemplate fuel max n t <> Err LFuel.
Proof.
  revert n t; induction fuel as [|fuel IH]; intros n t Hn; [destruct n; simpl in Hn; lia|]. cbn [compileTemplate].
  assert (Hc : forall c t, n_depth c < n_depth n -> compileTemplate fuel max c t <> Err LFuel) by (intros; apply IH; lia).
  destruct (n_Kind n); try done.
  - intros [H|([l t'] & _ & H)]%res_bind_Err; [|done]. eapply each_total_fuel, H. intros c u Hc'. by apply Hc, child_depth.
  - unfold compile_mapping. destruct (entries_of (n_Content n)) as [es|] eqn:Ee; [|done].
    set (keys := foldl _ [] es). assert (Hk : forall k c, (k, c) ∈ keys -> n_depth c < n_depth n).
    { intros k c [H|[k' H]]%keys_in; [by apply not_elem_of_nil in H|]. simpl in H. eapply child_depth, entries_in; [exact Ee|exact H]. }
    pose proof (form_in keys) as Hf. destruct (form_of keys) as [|a|c body|e name item|].
    + intros [H|(x & _ & H)]%res_bind_Err; [by eapply compileExpr_not_fuel|done].
    + destruct Hf as [k Hf%Hk]. intros [H|(raw & Hr & H)]%res_bind_Err; [by eapply lift_not_fuel, H|].
      assert (Hr' : decode_asset a = Ok raw) by (unfold lift_err in Hr; by destruct (decode_asset a); simplify_eq/=).
      assert (Hnil : forall o u, (forall x, o = Some x -> n_depth x < n_depth a) -> compile_nil (compileTemplate fuel max) o u <> Err LFuel).
      { intros [x|] u Hx; simpl; [|done]. intros [H'|([? ?] & _ & H')]%res_bind_Err; [|done]. eapply Hc, H'. specialize (Hx x eq_refl). lia. }
      apply res_bind_Err in H as [H|([p t1] & _ & H)].
      { eapply Hnil, H. intros x Hx. eapply Hin; [exact Hr'|]. by left. }
      apply res_bind_Err in H as [H|([q t2] & _ & H)]; [|done]. eapply each_total_fuel, H. intros [k' o] u Ho. unfold compile_entry.
      intros [H'|([? ?] & _ & H')]%res_bind_Err; [|done]. eapply Hnil, H'. intros x Hx. eapply Hin; [exact Hr'|]. right.
      simpl in Hx. subst o. by apply (elem_of_map_2 snd) in Ho.
    + destruct Hf as [k Hf%Hk]. intros [H|(x & _ & [H|([? ?] & _ & H)]%res_bind_Err)]%res_bind_Err; [by eapply compileExpr_not_fuel|by eapply Hc|done].
    + destruct Hf as [k Hf%Hk]. intros [H|(x & _ & [H|([? ?] & _ & H)]%res_bind_Err)]%res_bind_Err; [by eapply compileExpr_not_fuel|by eapply Hc|done].
    + intros [H|([m t'] & _ & H)]%res_bind_Err; [|done]. eapply each_total_fuel, H. intros [k v] u Hkv. unfold compile_field.
      intros [H'|([? ?] & _ & H')]%res_bind_Err; [|done]. eapply Hc, H'. simpl. eapply child_depth, entries_in; [exact Ee|exact Hkv].
  - intros [H|(v & _ & H)]%res_bind_Err; [by eapply lift_not_fuel, H|done].
Qed.

Lemma walkYAML_unfold k t v li co f cs d s : walkYAML (mkNode k t v li co f cs) d s =
  let s := {| ys_nodes := ys_nodes s + 1; ys_depth := if (ys_depth s <? d)%Z then d else ys_depth s |} in
  match k with
  | AliasNode => Err (LAlias li co)
  | _ => match (if decide (k = MappingNode) then repeated_key ∅ cs else None) with
         | Some k => Err (LDuplicate (n_Value k) (n_Line k) (n_Column k))
         | None => (fix children (l : list Node) (s : yamlStats) : res load_error yamlStats :=
                      match l with [] => Ok s | c :: r => let! s := walkYAML c (d + 1) s in children r s end) cs s
         end
  end.
Proof. by destruct k. Qed.

(** A tree that is walked at a depth of at most 32 is no deeper than the fuel. *)
Lemma walkYAML_depth n : forall d s s', walkYAML n d s = Ok s' ->
  (ys_depth s <= ys_depth s' /\ d + Z.of_nat (n_depth n) - 1 <= ys_depth s')%Z.
Proof.
  induction n as [k t v li co f cs IH] using Node_nested_ind. intros d s s' H. rewrite walkYAML_unfold in H. cbv zeta in H.
  set (s0 := {| ys_nodes := _; ys_depth := _ |}) in H. assert (H0 : (ys_depth s <= ys_depth s0 /\ d <= ys_depth s0)%Z).
  { unfold s0. simpl. destruct (Z.ltb_spec (ys_depth s) d); lia. }
  match type of H with context [?g cs s0] => set (go := g) in H end.
  assert (Hgo : forall l s1 s2, Forall (fun n => forall d s s', walkYAML n d s = Ok s' -> (ys_depth s <= ys_depth s' /\ d + Z.of_nat (n_depth n) - 1 <= ys_depth s')%Z) l ->
    (d <= ys_depth s1)%Z -> go l s1 = Ok s2 -> (ys_depth s1 <= ys_depth s2 /\ d + Z.of_nat (foldr (fun c m => Nat.max (n_depth c) m) 0%nat l) <= ys_depth s2)%Z).
  { induction l as [|c l IHl]; intros s1 s2 HF Hd Hl; simpl in Hl; [injection Hl as <-; simpl; lia|].
    apply Forall_cons in HF as [Hc HF]. apply res_bind_Ok in Hl as (s3 & H3 & Hl). apply Hc in H3. apply IHl in Hl; [|done|lia]. simpl. lia. }
  assert (Hend : go cs s0 = Ok s') by (destruct k; try done; by destruct (if decide _ then _ else _)). apply Hgo in Hend; [|done|lia].
  change (n_depth (mkNode k t v li co f cs)) with (S (foldr (fun c d => Nat.max (n_depth c) d) 0 cs)). lia.
Qed.

(** *** http-json *)

Lemma compileView_adds max v : forall t x t', compileView v t max = Ok (x, t') -> adds max (exprs x) t t'.
Proof.
  assert (Hleaf : forall (v : any) t x t', Ok (TLiteral v, t) = Ok (x, t') :> res load_error _ -> adds max (exprs x) t t').
  { intros w t x t' [= <- <-]. apply adds_nil. }
  induction v as [v Hv|l IH|m IH] using any_nested_ind; intros t x t' H; cbn [compileView] in H.
  - destruct v; try done; by eapply Hleaf.
  - apply res_bind_Ok in H as ([arr t1] & Ha & [= <- <-]). cbn [exprs]. revert t arr t1 Ha.
    induction IH as [|v l Hv _ IHl]; intros t arr t1 Ha; simpl in Ha; [injection Ha as <- <-; apply adds_nil|].
    apply res_bind_Ok in Ha as ([y t2] & Hy & ([ys t3] & Hys & [= <- <-])%res_bind_Ok). simpl. eapply adds_app; [by eapply Hv|by eapply IHl].
  - apply res_bind_Ok in H as ([obj t1] & Ha & [= <- <-]). cbn [exprs]. revert t obj t1 Ha.
    induction IH as [|[k v] m Hv _ IHm]; intros t obj t1 Ha; simpl in Ha; [injection Ha as <- <-; apply adds_nil|].
    apply res_bind_Ok in Ha as ([y t2] & Hy & ([ys t3] & Hys & [= <- <-])%res_bind_Ok). simpl. eapply adds_app; [|by eapply IHm].
    destruct (view_field k v) as [src|].
    + apply res_bind_Ok in Hy as (b & _ & (e & He & [= <- <-])%res_bind_Ok). by eapply adds_one, compileExprSource_Ok.
    + apply res_bind_Ok in Hy as ([z t4] & Hz & [= <- <-]). by eapply Hv.
Qed.

(** The manifest of an http-json card: one operation with one request, covered by its one route. *)
Lemma SynthesizeHTTPJSON_Ok slot method path query view m : SynthesizeHTTPJSON slot method path query view = Ok m ->
  exists cp meth step op, Canonicalise path = Ok cp /\ meth = (if String.eqb method "" then "GET" else method) /\ (meth = "GET" \/ meth = "POST")
    /\ mm_Digest m = HTTPJSONDigest /\ mm_Capabilities m = ["http"] /\ mm_Limits m = WithDefaults zero_limits
    /\ mm_Slots m = [{| ss_Name := slot; ss_Kind := "http"; ss_Required := true |}]
    /\ mm_Operations m = [op] /\ op_ID op = "request" /\ op_Pipeline op = [step] /\ op_Signals op = [] /\ ps_When step = None
    /\ rqd_Path (ps_Request step) = Some (TLiteral (AString cp))
    /\ op_Routes op = [{| mr_Slot := slot; mr_Method := meth; mr_Path := cp; mr_Use := ""; mr_ContentType := ""; mr_QueryKeys := None; mr_MaxBodyKB := 0 |}]
    /\ ps_Request step = {| rqd_Slot := slot; rqd_Method := meth; rqd_Path := Some (TLiteral (AString cp));
                            rqd_PathTemplate := rqd_PathTemplate (ps_Request step);
                            rqd_Query := map (fun q => (q.1, Some (TLiteral (AString q.2)))) query; rqd_Headers := []; rqd_Body := None |}
    /\ request_ok m op (ps_Request step)
    /\ Forall (expr_ok 512) (exprs_nil (op_Output op)) /\ (nodes (exprs_nil (op_Output op)) <= 4096)%Z.
Proof.
  unfold SynthesizeHTTPJSON. set (meth := if String.eqb method "" then _ else _). intros H.
  assert (Hm : meth = "GET" \/ meth = "POST").
  { destruct (String.eqb_spec meth "GET"); [by left|]. destruct (String.eqb_spec meth "POST"); [by right|done]. }
  destruct (negb _ && negb _); [done|]. apply res_bind_Ok in H as (cp & Hcp & H). apply res_bind_Ok in H as (tpl & Ht & H).
  apply res_bind_Ok in H as ([out total] & Hout & H). destruct (Z.ltb_spec httpJSONAggregateExprMax total) as [|Hmax]; [done|]. injection H as <-.
  apply compileView_adds in Hout as [Hg Hn]. assert (Hle : (nodes (exprs out) <= 4096)%Z) by (unfold httpJSONAggregateExprMax in Hmax; lia). clear Hn Hmax. unfold res_map_err in Hcp. destruct (Canonicalise path) as [cp'|]; simplify_eq/=.
  apply validateRequest_Ok in Ht. eexists cp, meth, _, _. by split_and!.
Qed.

(** The field names an expression reads directly: identifiers outside calls, builtins and predicates,
    other than a computed property. *)
Fixpoint direct (n : Ast.Node) : list string :=
  match n with
  | Ast.IdentifierNode v => [v]
  | Ast.MemberNode a p => direct a ++ direct p
  | Ast.BinaryNode _ l r => direct l ++ direct r
  | Ast.UnaryNode _ a => direct a
  | Ast.ConditionalNode c a b => direct c ++ direct a ++ direct b
  | Ast.ArrayNode l | Ast.MapNode l => concat (map direct l)
  | Ast.PairNode k v => direct k ++ direct v
  | _ => []
  end.

(** After binding, what an expression reads directly is the response, the parameters or the time. *)
Lemma bindNode_direct : forall n x, x ∈ direct (bindNode n) -> x = "data" \/ httpJSONReservedNames x = true.
Proof.
  fix IH 1. intros n x. assert (Hnil : x ∈ @nil string -> x = "data" \/ httpJSONReservedNames x = true) by (by intros ?%not_elem_of_nil).
  assert (Hlist : forall l, (forall n, n ∈ l -> x ∈ direct (bindNode n) -> x = "data" \/ httpJSONReservedNames x = true) ->
    x ∈ concat (map direct (map bindNode l)) -> x = "data" \/ httpJSONReservedNames x = true).
  { intros l Hl H. rewrite map_map in H. apply elem_of_concat_map_1 in H as (y & Hy & Hx). by eapply Hl. }
  destruct n as [| | | | | | |v|op a|op a b| |a p| |c l| | | | | |c a b|l|l|a b|]; cbn [bindNode direct]; try exact Hnil.
  - destruct (httpJSONReservedNames v) eqn:Ev; cbn [direct app]; intros ->%list_elem_of_singleton; [by right|by left].
  - apply IH.
  - intros [H|H]%elem_of_app; by apply IH in H.
  - intros [H|H]%elem_of_app; by apply IH in H.
  - intros [H|[H|H]%elem_of_app]%elem_of_app; by apply IH in H.
  - apply Hlist. induction l as [|y l IHl]; intros z Hz; [by apply not_elem_of_nil in Hz|].
    apply elem_of_cons in Hz as [->|Hz]; [apply IH|by apply IHl].
  - apply Hlist. induction l as [|y l IHl]; intros z Hz; [by apply not_elem_of_nil in Hz|].
    apply elem_of_cons in Hz as [->|Hz]; [apply IH|by apply IHl].
  - intros [H|H]%elem_of_app; by apply IH in H.
Qed.

(** Bare identifiers inside a builtin are not bound: [sum(items)] still reads [items]. *)
Example bind_skips_builtins : bindNode (Ast.BuiltinNode "sum" [Ast.IdentifierNode "items"]) = Ast.BuiltinNode "sum" [Ast.IdentifierNode "items"].
Proof. reflexivity. Qed.

Lemma loadBytes_sound (path raw : string) (m : MManifest) (H : loadBytes path raw = Ok m) :
  DigestBytes yaml_documents json_document sha256 raw (filepath_Ext path) = Some (Ok (mm_Digest m))
  /\ Forall (operation_ok m) (mm_Operations m)
  /\ (sum_by (fun op => nodes (exprs_op op)) (mm_Operations m) <= 32768)%Z.
Proof.
  unfold loadBytes in H. destruct (_ <? _)%Z in H; [done|]. apply res_bind_Ok in H as (root & _ & H).
  destruct (n_Content root) as [|top r]; [done|]. apply res_bind_Ok in H as (stats & _ & H). destruct (_ || _) in H; [done|].
  apply res_bind_Ok in H as (g & _ & H). destruct (validateSchema g); [done|]. apply res_bind_Ok in H as (doc & _ & H).
  destruct (DigestBytes _ _ _ _ _) as [[d|]|] eqn:Ed; [|done..]. apply res_bind_Ok in H as (ops & Hops & H).
  destruct (Z.ltb_spec 32768 (sum_by (fun o => o.1.2) ops)) as [|Hsum]; [done|]. destruct (_ <? _)%Z in H; [done|]. injection H as <-.
  apply load_operations_Ok in Hops as [Hf Hs]. split; [done|]. split; [exact Hf|]. cbn [mm_Operations set_operations]. lia.
Qed.

(** ** The properties *)

(** C11. A manifest that loads is what its bytes hash to, and every operation of it is sound: each
    pipeline request has a literal path, uses a declared slot under the http capability, names in
    its placeholders only parameters every card has, and is covered by a declared data route for
    every value of them; each asset node uses a declared slot and a literal one is covered by an
    asset route; each signal is declared; every expression parses, contains nothing forbidden and is
    within the limit, as are the expressions of an operation and of the manifest together. *)
Theorem load_covers_requests (path raw : string) (m : MManifest) (H : loadBytes path raw = Ok m) :
  DigestBytes yaml_documents json_document sha256 raw (filepath_Ext path) = Some (Ok (mm_Digest m))
  /\ Forall (operation_ok m) (mm_Operations m)
  /\ (sum_by (fun op => nodes (exprs_op op)) (mm_Operations m) <= 32768)%Z.
Proof. by apply loadBytes_sound. Qed.
End Load.

(** *** A manifest *)

Definition scalar_node (v : string) : Node := mkNode ScalarNode "!!str" v 1 1 None [].
Definition mapping_node (l : list (string * Node)) : Node :=
  mkNode MappingNode "!!map" "" 1 1 None (concat (map (fun p => [scalar_node p.1; p.2]) l)).
Definition sample_output : Node :=
  mapping_node [("title", scalar_node "Items"); ("signals", mapping_node [("count", mapping_node [("expr", scalar_node "r.n")])])].
Definition sample_params : any :=
  AMap [("properties", AMap [("id", AMap [("type", AString "string")])]); ("required", AList [AString "id"])].
Definition sample_raw : rawManifest := {|
  rm_ID := "items"; rm_Name := "Items"; rm_Version := "1.0.0"; rm_Runtime := "declarative"; rm_Module := ""; rm_SHA256 := "";
  rm_Capabilities := ["http"]; rm_Slots := [{| rsl_Name := "server"; rsl_Kind := "http"; rsl_Required := None |}];
  rm_Limits := zero_limits;
  rm_Operations := [{|
    ro_ID := "status"; ro_Name := "Status"; ro_DefaultRefresh := "30s"; ro_Params := sample_params;
    ro_Routes := [{| mr_Slot := "server"; mr_Method := "GET"; mr_Path := "/api/items/*"; mr_Use := ""; mr_ContentType := "";
                     mr_QueryKeys := None; mr_MaxBodyKB := 0 |}];
    ro_Signals := [{| sd_Name := "count"; sd_Type := "number"; sd_Unit := ""; sd_History := true |}];
    ro_Pipeline := [{| rs_As := "r"; rs_When := None;
      rs_Request := {| rr_Slot := "server"; rr_Method := ""; rr_Path := Some (scalar_node "/api/items/{id}"); rr_Query := [];
                       rr_Headers := []; rr_Body := None |} |}];
    ro_Output := Some sample_output |}] |}.
Definition sample_parse (s : string) : res string Ast.Node :=
  if String.eqb s "r.n" then Ok (Ast.MemberNode (Ast.IdentifierNode "r") (Ast.StringNode "n")) else Err "parse".
Definition sample_walk (n : Ast.Node) : list Ast.Node := match n with Ast.MemberNode a p => [a; p; n] | _ => [n] end.
Definition sample_decode_value (n : Node) : res string any := Ok (AString (n_Value n)).
Definition sample_decode_expr (n : Node) : res string string :=
  match n_Content n with [_; v] => Ok (n_Value v) | _ => Err "decode" end.
Definition sample_yaml (raw : string) : res string Node := Ok (mkNode DocumentNode "" "" 1 1 None [mapping_node [("spec", scalar_node raw)]]).
Definition sample_documents (raw : string) : list (res string (yaml * (nat -> yaml))) :=
  [Ok (YDocument (YMapping [("spec", YScalar (Ok (AString raw)))]), fun _ => YUnknown)].
Definition sample_load (raw : string) : res load_error MManifest :=
  loadBytes sample_parse sample_walk sample_decode_value sample_decode_expr (fun _ => Err "no assets") (fun _ => Ok sample_raw) sample_yaml
    (fun _ => None) sample_documents (fun _ => Err "json") (fun s => s) (fun s => s) "manifest.yaml" raw.
Definition loaded_manifest : option MManifest := Eval vm_compute in (match sample_load "x" with Ok m => Some m | Err _ => None end).

Example load_covers_requests_witness : exists m, sample_load "x" = Ok m /\ length (mm_Operations m) = 1
  /\ Forall (operation_ok sample_parse sample_walk (fun s => s) m) (mm_Operations m).
Proof.
  destruct (sample_load "x") as [m|e] eqn:E; [|exfalso; vm_compute in E; discriminate E]. exists m. split; [reflexivity|]. split.
  - vm_compute in E. injection E as <-. reflexivity.
  - exact (proj1 (proj2 (load_covers_requests sample_parse sample_walk sample_decode_value sample_decode_expr (fun _ => Err "no assets")
      (fun _ => Ok sample_raw) sample_yaml (fun _ => None) sample_documents (fun _ => Err "json") (fun s => s) (fun s => s) "manifest.yaml" "x" m E))).
Defined.
