(* ===== verification/Secrets.v ===== *)
(** * internal/secrets: resolving, tracking and scrubbing secrets

    The registry of known secret values with its log scrubber, the providers and the resolver, the
    resolution of every reference of a configuration, and the scan of a Widget Document for secret
    text. The file system and the process environment are arguments of the providers. *)
From S2P Require Import Prelude RoutePath Widgets Config.

(** ** Values *)

Definition redacted : string := "***".

(** A [Value]: its only field is the resolved string; [Reveal] is the way out. *)
Record Value := { resolved : string }.

Definition Value_String (v : Value) : string := redacted.
Definition GoString (v : Value) : string := redacted.
Definition IsZero (v : Value) : bool := String.eqb (resolved v) "".
Definition Reveal (v : Value) : string := resolved v.

(** ** The registry *)

Record Registry := { values : gset string }.

Definition NewRegistry : Registry := {| values := ∅ |}.

Definition minScrubLength : nat := 8.

Definition Track (r : Registry) (v : string) : Registry :=
  if Nat.ltb (String.length v) minScrubLength then r else {| values := {[v]} ∪ values r |}.

(** [New]: every value constructed is tracked by the default registry, threaded here. *)
Definition New (r : Registry) (v : string) : Registry * Value := (Track r v, {| resolved := v |}).

(** The body of the loop of [Scrub]; Go ranges over the map in any order, which is an argument. *)
Definition scrub_step (s v : string) : string :=
  if Contains s v then ReplaceAll s v redacted else s.
Definition scrub_in (order : list string) (s : string) : string := foldl scrub_step s order.

(** [Scrub] in one of the orders Go may take. *)
Definition Scrub (r : Registry) (s : string) : string := scrub_in (elements (values r)) s.

Definition ContainsSecret (r : Registry) (s : string) : bool :=
  existsb (fun v => Contains s v) (elements (values r)).

(** ** The scrubbing log handler *)

(** An slog attribute value. [LValuer] is a LogValuer, which [Resolve] unwraps; [LOther] stands for
    every kind that is neither a string nor a group. *)
Inductive LogValue :=
| LString (s : string)
| LGroup (attrs : list (string * LogValue))
| LValuer (v : LogValue)
| LOther.

Fixpoint scrubAttr (scrub : string -> string) (v : LogValue) : LogValue :=
  match v with
  | LString s => LString (scrub s)
  | LGroup g => LGroup (map (fun a => (a.1, scrubAttr scrub a.2)) g)
  | LValuer v => scrubAttr scrub v
  | LOther => LOther
  end.

Record LogRecord := { lr_Message : string; lr_Attrs : list (string * LogValue) }.

(** [scrubbingHandler.Handle]: the record the next handler receives. *)
Definition Handle (scrub : string -> string) (r : LogRecord) : LogRecord :=
  {| lr_Message := scrub (lr_Message r);
     lr_Attrs := map (fun a => (a.1, scrubAttr scrub a.2)) (lr_Attrs r) |}.

(** [scrubbingHandler.WithAttrs]: the attributes the next handler is given. *)
Definition WithAttrs (scrub : string -> string) (attrs : list (string * LogValue)) : list (string * LogValue) :=
  map (fun a => (a.1, scrubAttr scrub a.2)) attrs.

(** ** Providers and the resolver *)

(** [(value, ok, err)]: [Ok None] is "nothing here, try the next provider". *)
Abbreviation Provider := (string -> res string (option string)) (only parsing).

Definition safeSecretName (name : string) : bool := negb (String.eqb name "") && all_bytes isWord name.

Definition EnvProvider (lookupEnv : string -> option string) : Provider :=
  fun name => Ok (lookupEnv name).

(** [os.ReadFile] of [filepath.Join(Dir, name)] *)
Inductive file_result := NotExist | ReadError (e : string) | FileData (data : string).

Definition FileProvider (readFile : string -> string -> file_result) (dir : string) : Provider :=
  fun name =>
    if negb (safeSecretName name) then Err "secret name contains characters other than letters, digits and underscore"
    else match readFile dir name with
         | NotExist => Ok None
         | ReadError e => Err e
         | FileData data => Ok (Some (TrimSpace data))
         end.

(** [Resolver.Resolve], with the registry its [New] registers in. *)
Fixpoint ResolveName (ps : list Provider) (reg : Registry) (name : string)
  : Registry * res string (option Value) :=
  match ps with
  | [] => (reg, Ok None)
  | p :: ps' => match p name with
                | Err e => (reg, Err e)
                | Ok (Some v) => let '(reg', val) := New reg v in (reg', Ok (Some val))
                | Ok None => ResolveName ps' reg name
                end
  end.

Definition DefaultResolver (readFile : string -> string -> file_result) (lookupEnv : string -> option string)
  : list Provider := [FileProvider readFile "/run/secrets"; EnvProvider lookupEnv].

(** The first loop of [ResolveAll]: resolved values, failures ([None] is "no provider has it"). *)
Record resolve_state := {
  rs_reg : Registry; rs_resolved : gmap string Value; rs_failed : gmap string (option string);
  rs_tried : gset string }.

Definition resolve_one (ps : list Provider) (st : resolve_state) (ref : SecretLocation) : resolve_state :=
  let name := loc_Name ref in
  if bool_decide (name ∈ rs_tried st) then st
  else
    let tried := {[name]} ∪ rs_tried st in
    match ResolveName ps (rs_reg st) name with
    | (reg, Err e) =>
        {| rs_reg := reg; rs_resolved := rs_resolved st; rs_failed := <[name := Some e]> (rs_failed st); rs_tried := tried |}
    | (reg, Ok (Some v)) =>
        {| rs_reg := reg; rs_resolved := <[name := v]> (rs_resolved st); rs_failed := rs_failed st; rs_tried := tried |}
    | (reg, Ok None) =>
        {| rs_reg := reg; rs_resolved := rs_resolved st; rs_failed := <[name := None]> (rs_failed st); rs_tried := tried |}
    end.

Definition resolve_start (reg : Registry) : resolve_state :=
  {| rs_reg := reg; rs_resolved := ∅; rs_failed := ∅; rs_tried := ∅ |}.

Definition ref_diag (ref : SecretLocation) (err : option string) : Diagnostic :=
  {| d_Severity := SeverityError; d_File := loc_File ref; d_Line := loc_Line ref; d_Column := loc_Column ref;
     d_Message := match err with
                  | None => MSecretUnresolved (loc_Name ref)
                  | Some e => MSecretError (loc_Name ref) e
                  end |}.

(** [ResolveAll]: the values by name, the diagnostics, and the registry afterwards. *)
Definition ResolveAll (ps : list Provider) (reg : Registry) (refs : list SecretLocation)
  : gmap string Value * list Diagnostic * Registry :=
  let st := foldl (resolve_one ps) (resolve_start reg) refs in
  (rs_resolved st,
   omap (fun ref => ref_diag ref <$> rs_failed st !! loc_Name ref) refs,
   rs_reg st).

(** ** Documents *)

Section Scan.
Variable r : Registry.

Definition containsAny (fields : list string) : bool := existsb (ContainsSecret r) fields.

Definition imageLeaks (img : option Image) : bool :=
  match img with Some i => ContainsSecret r (img_Alt i) | None => false end.

Definition scalarLeaks (v : Scalar) : bool :=
  match v with SString s => ContainsSecret r s | _ => false end.

Definition metricItemsLeak (items : list MetricItem) : bool :=
  existsb (fun it => containsAny [mi_Label it; mi_Unit it; mi_Link it] || scalarLeaks (mi_Value it)) items.

Definition blockLeaks (b : Block) : bool :=
  match b with
  | BMetrics v => containsAny [bm_Title v] || metricItemsLeak (bm_Items v)
  | BKeyValue v => containsAny [bk_Title v] || metricItemsLeak (bk_Items v)
  | BProgress v =>
      containsAny [bp_Title v]
      || existsb (fun it => containsAny [pi_Label it] || scalarLeaks (pi_Value it)) (bp_Items v)
  | BStatus v =>
      containsAny [bs_Title v]
      || existsb (fun it => containsAny [si_Label it; si_Text it; si_Link it]) (bs_Items v)
  | BList v =>
      containsAny [bl_Title v; bl_Empty v]
      || existsb (fun it => containsAny [li_Title it; li_Subtitle it; li_Link it]
                            || scalarLeaks (li_Value it) || imageLeaks (li_Image it)) (bl_Items v)
  | BMedia v =>
      containsAny [bmd_Title v; bmd_Empty v]
      || existsb (fun it => containsAny [me_Title it; me_Subtitle it; me_Badge it; me_Link it]
                            || imageLeaks (Some (me_Image it))) (bmd_Items v)
  | BText v => containsAny [bt_Title v; bt_Content v]
  | BTable v =>
      containsAny [btb_Title v]
      || existsb (fun c => containsAny [tc_Label c]) (btb_Columns v)
      || existsb (fun row => existsb (fun cell => scalarLeaks cell.2) (map_to_list row)) (btb_Rows v)
  | BActions v =>
      containsAny [ba_Title v] || existsb (fun a => containsAny [ac_Label a]) (ba_Actions v)
  | BSeries v =>
      containsAny [bse_Title v; bse_Unit v]
      || existsb (fun l => containsAny [sl_Label l]) (bse_Series v)
      || match bse_History v with
         | Some h => existsb (fun l => containsAny [hl_Label l]) (sh_Lines h)
         | None => false
         end
  | BNil => true
  end.

Definition ContainsSecretInDocument (doc : Document) : bool :=
  containsAny [doc_Title doc; doc_Subtitle doc; doc_Link doc]
  || match doc_Status doc with Some s => ContainsSecret r (st_Text s) | None => false end
  || existsb (fun n => ContainsSecret r (no_Message n)) (doc_Notices doc)
  || existsb (fun p => scalarLeaks (sig_Value p.2)) (map_to_list (doc_Signals doc))
  || existsb blockLeaks (doc_Blocks doc).
End Scan.

(** ** Specifications *)

(** The secrets are free of the redaction mark's byte. *)
Definition star_free (v : string) : Prop := all_bytes (fun c => negb (Ascii.eqb c "*")) v = true.

(** Every string a log value carries. *)
Fixpoint log_strings (v : LogValue) : list string :=
  match v with
  | LString s => [s]
  | LGroup g => concat (map (fun a => log_strings a.2) g)
  | LValuer v => log_strings v
  | LOther => []
  end.
Definition record_strings (r : LogRecord) : list string :=
  lr_Message r :: concat (map (fun a => log_strings a.2) (lr_Attrs r)).

(** What the providers say about a name, in order. *)
Fixpoint provided (ps : list Provider) (name : string) : res string (option string) :=
  match ps with
  | [] => Ok None
  | p :: ps' => match p name with Ok None => provided ps' name | r => r end
  end.

Definition scalar_text (v : Scalar) : list string := match v with SString s => [s] | _ => [] end.

(** The text of a block that the scan reads. *)
Definition block_texts (b : Block) : list string :=
  match b with
  | BMetrics v => bm_Title v :: concat (map (fun it => [mi_Label it; mi_Unit it; mi_Link it] ++ scalar_text (mi_Value it)) (bm_Items v))
  | BKeyValue v => bk_Title v :: concat (map (fun it => [mi_Label it; mi_Unit it; mi_Link it] ++ scalar_text (mi_Value it)) (bk_Items v))
  | BProgress v => bp_Title v :: concat (map (fun it => pi_Label it :: scalar_text (pi_Value it)) (bp_Items v))
  | BStatus v => bs_Title v :: concat (map (fun it => [si_Label it; si_Text it; si_Link it]) (bs_Items v))
  | BList v => [bl_Title v; bl_Empty v] ++ concat (map (fun it =>
      [li_Title it; li_Subtitle it; li_Link it] ++ scalar_text (li_Value it)
      ++ match li_Image it with Some i => [img_Alt i] | None => [] end) (bl_Items v))
  | BMedia v => [bmd_Title v; bmd_Empty v] ++ concat (map (fun it =>
      [me_Title it; me_Subtitle it; me_Badge it; me_Link it; img_Alt (me_Image it)]) (bmd_Items v))
  | BText v => [bt_Title v; bt_Content v]
  | BTable v => btb_Title v :: map tc_Label (btb_Columns v)
      ++ concat (map (fun row => concat (map (fun c => scalar_text c.2) (map_to_list row))) (btb_Rows v))
  | BActions v => ba_Title v :: map ac_Label (ba_Actions v)
  | BSeries v => [bse_Title v; bse_Unit v] ++ map sl_Label (bse_Series v)
      ++ match bse_History v with Some h => map hl_Label (sh_Lines h) | None => [] end
  | BNil => []
  end.

Definition document_texts (doc : Document) : list string :=
  [doc_Title doc; doc_Subtitle doc; doc_Link doc]
  ++ match doc_Status doc with Some s => [st_Text s] | None => [] end
  ++ map no_Message (doc_Notices doc)
  ++ concat (map (fun p => scalar_text (sig_Value p.2)) (map_to_list (doc_Signals doc)))
  ++ concat (map block_texts (doc_Blocks doc)).

(** ** Lemmas on replacement *)

Lemma Contains_unfold s v :
  Contains s v = HasPrefix s v || match s with EmptyString => false | String _ s' => Contains s' v end.
Proof.
  unfold Contains, HasPrefix. destruct s as [|c s']; simpl.
  - by destruct (strip_prefix v "").
  - destruct (strip_prefix v (String c s')); [done|]. simpl. by destruct (Index s' v).
Qed.

Lemma HasPrefix_cons c s d v : HasPrefix (String c s) (String d v) = bool_decide (d = c) && HasPrefix s v.
Proof. unfold HasPrefix. simpl. case_decide; case_bool_decide; try done. Qed.

Lemma HasPrefix_star s v : v <> "" -> star_free v -> HasPrefix (String "*" s) v = false.
Proof.
  intros Hv Hs. destruct v as [|d v]; [done|]. rewrite HasPrefix_cons. unfold star_free in Hs. simpl in Hs.
  bool_prop. by rewrite bool_decide_false.
Qed.

Section Replace.
Variable old : string.
Hypothesis old_ne : old <> "".

(** A star-free prefix of the result is a prefix of the input. *)
Lemma replace_prefix v s :
  v <> "" -> star_free v -> HasPrefix (replace_from old redacted 0 s) v = true -> HasPrefix s v = true.
Proof.
  revert s; induction v as [|d v IH]; intros s Hne Hs H; [done|].
  destruct s as [|c s]; [done|]. cbn [replace_from] in H.
  destruct (HasPrefix (String c s) old) eqn:E.
  - change (redacted +:+ ?x) with (String "*" ("**" +:+ x)) in H. by rewrite HasPrefix_star in H.
  - rewrite HasPrefix_cons in *. apply andb_true_iff in H as [H1 H2]. rewrite H1. simpl.
    destruct (decide (v = "")) as [->|Hv]; [done|]. apply IH; [done| |done].
    unfold star_free in *. simpl in Hs. by bool_prop.
Qed.

Lemma Contains_redacted v s :
  v <> "" -> star_free v -> Contains (redacted +:+ s) v = true -> Contains s v = true.
Proof.
  intros Hv Hs. change (redacted +:+ s) with (String "*" (String "*" (String "*" s))).
  rewrite Contains_unfold, HasPrefix_star by done. simpl.
  rewrite Contains_unfold, HasPrefix_star by done. simpl.
  by rewrite Contains_unfold, HasPrefix_star by done.
Qed.

(** Replacing introduces no star-free text that was not there. *)
Lemma replace_no_new v k s :
  v <> "" -> star_free v -> Contains (replace_from old redacted k s) v = true -> Contains s v = true.
Proof.
  intros Hv Hs. revert k; induction s as [|c s IH]; intros k; [done|].
  rewrite (Contains_unfold (String c s)). intros H. apply orb_true_iff.
  destruct k as [|k]; cbn [replace_from] in H; [|right; by eapply IH].
  destruct (HasPrefix (String c s) old) eqn:E.
  - right. by eapply IH, Contains_redacted.
  - rewrite Contains_unfold in H. apply orb_true_iff in H as [H|H]; [left|right; by eapply IH].
    apply replace_prefix; [done|done|]. cbn [replace_from]. by rewrite E.
Qed.

(** Replacing removes the replaced text. *)
Lemma replace_removes k s : star_free old -> Contains (replace_from old redacted k s) old = false.
Proof.
  intros Hs. revert k; induction s as [|c s IH]; intros k.
  - simpl. rewrite Contains_unfold. by destruct old.
  - destruct k as [|k]; cbn [replace_from]; [|apply IH].
    destruct (HasPrefix (String c s) old) eqn:E.
    + destruct (Contains (redacted +:+ _) old) eqn:Ec; [|done].
      apply Contains_redacted in Ec; [|done|done]. by rewrite IH in Ec.
    + rewrite Contains_unfold, IH, orb_false_r.
      destruct (HasPrefix (String c (replace_from old redacted 0 s)) old) eqn:Ep; [|done].
      rewrite <- E. symmetry. apply replace_prefix; [done|done|]. cbn [replace_from]. by rewrite E.
Qed.
End Replace.

Definition scrubbable (v : string) : Prop := v <> "" /\ star_free v.

Lemma scrub_in_no_new order s v :
  Forall scrubbable order -> scrubbable v -> Contains (scrub_in order s) v = true -> Contains s v = true.
Proof.
  intros Ho [Hv Hs]. revert s; induction Ho as [|w order [Hw _] Ho IH]; intros s; [done|]. simpl.
  intros H%IH. unfold scrub_step in H. destruct (Contains s w); [|done].
  by eapply replace_no_new.
Qed.

Lemma scrub_in_clean order s v :
  Forall scrubbable order -> v ∈ order -> Contains (scrub_in order s) v = false.
Proof.
  intros Ho. revert s; induction Ho as [|w order Hw Ho IH]; intros s; [by intros ?%not_elem_of_nil|].
  intros [->|Hv]%elem_of_cons; [|by apply IH]. simpl.
  destruct (Contains (scrub_in order _) w) eqn:E; [|done]. apply scrub_in_no_new in E; [|done|done].
  unfold scrub_step in E. destruct Hw as [Hw Hs]. destruct (Contains s w) eqn:Ec; [|congruence].
  unfold ReplaceAll in E. by rewrite replace_removes in E.
Qed.

(** ** Lemmas on log records *)

Section LogInd.
Variable P : LogValue -> Prop.
Hypothesis HS : forall s, P (LString s).
Hypothesis HG : forall g, Forall (fun a => P a.2) g -> P (LGroup g).
Hypothesis HV : forall v, P v -> P (LValuer v).
Hypothesis HO : P LOther.
Definition log_nested_ind : forall v, P v :=
  fix F (v : LogValue) : P v :=
    match v with
    | LString s => HS s
    | LGroup g => HG g ((fix G (l : list (string * LogValue)) : Forall (fun a => P a.2) l :=
                           match l with
                           | [] => List.Forall_nil _
                           | x :: r => List.Forall_cons _ x r (F x.2) (G r)
                           end) g)
    | LValuer v => HV v (F v)
    | LOther => HO
    end.
End LogInd.

Lemma scrubAttr_strings scrub v s : s ∈ log_strings (scrubAttr scrub v) -> exists s0, s = scrub s0.
Proof.
  induction v as [s0|g IH|v IH|] using log_nested_ind; simpl.
  - intros ->%list_elem_of_singleton. eauto.
  - rewrite map_map, elem_of_concat_map. intros (a & Ha & Hs). simpl in Hs.
    rewrite Forall_forall in IH. by eapply IH.
  - done.
  - by intros ?%not_elem_of_nil.
Qed.

Lemma Handle_strings scrub r s : s ∈ record_strings (Handle scrub r) -> exists s0, s = scrub s0.
Proof.
  unfold record_strings, Handle; simpl. intros [->|H]%elem_of_cons; [eauto|].
  rewrite map_map in H. apply elem_of_concat_map in H as (a & Ha & Hs). by eapply scrubAttr_strings.
Qed.

(** ** Lemmas on resolution *)

Lemma Track_values r v : values (Track r v) = if Nat.ltb (String.length v) minScrubLength then values r else {[v]} ∪ values r.
Proof. unfold Track. by destruct (Nat.ltb (String.length v) minScrubLength). Qed.

Lemma ResolveName_provided ps reg name :
  ResolveName ps reg name =
  match provided ps name with
  | Ok (Some v) => (Track reg v, Ok (Some {| resolved := v |}))
  | Ok None => (reg, Ok None)
  | Err e => (reg, Err e)
  end.
Proof. induction ps as [|p ps IH]; simpl; [done|]. by destruct (p name) as [[v|]|e]. Qed.

(** Why a name fails to resolve. *)
Definition failure (ps : list Provider) (name : string) : option (option string) :=
  match provided ps name with Ok (Some _) => None | Ok None => Some None | Err e => Some (Some e) end.

(** What the first loop has established after the references [seen]. *)
Record resolve_inv (ps : list Provider) (reg : Registry) (seen : list string) (st : resolve_state) : Prop := {
  ri_resolved : forall n v, rs_resolved st !! n = Some v <-> n ∈ seen /\ provided ps n = Ok (Some (resolved v));
  ri_failed : forall n e, rs_failed st !! n = Some e <-> n ∈ seen /\ failure ps n = Some e;
  ri_tried : forall n, n ∈ rs_tried st <-> n ∈ seen;
  ri_grows : values reg ⊆ values (rs_reg st);
  ri_tracked : forall n v, n ∈ seen -> provided ps n = Ok (Some v) ->
    minScrubLength <= String.length v -> v ∈ values (rs_reg st) }.

Lemma resolve_one_inv ps reg seen st ref :
  resolve_inv ps reg seen st -> resolve_inv ps reg (seen ++ [loc_Name ref]) (resolve_one ps st ref).
Proof.
  intros [H1 H2 H3 H4 H5]. unfold resolve_one. set (n := loc_Name ref).
  assert (Hin : forall m, m ∈ seen ++ [n] <-> m ∈ seen \/ m = n)
    by (intros m; rewrite elem_of_app, list_elem_of_singleton; done).
  case_bool_decide as Ht.
  { apply H3 in Ht. assert (Hs : forall m, m ∈ seen ++ [n] <-> m ∈ seen) by (intros m; rewrite Hin; naive_solver).
    split; try setoid_rewrite Hs; done. }
  assert (Hns : n ∉ seen) by (by rewrite <- H3). rewrite ResolveName_provided.
  assert (Htr : forall m, m ∈ {[n]} ∪ rs_tried st <-> m ∈ seen ++ [n])
    by (intros m; rewrite Hin, elem_of_union, elem_of_singleton, H3; tauto).
  (* a map of the state that gains the entry of [n], and one that does not *)
  assert (Hadd : forall {X Y} (m : gmap string X) (x : X) (f : X -> Y) (g : string -> option Y),
    (forall k v, m !! k = Some v <-> k ∈ seen /\ g k = Some (f v)) -> g n = Some (f x) ->
    (forall a b, f a = f b -> a = b) ->
    forall k v, <[n := x]> m !! k = Some v <-> k ∈ seen ++ [n] /\ g k = Some (f v)).
  { intros X Y m x f g Hm Hg Hf k v. rewrite Hin, lookup_insert. case_decide as Hk; [subst k|rewrite Hm; naive_solver].
    rewrite Hg. split; [naive_solver|]. intros [_ [= E]]. by rewrite (Hf _ _ E). }
  assert (Hkeep : forall {X Y} (m : gmap string X) (f : X -> Y) (g : string -> option Y),
    (forall k v, m !! k = Some v <-> k ∈ seen /\ g k = Some (f v)) -> g n = None ->
    forall k v, m !! k = Some v <-> k ∈ seen ++ [n] /\ g k = Some (f v)).
  { intros X Y m f g Hm Hg k v. rewrite Hin, Hm. naive_solver. }
  set (g := fun k => match provided ps k with Ok (Some v) => Some v | _ => None end).
  assert (Hg : forall k v, provided ps k = Ok (Some v) <-> g k = Some v).
  { intros k v. unfold g. destruct (provided ps k) as [[w|]|e]; naive_solver. }
  setoid_rewrite Hg in H1. setoid_rewrite Hg in H5.
  destruct (provided ps n) as [[v|]|e] eqn:Ep.
  - split; simpl; try setoid_rewrite Hg; [|by apply Hkeep; [|unfold failure; rewrite Ep]|done| |].
    + apply (Hadd _ _ _ {| resolved := v |} resolved g); [done|by apply Hg|]. intros [] []; simpl; congruence.
    + rewrite Track_values. case_match; set_solver.
    + intros m w Hm%Hin Hw Hl. rewrite Track_values. case_match eqn:El; [|destruct Hm as [Hm| ->]; [set_solver by eauto|]].
      * destruct Hm as [Hm| ->]; [eauto|]. apply Hg in Hw. rewrite Hw in Ep. injection Ep as ->.
        apply Nat.ltb_lt in El. lia.
      * apply Hg in Hw. rewrite Hw in Ep. injection Ep as ->. set_solver.
  - split; simpl; try setoid_rewrite Hg; [by apply Hkeep; [|unfold g; rewrite Ep]| |done|done|].
    + by apply (Hadd _ _ _ None id (failure ps)); [|unfold failure; rewrite Ep|].
    + intros m w [Hm| ->]%Hin Hw Hl; [eauto|]. apply Hg in Hw. congruence.
  - split; simpl; try setoid_rewrite Hg; [by apply Hkeep; [|unfold g; rewrite Ep]| |done|done|].
    + by apply (Hadd _ _ _ (Some e) id (failure ps)); [|unfold failure; rewrite Ep|].
    + intros m w [Hm| ->]%Hin Hw Hl; [eauto|]. apply Hg in Hw. congruence.
Qed.

Lemma resolve_all_inv ps reg refs :
  resolve_inv ps reg (map loc_Name refs) (foldl (resolve_one ps) (resolve_start reg) refs).
Proof.
  assert (H : forall refs seen st, resolve_inv ps reg seen st ->
    resolve_inv ps reg (seen ++ map loc_Name refs) (foldl (resolve_one ps) st refs)).
  { induction refs0 as [|x l IH]; intros seen st Hi; simpl; [by rewrite app_nil_r|].
    apply (resolve_one_inv _ _ _ _ x) in Hi. apply IH in Hi. by rewrite <- app_assoc in Hi. }
  apply (H refs []). split; simpl.
  - intros n v. rewrite lookup_empty. split; [done|]. by intros [?%not_elem_of_nil _].
  - intros n v. rewrite lookup_empty. split; [done|]. by intros [?%not_elem_of_nil _].
  - intros n. rewrite elem_of_empty. split; [done|]. by intros ?%not_elem_of_nil.
  - done.
  - by intros n v ?%not_elem_of_nil.
Qed.

(** ** Lemmas on the document scan *)

Lemma ContainsSecret_true r s :
  ContainsSecret r s = true <-> exists v, v ∈ values r /\ exists a b, s = a +:+ v +:+ b.
Proof.
  unfold ContainsSecret. rewrite existsb_exists. split.
  - intros (v & Hv & Hc%Contains_true). exists v. split; [|done].
    by apply elem_of_elements, list_elem_of_In.
  - intros (v & Hv & Hc). exists v. split; [|by apply Contains_true].
    by apply list_elem_of_In, elem_of_elements.
Qed.

(** The scan of a list of texts, and of the texts of a list of parts. *)
Definition leaks (r : Registry) (l : list string) : bool := existsb (ContainsSecret r) l.
Arguments leaks : simpl never.

Lemma leaks_app r a b : leaks r (a ++ b) = leaks r a || leaks r b.
Proof. apply existsb_app. Qed.
Lemma leaks_cons r x l : leaks r (x :: l) = ContainsSecret r x || leaks r l.
Proof. done. Qed.
Lemma leaks_concat_map {A} r (f : A -> list string) l :
  leaks r (concat (map f l)) = existsb (fun x => leaks r (f x)) l.
Proof. induction l as [|x l IH]; simpl; [done|]. by rewrite leaks_app, IH. Qed.
Lemma leaks_map {A} r (f : A -> string) l : leaks r (map f l) = existsb (fun x => ContainsSecret r (f x)) l.
Proof. induction l as [|x l IH]; simpl; [done|]. by rewrite leaks_cons, IH. Qed.
Lemma leaks_nil r : leaks r [] = false.
Proof. done. Qed.
Lemma scalarLeaks_texts r v : scalarLeaks r v = leaks r (scalar_text v).
Proof. destruct v; simpl; rewrite ?leaks_cons, ?leaks_nil, ?orb_false_r; done. Qed.
Ltac leak_solve :=
  repeat first
    [ rewrite leaks_app | rewrite leaks_cons | rewrite leaks_concat_map | rewrite leaks_map
    | rewrite leaks_nil | rewrite scalarLeaks_texts | rewrite orb_false_r | rewrite orb_assoc ].

Lemma blockLeaks_texts r b : blockLeaks r b = match b with BNil => true | _ => leaks r (block_texts b) end.
Proof.
  destruct b; cbn [blockLeaks block_texts]; unfold metricItemsLeak, containsAny;
    change (existsb (ContainsSecret r)) with (leaks r); try done; leak_solve; try done.
  all: repeat match goal with
              | |- existsb _ _ = existsb _ _ => apply existsb_ext; intros ?; leak_solve
              | |- context [match bse_History ?b with _ => _ end] => destruct (bse_History b); leak_solve
              | |- context [match li_Image ?b with _ => _ end] => destruct (li_Image b); leak_solve
              | |- imageLeaks _ _ = _ => unfold imageLeaks; leak_solve
              | |- _ || _ = _ || _ => f_equal
              end; try done.
Qed.

Lemma leaks_true r l : leaks r l = true <-> exists s, s ∈ l /\ ContainsSecret r s = true.
Proof. unfold leaks. by apply existsb_elem. Qed.

Lemma blocks_leak r bs :
  existsb (blockLeaks r) bs = true <-> BNil ∈ bs \/ leaks r (concat (map block_texts bs)) = true.
Proof.
  induction bs as [|b bs IH]; simpl.
  - split; [done|]. intros [?%not_elem_of_nil|H]; done.
  - rewrite leaks_app, !orb_true_iff, IH, elem_of_cons, blockLeaks_texts.
    destruct b; naive_solver.
Qed.

(** ** The properties *)

(** C29. Whatever order the scrubber takes the tracked values in, a scrubbed log record carries none of
    them: not in its message and not in any string attribute at any depth of nesting, as long as no tracked
    value contains an asterisk, the character the redaction mark is written with. *)
Theorem scrub_removes_every_secret reg order rec :
  order ≡ₚ elements (values reg) ->
  (forall v, v ∈ values reg -> scrubbable v) ->
  forall s v, s ∈ record_strings (Handle (scrub_in order) rec) -> v ∈ values reg ->
  ~ exists a b, s = a +:+ v +:+ b.
Proof.
  intros Ho Hr s v [s0 ->]%Handle_strings Hv Hc%Contains_true.
  rewrite scrub_in_clean in Hc; [done| |].
  - rewrite Ho. apply Forall_forall. intros w Hw%elem_of_elements. by apply Hr.
  - rewrite Ho. by apply elem_of_elements.
Qed.

Example scrub_removes_every_secret_witness :
  let reg := Track (Track NewRegistry "hunter2-hunter2") "short" in
  let rec := {| lr_Message := "token=hunter2-hunter2!"; lr_Attrs := [("g", LGroup [("a", LString "x hunter2-hunter2")])] |} in
  record_strings (Handle (scrub_in ["hunter2-hunter2"]) rec) = ["token=***!"; "x ***"]
  /\ ~ exists a b, "token=***!" = a +:+ "hunter2-hunter2" +:+ b.
Proof.
  split; [reflexivity|].
  apply (scrub_removes_every_secret (Track (Track NewRegistry "hunter2-hunter2") "short") ["hunter2-hunter2"]
    {| lr_Message := "token=hunter2-hunter2!"; lr_Attrs := [("g", LGroup [("a", LString "x hunter2-hunter2")])] |}).
  - vm_compute. reflexivity.
  - intros v Hv. assert (Hs : v ∈ ({["hunter2-hunter2"]} ∪ ∅ : gset string)) by exact Hv.
    apply elem_of_union in Hs as [->%elem_of_singleton|Hs]; [|by apply elem_of_empty in Hs].
    split; [discriminate|reflexivity].
  - left.
  - vm_compute. reflexivity.
Defined.

(** [ResolveAll]: a name is resolved exactly when it is referenced and the providers, asked in
    order, have it; every occurrence of every other referenced name (repeated names included, in
    order) gets an error diagnostic at its own file, line and column; and every value resolved
    that is long enough to scrub is tracked afterwards, without forgetting an earlier one. *)
Theorem resolve_all_exact ps reg refs :
  let '(vals, diags, reg') := ResolveAll ps reg refs in
  (forall n v, vals !! n = Some v <-> n ∈ map loc_Name refs /\ provided ps n = Ok (Some (resolved v)))
  /\ diags = omap (fun ref => ref_diag ref <$> failure ps (loc_Name ref)) refs
  /\ values reg ⊆ values reg'
  /\ (forall n v, vals !! n = Some v -> minScrubLength <= String.length (resolved v) ->
       resolved v ∈ values reg').
Proof.
  unfold ResolveAll. destruct (resolve_all_inv ps reg refs) as [H1 H2 H3 H4 H5].
  set (st := foldl (resolve_one ps) (resolve_start reg) refs) in *. split_and!; [done| |done|].
  - assert (Hall : forall ref, ref ∈ refs -> rs_failed st !! loc_Name ref = failure ps (loc_Name ref)).
    { intros ref Hr. apply option_eq. intros e. rewrite H2. split; [by intros [_ ?]|].
      intros He. split; [by apply elem_of_map_2|done]. }
    clearbody st. clear -Hall. induction refs as [|x l IH]; [done|]. simpl.
    rewrite Hall by left. assert (IH' := IH (fun y Hy => Hall y (list_elem_of_further _ _ _ Hy))).
    unfold omap in IH'. by rewrite IH'.
  - intros n v Hv. apply H1 in Hv as [Hn Hp]. by eapply H5.
Qed.

(** The document scan refuses a document exactly when some text it reads (title, subtitle,
    link, status, notices, string signals, and every label, title, value, unit, link, alternative
    text, cell and content of the blocks) contains a tracked value, or a block is of no known
    type. *)
Theorem document_scan_exact r doc :
  ContainsSecretInDocument r doc = true <->
  BNil ∈ doc_Blocks doc
  \/ exists s v, s ∈ document_texts doc /\ v ∈ values r /\ exists a b, s = a +:+ v +:+ b.
Proof.
  assert (H : ContainsSecretInDocument r doc = true <->
              BNil ∈ doc_Blocks doc \/ leaks r (document_texts doc) = true).
  { unfold ContainsSecretInDocument, document_texts, containsAny.
    change (existsb (ContainsSecret r)) with (leaks r). rewrite !orb_true_iff, blocks_leak.
    rewrite !leaks_app, leaks_map, (leaks_concat_map r (fun p => scalar_text (sig_Value p.2))), !orb_true_iff.
    assert (Hs : existsb (fun p => scalarLeaks r (sig_Value p.2)) (map_to_list (doc_Signals doc))
                 = existsb (fun x => leaks r (scalar_text (sig_Value x.2))) (map_to_list (doc_Signals doc)))
      by (apply existsb_ext; intros ?; apply scalarLeaks_texts).
    rewrite Hs. destruct (doc_Status doc); rewrite ?leaks_cons, ?leaks_nil, ?orb_false_r, ?orb_true_iff; naive_solver. }
  rewrite H, leaks_true. setoid_rewrite ContainsSecret_true. naive_solver.
Qed.

(** The scan does not read item ids, icons, table keys or blurhashes: a document that carries a
    tracked value there passes, although it is served with the card. *)
Example scan_skips_item_ids :
  let reg := Track NewRegistry "hunter2-hunter2" in
  let item := {| li_ID := "hunter2-hunter2"; li_Title := "x"; li_Subtitle := ""; li_Value := SNull;
                 li_Format := ""; li_Level := ""; li_Icon := "hunter2-hunter2"; li_Image := None;
                 li_Link := ""; li_Timestamp := "" |} in
  ContainsSecretInDocument reg
    (sample_doc [BList {| bl_Title := ""; bl_Emphasis := ""; bl_Empty := ""; bl_Items := [item] |}]) = false.
Proof. reflexivity. Qed.
