(* ===== verification/Connections.v ===== *)
(** * internal/connections: resolved connections and how they are built

    The connection types and [build.go]: turning configuration plus resolved secrets into ready
    connections. Secrets constructed on the way are tracked by the default registry, which is
    threaded as state. Parsing a full base URL (net/url) is an argument of the client
    constructors in HttpClient. *)
From S2P Require Import Prelude RoutePath GoTime Config Secrets.

(** ** Types *)

Definition KindHTTP : string := "http".
Definition KindDocker : string := "docker".

Definition AuthTNone : string := "none".
Definition AuthTHeader : string := "header".
Definition AuthTQuery : string := "query".
Definition AuthTBearer : string := "bearer".
Definition AuthTBasic : string := "basic".

Record ConnAuth := {
  au_Type : string; au_Name : string; au_Value : Value; au_User : string; au_Pass : Value }.

Record TLS_Config := { tls_Insecure : bool; tls_CAFile : string; tls_ServerName : string }.
Record Rate_Limit := { rl_RPS : Float64; rl_Burst : Z }.

Record HTTPConfig := {
  h_BaseURL : string; h_Auth : ConnAuth; h_Headers : gmap string Value; h_TLS : TLS_Config;
  h_Timeout : Duration; h_MaxResponseBytes : Z; h_MaxRedirects : Z; h_AllowedPaths : list string;
  h_RateLimit : Rate_Limit; h_Concurrency : Z }.

Record DockerConfig := { dk_Endpoint : string; dk_AllowActions : bool; dk_Timeout : Duration }.

(** A resolved [Connection]; the pointer that does not match [Kind] is nil. *)
Record Conn := {
  c_ID : string; c_Kind : string; c_HTTP : option HTTPConfig; c_Docker : option DockerConfig }.

(** ** Building *)

Inductive build_error :=
| UnknownKind (id kind : string)
| BadTimeout (id : string)
| SecretNotResolved (id field name : string)
| NilConfig (id : string).   (* a nil HTTP or Docker pointer: Go panics *)

Definition defaultTimeout : Duration := (10 * second)%Z.

Definition parseDurationDefault (s : string) (def : Duration) : option Duration :=
  if String.eqb s "" then Some def else ParseDuration s.

(** The loop over the names of a template: each replaces the first occurrence that is left. *)
Fixpoint compose (id field : string) (resolved_ : gmap string Value) (names : list string) (composed : string)
  : res build_error string :=
  match names with
  | [] => Ok composed
  | name :: rest =>
      match resolved_ !! name with
      | None => Err (SecretNotResolved id field name)
      | Some v => compose id field resolved_ rest (ReplaceFirst composed (reference name) (Reveal v))
      end
  end.

Definition resolveRef (reg : Registry) (id field : string) (ref : SecretRef) (resolved_ : gmap string Value)
  : Registry * res build_error Value :=
  if negb (IsSecret ref) then
    let '(reg', v) := New reg (sr_Literal ref) in (reg', Ok v)
  else if negb (String.eqb (sr_Template ref) "") then
    match compose id field resolved_ (sr_Names ref) (sr_Template ref) with
    | Err e => (reg, Err e)
    | Ok s => let '(reg', v) := New reg s in (reg', Ok v)
    end
  else match resolved_ !! sr_Name ref with
       | None => (reg, Err (SecretNotResolved id field (sr_Name ref)))
       | Some v => (reg, Ok v)
       end.

Definition buildAuth (reg : Registry) (id : string) (cfg : ConnectionAuth) (resolved_ : gmap string Value)
  : Registry * res build_error ConnAuth :=
  let '(reg, rv) := resolveRef reg id "auth.value" (ca_Value cfg) resolved_ in
  match rv with
  | Err e => (reg, Err e)
  | Ok value =>
      let '(reg, rp) := resolveRef reg id "auth.password" (ca_Password cfg) resolved_ in
      match rp with
      | Err e => (reg, Err e)
      | Ok pass =>
          let authType := if String.eqb (ca_Type cfg) "" then "none" else ca_Type cfg in
          (reg, Ok {| au_Type := authType; au_Name := ca_Name cfg; au_Value := value;
                      au_User := ca_Username cfg; au_Pass := pass |})
      end
  end.

(** The loop over the configured static headers. *)
Fixpoint buildHeaders (reg : Registry) (id : string) (hs : list (string * SecretRef))
  (resolved_ : gmap string Value) (acc : gmap string Value) : Registry * res build_error (gmap string Value) :=
  match hs with
  | [] => (reg, Ok acc)
  | (name, ref) :: rest =>
      let '(reg, rv) := resolveRef reg id ("headers." +:+ name) ref resolved_ in
      match rv with
      | Err e => (reg, Err e)
      | Ok v => buildHeaders reg id rest resolved_ (<[name := v]> acc)
      end
  end.

Definition buildHTTPConfig (reg : Registry) (id : string) (cfg : HTTPConnection) (resolved_ : gmap string Value)
  : Registry * res build_error HTTPConfig :=
  let '(reg, ra) := buildAuth reg id (hc_Auth cfg) resolved_ in
  match ra with
  | Err e => (reg, Err e)
  | Ok auth =>
      match parseDurationDefault (hc_Timeout cfg) defaultTimeout with
      | None => (reg, Err (BadTimeout id))
      | Some timeout =>
          let '(reg, rh) := buildHeaders reg id (map_to_list (hc_Headers cfg)) resolved_ ∅ in
          match rh with
          | Err e => (reg, Err e)
          | Ok headers =>
              (reg, Ok {| h_BaseURL := BaseURL cfg; h_Auth := auth; h_Headers := headers;
                 h_TLS := {| tls_Insecure := InsecureSkipVerify (TLS cfg); tls_CAFile := CAFile (TLS cfg);
                             tls_ServerName := ServerName (TLS cfg) |};
                 h_Timeout := timeout; h_MaxResponseBytes := MaxResponseBytes cfg;
                 h_MaxRedirects := MaxRedirects cfg; h_AllowedPaths := AllowedPaths cfg;
                 h_RateLimit := {| rl_RPS := RPS (hc_RateLimit cfg); rl_Burst := Burst (hc_RateLimit cfg) |};
                 h_Concurrency := Concurrency cfg |})
          end
      end
  end.

Definition buildDockerConfig (id : string) (cfg : DockerConnection) : res build_error DockerConfig :=
  match parseDurationDefault (dc_Timeout cfg) defaultTimeout with
  | None => Err (BadTimeout id)
  | Some t => Ok {| dk_Endpoint := Endpoint cfg; dk_AllowActions := AllowActions cfg; dk_Timeout := t |}
  end.

Definition buildConnection (reg : Registry) (id : string) (cfg : Connection) (resolved_ : gmap string Value)
  : Registry * res build_error Conn :=
  if String.eqb (conn_Kind cfg) "http" then
    match HTTP cfg with
    | None => (reg, Err (NilConfig id))
    | Some h =>
        let '(reg, rh) := buildHTTPConfig reg id h resolved_ in
        (reg, let! http := rh in
              Ok {| c_ID := id; c_Kind := KindHTTP; c_HTTP := Some http; c_Docker := None |})
    end
  else if String.eqb (conn_Kind cfg) "docker" then
    match Docker cfg with
    | None => (reg, Err (NilConfig id))
    | Some d =>
        (reg, let! docker := buildDockerConfig id d in
              Ok {| c_ID := id; c_Kind := KindDocker; c_HTTP := None; c_Docker := Some docker |})
    end
  else (reg, Err (UnknownKind id (conn_Kind cfg))).

(** [cfg.Enabled != nil && !*cfg.Enabled] *)
Definition conn_disabled (cfg : Connection) : bool :=
  match conn_Enabled cfg with Some false => true | _ => false end.
