(* ===== verification/HttpClient.v ===== *)
(** * internal/connections: the transport

    [joinPath], credential injection, the redirect policy, [Registry.Do] with its response bound,
    the fixed Docker surface, health probes, the swappable registry and the per-connection
    semaphore. The network is an argument: a function from the request put on the wire to a
    response, a redirect to a request the standard client would send next, or a transport error.
    The redirect's next request is left to that argument, so what is proved holds for any
    rewriting of method, headers and body across a hop. *)
From S2P Require Import Prelude RoutePath NetHttp Config Secrets Connections.

(** ** request.go *)

Record Request := {
  rq_Method : string; rq_Path : string; rq_Query : gmap string string; rq_Headers : gmap string string;
  rq_Body : option string; rq_MaxResponseBytes : Z }.

Record Response := { rs_StatusCode : Z; rs_Header : Header; rs_Body : string }.

Inductive join_error :=
| ErrPathTraversal
| PathRefused (e : path_error)
| BadReference             (* [url.Parse] fails, or reads something that is not a rooted path *)
| BaseNotCanonical (e : path_error).

Definition joinPath (base : URL) (p : string) : res join_error URL :=
  if String.eqb p "" then Ok base
  else if Contains p "://" || HasPrefix p "//" then Err ErrPathTraversal
  else if contains_byte "?" p || contains_byte "#" p then Err (PathRefused ErrQueryOrFragment)
  else match url_parse_path p with
       | None => Err BadReference
       | Some path =>
           let reqPath := if String.eqb path "" then "/" else path in
           match Canonicalise reqPath with
           | Err e => Err (PathRefused e)
           | Ok canonicalReq =>
               let basePath := if String.eqb (upath base) "" then "/" else upath base in
               match Canonicalise basePath with
               | Err e => Err (BaseNotCanonical e)
               | Ok canonicalBase =>
                   let joined := if String.eqb canonicalReq "/" then canonicalBase
                                 else TrimSuffix canonicalBase "/" +:+ canonicalReq in
                   Ok (with_path base joined ∅)
               end
           end
       end.

(** ** auth.go *)

(** [base64.StdEncoding.EncodeToString] *)
Definition b64_alphabet : string := "ABCDEFGHIJKLMNOPQRSTUVWXYZabcdefghijklmnopqrstuvwxyz0123456789+/".
Definition b64_char (n : N) : string :=
  match String.get (N.to_nat n) b64_alphabet with Some c => String c "" | None => "" end.
Fixpoint base64 (s : string) : string :=
  match s with
  | EmptyString => ""
  | String a "" =>
      let n := (byteN a * 16)%N in
      b64_char (n / 64)%N +:+ b64_char (n mod 64)%N +:+ "=="
  | String a (String b "") =>
      let n := ((byteN a * 256 + byteN b) * 4)%N in
      b64_char (n / 4096)%N +:+ b64_char (n / 64 mod 64)%N +:+ b64_char (n mod 64)%N +:+ "="
  | String a (String b (String c r)) =>
      let n := ((byteN a * 256 + byteN b) * 256 + byteN c)%N in
      b64_char (n / 262144)%N +:+ b64_char (n / 4096 mod 64)%N +:+ b64_char (n / 64 mod 64)%N
      +:+ b64_char (n mod 64)%N +:+ base64 r
  end.

Definition basicAuthHeader (user pass : string) : string := "Basic " +:+ base64 (user +:+ ":" +:+ pass).

Definition injectAuth (h : Header) (q : Values) (auth : ConnAuth) : Header * Values :=
  if String.eqb (au_Type auth) AuthTHeader then (header_Set h (au_Name auth) (Reveal (au_Value auth)), q)
  else if String.eqb (au_Type auth) AuthTQuery then (h, values_Set q (au_Name auth) (Reveal (au_Value auth)))
  else if String.eqb (au_Type auth) AuthTBearer then (header_Set h "Authorization" ("Bearer " +:+ Reveal (au_Value auth)), q)
  else if String.eqb (au_Type auth) AuthTBasic then
    (header_Set h "Authorization" (basicAuthHeader (au_User auth) (Reveal (au_Pass auth))), q)
  else (h, q).

(** ** The wire *)

Record wire_request := {
  wr_Method : string; wr_URL : URL; wr_Header : Header; wr_ContentLength : Z }.

(** A response body: the bytes it will yield and the error, if any, it then ends with. *)
Record body_reader := { rd_data : string; rd_err : option string }.

Inductive wire_result :=
| WResponse (status : Z) (h : Header) (b : body_reader)
| WRedirect (next : wire_request)
| WError (e : string).

(** ** redirectauth.go *)

Record RedirectRequest := {
  rr_Method : string; rr_Path : string; rr_Query : gmap string string; rr_Header : gmap string string;
  rr_BodyLen : Z }.

(** [RedirectAuthorizer]: [None] is a nil error. *)
Abbreviation RedirectAuthorizer := (RedirectRequest -> option string) (only parsing).

(** ** client.go *)

Inductive redirect_error :=
| TooManyRedirects
| DifferentHost
| DifferentScheme
| TargetPath (e : path_error)
| OutsideAllowedPaths
| EscapesBase
| RBaseNotCanonical (e : path_error)
| RedirectRefused (e : string).

Definition relativeRedirectPath (base : URL) (canonicalPath : string) : res redirect_error string :=
  let basePath := if String.eqb (upath base) "" then "/" else upath base in
  match Canonicalise basePath with
  | Err e => Err (RBaseNotCanonical e)
  | Ok canonicalBase =>
      if String.eqb canonicalBase "/" then Ok canonicalPath
      else if negb (HasPathPrefix canonicalPath canonicalBase) then Err EscapesBase
      else let relative := TrimPrefix canonicalPath canonicalBase in
           Ok (if String.eqb relative "" then "/" else relative)
  end.

Definition redirectBodyLen (req : wire_request) : Z :=
  if (wr_ContentLength req <? 0)%Z then (-1)%Z else wr_ContentLength req.

Record ownedNameSet := { on_query : gset string; on_header : gset string }.

Definition ownedNames (auth : ConnAuth) (static : gmap string Value) : ownedNameSet :=
  let hs : gset string := list_to_set (map (fun p => ToLower p.1) (map_to_list static)) in
  if String.eqb (au_Type auth) AuthTHeader then
    if String.eqb (au_Name auth) "" then {| on_query := ∅; on_header := hs |}
    else {| on_query := ∅; on_header := {[ToLower (au_Name auth)]} ∪ hs |}
  else if String.eqb (au_Type auth) AuthTQuery then
    if String.eqb (au_Name auth) "" then {| on_query := ∅; on_header := hs |}
    else {| on_query := {[au_Name auth]}; on_header := hs |}
  else if String.eqb (au_Type auth) AuthTBearer || String.eqb (au_Type auth) AuthTBasic then
    {| on_query := ∅; on_header := {["authorization"]} ∪ hs |}
  else {| on_query := ∅; on_header := hs |}.

Definition firstQueryValues (q : Values) (owned : gset string) : gmap string string :=
  omap (fun v => head v) (filter (fun p => p.1 ∉ owned) q).

Definition singleHeaderValues (h : Header) (owned : gset string) : gmap string string :=
  omap (fun v => head v) (filter (fun p => ToLower p.1 ∉ owned) h).

(** One configured path admits the target. *)
Definition path_admits (canonicalPath p : string) : bool :=
  match Canonicalise p with
  | Err _ => false
  | Ok canonicalAllowed => HasPathPrefix canonicalPath canonicalAllowed
  end.

(** [redirectPolicy]: [via] is the number of requests already sent; [None] follows the redirect. *)
Definition redirectPolicy (base : URL) (maxRedirects : Z) (allowedPaths : list string) (auth : ConnAuth)
  (static : gmap string Value) (authorize : option RedirectAuthorizer) (req : wire_request) (via : nat)
  : option redirect_error :=
  if (maxRedirects <? Z.of_nat via)%Z then Some TooManyRedirects
  else if negb (String.eqb (host (wr_URL req)) (host base)) then Some DifferentHost
  else if negb (String.eqb (scheme (wr_URL req)) (scheme base)) then Some DifferentScheme
  else match Canonicalise (upath (wr_URL req)) with
       | Err e => Some (TargetPath e)
       | Ok canonicalPath =>
           if negb (Nat.eqb (length allowedPaths) 0) && negb (existsb (path_admits canonicalPath) allowedPaths)
           then Some OutsideAllowedPaths
           else match authorize with
                | None => None
                | Some f =>
                    match relativeRedirectPath base canonicalPath with
                    | Err e => Some e
                    | Ok relative =>
                        let owned := ownedNames auth static in
                        match f {| rr_Method := wr_Method req; rr_Path := relative;
                                   rr_Query := firstQueryValues (uquery (wr_URL req)) (on_query owned);
                                   rr_Header := singleHeaderValues (wr_Header req) (on_header owned);
                                   rr_BodyLen := redirectBodyLen req |} with
                        | Some e => Some (RedirectRefused e)
                        | None => None
                        end
                    end
                end
       end.

(** ** rate.go *)

(** A counting semaphore: capacity and tokens taken. *)
Record semaphore := { sem_cap : Z; sem_used : Z }.
Definition newSemaphore (n : Z) : semaphore := {| sem_cap := if (n <? 1)%Z then 1%Z else n; sem_used := 0 |}.
(** [acquire] without blocking: [None] is the goroutine waiting. *)
Definition acquire (s : semaphore) : option semaphore :=
  if (sem_used s <? sem_cap s)%Z then Some {| sem_cap := sem_cap s; sem_used := sem_used s + 1 |} else None.
Definition release (s : semaphore) : option semaphore :=
  if (0 <? sem_used s)%Z then Some {| sem_cap := sem_cap s; sem_used := sem_used s - 1 |} else None.

(** [newLimiter]: the rate and burst handed to golang.org/x/time/rate. *)
Definition newLimiter (rl : Rate_Limit) : Float64 * Z :=
  (if float_le (rl_RPS rl) (GoTime.float_of 0) then GoTime.float_of 5 else rl_RPS rl,
   if (rl_Burst rl <? 1)%Z then 10%Z else rl_Burst rl).

Definition concurrencyOrDefault (n : Z) : Z := if (n <? 1)%Z then 4%Z else n.

(** One connection's client: base URL, configuration, timeout, limiter settings and semaphore. *)
Record client := {
  cl_base : URL; cl_cfg : HTTPConfig; cl_timeout : Duration; cl_limiter : Float64 * Z; cl_sem : semaphore }.

Inductive new_error :=
| BuildFailed (e : build_error)
| InvalidBaseURL (id : string)
| SchemeNotHTTP (id : string)
| CAFileUnreadable (id : string)
| CAFileUnusable (id : string)
| InvalidDockerEndpoint (id : string)
| BadUnixEndpoint (id : string)
| BadTCPEndpoint (id : string)
| BadDockerScheme (id : string).

(** The result of [url.Parse] on a full URL. *)
Record full_URL := { fu_URL : URL; fu_User : bool; fu_RawQuery : string; fu_Fragment : string }.

Section NewClient.
Variable url_parse : string -> option full_URL.      (* net/url on a full URL *)
Variable ca_file : string -> option bool.            (* reading a PEM file: whether it holds a certificate *)

Definition newHTTPClient (id : string) (cfg : HTTPConfig) : res new_error client :=
  match url_parse (h_BaseURL cfg) with
  | None => Err (InvalidBaseURL id)
  | Some f =>
      let base := fu_URL f in
      if negb (String.eqb (scheme base) "http") && negb (String.eqb (scheme base) "https")
      then Err (SchemeNotHTTP id)
      else
        let build := Ok {| cl_base := base; cl_cfg := cfg;
                           cl_timeout := if (h_Timeout cfg <=? 0)%Z then defaultTimeout else h_Timeout cfg;
                           cl_limiter := newLimiter (h_RateLimit cfg);
                           cl_sem := newSemaphore (concurrencyOrDefault (h_Concurrency cfg)) |} in
        if String.eqb (tls_CAFile (h_TLS cfg)) "" then build
        else match ca_file (tls_CAFile (h_TLS cfg)) with
             | None => Err (CAFileUnreadable id)
             | Some false => Err (CAFileUnusable id)
             | Some true => build
             end
  end.
End NewClient.

Definition client_policy (c : client) (authorize : option RedirectAuthorizer) : wire_request -> nat -> option redirect_error :=
  redirectPolicy (cl_base c) (h_MaxRedirects (cl_cfg c)) (h_AllowedPaths (cl_cfg c)) (h_Auth (cl_cfg c))
                 (h_Headers (cl_cfg c)) authorize.

(** ** registry.go *)

Inductive do_error :=
| ErrUnknownConnection
| ErrNotHTTP
| RateLimited (e : string)
| ConcurrencyLimited (e : string)
| JoinFailed (e : join_error)
| BadMethod
| TransportError (e : string)
| RedirectError (e : redirect_error)
| BodyError (e : string)
| ErrResponseTooLarge
| FollowFuel.              (* the bound below is never reached: [follow_enough] *)

Definition defaultMaxResponseBytes : Z := 8 * 2 ^ 20.

(** [readLimited]: at most [limit+1] bytes are read. *)
Definition readLimited (r : body_reader) (limit : Z) : res do_error string :=
  if (limit <? Z.of_nat (String.length (rd_data r)))%Z then Err ErrResponseTooLarge
  else match rd_err r with Some e => Err (BodyError e) | None => Ok (rd_data r) end.

(** The size limit of one call. *)
Definition response_limit (cfg : HTTPConfig) (req : Request) : Z :=
  let limit := if (h_MaxResponseBytes cfg <=? 0)%Z then defaultMaxResponseBytes else h_MaxResponseBytes cfg in
  if ((0 <? rq_MaxResponseBytes req) && (rq_MaxResponseBytes req <? limit))%Z
  then rq_MaxResponseBytes req else limit.

(** [http.NewRequest]'s method check; the empty method is GET. *)
Definition request_method (m : string) : option string :=
  if String.eqb m "" then Some "GET"
  else if all_bytes validHeaderFieldByte m then Some m else None.

(** The request [Do] builds: joined URL, caller query and headers, then the connection's own. *)
Definition build_request (c : client) (req : Request) : res do_error wire_request :=
  match joinPath (cl_base c) (rq_Path req) with
  | Err e => Err (JoinFailed e)
  | Ok target =>
      match request_method (rq_Method req) with
      | None => Err BadMethod
      | Some m =>
          let query := set_all_values (rq_Query req) (uquery target) in
          let h := set_all_headers (rq_Headers req) ∅ in
          let h := set_all_headers (Reveal <$> h_Headers (cl_cfg c)) h in
          let '(h, query) := injectAuth h query (h_Auth (cl_cfg c)) in
          Ok {| wr_Method := m; wr_URL := with_path target (upath target) query; wr_Header := h;
                wr_ContentLength := match rq_Body req with Some b => Z.of_nat (String.length b) | None => 0%Z end |}
      end
  end.

(** The redirect loop of [http.Client.Do]: the trace of requests sent, and the outcome. *)
Fixpoint follow (send : wire_request -> wire_result) (policy : wire_request -> nat -> option redirect_error)
  (fuel via : nat) (req : wire_request) : list wire_request * res do_error (Z * Header * body_reader) :=
  match fuel with
  | O => ([], Err FollowFuel)
  | S f =>
      match send req with
      | WResponse st h b => ([req], Ok (st, h, b))
      | WError e => ([req], Err (TransportError e))
      | WRedirect next =>
          match policy next (S via) with
          | Some e => ([req], Err (RedirectError e))
          | None => let '(tr, r) := follow send policy f (S via) next in (req :: tr, r)
          end
      end
  end.

(** The parts of the environment [Do] waits on. *)
Record env := {
  limiter_err : option string; acquire_err : option string;
  send : wire_request -> wire_result; redirect_authorizer : option RedirectAuthorizer }.

(** The client's share of [Do], from the joined path on. *)
Definition client_do (e : env) (c : client) (req : Request) : list wire_request * res do_error Response :=
  match build_request c req with
  | Err er => ([], Err er)
  | Ok w =>
      let '(tr, r) := follow (send e) (client_policy c (redirect_authorizer e))
                             (S (S (Z.to_nat (h_MaxRedirects (cl_cfg c))))) 0 w in
      (tr, let! (st, h, b) := r in
           let! data := readLimited b (response_limit (cl_cfg c) req) in
           Ok {| rs_StatusCode := st; rs_Header := h; rs_Body := data |})
  end.

(** A Docker client: the socket it dials, if the endpoint is one, and its base URL. *)
Record dockerClient := { dkc_socket : option string; dkc_base : URL; dkc_timeout : Duration }.

Record registry := {
  r_connections : gmap string Conn; r_clients : gmap string client; r_docker : gmap string dockerClient }.

Definition Get (r : registry) (id : string) : option Conn := r_connections r !! id.

(** [Do]: the requests put on the wire, and the result. *)
Definition Do (e : env) (r : registry) (id : string) (req : Request) : list wire_request * res do_error Response :=
  match r_clients r !! id with
  | None => ([], Err (match Get r id with Some _ => ErrNotHTTP | None => ErrUnknownConnection end))
  | Some c =>
      match limiter_err e with
      | Some er => ([], Err (RateLimited er))
      | None => match acquire_err e with
                | Some er => ([], Err (ConcurrencyLimited er))
                | None => client_do e c req
                end
      end
  end.

(** ** docker.go *)

(** [url.Parse] of an Engine API reference: the fragment and then the query are cut off, the path is
    decoded; a reference that is not rooted, names an authority or is malformed yields a URL the
    allowlist cannot accept. *)
Fixpoint cut_at (c : ascii) (s : string) : string :=
  match s with
  | EmptyString => ""
  | String d r => if Ascii.eqb c d then "" else String d (cut_at c r)
  end.
Definition docker_path (raw : string) : option string :=
  let p := cut_at "#" raw in
  if HasPrefix p "//" && negb (HasPrefix p "///") then None
  else if negb (all_bytes (fun b => negb (is_control b)) p) then None
  else url_parse_path (cut_at "?" p).

(** The query of a reference, decoded: nothing of one that is malformed. *)
Definition docker_query (raw : string) : Values :=
  default ∅ (pq ← Cut (cut_at "#" raw) "?"; ParseQuery pq.2).

Definition docker_surface : list string := ["/containers/json"; "/_ping"; "/version"; "/info"].

Definition allowedDockerPath (raw : string) : bool :=
  match docker_path raw with
  | None => false
  | Some p => if Contains p ".." then false else existsb (String.eqb p) docker_surface
  end.

Inductive docker_error := ErrDockerPath | ErrNotDocker | DkUnknown | DkFailed (e : do_error).

(** The client of a Docker connection has no policy of its own: the standard one follows up to ten
    redirects, to any host and path. *)
Definition default_policy (next : wire_request) (via : nat) : option redirect_error :=
  if Nat.leb 10 via then Some TooManyRedirects else None.

(** [dockerClient.get] *)
Definition docker_get (send : wire_request -> wire_result) (c : dockerClient) (path : string)
  : list wire_request * res docker_error Response :=
  if negb (allowedDockerPath path) then ([], Err ErrDockerPath)
  else match docker_path path with
       | None => ([], Err ErrDockerPath)
       | Some p =>
           let w := {| wr_Method := "GET"; wr_URL := with_path (dkc_base c) p (docker_query path); wr_Header := ∅; wr_ContentLength := 0 |} in
           let '(tr, r) := follow send default_policy 11 0 w in
           (tr, res_map_err DkFailed
                  (let! (st, h, b) := r in
                   let! data := readLimited b defaultMaxResponseBytes in
                   Ok {| rs_StatusCode := st; rs_Header := h; rs_Body := data |}))
       end.

Definition DockerGET (send : wire_request -> wire_result) (r : registry) (id path : string)
  : list wire_request * res docker_error Response :=
  match r_docker r !! id with
  | Some c => docker_get send c path
  | None => ([], Err (match Get r id with Some _ => ErrNotDocker | None => DkUnknown end))
  end.

(** ** health.go *)

Definition StageDNS : string := "dns".
Definition StageTCP : string := "tcp".
Definition StageTLS : string := "tls".
Definition StageAuth : string := "auth".
Definition StageStatus : string := "http-status".

Record Health := { Reachable : bool; hl_Stage : string; hl_StatusCode : Z; hl_Error : string }.

(** What [errors.As] finds in an error's chain. *)
Record error_shape := { is_dns : bool; is_cert : bool; is_url_timeout : bool; is_op : bool }.

Definition classifyError (e : error_shape) : string :=
  if is_dns e then StageDNS
  else if is_cert e then StageTLS
  else if is_url_timeout e then StageTCP
  else if is_op e then StageTCP
  else "".

(** The three outcomes of a completed round trip; [status_text] is [http.StatusText]. *)
Definition health_of_status (status_text : Z -> string) (code : Z) : Health :=
  if ((code =? 401) || (code =? 403))%Z then
    {| Reachable := false; hl_Stage := StageAuth; hl_StatusCode := code; hl_Error := status_text code |}
  else if ((code <? 200) || (300 <=? code))%Z then
    {| Reachable := false; hl_Stage := StageStatus; hl_StatusCode := code; hl_Error := status_text code |}
  else {| Reachable := true; hl_Stage := ""; hl_StatusCode := code; hl_Error := "" |}.

Definition probe : Request :=
  {| rq_Method := "GET"; rq_Path := "/"; rq_Query := ∅; rq_Headers := ∅; rq_Body := None; rq_MaxResponseBytes := 0 |}.

(** [registry.Health]; the renderings of errors and their shapes are the run-time's. *)
Definition registry_Health (shape : do_error -> error_shape) (text : do_error -> string)
  (dtext : docker_error -> string) (status_text : Z -> string) (sec : Secrets.Registry)
  (e : env) (r : registry) (id : string) : Health :=
  match Get r id with
  | None => {| Reachable := false; hl_Stage := ""; hl_StatusCode := 0; hl_Error := text ErrUnknownConnection |}
  | Some conn =>
      if negb (String.eqb (c_Kind conn) KindHTTP) then
        match (DockerGET (send e) r id "/containers/json?limit=1").2 with
        | Err er => {| Reachable := false; hl_Stage := StageTCP; hl_StatusCode := 0; hl_Error := dtext er |}
        | Ok resp => health_of_status status_text (rs_StatusCode resp)
        end
      else match (Do e r id probe).2 with
           | Err er => {| Reachable := false; hl_Stage := classifyError (shape er); hl_StatusCode := 0;
                          hl_Error := Scrub sec (text er) |}
           | Ok resp => health_of_status status_text (rs_StatusCode resp)
           end
  end.

(** ** dynamic.go *)

(** [Dynamic]: the registry of the current generation, or nil. *)
Abbreviation Dynamic := (option registry) (only parsing).
Definition Swap (d : Dynamic) (r : registry) : Dynamic := Some r.
Definition dyn_Get (d : Dynamic) (id : string) : option Conn := r ← d; Get r id.
Definition dyn_Do (e : env) (d : Dynamic) (id : string) (req : Request) : list wire_request * res do_error Response :=
  match d with None => ([], Err ErrUnknownConnection) | Some r => Do e r id req end.

(** ** build.go: New *)

Section New.
Variable url_parse : string -> option full_URL.
Variable ca_file : string -> option bool.

Definition newDockerClient (id : string) (cfg : DockerConfig) : res new_error dockerClient :=
  match url_parse (dk_Endpoint cfg) with
  | None => Err (InvalidDockerEndpoint id)
  | Some f =>
      let u := fu_URL f in
      if fu_User f || negb (String.eqb (fu_RawQuery f) "") || negb (String.eqb (fu_Fragment f) "")
      then Err (InvalidDockerEndpoint id)
      else if String.eqb (scheme u) "unix" then
        if String.eqb (upath u) "" || negb (String.eqb (host u) "") then Err (BadUnixEndpoint id)
        else Ok {| dkc_socket := Some (upath u);
                   dkc_base := {| scheme := "http"; host := "docker"; upath := ""; uquery := ∅ |};
                   dkc_timeout := dk_Timeout cfg |}
      else if String.eqb (scheme u) "tcp" then
        if String.eqb (host u) "" || negb (String.eqb (upath u) "") then Err (BadTCPEndpoint id)
        else Ok {| dkc_socket := None;
                   dkc_base := {| scheme := "http"; host := host u; upath := ""; uquery := ∅ |};
                   dkc_timeout := dk_Timeout cfg |}
      else Err (BadDockerScheme id)
  end.

(** One iteration of the loop of [New]. *)
Definition add_connection (resolved_ : gmap string Value) (reg : Secrets.Registry) (r : registry)
  (id : string) (cfg : Connection) : Secrets.Registry * res new_error registry :=
  if conn_disabled cfg then (reg, Ok r)
  else
    let '(reg, rc) := buildConnection reg id cfg resolved_ in
    match rc with
    | Err e => (reg, Err (BuildFailed e))
    | Ok conn =>
        let conns := <[id := conn]> (r_connections r) in
        match c_HTTP conn, c_Docker conn with
        | Some h, _ =>
            match newHTTPClient url_parse ca_file id h with
            | Err e => (reg, Err e)
            | Ok c => (reg, Ok {| r_connections := conns;
                r_clients := <[id := c]> (r_clients r); r_docker := r_docker r |})
            end
        | None, Some d =>
            match newDockerClient id d with
            | Err e => (reg, Err e)
            | Ok dc => (reg, Ok {| r_connections := conns; r_clients := r_clients r;
                                     r_docker := <[id := dc]> (r_docker r) |})
            end
        | None, None => (reg, Ok {| r_connections := conns; r_clients := r_clients r; r_docker := r_docker r |})
        end
    end.

Fixpoint add_all (resolved_ : gmap string Value) (reg : Secrets.Registry) (r : registry)
  (l : list (string * Connection)) : Secrets.Registry * res new_error registry :=
  match l with
  | [] => (reg, Ok r)
  | (id, cfg) :: rest =>
      let '(reg, r1) := add_connection resolved_ reg r id cfg in
      match r1 with
      | Err e => (reg, Err e)
      | Ok r' => add_all resolved_ reg r' rest
      end
  end.

(** [New], over the map's entries in the order Go happens to take them. *)
Definition New_registry (reg : Secrets.Registry) (order : list (string * Connection))
  (resolved_ : gmap string Value) : Secrets.Registry * res new_error registry :=
  add_all resolved_ reg {| r_connections := ∅; r_clients := ∅; r_docker := ∅ |} order.
End New.

(** ** Lemmas on joined paths *)

Definition path_join (b r : string) : string :=
  if String.eqb r "/" then b else TrimSuffix b "/" +:+ r.

Definition base_path (base : URL) : string := if String.eqb (upath base) "" then "/" else upath base.

Lemma canonical_seg_inj p q : canonical p -> canonical q -> path_segments p = path_segments q -> p = q.
Proof.
  intros Hp Hq. destruct (canonical_inv p Hp) as [[-> ->]|(ps & -> & Hpn & _ & ->)];
    destruct (canonical_inv q Hq) as [[-> ->]|(qs & -> & Hqn & _ & ->)]; intros H; subst; done.
Qed.

Lemma path_segments_join segs :
  segs <> [] -> Forall canonical_seg segs -> path_segments (String slash (Join slash segs)) = segs.
Proof.
  intros Hne Hall. destruct (canonical_inv _ (Canonicalise_join segs Hne Hall)) as [[E _]|(s & E & Hn & Hs & ->)].
  - injection E as E. exfalso. by eapply Join_nonempty.
  - injection E as E. symmetry. by eapply Join_canonical_inj.
Qed.

Lemma path_join_canonical b r :
  canonical b -> canonical r ->
  canonical (path_join b r) /\ path_segments (path_join b r) = path_segments b ++ path_segments r.
Proof.
  intros Hb Hr. unfold path_join.
  destruct (canonical_inv r Hr) as [[-> ->]|(rs & Hre & Hrn & Hrall & Hrs)].
  { rewrite String.eqb_refl, app_nil_r. done. }
  rewrite Hrs.
  rewrite (proj2 (String.eqb_neq r "/")) by (intros ->; injection Hre as E; by eapply Join_nonempty).
  destruct (canonical_inv b Hb) as [[-> ->]|(bs & Hbe & Hbn & Hball & ->)].
  - change (TrimSuffix "/" "/" +:+ r) with r. done.
  - rewrite TrimSuffix_slash_canonical by (try done; intros ->; injection Hbe as E; by eapply Join_nonempty).
    assert (Hj : b +:+ r = String slash (Join slash (bs ++ rs))).
    { rewrite Hbe, Hre, Join_app by done. by rewrite app_cons_str. }
    assert (Hne : bs ++ rs <> []) by (destruct bs; done).
    assert (Hall : Forall canonical_seg (bs ++ rs)) by (apply Forall_app; done).
    rewrite Hj. split; [by apply Canonicalise_join|]. by apply path_segments_join.
Qed.

Lemma joinPath_Ok base p u :
  joinPath base p = Ok u ->
  (p = "" /\ u = base)
  \/ exists d b r, url_parse_path p = Some d /\ Canonicalise d = Ok r
     /\ Canonicalise (base_path base) = Ok b /\ u = with_path base (path_join b r) ∅.
Proof.
  unfold joinPath. destruct (String.eqb p "") eqn:Ep; bool_prop; [intros [= <-]; by left|].
  destruct (_ || _); [done|]. destruct (_ || _); [done|].
  destruct (url_parse_path p) as [d|] eqn:Ed; [|done].
  destruct (String.eqb d "") eqn:E.
  - apply String.eqb_eq in E as ->. exfalso. unfold url_parse_path in Ed.
    destruct (negb (all_bytes _ p)); [done|]. destruct (HasPrefix p "/") eqn:Hp; [|done].
    apply HasPrefix_slash in Hp. rewrite Hp in Ed. cbn [negb path_unescape] in Ed.
    change (Ascii.eqb slash percent) with false in Ed. cbn [negb] in Ed. by apply fmap_Some in Ed as (? & _ & ?).
  - destruct (Canonicalise d) as [r|e] eqn:Er; [|done].
    fold (base_path base). destruct (Canonicalise (base_path base)) as [b|e] eqn:Eb; [|done].
    intros [= <-]. right. exists d, b, r. done.
Qed.

(** ** What becomes of a path between its authorisation and the wire *)

(** A segment of an authorised path is put on the wire decoded once, and normalised again. *)
Definition sent_as (authorised sent : string) : Prop := exists d, path_unescape authorised = Some d /\ canonicaliseSegment d = Ok sent.

Lemma hexByte_digits b : isHex (hexDigit (byteN b / 16)) && isHex (hexDigit (byteN b mod 16)) = true
  /\ hexByte (hexDigit (byteN b / 16)) (hexDigit (byteN b mod 16)) = b.
Proof. all_ascii b; by vm_compute. Qed.
(** Normalising a segment does not change what it decodes to. *)
Lemma segment_loop_unescape s d n : wf_esc s -> segment_loop s = Ok (d, n) -> path_unescape s = Some d /\ path_unescape n = Some d.
Proof.
  intros Hwf; revert d n; induction Hwf as [|c s Hc Hs IH|h l s Hh Hl H1 H2 Hs IH]; intros d n E.
  - by simplify_eq/=.
  - cbn in E |- *. rewrite (proj2 (Ascii.eqb_neq c percent) Hc) in E |- *. cbn in E |- *. destruct (segment_loop s) as [[d' n']|]; [|done]. injection E as <- <-.
    destruct (IH d' n' eq_refl) as [-> H]. cbn [path_unescape]. by rewrite (proj2 (Ascii.eqb_neq c percent) Hc), H.
  - rewrite segment_loop_pct in E. destruct (segment_loop s) as [[d' n']|]; cbn [res_bind] in E; [|done]. injection E as <- <-. destruct (IH d' n' eq_refl) as [E1 E2]. split.
    + cbn [path_unescape]. change (negb (Ascii.eqb percent percent)) with false. cbv iota. by rewrite Hh, Hl, E1.
    + destruct (isUnreserved (hexByte h l)) eqn:Hu.
      * cbn [path_unescape]. by rewrite (proj2 (Ascii.eqb_neq _ _) (unreserved_not_percent _ Hu)), E2.
      * unfold percent02x. change (String percent (String ?a (String ?b "")) +:+ n') with (String percent (String a (String b n'))). cbn [path_unescape].
        change (negb (Ascii.eqb percent percent)) with false. cbv iota. destruct (hexByte_digits (hexByte h l)) as [-> ->]. by rewrite E2.
Qed.
Lemma canonical_seg_unescape s : canonical_seg s -> exists d, path_unescape s = Some d /\ no_sep slash d.
Proof.
  intros H. destruct (canonical_seg_decoded s H) as (_ & d & El & _ & Hd). exists d. split; [by eapply segment_loop_unescape; [apply H|]|].
  unfold not_separator in Hd. rewrite all_bytes_and in Hd. by apply andb_true_iff in Hd as [Hd _].
Qed.
Lemma unescape_join segs ds : segs <> [] -> Forall2 (fun s d => path_unescape s = Some d) segs ds -> path_unescape (Join slash segs) = Some (Join slash ds).
Proof.
  intros Hne H. induction H as [|s d segs ds Hs H IH]; [done|]. destruct segs as [|s2 segs]; [by apply Forall2_nil_inv_l in H as ->|].
  destruct ds as [|d2 ds]; [by apply Forall2_nil_inv_r in H|]. rewrite !Join_cons by done. rewrite path_unescape_slash, Hs, IH by done. done.
Qed.
Lemma Canonicalise_unescape raw p : Canonicalise raw = Ok p -> path_unescape raw = path_unescape p.
Proof.
  intros H. destruct (Canonicalise_rooted _ _ H) as (rest & -> & Hsafe & Hwf). destruct (Canonicalise_shape _ _ H) as [[-> ->]|(segs & -> & Hne & Hall & H2)]; [done|].
  cbn [drop_str] in H2. apply wf_tail, wf_Split in Hwf. assert (Hds : exists ds, Forall2 (fun s d => path_unescape s = Some d) (Split slash rest) ds
    /\ Forall2 (fun s d => path_unescape s = Some d) segs ds).
  { clear -Hwf H2. induction H2 as [|s n ss ns Hsn H2 IH]; [by exists []|]. inversion Hwf; subst. destruct (IH ltac:(done)) as (ds & E1 & E2). unfold canonicaliseSegment in Hsn.
    destruct (String.eqb s ""); [done|]. destruct (is_dots s); [done|]. destruct (segment_loop s) as [[d n']|] eqn:El; [|done]. cbn in Hsn. destruct (is_dots d); [done|]. injection Hsn as ->.
    apply segment_loop_unescape in El as [Hs Hn]; [|done]. exists (d :: ds). by split; constructor. }
  destruct Hds as (ds & E1 & E2). change (path_unescape (String slash ?x)) with (String slash <$> path_unescape x). f_equal.
  rewrite <- (Join_Split slash rest), (unescape_join _ _ (Split_nonempty _ _) E1), (unescape_join _ _ Hne E2). done.
Qed.
Lemma sent_segments raw p d q : Canonicalise raw = Ok p -> url_parse_path raw = Some d -> Canonicalise d = Ok q ->
  Forall2 sent_as (path_segments p) (path_segments q).
Proof.
  intros Hp Hd Hq. assert (Hc := Canonicalise_canonical _ _ Hp). assert (Hu : path_unescape p = Some d).
  { rewrite <- (Canonicalise_unescape _ _ Hp). unfold url_parse_path in Hd. destruct (negb _); [done|]. by destruct (negb _). }
  assert (Hcq := Canonicalise_canonical _ _ Hq).
  destruct (canonical_inv p Hc) as [[-> ->]|(segs & -> & Hne & Hall & ->)].
  - injection Hu as <-. vm_compute in Hq. injection Hq as <-. constructor.
  - assert (Hds : exists ds, Forall2 (fun s d => path_unescape s = Some d) segs ds /\ Forall (no_sep slash) ds).
    { clear -Hall. induction Hall as [|s l Hs _ (ds & H1 & H2)]; [by exists []|]. destruct (canonical_seg_unescape s Hs) as (d & E & Hn). exists (d :: ds). by split; constructor. }
    destruct Hds as (ds & H2 & Hn). change (path_unescape (String slash ?x)) with (String slash <$> path_unescape x) in Hu. rewrite (unescape_join _ _ Hne H2) in Hu. injection Hu as <-.
    assert (Hdn : ds <> []) by (intros ->; by apply Forall2_nil_inv_r in H2).
    destruct (Canonicalise_shape _ _ Hq) as [[E ->]|(qs & -> & Hqn & Hqall & Hq2)].
    + exfalso. injection E as E. destruct segs as [|s segs]; [done|]. destruct ds as [|d ds]; [done|]. apply Forall2_cons in H2 as [Hs _]. apply Forall_cons in Hall as [Hs' _].
      destruct ds; [|by rewrite Join_cons in E; [destruct d|]]. cbn in E. subst d. destruct (canonical_seg_decoded s Hs') as (_ & d & El & _ & _).
      apply canonical_seg_nonempty in Hs'. destruct s as [|c s]; [done|]. cbn in Hs. destruct (negb _); [by destruct (path_unescape s)|]. destruct s as [|h [|l s]]; try done. destruct (isHex h && isHex l); [|done]. by destruct (path_unescape s).
    + rewrite path_segments_join by done. cbn [drop_str] in Hq2. rewrite Split_Join in Hq2 by done. clear -H2 Hq2. revert qs Hq2.
      induction H2 as [|s d segs ds Hs H2 IH]; intros qs Hq2; [by apply Forall2_nil_inv_l in Hq2 as ->|]. apply Forall2_cons_inv_l in Hq2 as (q & qs' & Hq & Hq2 & ->). constructor; [by exists d|by apply IH].
Qed.

Lemma TrimPrefix_app p r : TrimPrefix (p +:+ r) p = r.
Proof. unfold TrimPrefix. by rewrite strip_prefix_app. Qed.

(** Removing a base from a path under it leaves the path of the remaining segments. *)
Lemma relative_segments b p :
  canonical b -> canonical p -> b <> "/" -> HasPathPrefix p b = true ->
  let rel := TrimPrefix p b in
  let rel' := if String.eqb rel "" then "/" else rel in
  canonical rel' /\ path_segments p = path_segments b ++ path_segments rel'.
Proof.
  intros Hb Hp Hne Hpre. apply HasPathPrefix_segments in Hpre as [t Ht]; [|done|done].
  destruct (canonical_inv b Hb) as [[-> _]|(bs & Hbe & Hbn & Hball & Hbs)]; [done|].
  destruct (canonical_inv p Hp) as [[-> Hps]|(ps & Hpe & Hpn & Hpall & Hps)].
  { rewrite Hps, Hbs in Ht. by destruct bs. }
  rewrite Hps, Hbs in *. subst ps. simpl. apply Forall_app in Hpall as [_ Hall].
  destruct t as [|x t].
  - rewrite app_nil_r in Hpe. assert (Hrel : TrimPrefix p b = "").
    { rewrite Hpe, Hbe, <- (app_nil_str (String slash (Join slash bs))) at 1. apply TrimPrefix_app. }
    rewrite Hrel. done.
  - assert (Hrel : TrimPrefix p b = String slash (Join slash (x :: t))).
    { rewrite Hpe, Hbe, Join_app by done. rewrite <- app_cons_str. apply TrimPrefix_app. }
    rewrite Hrel. cbn [String.eqb]. split; [by apply Canonicalise_join|].
    f_equal. symmetry. by apply path_segments_join.
Qed.

Lemma relativeRedirectPath_Ok base cp rel :
  canonical cp -> relativeRedirectPath base cp = Ok rel ->
  exists b, Canonicalise (base_path base) = Ok b /\ canonical rel
    /\ path_segments cp = path_segments b ++ path_segments rel.
Proof.
  intros Hc. unfold relativeRedirectPath. fold (base_path base).
  destruct (Canonicalise (base_path base)) as [b|e] eqn:Eb; [|done].
  assert (Hb := Canonicalise_canonical _ _ Eb).
  destruct (String.eqb b "/") eqn:Es; bool_prop.
  - intros [= <-]. subst. by exists "/".
  - destruct (HasPathPrefix cp b) eqn:Ep; [|done]. intros [= <-]. exists b. split; [done|].
    by apply relative_segments.
Qed.

Lemma relativeRedirectPath_join base b r :
  Canonicalise (base_path base) = Ok b -> canonical r ->
  relativeRedirectPath base (path_join b r) = Ok r.
Proof.
  intros Eb Hr. assert (Hb := Canonicalise_canonical _ _ Eb).
  destruct (path_join_canonical b r Hb Hr) as [Hj Hs].
  unfold relativeRedirectPath. fold (base_path base). rewrite Eb.
  destruct (String.eqb b "/") eqn:Es; bool_prop.
  { subst. f_equal. apply canonical_seg_inj; [done|done|]. by rewrite Hs. }
  assert (Hp : HasPathPrefix (path_join b r) b = true).
  { apply HasPathPrefix_segments; [done|done|]. rewrite Hs. by eexists. }
  rewrite Hp. simpl. f_equal. destruct (relative_segments b _ Hb Hj Es Hp) as [Hc Hs'].
  apply canonical_seg_inj; [done|done|]. rewrite Hs in Hs'. by apply app_inv_head in Hs'.
Qed.

(** ** Lemmas on the redirect loop *)

(** A policy that refuses once more than [m] requests have been sent bounds the trace, and the
    loop ends within its fuel. *)
Lemma follow_enough snd_ policy m fuel via req :
  (forall next v, m < v -> policy next v <> None) -> via <= m -> m - via < fuel ->
  (follow snd_ policy fuel via req).2 <> Err FollowFuel
  /\ 1 <= length (follow snd_ policy fuel via req).1 <= S (m - via).
Proof.
  intros Hpol. revert via req; induction fuel as [|f IH]; intros via req Hv Hf; [lia|]. simpl.
  destruct (snd_ req) as [st h b|next|e]; simpl; [split; [done|lia]| |split; [done|lia]].
  destruct (policy next (S via)) eqn:Ep; simpl; [split; [done|lia]|].
  assert (S via <= m) by (destruct (decide (S via <= m)); [done|]; exfalso; apply (Hpol next (S via)); [lia|done]).
  destruct (IH (S via) next) as [H1 H2]; [lia|lia|].
  destruct (follow snd_ policy f (S via) next) as [tr r]; simpl in *. split; [done|lia].
Qed.

(** Every request after the first was let through by the policy, and is the redirect target of the
    one before it. *)
Lemma follow_checked snd_ policy fuel via req :
  let tr := (follow snd_ policy fuel via req).1 in
  forall i w, tr !! S i = Some w ->
    policy w (via + S i) = None /\ exists p, tr !! i = Some p /\ snd_ p = WRedirect w.
Proof.
  revert via req; induction fuel as [|f IH]; intros via req; simpl; [done|].
  destruct (snd_ req) as [st h b|next|e] eqn:Es; simpl; [done| |done].
  destruct (policy next (S via)) eqn:Ep; simpl; [done|].
  specialize (IH (S via) next). destruct f as [|f]; [done|].
  assert (Hhd : (follow snd_ policy (S f) (S via) next).1 !! 0 = Some next).
  { simpl. destruct (snd_ next); simpl; [done| |done]. destruct (policy next0 (S (S via))); [done|].
    by destruct (follow snd_ policy f (S (S via)) next0). }
  destruct (follow snd_ policy (S f) (S via) next) as [tr r]; cbn [fst snd] in *.
  intros [|i] w; simpl.
  - rewrite Hhd. intros [= <-]. split; [by rewrite Nat.add_1_r|]. eauto.
  - intros Hw. apply IH in Hw as [H1 H2]. split; [|done].
    by replace (via + S (S i)) with (S via + S i) by lia.
Qed.

Lemma follow_first snd_ policy f via req : (follow snd_ policy (S f) via req).1 !! 0 = Some req.
Proof.
  simpl. destruct (snd_ req); simpl; [done| |done]. destruct (policy next (S via)); [done|].
  by destruct (follow snd_ policy f (S via) next).
Qed.

(** What a followed redirect has passed. *)
Definition hop_ok (c : client) (authorize : option RedirectAuthorizer) (w : wire_request) : Prop :=
  host (wr_URL w) = host (cl_base c) /\ scheme (wr_URL w) = scheme (cl_base c)
  /\ exists cp, Canonicalise (upath (wr_URL w)) = Ok cp
     /\ (h_AllowedPaths (cl_cfg c) = []
         \/ exists p a, p ∈ h_AllowedPaths (cl_cfg c) /\ Canonicalise p = Ok a
            /\ path_segments a `prefix_of` path_segments cp)
     /\ forall f, authorize = Some f -> exists b rel,
          Canonicalise (base_path (cl_base c)) = Ok b /\ canonical rel
          /\ path_segments cp = path_segments b ++ path_segments rel
          /\ f {| rr_Method := wr_Method w; rr_Path := rel;
                  rr_Query := firstQueryValues (uquery (wr_URL w)) (on_query (ownedNames (h_Auth (cl_cfg c)) (h_Headers (cl_cfg c))));
                  rr_Header := singleHeaderValues (wr_Header w) (on_header (ownedNames (h_Auth (cl_cfg c)) (h_Headers (cl_cfg c))));
                  rr_BodyLen := redirectBodyLen w |} = None.

Lemma client_policy_ok c authorize w via : client_policy c authorize w via = None -> hop_ok c authorize w.
Proof.
  unfold client_policy, redirectPolicy, hop_ok.
  destruct (_ <? _)%Z; [done|]. destruct (String.eqb (host (wr_URL w)) _) eqn:Eh; [|done].
  destruct (String.eqb (scheme (wr_URL w)) _) eqn:Es; [|done]. bool_prop. cbn [negb].
  destruct (Canonicalise (upath (wr_URL w))) as [cp|e] eqn:Ec; [|done].
  assert (Hcp := Canonicalise_canonical _ _ Ec).
  destruct (negb (Nat.eqb (length (h_AllowedPaths (cl_cfg c))) 0)
            && negb (existsb (path_admits cp) (h_AllowedPaths (cl_cfg c)))) eqn:Ea; [done|].
  intros H. split_and!; [done|done|]. exists cp. split_and!; [done| |].
  - apply andb_false_iff in Ea as [Ea|Ea]; bool_prop.
    + left. by apply Nat.eqb_eq, nil_length_inv in Ea.
    + right. apply existsb_elem in Ea as (p & Hp & Ha). unfold path_admits in Ha.
      destruct (Canonicalise p) as [a|e] eqn:Ep; [|done].
      exists p, a. split_and!; [done|done|].
      apply HasPathPrefix_segments; [done|by eapply Canonicalise_canonical|done].
  - intros f ->. destruct (relativeRedirectPath (cl_base c) cp) as [rel|e] eqn:Er; [|done].
    apply relativeRedirectPath_Ok in Er as (b & Hb & Hr & Hs); [|done].
    exists b, rel. split_and!; try done. by destruct (f _).
Qed.

(** ** Lemmas on headers *)

Lemma set_all_headers_lookup m h k v :
  m !! k = Some v -> (forall k', is_Some (m !! k') -> CanonicalHeaderKey k' = CanonicalHeaderKey k -> k' = k) ->
  set_all_headers m h !! CanonicalHeaderKey k = Some [v].
Proof.
  intros Hk Huniq.
  assert (H : set_all_headers m h !! CanonicalHeaderKey k
              = match m !! k with Some v => Some [v] | None => h !! CanonicalHeaderKey k end);
    [|by rewrite H, Hk].
  clear Hk. revert Huniq. unfold set_all_headers.
  apply (map_fold_weak_ind (fun acc m' =>
    (forall k', is_Some (m' !! k') -> CanonicalHeaderKey k' = CanonicalHeaderKey k -> k' = k) ->
    acc !! CanonicalHeaderKey k = match m' !! k with Some v => Some [v] | None => h !! CanonicalHeaderKey k end)).
  - by rewrite lookup_empty.
  - intros n w m' acc Hn IH Hu. destruct (decide (n = k)) as [->|Hne].
    + unfold header_Set. by rewrite !lookup_insert_eq.
    + rewrite header_Set_other by (intros E; apply Hne, Hu; [rewrite lookup_insert_eq; by eexists|exact E]).
      rewrite lookup_insert_ne by done. apply IH. intros k' Hk' E. apply Hu; [|done]. rewrite lookup_insert. by case_decide.
Qed.

(** The canonical name of the header a credential goes into, if it goes into one. *)
Definition auth_header (a : ConnAuth) : option (string * string) :=
  if String.eqb (au_Type a) AuthTHeader then Some (au_Name a, Reveal (au_Value a))
  else if String.eqb (au_Type a) AuthTBearer then Some ("Authorization", "Bearer " +:+ Reveal (au_Value a))
  else if String.eqb (au_Type a) AuthTBasic then Some ("Authorization", basicAuthHeader (au_User a) (Reveal (au_Pass a)))
  else None.

Lemma injectAuth_header h q a :
  (injectAuth h q a).1 = match auth_header a with Some (k, v) => header_Set h k v | None => h end.
Proof.
  unfold injectAuth, auth_header. destruct (String.eqb (au_Type a) AuthTHeader) eqn:E1; [done|].
  destruct (String.eqb (au_Type a) AuthTQuery) eqn:E2.
  - apply String.eqb_eq in E2. rewrite E2. done.
  - destruct (String.eqb (au_Type a) AuthTBearer); [done|]. by destruct (String.eqb (au_Type a) AuthTBasic).
Qed.

Lemma injectAuth_query h q a :
  (injectAuth h q a).2 = if String.eqb (au_Type a) AuthTQuery then values_Set q (au_Name a) (Reveal (au_Value a)) else q.
Proof.
  unfold injectAuth. destruct (String.eqb (au_Type a) AuthTHeader) eqn:E1.
  { apply String.eqb_eq in E1. by rewrite E1. }
  destruct (String.eqb (au_Type a) AuthTQuery); [done|].
  destruct (String.eqb (au_Type a) AuthTBearer); [done|]. by destruct (String.eqb (au_Type a) AuthTBasic).
Qed.

(** ** Lemmas on building *)

Lemma compose_resolved id field rs names s out n :
  compose id field rs names s = Ok out -> n ∈ names -> is_Some (rs !! n).
Proof.
  revert s; induction names as [|m names IH]; intros s; simpl; [by intros _ ?%not_elem_of_nil|].
  destruct (rs !! m) eqn:E; [|done]. intros H [->|Hn]%elem_of_cons; [by eexists|by eapply IH].
Qed.

(** The secret names a reference needs. *)
Definition needs (ref : SecretRef) (n : string) : Prop :=
  IsSecret ref = true /\ if String.eqb (sr_Template ref) "" then n = sr_Name ref else n ∈ sr_Names ref.

Lemma resolveRef_resolved reg id field ref rs reg' v n :
  resolveRef reg id field ref rs = (reg', Ok v) -> needs ref n -> is_Some (rs !! n).
Proof.
  unfold resolveRef, needs. destruct (IsSecret ref); [|by intros _ [? _]]. simpl.
  destruct (String.eqb (sr_Template ref) "") eqn:E; simpl.
  - destruct (rs !! sr_Name ref) eqn:El; [|done]. intros _ [_ ->]. by rewrite El.
  - destruct (compose id field rs (sr_Names ref) (sr_Template ref)) eqn:Ec; [|done].
    intros _ [_ Hn]. by eapply compose_resolved.
Qed.

Lemma buildHeaders_resolved reg id hs rs acc reg' out :
  buildHeaders reg id hs rs acc = (reg', Ok out) ->
  forall name ref n, (name, ref) ∈ hs -> needs ref n -> is_Some (rs !! n).
Proof.
  revert reg acc; induction hs as [|[name0 ref0] hs IH]; intros reg acc; simpl; [by intros _ ??? ?%not_elem_of_nil|].
  destruct (resolveRef reg id _ ref0 rs) as [reg1 [v|e]] eqn:Er; [|done].
  intros H name ref n [[= -> ->]|Hin]%elem_of_cons Hn; [by eapply resolveRef_resolved|by eapply IH].
Qed.

(** The references of a connection's configuration. *)
Definition conn_refs (cfg : Connection) : list SecretRef :=
  match HTTP cfg with
  | Some h => if String.eqb (conn_Kind cfg) "http"
              then [ca_Value (hc_Auth h); ca_Password (hc_Auth h)] ++ map snd (map_to_list (hc_Headers h))
              else []
  | None => []
  end.

Lemma buildConnection_resolved reg id cfg rs reg' conn :
  buildConnection reg id cfg rs = (reg', Ok conn) ->
  c_ID conn = id /\ c_Kind conn = conn_Kind cfg
  /\ (c_HTTP conn <> None <-> conn_Kind cfg = "http")
  /\ forall ref n, ref ∈ conn_refs cfg -> needs ref n -> is_Some (rs !! n).
Proof.
  unfold buildConnection, conn_refs. destruct (String.eqb (conn_Kind cfg) "http") eqn:Ek.
  - apply String.eqb_eq in Ek. destruct (HTTP cfg) as [h|]; [|done].
    unfold buildHTTPConfig, buildAuth.
    destruct (resolveRef reg id "auth.value" (ca_Value (hc_Auth h)) rs) as [reg1 [v|e]] eqn:E1; [|done].
    destruct (resolveRef reg1 id "auth.password" (ca_Password (hc_Auth h)) rs) as [reg2 [p|e]] eqn:E2; [|done].
    destruct (parseDurationDefault (hc_Timeout h) defaultTimeout); [|done].
    destruct (buildHeaders reg2 id (map_to_list (hc_Headers h)) rs ∅) as [reg3 [hs|e]] eqn:E3; [|done].
    intros [= <- <-]. simpl. split_and!; [done|by rewrite Ek|done|].
    intros ref n [->|[->|Hin]%elem_of_cons]%elem_of_cons Hn;
      [exact (resolveRef_resolved _ _ _ _ _ _ _ _ E1 Hn)|exact (resolveRef_resolved _ _ _ _ _ _ _ _ E2 Hn)|].
    apply elem_of_map in Hin as ([name r] & -> & Hin).
    exact (buildHeaders_resolved _ _ _ _ _ _ _ E3 _ _ _ Hin Hn).
  - destruct (String.eqb (conn_Kind cfg) "docker") eqn:Ed; [|done].
    destruct (Docker cfg) as [d|]; [|done]. apply String.eqb_eq in Ed. apply String.eqb_neq in Ek.
    destruct (buildDockerConfig id d); [|done]. intros [= <- <-]. simpl.
    split_and!; [done|by rewrite Ed|naive_solver|]. destruct (HTTP cfg); by intros ref n ?%not_elem_of_nil.
Qed.

(** What [New] guarantees of the registry it builds, relative to the configuration seen so far. *)
Record built (rs : gmap string Value) (seen : list (string * Connection)) (r : registry) : Prop := {
  bt_dom : forall id, is_Some (r_connections r !! id) <-> exists cfg, (id, cfg) ∈ seen /\ conn_disabled cfg = false;
  bt_resolved : forall id cfg ref n, (id, cfg) ∈ seen -> conn_disabled cfg = false ->
    ref ∈ conn_refs cfg -> needs ref n -> is_Some (rs !! n);
  bt_client : forall id c, r_clients r !! id = Some c -> exists conn,
    r_connections r !! id = Some conn /\ c_HTTP conn = Some (cl_cfg c)
    /\ (scheme (cl_base c) = "http" \/ scheme (cl_base c) = "https") }.

Lemma newHTTPClient_Ok up ca id cfg c :
  newHTTPClient up ca id cfg = Ok c ->
  cl_cfg c = cfg /\ (scheme (cl_base c) = "http" \/ scheme (cl_base c) = "https").
Proof.
  unfold newHTTPClient. destruct (up (h_BaseURL cfg)) as [f|]; [|done].
  destruct (negb _ && negb _) eqn:E; [done|].
  assert (Hs : scheme (fu_URL f) = "http" \/ scheme (fu_URL f) = "https").
  { apply andb_false_iff in E as [E|E]; bool_prop; auto. }
  destruct (String.eqb _ ""); [intros [= <-]; done|].
  destruct (ca _) as [[]|]; [intros [= <-]; done|done|done].
Qed.

Lemma add_connection_built up ca rs reg r reg' r' seen id cfg :
  built rs seen r -> (forall cfg', (id, cfg') ∉ seen) ->
  add_connection up ca rs reg r id cfg = (reg', Ok r') -> built rs (seen ++ [(id, cfg)]) r'.
Proof.
  intros [H1 H2 H3] Hnew. unfold add_connection.
  destruct (conn_disabled cfg) eqn:Ed.
  { intros [= <- <-]. split; [|intros id' cfg' ref n|done].
    - intros id'. rewrite H1. split; intros (x & Hx & Hd); exists x; (split; [|done]).
      + apply elem_of_app. by left.
      + apply elem_of_app in Hx as [Hx|[= -> ->]%list_elem_of_singleton]; [done|congruence].
    - rewrite elem_of_app, list_elem_of_singleton. intros [Hin|[= -> ->]]; [eauto|congruence]. }
  destruct (buildConnection reg id cfg rs) as [reg1 [conn|e]] eqn:Eb; [|done].
  apply buildConnection_resolved in Eb as (Hid & Hkind & Hh & Hres).
  assert (Hdom : forall r0, r_connections r0 = <[id := conn]> (r_connections r) -> forall id',
    is_Some (r_connections r0 !! id') <-> exists cfg', (id', cfg') ∈ seen ++ [(id, cfg)] /\ conn_disabled cfg' = false).
  { intros r0 -> id'. rewrite lookup_insert. case_decide as E.
    - subst id'. split; [intros _; exists cfg; split; [|done]|by eexists].
      apply elem_of_app. right. by apply list_elem_of_singleton.
    - rewrite H1. split; intros (x & Hx & Hd'); exists x; (split; [|done]).
      + apply elem_of_app. by left.
      + apply elem_of_app in Hx as [Hx|[= -> ->]%list_elem_of_singleton]; done. }
  assert (Hr : forall id' cfg' ref n, (id', cfg') ∈ seen ++ [(id, cfg)] -> conn_disabled cfg' = false ->
    ref ∈ conn_refs cfg' -> needs ref n -> is_Some (rs !! n)).
  { intros id' cfg' ref n. rewrite elem_of_app, list_elem_of_singleton. intros [Hin|[= -> ->]]; eauto. }
  assert (Hc : forall id' c, r_clients r !! id' = Some c -> id' <> id).
  { intros id' c Hl ->. apply H3 in Hl as (cn & Hl & _).
    assert (Hs : is_Some (r_connections r !! id)) by by eexists.
    apply H1 in Hs as (cfg' & Hin & _). by apply (Hnew cfg'). }
  assert (Hkeep : forall id' c, r_clients r !! id' = Some c -> exists cn,
    <[id := conn]> (r_connections r) !! id' = Some cn /\ c_HTTP cn = Some (cl_cfg c)
    /\ (scheme (cl_base c) = "http" \/ scheme (cl_base c) = "https")).
  { intros id' c Hl. rewrite lookup_insert_ne by (intros <-; by apply (Hc id c Hl)). by apply H3. }
  destruct (c_HTTP conn) as [h|] eqn:Ehttp; [|destruct (c_Docker conn) as [d|]].
  - destruct (newHTTPClient up ca id h) as [c|e] eqn:En; [|done]. intros [= <- <-].
    apply newHTTPClient_Ok in En as [Ecfg Hs]. split; [by apply Hdom|done|]. simpl.
    intros id' c'. rewrite lookup_insert. case_decide as E; [subst id'|apply Hkeep].
    intros [= <-]. exists conn. rewrite lookup_insert_eq. by rewrite Ecfg.
  - destruct (newDockerClient up id d) as [dc|e]; [|done]. intros [= <- <-]. by split; [apply Hdom|..].
  - intros [= <- <-]. by split; [apply Hdom|..].
Qed.

Lemma add_all_built up ca rs l seen reg r reg' r' :
  built rs seen r -> NoDup (map fst (seen ++ l)) ->
  add_all up ca rs reg r l = (reg', Ok r') -> built rs (seen ++ l) r'.
Proof.
  revert seen reg r; induction l as [|[id cfg] l IH]; intros seen reg r Hb Hd; simpl.
  - intros [= <- <-]. by rewrite app_nil_r.
  - destruct (add_connection up ca rs reg r id cfg) as [reg1 [r1|e]] eqn:Ea; [|done]. intros H.
    rewrite (app_assoc seen [(id, cfg)] l : seen ++ (id, cfg) :: l = _) in *. eapply IH; [|done|done].
    eapply add_connection_built; [done| |done]. intros cfg' Hin.
    rewrite !map_app in Hd. apply NoDup_app in Hd as [Hd _]. apply NoDup_app in Hd as (_ & Hd & _).
    apply (Hd id); [by apply (elem_of_map_2 fst _ (id, cfg'))|left].
Qed.

(** ** The properties *)

(** A path joined onto a connection's base stays under it: scheme and host are the base's, the
    joined path is canonical, and its segments are the base's followed by the request's; and
    [relativeRedirectPath] is the inverse: it maps the joined path back to the request's. *)
Theorem join_stays_under_base base p u :
  joinPath base p = Ok u -> p <> "" ->
  scheme u = scheme base /\ host u = host base /\ uquery u = ∅ /\ canonical (upath u)
  /\ exists d b r, url_parse_path p = Some d /\ Canonicalise d = Ok r
     /\ Canonicalise (base_path base) = Ok b
     /\ path_segments (upath u) = path_segments b ++ path_segments r
     /\ relativeRedirectPath base (upath u) = Ok r.
Proof.
  intros [[-> _]|(d & b & r & Hd & Hr & Hb & ->)]%joinPath_Ok Hp; [done|]. simpl.
  assert (Hcr := Canonicalise_canonical _ _ Hr). assert (Hcb := Canonicalise_canonical _ _ Hb).
  destruct (path_join_canonical b r Hcb Hcr) as [Hc Hs].
  split_and!; try done. exists d, b, r. split_and!; try done. by apply relativeRedirectPath_join.
Qed.

Definition sample_base_url : URL :=
  {| scheme := "https"; host := "nas.lan"; upath := "/api/v1"; uquery := ∅ |}.

Example join_stays_under_base_witness :
  joinPath sample_base_url "/items/a%3ab" = Ok (with_path sample_base_url "/api/v1/items/a:b" ∅)
  /\ canonical "/api/v1/items/a:b".
Proof.
  split; [reflexivity|].
  apply (join_stays_under_base sample_base_url "/items/a%3ab" (with_path sample_base_url "/api/v1/items/a:b" ∅));
    [reflexivity|discriminate].
Defined.

(** C22. Whatever the upstream answers, [Do] sends at most one request more than the connection's
    redirect limit, and every request after the first goes to the connection's own host and scheme and to a
    path inside allowedPaths when any is configured. When the caller installed a redirect authorizer, as the
    broker always does, the path is under the base path as well, and was accepted by the authorizer relative
    to the base, with the connection's own query keys and headers removed. The loop always ends with an
    answer. *)
Theorem do_redirects_checked e c req :
  let '(tr, r) := client_do e c req in
  r <> Err FollowFuel
  /\ length tr <= S (Z.to_nat (h_MaxRedirects (cl_cfg c)))
  /\ forall i w, tr !! S i = Some w -> hop_ok c (redirect_authorizer e) w
     /\ exists p, tr !! i = Some p /\ send e p = WRedirect w.
Proof.
  unfold client_do. destruct (build_request c req) as [w|er] eqn:Eb.
  2:{ split_and!; [|simpl; lia|done]. revert Eb. unfold build_request. repeat case_match; intros; simplify_eq; done. }
  set (m := Z.to_nat (h_MaxRedirects (cl_cfg c))).
  destruct (follow_enough (send e) (client_policy c (redirect_authorizer e)) m (S (S m)) 0 w) as [Hf Hl]; [|lia|lia|].
  { intros next v Hv. unfold client_policy, redirectPolicy.
    rewrite (proj2 (Z.ltb_lt _ _)); [done|]. subst m. lia. }
  assert (Hc := follow_checked (send e) (client_policy c (redirect_authorizer e)) (S (S m)) 0 w).
  destruct (follow _ _ _ _ w) as [tr r]; simpl in *. split_and!; [|lia|].
  - destruct r as [[[st h] b]|er]; simpl in *; [|naive_solver].
    unfold readLimited. by repeat case_match.
  - intros i w' Hw. destruct (Hc i w' Hw) as [H1 H2]. split; [by eapply client_policy_ok|done].
Qed.

Definition sample_auth (t name v : string) : ConnAuth :=
  {| au_Type := t; au_Name := name; au_Value := {| resolved := v |}; au_User := ""; au_Pass := {| resolved := "" |} |}.

Definition sample_http (a : ConnAuth) : HTTPConfig :=
  {| h_BaseURL := "https://nas.lan/api/v1"; h_Auth := a; h_Headers := ∅;
     h_TLS := {| tls_Insecure := false; tls_CAFile := ""; tls_ServerName := "" |};
     h_Timeout := 0; h_MaxResponseBytes := 0; h_MaxRedirects := 1; h_AllowedPaths := ["/api"];
     h_RateLimit := {| rl_RPS := GoTime.float_of 1; rl_Burst := 1 |}; h_Concurrency := 1 |}.

Definition sample_client (a : ConnAuth) : client :=
  {| cl_base := sample_base_url; cl_cfg := sample_http a; cl_timeout := defaultTimeout;
     cl_limiter := newLimiter (h_RateLimit (sample_http a)); cl_sem := newSemaphore 1 |}.

Definition sample_request : Request :=
  {| rq_Method := "GET"; rq_Path := "/items"; rq_Query := {["q" := "1"]};
     rq_Headers := {["authorization" := "spoofed"]}; rq_Body := None; rq_MaxResponseBytes := 4 |}.

(** An upstream that redirects everything to one of its own paths. *)
Definition sample_env (next : URL) : env :=
  {| limiter_err := None; acquire_err := None; redirect_authorizer := None;
     send := fun w => if String.eqb (upath (wr_URL w)) "/api/v1/other"
                      then WResponse 200 ∅ {| rd_data := "body"; rd_err := None |}
                      else WRedirect {| wr_Method := "GET"; wr_URL := next; wr_Header := wr_Header w; wr_ContentLength := 0 |} |}.

(** A same-host redirect is followed once; one to another host is refused. *)
Example redirect_followed :
  let '(tr, r) := client_do (sample_env (with_path sample_base_url "/api/v1/other" ∅))
                            (sample_client (sample_auth "bearer" "" "s3cr3t")) sample_request in
  length tr = 2 /\ r = Ok {| rs_StatusCode := 200; rs_Header := ∅; rs_Body := "body" |}.
Proof. vm_compute. split; reflexivity. Qed.

Example redirect_refused :
  (client_do (sample_env {| scheme := "https"; host := "evil"; upath := "/api/v1/other"; uquery := ∅ |})
             (sample_client (sample_auth "bearer" "" "s3cr3t")) sample_request).2
  = Err (RedirectError DifferentHost).
Proof. vm_compute. reflexivity. Qed.

(** The connection's credential is authoritative on every request built: the credential header
    or query key carries exactly the resolved secret whatever the caller supplied under that
    name, and so does every static header not shadowed by the credential's; the request goes to
    the connection's own scheme and host. *)
Theorem do_credentials_win c req w :
  build_request c req = Ok w ->
  scheme (wr_URL w) = scheme (cl_base c) /\ host (wr_URL w) = host (cl_base c)
  /\ (forall k v, auth_header (h_Auth (cl_cfg c)) = Some (k, v) -> header_Get (wr_Header w) k = v)
  /\ (au_Type (h_Auth (cl_cfg c)) = AuthTQuery ->
      uquery (wr_URL w) !! au_Name (h_Auth (cl_cfg c)) = Some [Reveal (au_Value (h_Auth (cl_cfg c)))])
  /\ (forall k v, h_Headers (cl_cfg c) !! k = Some v ->
      (forall k', is_Some (h_Headers (cl_cfg c) !! k') -> CanonicalHeaderKey k' = CanonicalHeaderKey k -> k' = k) ->
      (forall a x, auth_header (h_Auth (cl_cfg c)) = Some (a, x) -> CanonicalHeaderKey a <> CanonicalHeaderKey k) ->
      wr_Header w !! CanonicalHeaderKey k = Some [Reveal v]).
Proof.
  unfold build_request. destruct (joinPath (cl_base c) (rq_Path req)) as [u|e] eqn:Ej; [|done].
  destruct (request_method (rq_Method req)); [|done].
  assert (Hu : scheme u = scheme (cl_base c) /\ host u = host (cl_base c)).
  { by apply joinPath_Ok in Ej as [[_ ->]|(d & b & r & _ & _ & _ & ->)]. }
  set (q := set_all_values _ _). set (h := set_all_headers (Reveal <$> _) _).
  assert (Hh := injectAuth_header h q (h_Auth (cl_cfg c))). assert (Hq := injectAuth_query h q (h_Auth (cl_cfg c))).
  destruct (injectAuth h q (h_Auth (cl_cfg c))) as [h' q']; simpl in *. intros [= <-]; simpl.
  split_and!; [tauto|tauto| | |].
  - intros k v E. rewrite E in Hh. subst. apply header_Get_Set.
  - intros E. rewrite E, String.eqb_refl in Hq. subst q'. unfold values_Set. by rewrite lookup_insert_eq.
  - intros k v Hk Huniq Hother. subst h'. destruct (auth_header _) as [[a x]|]; [rewrite header_Set_other by eauto|];
      subst h; apply set_all_headers_lookup; try (by rewrite lookup_fmap, Hk);
      intros k' Hk'; apply Huniq; rewrite lookup_fmap in Hk'; by apply fmap_is_Some in Hk'.
Qed.

Example do_credentials_win_witness :
  exists w, build_request (sample_client (sample_auth "bearer" "" "s3cr3t")) sample_request = Ok w
    /\ header_Get (wr_Header w) "Authorization" = "Bearer s3cr3t".
Proof.
  eexists. split; [reflexivity|].
  refine (proj1 (proj2 (proj2 (do_credentials_win (sample_client (sample_auth "bearer" "" "s3cr3t")) sample_request _ eq_refl))) _ _ _).
  reflexivity.
Defined.

(** A response body is never truncated: [Do] returns the whole body the upstream sent, within
    the tighter of the connection's limit and the caller's, or an error. *)
Theorem do_response_whole_and_bounded e r id req resp :
  (Do e r id req).2 = Ok resp ->
  exists c w tr st h b,
    r_clients r !! id = Some c /\ build_request c req = Ok w
    /\ follow (send e) (client_policy c (redirect_authorizer e))
         (S (S (Z.to_nat (h_MaxRedirects (cl_cfg c))))) 0 w = (tr, Ok (st, h, b))
    /\ rs_Body resp = rd_data b /\ rd_err b = None
    /\ (Z.of_nat (String.length (rs_Body resp)) <= response_limit (cl_cfg c) req)%Z
    /\ (0 < rq_MaxResponseBytes req -> response_limit (cl_cfg c) req <= rq_MaxResponseBytes req)%Z.
Proof.
  unfold Do. destruct (r_clients r !! id) as [c|]; [|done].
  destruct (limiter_err e); [done|]. destruct (acquire_err e); [done|].
  unfold client_do. destruct (build_request c req) as [w|er] eqn:Ew; [|done].
  destruct (follow _ _ _ _ w) as [tr [[[st h] b]|er]] eqn:Ef; [|done]. cbn [snd res_bind].
  unfold readLimited. destruct (Z.ltb_spec (response_limit (cl_cfg c) req) (Z.of_nat (String.length (rd_data b)))); [done|].
  destruct (rd_err b) eqn:Er; [done|]. intros [= <-]. exists c, w, tr, st, h, b. cbn [rs_Body].
  split_and!; [done|done|done|done|done|lia|]. intros Hp. unfold response_limit. cbv zeta.
  set (lim := if (h_MaxResponseBytes (cl_cfg c) <=? 0)%Z then _ else _).
  destruct (Z.ltb_spec 0 (rq_MaxResponseBytes req)); [|lia].
  destruct (Z.ltb_spec (rq_MaxResponseBytes req) lim); simpl; lia.
Qed.

Definition sample_registry (c : client) : registry :=
  {| r_connections := {["nas" := {| c_ID := "nas"; c_Kind := "http"; c_HTTP := Some (cl_cfg c); c_Docker := None |}]};
     r_clients := {["nas" := c]}; r_docker := ∅ |}.

Example do_response_whole_and_bounded_witness :
  let e := sample_env (with_path sample_base_url "/api/v1/other" ∅) in
  let r := sample_registry (sample_client (sample_auth "none" "" "")) in
  (Do e r "nas" sample_request).2 = Ok {| rs_StatusCode := 200; rs_Header := ∅; rs_Body := "body" |}
  /\ exists c, r_clients r !! "nas" = Some c /\ (response_limit (cl_cfg c) sample_request <= 4)%Z.
Proof.
  intros e r. assert (H : (Do e r "nas" sample_request).2 = Ok {| rs_StatusCode := 200; rs_Header := ∅; rs_Body := "body" |})
    by reflexivity. split; [exact H|].
  destruct (do_response_whole_and_bounded e r "nas" sample_request _ H) as (c & w & tr & st & h & b & H1 & _ & _ & _ & _ & _ & H2).
  exists c. split; [exact H1|]. apply H2. reflexivity.
Defined.

(** A registry [New] returns holds exactly the enabled connections, none of which needs a secret
    that was not resolved, and every HTTP client in it has the connection's own configuration and
    an http or https base. *)
Theorem new_registry_built up ca reg order rs reg' r :
  NoDup (map fst order) -> New_registry up ca reg order rs = (reg', Ok r) -> built rs order r.
Proof.
  intros Hd H. refine (add_all_built up ca rs order [] reg _ reg' r _ _ H); [|done].
  split; simpl; [|by intros ???? ?%not_elem_of_nil|by intros ??; rewrite lookup_empty].
  intros id. rewrite lookup_empty. split; [by intros [? ?]|]. by intros (cfg & ?%not_elem_of_nil & _).
Qed.

Definition sample_connection (enabled : option bool) (ref : SecretRef) : Connection :=
  {| conn_Kind := "http"; conn_Enabled := enabled; Docker := None;
     HTTP := Some {| BaseURL := "https://nas.lan"; hc_Headers := ∅;
       hc_Auth := {| ca_Type := "bearer"; ca_Name := ""; ca_Value := ref; ca_Username := "";
                     ca_Password := {| sr_Literal := ""; sr_Name := ""; sr_Template := ""; sr_Names := [] |} |};
       TLS := {| InsecureSkipVerify := false; CAFile := ""; ServerName := "" |}; hc_Timeout := "";
       MaxResponseBytes := 0; MaxRedirects := 0; AllowedPaths := [];
       hc_RateLimit := {| RPS := GoTime.float_of 0; Burst := 0 |}; Concurrency := 0 |} |}.

Definition sample_order : list (string * Connection) :=
  [("on", sample_connection None (secret_ref_of "${secret:KEY}"));
   ("off", sample_connection (Some false) (secret_ref_of "${secret:OTHER}"))].

Definition sample_parse (s : string) : option full_URL :=
  Some {| fu_URL := sample_base_url; fu_User := false; fu_RawQuery := ""; fu_Fragment := "" |}.

Example new_registry_built_witness :
  exists reg r, New_registry sample_parse (fun _ => None) NewRegistry sample_order {["KEY" := {| resolved := "v" |}]}
                = (reg, Ok r)
    /\ is_Some (r_connections r !! "on") /\ ~ is_Some (r_connections r !! "off").
Proof.
  eexists _, _. split; [reflexivity|].
  pose proof (new_registry_built sample_parse (fun _ => None) NewRegistry sample_order
                {["KEY" := {| resolved := "v" |}]} _ _
                (ltac:(apply (bool_decide_unpack _); vm_compute; exact I)) eq_refl) as H.
  split.
  - apply (bt_dom _ _ _ H). exists (sample_connection None (secret_ref_of "${secret:KEY}")). split; [left|reflexivity].
  - intros Hs. apply (bt_dom _ _ _ H) in Hs as (cfg & Hin & Hd).
    apply elem_of_cons in Hin as [[=]|Hin]. apply list_elem_of_singleton in Hin as [= ->]. discriminate Hd.
Defined.

(** A Docker connection is only ever asked a GET on one of the four read-only endpoints, on its
    own base; a path outside them sends nothing. *)
Theorem docker_get_surface snd_ c path :
  let '(tr, r) := docker_get snd_ c path in
  match tr with
  | [] => r = Err ErrDockerPath
  | w :: _ => wr_Method w = "GET" /\ host (wr_URL w) = host (dkc_base c) /\ upath (wr_URL w) ∈ docker_surface
  end.
Proof.
  unfold docker_get, allowedDockerPath. destruct (docker_path path) as [p|]; [|done].
  destruct (Contains p ".."); [done|]. destruct (existsb (String.eqb p) docker_surface) eqn:E; [|done]. cbn [negb].
  set (w := {| wr_Method := "GET" |}).
  assert (Hf := follow_first snd_ default_policy 10 0 w).
  destruct (follow snd_ default_policy 11 0 w) as [tr r]. cbn [fst] in Hf.
  destruct tr as [|w0 tr]; [done|]. injection Hf as ->. split_and!; [done|done|]. simpl.
  apply existsb_elem in E as (q & Hq & ->%String.eqb_eq). done.
Qed.

(** The standard client follows an endpoint's redirects away from that surface. *)
Example docker_follows_redirects :
  let c := {| dkc_socket := None; dkc_base := {| scheme := "http"; host := "dock:2375"; upath := ""; uquery := ∅ |}; dkc_timeout := 0 |} in
  let w := {| wr_Method := "GET"; wr_URL := {| scheme := "http"; host := "10.0.0.1"; upath := "/admin"; uquery := ∅ |};
              wr_Header := ∅; wr_ContentLength := 0 |} in
  let snd_ := fun q => if String.eqb (upath (wr_URL q)) "/info" then WRedirect w
                       else WResponse 200 ∅ {| rd_data := "x"; rd_err := None |} in
  (docker_get snd_ c "/info").1 !! 1 = Some w.
Proof. reflexivity. Qed.
