(* ===== verification/Fingerprint.v ===== *)
(** * internal/connections: fingerprints of connections, and how they are dialled

    material.go: the keyed digest of everything a connection is built from, by which the rest of the
    program tells that a connection has changed. dial.go: a host is resolved once for a dial. The keyed
    hash, the rendering of floats and of IP addresses, the resolver and the network are arguments. *)
From S2P Require Import Prelude RoutePath GoSort GoTime TimeText Canonical NetIP Config Secrets Connections HttpClient.

(** ** [time.Duration.String] *)

(** [fmtFrac]: the digits of a fraction of [prec] places without trailing zeros, and what is above. *)
Fixpoint frac_digits (prec : nat) (v : Z) (printed : bool) (out : string) : string * Z :=
  match prec with
  | O => (if printed then "." +:+ out else out, v)
  | S p =>
      let d := (v mod 10)%Z in
      let printed := printed || negb (d =? 0)%Z in
      frac_digits p (v / 10) printed (if printed then decimal d +:+ out else out)
  end.

Definition Duration_String (d : Duration) : string :=
  let u := Z.abs d in
  let text :=
    if (u <? second)%Z then
      if (u =? 0)%Z then "0s"
      else if (u <? 1000)%Z then decimal u +:+ "ns"
      else if (u <? millisecond)%Z then let '(f, v) := frac_digits 3 u false "" in decimal v +:+ f +:+ "µs"
      else let '(f, v) := frac_digits 6 u false "" in decimal v +:+ f +:+ "ms"
    else
      let '(f, v) := frac_digits 9 u false "" in
      let s := decimal (v mod 60) +:+ f +:+ "s" in
      let m := (v / 60)%Z in
      if (m =? 0)%Z then s
      else let h := (m / 60)%Z in
           (if (h =? 0)%Z then "" else decimal h +:+ "h") +:+ decimal (m mod 60) +:+ "m" +:+ s
  in if (d <? 0)%Z then "-" +:+ text else text.

Example duration_texts : map Duration_String [0; 1; 1100; 2200000; 1500000000; 60000000000; 3661000000001; -2000]%Z
  = ["0s"; "1ns"; "1.1µs"; "2.2ms"; "1.5s"; "1m0s"; "1h1m1.000000001s"; "-2µs"].
Proof. by vm_compute. Qed.

(** ** material.go *)

(** The length of a value in eight bytes, most significant first, and the value. *)
Fixpoint be_bytes (n : nat) (z : Z) : string :=
  match n with
  | O => ""
  | S k => be_bytes k (z / 256) +:+ String (ascii_of_N (Z.to_N (z mod 256))) ""
  end.
Definition frame (v : string) : string := be_bytes 8 (Z.of_nat (String.length v)) +:+ v.
Definition writeMaterial (values : list string) : string := foldr (fun v out => frame v +:+ out) "" values.

Definition fmt_bool (b : bool) : string := if b then "true" else "false".

Section Material.
Variable fmt_float : Float64 -> string.           (* fmt.Sprint *)
Variable hmac : string -> string -> string.

(** The static headers by name, and the allowed paths in order. *)
Definition header_material (h : gmap string Value) : list string :=
  concat (map (fun k => [k; match h !! k with Some v => Reveal v | None => "" end]) (sort_strings (map fst (map_to_list h)))).
Definition path_material (paths : list string) : list string := sort_strings paths.

Definition http_material (h : HTTPConfig) : list string :=
  [h_BaseURL h; au_Type (h_Auth h); au_Name (h_Auth h); Reveal (au_Value (h_Auth h)); au_User (h_Auth h); Reveal (au_Pass (h_Auth h));
   tls_CAFile (h_TLS h); tls_ServerName (h_TLS h); fmt_bool (tls_Insecure (h_TLS h)); Duration_String (h_Timeout h);
   decimal (h_MaxResponseBytes h); decimal (h_MaxRedirects h); fmt_float (rl_RPS (h_RateLimit h)); decimal (rl_Burst (h_RateLimit h));
   decimal (h_Concurrency h)].

Definition connection_material (id : string) (c : Conn) : list string :=
  [id; c_Kind c] ++
  match c_HTTP c, c_Docker c with
  | Some h, _ => http_material h ++ header_material (h_Headers h) ++ path_material (h_AllowedPaths h)
  | None, Some d => [dk_Endpoint d; fmt_bool (dk_AllowActions d); Duration_String (dk_Timeout d)]
  | None, None => []
  end.

Definition connection_hmac (key id : string) (c : Conn) : string := hmac key (writeMaterial (connection_material id c)).

(** [MaterialHMACs]: connections in the order the map is ranged in. *)
Fixpoint material_loop (reg : Registry) (configs : list (string * Connection)) (resolved_ : gmap string Value) (key : string)
  (out : gmap string string) : Registry * res build_error (gmap string string) :=
  match configs with
  | [] => (reg, Ok out)
  | (id, cfg) :: rest =>
      let '(reg, c) := buildConnection reg id cfg resolved_ in
      match c with
      | Err e => (reg, Err e)
      | Ok conn => material_loop reg rest resolved_ key (<[id := connection_hmac key id conn]> out)
      end
  end.
Definition MaterialHMACs (reg : Registry) (order : list (string * Connection) -> list (string * Connection))
  (configs : gmap string Connection) (resolved_ : gmap string Value) (key : string) : Registry * res build_error (gmap string string) :=
  material_loop reg (order (map_to_list configs)) resolved_ key ∅.
End Material.

(** ** dial.go *)

Inductive dial_error := BadAddress | LookupFailed (e : string) | errNoAddresses | DialFailed (e : string).

Section Dial.
Variable lookup : string -> res string (list Addr).
Variable ip_String : Addr -> string.
Variable dial : string -> res string string.            (* the network: a connection to an address *)

(** [net.JoinHostPort] *)
Definition JoinHostPort (host port : string) : string :=
  if contains_byte ":" host then "[" +:+ host +:+ "]:" +:+ port else host +:+ ":" +:+ port.

(** The address the socket is opened to. *)
Definition dial_target (addr : string) : res dial_error string :=
  match SplitHostPort addr with
  | None => Err BadAddress
  | Some (host, port) =>
      match ParseIP host with
      | Some _ => Ok addr
      | None =>
          match lookup host with
          | Err e => Err (LookupFailed e)
          | Ok [] => Err errNoAddresses
          | Ok (ip :: _) => Ok (JoinHostPort (ip_String ip) port)
          end
      end
  end.

Definition DialContext (addr : string) : res dial_error string :=
  let! target := dial_target addr in res_map_err DialFailed (dial target).
End Dial.

(** ** Durations are read back *)

(** The digits a text begins with, and what follows them. *)
Fixpoint span (s : string) : string * string :=
  match s with
  | String c r => if isDigit c then let '(a, b) := span r in (String c a, b) else ("", s)
  | "" => ("", "")
  end.
Definition number (s : string) : Z := default 0%Z (atoi_digits s 0).
(** Digits after the point, the first of them worth ten to the power [p - 1]. *)
Fixpoint places (p : nat) (s : string) : Z :=
  match s, p with String c r, S p => (digit c * 10 ^ Z.of_nat p + places p r)%Z | _, _ => 0%Z end.
Definition read_unit (n : Z) (r : string) : Z :=
  if String.eqb r "ns" then n else if String.eqb r "µs" then n * 1000 else if String.eqb r "ms" then n * millisecond
  else match r with
       | String "." r => let '(t, unit_) := span r in
                         if String.eqb unit_ "µs" then n * 1000 + places 3 t else if String.eqb unit_ "ms" then n * millisecond + places 6 t
                         else n * second + places 9 t
       | _ => n * second
       end%Z.
Definition read_minutes (n : Z) (r : string) : Z :=
  match r with
  | String "m" (String "s" "") => read_unit n r
  | String "m" r => let '(a, r) := span r in (n * 60 * second + read_unit (number a) r)%Z
  | _ => read_unit n r
  end.
Definition read_magnitude (s : string) : Z :=
  let '(a, r) := span s in
  match r with
  | String "h" r => let '(b, r) := span r in (number a * 3600 * second + read_minutes (number b) r)%Z
  | _ => read_minutes (number a) r
  end.
Definition read_duration (s : string) : Z := match s with String "-" r => (- read_magnitude r)%Z | _ => read_magnitude s end.

Definition digitless (s : string) : Prop := match s with String c _ => isDigit c = false | "" => True end.
Lemma span_app a r : all_bytes isDigit a = true -> digitless r -> span (a +:+ r) = (a, r).
Proof.
  intros Ha Hr. induction a as [|c a IH]; cbn [all_bytes] in Ha.
  - change ("" +:+ r) with r. destruct r as [|c r]; [done|]. cbn in Hr |- *. by rewrite Hr.
  - apply andb_true_iff in Ha as [Hc Ha]. rewrite app_cons_str. cbn [span]. by rewrite Hc, IH.
Qed.
Lemma span_decimal z r : (0 <= z)%Z -> digitless r -> span (decimal z +:+ r) = (decimal z, r).
Proof. intros Hz. apply span_app. by apply decimal_digits. Qed.
Lemma number_decimal z : (0 <= z)%Z -> number (decimal z) = z.
Proof. intros Hz. unfold number. by rewrite atoi_decimal. Qed.

(** What a fraction is, from the last digit on. *)
Lemma frac_digits_spec p k v printed out r :
  (0 <= v)%Z -> (printed = false -> out = "") -> all_bytes isDigit out = true -> places k out = r ->
  let '(f, q) := frac_digits p v printed out in
  q = (v / 10 ^ Z.of_nat p)%Z /\ exists t, (f = "" /\ t = "" \/ f = "." +:+ t) /\ all_bytes isDigit t = true
    /\ places (p + k) t = ((v mod 10 ^ Z.of_nat p) * 10 ^ Z.of_nat k + r)%Z.
Proof.
  revert k v printed out r. induction p as [|p IH]; intros k v printed out r Hv Hout Hd Hr; cbn [frac_digits].
  - rewrite Z.mod_1_r, Z.div_1_r. split; [done|]. exists out. split; [|split; [done|cbn; lia]].
    destruct printed; [by right|left]. by rewrite Hout.
  - assert (Hm := Z.mod_pos_bound v 10 ltac:(lia)). assert (Hp : (10 ^ Z.of_nat (S p) = 10 * 10 ^ Z.of_nat p)%Z) by (rewrite Nat2Z.inj_succ, Z.pow_succ_r by lia; reflexivity).
    assert (H10 : (0 < 10 ^ Z.of_nat p)%Z) by (apply Z.pow_pos_nonneg; lia).
    set (printed' := printed || negb (v mod 10 =? 0)%Z). set (out' := if printed' then decimal (v mod 10) +:+ out else out).
    assert (Hstep : (printed' = false -> out' = "") /\ all_bytes isDigit out' = true /\ places (S k) out' = (v mod 10 * 10 ^ Z.of_nat k + r)%Z).
    { subst printed' out'. destruct (printed || _) eqn:E.
      - split; [done|]. rewrite all_bytes_app, decimal_digits, Hd by lia. split; [done|]. rewrite decimal_digit by lia.
        destruct (digit_char_spec (v mod 10) ltac:(lia)) as [_ Hc]. change (String ?c "" +:+ out) with (String c out). cbn [places]. rewrite Hc, Hr. done.
      - apply orb_false_iff in E as [-> E%negb_false_iff%Z.eqb_eq]. rewrite Hout in * by done. split; [done|]. split; [done|]. rewrite E. destruct k; cbn in *; lia. }
    destruct Hstep as (H1 & H2 & H3). specialize (IH (S k) (v / 10)%Z printed' out' _ ltac:(by apply Z.div_pos) H1 H2 H3).
    destruct (frac_digits p (v / 10) printed' out') as [f q]. destruct IH as (-> & t & Hf & Ht & Hpl). rewrite Hp. split.
    + rewrite Z.div_div by lia. f_equal; lia.
    + exists t. split; [done|]. split; [done|]. replace (S p + k) with (p + S k) by lia. rewrite Hpl.
      rewrite (Z.rem_mul_r v 10 (10 ^ Z.of_nat p)) by lia. rewrite Nat2Z.inj_succ, Z.pow_succ_r by lia. ring.
Qed.
Lemma frac_read p v : (0 <= v)%Z ->
  let '(f, q) := frac_digits p v false "" in
  (0 <= q)%Z /\ exists t, (f = "" /\ t = "" \/ f = "." +:+ t) /\ all_bytes isDigit t = true /\ (q * 10 ^ Z.of_nat p + places p t)%Z = v.
Proof.
  intros Hv. pose proof (frac_digits_spec p 0 v false "" 0 Hv ltac:(done) eq_refl eq_refl) as H. destruct (frac_digits p v false "") as [f q].
  destruct H as (-> & t & Hf & Ht & Hp). assert (H10 : (0 < 10 ^ Z.of_nat p)%Z) by (apply Z.pow_pos_nonneg; lia). split; [by apply Z.div_pos|].
  exists t. split; [done|]. split; [done|]. rewrite Nat.add_0_r in Hp. rewrite Hp. pose proof (Z.div_mod v (10 ^ Z.of_nat p) ltac:(lia)). lia.
Qed.
(** A number with its fraction and unit. *)
Lemma read_unit_frac n f t : (f = "" /\ t = "" \/ f = "." +:+ t) -> all_bytes isDigit t = true ->
  read_unit n (f +:+ "s") = (n * second + places 9 t)%Z /\ read_unit n (f +:+ "ms") = (n * millisecond + places 6 t)%Z
  /\ read_unit n (f +:+ "µs") = (n * 1000 + places 3 t)%Z.
Proof.
  intros [[-> ->]| ->] Ht; [split_and!; cbn [places]; rewrite Z.add_0_r; reflexivity|].
  assert (Hs : forall u, digitless u -> read_unit n (("." +:+ t) +:+ u) = read_unit n (String "." (t +:+ u))) by done.
  split_and!; rewrite Hs by done; unfold read_unit; cbn [String.eqb Ascii.eqb Bool.eqb]; rewrite span_app by done; reflexivity.
Qed.
Definition not_hours (r : string) : Prop := match r with String "h" _ => False | _ => True end.
Lemma read_magnitude_minutes n r : (0 <= n)%Z -> digitless r -> not_hours r -> read_magnitude (decimal n +:+ r) = read_minutes n r.
Proof.
  intros Hn Hd Hh. unfold read_magnitude. rewrite span_decimal, number_decimal by done. destruct r as [|c r]; [done|].
  destruct (Ascii.eqb_spec c "h") as [->|Hc]; [done|]. destruct c as [[] [] [] [] [] [] [] []]; first [done|by destruct Hc].
Qed.
Lemma read_minutes_frac n f t u : (f = "" /\ t = "" \/ f = "." +:+ t) -> u = "s" \/ u = "ms" \/ u = "µs" ->
  digitless (f +:+ u) /\ not_hours (f +:+ u) /\ read_minutes n (f +:+ u) = read_unit n (f +:+ u).
Proof. intros [[-> _]| ->] Hu; [by destruct Hu as [->|[->| ->]]|done]. Qed.
Lemma read_seconds n f t : (0 <= n)%Z -> (f = "" /\ t = "" \/ f = "." +:+ t) -> all_bytes isDigit t = true ->
  read_magnitude (decimal n +:+ f +:+ "s") = (n * second + places 9 t)%Z /\ read_magnitude (decimal n +:+ f +:+ "ms") = (n * millisecond + places 6 t)%Z
  /\ read_magnitude (decimal n +:+ f +:+ "µs") = (n * 1000 + places 3 t)%Z.
Proof.
  intros Hn Hf Ht. destruct (read_unit_frac n f t Hf Ht) as (H1 & H2 & H3).
  destruct (read_minutes_frac n f t "s" Hf ltac:(auto)) as (D1 & N1 & E1), (read_minutes_frac n f t "ms" Hf ltac:(auto)) as (D2 & N2 & E2),
    (read_minutes_frac n f t "µs" Hf ltac:(auto)) as (D3 & N3 & E3).
  rewrite !read_magnitude_minutes, E1, E2, E3 by done. done.
Qed.
Lemma read_after_minutes m n f t : (0 <= m)%Z -> (0 <= n)%Z -> (f = "" /\ t = "" \/ f = "." +:+ t) -> all_bytes isDigit t = true ->
  read_minutes m ("m" +:+ decimal n +:+ f +:+ "s") = (m * 60 * second + n * second + places 9 t)%Z.
Proof.
  intros Hm Hn Hf Ht. destruct (read_unit_frac n f t Hf Ht) as (H1 & _). destruct (read_minutes_frac n f t "s" Hf ltac:(auto)) as (D1 & _).
  assert (Hd := decimal_digits n Hn). assert (Hne := decimal_nonempty n Hn). assert (Es : span (decimal n +:+ f +:+ "s") = (decimal n, f +:+ "s")) by (by apply span_decimal).
  change ("m" +:+ ?x) with (String "m" x). destruct (decimal n) as [|c r] eqn:E; [done|]. rewrite app_cons_str in Es |- *.
  assert (Hr : read_minutes m (String "m" (String c (r +:+ f +:+ "s"))) = let '(a, r) := span (String c (r +:+ f +:+ "s")) in (m * 60 * second + read_unit (number a) r)%Z).
  { cbn [all_bytes] in Hd. apply andb_true_iff in Hd as [Hc _]. destruct (Ascii.eqb_spec c "s") as [->|Hs]; [done|].
    destruct c as [[] [] [] [] [] [] [] []]; first [reflexivity|by destruct Hs]. }
  rewrite Hr, Es, <- E, number_decimal, H1 by done. lia.
Qed.

(** [time.Duration.String] loses nothing. *)
Lemma read_Duration_String d : read_duration (Duration_String d) = d.
Proof.
  unfold Duration_String. set (u := Z.abs d). set (text := if (u <? second)%Z then _ else _).
  assert (Hu : (0 <= u)%Z) by (subst u; lia). assert (Ht : read_magnitude text = u /\ exists c r, text = String c r /\ isDigit c = true).
  { assert (Hhead : forall n r, (0 <= n)%Z -> exists c r', decimal n +:+ r = String c r' /\ isDigit c = true).
    { intros n r Hn. pose proof (decimal_nonempty n Hn). pose proof (decimal_digits n Hn) as Hd. destruct (decimal n) as [|c r0]; [done|]. cbn in Hd.
      apply andb_true_iff in Hd as [Hd _]. by exists c, (r0 +:+ r). }
    subst text. destruct (Z.ltb_spec u second).
    - destruct (Z.eqb_spec u 0) as [->|Hz]; [by split; [|exists "0"%char, "s"]|]. destruct (Z.ltb_spec u 1000).
      { split; [|apply Hhead; lia]. by rewrite read_magnitude_minutes. }
      destruct (Z.ltb_spec u millisecond).
      + pose proof (frac_read 3 u Hu) as Hf. destruct (frac_digits 3 u false "") as [f q]. destruct Hf as (Hq & t & Hf & Hd & E).
        split; [|apply Hhead; lia]. destruct (read_seconds q f t Hq Hf Hd) as (_ & _ & ->). exact E.
      + pose proof (frac_read 6 u Hu) as Hf. destruct (frac_digits 6 u false "") as [f q]. destruct Hf as (Hq & t & Hf & Hd & E).
        split; [|apply Hhead; lia]. destruct (read_seconds q f t Hq Hf Hd) as (_ & -> & _). exact E.
    - pose proof (frac_read 9 u Hu) as Hf. destruct (frac_digits 9 u false "") as [f q]. destruct Hf as (Hq & t & Hf & Hd & E).
      assert (E' : (q * second + places 9 t)%Z = u) by exact E. clear E.
      pose proof (Z.mod_pos_bound q 60 ltac:(lia)). pose proof (Z.div_pos q 60 Hq ltac:(lia)). pose proof (Z.div_mod q 60 ltac:(lia)).
      destruct (Z.eqb_spec (q / 60) 0) as [Em|Em].
      { split; [|apply Hhead; lia]. destruct (read_seconds (q mod 60) f t ltac:(lia) Hf Hd) as (-> & _). rewrite <- E'. replace (q mod 60)%Z with q by lia. done. }
      pose proof (Z.mod_pos_bound (q / 60) 60 ltac:(lia)). pose proof (Z.div_pos (q / 60) 60 ltac:(lia) ltac:(lia)). pose proof (Z.div_mod (q / 60) 60 ltac:(lia)).
      pose proof (fun m Hm => read_after_minutes m (q mod 60) f t Hm ltac:(lia) Hf Hd) as Hmin.
      destruct (Z.eqb_spec (q / 60 / 60) 0) as [Eh|Eh].
      + change ("" +:+ ?x) with x. split; [|apply Hhead; lia]. rewrite read_magnitude_minutes, Hmin by (lia || done). rewrite <- E'. unfold second in *. lia.
      + rewrite !app_assoc_str. split; [|apply Hhead; lia]. unfold read_magnitude. rewrite span_decimal by (lia || done).
        change ("h" +:+ ?x) with (String "h" x). cbv iota. rewrite span_decimal, !number_decimal, Hmin by (lia || done). rewrite <- E'. unfold second in *. lia. }
  destruct Ht as [Ht (c & r & E & Hc)]. destruct (Z.ltb_spec d 0).
  - change ("-" +:+ text) with (String "-" text). cbn [read_duration]. rewrite Ht. subst u. lia.
  - rewrite E in Ht |- *. assert (Er : read_duration (String c r) = read_magnitude (String c r)).
    { destruct (Ascii.eqb_spec c "-") as [->|Hn]; [done|]. destruct c as [[] [] [] [] [] [] [] []]; first [reflexivity|by destruct Hn]. }
    rewrite Er, Ht. subst u. lia.
Qed.
Lemma Duration_String_inj a b : Duration_String a = Duration_String b -> a = b.
Proof. intros E. rewrite <- (read_Duration_String a), E. apply read_Duration_String. Qed.

(** ** The framing is injective *)

Lemma be_bytes_length n z : String.length (be_bytes n z) = n.
Proof. revert z; induction n as [|n IH]; intros z; [done|]. cbn [be_bytes]. rewrite length_app_str, IH. simpl. lia. Qed.

Lemma app_inj_length a b c d : String.length a = String.length c -> a +:+ b = c +:+ d -> a = c /\ b = d.
Proof.
  revert c; induction a as [|x a IH]; intros [|y c]; try discriminate; [done|]. intros [= Hl] [= -> E].
  by destruct (IH c Hl E) as [-> ->].
Qed.

Lemma be_bytes_inj n a b : (0 <= a < 256 ^ Z.of_nat n)%Z -> (0 <= b < 256 ^ Z.of_nat n)%Z -> be_bytes n a = be_bytes n b -> a = b.
Proof.
  revert a b; induction n as [|n IH]; intros a b Ha Hb; [simpl in *; lia|]. cbn [be_bytes]. intros E.
  apply app_inj_length in E as [E1 E2]; [|by rewrite !be_bytes_length]. injection E2 as E2.
  rewrite Nat2Z.inj_succ, Z.pow_succ_r in Ha, Hb by lia.
  apply IH in E1; [|split; [apply Z.div_pos|apply Z.div_lt_upper_bound]; lia..].
  apply (f_equal N_of_ascii) in E2. rewrite !N_ascii_embedding in E2 by (apply N2Z.inj_lt; rewrite Z2N.id; [apply Z.mod_pos_bound|apply Z.mod_pos_bound]; lia).
  apply Z2N.inj in E2; [|apply Z.mod_pos_bound; lia..].
  rewrite (Z.div_mod a 256), (Z.div_mod b 256) by lia. lia.
Qed.

Definition fits (v : string) : Prop := (Z.of_nat (String.length v) < 2 ^ 64)%Z.

Lemma frame_nonempty v rest : frame v +:+ rest <> "".
Proof.
  intros E. apply (f_equal String.length) in E. unfold frame in E. rewrite !length_app_str, be_bytes_length in E. simpl in E. lia.
Qed.

Lemma writeMaterial_inj l k : Forall fits l -> Forall fits k -> writeMaterial l = writeMaterial k -> l = k.
Proof.
  intros Hl. revert k; induction Hl as [|v l Hv _ IH]; intros k Hk E; destruct Hk as [|w k Hw Hk]; [done|..].
  - by apply eq_sym, frame_nonempty in E.
  - by apply frame_nonempty in E.
  - cbn in E. unfold frame in E. rewrite !app_assoc_str in E. apply app_inj_length in E as [E1 E2]; [|by rewrite !be_bytes_length].
    apply be_bytes_inj in E1; [|unfold fits in *; simpl; lia..]. apply app_inj_length in E2 as [-> E2]; [|lia]. f_equal. by apply IH.
Qed.

(** ** What a fingerprint pins *)

(** A built connection has the configuration of its kind and no other. *)
Definition shaped (c : Conn) : Prop :=
  match c_HTTP c, c_Docker c with
  | Some _, None => c_Kind c = KindHTTP
  | None, Some _ => c_Kind c = KindDocker
  | _, _ => False
  end.

Lemma buildConnection_shaped reg id cfg rs reg' c : buildConnection reg id cfg rs = (reg', Ok c) -> shaped c.
Proof.
  unfold buildConnection. destruct (String.eqb _ _).
  - destruct (HTTP cfg) as [h|]; [|done]. destruct (buildHTTPConfig reg id h rs) as [r [hc|e]]; [|done]. by intros [= <- <-].
  - destruct (String.eqb _ _); [|done]. destruct (Docker cfg) as [d|]; [|done]. destruct (buildDockerConfig id d); [|done]. by intros [= <- <-].
Qed.

(** Header names and allowed paths cannot be taken for one another. *)
Definition distinct_parts (c : Conn) : Prop :=
  match c_HTTP c with
  | Some h => (forall k, is_Some (h_Headers h !! k) -> HasPrefix k "/" = false)
              /\ Forall (fun p => HasPrefix p "/" = true) (h_AllowedPaths h)
  | None => True
  end.

(** What of a configuration a fingerprint stands for, field by field; rates count as they print. *)
Record same_http (fmt_float : Float64 -> string) (h h' : HTTPConfig) : Prop := {
  sh_endpoint : h_BaseURL h = h_BaseURL h';
  sh_scheme : au_Type (h_Auth h) = au_Type (h_Auth h') /\ au_Name (h_Auth h) = au_Name (h_Auth h') /\ au_User (h_Auth h) = au_User (h_Auth h');
  sh_secrets : Reveal (au_Value (h_Auth h)) = Reveal (au_Value (h_Auth h')) /\ Reveal (au_Pass (h_Auth h)) = Reveal (au_Pass (h_Auth h'));
  sh_tls : h_TLS h = h_TLS h';
  sh_timeout : h_Timeout h = h_Timeout h';
  sh_limits : h_MaxResponseBytes h = h_MaxResponseBytes h' /\ h_MaxRedirects h = h_MaxRedirects h' /\ h_Concurrency h = h_Concurrency h';
  sh_rate : fmt_float (rl_RPS (h_RateLimit h)) = fmt_float (rl_RPS (h_RateLimit h')) /\ rl_Burst (h_RateLimit h) = rl_Burst (h_RateLimit h');
  sh_headers : Reveal <$> h_Headers h = Reveal <$> h_Headers h';
  sh_paths : h_AllowedPaths h ≡ₚ h_AllowedPaths h' }.

Definition same_material (fmt_float : Float64 -> string) (c c' : Conn) : Prop :=
  c_Kind c = c_Kind c' /\
  match c_HTTP c, c_HTTP c' with
  | Some h, Some h' => same_http fmt_float h h'
  | None, None => c_Docker c = c_Docker c'
  | _, _ => False
  end.

Definition pair_texts (p : string * string) : list string := [p.1; p.2].

Lemma pairs_split (l l' : list (string * string)) p p' :
  Forall (fun q => HasPrefix q.1 "/" = false) l -> Forall (fun q => HasPrefix q.1 "/" = false) l' ->
  Forall (fun q => HasPrefix q "/" = true) p -> Forall (fun q => HasPrefix q "/" = true) p' ->
  concat (map pair_texts l) ++ p = concat (map pair_texts l') ++ p' -> l = l' /\ p = p'.
Proof.
  intros Hl. revert l'. induction Hl as [|[k v] l Hk _ IH]; intros l' Hl' Hp Hp' E; destruct Hl' as [|[k' v'] l' Hk' Hl']; simpl in E.
  - done.
  - subst p. apply Forall_cons in Hp as [Hp _]. simpl in *. congruence.
  - subst p'. apply Forall_cons in Hp' as [Hp' _]. simpl in *. congruence.
  - injection E as -> -> E. by destruct (IH l' Hl' Hp Hp' E) as [-> ->].
Qed.

Definition header_pairs (h : gmap string Value) : list (string * string) :=
  map (fun k => (k, match h !! k with Some v => Reveal v | None => "" end)) (sort_strings (map fst (map_to_list h))).

Lemma header_material_pairs h : header_material h = concat (map pair_texts (header_pairs h)).
Proof. unfold header_material, header_pairs. by rewrite map_map. Qed.

Lemma header_key (h : gmap string Value) k : k ∈ sort_strings (map fst (map_to_list h)) <-> is_Some (h !! k).
Proof.
  rewrite sort_strings_perm. split.
  - intros ([k' v] & -> & Hin)%list_elem_of_fmap. exists v. by apply elem_of_map_to_list in Hin.
  - intros [v Hv]. apply list_elem_of_fmap. exists (k, v). by rewrite elem_of_map_to_list.
Qed.

Lemma header_pairs_lookup h k : (list_to_map (header_pairs h) : gmap string string) !! k = Reveal <$> h !! k.
Proof.
  unfold header_pairs. assert (Hn : NoDup (sort_strings (map fst (map_to_list h)))) by (rewrite sort_strings_perm; apply NoDup_fst_map_to_list).
  set (f := fun k => (k, match h !! k with Some v => Reveal v | None => "" end)).
  destruct (h !! k) as [v|] eqn:E; simpl.
  - apply elem_of_list_to_map_1.
    + unfold f. rewrite <- list_fmap_compose. rewrite (list_fmap_ext _ id), list_fmap_id; [done|]. by intros ? ? ?.
    + apply list_elem_of_fmap. exists k. unfold f. rewrite E. split; [done|]. apply header_key. by exists v.
  - apply not_elem_of_list_to_map_1. intros ([k' w] & -> & (k'' & [= -> _] & Hin)%list_elem_of_fmap)%list_elem_of_fmap.
    apply header_key in Hin as [v Hv]. simpl in E. by rewrite E in Hv.
Qed.

Lemma header_pairs_inj h h' : header_pairs h = header_pairs h' <-> Reveal <$> h = Reveal <$> h'.
Proof.
  split.
  - intros E. apply map_eq. intros k. rewrite !lookup_fmap, <- !header_pairs_lookup. by rewrite E.
  - intros E. assert (Ek : forall k, Reveal <$> h !! k = Reveal <$> h' !! k) by (intros k; rewrite <- !lookup_fmap; by rewrite E).
    unfold header_pairs. assert (Es : sort_strings (map fst (map_to_list h)) = sort_strings (map fst (map_to_list h'))).
    { apply sort_strings_ext. apply NoDup_Permutation; [apply NoDup_fst_map_to_list..|]. intros k.
      rewrite <- (sort_strings_perm (map fst (map_to_list h))), <- (sort_strings_perm (map fst (map_to_list h'))), !header_key, <- !(fmap_is_Some Reveal).
      by rewrite Ek. }
    rewrite Es. apply map_ext. intros k. specialize (Ek k). destruct (h !! k), (h' !! k); simpl in *; congruence.
Qed.

Lemma fmt_bool_inj a b : fmt_bool a = fmt_bool b -> a = b.
Proof. by destruct a, b. Qed.

Lemma http_material_same fmt_float h h' :
  same_http fmt_float h h' <-> http_material fmt_float h = http_material fmt_float h' /\ Reveal <$> h_Headers h = Reveal <$> h_Headers h' /\ h_AllowedPaths h ≡ₚ h_AllowedPaths h'.
Proof.
  split.
  - intros [E1 (E2 & E3 & E4) (E5 & E6) E7 E8 (E9 & E10 & E11) (E12 & E13) E14 E15]. split; [|done]. unfold http_material.
    by rewrite E1, E2, E3, E4, E5, E6, E7, E8, E9, E10, E11, E12, E13.
  - intros ([= E1 E2 E3 E4 E5 E6 E7 E8 E9%fmt_bool_inj E10%Duration_String_inj E11%decimal_inj E12%decimal_inj E13 E14%decimal_inj E15%decimal_inj] & Eh & Ep).
    constructor; try done. destruct (h_TLS h), (h_TLS h'). cbn in *. congruence.
Qed.

(** The list of what is written, and what it says. *)
Lemma material_same fmt_float id c c' : shaped c -> shaped c' -> distinct_parts c -> distinct_parts c' ->
  connection_material fmt_float id c = connection_material fmt_float id c' <-> same_material fmt_float c c'.
Proof.
  unfold shaped, distinct_parts, same_material, connection_material. intros Hs Hs' Hd Hd'.
  destruct (c_HTTP c) as [h|], (c_HTTP c') as [h'|].
  - destruct (c_Docker c), (c_Docker c'); try done. rewrite !header_material_pairs. destruct Hd as [Hk Hp], Hd' as [Hk' Hp'].
    assert (Hkeys : forall g, (forall k, is_Some (h_Headers g !! k) -> HasPrefix k "/" = false) -> Forall (fun q => HasPrefix q.1 "/" = false) (header_pairs (h_Headers g))).
    { intros g Hg. apply Forall_map, Forall_forall. intros k Hin. apply Hg. by apply header_key. }
    split.
    + intros [Ei E]%app_inj_1; [|done]. injection Ei as Ek. apply app_inj_1 in E as [Em E]; [|done].
      apply pairs_split in E as [E Ep]; [|by apply Hkeys|by apply Hkeys|unfold path_material; by rewrite sort_strings_perm|unfold path_material; by rewrite sort_strings_perm].
      apply header_pairs_inj in E. split; [done|]. apply http_material_same. split_and!; try done. by apply sort_strings_ext.
    + intros (Ek & (E & Eh%header_pairs_inj & Ep%sort_strings_ext)%http_material_same). unfold path_material. rewrite Ek, E, Eh, Ep. reflexivity.
  - destruct (c_Docker c), (c_Docker c'); try done. split; [intros [= E]; exfalso; rewrite Hs, Hs' in E; discriminate E|intros [_ []]].
  - destruct (c_Docker c), (c_Docker c'); try done. split; [intros [= E]; exfalso; rewrite Hs, Hs' in E; discriminate E|intros [_ []]].
  - destruct (c_Docker c) as [d|], (c_Docker c') as [d'|]; try done. cbn. split.
    + intros [= Ek Ee Ea%fmt_bool_inj Et%Duration_String_inj]. split; [done|]. destruct d, d'. cbn in *. congruence.
    + intros (-> & [= ->]). done.
Qed.

(** Every fingerprint of the map is that of the connection its configuration builds. *)
Lemma material_loop_lookup fmt_float hmac key rs l : forall reg out reg' out',
  material_loop fmt_float hmac reg l rs key out = (reg', Ok out') -> forall id m, out' !! id = Some m ->
  out !! id = Some m \/ exists r r' cfg c, (id, cfg) ∈ l /\ buildConnection r id cfg rs = (r', Ok c) /\ m = connection_hmac fmt_float hmac key id c.
Proof.
  induction l as [|[id0 cfg] l IH]; intros reg out reg' out' E id m Hm; cbn in E; [injection E as _ ->; by left|].
  destruct (buildConnection reg id0 cfg rs) as [r [c|e]] eqn:Eb; [|done].
  destruct (IH _ _ _ _ E id m Hm) as [Hin|(r1 & r2 & cfg' & c' & Hin & H)].
  - destruct (decide (id0 = id)) as [->|Hne].
    + rewrite lookup_insert_eq in Hin. injection Hin as <-. right. exists reg, r, cfg, c. split; [by left|done].
    + rewrite lookup_insert_ne in Hin by done. by left.
  - right. exists r1, r2, cfg', c'. split; [by right|done].
Qed.

(** ** A connection, and the same with another secret *)

Definition sample_hash (key text : string) : string := key +:+ text.
Definition sample_fmt (f : Float64) : string := "0".
Definition sample_build (secret : string) : Registry * res build_error Conn :=
  buildConnection NewRegistry "nas" (sample_connection None (secret_ref_of "${secret:KEY}")) {["KEY" := {| resolved := secret |}]}.

(** A header whose name is a path and an allowed path that is another's value are told apart from
    nothing: neither list is counted. *)
Example uncounted_lists :
  let http h p := {| h_BaseURL := ""; h_Auth := {| au_Type := ""; au_Name := ""; au_Value := {| resolved := "" |}; au_User := ""; au_Pass := {| resolved := "" |} |};
    h_Headers := h; h_TLS := {| tls_Insecure := false; tls_CAFile := ""; tls_ServerName := "" |}; h_Timeout := 0; h_MaxResponseBytes := 0;
    h_MaxRedirects := 0; h_AllowedPaths := p; h_RateLimit := {| rl_RPS := GoTime.float_of 0; rl_Burst := 0 |}; h_Concurrency := 0 |} in
  let conn h p := {| c_ID := "n"; c_Kind := "http"; c_HTTP := Some (http h p); c_Docker := None |} in
  connection_material sample_fmt "n" (conn {["/a" := {| resolved := "/b" |}]} []) = connection_material sample_fmt "n" (conn ∅ ["/a"; "/b"]).
Proof. by vm_compute. Qed.

(** ** The properties *)

(** C40. The fingerprint of a connection changes exactly when what it is built from does: for a keyed hash
    without collisions, two connections built under one name have one fingerprint if and only if they
    have the same kind and the same endpoint, credentials, TLS, limits and timeouts, the same static
    headers with the same values and the same allowed paths in any order (or the same Docker
    endpoint, permission and timeout), as long as every allowed path begins with a slash and no header's name does (and
    no part is 2^64 bytes long, as none is). *)
Theorem fingerprint_exact fmt_float hmac key id r1 cfg rs r1' c r2 cfg' rs' r2' c'
  (Hcf : forall a b, hmac key a = hmac key b -> a = b)
  (Hc : buildConnection r1 id cfg rs = (r1', Ok c)) (Hc' : buildConnection r2 id cfg' rs' = (r2', Ok c'))
  (Hd : distinct_parts c) (Hd' : distinct_parts c')
  (Hf : Forall fits (connection_material fmt_float id c)) (Hf' : Forall fits (connection_material fmt_float id c')) :
  connection_hmac fmt_float hmac key id c = connection_hmac fmt_float hmac key id c' <-> same_material fmt_float c c'.
Proof.
  rewrite <- (material_same fmt_float id) by eauto using buildConnection_shaped. unfold connection_hmac. split.
  - intros E%Hcf. by apply writeMaterial_inj.
  - by intros ->.
Qed.

(** Another secret, another fingerprint. *)
Example fingerprint_exact_witness :
  exists r c r' c', sample_build "old" = (r, Ok c) /\ sample_build "new" = (r', Ok c')
    /\ connection_hmac sample_fmt sample_hash "k" "nas" c <> connection_hmac sample_fmt sample_hash "k" "nas" c'.
Proof.
  destruct (sample_build "old") as [r [c|]] eqn:E; [|discriminate E]. destruct (sample_build "new") as [r' [c'|]] eqn:E'; [|discriminate E'].
  exists r, c, r', c'. split; [done|]. split; [done|]. intros Hm.
  assert (Hs : same_material sample_fmt c c').
  { refine (proj1 (fingerprint_exact sample_fmt sample_hash "k" "nas" _ _ _ r c _ _ _ r' c' _ E E' _ _ _ _) Hm).
    - intros a b H. exact (app_inj_l "k" a b H).
    - clear -E. injection E as _ <-. split; [intros k [v Hv]; discriminate Hv|constructor].
    - clear -E'. injection E' as _ <-. split; [intros k [v Hv]; discriminate Hv|constructor].
    - clear -E. injection E as _ <-. repeat constructor.
    - clear -E'. injection E' as _ <-. repeat constructor. }
  clear Hm. injection E as _ <-. injection E' as _ <-. destruct Hs as [_ [_ _ [Hs _] _ _ _ _ _ _]]. discriminate Hs.
Defined.
