(* ===== verification/Grant.v ===== *)
(** * internal/capabilities: grants, authorisation, budgets and header filtering

    A grant carries three independent route policies (manifest, lock, connection); [Authorize]
    compares one request against each. mime.ParseMediaType and mime.FormatMediaType are arguments
    of the functions that normalise content types. *)
From S2P Require Import Prelude GoAny RoutePath Config Secrets Connections HttpClient.

(** ** types.go *)

Definition UseData : string := "data".
Definition UseAsset : string := "asset".

(** [QueryKeys]: [None] is nil (any key), [Some []] is "no query parameters". *)
Record Route := {
  rt_Slot : string; rt_Method : string; rt_Path : string; rt_Use : string;
  rt_QueryKeys : option (list string); rt_ContentType : string; rt_MaxBodyKB : Z }.

Abbreviation CapSet := (gset string) (only parsing).
Definition Has (c : CapSet) (cap : string) : bool := bool_decide (cap ∈ c).
Definition NewCapSet (caps : list string) : CapSet := list_to_set caps.

Record ConnectionPolicy := { cp_AllowedPaths : list string }.

Record Limits := {
  HTTPRequests : Z; ResponseMB : Z; CacheEntries : Z; CacheBytesKB : Z; HostCalls : Z; RequestBodyKB : Z }.

Record ExecutionIdentity := {
  SnapshotGen : Z; CardHash : string; ManifestDigest : string; ApprovalRevision : string;
  SlotRevisions : gmap string string }.

Record Transform := { tf_Width : Z; tf_Format : string }.
Record Event := { ev_Type : string; ev_Data : list (string * any) }.

(** ** grant.go *)

(** The counters a grant's pointer shares; they are threaded through the operations. *)
Record budgetState := {
  hostCallsUsed : Z; httpRequestsUsed : Z; cacheEntriesUsed : Z; cacheBytesKBUsed : Z }.

Definition freshBudget : budgetState :=
  {| hostCallsUsed := 0; httpRequestsUsed := 0; cacheEntriesUsed := 0; cacheBytesKBUsed := 0 |}.

Record Grant := {
  PluginID : string; g_Version : string; InstanceID : string; Slots : gmap string string; Caps : CapSet;
  ManifestRoutes : list Route; ApprovedRoutes : list Route; g_ConnectionPolicy : gmap string ConnectionPolicy;
  g_Limits : Limits; Ident : ExecutionIdentity }.

(** The counters of a new grant, and of a fresh copy of one, are unconsumed. *)
Definition NewGrant (pluginID version instanceID : string) (slots : gmap string string) (caps : CapSet)
  (manifestRoutes approvedRoutes : list Route) (connectionPolicy : gmap string ConnectionPolicy)
  (limits : Limits) (ident : ExecutionIdentity) : Grant * budgetState :=
  ({| PluginID := pluginID; g_Version := version; InstanceID := instanceID; Slots := slots; Caps := caps;
      ManifestRoutes := manifestRoutes; ApprovedRoutes := approvedRoutes; g_ConnectionPolicy := connectionPolicy;
      g_Limits := limits; Ident := ident |}, freshBudget).

Definition Fresh (g : Grant) : Grant * budgetState := (g, freshBudget).

(** ** errors.go *)

Inductive cap_error :=
| ErrCapDenied
| ErrSlotDenied
| RoutePathRefused (e : path_error)
| NoManifestRoute
| NoApprovedRoute
| ConnectionForbids
| ErrBudgetExceeded.

(** ** request.go *)

Record HTTPRequest := {
  hq_Slot : string; hq_Method : string; hq_Path : string; hq_Query : gmap string string;
  hq_Header : gmap string string; hq_Body : option string; hq_BodyLen : Z }.

Definition bodyLen (r : HTTPRequest) : Z :=
  if negb (hq_BodyLen r =? 0)%Z then hq_BodyLen r
  else match hq_Body r with Some b => Z.of_nat (String.length b) | None => 0%Z end.

(** ** authorize.go *)

Definition coreDefaultBodyKB : Z := 64.

Definition routeMatchesSlotMethodAndPath (route : Route) (slot method canonicalPath use : string) : bool :=
  if negb (String.eqb (rt_Slot route) slot) || negb (String.eqb (rt_Use route) use)
     || negb (String.eqb (rt_Method route) method)
  then false
  else match Canonicalise (rt_Path route) with
       | Err _ => false
       | Ok routePattern => Match routePattern canonicalPath
       end.

Definition queryKeysAllowed (allowed : option (list string)) (query : gmap string string) : bool :=
  match allowed with
  | None => true
  | Some l => forallb (fun p => existsb (String.eqb p.1) l) (map_to_list query)
  end.

Definition bodySizeAllowed (routeMaxKB manifestRequestBodyKB bodyLen : Z) : bool :=
  if (bodyLen <? 0)%Z then false
  else
    let effectiveKB := if (manifestRequestBodyKB <=? 0)%Z then coreDefaultBodyKB else manifestRequestBodyKB in
    let effectiveKB := if ((0 <? routeMaxKB) && (routeMaxKB <? effectiveKB))%Z then routeMaxKB else effectiveKB in
    (bodyLen <=? effectiveKB * 1024)%Z.

Definition connectionAllows (policy : ConnectionPolicy) (canonicalPath : string) : bool :=
  Nat.eqb (length (cp_AllowedPaths policy)) 0 || existsb (path_admits canonicalPath) (cp_AllowedPaths policy).

Section Authorize.
(** [mime.ParseMediaType] and [mime.FormatMediaType] *)
Variable ParseMediaType : string -> option (string * gmap string string).
Variable FormatMediaType : string -> gmap string string -> string.

Definition normaliseMediaType (v : string) : option string :=
  match ParseMediaType v with
  | None => None
  | Some (mt, params) =>
      let params := match params !! "charset" with
                    | Some cs => <["charset" := ToLower cs]> params
                    | None => params
                    end in
      let out := FormatMediaType (ToLower mt) params in
      if String.eqb out "" then None else Some out
  end.

Definition contentTypeAllowed (declared : string) (header : gmap string string) : bool :=
  if String.eqb declared "" then true
  else match normaliseMediaType (default "" (header !! "Content-Type")) with
       | None => false
       | Some got => match normaliseMediaType declared with
                     | None => false
                     | Some want => String.eqb got want
                     end
       end.

(** The body of the loop of [anyRouteAllows]. *)
Definition routeAllows (req : HTTPRequest) (canonicalPath use : string) (manifestRequestBodyKB : Z) (route : Route) : bool :=
  routeMatchesSlotMethodAndPath route (hq_Slot req) (hq_Method req) canonicalPath use
  && queryKeysAllowed (rt_QueryKeys route) (hq_Query req)
  && contentTypeAllowed (rt_ContentType route) (hq_Header req)
  && bodySizeAllowed (rt_MaxBodyKB route) manifestRequestBodyKB (bodyLen req).

Definition anyRouteAllows (routes : list Route) (req : HTTPRequest) (canonicalPath use : string)
  (manifestRequestBodyKB : Z) : bool :=
  existsb (routeAllows req canonicalPath use manifestRequestBodyKB) routes.

(** [Grant.Authorize]: [None] is a nil error. *)
Definition Authorize (g : Grant) (req : HTTPRequest) (use : string) : option cap_error :=
  match Canonicalise (hq_Path req) with
  | Err e => Some (RoutePathRefused e)
  | Ok canonicalPath =>
      if negb (anyRouteAllows (ManifestRoutes g) req canonicalPath use (RequestBodyKB (g_Limits g)))
      then Some NoManifestRoute
      else if negb (anyRouteAllows (ApprovedRoutes g) req canonicalPath use (RequestBodyKB (g_Limits g)))
      then Some NoApprovedRoute
      else match g_ConnectionPolicy g !! hq_Slot req with
           | Some policy => if connectionAllows policy canonicalPath then None else Some ConnectionForbids
           | None => None
           end
  end.
End Authorize.

(** ** budget.go: [None] is [ErrBudgetExceeded] *)

Definition consumeHostCall (l : Limits) (b : budgetState) : option budgetState :=
  if ((0 <? HostCalls l) && (HostCalls l <=? hostCallsUsed b))%Z then None
  else Some {| hostCallsUsed := hostCallsUsed b + 1; httpRequestsUsed := httpRequestsUsed b;
               cacheEntriesUsed := cacheEntriesUsed b; cacheBytesKBUsed := cacheBytesKBUsed b |}.

Definition consumeHTTPRequest (l : Limits) (b : budgetState) : option budgetState :=
  if ((0 <? HTTPRequests l) && (HTTPRequests l <=? httpRequestsUsed b))%Z then None
  else Some {| hostCallsUsed := hostCallsUsed b; httpRequestsUsed := httpRequestsUsed b + 1;
               cacheEntriesUsed := cacheEntriesUsed b; cacheBytesKBUsed := cacheBytesKBUsed b |}.

Definition consumeCacheWrite (l : Limits) (b : budgetState) (valueBytes : Z) : option budgetState :=
  if ((0 <? CacheEntries l) && (CacheEntries l <=? cacheEntriesUsed b))%Z then None
  else
    let kb := Z.quot (valueBytes + 1023) 1024 in
    if ((0 <? CacheBytesKB l) && (CacheBytesKB l <? cacheBytesKBUsed b + kb))%Z then None
    else Some {| hostCallsUsed := hostCallsUsed b; httpRequestsUsed := httpRequestsUsed b;
                 cacheEntriesUsed := cacheEntriesUsed b + 1; cacheBytesKBUsed := cacheBytesKBUsed b + kb |}.

(** ** headers.go *)

Definition pluginHeaderAllowlist : gset string :=
  list_to_set ["Accept"; "Accept-Language"; "Content-Type"; "If-None-Match"; "If-Modified-Since"; "Range"].
Definition alwaysStrippedHeaders : gset string :=
  list_to_set ["Host"; "Content-Length"; "Transfer-Encoding"; "Connection"; "Upgrade"].

Record connectionOwnership := { co_headers : gset string; co_queryKeys : gset string }.

Definition newConnectionOwnership (authType authName : string) (staticHeaderNames : list string) : connectionOwnership :=
  let headers : gset string := list_to_set (map ToLower staticHeaderNames) in
  if String.eqb authType "header" then
    {| co_headers := if String.eqb authName "" then headers else {[ToLower authName]} ∪ headers; co_queryKeys := ∅ |}
  else if String.eqb authType "query" then
    {| co_headers := headers; co_queryKeys := if String.eqb authName "" then ∅ else {[authName]} |}
  else {| co_headers := headers; co_queryKeys := ∅ |}.

Definition header_cases : list (string * string) :=
  [("accept", "Accept"); ("accept-language", "Accept-Language"); ("content-type", "Content-Type");
   ("if-none-match", "If-None-Match"); ("if-modified-since", "If-Modified-Since"); ("range", "Range");
   ("host", "Host"); ("content-length", "Content-Length"); ("transfer-encoding", "Transfer-Encoding");
   ("connection", "Connection"); ("upgrade", "Upgrade")].

Definition canonicalHeaderCase (lower : string) : string :=
  match List.find (fun p => String.eqb p.1 lower) header_cases with Some p => p.2 | None => "" end.

(** The body of the loop of [filterHeaders]. *)
Definition keeps_header (owned : connectionOwnership) (name : string) : bool :=
  let lower := ToLower name in
  negb (bool_decide (canonicalHeaderCase lower ∈ alwaysStrippedHeaders))
  && negb (bool_decide (lower ∈ co_headers owned))
  && bool_decide (canonicalHeaderCase lower ∈ pluginHeaderAllowlist).

Definition filterHeaders (hs : gmap string string) (owned : connectionOwnership) : gmap string string :=
  filter (fun p => keeps_header owned p.1 = true) hs.

Definition filterQuery (q : gmap string string) (owned : connectionOwnership) : gmap string string :=
  filter (fun p => p.1 ∉ co_queryKeys owned) q.

(** ** Specification of a permitted request *)

(** The effective body ceiling, in bytes. *)
Definition body_ceiling (routeMaxKB manifestKB : Z) : Z :=
  let m := (if manifestKB <=? 0 then coreDefaultBodyKB else manifestKB)%Z in
  (1024 * if (0 <? routeMaxKB)%Z then Z.min routeMaxKB m else m)%Z.

Section Spec.
Variable ParseMediaType : string -> option (string * gmap string string).
Variable FormatMediaType : string -> gmap string string -> string.

(** One route permits the request: the whole tuple (slot, use, method, path glob, query keys,
    content type, body size) is satisfied. *)
Record permits (kb : Z) (route : Route) (req : HTTPRequest) (path use : string) : Prop := {
  pm_slot : rt_Slot route = hq_Slot req;
  pm_use : rt_Use route = use;
  pm_method : rt_Method route = hq_Method req;
  pm_path : exists pat, Canonicalise (rt_Path route) = Ok pat
    /\ Forall2 glob (Split slash (TrimPrefix pat "/")) (Split slash (TrimPrefix path "/"));
  pm_query : forall keys, rt_QueryKeys route = Some keys -> forall k, is_Some (hq_Query req !! k) -> k ∈ keys;
  pm_content : rt_ContentType route <> "" -> exists t,
    normaliseMediaType ParseMediaType FormatMediaType (default "" (hq_Header req !! "Content-Type")) = Some t
    /\ normaliseMediaType ParseMediaType FormatMediaType (rt_ContentType route) = Some t;
  pm_body : (0 <= bodyLen req <= body_ceiling (rt_MaxBodyKB route) kb)%Z }.

(** ** Lemmas *)

Lemma queryKeysAllowed_spec keys q :
  queryKeysAllowed keys q = true <->
  forall l, keys = Some l -> forall k, is_Some (q !! k) -> k ∈ l.
Proof.
  unfold queryKeysAllowed. destruct keys as [l|]; [|naive_solver].
  rewrite forallb_forall. split.
  - intros H l' [= <-] k [v Hk]. apply elem_of_map_to_list, list_elem_of_In in Hk.
    apply H in Hk. simpl in Hk. apply existsb_elem in Hk as (x & Hx & ->%String.eqb_eq). done.
  - intros H [k v] Hin%list_elem_of_In%elem_of_map_to_list. simpl.
    apply existsb_elem. exists k. split; [by eapply H|by apply String.eqb_eq].
Qed.

Lemma bodySizeAllowed_spec rk mk n :
  bodySizeAllowed rk mk n = true <-> (0 <= n <= body_ceiling rk mk)%Z.
Proof.
  unfold bodySizeAllowed, body_ceiling. cbv zeta. destruct (Z.ltb_spec n 0); [split; [done|lia]|].
  destruct (Z.leb_spec mk 0), (Z.ltb_spec 0 rk); cbn [andb];
    try (destruct (Z.ltb_spec rk coreDefaultBodyKB)); try (destruct (Z.ltb_spec rk mk));
    rewrite Z.leb_le; lia.
Qed.

Lemma contentTypeAllowed_spec declared h :
  contentTypeAllowed ParseMediaType FormatMediaType declared h = true <->
  (declared <> "" -> exists t,
    normaliseMediaType ParseMediaType FormatMediaType (default "" (h !! "Content-Type")) = Some t
    /\ normaliseMediaType ParseMediaType FormatMediaType declared = Some t).
Proof.
  unfold contentTypeAllowed. destruct (String.eqb declared "") eqn:E; bool_prop; [naive_solver|].
  destruct (normaliseMediaType _ _ (default "" _)) as [t|]; [|naive_solver].
  destruct (normaliseMediaType _ _ declared) as [t'|]; [|naive_solver].
  rewrite String.eqb_eq. split; [intros ->; eauto|]. intros H. destruct (H E) as (x & [= ->] & [= ->]). done.
Qed.

Lemma routeMatches_spec route slot method path use :
  routeMatchesSlotMethodAndPath route slot method path use = true <->
  rt_Slot route = slot /\ rt_Use route = use /\ rt_Method route = method
  /\ exists pat, Canonicalise (rt_Path route) = Ok pat
     /\ Forall2 glob (Split slash (TrimPrefix pat "/")) (Split slash (TrimPrefix path "/")).
Proof.
  unfold routeMatchesSlotMethodAndPath.
  destruct (String.eqb (rt_Slot route) slot) eqn:E1; bool_prop; [|naive_solver].
  destruct (String.eqb (rt_Use route) use) eqn:E2; bool_prop; [|naive_solver].
  destruct (String.eqb (rt_Method route) method) eqn:E3; bool_prop; [|naive_solver]. simpl.
  destruct (Canonicalise (rt_Path route)) as [pat|e]; [rewrite Match_glob|]; naive_solver.
Qed.

Lemma routeAllows_spec req path use kb route :
  routeAllows ParseMediaType FormatMediaType req path use kb route = true <-> permits kb route req path use.
Proof.
  unfold routeAllows. rewrite !andb_true_iff, routeMatches_spec, queryKeysAllowed_spec,
    contentTypeAllowed_spec, bodySizeAllowed_spec. split.
  - intros [[[(H1 & H2 & H3 & H4) H5] H6] H7]. by split.
  - intros []. tauto.
Qed.

Lemma anyRouteAllows_spec routes req path use kb :
  anyRouteAllows ParseMediaType FormatMediaType routes req path use kb = true <->
  exists route, route ∈ routes /\ permits kb route req path use.
Proof.
  unfold anyRouteAllows. rewrite existsb_elem. by setoid_rewrite routeAllows_spec.
Qed.

Lemma path_admits_spec path p :
  canonical path -> path_admits path p = true <->
  exists a, Canonicalise p = Ok a /\ path_segments a `prefix_of` path_segments path.
Proof.
  intros Hp. unfold path_admits. destruct (Canonicalise p) as [a|e] eqn:E; [|naive_solver].
  rewrite HasPathPrefix_segments by (done || by eapply Canonicalise_canonical). naive_solver.
Qed.

Lemma connectionAllows_spec policy path :
  canonical path -> connectionAllows policy path = true <->
  cp_AllowedPaths policy = []
  \/ exists p a, p ∈ cp_AllowedPaths policy /\ Canonicalise p = Ok a
     /\ path_segments a `prefix_of` path_segments path.
Proof.
  intros Hp. unfold connectionAllows. rewrite orb_true_iff, existsb_elem, Nat.eqb_eq.
  setoid_rewrite path_admits_spec; [|done]. split.
  - intros [H|(p & Hin & a & Ha)]; [left; by apply nil_length_inv|right; by exists p, a].
  - intros [->|(p & a & Hin & Ha)]; [by left|right; exists p; split; [done|by exists a]].
Qed.

(** ** The three policies *)

(** What all three policies together allow. *)
Record authorised (g : Grant) (req : HTTPRequest) (use : string) : Prop := {
  az_path : exists path, Canonicalise (hq_Path req) = Ok path
    /\ (exists r, r ∈ ManifestRoutes g /\ permits (RequestBodyKB (g_Limits g)) r req path use)
    /\ (exists r, r ∈ ApprovedRoutes g /\ permits (RequestBodyKB (g_Limits g)) r req path use)
    /\ forall policy, g_ConnectionPolicy g !! hq_Slot req = Some policy ->
         cp_AllowedPaths policy = []
         \/ exists p a, p ∈ cp_AllowedPaths policy /\ Canonicalise p = Ok a
            /\ path_segments a `prefix_of` path_segments path }.

Lemma Authorize_authorised g req use :
  Authorize ParseMediaType FormatMediaType g req use = None <-> authorised g req use.
Proof.
  unfold Authorize. destruct (Canonicalise (hq_Path req)) as [path|e] eqn:Ep.
  2:{ split; [done|]. intros [(path & H & _)]. congruence. }
  assert (Hc := Canonicalise_canonical _ _ Ep).
  assert (Hpol : (match g_ConnectionPolicy g !! hq_Slot req with
                  | Some policy => if connectionAllows policy path then None else Some ConnectionForbids
                  | None => None end) = None <->
    forall policy, g_ConnectionPolicy g !! hq_Slot req = Some policy -> connectionAllows policy path = true).
  { destruct (g_ConnectionPolicy g !! hq_Slot req) as [policy|]; [|naive_solver].
    destruct (connectionAllows policy path) eqn:E.
    - split; [by intros _ ? [= <-]|done].
    - split; [done|]. intros H. specialize (H _ eq_refl). congruence. }
  assert (Hspec : authorised g req use <->
    (exists r, r ∈ ManifestRoutes g /\ permits (RequestBodyKB (g_Limits g)) r req path use)
    /\ (exists r, r ∈ ApprovedRoutes g /\ permits (RequestBodyKB (g_Limits g)) r req path use)
    /\ forall policy, g_ConnectionPolicy g !! hq_Slot req = Some policy -> connectionAllows policy path = true).
  { setoid_rewrite connectionAllows_spec; [|done]. split.
    - intros [(p & Hp & H)]. rewrite Ep in Hp. by injection Hp as <-.
    - intros H. split. by exists path. }
  rewrite Hspec, <- !anyRouteAllows_spec.
  destruct (anyRouteAllows _ _ (ManifestRoutes g) req path use _); simpl; [|by split; [|intros [? _]]].
  destruct (anyRouteAllows _ _ (ApprovedRoutes g) req path use _); simpl; [|by split; [|intros (_ & ? & _)]].
  rewrite Hpol. tauto.
Qed.
End Spec.

(** ** Lemmas on headers *)

Lemma canonicalHeaderCase_allowed lower :
  canonicalHeaderCase lower ∈ pluginHeaderAllowlist <->
  lower ∈ ["accept"; "accept-language"; "content-type"; "if-none-match"; "if-modified-since"; "range"].
Proof.
  unfold canonicalHeaderCase. split.
  - destruct (List.find _ header_cases) as [[a b]|] eqn:E.
    + apply List.find_some in E as [Hin He%String.eqb_eq]. simpl in He. subst a. simpl in Hin.
      repeat destruct Hin as [[= <- <-]|Hin]; try (intros _; set_solver); try done;
        intros H; exfalso; revert H; apply (bool_decide_unpack _); vm_compute; exact I.
    + intros H. exfalso. revert H. apply (bool_decide_unpack _). vm_compute. exact I.
  - intros H. repeat (apply elem_of_cons in H as [->|H]; [apply (bool_decide_unpack _); vm_compute; exact I|]).
    by apply not_elem_of_nil in H.
Qed.

Lemma canonicalHeaderCase_disjoint lower :
  canonicalHeaderCase lower ∈ pluginHeaderAllowlist -> canonicalHeaderCase lower ∉ alwaysStrippedHeaders.
Proof.
  intros H%canonicalHeaderCase_allowed.
  repeat (apply elem_of_cons in H as [->|H]; [apply (bool_decide_unpack _); vm_compute; exact I|]).
  by apply not_elem_of_nil in H.
Qed.

(** The names the transport injects are exactly the ones the broker treats as the connection's
    own, besides Authorization, which the allowlist never lets through. *)
Lemma ownership_agrees auth static :
  let names := map fst (map_to_list static) in
  let co := newConnectionOwnership (au_Type auth) (au_Name auth) names in
  let on := ownedNames auth static in
  on_query on = co_queryKeys co
  /\ forall h, h ∈ on_header on <-> h ∈ co_headers co
     \/ h = "authorization" /\ (au_Type auth = AuthTBearer \/ au_Type auth = AuthTBasic).
Proof.
  intros names co on. subst co on names. unfold newConnectionOwnership, ownedNames.
  rewrite map_map. unfold AuthTHeader, AuthTQuery, AuthTBearer, AuthTBasic.
  destruct (String.eqb (au_Type auth) "header") eqn:E1; bool_prop.
  { rewrite E1. destruct (String.eqb (au_Name auth) ""); simpl; split; naive_solver. }
  destruct (String.eqb (au_Type auth) "query") eqn:E2; bool_prop.
  { rewrite E2. destruct (String.eqb (au_Name auth) ""); simpl; split; naive_solver. }
  destruct (String.eqb (au_Type auth) "bearer" || String.eqb (au_Type auth) "basic") eqn:E3; simpl.
  - split; [done|]. intros h. rewrite elem_of_union, elem_of_singleton.
    apply orb_true_iff in E3 as [E3|E3]; apply String.eqb_eq in E3; naive_solver.
  - split; [done|]. apply orb_false_iff in E3 as [E3 E4]. apply String.eqb_neq in E3, E4. naive_solver.
Qed.

(** ** The properties *)

(** C17. [Authorize] accepts a request exactly when its path canonicalises and, independently, some
    manifest route and some approved route each permit the whole tuple (slot, use, method, path
    glob segment by segment, query keys, content type, body size), and the slot's connection
    policy has no path list or lists a subtree holding the path. *)
Theorem authorize_three_policies ParseMediaType FormatMediaType g req use :
  Authorize ParseMediaType FormatMediaType g req use = None <->
  exists path, Canonicalise (hq_Path req) = Ok path
    /\ (exists r, r ∈ ManifestRoutes g
        /\ permits ParseMediaType FormatMediaType (RequestBodyKB (g_Limits g)) r req path use)
    /\ (exists r, r ∈ ApprovedRoutes g
        /\ permits ParseMediaType FormatMediaType (RequestBodyKB (g_Limits g)) r req path use)
    /\ forall policy, g_ConnectionPolicy g !! hq_Slot req = Some policy ->
         cp_AllowedPaths policy = []
         \/ exists p a, p ∈ cp_AllowedPaths policy /\ Canonicalise p = Ok a
            /\ path_segments a `prefix_of` path_segments path.
Proof. rewrite Authorize_authorised. split; [by intros [H]|by split]. Qed.

(** What is left of a plugin's headers and query: a header is kept, with its value, exactly when
    its name is one of the six allowed ones in any case and not the connection's own; a query key
    exactly when it is not the connection's own. So no kept name collides with a credential the
    transport injects. *)
Theorem filters_keep_exactly auth static hs q :
  let owned := newConnectionOwnership (au_Type auth) (au_Name auth) (map fst (map_to_list static)) in
  (forall n v, filterHeaders hs owned !! n = Some v <->
     hs !! n = Some v
     /\ ToLower n ∈ ["accept"; "accept-language"; "content-type"; "if-none-match"; "if-modified-since"; "range"]
     /\ ToLower n ∉ on_header (ownedNames auth static))
  /\ (forall k v, filterQuery q owned !! k = Some v <-> q !! k = Some v /\ k ∉ on_query (ownedNames auth static)).
Proof.
  intros owned. destruct (ownership_agrees auth static) as [Hq Hh]. split.
  - intros n v. unfold filterHeaders. rewrite map_lookup_filter_Some. simpl. unfold keeps_header. cbv zeta.
    rewrite !andb_true_iff, !negb_true_iff, !bool_decide_eq_false, bool_decide_eq_true.
    rewrite Hh. fold owned. split.
    + intros (Hn & [_ Ho] & Ha). split_and!; [done|by apply canonicalHeaderCase_allowed|].
      intros [?|[E _]]; [done|]. rewrite E in Ha. revert Ha. apply (bool_decide_unpack _). vm_compute. exact I.
    + intros (Hn & Ha%canonicalHeaderCase_allowed & Ho). split_and!; [done| |tauto|done].
      by apply canonicalHeaderCase_disjoint.
  - intros k v. unfold filterQuery. rewrite map_lookup_filter_Some, Hq. done.
Qed.
