(* ===== verification/Assets.v ===== *)
(** * internal/capabilities: asset references

    [assets/service.go]: minting and verifying signed references; and the pure parts of
    [assetref.go]: the transform allowlist and the canonical query. HMAC-SHA256, SHA-256 and the
    JSON encoding of the payload are arguments. *)
From S2P Require Import Prelude GoSort RoutePath NetHttp Grant.

(** ** base64.RawURLEncoding *)

Definition b64url_alphabet : string := "ABCDEFGHIJKLMNOPQRSTUVWXYZabcdefghijklmnopqrstuvwxyz0123456789-_".
Definition enc6 (n : N) : ascii := match String.get (N.to_nat n) b64url_alphabet with Some c => c | None => "A"%char end.
Definition dec6 (c : ascii) : option N :=
  let n := byteN c in
  if in_range 65 90 c then Some (n - 65)%N
  else if in_range 97 122 c then Some (n - 71)%N
  else if in_range 48 57 c then Some (n + 4)%N
  else if Ascii.eqb c "-" then Some 62%N
  else if Ascii.eqb c "_" then Some 63%N
  else None.

Fixpoint b64url_encode (s : string) : string :=
  match s with
  | EmptyString => ""
  | String a "" => let n := (byteN a * 16)%N in String (enc6 (n / 64)) (String (enc6 (n mod 64)) "")
  | String a (String b "") =>
      let n := ((byteN a * 256 + byteN b) * 4)%N in
      String (enc6 (n / 4096)) (String (enc6 (n / 64 mod 64)) (String (enc6 (n mod 64)) ""))
  | String a (String b (String c r)) =>
      let n := ((byteN a * 256 + byteN b) * 256 + byteN c)%N in
      String (enc6 (n / 262144)) (String (enc6 (n / 4096 mod 64)) (String (enc6 (n / 64 mod 64))
        (String (enc6 (n mod 64)) (b64url_encode r))))
  end.

(** The decoder ignores carriage returns and line feeds. *)
Fixpoint drop_newlines (s : string) : string :=
  match s with
  | EmptyString => ""
  | String c r => if Ascii.eqb c "010" || Ascii.eqb c "013" then drop_newlines r else String c (drop_newlines r)
  end.

Fixpoint b64url_groups (s : string) : option string :=
  match s with
  | EmptyString => Some ""
  | String _ "" => None
  | String a (String b "") =>
      x ← dec6 a; y ← dec6 b; Some (String (ascii_of_N ((x * 64 + y) / 16)) "")
  | String a (String b (String c "")) =>
      x ← dec6 a; y ← dec6 b; z ← dec6 c;
      let n := ((x * 64 + y) * 64 + z)%N in
      Some (String (ascii_of_N (n / 1024)) (String (ascii_of_N (n / 4 mod 256)) ""))
  | String a (String b (String c (String d r))) =>
      x ← dec6 a; y ← dec6 b; z ← dec6 c; w ← dec6 d;
      let n := (((x * 64 + y) * 64 + z) * 64 + w)%N in
      rest ← b64url_groups r;
      Some (String (ascii_of_N (n / 65536)) (String (ascii_of_N (n / 256 mod 256)) (String (ascii_of_N (n mod 256)) rest)))
  end.
Definition b64url_decode (s : string) : option string := b64url_groups (drop_newlines s).

(** ** service.go *)

Record Payload := {
  pl_V : Z; pl_Connection : string; pl_ConnectionRevision : string; pl_Path : string; pl_Query : string;
  pl_Transform : string; pl_Plugin : string; pl_Expires : Z }.

(** [Time.Unix] *)
Definition unix (t : Time) : Z := (t / second - 62135596800)%Z.

Record Service := { key : string }.

(** [New]: [None] is the error for a short key. *)
Definition New_service (k : string) : option Service :=
  if Nat.ltb (String.length k) 32 then None else Some {| key := k |}.

Section Tokens.
Variable hmac : string -> string -> string.            (* HMAC-SHA256 of a message under a key *)
Variable sha256 : string -> string.
Variable marshal : Payload -> string.                  (* encoding/json on the payload *)
Variable unmarshal : string -> option Payload.

Definition signature (s : Service) (encoded : string) : string := b64url_encode (hmac (key s) encoded).

Definition Mint (s : Service) (payload : Payload) : string :=
  let encoded := b64url_encode (marshal payload) in
  "v1." +:+ encoded +:+ "." +:+ signature s encoded.

(** The payload checks of [Verify], at the time [now]. *)
Definition payload_ok (now : Time) (p : Payload) : bool :=
  (pl_V p =? 1)%Z && negb (String.eqb (pl_Connection p) "") && negb (String.eqb (pl_ConnectionRevision p) "")
  && negb (String.eqb (pl_Path p) "") && negb (String.eqb (pl_Plugin p) "") && (unix now <? pl_Expires p)%Z.

Definition Verify (s : Service) (now : Time) (token : string) : option Payload :=
  match Split "." token with
  | [v; encoded; sig] =>
      if negb (String.eqb v "v1") then None
      else
        want ← b64url_decode sig;
        got ← b64url_decode (signature s encoded);
        if negb (String.eqb got want) then None
        else
          body ← b64url_decode encoded;
          p ← unmarshal body;
          if payload_ok now p then Some p else None
  | _ => None
  end.

(** [CacheKey]: the expiry does not take part. *)
Definition CacheKey (p : Payload) : string :=
  b64url_encode (sha256 (marshal {| pl_V := pl_V p; pl_Connection := pl_Connection p;
    pl_ConnectionRevision := pl_ConnectionRevision p; pl_Path := pl_Path p; pl_Query := pl_Query p;
    pl_Transform := pl_Transform p; pl_Plugin := pl_Plugin p; pl_Expires := 0 |})).
End Tokens.

(** ** assetref.go *)

Definition firstValues (q : Values) : gmap string string := omap (fun v => head v) q.

(** [url.QueryEscape] *)
Definition hexUpper (n : N) : ascii := ascii_of_N (if (n <? 10)%N then n + 48 else n + 55).
Fixpoint QueryEscape (s : string) : string :=
  match s with
  | EmptyString => ""
  | String c r =>
      if isUnreserved c then String c (QueryEscape r)
      else if Ascii.eqb c " " then String "+" (QueryEscape r)
      else String percent (String (hexUpper (byteN c / 16)) (String (hexUpper (byteN c mod 16)) (QueryEscape r)))
  end.

(** The keys in order; [q.Get] is the first value. *)
Definition canonicalQuery (q : Values) : string :=
  Join "&" (map (fun k => QueryEscape k +:+ "=" +:+ QueryEscape (first_value (q !! k)))
                (sort_strings (map fst (map_to_list q)))).

Definition transformString (t : Transform) : string :=
  let w := if (0 <? tf_Width t)%Z then "w=" +:+ decimal (tf_Width t) else "" in
  if String.eqb (tf_Format t) "" then w
  else w +:+ (if String.eqb w "" then "" else ",") +:+ "f=" +:+ tf_Format t.

Definition transformPattern (s : string) : bool :=
  existsb (fun a => existsb (fun b => String.eqb s (a +:+ b)) [""; ",f=webp"; ",f=jpeg"])
          [""; "w=160"; "w=320"; "w=640"; "w=1280"].

Definition validateTransform (t : Transform) : bool := transformPattern (transformString t).

(** ** Lemmas on base64 *)

(** The bytes of the alphabet: none is a newline or a dot. *)
Definition b64_byte (c : ascii) : bool := isLetter c || in_range 48 57 c || Ascii.eqb c "-" || Ascii.eqb c "_".
Lemma b64_byte_plain c : b64_byte c = true -> negb (Ascii.eqb c "010" || Ascii.eqb c "013" || Ascii.eqb c ".") = true.
Proof. all_ascii c; vm_compute; congruence. Qed.

Lemma enc6_range n : (n < 64)%N -> dec6 (enc6 n) = Some n /\ b64_byte (enc6 n) = true.
Proof.
  intros H.
  assert (Hall : forallb (fun k => bool_decide (dec6 (enc6 (N.of_nat k)) = Some (N.of_nat k)) && b64_byte (enc6 (N.of_nat k)))
    (seq 0 64) = true) by (vm_compute; reflexivity).
  rewrite forallb_forall in Hall. specialize (Hall (N.to_nat n)). rewrite N2Nat.id in Hall.
  assert (Hin : List.In (N.to_nat n) (seq 0 64)) by (apply in_seq; lia).
  apply Hall, andb_true_iff in Hin as [H1%bool_decide_eq_true H2]. done.
Qed.

Lemma byteN_bound c : (byteN c < 256)%N.
Proof. apply N_ascii_bounded. Qed.

(** Induction on a string by three bytes at a time. *)
Lemma string_ind3 (P : string -> Prop) :
  P "" -> (forall a, P (String a "")) -> (forall a b, P (String a (String b ""))) ->
  (forall a b c r, P r -> P (String a (String b (String c r)))) -> forall s, P s.
Proof.
  intros H0 H1 H2 H3. assert (H : forall n s, String.length s <= n -> P s).
  { induction n as [|n IH]; intros [|a [|b [|c r]]] Hl; simpl in Hl; auto; try lia. apply H3, IH. lia. }
  intros s. by apply (H (String.length s)).
Qed.


Lemma enc6_byte n : (n < 64)%N -> b64_byte (enc6 n) = true.
Proof. intros H. by apply enc6_range. Qed.

Lemma enc6_dec n : (n < 64)%N -> dec6 (enc6 n) = Some n.
Proof. intros H. by apply enc6_range. Qed.

(** The bounds of the groups of six bits of one, two and three bytes. *)
Ltac group_bound :=
  repeat match goal with
         | c : ascii |- _ => lazymatch goal with
                             | H : (byteN c < 256)%N |- _ => fail
                             | _ => pose proof (byteN_bound c)
                             end
         end;
  first [ apply N.mod_lt; discriminate | apply N.Div0.div_lt_upper_bound; lia ].

Lemma b64url_encode_clean s : all_bytes b64_byte (b64url_encode s) = true.
Proof.
  induction s as [|a|a b|a b c r IH] using string_ind3; [done|..];
    cbn [b64url_encode all_bytes]; rewrite ?IH, !enc6_byte by group_bound; done.
Qed.

Lemma drop_newlines_clean s : all_bytes b64_byte s = true -> drop_newlines s = s.
Proof.
  induction s as [|c s IH]; simpl; [done|]. intros [Hc%b64_byte_plain H]%andb_true_iff. bool_prop.
  rewrite !(proj2 (Ascii.eqb_neq _ _)) by done. simpl. by rewrite IH.
Qed.

Lemma ascii_byteN c : ascii_of_N (byteN c) = c.
Proof. apply ascii_N_embedding. Qed.

(** Linear arithmetic with division and remainder by constants. *)
Ltac div_lia := zify; Z.to_euclidean_division_equations; lia.

Lemma b64url_groups_encode s : b64url_groups (b64url_encode s) = Some s.
Proof.
  induction s as [|a|a b|a b c r IH] using string_ind3; [done|..]; cbn [b64url_encode].
  - cbn [b64url_groups]. rewrite !enc6_dec by group_bound. cbn [mbind option_bind].
    assert (Ha := byteN_bound a). repeat f_equal. rewrite <- (ascii_byteN a) at 3. f_equal.
    rewrite (N.mul_comm (_ / 64) 64), <- N.div_mod' by lia. by rewrite N.div_mul.
  - cbn [b64url_groups]. rewrite !enc6_dec by group_bound. cbn [mbind option_bind].
    assert (Ha := byteN_bound a). assert (Hb := byteN_bound b).
    set (n := ((byteN a * 256 + byteN b) * 4)%N).
    assert (En : (((n / 4096) * 64 + n / 64 mod 64) * 64 + n mod 64 = n)%N) by div_lia.
    rewrite En. subst n. rewrite N.div_mul by lia.
    assert (E1 : ((byteN a * 256 + byteN b) * 4 / 1024 = byteN a)%N) by div_lia.
    assert (E2 : ((byteN a * 256 + byteN b) mod 256 = byteN b)%N) by div_lia.
    by rewrite E1, E2, !ascii_byteN.
  - cbn [b64url_groups]. rewrite !enc6_dec by group_bound. cbn [mbind option_bind]. rewrite IH.
    assert (Ha := byteN_bound a). assert (Hb := byteN_bound b). assert (Hc := byteN_bound c).
    set (n := ((byteN a * 256 + byteN b) * 256 + byteN c)%N).
    assert (En : ((((n / 262144) * 64 + n / 4096 mod 64) * 64 + n / 64 mod 64) * 64 + n mod 64 = n)%N) by div_lia.
    rewrite En. subst n. cbn [mbind option_bind].
    assert (E1 : (((byteN a * 256 + byteN b) * 256 + byteN c) / 65536 = byteN a)%N) by div_lia.
    assert (E2 : (((byteN a * 256 + byteN b) * 256 + byteN c) / 256 mod 256 = byteN b)%N) by div_lia.
    assert (E3 : (((byteN a * 256 + byteN b) * 256 + byteN c) mod 256 = byteN c)%N) by div_lia.
    by rewrite E1, E2, E3, !ascii_byteN.
Qed.

Lemma b64url_roundtrip s : b64url_decode (b64url_encode s) = Some s.
Proof. unfold b64url_decode. rewrite drop_newlines_clean by apply b64url_encode_clean. apply b64url_groups_encode. Qed.

Lemma b64url_no_dot s : no_sep "." (b64url_encode s).
Proof.
  unfold no_sep. eapply all_bytes_impl; [|apply b64url_encode_clean]. intros c H%b64_byte_plain.
  rewrite !negb_orb in H. by apply andb_true_iff in H as [_ H].
Qed.

(** ** Lemmas on tokens *)

Lemma Mint_split hmac marshal s p :
  Split "." (Mint hmac marshal s p) =
  ["v1"; b64url_encode (marshal p); signature hmac s (b64url_encode (marshal p))].
Proof.
  unfold Mint. cbv zeta. set (e := b64url_encode (marshal p)). set (sg := signature hmac s e).
  change ("v1." +:+ e +:+ "." +:+ sg) with ("v1" +:+ String "." (e +:+ String "." sg)).
  rewrite !Split_app, !Split_no_sep; [done|apply b64url_no_dot|apply b64url_no_dot|done].
Qed.

(** What [Verify] answers on a reference [Mint] made. *)
Lemma Verify_Mint hmac marshal unmarshal s p now :
  unmarshal (marshal p) = Some p ->
  Verify hmac unmarshal s now (Mint hmac marshal s p) = if payload_ok now p then Some p else None.
Proof.
  intros Hj. unfold Verify. rewrite Mint_split. change (String.eqb "v1" "v1") with true. cbn [negb].
  unfold signature. rewrite !b64url_roundtrip. cbn [mbind option_bind]. rewrite String.eqb_refl. cbn [negb].
  by rewrite Hj.
Qed.

Lemma payload_ok_complete now p :
  pl_V p = 1%Z -> pl_Connection p <> "" -> pl_ConnectionRevision p <> "" -> pl_Path p <> "" -> pl_Plugin p <> "" ->
  payload_ok now p = (unix now <? pl_Expires p)%Z.
Proof. intros HV Hc Hr Hp Hl. unfold payload_ok. rewrite HV, !(proj2 (String.eqb_neq _ "")) by done. done. Qed.

Lemma pretty_N_digits (P : ascii -> bool) n acc :
  (forall m, P (pretty_N_char m) = true) -> all_bytes P acc = true -> all_bytes P (pretty_N_go n acc) = true.
Proof.
  intros HP. revert acc. induction (N.lt_wf_0 n) as [n _ IH]; intros acc Ha.
  destruct (decide (0 < n)%N) as [Hn|Hn]; [|by replace n with 0%N by lia].
  rewrite pretty_N_go_step by done. apply IH; [by apply N.div_lt|]. simpl. by rewrite HP.
Qed.

Lemma decimal_pos_no_comma z : (0 < z)%Z -> no_sep "," (decimal z).
Proof.
  intros Hz. destruct z as [|z|]; [lia| |lia]. change (decimal (Z.pos z)) with (pretty_N (N.pos z)).
  unfold no_sep, pretty_N.
  rewrite decide_False by done. apply pretty_N_digits; [|done]. intros m. unfold pretty_N_char. by repeat case_match.
Qed.

(** The strings [transformPattern] matches, cut at the comma. *)
Lemma transformPattern_parts s :
  transformPattern s = true ->
  s = "" \/ (exists f, s = String "," f) \/
  exists w, w ∈ [160; 320; 640; 1280]%Z
    /\ (s = "w=" +:+ decimal w \/ s = "w=" +:+ decimal w +:+ ",f=webp" \/ s = "w=" +:+ decimal w +:+ ",f=jpeg").
Proof.
  unfold transformPattern. intros H. apply existsb_elem in H as (a & Ha & H).
  apply existsb_elem in H as (b & Hb & ->%String.eqb_eq).
  apply elem_of_cons in Ha as [->|Ha].
  { rewrite !elem_of_cons in Hb. destruct Hb as [->|[->|[->|Hb]]]; [by left| | |by apply elem_of_nil in Hb]; right; left; by eexists. }
  right; right. assert (Hw : exists w, w ∈ [160; 320; 640; 1280]%Z /\ a = "w=" +:+ decimal w).
  { rewrite !elem_of_cons in Ha. destruct Ha as [->|[->|[->|[->|Ha]]]]; [exists 160%Z|exists 320%Z|exists 640%Z|exists 1280%Z|by apply elem_of_nil in Ha];
      (split; [rewrite !elem_of_cons; tauto|reflexivity]). }
  destruct Hw as (w & Hw & ->). exists w. split; [done|]. rewrite !elem_of_cons in Hb.
  destruct Hb as [->|[->|[->|Hb]]]; [|..|by apply elem_of_nil in Hb]; rewrite ?app_nil_str, ?app_assoc_str; tauto.
Qed.

Lemma cons_eq_inv {A} (x y : A) l k : x :: l = y :: k -> x = y /\ l = k.
Proof. by intros [= -> ->]. Qed.

(** The transforms let through: none, or one of the widths with at most a format. *)
Lemma validateTransform_spec t :
  validateTransform t = true ->
  (tf_Width t <= 0 /\ tf_Format t = "")%Z
  \/ tf_Width t ∈ [160; 320; 640; 1280]%Z /\ tf_Format t ∈ [""; "webp"; "jpeg"].
Proof.
  unfold validateTransform, transformString. intros H. apply transformPattern_parts in H.
  destruct (Z.ltb_spec 0 (tf_Width t)) as [Hw|Hw].
  - right. assert (Hn := decimal_pos_no_comma _ Hw). set (d := decimal (tf_Width t)) in *.
    assert (Hnw : no_sep "," ("w=" +:+ d)) by (unfold no_sep; simpl; exact Hn).
    assert (Hd : forall w, w ∈ [160; 320; 640; 1280]%Z -> "w=" +:+ d = "w=" +:+ decimal w -> tf_Width t ∈ [160; 320; 640; 1280]%Z).
    { intros w Hin E. apply app_inj_l in E. unfold d, decimal in E. apply (inj pretty) in E. by subst. }
    assert (Hs : forall w f, w ∈ [160; 320; 640; 1280]%Z -> Split "," ("w=" +:+ decimal w +:+ String "," f) = ("w=" +:+ decimal w) :: Split "," f).
    { intros w f Hin. rewrite <- app_assoc_str. apply Split_app_sep. rewrite !elem_of_cons in Hin.
      destruct Hin as [->|[->|[->|[->|Hin]]]]; [done..|by apply elem_of_nil in Hin]. }
    assert (Hs0 : forall w, w ∈ [160; 320; 640; 1280]%Z -> Split "," ("w=" +:+ decimal w) = ["w=" +:+ decimal w]).
    { intros w Hin. apply Split_no_sep. rewrite !elem_of_cons in Hin.
      destruct Hin as [->|[->|[->|[->|Hin]]]]; [done..|by apply elem_of_nil in Hin]. }
    destruct (String.eqb_spec (tf_Format t) "") as [->|Hf].
    + split; [|left]. destruct H as [H|[[f H]|(w & Hin & [H|[H|H]])]]; [done|done|by eapply Hd|..];
        apply (f_equal (Split ",")) in H; rewrite Split_no_sep, Hs in H by done; discriminate.
    + change (String.eqb ("w=" +:+ d) "") with false in H. cbn match in H. rewrite app_assoc_str in H.
      assert (Hsp : Split "," ("w=" +:+ d +:+ "," +:+ "f=" +:+ tf_Format t) = ("w=" +:+ d) :: Split "," ("f=" +:+ tf_Format t)).
      { rewrite <- app_assoc_str. by apply Split_app_sep. }
      destruct H as [H|[[f H]|(w & Hin & H)]]; [done|done|].
      assert (Hx : "w=" +:+ d = "w=" +:+ decimal w /\ (Split "," ("f=" +:+ tf_Format t) = [] \/ Split "," ("f=" +:+ tf_Format t) = ["f=webp"]
                \/ Split "," ("f=" +:+ tf_Format t) = ["f=jpeg"])).
      { destruct H as [H|[H|H]]; apply (f_equal (Split ",")) in H; rewrite Hsp in H; [rewrite Hs0 in H by done|rewrite Hs in H by done..];
          apply cons_eq_inv in H as [E1 E2]; (split; [exact E1|tauto]). }
      destruct Hx as [E1 E2]. split; [by eapply Hd|]. rewrite !elem_of_cons. right.
      destruct E2 as [E|[E|E]]; [by apply Split_nonempty in E|..]; apply (f_equal (Join ",")) in E; rewrite Join_Split in E;
        injection E as E; change (tf_Format t = "webp") in E || change (tf_Format t = "jpeg") in E; rewrite E; tauto.
  - left. destruct (String.eqb_spec (tf_Format t) "") as [|Hf]; [by split|].
    destruct H as [H|[[f H]|(w & Hin & [H|[H|H]])]]; discriminate.
Qed.

(** A width alone and a width with a format are accepted; a format without a width, although both
    fields may be unset, is not, and a negative width counts as unset. *)
Example transform_width : validateTransform {| tf_Width := 320; tf_Format := "webp" |} = true.
Proof. reflexivity. Qed.
Example transform_format_only : validateTransform {| tf_Width := 0; tf_Format := "webp" |} = false.
Proof. reflexivity. Qed.
Example transform_other_width : validateTransform {| tf_Width := 100; tf_Format := "" |} = false.
Proof. reflexivity. Qed.

(** ** The properties *)

(** A minted reference verifies, until it expires, to exactly the payload it was minted from,
    provided the JSON codec reads back what it wrote. *)
Theorem asset_token_roundtrip hmac marshal unmarshal s p now :
  unmarshal (marshal p) = Some p ->
  pl_V p = 1%Z -> pl_Connection p <> "" -> pl_ConnectionRevision p <> "" -> pl_Path p <> "" -> pl_Plugin p <> "" ->
  Verify hmac unmarshal s now (Mint hmac marshal s p) = if (unix now <? pl_Expires p)%Z then Some p else None.
Proof.
  intros Hj HV Hc Hr Hp Hl. rewrite Verify_Mint, payload_ok_complete by done. done.
Qed.

Definition sample_payload : Payload :=
  {| pl_V := 1; pl_Connection := "nas"; pl_ConnectionRevision := "r1"; pl_Path := "/thumb/1"; pl_Query := "";
     pl_Transform := "w=160"; pl_Plugin := "p@1"; pl_Expires := 1 |}.

(** A codec that knows one payload, and a keyed digest that is not a constant. *)
Definition sample_marshal (p : Payload) : string := pl_Connection p +:+ "|" +:+ pl_Path p.
Definition sample_unmarshal (s : string) : option Payload :=
  if String.eqb s "nas|/thumb/1" then Some sample_payload else None.
Definition sample_hmac (k m : string) : string := k +:+ m.

Example asset_token_roundtrip_witness :
  sample_unmarshal (sample_marshal sample_payload) = Some sample_payload
  /\ Verify sample_hmac sample_unmarshal {| key := "k" |} (62135596800 * second)%Z
       (Mint sample_hmac sample_marshal {| key := "k" |} sample_payload) = Some sample_payload.
Proof.
  split; [reflexivity|].
  rewrite (asset_token_roundtrip sample_hmac sample_marshal sample_unmarshal {| key := "k" |} sample_payload
             (62135596800 * second)%Z eq_refl eq_refl); [reflexivity|discriminate..].
Defined.

(** A reference that verifies was signed under the service's key: its signature part decodes to
    the HMAC of exactly the encoded payload it carries, and the payload is version 1, complete and
    unexpired. *)
Theorem asset_verify_sound hmac unmarshal s now token p :
  Verify hmac unmarshal s now token = Some p ->
  exists encoded sig body,
    token = "v1." +:+ encoded +:+ "." +:+ sig
    /\ b64url_decode sig = Some (hmac (key s) encoded)
    /\ b64url_decode encoded = Some body /\ unmarshal body = Some p
    /\ pl_V p = 1%Z /\ pl_Connection p <> "" /\ pl_ConnectionRevision p <> "" /\ pl_Path p <> "" /\ pl_Plugin p <> ""
    /\ (unix now < pl_Expires p)%Z.
Proof.
  unfold Verify. assert (Hj := Join_Split "." token).
  destruct (Split "." token) as [|v [|encoded [|sig [|]]]]; try done.
  destruct (String.eqb v "v1") eqn:Ev; [|done]. apply String.eqb_eq in Ev as ->. cbn [negb].
  destruct (b64url_decode sig) as [want|] eqn:Es; [|done]. cbn [mbind option_bind].
  unfold signature. rewrite b64url_roundtrip. cbn [mbind option_bind].
  destruct (String.eqb (hmac (key s) encoded) want) eqn:Em; [|done]. apply String.eqb_eq in Em as <-. cbn [negb].
  destruct (b64url_decode encoded) as [body|] eqn:Eb; [|done]. cbn [mbind option_bind].
  destruct (unmarshal body) as [q|] eqn:Eu; [|done]. cbn [mbind option_bind].
  destruct (payload_ok now q) eqn:Ep; [|done]. intros [= <-]. exists encoded, sig, body.
  unfold payload_ok in Ep. bool_prop.
  split_and!; [symmetry; exact Hj|done|done|done|by apply Z.eqb_eq|done|done|done|done|by apply Z.ltb_lt].
Qed.

Example asset_verify_sound_witness :
  exists p, Verify sample_hmac sample_unmarshal {| key := "k" |} (62135596800 * second)%Z
       (Mint sample_hmac sample_marshal {| key := "k" |} sample_payload) = Some p /\ pl_Path p <> "".
Proof.
  exists sample_payload. split; [vm_compute; reflexivity|].
  destruct (asset_verify_sound sample_hmac sample_unmarshal {| key := "k" |} (62135596800 * second)%Z
              (Mint sample_hmac sample_marshal {| key := "k" |} sample_payload) sample_payload) as (e & g & b & H);
    [vm_compute; reflexivity|]. tauto.
Defined.
