(* ===== verification/Broker.v ===== *)
(** * internal/capabilities: the broker

    Every host function a plugin can call: [HTTP], [CacheGet], [CachePut], [AssetRef], [Log],
    [Emit], with the denial audit, the in-memory cache and the per-invocation budget. The broker is
    written against an interface to the connection registry; the laws of that interface are what
    HttpClient proves of [Do], and both the registry and its swappable wrapper implement it. *)
From S2P Require Import Prelude GoAny GoSort RoutePath NetHttp Config Secrets Connections HttpClient Grant Assets.

(** ** The registry interface *)

(** A redirect destination, described in the caller's coordinates. *)
Definition redirect_of (base : URL) (owned : ownedNameSet) (w : wire_request) (rr : RedirectRequest) : Prop :=
  host (wr_URL w) = host base /\ scheme (wr_URL w) = scheme base
  /\ rr_Method rr = wr_Method w /\ rr_BodyLen rr = redirectBodyLen w
  /\ rr_Query rr = firstQueryValues (uquery (wr_URL w)) (on_query owned) /\ rr_Header rr = singleHeaderValues (wr_Header w) (on_header owned)
  /\ exists cp b, Canonicalise (upath (wr_URL w)) = Ok cp /\ Canonicalise (base_path base) = Ok b
     /\ canonical (rr_Path rr) /\ path_segments cp = path_segments b ++ path_segments (rr_Path rr).

(** [connections.Registry], as the broker uses it. *)
Class RegistryOps (R : Type) := {
  rg_Get : R -> string -> option Conn;
  rg_Do : env -> R -> string -> Request -> list wire_request * res do_error Response;
  rg_base : R -> string -> option URL;
  rg_owned : R -> string -> ownedNameSet }.           (* the query keys and headers the connection sets itself *)

Class RegistryLaws (R : Type) `{RegistryOps R} := {
  (** every request after the first was accepted by the redirect authorizer *)
  rl_redirect : forall e r id req i w f,
    (rg_Do e r id req).1 !! S i = Some w -> redirect_authorizer e = Some f ->
    exists base rr, rg_base r id = Some base /\ redirect_of base (rg_owned r id) w rr /\ f rr = None;
  (** the first request is the caller's, joined onto the connection's base; its query is the caller's but for the key the connection owns
      (a configured key without a name would be the empty one) *)
  rl_first : forall e r id req w,
    (rg_Do e r id req).1 !! 0 = Some w ->
    exists base u, rg_base r id = Some base /\ joinPath base (rq_Path req) = Ok u
      /\ upath (wr_URL w) = upath u /\ host (wr_URL w) = host u /\ scheme (wr_URL w) = scheme u
      /\ request_method (rq_Method req) = Some (wr_Method w)
      /\ wr_ContentLength w = Z.of_nat (String.length (default "" (rq_Body req)))
      /\ forall k, k <> "" -> k ∉ on_query (rg_owned r id) -> uquery (wr_URL w) !! k = match rq_Query req !! k with Some v => Some [v] | None => uquery u !! k end;
  (** a response is within the caller's own ceiling *)
  rl_bounded : forall e r id req resp,
    (rg_Do e r id req).2 = Ok resp -> (0 < rq_MaxResponseBytes req)%Z ->
    (Z.of_nat (String.length (rs_Body resp)) <= rq_MaxResponseBytes req)%Z }.

Definition client_owned (c : client) : ownedNameSet := ownedNames (h_Auth (cl_cfg c)) (h_Headers (cl_cfg c)).
Definition owned_by (r : registry) (id : string) : ownedNameSet :=
  match r_clients r !! id with Some c => client_owned c | None => {| on_query := ∅; on_header := ∅ |} end.
#[export] Instance registry_ops : RegistryOps registry := {
  rg_Get := Get; rg_Do := Do; rg_base := fun r id => cl_base <$> r_clients r !! id; rg_owned := owned_by }.

(** [connections.Dynamic] *)
#[export] Instance dynamic_ops : RegistryOps (option registry) := {
  rg_Get := dyn_Get; rg_Do := dyn_Do; rg_base := fun d id => r ← d; cl_base <$> r_clients r !! id;
  rg_owned := fun d id => match d with Some r => owned_by r id | None => {| on_query := ∅; on_header := ∅ |} end }.

(** ** audit.go *)

(** The error is carried by its text. *)
Record DenialRecord := { dr_Method : string; dr_Err : string; dr_Count : Z }.

Record memAudit := { byCause : gmap string DenialRecord; total : gmap string Z }.

Definition NewMemAudit : memAudit := {| byCause := ∅; total := ∅ |}.

Definition denial_key (pluginID method err : string) : string :=
  pluginID +:+ String "000" "" +:+ method +:+ String "000" "" +:+ err.

Definition Denied (a : memAudit) (pluginID method err : string) : memAudit :=
  let k := denial_key pluginID method err in
  let rec := default {| dr_Method := method; dr_Err := err; dr_Count := 0 |} (byCause a !! k) in
  {| byCause := <[k := {| dr_Method := dr_Method rec; dr_Err := dr_Err rec; dr_Count := dr_Count rec + 1 |}]> (byCause a);
     total := <[pluginID := (default 0 (total a !! pluginID) + 1)%Z]> (total a) |}.

Definition Total (a : memAudit) (pluginID : string) : Z := default 0%Z (total a !! pluginID).

(** ** cache.go *)

Definition cacheNamespace (g : Grant) : string :=
  "plugin:" +:+ PluginID g +:+ ":" +:+ ManifestDigest (Ident g) +:+ ":" +:+ InstanceID g.

(** [memCache]: value and expiry, the zero time for none. *)
Abbreviation memCache := (gmap string (string * Time)) (only parsing).

Definition cache_Get (c : memCache) (now : Time) (namespace k : string) : memCache * option string :=
  let full := namespace +:+ ":" +:+ k in
  match c !! full with
  | None => (c, None)
  | Some (v, expires) =>
      if negb (isZero expires) && before expires now then (delete full c, None) else (c, Some v)
  end.

Definition cache_Put (c : memCache) (now : Time) (namespace k val : string) (ttl : Duration) : memCache :=
  <[namespace +:+ ":" +:+ k := (val, if (0 <? ttl)%Z then (now + ttl)%Z else 0%Z)]> c.

(** ** broker.go *)

Inductive broker_error :=
| BDenied (e : cap_error)
| NotHTTPConnection (id : string)
| BResponseTooLarge
| BUpstream (e : do_error)
| BadTransform
| EventTypeRequired
| SinkError (e : string).

Section Broker.
Context {R : Type} `{RegistryOps R}.
Variable ParseMediaType : string -> option (string * gmap string string).
Variable FormatMediaType : string -> gmap string string -> string.
Variable error_text : cap_error -> string.              (* [err.Error()] *)
Variable hmac : string -> string -> string.
Variable marshal : Payload -> string.
Variable sink : option (string -> Event -> option string).  (* the event sink, if one is set *)

(** A line of the structured log: level, message and attributes, in order. *)
Record log_line := { ll_level : string; ll_msg : string; ll_args : list (string * any) }.

(** The broker's collaborators and the budget of the invocation whose grant is used. The two
    counters record how many upstream calls and cache writes were let through. *)
Record bstate := {
  bs_budget : budgetState; bs_cache : memCache; bs_audit : memAudit; bs_log : list log_line;
  bs_events : list (string * Event); upstream_calls : Z; cache_writes : Z }.

Definition with_budget (s : bstate) (b : budgetState) : bstate :=
  {| bs_budget := b; bs_cache := bs_cache s; bs_audit := bs_audit s; bs_log := bs_log s; bs_events := bs_events s;
     upstream_calls := upstream_calls s; cache_writes := cache_writes s |}.
Definition with_audit (s : bstate) (a : memAudit) : bstate :=
  {| bs_budget := bs_budget s; bs_cache := bs_cache s; bs_audit := a; bs_log := bs_log s; bs_events := bs_events s;
     upstream_calls := upstream_calls s; cache_writes := cache_writes s |}.
Definition with_cache (s : bstate) (c : memCache) (writes : Z) : bstate :=
  {| bs_budget := bs_budget s; bs_cache := c; bs_audit := bs_audit s; bs_log := bs_log s; bs_events := bs_events s;
     upstream_calls := upstream_calls s; cache_writes := cache_writes s + writes |}.
Definition with_upstream (s : bstate) : bstate :=
  {| bs_budget := bs_budget s; bs_cache := bs_cache s; bs_audit := bs_audit s; bs_log := bs_log s; bs_events := bs_events s;
     upstream_calls := upstream_calls s + 1; cache_writes := cache_writes s |}.

(** A preamble: the budget it leaves and its verdict. *)
Abbreviation check A := (budgetState -> budgetState * res cap_error A) (only parsing).

(** [broker.authorize] *)
Definition authorize {A} (s : bstate) (g : Grant) (method : string) (c : check A) : bstate * res broker_error A :=
  let '(b, r) := c (bs_budget s) in
  match r with
  | Ok a => (with_budget s b, Ok a)
  | Err e => (with_audit (with_budget s b) (Denied (bs_audit s) (PluginID g) method (error_text e)), Err (BDenied e))
  end.

(** One budget step of a preamble. *)
Definition spend (f : budgetState -> option budgetState) (b : budgetState) : budgetState * res cap_error unit :=
  match f b with Some b' => (b', Ok tt) | None => (b, Err ErrBudgetExceeded) end.

Definition then_spend (f : budgetState -> option budgetState) (p : budgetState * res cap_error unit)
  : budgetState * res cap_error unit :=
  match p with (b, Ok _) => spend f b | (b, Err e) => (b, Err e) end.

(** The preamble of [HTTP]: capability, slot, route, hostCalls, httpRequests. *)
Definition http_check (g : Grant) (req : HTTPRequest) : check string := fun b =>
  if negb (Has (Caps g) "http") then (b, Err ErrCapDenied)
  else match Slots g !! hq_Slot req with
       | None => (b, Err ErrSlotDenied)
       | Some id =>
           match Authorize ParseMediaType FormatMediaType g req UseData with
           | Some e => (b, Err e)
           | None => match then_spend (consumeHTTPRequest (g_Limits g)) (spend (consumeHostCall (g_Limits g)) b) with
                     | (b', Ok _) => (b', Ok id)
                     | (b', Err e) => (b', Err e)
                     end
           end
       end.

(** The request a redirect destination is judged as. *)
Definition redirect_request (slot : string) (dest : RedirectRequest) : HTTPRequest :=
  {| hq_Slot := slot; hq_Method := rr_Method dest; hq_Path := rr_Path dest; hq_Query := rr_Query dest;
     hq_Header := rr_Header dest; hq_Body := None; hq_BodyLen := rr_BodyLen dest |}.

(** The environment of the call: the caller's, with this grant as the redirect authorizer. *)
Definition grant_env (e : env) (g : Grant) (slot : string) : env :=
  {| limiter_err := limiter_err e; acquire_err := acquire_err e; send := send e;
     redirect_authorizer := Some (fun dest =>
       error_text <$> Authorize ParseMediaType FormatMediaType g (redirect_request slot dest) UseData) |}.

(** The request handed to the registry. *)
Definition upstream_request (g : Grant) (conn : HTTPConfig) (req : HTTPRequest) : Request :=
  let owned := newConnectionOwnership (au_Type (h_Auth conn)) (au_Name (h_Auth conn))
                 (map fst (map_to_list (h_Headers conn))) in
  {| rq_Method := hq_Method req; rq_Path := hq_Path req; rq_Query := filterQuery (hq_Query req) owned;
     rq_Headers := filterHeaders (hq_Header req) owned; rq_Body := hq_Body req;
     rq_MaxResponseBytes := if (0 <? ResponseMB (g_Limits g))%Z then Z.shiftl (ResponseMB (g_Limits g)) 20 else 0%Z |}.

(** [HTTP]: the state after, the requests put on the wire, and the result. *)
Definition HTTP_call (e : env) (r : R) (s : bstate) (g : Grant) (req : HTTPRequest)
  : bstate * list wire_request * res broker_error Response :=
  let '(s, rid) := authorize s g "HTTP" (http_check g req) in
  match rid with
  | Err er => (s, [], Err er)
  | Ok connID =>
      match (conn ← rg_Get r connID; c_HTTP conn) with
      | None => (s, [], Err (NotHTTPConnection connID))
      | Some conn =>
          let '(tr, resp) := rg_Do (grant_env e g (hq_Slot req)) r connID (upstream_request g conn req) in
          let s := with_upstream s in
          match resp with
          | Ok rs => (s, tr, Ok rs)
          | Err ErrResponseTooLarge =>
              (with_audit s (Denied (bs_audit s) (PluginID g) "HTTP" (error_text ErrBudgetExceeded)), tr, Err BResponseTooLarge)
          | Err er => (s, tr, Err (BUpstream er))
          end
      end
  end.

(** A preamble of capability and budget only. *)
Definition cap_check (g : Grant) (cap : string) (spend_more : budgetState * res cap_error unit -> budgetState * res cap_error unit)
  : check unit := fun b =>
  if negb (Has (Caps g) cap) then (b, Err ErrCapDenied)
  else spend_more (spend (consumeHostCall (g_Limits g)) b).

Definition CacheGet (now : Time) (s : bstate) (g : Grant) (k : string) : bstate * res broker_error (option string) :=
  let '(s, r) := authorize s g "CacheGet" (cap_check g "cache" id) in
  match r with
  | Err e => (s, Err e)
  | Ok _ => let '(c, v) := cache_Get (bs_cache s) now (cacheNamespace g) k in (with_cache s c 0, Ok v)
  end.

Definition CachePut (now : Time) (s : bstate) (g : Grant) (k val : string) (ttl : Duration) : bstate * res broker_error unit :=
  let '(s, r) := authorize s g "CachePut"
    (cap_check g "cache" (then_spend (fun b => consumeCacheWrite (g_Limits g) b (Z.of_nat (String.length val))))) in
  match r with
  | Err e => (s, Err e)
  | Ok _ => (with_cache s (cache_Put (bs_cache s) now (cacheNamespace g) k val ttl) 1, Ok tt)
  end.

Definition log_level (level : string) : string :=
  if String.eqb level "warn" then "WARN" else if String.eqb level "error" then "ERROR"
  else if String.eqb level "debug" then "DEBUG" else "INFO".

(** [Log]: the fields in the order the map is iterated. *)
Definition Log (s : bstate) (g : Grant) (level msg : string) (fields : list (string * any)) : bstate * res broker_error unit :=
  let '(s, r) := authorize s g "Log" (cap_check g "log" id) in
  match r with
  | Err e => (s, Err e)
  | Ok _ => ({| bs_budget := bs_budget s; bs_cache := bs_cache s; bs_audit := bs_audit s;
                bs_log := {| ll_level := log_level level; ll_msg := msg; ll_args := ("plugin", AString (PluginID g)) :: fields |} :: bs_log s; bs_events := bs_events s;
                upstream_calls := upstream_calls s; cache_writes := cache_writes s |}, Ok tt)
  end.

Definition Emit (s : bstate) (g : Grant) (ev : Event) : bstate * res broker_error unit :=
  let '(s, r) := authorize s g "Emit" (cap_check g "events" id) in
  match r with
  | Err e => (s, Err e)
  | Ok _ =>
      if String.eqb (ev_Type ev) "" then (s, Err EventTypeRequired)
      else match sink with
           | Some f => ({| bs_budget := bs_budget s; bs_cache := bs_cache s; bs_audit := bs_audit s; bs_log := bs_log s;
                           bs_events := (PluginID g, ev) :: bs_events s; upstream_calls := upstream_calls s;
                           cache_writes := cache_writes s |},
                        match f (PluginID g) ev with Some e => Err (SinkError e) | None => Ok tt end)
           | None => ({| bs_budget := bs_budget s; bs_cache := bs_cache s; bs_audit := bs_audit s;
                         bs_log := {| ll_level := "INFO"; ll_msg := "event emitted";
                                      ll_args := [("plugin", AString (PluginID g)); ("type", AString (ev_Type ev))] |} :: bs_log s; bs_events := bs_events s;
                         upstream_calls := upstream_calls s; cache_writes := cache_writes s |}, Ok tt)
           end
  end.

(** [AssetRef]: the request it is authorised as. *)
Definition asset_request (slot path : string) (query : Values) : HTTPRequest :=
  {| hq_Slot := slot; hq_Method := "GET"; hq_Path := path; hq_Query := firstValues query;
     hq_Header := ∅; hq_Body := None; hq_BodyLen := 0 |}.

Definition asset_check (g : Grant) (slot path : string) (query : Values) : check string := fun b =>
  if negb (Has (Caps g) "assets") then (b, Err ErrCapDenied)
  else match Slots g !! slot with
       | None => (b, Err ErrSlotDenied)
       | Some id =>
           match Authorize ParseMediaType FormatMediaType g (asset_request slot path query) UseAsset with
           | Some e => (b, Err e)
           | None => match spend (consumeHostCall (g_Limits g)) b with
                     | (b', Ok _) => (b', Ok id)
                     | (b', Err e) => (b', Err e)
                     end
           end
       end.

Definition defaultAssetRefTTL : Duration := (24 * hour)%Z.

Definition AssetRef (svc : Service) (fallback : string) (now : Time) (s : bstate) (g : Grant) (slot path : string)
  (query : Values) (t : Transform) : bstate * res broker_error (Payload * string) :=
  let '(s, rid) := authorize s g "AssetRef" (asset_check g slot path query) in
  match rid with
  | Err er => (s, Err er)
  | Ok connID =>
      match Canonicalise path with
      | Err e => (s, Err (BDenied (RoutePathRefused e)))
      | Ok canonicalPath =>
          if negb (validateTransform t) then (s, Err BadTransform)
          else
            let revision := match SlotRevisions (Ident g) !! slot with
                            | Some r => if String.eqb r "" then fallback else r
                            | None => fallback
                            end in
            let payload := {| pl_V := 1; pl_Connection := connID; pl_ConnectionRevision := revision;
                              pl_Path := canonicalPath; pl_Query := canonicalQuery query;
                              pl_Transform := transformString t; pl_Plugin := PluginID g +:+ "@" +:+ g_Version g;
                              pl_Expires := unix (now + defaultAssetRefTTL) |} in
            (s, Ok (payload, Mint hmac marshal svc payload))
      end
  end.
End Broker.

(** ** The registry implements its interface *)

Lemma client_do_trace e c req i w :
  (client_do e c req).1 !! i = Some w ->
  exists w0, build_request c req = Ok w0
    /\ (client_do e c req).1 = (follow (send e) (client_policy c (redirect_authorizer e))
                                  (S (S (Z.to_nat (h_MaxRedirects (cl_cfg c))))) 0 w0).1.
Proof.
  unfold client_do. destruct (build_request c req) as [w0|er]; [|done]. intros _. exists w0. split; [done|].
  by destruct (follow _ _ _ _ w0) as [tr r].
Qed.

Lemma client_do_redirect e c req i w f :
  (client_do e c req).1 !! S i = Some w -> redirect_authorizer e = Some f ->
  exists rr, redirect_of (cl_base c) (client_owned c) w rr /\ f rr = None.
Proof.
  intros Hw Hf. destruct (client_do_trace _ _ _ _ _ Hw) as (w0 & _ & Et). rewrite Et in Hw.
  apply follow_checked in Hw as [Hp _]. apply client_policy_ok in Hp as (Hh & Hs & cp & Hc & _ & Ha).
  destruct (Ha f Hf) as (b & rel & Hb & Hr & Hseg & Hok).
  eexists. split; [|exact Hok]. split_and!; [done..|]. by exists cp, b.
Qed.

(** Of the query, the credentials set the owned key alone. *)
Lemma injectAuth_other_query h q auth static k : k <> "" -> k ∉ on_query (ownedNames auth static) -> (injectAuth h q auth).2 !! k = q !! k.
Proof.
  intros Hk. unfold ownedNames, injectAuth. destruct (String.eqb (au_Type auth) AuthTHeader); [done|]. destruct (String.eqb (au_Type auth) AuthTQuery).
  - unfold values_Set. destruct (String.eqb_spec (au_Name auth) ""); cbn; [intros _; by rewrite lookup_insert_ne by congruence|].
    intros Hn. rewrite lookup_insert_ne; [done|]. intros <-. set_solver.
  - by destruct (String.eqb (au_Type auth) AuthTBearer), (String.eqb (au_Type auth) AuthTBasic).
Qed.

Lemma client_do_first e c req w :
  (client_do e c req).1 !! 0 = Some w ->
  exists u, joinPath (cl_base c) (rq_Path req) = Ok u /\ upath (wr_URL w) = upath u
    /\ host (wr_URL w) = host u /\ scheme (wr_URL w) = scheme u /\ request_method (rq_Method req) = Some (wr_Method w)
    /\ wr_ContentLength w = Z.of_nat (String.length (default "" (rq_Body req)))
    /\ forall k, k <> "" -> k ∉ on_query (client_owned c) -> uquery (wr_URL w) !! k = match rq_Query req !! k with Some v => Some [v] | None => uquery u !! k end.
Proof.
  intros Hw. destruct (client_do_trace _ _ _ _ _ Hw) as (w0 & Hb & Et).
  rewrite Et, follow_first in Hw. injection Hw as ->. revert Hb. unfold build_request.
  destruct (joinPath (cl_base c) (rq_Path req)) as [u|]; [|done].
  destruct (request_method (rq_Method req)) as [m|]; [|done].
  set (h := set_all_headers _ _). set (q := set_all_values _ _). pose proof (fun k => injectAuth_other_query h q (h_Auth (cl_cfg c)) (h_Headers (cl_cfg c)) k) as Hq.
  destruct (injectAuth h q (h_Auth (cl_cfg c))) as [h' q']. intros [= <-]. exists u. split_and!; [done..|cbn; by destruct (rq_Body req)|].
  intros k Hk Ho. cbn. rewrite Hq by done. subst q. by rewrite set_all_values_lookup.
Qed.

Lemma client_do_bounded e c req resp :
  (client_do e c req).2 = Ok resp -> (0 < rq_MaxResponseBytes req)%Z ->
  (Z.of_nat (String.length (rs_Body resp)) <= rq_MaxResponseBytes req)%Z.
Proof.
  unfold client_do. destruct (build_request c req) as [w|er]; [|done].
  destruct (follow _ _ _ _ w) as [tr [[[st h] b]|er]]; [|done]. cbn [snd res_bind].
  unfold readLimited. destruct (Z.ltb_spec (response_limit (cl_cfg c) req) (Z.of_nat (String.length (rd_data b)))); [done|].
  destruct (rd_err b); [done|]. intros [= <-] Hp. simpl. revert H. unfold response_limit. cbv zeta.
  set (lim := if (h_MaxResponseBytes (cl_cfg c) <=? 0)%Z then _ else _).
  destruct (Z.ltb_spec 0 (rq_MaxResponseBytes req)); [|lia].
  destruct (Z.ltb_spec (rq_MaxResponseBytes req) lim); simpl; lia.
Qed.

(** [Do] is the client's share behind the lookups, the limiter and the semaphore. *)
Lemma Do_client e r id req :
  (exists c, r_clients r !! id = Some c /\ Do e r id req = client_do e c req)
  \/ (Do e r id req).1 = [] /\ exists er, (Do e r id req).2 = Err er.
Proof.
  unfold Do. destruct (r_clients r !! id) as [c|]; [|right; eauto].
  destruct (limiter_err e); [right; eauto|]. destruct (acquire_err e); [right; eauto|]. left; eauto.
Qed.

#[export] Instance registry_laws : RegistryLaws registry.
Proof.
  split.
  - intros e r id req i w f Hw Hf. simpl in *.
    destruct (Do_client e r id req) as [(c & Hc & E)|[E _]]; rewrite E in Hw; [|done].
    destruct (client_do_redirect _ _ _ _ _ _ Hw Hf) as (rr & H1 & H2).
    exists (cl_base c), rr. unfold owned_by. rewrite Hc. done.
  - intros e r id req w Hw. simpl in *.
    destruct (Do_client e r id req) as [(c & Hc & E)|[E _]]; rewrite E in Hw; [|done].
    destruct (client_do_first _ _ _ _ Hw) as (u & H1). exists (cl_base c), u. unfold owned_by. rewrite Hc. done.
  - intros e r id req resp Hr Hp. simpl in *.
    destruct (Do_client e r id req) as [(c & Hc & E)|[_ [er E]]]; rewrite E in Hr; [|done].
    by eapply client_do_bounded.
Qed.

#[export] Instance dynamic_laws : RegistryLaws (option registry).
Proof.
  split.
  - intros e [r|] id req i w f; [exact (rl_redirect (R := registry) e r id req i w f)|done].
  - intros e [r|] id req w; [exact (rl_first (R := registry) e r id req w)|done].
  - intros e [r|] id req resp; [exact (rl_bounded (R := registry) e r id req resp)|done].
Qed.

(** ** Lemmas on preambles and budgets *)

(** Within every limit that is set. *)
Record within (l : Limits) (b : budgetState) : Prop := {
  wi_host : (0 <= hostCallsUsed b)%Z /\ (0 < HostCalls l -> hostCallsUsed b <= HostCalls l)%Z;
  wi_http : (0 <= httpRequestsUsed b)%Z /\ (0 < HTTPRequests l -> httpRequestsUsed b <= HTTPRequests l)%Z;
  wi_entries : (0 <= cacheEntriesUsed b)%Z /\ (0 < CacheEntries l -> cacheEntriesUsed b <= CacheEntries l)%Z;
  wi_bytes : (0 <= cacheBytesKBUsed b)%Z /\ (0 < CacheBytesKB l -> cacheBytesKBUsed b <= CacheBytesKB l)%Z }.

Ltac budget_case :=
  repeat match goal with
         | |- context [(?a <? ?b)%Z] => destruct (Z.ltb_spec a b); cbn [andb]
         | |- context [(?a <=? ?b)%Z] => destruct (Z.leb_spec a b); cbn [andb]
         end; try done; intros [= <-].

Lemma consumeHostCall_within l b b' :
  within l b -> consumeHostCall l b = Some b' -> within l b' /\ httpRequestsUsed b' = httpRequestsUsed b
  /\ cacheEntriesUsed b' = cacheEntriesUsed b.
Proof. intros []. unfold consumeHostCall. budget_case; (split; [split; simpl; lia|done]). Qed.

Lemma consumeHTTPRequest_within l b b' :
  within l b -> consumeHTTPRequest l b = Some b' -> within l b' /\ httpRequestsUsed b' = (httpRequestsUsed b + 1)%Z
  /\ cacheEntriesUsed b' = cacheEntriesUsed b.
Proof. intros []. unfold consumeHTTPRequest. budget_case; (split; [split; simpl; lia|done]). Qed.

Lemma consumeCacheWrite_within l b b' n :
  (0 <= n)%Z -> within l b -> consumeCacheWrite l b n = Some b' ->
  within l b' /\ httpRequestsUsed b' = httpRequestsUsed b /\ cacheEntriesUsed b' = (cacheEntriesUsed b + 1)%Z.
Proof.
  intros Hn []. unfold consumeCacheWrite. cbv zeta.
  assert (0 <= Z.quot (n + 1023) 1024)%Z by (apply Z.quot_pos; lia).
  budget_case; (split; [split; simpl; lia|done]).
Qed.

(** The counters of a budget never run behind the calls let through. *)
Definition budget_step (l : Limits) (b b' : budgetState) (http cache : Z) : Prop :=
  within l b -> within l b' /\ (httpRequestsUsed b + http <= httpRequestsUsed b')%Z
                /\ (cacheEntriesUsed b + cache <= cacheEntriesUsed b')%Z.

Lemma spend_host l b : budget_step l b (spend (consumeHostCall l) b).1 0 0.
Proof.
  unfold spend, budget_step. destruct (consumeHostCall l b) eqn:E; simpl; intros Hw; [|split; [done|lia]].
  destruct (consumeHostCall_within _ _ _ Hw E) as (? & -> & ->). split; [done|lia].
Qed.

Section Sequences.
Context {R : Type} `{RegistryLaws R}.
Variable ParseMediaType : string -> option (string * gmap string string).
Variable FormatMediaType : string -> gmap string string -> string.
Variable error_text : cap_error -> string.
Variable hmac : string -> string -> string.
Variable marshal : Payload -> string.
Variable sink : option (string -> Event -> option string).
Variable svc : Service.
Variable fallback : string.

(** One call a plugin makes during an invocation. *)
Inductive call :=
| CHTTP (e : env) (req : HTTPRequest)
| CCacheGet (now : Time) (k : string)
| CCachePut (now : Time) (k val : string) (ttl : Duration)
| CLog (level msg : string) (fields : list (string * any))
| CEmit (ev : Event)
| CAssetRef (now : Time) (slot path : string) (query : Values) (t : Transform).

Definition run_call (r : R) (g : Grant) (s : bstate) (c : call) : bstate :=
  match c with
  | CHTTP e req => (HTTP_call ParseMediaType FormatMediaType error_text e r s g req).1.1
  | CCacheGet now k => (CacheGet error_text now s g k).1
  | CCachePut now k val ttl => (CachePut error_text now s g k val ttl).1
  | CLog level msg fields => (Log error_text s g level msg fields).1
  | CEmit ev => (Emit error_text sink s g ev).1
  | CAssetRef now slot path query t =>
      (AssetRef ParseMediaType FormatMediaType error_text hmac marshal svc fallback now s g slot path query t).1
  end.

(** Calls let through are covered by the budget, and the budget by the limits. *)
Definition accounted (l : Limits) (s : bstate) : Prop :=
  within l (bs_budget s)
  /\ (upstream_calls s <= httpRequestsUsed (bs_budget s))%Z
  /\ (cache_writes s <= cacheEntriesUsed (bs_budget s))%Z.

Lemma authorize_fields {A} s g m (c : budgetState -> budgetState * res cap_error A) :
  bs_budget (authorize error_text s g m c).1 = (c (bs_budget s)).1
  /\ upstream_calls (authorize error_text s g m c).1 = upstream_calls s
  /\ cache_writes (authorize error_text s g m c).1 = cache_writes s
  /\ bs_cache (authorize error_text s g m c).1 = bs_cache s
  /\ match (authorize error_text s g m c).2 with
     | Ok a => (c (bs_budget s)).2 = Ok a /\ bs_audit (authorize error_text s g m c).1 = bs_audit s
     | Err er => exists e, er = BDenied e /\ (c (bs_budget s)).2 = Err e
         /\ bs_audit (authorize error_text s g m c).1 = Denied (bs_audit s) (PluginID g) m (error_text e)
     end.
Proof. unfold authorize. destruct (c (bs_budget s)) as [b [a|e]]; simpl; eauto 10. Qed.

(** The budget effect of each preamble, and what its success means. *)
Lemma http_check_step g req b :
  budget_step (g_Limits g) b (http_check ParseMediaType FormatMediaType g req b).1
    (if is_ok (http_check ParseMediaType FormatMediaType g req b).2 then 1 else 0) 0.
Proof.
  unfold http_check, budget_step. destruct (Has (Caps g) "http"); simpl; [|intros ?; split; [done|lia]].
  destruct (Slots g !! hq_Slot req); simpl; [|intros ?; split; [done|lia]].
  destruct (Authorize _ _ g req UseData); simpl; [intros ?; split; [done|lia]|].
  intros Hw. unfold then_spend, spend. destruct (consumeHostCall (g_Limits g) b) as [b1|] eqn:E1; simpl; [|split; [done|lia]].
  destruct (consumeHostCall_within _ _ _ Hw E1) as (Hw1 & Eh & Ec).
  destruct (consumeHTTPRequest (g_Limits g) b1) as [b2|] eqn:E2; simpl; [|split; [done|lia]].
  destruct (consumeHTTPRequest_within _ _ _ Hw1 E2) as (Hw2 & Eh2 & Ec2). split; [done|lia].
Qed.

Lemma cap_check_step g cap b : budget_step (g_Limits g) b (cap_check g cap id b).1 0 0.
Proof.
  unfold cap_check. destruct (Has (Caps g) cap); simpl; [apply spend_host|]. intros ?; split; [done|lia].
Qed.

Lemma put_check_step g n b :
  (0 <= n)%Z ->
  let r := cap_check g "cache" (then_spend (fun b => consumeCacheWrite (g_Limits g) b n)) b in
  budget_step (g_Limits g) b r.1 0 (if is_ok r.2 then 1 else 0).
Proof.
  intros Hn r. subst r. unfold cap_check, budget_step.
  destruct (Has (Caps g) "cache"); simpl; [|intros ?; split; [done|lia]].
  intros Hw. unfold then_spend, spend. destruct (consumeHostCall (g_Limits g) b) as [b1|] eqn:E1; simpl; [|split; [done|lia]].
  destruct (consumeHostCall_within _ _ _ Hw E1) as (Hw1 & Eh & Ec).
  destruct (consumeCacheWrite (g_Limits g) b1 n) as [b2|] eqn:E2; simpl; [|split; [done|lia]].
  destruct (consumeCacheWrite_within _ _ _ _ Hn Hw1 E2) as (Hw2 & Eh2 & Ec2). split; [done|lia].
Qed.

Lemma asset_check_step g slot path query b :
  budget_step (g_Limits g) b (asset_check ParseMediaType FormatMediaType g slot path query b).1 0 0.
Proof.
  unfold asset_check, budget_step. destruct (Has (Caps g) "assets"); simpl; [|intros ?; split; [done|lia]].
  destruct (Slots g !! slot); simpl; [|intros ?; split; [done|lia]].
  destruct (Authorize _ _ g _ UseAsset); simpl; [intros ?; split; [done|lia]|].
  intros Hw. destruct (spend_host (g_Limits g) b Hw) as (H1 & H2 & H3).
  destruct (spend (consumeHostCall (g_Limits g)) b) as [b' [u|e]]; simpl in *; split; (done || lia).
Qed.

Lemma run_call_accounted r g s c : accounted (g_Limits g) s -> accounted (g_Limits g) (run_call r g s c).
Proof.
  unfold accounted. intros (Hw & Hu & Hc). destruct c as [e req|now k|now k val ttl|lv msg fs|ev|now slot path q t]; simpl.
  - unfold HTTP_call. destruct (authorize_fields s g "HTTP" (http_check ParseMediaType FormatMediaType g req)) as (E1 & E2 & E3 & _ & E4).
    destruct (http_check_step g req (bs_budget s) Hw) as (H1 & H2 & H3).
    destruct (authorize _ s g "HTTP" _) as [s1 [id|er]]; simpl in *.
    + destruct E4 as [E4 _]. rewrite E4 in H2. simpl in H2. rewrite <- E1 in *.
      destruct (rg_Get r id ≫= c_HTTP) as [conn|]; simpl; [|split; [done|lia]].
      destruct (rg_Do _ r id _) as [tr [rs|er]]; [simpl; split; [done|lia]|].
      destruct er; simpl; (split; [done|lia]).
    + rewrite E1, E2, E3. destruct E4 as (e0 & _ & E4 & _). rewrite E4 in H2. simpl in H2. split; [done|lia].
  - unfold CacheGet. destruct (authorize_fields s g "CacheGet" (cap_check g "cache" id)) as (E1 & E2 & E3 & _ & E4).
    destruct (cap_check_step g "cache" (bs_budget s) Hw) as (H1 & H2 & H3).
    destruct (authorize _ s g "CacheGet" _) as [s1 [u|er]]; simpl in *; rewrite <- E1 in *.
    + destruct (cache_Get (bs_cache s1) now (cacheNamespace g) k); simpl. split; [done|lia].
    + split; [done|lia].
  - unfold CachePut. set (ck := cap_check g "cache" _).
    destruct (authorize_fields s g "CachePut" ck) as (E1 & E2 & E3 & _ & E4).
    destruct (put_check_step g (Z.of_nat (String.length val)) (bs_budget s) ltac:(lia) Hw) as (H1 & H2 & H3). fold ck in H1, H2, H3.
    destruct (authorize _ s g "CachePut" ck) as [s1 [u|er]]; simpl in *; rewrite <- E1 in *.
    + destruct E4 as [E4 _]. rewrite E4 in H3. simpl in H3. split; [done|lia].
    + destruct E4 as (e0 & _ & E4 & _). rewrite E4 in H3. simpl in H3. split; [done|lia].
  - unfold Log. destruct (authorize_fields s g "Log" (cap_check g "log" id)) as (E1 & E2 & E3 & _ & E4).
    destruct (cap_check_step g "log" (bs_budget s) Hw) as (H1 & H2 & H3).
    destruct (authorize _ s g "Log" _) as [s1 [u|er]]; simpl in *; rewrite <- E1 in *; (split; [done|lia]).
  - unfold Emit. destruct (authorize_fields s g "Emit" (cap_check g "events" id)) as (E1 & E2 & E3 & _ & E4).
    destruct (cap_check_step g "events" (bs_budget s) Hw) as (H1 & H2 & H3).
    destruct (authorize _ s g "Emit" _) as [s1 [u|er]]; simpl in *; rewrite <- E1 in *; [|split; [done|lia]].
    destruct (String.eqb (ev_Type ev) ""); simpl; [split; [done|lia]|]. destruct sink; simpl; (split; [done|lia]).
  - unfold AssetRef. set (ck := asset_check _ _ g slot path q).
    destruct (authorize_fields s g "AssetRef" ck) as (E1 & E2 & E3 & _ & E4).
    destruct (asset_check_step g slot path q (bs_budget s) Hw) as (H1 & H2 & H3). fold ck in H1, H2, H3.
    destruct (authorize _ s g "AssetRef" ck) as [s1 [u|er]]; simpl in *; rewrite <- E1 in *; [|split; [done|lia]].
    destruct (Canonicalise path); simpl; [|split; [done|lia]].
    destruct (validateTransform t); simpl; (split; [done|lia]).
Qed.

Lemma run_calls_accounted r g s cs :
  accounted (g_Limits g) s -> accounted (g_Limits g) (foldl (run_call r g) s cs).
Proof. revert s; induction cs as [|c cs IH]; intros s Hs; simpl; [done|]. by apply IH, run_call_accounted. Qed.
End Sequences.

(** ** Lemmas on [HTTP] *)

Lemma http_check_Ok PM FM g req b b' id :
  http_check PM FM g req b = (b', Ok id) ->
  "http" ∈ Caps g /\ Slots g !! hq_Slot req = Some id /\ Authorize PM FM g req UseData = None.
Proof.
  unfold http_check, Has. case_bool_decide; simpl; [|done].
  destruct (Slots g !! hq_Slot req) as [i|]; [|done]. destruct (Authorize PM FM g req UseData); [done|].
  destruct (then_spend _ _) as [b1 [u|e]]; [|done]. intros [= <- <-]. done.
Qed.

Lemma asset_check_Ok PM FM g slot path query b b' id :
  asset_check PM FM g slot path query b = (b', Ok id) ->
  "assets" ∈ Caps g /\ Slots g !! slot = Some id /\ Authorize PM FM g (asset_request slot path query) UseAsset = None.
Proof.
  unfold asset_check, Has. case_bool_decide; simpl; [|done].
  destruct (Slots g !! slot) as [i|]; [|done]. destruct (Authorize PM FM g _ UseAsset); [done|].
  destruct (spend _ b) as [b1 [u|e]]; [|done]. intros [= <- <-]. done.
Qed.

Lemma Canonicalise_nonempty p c : Canonicalise p = Ok c -> c <> "".
Proof. intros H%Canonicalise_canonical ->. discriminate H. Qed.

(** What a minted reference says. *)
Record minted (PM : string -> option (string * gmap string string)) (FM : string -> gmap string string -> string) (fb : string) (now : Time)
  (g : Grant) (slot path : string) (query : Values) (t : Transform) (p : Payload) : Prop := {
  mt_cap : "assets" ∈ Caps g;
  mt_slot : Slots g !! slot = Some (pl_Connection p);
  mt_allowed : Authorize PM FM g (asset_request slot path query) UseAsset = None;
  mt_path : Canonicalise path = Ok (pl_Path p) /\ pl_Path p <> "";
  mt_query : pl_Query p = canonicalQuery query;
  mt_transform : pl_Transform p = transformString t /\ validateTransform t = true;
  mt_plugin : pl_Plugin p = PluginID g +:+ "@" +:+ g_Version g /\ pl_Plugin p <> "";
  mt_revision : fb <> "" -> pl_ConnectionRevision p <> "";
  mt_expires : pl_V p = 1%Z /\ pl_Expires p = unix (now + 24 * hour) }.

Lemma AssetRef_Ok PM FM text hmac marshal svc fb now s g slot path query t s' p tok :
  AssetRef PM FM text hmac marshal svc fb now s g slot path query t = (s', Ok (p, tok)) ->
  minted PM FM fb now g slot path query t p /\ tok = Mint hmac marshal svc p.
Proof.
  unfold AssetRef. set (ck := asset_check PM FM g slot path query).
  assert (Hf := authorize_fields text s g "AssetRef" ck).
  destruct (authorize text s g "AssetRef" ck) as [s1 [id|er]]; [|by intros [=]]. simpl in Hf.
  destruct Hf as (_ & _ & _ & _ & Hok & _). unfold ck in Hok.
  destruct (asset_check PM FM g slot path query (bs_budget s)) as [b' r] eqn:Ec. simpl in Hok. subst r.
  apply asset_check_Ok in Ec as (Hc & Hs & Ha).
  destruct (Canonicalise path) as [cp|] eqn:Ep; [|by intros [=]].
  destruct (validateTransform t) eqn:Et; [|by intros [=]]. cbn [negb]. intros [= <- <- <-]. split; [|done]. split; try done.
  - split; [done|]. by eapply Canonicalise_nonempty.
  - split; [done|]. cbn. by destruct (PluginID g).
  - intros Hfb. cbn. destruct (SlotRevisions (Ident g) !! slot) as [rv|]; [|done]. by destruct (String.eqb_spec rv "").
Qed.

(** A path without escapes is put on the wire as it was authorised. *)
Lemma url_parse_literal p d :
  all_bytes (fun b => negb (Ascii.eqb b percent)) p = true -> url_parse_path p = Some d -> d = p.
Proof.
  intros Hp. unfold url_parse_path. destruct (negb (all_bytes _ p)); [done|]. destruct (negb (HasPrefix p "/")); [done|].
  rewrite path_unescape_literal by done. by intros [= <-].
Qed.

(** ** What a call puts on the wire *)

(** The request [w] on the wire is what was authorised as [hr] for a connection: its host and scheme, its method, the length of its body,
    its query but for the key the connection owns, and its path under the connection's base. Of the first request the path is decoded
    once more on its way to the wire ([sent_as]); a redirect was authorised as it is sent. *)
Record as_authorised (base : URL) (owned : ownedNameSet) (first : bool) (hr : HTTPRequest) (w : wire_request) : Prop := {
  aa_host : host (wr_URL w) = host base /\ scheme (wr_URL w) = scheme base;
  aa_method : if first then request_method (hq_Method hr) = Some (wr_Method w) else hq_Method hr = wr_Method w;
  aa_length : if first then wr_ContentLength w = Z.of_nat (String.length (default "" (hq_Body hr))) else hq_BodyLen hr = redirectBodyLen w;
  aa_query : forall k v vs, k <> "" -> k ∉ on_query owned -> uquery (wr_URL w) !! k = Some (v :: vs) ->
    hq_Query hr !! k = Some v /\ (first = true -> vs = []);
  aa_path : exists cp b p sent, Canonicalise (upath (wr_URL w)) = Ok cp /\ Canonicalise (base_path base) = Ok b
    /\ Canonicalise (hq_Path hr) = Ok p /\ path_segments cp = path_segments b ++ sent
    /\ (if first then Forall2 sent_as (path_segments p) sent else sent = path_segments p)
    /\ (all_bytes (fun b => negb (Ascii.eqb b percent)) (hq_Path hr) = true -> sent = path_segments p) }.

Lemma Authorize_path PM FM g hr use : Authorize PM FM g hr use = None -> exists p, Canonicalise (hq_Path hr) = Ok p.
Proof. unfold Authorize. destruct (Canonicalise (hq_Path hr)) as [p|]; [by exists p|done]. Qed.
Lemma first_as_authorised base owned hr w u p rq :
  Canonicalise (hq_Path hr) = Ok p -> joinPath base (hq_Path hr) = Ok u -> upath (wr_URL w) = upath u -> host (wr_URL w) = host u -> scheme (wr_URL w) = scheme u ->
  request_method (hq_Method hr) = Some (wr_Method w) -> wr_ContentLength w = Z.of_nat (String.length (default "" (hq_Body hr))) ->
  rq ⊆ hq_Query hr -> (forall k, k <> "" -> k ∉ on_query owned -> uquery (wr_URL w) !! k = match rq !! k with Some v => Some [v] | None => uquery u !! k end) ->
  as_authorised base owned true hr w.
Proof.
  intros Hp Hj Hu Hh Hs Hm Hl Hsub Hq. apply joinPath_Ok in Hj as [[E _]|(d & b & q & Hd & Hcq & Hb & ->)].
  { rewrite E in Hp. done. }
  split; [done|done|done|..].
  - intros k v vs Hk Ho E. rewrite Hq in E by done. destruct (rq !! k) as [v'|] eqn:Ek; [|cbn in E; by rewrite lookup_empty in E]. injection E as -> <-.
    split; [by eapply lookup_weaken|done].
  - exists (path_join b q), b, p, (path_segments q). rewrite Hu. destruct (path_join_canonical b q) as [Hc Hseg]; [by eapply Canonicalise_canonical..|].
    split_and!; try done; [by eapply sent_segments|]. intros Hlit. apply url_parse_literal in Hd as ->; [|done]. rewrite Hp in Hcq. by injection Hcq as ->.
Qed.
Lemma redirect_as_authorised base owned w rr slot : redirect_of base owned w rr -> as_authorised base owned false (redirect_request slot rr) w.
Proof.
  intros (Hh & Hs & Hm & Hl & Hq & _ & cp & b & Hc & Hb & Hr & Hseg). split; [done|done|done|..].
  - intros k v vs Hk Ho E. split; [|done]. cbn. rewrite Hq. unfold firstQueryValues. rewrite lookup_omap, (proj2 (map_lookup_filter_Some _ _ _ _)) by done. done.
  - by exists cp, b, (rr_Path rr), (path_segments (rr_Path rr)).
Qed.

Lemma HTTP_call_wire {R} `{RegistryLaws R} PM FM text e (r : R) s g req :
  let '(s', tr, resp) := HTTP_call PM FM text e r s g req in
  forall i w, tr !! i = Some w ->
  exists hr id base, Authorize PM FM g hr UseData = None /\ hq_Slot hr = hq_Slot req
    /\ Slots g !! hq_Slot req = Some id /\ rg_base r id = Some base
    /\ (i = 0 -> hr = req) /\ as_authorised base (rg_owned r id) (Nat.eqb i 0) hr w.
Proof.
  unfold HTTP_call. destruct (authorize text s g "HTTP" (http_check PM FM g req)) as [s1 rid] eqn:Ea.
  assert (Hf := authorize_fields text s g "HTTP" (http_check PM FM g req)). rewrite Ea in Hf. simpl in Hf.
  destruct Hf as (_ & _ & _ & _ & Hf). destruct rid as [id|er]; [|done]. destruct Hf as [Hok _].
  destruct (http_check PM FM g req (bs_budget s)) as [b' r'] eqn:Ec. simpl in Hok. subst r'.
  apply http_check_Ok in Ec as (_ & Hslot & Hauth).
  destruct (rg_Get r id ≫= c_HTTP) as [conn|]; [|done].
  set (e' := grant_env PM FM text e g (hq_Slot req)). set (rq := upstream_request g conn req).
  assert (Hgoal : forall i w, (rg_Do e' r id rq).1 !! i = Some w ->
    exists hr id0 base, Authorize PM FM g hr UseData = None /\ hq_Slot hr = hq_Slot req
    /\ Slots g !! hq_Slot req = Some id0 /\ rg_base r id0 = Some base
    /\ (i = 0 -> hr = req) /\ as_authorised base (rg_owned r id0) (Nat.eqb i 0) hr w).
  { intros [|i] w Hw.
    - destruct (Authorize_path _ _ _ _ _ Hauth) as [p Hp].
      apply rl_first in Hw as (base & u & Hb & Hj & Hu & Hh & Hs & Hm & Hl & Hq). exists req, id, base. split_and!; [done..|].
      apply (first_as_authorised _ _ _ _ u p (rq_Query rq)); try done. apply map_filter_subseteq.
    - destruct (rl_redirect _ _ _ _ _ _ _ Hw eq_refl) as (base & rr & Hb & Hr & Ha).
      apply fmap_None in Ha. exists (redirect_request (hq_Slot req) rr), id, base.
      split_and!; [done..|by eapply redirect_as_authorised]. }
  destruct (rg_Do e' r id rq) as [tr [rs|er]]; [exact Hgoal|]. by destruct er.
Qed.

(** ** Lemmas on cache keys *)

(** What separates the parts of a full cache key. *)
Definition digest_shaped (d : string) : Prop := exists hex, d = "sha256:" +:+ hex /\ no_sep ":" hex.

Lemma full_key_split g k :
  no_sep ":" (PluginID g) -> digest_shaped (ManifestDigest (Ident g)) -> no_sep ":" (InstanceID g) ->
  exists hex, ManifestDigest (Ident g) = "sha256:" +:+ hex
    /\ Split ":" (cacheNamespace g +:+ ":" +:+ k) = ["plugin"; PluginID g; "sha256"; hex; InstanceID g] ++ Split ":" k.
Proof.
  intros Hp (hex & Hd & Hh) Hi. exists hex. split; [done|]. unfold cacheNamespace. rewrite Hd, !app_assoc_str.
  assert (Hcolon : forall x, ":" +:+ x = String ":" x) by done. rewrite !Hcolon.
  change ("plugin:" +:+ ?x) with ("plugin" +:+ String ":" x).
  change ("sha256:" +:+ ?x) with ("sha256" +:+ String ":" x).
  rewrite !Split_app_sep; done.
Qed.

Lemma full_key_inj g g' k k' :
  no_sep ":" (PluginID g) -> digest_shaped (ManifestDigest (Ident g)) -> no_sep ":" (InstanceID g) ->
  no_sep ":" (PluginID g') -> digest_shaped (ManifestDigest (Ident g')) -> no_sep ":" (InstanceID g') ->
  cacheNamespace g +:+ ":" +:+ k = cacheNamespace g' +:+ ":" +:+ k' ->
  cacheNamespace g = cacheNamespace g' /\ k = k'.
Proof.
  intros H1 H2 H3 H4 H5 H6 E.
  destruct (full_key_split g k H1 H2 H3) as (hex & Ed & Es). destruct (full_key_split g' k' H4 H5 H6) as (hex' & Ed' & Es').
  rewrite E, Es' in Es. simpl in Es. injection Es as Ep Eh Ei Ek.
  assert (En : cacheNamespace g = cacheNamespace g') by (unfold cacheNamespace; rewrite Ed, Ed'; congruence).
  split; [done|]. rewrite En in E. apply app_inj_l in E. by apply (app_inj_l ":") in E.
Qed.

(** ** A grant to try the broker on *)

Definition sample_route (use path : string) : Route :=
  {| rt_Slot := "nas"; rt_Method := "GET"; rt_Path := path; rt_Use := use; rt_QueryKeys := Some [];
     rt_ContentType := ""; rt_MaxBodyKB := 0 |}.

Definition sample_grant (plugin : string) : Grant :=
  (NewGrant plugin "1" "card" {["nas" := "nas"]} (NewCapSet ["http"; "assets"; "cache"])
     [sample_route UseData "/status"; sample_route UseData "/other"; sample_route UseAsset "/thumb/*"]
     [sample_route UseData "/status"; sample_route UseData "/other"; sample_route UseAsset "/thumb/*"]
     {["nas" := {| cp_AllowedPaths := [] |}]}
     {| HTTPRequests := 1; ResponseMB := 1; CacheEntries := 1; CacheBytesKB := 1; HostCalls := 3; RequestBodyKB := 0 |}
     {| SnapshotGen := 1; CardHash := ""; ManifestDigest := "sha256:ab"; ApprovalRevision := "r";
        SlotRevisions := ∅ |}).1.

Definition sample_bstate : bstate :=
  {| bs_budget := freshBudget; bs_cache := ∅; bs_audit := NewMemAudit; bs_log := []; bs_events := [];
     upstream_calls := 0; cache_writes := 0 |}.

Definition sample_get (path : string) : HTTPRequest :=
  {| hq_Slot := "nas"; hq_Method := "GET"; hq_Path := path; hq_Query := ∅; hq_Header := ∅; hq_Body := None; hq_BodyLen := 0 |}.

Definition sample_broker_registry : registry := sample_registry (sample_client (sample_auth "bearer" "" "s3cr3t")).

Definition sample_http_call (path next : string) : bstate * list wire_request * res broker_error Response :=
  HTTP_call (fun _ => None) (fun _ _ => "") (fun _ => "denied") (sample_env (with_path sample_base_url next ∅))
    sample_broker_registry sample_bstate (sample_grant "p") (sample_get path).

(** A redirect to another granted route is followed, one to a route of the other use is not. *)
Example http_follows_granted_redirect :
  length (sample_http_call "/status" "/api/v1/other").1.2 = 2 /\ length (sample_http_call "/status" "/api/v1/thumb/1").1.2 = 1
  /\ (sample_http_call "/thumb/1" "/").1.2 = [].
Proof. split_and!; vm_compute; reflexivity. Qed.

(** ** The properties *)

(** C1. Every request a plugin's [HTTP] call puts on the wire is authorised by its grant, whatever
    the upstream answers: the first is the plugin's own request, which [Authorize] accepted, and
    every followed redirect was accepted by the same [Authorize] for the same slot, with the host, scheme,
    method, body length, query and path (relative to the connection's base) of the request actually
    sent. A segment of the first path that holds an escape is sent decoded once more than it was authorised. *)
Theorem every_wire_request_authorised {R} `{RegistryLaws R} PM FM text e (r : R) s g req :
  let '(s', tr, resp) := HTTP_call PM FM text e r s g req in
  forall i w, tr !! i = Some w ->
  exists hr id base, Authorize PM FM g hr UseData = None /\ hq_Slot hr = hq_Slot req
    /\ Slots g !! hq_Slot req = Some id /\ rg_base r id = Some base
    /\ (i = 0 -> hr = req) /\ as_authorised base (rg_owned r id) (Nat.eqb i 0) hr w.
Proof. apply HTTP_call_wire. Qed.

(** The authorised and the sent path differ: an escape that survives one decoding is decoded again. *)
Example escape_is_sent_decoded_twice : sent_as "a%2541" "aA" /\ Canonicalise "/a%2541" = Ok "/a%2541".
Proof. split; [by exists "a%41"|done]. Qed.

Example every_wire_request_authorised_witness :
  exists w, (sample_http_call "/status" "/api/v1/other").1.2 !! 1 = Some w
    /\ exists hr, Authorize (fun _ => None) (fun _ _ => "") (sample_grant "p") hr UseData = None
       /\ hq_Method hr = wr_Method w.
Proof.
  eexists. split; [vm_compute; reflexivity|].
  pose proof (every_wire_request_authorised (fun _ => None) (fun _ _ => "") (fun _ => "denied")
                (sample_env (with_path sample_base_url "/api/v1/other" ∅)) sample_broker_registry sample_bstate
                (sample_grant "p") (sample_get "/status")) as H.
  destruct (HTTP_call _ _ _ _ _ _ _ _) as [[s' tr] r] eqn:E. 
  assert (Htr : tr = (sample_http_call "/status" "/api/v1/other").1.2) by (unfold sample_http_call; rewrite E; reflexivity).
  destruct (H 1 _ ltac:(rewrite Htr; vm_compute; reflexivity)) as (hr & id & base & Ha & _ & _ & _ & _ & [_ Hm _ _ _]).
  exists hr. split; [exact Ha|exact Hm].
Defined.

(** C38. A denied [HTTP] call reaches no upstream: nothing is put on the wire, the cache is
    untouched, and the denial is counted for the plugin; and a call is denied whenever the
    capability, the slot or the route is missing. *)
Theorem denied_sends_nothing {R} `{RegistryOps R} PM FM text e (r : R) s g req :
  ("http" ∉ Caps g \/ Slots g !! hq_Slot req = None \/ Authorize PM FM g req UseData <> None) ->
  let '(s', tr, resp) := HTTP_call PM FM text e r s g req in
  (exists er, resp = Err (BDenied er)) /\ tr = [] /\ bs_cache s' = bs_cache s
  /\ upstream_calls s' = upstream_calls s
  /\ Total (bs_audit s') (PluginID g) = (Total (bs_audit s) (PluginID g) + 1)%Z.
Proof.
  intros Hd. unfold HTTP_call. assert (Hf := authorize_fields text s g "HTTP" (http_check PM FM g req)).
  destruct (authorize text s g "HTTP" (http_check PM FM g req)) as [s1 rid]; simpl in Hf.
  destruct Hf as (_ & E2 & _ & E4 & Hf). destruct rid as [id|er].
  - exfalso. destruct Hf as [Hok _]. destruct (http_check PM FM g req (bs_budget s)) as [b' r'] eqn:Ec. simpl in Hok. subst.
    apply http_check_Ok in Ec as (H1 & H2 & H3). naive_solver.
  - destruct Hf as (e0 & -> & _ & Ea). split_and!; [by eexists|done|done|done|].
    rewrite Ea. unfold Total, Denied; simpl. by rewrite lookup_insert_eq.
Qed.

Example denied_sends_nothing_witness :
  Authorize (fun _ => None) (fun _ _ => "") (sample_grant "p") (sample_get "/admin") UseData <> None
  /\ (sample_http_call "/admin" "/").1.2 = [].
Proof.
  assert (Hd : Authorize (fun _ => None) (fun _ _ => "") (sample_grant "p") (sample_get "/admin") UseData <> None)
    by (vm_compute; discriminate).
  split; [exact Hd|].
  pose proof (denied_sends_nothing (fun _ => None) (fun _ _ => "") (fun _ => "denied")
                (sample_env (with_path sample_base_url "/" ∅)) sample_broker_registry sample_bstate
                (sample_grant "p") (sample_get "/admin") (or_intror (or_intror Hd))) as H.
  unfold sample_http_call. destruct (HTTP_call _ _ _ _ _ _ _ _) as [[s' tr] r]. apply H.
Defined.

(** Over any sequence of broker calls made with one grant, starting from fresh counters, the
    upstream requests made and the cache entries written never exceed the limits that are set,
    and neither do the host calls and the cache kilobytes. *)
Theorem budgets_never_exceeded {R} `{RegistryLaws R} PM FM text hmac marshal sink svc fb (r : R) g s cs :
  bs_budget s = freshBudget -> upstream_calls s = 0%Z -> cache_writes s = 0%Z ->
  let s' := foldl (run_call PM FM text hmac marshal sink svc fb r g) s cs in
  ((0 < HTTPRequests (g_Limits g) -> upstream_calls s' <= HTTPRequests (g_Limits g))
   /\ (0 < CacheEntries (g_Limits g) -> cache_writes s' <= CacheEntries (g_Limits g))
   /\ (0 < HostCalls (g_Limits g) -> hostCallsUsed (bs_budget s') <= HostCalls (g_Limits g))
   /\ (0 < CacheBytesKB (g_Limits g) -> cacheBytesKBUsed (bs_budget s') <= CacheBytesKB (g_Limits g)))%Z.
Proof.
  intros Hb Hu Hc s'. assert (Ha : accounted (g_Limits g) s').
  { apply run_calls_accounted. unfold accounted. rewrite Hb, Hu, Hc. split; [split; simpl; lia|done]. }
  destruct Ha as ([] & Hu' & Hc'). lia.
Qed.

(** Two calls with a budget of one request: the second is refused. *)
Example budgets_never_exceeded_witness :
  let e := sample_env (with_path sample_base_url "/api/v1/other" ∅) in
  let cs := [CHTTP e (sample_get "/status"); CHTTP e (sample_get "/other"); CCachePut 1 "k" "v" 0] in
  let s' := foldl (run_call (fun _ => None) (fun _ _ => "") (fun _ => "denied") sample_hmac sample_marshal None
                     {| key := "k" |} "fb" sample_broker_registry (sample_grant "p")) sample_bstate cs in
  upstream_calls s' = 1%Z /\ (upstream_calls s' <= 1)%Z.
Proof.
  intros e cs s'. split; [vm_compute; reflexivity|].
  refine (proj1 (budgets_never_exceeded (fun _ => None) (fun _ _ => "") (fun _ => "denied") sample_hmac sample_marshal None
           {| key := "k" |} "fb" sample_broker_registry (sample_grant "p") sample_bstate cs eq_refl eq_refl eq_refl) _).
  reflexivity.
Defined.

(** Plugins cannot read or overwrite each other's cache entries: a write under one grant leaves
    every entry of a grant with another plugin, manifest digest or instance as it was, and is
    itself read back under its own key until it expires. *)
Theorem cache_isolated c now g k val ttl g' k' :
  no_sep ":" (PluginID g) -> digest_shaped (ManifestDigest (Ident g)) -> no_sep ":" (InstanceID g) ->
  no_sep ":" (PluginID g') -> digest_shaped (ManifestDigest (Ident g')) -> no_sep ":" (InstanceID g') ->
  let c' := cache_Put c now (cacheNamespace g) k val ttl in
  (cacheNamespace g <> cacheNamespace g' \/ k <> k' ->
     forall t, (cache_Get c' t (cacheNamespace g') k').2 = (cache_Get c t (cacheNamespace g') k').2)
  /\ (forall t, (0 < now)%Z -> (0 < ttl -> t <= now + ttl)%Z ->
      (cache_Get c' t (cacheNamespace g) k).2 = Some val).
Proof.
  intros H1 H2 H3 H4 H5 H6 c'. split.
  - intros Hd t. unfold cache_Get, c', cache_Put. rewrite lookup_insert_ne; [by repeat case_match|].
    intros E. apply full_key_inj in E as [E1 E2]; [|done..]. destruct Hd as [Hd|Hd]; auto.
  - intros t Hn Ht. unfold cache_Get, c', cache_Put. rewrite lookup_insert_eq. unfold isZero, before.
    destruct (Z.ltb_spec 0 ttl).
    + destruct (Z.eqb_spec (now + ttl) 0); [lia|]. cbn [negb andb].
      destruct (Z.ltb_spec (now + ttl) t); [lia|done].
    + done.
Qed.

Example cache_isolated_witness :
  let c' := cache_Put ∅ 1 (cacheNamespace (sample_grant "p")) "k" "v" 0 in
  (cache_Get c' 2 (cacheNamespace (sample_grant "q")) "k").2 = None
  /\ (cache_Get c' 2 (cacheNamespace (sample_grant "p")) "k").2 = Some "v".
Proof.
  assert (Hd : forall n, digest_shaped (ManifestDigest (Ident (sample_grant n)))) by (intros n; by exists "ab").
  destruct (cache_isolated ∅ 1 (sample_grant "p") "k" "v" 0 (sample_grant "q") "k" eq_refl (Hd _) eq_refl eq_refl (Hd _) eq_refl)
    as [H1 H2]. intros c'. split.
  - unfold c'. rewrite H1; [vm_compute; reflexivity|]. left. vm_compute. discriminate.
  - apply H2; [lia|discriminate].
Defined.

(** An asset reference is only minted for a path the grant authorises for [UseAsset], on the
    connection bound to the slot, with an allowed width and format; and the browser-visible token
    verifies to exactly that authority for twenty-four hours and never after. *)
Theorem asset_ref_sound PM FM text hmac marshal svc fb now s g slot path query t s' p tok :
  AssetRef PM FM text hmac marshal svc fb now s g slot path query t = (s', Ok (p, tok)) ->
  "assets" ∈ Caps g /\ Slots g !! slot = Some (pl_Connection p)
  /\ Authorize PM FM g (asset_request slot path query) UseAsset = None
  /\ Canonicalise path = Ok (pl_Path p)
  /\ ((tf_Width t <= 0 /\ tf_Format t = "")%Z
      \/ tf_Width t ∈ [160; 320; 640; 1280]%Z /\ tf_Format t ∈ [""; "webp"; "jpeg"])
  /\ (forall unmarshal at_, unmarshal (marshal p) = Some p -> pl_Connection p <> "" -> fb <> "" ->
      Verify hmac unmarshal svc at_ tok = if (unix at_ <? unix (now + 24 * hour))%Z then Some p else None).
Proof.
  intros [M ->]%AssetRef_Ok. destruct M as [M1 M2 M3 [M4 M4'] M5 [M6 M6'] [M7 M7'] M8 [M9 M9']].
  split_and!; try done; [by apply validateTransform_spec|]. intros unmarshal at_ Hj Hid Hfb.
  rewrite Verify_Mint, payload_ok_complete by auto. by rewrite M9'.
Qed.

Example asset_ref_sound_witness :
  exists s' p tok,
    AssetRef (fun _ => None) (fun _ _ => "") (fun _ => "denied") sample_hmac sample_marshal {| key := "k" |} "fb" 0
      sample_bstate (sample_grant "p") "nas" "/thumb/1" ∅ {| tf_Width := 160; tf_Format := "" |} = (s', Ok (p, tok))
    /\ Canonicalise "/thumb/1" = Ok (pl_Path p).
Proof.
  eexists _, _, _. split; [vm_compute; reflexivity|].
  refine (proj1 (proj2 (proj2 (proj2 (asset_ref_sound (fun _ => None) (fun _ _ => "") (fun _ => "denied") sample_hmac
            sample_marshal {| key := "k" |} "fb" 0 sample_bstate (sample_grant "p") "nas" "/thumb/1" ∅
            {| tf_Width := 160; tf_Format := "" |} _ _ _ _))))).
  vm_compute. reflexivity.
Defined.
