(* ===== verification/Approval.v ===== *)
(** * internal/integrations: the lock, the permission diff and approval

    Requested and approved limits and their reconciliation (limits.go), a route's authority tuple
    (route.go), the permission diff (diff.go), the digest-bound approval (approve.go), the status
    of an integration (status.go), its source (source.go), the manifest view approval works on
    (manifest.go) and reading and atomically writing the lock file (lock.go). The MIME parser and
    formatter, YAML and the lock schema are arguments; the file system of [WriteLock] is explicit
    state. *)
From S2P Require Import Prelude GoPath GoSort RoutePath GoTime.

(** ** limits.go *)

Record limitBound := { lb_def : Z; lb_max : Z }.

Definition limitBounds : list (string * limitBound) :=
  [("memoryMB", {| lb_def := 64; lb_max := 256 |}); ("timeoutMs", {| lb_def := 3000; lb_max := 30000 |});
   ("outputKB", {| lb_def := 64; lb_max := 256 |}); ("httpRequests", {| lb_def := 8; lb_max := 32 |});
   ("responseMB", {| lb_def := 4; lb_max := 16 |}); ("cacheEntries", {| lb_def := 64; lb_max := 512 |});
   ("inputMB", {| lb_def := 4; lb_max := 16 |}); ("jsonDepth", {| lb_def := 32; lb_max := 64 |});
   ("jsonNodes", {| lb_def := 200000; lb_max := 1000000 |}); ("exprNodes", {| lb_def := 512; lb_max := 4096 |});
   ("iterations", {| lb_def := 20000; lb_max := 100000 |}); ("requestBodyKB", {| lb_def := 64; lb_max := 1024 |});
   ("hostCalls", {| lb_def := 256; lb_max := 2048 |}); ("cacheBytesKB", {| lb_def := 256; lb_max := 4096 |})].

(** [limitBounds[name]]: the zero value for a name that is no key. *)
Definition bound_of (name : string) : limitBound :=
  match list_find (fun p => p.1 = name) limitBounds with
  | Some (_, (_, b)) => b
  | None => {| lb_def := 0; lb_max := 0 |}
  end.

Definition limitFieldOrder : list string :=
  ["cacheBytesKB"; "cacheEntries"; "exprNodes"; "hostCalls"; "httpRequests"; "inputMB";
   "iterations"; "jsonDepth"; "jsonNodes"; "memoryMB"; "outputKB"; "requestBodyKB";
   "responseMB"; "timeoutMs"].

(** Pointers to int: [None] is nil, a limit that is not set. *)
Record Limits := {
  lm_MemoryMB : option Z; lm_TimeoutMs : option Z; lm_OutputKB : option Z; lm_HTTPRequests : option Z;
  lm_ResponseMB : option Z; lm_CacheEntries : option Z; lm_InputMB : option Z; lm_JSONDepth : option Z;
  lm_JSONNodes : option Z; lm_ExprNodes : option Z; lm_Iterations : option Z; lm_RequestBodyKB : option Z;
  lm_HostCalls : option Z; lm_CacheBytesKB : option Z }.

(** [Limits.field]: the value, or [None] if it is unset or no field has the name. *)
Definition field (l : Limits) (name : string) : option Z :=
  if String.eqb name "memoryMB" then lm_MemoryMB l
  else if String.eqb name "timeoutMs" then lm_TimeoutMs l
  else if String.eqb name "outputKB" then lm_OutputKB l
  else if String.eqb name "httpRequests" then lm_HTTPRequests l
  else if String.eqb name "responseMB" then lm_ResponseMB l
  else if String.eqb name "cacheEntries" then lm_CacheEntries l
  else if String.eqb name "inputMB" then lm_InputMB l
  else if String.eqb name "jsonDepth" then lm_JSONDepth l
  else if String.eqb name "jsonNodes" then lm_JSONNodes l
  else if String.eqb name "exprNodes" then lm_ExprNodes l
  else if String.eqb name "iterations" then lm_Iterations l
  else if String.eqb name "requestBodyKB" then lm_RequestBodyKB l
  else if String.eqb name "hostCalls" then lm_HostCalls l
  else if String.eqb name "cacheBytesKB" then lm_CacheBytesKB l
  else None.

Definition requested (name : string) (m : Limits) : Z :=
  let b := bound_of name in
  let v := match field m name with Some v => v | None => lb_def b end in
  if (lb_max b <? v)%Z then lb_max b else v.

Definition is_nil {A} (p : option A) : bool := match p with None => true | Some _ => false end.

(** [Limits.isZero] *)
Definition limits_isZero (l : Limits) : bool :=
  is_nil (lm_MemoryMB l) && is_nil (lm_TimeoutMs l) && is_nil (lm_OutputKB l) && is_nil (lm_HTTPRequests l)
  && is_nil (lm_ResponseMB l) && is_nil (lm_CacheEntries l) && is_nil (lm_InputMB l) && is_nil (lm_JSONDepth l)
  && is_nil (lm_JSONNodes l) && is_nil (lm_ExprNodes l) && is_nil (lm_Iterations l) && is_nil (lm_RequestBodyKB l)
  && is_nil (lm_HostCalls l) && is_nil (lm_CacheBytesKB l).

Definition effectiveLimit (name : string) (manifest approved : Limits) : Z :=
  let m := requested name manifest in
  let a := requested name approved in
  if (a <? m)%Z then a else m.

Record EffectiveLimits := {
  el_MemoryMB : Z; el_TimeoutMs : Z; el_OutputKB : Z; el_HTTPRequests : Z; el_ResponseMB : Z; el_CacheEntries : Z;
  el_InputMB : Z; el_JSONDepth : Z; el_JSONNodes : Z; el_ExprNodes : Z; el_Iterations : Z; el_RequestBodyKB : Z;
  el_HostCalls : Z; el_CacheBytesKB : Z }.

Definition zeroEffective : EffectiveLimits :=
  {| el_MemoryMB := 0; el_TimeoutMs := 0; el_OutputKB := 0; el_HTTPRequests := 0; el_ResponseMB := 0;
     el_CacheEntries := 0; el_InputMB := 0; el_JSONDepth := 0; el_JSONNodes := 0; el_ExprNodes := 0;
     el_Iterations := 0; el_RequestBodyKB := 0; el_HostCalls := 0; el_CacheBytesKB := 0 |}.

(** [EffectiveLimits.field] *)
Definition eff_field (e : EffectiveLimits) (name : string) : Z :=
  if String.eqb name "memoryMB" then el_MemoryMB e
  else if String.eqb name "timeoutMs" then el_TimeoutMs e
  else if String.eqb name "outputKB" then el_OutputKB e
  else if String.eqb name "httpRequests" then el_HTTPRequests e
  else if String.eqb name "responseMB" then el_ResponseMB e
  else if String.eqb name "cacheEntries" then el_CacheEntries e
  else if String.eqb name "inputMB" then el_InputMB e
  else if String.eqb name "jsonDepth" then el_JSONDepth e
  else if String.eqb name "jsonNodes" then el_JSONNodes e
  else if String.eqb name "exprNodes" then el_ExprNodes e
  else if String.eqb name "iterations" then el_Iterations e
  else if String.eqb name "requestBodyKB" then el_RequestBodyKB e
  else if String.eqb name "hostCalls" then el_HostCalls e
  else if String.eqb name "cacheBytesKB" then el_CacheBytesKB e
  else 0%Z.

(** [EffectiveLimits.setField] *)
Definition setField (e : EffectiveLimits) (name : string) (v : Z) : EffectiveLimits :=
  let on key old := if String.eqb name key then v else old in
  {| el_MemoryMB := on "memoryMB" (el_MemoryMB e); el_TimeoutMs := on "timeoutMs" (el_TimeoutMs e);
     el_OutputKB := on "outputKB" (el_OutputKB e); el_HTTPRequests := on "httpRequests" (el_HTTPRequests e);
     el_ResponseMB := on "responseMB" (el_ResponseMB e); el_CacheEntries := on "cacheEntries" (el_CacheEntries e);
     el_InputMB := on "inputMB" (el_InputMB e); el_JSONDepth := on "jsonDepth" (el_JSONDepth e);
     el_JSONNodes := on "jsonNodes" (el_JSONNodes e); el_ExprNodes := on "exprNodes" (el_ExprNodes e);
     el_Iterations := on "iterations" (el_Iterations e); el_RequestBodyKB := on "requestBodyKB" (el_RequestBodyKB e);
     el_HostCalls := on "hostCalls" (el_HostCalls e); el_CacheBytesKB := on "cacheBytesKB" (el_CacheBytesKB e) |}.

Definition ReconcileAtApproval (manifest approved : Limits) : EffectiveLimits :=
  foldl (fun out name => setField out name (effectiveLimit name manifest approved)) zeroEffective limitFieldOrder.

(** ** route.go *)

Definition coreDefaultBodyKB : Z := 64.

(** [QueryKeys]: [None] is nil (any key), [Some []] is "no query parameters". *)
Record Route := {
  ir_Slot : string; ir_Method : string; ir_Path : string; ir_Use : string; ir_Reason : string;
  ir_QueryKeys : option (list string); ir_ContentType : string; ir_MaxBodyKB : Z }.

Record identity := {
  id_slot : string; id_method : string; id_path : string; id_use : string; id_queryKeys : string;
  id_contentType : string; id_maxBodyKB : Z }.

#[export] Instance identity_eq_dec : EqDecision identity.
Proof. solve_decision. Defined.

Inductive route_error :=
| BadPath (r : Route) (e : path_error)
| BadContentType (r : Route).

Definition nul : ascii := "000".

(** Dropping the adjacent repetitions of a sorted list. *)
Fixpoint dedup_sorted (prev : option string) (l : list string) : list string :=
  match l with
  | [] => []
  | k :: rest => if bool_decide (prev = Some k) then dedup_sorted prev rest
                 else k :: dedup_sorted (Some k) rest
  end.

Definition canonicalQueryKeys (keys : option (list string)) : string :=
  match keys with
  | None => "*"
  | Some ks => String nul (Join nul (dedup_sorted None (sort_strings ks)))
  end.

Definition effectiveMaxBodyKB (routeMaxKB requestBodyKB : Z) : Z :=
  if (0 <? routeMaxKB)%Z then routeMaxKB
  else if (0 <? requestBodyKB)%Z then requestBodyKB
  else coreDefaultBodyKB.

(** The key [dedupeRoutes] compares. *)
Definition route_key (r : Route) : string * string * string * string * string * Z * string :=
  (ir_Slot r, ir_Method r, ir_Path r, ir_Use r, ir_ContentType r, ir_MaxBodyKB r, canonicalQueryKeys (ir_QueryKeys r)).

Fixpoint dedupe_from (seen : list (string * string * string * string * string * Z * string)) (routes : list Route) : list Route :=
  match routes with
  | [] => []
  | r :: rest => if bool_decide (route_key r ∈ seen) then dedupe_from seen rest
                 else r :: dedupe_from (route_key r :: seen) rest
  end.

Definition dedupeRoutes (routes : list Route) : list Route := dedupe_from [] routes.

Definition bodyBearing (method : string) : bool :=
  String.eqb method "POST" || String.eqb method "PUT" || String.eqb method "PATCH".

(** ** manifest.go, lock.go: the documents *)

(** The subset of a plugin manifest approval needs. *)
Record Manifest := {
  mf_ID : string; mf_Name : string; mf_Version : string; mf_Runtime : string; mf_Capabilities : list string;
  mf_Limits : Limits; mf_Routes : list Route; mf_ModuleSHA256 : string; mf_Digest : string }.

(** [manifestDoc]: what is decoded; an operation is its list of routes. *)
Record manifestDoc := {
  md_ID : string; md_Name : string; md_Version : string; md_Runtime : string; md_Capabilities : list string;
  md_Limits : Limits; md_Module : string; md_SHA256 : string; md_Operations : list (list Route) }.

(** The manifest [LoadManifest] builds from the decoded document and its digest. *)
Definition manifest_of_doc (doc : manifestDoc) (digest : string) : Manifest :=
  {| mf_ID := md_ID doc; mf_Name := md_Name doc; mf_Version := md_Version doc; mf_Runtime := md_Runtime doc;
     mf_Capabilities := md_Capabilities doc; mf_Limits := md_Limits doc;
     mf_Routes := dedupeRoutes (concat (md_Operations doc)); mf_ModuleSHA256 := md_SHA256 doc; mf_Digest := digest |}.

Definition maxManifestBytes : nat := Nat.shiftl 256 10.

Inductive load_error :=
| ErrManifestNotFound
| ReadFailed
| ManifestTooLarge
| DigestFailed
| DecodeFailed.

(** [findManifestFile]: [exists_] is [os.Stat] succeeding. *)
Definition findManifestFile (exists_ : string -> bool) : option string :=
  if exists_ "manifest.yaml" then Some "manifest.yaml"
  else if exists_ "manifest.yml" then Some "manifest.yml"
  else None.

(** [readBoundedFile]: at most one byte more than the cap is read. *)
Definition readBoundedFile (contents : option string) (maxBytes : nat) : res load_error string :=
  match contents with
  | None => Err ReadFailed
  | Some all_ =>
      let raw := String.substring 0 (maxBytes + 1) all_ in
      if Nat.ltb maxBytes (String.length raw) then Err ManifestTooLarge else Ok raw
  end.

(** [LoadManifest] of a directory: its files, the canonical digest and the YAML decoding. *)
Definition LoadManifest (read : string -> option string) (exists_ : string -> bool)
  (digest : string -> option string) (decode : string -> option manifestDoc) : res load_error Manifest :=
  match findManifestFile exists_ with
  | None => Err ErrManifestNotFound
  | Some path =>
      let! raw := readBoundedFile (read path) maxManifestBytes in
      match digest raw with
      | None => Err DigestFailed
      | Some d => match decode raw with
                  | None => Err DecodeFailed
                  | Some doc => Ok (manifest_of_doc doc d)
                  end
      end
  end.

Record LockEntry := {
  le_ManifestSHA256 : string; le_ModuleSHA256 : string; le_Version : string; le_Runtime : string;
  le_ApprovedAt : string; le_ApprovedBy : string; le_Capabilities : list string; le_Routes : list Route;
  le_Limits : option Limits; le_EffectiveLimits : EffectiveLimits }.

(** [Integrations]: [None] is a nil map. *)
Record Lock := { lk_Version : Z; lk_Integrations : option (gmap string LockEntry) }.

Definition emptyLock : Lock := {| lk_Version := 1; lk_Integrations := Some ∅ |}.

(** ** status.go *)

Definition StatusBuiltin : string := "builtin".
Definition StatusApproved : string := "approved".
Definition StatusUnapproved : string := "unapproved".
Definition StatusChanged : string := "changed".

Definition Evaluate (manifest : Manifest) (entry : option LockEntry) : string :=
  match entry with
  | None => StatusUnapproved
  | Some e => if negb (String.eqb (le_ManifestSHA256 e) (mf_Digest manifest)) then StatusChanged else StatusApproved
  end.

(** ** diff.go *)

Record LimitDiff := { ld_Field : string; ld_Current : Z; ld_Requested : Z }.

Record Diff := {
  df_AddedRoutes : list Route; df_RemovedRoutes : list Route; df_AddedCapabilities : list string;
  df_RaisedLimits : list LimitDiff; df_BodyBearingRoutes : list Route }.

Definition Empty (d : Diff) : bool :=
  Nat.eqb (length (df_AddedRoutes d)) 0 && Nat.eqb (length (df_RemovedRoutes d)) 0
  && Nat.eqb (length (df_AddedCapabilities d)) 0 && Nat.eqb (length (df_RaisedLimits d)) 0.

(** ** approve.go *)

Record Grants := { gr_Capabilities : list string; gr_Routes : list Route; gr_Limits : Limits }.

Inductive approve_error :=
| ErrDigestChanged
| ExceedsCapability (c : string)
| ExceedsRoute (r : Route)
| ExceedsBadRoute (e : route_error)
| ExceedsLimit (name : string)
| ManifestRouteInvalid (e : route_error).

(** A loop that stops at the first error. *)
Fixpoint for_each {A E} (f : A -> res E unit) (l : list A) : res E unit :=
  match l with
  | [] => Ok tt
  | x :: rest => let! _ := f x in for_each f rest
  end.

Section Authority.
Variable ParseMediaType : string -> option (string * gmap string string).
Variable FormatMediaType : string -> gmap string string -> string.

Definition normaliseContentType (v : string) : option string :=
  if String.eqb v "" then Some ""
  else match ParseMediaType v with
       | None => None
       | Some (mt, params) =>
           let params := match params !! "charset" with
                         | Some cs => <["charset" := ToLower cs]> params
                         | None => params
                         end in
           let out := FormatMediaType (ToLower mt) params in
           if String.eqb out "" then None else Some out
       end.

(** [Route.identity] *)
Definition route_identity (r : Route) (requestBodyKB : Z) : res route_error identity :=
  match Canonicalise (ir_Path r) with
  | Err e => Err (BadPath r e)
  | Ok path =>
      let use := if String.eqb (ir_Use r) "" then "data" else ir_Use r in
      match normaliseContentType (ir_ContentType r) with
      | None => Err (BadContentType r)
      | Some ct =>
          Ok {| id_slot := ir_Slot r; id_method := ir_Method r; id_path := path; id_use := use;
                id_queryKeys := canonicalQueryKeys (ir_QueryKeys r); id_contentType := ct;
                id_maxBodyKB := effectiveMaxBodyKB (ir_MaxBodyKB r) requestBodyKB |}
      end
  end.

(** The set of the identities, as a list without order. *)
Fixpoint identitySet (routes : list Route) (requestBodyKB : Z) : res route_error (list identity) :=
  match routes with
  | [] => Ok []
  | r :: rest => let! id := route_identity r requestBodyKB in
                 let! set := identitySet rest requestBodyKB in Ok (id :: set)
  end.

(** The routes of a list whose identity is not in a set: the added and the removed ones. *)
Fixpoint routes_outside (set : list identity) (requestBodyKB : Z) (routes : list Route) : res route_error (list Route) :=
  match routes with
  | [] => Ok []
  | r :: rest => let! id := route_identity r requestBodyKB in
                 let! out := routes_outside set requestBodyKB rest in
                 Ok (if bool_decide (id ∈ set) then out else r :: out)
  end.

Definition raised_limits (m : Limits) (effective : EffectiveLimits) : list LimitDiff :=
  concat (map (fun name =>
    let req := requested name m in
    let cur := eff_field effective name in
    if (cur <? req)%Z then [{| ld_Field := name; ld_Current := cur; ld_Requested := req |}] else []) limitFieldOrder).

Definition ComputeDiff (m : Manifest) (entry : option LockEntry) : res route_error Diff :=
  let manifestReqBodyKB := requested "requestBodyKB" (mf_Limits m) in
  let '(lockRoutes, lockCaps, effective) :=
    match entry with
    | Some e => (le_Routes e, le_Capabilities e, le_EffectiveLimits e)
    | None => ([], [], zeroEffective)
    end in
  let lockReqBodyKB := el_RequestBodyKB effective in
  let! manifestSet := identitySet (mf_Routes m) manifestReqBodyKB in
  let! lockSet := identitySet lockRoutes lockReqBodyKB in
  let! added := routes_outside lockSet manifestReqBodyKB (mf_Routes m) in
  let! removed := routes_outside manifestSet lockReqBodyKB lockRoutes in
  Ok {| df_AddedRoutes := added; df_RemovedRoutes := removed;
        df_AddedCapabilities := filter (fun c => c ∉ lockCaps) (mf_Capabilities m);
        df_RaisedLimits := raised_limits (mf_Limits m) effective;
        df_BodyBearingRoutes := filter (fun r => bodyBearing (ir_Method r) = true) (mf_Routes m) |}.

Definition without_reason (r : Route) : Route :=
  {| ir_Slot := ir_Slot r; ir_Method := ir_Method r; ir_Path := ir_Path r; ir_Use := ir_Use r; ir_Reason := "";
     ir_QueryKeys := ir_QueryKeys r; ir_ContentType := ir_ContentType r; ir_MaxBodyKB := ir_MaxBodyKB r |}.

(** The three refusals of [Approve], one per kind of grant. *)
Definition check_capability (m : Manifest) (c : string) : res approve_error unit :=
  if bool_decide (c ∈ mf_Capabilities m) then Ok tt else Err (ExceedsCapability c).

Definition check_route (manifestRoutes : list identity) (kb : Z) (r : Route) : res approve_error unit :=
  match route_identity r kb with
  | Err e => Err (ExceedsBadRoute e)
  | Ok id => if bool_decide (id ∈ manifestRoutes) then Ok tt else Err (ExceedsRoute r)
  end.

Definition check_limit (m granted : Limits) (name : string) : res approve_error unit :=
  match field granted name with
  | None => Ok tt
  | Some v => if (requested name m <? v)%Z then Err (ExceedsLimit name) else Ok tt
  end.

Definition Approve (m : Manifest) (expectedManifestSHA256 : string) (grants : Grants) (approvedBy : string)
  (now : Time) : res approve_error LockEntry :=
  if negb (String.eqb (mf_Digest m) expectedManifestSHA256) then Err ErrDigestChanged
  else
    let! _ := for_each (check_capability m) (gr_Capabilities grants) in
    let manifestReqBodyKB := requested "requestBodyKB" (mf_Limits m) in
    let! manifestRoutes := res_map_err ManifestRouteInvalid (identitySet (mf_Routes m) manifestReqBodyKB) in
    let! _ := for_each (check_route manifestRoutes manifestReqBodyKB) (gr_Routes grants) in
    let! _ := for_each (check_limit (mf_Limits m) (gr_Limits grants)) limitFieldOrder in
    Ok {| le_ManifestSHA256 := mf_Digest m; le_ModuleSHA256 := mf_ModuleSHA256 m; le_Version := mf_Version m;
          le_Runtime := mf_Runtime m; le_ApprovedAt := Format_RFC3339 now; le_ApprovedBy := approvedBy;
          le_Capabilities := gr_Capabilities grants; le_Routes := map without_reason (gr_Routes grants);
          le_Limits := if limits_isZero (gr_Limits grants) then None else Some (gr_Limits grants);
          le_EffectiveLimits := ReconcileAtApproval (mf_Limits m) (gr_Limits grants) |}.
End Authority.

(** ** lock.go: reading and writing *)

Inductive file_read :=
| FileMissing
| FileUnreadable
| FileData (raw : string).

Inductive lock_error :=
| LockUnreadable
| LockNotYAML
| LockSchemaFailed
| LockDoesNotMatch
| LockMarshalFailed.

Section LockFile.
Context {Y : Type}.
Variable unmarshal_any : string -> option Y.             (* yaml.Unmarshal into any *)
Variable unmarshal_lock : string -> option Lock.         (* yaml.Unmarshal into Lock *)
Variable marshal : Lock -> option string.                (* yaml.Marshal *)
Variable lockSchema : option (Y -> bool).                (* the compiled schema, if it compiles *)

(** The document is YAML and matches the schema. *)
Definition schema_check (raw : string) : res lock_error unit :=
  match unmarshal_any raw with
  | None => Err LockNotYAML
  | Some generic => match lockSchema with
                    | None => Err LockSchemaFailed
                    | Some valid => if valid generic then Ok tt else Err LockDoesNotMatch
                    end
  end.

Definition ReadLock (f : file_read) : res lock_error Lock :=
  match f with
  | FileMissing => Ok emptyLock
  | FileUnreadable => Err LockUnreadable
  | FileData raw =>
      let! _ := schema_check raw in
      match unmarshal_lock raw with
      | None => Err LockNotYAML
      | Some lock => Ok {| lk_Version := lk_Version lock; lk_Integrations := Some (default ∅ (lk_Integrations lock)) |}
      end
  end.

(** A file: its contents and its mode. *)
Abbreviation files := (gmap string (string * Z)) (only parsing).

Inductive fs_op :=
| CreateTemp (p : string)
| Append (p s : string)
| Chmod (p : string) (mode : Z)
| Rename (a b : string)
| Remove (p : string).

Definition fs_apply (fs : files) (o : fs_op) : files :=
  match o with
  | CreateTemp p => <[p := ("", 384%Z)]> fs
  | Append p s => alter (fun f => (f.1 +:+ s, f.2)) p fs
  | Chmod p mode => alter (fun f => (f.1, mode)) p fs
  | Rename a b => match fs !! a with Some f => <[b := f]> (delete a fs) | None => fs end
  | Remove p => delete p fs
  end.

Definition LockFileMode : Z := 416.    (* 0640 *)

Definition lock_header : string :=
  "# Written by `veduta integration approve <id>`; commit it alongside veduta.yaml." +:+ String "010" "" +:+
  "# A manifest whose digest or effective permissions differ from this record is" +:+ String "010" "" +:+
  "# refused at load with a printed permission diff, until it is approved again." +:+ String "010" "".

(** The file operations of a write that is cut into [chunks]; the one at index [fail], if any, does
    not take effect and ends the write, the deferred removal aside. *)
Definition write_ops (tmp path : string) (chunks : list string) (fail : option nat) : list fs_op :=
  let ops := CreateTemp tmp :: map (Append tmp) chunks ++ [Chmod tmp LockFileMode; Rename tmp path] in
  match fail with
  | None => ops ++ [Remove tmp]
  | Some 0 => []
  | Some k => take k ops ++ [Remove tmp]
  end.

(** [WriteLock]: the operations it performs, or the error before any of them. *)
Definition WriteLock (tmp path : string) (cut : string -> list string) (fail : option nat) (lock : Lock)
  : res lock_error (list fs_op) :=
  match marshal lock with
  | None => Err LockMarshalFailed
  | Some body =>
      let! _ := schema_check body in
      Ok (write_ops tmp path (cut (lock_header +:+ body)) fail)
  end.
End LockFile.

(** ** source.go *)

Record Source := { so_Builtin : bool; so_Dir : string }.

Definition ResolveSource (configDir raw : string) : option Source :=
  if String.eqb raw "builtin" then Some {| so_Builtin := true; so_Dir := "" |}
  else match strip_prefix "path:" raw with
       | None => None
       | Some rest =>
           if String.eqb rest "" then None
           else let dir := if HasPrefix rest "/" then rest else filepath_Join configDir rest in
                Some {| so_Builtin := false; so_Dir := filepath_Clean dir |}
       end.

Example resolve_source_samples :
  map (ResolveSource "/etc/veduta") ["builtin"; "path:./plugins/immich"; "path:/opt/../x//y/."; "path:../p"; "path:"; "git:x"]
  = [Some {| so_Builtin := true; so_Dir := "" |}; Some {| so_Builtin := false; so_Dir := "/etc/veduta/plugins/immich" |};
     Some {| so_Builtin := false; so_Dir := "/x/y" |}; Some {| so_Builtin := false; so_Dir := "/etc/p" |}; None; None].
Proof. reflexivity. Qed.

(** ** Lemmas on limits *)

Lemma requested_le_max name m : (requested name m <= lb_max (bound_of name))%Z.
Proof. unfold requested. cbv zeta. destruct (Z.ltb_spec (lb_max (bound_of name)) (match field m name with Some v => v | None => lb_def (bound_of name) end)); lia. Qed.

Lemma effectiveLimit_min name m a : effectiveLimit name m a = Z.min (requested name m) (requested name a).
Proof. unfold effectiveLimit. cbv zeta. destruct (Z.ltb_spec (requested name a) (requested name m)); lia. Qed.

Ltac each_limit H :=
  unfold limitFieldOrder in H; rewrite !elem_of_cons in H;
  repeat (destruct H as [->|H]; [|]); try (apply elem_of_nil in H; done).

Lemma bounds_ordered name : name ∈ limitFieldOrder -> (0 < lb_def (bound_of name) <= lb_max (bound_of name))%Z.
Proof. intros H. each_limit H; vm_compute; split; (reflexivity || discriminate). Qed.

Lemma requested_default name m :
  name ∈ limitFieldOrder -> field m name = None -> requested name m = lb_def (bound_of name).
Proof.
  intros H%bounds_ordered Hf. unfold requested. rewrite Hf. cbv zeta.
  destruct (Z.ltb_spec (lb_max (bound_of name)) (lb_def (bound_of name))); lia.
Qed.

Lemma reconcile_field name m a :
  name ∈ limitFieldOrder -> eff_field (ReconcileAtApproval m a) name = effectiveLimit name m a.
Proof. intros H. each_limit H; reflexivity. Qed.

Lemma reconcile_same m : el_RequestBodyKB (ReconcileAtApproval m m) = requested "requestBodyKB" m.
Proof.
  change (eff_field (ReconcileAtApproval m m) "requestBodyKB" = requested "requestBodyKB" m).
  rewrite reconcile_field, effectiveLimit_min by (unfold limitFieldOrder; rewrite !elem_of_cons; tauto). apply Z.min_id.
Qed.

Lemma raised_nil_iff m e :
  raised_limits m e = [] <-> forall name, name ∈ limitFieldOrder -> (requested name m <= eff_field e name)%Z.
Proof.
  unfold raised_limits. rewrite concat_map_nil, Forall_forall. split; intros H name Hn; specialize (H name Hn); cbv zeta in *;
    destruct (Z.ltb_spec (eff_field e name) (requested name m)); (done || lia).
Qed.

Lemma filter_nil_iff (caps granted : list string) :
  filter (fun c => c ∉ granted) caps = [] <-> forall c, c ∈ caps -> c ∈ granted.
Proof.
  split.
  - intros H c Hc. destruct (decide (c ∈ granted)) as [|Hn]; [done|].
    exfalso. apply (not_elem_of_nil c). rewrite <- H. by apply list_elem_of_filter.
  - intros H. destruct (filter _ caps) as [|c l] eqn:E; [done|]. exfalso.
    assert (Hc : c ∈ filter (fun c => c ∉ granted) caps) by (rewrite E; left).
    apply list_elem_of_filter in Hc as [Hn Hc]. by apply Hn, H.
Qed.

(** ** Lemmas on loops and identities *)

Lemma for_each_Ok {A E} (f : A -> res E unit) l :
  for_each f l = Ok tt <-> forall x, x ∈ l -> f x = Ok tt.
Proof.
  induction l as [|x l IH]; simpl; [split; [intros _ x Hx; by apply elem_of_nil in Hx|done]|].
  destruct (f x) as [[]|e] eqn:E1; simpl.
  - rewrite IH. setoid_rewrite elem_of_cons. split; [intros H y [->|Hy]; auto|auto].
  - split; [done|]. intros H. rewrite (H x) in E1; [done|left].
Qed.

Section Lemmas.
Variable ParseMediaType : string -> option (string * gmap string string).
Variable FormatMediaType : string -> gmap string string -> string.
Local Abbreviation id_of := (route_identity ParseMediaType FormatMediaType).

Lemma identitySet_Ok routes kb set :
  identitySet ParseMediaType FormatMediaType routes kb = Ok set ->
  (forall r, r ∈ routes -> exists id, id_of r kb = Ok id /\ id ∈ set)
  /\ (forall id, id ∈ set -> exists r, r ∈ routes /\ id_of r kb = Ok id).
Proof.
  revert set. induction routes as [|r routes IH]; intros set; simpl.
  - intros [= <-]. split; intros ? H; by apply elem_of_nil in H.
  - destruct (id_of r kb) as [id|e] eqn:Ei; simpl; [|done].
    destruct (identitySet _ _ routes kb) as [s|e]; simpl; [|done]. intros [= <-].
    destruct (IH s eq_refl) as [H1 H2]. split.
    + intros r' [->|Hr]%elem_of_cons; [exists id; split; [done|left]|].
      destruct (H1 r' Hr) as (i & ? & ?). exists i. split; [done|by right].
    + intros i [->|Hi]%elem_of_cons; [exists r; split; [left|done]|].
      destruct (H2 i Hi) as (r' & ? & ?). exists r'. split; [by right|done].
Qed.

Lemma identitySet_total routes kb :
  (exists set, identitySet ParseMediaType FormatMediaType routes kb = Ok set)
  <-> forall r, r ∈ routes -> exists id, id_of r kb = Ok id.
Proof.
  split.
  - intros [set H] r Hr. apply identitySet_Ok in H as [H _]. destruct (H r Hr) as (id & ? & _). by exists id.
  - induction routes as [|r routes IH]; intros H; simpl; [by eexists|].
    destruct (H r) as [id ->]; [left|]. simpl. destruct IH as [set ->]; [intros r' ?; apply H; by right|]. by eexists.
Qed.

Lemma without_reason_identity r kb : id_of (without_reason r) kb = id_of r kb \/ exists e e', id_of r kb = Err e /\ id_of (without_reason r) kb = Err e'.
Proof.
  unfold route_identity, without_reason; simpl. destruct (Canonicalise (ir_Path r)); [|right; eauto].
  destruct (normaliseContentType _ _ (ir_ContentType r)); [by left|right; eauto].
Qed.

Lemma without_reason_Ok r kb id : id_of (without_reason r) kb = Ok id <-> id_of r kb = Ok id.
Proof. destruct (without_reason_identity r kb) as [->|(e & e' & -> & ->)]; [done|by split]. Qed.

Lemma routes_outside_Ok set kb routes out :
  routes_outside ParseMediaType FormatMediaType set kb routes = Ok out ->
  forall r, r ∈ out <-> r ∈ routes /\ exists id, id_of r kb = Ok id /\ id ∉ set.
Proof.
  revert out. induction routes as [|r routes IH]; intros out; simpl.
  - intros [= <-] r. split; [intros H; by apply elem_of_nil in H|intros [H _]; by apply elem_of_nil in H].
  - destruct (id_of r kb) as [id|e] eqn:Ei; simpl; [|done].
    destruct (routes_outside _ _ set kb routes) as [o|e]; simpl; [|done]. intros [= <-] r'.
    case_bool_decide as Hin; rewrite ?elem_of_cons, (IH o eq_refl).
    + split; [intros [H1 H2]; eauto|]. intros [[->|H1] H2]; [|eauto].
      destruct H2 as (i & H2 & H3). rewrite Ei in H2. by injection H2 as ->.
    + split; [intros [->|[H1 H2]]; eauto|]. intros [[->|H1] H2]; eauto.
Qed.

Lemma routes_outside_none set kb routes :
  (forall r, r ∈ routes -> exists id, id_of r kb = Ok id /\ id ∈ set) ->
  routes_outside ParseMediaType FormatMediaType set kb routes = Ok [].
Proof.
  induction routes as [|r routes IH]; intros H; simpl; [done|].
  destruct (H r) as (id & -> & Hin); [left|]. simpl. rewrite IH by (intros r' ?; apply H; by right). simpl.
  by rewrite bool_decide_eq_true_2.
Qed.

(** No route of one side is outside the other side's set. *)
Lemma outside_nil_iff (routes : list Route) kb (set : list identity) (others : list Route) okb oset out :
  (forall r, r ∈ routes -> exists id, id_of r kb = Ok id /\ id ∈ set) ->
  (forall r, r ∈ others -> exists id, id_of r okb = Ok id /\ id ∈ oset) ->
  (forall id, id ∈ oset -> exists r, r ∈ others /\ id_of r okb = Ok id) ->
  routes_outside ParseMediaType FormatMediaType oset kb routes = Ok out ->
  out = [] <-> forall r, r ∈ routes -> exists r' id, r' ∈ others /\ id_of r kb = Ok id /\ id_of r' okb = Ok id.
Proof.
  intros H1 H2 H3 Ho. assert (Hout := routes_outside_Ok _ _ _ _ Ho). split.
  - intros -> r Hr. destruct (H1 r Hr) as (id & Hid & _). destruct (decide (id ∈ oset)) as [Hin|Hin].
    + destruct (H3 id Hin) as (r' & ? & ?). by exists r', id.
    + exfalso. apply (not_elem_of_nil r), Hout. eauto.
  - intros H. destruct out as [|r out]; [done|]. exfalso.
    destruct (proj1 (Hout r) ltac:(left)) as (Hr & id & Hid & Hn). destruct (H r Hr) as (r' & id' & Hr' & Hi & Hi').
    rewrite Hid in Hi. injection Hi as <-. destruct (H2 r' Hr') as (i & Hi2 & Hin). rewrite Hi' in Hi2. by injection Hi2 as <-.
Qed.

(** What [Approve] checked, and what it recorded. *)
Record approved (m : Manifest) (d : string) (g : Grants) : Prop := {
  ap_digest : mf_Digest m = d;
  ap_caps : forall c, c ∈ gr_Capabilities g -> c ∈ mf_Capabilities m;
  ap_manifest : forall r, r ∈ mf_Routes m -> exists id, id_of r (requested "requestBodyKB" (mf_Limits m)) = Ok id;
  ap_routes : forall r, r ∈ gr_Routes g -> exists r' id, r' ∈ mf_Routes m
    /\ id_of r (requested "requestBodyKB" (mf_Limits m)) = Ok id
    /\ id_of r' (requested "requestBodyKB" (mf_Limits m)) = Ok id;
  ap_limits : forall name v, name ∈ limitFieldOrder -> field (gr_Limits g) name = Some v -> (v <= requested name (mf_Limits m))%Z }.

Definition entry_of (m : Manifest) (g : Grants) (approvedBy : string) (now : Time) : LockEntry :=
  {| le_ManifestSHA256 := mf_Digest m; le_ModuleSHA256 := mf_ModuleSHA256 m; le_Version := mf_Version m;
     le_Runtime := mf_Runtime m; le_ApprovedAt := Format_RFC3339 now; le_ApprovedBy := approvedBy;
     le_Capabilities := gr_Capabilities g; le_Routes := map without_reason (gr_Routes g);
     le_Limits := if limits_isZero (gr_Limits g) then None else Some (gr_Limits g);
     le_EffectiveLimits := ReconcileAtApproval (mf_Limits m) (gr_Limits g) |}.

Lemma check_capability_Ok m c : check_capability m c = Ok tt <-> c ∈ mf_Capabilities m.
Proof. unfold check_capability. by case_bool_decide. Qed.

Lemma check_limit_Ok m g name :
  check_limit m g name = Ok tt <-> forall v, field g name = Some v -> (v <= requested name m)%Z.
Proof.
  unfold check_limit. destruct (field g name) as [v|]; [|by split].
  destruct (Z.ltb_spec (requested name m) v); split; try done.
  - intros Hv. specialize (Hv v eq_refl). lia.
  - intros _ v' [= <-]. lia.
Qed.

Lemma check_route_Ok set kb r :
  check_route ParseMediaType FormatMediaType set kb r = Ok tt <-> exists id, id_of r kb = Ok id /\ id ∈ set.
Proof.
  unfold check_route. destruct (id_of r kb) as [id|e].
  - case_bool_decide as H; split; try done; [by exists id|]. intros (i & [= ->] & ?). done.
  - split; [done|]. by intros (? & ? & _).
Qed.

Lemma Approve_approved m d g by_ now e :
  Approve ParseMediaType FormatMediaType m d g by_ now = Ok e <-> approved m d g /\ e = entry_of m g by_ now.
Proof.
  unfold Approve. destruct (String.eqb_spec (mf_Digest m) d) as [Hd|Hd]; cbn [negb];
    [|split; [done|by intros [[] _]]].
  set (kb := requested "requestBodyKB" (mf_Limits m)).
  destruct (for_each (check_capability m) _) as [[]|er] eqn:Ec; cbn [res_bind].
  2:{ split; [done|]. intros [[_ Hc _ _ _] _]. rewrite (proj2 (for_each_Ok _ _)) in Ec; [done|].
      intros c ?. by apply check_capability_Ok, Hc. }
  destruct (identitySet _ _ (mf_Routes m) kb) as [set|er] eqn:Es; cbn [res_bind res_map_err].
  2:{ split; [done|]. intros [[_ _ Hm _ _] _]. apply identitySet_total in Hm as [set Hm]. unfold kb in Es. by rewrite Hm in Es. }
  destruct (identitySet_Ok _ _ _ Es) as [Hs1 Hs2].
  destruct (for_each (check_route _ _ set kb) _) as [[]|er] eqn:Er; cbn [res_bind].
  2:{ split; [done|]. intros [[_ _ _ Hr _] _]. rewrite (proj2 (for_each_Ok _ _)) in Er; [done|].
      intros r Hin. apply check_route_Ok. destruct (Hr r Hin) as (r' & id & Hin' & H1 & H2). exists id. split; [done|].
      destruct (Hs1 r' Hin') as (id' & H3 & ?). unfold kb in H3. rewrite H2 in H3. by injection H3 as ->. }
  destruct (for_each (check_limit (mf_Limits m) (gr_Limits g)) limitFieldOrder) as [[]|er] eqn:El; cbn [res_bind].
  2:{ split; [done|]. intros [[_ _ _ _ Hl] _]. rewrite (proj2 (for_each_Ok _ _)) in El; [done|].
      intros n Hn. apply check_limit_Ok. intros v Hv. by eapply Hl. }
  rewrite for_each_Ok in Ec. rewrite for_each_Ok in Er. rewrite for_each_Ok in El. split; [|by intros [_ ->]].
  intros [= <-]. split; [|done]. split; [done|..].
  - intros c ?. by apply check_capability_Ok, Ec.
  - intros r Hr. destruct (Hs1 r Hr) as (id & ? & _). by exists id.
  - intros r Hr. apply Er, check_route_Ok in Hr as (id & H1 & H2). destruct (Hs2 id H2) as (r' & H3 & H4). by exists r', id.
  - intros n v Hn. by apply check_limit_Ok, El.
Qed.
End Lemmas.

(** ** Lemmas on the lock file *)

Definition concat_str (l : list string) : string := String.concat "" l.

(** What is done to the temporary file before it takes the lock's name. *)
Definition temp_ops (tmp : string) (chunks : list string) : list fs_op :=
  CreateTemp tmp :: map (Append tmp) chunks ++ [Chmod tmp LockFileMode].

(** The files an operation touches. *)
Definition touched_by (o : fs_op) : list string :=
  match o with CreateTemp p | Append p _ | Chmod p _ | Remove p => [p] | Rename a b => [a; b] end.

Lemma run_elsewhere (cache : string -> Prop) l fs p :
  (forall o q, o ∈ l -> q ∈ touched_by o -> cache q) -> ~ cache p -> foldl fs_apply fs l !! p = fs !! p.
Proof.
  intros Hl Hp. revert fs. induction l as [|o l IH]; intros fs; simpl; [done|].
  rewrite IH by (intros o' q Ho; apply Hl; by right).
  assert (Ho : forall q, q ∈ touched_by o -> q <> p) by (intros q Hq ->; by apply Hp, (Hl o); [left|]).
  destruct o as [q|q s|q m|a b|q]; simpl in *.
  - rewrite lookup_insert_ne; [done|apply Ho; left].
  - rewrite lookup_alter_ne; [done|apply Ho; left].
  - rewrite lookup_alter_ne; [done|apply Ho; left].
  - destruct (fs !! a); [|done]. rewrite lookup_insert_ne by (apply Ho; right; left). by rewrite lookup_delete_ne by (apply Ho; left).
  - rewrite lookup_delete_ne; [done|apply Ho; left].
Qed.

Definition touches_only (tmp : string) (o : fs_op) : Prop :=
  match o with CreateTemp p | Append p _ | Chmod p _ | Remove p => p = tmp | Rename _ _ => False end.

Lemma concat_str_cons s l : concat_str (s :: l) = s +:+ concat_str l.
Proof. unfold concat_str; simpl. destruct l as [|y l]; [by rewrite app_nil_str|done]. Qed.

Lemma run_touching tmp l fs p :
  Forall (touches_only tmp) l -> p <> tmp -> foldl fs_apply fs l !! p = fs !! p.
Proof.
  intros Hl Hp. revert fs. induction Hl as [|o l Ho Hl IH]; intros fs; simpl; [done|]. rewrite IH.
  destruct o; simpl in Ho; subst; simpl.
  - by rewrite lookup_insert_ne.
  - by rewrite lookup_alter_ne.
  - by rewrite lookup_alter_ne.
  - done.
  - by rewrite lookup_delete_ne.
Qed.

Lemma temp_ops_touch tmp chunks : Forall (touches_only tmp) (temp_ops tmp chunks).
Proof.
  constructor; [done|]. apply Forall_app. split; [|by repeat constructor].
  apply Forall_forall. intros o Ho. apply elem_of_map in Ho as (s & -> & _). done.
Qed.

Lemma run_appends tmp chunks fs s mode :
  fs !! tmp = Some (s, mode) ->
  foldl fs_apply fs (map (Append tmp) chunks) !! tmp = Some (s +:+ concat_str chunks, mode).
Proof.
  revert fs s. induction chunks as [|c chunks IH]; intros fs s Hs; simpl.
  - rewrite Hs. by rewrite app_nil_str.
  - rewrite (IH _ (s +:+ c)); [|by rewrite lookup_alter_eq, Hs]. by rewrite concat_str_cons, app_assoc_str.
Qed.

Lemma run_temp_ops tmp chunks fs :
  foldl fs_apply fs (temp_ops tmp chunks) !! tmp = Some (concat_str chunks, LockFileMode).
Proof.
  unfold temp_ops. cbn [foldl]. rewrite foldl_app. cbn [foldl fs_apply]. rewrite lookup_alter_eq.
  rewrite (run_appends _ _ _ "" 384) by (by rewrite lookup_insert_eq). done.
Qed.

Lemma run_renamed tmp path chunks fs :
  tmp <> path ->
  let fs' := fs_apply (foldl fs_apply fs (temp_ops tmp chunks)) (Rename tmp path) in
  fs' !! path = Some (concat_str chunks, LockFileMode) /\ forall p, p <> path -> p <> tmp -> fs' !! p = fs !! p.
Proof.
  intros Hne. cbv zeta. cbn [fs_apply]. rewrite run_temp_ops, lookup_insert_eq. split; [done|]. intros p H1 H2.
  rewrite lookup_insert_ne, lookup_delete_ne by done. apply (run_touching tmp); [apply temp_ops_touch|done].
Qed.

(** Every state an interrupted or completed write can leave. *)
Lemma take_write_ops tmp path chunks fail k :
  exists j, take k (write_ops tmp path chunks fail) = take j (temp_ops tmp chunks)
    \/ take k (write_ops tmp path chunks fail) = take j (temp_ops tmp chunks) ++ [Remove tmp]
    \/ take k (write_ops tmp path chunks fail) = temp_ops tmp chunks ++ [Rename tmp path]
    \/ take k (write_ops tmp path chunks fail) = temp_ops tmp chunks ++ [Rename tmp path; Remove tmp].
Proof.
  assert (Hops : CreateTemp tmp :: map (Append tmp) chunks ++ [Chmod tmp LockFileMode; Rename tmp path]
                 = temp_ops tmp chunks ++ [Rename tmp path]).
  { unfold temp_ops. rewrite <- app_comm_cons, <- app_assoc. done. }
  assert (Hcut : forall i n, exists j, take i (take n (temp_ops tmp chunks ++ [Rename tmp path]) ++ [Remove tmp]) = take j (temp_ops tmp chunks)
     \/ take i (take n (temp_ops tmp chunks ++ [Rename tmp path]) ++ [Remove tmp]) = take j (temp_ops tmp chunks) ++ [Remove tmp]
     \/ take i (take n (temp_ops tmp chunks ++ [Rename tmp path]) ++ [Remove tmp]) = temp_ops tmp chunks ++ [Rename tmp path]
     \/ take i (take n (temp_ops tmp chunks ++ [Rename tmp path]) ++ [Remove tmp]) = temp_ops tmp chunks ++ [Rename tmp path; Remove tmp]).
  { intros i n. set (A := temp_ops tmp chunks). destruct (decide (n <= length A)) as [Hn|Hn].
    - rewrite (take_app_le A) by done. destruct (decide (i <= length (take n A))) as [Hi|Hi].
      + rewrite take_app_le, take_take by done. by exists (min i n); left.
      + rewrite (take_ge (take n A ++ _)) by (rewrite length_app; change (length [_]) with 1; lia). by exists n; right; left.
    - rewrite (take_ge (A ++ [Rename tmp path])) by (rewrite length_app; change (length [_]) with 1; lia).
      rewrite <- app_assoc. destruct (decide (i <= length A)) as [Hi|Hi].
      + rewrite take_app_le by done. by exists i; left.
      + rewrite take_app_ge by lia. destruct (i - length A) as [|[|d]] eqn:E; [lia|..]; exists 0.
        * by right; right; left.
        * right; right; right. cbn [app take]. by destruct d. }
  unfold write_ops. destruct fail as [[|n]|].
  - exists 0. left. by destruct k.
  - cbv zeta. rewrite Hops. apply Hcut.
  - cbv zeta. rewrite Hops.
    destruct (Hcut k (length (temp_ops tmp chunks ++ [Rename tmp path]))) as [j Hj].
    rewrite firstn_all in Hj. by exists j.
Qed.

(** However a file's contents are cut up, wherever the write fails or is interrupted, its name is that of the old file or of the
    whole new one, and no other file but the temporary one changes. *)
Lemma write_ops_atomic tmp path chunks fail fs (Htp : tmp <> path) :
  (forall k, let fs' := foldl fs_apply fs (take k (write_ops tmp path chunks fail)) in
    (fs' !! path = fs !! path \/ fs' !! path = Some (concat_str chunks, LockFileMode)) /\ (forall p, p <> path -> p <> tmp -> fs' !! p = fs !! p))
  /\ (fail = None -> foldl fs_apply fs (write_ops tmp path chunks fail) !! path = Some (concat_str chunks, LockFileMode))
  /\ (fail <> Some 0 -> foldl fs_apply fs (write_ops tmp path chunks fail) !! tmp = None).
Proof.
  assert (Hrun := run_renamed tmp path chunks fs Htp). split_and!.
  - intros k. cbv zeta. destruct (take_write_ops tmp path chunks fail k) as [j Hj]. destruct Hj as [->|[->|[->| ->]]].
    + split; [left|intros p _ Hp]; apply (run_touching tmp); try done; apply Forall_take, temp_ops_touch.
    + split; [left|intros p _ Hp]; apply (run_touching tmp); try done;
        (apply Forall_app; split; [apply Forall_take, temp_ops_touch|by repeat constructor]).
    + rewrite foldl_app. cbn [foldl]. destruct Hrun as [H1 H2]. split; [by right|intros p Hp1 Hp2; by apply H2].
    + change [Rename tmp path; Remove tmp] with ([Rename tmp path] ++ [Remove tmp]). rewrite app_assoc, foldl_app.
      rewrite foldl_app. cbn [foldl]. destruct Hrun as [H1 H2]. cbn [fs_apply] in *.
      split; [right|intros p Hp1 Hp2]; rewrite lookup_delete_ne by done; [done|by apply H2].
  - intros ->. unfold write_ops. cbv zeta. destruct Hrun as [H1 _].
    replace (CreateTemp tmp :: map (Append tmp) chunks ++ [Chmod tmp LockFileMode; Rename tmp path])
      with (temp_ops tmp chunks ++ [Rename tmp path]) by (unfold temp_ops; rewrite <- app_comm_cons, <- app_assoc; done).
    rewrite !foldl_app. cbn [foldl]. cbn [fs_apply] in *. by rewrite lookup_delete_ne.
  - intros Hf. unfold write_ops. destruct fail as [[|n]|]; [done|..]; cbv zeta; rewrite foldl_app; cbn [foldl fs_apply];
      apply lookup_delete_eq.
Qed.

(** ** Samples *)

Definition no_limits : Limits :=
  {| lm_MemoryMB := None; lm_TimeoutMs := None; lm_OutputKB := None; lm_HTTPRequests := None; lm_ResponseMB := None;
     lm_CacheEntries := None; lm_InputMB := None; lm_JSONDepth := None; lm_JSONNodes := None; lm_ExprNodes := None;
     lm_Iterations := None; lm_RequestBodyKB := None; lm_HostCalls := None; lm_CacheBytesKB := None |}.

Definition sample_plugin_route (path : string) : Route :=
  {| ir_Slot := "nas"; ir_Method := "GET"; ir_Path := path; ir_Use := ""; ir_Reason := "shown"; ir_QueryKeys := Some ["b"; "a"; "b"];
     ir_ContentType := ""; ir_MaxBodyKB := 0 |}.

Definition sample_manifest : Manifest :=
  manifest_of_doc {| md_ID := "p"; md_Name := "P"; md_Version := "1"; md_Runtime := "wasm"; md_Capabilities := ["http"; "cache"];
    md_Limits := no_limits; md_Module := ""; md_SHA256 := "";
    md_Operations := [[sample_plugin_route "/a"; sample_plugin_route "/b"]; [sample_plugin_route "/a"]] |} "sha256:ab".

Definition grants_of (m : Manifest) : Grants :=
  {| gr_Capabilities := mf_Capabilities m; gr_Routes := mf_Routes m; gr_Limits := mf_Limits m |}.

(** ** The properties *)

(** C18. [Approve] succeeds exactly when the reviewed digest is the manifest's and the grant is a
    subset of its request: every capability is requested, every route has the authority tuple of a
    requested route, every explicit limit is at most the requested one. What it records is that
    grant under that digest, and each effective limit is the smallest of the core maximum, the
    request and the grant, a limit neither side set being the default. *)
Theorem approve_exact PM FM m d g by_ now :
  ((exists e, Approve PM FM m d g by_ now = Ok e) <-> approved PM FM m d g)
  /\ forall e, Approve PM FM m d g by_ now = Ok e ->
     le_ManifestSHA256 e = d /\ le_Capabilities e = gr_Capabilities g
     /\ le_Routes e = map without_reason (gr_Routes g)
     /\ Evaluate m (Some e) = StatusApproved
     /\ forall name, name ∈ limitFieldOrder ->
        (eff_field (le_EffectiveLimits e) name = Z.min (requested name (mf_Limits m)) (requested name (gr_Limits g))
        /\ eff_field (le_EffectiveLimits e) name <= lb_max (bound_of name)
        /\ (field (gr_Limits g) name = None -> eff_field (le_EffectiveLimits e) name <= lb_def (bound_of name)))%Z.
Proof.
  split.
  - split; [by intros [e [H _]%Approve_approved]|]. intros H. eexists. by apply Approve_approved.
  - intros e [Ha ->]%Approve_approved. simpl. split_and!; try done; [apply Ha|by unfold Evaluate; simpl; rewrite String.eqb_refl|].
    intros name Hn. rewrite reconcile_field, effectiveLimit_min by done.
    assert (H1 := requested_le_max name (mf_Limits m)). split_and!; [done|lia|].
    intros Hf. rewrite (requested_default name (gr_Limits g)) by done. lia.
Qed.

Example approve_exact_witness :
  exists e, Approve (fun _ => None) (fun _ _ => "") sample_manifest "sha256:ab" (grants_of sample_manifest) "admin" 0 = Ok e
    /\ le_ManifestSHA256 e = "sha256:ab".
Proof.
  eexists. split; [vm_compute; reflexivity|].
  refine (proj1 (proj2 (approve_exact (fun _ => None) (fun _ _ => "") sample_manifest "sha256:ab" (grants_of sample_manifest)
                          "admin" 0) _ _)).
  vm_compute. reflexivity.
Defined.

(** C1. A permission diff is empty exactly when manifest and lock grant the same routes, by
    authority tuple, the lock grants every requested capability and no limit is requested above
    the effective one. *)
Theorem diff_empty_exact PM FM m entry df :
  ComputeDiff PM FM m (Some entry) = Ok df ->
  let mkb := requested "requestBodyKB" (mf_Limits m) in
  let lkb := el_RequestBodyKB (le_EffectiveLimits entry) in
  Empty df = true <->
  (forall r, r ∈ mf_Routes m -> exists r' id, r' ∈ le_Routes entry
     /\ route_identity PM FM r mkb = Ok id /\ route_identity PM FM r' lkb = Ok id)
  /\ (forall r, r ∈ le_Routes entry -> exists r' id, r' ∈ mf_Routes m
     /\ route_identity PM FM r lkb = Ok id /\ route_identity PM FM r' mkb = Ok id)
  /\ (forall c, c ∈ mf_Capabilities m -> c ∈ le_Capabilities entry)
  /\ (forall name, name ∈ limitFieldOrder -> (requested name (mf_Limits m) <= eff_field (le_EffectiveLimits entry) name)%Z).
Proof.
  intros H mkb lkb. unfold ComputeDiff in H. cbv zeta in H. fold mkb in H. fold lkb in H.
  destruct (identitySet PM FM (mf_Routes m) mkb) as [ms|] eqn:Em; [|done].
  destruct (identitySet PM FM (le_Routes entry) lkb) as [ls|] eqn:El; [|done]. cbn [res_bind] in H.
  destruct (routes_outside PM FM ls mkb (mf_Routes m)) as [added|] eqn:Ea; [|done].
  destruct (routes_outside PM FM ms lkb (le_Routes entry)) as [removed|] eqn:Er; [|done]. cbn [res_bind] in H.
  injection H as <-. unfold Empty. cbn [df_AddedRoutes df_RemovedRoutes df_AddedCapabilities df_RaisedLimits].
  rewrite !andb_true_iff, !Nat.eqb_eq, !length_zero_iff_nil.
  destruct (identitySet_Ok _ _ _ _ _ Em) as [Hm1 Hm2]. destruct (identitySet_Ok _ _ _ _ _ El) as [Hl1 Hl2].
  rewrite (outside_nil_iff _ _ _ _ _ _ _ _ _ Hm1 Hl1 Hl2 Ea), (outside_nil_iff _ _ _ _ _ _ _ _ _ Hl1 Hm1 Hm2 Er).
  rewrite filter_nil_iff, raised_nil_iff. tauto.
Qed.

(** Approving everything a manifest requests leaves nothing to approve: it succeeds, the
    status becomes approved and the recomputed diff is empty, whatever the routes' order,
    repetitions or spelling of their defaults. *)
Theorem approve_then_no_diff PM FM m by_ now :
  (forall r, r ∈ mf_Routes m -> exists id, route_identity PM FM r (requested "requestBodyKB" (mf_Limits m)) = Ok id) ->
  (forall name v, name ∈ limitFieldOrder -> field (mf_Limits m) name = Some v -> (v <= lb_max (bound_of name))%Z) ->
  exists e df, Approve PM FM m (mf_Digest m) (grants_of m) by_ now = Ok e
    /\ ComputeDiff PM FM m (Some e) = Ok df /\ Empty df = true /\ Evaluate m (Some e) = StatusApproved.
Proof.
  intros Hr Hl. exists (entry_of m (grants_of m) by_ now).
  set (kb := requested "requestBodyKB" (mf_Limits m)) in *.
  destruct (proj2 (identitySet_total PM FM _ _) Hr) as [set Hs]. destruct (identitySet_Ok _ _ _ _ _ Hs) as [Hs1 Hs2].
  assert (Hrw : forall r, r ∈ map without_reason (mf_Routes m) -> exists id, route_identity PM FM r kb = Ok id /\ id ∈ set).
  { intros r Hin. apply elem_of_map in Hin as (r0 & -> & Hin). destruct (Hs1 r0 Hin) as (id & H1 & H2).
    exists id. split; [|done]. by apply without_reason_Ok. }
  destruct (proj2 (identitySet_total PM FM (map without_reason (mf_Routes m)) kb)) as [lset Hls].
  { intros r Hin. destruct (Hrw r Hin) as (id & ? & _). by exists id. }
  destruct (identitySet_Ok _ _ _ _ _ Hls) as [Hls1 _].
  eexists. split_and!.
  - apply Approve_approved. split; [|done]. split; simpl; try done.
    + intros r Hin. destruct (Hr r Hin) as [id Hid]. by exists r, id.
    + intros name v Hn Hv. specialize (Hl name v Hn Hv). unfold requested. rewrite Hv. cbv zeta.
      destruct (Z.ltb_spec (lb_max (bound_of name)) v); lia.
  - unfold ComputeDiff. cbn [entry_of le_Routes le_Capabilities le_EffectiveLimits grants_of gr_Routes gr_Limits gr_Capabilities].
    rewrite reconcile_same. cbv zeta. fold kb. rewrite Hs, Hls. cbn [res_bind].
    rewrite (routes_outside_none _ _ lset), (routes_outside_none _ _ set); [cbn [res_bind]; reflexivity|exact Hrw|].
    intros r Hin. destruct (Hr r Hin) as [id Hid]. destruct (Hls1 (without_reason r)) as (id' & H1 & H2).
    { apply elem_of_map. by exists r. }
    apply (proj1 (without_reason_Ok PM FM r kb id')) in H1. rewrite Hid in H1. injection H1 as <-. by exists id.
  - unfold Empty. cbn [df_AddedRoutes df_RemovedRoutes df_AddedCapabilities df_RaisedLimits length Nat.eqb andb].
    rewrite (proj2 (filter_nil_iff _ _)) by auto. rewrite (proj2 (raised_nil_iff _ _)); [done|].
    intros name Hn. rewrite reconcile_field, effectiveLimit_min by done. lia.
  - unfold Evaluate. simpl. by rewrite String.eqb_refl.
Qed.

Example approve_then_no_diff_witness :
  length (mf_Routes sample_manifest) = 2 /\
  exists e df, Approve (fun _ => None) (fun _ _ => "") sample_manifest "sha256:ab" (grants_of sample_manifest) "admin" 0 = Ok e
    /\ ComputeDiff (fun _ => None) (fun _ _ => "") sample_manifest (Some e) = Ok df /\ Empty df = true
    /\ Evaluate sample_manifest (Some e) = StatusApproved.
Proof.
  split; [reflexivity|]. apply (approve_then_no_diff (fun _ => None) (fun _ _ => "") sample_manifest "admin" 0).
  - apply identitySet_total. eexists. vm_compute. reflexivity.
  - intros name v H Hv. each_limit H; vm_compute in Hv; discriminate.
Defined.

(** The lock file is replaced atomically: however the write is cut up, wherever it fails or is
    interrupted, a reader finds the old lock or the whole new one, in its final mode, and no other
    file but the temporary one changes; a write that is not interrupted leaves no temporary file. *)
Theorem lock_write_atomic {Y} (unmarshal_any : string -> option Y) marshal schema tmp path cut fail lock ops fs :
  tmp <> path -> (forall s, concat_str (cut s) = s) ->
  WriteLock unmarshal_any marshal schema tmp path cut fail lock = Ok ops ->
  exists body, marshal lock = Some body
  /\ (forall k, let fs' := foldl fs_apply fs (take k ops) in
      (fs' !! path = fs !! path \/ fs' !! path = Some (lock_header +:+ body, LockFileMode))
      /\ (forall p, p <> path -> p <> tmp -> fs' !! p = fs !! p))
  /\ (fail = None -> foldl fs_apply fs ops !! path = Some (lock_header +:+ body, LockFileMode))
  /\ (fail <> Some 0 -> foldl fs_apply fs ops !! tmp = None).
Proof.
  intros Htp Hcut Hw. unfold WriteLock in Hw. destruct (marshal lock) as [body|]; [|done].
  destruct (schema_check unmarshal_any schema body); [|done]. cbn [res_bind] in Hw. injection Hw as <-.
  exists body. split; [done|]. pose proof (write_ops_atomic tmp path (cut (lock_header +:+ body)) fail fs Htp) as H. by rewrite Hcut in H.
Qed.

Example lock_write_atomic_witness :
  let ops := write_ops "t" "lock" [lock_header; "v: 1"] None in
  WriteLock (fun _ => Some tt) (fun _ => Some "v: 1") (Some (fun _ => true)) "t" "lock"
    (fun s => if String.eqb s (lock_header +:+ "v: 1") then [lock_header; "v: 1"] else [s]) None emptyLock = Ok ops
  /\ foldl fs_apply {["lock" := ("old", 416%Z)]} ops !! "lock" = Some (lock_header +:+ "v: 1", 416%Z).
Proof.
  intros ops. split; [reflexivity|].
  destruct (lock_write_atomic (fun _ => Some tt) (fun _ => Some "v: 1") (Some (fun _ => true)) "t" "lock"
    (fun s => if String.eqb s (lock_header +:+ "v: 1") then [lock_header; "v: 1"] else [s]) None emptyLock ops
    {["lock" := ("old", 416%Z)]}) as (body & Hb & _ & H & _).
  - discriminate.
  - intros s. destruct (String.eqb_spec s (lock_header +:+ "v: 1")) as [->|]; reflexivity.
  - reflexivity.
  - injection Hb as <-. by apply H.
Defined.
