(* ===== verification/ConfigStore.v ===== *)
(** * internal/config: the live configuration and its editing

    [load.go]: [LoadPath]; [watch.go]: the store of the live snapshot, its reloads, which file
    events are relevant, and the watcher, whose goroutine is the relation [watch_step] between which
    the files change; [apply.go]: the additive edit of the primary file, on its YAML tree, and its
    replacement. The notification library is seen as a queue of events of the watched directories
    that loses none. The loader's own libraries, the activation, JSON, SHA-256 and the YAML encoder
    are arguments. *)
From S2P Require Import Prelude GoSort GoAny GoPath RoutePath Config Approval.

(** ** load.go: LoadPath *)

(** [os.ReadDir] of the fragment directory: its entries (name, is a directory), that it does not
    exist, or another error. *)
Inductive dir_read := DirMissing | DirUnreadable (e : string) | DirEntries (l : list (string * bool)).

Definition fragment_names (l : list (string * bool)) : list string :=
  map fst (List.filter (fun e => negb (e.2 : bool) && String.eqb (filepath_Ext e.1) ".yaml") l).
Definition LoadPath (load : list string -> option Snapshot * Diagnostics) (read_dir : string -> dir_read) (primary : string)
  : option Snapshot * Diagnostics :=
  let dir := filepath_Join (filepath_Dir primary) "conf.d" in
  match read_dir dir with
  | DirMissing => load [primary]
  | DirUnreadable e => (None, [file_diag dir (MText e)])
  | DirEntries l => load (primary :: map (filepath_Join dir) (isort str_leb (fragment_names l)))
  end.

(** ** watch.go *)

Definition reloadDebounce : Duration := (300 * millisecond)%Z.
Definition defaultSecretDir : string := "/run/secrets".

Record Status := {
  st_OK : bool; st_Generation : Z; st_Checksum : string; st_LoadedAt : Time; st_AttemptedAt : Time; st_Diagnostics : Diagnostics }.
(** [Store], less its functions: the path, the live snapshot and the status. *)
Record Store := { sr_path : string; sr_current : option Snapshot; sr_status : Status }.

(** A loader's result that may go live. *)
Definition good (r : option Snapshot * Diagnostics) : option Snapshot :=
  if HasErrors r.2 then None else r.1.

Section Store.
Variable marshal : Config -> string.         (* json.Marshal *)
Variable sha256 : string -> string.

Definition snapshotChecksum (s : Snapshot) : string := hex_encode (sha256 (marshal (snap_Config s))).

Definition Open (path : string) (load : string -> option Snapshot * Diagnostics) (now : Time) : Store * Diagnostics :=
  let p := filepath_Clean path in
  let r := load p in
  (match good r with
   | None => {| sr_path := p; sr_current := None;
                sr_status := {| st_OK := false; st_Generation := 0; st_Checksum := ""; st_LoadedAt := 0; st_AttemptedAt := now; st_Diagnostics := r.2 |} |}
   | Some snap => {| sr_path := p; sr_current := Some snap;
                     sr_status := {| st_OK := true; st_Generation := 1; st_Checksum := snapshotChecksum snap; st_LoadedAt := now;
                                     st_AttemptedAt := now; st_Diagnostics := r.2 |} |}
   end, r.2).

(** [reload] in its parts: the activation of a loaded candidate, whose refusal becomes a diagnostic
    ([activate] is [None] before [SetActivator]), and what is written under the lock. *)
Definition activated (path : string) (activate : option (Snapshot -> Z -> option string)) (next : Z)
  (r : option Snapshot * Diagnostics) : option Snapshot * Diagnostics :=
  match good r, activate with
  | Some snap, Some act =>
      match act snap next with
      | Some e => (None, r.2 ++ [file_diag path (MText ("activate runtime: " +:+ e))])
      | None => r
      end
  | _, _ => r
  end.
Definition next_generation (s : Store) : Z := (st_Generation (sr_status s) + 1)%Z.
Definition commit_reload (now : Time) (next : Z) (r : option Snapshot * Diagnostics) (s : Store) : Store * option Z :=
  let st := sr_status s in
  match good r with
  | None => ({| sr_path := sr_path s; sr_current := sr_current s;
                sr_status := {| st_OK := false; st_Generation := st_Generation st; st_Checksum := st_Checksum st;
                                st_LoadedAt := st_LoadedAt st; st_AttemptedAt := now; st_Diagnostics := r.2 |} |}, None)
  | Some snap => ({| sr_path := sr_path s; sr_current := Some snap;
                     sr_status := {| st_OK := true; st_Generation := next; st_Checksum := snapshotChecksum snap;
                                     st_LoadedAt := now; st_AttemptedAt := now; st_Diagnostics := r.2 |} |}, Some next)
  end.
(** [reload]: the store, and the generation to publish. *)
Definition reload (load : string -> option Snapshot * Diagnostics) (activate : option (Snapshot -> Z -> option string)) (now : Time)
  (s : Store) : Store * option Z :=
  let r := load (sr_path s) in
  let next := next_generation s in
  commit_reload now next (activated (sr_path s) activate next r) s.
End Store.

(** [relevant]; [None] is the panic on a store that never had a snapshot. *)
Definition conf_dir (s : Store) : string := filepath_Join (filepath_Dir (sr_path s)) "conf.d".
Definition source_dir (s : Store) (i : Integration) : option string :=
  rel ← strip_prefix "path:" (in_Source i);
  Some (filepath_Clean (if filepath_IsAbs rel then rel else filepath_Join (filepath_Dir (sr_path s)) rel)).
Definition is_manifest_of (s : Store) (name : string) (i : Integration) : bool :=
  match source_dir s i with Some dir => String.eqb dir (filepath_Dir name) | None => false end.
Definition config_file (s : Store) (name : string) : bool :=
  String.eqb name (sr_path s)
  || String.eqb (filepath_Dir name) (filepath_Dir (sr_path s)) && String.eqb (filepath_Base name) "veduta.lock.yaml"
  || String.eqb (filepath_Dir name) (conf_dir s) && String.eqb (filepath_Ext name) ".yaml".
Definition relevant (s : Store) (raw : string) : option bool :=
  let name := filepath_Clean raw in
  if config_file s name then Some true
  else if String.eqb (filepath_Dir name) defaultSecretDir then
    snap ← sr_current s; Some (negb (Nat.eqb (length (SecretRefs snap)) 0))
  else if String.eqb (filepath_Base name) "manifest.yaml" || String.eqb (filepath_Base name) "manifest.yml" then
    snap ← sr_current s; Some (existsb (is_manifest_of s name) (Integrations (snap_Config snap)))
  else Some false.

(** [watchIntegrationDirs]: the directories it tries to watch. *)
Definition integration_dirs (s : Store) : list string :=
  match sr_current s with
  | None => []
  | Some snap => omap (fun i => if String.eqb (in_Source i) "path:" then None else source_dir s i) (Integrations (snap_Config snap))
  end.

(** *** The watcher *)

(** The files are in their [n]-th state; [load n] is what the loader makes of it and [activate n] the
    activation while it lasts. *)
Inductive phase :=
| Idle
| Loading
| Loaded (r : option Snapshot * Diagnostics) (next : Z)
| Decided (r : option Snapshot * Diagnostics) (next : Z)
| Publishing (g : Z)
| Rewatching.

(** [w_due] is the state the last change of a configuration file made, [w_seen] the state last
    loaded, and [w_accepted] what went live, latest first: generation, state loaded, snapshot. *)
Record watcher := {
  w_store : Store; w_disk : nat; w_due : nat; w_seen : nat; w_queue : list (string * bool); w_timer : option Time; w_clock : Time;
  w_watched : gset string; w_phase : phase; w_published : list Z; w_accepted : list (Z * nat * Snapshot) }.

Definition set_phase (w : watcher) (p : phase) : watcher :=
  {| w_store := w_store w; w_disk := w_disk w; w_due := w_due w; w_seen := w_seen w; w_queue := w_queue w; w_timer := w_timer w;
     w_clock := w_clock w; w_watched := w_watched w; w_phase := p; w_published := w_published w; w_accepted := w_accepted w |}.
Definition set_timer (w : watcher) (t : Time) (q : list (string * bool)) (timer : option Time) (watched : gset string) : watcher :=
  {| w_store := w_store w; w_disk := w_disk w; w_due := w_due w; w_seen := w_seen w; w_queue := q; w_timer := timer;
     w_clock := t; w_watched := watched; w_phase := w_phase w; w_published := w_published w; w_accepted := w_accepted w |}.
Definition set_seen (w : watcher) : watcher :=
  {| w_store := w_store w; w_disk := w_disk w; w_due := w_due w; w_seen := w_disk w; w_queue := w_queue w; w_timer := w_timer w;
     w_clock := w_clock w; w_watched := w_watched w; w_phase := w_phase w; w_published := w_published w; w_accepted := w_accepted w |}.
Definition set_store (w : watcher) (t : Time) (s : Store) (acc : list (Z * nat * Snapshot)) : watcher :=
  {| w_store := s; w_disk := w_disk w; w_due := w_due w; w_seen := w_seen w; w_queue := w_queue w; w_timer := w_timer w;
     w_clock := t; w_watched := w_watched w; w_phase := w_phase w; w_published := w_published w; w_accepted := acc |}.
Definition set_published (w : watcher) (l : list Z) : watcher :=
  {| w_store := w_store w; w_disk := w_disk w; w_due := w_due w; w_seen := w_seen w; w_queue := w_queue w; w_timer := w_timer w;
     w_clock := w_clock w; w_watched := w_watched w; w_phase := w_phase w; w_published := l; w_accepted := w_accepted w |}.

(** What handling one event does to the timer and the watched directories. *)
Definition handle_event (w : watcher) (t : Time) (ev : string * bool) (q : list (string * bool)) (rel : bool) : watcher :=
  let dirs := if String.eqb (filepath_Clean ev.1) (conf_dir (w_store w)) && ev.2 then {[conf_dir (w_store w)]} ∪ w_watched w else w_watched w in
  set_timer w t q (if rel then Some (t + reloadDebounce)%Z else w_timer w) dirs.

(** A change of a file: every change makes a new state of the files; the directories watched report it. *)
Definition change_file (w : watcher) (name : string) (created : bool) : watcher :=
  let seen := bool_decide (filepath_Dir (filepath_Clean name) ∈ w_watched w) in
  {| w_store := w_store w; w_disk := S (w_disk w);
     w_due := if seen && config_file (w_store w) (filepath_Clean name) then S (w_disk w) else w_due w;
     w_seen := w_seen w; w_queue := if seen then w_queue w ++ [(name, created)] else w_queue w; w_timer := w_timer w;
     w_clock := w_clock w; w_watched := w_watched w; w_phase := w_phase w; w_published := w_published w; w_accepted := w_accepted w |}.

Section Watcher.
Variable marshal : Config -> string.
Variable sha256 : string -> string.
Variable load : nat -> string -> option Snapshot * Diagnostics.
Variable activate : nat -> Snapshot -> Z -> option string.

(** The watcher's goroutine. *)
Inductive watch_step : watcher -> watcher -> Prop :=
| ws_event w t ev q rel :
    w_phase w = Idle -> w_queue w = ev :: q -> (w_clock w <= t)%Z -> relevant (w_store w) ev.1 = Some rel ->
    watch_step w (handle_event w t ev q rel)
| ws_fire w t d :
    w_phase w = Idle -> w_timer w = Some d -> (d <= t)%Z -> (w_clock w <= t)%Z ->
    watch_step w (set_phase (set_timer w t (w_queue w) None (w_watched w)) Loading)
| ws_load w :
    w_phase w = Loading ->
    watch_step w (set_phase (set_seen w) (Loaded (load (w_disk w) (sr_path (w_store w))) (next_generation (w_store w))))
| ws_activate w r next :
    w_phase w = Loaded r next ->
    watch_step w (set_phase w (Decided (activated (sr_path (w_store w)) (Some (activate (w_disk w))) next r) next))
| ws_reject w t r next :
    w_phase w = Decided r next -> (w_clock w <= t)%Z -> (commit_reload marshal sha256 t next r (w_store w)).2 = None ->
    watch_step w (set_phase (set_store w t (commit_reload marshal sha256 t next r (w_store w)).1 (w_accepted w)) Rewatching)
| ws_commit w t r next snap g :
    w_phase w = Decided r next -> (w_clock w <= t)%Z -> good r = Some snap ->
    (commit_reload marshal sha256 t next r (w_store w)).2 = Some g ->
    watch_step w (set_phase (set_store w t (commit_reload marshal sha256 t next r (w_store w)).1
                               ((next, w_seen w, snap) :: w_accepted w)) (Publishing g))
| ws_publish w g :
    w_phase w = Publishing g -> watch_step w (set_phase (set_published w (w_published w ++ [g])) Rewatching)
| ws_rewatch w added :
    w_phase w = Rewatching -> added ⊆ list_to_set (integration_dirs (w_store w)) ->
    watch_step w (set_phase (set_timer w (w_clock w) (w_queue w) (w_timer w) (added ∪ w_watched w)) Idle).

(** Everything else: the files change, the clock advances. *)
Inductive env_step : watcher -> watcher -> Prop :=
| es_change w name created : env_step w (change_file w name created)
| es_clock w t : (w_clock w <= t)%Z -> env_step w (set_timer w t (w_queue w) (w_timer w) (w_watched w)).

(** The watcher's start on an opened store: the files' state 0 is what [Open] loaded. *)
Inductive starts : watcher -> Prop :=
| starts_open path now s snap watched :
    (Open marshal sha256 path (load 0) now).1 = s -> sr_current s = Some snap -> filepath_Dir (sr_path s) ∈ watched ->
    starts {| w_store := s; w_disk := 0; w_due := 0; w_seen := 0; w_queue := []; w_timer := None; w_clock := now; w_watched := watched;
              w_phase := Idle; w_published := []; w_accepted := [(1%Z, 0, snap)] |}.
Inductive reachable : watcher -> Prop :=
| reach_start w : starts w -> reachable w
| reach_env w w' : reachable w -> env_step w w' -> reachable w'
| reach_watch w w' : reachable w -> watch_step w w' -> reachable w'.

(** Every schedule of the watcher's own steps leads to [P]: no step is missing, none goes on for ever. *)
Inductive eventually (P : watcher -> Prop) (w : watcher) : Prop :=
| ev_now : P w -> eventually P w
| ev_step : (exists w', watch_step w w') -> (forall w', watch_step w w' -> eventually P w') -> eventually P w.

(** *** Invariants *)

(** Nothing a configuration file's change is lost: while it has not been loaded, an event of it is
    queued, the timer runs or a load is about to start. *)
Definition pending (w : watcher) : Prop :=
  (exists ev, ev ∈ w_queue w /\ config_file (w_store w) (filepath_Clean ev.1) = true) \/ is_Some (w_timer w) \/ w_phase w = Loading.

(** What the accepted generations are: numbered from one without a gap, each loaded without an error
    from the files and, after the first, activated under its own number. *)
Definition accepted_one (path : string) (e : Z * nat * Snapshot) : Prop :=
  let '(g, v, snap) := e in
  good (load v path) = Some snap /\ (g = 1%Z \/ exists v', v <= v' /\ activate v' snap g = None).
Fixpoint numbered (l : list (Z * nat * Snapshot)) : Prop :=
  match l with
  | [] => True
  | [(g, _, _)] => g = 1%Z
  | (g, v, _) :: ((g', v', _) :: _) as r => g = (g' + 1)%Z /\ v' <= v /\ numbered r
  end.
Definition generations (l : list (Z * nat * Snapshot)) : list Z := rev (map (fun e => e.1.1) l).

(** What is decided or about to be. *)
Definition phase_ok (w : watcher) : Prop :=
  let path := sr_path (w_store w) in
  match w_phase w with
  | Idle | Loading | Rewatching => True
  | Loaded r next => r = load (w_seen w) path /\ next = next_generation (w_store w)
  | Decided r next => next = next_generation (w_store w)
      /\ exists v', w_seen w <= v' /\ r = activated path (Some (activate v')) next (load (w_seen w) path)
  | Publishing g => g = st_Generation (sr_status (w_store w)) /\ st_OK (sr_status (w_store w)) = true
  end.

(** The status tells whether what was last loaded is live. *)
Definition settled (w : watcher) : Prop :=
  let s := w_store w in
  if st_OK (sr_status s) then good (load (w_seen w) (sr_path s)) = sr_current s
  else good (load (w_seen w) (sr_path s)) = None
       \/ exists snap v' g, good (load (w_seen w) (sr_path s)) = Some snap /\ w_seen w <= v' /\ is_Some (activate v' snap g).

Record watch_ok (w : watcher) : Prop := {
  wo_disk : w_seen w <= w_disk w /\ w_due w <= w_disk w;
  wo_due : w_due w <= w_seen w \/ pending w;
  wo_accepted : Forall (accepted_one (sr_path (w_store w))) (w_accepted w) /\ numbered (w_accepted w);
  wo_current : exists v snap l, w_accepted w = (st_Generation (sr_status (w_store w)), v, snap) :: l
    /\ sr_current (w_store w) = Some snap /\ v <= w_seen w;
  wo_published : w_published w ++ (match w_phase w with Publishing g => [g] | _ => [] end) = tail (generations (w_accepted w));
  wo_phase : phase_ok w;
  wo_settled : match w_phase w with Loaded _ _ | Decided _ _ => True | _ => settled w end }.
End Watcher.

(** *** Lemmas *)

Lemma good_activated path act next r :
  match good (activated path (Some act) next r) with
  | Some snap => good r = Some snap /\ act snap next = None
  | None => good r = None \/ exists snap, good r = Some snap /\ is_Some (act snap next)
  end.
Proof.
  unfold activated. destruct (good r) as [snap|] eqn:E; [|rewrite E; by left].
  destruct (act snap next) as [e|] eqn:Ea; [|by rewrite E].
  replace (good _) with (@None Snapshot) by (unfold good; by case_match). right. exists snap. by rewrite Ea.
Qed.

Lemma generations_cons e l : generations (e :: l) = generations l ++ [e.1.1].
Proof. done. Qed.

Lemma numbered_cons g v snap g' v' snap' l :
  numbered ((g', v', snap') :: l) -> g = (g' + 1)%Z -> v' <= v -> numbered ((g, v, snap) :: (g', v', snap') :: l).
Proof. done. Qed.

Section Proofs.
Variable marshal : Config -> string.
Variable sha256 : string -> string.
Variable load : nat -> string -> option Snapshot * Diagnostics.
Variable activate : nat -> Snapshot -> Z -> option string.
Local Notation watch_ok := (watch_ok load activate).

Lemma start_ok w : starts marshal sha256 load w -> watch_ok w.
Proof.
  destruct 1 as [path now s snap watched Hs Hc Hw]. unfold Open in Hs.
  destruct (good (load 0 (filepath_Clean path))) as [snap0|] eqn:E; cbn [fst] in Hs; subst s; [|done].
  injection Hc as ->. split; cbn; try done; [by left| |by exists 0, snap, []].
  split; [|done]. constructor; [|done]. split; [done|by left].
Qed.

Lemma env_ok w w' : watch_ok w -> env_step w w' -> watch_ok w'.
Proof.
  intros [H1 H2 H3 H4 H5 H6 H7] He. destruct He as [w name created|w t Ht]; [|by split].
  split; try done; cbn.
  - destruct (_ && _); lia.
  - case_bool_decide as Hd; cbn [andb]; [|destruct H2 as [H2|[H2|[H2|H2]]]; [by left|right..]; [left|right; by left|right; by right];
      destruct H2 as (ev & He & Hr); exists ev; cbn; by rewrite bool_decide_false].
    destruct (config_file (w_store w) (filepath_Clean name)) eqn:Ec.
    + right. left. exists (name, created). split; [|done]. cbn. rewrite bool_decide_true by done. set_solver.
    + destruct H2 as [H2|H2]; [by left|right]. destruct H2 as [(ev & He & Hr)|H2]; [|by right]. left. exists ev.
      split; [|done]. cbn. rewrite bool_decide_true by done. set_solver.
Qed.

Lemma step_ok w w' : watch_ok w -> watch_step marshal sha256 load activate w w' -> watch_ok w'.
Proof.
  intros [H1 H2 [H3 H3'] H4 H5 H6 H7] Hs.
  destruct Hs as [w t ev q rel Hp Hq Ht Hr|w t d Hp Hd Hdt Ht|w Hp|w r next Hp|w t r next Hp Ht Hc|w t r next snap g Hp Ht Hg Hc|w g Hp|w added Hp Ha];
    rewrite Hp in H5, H7; unfold phase_ok in H6; rewrite Hp in H6.
  - unfold handle_event. split; unfold phase_ok; cbn; rewrite ?Hp; try done.
    destruct H2 as [H2|H2]; [by left|]. destruct rel; [by right; right; left|]. right.
    destruct H2 as [(ev' & He & Hr')|H2]; [|by right]. left. exists ev'. split; [|done]. rewrite Hq in He. cbn.
    apply elem_of_cons in He as [->|He]; [|done]. unfold relevant in Hr. by rewrite Hr' in Hr.
  - split; unfold phase_ok; cbn; rewrite ?Hp; try done. right. by right; right.
  - split; unfold phase_ok; cbn; rewrite ?Hp; try done; [lia|left; lia|].
    destruct H4 as (v & snap & l & E1 & E2 & E3). exists v, snap, l. split_and!; [done..|lia].
  - split; unfold phase_ok; cbn; rewrite ?Hp; try done; [|].
    + destruct H2 as [H2|[H2|[H2|H2]]]; [by left|by right; left|by right; right; left|congruence].
    + destruct H6 as [-> ->]. split; [done|]. exists (w_disk w). by split; [lia|].
  - destruct H6 as [-> (v' & Hv' & ->)]. unfold commit_reload in *.
    pose proof (good_activated (sr_path (w_store w)) (activate v') (next_generation (w_store w)) (load (w_seen w) (sr_path (w_store w)))) as Hg.
    destruct (good (activated _ _ _ _)); [done|]. split; unfold phase_ok; cbn; rewrite ?Hp; try done.
    + destruct H2 as [H2|[H2|[H2|H2]]]; [by left|by right; left|by right; right; left|congruence].
    + unfold settled. cbn. destruct Hg as [Hg|(snap & Hg & Ha)]; [by left|right]. by exists snap, v', (next_generation (w_store w)).
  - destruct H6 as [-> (v' & Hv' & ->)]. unfold commit_reload in *. rewrite Hg in *. injection Hc as <-.
    pose proof (good_activated (sr_path (w_store w)) (activate v') (next_generation (w_store w)) (load (w_seen w) (sr_path (w_store w)))) as Hga.
    rewrite Hg in Hga. destruct Hga as [Hl Ha]. destruct H4 as (v & snap0 & l & E1 & E2 & E3).
    split; unfold phase_ok; cbn; rewrite ?Hp; try done.
    + destruct H2 as [H2|[H2|[H2|H2]]]; [by left|by right; left|by right; right; left|congruence].
    + split; [constructor; [|done]|].
      * split; [done|right]. by exists v'.
      * rewrite E1 in *. cbn. done.
    + exists (w_seen w), snap, (w_accepted w). done.
    + rewrite app_nil_r in H5. rewrite H5. unfold generations. rewrite E1. cbn. by destruct (rev _).
  - split; unfold phase_ok; cbn; rewrite ?Hp; try done; [|by rewrite app_nil_r].
    destruct H2 as [H2|[H2|[H2|H2]]]; [by left|by right; left|by right; right; left|congruence].
  - split; unfold phase_ok; cbn; rewrite ?Hp; try done.
    destruct H2 as [H2|[H2|[H2|H2]]]; [by left|by right; left|by right; right; left|congruence].
Qed.

Lemma reachable_ok w : reachable marshal sha256 load activate w -> watch_ok w.
Proof. induction 1; eauto using start_ok, env_ok, step_ok. Qed.

(** *** Progress *)

Definition resting (w : watcher) : Prop := w_phase w = Idle /\ w_queue w = [] /\ w_timer w = None.
Definition remaining (w : watcher) : nat :=
  8 * length (w_queue w) + (match w_timer w with Some _ => 7 | None => 0 end)
  + match w_phase w with Idle => 0 | Loading => 6 | Loaded _ _ => 5 | Decided _ _ => 4 | Publishing _ => 3 | Rewatching => 2 end.

Lemma step_remaining w w' : watch_step marshal sha256 load activate w w' -> remaining w' < remaining w.
Proof.
  destruct 1 as [w t ev q rel Hp Hq Ht Hr|w t d Hp Hd Hdt Ht|w Hp|w r next Hp|w t r next Hp Ht Hc|w t r next snap g Hp Ht Hg Hc|w g Hp|w added Hp Ha];
    unfold remaining; cbn; rewrite Hp; try lia.
  - rewrite Hq. cbn. destruct rel, (w_timer w); lia.
  - rewrite Hd. lia.
Qed.

Lemma step_frame w w' : watch_step marshal sha256 load activate w w' -> w_disk w' = w_disk w /\ w_due w' = w_due w.
Proof. by destruct 1. Qed.

(** The watcher rests or has a step to take. *)
Lemma step_enabled w : watch_ok w -> resting w \/ exists w', watch_step marshal sha256 load activate w w'.
Proof.
  intros [_ _ _ (v & snap & l & _ & Hc & _) _ _ _]. destruct (w_phase w) as [| |r next|r next|g|] eqn:Hp.
  - destruct (w_queue w) as [|ev q] eqn:Hq.
    + destruct (w_timer w) as [d|] eqn:Hd; [right|by left].
      eexists. apply (ws_fire _ _ _ _ w (Z.max d (w_clock w)) d); [done..|lia|lia].
    + right. assert (exists rel, relevant (w_store w) ev.1 = Some rel) as [rel Hr].
      { unfold relevant. rewrite Hc. cbn. repeat case_match; eauto. }
      eexists. apply (ws_event _ _ _ _ w (w_clock w) ev q rel); [done..|lia|done].
  - right. eexists. by apply ws_load.
  - right. eexists. by eapply ws_activate.
  - right. destruct (good r) as [snap'|] eqn:Hg.
    + eexists. apply (ws_commit _ _ _ _ w (w_clock w) r next snap' next); [done|lia|done|]. unfold commit_reload. by rewrite Hg.
    + eexists. apply (ws_reject _ _ _ _ w (w_clock w) r next); [done|lia|]. unfold commit_reload. by rewrite Hg.
  - right. eexists. by eapply ws_publish.
  - right. eexists. by apply (ws_rewatch _ _ _ _ w ∅).
Qed.

Lemma comes_to_rest w : watch_ok w ->
  eventually marshal sha256 load activate (fun w' => watch_ok w' /\ resting w' /\ w_disk w' = w_disk w /\ w_due w' = w_due w) w.
Proof.
  remember (remaining w) as n eqn:Hn. revert w Hn. induction (lt_wf n) as [n _ IH]. intros w -> Hw.
  destruct (step_enabled w Hw) as [Hr|He]; [by apply ev_now|]. apply ev_step; [done|]. intros w' Hs.
  destruct (step_frame w w' Hs) as [<- <-]. by eapply IH; [by apply step_remaining|..|by eapply step_ok].
Qed.
End Proofs.

Lemma eventually_weaken marshal sha256 load activate (P Q : watcher -> Prop) w :
  (forall w', P w' -> Q w') -> eventually marshal sha256 load activate P w -> eventually marshal sha256 load activate Q w.
Proof. intros H. induction 1; [apply ev_now; auto|by apply ev_step]. Qed.

(** The directory of fragments itself is not relevant: moved into place with its files already in it,
    or moved away, it is not loaded until something else changes. *)
Definition empty_snapshot (cfg : Config) : Snapshot := newSnapshot cfg [].
Example fragment_directory_moved_in cfg :
  let s := {| sr_path := "/etc/veduta/veduta.yaml"; sr_current := Some (empty_snapshot cfg);
              sr_status := {| st_OK := true; st_Generation := 1; st_Checksum := ""; st_LoadedAt := 0; st_AttemptedAt := 0; st_Diagnostics := [] |} |} in
  conf_dir s = "/etc/veduta/conf.d" /\ relevant s "/etc/veduta/conf.d" = Some false
  /\ relevant s "/etc/veduta/conf.d/10-cards.yaml" = Some true /\ relevant s "/etc/veduta/veduta.lock.yaml" = Some true.
Proof. by vm_compute. Qed.

(** ** apply.go *)

Record ApplyPatch := {
  ap_Connections : gmap string any; ap_Integrations : list any; ap_Sections : list (list (string * any)) }.

Section Apply.
Variable encode : any -> Node.                         (* yaml.Node.Encode *)

Definition scalarNode (value : string) : Node := mkNode ScalarNode "!!str" value 0 0 None [].
Definition encodedNode (value : any) : Node := encode value.
Definition scalarValue (n : option Node) : string := match n with Some n => n_Value n | None => "" end.
Definition anySlice (v : any) : list any := match v with AList l => l | _ => [] end.
Definition with_content (n : Node) (c : list Node) : Node :=
  mkNode (n_Kind n) (n_Tag n) (n_Value n) (n_Line n) (n_Column n) (n_file n) c.
Definition append_content (extra : list Node) (n : Node) : Node := with_content n (n_Content n ++ extra).

(** The value of the first pair of [key] is replaced by what [f] makes of it. *)
Fixpoint on_pair {A} (key : string) (f : Node -> res string (Node * A)) (c : list Node) : option (res string (list Node * A)) :=
  match c with
  | k :: v :: r =>
      if String.eqb (n_Value k) key then Some (let! x := f v in Ok (k :: x.1 :: r, x.2))
      else (fun o => let! x := o in Ok (k :: v :: x.1, x.2)) <$> on_pair key f r
  | _ => None
  end.
Definition kind_tag (k : Kind) : string := match k with MappingNode => "!!map" | SequenceNode => "!!seq" | _ => "" end.

(** [mappingValue], with what the caller goes on to do to the node it returns. *)
Definition mappingValue (key : string) (kind : Kind) (f : Node -> res string Node) (m : Node) : res string Node :=
  if negb (isMapping m) then Err ("config apply: " +:+ key +:+ " parent is not a mapping")
  else
    let checked v := if bool_decide (n_Kind v = kind) then let! v' := f v in Ok (v', tt)
                     else Err ("config apply: " +:+ key +:+ " has the wrong YAML shape") in
    match on_pair key checked (n_Content m) with
    | Some r => let! x := r in Ok (with_content m x.1)
    | None => let! v := f (mkNode kind (kind_tag kind) "" 0 0 None []) in Ok (append_content [scalarNode key; v] m)
    end.

Fixpoint add_connections (l : list (string * any)) (target : Node) : res string Node :=
  match l with
  | [] => Ok target
  | (id, value) :: r =>
      match mapLookup target id with
      | Some _ => Err ("config apply: connection " +:+ id +:+ " already exists")
      | None => add_connections r (append_content [scalarNode id; encodedNode value] target)
      end
  end.
Definition sorted_entries (m : gmap string any) : list (string * any) :=
  isort (fun a b => str_leb a.1 b.1) (map_to_list m).
Definition appendConnections (additions : gmap string any) (root : Node) : res string Node :=
  if bool_decide (additions = ∅) then Ok root
  else mappingValue "connections" MappingNode (add_connections (sorted_entries additions)) root.
Definition appendSequenceValues (key : string) (additions : list any) (root : Node) : res string Node :=
  match additions with
  | [] => Ok root
  | _ => mappingValue key SequenceNode (fun t => Ok (append_content (map encodedNode additions) t)) root
  end.

Definition title_of (section : list (string * any)) : string :=
  match assoc "title" section with Some v => as_string v | None => "" end.
Definition cards_of (section : list (string * any)) : list any :=
  match assoc "cards" section with Some v => anySlice v | None => [] end.
(** The first section with the title gets the cards; without one, the section is appended. *)
Fixpoint on_section (title : string) (f : Node -> res string Node) (c : list Node) : option (res string (list Node)) :=
  match c with
  | [] => None
  | n :: r => if String.eqb (scalarValue (mapLookup n "title")) title then Some (let! n' := f n in Ok (n' :: r))
              else (fun o => let! r' := o in Ok (n :: r')) <$> on_section title f r
  end.
Definition merge_section (value : list (string * any)) (target : Node) : res string Node :=
  let add n := mappingValue "cards" SequenceNode (fun t => Ok (append_content (map encodedNode (cards_of value)) t)) n in
  match on_section (title_of value) add (n_Content target) with
  | Some r => let! c := r in Ok (with_content target c)
  | None => Ok (append_content [encodedNode (AMap value)] target)
  end.
Fixpoint merge_all (l : list (list (string * any))) (target : Node) : res string Node :=
  match l with
  | [] => Ok target
  | v :: r => let! t := merge_section v target in merge_all r t
  end.
Definition mergeSections (additions : list (list (string * any))) (root : Node) : res string Node :=
  match additions with
  | [] => Ok root
  | _ => mappingValue "sections" SequenceNode (merge_all additions) root
  end.

(** The edit of the tree. *)
Definition apply_patch (patch : ApplyPatch) (root : Node) : res string Node :=
  let! r1 := appendConnections (ap_Connections patch) root in
  let! r2 := appendSequenceValues "integrations" (ap_Integrations patch) r1 in
  mergeSections (ap_Sections patch) r2.

(** *** The file *)

Variable unmarshal : string -> res string Node.        (* yaml.Unmarshal into a node *)
Variable encode_document : Node -> res string string.  (* yaml.Encoder, indented by two *)

(** The operations of [validateAndReplace] on the files, up to the one the system refuses ([fail] is its
    index): a failing validation ends it before the rename; the temporary file is always removed. *)
Definition temporary_ops (tmp : string) (mode : Z) (chunks : list string) : list fs_op :=
  CreateTemp tmp :: Chmod tmp mode :: map (Append tmp) chunks.
Definition replace_ops (tmp path : string) (mode : Z) (chunks : list string) (valid : bool) (fail : option nat) : list fs_op :=
  let ops := temporary_ops tmp mode chunks ++ (if valid then [Rename tmp path] else []) in
  match fail with
  | None => ops ++ [Remove tmp]
  | Some 0 => []
  | Some k => take k ops ++ [Remove tmp]
  end.
Definition validateAndReplace (load_path : gmap string (string * Z) -> string -> option Snapshot * Diagnostics) (tmp path : string)
  (cut : string -> list string) (fail : option nat) (body : string) (fs : gmap string (string * Z)) : list fs_op :=
  match fs !! path with
  | None => []
  | Some (_, mode) =>
      let before_rename := foldl fs_apply fs (temporary_ops tmp mode (cut body)) in
      replace_ops tmp path mode (cut body) (negb (HasErrors (load_path before_rename tmp).2)) fail
  end.

(** [Apply]: an error before anything is written, or the operations on the files. *)
Definition Apply (load_path : gmap string (string * Z) -> string -> option Snapshot * Diagnostics) (tmp path : string)
  (cut : string -> list string) (fail : option nat) (patch : ApplyPatch) (fs : gmap string (string * Z)) : res string (list fs_op) :=
  match fs !! path with
  | None => Err "open"
  | Some (body, _) =>
      let! document := res_map_err (fun e => "parse config before apply: " +:+ e) (unmarshal body) in
      match n_Content document with
      | [root] =>
          guard! isMapping root else "config apply: top level must be a mapping";
          let! root' := apply_patch patch root in
          let! text := res_map_err (fun e => "encode applied config: " +:+ e) (encode_document (with_content document [root'])) in
          Ok (validateAndReplace load_path tmp path cut fail text fs)
      | _ => Err "config apply: top level must be a mapping"
      end
  end.
End Apply.

(** *** Lemmas on the tree *)

(** [n'] is [n] with nothing changed but children appended, here and below. *)
Inductive grows : Node -> Node -> Prop :=
| grows_refl n : grows n n
| grows_node n cs extra : Forall2 grows (n_Content n) cs -> grows n (with_content n (cs ++ extra)).

Lemma with_content_eta n : with_content n (n_Content n) = n.
Proof. by destruct n. Qed.
Lemma with_content_twice n c c' : with_content (with_content n c) c' = with_content n c'.
Proof. done. Qed.
Lemma grows_append n extra : grows n (append_content extra n).
Proof. apply grows_node. by apply Forall2_same_length_refl || (apply Forall2_lookup; intros i; destruct (n_Content n !! i); constructor; apply grows_refl). Qed.

Fixpoint node_size (n : Node) : nat := S (sum_list_with node_size (n_Content n)).

Lemma grows_trans a b c : grows a b -> grows b c -> grows a c.
Proof.
  revert b c. induction a as [a IH] using (induction_ltof1 _ node_size). intros b c H1 H2.
  destruct H1 as [|a cs extra Hcs]; [done|]. inversion H2 as [|b' ds extra' Hds]; subst; [by apply grows_node|].
  rewrite with_content_twice. cbn [n_Content with_content] in Hds. apply Forall2_app_inv_l in Hds as (ds1 & ds2 & H3 & H4 & ->).
  rewrite <- app_assoc. apply grows_node. clear H2 H4. revert ds1 H3 IH. destruct a as [k t v l co f ca]. cbn in *.
  intros ds1 H3 IH. assert (Hsz : forall x, x ∈ ca -> node_size x < S (sum_list_with node_size ca)).
  { intros x Hx. pose proof (sum_list_with_in x node_size ca Hx). lia. }
  assert (IH' : forall x y z, x ∈ ca -> grows x y -> grows y z -> grows x z) by (intros x y z Hx; apply IH; unfold ltof; cbn; auto).
  clear IH Hsz. revert cs Hcs ds1 H3. induction ca as [|x ca IHca]; intros cs Hcs ds1 H3; inversion Hcs; subst; inversion H3; subst; constructor.
  - eapply IH'; [by left|done|done].
  - eapply IHca; [|done|done]. intros. eapply IH'; [by right|done|done].
Qed.

(** A mapping's children are its pairs, none left over. *)
Definition of_pairs (l : list (Node * Node)) : list Node := concat (map (fun p => [p.1; p.2]) l).
Definition paired (n : Node) : Prop := exists l, n_Content n = of_pairs l.
Lemma pairs_of_pairs l : pairs_of (of_pairs l) = l.
Proof. induction l as [|[k v] l IH]; [done|]. cbn. by f_equal. Qed.
Lemma of_pairs_app a b : of_pairs (a ++ b) = of_pairs a ++ of_pairs b.
Proof. unfold of_pairs. by rewrite map_app, concat_app. Qed.
Lemma pair_app_find a b key : find_pair (a ++ b) key = match find_pair a key with Some p => Some p | None => find_pair b key end.
Proof. induction a as [|[k v] a IH]; [done|]. cbn. destruct (String.eqb (n_Value k) key); [done|exact IH]. Qed.
Lemma lookup_paired n l key : n_Content n = of_pairs l -> isMapping n = true -> mapLookup n key = snd <$> find_pair l key.
Proof. intros H Hm. unfold mapLookup, pairsOf. by rewrite Hm, H, pairs_of_pairs. Qed.

Lemma on_pair_None {A} key (f : Node -> res string (Node * A)) l : on_pair key f (of_pairs l) = None -> find_pair l key = None.
Proof. induction l as [|[k v] l IH]; [done|]. cbn. destruct (String.eqb (n_Value k) key); [done|]. intros Hn%fmap_None. auto. Qed.
Lemma on_pair_Ok {A} key (f : Node -> res string (Node * A)) l c a : on_pair key f (of_pairs l) = Some (Ok (c, a)) ->
  exists l1 k v v' l2, l = l1 ++ (k, v) :: l2 /\ find_pair l1 key = None /\ n_Value k = key /\ f v = Ok (v', a)
    /\ c = of_pairs (l1 ++ (k, v') :: l2).
Proof.
  revert c a. induction l as [|[k v] l IH]; intros c a; [done|]. cbn. destruct (String.eqb_spec (n_Value k) key) as [Hk|Hk].
  - destruct (f v) as [[v' a']|] eqn:E; [|done]. intros [= <- <-]. by exists [], k, v, v', l.
  - intros (o & Ho & Hc)%fmap_Some. destruct o as [[c' a']|]; [|done]. injection Hc as -> ->.
    destruct (IH _ _ Ho) as (l1 & k1 & v1 & v' & l2 & -> & Hf & Hk1 & Hv & ->).
    exists ((k, v) :: l1), k1, v1, v', l2. split_and!; try done. cbn. by rewrite (proj2 (String.eqb_neq _ _) Hk).
Qed.

Definition fresh_node (kind : Kind) : Node := mkNode kind (kind_tag kind) "" 0 0 None [].
(** What [mappingValue] did to a mapping, [f] having taken [v] to [v']. *)
Record edited (key : string) (kind : Kind) (f : Node -> res string Node) (m v v' m' : Node) : Prop := {
  ed_run : f v = Ok v';
  ed_kind : n_Kind v = kind;
  ed_old : mapLookup m key = Some v \/ mapLookup m key = None /\ v = fresh_node kind;
  ed_new : mapLookup m' key = Some v';
  ed_other : forall key', key' <> key -> mapLookup m' key' = mapLookup m key';
  ed_grows : grows v v' -> grows m m';
  ed_paired : paired m' /\ isMapping m' = true }.

Lemma Forall2_grows_refl l : Forall2 grows l l.
Proof. induction l; constructor; [apply grows_refl|done]. Qed.

Lemma mappingValue_edited key kind f m m' : paired m -> mappingValue key kind f m = Ok m' -> exists v v', edited key kind f m v v' m'.
Proof.
  intros [l Hl] H. unfold mappingValue in H. destruct (isMapping m) eqn:Hm; [|done]. cbn [negb] in H. rewrite Hl in H.
  set (checked := fun v => if bool_decide (n_Kind v = kind) then let! v' := f v in Ok (v', tt)
                           else Err ("config apply: " +:+ key +:+ " has the wrong YAML shape")) in H.
  destruct (on_pair key checked (of_pairs l)) as [[[c a]|]|] eqn:Ho; [|done|].
  - injection H as <-. apply on_pair_Ok in Ho as (l1 & k & v & v' & l2 & -> & Hf & Hk & Hc & ->).
    unfold checked in Hc. case_bool_decide as Hkind; [|done]. apply res_bind_Ok in Hc as (v1 & Hv & [= <- <-]).
    exists v, v1. assert (Hm' : isMapping (with_content m (of_pairs (l1 ++ (k, v1) :: l2))) = true) by done. split; try done.
    + left. rewrite (lookup_paired m _ key Hl Hm), pair_app_find, Hf. cbn. by rewrite (proj2 (String.eqb_eq _ _) Hk).
    + rewrite (lookup_paired (with_content m (of_pairs (l1 ++ (k, v1) :: l2))) (l1 ++ (k, v1) :: l2) key eq_refl Hm'), pair_app_find, Hf. cbn. by rewrite (proj2 (String.eqb_eq _ _) Hk).
    + intros key' Hne. rewrite (lookup_paired m _ key' Hl Hm), (lookup_paired (with_content m (of_pairs (l1 ++ (k, v1) :: l2))) (l1 ++ (k, v1) :: l2) key' eq_refl Hm'), !pair_app_find. cbn.
      by rewrite (proj2 (String.eqb_neq _ _) (fun E : n_Value k = key' => Hne (eq_sym (eq_trans (eq_sym Hk) E)))).
    + intros Hg. rewrite <- (app_nil_r (of_pairs (l1 ++ (k, v1) :: l2))). apply grows_node. rewrite Hl, !of_pairs_app.
      apply Forall2_app; [apply Forall2_grows_refl|]. constructor; [apply grows_refl|]. constructor; [exact Hg|apply Forall2_grows_refl].
    + split; [|done]. by eexists.
  - apply on_pair_None in Ho. apply res_bind_Ok in H as (v' & Hv & [= <-]).
    exists (fresh_node kind), v'.
    assert (Hc : n_Content (append_content [scalarNode key; v'] m) = of_pairs (l ++ [(scalarNode key, v')])) by (cbn; by rewrite Hl, of_pairs_app).
    assert (Hm' : isMapping (append_content [scalarNode key; v'] m) = true) by done. split; try done.
    + right. split; [|done]. by rewrite (lookup_paired m _ key Hl Hm), Ho.
    + rewrite (lookup_paired _ _ key Hc Hm'), pair_app_find, Ho. cbn. by rewrite String.eqb_refl.
    + intros key' Hne. rewrite (lookup_paired m _ key' Hl Hm), (lookup_paired _ _ key' Hc Hm'), pair_app_find. cbn.
      rewrite (proj2 (String.eqb_neq key key')) by congruence. by destruct (find_pair l key').
    + intros _. apply grows_append.
    + split; [|done]. by eexists.
Qed.

(** *** Lemmas on the edit *)

Definition child (n : Node) (key id : string) : option Node := m ← mapLookup n key; mapLookup m id.
Definition items (n : Node) (key : string) : list Node := match mapLookup n key with Some m => n_Content m | None => [] end.
(** Mappings have whole pairs, at the root and in the collections the edit goes into. *)
Definition pairs_ok (n : Node) : Prop := isMapping n = true -> paired n.
Record tree_ok (root : Node) : Prop := {
  tk_root : pairs_ok root;
  tk_connections : forall c, mapLookup root "connections" = Some c -> pairs_ok c;
  tk_sections : Forall pairs_ok (items root "sections") }.

Section ApplyProofs.
Variable encode : any -> Node.

Lemma add_connections_spec l t t' : paired t -> isMapping t = true -> NoDup (map fst l) ->
  add_connections encode l t = Ok t' ->
  grows t t' /\ (forall id v, (id, v) ∈ l -> mapLookup t id = None /\ mapLookup t' id = Some (encode v))
  /\ (forall id, id ∉ map fst l -> mapLookup t' id = mapLookup t id).
Proof.
  revert t. induction l as [|[id v] l IH]; intros t [ps Hp] Hm Hnd H; cbn in H.
  - injection H as <-. split_and!; [apply grows_refl|intros ? ? []%not_elem_of_nil|done].
  - destruct (mapLookup t id) as [x|] eqn:Ht; [done|]. inversion Hnd as [|? ? Hni Hnd']; subst.
    set (t1 := append_content [scalarNode id; encodedNode encode v] t) in *.
    assert (Hc1 : n_Content t1 = of_pairs (ps ++ [(scalarNode id, encode v)])) by (cbn; by rewrite Hp, of_pairs_app).
    assert (Hm1 : isMapping t1 = true) by done.
    destruct (IH t1 (ex_intro _ _ Hc1) Hm1 Hnd' H) as (Hg & Hnew & Hold).
    rewrite (lookup_paired t ps id Hp Hm) in Ht. apply fmap_None in Ht.
    assert (H1 : mapLookup t1 id = Some (encode v)).
    { rewrite (lookup_paired t1 _ id Hc1 Hm1), pair_app_find, Ht. cbn. by rewrite String.eqb_refl. }
    assert (Hne : forall id', id' <> id -> mapLookup t1 id' = mapLookup t id').
    { intros id' Hn. rewrite (lookup_paired t1 _ id' Hc1 Hm1), (lookup_paired t ps id' Hp Hm), pair_app_find. cbn.
      rewrite (proj2 (String.eqb_neq id id')) by congruence. by destruct (find_pair ps id'). }
    split_and!.
    + eapply grows_trans; [apply grows_append|exact Hg].
    + intros id' v' [[= -> ->]|Hin]%elem_of_cons.
      * split; [by rewrite (lookup_paired t ps id Hp Hm), Ht|]. by rewrite Hold.
      * assert (id' <> id) by (intros ->; apply Hni; by apply (elem_of_map_2 fst) in Hin).
        destruct (Hnew id' v' Hin) as [H2 H3]. by rewrite Hne in H2.
    + intros id' Hn. cbn in Hn. apply not_elem_of_cons in Hn as [Hn1 Hn2]. by rewrite Hold, Hne.
Qed.

Lemma sorted_entries_spec m : NoDup (map fst (sorted_entries m)) /\ forall id v, (id, v) ∈ sorted_entries m <-> m !! id = Some v.
Proof.
  unfold sorted_entries. pose proof (isort_perm (fun a b : string * any => str_leb a.1 b.1) (map_to_list m)) as Hp. split.
  - change (map fst) with (fmap (M := list) (fst (A := string) (B := any))). rewrite Hp. apply NoDup_fst_map_to_list.
  - intros id v. rewrite Hp. apply elem_of_map_to_list.
Qed.

Lemma appendConnections_spec m root root' : tree_ok root -> isMapping root = true -> appendConnections encode m root = Ok root' ->
  grows root root' /\ pairs_ok root' /\ isMapping root' = true
  /\ (forall key, key <> "connections" -> mapLookup root' key = mapLookup root key)
  /\ (forall id v, m !! id = Some v -> child root "connections" id = None /\ child root' "connections" id = Some (encode v))
  /\ (forall id, m !! id = None -> child root' "connections" id = child root "connections" id).
Proof.
  intros [Hr Hc _] Hm H. unfold appendConnections in H. case_bool_decide as He.
  - injection H as <-. subst m. split_and!; try done; apply grows_refl.
  - apply mappingValue_edited in H as (v & v' & [Hrun Hk Hold Hnew Hoth Hg [Hp Hm']]); [|by apply Hr].
    assert (Hv : paired v /\ isMapping v = true).
    { destruct Hold as [Hv|[_ ->]]; [|by split; [exists []|]]. split; [apply (Hc v Hv)|]; unfold isMapping; by rewrite Hk. }
    destruct (sorted_entries_spec m) as [Hnd Hel]. destruct Hv as [Hv1 Hv2].
    destruct (add_connections_spec _ _ _ Hv1 Hv2 Hnd Hrun) as (Hgr & H1 & H2).
    assert (Hchild : forall id, child root "connections" id = mapLookup v id).
    { intros id. unfold child. destruct Hold as [->|[-> ->]]; done. }
    split_and!; auto; [by intros _| |].
    + intros id x Hx. apply Hel in Hx. rewrite Hchild. unfold child. rewrite Hnew. by apply H1.
    + intros id Hx. rewrite Hchild. unfold child. rewrite Hnew. apply H2. intros ([id' x] & -> & Hin)%elem_of_map.
      apply Hel in Hin. cbn in Hx. congruence.
Qed.

Lemma mappingValue_ok key kind f m m' : pairs_ok m -> mappingValue key kind f m = Ok m' ->
  isMapping m = true /\ exists v v', edited key kind f m v v' m'.
Proof.
  intros Hp H. assert (Hm : isMapping m = true) by (unfold mappingValue in H; by destruct (isMapping m)).
  split; [done|]. by apply mappingValue_edited; [apply Hp|].
Qed.

Lemma appendSequenceValues_spec key additions root root' : pairs_ok root -> isMapping root = true ->
  appendSequenceValues encode key additions root = Ok root' ->
  grows root root' /\ pairs_ok root' /\ isMapping root' = true
  /\ (forall key', key' <> key -> mapLookup root' key' = mapLookup root key')
  /\ items root' key = items root key ++ map encode additions.
Proof.
  intros Hr Hm H. unfold appendSequenceValues in H. destruct additions as [|x l].
  - injection H as <-. cbn. rewrite app_nil_r. split_and!; try done; apply grows_refl.
  - apply mappingValue_ok in H as (_ & v & v' & [[= <-] Hk Hold Hnew Hoth Hg [Hp Hm']]); [|done].
    split_and!; auto; [apply Hg, grows_append|by intros _|].
    unfold items. rewrite Hnew. by destruct Hold as [->|[-> ->]].
Qed.

Lemma on_section_Ok title f c c' : on_section title f c = Some (Ok c') ->
  exists l1 n n' l2, c = l1 ++ n :: l2 /\ f n = Ok n' /\ c' = l1 ++ n' :: l2.
Proof.
  revert c'. induction c as [|n c IH]; intros c'; [done|]. cbn. destruct (String.eqb _ title).
  - destruct (f n) as [n'|] eqn:E; [|done]. intros [= <-]. by exists [], n, n', c.
  - intros (o & Ho & Hc)%fmap_Some. destruct o as [r|]; [|done]. injection Hc as ->.
    destruct (IH _ Ho) as (l1 & m & m' & l2 & -> & Hf & ->). by exists (n :: l1), m, m', l2.
Qed.

Hypothesis encode_pairs : forall v, pairs_ok (encode v).

Lemma merge_section_spec v t t' : Forall pairs_ok (n_Content t) -> merge_section encode v t = Ok t' ->
  grows t t' /\ Forall pairs_ok (n_Content t').
Proof.
  intros Ht H. unfold merge_section in H.
  set (add := fun n => mappingValue "cards" SequenceNode (fun t => Ok (append_content (map (encodedNode encode) (cards_of v)) t)) n) in H.
  destruct (on_section (title_of v) add (n_Content t)) as [[c|]|] eqn:E; [|done|].
  - injection H as <-. apply on_section_Ok in E as (l1 & n & n' & l2 & Hc & Hadd & ->).
    rewrite Hc in Ht. apply Forall_app in Ht as [H1 H2]. inversion H2 as [|? ? Hn H3]; subst.
    apply mappingValue_ok in Hadd as (_ & x & x' & [[= <-] _ _ _ _ Hg [Hp _]]); [|done]. split.
    + rewrite <- (app_nil_r (l1 ++ n' :: l2)). apply grows_node. rewrite Hc.
      apply Forall2_app; [apply Forall2_grows_refl|]. constructor; [apply Hg, grows_append|apply Forall2_grows_refl].
    + apply Forall_app. split; [done|]. by constructor; [intros _|].
  - injection H as <-. split; [apply grows_append|]. apply Forall_app. split; [done|]. constructor; [apply encode_pairs|done].
Qed.

Lemma merge_all_spec l t t' : Forall pairs_ok (n_Content t) -> merge_all encode l t = Ok t' -> grows t t'.
Proof.
  revert t. induction l as [|v l IH]; intros t Ht H; cbn in H; [injection H as <-; apply grows_refl|].
  apply res_bind_Ok in H as (t1 & H1 & H). destruct (merge_section_spec v t t1 Ht H1) as [Hg Ht1].
  eapply grows_trans; [exact Hg|]. by apply IH.
Qed.

Lemma mergeSections_spec l root root' : pairs_ok root -> Forall pairs_ok (items root "sections") ->
  mergeSections encode l root = Ok root' ->
  grows root root' /\ (forall key', key' <> "sections" -> mapLookup root' key' = mapLookup root key').
Proof.
  intros Hr Hs H. unfold mergeSections in H. destruct l as [|x l]; [injection H as <-; split; [apply grows_refl|done]|].
  apply mappingValue_ok in H as (_ & v & v' & [Hrun Hk Hold Hnew Hoth Hg _]); [|done]. split; [|done].
  apply Hg. eapply merge_all_spec; [|exact Hrun]. unfold items in Hs. destruct Hold as [Ho|[_ ->]]; [by rewrite Ho in Hs|constructor].
Qed.

(** What an edit of the tree does: everything there stays, the patch is added. *)
Record added_to (patch : ApplyPatch) (root root' : Node) : Prop := {
  ad_grows : grows root root';
  ad_connections : forall id v, ap_Connections patch !! id = Some v ->
    child root "connections" id = None /\ child root' "connections" id = Some (encode v);
  ad_others : forall id, ap_Connections patch !! id = None -> child root' "connections" id = child root "connections" id;
  ad_integrations : items root' "integrations" = items root "integrations" ++ map encode (ap_Integrations patch) }.

Lemma apply_patch_spec patch root root' : tree_ok root -> isMapping root = true ->
  apply_patch encode patch root = Ok root' -> added_to patch root root'.
Proof.
  intros Ht Hm H. unfold apply_patch in H. apply res_bind_Ok in H as (r1 & H1 & H). apply res_bind_Ok in H as (r2 & H2 & H3).
  destruct (appendConnections_spec _ _ _ Ht Hm H1) as (Hg1 & Hp1 & Hm1 & Ho1 & Hc1 & Hc1').
  destruct (appendSequenceValues_spec _ _ _ _ Hp1 Hm1 H2) as (Hg2 & Hp2 & Hm2 & Ho2 & Hi2).
  assert (Hs : Forall pairs_ok (items r2 "sections")) by (unfold items; rewrite Ho2, Ho1 by done; apply Ht).
  destruct (mergeSections_spec _ _ _ Hp2 Hs H3) as (Hg3 & Ho3).
  split.
  - eapply grows_trans; [exact Hg1|]. by eapply grows_trans.
  - intros id v Hv. destruct (Hc1 id v Hv) as [H4 H5]. split; [done|]. unfold child in *. by rewrite Ho3, Ho2.
  - intros id Hv. rewrite <- Hc1' by done. unfold child. by rewrite Ho3, Ho2.
  - unfold items in *. rewrite Ho3 by done. by rewrite Hi2, Ho1.
Qed.
End ApplyProofs.

(** *** Lemmas on the replacement *)

Lemma run_replace tmp path B R fs f k : tmp <> path -> Forall (touches_only tmp) B -> Forall (touches_only tmp) R ->
  foldl fs_apply fs B !! tmp = Some f ->
  let fs' := foldl fs_apply fs (take k (B ++ Rename tmp path :: R)) in
  (fs' !! path = fs !! path \/ fs' !! path = Some f) /\ forall p, p <> path -> p <> tmp -> fs' !! p = fs !! p.
Proof.
  intros Hne HB HR Hf. cbv zeta. rewrite take_app, foldl_app. destruct (k - length B) as [|j] eqn:E.
  - cbn [take foldl]. split; [left|intros p _ Hp]; apply (run_touching tmp); try done; by apply Forall_take.
  - rewrite (take_ge B) by lia. cbn [take foldl fs_apply]. rewrite Hf. split.
    + right. rewrite (run_touching tmp); [by rewrite lookup_insert_eq|by apply Forall_take|done].
    + intros p H1 H2. rewrite (run_touching tmp); [|by apply Forall_take|done].
      rewrite lookup_insert_ne, lookup_delete_ne by done. by apply (run_touching tmp).
Qed.

Lemma temporary_ops_touch tmp mode chunks : Forall (touches_only tmp) (temporary_ops tmp mode chunks).
Proof. do 2 (constructor; [done|]). apply Forall_forall. by intros o (s & -> & _)%elem_of_map. Qed.

Lemma run_temporary tmp mode chunks fs : foldl fs_apply fs (temporary_ops tmp mode chunks) !! tmp = Some (concat_str chunks, mode).
Proof.
  unfold temporary_ops. cbn [foldl fs_apply]. rewrite (run_appends _ _ _ "" mode); [done|]. by rewrite lookup_alter_eq, lookup_insert_eq.
Qed.

(** However far it gets, the file is the old one or, the validation having passed, all of the new. *)
Lemma replace_ops_atomic tmp path mode chunks valid fail fs k : tmp <> path ->
  let fs' := foldl fs_apply fs (take k (replace_ops tmp path mode chunks valid fail)) in
  (fs' !! path = fs !! path \/ valid = true /\ fs' !! path = Some (concat_str chunks, mode))
  /\ forall p, p <> path -> p <> tmp -> fs' !! p = fs !! p.
Proof.
  intros Hne. cbv zeta. set (B := temporary_ops tmp mode chunks). pose proof (temporary_ops_touch tmp mode chunks) as HB. fold B in HB.
  pose proof (run_temporary tmp mode chunks fs) as Hf. fold B in Hf.
  assert (Htouch : forall l, Forall (touches_only tmp) l ->
    (foldl fs_apply fs (take k l) !! path = fs !! path \/ valid = true /\ foldl fs_apply fs (take k l) !! path = Some (concat_str chunks, mode))
    /\ forall p, p <> path -> p <> tmp -> foldl fs_apply fs (take k l) !! p = fs !! p).
  { intros l Hl. split; [left|intros p _ Hp]; apply (run_touching tmp); try done; by apply Forall_take. }
  assert (Hrm : Forall (touches_only tmp) [Remove tmp]) by by repeat constructor.
  assert (Hfull : valid = true -> (foldl fs_apply fs (take k ((B ++ [Rename tmp path]) ++ [Remove tmp])) !! path = fs !! path
      \/ valid = true /\ foldl fs_apply fs (take k ((B ++ [Rename tmp path]) ++ [Remove tmp])) !! path = Some (concat_str chunks, mode))
    /\ forall p, p <> path -> p <> tmp -> foldl fs_apply fs (take k ((B ++ [Rename tmp path]) ++ [Remove tmp])) !! p = fs !! p).
  { intros Hv. rewrite <- app_assoc. destruct (run_replace tmp path B [Remove tmp] fs _ k Hne HB Hrm Hf) as [H1 H2].
    split; [|done]. destruct H1; [by left|by right]. }
  unfold replace_ops. fold B. destruct valid, fail as [[|n]|]; try (rewrite app_nil_r).
  - apply (Htouch []). constructor.
  - destruct (decide (S n <= length B)).
    + rewrite (take_app_le B) by done. apply Htouch, Forall_app. split; [by apply Forall_take|done].
    + rewrite (take_ge (B ++ _)) by (rewrite length_app; change (length [_]) with 1; lia). by apply Hfull.
  - by apply Hfull.
  - apply (Htouch []). constructor.
  - apply Htouch, Forall_app. split; [by apply Forall_take|done].
  - apply Htouch, Forall_app. by split.
Qed.

(** ** The properties *)

(** C23. A change of the configuration reaches the live store. From any reachable state, whatever
    schedule the watcher's own steps take, and without any further change, it comes to rest: nothing
    queued, no timer running; and then the files it last loaded are no older than the last reported
    change of a configuration file, and the status tells what came of them: they are live, or an
    error of the load or of the activation keeps what was live before. *)
Theorem changes_reach_the_live_config (marshal : Config -> string) (sha256 : string -> string)
  (load : nat -> string -> option Snapshot * Diagnostics) (activate : nat -> Snapshot -> Z -> option string) (w : watcher)
  (Hreach : reachable marshal sha256 load activate w) :
  eventually marshal sha256 load activate (fun w' =>
    resting w' /\ w_disk w' = w_disk w /\ w_due w <= w_seen w' <= w_disk w /\ settled load activate w') w.
Proof.
  eapply eventually_weaken; [|by eapply comes_to_rest, reachable_ok].
  intros w' (Hw & Hrest & Hd & Hdue). destruct Hw as [[H1 H1'] H2 _ _ _ _ H7]. destruct (Hrest) as (Hp & Hq & Ht).
  split; [done|]. split; [done|]. split; [|by rewrite Hp in H7]. split; [|lia]. rewrite <- Hdue.
  destruct H2 as [H2|[(ev & He & _)|[[t H2]|H2]]]; [done|by rewrite Hq in He; apply elem_of_nil in He|congruence..].
Qed.

(** C24. What is live was accepted. In every reachable state the live snapshot is the latest of the
    accepted ones, under the generation the status reports; accepted generations are numbered from
    one without a gap and in the order of the files they come from; each was loaded without an error
    and, after the first, activated under its own number before it went live; and generations are
    announced in order, each only once it is live. *)
Theorem live_config_accepted (marshal : Config -> string) (sha256 : string -> string)
  (load : nat -> string -> option Snapshot * Diagnostics) (activate : nat -> Snapshot -> Z -> option string) (w : watcher)
  (Hreach : reachable marshal sha256 load activate w) :
  (exists v snap l, w_accepted w = (st_Generation (sr_status (w_store w)), v, snap) :: l /\ sr_current (w_store w) = Some snap)
  /\ Forall (accepted_one load activate (sr_path (w_store w))) (w_accepted w) /\ numbered (w_accepted w)
  /\ (w_published w = tail (generations (w_accepted w))
      \/ exists g, w_phase w = Publishing g /\ w_published w ++ [g] = tail (generations (w_accepted w))).
Proof.
  destruct (reachable_ok _ _ _ _ _ Hreach) as [_ _ [H3 H3'] (v & snap & l & H4 & H4' & _) H5 _ _].
  split; [by exists v, snap, l|]. split; [done|]. split; [done|].
  destruct (w_phase w); try (left; by rewrite app_nil_r in H5). right. by eexists.
Qed.

(** C33. An edit of the configuration is additive, validated and atomic. However far it gets, the
    primary file is the old one or, once the loader has accepted the whole of it under the temporary
    name, the new one under the old mode; and the new one is the old tree with nothing changed but
    children added: the patch's connections, under ids that were free, and its integrations. *)
Theorem apply_additive_and_validated (encode : any -> Node) (unmarshal : string -> res string Node)
  (encode_document : Node -> res string string) (load_path : gmap string (string * Z) -> string -> option Snapshot * Diagnostics)
  (tmp path : string) (cut : string -> list string) (fail : option nat) (patch : ApplyPatch) (fs : gmap string (string * Z)) (ops : list fs_op)
  (Hencode : forall v, pairs_ok (encode v))
  (Hparse : forall s doc root, unmarshal s = Ok doc -> n_Content doc = [root] -> tree_ok root)
  (Hcut : forall s, concat_str (cut s) = s) (Hne : tmp <> path)
  (Happly : Apply encode unmarshal encode_document load_path tmp path cut fail patch fs = Ok ops) :
  exists body mode doc root root' text,
    fs !! path = Some (body, mode) /\ unmarshal body = Ok doc /\ n_Content doc = [root] /\ added_to encode patch root root'
    /\ encode_document (with_content doc [root']) = Ok text
    /\ forall k, let fs' := foldl fs_apply fs (take k ops) in
       (fs' !! path = Some (body, mode)
        \/ fs' !! path = Some (text, mode) /\ exists fs1, fs1 !! tmp = Some (text, mode) /\ HasErrors (load_path fs1 tmp).2 = false)
       /\ forall p, p <> path -> p <> tmp -> fs' !! p = fs !! p.
Proof.
  unfold Apply in Happly. destruct (fs !! path) as [[body mode]|] eqn:Hf; [|done].
  apply res_bind_Ok in Happly as (doc & Hdoc & H). destruct (unmarshal body) as [d|] eqn:Hu; [|done]. injection Hdoc as ->.
  destruct (n_Content doc) as [|root [|]] eqn:Hc; [done| |done]. apply guard_Ok in H as [Hm H].
  apply res_bind_Ok in H as (root' & Hp & H). apply res_bind_Ok in H as (text & Ht & [= <-]).
  destruct (encode_document _) as [t|] eqn:Ee; [|done]. injection Ht as ->.
  exists body, mode, doc, root, root', text. split_and!; try done; [by eapply apply_patch_spec; [|eapply Hparse|..]|].
  intros k. cbv zeta. unfold validateAndReplace. rewrite Hf.
  destruct (replace_ops_atomic tmp path mode (cut text) (negb (HasErrors (load_path (foldl fs_apply fs (temporary_ops tmp mode (cut text))) tmp).2)) fail fs k Hne)
    as [[H1|[Hv H1]] H2]; (split; [|exact H2]); [left; by rewrite H1|right]. rewrite H1, Hcut. split; [done|].
  exists (foldl fs_apply fs (temporary_ops tmp mode (cut text))). rewrite run_temporary, Hcut. split; [done|]. by apply negb_true_iff in Hv.
Qed.

(** ** Samples and witnesses *)

Definition sample_load (n : nat) (path : string) : option Snapshot * Diagnostics :=
  match n with 1 => (None, [file_diag path (MText "broken")]) | _ => (Some (empty_snapshot sample_config), []) end.
Definition sample_activate (n : nat) (s : Snapshot) (g : Z) : option string := None.
Definition opened : Store := (Open (fun _ => "") (fun s => s) "/etc/veduta//veduta.yaml" (sample_load 0) 5).1.
Definition sample_start : watcher :=
  {| w_store := opened; w_disk := 0; w_due := 0; w_seen := 0; w_queue := []; w_timer := None; w_clock := 5; w_watched := {["/etc/veduta"]};
     w_phase := Idle; w_published := []; w_accepted := [(1%Z, 0, empty_snapshot sample_config)] |}.
Definition edited_once : watcher := change_file sample_start "/etc/veduta/veduta.yaml" false.
Lemma sample_starts : starts (fun _ => "") (fun s => s) sample_load sample_start.
Proof. apply (starts_open _ _ _ "/etc/veduta//veduta.yaml" 5); [reflexivity..|]. apply elem_of_singleton. reflexivity. Qed.
Lemma edited_reachable : reachable (fun _ => "") (fun s => s) sample_load sample_activate edited_once.
Proof. eapply reach_env; [apply reach_start, sample_starts|]. apply es_change. Qed.

Example changes_reach_the_live_config_witness :
  w_due edited_once = 1 /\ w_seen edited_once = 0
  /\ eventually (fun _ => "") (fun s => s) sample_load sample_activate
       (fun w' => resting w' /\ w_disk w' = 1 /\ w_due edited_once <= w_seen w' <= 1 /\ settled sample_load sample_activate w') edited_once.
Proof.
  split; [vm_compute; reflexivity|]. split; [reflexivity|].
  apply (changes_reach_the_live_config _ _ _ _ edited_once edited_reachable).
Defined.

Example live_config_accepted_witness :
  exists v snap l, w_accepted edited_once = (1%Z, v, snap) :: l /\ sr_current (w_store edited_once) = Some snap.
Proof. exact (proj1 (live_config_accepted _ _ _ _ edited_once edited_reachable)). Defined.

(** A reload by hand: a broken file keeps the generation and the snapshot, the next one is live. *)
Example reload_samples :
  let '(s1, p1) := reload (fun _ => "") (fun s => s) (sample_load 1) None 7 opened in
  let '(s2, p2) := reload (fun _ => "") (fun s => s) (sample_load 2) (Some (sample_activate 2)) 9 s1 in
  (st_OK (sr_status s1), st_Generation (sr_status s1), st_LoadedAt (sr_status s1), p1) = (false, 1%Z, 5%Z, None)
  /\ (st_OK (sr_status s2), st_Generation (sr_status s2), st_LoadedAt (sr_status s2), p2) = (true, 2%Z, 9%Z, Some 2%Z)
  /\ match sr_current s1 with Some _ => true | None => false end = true.
Proof. vm_compute. split; [|split]; reflexivity. Qed.

Definition sample_root : Node :=
  mkNode MappingNode "!!map" "" 0 0 None [scalarNode "connections"; mkNode MappingNode "!!map" "" 0 0 None [scalarNode "a"; scalarNode "1"]].
Definition sample_encode (v : any) : Node := scalarNode (as_string v).
Definition sample_patch : ApplyPatch :=
  {| ap_Connections := {["b" := AString "2"]}; ap_Integrations := [AString "i"]; ap_Sections := [[("title", AString "t"); ("cards", AList [AString "c"])]] |}.
Definition sample_doc (root : Node) : Node := mkNode DocumentNode "" "" 0 0 None [root].
Definition sample_edit (s : string) : res string Node := if String.eqb s "old" then Ok (sample_doc sample_root) else Err "syntax".
Definition sample_files : gmap string (string * Z) := {["v.yaml" := ("old", 420%Z)]}.
Definition sample_ops : list fs_op := replace_ops "t" "v.yaml" 420 ["new"] true None.

Example apply_additive_and_validated_witness :
  Apply sample_encode sample_edit (fun _ => Ok "new") (fun _ _ => (None, [])) "t" "v.yaml" (fun s => [s]) None sample_patch sample_files = Ok sample_ops
  /\ exists root', added_to sample_encode sample_patch sample_root root'
  /\ (foldl fs_apply sample_files (take 3 sample_ops) !! "v.yaml" = Some ("old", 420%Z)
      \/ foldl fs_apply sample_files (take 3 sample_ops) !! "v.yaml" = Some ("new", 420%Z)).
Proof.
  assert (E : Apply sample_encode sample_edit (fun _ => Ok "new") (fun _ _ => (None, [])) "t" "v.yaml" (fun s => [s]) None sample_patch sample_files
              = Ok sample_ops) by (vm_compute; reflexivity).
  split; [exact E|].
  destruct (apply_additive_and_validated sample_encode sample_edit (fun _ => Ok "new") (fun _ _ => (None, [])) "t" "v.yaml" (fun s => [s]) None
    sample_patch sample_files sample_ops) as (body & mode & doc & root & root' & text & Hf & Hu & Hc & Ha & Ht & Hk).
  - intros v H. discriminate H.
  - intros s doc root Hs Hc. unfold sample_edit in Hs. destruct (String.eqb s "old"); [|discriminate Hs]. injection Hs as <-.
    injection Hc as <-. split.
    + intros _. exists [(scalarNode "connections", mkNode MappingNode "!!map" "" 0 0 None [scalarNode "a"; scalarNode "1"])]. reflexivity.
    + intros c [= <-] _. exists [(scalarNode "a", scalarNode "1")]. reflexivity.
    + constructor.
  - intros s. vm_compute. reflexivity.
  - discriminate.
  - exact E.
  - injection Hf as <- <-. injection Hu as <-. injection Hc as <-. injection Ht as <-.
    exists root'. split; [exact Ha|]. destruct (Hk 3) as [[H|[H _]] _]; [by left|by right].
Defined.
