(* ===== verification/Homepage.v ===== *)
(** * internal/homepageimport: another dashboard's configuration, imported

    model.go and parse.go read Homepage's YAML files and container labels into a model; map.go turns the
    model into an additive patch of the configuration (ConfigStore applies it). Reading files, YAML,
    printing a scalar ([fmt.Sprint]) and quoting ([%q]), parsing and printing a URL, lower and upper case
    and the Unicode class of a separator are arguments. A Go map is ranged in the order of its entries;
    maps the parser changes in place are reachable from one place only and are passed along. *)
From S2P Require Import Prelude GoSort GoAny GoPath RoutePath GoTime TimeText NetHttp Utf8 Config Manifest HttpClient Approval ConfigStore.

(** ** model.go *)

Record Warning := { w_Source : string; w_Path : string; w_Message : string }.
Record Widget := { wd_Type : string; wd_URL : string; wd_Key : string; wd_Fields : list string; wd_Options : list (string * any) }.
Record Service := {
  sv_Name : string; sv_Href : string; sv_Description : string; sv_Icon : string; sv_Ping : string; sv_SiteMonitor : string;
  sv_Server : string; sv_Container : string; sv_Widgets : list Widget; sv_Extra : list (string * any) }.
Inductive Group := mkGroup (name : string) (services : list Service) (groups : list Group).
Record Bookmark := { bk_Name : string; bk_Href : string; bk_Description : string; bk_Icon : string; bk_Abbr : string }.
Record BookmarkGroup := { bg_Name : string; bg_Bookmarks : list Bookmark }.
Record Model := { md_Groups : list Group; md_Bookmarks : list BookmarkGroup; md_Settings : list (string * any); md_Widgets : list Widget }.
Record DockerService := { dsv_Group : string; dsv_Service : Service }.

Definition g_Name (g : Group) : string := let 'mkGroup n _ _ := g in n.
Definition g_Services (g : Group) : list Service := let 'mkGroup _ s _ := g in s.
Definition g_Groups (g : Group) : list Group := let 'mkGroup _ _ gs := g in gs.

(** ** parse.go *)

Definition knownWidgetTypes : list string :=
  ["adguard"; "authentik"; "bazarr"; "beszel"; "calibreweb"; "changedetectionio"; "cloudflared"; "coinmarketcap"; "deluge"; "docker";
   "emby"; "frigate"; "glances"; "homeassistant"; "immich"; "jellyfin"; "komga"; "lidarr"; "nextcloud"; "nginxproxymanager"; "omada";
   "openweathermap"; "overseerr"; "pihole"; "plex"; "portainer"; "prowlarr"; "proxmox"; "qbittorrent"; "radarr"; "sabnzbd"; "sonarr";
   "speedtest"; "tautulli"; "traefik"; "transmission"; "truenas"; "uptimekuma"; "watchtower"; "resources"; "search"; "datetime"; "greeting";
   "kubernetes"; "openmeteo"; "logo"; "longhorn"].

Inductive parse_error :=
| PFile (e : string) | PNotDirectory (dir : string) | PYAML (file e : string) | PSequence (source : string) | PSettings
| PEntry (source : string) (index : nat) (e : parse_error) | PSingleKey | PEmptyName | PGroupContents (source path : string)
| PService (source path : string).

Inductive read_result := ReadMissing | ReadError (e : string) | ReadBody (body : string).

Section Parse.
Variable sprint : any -> string.
Variable quote : string -> string.
Variable strings_ToLower : string -> string.

(** What is parsed, with the warnings up to then. *)
Definition parsed (A : Type) : Type := list Warning * res parse_error A.

Definition warn (source path message : string) : Warning := {| w_Source := source; w_Path := path; w_Message := message |}.

Definition namedEntry (value : any) : res parse_error (string * any) :=
  match value with
  | AMap [(name, child)] => if String.eqb (TrimSpace name) "" then Err PEmptyName else Ok (name, child)
  | _ => Err PSingleKey
  end.

Definition scalarString (value : any) : string :=
  match value with ANil => "" | AString s => s | v => sprint v end.
Definition stringSlice (value : any) : list string := match value with AList l => map scalarString l | _ => [] end.

Definition set_field (w : Widget) (e : string * any) : Widget :=
  let '(key, value) := e in
  if String.eqb key "type" then {| wd_Type := scalarString value; wd_URL := wd_URL w; wd_Key := wd_Key w; wd_Fields := wd_Fields w; wd_Options := wd_Options w |}
  else if String.eqb key "url" then {| wd_Type := wd_Type w; wd_URL := scalarString value; wd_Key := wd_Key w; wd_Fields := wd_Fields w; wd_Options := wd_Options w |}
  else if String.eqb key "key" then {| wd_Type := wd_Type w; wd_URL := wd_URL w; wd_Key := scalarString value; wd_Fields := wd_Fields w; wd_Options := wd_Options w |}
  else if String.eqb key "fields" then {| wd_Type := wd_Type w; wd_URL := wd_URL w; wd_Key := wd_Key w; wd_Fields := stringSlice value; wd_Options := wd_Options w |}
  else {| wd_Type := wd_Type w; wd_URL := wd_URL w; wd_Key := wd_Key w; wd_Fields := wd_Fields w; wd_Options := assign_key key value (wd_Options w) |}.

Definition parseWidget (raw : list (string * any)) (source path : string) : Widget * list Warning :=
  let widget := foldl set_field {| wd_Type := ""; wd_URL := ""; wd_Key := ""; wd_Fields := []; wd_Options := [] |} raw in
  (widget,
   if String.eqb (wd_Type widget) "" then [warn source path "widget has no type"]
   else if existsb (String.eqb (strings_ToLower (wd_Type widget))) knownWidgetTypes then []
   else [warn source path ("unknown widget type " +:+ quote (wd_Type widget) +:+ "; retained for manual mapping")]).

Fixpoint parse_widgets (items : list any) (source path : string) (index : nat) : list Widget * list Warning :=
  match items with
  | [] => ([], [])
  | item :: rest =>
      let here := path +:+ "[" +:+ Itoa index +:+ "]" in
      let '(ws, warnings) := parse_widgets rest source path (S index) in
      match item with
      | AMap mapping => let '(w, ww) := parseWidget mapping source here in (w :: ws, ww ++ warnings)
      | _ => (ws, warn source here "widget must be a mapping; ignored" :: warnings)
      end
  end.
Definition parseWidgetList (value : any) (source path : string) : list Widget * list Warning :=
  match value with
  | AList items => parse_widgets items source path 0
  | _ => ([], [warn source path "widgets must be a sequence; ignored"])
  end.

Definition with_widgets (s : Service) (ws : list Widget) : Service :=
  {| sv_Name := sv_Name s; sv_Href := sv_Href s; sv_Description := sv_Description s; sv_Icon := sv_Icon s; sv_Ping := sv_Ping s;
     sv_SiteMonitor := sv_SiteMonitor s; sv_Server := sv_Server s; sv_Container := sv_Container s; sv_Widgets := sv_Widgets s ++ ws; sv_Extra := sv_Extra s |}.
Definition with_text (s : Service) (key v : string) : Service :=
  let pick k old := if String.eqb key k then v else old in
  {| sv_Name := sv_Name s; sv_Href := pick "href" (sv_Href s); sv_Description := pick "description" (sv_Description s);
     sv_Icon := pick "icon" (sv_Icon s); sv_Ping := pick "ping" (sv_Ping s); sv_SiteMonitor := pick "siteMonitor" (sv_SiteMonitor s);
     sv_Server := pick "server" (sv_Server s); sv_Container := pick "container" (sv_Container s); sv_Widgets := sv_Widgets s; sv_Extra := sv_Extra s |}.
Definition with_extra (s : Service) (key : string) (v : any) : Service :=
  {| sv_Name := sv_Name s; sv_Href := sv_Href s; sv_Description := sv_Description s; sv_Icon := sv_Icon s; sv_Ping := sv_Ping s;
     sv_SiteMonitor := sv_SiteMonitor s; sv_Server := sv_Server s; sv_Container := sv_Container s; sv_Widgets := sv_Widgets s;
     sv_Extra := assign_key key v (sv_Extra s) |}.
Definition text_fields (key : string) : bool :=
  existsb (String.eqb key) ["href"; "description"; "icon"; "ping"; "siteMonitor"; "server"; "container"].

(** One field of a service, with the warnings so far. *)
Definition service_field (source path : string) (st : Service * list Warning) (e : string * any) : Service * list Warning :=
  let '(s, warnings) := st in
  let '(key, value) := e in
  if text_fields key then (with_text s key (scalarString value), warnings)
  else if String.eqb key "widget" then
    match value with
    | AMap m => let '(w, ww) := parseWidget m source (path +:+ ".widget") in (with_widgets s [w], warnings ++ ww)
    | _ => (s, warnings ++ [warn source (path +:+ ".widget") "widget must be a mapping; ignored"])
    end
  else if String.eqb key "widgets" then
    let '(ws, ww) := parseWidgetList value source (path +:+ ".widgets") in (with_widgets s ws, warnings ++ ww)
  else (with_extra s key value, warnings).

Definition new_service (name : string) : Service :=
  {| sv_Name := name; sv_Href := ""; sv_Description := ""; sv_Icon := ""; sv_Ping := ""; sv_SiteMonitor := ""; sv_Server := "";
     sv_Container := ""; sv_Widgets := []; sv_Extra := [] |}.
Definition parseService (name : string) (raw : list (string * any)) (source path : string) : Service * list Warning :=
  foldl (service_field source path) (new_service name, []) raw.

Definition entry_at {A} (source : string) (index : nat) (r : res parse_error A) : res parse_error A := res_map_err (PEntry source index) r.
Definition at_path (source path : string) : string := source +:+ ":" +:+ path.

(** The contents of a group: services and, one level down, groups. *)
Fixpoint parseGroup (name : string) (value : any) (source path : string) {struct value} : parsed Group :=
  match value with
  | AList items =>
      (fix contents (index : nat) (items : list any) (services : list Service) (groups : list Group) (warnings : list Warning) {struct items} : parsed Group :=
         match items with
         | [] => (warnings, Ok (mkGroup name services groups))
         | item :: rest =>
             match entry_at (at_path source path) index (namedEntry item), item with
             | Err e, _ => (warnings, Err e)
             | Ok (childName, _), AMap [(_, child)] =>
                 let childPath := path +:+ "." +:+ childName in
                 match child with
                 | AList _ =>
                     match parseGroup childName child source childPath with
                     | (ww, Err e) => (warnings ++ ww, Err e)
                     | (ww, Ok g) => contents (S index) rest services (groups ++ [g]) (warnings ++ ww)
                     end
                 | AMap m =>
                     let '(s, ww) := parseService childName m source childPath in
                     contents (S index) rest (services ++ [s]) groups (warnings ++ ww)
                 | _ => (warnings, Err (PService source childPath))
                 end
             | Ok _, _ => (warnings, Err PSingleKey)
             end
         end) 0 items [] [] []
  | _ => ([], Err (PGroupContents source path))
  end.

Fixpoint parse_groups (items : list any) (source : string) (index : nat) (groups : list Group) (warnings : list Warning) : parsed (list Group) :=
  match items with
  | [] => (warnings, Ok groups)
  | item :: rest =>
      match entry_at source index (namedEntry item) with
      | Err e => (warnings, Err e)
      | Ok (name, children) =>
          let '(ww, r) := parseGroup name children source name in
          match r with
          | Err e => (warnings ++ ww, Err e)
          | Ok g => parse_groups rest source (S index) (groups ++ [g]) (warnings ++ ww)
          end
      end
  end.
Definition parseGroups (value : any) (source : string) : parsed (list Group) :=
  match value with AList items => parse_groups items source 0 [] [] | _ => ([], Err (PSequence source)) end.

(** The entry of widgets.yaml at [index]: its one key is the widget's type. *)
Definition global_widget (index : nat) (name : string) (config : any) : Widget * list Warning :=
  let raw := match config with AMap m => m | _ => [("value", config)] end in
  parseWidget (assign_key "type" (AString name) raw) "widgets.yaml" ("[" +:+ Itoa index +:+ "]." +:+ name).
Fixpoint global_widgets (items : list any) (index : nat) (widgets : list Widget) (warnings : list Warning) : parsed (list Widget) :=
  match items with
  | [] => (warnings, Ok widgets)
  | item :: rest =>
      match entry_at "widgets.yaml" index (namedEntry item) with
      | Err e => (warnings, Err e)
      | Ok (name, config) =>
          let '(w, ww) := global_widget index name config in global_widgets rest (S index) (widgets ++ [w]) (warnings ++ ww)
      end
  end.
Definition parseGlobalWidgets (value : any) : parsed (list Widget) :=
  match value with AList items => global_widgets items 0 [] [] | _ => ([], Err (PSequence "widgets.yaml")) end.

Definition collapseBookmarkFields (value : any) : list (string * any) :=
  match value with
  | AMap mapping => mapping
  | AList items => foldl (fun result item => foldl (fun r e => assign_key e.1 e.2 r) result (as_map item)) [] items
  | _ => []
  end.
Definition bookmark_of (name : string) (value : any) : Bookmark :=
  let fields := collapseBookmarkFields value in
  let text key := scalarString (default ANil (assoc key fields)) in
  {| bk_Name := name; bk_Href := text "href"; bk_Description := text "description"; bk_Icon := text "icon"; bk_Abbr := text "abbr" |}.
Fixpoint parse_bookmarks (group : string) (entries : list any) (index : nat) : res parse_error (list Bookmark) :=
  match entries with
  | [] => Ok []
  | entry :: rest =>
      let! e := entry_at (at_path "bookmarks.yaml" group) index (namedEntry entry) in
      let! bs := parse_bookmarks group rest (S index) in
      Ok (bookmark_of e.1 e.2 :: bs)
  end.
Fixpoint parse_bookmark_groups (items : list any) (index : nat) : res parse_error (list BookmarkGroup) :=
  match items with
  | [] => Ok []
  | item :: rest =>
      let! e := entry_at "bookmarks.yaml" index (namedEntry item) in
      let! bookmarks := match e.2 with AList entries => parse_bookmarks e.1 entries 0 | _ => Err (PGroupContents "bookmarks.yaml" e.1) end in
      let! gs := parse_bookmark_groups rest (S index) in
      Ok ({| bg_Name := e.1; bg_Bookmarks := bookmarks |} :: gs)
  end.
Definition parseBookmarks (value : any) : res parse_error (list BookmarkGroup) :=
  match value with AList items => parse_bookmark_groups items 0 | _ => Err (PSequence "bookmarks.yaml") end.

(** [ParseDir]: [stat] answers whether the path is a directory, [read] reads a file of it. *)
Section ParseDir.
Variable stat : string -> res string bool.
Variable read : string -> read_result.
Variable yaml_Unmarshal : string -> res string any.

(** [readOptionalYAML]; [absent] is what the caller is left with when there is no such file. *)
Definition readOptionalYAML {A} (path : string) (absent : A) (consume : any -> parsed A) : parsed A :=
  match read path with
  | ReadMissing => ([], Ok absent)
  | ReadError e => ([], Err (PFile e))
  | ReadBody body =>
      match yaml_Unmarshal body with
      | Err e => ([], Err (PYAML (filepath_Base path) e))
      | Ok value => consume value
      end
  end.

Definition then_parse {A B} (m : parsed A) (k : A -> parsed B) : parsed B :=
  match m with
  | (ww, Err e) => (ww, Err e)
  | (ww, Ok a) => let '(ww', r) := k a in (ww ++ ww', r)
  end.

Definition settings_of (value : any) : res parse_error (list (string * any)) :=
  match value with AMap m => Ok m | _ => Err PSettings end.

Definition ParseDir (dir : string) : parsed Model :=
  match stat dir with
  | Err e => ([], Err (PFile e))
  | Ok false => ([], Err (PNotDirectory dir))
  | Ok true =>
      then_parse (readOptionalYAML (filepath_Join dir "services.yaml") [] (fun v => parseGroups v "services.yaml")) (fun groups =>
      then_parse (readOptionalYAML (filepath_Join dir "bookmarks.yaml") [] (fun v => ([], parseBookmarks v))) (fun bookmarks =>
      then_parse (readOptionalYAML (filepath_Join dir "settings.yaml") [] (fun v => ([], settings_of v))) (fun settings =>
      then_parse (readOptionalYAML (filepath_Join dir "widgets.yaml") [] parseGlobalWidgets) (fun widgets =>
      ([], Ok {| md_Groups := groups; md_Bookmarks := bookmarks; md_Settings := settings; md_Widgets := widgets |})))))
  end.
End ParseDir.

(** *** Container labels *)

(** [homepage.widgets[i].path]: the index, at most 63, and the path. *)
Definition indexedWidgetLabel (key : string) : option (nat * string) :=
  let rest := TrimPrefix key "homepage.widgets[" in
  match Cut rest "]" with
  | None => None
  | Some (digits, after) =>
      match after with
      | String "." ((String _ _) as path) =>
          if String.eqb digits "" then None
          else match Atoi digits with
               | Some i => if ((i <? 0) || (63 <? i))%Z then None else Some (Z.to_nat i, path)
               | None => None
               end
      | _ => None
      end
  end.

(** The maps a dotted path leads through: what is there and not a map is replaced by one. *)
Fixpoint set_at (target : list (string * any)) (parts : list string) (value : string) : list (string * any) :=
  match parts with
  | [] => target
  | [last] => assign_key last (AString value) target
  | part :: rest => assign_key part (AMap (set_at (as_map (default ANil (assoc part target))) rest value)) target
  end.
Definition setWidgetLabel (target : list (string * any)) (path value : string) : list (string * any) :=
  let parts := Split "." path in
  if (2 <=? length parts)%nat && String.eqb (hd "" parts) "headers" then
    let headers := as_map (default ANil (assoc "headers" target)) in
    assign_key "headers" (AMap (assign_key (Join "." (tail parts)) (AString value) headers)) target
  else set_at target parts value.

(** [for len(widgets) <= index { append an empty map }], and the widget there rewritten. *)
Definition extend_to (widgets : list any) (index : nat) : list any :=
  widgets ++ repeat (AMap []) (S index - length widgets).
Definition set_widget (widgets : list any) (index : nat) (path value : string) : list any :=
  alter (fun w => AMap (setWidgetLabel (as_map w) path value)) index (extend_to widgets index).

Definition label_warning (key message : string) : Warning := warn "docker labels" key message.

(** One label, by name in sorted order. *)
Definition label_step (labels : gmap string string) (st : list (string * any) * list Warning) (key : string) : list (string * any) * list Warning :=
  let '(raw, warnings) := st in
  let value := default "" (labels !! key) in
  if String.eqb key "homepage.name" || String.eqb key "homepage.group" then (raw, warnings)
  else if HasPrefix key "homepage.widget." then
    (assign_key "widget" (AMap (setWidgetLabel (as_map (default ANil (assoc "widget" raw))) (TrimPrefix key "homepage.widget.") value)) raw, warnings)
  else if HasPrefix key "homepage.widgets[" then
    match indexedWidgetLabel key with
    | None => (raw, warnings ++ [label_warning key "malformed indexed widget label; ignored"])
    | Some (index, path) => (assign_key "widgets" (AList (set_widget (as_list (default ANil (assoc "widgets" raw))) index path value)) raw, warnings)
    end
  else if HasPrefix key "homepage." then
    let field := TrimPrefix key "homepage." in
    if text_fields field then (assign_key field (AString value) raw, warnings)
    else (raw, warnings ++ [label_warning key "unsupported Homepage label; retained nowhere"])
  else (raw, warnings).

Definition ParseDockerLabels (labels : gmap string string) : option (DockerService * list Warning) :=
  let name := default "" (labels !! "homepage.name") in
  if String.eqb name "" then None
  else
    let keys := sort_strings (map fst (map_to_list labels)) in
    let '(raw, warnings) := foldl (label_step labels) ([], []) keys in
    let '(service, ww) := parseService name raw "docker labels" name in
    Some ({| dsv_Group := default "" (labels !! "homepage.group"); dsv_Service := service |}, warnings ++ ww).
End Parse.

(** ** map.go *)

Record mappingSpec := { integration : string; operation : string; header : string; authNote : string }.

Definition spec_none : mappingSpec := {| integration := ""; operation := ""; header := ""; authNote := "" |}.
Definition spec_header (h : string) : mappingSpec := {| integration := ""; operation := ""; header := h; authNote := "" |}.
Definition spec_card (i o h : string) : mappingSpec := {| integration := i; operation := o; header := h; authNote := "" |}.

Definition proxmox_note : string :=
  "Proxmox needs auth: { type: header, name: Authorization, value: 'PVEAPIToken=<user@realm!tokenid>=<secret>' } - Homepage's username and password fields are not carried across".

Definition widgetMappings : list (string * mappingSpec) :=
  [("adguard", spec_none); ("authentik", spec_none); ("bazarr", spec_header "X-Api-Key");
   ("beszel", spec_card "beszel" "overview" ""); ("calibreweb", spec_none); ("changedetectionio", spec_none); ("cloudflared", spec_none);
   ("coinmarketcap", spec_none); ("deluge", spec_none); ("docker", spec_none); ("emby", spec_none); ("frigate", spec_none);
   ("glances", spec_card "glances" "overview" ""); ("homeassistant", spec_card "homeassistant" "overview" "");
   ("immich", spec_card "immich" "recent-assets" "x-api-key"); ("jellyfin", spec_card "jellyfin" "recently-added" "X-Emby-Token");
   ("komga", spec_none); ("lidarr", spec_header "X-Api-Key"); ("nextcloud", spec_none); ("nginxproxymanager", spec_none); ("omada", spec_none);
   ("openweathermap", spec_none); ("overseerr", spec_none); ("pihole", spec_none); ("plex", spec_header "X-Plex-Token"); ("portainer", spec_none);
   ("prowlarr", spec_header "X-Api-Key");
   ("proxmox", {| integration := "proxmox"; operation := "cluster-overview"; header := ""; authNote := proxmox_note |});
   ("qbittorrent", spec_none); ("radarr", spec_header "X-Api-Key"); ("sabnzbd", spec_none); ("sonarr", spec_header "X-Api-Key");
   ("speedtest", spec_none); ("tautulli", spec_none); ("traefik", spec_none); ("transmission", spec_none); ("truenas", spec_none);
   ("uptimekuma", spec_none); ("watchtower", spec_none)].

Record Report := { rp_Services : nat; rp_Complete : nat; rp_WithoutWidgets : nat; rp_NeedManual : nat; rp_EnvironmentVariables : list string }.

(** The mapper: the patch so far, the report, and what is taken. *)
Record mapper := {
  m_PluginDir : string; m_Connections : gmap string any; m_Integrations : list any; m_Sections : list (list (string * any));
  m_report : Report; m_warnings : list Warning; cardIDs : gset string; connectionIDs : gset string; integrationIDs : gset string;
  connectionsByURL : gmap string string; declaredInPatch : gset string; environmentValues : gset string }.

(** [strings.TrimRight] and [strings.Trim] with a cut set of single bytes. *)
Fixpoint TrimRight (cut : ascii -> bool) (s : string) : string :=
  match s with
  | EmptyString => ""
  | String c r => let r' := TrimRight cut r in if String.eqb r' "" && cut c then "" else String c r'
  end.
Fixpoint TrimLeft (cut : ascii -> bool) (s : string) : string :=
  match s with String c r => if cut c then TrimLeft cut r else s | EmptyString => "" end.
Definition dash (c : ascii) : bool := Ascii.eqb c "-".
Definition Trim_dash (s : string) : string := TrimRight dash (TrimLeft dash s).
(** [strings.ToUpper] of ASCII text. *)
Fixpoint ToUpper (s : string) : string :=
  match s with String c r => String (if in_range 97 122 c then ascii_of_N (byteN c - 32) else c) (ToUpper r) | EmptyString => "" end.
(** [s[:n]] *)
Definition slice (n : nat) (s : string) : string := String.substring 0 n s.

(** The loop of [uniqueID], ended by fuel or by a candidate that is not taken. *)
Fixpoint next_id (fuel : nat) (base : string) (limit suffix : nat) (used : gset string) : string :=
  let ending := "-" +:+ Itoa suffix in
  let prefix := if (limit <? String.length base + String.length ending)%nat
                then Trim_dash (slice (limit - String.length ending) base) else base in
  let candidate := prefix +:+ ending in
  match fuel with
  | O => candidate
  | S f => if bool_decide (candidate ∈ used) then next_id f base limit (S suffix) used else candidate
  end.
Definition id_base (base : string) (limit : nat) : string :=
  let b := if String.eqb base "" then "imported" else base in
  if (limit <? String.length b)%nat then Trim_dash (slice limit b) else b.
Definition uniqueID (base : string) (used : gset string) (limit : nat) : string * gset string :=
  let b := id_base base limit in
  let candidate := if bool_decide (b ∈ used) then next_id (size used) b limit 2 used else b in
  (candidate, {[candidate]} ∪ used).

Section Map.
Variable strings_ToLower : string -> string.
Variable separator : N -> bool.                       (* unicode.IsSpace, IsPunct or IsSymbol *)
Variable quote : string -> string.                    (* %q *)
Variable url_parse : string -> option full_URL.
Variable url_String : full_URL -> string.

Definition lower_alnum (r : N) : bool := ((97 <=? r) && (r <=? 122) || (48 <=? r) && (r <=? 57))%N.
(** What has been written and whether it ends in a dash. *)
Definition slug_step (st : string * bool) (char : N) : string * bool :=
  let '(out, d) := st in
  if lower_alnum char then (out +:+ String (ascii_of_N char) "", false)
  else if negb d && negb (String.eqb out "") && separator char then (out +:+ "-", true)
  else st.
Definition slug (value : string) : string := Trim_dash (foldl slug_step ("", false) (runes (strings_ToLower value))).1.

Definition normalBaseURL (raw : string) : option string :=
  match url_parse (TrimSpace raw) with
  | None => None
  | Some f =>
      let u := fu_URL f in
      if negb (String.eqb (scheme u) "http") && negb (String.eqb (scheme u) "https") || String.eqb (host u) "" || fu_User f then None
      else Some (url_String {| fu_URL := with_path u (TrimRight (Ascii.eqb "/") (upath u)) ∅; fu_User := fu_User f;
                               fu_RawQuery := ""; fu_Fragment := "" |})
  end.

Definition no_report : Report := {| rp_Services := 0; rp_Complete := 0; rp_WithoutWidgets := 0; rp_NeedManual := 0; rp_EnvironmentVariables := [] |}.
Definition empty_mapper (dir : string) : mapper :=
  {| m_PluginDir := dir; m_Connections := ∅; m_Integrations := []; m_Sections := []; m_report := no_report; m_warnings := [];
     cardIDs := ∅; connectionIDs := ∅; integrationIDs := ∅; connectionsByURL := ∅; declaredInPatch := ∅; environmentValues := ∅ |}.

Definition url_of_connection (m : gmap string string) (e : string * Connection) : gmap string string :=
  match HTTP e.2 with
  | Some h => match normalBaseURL (BaseURL h) with Some normal => <[normal := e.1]> m | None => m end
  | None => m
  end.

Definition newMapper (existing : option Snapshot) (dir : string) : mapper :=
  match existing with
  | None => empty_mapper dir
  | Some snap =>
      let cfg := snap_Config snap in
      {| m_PluginDir := dir; m_Connections := ∅; m_Integrations := []; m_Sections := []; m_report := no_report; m_warnings := [];
         cardIDs := list_to_set (map card_ID (all_cards cfg)); connectionIDs := dom (Connections cfg);
         integrationIDs := list_to_set (map in_ID (Integrations cfg));
         connectionsByURL := foldl url_of_connection ∅ (map_to_list (Connections cfg));
         declaredInPatch := ∅; environmentValues := ∅ |}
  end.

(** *** One assignment to a field of the mapper each *)

Definition set_cards (m : mapper) (ids : gset string) : mapper :=
  {| m_PluginDir := m_PluginDir m; m_Connections := m_Connections m; m_Integrations := m_Integrations m; m_Sections := m_Sections m;
     m_report := m_report m; m_warnings := m_warnings m; cardIDs := ids; connectionIDs := connectionIDs m; integrationIDs := integrationIDs m;
     connectionsByURL := connectionsByURL m; declaredInPatch := declaredInPatch m; environmentValues := environmentValues m |}.
Definition set_report (m : mapper) (f : Report -> Report) : mapper :=
  {| m_PluginDir := m_PluginDir m; m_Connections := m_Connections m; m_Integrations := m_Integrations m; m_Sections := m_Sections m;
     m_report := f (m_report m); m_warnings := m_warnings m; cardIDs := cardIDs m; connectionIDs := connectionIDs m; integrationIDs := integrationIDs m;
     connectionsByURL := connectionsByURL m; declaredInPatch := declaredInPatch m; environmentValues := environmentValues m |}.
Definition add_warning (m : mapper) (path message : string) : mapper :=
  {| m_PluginDir := m_PluginDir m; m_Connections := m_Connections m; m_Integrations := m_Integrations m; m_Sections := m_Sections m;
     m_report := m_report m; m_warnings := m_warnings m ++ [warn "mapping" path message]; cardIDs := cardIDs m; connectionIDs := connectionIDs m;
     integrationIDs := integrationIDs m; connectionsByURL := connectionsByURL m; declaredInPatch := declaredInPatch m; environmentValues := environmentValues m |}.
Definition add_section (m : mapper) (section : list (string * any)) : mapper :=
  {| m_PluginDir := m_PluginDir m; m_Connections := m_Connections m; m_Integrations := m_Integrations m; m_Sections := m_Sections m ++ [section];
     m_report := m_report m; m_warnings := m_warnings m; cardIDs := cardIDs m; connectionIDs := connectionIDs m; integrationIDs := integrationIDs m;
     connectionsByURL := connectionsByURL m; declaredInPatch := declaredInPatch m; environmentValues := environmentValues m |}.
Definition bump_Services (r : Report) : Report :=
  {| rp_Services := S (rp_Services r); rp_Complete := rp_Complete r; rp_WithoutWidgets := rp_WithoutWidgets r; rp_NeedManual := rp_NeedManual r;
     rp_EnvironmentVariables := rp_EnvironmentVariables r |}.
Definition bump_Complete (r : Report) : Report :=
  {| rp_Services := rp_Services r; rp_Complete := S (rp_Complete r); rp_WithoutWidgets := rp_WithoutWidgets r; rp_NeedManual := rp_NeedManual r;
     rp_EnvironmentVariables := rp_EnvironmentVariables r |}.
Definition bump_WithoutWidgets (r : Report) : Report :=
  {| rp_Services := rp_Services r; rp_Complete := rp_Complete r; rp_WithoutWidgets := S (rp_WithoutWidgets r); rp_NeedManual := rp_NeedManual r;
     rp_EnvironmentVariables := rp_EnvironmentVariables r |}.
Definition bump_NeedManual (r : Report) : Report :=
  {| rp_Services := rp_Services r; rp_Complete := rp_Complete r; rp_WithoutWidgets := rp_WithoutWidgets r; rp_NeedManual := S (rp_NeedManual r);
     rp_EnvironmentVariables := rp_EnvironmentVariables r |}.
Definition with_environment (r : Report) (vars : list string) : Report :=
  {| rp_Services := rp_Services r; rp_Complete := rp_Complete r; rp_WithoutWidgets := rp_WithoutWidgets r; rp_NeedManual := rp_NeedManual r;
     rp_EnvironmentVariables := vars |}.

Definition uniqueCardID (name : string) (m : mapper) : string * mapper :=
  let '(id, used) := uniqueID (slug name) (cardIDs m) 64 in (id, set_cards m used).

(** *** Connections and plugins *)

Definition environment_name (id : string) : string := "HOMEPAGE_" +:+ ToUpper (ReplaceAll id "-" "_") +:+ "_KEY".
Definition auth_of (spec : mappingSpec) (environmentName : string) : any :=
  let value := AString ("${secret:" +:+ environmentName +:+ "}") in
  if String.eqb (header spec) "" then AMap [("type", AString "bearer"); ("value", value)]
  else AMap [("type", AString "header"); ("name", AString (header spec)); ("value", value)].
Definition keyed (widget : Widget) (spec : mappingSpec) : bool :=
  negb (String.eqb (wd_Key widget) "") && String.eqb (authNote spec) "".
Definition connection_of (id baseURL : string) (widget : Widget) (spec : mappingSpec) : any :=
  AMap ([("kind", AString "http"); ("enabled", ABool false); ("baseUrl", AString baseURL)]
        ++ if keyed widget spec then [("auth", auth_of spec (environment_name id))] else []).

Definition add_connection (id baseURL : string) (widget : Widget) (spec : mappingSpec) (used : gset string) (m : mapper) : mapper :=
  let name := environment_name id in
  let fresh_name := keyed widget spec && negb (bool_decide (name ∈ environmentValues m)) in
  {| m_PluginDir := m_PluginDir m; m_Connections := <[id := connection_of id baseURL widget spec]> (m_Connections m);
     m_Integrations := m_Integrations m; m_Sections := m_Sections m;
     m_report := if fresh_name then with_environment (m_report m) (rp_EnvironmentVariables (m_report m) ++ [name]) else m_report m;
     m_warnings := m_warnings m; cardIDs := cardIDs m; connectionIDs := used; integrationIDs := integrationIDs m;
     connectionsByURL := <[baseURL := id]> (connectionsByURL m); declaredInPatch := declaredInPatch m;
     environmentValues := if fresh_name then {[name]} ∪ environmentValues m else environmentValues m |}.
Definition connectionFor (serviceName : string) (widget : Widget) (spec : mappingSpec) (m : mapper) : string * mapper :=
  match normalBaseURL (wd_URL widget) with
  | None => ("", add_warning m (serviceName +:+ ".widget.url") "invalid HTTP URL; no connection created")
  | Some baseURL =>
      let known := default "" (connectionsByURL m !! baseURL) in
      if negb (String.eqb known "") then (known, m)
      else let '(id, used) := uniqueID (slug serviceName) (connectionIDs m) 64 in
           (id, add_connection id baseURL widget spec used m)
  end.

Definition path_cut (c : ascii) : bool := Ascii.eqb c "/" || Ascii.eqb c "\".
Definition plugin_source (dir id : string) : string := TrimRight path_cut dir +:+ "/" +:+ id.
Definition plugin_of (dir id : string) : any :=
  AMap [("id", AString id); ("source", AString ("path:" +:+ plugin_source dir id)); ("enabled", ABool false);
        ("description", AString "Imported from Homepage; review source, connection and permissions before enabling")].
Definition declarePlugin (id : string) (m : mapper) : mapper :=
  if bool_decide (id ∈ integrationIDs m) || bool_decide (id ∈ declaredInPatch m) then m
  else {| m_PluginDir := m_PluginDir m; m_Connections := m_Connections m; m_Integrations := m_Integrations m ++ [plugin_of (m_PluginDir m) id];
          m_Sections := m_Sections m; m_report := m_report m; m_warnings := m_warnings m; cardIDs := cardIDs m; connectionIDs := connectionIDs m;
          integrationIDs := integrationIDs m; connectionsByURL := connectionsByURL m; declaredInPatch := {[id]} ∪ declaredInPatch m;
          environmentValues := environmentValues m |}.

Definition setNonEmpty (target : list (string * any)) (key value : string) : list (string * any) :=
  if String.eqb value "" then target else assign_key key (AString value) target.

(** *** Cards and sections *)

Definition link_card (id : string) (s : Service) : list (string * any) :=
  setNonEmpty (setNonEmpty [("id", AString id); ("title", AString (sv_Name s))] "href" (sv_Href s)) "icon" (sv_Icon s).
Definition metric_card (card : list (string * any)) (spec : mappingSpec) (connectionID : string) : list (string * any) :=
  assign_key "refresh" (AString "5m") (assign_key "slots" (AMap [("server", AString connectionID)])
    (assign_key "operation" (AString (operation spec)) (assign_key "integration" (AString (integration spec)) card))).

(** The first widget of a service, once its type is one of the table's. *)
Definition map_widget (s : Service) (path : string) (card : list (string * any)) (widget : Widget) (spec : mappingSpec) (m : mapper) : list (string * any) * mapper :=
  let '(connectionID, m1) := if String.eqb (wd_URL widget) "" then ("", m) else connectionFor (sv_Name s) widget spec m in
  if String.eqb (integration spec) "" then
    (card, add_warning (set_report m1 bump_Complete) path (wd_Type widget +:+ " widget has no Veduta metrics integration; imported as a link-only card"))
  else if String.eqb connectionID "" then
    (card, add_warning (set_report m1 bump_NeedManual) path (wd_Type widget +:+ " widget has no usable URL; imported as a link-only card"))
  else
    let m2 := if String.eqb (authNote spec) "" then m1 else add_warning m1 path (authNote spec) in
    let m3 := set_report (declarePlugin (integration spec) m2) bump_Complete in
    (metric_card card spec connectionID,
     if (1 <? length (sv_Widgets s))%nat then add_warning m3 path "additional widgets retained by K1 but only the first widget maps to a Veduta card" else m3).

Definition mapService (s : Service) (sourcePath : string) (m : mapper) : list (string * any) * mapper :=
  let '(id, m1) := uniqueCardID (sv_Name s) (set_report m bump_Services) in
  let card := link_card id s in
  let path := sourcePath +:+ "." +:+ sv_Name s in
  match sv_Widgets s with
  | [] => (card, set_report m1 bump_WithoutWidgets)
  | widget :: _ =>
      match assoc (strings_ToLower (wd_Type widget)) widgetMappings with
      | None => (card, add_warning (set_report m1 bump_NeedManual) path ("widget type " +:+ quote (wd_Type widget) +:+ " needs manual mapping; imported as a link-only card"))
      | Some spec => map_widget s path card widget spec m1
      end
  end.

Definition service_step (title : string) (st : list any * mapper) (s : Service) : list any * mapper :=
  let '(card, m) := mapService s title (snd st) in (fst st ++ [AMap card], m).
Definition section_of (title : string) (cards : list any) : list (string * any) := [("title", AString title); ("cards", AList cards)].
Definition map_cards (title : string) (cards : list any) (m : mapper) : mapper :=
  match cards with [] => m | _ => add_section m (section_of title cards) end.

Fixpoint mapGroup (g : Group) (parent : string) (m : mapper) : mapper :=
  let 'mkGroup name services groups := g in
  let title := if String.eqb parent "" then name else parent +:+ " / " +:+ name in
  let '(cards, m1) := foldl (service_step title) ([], m) services in
  (fix children (gs : list Group) (m : mapper) : mapper :=
     match gs with [] => m | child :: rest => children rest (mapGroup child title m) end) groups (map_cards title cards m1).

Definition bookmark_step (st : list any * mapper) (b : Bookmark) : list any * mapper :=
  let '(id, m) := uniqueCardID (bk_Name b) (snd st) in
  (fst st ++ [AMap [("id", AString id); ("title", AString (bk_Name b)); ("href", AString (bk_Href b)); ("icon", AString (bk_Icon b))]], m).
Definition mapBookmarks (m : mapper) (g : BookmarkGroup) : mapper :=
  let '(cards, m1) := foldl bookmark_step ([], m) (bg_Bookmarks g) in map_cards (bg_Name g) cards m1.

Definition run_mapper (model : Model) (existing : option Snapshot) (pluginDir : string) : mapper :=
  let dir := if String.eqb pluginDir "" then "plugins" else pluginDir in
  foldl mapBookmarks (foldl (fun m g => mapGroup g "" m) (newMapper existing dir) (md_Groups model)) (md_Bookmarks model).

Definition Map (model : Model) (existing : option Snapshot) (pluginDir : string) : ApplyPatch * Report * list Warning :=
  let m := run_mapper model existing pluginDir in
  ({| ap_Connections := m_Connections m; ap_Integrations := m_Integrations m; ap_Sections := m_Sections m |},
   with_environment (m_report m) (sort_strings (rp_EnvironmentVariables (m_report m))), m_warnings m).
End Map.

(** ** Identifiers *)

(** The schema's pattern of an id: [^[a-z0-9][a-z0-9-]{0,63}$]. *)
Definition alnum_byte (c : ascii) : bool := in_range 97 122 c || in_range 48 57 c.
Definition id_byte (c : ascii) : bool := alnum_byte c || dash c.
Definition id_shape (s : string) : bool := match s with String c r => alnum_byte c && all_bytes id_byte r | EmptyString => false end.
Definition config_id (s : string) : bool := id_shape s && (String.length s <=? 64)%nat.

Lemma id_shape_bytes s : id_shape s = true -> all_bytes id_byte s = true.
Proof. destruct s as [|c r]; [done|]. cbn [id_shape all_bytes]. intros [Hc ->]%andb_true_iff. unfold id_byte. by rewrite Hc. Qed.
Lemma id_shape_app p e : id_shape p = true -> all_bytes id_byte e = true -> id_shape (p +:+ e) = true.
Proof. destruct p as [|c r]; [done|]. rewrite app_cons_str. cbn [id_shape]. intros [-> Hr]%andb_true_iff He. rewrite all_bytes_app, Hr, He. done. Qed.

Lemma TrimRight_prefix cut s : exists t, s = TrimRight cut s +:+ t.
Proof.
  induction s as [|c r [t IH]]; [by exists ""|]. cbn. destruct (String.eqb (TrimRight cut r) "" && cut c); [by exists (String c r)|].
  exists t. rewrite app_cons_str. by rewrite <- IH.
Qed.
Lemma alnum_not_dash c : alnum_byte c = true -> dash c = false.
Proof. unfold dash. intros H. destruct (Ascii.eqb_spec c "-") as [->|]; [done|done]. Qed.
Lemma Trim_dash_shape s : id_shape s = true -> id_shape (Trim_dash s) = true /\ String.length (Trim_dash s) <= String.length s.
Proof.
  destruct s as [|c r]; [done|]. cbn [id_shape]. intros [Hc Hr]%andb_true_iff. unfold Trim_dash. cbn [TrimLeft].
  rewrite (alnum_not_dash c Hc). cbn [TrimRight]. rewrite (alnum_not_dash c Hc), andb_false_r. destruct (TrimRight_prefix dash r) as [t Ht]. rewrite Ht, all_bytes_app in Hr.
  apply andb_true_iff in Hr as [Hr _]. cbn [id_shape String.length]. rewrite Hc, Hr. split; [done|]. rewrite Ht at 2. rewrite length_app_str. lia.
Qed.
Lemma slice_shape n s : id_shape s = true -> 0 < n -> id_shape (slice n s) = true.
Proof.
  destruct s as [|c r]; [done|]. destruct n as [|n]; [lia|]. unfold slice. cbn [id_shape String.substring]. intros [-> Hr]%andb_true_iff _. cbn [andb].
  revert n. induction r as [|b r IH]; intros [|n]; [done..|]. cbn [all_bytes String.substring] in *. apply andb_true_iff in Hr as [-> Hr]. by apply IH.
Qed.
Lemma slice_length n s : String.length (slice n s) <= n.
Proof. unfold slice. revert n. induction s as [|c r IH]; intros [|n]; cbn; [lia..|]. specialize (IH n). lia. Qed.

Lemma decimal_length n z : (0 <= z < 10 ^ Z.of_nat (S n))%Z -> String.length (decimal z) <= S n.
Proof.
  revert z. induction n as [|n IH]; intros z Hz; [rewrite decimal_digit by lia; done|].
  destruct (Z.ltb_spec z 10); [rewrite decimal_digit by lia; cbn; lia|]. rewrite decimal_step by lia.
  rewrite length_app_str. specialize (IH (z / 10)%Z). cbn [String.length].
  rewrite Nat2Z.inj_succ, Z.pow_succ_r in Hz by lia. assert (0 <= z / 10 < 10 ^ Z.of_nat (S n))%Z by (split; [apply Z.div_pos; lia|apply Z.div_lt_upper_bound; lia]).
  specialize (IH H0). lia.
Qed.
Lemma Itoa_decimal n : Itoa n = decimal (Z.of_nat n).
Proof. unfold Itoa, decimal. destruct n; [done|]. cbn. reflexivity. Qed.
Lemma Itoa_bytes n : all_bytes isDigit (Itoa n) = true.
Proof. rewrite Itoa_decimal. apply decimal_digits. lia. Qed.
Lemma Itoa_inj n m : Itoa n = Itoa m -> n = m.
Proof. unfold Itoa. intros H%pretty_N_inj. lia. Qed.

(** What [Sprintf] appends is at most 21 bytes for an [int]. *)
Definition suffix_of (n : nat) : string := "-" +:+ Itoa n.
Lemma suffix_short n : (Z.of_nat n < 2 ^ 63)%Z -> 2 <= String.length (suffix_of n) <= 21.
Proof.
  intros Hn. unfold suffix_of. rewrite Itoa_decimal, length_app_str. assert (Hd := decimal_nonempty (Z.of_nat n) ltac:(lia)).
  assert (String.length (decimal (Z.of_nat n)) <= 20) by (apply decimal_length; lia). destruct (decimal (Z.of_nat n)); [done|]. cbn in *. lia.
Qed.
Lemma suffix_bytes n : all_bytes id_byte (suffix_of n) = true.
Proof.
  unfold suffix_of. rewrite all_bytes_app. cbn [all_bytes]. change (id_byte "-") with true. simpl.
  eapply all_bytes_impl; [|apply Itoa_bytes]. intros c Hc. unfold id_byte, alnum_byte. change (in_range 48 57 c) with (isDigit c). by rewrite Hc, orb_true_r.
Qed.
Lemma digits_no_dash s : all_bytes isDigit s = true -> no_sep "-" s.
Proof. intros H. unfold no_sep. eapply all_bytes_impl; [|exact H]. intros c Hc. destruct (Ascii.eqb_spec c "-") as [->|]; done. Qed.
Lemma suffix_inj p q n m : p +:+ suffix_of n = q +:+ suffix_of m -> n = m.
Proof.
  intros H. apply (f_equal (fun s => last (Split "-" s))) in H. unfold suffix_of in H.
  change ("-" +:+ Itoa n) with (String "-" (Itoa n)) in H. change ("-" +:+ Itoa m) with (String "-" (Itoa m)) in H.
  rewrite !Split_app, (Split_no_sep _ (Itoa n)), (Split_no_sep _ (Itoa m)), !last_snoc in H by (apply digits_no_dash, Itoa_bytes). injection H as H. by apply Itoa_inj.
Qed.

Definition prefix_of (base : string) (n : nat) : string :=
  if (64 <? String.length base + String.length (suffix_of n))%nat then Trim_dash (slice (64 - String.length (suffix_of n)) base) else base.
Definition candidate (base : string) (n : nat) : string := prefix_of base n +:+ suffix_of n.

Lemma candidate_id base n : id_shape base = true -> (Z.of_nat n < 2 ^ 63)%Z -> config_id (candidate base n) = true.
Proof.
  intros Hb Hn. destruct (suffix_short n Hn) as [Hlo Hhi]. unfold candidate, prefix_of, config_id.
  destruct (Nat.ltb_spec 64 (String.length base + String.length (suffix_of n))) as [Hl|Hl].
  - assert (Hs := slice_shape (64 - String.length (suffix_of n)) base Hb ltac:(lia)). apply Trim_dash_shape in Hs as [Hs Hlen].
    pose proof (slice_length (64 - String.length (suffix_of n)) base).
    rewrite (id_shape_app _ _ Hs (suffix_bytes n)), length_app_str. apply Nat.leb_le. lia.
  - rewrite (id_shape_app _ _ Hb (suffix_bytes n)), length_app_str. by apply Nat.leb_le.
Qed.

(** The loop gives the first free candidate, or the last one its fuel reaches. *)
Lemma next_id_candidate fuel base n used :
  exists k, n <= k <= n + fuel /\ next_id fuel base 64 n used = candidate base k
    /\ (candidate base k ∉ used \/ k = n + fuel) /\ (forall j, n <= j < k -> candidate base j ∈ used).
Proof.
  revert n. induction fuel as [|fuel IH]; intros n.
  - exists n. repeat split; [lia..|right; lia|lia].
  - change (next_id (S fuel) base 64 n used) with (if bool_decide (candidate base n ∈ used) then next_id fuel base 64 (S n) used else candidate base n).
    case_bool_decide as Hin.
    + destruct (IH (S n)) as (k & Hk & -> & Hfree & Hbefore). exists k. repeat split; [lia..| |].
      * destruct Hfree; [by left|right; lia].
      * intros j Hj. destruct (decide (j = n)) as [->|]; [done|]. apply Hbefore. lia.
    + exists n. repeat split; [lia..|by left|lia].
Qed.

(** [size used] tries are enough: the candidates are distinct. *)
Lemma next_id_free base used : next_id (size used) base 64 2 used ∉ used.
Proof.
  destruct (next_id_candidate (size used) base 2 used) as (k & _ & -> & Hk & Hbefore). destruct Hk as [Hfree| ->]; [done|].
  intros Hin. set (l := candidate base <$> seq 2 (S (size used))).
  assert (Hnd : NoDup l).
  { apply NoDup_fmap_2_strong; [|apply NoDup_seq]. intros a b _ _. apply suffix_inj. }
  assert (Hsub : (list_to_set l : gset string) ⊆ used).
  { intros x (y & -> & Hy%elem_of_seq)%elem_of_list_to_set%list_elem_of_fmap. destruct (decide (y = 2 + size used)) as [->|]; [done|]. apply Hbefore. lia. }
  apply subseteq_size in Hsub. rewrite size_list_to_set in Hsub by done. unfold l in Hsub. rewrite length_fmap, length_seq in Hsub. lia.
Qed.

Lemma id_base_shape base : base = "" \/ id_shape base = true -> config_id (id_base base 64) = true.
Proof.
  intros Hb. unfold id_base. set (b := if String.eqb base "" then "imported" else base).
  assert (Hs : id_shape b = true). { subst b. destruct Hb as [->|Hb]; [done|]. destruct (String.eqb_spec base ""); [done|done]. }
  unfold config_id. destruct (Nat.ltb_spec 64 (String.length b)) as [Hl|Hl]; [|rewrite Hs; by apply Nat.leb_le].
  destruct (Trim_dash_shape _ (slice_shape 64 b Hs ltac:(lia))) as [-> Hlen]. pose proof (slice_length 64 b). apply Nat.leb_le. lia.
Qed.

Lemma candidate_bytes base n : all_bytes id_byte base = true -> all_bytes id_byte (candidate base n) = true.
Proof.
  intros Hb. unfold candidate. rewrite all_bytes_app, suffix_bytes, andb_true_r. unfold prefix_of.
  destruct (_ <? _)%nat; [|done]. generalize (64 - String.length (suffix_of n)). intros k.
  assert (Hs : all_bytes id_byte (slice k base) = true).
  { unfold slice. revert k. induction base as [|c r IH]; intros [|k]; [done..|]. cbn [all_bytes String.substring] in *.
    apply andb_true_iff in Hb as [-> Hb]. by apply IH. }
  assert (Hl : all_bytes id_byte (TrimLeft dash (slice k base)) = true).
  { clear Hb. induction (slice k base) as [|c r IH]; [done|]. cbn [TrimLeft]. destruct (dash c); [|done]. cbn [all_bytes] in Hs. apply andb_true_iff in Hs as [_ Hs]. by apply IH. }
  unfold Trim_dash. destruct (TrimRight_prefix dash (TrimLeft dash (slice k base))) as [t Ht]. rewrite Ht, all_bytes_app in Hl.
  by apply andb_true_iff in Hl as [? _].
Qed.

Lemma size_list_to_set_le (l : list string) : size (list_to_set l : gset string) <= length l.
Proof.
  induction l as [|x l IH]; [done|]. cbn [list_to_set length]. rewrite size_union_alt, size_singleton.
  assert (size ((list_to_set l : gset string) ∖ {[x]}) <= size (list_to_set l : gset string)) by (apply subseteq_size; set_solver). lia.
Qed.

(** Few enough for an [int] to count. *)
Definition countable_ids (s : gset string) : Prop := (Z.of_nat (size s) < 2 ^ 62)%Z.
Lemma countable_subset s t : s ⊆ t -> countable_ids t -> countable_ids s.
Proof. intros H%subseteq_size. unfold countable_ids. lia. Qed.

(** An id out of [uniqueID]: not taken, and in the form the configuration asks for. *)
Lemma uniqueID_spec base used id used' :
  base = "" \/ id_shape base = true -> uniqueID base used 64 = (id, used') ->
  id ∉ used /\ used' = {[id]} ∪ used /\ all_bytes id_byte id = true /\ (countable_ids used -> config_id id = true).
Proof.
  intros Hb. unfold uniqueID. intros [= <- <-]. assert (Hbase := id_base_shape base Hb).
  assert (Hshape : id_shape (id_base base 64) = true) by (unfold config_id in Hbase; by apply andb_true_iff in Hbase as [? _]).
  case_bool_decide; [|repeat split; [done|by apply id_shape_bytes|done]].
  split; [apply next_id_free|]. split; [done|].
  destruct (next_id_candidate (size used) (id_base base 64) 2 used) as (k & Hk & -> & _).
  split; [by apply candidate_bytes, id_shape_bytes|]. unfold countable_ids. intros Hsize. apply candidate_id; [done|lia].
Qed.

Lemma alnum_rune r : lower_alnum r = true -> alnum_byte (ascii_of_N r) = true.
Proof.
  unfold lower_alnum, alnum_byte, in_range, byteN. intros H. rewrite N_ascii_embedding; [exact H|].
  rewrite orb_true_iff, !andb_true_iff, !N.leb_le in H. lia.
Qed.
Lemma slug_step_shape separator st r :
  st.1 = "" \/ id_shape st.1 = true -> (slug_step separator st r).1 = "" \/ id_shape (slug_step separator st r).1 = true.
Proof.
  destruct st as [out d]. cbn [fst]. intros Ho. unfold slug_step. destruct (lower_alnum r) eqn:Hr.
  - right. cbn [fst]. apply alnum_rune in Hr. destruct Ho as [->|Ho].
    + change ("" +:+ String (ascii_of_N r) "") with (String (ascii_of_N r) ""). cbn [id_shape all_bytes]. by rewrite Hr.
    + apply id_shape_app; [done|]. cbn [all_bytes]. unfold id_byte. by rewrite Hr.
  - destruct (String.eqb_spec out "") as [->|Hne]; [rewrite andb_false_r; by left|].
    destruct (negb d && negb false && separator r); [|done]. right. cbn [fst]. destruct Ho; [done|]. by apply id_shape_app.
Qed.
Lemma slug_shape lower separator s : slug lower separator s = "" \/ id_shape (slug lower separator s) = true.
Proof.
  unfold slug. assert (H : forall l st, st.1 = "" \/ id_shape st.1 = true -> (foldl (slug_step separator) st l).1 = "" \/ id_shape (foldl (slug_step separator) st l).1 = true).
  { induction l as [|r l IH]; intros st Hst; [done|]. cbn [foldl]. apply IH. by apply slug_step_shape. }
  destruct (H (runes (lower s)) ("", false) ltac:(by left)) as [->|Hs]; [by left|right]. by apply Trim_dash_shape.
Qed.

(** *** The variable a key is kept in *)
Lemma replace_dash_bytes s : all_bytes id_byte s = true -> all_bytes isWord (ToUpper (ReplaceAll s "-" "_")) = true.
Proof.
  unfold ReplaceAll. induction s as [|c r IH]; [done|]. cbn [all_bytes]. intros [Hc Hr]%andb_true_iff. specialize (IH Hr).
  cbn [replace_from]. destruct (HasPrefix (String c r) "-") eqn:Hp.
  - exact IH.
  - cbn [ToUpper all_bytes]. rewrite IH, andb_true_r. assert (Hn : dash c = false).
    { unfold dash. destruct (Ascii.eqb_spec c "-") as [->|]; [|done]. unfold HasPrefix in Hp. by destruct r. }
    unfold id_byte in Hc. rewrite Hn, orb_false_r in Hc. clear -Hc. revert Hc. by destruct c as [[] [] [] [] [] [] [] []].
Qed.
Lemma environment_name_ref id : all_bytes id_byte id = true -> secretRefPattern ("${secret:" +:+ environment_name id +:+ "}") = Some (environment_name id).
Proof.
  intros H. unfold secretRefPattern, ref_here. rewrite strip_prefix_app. unfold environment_name. rewrite <- (app_assoc_str "HOMEPAGE_").
  change "}" with (String "}" ""). rewrite word_run_word; [|by rewrite !all_bytes_app, replace_dash_bytes]. done.
Qed.

(** ** What the mapper keeps true *)

Definition card_id (card : any) : list string :=
  match card with AMap m => match assoc "id" m with Some (AString s) => [s] | _ => [] end | _ => [] end.
Definition cards_in (section : list (string * any)) : list any := as_list (default ANil (assoc "cards" section)).
Definition patch_cards (sections : list (list (string * any))) : list any := concat (map cards_in sections).
Definition ids_of (cards : list any) : list string := concat (map card_id cards).

(** A connection as an operator should find it: off, its credential a reference to a reported variable. *)
Definition inert_connection (variables : list string) (c : any) : Prop :=
  exists base auth, c = AMap ([("kind", AString "http"); ("enabled", ABool false); ("baseUrl", AString base)] ++ auth)
    /\ (auth = [] \/ exists fields value name, auth = [("auth", AMap (fields ++ [("value", AString value)]))]
          /\ map fst fields ⊆ ["type"; "name"] /\ secretRefPattern value = Some name /\ name ∈ variables).

(** What a card refers to is among the given integrations and connections. *)
Definition card_resolves (integrations connections : string -> Prop) (card : any) : Prop :=
  match assoc "integration" (as_map card) with
  | None => True
  | Some i => exists name conn, i = AString name /\ integrations name
      /\ assoc "slots" (as_map card) = Some (AMap [("server", AString conn)]) /\ connections conn
  end.

Record sound (m0 m : mapper) (pending : list any) : Prop := {
  so_dir : m_PluginDir m = m_PluginDir m0;
  so_integrationIDs : integrationIDs m = integrationIDs m0;
  so_cards : NoDup (ids_of (patch_cards (m_Sections m) ++ pending));
  so_taken : forall id, id ∈ cardIDs m <-> id ∈ cardIDs m0 \/ id ∈ ids_of (patch_cards (m_Sections m) ++ pending);
  so_fresh : forall id, id ∈ ids_of (patch_cards (m_Sections m) ++ pending) ->
    id ∉ cardIDs m0 /\ (countable_ids (cardIDs m) -> config_id id = true);
  so_resolve : forall card, card ∈ patch_cards (m_Sections m) ++ pending ->
    card_resolves (fun i => i ∈ integrationIDs m \/ i ∈ declaredInPatch m) (fun c => c ∈ connectionIDs m) card;
  so_conns : connectionIDs m = connectionIDs m0 ∪ dom (m_Connections m);
  so_conn : forall id c, m_Connections m !! id = Some c ->
    id ∉ connectionIDs m0 /\ (countable_ids (connectionIDs m) -> config_id id = true)
    /\ inert_connection (rp_EnvironmentVariables (m_report m)) c;
  so_urls : forall u id, connectionsByURL m !! u = Some id -> id ∈ connectionIDs m;
  so_env : environmentValues m = list_to_set (rp_EnvironmentVariables (m_report m));
  so_plugins : exists names, m_Integrations m = map (plugin_of (m_PluginDir m0)) names /\ NoDup names
    /\ declaredInPatch m = list_to_set names /\ (forall n, n ∈ names -> n ∉ integrationIDs m0);
  so_named : Forall (fun card => exists id, card_id card = [id]) (patch_cards (m_Sections m) ++ pending) }.

Lemma ids_of_app a b : ids_of (a ++ b) = ids_of a ++ ids_of b.
Proof. unfold ids_of. by rewrite map_app, concat_app. Qed.
Lemma patch_cards_app a b : patch_cards (a ++ b) = patch_cards a ++ patch_cards b.
Proof. unfold patch_cards. by rewrite map_app, concat_app. Qed.

Lemma sound_warning m0 m p path message : sound m0 m p -> sound m0 (add_warning m path message) p.
Proof. intros []. by constructor. Qed.
Lemma sound_report m0 m p f : (forall r, rp_EnvironmentVariables (f r) = rp_EnvironmentVariables r) -> sound m0 m p -> sound m0 (set_report m f) p.
Proof.
  intros Hf []. constructor; cbn; rewrite ?Hf; done.
Qed.
Lemma sound_section m0 m title cards : sound m0 m cards -> sound m0 (map_cards title cards m) [].
Proof.
  destruct cards as [|c cards]; [done|]. set (l := c :: cards). intros [].
  assert (Hp : patch_cards (m_Sections m ++ [section_of title l]) ++ [] = patch_cards (m_Sections m) ++ l).
  { rewrite patch_cards_app, app_nil_r. f_equal. unfold patch_cards. cbn [map concat]. rewrite app_nil_r. done. }
  constructor; cbn [map_cards l add_section m_Sections m_PluginDir integrationIDs cardIDs declaredInPatch connectionIDs m_Connections m_report connectionsByURL environmentValues m_Integrations]; rewrite ?Hp; done.
Qed.

Lemma resolves_mono (I C I' C' : string -> Prop) card :
  (forall i, I i -> I' i) -> (forall c, C c -> C' c) -> card_resolves I C card -> card_resolves I' C' card.
Proof.
  intros HI HC. unfold card_resolves. destruct (assoc _ _); [|done]. intros (n & c & ? & ? & ? & ?). exists n, c. repeat split; auto.
Qed.

(** A new card, its id just taken. *)
Lemma sound_new_card m0 m p card id :
  sound m0 m p -> card_id card = [id] -> id ∉ cardIDs m -> (countable_ids (cardIDs m) -> config_id id = true) ->
  card_resolves (fun i => i ∈ integrationIDs m \/ i ∈ declaredInPatch m) (fun c => c ∈ connectionIDs m) card ->
  sound m0 (set_cards m ({[id]} ∪ cardIDs m)) (p ++ [card]).
Proof.
  intros [] Hid Hnew Hform Hres.
  assert (Hids : ids_of (patch_cards (m_Sections m) ++ p ++ [card]) = ids_of (patch_cards (m_Sections m) ++ p) ++ [id]).
  { rewrite app_assoc, ids_of_app. f_equal. unfold ids_of. cbn. by rewrite Hid. }
  assert (Hsub : countable_ids ({[id]} ∪ cardIDs m) -> countable_ids (cardIDs m)) by (apply countable_subset; set_solver).
  constructor; cbn [set_cards m_Sections m_PluginDir integrationIDs cardIDs declaredInPatch connectionIDs m_Connections m_report connectionsByURL environmentValues m_Integrations]; rewrite ?Hids; try done.
  - apply NoDup_app. split; [done|]. split; [|apply NoDup_singleton]. intros x Hx ->%list_elem_of_singleton. apply Hnew, so_taken0. by right.
  - intros x. rewrite elem_of_union, elem_of_singleton, so_taken0, elem_of_app, list_elem_of_singleton. naive_solver.
  - intros x [Hx| ->%list_elem_of_singleton]%elem_of_app.
    + destruct (so_fresh0 x Hx). split; [done|]. intros. by auto.
    + split; [|by auto]. intros Hin. apply Hnew, so_taken0. by left.
  - intros x. rewrite app_assoc, elem_of_app, list_elem_of_singleton. intros [Hx| ->]; auto.
  - rewrite app_assoc. apply Forall_app. split; [done|]. by constructor; [exists id|].
Qed.
Lemma sound_replace_card m0 m p card card' :
  sound m0 m (p ++ [card]) -> card_id card' = card_id card ->
  card_resolves (fun i => i ∈ integrationIDs m \/ i ∈ declaredInPatch m) (fun c => c ∈ connectionIDs m) card' ->
  sound m0 m (p ++ [card']).
Proof.
  intros [] Hid Hres.
  assert (Hids : ids_of (patch_cards (m_Sections m) ++ p ++ [card']) = ids_of (patch_cards (m_Sections m) ++ p ++ [card])).
  { rewrite !app_assoc, !(ids_of_app (_ ++ _)). f_equal. unfold ids_of. cbn. by rewrite Hid. }
  constructor; rewrite ?Hids; try done.
  - intros x. rewrite app_assoc, elem_of_app, list_elem_of_singleton. intros [Hx| ->]; [|done]. apply so_resolve0. rewrite app_assoc. set_solver.
  - rewrite app_assoc in so_named0 |- *. apply Forall_app in so_named0 as [H1 H2]. apply Forall_app. split; [done|]. inversion H2; subst. constructor; [by rewrite Hid|done].
Qed.

Lemma inert_mono vars vars' c : vars ⊆ vars' -> inert_connection vars c -> inert_connection vars' c.
Proof.
  intros Hsub (base & auth & -> & Ha). exists base, auth. split; [done|]. destruct Ha as [->|(f & v & n & -> & ? & ? & ?)]; [by left|right].
  exists f, v, n. repeat split; auto.
Qed.
Lemma connection_of_inert id base widget spec vars :
  all_bytes id_byte id = true -> (keyed widget spec = true -> environment_name id ∈ vars) -> inert_connection vars (connection_of id base widget spec).
Proof.
  intros Hid Hvars. exists base, (if keyed widget spec then [("auth", auth_of spec (environment_name id))] else []). split; [done|].
  destruct (keyed widget spec); [right|by left]. unfold auth_of. destruct (String.eqb (header spec) "").
  - exists [("type", AString "bearer")], ("${secret:" +:+ environment_name id +:+ "}"), (environment_name id).
    split; [done|]. split; [set_solver|]. split; [by apply environment_name_ref|auto].
  - exists [("type", AString "header"); ("name", AString (header spec))], ("${secret:" +:+ environment_name id +:+ "}"), (environment_name id).
    split; [done|]. split; [set_solver|]. split; [by apply environment_name_ref|auto].
Qed.

Section Sound.
Variable strings_ToLower : string -> string.
Variable separator : N -> bool.
Variable quote : string -> string.
Variable url_parse : string -> option full_URL.
Variable url_String : full_URL -> string.
Let connect := connectionFor strings_ToLower separator url_parse url_String.
Let service := mapService strings_ToLower separator quote url_parse url_String.

Lemma sound_add_connection m0 m p id base widget spec :
  sound m0 m p -> id ∉ connectionIDs m -> all_bytes id_byte id = true -> (countable_ids (connectionIDs m) -> config_id id = true) ->
  sound m0 (add_connection id base widget spec ({[id]} ∪ connectionIDs m) m) p.
Proof.
  intros [] Hnew Hbytes Hform. unfold add_connection.
  set (fresh_name := keyed widget spec && negb (bool_decide (environment_name id ∈ environmentValues m))).
  set (vars := rp_EnvironmentVariables (if fresh_name then with_environment (m_report m) (rp_EnvironmentVariables (m_report m) ++ [environment_name id]) else m_report m)).
  assert (Hvars : rp_EnvironmentVariables (m_report m) ⊆ vars) by (subst vars; destruct fresh_name; cbn; set_solver).
  assert (Hkey : keyed widget spec = true -> environment_name id ∈ vars).
  { intros Hk. subst vars fresh_name. rewrite Hk. cbn [andb]. case_bool_decide as Hin; cbn; [|set_solver]. rewrite so_env0 in Hin. by apply elem_of_list_to_set in Hin. }
  assert (Hsub : countable_ids ({[id]} ∪ connectionIDs m) -> countable_ids (connectionIDs m)) by (apply countable_subset; set_solver).
  constructor; cbn [m_Sections m_PluginDir integrationIDs cardIDs declaredInPatch connectionIDs m_Connections m_report connectionsByURL environmentValues m_Integrations]; try done.
  - intros card Hc. apply so_resolve0 in Hc. revert Hc. apply resolves_mono; set_solver.
  - rewrite so_conns0, dom_insert_L. set_solver.
  - intros x c. rewrite lookup_insert_Some. intros [[<- <-]|[Hne Hx]].
    + split; [rewrite so_conns0 in Hnew; set_solver|]. split; [by auto|]. by apply connection_of_inert.
    + destruct (so_conn0 x c Hx) as (? & ? & ?). split; [done|]. split; [by auto|]. by eapply inert_mono.
  - intros u x. rewrite lookup_insert_Some. intros [[<- <-]|[Hne Hx]]; [set_solver|]. apply so_urls0 in Hx. set_solver.
  - subst vars. destruct fresh_name; cbn; [|done]. rewrite so_env0. set_solver.
Qed.

Lemma sound_connectionFor m0 m p name widget spec id m' :
  sound m0 m p -> connect name widget spec m = (id, m') -> sound m0 m' p /\ (id <> "" -> id ∈ connectionIDs m').
Proof.
  intros Hs. unfold connect, connectionFor. destruct (normalBaseURL _ _ _) as [base|]; [|intros [= <- <-]; split; [by apply sound_warning|done]].
  destruct (String.eqb_spec (default "" (connectionsByURL m !! base)) "") as [He|Hne]; cbn [negb].
  - destruct (uniqueID _ _ 64) as [i used] eqn:Hu. intros [= <- <-]. apply uniqueID_spec in Hu as (Hfree & -> & Hb & Hf); [|apply slug_shape].
    split; [by apply sound_add_connection|]. cbn. set_solver.
  - intros [= <- <-]. split; [done|]. intros _. destruct (connectionsByURL m !! base) eqn:Hl; [|done]. by eapply so_urls.
Qed.

Lemma sound_declarePlugin m0 m p id :
  sound m0 m p -> sound m0 (declarePlugin id m) p /\ (id ∈ integrationIDs (declarePlugin id m) \/ id ∈ declaredInPatch (declarePlugin id m))
    /\ connectionIDs (declarePlugin id m) = connectionIDs m.
Proof.
  intros Hs. unfold declarePlugin. case_bool_decide as Hi; [split; [done|]; split; [by left|done]|]. case_bool_decide as Hd; [split; [done|]; split; [by right|done]|]. cbn [orb].
  split; [|split; [right; cbn; set_solver|done]]. destruct Hs. destruct so_plugins0 as (names & Hn & Hnd & Hset & Hnew).
  constructor; cbn [m_Sections m_PluginDir integrationIDs cardIDs declaredInPatch connectionIDs m_Connections m_report connectionsByURL environmentValues m_Integrations]; try done.
  - intros card Hc. apply so_resolve0 in Hc. revert Hc. apply resolves_mono; set_solver.
  - exists (names ++ [id]). rewrite map_app, Hn, so_dir0. split; [done|]. split; [|split].
    + apply NoDup_app. split; [done|]. split; [|apply NoDup_singleton]. intros x Hx ->%list_elem_of_singleton. apply Hd. rewrite Hset. by apply elem_of_list_to_set.
    + rewrite Hset. set_solver.
    + intros n [Hx| ->%list_elem_of_singleton]%elem_of_app; [by apply Hnew|]. by rewrite so_integrationIDs0 in Hi.
Qed.

Lemma link_card_id id s : card_id (AMap (link_card id s)) = [id].
Proof. unfold link_card, setNonEmpty. by destruct (String.eqb (sv_Href s) ""), (String.eqb (sv_Icon s) ""). Qed.
Lemma link_card_resolves I C id s : card_resolves I C (AMap (link_card id s)).
Proof. unfold link_card, setNonEmpty. by destruct (String.eqb (sv_Href s) ""), (String.eqb (sv_Icon s) ""). Qed.
Lemma metric_card_id id s spec conn : card_id (AMap (metric_card (link_card id s) spec conn)) = [id].
Proof. unfold link_card, setNonEmpty. by destruct (String.eqb (sv_Href s) ""), (String.eqb (sv_Icon s) ""). Qed.
Lemma metric_card_resolves (I C : string -> Prop) id s spec conn : I (integration spec) -> C conn -> card_resolves I C (AMap (metric_card (link_card id s) spec conn)).
Proof.
  intros HI HC. unfold link_card, setNonEmpty. destruct (String.eqb (sv_Href s) ""), (String.eqb (sv_Icon s) "");
    exists (integration spec), conn; repeat split; done.
Qed.

Lemma sound_take_card m0 m p name id m1 :
  sound m0 m p -> uniqueCardID strings_ToLower separator name m = (id, m1) ->
  forall card, card_id card = [id] -> card_resolves (fun _ => False) (fun _ => False) card -> sound m0 m1 (p ++ [card]).
Proof.
  intros Hs. unfold uniqueCardID. destruct (uniqueID _ _ 64) as [i used] eqn:Hu. intros [= <- <-] card Hid Hres.
  apply uniqueID_spec in Hu as (Hfree & -> & _ & Hf); [|apply slug_shape]. apply sound_new_card; try done.
  revert Hres. by apply resolves_mono.
Qed.

Lemma sound_map_widget m0 m p id s path widget spec card m' :
  sound m0 m (p ++ [AMap (link_card id s)]) ->
  map_widget strings_ToLower separator url_parse url_String s path (link_card id s) widget spec m = (card, m') -> sound m0 m' (p ++ [AMap card]).
Proof.
  intros Hs. unfold map_widget.
  destruct (if String.eqb (wd_URL widget) "" then ("", m) else _) as [conn m1] eqn:Hc.
  assert (Hm1 : sound m0 m1 (p ++ [AMap (link_card id s)]) /\ (conn <> "" -> conn ∈ connectionIDs m1)).
  { destruct (String.eqb (wd_URL widget) ""); [by injection Hc as <- <-|]. by eapply sound_connectionFor. }
  destruct Hm1 as [Hs1 Hconn]. destruct (String.eqb (integration spec) ""); [intros [= <- <-]; by apply sound_warning, sound_report|].
  destruct (String.eqb_spec conn "") as [->|Hne]; [intros [= <- <-]; by apply sound_warning, sound_report|].
  set (m2 := if String.eqb (authNote spec) "" then m1 else _).
  assert (Hs2 : sound m0 m2 (p ++ [AMap (link_card id s)]) /\ connectionIDs m2 = connectionIDs m1).
  { subst m2. destruct (String.eqb (authNote spec) ""); [done|]. split; [by apply sound_warning|done]. }
  destruct Hs2 as [Hs2 Hids]. destruct (sound_declarePlugin m0 m2 _ (integration spec) Hs2) as (Hs3 & Hdecl & Hids').
  intros [= <- <-].
  assert (Hs4 : sound m0 (declarePlugin (integration spec) m2) (p ++ [AMap (metric_card (link_card id s) spec conn)])).
  { eapply sound_replace_card; [exact Hs3|by rewrite metric_card_id, link_card_id|]. apply metric_card_resolves; [done|]. rewrite Hids', Hids. by apply Hconn. }
  destruct (_ <? _)%nat; [apply sound_warning|]; by apply sound_report.
Qed.

Lemma sound_mapService m0 m p s path card m' : sound m0 m p -> service s path m = (card, m') -> sound m0 m' (p ++ [AMap card]).
Proof.
  intros Hs. unfold service, mapService. destruct (uniqueCardID _ _ _ _) as [id m1] eqn:Hu.
  assert (Hs1 : sound m0 m1 (p ++ [AMap (link_card id s)])).
  { eapply sound_take_card; [|exact Hu|apply link_card_id|apply link_card_resolves]. by apply sound_report. }
  destruct (sv_Widgets s) as [|widget ws]; [intros [= <- <-]; by apply sound_report|].
  destruct (assoc _ widgetMappings) as [spec|]; [|intros [= <- <-]; by apply sound_warning, sound_report].
  by apply sound_map_widget.
Qed.

(** Groups inside groups. *)
Lemma Group_nested_ind (P : Group -> Prop) : (forall n ss gs, Forall P gs -> P (mkGroup n ss gs)) -> forall g, P g.
Proof.
  intros H. fix IH 1. intros [n ss gs]. apply H. induction gs as [|g gs IHgs]; [constructor|]. constructor; [apply IH|exact IHgs].
Qed.

Lemma sound_services m0 title ss cards m : sound m0 m cards ->
  let st := foldl (service_step strings_ToLower separator quote url_parse url_String title) (cards, m) ss in sound m0 st.2 st.1.
Proof.
  revert cards m. induction ss as [|s ss IH]; intros cards m Hs; [done|]. cbn [foldl].
  destruct (service_step _ _ _ _ _ title (cards, m) s) as [cards' m'] eqn:E. apply IH. unfold service_step in E. cbn [fst snd] in E.
  destruct (mapService _ _ _ _ _ s title m) as [card m''] eqn:Hm. injection E as <- <-. by eapply sound_mapService.
Qed.
Lemma sound_mapGroup m0 g parent m : sound m0 m [] -> sound m0 (mapGroup strings_ToLower separator quote url_parse url_String g parent m) [].
Proof.
  revert parent m. induction g as [n ss gs IH] using Group_nested_ind. intros parent m Hs. cbn [mapGroup].
  pose proof (sound_services m0 (if String.eqb parent "" then n else parent +:+ " / " +:+ n) ss [] m Hs) as H. cbv zeta in H.
  destruct (foldl _ ([], m) ss) as [cards m1]. cbn [fst snd] in H. apply (sound_section _ _ (if String.eqb parent "" then n else parent +:+ " / " +:+ n)) in H.
  revert H. generalize (map_cards (if String.eqb parent "" then n else parent +:+ " / " +:+ n) cards m1). induction IH as [|g gs Hg _ IHgs]; intros m2 H2; [done|].
  apply IHgs. by apply Hg.
Qed.
Lemma sound_bookmarks m0 g m : sound m0 m [] -> sound m0 (mapBookmarks strings_ToLower separator m g) [].
Proof.
  intros Hs. unfold mapBookmarks.
  assert (H : forall bs cards m, sound m0 m cards -> let st := foldl (bookmark_step strings_ToLower separator) (cards, m) bs in sound m0 st.2 st.1).
  { clear. induction bs as [|b bs IH]; intros cards m Hs; [done|]. cbn [foldl].
    destruct (bookmark_step _ _ (cards, m) b) as [cards' m'] eqn:E. apply IH. unfold bookmark_step in E. cbn [fst snd] in E.
    destruct (uniqueCardID _ _ _ _) as [id m''] eqn:Hu. injection E as <- <-. by eapply sound_take_card. }
  specialize (H (bg_Bookmarks g) [] m Hs). cbv zeta in H. destruct (foldl _ _ _) as [cards m1]. by apply sound_section.
Qed.

Lemma urls_of_connections l acc ids :
  (forall u id, acc !! u = Some id -> id ∈ ids) -> (forall e, e ∈ l -> e.1 ∈ (ids : gset string)) ->
  forall u id, foldl (url_of_connection url_parse url_String) acc l !! u = Some id -> id ∈ ids.
Proof.
  revert acc. induction l as [|e l IH]; intros acc Hacc Hl u id; [apply Hacc|]. cbn [foldl]. apply IH; [|intros; apply Hl; set_solver].
  intros u' id'. unfold url_of_connection. destruct (HTTP e.2); [|apply Hacc]. destruct (normalBaseURL _ _ _); [|apply Hacc].
  rewrite lookup_insert_Some. intros [[_ <-]|[_ H]]; [apply Hl; set_solver|by eapply Hacc].
Qed.
Lemma newMapper_sound existing dir : sound (newMapper url_parse url_String existing dir) (newMapper url_parse url_String existing dir) [].
Proof.
  destruct existing as [snap|]; constructor; cbn [newMapper empty_mapper m_Sections m_PluginDir integrationIDs cardIDs declaredInPatch connectionIDs
    m_Connections m_report connectionsByURL environmentValues m_Integrations no_report rp_EnvironmentVariables patch_cards map concat app ids_of];
    try done; try (constructor; fail); try (by exists []; repeat split; [constructor|set_solver]); try set_solver.
  intros u id. apply urls_of_connections; [done|]. intros [k c] Hk%elem_of_map_to_list. by eapply elem_of_dom_2.
Qed.

Lemma run_mapper_sound model existing pluginDir :
  sound (newMapper url_parse url_String existing (if String.eqb pluginDir "" then "plugins" else pluginDir))
    (run_mapper strings_ToLower separator quote url_parse url_String model existing pluginDir) [].
Proof.
  unfold run_mapper. set (m0 := newMapper _ _ _ _).
  assert (Hg : forall gs m, sound m0 m [] -> sound m0 (foldl (fun m g => mapGroup strings_ToLower separator quote url_parse url_String g "" m) m gs) []).
  { induction gs as [|g gs IH]; intros m Hm; [done|]. cbn [foldl]. apply IH. by apply sound_mapGroup. }
  assert (Hb : forall gs m, sound m0 m [] -> sound m0 (foldl (mapBookmarks strings_ToLower separator) m gs) []).
  { induction gs as [|g gs IH]; intros m Hm; [done|]. cbn [foldl]. apply IH. by apply sound_bookmarks. }
  apply Hb, Hg, newMapper_sound.
Qed.
End Sound.

(** ** What reaches the configuration *)

(** A model without its credentials and all else the patch leaves behind: of a key only whether there is one. *)
Definition strip_widget (w : Widget) : Widget :=
  {| wd_Type := wd_Type w; wd_URL := wd_URL w; wd_Key := if String.eqb (wd_Key w) "" then "" else "x"; wd_Fields := []; wd_Options := [] |}.
Definition strip_service (s : Service) : Service :=
  {| sv_Name := sv_Name s; sv_Href := sv_Href s; sv_Description := ""; sv_Icon := sv_Icon s; sv_Ping := ""; sv_SiteMonitor := ""; sv_Server := "";
     sv_Container := ""; sv_Widgets := map strip_widget (sv_Widgets s); sv_Extra := [] |}.
Fixpoint strip_group (g : Group) : Group := let 'mkGroup n ss gs := g in mkGroup n (map strip_service ss) (map strip_group gs).
Definition strip_model (model : Model) : Model :=
  {| md_Groups := map strip_group (md_Groups model); md_Bookmarks := md_Bookmarks model; md_Settings := []; md_Widgets := [] |}.

(** How many services a group holds, at any depth. *)
Fixpoint services_in (g : Group) : nat :=
  let 'mkGroup _ ss gs := g in
  length ss + (fix children (gs : list Group) : nat := match gs with [] => 0 | child :: rest => services_in child + children rest end) gs.
Definition balanced (r : Report) : Prop := rp_Services r = rp_Complete r + rp_WithoutWidgets r + rp_NeedManual r.

Section Flow.
Variable strings_ToLower : string -> string.
Variable separator : N -> bool.
Variable quote : string -> string.
Variable url_parse : string -> option full_URL.
Variable url_String : full_URL -> string.
Let service := mapService strings_ToLower separator quote url_parse url_String.
Let group := mapGroup strings_ToLower separator quote url_parse url_String.

Lemma keyed_strip w spec : keyed (strip_widget w) spec = keyed w spec.
Proof. unfold keyed, strip_widget. cbn [wd_Key]. by destruct (String.eqb (wd_Key w) ""). Qed.
Lemma connectionFor_strip name w spec m :
  connectionFor strings_ToLower separator url_parse url_String name (strip_widget w) spec m = connectionFor strings_ToLower separator url_parse url_String name w spec m.
Proof. unfold connectionFor, add_connection, connection_of. by rewrite keyed_strip. Qed.
Lemma mapService_strip s path m : service (strip_service s) path m = service s path m.
Proof.
  unfold service, mapService. cbn [sv_Name sv_Widgets strip_service]. destruct (uniqueCardID _ _ _ _) as [id m1].
  change (link_card id (strip_service s)) with (link_card id s). destruct (sv_Widgets s) as [|w ws] eqn:Hw; [done|]. cbn [map].
  change (wd_Type (strip_widget w)) with (wd_Type w). destruct (assoc _ _); [|done]. unfold map_widget. rewrite connectionFor_strip.
  cbn [sv_Name sv_Widgets strip_service wd_URL wd_Type strip_widget]. by rewrite length_map.
Qed.
Lemma services_strip title ss st :
  foldl (service_step strings_ToLower separator quote url_parse url_String title) st (map strip_service ss)
  = foldl (service_step strings_ToLower separator quote url_parse url_String title) st ss.
Proof.
  revert st. induction ss as [|s ss IH]; intros st; [done|]. cbn [foldl map]. rewrite IH. f_equal. unfold service_step.
  pose proof (mapService_strip s title (snd st)) as E. unfold service in E. by rewrite E.
Qed.
Lemma mapGroup_strip g parent m : group (strip_group g) parent m = group g parent m.
Proof.
  revert parent m. induction g as [n ss gs IH] using Group_nested_ind. intros parent m. unfold group. cbn [mapGroup strip_group].
  rewrite services_strip. destruct (foldl _ _ ss) as [cards m1]. generalize (map_cards (if String.eqb parent "" then n else parent +:+ " / " +:+ n) cards m1).
  generalize (if String.eqb parent "" then n else parent +:+ " / " +:+ n).
  induction IH as [|g gs Hg _ IHgs]; intros title m2; [done|]. cbn [map]. rewrite IHgs. f_equal. apply Hg.
Qed.
Lemma run_mapper_strip model existing dir :
  run_mapper strings_ToLower separator quote url_parse url_String (strip_model model) existing dir
  = run_mapper strings_ToLower separator quote url_parse url_String model existing dir.
Proof.
  unfold run_mapper. cbn [md_Groups md_Bookmarks strip_model]. f_equal. generalize (newMapper url_parse url_String existing (if String.eqb dir "" then "plugins" else dir)).
  induction (md_Groups model) as [|g gs IH]; intros m; [done|]. cbn [map foldl]. rewrite IH. f_equal. apply mapGroup_strip.
Qed.

(** The report's counts from one mapper to a later one, [n] services on. *)
Definition counted (n : nat) (m m' : mapper) : Prop :=
  rp_Services (m_report m') = rp_Services (m_report m) + n /\ (balanced (m_report m) -> balanced (m_report m')).
Lemma counted_refl m : counted 0 m m.
Proof. split; [lia|done]. Qed.
Lemma counted_trans a b m1 m2 m3 : counted a m1 m2 -> counted b m2 m3 -> counted (a + b) m1 m3.
Proof. intros [H1 H2] [H3 H4]. split; [lia|auto]. Qed.

Lemma connectionFor_counts name w spec m id m' :
  connectionFor strings_ToLower separator url_parse url_String name w spec m = (id, m') ->
  exists vars, m_report m' = with_environment (m_report m) vars.
Proof.
  assert (Hm : exists vars, m_report m = with_environment (m_report m) vars) by (exists (rp_EnvironmentVariables (m_report m)); by destruct (m_report m)).
  unfold connectionFor. destruct (normalBaseURL _ _ _); [|by intros [= <- <-]]. destruct (negb _); [by intros [= <- <-]|].
  destruct (uniqueID _ _ 64). intros [= <- <-]. cbn [add_connection m_report]. destruct (_ && _); [by eexists|done].
Qed.
Lemma declarePlugin_report id m : m_report (declarePlugin id m) = m_report m.
Proof. unfold declarePlugin. by destruct (_ || _). Qed.
Lemma mapService_counts s path m : counted 1 m (service s path m).2.
Proof.
  unfold service, mapService, uniqueCardID. destruct (uniqueID _ _ 64) as [id used]. unfold counted, balanced.
  destruct (sv_Widgets s) as [|w ws]; [cbn; split; lia|]. destruct (assoc _ _) as [spec|]; [|cbn; split; lia]. unfold map_widget.
  destruct (if String.eqb (wd_URL w) "" then _ else _) as [conn m1] eqn:Hc.
  assert (Hr : exists vars, m_report m1 = with_environment (bump_Services (m_report m)) vars).
  { destruct (String.eqb (wd_URL w) ""); [|by apply connectionFor_counts in Hc].
    injection Hc as <- <-. exists (rp_EnvironmentVariables (m_report m)). reflexivity. }
  destruct Hr as [vars Hr].
  destruct (String.eqb (integration spec) ""); [cbn; rewrite Hr; cbn; split; lia|]. destruct (String.eqb conn ""); [cbn; rewrite Hr; cbn; split; lia|].
  cbn [snd]. destruct (_ <? _)%nat, (String.eqb (authNote spec) ""); cbn [add_warning set_report m_report bump_Complete rp_Services rp_Complete rp_WithoutWidgets rp_NeedManual];
    rewrite !declarePlugin_report; cbn [add_warning m_report]; rewrite Hr; cbn; split; lia.
Qed.
Lemma services_count title ss st : counted (length ss) (snd st) (snd (foldl (service_step strings_ToLower separator quote url_parse url_String title) st ss)).
Proof.
  revert st. induction ss as [|s ss IH]; intros st; [apply counted_refl|]. cbn [foldl length].
  eapply (counted_trans 1); [|apply IH]. unfold service_step. pose proof (mapService_counts s title (snd st)) as H. unfold service in H.
  by destruct (mapService _ _ _ _ _ s title (snd st)).
Qed.
Lemma map_cards_report title cards m : m_report (map_cards title cards m) = m_report m.
Proof. by destruct cards. Qed.
Lemma mapGroup_counts g parent m : counted (services_in g) m (group g parent m).
Proof.
  revert parent m. induction g as [n ss gs IH] using Group_nested_ind. intros parent m. unfold group. cbn [mapGroup services_in].
  pose proof (services_count (if String.eqb parent "" then n else parent +:+ " / " +:+ n) ss ([], m)) as H.
  destruct (foldl _ _ ss) as [cards m1]. cbn [snd] in H.
  assert (H2 : counted (length ss) m (map_cards (if String.eqb parent "" then n else parent +:+ " / " +:+ n) cards m1))
    by (unfold counted in *; by rewrite map_cards_report).
  apply (counted_trans _ _ _ _ _ H2). clear H H2. generalize (map_cards (if String.eqb parent "" then n else parent +:+ " / " +:+ n) cards m1).
  generalize (if String.eqb parent "" then n else parent +:+ " / " +:+ n).
  induction IH as [|g gs Hg _ IHgs]; intros title m2; [apply counted_refl|]. eapply counted_trans; [apply Hg|apply IHgs].
Qed.
Lemma bookmarks_count g m : counted 0 m (mapBookmarks strings_ToLower separator m g).
Proof.
  unfold mapBookmarks.
  assert (H : forall bs st, m_report (snd (foldl (bookmark_step strings_ToLower separator) st bs)) = m_report (snd st)).
  { induction bs as [|b bs IH]; intros st; [done|]. cbn [foldl]. rewrite IH. unfold bookmark_step, uniqueCardID. by destruct (uniqueID _ _ 64). }
  specialize (H (bg_Bookmarks g) ([], m)). destruct (foldl _ _ _) as [cards m1]. unfold counted. rewrite map_cards_report. cbn [snd] in H. rewrite H. split; [lia|done].
Qed.
Lemma run_mapper_counts model existing dir :
  let r := m_report (run_mapper strings_ToLower separator quote url_parse url_String model existing dir) in
  balanced r /\ rp_Services r = list_sum (map services_in (md_Groups model)).
Proof.
  cbv zeta. unfold run_mapper. set (m0 := newMapper _ _ _ _). assert (H0 : m_report m0 = no_report) by (by destruct existing).
  assert (Hg : forall gs m, counted (list_sum (map services_in gs)) m (foldl (fun m g => mapGroup strings_ToLower separator quote url_parse url_String g "" m) m gs)).
  { induction gs as [|g gs IH]; intros m; [apply counted_refl|]. eapply counted_trans; [apply mapGroup_counts|apply IH]. }
  assert (Hb : forall gs m, counted 0 m (foldl (mapBookmarks strings_ToLower separator) m gs)).
  { induction gs as [|g gs IH]; intros m; [apply counted_refl|]. eapply (counted_trans 0); [apply bookmarks_count|apply IH]. }
  destruct (counted_trans _ _ _ _ _ (Hg (md_Groups model) m0) (Hb (md_Bookmarks model) _)) as [H1 H2]. rewrite H0 in H1, H2.
  split; [by apply H2|]. rewrite H1. cbn. lia.
Qed.
End Flow.

(** ** Properties *)

(** What the configuration already has. *)
Definition existing_cards (existing : option Snapshot) : list string := match existing with Some s => map card_ID (all_cards (snap_Config s)) | None => [] end.
Definition existing_connections (existing : option Snapshot) : gset string := match existing with Some s => dom (Connections (snap_Config s)) | None => ∅ end.
Definition existing_integrations (existing : option Snapshot) : list string := match existing with Some s => map in_ID (Integrations (snap_Config s)) | None => [] end.

Lemma newMapper_sets url_parse url_String existing dir :
  cardIDs (newMapper url_parse url_String existing dir) = list_to_set (existing_cards existing)
  /\ connectionIDs (newMapper url_parse url_String existing dir) = existing_connections existing
  /\ integrationIDs (newMapper url_parse url_String existing dir) = list_to_set (existing_integrations existing).
Proof. by destruct existing. Qed.

Section Properties.
Variable strings_ToLower : string -> string.
Variable separator : N -> bool.
Variable quote : string -> string.
Variable url_parse : string -> option full_URL.
Variable url_String : full_URL -> string.
Let import := Map strings_ToLower separator quote url_parse url_String.

(** C36. Whatever Homepage describes, the patch fits the configuration it is made for, as long as ids can be counted in 62 bits: every
    card and connection it adds has an id of the schema's pattern that nothing has yet, no two cards share one, no plugin is declared
    that is already there or twice, and a card that names an integration and a connection names ones that exist or that the patch adds. *)
Theorem import_fits (model : Model) (existing : option Snapshot) (dir : string) (patch : ApplyPatch) (report : Report) (warnings : list Warning)
  (Hmap : import model existing dir = (patch, report, warnings))
  (Hcards : (Z.of_nat (length (existing_cards existing) + length (ids_of (patch_cards (ap_Sections patch)))) < 2 ^ 62)%Z)
  (Hconns : (Z.of_nat (size (existing_connections existing) + size (ap_Connections patch)) < 2 ^ 62)%Z) :
  (forall card, card ∈ patch_cards (ap_Sections patch) -> exists id, card_id card = [id])
  /\ NoDup (ids_of (patch_cards (ap_Sections patch)))
  /\ (forall id, id ∈ ids_of (patch_cards (ap_Sections patch)) -> config_id id = true /\ id ∉ existing_cards existing)
  /\ (forall id, is_Some (ap_Connections patch !! id) -> config_id id = true /\ id ∉ existing_connections existing)
  /\ (exists names, ap_Integrations patch = map (plugin_of (if String.eqb dir "" then "plugins" else dir)) names /\ NoDup names
        /\ (forall n, n ∈ names -> n ∉ existing_integrations existing)
        /\ forall card, card ∈ patch_cards (ap_Sections patch) ->
             card_resolves (fun i => i ∈ existing_integrations existing \/ i ∈ names)
               (fun c => c ∈ existing_connections existing \/ is_Some (ap_Connections patch !! c)) card).
Proof.
  unfold import, Map in Hmap. pose proof (run_mapper_sound strings_ToLower separator quote url_parse url_String model existing dir) as Hs.
  destruct (newMapper_sets url_parse url_String existing (if String.eqb dir "" then "plugins" else dir)) as (E1 & E2 & E3).
  assert (E4 : m_PluginDir (newMapper url_parse url_String existing (if String.eqb dir "" then "plugins" else dir)) = (if String.eqb dir "" then "plugins" else dir)) by (by destruct existing).
  set (m := run_mapper _ _ _ _ _ _ _ _) in *. injection Hmap as <- _ _. cbn [ap_Sections ap_Connections ap_Integrations] in *.
  destruct Hs. rewrite app_nil_r in *. rewrite E1, E2, E3, E4 in *.
  assert (Hc : countable_ids (cardIDs m)).
  { apply countable_subset with (t := list_to_set (existing_cards existing ++ ids_of (patch_cards (m_Sections m)))).
    - intros id Hid%so_taken0. rewrite elem_of_list_to_set in Hid. by rewrite elem_of_list_to_set, elem_of_app.
    - unfold countable_ids. eapply Z.le_lt_trans; [apply inj_le, size_list_to_set_le|]. by rewrite length_app. }
  assert (Hk : countable_ids (connectionIDs m)).
  { rewrite so_conns0. unfold countable_ids. pose proof (size_union_alt (existing_connections existing) (dom (m_Connections m))) as Hsz.
    assert (size (dom (m_Connections m) ∖ existing_connections existing) <= size (dom (m_Connections m))) by (apply subseteq_size; set_solver).
    rewrite size_dom in *. lia. }
  split; [by rewrite Forall_forall in so_named0|]. split; [done|]. split; [|split].
  - intros id Hid. destruct (so_fresh0 id Hid) as [Hn Hf]. rewrite elem_of_list_to_set in Hn. auto.
  - intros id [c Hid]. destruct (so_conn0 id c Hid) as (Hn & Hf & _). auto.
  - destruct so_plugins0 as (names & Hn & Hnd & Hset & Hnew). exists names. split; [done|]. split; [done|]. split.
    + intros n Hin. specialize (Hnew n Hin). by rewrite elem_of_list_to_set in Hnew.
    + intros card Hcard. apply so_resolve0 in Hcard. revert Hcard. apply resolves_mono.
      * rewrite so_integrationIDs0, Hset. intros i. by rewrite !elem_of_list_to_set.
      * intros c. rewrite so_conns0, elem_of_union. intros [?|Hd%elem_of_dom]; auto.
Qed.

(** Whatever Homepage describes, every connection and plugin the patch adds is off, a connection's credential is a reference to a
    variable the report names, and nothing of the source's keys but their presence, and none of a widget's other options, reaches the
    patch, the report or the warnings; the report counts every service once. *)
Theorem import_inert (model : Model) (existing : option Snapshot) (dir : string) :
  let patch := fst (fst (import model existing dir)) in
  let report := snd (fst (import model existing dir)) in
  (forall id c, ap_Connections patch !! id = Some c -> inert_connection (rp_EnvironmentVariables report) c)
  /\ (forall p, p ∈ ap_Integrations patch -> assoc "enabled" (as_map p) = Some (ABool false))
  /\ import (strip_model model) existing dir = import model existing dir
  /\ rp_Services report = list_sum (map services_in (md_Groups model)) /\ balanced report.
Proof.
  cbv zeta. pose proof (run_mapper_sound strings_ToLower separator quote url_parse url_String model existing dir) as Hs.
  unfold import, Map. rewrite run_mapper_strip. destruct (run_mapper_counts strings_ToLower separator quote url_parse url_String model existing dir) as [Hbal Hcount].
  set (m := run_mapper _ _ _ _ _ _ _ _) in *. cbn [fst snd ap_Connections ap_Integrations]. destruct Hs. split; [|split; [|split; [done|split; [exact Hcount|exact Hbal]]]].
  - intros id c Hc. destruct (so_conn0 id c Hc) as (_ & _ & Hi). revert Hi. apply inert_mono. cbn. intros x. by rewrite sort_strings_perm.
  - intros p. destruct so_plugins0 as (names & -> & _). intros (n & -> & _)%elem_of_map. done.
Qed.
End Properties.

(** A parser of URLs for the examples: the scheme up to [://], and a host. *)
Definition demo_parse (s : string) : option full_URL :=
  match strip_prefix "http://" s with
  | Some h => Some {| fu_URL := {| scheme := "http"; host := h; upath := ""; uquery := ∅ |}; fu_User := false; fu_RawQuery := ""; fu_Fragment := "" |}
  | None => None
  end.
Definition demo_String (f : full_URL) : string := scheme (fu_URL f) +:+ "://" +:+ host (fu_URL f) +:+ upath (fu_URL f).
Definition demo_space (r : N) : bool := N.eqb r 32.
Definition demo_widget (t u k : string) : Widget := {| wd_Type := t; wd_URL := u; wd_Key := k; wd_Fields := []; wd_Options := [] |}.
Definition demo_service (n : string) (ws : list Widget) : Service := with_widgets (new_service n) ws.
Definition demo_map := Map ToLower demo_space (fun s => s) demo_parse demo_String.

(** Two services of one name, both with a dashboard of their own, and a bookmark of the same name. *)
Definition demo_model : Model :=
  {| md_Groups := [mkGroup "Media" [demo_service "My Films" [demo_widget "Jellyfin" "http://a" "k1"]]
       [mkGroup "More" [demo_service "My Films" [demo_widget "immich" "http://b" ""]] []]];
     md_Bookmarks := [{| bg_Name := "Links"; bg_Bookmarks := [{| bk_Name := "my films!"; bk_Href := "http://x"; bk_Description := ""; bk_Icon := ""; bk_Abbr := "" |}] |}];
     md_Settings := []; md_Widgets := [] |}.

Example demo_ids : ids_of (patch_cards (ap_Sections (demo_map demo_model None "").1.1)) = ["my-films"; "my-films-2"; "my-films-3"].
Proof. vm_compute. reflexivity. Qed.
Example demo_variables : rp_EnvironmentVariables (demo_map demo_model None "").1.2 = ["HOMEPAGE_MY_FILMS_KEY"].
Proof. vm_compute. reflexivity. Qed.

Example import_fits_witness :
  NoDup (ids_of (patch_cards (ap_Sections (demo_map demo_model None "").1.1)))
  /\ length (ids_of (patch_cards (ap_Sections (demo_map demo_model None "").1.1))) = 3.
Proof.
  split; [|vm_compute; reflexivity].
  apply (import_fits ToLower demo_space (fun s => s) demo_parse demo_String demo_model None "" (demo_map demo_model None "").1.1
    (demo_map demo_model None "").1.2 (demo_map demo_model None "").2); vm_compute; reflexivity.
Defined.

(** Two services behind one address with different keys: the second shares the first's connection, and its key is dropped unsaid. *)
Example second_key_dropped :
  let model := {| md_Groups := [mkGroup "G" [demo_service "A" [demo_widget "immich" "http://a" "k1"]; demo_service "B" [demo_widget "immich" "http://a" "k2"]] []];
                  md_Bookmarks := []; md_Settings := []; md_Widgets := [] |} in
  size (ap_Connections (demo_map model None "").1.1) = 1 /\ (demo_map model None "").2 = [] /\ rp_EnvironmentVariables (demo_map model None "").1.2 = ["HOMEPAGE_A_KEY"].
Proof. vm_compute. repeat split; reflexivity. Qed.

(** A service with both [widget] and [widgets]: which comes first, and so which one is mapped, is the order a map is ranged in. *)
Example first_widget_by_map_order :
  let one := ("widget", AMap [("type", AString "immich")]) in
  let many := ("widgets", AList [AMap [("type", AString "jellyfin")]]) in
  let types raw := map wd_Type (sv_Widgets (parseService (fun _ => "") (fun s => s) ToLower "S" raw "services.yaml" "G.S").1) in
  types [one; many] = ["immich"; "jellyfin"] /\ types [many; one] = ["jellyfin"; "immich"].
Proof. vm_compute. repeat split; reflexivity. Qed.

(** A link-only widget with an address still makes a connection no card uses. *)
Example unused_connection :
  let model := {| md_Groups := [mkGroup "G" [demo_service "A" [demo_widget "radarr" "http://a" "k1"]] []]; md_Bookmarks := []; md_Settings := []; md_Widgets := [] |} in
  size (ap_Connections (demo_map model None "").1.1) = 1 /\ assoc "slots" (as_map (default ANil (head (patch_cards (ap_Sections (demo_map model None "").1.1))))) = None.
Proof. vm_compute. repeat split; reflexivity. Qed.
