(* ===== verification/Contracts.v ===== *)
(** * internal/contracts: the checks between documents

    helpers.go and semantic.go: what the contract tests hold the examples against. The documents are
    decoded values; an issue is a constructor with what its message names, and [text] renders it for the
    sorting. Media types, URLs, the digest, printing a float and reading a [json.Number] are arguments;
    the regular expressions are written out. *)
From S2P Require Import Prelude GoSort GoAny RoutePath GoTime Utf8 Manifest.

(** ** helpers.go *)

Section MediaType.
Variable ParseMediaType : string -> option (string * gmap string string).
Variable FormatMediaType : string -> gmap string string -> string.
Definition NormaliseMediaType (v : string) : option string :=
  match ParseMediaType v with
  | None => None
  | Some (mt, params) =>
      let params' := match params !! "charset" with Some cs => <["charset" := ToLower cs]> params | None => params end in
      let out := FormatMediaType (ToLower mt) params' in
      if String.eqb out "" then None else Some out
  end.
End MediaType.

Definition isAllDigits (s : string) : bool := all_bytes isDigit s && negb (String.eqb s "").
Definition zero_led (s : string) : bool := (1 <? String.length s)%nat && HasPrefix s "0".
Definition numericIdent (n : string) : bool := if String.eqb n "" || zero_led n then false else isAllDigits n.
Definition ident_byte (c : ascii) : bool := isDigit c || isLetter c || Ascii.eqb c "-".
Definition alphanumericIdent (s : string) : bool := all_bytes ident_byte s.
Definition splitNonEmpty (s : string) : list string := if String.eqb s "" then [] else Split "." s.

Definition before_after (s : string) (sep : ascii) : string * string := match Cut s sep with Some p => p | None => (s, "") end.
Definition pre_ident (id : string) : bool := negb (String.eqb id "") && alphanumericIdent id && negb (isAllDigits id && zero_led id).
Definition build_ident (id : string) : bool := negb (String.eqb id "") && alphanumericIdent id.
Definition ValidSemver (v : string) : bool :=
  let '(core, build) := before_after v "+" in
  let '(core, pre) := before_after core "-" in
  let nums := Split "." core in
  (length nums =? 3)%nat && forallb numericIdent nums
  && negb (Contains v "-" && String.eqb pre "") && forallb pre_ident (splitNonEmpty pre)
  && negb (Contains v "+" && String.eqb build "") && forallb build_ident (splitNonEmpty build).

Definition sortedKeys {A} (m : list (string * A)) : list string := sort_strings (map fst m).

(** ** Documents *)

Definition CoreDefaultBodyKB : Float64 := float_of 64.

Definition get (m : list (string * any)) (key : string) : any := default ANil (assoc key m).
Definition has {A} (m : list (string * A)) (key : string) : bool := match assoc key m with Some _ => true | None => false end.
Definition mapOf (m : list (string * any)) (key : string) : list (string * any) := as_map (get m key).
Definition sliceOf (m : list (string * any)) (key : string) : list any := as_list (get m key).
Definition strOf (m : list (string * any)) (key : string) : string := as_string (get m key).
Definition strings_of (l : list any) : list string := omap (fun v => match v with AString s => Some s | _ => None end) l.
Fixpoint dedupe_from (prev : option string) (l : list string) : list string :=
  match l with
  | [] => []
  | s :: r => if bool_decide (prev = Some s) then dedupe_from prev r else s :: dedupe_from (Some s) r
  end.
Definition dedupe (l : list string) : list string := dedupe_from None l.
Definition truncate (s : string) (n : nat) : string := if (String.length s <=? n)%nat then s else String.substring 0 n s.
Definition routeUse (r : list (string * any)) : string := let u := strOf r "use" in if String.eqb u "" then "data" else u.

(** A URL as [url.Parse] has it, with [Hostname()] and [Port()]. *)
Record ParsedURL := { pu_Scheme : string; pu_Host : string; pu_Hostname : string; pu_Port : string; pu_User : bool; pu_RawQuery : string; pu_Fragment : string }.
Definition validPort (u : ParsedURL) : bool :=
  if String.eqb (pu_Port u) "" then true
  else match Atoi (pu_Port u) with Some n => ((1 <=? n) && (n <=? 65535))%Z | None => false end.
Definition usable (u : option ParsedURL) : bool :=
  match u with
  | None => false
  | Some u => (String.eqb (pu_Scheme u) "http" || String.eqb (pu_Scheme u) "https") && negb (String.eqb (pu_Hostname u) "") && validPort u
  end.

(** [min] of two floats. *)
Definition float_min (x y : Float64) : Float64 :=
  match x, y with
  | SpecFloat.S754_nan, _ => x
  | _, SpecFloat.S754_nan => y
  | SpecFloat.S754_zero _, SpecFloat.S754_zero s => if s then y else x
  | _, _ => if float_lt y x then y else x
  end.

Inductive reason := RQueryKeys (extra allowed : list string) | RNoContentType (kind : string) | RContentType (kind ct : string).

Inductive issue :=
| IVersion (iid v : string) | IDuplicate (scope what v : string) | IMaximum (iid name : string) (n max : Float64)
| IDuplicateRoute (oid id : string) | IRouteSlot (oid slot : string) | IRouteBody (oid : string) | IMediaType (oid ct : string)
| INoHTTP (oid : string) | INoAssets (oid : string) | ISignal (oid name : string) | IAssetRoute (oid slot : string)
| IPipelineSlot (oid slot : string) | IPathExpression (oid : string) | IPathBrace (oid path : string)
| IParamUndeclared (oid path name : string) | IParamType (oid name type : string) | IParamOptional (oid name : string)
| INotCovered (oid method path : string) | IConstraints (oid method path : string) (reasons : list reason)
| ILockNoManifest (iid : string) | ILockRoute (iid id : string) | ILockCapability (iid cap : string) | ILockRuntime (iid recorded declared : string)
| ILockLimit (iid key : string) (v req : Float64) | IEffectiveMissing (iid : string) | IEffectiveIncomplete (iid : string) (keys : list string)
| IEffectiveUnknown (iid : string) (keys : list string) | IEffectiveWrong (iid key : string) (v want : Float64)
| IDigestError (iid e : string) | IDigest (iid got computed : string)
| IBaseURL (cid raw : string) | IUserinfo (cid : string) | IBaseQuery (cid : string)
| ICardIntegration (cid integration : string) | ICardConnection (cid slot conn : string) | ICardSlot (cid slot : string)
| ICardKind (cid slot want conn kind : string) | ICardRequired (cid slot : string) | ICardOperation (cid op : string) (ops : list string)
| IRuleDynamic (rule frag : string) | IRuleCard (rule card : string) | IRuleManifest (rule card integration : string)
| IRuleSignal (rule signal card op : string) (declared : list string) | IRuleChannel (rule channel : string)
| ITimestamp (place t : string) | IURL (place t : string).

(** ** Route patterns *)

(** A literal, then [[^/]*] and what follows it, until the text ends: over runes. *)
Fixpoint literal_prefix (p s : list N) : option (list N) :=
  match p, s with
  | [], _ => Some s
  | a :: p', b :: s' => if N.eqb a b then literal_prefix p' s' else None
  | _ :: _, [] => None
  end.
Fixpoint after_literals (parts : list (list N)) (s : list N) : bool :=
  match parts with
  | [] => match s with [] => true | _ => false end
  | p :: rest =>
      (fix gap (s : list N) : bool :=
         (match literal_prefix p s with Some r => after_literals rest r | None => false end)
         || match s with c :: s' => negb (N.eqb c 47) && gap s' | [] => false end) s
  end.
(** [regexp.MatchString] of [^p0[^/]*p1...$]; a pattern that is not UTF-8 does not compile. *)
Definition regexp_match (parts : list string) (s : string) : bool :=
  forallb valid_text parts
  && match parts with
     | [] => false
     | p :: rest => match literal_prefix (runes p) (runes s) with Some r => after_literals (map runes rest) r | None => false end
     end.
Definition glob_segment (p s : string) : bool :=
  if String.eqb p s then true
  else if negb (Contains p "*") then false
  else regexp_match (Split star p) s.
Fixpoint glob_segments (pp sp : list string) : bool :=
  match pp, sp with p :: pp', s :: sp' => glob_segment p s && glob_segments pp' sp' | _, _ => true end.
Definition GlobMatch (pattern path : string) : bool :=
  let pp := Split slash pattern in
  let sp := Split slash path in
  (length pp =? length sp)%nat && glob_segments pp sp.

(** [^\{[A-Za-z][A-Za-z0-9_]{0,31}\}$] *)
Definition placeholderSegment (seg : string) : option string :=
  match strip_prefix "{" seg with
  | None => None
  | Some rest => match strip_suffix "}" rest with Some name => if placeholderName name then Some name else None | None => None end
  end.
Fixpoint placeholders_in (segs : list string) : option (list string) :=
  match segs with
  | [] => Some []
  | seg :: rest =>
      if negb (has_brace seg) then placeholders_in rest
      else match placeholderSegment seg with None => None | Some name => cons name <$> placeholders_in rest end
  end.
Definition pathPlaceholders (path : string) : option (list string) := placeholders_in (Split slash path).

Definition stand_in (seg : string) : string := if HasPrefix seg "{" then "x" else seg.
Fixpoint placeholders_starred (pp sp : list string) : bool :=
  match pp, sp with
  | p :: pp', s :: sp' => (if HasPrefix s "{" then String.eqb p "*" else true) && placeholders_starred pp' sp'
  | _, _ => true
  end.
Definition templateCovered (pattern path : string) : bool :=
  let pp := Split slash pattern in
  let sp := Split slash path in
  (length pp =? length sp)%nat && placeholders_starred pp sp && GlobMatch pattern (Join slash (map stand_in sp)).

(** ** Rule expressions *)

Definition quote_byte (c : ascii) : bool := Ascii.eqb c "034" || Ascii.eqb c "'".

(** The index of the quote that ends a literal begun with [q], or past the end. *)
Fixpoint literal_end (fuel : nat) (expr : string) (q : ascii) (i : nat) : nat :=
  match fuel, String.get i expr with
  | S f, Some c => if Ascii.eqb c q then i else literal_end f expr q (if Ascii.eqb c "\" then S (S i) else S i)
  | _, _ => i
  end.
Fixpoint spans_from (fuel : nat) (expr : string) (start i : nat) : list (nat * nat) :=
  match fuel, String.get i expr with
  | S f, Some c =>
      if quote_byte c then
        let next := S (literal_end (String.length expr) expr c (S i)) in (start, i) :: spans_from f expr next next
      else spans_from f expr start (S i)
  | _, _ => [(start, String.length expr)]
  end.
Definition CodeSpans (expr : string) : list (nat * nat) :=
  List.filter (fun s => (s.1 <? s.2)%nat && (s.2 <=? String.length expr)%nat) (spans_from (String.length expr) expr 0 0).

Definition space_byte (c : ascii) : bool := existsb (Ascii.eqb c) ["009"; "010"; "012"; "013"; "032"]%char.
Fixpoint skip_space (s : string) : string := match s with String c r => if space_byte c then skip_space r else s | EmptyString => "" end.

(** [\b(signal|state)\s*\(]: where it begins. No match begins inside another. *)
Definition call_here (s : string) : bool :=
  existsb (fun name => match strip_prefix name s with Some r => HasPrefix (skip_space r) "(" | None => false end) ["signal"; "state"].
Fixpoint callStart (s : string) (after_word : bool) (i : nat) : list nat :=
  match s with
  | EmptyString => []
  | String c r => (if negb after_word && call_here s then [i] else []) ++ callStart r (isWord c) (S i)
  end.

(** [\QUOTE([^QUOTE\]+)QUOTE], and what follows. *)
Fixpoint literal_run (s : string) : string * string :=
  match s with
  | String c r => if Ascii.eqb c "034" || Ascii.eqb c "\" then ("", s) else let '(w, r') := literal_run r in (String c w, r')
  | EmptyString => ("", "")
  end.
Definition quoted_literal (s : string) : option (string * string) :=
  match s with
  | String "034" r => match literal_run r with
                      | (EmptyString, _) => None
                      | (w, String "034" r') => Some (w, r')
                      | _ => None
                      end
  | _ => None
  end.
Definition strictSignal (frag : string) : option (string * string) :=
  r ← strip_prefix "signal(" frag;
  '(card, r) ← quoted_literal (skip_space r);
  r ← strip_prefix "," (skip_space r);
  '(signal, r) ← quoted_literal (skip_space r);
  if HasPrefix (skip_space r) ")" then Some (card, signal) else None.
Definition strictState (frag : string) : option string :=
  r ← strip_prefix "state(" frag;
  '(card, r) ← quoted_literal (skip_space r);
  if HasPrefix (skip_space r) ")" then Some card else None.

(** ** CardStateIssues *)

Inductive card_state_issue := CNoNextRun (label : string) | CProbeEarly (label nextRun openUntil : string).
Definition CardStateIssues (label : string) (doc : list (string * any)) : list card_state_issue :=
  let ex := mapOf doc "execution" in
  let openUntil := strOf ex "circuitOpenUntil" in
  let nextRun := strOf ex "nextRunAt" in
  if String.eqb openUntil "" then []
  else if String.eqb nextRun "" then [CNoNextRun label]
  else match time_Parse openUntil, time_Parse nextRun with
       | Some a, Some b => if (b <? a)%Z then [CProbeEarly label nextRun openUntil] else []
       | _, _ => []
       end.

(** ** The pattern check against the one routing uses *)

Definition ascii_byte (c : ascii) : bool := (byteN c <? 128)%N.
Fixpoint codes (s : string) : list N := match s with String c r => byteN c :: codes r | EmptyString => [] end.

Lemma ascii_not_multi a b : ascii_byte a = true -> ok2 a b = false /\ (forall c, ok3 a b c = false) /\ forall c d, ok4 a b c d = false.
Proof.
  unfold ascii_byte. rewrite N.ltb_lt. intros Ha. unfold ok2, ok3, ok4, in_range.
  assert (Hr : forall lo hi, (128 <= lo)%N -> ((lo <=? byteN a) && (byteN a <=? hi))%N = false) by (intros lo hi Hlo; apply andb_false_intro1, N.leb_gt; lia).
  assert (He : forall n, (128 <= n)%N -> (byteN a =? n)%N = false) by (intros n Hn; apply N.eqb_neq; lia).
  rewrite ?Hr, ?He by lia. split; [done|]. split; intros; rewrite ?Hr, ?He by lia; done.
Qed.
Lemma runes_ascii s : all_bytes ascii_byte s = true -> runes s = codes s.
Proof.
  induction s as [|a s IH]; [done|]. cbn [all_bytes]. intros [Ha Hs]%andb_true_iff. cbn [codes]. rewrite <- (IH Hs).
  assert (H1 : rune1 a = byteN a) by (unfold rune1; unfold ascii_byte in Ha; by rewrite Ha).
  cbn [runes]. destruct s as [|b s]; [by rewrite H1|]. destruct (ascii_not_multi a b Ha) as (-> & H3 & H4).
  destruct s as [|c s]; [by rewrite H1|]. rewrite H3. destruct s as [|d s]; [by rewrite H1|]. by rewrite H4, H1.
Qed.
Lemma codes_app a b : codes (a +:+ b) = codes a ++ codes b.
Proof. induction a as [|c a IH]; [done|]. rewrite app_cons_str. cbn [codes app]. by rewrite IH. Qed.
Lemma codes_inj a b : codes a = codes b -> a = b.
Proof. revert b. induction a as [|c a IH]; intros [|d b]; [done..|]. cbn. intros [= H%byteN_inj ?]. f_equal; auto. Qed.
Lemma codes_split s x y : codes s = x ++ y -> exists a b, s = a +:+ b /\ codes a = x /\ codes b = y.
Proof.
  revert s. induction x as [|n x IH]; intros s H; [by exists "", s|]. destruct s as [|c s]; [done|]. injection H as <- H.
  destruct (IH s H) as (a & b & -> & <- & <-). by exists (String c a), b.
Qed.
Lemma codes_no_slash s : no_sep slash s -> 47%N ∉ codes s.
Proof.
  unfold no_sep. induction s as [|c s IH]; cbn [all_bytes codes]; [set_solver|]. intros [Hc Hs]%andb_true_iff [E|E]%elem_of_cons; [|by apply IH].
  assert (c = slash) as -> by (by apply byteN_inj). done.
Qed.
Lemma ascii_valid_text s : all_bytes ascii_byte s = true -> valid_text s = true.
Proof.
  intros Hs. unfold valid_text. rewrite runes_ascii by done. apply String.eqb_eq. induction s as [|c s IH]; [done|].
  cbn [all_bytes] in Hs. apply andb_true_iff in Hs as [Hc Hs]. specialize (IH Hs). cbn [codes]. unfold encode_runes in *. cbn [foldr]. rewrite IH.
  unfold encode_rune. unfold ascii_byte in Hc. rewrite Hc. unfold byte_of, byteN. rewrite ascii_N_embedding. done.
Qed.

Lemma literal_prefix_spec p s r : literal_prefix p s = Some r <-> s = p ++ r.
Proof.
  revert s. induction p as [|a p IH]; intros [|b s]; cbn; [split; congruence..|done|]. destruct (N.eqb_spec a b) as [->|Hne].
  - rewrite IH. split; [by intros ->|by intros [= ->]].
  - split; [done|congruence].
Qed.

(** The remaining literals, each after a gap without a separator. *)
Lemma after_literals_spec ps s : 47%N ∉ s ->
  after_literals ps s = true <->
  match ps with [] => s = [] | p :: rest => exists a r, s = a ++ p ++ r /\ after_literals rest r = true end.
Proof.
  intros Hs. destruct ps as [|p rest]; [by destruct s|]. induction s as [|c s IH].
  - cbn. destruct (literal_prefix p []) as [r|] eqn:E.
    + apply literal_prefix_spec in E. symmetry in E. apply app_eq_nil in E as [-> ->]. rewrite orb_false_r. split; [intros H; by exists [], []|].
      intros (a & r & H & Hr). symmetry in H. apply app_eq_nil in H as [-> H]. cbn in H. by subst r.
    + split; [done|]. intros (a & r & H & _). symmetry in H. apply app_eq_nil in H as [-> H]. by apply app_eq_nil in H as [-> ->].
  - apply not_elem_of_cons in Hs as [Hc Hs]. specialize (IH Hs). cbn [after_literals]. change ((fix gap (s : list N) : bool := _) s) with (after_literals (p :: rest) s).
    rewrite orb_true_iff, andb_true_iff, IH. split.
    + intros [H|[_ (a & r & -> & H)]]; [|by exists (c :: a), r]. destruct (literal_prefix p (c :: s)) as [r|] eqn:E; [|done].
      apply literal_prefix_spec in E. by exists [], r.
    + intros ([|d a] & r & H & Hr).
      * left. change (c :: s = p ++ r) in H. apply literal_prefix_spec in H. by rewrite H.
      * right. injection H as -> ->. split; [|by exists a, r]. apply negb_true_iff, N.eqb_neq. congruence.
Qed.

Lemma literals_parts x l s : all_bytes ascii_byte x = true -> Forall (fun p => all_bytes ascii_byte p = true) l -> all_bytes ascii_byte s = true -> no_sep slash s ->
  (match literal_prefix (runes x) (runes s) with Some r => after_literals (map runes l) r | None => false end) = true <-> parts_match (x :: l) s.
Proof.
  intros Hx Hl Hs Hsep. rewrite (runes_ascii x Hx), (runes_ascii s Hs). revert x s Hx Hs Hsep. induction Hl as [|p l Hp _ IH]; intros x s Hx Hs Hsep.
  - cbn [map parts_match]. destruct (literal_prefix (codes x) (codes s)) as [r|] eqn:E.
    + apply literal_prefix_spec in E. split.
      * cbn. destruct r; [|done]. intros _. apply codes_inj. by rewrite E, app_nil_r.
      * intros ->. by rewrite <- (app_nil_r (codes x)) in E at 1; apply app_inv_head in E as <-.
    + split; [done|]. intros ->. assert (H := proj2 (literal_prefix_spec (codes x) (codes x) []) (eq_sym (app_nil_r _))). congruence.
  - rewrite parts_match_cons by done. assert (Hn := codes_no_slash s Hsep). destruct (literal_prefix (codes x) (codes s)) as [r|] eqn:E.
    + apply literal_prefix_spec in E. apply codes_split in E as (x' & t & -> & Ex & <-). apply codes_inj in Ex as ->.
      rewrite codes_app in Hn. rewrite all_bytes_app in Hs. apply andb_true_iff in Hs as [_ Ht]. unfold no_sep in Hsep. rewrite all_bytes_app in Hsep. apply andb_true_iff in Hsep as [_ Hst].
      rewrite after_literals_spec by set_solver. cbn [map]. split.
      * intros (a & q & E & Hq). apply codes_split in E as (sa & sr & -> & <- & E). exists sa, sr. split; [done|].
        rewrite all_bytes_app in Ht, Hst. apply andb_true_iff in Ht as [_ Ht], Hst as [_ Hst]. apply (IH p sr Hp Ht Hst).
        rewrite E, (runes_ascii p Hp). by rewrite (proj2 (literal_prefix_spec _ _ q) eq_refl).
      * intros (a & q & E & Hq). apply app_inj_l in E as ->. rewrite all_bytes_app in Ht, Hst. apply andb_true_iff in Ht as [_ Ht], Hst as [_ Hst].
        apply (IH p q Hp Ht Hst) in Hq. destruct (literal_prefix (codes p) (codes q)) as [q'|] eqn:Eq; [|done]. apply literal_prefix_spec in Eq.
        exists (codes a), q'. split; [|done]. by rewrite codes_app, Eq, (runes_ascii p Hp).
    + split; [done|]. intros (a & q & -> & _). assert (H := proj2 (literal_prefix_spec (codes x) (codes (x +:+ a +:+ q)) (codes (a +:+ q))) (codes_app _ _)). congruence.
Qed.

Lemma glob_refl p : glob p p.
Proof.
  induction p as [|c p IH]; [constructor|]. destruct (Ascii.eqb_spec c star) as [->|Hne]; [|by constructor].
  change (String star p) with ("*" +:+ p) at 2. by apply (glob_star p "*" p).
Qed.
(** One segment: the regular expression and the matcher of routepath agree. *)
Lemma glob_segment_match p s : all_bytes ascii_byte p = true -> all_bytes ascii_byte s = true -> no_sep slash s -> glob_segment p s = matchSegment p s.
Proof.
  intros Hp Hs Hsep. unfold glob_segment. destruct (String.eqb_spec p s) as [->|Hne]; [symmetry; apply matchSegment_glob, glob_refl|].
  destruct (Contains p "*") eqn:Hc; cbn [negb].
  - apply eq_true_iff_eq. rewrite matchSegment_glob, glob_parts. unfold regexp_match.
    assert (Hparts := Split_all_bytes ascii_byte star p Hp). assert (Hv : forallb valid_text (Split star p) = true).
    { apply forallb_forall. intros x Hx. apply ascii_valid_text. rewrite Forall_forall in Hparts. apply Hparts. by apply list_elem_of_In. }
    rewrite Hv. cbn [andb]. destruct (Split star p) as [|x l] eqn:E; [by apply Split_nonempty in E|]. inversion Hparts; subst. by apply literals_parts.
  - symmetry. apply not_true_is_false. rewrite matchSegment_glob, glob_parts. rewrite Split_no_sep; [cbn; congruence|].
    unfold no_sep. apply not_false_is_true. intros Hb. assert (Contains p "*" = true); [|congruence]. clear -Hb. induction p as [|c p IH]; [done|].
    cbn [all_bytes] in Hb. apply Contains_true. destruct (Ascii.eqb_spec c star) as [->|Hn]; [by exists "", p|].
    destruct (all_bytes _ p) eqn:E; [done|].
    destruct (proj1 (Contains_true p "*") (IH eq_refl)) as (a & b & ->). by exists (String c a), b.
Qed.

Lemma parse_part_facts p t s : parse_part p = Ok (t, s) ->
  stand_in p = s /\ (placeholder t = "" -> has_brace p = false /\ HasPrefix p "{" = false)
  /\ (placeholder t <> "" -> has_brace p = true /\ HasPrefix p "{" = true /\ s = "x" /\ placeholderSegment p = Some (placeholder t)).
Proof.
  unfold parse_part, stand_in. destruct (has_brace p) eqn:Hb.
  - unfold placeholder_body, placeholderSegment. destruct (strip_prefix "{" p) as [rest|] eqn:Hp; [|done].
    assert (Hpre : HasPrefix p "{" = true) by (unfold HasPrefix; by rewrite Hp). rewrite Hpre.
    destruct (strip_suffix "}" rest) as [name|]; [|done]. destruct (String.eqb_spec name "") as [->|Hn]; [done|]. destruct (has_brace name); [done|]. cbn [orb].
    destruct (placeholderName name); [|done]. intros [= <- <-]. by repeat split.
  - intros [= <- <-]. assert (Hpre : HasPrefix p "{" = false).
    { apply not_true_is_false. intros (r & ->)%HasPrefix_true. done. }
    by rewrite Hpre.
Qed.
Definition filled (e : templateSegment * string) : templateSegment :=
  if String.eqb (placeholder e.1) "" then {| literal := e.2; placeholder := placeholder e.1 |} else e.1.
Lemma fill_literals_filled parsed : fill_literals (map fst parsed) (map snd parsed) = Ok (map filled parsed).
Proof. induction parsed as [|[t s] l IH]; [done|]. cbn [map fill_literals]. by rewrite IH. Qed.

(** A template that is canonical as it stands, taken apart. *)
Lemma ParseTemplate_canonical path t :
  ParseTemplate path = Ok t -> path <> "/" -> canonical (Join slash (map stand_in (Split slash path))) ->
  exists parts parsed, Split slash path = "" :: parts /\ Forall (no_sep slash) parts /\ Forall2 (fun p r => parse_part p = Ok r) parts parsed
    /\ segments t = map filled parsed /\ parsed <> [] /\ Forall canonical_seg (map snd parsed)
    /\ map stand_in (Split slash path) = "" :: map snd parsed.
Proof.
  intros Ht Hroot Hcan. unfold ParseTemplate in Ht. destruct (String.eqb_spec path "/") as [->|_]; [done|].
  destruct (HasPrefix path "/") eqn:Hp; cbn [negb] in Ht; [|done]. destruct (template_body path Hroot Hp) as (body & -> & Hb).
  change (drop_str 1 (String slash body)) with body in Ht. apply res_bind_Ok in Ht as (parsed & Hm & Ht).
  assert (Hf := proj1 (res_mapM_Ok _ _ _) Hm). assert (Hne : parsed <> []).
  { intros ->. apply Forall2_nil_inv_r in Hf. by apply Split_nonempty in Hf. }
  assert (Hsplit : Split slash (String slash body) = "" :: Split slash body) by (by apply (Split_app_sep slash "" body)).
  assert (Hst : map stand_in (Split slash body) = map snd parsed).
  { clear -Hf. induction Hf as [|p [t s] ps rs Hp _ IH]; [done|]. cbn [map snd]. rewrite IH. by apply parse_part_facts in Hp as (-> & _). }
  assert (Hmap : map stand_in (Split slash (String slash body)) = "" :: map snd parsed) by (rewrite Hsplit; cbn [map]; by rewrite Hst).
  rewrite Hmap, Join_cons in Hcan by (by destruct parsed). change (canonical (String slash (Join slash (map snd parsed)))) in Hcan. unfold canonical in Hcan. rewrite Hcan in Ht.
  cbn [res_bind] in Ht. change (drop_str 1 (String slash (Join slash (map snd parsed)))) with (Join slash (map snd parsed)) in Ht.
  assert (Hsep := standins_sep _ _ (Split_pieces slash body) Hf). rewrite Split_Join, fill_literals_filled in Ht by (done || by destruct parsed). injection Ht as <-.
  exists (Split slash body), parsed. repeat split; try done; [apply Split_pieces|].
  destruct (standin_segments (map snd parsed) _ ltac:(by destruct parsed) Hsep Hcan) as [E|[Hall _]].
  - exfalso. apply Hb. rewrite <- (Join_Split slash body). injection E as E. revert Hf Hne E. generalize (Split slash body). intros ps Hf Hne E.
    destruct Hf as [|q [t x] qs rs Hq Hf]; [done|]. destruct Hf as [|? [t' y] ? ? ? Hf]; cbn [map snd] in E; [|by destruct x].
    cbn in E. subst x. by apply parse_part_empty in Hq as ->.
  - cbn [drop_str] in Hall. by rewrite Split_Join in Hall by (done || by destruct parsed).
Qed.

Lemma covered_segments pp parts parsed :
  Forall2 (fun p r => parse_part p = Ok r) parts parsed -> Forall canonical_seg (map snd parsed) -> Forall (fun s => all_bytes ascii_byte s = true) (map snd parsed) ->
  Forall (fun p => all_bytes ascii_byte p = true) pp ->
  placeholders_starred pp parts && glob_segments pp (map snd parsed) = covered_all pp (map filled parsed).
Proof.
  intros Hf. revert pp. induction Hf as [|part [t s] parts parsed Hp _ IH]; intros pp Hcan Hs Hpp; [by destruct pp|]. destruct pp as [|g pp]; [done|].
  inversion Hcan as [|? ? Hc Hcan']; subst. inversion Hs as [|? ? Hs1 Hs']; subst. inversion Hpp as [|? ? Hg Hpp']; subst. cbn [fst snd] in *.
  specialize (IH pp Hcan' Hs' Hpp'). cbn [map placeholders_starred glob_segments covered_all]. rewrite <- IH. unfold filled at 1 2. cbn [fst snd].
  apply parse_part_facts in Hp as (_ & Hlit & Hph). destruct (String.eqb_spec (placeholder t) "") as [E|Hne]; cbn [placeholder literal].
  - destruct (Hlit E) as (_ & ->). rewrite E. cbn [String.eqb negb]. rewrite glob_segment_match by (done || by apply cs_sep). cbn [andb].
    destruct (placeholders_starred pp parts), (matchSegment g s); done.
  - destruct (Hph Hne) as (_ & -> & -> & _). apply String.eqb_neq in Hne. rewrite Hne. cbn [negb]. destruct (String.eqb_spec g "*") as [->|]; [|done].
    change (glob_segment "*" "x") with true. by destruct (placeholders_starred pp parts).
Qed.
Lemma placeholders_parsed parts parsed :
  Forall2 (fun p r => parse_part p = Ok r) parts parsed ->
  placeholders_in parts = Some (List.filter (fun n => negb (String.eqb n "")) (map placeholder (map filled parsed))).
Proof.
  intros Hf. induction Hf as [|p [t s] ps rs Hp _ IH]; [done|]. apply parse_part_facts in Hp as (_ & Hlit & Hph). cbn [placeholders_in map].
  destruct (String.eqb_spec (placeholder t) "") as [E|Hne].
  - destruct (Hlit E) as (-> & _). cbn [negb]. unfold filled at 1. cbn [fst snd]. rewrite E. exact IH.
  - destruct (Hph Hne) as (-> & _ & _ & ->). unfold filled at 1. cbn [fst snd]. apply String.eqb_neq in Hne. rewrite Hne. cbn [List.filter negb]. rewrite Hne, IH. done.
Qed.
Lemma canonical_segments_of pattern : canonical pattern -> pattern <> "/" ->
  exists segs, Split slash pattern = "" :: segs /\ Split slash (TrimPrefix pattern "/") = segs.
Proof.
  intros [[-> _]|(segs & -> & Hne & Hall & _)]%canonical_inv Hr; [done|]. exists segs. rewrite TrimPrefix_slash, Split_canonical by done.
  split; [|done]. rewrite <- (Split_canonical segs) at 2 by done. by apply (Split_app_sep slash "").
Qed.
Lemma ascii_pieces sep s : all_bytes ascii_byte s = true -> Forall (fun p => all_bytes ascii_byte p = true) (Split sep s).
Proof. apply Split_all_bytes. Qed.

Lemma template_checks_agree_segments path t pattern :
  ParseTemplate path = Ok t -> path <> "/" -> canonical (Join slash (map stand_in (Split slash path))) -> canonical pattern ->
  all_bytes ascii_byte path = true -> all_bytes ascii_byte pattern = true -> templateCovered pattern path = CoveredBy t pattern.
Proof.
  intros Ht Hroot Hcan Hpat Hpa Hqa. destruct (ParseTemplate_canonical path t Ht Hroot Hcan) as (parts & parsed & Hsplit & Hnsep & Hf & Hsegs & Hne & Hall & Hmap).
  assert (Hlen : length parts = length parsed) by (by eapply Forall2_length).
  assert (Hascii : Forall (fun s => all_bytes ascii_byte s = true) (map snd parsed)).
  { assert (Hp := ascii_pieces slash path Hpa). rewrite Hsplit in Hp. inversion Hp as [|? ? _ Hp']; subst. clear -Hf Hp'. induction Hf as [|p [t s] ps rs Hq _ IH]; [constructor|].
    inversion Hp'; subst. cbn [map snd]. constructor; [|by apply IH]. apply parse_part_facts in Hq as (<- & _). unfold stand_in. by destruct (HasPrefix p "{"). }
  unfold templateCovered, CoveredBy. rewrite Hpat, Hsegs, Hmap, Hsplit. unfold GlobMatch. rewrite Split_Join; [|done|constructor; [done|by eapply Forall_impl; [|apply cs_sep]]].
  destruct (decide (pattern = "/")) as [->|Hnr].
  - destruct parsed as [|[t0 s0] [|? ?]]; [done| |].
    + destruct parts as [|q0 [|? ?]]; [done| |done]. inversion Hall as [|? ? Hs0 _]; subst. apply canonical_seg_nonempty in Hs0.
      change (Split slash "/") with ["" ; ""]. cbn [map length placeholders_starred glob_segments snd fst Nat.eqb]. change (HasPrefix "" "{") with false. cbn [andb].
      destruct (HasPrefix q0 "{"); [done|]. cbn [andb]. unfold glob_segment at 2. destruct (String.eqb_spec "" s0); [congruence|]. done.
    + destruct parts as [|q0 [|? ?]]; done.
  - destruct (canonical_segments_of pattern Hpat Hnr) as (segs & Hq & Hq'). rewrite Hq', Hq. assert (Hpieces := ascii_pieces slash pattern Hqa). rewrite Hq in Hpieces. inversion Hpieces as [|? ? _ Hsegs']; subst.
    destruct (String.eqb_spec pattern "/") as [->|_]; [done|]. cbn [orb length]. rewrite !length_map, Hlen. cbn [Nat.eqb].
    destruct (map filled parsed) as [|f0 fs] eqn:Ef; [by destruct parsed|]. rewrite <- Ef.
    destruct (Nat.eqb (length (Split slash (TrimPrefix pattern "/"))) (length parsed)) eqn:El; cbn [andb negb]; [|done].
    rewrite <- (covered_segments _ parts parsed Hf Hall Hascii Hsegs'). done.
Qed.

(** ** The checker *)

Section Checker.
Variable ParseMediaType : string -> option (string * gmap string string).
Variable FormatMediaType : string -> gmap string string -> string.
Variable url_Parse : string -> option ParsedURL.
Variable ParseFloat : string -> option Float64.                (* json.Number.Float64 *)
Variable fmt_g : Float64 -> string.                            (* %g *)
Variable Digest : option (any -> res string string).           (* Documents.Digest, which may be nil *)
Variable text : issue -> string.                               (* fmt.Sprintf of the issue's message *)
Variables Manifests Lock Cfg Limits : list (string * any).

Definition toNumber (v : any) : option Float64 :=
  match v with AFloat f => Some f | AInt z => Some (float_of z) | ANumber s => ParseFloat s | _ => None end.
Definition numberOf (m : list (string * any)) (key : string) : option Float64 := v ← assoc key m; toNumber v.

Definition limit_values (what : string) : list (string * Float64) :=
  omap (fun e => (fun v => (e.1, v)) <$> numberOf (as_map e.2) what) (mapOf Limits "properties").
Definition defaults : list (string * Float64) := limit_values "default".
Definition maxima : list (string * Float64) := limit_values "maximum".

Definition if_bad (bad : bool) (i : issue) : list issue := if bad then [i] else [].

Fixpoint duplicates (scope what : string) (values : list string) (seen : list string) : list issue :=
  match values with
  | [] => []
  | v :: rest =>
      if String.eqb v "" then duplicates scope what rest seen
      else if_bad (existsb (String.eqb v) seen) (IDuplicate scope what v) ++ duplicates scope what rest (v :: seen)
  end.
Definition checkDuplicates (scope what : string) (items : list any) (key : string) : list issue :=
  duplicates scope what (map (fun raw => strOf (as_map raw) key) items) [].

(** *** scanValues *)

Definition timeKeys : list string := ["generatedAt"; "expiresAt"; "staleSince"; "nextRunAt"; "circuitOpenUntil"; "approvedAt"; "since"; "timestamp"; "at"].
Definition urlKeys : list string := ["url"; "link"; "homepage"].
(** The values of a map by key in sorted order, each with what was made of it. *)
Definition in_key_order {A} (m : list (string * A)) : list A := map snd (isort (fun a b => str_leb a.1 b.1) m).
Fixpoint scan (label : string) (node : any) (path key : string) : list issue :=
  match node with
  | AMap t => concat (in_key_order (map (fun e => (e.1, scan label e.2 (path +:+ "." +:+ e.1) e.1)) t))
  | AList t =>
      (fix items (i : nat) (t : list any) : list issue :=
         match t with [] => [] | v :: rest => scan label v (path +:+ "[" +:+ Itoa i +:+ "]") key ++ items (S i) rest end) 0 t
  | AString t =>
      if_bad (existsb (String.eqb key) timeKeys && match time_Parse t with None => true | Some _ => false end) (ITimestamp (label +:+ path) t)
      ++ if_bad (existsb (String.eqb key) urlKeys && negb (usable (url_Parse t))) (IURL (label +:+ path) t)
  | _ => []
  end.
Definition scanValues (label : string) (doc : list (string * any)) : list issue := scan label (AMap doc) "" "".

Fixpoint assetNodes (node : any) : list (list (string * any)) :=
  match node with
  | AMap t =>
      match assoc "asset" t with Some (AMap a) => [a] | _ => [] end ++ concat (in_key_order (map (fun e => (e.1, assetNodes e.2)) t))
  | AList t => concat (map assetNodes t)
  | _ => []
  end.

(** *** Routes *)

Definition bodyCeiling (spec : list (string * any)) : Float64 :=
  match numberOf (mapOf spec "limits") "requestBodyKB" with
  | Some v => v
  | None => default CoreDefaultBodyKB (assoc "requestBodyKB" defaults)
  end.

Definition query_text (r : list (string * any)) : string :=
  match assoc "queryKeys" r with
  | None => "nil"
  | Some raw => "[" +:+ Join "," (dedupe (sort_strings (strings_of (as_list raw)))) +:+ "]"
  end.
Definition content_text (r : list (string * any)) : string :=
  let raw := strOf r "contentType" in
  if String.eqb raw "" then "nil"
  else match NormaliseMediaType ParseMediaType FormatMediaType raw with Some n => n | None => "<invalid>" +:+ raw end.
Definition route_body (r : list (string * any)) (bodyKB : Float64) : Float64 := default bodyKB (numberOf r "maxBodyKB").
Definition routeIdentity (r : list (string * any)) (bodyKB : Float64) : string :=
  "(" +:+ strOf r "slot" +:+ " " +:+ strOf r "method" +:+ " " +:+ strOf r "path" +:+ " use=" +:+ routeUse r +:+ " query=" +:+ query_text r
  +:+ " ct=" +:+ content_text r +:+ " body=" +:+ fmt_g (route_body r bodyKB) +:+ "KB)".

Definition route_issues (oid : string) (slots : list (string * list (string * any))) (bodyKB : Float64) (r : list (string * any)) : list issue :=
  if_bad (negb (has slots (strOf r "slot"))) (IRouteSlot oid (strOf r "slot"))
  ++ if_bad (match numberOf r "maxBodyKB" with Some v => float_lt bodyKB v | None => false end) (IRouteBody oid)
  ++ let ct := strOf r "contentType" in
     if_bad (negb (String.eqb ct "") && match NormaliseMediaType ParseMediaType FormatMediaType ct with None => true | Some _ => false end) (IMediaType oid ct).
Fixpoint checkRoutes (oid : string) (slots : list (string * list (string * any))) (bodyKB : Float64) (routes : list (list (string * any))) (seen : list string) : list issue :=
  match routes with
  | [] => []
  | r :: rest =>
      let id := routeIdentity r bodyKB in
      if_bad (existsb (String.eqb id) seen) (IDuplicateRoute oid id) ++ route_issues oid slots bodyKB r ++ checkRoutes oid slots bodyKB rest (id :: seen)
  end.

(** *** Pipelines *)

Definition checkPlaceholderParam (oid path : string) (params : list (string * any)) (name : string) : list issue :=
  match assoc name (mapOf params "properties") with
  | None => [IParamUndeclared oid path name]
  | Some raw =>
      let prop := as_map raw in
      let t := strOf prop "type" in
      if_bad (negb (String.eqb t "string") && negb (String.eqb t "integer")) (IParamType oid name t)
      ++ if has prop "default" || existsb (String.eqb name) (strings_of (sliceOf params "required")) then [] else [IParamOptional oid name]
  end.

Definition data_candidates (routes : list (list (string * any))) (slot method path : string) : list (list (string * any)) :=
  List.filter (fun r => String.eqb (strOf r "slot") slot && String.eqb (strOf r "method") method && String.eqb (routeUse r) "data"
                        && templateCovered (strOf r "path") path) routes.

Definition extra_keys (sent : list string) (r : list (string * any)) : list string :=
  match assoc "queryKeys" r with
  | None => []
  | Some keys => List.filter (fun k => negb (existsb (String.eqb k) (strings_of (as_list keys)))) sent
  end.
Definition allowed_keys (r : list (string * any)) : list string := dedupe (sort_strings (strings_of (as_list (get r "queryKeys")))).
(** A body against the declared content type: nothing, a reason, or a type that does not parse. *)
Definition body_mismatch (kind : string) (r : list (string * any)) : res string (option reason) :=
  if String.eqb kind "" then Ok None
  else
    let ct := strOf r "contentType" in
    if String.eqb ct "" then Ok (Some (RNoContentType kind))
    else match NormaliseMediaType ParseMediaType FormatMediaType ct with
         | None => Err ct
         | Some n =>
             let base := (before_after n ";").1 in
             let wantJSON := String.eqb base "application/json" || HasSuffix base "+json" in
             let wantForm := String.eqb base "application/x-www-form-urlencoded" in
             Ok (if String.eqb kind "json" && negb wantJSON || String.eqb kind "form" && negb wantForm then Some (RContentType kind ct) else None)
         end.
(** The candidates in order, until one is satisfied. *)
Fixpoint try_candidates (oid : string) (sent : list string) (kind : string) (cs : list (list (string * any))) (reasons : list reason) : list issue * option (list reason) :=
  match cs with
  | [] => ([], Some reasons)
  | r :: rest =>
      match extra_keys sent r with
      | (_ :: _) as extra => try_candidates oid sent kind rest (reasons ++ [RQueryKeys extra (allowed_keys r)])
      | [] =>
          match body_mismatch kind r with
          | Err ct => let '(issues, out) := try_candidates oid sent kind rest reasons in (IMediaType oid ct :: issues, out)
          | Ok (Some why) => try_candidates oid sent kind rest (reasons ++ [why])
          | Ok None => ([], None)
          end
      end
  end.
Definition body_kind (req : list (string * any)) : string :=
  let body := mapOf req "body" in if has body "json" then "json" else if has body "form" then "form" else "".
Definition request_method (req : list (string * any)) : string := match assoc "method" req with Some (AString m) => m | _ => "GET" end.

Definition checkPipelineStep (oid : string) (params : list (string * any)) (slots : list (string * list (string * any))) (routes : list (list (string * any))) (step : list (string * any)) : list issue :=
  let req := mapOf step "request" in
  let slot := strOf req "slot" in
  if negb (has slots slot) then [IPipelineSlot oid slot]
  else match get req "path" with
       | AString path =>
           match pathPlaceholders path with
           | None => [IPathBrace oid path]
           | Some placeholders =>
               let method := request_method req in
               concat (map (checkPlaceholderParam oid path params) placeholders)
               ++ match data_candidates routes slot method path with
                  | [] => [INotCovered oid method path]
                  | candidates =>
                      let '(issues, out) := try_candidates oid (sortedKeys (mapOf req "query")) (body_kind req) candidates [] in
                      issues ++ match out with Some reasons => [IConstraints oid method path reasons] | None => [] end
                  end
           end
       | _ => [IPathExpression oid]
       end.

(** *** Manifests *)

Definition slot_table (spec : list (string * any)) : list (string * list (string * any)) :=
  foldl (fun t s => assign_key (strOf (as_map s) "name") (as_map s) t) [] (sliceOf spec "slots").

Definition asset_covered (routes : list (list (string * any))) (slot : string) : bool :=
  existsb (fun r => String.eqb (strOf r "slot") slot && String.eqb (routeUse r) "asset") routes.
Definition checkOperation (iid : string) (op : list (string * any)) (slots : list (string * list (string * any))) (caps : list string) (bodyKB : Float64) : list issue :=
  let oid := iid +:+ "/" +:+ strOf op "id" in
  let routes := map as_map (sliceOf op "routes") in
  let declared := map (fun s => strOf (as_map s) "name") (sliceOf op "signals") in
  let hasAsset := existsb (fun r => String.eqb (routeUse r) "asset") routes in
  let hasData := existsb (fun r => negb (String.eqb (routeUse r) "asset")) routes in
  checkDuplicates oid "signal declaration" (sliceOf op "signals") "name"
  ++ checkRoutes oid slots bodyKB routes []
  ++ if_bad (hasData && negb (existsb (String.eqb "http") caps)) (INoHTTP oid)
  ++ if_bad (hasAsset && negb (existsb (String.eqb "assets") caps)) (INoAssets oid)
  ++ concat (map (fun step => checkPipelineStep oid (mapOf op "params") slots routes (as_map step)) (sliceOf op "pipeline"))
  ++ concat (map (fun name => if_bad (negb (existsb (String.eqb name) declared)) (ISignal oid name)) (sortedKeys (mapOf (mapOf op "output") "signals")))
  ++ concat (map (fun node => if_bad (negb (asset_covered routes (strOf node "slot"))) (IAssetRoute oid (strOf node "slot"))) (assetNodes (get op "output"))).

Definition over_maximum (iid : string) (e : string * any) : list issue :=
  match toNumber e.2, assoc e.1 maxima with
  | Some n, Some max => if_bad (float_lt max n) (IMaximum iid e.1 n max)
  | _, _ => []
  end.
Definition checkManifest (iid : string) : list issue :=
  let man := as_map (get Manifests iid) in
  let spec := mapOf man "spec" in
  let version := strOf (mapOf man "metadata") "version" in
  scanValues ("manifest/" +:+ iid) man
  ++ if_bad (negb (ValidSemver version)) (IVersion iid version)
  ++ checkDuplicates iid "slot name" (sliceOf spec "slots") "name"
  ++ checkDuplicates iid "operation id" (sliceOf spec "operations") "id"
  ++ concat (map (over_maximum iid) (mapOf spec "limits"))
  ++ concat (map (fun op => checkOperation iid (as_map op) (slot_table spec) (strings_of (sliceOf spec "capabilities")) (bodyCeiling spec)) (sliceOf spec "operations")).
Definition checkManifests : list issue := concat (map checkManifest (sortedKeys Manifests)).

(** *** The lock *)

Definition effectiveLimit (k : string) (manLimits approved : list (string * any)) : Float64 :=
  let core := default (float_of 0) (assoc k defaults) in
  let want := float_min (default core (numberOf manLimits k)) (default core (numberOf approved k)) in
  match assoc k maxima with Some max => float_min want max | None => want end.

(** The identities of every route an operation of the manifest asks for. *)
Definition requested_routes (spec : list (string * any)) (bodyKB : Float64) : list string :=
  concat (map (fun op => map (fun r => routeIdentity (as_map r) bodyKB) (sliceOf (as_map op) "routes")) (sliceOf spec "operations")).

Definition lock_limit (iid : string) (manLimits approved : list (string * any)) (k : string) : list issue :=
  match numberOf approved k with
  | None => []
  | Some v =>
      let req := match numberOf manLimits k with Some r => r | None => default (float_of 0) (assoc k defaults) end in
      if_bad (float_lt req v) (ILockLimit iid k v req)
  end.
Definition effective_value (iid : string) (manLimits approved effMap : list (string * any)) (k : string) : list issue :=
  match numberOf effMap k with
  | None => []
  | Some v => let want := effectiveLimit k manLimits approved in if_bad (negb (float_eq v want)) (IEffectiveWrong iid k v want)
  end.
Definition if_any (keys : list string) (i : list string -> issue) : list issue := match keys with [] => [] | _ => [i keys] end.
Definition check_effective (iid : string) (manLimits approved entry : list (string * any)) : list issue :=
  match get entry "effectiveLimits" with
  | ANil => [IEffectiveMissing iid]
  | eff =>
      let effMap := as_map eff in
      if_any (List.filter (fun k => negb (has effMap k)) (sortedKeys defaults)) (IEffectiveIncomplete iid)
      ++ if_any (List.filter (fun k => negb (has defaults k)) (sortedKeys effMap)) (IEffectiveUnknown iid)
      ++ concat (map (effective_value iid manLimits approved effMap) (sortedKeys effMap))
  end.
Definition check_digest (iid : string) (man entry : list (string * any)) : list issue :=
  match Digest with
  | None => []
  | Some digest =>
      match digest (AMap man) with
      | Err e => [IDigestError iid e]
      | Ok computed => let got := strOf entry "manifestSha256" in if_bad (negb (String.eqb got computed)) (IDigest iid (truncate got 12) (truncate computed 12))
      end
  end.
Definition checkEntry (iid : string) : list issue :=
  let entry := as_map (get (mapOf Lock "integrations") iid) in
  match assoc iid Manifests with
  | None => [ILockNoManifest iid]
  | Some manRaw =>
      let man := as_map manRaw in
      let spec := mapOf man "spec" in
      let bodyKB := bodyCeiling spec in
      let requested := requested_routes spec bodyKB in
      let manCaps := strings_of (sliceOf spec "capabilities") in
      let approved := mapOf entry "limits" in
      let manLimits := mapOf spec "limits" in
      concat (map (fun r => let id := routeIdentity (as_map r) bodyKB in if_bad (negb (existsb (String.eqb id) requested)) (ILockRoute iid id)) (sliceOf entry "routes"))
      ++ concat (map (fun s => if_bad (negb (existsb (String.eqb s) manCaps)) (ILockCapability iid s)) (strings_of (sliceOf entry "capabilities")))
      ++ (let rt := strOf entry "runtime" in if_bad (negb (String.eqb rt "") && negb (String.eqb rt (strOf spec "runtime"))) (ILockRuntime iid rt (strOf spec "runtime")))
      ++ concat (map (lock_limit iid manLimits approved) (sortedKeys approved))
      ++ check_effective iid manLimits approved entry
      ++ check_digest iid man entry
  end.
Definition checkLock : list issue := scanValues "lock" Lock ++ concat (map checkEntry (sortedKeys (mapOf Lock "integrations"))).

(** *** The configuration *)

Definition checkConnection (cid : string) : list issue :=
  let conn := as_map (get (mapOf Cfg "connections") cid) in
  if negb (String.eqb (strOf conn "kind") "http") then []
  else
    let raw := strOf conn "baseUrl" in
    match url_Parse raw with
    | Some u =>
        if negb (usable (Some u)) then [IBaseURL cid raw]
        else if_bad (pu_User u || Contains (pu_Host u) "@") (IUserinfo cid)
             ++ if_bad (negb (String.eqb (pu_RawQuery u) "") || negb (String.eqb (pu_Fragment u) "")) (IBaseQuery cid)
    | None => [IBaseURL cid raw]
    end.

(** Every card of every section; the table holds the last of each id. *)
Definition cardList : list any := concat (map (fun sec => sliceOf (as_map sec) "cards") (sliceOf Cfg "sections")).
Definition card_table : list (string * list (string * any)) :=
  foldl (fun t card => assign_key (strOf (as_map card) "id") (as_map card) t) [] cardList.

Definition check_binding (cid : string) (slots : list (string * list (string * any))) (bindings : list (string * any)) (slot : string) : list issue :=
  let conn := strOf bindings slot in
  match assoc slot slots with
  | None => [ICardSlot cid slot]
  | Some sm =>
      match assoc conn (mapOf Cfg "connections") with
      | Some cm => let kind := strOf (as_map cm) "kind" in if_bad (negb (String.eqb kind (strOf sm "kind"))) (ICardKind cid slot (strOf sm "kind") conn kind)
      | None => []
      end
  end.
Definition slot_required (slots : list (string * list (string * any))) (name : string) : bool :=
  match get (default [] (assoc name slots)) "required" with ABool b => b | _ => true end.
Definition checkCard (cid : string) : list issue :=
  let card := default [] (assoc cid card_table) in
  let integration := strOf card "integration" in
  let bindings := mapOf card "slots" in
  let declared := map (fun i => strOf (as_map i) "id") (sliceOf Cfg "integrations") in
  if_bad (negb (String.eqb integration "") && negb (existsb (String.eqb integration) declared)) (ICardIntegration cid integration)
  ++ concat (map (fun slot => if_bad (negb (has (mapOf Cfg "connections") (strOf bindings slot))) (ICardConnection cid slot (strOf bindings slot))) (sortedKeys bindings))
  ++ match assoc integration Manifests with
     | None => []
     | Some manRaw =>
         let spec := mapOf (as_map manRaw) "spec" in
         let slots := slot_table spec in
         let ops := map (fun op => strOf (as_map op) "id") (sliceOf spec "operations") in
         concat (map (check_binding cid slots bindings) (sortedKeys bindings))
         ++ concat (map (fun name => if_bad (slot_required slots name && negb (has bindings name)) (ICardRequired cid name)) (sortedKeys slots))
         ++ if_bad (negb (existsb (String.eqb (strOf card "operation")) ops)) (ICardOperation cid (strOf card "operation") ops)
     end.

(** The signals the operation a card runs declares. *)
Definition declared_signals (card manifest : list (string * any)) : list string :=
  concat (map (fun op => if String.eqb (strOf (as_map op) "id") (strOf card "operation") then map (fun s => strOf (as_map s) "name") (sliceOf (as_map op) "signals") else [])
              (sliceOf (mapOf manifest "spec") "operations")).
Definition check_call (id frag : string) : list issue :=
  let sm := strictSignal frag in
  match (match sm with Some (card, _) => Some card | None => strictState frag end) with
  | None => [IRuleDynamic id (truncate frag 40)]
  | Some cardID =>
      match assoc cardID card_table with
      | None => [IRuleCard id cardID]
      | Some card =>
          match sm with
          | None => []
          | Some (_, signal) =>
              match assoc (strOf card "integration") Manifests with
              | None => [IRuleManifest id cardID (strOf card "integration")]
              | Some man =>
                  let declared := declared_signals card (as_map man) in
                  if_bad (negb (existsb (String.eqb signal) declared)) (IRuleSignal id signal cardID (strOf card "operation") declared)
              end
          end
      end
  end.
(** The calls in the code of an expression, each with the text from there to the expression's end. *)
Definition rule_calls (expr : string) : list string :=
  concat (map (fun span => map (fun at_ => drop_str (span.1 + at_) expr) (callStart (String.substring span.1 (span.2 - span.1) expr) false 0)) (CodeSpans expr)).
Definition checkRule (rule : list (string * any)) : list issue :=
  let id := strOf rule "id" in
  concat (map (check_call id) (rule_calls (strOf rule "when")))
  ++ concat (map (fun s => if_bad (negb (has (mapOf (mapOf Cfg "notifications") "channels") s)) (IRuleChannel id s)) (strings_of (sliceOf rule "notify"))).
Definition checkRules : list issue := concat (map (fun r => checkRule (as_map r)) (sliceOf Cfg "rules")).

Definition checkConfig : list issue :=
  scanValues "config" Cfg
  ++ concat (map checkConnection (sortedKeys (mapOf Cfg "connections")))
  ++ checkDuplicates "config" "integration id" (sliceOf Cfg "integrations") "id"
  ++ checkDuplicates "config" "card id" cardList "id"
  ++ checkDuplicates "config" "rule id" (sliceOf Cfg "rules") "id"
  ++ concat (map checkCard (sortedKeys card_table))
  ++ checkRules.

Definition found : list issue := checkManifests ++ checkLock ++ checkConfig.
Definition Issues : list string := sort_strings (map text found).

(** ** What a clean run means *)

Lemma if_bad_nil b i : if_bad b i = [] <-> b = false.
Proof. by destruct b. Qed.
Lemma Issues_nil : Issues = [] <-> found = [].
Proof.
  unfold Issues. split; [|by intros ->]. intros H. pose proof (sort_strings_perm (map text found)) as Hp. rewrite H in Hp.
  apply Permutation_nil in Hp. by destruct found.
Qed.
Lemma has_Some {A} (m : list (string * A)) k : has m k = true <-> is_Some (assoc k m).
Proof. unfold has. destruct (assoc k m); split; [eauto|done|done|by intros [? ?]]. Qed.
Lemma assoc_key {A} k (m : list (string * A)) v : assoc k m = Some v -> k ∈ sortedKeys m.
Proof. intros H%assoc_Some. unfold sortedKeys. rewrite sort_strings_perm. apply elem_of_map. by exists (k, v). Qed.
Lemma has_key {A} k (m : list (string * A)) : has m k = true -> k ∈ sortedKeys m.
Proof. intros [v H]%has_Some. by eapply assoc_key. Qed.
Lemma clean_each {A B} (f : A -> list B) l : concat (map f l) = [] -> forall x, x ∈ l -> f x = [].
Proof. intros H%concat_map_nil x Hx. rewrite Forall_forall in H. auto. Qed.
Lemma numberOf_key m k v : numberOf m k = Some v -> k ∈ sortedKeys m.
Proof. unfold numberOf. destruct (assoc k m) eqn:E; [|done]. intros _. by eapply assoc_key. Qed.
Lemma existsb_In (s : string) l : existsb (String.eqb s) l = true <-> s ∈ l.
Proof. rewrite existsb_elem. split; [by intros (x & Hx & ->%String.eqb_eq)|]. intros H. exists s. by rewrite String.eqb_refl. Qed.
Lemma filter_nil {A} (f : A -> bool) l : List.filter f l = [] -> forall x, x ∈ l -> f x = false.
Proof.
  intros H x Hx. destruct (f x) eqn:E; [|done]. assert (Hin : In x (List.filter f l)) by (apply filter_In; split; [by apply list_elem_of_In|done]).
  by rewrite H in Hin.
Qed.

(** An entry of the lock within what its manifest asks for. *)
Definition entry_contained (iid : string) : Prop :=
  let entry := as_map (get (mapOf Lock "integrations") iid) in
  exists manRaw, assoc iid Manifests = Some manRaw /\
    let spec := mapOf (as_map manRaw) "spec" in
    (forall r, r ∈ sliceOf entry "routes" -> routeIdentity (as_map r) (bodyCeiling spec) ∈ requested_routes spec (bodyCeiling spec))
    /\ (forall cap, cap ∈ strings_of (sliceOf entry "capabilities") -> cap ∈ strings_of (sliceOf spec "capabilities"))
    /\ (strOf entry "runtime" = "" \/ strOf entry "runtime" = strOf spec "runtime")
    /\ (forall k v, numberOf (mapOf entry "limits") k = Some v ->
          float_lt (default (default (float_of 0) (assoc k defaults)) (numberOf (mapOf spec "limits") k)) v = false)
    /\ (forall k, has (mapOf entry "effectiveLimits") k = has defaults k)
    /\ (forall k v, numberOf (mapOf entry "effectiveLimits") k = Some v -> float_eq v (effectiveLimit k (mapOf spec "limits") (mapOf entry "limits")) = true)
    /\ (forall digest, Digest = Some digest -> digest (AMap (as_map manRaw)) = Ok (strOf entry "manifestSha256")).

Lemma check_effective_clean iid manLimits approved entry : check_effective iid manLimits approved entry = [] ->
  (forall k, has (mapOf entry "effectiveLimits") k = has defaults k)
  /\ (forall k v, numberOf (mapOf entry "effectiveLimits") k = Some v -> float_eq v (effectiveLimit k manLimits approved) = true).
Proof.
  unfold check_effective, mapOf at 1 2. set (eff := get entry "effectiveLimits"). intros H.
  assert (H' : if_any (List.filter (fun k => negb (has (as_map eff) k)) (sortedKeys defaults)) (IEffectiveIncomplete iid)
      ++ if_any (List.filter (fun k => negb (has defaults k)) (sortedKeys (as_map eff))) (IEffectiveUnknown iid)
      ++ concat (map (effective_value iid manLimits approved (as_map eff)) (sortedKeys (as_map eff))) = []) by (by destruct eff).
  clear H. apply app_nil_iff in H' as [H1 H']. apply app_nil_iff in H' as [H2 H3].
  assert (F1 : List.filter (fun k => negb (has (as_map eff) k)) (sortedKeys defaults) = []) by (by destruct (List.filter _ (sortedKeys defaults))).
  assert (F2 : List.filter (fun k => negb (has defaults k)) (sortedKeys (as_map eff)) = []) by (by destruct (List.filter _ (sortedKeys (as_map eff)))).
  split.
  - intros k. destruct (has (as_map eff) k) eqn:He, (has defaults k) eqn:Hd; try done.
    + apply has_key in He. apply (filter_nil _ _ F2) in He. by rewrite Hd in He.
    + apply has_key in Hd. apply (filter_nil _ _ F1) in Hd. by rewrite He in Hd.
  - intros k v Hv. pose proof (clean_each _ _ H3 k (numberOf_key _ _ _ Hv)) as Hk. unfold effective_value in Hk. rewrite Hv in Hk.
    apply if_bad_nil, negb_false_iff in Hk. done.
Qed.

Lemma checkEntry_clean iid : checkEntry iid = [] -> entry_contained iid.
Proof.
  unfold checkEntry, entry_contained. set (entry := as_map _). destruct (assoc iid Manifests) as [manRaw|]; [|done]. cbv zeta. intros H. exists manRaw. split; [done|].
  apply app_nil_iff in H as [Hr H]. apply app_nil_iff in H as [Hc H]. apply app_nil_iff in H as [Hrt H]. apply app_nil_iff in H as [Hl H]. apply app_nil_iff in H as [He Hd].
  apply check_effective_clean in He as [He1 He2]. split; [|split; [|split; [|split; [|split; [done|split; [done|]]]]]].
  - intros r Hin. apply (clean_each _ _ Hr) in Hin. apply if_bad_nil, negb_false_iff in Hin. by apply existsb_In.
  - intros cap Hin. apply (clean_each _ _ Hc) in Hin. apply if_bad_nil, negb_false_iff in Hin. by apply existsb_In.
  - apply if_bad_nil in Hrt. destruct (String.eqb_spec (strOf entry "runtime") ""); [by left|]. right. cbn [negb andb] in Hrt. apply negb_false_iff in Hrt. by apply String.eqb_eq.
  - intros k v Hv. pose proof (clean_each _ _ Hl k (numberOf_key _ _ _ Hv)) as Hk. unfold lock_limit in Hk. rewrite Hv in Hk. apply if_bad_nil in Hk.
    by destruct (numberOf (mapOf (mapOf (as_map manRaw) "spec") "limits") k).
  - intros digest Hdig. unfold check_digest in Hd. rewrite Hdig in Hd. destruct (digest _) as [c|e]; [|done].
    apply if_bad_nil, negb_false_iff, String.eqb_eq in Hd. by rewrite Hd.
Qed.

(** Ids that are not empty are not used twice. *)
Lemma duplicates_clean scope what values seen : duplicates scope what values seen = [] ->
  NoDup (List.filter (fun v => negb (String.eqb v "")) values) /\ forall v, v ∈ values -> v <> "" -> v ∉ seen.
Proof.
  revert seen. induction values as [|v values IH]; intros seen; [split; [constructor|set_solver]|]. cbn [duplicates List.filter].
  destruct (String.eqb_spec v "") as [->|Hne]; cbn [negb].
  - intros [H1 H2]%IH. split; [done|]. intros x [->|Hx]%elem_of_cons Hn; [done|by apply H2].
  - intros [H1 H2]%app_nil_iff. apply if_bad_nil in H1. apply IH in H2 as [H2 H3]. split.
    + constructor; [|done]. intros Hin%list_elem_of_In%filter_In. destruct Hin as [Hin%list_elem_of_In _]. apply (H3 v Hin Hne). by left.
    + intros x [->|Hx]%elem_of_cons Hn; [|intros Hs; apply (H3 x Hx Hn); by right]. intros Hs%existsb_In. congruence.
Qed.
Definition ids_distinct (items : list any) : Prop := NoDup (List.filter (fun v => negb (String.eqb v "")) (map (fun raw => strOf (as_map raw) "id") items)).

(** A card whose integration, slots, connections and operation exist. *)
Definition card_closed (card : list (string * any)) : Prop :=
  (strOf card "integration" <> "" -> strOf card "integration" ∈ map (fun i => strOf (as_map i) "id") (sliceOf Cfg "integrations"))
  /\ (forall slot, has (mapOf card "slots") slot = true -> has (mapOf Cfg "connections") (strOf (mapOf card "slots") slot) = true)
  /\ forall manRaw, assoc (strOf card "integration") Manifests = Some manRaw ->
       let slots := slot_table (mapOf (as_map manRaw) "spec") in
       (forall slot, has (mapOf card "slots") slot = true -> exists sm, assoc slot slots = Some sm
          /\ strOf (as_map (get (mapOf Cfg "connections") (strOf (mapOf card "slots") slot))) "kind" = strOf sm "kind")
       /\ (forall slot, has slots slot = true -> slot_required slots slot = true -> has (mapOf card "slots") slot = true)
       /\ strOf card "operation" ∈ map (fun op => strOf (as_map op) "id") (sliceOf (mapOf (as_map manRaw) "spec") "operations").
Lemma checkCard_clean cid card : assoc cid card_table = Some card -> checkCard cid = [] -> card_closed card.
Proof.
  intros Hcard. unfold checkCard. rewrite Hcard. change (default [] (Some card)) with card. cbv zeta. intros [Hi H]%app_nil_iff. apply app_nil_iff in H as [Hc H].
  assert (Hconn : forall slot, has (mapOf card "slots") slot = true -> has (mapOf Cfg "connections") (strOf (mapOf card "slots") slot) = true).
  { intros slot Hs%has_key. apply (clean_each _ _ Hc) in Hs. by apply if_bad_nil, negb_false_iff in Hs. }
  split; [|split; [done|]].
  - intros Hne%String.eqb_neq. apply if_bad_nil in Hi.
    rewrite Hne in Hi. cbn [negb andb] in Hi. by apply negb_false_iff, existsb_In in Hi.
  - intros manRaw Hm. rewrite Hm in H. apply app_nil_iff in H as [Hb H]. apply app_nil_iff in H as [Hr Ho]. split; [|split].
    + intros slot Hs. specialize (Hconn slot Hs). apply has_key in Hs. apply (clean_each _ _ Hb) in Hs. unfold check_binding in Hs.
      destruct (assoc slot _) as [sm|]; [|done]. exists sm. split; [done|]. apply has_Some in Hconn as [cm Hcm]. unfold get. rewrite Hcm in Hs |- *.
      apply if_bad_nil, negb_false_iff, String.eqb_eq in Hs. done.
    + intros slot Hs Hreq. apply has_key in Hs. apply (clean_each _ _ Hr) in Hs. apply if_bad_nil in Hs. rewrite Hreq in Hs. by apply negb_false_iff in Hs.
    + by apply if_bad_nil, negb_false_iff, existsb_In in Ho.
Qed.

(** A call in a rule: of a card there is, and of a signal its operation declares. *)
Definition call_closed (frag : string) : Prop :=
  (exists card signal c man, strictSignal frag = Some (card, signal) /\ assoc card card_table = Some c
     /\ assoc (strOf c "integration") Manifests = Some man /\ signal ∈ declared_signals c (as_map man))
  \/ exists card, strictState frag = Some card /\ has card_table card = true.
Definition rule_closed (rule : list (string * any)) : Prop :=
  (forall frag, frag ∈ rule_calls (strOf rule "when") -> call_closed frag)
  /\ forall ch, ch ∈ strings_of (sliceOf rule "notify") -> has (mapOf (mapOf Cfg "notifications") "channels") ch = true.
Lemma checkRule_clean rule : checkRule rule = [] -> rule_closed rule.
Proof.
  unfold checkRule. intros [Hc Hn]%app_nil_iff. split.
  - intros frag Hf. apply (clean_each _ _ Hc) in Hf. unfold check_call in Hf. unfold call_closed. destruct (strictSignal frag) as [[card signal]|].
    + left. exists card, signal. destruct (assoc card card_table) as [c|]; [|done]. exists c. destruct (assoc _ Manifests) as [man|]; [|done]. exists man.
      apply if_bad_nil, negb_false_iff, existsb_In in Hf. done.
    + right. destruct (strictState frag) as [card|]; [|done]. exists card. split; [done|]. unfold has. by destruct (assoc card card_table).
  - intros ch Hch. apply (clean_each _ _ Hn) in Hch. by apply if_bad_nil, negb_false_iff in Hch.
Qed.

Definition config_closed : Prop :=
  ids_distinct (sliceOf Cfg "integrations") /\ ids_distinct cardList /\ ids_distinct (sliceOf Cfg "rules")
  /\ (forall cid card, assoc cid card_table = Some card -> card_closed card)
  /\ forall r, r ∈ sliceOf Cfg "rules" -> rule_closed (as_map r).
Lemma checkConfig_clean : checkConfig = [] -> config_closed.
Proof.
  unfold checkConfig. intros [_ H]%app_nil_iff. apply app_nil_iff in H as [_ H]. apply app_nil_iff in H as [Hi H]. apply app_nil_iff in H as [Hc H].
  apply app_nil_iff in H as [Hr H]. apply app_nil_iff in H as [Hcards Hrules]. apply duplicates_clean in Hi as [Hi _], Hc as [Hc _], Hr as [Hr _].
  split; [exact Hi|]. split; [exact Hc|]. split; [exact Hr|]. split.
  - intros cid card Hcard. eapply checkCard_clean; [exact Hcard|]. apply (clean_each _ _ Hcards). by eapply assoc_key.
  - intros r Hin. apply checkRule_clean. by apply (clean_each _ _ Hrules r).
Qed.

(** A pipeline request: a literal path whose placeholders are parameters that are always there, to a declared slot, and a
    declared data route that admits its method, path, query and body. *)
Definition param_always (params : list (string * any)) (name : string) : Prop :=
  exists prop, assoc name (mapOf params "properties") = Some prop /\ strOf (as_map prop) "type" ∈ ["string"; "integer"]
    /\ (has (as_map prop) "default" = true \/ name ∈ strings_of (sliceOf params "required")).
Definition request_covered (params : list (string * any)) (slots : list (string * list (string * any))) (routes : list (list (string * any))) (req : list (string * any)) : Prop :=
  has slots (strOf req "slot") = true
  /\ exists path names r, get req "path" = AString path /\ pathPlaceholders path = Some names /\ (forall n, n ∈ names -> param_always params n)
       /\ r ∈ routes /\ strOf r "slot" = strOf req "slot" /\ strOf r "method" = request_method req /\ routeUse r = "data"
       /\ templateCovered (strOf r "path") path = true /\ extra_keys (sortedKeys (mapOf req "query")) r = [] /\ body_mismatch (body_kind req) r = Ok None.

Lemma try_candidates_clean oid sent kind cs reasons : (try_candidates oid sent kind cs reasons).2 = None -> exists r, r ∈ cs /\ extra_keys sent r = [] /\ body_mismatch kind r = Ok None.
Proof.
  revert reasons. induction cs as [|r cs IH]; intros reasons; [done|]. cbn [try_candidates]. destruct (extra_keys sent r) as [|k ks] eqn:Ek.
  - destruct (body_mismatch kind r) as [o|ct] eqn:Eb; [destruct o as [why|]|].
    + intros (r' & Hin & H)%IH. exists r'. split; [by right|done].
    + intros _. exists r. split; [by left|done].
    + specialize (IH reasons). destruct (try_candidates _ _ _ cs reasons) as [iss out]. intros (r' & Hin & H)%IH. exists r'. split; [by right|done].
  - intros (r' & Hin & H)%IH. exists r'. split; [by right|done].
Qed.
Lemma checkPlaceholderParam_clean oid path params name : checkPlaceholderParam oid path params name = [] -> param_always params name.
Proof.
  unfold checkPlaceholderParam, param_always. destruct (assoc name _) as [prop|]; [|done]. intros [Ht Hd]%app_nil_iff. exists prop. split; [done|]. split.
  - apply if_bad_nil in Ht. destruct (String.eqb_spec (strOf (as_map prop) "type") "string") as [->|]; [by left|]. cbn [negb andb] in Ht. apply negb_false_iff, String.eqb_eq in Ht. rewrite Ht. by right; left.
  - destruct (has (as_map prop) "default"); [by left|]. right. cbn [orb] in Hd. destruct (existsb _ _) eqn:E; [|done]. by apply existsb_In in E.
Qed.
Lemma checkPipelineStep_clean oid params slots routes step : checkPipelineStep oid params slots routes step = [] -> request_covered params slots routes (mapOf step "request").
Proof.
  unfold checkPipelineStep, request_covered. set (req := mapOf step "request"). cbv zeta. destruct (has slots (strOf req "slot")); [|done]. cbn [negb]. intros H. split; [done|].
  destruct (get req "path") as [| |path| | | | | | |] eqn:Hp; try done. destruct (pathPlaceholders path) as [names|] eqn:Hn; [|done].
  apply app_nil_iff in H as [Hnames H]. exists path, names. destruct (data_candidates routes _ _ path) as [|c cs] eqn:Hc; [done|].
  assert (Htry : (try_candidates oid (sortedKeys (mapOf req "query")) (body_kind req) (c :: cs) []).2 = None).
  { destruct (try_candidates _ _ _ _ _) as [iss out]. apply app_nil_iff in H as [_ H]. by destruct out. }
  apply try_candidates_clean in Htry as (r & Hin & Hx & Hb). exists r. rewrite <- Hc in Hin. unfold data_candidates in Hin.
  apply list_elem_of_In, filter_In in Hin as [Hin%list_elem_of_In Hf]. rewrite !andb_true_iff, !String.eqb_eq in Hf. destruct Hf as [[[Hs Hm] Hu] Ht].
  repeat split; try done. intros n Hname. apply (clean_each _ _ Hnames) in Hname. by eapply checkPlaceholderParam_clean.
Qed.

Lemma checkManifests_clean iid man op step :
  checkManifests = [] -> assoc iid Manifests = Some man -> op ∈ sliceOf (mapOf (as_map man) "spec") "operations" -> step ∈ sliceOf (as_map op) "pipeline" ->
  request_covered (mapOf (as_map op) "params") (slot_table (mapOf (as_map man) "spec")) (map as_map (sliceOf (as_map op) "routes")) (mapOf (as_map step) "request").
Proof.
  intros H Hm Hop Hstep. apply assoc_key in Hm as Hkey. apply (clean_each _ _ H) in Hkey. unfold checkManifest, get in Hkey. rewrite Hm in Hkey. cbv zeta in Hkey.
  change (default ANil (Some man)) with man in Hkey. repeat (apply app_nil_iff in Hkey as [_ Hkey]). apply (clean_each _ _ Hkey) in Hop. unfold checkOperation in Hop. cbv zeta in Hop.
  do 4 apply app_nil_iff in Hop as [_ Hop]. apply app_nil_iff in Hop as [Hp _]. apply (clean_each _ _ Hp) in Hstep. by eapply checkPipelineStep_clean.
Qed.
Lemma found_clean : found = [] -> checkManifests = [] /\ (forall iid, has (mapOf Lock "integrations") iid = true -> checkEntry iid = []) /\ checkConfig = [].
Proof.
  unfold found, checkLock. intros [Hm H]%app_nil_iff. apply app_nil_iff in H as [Hl Hc]. apply app_nil_iff in Hl as [_ Hl]. split; [done|]. split; [|done].
  intros iid Hi%has_key. by apply (clean_each _ _ Hl).
Qed.

(** When the checker finds nothing: every entry of the lock approves only routes, capabilities and limits its manifest asks for, records
    exactly the effective limits and the manifest's digest; ids are used once and what cards and rules refer to exists and fits; and every
    pipeline request is admitted by a data route its operation declares, with placeholders that are always given. *)
Theorem clean_documents_consistent (Hclean : Issues = []) :
  (forall iid, has (mapOf Lock "integrations") iid = true -> entry_contained iid)
  /\ config_closed
  /\ forall iid man op step, assoc iid Manifests = Some man -> op ∈ sliceOf (mapOf (as_map man) "spec") "operations" -> step ∈ sliceOf (as_map op) "pipeline" ->
       request_covered (mapOf (as_map op) "params") (slot_table (mapOf (as_map man) "spec")) (map as_map (sliceOf (as_map op) "routes")) (mapOf (as_map step) "request").
Proof.
  apply Issues_nil, found_clean in Hclean as (Hm & Hl & Hc). split; [|split].
  - intros iid Hi. apply checkEntry_clean. by apply Hl.
  - by apply checkConfig_clean.
  - intros iid man op step. by apply checkManifests_clean.
Qed.
End Checker.

(** C37. The contract check and the server's own agree on which route a templated path is covered by, and on its placeholders, for every
    template that parses, other than the root, and every pattern, both canonical and ASCII. *)
Theorem template_checks_agree (path pattern : string) (t : RoutePath.Template) (Hparse : ParseTemplate path = Ok t) (Hroot : path <> "/")
  (Hpath : canonical (Join slash (map stand_in (Split slash path)))) (Hpattern : canonical pattern)
  (Hascii : all_bytes ascii_byte path = true /\ all_bytes ascii_byte pattern = true) :
  templateCovered pattern path = CoveredBy t pattern /\ pathPlaceholders path = Some (Placeholders t).
Proof.
  destruct Hascii as [Ha Hb]. split; [by apply template_checks_agree_segments|].
  destruct (ParseTemplate_canonical path t Hparse Hroot Hpath) as (parts & parsed & Hsplit & _ & Hf & Hsegs & _).
  unfold pathPlaceholders, Placeholders. rewrite Hsplit, Hsegs. cbn [placeholders_in]. change (has_brace "") with false. cbn [negb]. by apply placeholders_parsed.
Qed.

Example template_checks_agree_witness :
  templateCovered "/api/*/items/*" "/api/v1/items/{id}" = true
  /\ exists t, ParseTemplate "/api/v1/items/{id}" = Ok t
      /\ templateCovered "/api/*/items/*" "/api/v1/items/{id}" = CoveredBy t "/api/*/items/*" /\ pathPlaceholders "/api/v1/items/{id}" = Some (Placeholders t).
Proof.
  split; [vm_compute; reflexivity|]. destruct (ParseTemplate "/api/v1/items/{id}") as [t|e] eqn:E; [|vm_compute in E; discriminate E].
  exists t. split; [reflexivity|]. apply (template_checks_agree "/api/v1/items/{id}" "/api/*/items/*" t E).
  - discriminate.
  - vm_compute. reflexivity.
  - vm_compute. reflexivity.
  - split; vm_compute; reflexivity.
Defined.
(** Of the root the contract check is the more generous one. *)
Example root_disagreement : templateCovered "/*" "/" = true /\ (let! t := ParseTemplate "/" in Ok (CoveredBy t "/*")) = Ok false.
Proof. vm_compute. split; reflexivity. Qed.

(** ** Versions *)

(** A version of SemVer 2.0.0: three numbers, perhaps a pre-release, perhaps a build. *)
Definition dotted (mark : string) (ids : option (list string)) : string := match ids with Some l => mark +:+ Join "." l | None => "" end.
Definition semver (v : string) (nums : list string) (pre build : option (list string)) : Prop :=
  v = Join "." nums +:+ dotted "-" pre +:+ dotted "+" build
  /\ length nums = 3 /\ Forall (fun n => numericIdent n = true) nums
  /\ (forall l, pre = Some l -> l <> [] /\ Forall (fun id => pre_ident id = true) l)
  /\ (forall l, build = Some l -> l <> [] /\ Forall (fun id => build_ident id = true) l).

Lemma no_sep_ident c s : all_bytes ident_byte s = true -> ident_byte c = false -> no_sep c s.
Proof.
  intros Hs Hc. unfold no_sep. eapply all_bytes_impl; [|exact Hs]. intros d Hd. destruct (Ascii.eqb_spec d c) as [->|]; [congruence|done].
Qed.
Lemma digits_no_sep c s : all_bytes isDigit s = true -> isDigit c = false -> no_sep c s.
Proof.
  intros Hs Hc. unfold no_sep. eapply all_bytes_impl; [|exact Hs]. intros d Hd. destruct (Ascii.eqb_spec d c) as [->|]; [congruence|done].
Qed.
Lemma Join_no_sep c sep l : sep <> c -> Forall (no_sep c) l -> no_sep c (Join sep l).
Proof. intros Hne Hl. unfold no_sep. apply Join_all_bytes; [|done]. by destruct (Ascii.eqb_spec sep c). Qed.
Lemma Cut_none s c : no_sep c s <-> Cut s c = None.
Proof.
  unfold no_sep. induction s as [|d s IH]; [done|]. cbn [all_bytes Cut]. destruct (Ascii.eqb d c); cbn [negb andb]; [split; done|]. rewrite IH.
  destruct (Cut s c) as [[a b]|]; split; done.
Qed.
Lemma Cut_some s c a b : Cut s c = Some (a, b) -> s = a +:+ String c b /\ no_sep c a.
Proof.
  revert a. induction s as [|d s IH]; intros a; [done|]. cbn [Cut]. destruct (Ascii.eqb_spec d c) as [->|Hne]; [by intros [= <- <-]|].
  destruct (Cut s c) as [[x y]|]; [|done]. intros [= <- <-]. destruct (IH x eq_refl) as [-> Hx]. split; [done|]. unfold no_sep. cbn [all_bytes].
  destruct (Ascii.eqb_spec d c); done.
Qed.
Lemma Contains_char c s : Contains s (String c "") = false <-> no_sep c s.
Proof.
  rewrite Cut_none. destruct (Cut s c) as [[a b]|] eqn:E.
  - apply Cut_some in E as [-> _]. split; [|done]. assert (H : Contains (a +:+ String c b) (String c "") = true) by (apply Contains_true; by exists a, b). congruence.
  - split; [done|]. intros _. apply not_true_is_false. intros (a & b & ->)%Contains_true. revert E. induction a as [|d a IH].
    + change ("" +:+ String c "" +:+ b) with (String c b). cbn [Cut]. by rewrite Ascii.eqb_refl.
    + rewrite app_cons_str. cbn [Cut]. destruct (Ascii.eqb d c); [done|]. destruct (Cut _ c) as [[? ?]|]; [done|]. by intros _; apply IH.
Qed.

Lemma numericIdent_digits n : numericIdent n = true -> all_bytes isDigit n = true.
Proof. unfold numericIdent, isAllDigits. destruct (_ || _); [done|]. by intros [? _]%andb_true_iff. Qed.
Lemma pre_ident_bytes n : pre_ident n = true -> all_bytes ident_byte n = true /\ n <> "".
Proof. unfold pre_ident, alphanumericIdent. rewrite !andb_true_iff, negb_true_iff, String.eqb_neq. tauto. Qed.
Lemma build_ident_bytes n : build_ident n = true -> all_bytes ident_byte n = true /\ n <> "".
Proof. unfold build_ident, alphanumericIdent. rewrite !andb_true_iff, negb_true_iff, String.eqb_neq. tauto. Qed.
Lemma Join_nonempty_parts l : l <> [] -> Forall (fun s => s <> "") l -> Join "." l <> "".
Proof. intros Hne Hl. destruct Hl as [|s l Hs _]; [done|]. destruct l; [done|]. rewrite Join_cons by done. by destruct s. Qed.
Lemma splitNonEmpty_Join l : l <> [] -> Forall (fun s => all_bytes ident_byte s = true /\ s <> "") l -> splitNonEmpty (Join "." l) = l /\ Join "." l <> "".
Proof.
  intros Hne Hl. assert (Hj : Join "." l <> "") by (apply Join_nonempty_parts; [done|]; eapply Forall_impl; [exact Hl|]; by intros s [_ H]).
  unfold splitNonEmpty. destruct (String.eqb_spec (Join "." l) "") as [|_]; [done|]. split; [|done]. apply Split_Join; [done|]. eapply Forall_impl; [exact Hl|]. intros s [Hs _]. by apply no_sep_ident.
Qed.
Lemma forallb_Forall_true {A} (f : A -> bool) l : forallb f l = true <-> Forall (fun x => f x = true) l.
Proof. rewrite forallb_forall, Forall_forall. by setoid_rewrite list_elem_of_In. Qed.

Lemma digit_ident s : all_bytes isDigit s = true -> all_bytes ident_byte s = true.
Proof. apply all_bytes_impl. intros c Hc. unfold ident_byte. by rewrite Hc. Qed.

(** The text of a version, taken apart again. *)
Lemma semver_cuts v nums pre build : semver v nums pre build ->
  before_after v "+" = (Join "." nums +:+ dotted "-" pre, match build with Some l => Join "." l | None => "" end)
  /\ before_after (Join "." nums +:+ dotted "-" pre) "-" = (Join "." nums, match pre with Some l => Join "." l | None => "" end)
  /\ Split "." (Join "." nums) = nums.
Proof.
  intros (-> & Hlen & Hn & Hp & Hb).
  assert (Hd : Forall (fun n => all_bytes isDigit n = true) nums) by (eapply Forall_impl; [exact Hn|]; intros; by apply numericIdent_digits).
  assert (Hsep : forall c, isDigit c = false -> Ascii.eqb "." c = false -> no_sep c (Join "." nums)).
  { intros c Hc Hdot. apply Join_no_sep; [by apply Ascii.eqb_neq|]. eapply Forall_impl; [exact Hd|]. intros n Hdn. by apply digits_no_sep. }
  assert (Hpre : no_sep "+" (dotted "-" pre)).
  { destruct pre as [l|]; [|done]. destruct (Hp l eq_refl) as [_ Hl]. cbn [dotted]. unfold no_sep. rewrite all_bytes_app. cbn [all_bytes Ascii.eqb negb andb].
    change (all_bytes _ "-") with true. apply (Join_no_sep "+" "."); [done|]. eapply Forall_impl; [exact Hl|]. intros x [Hx _]%pre_ident_bytes. by apply no_sep_ident. }
  split; [|split].
  - rewrite <- app_assoc_str. unfold before_after. assert (Hcore : no_sep "+" (Join "." nums +:+ dotted "-" pre)).
    { unfold no_sep. rewrite all_bytes_app. apply andb_true_iff. split; [by apply Hsep|done]. }
    destruct build as [l|]; cbn [dotted].
    + change ("+" +:+ Join "." l) with (String "+" (Join "." l)). by rewrite Cut_first.
    + rewrite app_nil_str. by rewrite (proj1 (Cut_none _ _) Hcore).
  - unfold before_after. destruct pre as [l|]; cbn [dotted].
    + change ("-" +:+ Join "." l) with (String "-" (Join "." l)). rewrite Cut_first; [done|by apply Hsep].
    + rewrite app_nil_str. rewrite (proj1 (Cut_none _ _)); [done|by apply Hsep].
  - apply Split_Join; [by intros ->|]. eapply Forall_impl; [exact Hd|]. intros n Hdn. by apply digits_no_sep.
Qed.

(** ValidSemver accepts exactly the versions of SemVer 2.0.0, but for those with a dash in the build and no pre-release. *)
Theorem valid_semver_exact (v : string) :
  ValidSemver v = true <-> exists nums pre build, semver v nums pre build /\ (pre = None -> Contains v "-" = false).
Proof.
  split.
  - unfold ValidSemver. destruct (before_after v "+") as [core0 build] eqn:Eb. destruct (before_after core0 "-") as [core pre] eqn:Ep. cbv zeta.
    rewrite !andb_true_iff, !forallb_Forall_true, !negb_true_iff. intros [[[[[Hlen%Nat.eqb_eq Hn] Hd] Hpre] Hp] Hbuild].
    assert (Hcore0 : core0 = core +:+ dotted "-" (if String.eqb pre "" then None else Some (Split "." pre)) /\ (pre = "" -> Contains v "-" = false)).
    { destruct (String.eqb_spec pre "") as [->|Hne]; cbn [dotted].
      - rewrite andb_true_r in Hd. split; [|done]. rewrite app_nil_str. unfold before_after in Ep. destruct (Cut core0 "-") as [[x y]|] eqn:E; [|by injection Ep].
        injection Ep as <- ->. apply Cut_some in E as [-> _]. exfalso. unfold before_after in Eb.
        assert (Hc : exists t, v = (x +:+ "-") +:+ t). { destruct (Cut v "+") as [[a b]|] eqn:E; [|injection Eb as -> <-; by exists ""; rewrite app_nil_str].
          apply Cut_some in E as [-> _]. injection Eb as -> _. eauto. }
        destruct Hc as [t ->]. assert (Contains ((x +:+ "-") +:+ t) "-" = true); [|congruence]. apply Contains_true. exists x, t. by rewrite app_assoc_str.
      - rewrite Join_Split. split; [|done]. unfold before_after in Ep. destruct (Cut core0 "-") as [[x y]|] eqn:E; [|by injection Ep as _ <-].
        injection Ep as <- <-. by apply Cut_some in E as [-> _]. }
    destruct Hcore0 as [-> Hdash].
    assert (Hv : v = (core +:+ dotted "-" (if String.eqb pre "" then None else Some (Split "." pre))) +:+ dotted "+" (if String.eqb build "" then None else Some (Split "." build))).
    { unfold before_after in Eb. destruct (Cut v "+") as [[x y]|] eqn:E.
      - injection Eb as -> ->. apply Cut_some in E as [-> _]. destruct (String.eqb_spec build "") as [->|]; [|cbn [dotted]; by rewrite Join_Split].
        exfalso. rewrite andb_true_r in Hp. assert (Contains ((core +:+ dotted "-" (if String.eqb pre "" then None else Some (Split "." pre))) +:+ "+") "+" = true); [|congruence].
        apply Contains_true. eexists _, "". by rewrite app_nil_str.
      - injection Eb as -> <-. cbn [String.eqb dotted]. by rewrite app_nil_str. }
    exists (Split "." core), (if String.eqb pre "" then None else Some (Split "." pre)), (if String.eqb build "" then None else Some (Split "." build)). split.
    + split; [rewrite Join_Split, <- app_assoc_str; exact Hv|]. split; [done|]. split; [done|]. unfold splitNonEmpty in *.
      split; intros l; [destruct (String.eqb pre "")|destruct (String.eqb build "")]; try done; intros [= <-]; (split; [apply Split_nonempty|done]).
    + destruct (String.eqb_spec pre ""); [auto|done].
  - intros (nums & pre & build & Hs & Hdash). assert (Hs' := Hs). apply semver_cuts in Hs' as (E1 & E2 & E3). unfold ValidSemver. rewrite E1, E2. cbv zeta. rewrite E3.
    destruct Hs as (Hv & Hlen & Hn & Hp & Hb). rewrite Hlen, (proj2 (forallb_Forall_true _ _) Hn). cbn [Nat.eqb andb].
    assert (Hpre : negb (Contains v "-" && String.eqb (match pre with Some l => Join "." l | None => "" end) "") && forallb pre_ident (splitNonEmpty (match pre with Some l => Join "." l | None => "" end)) = true).
    { destruct pre as [l|]; [|by rewrite Hdash]. destruct (Hp l eq_refl) as [Hne Hl]. destruct (splitNonEmpty_Join l Hne) as [-> Hj]; [eapply Forall_impl; [exact Hl|]; intros; by apply pre_ident_bytes|].
      apply String.eqb_neq in Hj as ->. rewrite andb_false_r. cbn [negb andb]. by apply forallb_Forall_true. }
    rewrite Hpre. cbn [andb]. destruct build as [l|].
    + destruct (Hb l eq_refl) as [Hne Hl]. destruct (splitNonEmpty_Join l Hne) as [-> Hj]; [eapply Forall_impl; [exact Hl|]; intros; by apply build_ident_bytes|].
      apply String.eqb_neq in Hj as ->. rewrite andb_false_r. cbn [negb andb]. by apply forallb_Forall_true.
    + rewrite Hv. cbn [dotted]. rewrite app_nil_str. assert (Hno : Contains (Join "." nums +:+ dotted "-" pre) "+" = false).
      { apply (Contains_char "+"). apply Cut_none. unfold before_after in E1. rewrite Hv in E1. cbn [dotted] in E1. rewrite app_nil_str in E1.
        destruct (Cut _ "+") as [[x y]|] eqn:E; [|done]. apply Cut_some in E as [E _]. injection E1 as -> ->. apply (f_equal String.length) in E. rewrite (length_app_str _ (String "+" "")) in E. cbn [String.length] in E. lia. }
      rewrite Hno. done.
Qed.
Example build_with_a_dash : ValidSemver "1.0.0+a-b" = false /\ semver "1.0.0+a-b" ["1"; "0"; "0"] None (Some ["a-b"]).
Proof.
  split; [vm_compute; reflexivity|]. unfold semver. split; [done|]. split; [done|]. split; [by repeat constructor|]. split; [done|].
  intros l [= <-]. split; [done|by repeat constructor].
Qed.

(** ** Code spans *)

Lemma literal_end_le fuel expr q i : i <= literal_end fuel expr q i.
Proof.
  revert i. induction fuel as [|f IH]; intros i; [cbn; lia|]. cbn [literal_end]. destruct (String.get i expr) as [c|]; [|lia].
  destruct (Ascii.eqb c q); [lia|]. destruct (Ascii.eqb c "\"); [specialize (IH (S (S i)))|specialize (IH (S i))]; lia.
Qed.
Lemma get_some i s c : String.get i s = Some c -> i < String.length s.
Proof. revert i. induction s as [|d s IH]; intros [|i]; cbn; [done..|lia|]. intros H%IH. lia. Qed.
Lemma get_none i s : String.get i s = None -> String.length s <= i.
Proof. revert i. induction s as [|d s IH]; intros [|i]; cbn; [lia..|done|]. intros H%IH. lia. Qed.

Definition plain_between (expr : string) (a b : nat) : Prop := forall i, a <= i < b -> exists c, String.get i expr = Some c /\ quote_byte c = false.
Lemma spans_from_plain fuel expr start i :
  String.length expr <= i + fuel -> start <= i -> plain_between expr start i ->
  forall a b, (a, b) ∈ spans_from fuel expr start i -> a < b -> b <= String.length expr -> start <= a /\ plain_between expr a b.
Proof.
  revert start i. induction fuel as [|f IH]; intros start i Hlen Hle Hplain a b.
  - cbn [spans_from]. intros [= -> ->]%list_elem_of_singleton Hlt _. split; [done|]. intros j Hj. apply Hplain. lia.
  - cbn [spans_from]. destruct (String.get i expr) as [c|] eqn:Eg.
    + destruct (quote_byte c) eqn:Eq.
      * intros [[= -> ->]|Hin]%elem_of_cons Hlt Hb; [done|]. assert (Hle' := literal_end_le (String.length expr) expr c (S i)).
        set (n := literal_end (String.length expr) expr c (S i)) in *. assert (Hl : String.length expr <= S n + f) by lia.
        assert (Hp : plain_between expr (S n) (S n)) by (intros j Hj; lia).
        destruct (IH (S n) (S n) Hl (Nat.le_refl _) Hp a b Hin Hlt Hb) as [? ?]. split; [lia|done].
      * intros Hin. apply (IH start (S i)); [lia|lia| |done]. intros j Hj. destruct (decide (j = i)) as [->|]; [by exists c|]. apply Hplain. lia.
    + apply get_none in Eg. intros [= -> ->]%list_elem_of_singleton Hlt _. split; [done|]. intros j Hj. apply Hplain. lia.
Qed.
(** What [CodeSpans] calls code is within the expression and holds no quote, so a call found there is not inside a string. *)
Theorem code_spans_plain (expr : string) (a b : nat) : (a, b) ∈ CodeSpans expr -> a < b <= String.length expr /\ plain_between expr a b.
Proof.
  unfold CodeSpans. intros [Hin%list_elem_of_In Hf]%list_elem_of_In%filter_In. cbn [fst snd] in Hf. apply andb_true_iff in Hf as [H1%Nat.ltb_lt H2%Nat.leb_le].
  split; [lia|]. assert (Hp : plain_between expr 0 0) by (intros j Hj; lia). by apply (spans_from_plain (String.length expr) expr 0 0 ltac:(lia) ltac:(lia) Hp a b).
Qed.

(** ** A clean set of documents *)

Definition obj (m : list (string * any)) : any := AMap m.
Definition str (s : string) : any := AString s.
Definition demo_url (s : string) : option ParsedURL :=
  match strip_prefix "http://" s with
  | Some h => Some {| pu_Scheme := "http"; pu_Host := h; pu_Hostname := h; pu_Port := ""; pu_User := false; pu_RawQuery := ""; pu_Fragment := "" |}
  | None => None
  end.
Definition demo_limits : list (string * any) := [("properties", obj [("requestBodyKB", obj [("default", AInt 64); ("maximum", AInt 256)])])].
Definition demo_route : any := obj [("slot", str "server"); ("method", str "GET"); ("path", str "/api/items/*")].
Definition demo_manifest : any :=
  obj [("metadata", obj [("version", str "1.2.0-rc.1")]);
       ("spec", obj [("slots", AList [obj [("name", str "server"); ("kind", str "http")]]); ("capabilities", AList [str "http"]); ("runtime", str "declarative");
          ("operations", AList [obj [("id", str "overview"); ("routes", AList [demo_route]); ("signals", AList [obj [("name", str "count")]]);
             ("params", obj [("properties", obj [("item", obj [("type", str "string")])]); ("required", AList [str "item"])]);
             ("pipeline", AList [obj [("request", obj [("slot", str "server"); ("path", str "/api/items/{item}")])]])]])])].
Definition demo_lock : list (string * any) :=
  [("integrations", obj [("demo", obj [("routes", AList [demo_route]); ("capabilities", AList [str "http"]); ("runtime", str "declarative");
     ("limits", obj [("requestBodyKB", AInt 32)]); ("effectiveLimits", obj [("requestBodyKB", AInt 32)]); ("manifestSha256", str "d")])])].
Definition demo_config : list (string * any) :=
  [("connections", obj [("nas", obj [("kind", str "http"); ("baseUrl", str "http://nas")])]); ("integrations", AList [obj [("id", str "demo")]]);
   ("sections", AList [obj [("cards", AList [obj [("id", str "c"); ("integration", str "demo"); ("operation", str "overview"); ("slots", obj [("server", str "nas")])]])]]);
   ("notifications", obj [("channels", obj [("phone", obj [])])]);
   ("rules", AList [obj [("id", str "r"); ("when", AString ("signal(" +:+ String "034" "c" +:+ String "034" "," +:+ String "034" "count" +:+ String "034" ") > 3")); ("notify", AList [str "phone"])]])].
Definition demo_issues : list string :=
  Issues (fun v => Some (v, ∅)) (fun t _ => t) demo_url (fun _ => None) (fun _ => "64") (Some (fun _ => Ok "d")) (fun _ => "") [("demo", demo_manifest)] demo_lock demo_config demo_limits.
Example demo_clean : demo_issues = [].
Proof. vm_compute. reflexivity. Qed.
Example demo_rule_found : rule_calls (strOf (as_map (default ANil (head (sliceOf demo_config "rules")))) "when") <> [].
Proof. vm_compute. discriminate. Qed.

Example clean_documents_consistent_witness :
  demo_issues = [] /\ ids_distinct (cardList demo_config).
Proof.
  split; [vm_compute; reflexivity|].
  apply (clean_documents_consistent (fun v => Some (v, ∅)) (fun t _ => t) demo_url (fun _ => None) (fun _ => "64") (Some (fun _ => Ok "d")) (fun _ => "")
    [("demo", demo_manifest)] demo_lock demo_config demo_limits). vm_compute. reflexivity.
Defined.
(** The identity's text does not tell one query key with a comma from two keys, nor the media type [nil] from none. *)
Example identity_collisions :
  let identity r := routeIdentity (fun v => Some (v, ∅)) (fun t _ => t) (fun _ => None) (fun _ => "64") r (float_of 64) in
  identity [("queryKeys", AList [AString "a,b"])] = identity [("queryKeys", AList [AString "a"; AString "b"])]
  /\ identity [("contentType", AString "nil")] = identity [].
Proof. vm_compute. split; reflexivity. Qed.
