(* ===== verification/State.v ===== *)
(** * internal/state: the card-state envelope and its history

    What the API returns for a card: the integration's document, the core-owned execution facts and
    the retained history. [cardstate.go] has one constructor per legal state and [Validate], which
    re-checks them; [history.go] reduces retained samples to at most 288 points. The current time
    is an argument of whatever reads the clock. Instants are far enough from the ends of time that
    their difference is a [Duration]. *)
From S2P Require Import Prelude GoSort GoTime Widgets.
From Stdlib Require Import Sorting.Sorted.
From stdpp Require Import sorting.

(** ** cardstate.go *)

Definition StatePending : string := "pending".
Definition StateOK : string := "ok".
Definition StateStale : string := "stale".
Definition StateError : string := "error".
Definition StateDisabled : string := "disabled".

Definition ReasonUnapproved : string := "unapproved".
Definition ReasonPermissionsChanged : string := "permissions-changed".
Definition ReasonIntegrationMissing : string := "integration-missing".
Definition ReasonConfigError : string := "config-error".
Definition ReasonOperator : string := "operator".

Definition ErrorUpstream : string := "upstream".
Definition ErrorAuth : string := "auth".
Definition ErrorTimeout : string := "timeout".
Definition ErrorConfig : string := "config".
Definition ErrorDenied : string := "denied".
Definition ErrorInvalid : string := "invalid".
Definition ErrorLimit : string := "limit".
Definition ErrorInternal : string := "internal".

Definition RuntimeBuiltin : string := "builtin".
Definition RuntimeDeclarative : string := "declarative".
Definition RuntimeWASM : string := "wasm".

Record Source := {
  src_Integration : string; src_IntegrationVersion : string; src_Runtime : string; src_Operation : string;
  src_Slots : gmap string string }.

Record RunError := { re_Code : string; re_Message : string; re_Retryable : bool; re_At : string }.

Record Execution := {
  ex_State : string; ex_GeneratedAt : string; ex_TTLSeconds : Z; ex_ExpiresAt : string; ex_StaleSince : string;
  ex_DurationMs : Z; ex_ConsecutiveFailures : Z; ex_NextRunAt : string; ex_Source : option Source;
  ex_Error : option RunError; ex_DisabledReason : string; ex_CircuitOpenUntil : string }.

Record CardState := {
  cs_CardID : string; cs_Document : option Document; cs_Execution : Execution;
  cs_History : gmap string (list SeriesPoint) }.

(** The zero execution in a state. *)
Definition execution (state : string) : Execution :=
  {| ex_State := state; ex_GeneratedAt := ""; ex_TTLSeconds := 0; ex_ExpiresAt := ""; ex_StaleSince := "";
     ex_DurationMs := 0; ex_ConsecutiveFailures := 0; ex_NextRunAt := ""; ex_Source := None; ex_Error := None;
     ex_DisabledReason := ""; ex_CircuitOpenUntil := "" |}.

(** [int(d.Seconds())]: the seconds pass through a float64. *)
Definition seconds_of (d : Duration) : Z :=
  float_trunc (float_add (float_of (Z.quot d second)) (float_div (float_of (Z.rem d second)) (float_of 1000000000))).

Definition nextRunAtOrEmpty (t : Time) : string := if isZero t then "" else Format_RFC3339Nano t.

Definition Pending (cardID : string) : CardState :=
  {| cs_CardID := cardID; cs_Document := None; cs_Execution := execution StatePending; cs_History := ∅ |}.

Definition OK (now : Time) (cardID : string) (doc : Document) (src : Source) (ttl duration : Duration) : CardState :=
  {| cs_CardID := cardID; cs_Document := Some doc; cs_History := ∅;
     cs_Execution := {| ex_State := StateOK; ex_GeneratedAt := Format_RFC3339Nano now; ex_TTLSeconds := seconds_of ttl;
       ex_ExpiresAt := Format_RFC3339Nano (now + ttl); ex_StaleSince := ""; ex_DurationMs := Z.quot duration millisecond;
       ex_ConsecutiveFailures := 0; ex_NextRunAt := ""; ex_Source := Some src; ex_Error := None;
       ex_DisabledReason := ""; ex_CircuitOpenUntil := "" |} |}.

Definition Stale (cardID : string) (doc : Document) (src : Source) (generatedAt staleSince : Time)
  (consecutiveFailures : Z) (nextRunAt : Time) : CardState :=
  {| cs_CardID := cardID; cs_Document := Some doc; cs_History := ∅;
     cs_Execution := {| ex_State := StateStale; ex_GeneratedAt := Format_RFC3339Nano generatedAt; ex_TTLSeconds := 0;
       ex_ExpiresAt := ""; ex_StaleSince := Format_RFC3339Nano staleSince; ex_DurationMs := 0;
       ex_ConsecutiveFailures := consecutiveFailures; ex_NextRunAt := nextRunAtOrEmpty nextRunAt; ex_Source := Some src;
       ex_Error := None; ex_DisabledReason := ""; ex_CircuitOpenUntil := "" |} |}.

(** The assignments the derived constructors make. *)
Definition set_execution (cs : CardState) (e : Execution) : CardState :=
  {| cs_CardID := cs_CardID cs; cs_Document := cs_Document cs; cs_Execution := e; cs_History := cs_History cs |}.

Definition set_circuit (e : Execution) (until : string) : Execution :=
  {| ex_State := ex_State e; ex_GeneratedAt := ex_GeneratedAt e; ex_TTLSeconds := ex_TTLSeconds e;
     ex_ExpiresAt := ex_ExpiresAt e; ex_StaleSince := ex_StaleSince e; ex_DurationMs := ex_DurationMs e;
     ex_ConsecutiveFailures := ex_ConsecutiveFailures e; ex_NextRunAt := ex_NextRunAt e; ex_Source := ex_Source e;
     ex_Error := ex_Error e; ex_DisabledReason := ex_DisabledReason e; ex_CircuitOpenUntil := until |}.

Definition set_error (e : Execution) (err : RunError) : Execution :=
  {| ex_State := ex_State e; ex_GeneratedAt := ex_GeneratedAt e; ex_TTLSeconds := ex_TTLSeconds e;
     ex_ExpiresAt := ex_ExpiresAt e; ex_StaleSince := ex_StaleSince e; ex_DurationMs := ex_DurationMs e;
     ex_ConsecutiveFailures := ex_ConsecutiveFailures e; ex_NextRunAt := ex_NextRunAt e; ex_Source := ex_Source e;
     ex_Error := Some err; ex_DisabledReason := ex_DisabledReason e; ex_CircuitOpenUntil := ex_CircuitOpenUntil e |}.

Definition set_retry (e : Execution) (failures : Z) (nextRunAt : string) : Execution :=
  {| ex_State := ex_State e; ex_GeneratedAt := ex_GeneratedAt e; ex_TTLSeconds := ex_TTLSeconds e;
     ex_ExpiresAt := ex_ExpiresAt e; ex_StaleSince := ex_StaleSince e; ex_DurationMs := ex_DurationMs e;
     ex_ConsecutiveFailures := failures; ex_NextRunAt := nextRunAt; ex_Source := ex_Source e;
     ex_Error := ex_Error e; ex_DisabledReason := ex_DisabledReason e; ex_CircuitOpenUntil := ex_CircuitOpenUntil e |}.

(** An error without a time of its own gets the current one. *)
Definition stamp (now : Time) (err : RunError) : RunError :=
  if String.eqb (re_At err) ""
  then {| re_Code := re_Code err; re_Message := re_Message err; re_Retryable := re_Retryable err; re_At := Format_RFC3339Nano now |}
  else err.

Definition StaleWithOpenCircuit (cardID : string) (doc : Document) (src : Source) (generatedAt staleSince : Time)
  (consecutiveFailures : Z) (circuitOpenUntil : Time) : CardState :=
  let cs := Stale cardID doc src generatedAt staleSince consecutiveFailures circuitOpenUntil in
  set_execution cs (set_circuit (cs_Execution cs) (Format_RFC3339Nano circuitOpenUntil)).

Definition StaleAfterError (now : Time) (cardID : string) (doc : Document) (src : Source) (generatedAt staleSince : Time)
  (consecutiveFailures : Z) (nextRunAt : Time) (runErr : RunError) : CardState :=
  let cs := Stale cardID doc src generatedAt staleSince consecutiveFailures nextRunAt in
  set_execution cs (set_error (cs_Execution cs) (stamp now runErr)).

Definition StaleAfterErrorWithOpenCircuit (now : Time) (cardID : string) (doc : Document) (src : Source)
  (generatedAt staleSince : Time) (consecutiveFailures : Z) (circuitOpenUntil : Time) (runErr : RunError) : CardState :=
  let cs := StaleAfterError now cardID doc src generatedAt staleSince consecutiveFailures circuitOpenUntil runErr in
  set_execution cs (set_circuit (cs_Execution cs) (Format_RFC3339Nano circuitOpenUntil)).

(** [Error] *)
Definition ErrorState (now : Time) (cardID : string) (src : Source) (err : RunError) : CardState :=
  {| cs_CardID := cardID; cs_Document := None; cs_History := ∅;
     cs_Execution := {| ex_State := StateError; ex_GeneratedAt := ""; ex_TTLSeconds := 0; ex_ExpiresAt := "";
       ex_StaleSince := ""; ex_DurationMs := 0; ex_ConsecutiveFailures := 0; ex_NextRunAt := ""; ex_Source := Some src;
       ex_Error := Some (stamp now err); ex_DisabledReason := ""; ex_CircuitOpenUntil := "" |} |}.

Definition ErrorWithOpenCircuit (now : Time) (cardID : string) (src : Source) (err : RunError) (circuitOpenUntil : Time) : CardState :=
  let cs := ErrorState now cardID src err in
  let e := cs_Execution cs in
  set_execution cs (set_circuit (set_retry e (ex_ConsecutiveFailures e) (Format_RFC3339Nano circuitOpenUntil))
                      (Format_RFC3339Nano circuitOpenUntil)).

Definition Disabled (cardID : string) (doc : option Document) (reason : string) : CardState :=
  {| cs_CardID := cardID; cs_Document := doc; cs_History := ∅;
     cs_Execution := {| ex_State := StateDisabled; ex_GeneratedAt := ""; ex_TTLSeconds := 0; ex_ExpiresAt := "";
       ex_StaleSince := ""; ex_DurationMs := 0; ex_ConsecutiveFailures := 0; ex_NextRunAt := ""; ex_Source := None;
       ex_Error := None; ex_DisabledReason := reason; ex_CircuitOpenUntil := "" |} |}.

(** ** history.go *)

Definition MaxHistoryPoints : nat := 288.
Definition maxHistorySignals : nat := 16.
Definition gapFactor : Z := 3.

(** [validateHistory]: [None] is a nil error. *)
Definition validateHistory (h : gmap string (list SeriesPoint)) : option string :=
  if Nat.ltb maxHistorySignals (map_size h) then Some "history: signals"
  else if existsb (fun p => Nat.ltb MaxHistoryPoints (length p.2)) (map_to_list h) then Some "history: points"
  else None.

(** [CardState.Validate] *)
Definition Validate (c : CardState) : option string :=
  let e := cs_Execution c in
  let no_doc := negb (bool_decide (is_Some (cs_Document c))) in
  let no_err := negb (bool_decide (is_Some (ex_Error e))) in
  let blank s := String.eqb s "" in
  let by_state :=
    if String.eqb (ex_State e) StatePending then
      if negb no_doc then Some "pending document"
      else if negb (blank (ex_GeneratedAt e)) || negb (blank (ex_ExpiresAt e)) || negb (blank (ex_StaleSince e))
              || negb no_err || negb (blank (ex_CircuitOpenUntil e)) then Some "pending fields"
      else None
    else if String.eqb (ex_State e) StateOK then
      if no_doc then Some "ok document"
      else if blank (ex_GeneratedAt e) || (ex_TTLSeconds e =? 0)%Z || blank (ex_ExpiresAt e) then Some "ok required"
      else if negb no_err || negb (blank (ex_StaleSince e)) || negb (blank (ex_DisabledReason e))
              || negb (blank (ex_CircuitOpenUntil e)) then Some "ok absent"
      else None
    else if String.eqb (ex_State e) StateStale then
      if no_doc then Some "stale document"
      else if blank (ex_GeneratedAt e) || blank (ex_StaleSince e) then Some "stale required"
      else if negb (blank (ex_DisabledReason e)) then Some "stale absent"
      else None
    else if String.eqb (ex_State e) StateError then
      if negb no_doc then Some "error document"
      else if no_err then Some "error required"
      else if negb (blank (ex_DisabledReason e)) then Some "error absent"
      else None
    else if String.eqb (ex_State e) StateDisabled then
      if blank (ex_DisabledReason e) then Some "disabled required"
      else if negb (blank (ex_NextRunAt e)) || negb (blank (ex_CircuitOpenUntil e)) then Some "disabled absent"
      else None
    else Some "unknown state" in
  match by_state with
  | Some err => Some err
  | None => if negb (blank (ex_CircuitOpenUntil e)) && blank (ex_NextRunAt e) then Some "circuit without next run"
            else validateHistory (cs_History c)
  end.

Record Sample := { sm_T : Time; sm_V : Float64 }.

(** [medianSpacing]: the spacings in order, and the upper of the middle two. *)
Fixpoint spacings (prev : Time) (l : list Sample) : list Duration :=
  match l with [] => [] | s :: rest => (sm_T s - prev)%Z :: spacings (sm_T s) rest end.

Definition medianSpacing (l : list Sample) : Duration :=
  match l with
  | s :: ((_ :: _ :: _) as rest) => let d := isort Z.leb (spacings (sm_T s) rest) in nth (Nat.div (length d) 2) d 0%Z
  | _ => 0%Z
  end.

(** Of samples at one instant the last written stays: [prev] is the one pending. *)
Fixpoint dedup_instants (prev : Sample) (l : list Sample) : list Sample :=
  match l with
  | [] => [prev]
  | s :: rest => if Z.eqb (sm_T prev) (sm_T s) then dedup_instants s rest else prev :: dedup_instants s rest
  end.

Definition dedup (l : list Sample) : list Sample :=
  match l with [] => [] | s :: rest => dedup_instants s rest end.

(** What [flush] appends. *)
Definition flush (last : Time) (sum : Float64) (n : Z) : list Sample :=
  if (0 <? n)%Z then [{| sm_T := last; sm_V := float_div sum (float_of n) |}] else [].

(** The loop over the samples: the open bucket, its last instant, its sum and its count. *)
Fixpoint buckets (from : Time) (width : Duration) (bucket : Z) (last : Time) (sum : Float64) (n : Z) (l : list Sample)
  : list Sample :=
  match l with
  | [] => flush last sum n
  | s :: rest =>
      let b := Z.quot (sm_T s - from) width in
      if (b =? bucket)%Z then buckets from width bucket (sm_T s) (float_add sum (sm_V s)) (n + 1) rest
      else flush last sum n ++ buckets from width b (sm_T s) (float_add (float_of 0) (sm_V s)) 1 rest
  end.

Definition reduce (from to : Time) (l : list Sample) : list Sample :=
  let budget := Nat.div MaxHistoryPoints 2 in
  if Nat.ltb budget (length l) then
    let width := Z.quot (to - from) (Z.of_nat budget) in
    let width := if (width <=? 0)%Z then 1%Z else width in
    buckets from width (-1) 0 (float_of 0) 0 l
  else l.

(** The loop that builds the points, [n] of them so far; a gap is a point without a value. *)
Fixpoint place (gap : Duration) (prev : option Time) (n : nat) (l : list Sample) : list (Time * option Float64) :=
  match l with
  | [] => []
  | s :: rest =>
      let mid := match prev with
                 | Some p => if ((0 <? gap) && (gap <? sm_T s - p))%Z && Nat.ltb n (MaxHistoryPoints - 1)
                             then [((p + Z.quot (sm_T s - p) 2)%Z, None)] else []
                 | None => []
                 end in
      let n := n + length mid in
      if Nat.eqb n MaxHistoryPoints then mid
      else mid ++ (sm_T s, Some (sm_V s)) :: place gap (Some (sm_T s)) (S n) rest
  end.

Section Downsample.
Variable sortSlice : list Sample -> list Sample.   (* sort.Slice by T, which is not stable *)

(** The points as instants. *)
Definition downsample_points (samples : list Sample) (from to : Time) : list (Time * option Float64) :=
  let l := filter (fun s => (from <= sm_T s <= to)%Z) samples in
  let l := reduce from to (dedup (sortSlice l)) in
  place (medianSpacing l * gapFactor) None 0 l.

Definition Downsample (samples : list Sample) (from to : Time) : list SeriesPoint :=
  map (fun p => {| sp_T := Format_RFC3339Nano p.1; sp_V := p.2 |}) (downsample_points samples from to).
End Downsample.

(** ** Lemmas on timestamps and constructors *)

Lemma Format_nonempty t : Format_RFC3339Nano t <> "".
Proof.
  unfold Format_RFC3339Nano. intros E. apply (f_equal String.length) in E. revert E. rewrite !length_app_str. simpl. lia.
Qed.

(** ** Lemmas on samples *)

Local Abbreviation instants l := (map sm_T l).
Local Abbreviation increasing l := (StronglySorted Z.lt (map sm_T l)).

Lemma dedup_instants_spec prev l :
  StronglySorted Z.le (instants (prev :: l)) ->
  increasing (dedup_instants prev l)
  /\ (forall s, s ∈ dedup_instants prev l -> s ∈ prev :: l)
  /\ (forall t, t ∈ instants (prev :: l) -> t ∈ instants (dedup_instants prev l)).
Proof.
  revert prev. induction l as [|s l IH]; intros prev Hs; simpl.
  - split_and!; [repeat constructor|done|done].
  - inversion Hs as [|? ? Hs' Hall]; subst. destruct (IH s Hs') as (H1 & H2 & H3).
    destruct (Z.eqb_spec (sm_T prev) (sm_T s)) as [E|E].
    + split_and!; [done| |].
      * intros x Hx. apply elem_of_cons. right. by apply H2.
      * intros t [->|Ht]%elem_of_cons; [rewrite E; apply H3; left|by apply H3].
    + split_and!.
      * simpl. constructor; [done|]. apply Forall_forall. intros t Ht. apply elem_of_map in Ht as (x & -> & Hx).
        rewrite Forall_forall in Hall. assert (Hps : (sm_T prev <= sm_T s)%Z) by (apply Hall; left).
        inversion Hs' as [|? ? _ Hall']; subst. rewrite Forall_forall in Hall'.
        apply H2, elem_of_cons in Hx as [->|Hx]; [lia|].
        assert (Hle : (sm_T s <= sm_T x)%Z) by (apply Hall', elem_of_map; by exists x). lia.
      * intros x [->|Hx]%elem_of_cons; [left|right; by apply H2].
      * intros t [->|Ht]%elem_of_cons; [simpl; left|simpl; right; by apply H3].
Qed.

Lemma dedup_spec l :
  StronglySorted Z.le (instants l) ->
  increasing (dedup l) /\ (forall s, s ∈ dedup l -> s ∈ l) /\ (forall t, t ∈ instants l -> t ∈ instants (dedup l)).
Proof.
  destruct l as [|s l]; simpl; intros H; [split_and!; [constructor|done|done]|]. by apply dedup_instants_spec.
Qed.

(** The buckets keep increasing instants of the input, from the open bucket's last one on. *)
Lemma buckets_spec from width bucket last sum n l :
  increasing l -> (forall s, s ∈ l -> 0 < n -> last < sm_T s)%Z ->
  increasing (buckets from width bucket last sum n l)
  /\ (forall t, t ∈ instants (buckets from width bucket last sum n l) -> (t = last /\ 0 < n)%Z \/ t ∈ instants l).
Proof.
  revert bucket last sum n. induction l as [|s l IH]; intros bucket last sum n Hl Hn; cbn [buckets].
  - unfold flush. destruct (Z.ltb_spec 0 n); simpl; (split; [repeat constructor|]); intros t Ht;
      [apply list_elem_of_singleton in Ht; auto|by apply elem_of_nil in Ht].
  - inversion Hl as [|? ? Hl' Hall]; subst. rewrite Forall_forall in Hall.
    assert (Hnext : forall x : Sample, x ∈ l -> (sm_T s < sm_T x)%Z) by (intros x Hx; apply Hall, elem_of_map; by exists x).
    destruct (Z.eqb_spec (Z.quot (sm_T s - from) width) bucket) as [E|E].
    + destruct (IH bucket (sm_T s) (float_add sum (sm_V s)) (n + 1)%Z Hl') as [H1 H2]; [intros x Hx _; by apply Hnext|].
      split; [done|]. intros t Ht. apply H2 in Ht as [[-> _]|Ht]; right; simpl; [left|by right].
    + destruct (IH (Z.quot (sm_T s - from) width) (sm_T s) (float_add (float_of 0) (sm_V s)) 1%Z Hl') as [H1 H2];
        [intros x Hx _; by apply Hnext|].
      assert (Ht : forall t, t ∈ instants (buckets from width (Z.quot (sm_T s - from) width) (sm_T s) (float_add (float_of 0) (sm_V s)) 1 l) ->
                   t ∈ instants (s :: l)).
      { intros t Ht. apply H2 in Ht as [[-> _]|Ht]; [left|by right]. }
      unfold flush. destruct (Z.ltb_spec 0 n) as [Hpos|Hpos]; simpl.
      * split.
        -- constructor; [done|]. apply Forall_forall. intros t Hin. apply Ht, elem_of_map in Hin as (x & -> & Hx). by apply Hn.
        -- intros t [->|Hin]%elem_of_cons; [left; done|right; by apply Ht].
      * split; [done|]. intros t Hin. right. by apply Ht.
Qed.

Lemma reduce_spec from to l :
  increasing l -> increasing (reduce from to l) /\ (forall t, t ∈ instants (reduce from to l) -> t ∈ instants l)
  /\ (length l <= 144 -> reduce from to l = l).
Proof.
  intros Hl. unfold reduce. change (Nat.div MaxHistoryPoints 2) with 144. destruct (Nat.ltb_spec 144 (length l)).
  - destruct (buckets_spec from (if (Z.quot (to - from) (Z.of_nat 144) <=? 0)%Z then 1%Z else Z.quot (to - from) (Z.of_nat 144))
                (-1) 0 (float_of 0) 0 l Hl) as [H1 H2]; [lia|].
    split_and!; [done| |lia]. intros t Ht. apply H2 in Ht as [[_ ?]|?]; [lia|done].
  - by split_and!.
Qed.

(** The points placed: bounded, increasing, and exactly the samples where they fit. *)
Lemma place_spec gap prev n l :
  (gap <= 0 \/ 3 <= gap)%Z -> n <= MaxHistoryPoints -> increasing l -> (forall p s, prev = Some p -> s ∈ l -> p < sm_T s)%Z ->
  n + length (place gap prev n l) <= MaxHistoryPoints
  /\ StronglySorted Z.lt (map fst (place gap prev n l))
  /\ (forall t v, (t, v) ∈ place gap prev n l -> (forall p, prev = Some p -> p < t)%Z
        /\ (exists s, s ∈ l /\ (t <= sm_T s)%Z) /\ (forall s, prev = None -> head l = Some s -> (sm_T s <= t)%Z)
        /\ match v with Some x => exists s, s ∈ l /\ t = sm_T s /\ x = sm_V s | None => True end)
  /\ (n + 2 * length l <= MaxHistoryPoints -> forall s, s ∈ l -> (sm_T s, Some (sm_V s)) ∈ place gap prev n l).
Proof.
  intros Hg. revert prev n. induction l as [|s l IH]; intros prev n Hn Hl Hp; cbn [place].
  { split_and!; [simpl; lia|constructor|intros ? ? H; by apply elem_of_nil in H|intros _ ? H; by apply elem_of_nil in H]. }
  inversion Hl as [|? ? Hl' Hall]; subst. rewrite Forall_forall in Hall.
  assert (Hnext : forall x : Sample, x ∈ l -> (sm_T s < sm_T x)%Z) by (intros x Hx; apply Hall, elem_of_map; by exists x).
  set (mid := match prev with Some p => _ | None => [] end).
  assert (Hmid : (mid = [] \/ exists m p, mid = [(m, None)] /\ prev = Some p /\ p < m < sm_T s)%Z
                 /\ n + length mid <= MaxHistoryPoints).
  { unfold mid. destruct prev as [p|]; [|split; [by left|simpl; lia]].
    destruct (Z.ltb_spec 0 gap); cbn [andb]; [|split; [by left|simpl; lia]].
    destruct (Z.ltb_spec gap (sm_T s - p)); cbn [andb]; [|split; [by left|simpl; lia]].
    destruct (Nat.ltb_spec n (MaxHistoryPoints - 1)); [|split; [by left|simpl; lia]].
    split; [|simpl; lia]. right. exists (p + Z.quot (sm_T s - p) 2)%Z, p. split_and!; [done|done| |].
    - assert (Hq := Z.quot_div_nonneg (sm_T s - p) 2). rewrite Hq by lia. assert (H2 := Z.div_le_lower_bound (sm_T s - p) 2 1). lia.
    - rewrite Z.quot_div_nonneg by lia. assert (H2 := Z.div_lt_upper_bound (sm_T s - p) 2 (sm_T s - p)). lia. }
  destruct Hmid as [Hmid Hlen]. clearbody mid.
  assert (Hms : forall t v, (t, v) ∈ mid -> v = None /\ (t < sm_T s)%Z /\ (forall p, prev = Some p -> p < t)%Z /\ prev <> None).
  { intros t v Hin. destruct Hmid as [->|(m & p & -> & -> & Hm)]; [by apply elem_of_nil in Hin|].
    apply list_elem_of_singleton in Hin as [= -> ->]. split_and!; [done|lia|intros ? [= ->]; lia|done]. }
  assert (Hmsort : StronglySorted Z.lt (map fst mid)) by (destruct Hmid as [->|(m & p & -> & _)]; repeat constructor).
  destruct (Nat.eqb_spec (n + length mid) MaxHistoryPoints) as [E|E].
  - split_and!; [lia|done| |].
    + intros t v Hin. destruct (Hms t v Hin) as (-> & Hlt & Hpp & Hnn).
      split_and!; [done|exists s; split; [left|lia]|intros ? ->; done|done].
    + intros Hfit. exfalso. simpl in Hfit. destruct Hmid as [->|(m & p & -> & _)]; simpl in E; lia.
  - destruct (IH (Some (sm_T s)) (S (n + length mid))) as (I1 & I2 & I3 & I4);
      [lia|done|intros p x [= <-] Hx; by apply Hnext|].
    split_and!.
    + rewrite length_app. simpl. lia.
    + rewrite map_app. simpl. apply StronglySorted_app_2; [|done|constructor; [done|]].
      * intros t t' Ht Ht'. apply elem_of_map in Ht as ([u v] & -> & Hin). destruct (Hms _ _ Hin) as (_ & Hlt & _). simpl in *.
        apply elem_of_cons in Ht' as [->|Ht']; [done|]. apply elem_of_map in Ht' as ([u' v'] & -> & Hin').
        assert (H := proj1 (I3 _ _ Hin') _ eq_refl). simpl in *. lia.
      * apply Forall_forall. intros t Ht. apply elem_of_map in Ht as ([t' v] & -> & Hin). simpl.
        by apply (proj1 (I3 _ _ Hin)).
    + intros t v [Hin|[[= -> ->]|Hin]%elem_of_cons]%elem_of_app.
      * destruct (Hms t v Hin) as (-> & Hlt & Hpp & Hnn).
        split_and!; [done|exists s; split; [left|lia]|intros ? ->; done|done].
      * split_and!; [intros p ->; apply (Hp p s eq_refl); left|exists s; split; [left|lia]|intros x _ [= ->]; lia|].
        exists s. split_and!; [left|done|done].
      * destruct (I3 t v Hin) as (J1 & (x & Jx & Jle) & _ & J4). specialize (J1 _ eq_refl).
        split_and!; [intros p ->; specialize (Hp p s eq_refl ltac:(left)); lia|exists x; split; [by right|done]|intros y _ [= ->]; lia|].
        destruct v as [v|]; [|done]. destruct J4 as (y & Hy & -> & ->). exists y. split_and!; [by right|done|done].
    + intros Hfit x [->|Hx]%elem_of_cons; apply elem_of_app; right; [left|right].
      apply I4; [|done]. simpl in Hfit. destruct Hmid as [->|(m & p & -> & _)]; simpl; lia.
Qed.

Lemma spacings_pos prev l d : StronglySorted Z.lt (prev :: instants l) -> d ∈ spacings prev l -> (0 < d)%Z.
Proof.
  revert prev. induction l as [|s l IH]; intros prev Hs Hd; simpl in Hd; [by apply elem_of_nil in Hd|].
  inversion Hs as [|? ? Hs' Hall]; subst. apply Forall_cons in Hall as [Hlt _].
  apply elem_of_cons in Hd as [->|Hd]; [lia|]. by apply (IH (sm_T s)).
Qed.

Lemma gap_range l : increasing l -> (medianSpacing l * gapFactor <= 0 \/ 3 <= medianSpacing l * gapFactor)%Z.
Proof.
  intros Hl. unfold medianSpacing, gapFactor. destruct l as [|s [|s1 [|s2 rest]]]; [left; lia..|].
  set (sp := spacings (sm_T s) (s1 :: s2 :: rest)). right.
  assert (Hin : nth (Nat.div (length (isort Z.leb sp)) 2) (isort Z.leb sp) 0%Z ∈ isort Z.leb sp).
  { apply list_elem_of_In, nth_In. assert (Hlen : length (isort Z.leb sp) = S (S (length rest))).
    { rewrite isort_perm. unfold sp; simpl. f_equal. f_equal. clear. generalize (sm_T s2) as p.
      induction rest as [|x rest IH]; intros p; simpl; [done|]. by rewrite IH. }
    rewrite Hlen. apply Nat.div_lt; lia. }
  rewrite isort_perm in Hin at 3. apply (spacings_pos (sm_T s)) in Hin; [lia|exact Hl].
Qed.

Lemma dedup_length l : length (dedup l) <= length l.
Proof.
  destruct l as [|s l]; simpl; [done|]. revert s. induction l as [|x l IH]; intros s; simpl; [lia|].
  specialize (IH x). destruct (Z.eqb (sm_T s) (sm_T x)); simpl; lia.
Qed.

(** ** The properties *)

(** Every constructor of a card state yields a legal combination of state and fields: nothing
    the core builds is refused by [Validate], a run shorter than a second, a zero probe time and an
    empty reason aside. *)
Theorem constructors_valid now id doc src gen since n next until ttl dur err od reason :
  seconds_of ttl <> 0%Z -> until <> 0%Z -> reason <> "" ->
  Forall (fun c => Validate c = None)
    [Pending id; OK now id doc src ttl dur; Stale id doc src gen since n next;
     StaleWithOpenCircuit id doc src gen since n until; StaleAfterError now id doc src gen since n next err;
     StaleAfterErrorWithOpenCircuit now id doc src gen since n until err; ErrorState now id src err;
     ErrorWithOpenCircuit now id src err until; Disabled id od reason].
Proof.
  intros Ht%Z.eqb_neq Hu%Z.eqb_neq Hr%String.eqb_neq.
  assert (Hf : forall t, String.eqb (Format_RFC3339Nano t) "" = false) by (intros t; apply String.eqb_neq, Format_nonempty).
  assert (Hn : nextRunAtOrEmpty until = Format_RFC3339Nano until) by (unfold nextRunAtOrEmpty, isZero; by rewrite Hu).
  repeat constructor; unfold Validate, StaleWithOpenCircuit, StaleAfterErrorWithOpenCircuit, StaleAfterError, ErrorWithOpenCircuit;
    simpl; rewrite ?Hn, ?Ht, ?Hr, ?Hf; reflexivity.
Qed.

Definition empty_document : Document :=
  {| doc_Title := ""; doc_Subtitle := ""; doc_Link := ""; doc_Status := None; doc_Blocks := []; doc_Signals := ∅;
     doc_Notices := []; doc_Hints := None |}.
Definition empty_source : Source :=
  {| src_Integration := ""; src_IntegrationVersion := ""; src_Runtime := ""; src_Operation := ""; src_Slots := ∅ |}.
Definition empty_error : RunError := {| re_Code := ErrorUpstream; re_Message := ""; re_Retryable := true; re_At := "" |}.

Example constructors_valid_witness :
  seconds_of second <> 0%Z /\
  Forall (fun c => Validate c = None) [Pending "c"; OK 0 "c" empty_document empty_source second 0].
Proof.
  assert (Hs : seconds_of second <> 0%Z) by (vm_compute; discriminate). split; [exact Hs|].
  assert (H := constructors_valid 0 "c" empty_document empty_source 0 0 0 0 1 second 0 empty_error None "operator" Hs
                 ltac:(discriminate) ltac:(discriminate)).
  inversion H as [|? ? H1 H2]; subst. inversion H2; subst. by repeat constructor.
Defined.

(** Whatever order an unstable sort leaves, [Downsample] gives at most 288 points at strictly
    increasing instants of the window; every value is shown at an instant really recorded, and
    when at most 144 samples fall in the window each recorded instant is shown with a value
    recorded at it. *)
Theorem downsample_sound sortSlice samples from to :
  (forall l, sortSlice l ≡ₚ l) -> (forall l, StronglySorted Z.le (map sm_T (sortSlice l))) ->
  let pts := downsample_points sortSlice samples from to in
  length pts <= MaxHistoryPoints
  /\ StronglySorted Z.lt (map fst pts)
  /\ (forall t v, (t, v) ∈ pts -> (from <= t <= to)%Z /\ (v <> None -> exists s, s ∈ samples /\ sm_T s = t))
  /\ (length (filter (fun s => (from <= sm_T s <= to)%Z) samples) <= 144 ->
      forall s, s ∈ samples -> (from <= sm_T s <= to)%Z ->
      exists s', s' ∈ samples /\ sm_T s' = sm_T s /\ (sm_T s, Some (sm_V s')) ∈ pts).
Proof.
  intros Hp Hs pts. unfold pts, downsample_points. set (f := filter _ samples).
  assert (Hf : forall s, s ∈ f <-> s ∈ samples /\ (from <= sm_T s <= to)%Z) by (intros s; unfold f; rewrite list_elem_of_filter; tauto).
  set (l := dedup (sortSlice f)). destruct (dedup_spec (sortSlice f) (Hs f)) as (D1 & D2 & D3). fold l in D1, D2, D3.
  destruct (reduce_spec from to l D1) as (R1 & R2 & R3). set (r := reduce from to l) in *.
  assert (Hr : forall s, s ∈ r -> exists s', s' ∈ f /\ sm_T s' = sm_T s).
  { intros s Hin. assert (Hi : sm_T s ∈ map sm_T l) by (apply R2, elem_of_map; by exists s).
    apply elem_of_map in Hi as (s' & E & Hs'). exists s'. split; [|done]. apply D2 in Hs'. by rewrite Hp in Hs'. }
  destruct (place_spec (medianSpacing r * gapFactor) None 0 r (gap_range r R1)) as (P1 & P2 & P3 & P4);
    [unfold MaxHistoryPoints; lia|done|done|]. split_and!; [done|done| |].
  - intros t v Hin. destruct (P3 t v Hin) as (_ & (s & Hsin & Hle) & Hlow & Hv). split.
    + split.
      * destruct r as [|s0 r']; [by apply elem_of_nil in Hsin|]. specialize (Hlow s0 eq_refl eq_refl).
        destruct (Hr s0) as (x & Hx%Hf & E); [left|]. lia.
      * destruct (Hr s Hsin) as (x & Hx%Hf & E). lia.
    + intros Hne. destruct v as [v|]; [|done]. destruct Hv as (y & Hy & -> & _).
      destruct (Hr y Hy) as (x & [Hx _]%Hf & E). by exists x.
  - intros Hlen s Hin Hrange. assert (Hsf : s ∈ f) by (by apply Hf).
    assert (Hll : length l <= 144) by (unfold l; etrans; [apply dedup_length|]; by rewrite Hp).
    assert (Hi : sm_T s ∈ map sm_T l) by (apply D3, elem_of_map; exists s; by rewrite Hp).
    apply elem_of_map in Hi as (s' & E & Hs'). exists s'. split_and!.
    + apply D2 in Hs'. rewrite Hp in Hs'. by apply Hf in Hs' as [? _].
    + done.
    + rewrite E. assert (Hrl := R3 Hll). clearbody r. subst r. apply P4; [unfold MaxHistoryPoints; lia|done].
Qed.

(** An instance of [sort.Slice]: insertion sort by instant. *)
Definition sort_samples : list Sample -> list Sample := isort (fun a b => Z.leb (sm_T a) (sm_T b)).

Lemma sort_samples_sorted l : StronglySorted Z.le (map sm_T (sort_samples l)).
Proof.
  assert (H := isort_sorted (fun a b => Z.leb (sm_T a) (sm_T b)) ltac:(intros a b; rewrite !Z.leb_le; lia)
                 ltac:(intros a b c; rewrite !Z.leb_le; lia) l).
  unfold sort_samples. revert H. generalize (isort (fun a b => Z.leb (sm_T a) (sm_T b)) l) as k0. clear l. intros k0 H. induction H as [|x k Hk IH Hall]; simpl; constructor; [done|].
  apply Forall_forall. intros t Ht. apply elem_of_map in Ht as (y & -> & Hy).
  rewrite Forall_forall in Hall. by apply Z.leb_le, (Hall y).
Qed.

Example downsample_sound_witness :
  let samples := [{| sm_T := 900; sm_V := float_of 4 |}; {| sm_T := 10; sm_V := float_of 1 |};
                  {| sm_T := 30; sm_V := float_of 3 |}; {| sm_T := 20; sm_V := float_of 2 |}] in
  downsample_points sort_samples samples 0 1000
  = [(10, Some (float_of 1)); (20, Some (float_of 2)); (30, Some (float_of 3)); (465, None); (900, Some (float_of 4))]%Z
  /\ length (downsample_points sort_samples samples 0 1000) <= MaxHistoryPoints.
Proof.
  intros samples. split; [vm_compute; reflexivity|].
  apply (downsample_sound sort_samples samples 0 1000); [apply isort_perm|apply sort_samples_sorted].
Defined.
