(* ===== verification/Scheduler.v ===== *)
(** * internal/scheduler: refreshing cards

    [Manager] with its definitions, states, failure counts, breaker and in-flight runs. Each
    critical section of the code (a stretch under [m.mu], or one channel operation) is one function
    on the manager's state; a refresh is a sequence of them, and [step] interleaves any number of
    refreshes with configuration changes, so what is proved holds under every schedule. What a run
    returns, the store's answers and the clock are inputs of the steps. Goroutines, timers and
    context cancellation appear only through the runs and waits they end. *)
From S2P Require Import Prelude GoSort GoTime Widgets Secrets State.

(** ** Results of a run *)

(** The error of a run, as [classify] distinguishes it. *)
Inductive run_error :=
| RunDeadline (text : string)         (* context.DeadlineExceeded or context.Canceled *)
| ErrSecretInDocument
| ErrUnretainedSignal (signal : string)
| ErrRunPanicked
| RunFailed (text : string).

Definition run_error_text (e : run_error) : string :=
  match e with
  | RunDeadline t => t
  | ErrSecretInDocument => "scheduler: document contains a configured secret value"
  | ErrUnretainedSignal s => "scheduler: a series block binds a signal this operation does not retain: " +:+ s
  | ErrRunPanicked => "scheduler: the integration failed unexpectedly; see the server log"
  | RunFailed t => t
  end.

Definition classify (e : run_error) : string :=
  match e with
  | RunDeadline _ => ErrorTimeout
  | ErrSecretInDocument | ErrUnretainedSignal _ => ErrorInvalid
  | ErrRunPanicked => ErrorInternal
  | RunFailed _ => ErrorUpstream
  end.

(** The error of a refresh; [None] is a nil error. *)
Inductive sched_error :=
| ErrUnknownCard
| ErrRateLimited
| ErrSuperseded
| EmptyCardID
| DuplicateCardID (id : string)
| InvalidState (text : string)
| StoreError (text : string).

(** ** Timing *)

Definition minDuration (a b : Duration) : Duration := if (a <? b)%Z then a else b.

(** The doubling loop, with the iterations left. *)
Fixpoint double_until (k : nat) (base : Duration) : Duration :=
  match k with
  | O => base
  | S k => if (base <? hour)%Z then double_until k (base * 2)%Z else base
  end.

Definition backoff (n : Z) (base : Duration) : Duration :=
  let base := if (base <=? 0)%Z then second else base in
  minDuration (double_until (Z.to_nat (n - 1)) base) hour.

(** [fnv.New32a] *)
Fixpoint fnv32a_from (h : Z) (s : string) : Z :=
  match s with
  | EmptyString => h
  | String c r => fnv32a_from ((Z.lxor h (Z.of_N (byteN c)) * 16777619) mod 2 ^ 32) r
  end.
Definition fnv32a (s : string) : Z := fnv32a_from 2166136261 s.

Definition jitter (id : string) (base : Duration) : Duration :=
  if (base <=? 0)%Z then minute
  else let percent := (fnv32a id mod 11 - 5)%Z in
       (base + Z.quot (wrap64 (base * percent)) 100)%Z.

Definition parseTime (v : string) : Time := default 0%Z (time_Parse v).

(** ** The manager *)

Section Scheduler.
Context {RunFunc : Type}.

(** [Definition] *)
Record CardDef := {
  d_ID : string; d_Hash : string; d_Key : string; d_ManifestDigest : string; d_ApprovalRevision : string;
  d_SlotRevisions : string; d_Refresh : Duration; d_Timeout : Duration; d_Source : Source; d_Run : option RunFunc;
  d_Disabled : string; d_HistorySignals : gset string; d_SignalTypes : gmap string string; d_generation : Z }.

Record Event := { ev_ID : Z; ev_State : CardState }.

(** A run in flight is known by its number; its result is filed when it is done. A subscription
    has its capacity and what is buffered. *)
Record Manager := {
  defs : gmap string CardDef; states : gmap string CardState; failures : gmap string Z;
  openUntil : gmap string Time; manualAt : gmap string Time; flights : gmap string nat;
  subs : gmap nat (nat * list Event); nextID : Z; generation : Z }.

Definition NewManager : Manager :=
  {| defs := ∅; states := ∅; failures := ∅; openUntil := ∅; manualAt := ∅; flights := ∅; subs := ∅;
     nextID := 0; generation := 0 |}.

(** [storage.CardRecord] without the state. *)
Record CardRecord := {
  cr_CardHash : string; cr_ManifestDigest : string; cr_ApprovalRevision : string; cr_SlotRevisions : string }.

Definition record_of (d : CardDef) : CardRecord :=
  {| cr_CardHash := d_Hash d; cr_ManifestDigest := d_ManifestDigest d; cr_ApprovalRevision := d_ApprovalRevision d;
     cr_SlotRevisions := d_SlotRevisions d |}.

(** The store as it answers during one operation. *)
Record Store := {
  GetCardFor : string -> CardRecord -> res string (option CardState);
  PutCardWithSignals : CardRecord -> CardState -> gmap string Float64 -> option string;
  SignalHistory : string -> string -> Time -> Time -> nat -> res string (list Sample) }.

Variable secrets : option Registry.                      (* the secrets known by now; nil disables the check *)
Variable sortSlice : list Sample -> list Sample.         (* sort.Slice in Downsample *)

Definition documentLeaksSecret (doc : option Document) : bool :=
  match secrets, doc with
  | Some reg, Some doc => ContainsSecretInDocument reg doc
  | _, _ => false
  end.

(** [restored] *)
Definition restored (now : Time) (cs : CardState) (source : Source) : CardState :=
  if String.eqb (ex_State (cs_Execution cs)) StateOK then
    let expires := parseTime (ex_ExpiresAt (cs_Execution cs)) in
    match cs_Document cs with
    | Some doc => if negb (isZero expires) && negb (before now expires)
                  then Stale (cs_CardID cs) doc source (parseTime (ex_GeneratedAt (cs_Execution cs))) expires 0 now
                  else cs
    | None => cs
    end
  else cs.

(** ** Apply *)

Record prepared := {
  p_defs : gmap string CardDef; p_states : gmap string CardState; p_failures : gmap string Z; p_open : gmap string Time }.

Definition with_defaults (d : CardDef) : CardDef :=
  {| d_ID := d_ID d; d_Hash := d_Hash d; d_Key := d_Key d; d_ManifestDigest := d_ManifestDigest d;
     d_ApprovalRevision := d_ApprovalRevision d; d_SlotRevisions := d_SlotRevisions d;
     d_Refresh := if (d_Refresh d <=? 0)%Z then minute else d_Refresh d;
     d_Timeout := if (d_Timeout d <=? 0)%Z then (10 * second)%Z else d_Timeout d; d_Source := d_Source d; d_Run := d_Run d;
     d_Disabled := d_Disabled d; d_HistorySignals := d_HistorySignals d; d_SignalTypes := d_SignalTypes d;
     d_generation := d_generation d |}.

(** One turn of the loop over the definitions. *)
Definition prepare_one (now : Time) (store : option Store) (p : prepared) (d : CardDef) : res sched_error prepared :=
  let d := with_defaults d in
  let id := d_ID d in
  if String.eqb id "" then Err EmptyCardID
  else if bool_decide (is_Some (p_defs p !! id)) then Err (DuplicateCardID id)
  else
    let pending := {| p_defs := <[id := d]> (p_defs p); p_states := <[id := Pending id]> (p_states p);
                      p_failures := p_failures p; p_open := p_open p |} in
    match store with
    | None => Ok pending
    | Some st =>
        match GetCardFor st id (record_of d) with
        | Err e => Err (StoreError e)
        | Ok None => Ok pending
        | Ok (Some old) =>
            if documentLeaksSecret (cs_Document old) then Ok pending
            else Ok {| p_defs := p_defs pending; p_states := <[id := restored now old (d_Source d)]> (p_states pending);
                       p_failures := <[id := ex_ConsecutiveFailures (cs_Execution old)]> (p_failures p);
                       p_open := <[id := parseTime (ex_CircuitOpenUntil (cs_Execution old))]> (p_open p) |}
        end
    end.

Fixpoint prepare (now : Time) (store : option Store) (p : prepared) (ds : list CardDef) : res sched_error prepared :=
  match ds with
  | [] => Ok p
  | d :: rest => let! p := prepare_one now store p d in prepare now store p rest
  end.

Definition no_prepared : prepared := {| p_defs := ∅; p_states := ∅; p_failures := ∅; p_open := ∅ |}.

Definition with_generation (g : Z) (d : CardDef) : CardDef :=
  {| d_ID := d_ID d; d_Hash := d_Hash d; d_Key := d_Key d; d_ManifestDigest := d_ManifestDigest d;
     d_ApprovalRevision := d_ApprovalRevision d; d_SlotRevisions := d_SlotRevisions d; d_Refresh := d_Refresh d;
     d_Timeout := d_Timeout d; d_Source := d_Source d; d_Run := d_Run d; d_Disabled := d_Disabled d;
     d_HistorySignals := d_HistorySignals d; d_SignalTypes := d_SignalTypes d; d_generation := g |}.

(** The section of [Apply] under the lock. *)
Definition swap (m : Manager) (p : prepared) : Manager :=
  let g := (generation m + 1)%Z in
  {| defs := with_generation g <$> p_defs p; states := p_states p; failures := p_failures p; openUntil := p_open p;
     manualAt := ∅; flights := flights m; subs := subs m; nextID := nextID m; generation := g |}.

Definition Apply (now : Time) (store : option Store) (m : Manager) (ds : list CardDef) : res sched_error Manager :=
  let! p := prepare now store no_prepared ds in Ok (swap m p).

(** ** Refreshing: the critical sections *)

(** What the gate of [refresh] decides: superseded, a state to commit at once, nothing to do while
    the breaker is open, or a run. *)
Inductive gate :=
| GateSuperseded
| GateCommit (cs : CardState)
| GateSkip
| GateRun.

Definition refresh_gate (m : Manager) (now : Time) (d : CardDef) : gate :=
  match defs m !! d_ID d with
  | None => GateSuperseded
  | Some current =>
      if negb (d_generation current =? d_generation d)%Z then GateSuperseded
      else if negb (String.eqb (d_Disabled d) "") then GateCommit (Disabled (d_ID d) None (d_Disabled d))
      else if before now (default 0%Z (openUntil m !! d_ID d)) then GateSkip
      else match d_Run d with
           | None => GateCommit (Disabled (d_ID d) None ReasonConfigError)
           | Some _ => GateRun
           end
  end.

(** [historicalValues] *)
Definition historicalValues (d : CardDef) (doc : Document) : res run_error (gmap string Float64) :=
  foldr (fun name acc =>
    let! out := acc in
    match doc_Signals doc !! name with
    | None => Ok out
    | Some signal => match sig_Value signal with
                     | SNull => Ok out
                     | SNumber f => Ok (<[name := f]> out)
                     | _ => Err (RunFailed ("scheduler: historical signal " +:+ name +:+ " changed type"))
                     end
    end) (Ok ∅) (elements (d_HistorySignals d)).

(** A bound signal the operation does not retain. *)
Definition unretained (d : CardDef) (doc : Document) : option string :=
  fst <$> head (filter (fun p => p.1 ∉ d_HistorySignals d) (map_to_list (HistoryBindings doc))).

(** The checks on a run's outcome: the document and the values to keep, or the error of the run. *)
Definition check_run (d : CardDef) (r : res run_error Document) : res run_error (Document * gmap string Float64) :=
  let! doc := r in
  if documentLeaksSecret (Some doc) then Err ErrSecretInDocument
  else let! history := historicalValues d doc in
       match unretained d doc with
       | Some signal => Err (ErrUnretainedSignal signal)
       | None => Ok (doc, history)
       end.

Definition ttl_of (d : CardDef) (doc : Document) : Duration :=
  let ttl := d_Refresh d in
  let ttl := match doc_Hints doc with
             | Some h => let hinted := wrap64 (TTLSeconds h * second) in
                         if ((0 <? TTLSeconds h) && (hinted <? ttl))%Z then hinted else ttl
             | None => ttl
             end in
  if (ttl <? second)%Z then second else ttl.

(** [boundHistory] *)
Definition boundHistory (store : option Store) (d : CardDef) (doc : Document) (generatedAt : string)
  (current : gmap string Float64) : res sched_error (gmap string (list SeriesPoint)) :=
  let bindings := HistoryBindings doc in
  match store with
  | None => Ok ∅
  | Some st =>
      if Nat.eqb (map_size bindings) 0 then Ok ∅
      else match time_Parse generatedAt with
           | None => Err (StoreError "time")
           | Some to =>
               foldr (fun b acc =>
                 let! out := acc in
                 let '(signal, window) := b in
                 let from := (to - window)%Z in
                 match SignalHistory st (d_ID d) signal from to (Nat.div MaxHistoryPoints 2) with
                 | Err e => Err (StoreError ("scheduler: reading history for " +:+ signal +:+ ": " +:+ e))
                 | Ok samples =>
                     let samples := match current !! signal with
                                    | Some v => samples ++ [{| sm_T := to; sm_V := v |}]
                                    | None => samples
                                    end in
                     let points := Downsample sortSlice samples from to in
                     Ok (if Nat.eqb (length points) 0 then out else <[signal := points]> out)
                 end) (Ok ∅) (map_to_list bindings)
           end
  end.

Definition with_history (cs : CardState) (h : gmap string (list SeriesPoint)) : CardState :=
  {| cs_CardID := cs_CardID cs; cs_Document := cs_Document cs; cs_Execution := cs_Execution cs; cs_History := h |}.

(** The state of a run that succeeded. *)
Definition success_state (now : Time) (store : option Store) (d : CardDef) (doc : Document) (duration : Duration)
  (history : gmap string Float64) : res sched_error CardState :=
  let cs := OK now (d_ID d) doc (d_Source d) (ttl_of d doc) duration in
  let! bound := boundHistory store d doc (ex_GeneratedAt (cs_Execution cs)) history in
  Ok (with_history cs bound).

Definition set_counters (m : Manager) (f : gmap string Z) (o : gmap string Time) : Manager :=
  {| defs := defs m; states := states m; failures := f; openUntil := o; manualAt := manualAt m; flights := flights m;
     subs := subs m; nextID := nextID m; generation := generation m |}.

(** After a success: the count and the breaker are reset. *)
Definition reset_failures (m : Manager) (id : string) : Manager :=
  set_counters m (<[id := 0%Z]> (failures m)) (delete id (openUntil m)).

(** After a failure: the count goes up; it and the state then held are read. *)
Definition count_failure (m : Manager) (id : string) : Manager * Z * option CardState :=
  let n := (default 0 (failures m !! id) + 1)%Z in
  (set_counters m (<[id := n]> (failures m)) (openUntil m), n, states m !! id).

Definition open_breaker (m : Manager) (id : string) (until : Time) : Manager :=
  set_counters m (failures m) (<[id := until]> (openUntil m)).

(** The state of a run that failed: [now_retry], [now_open] and [now_stale] are the clock where the
    retry, the breaker and the staleness are computed. The breaker's time is given from the third
    failure on. *)
Definition failure_state (now_retry now_open now_stale : Time) (d : CardDef) (e : run_error) (n : Z)
  (previous : option CardState) : option Time * CardState :=
  let id := d_ID d in
  let retry := (now_retry + backoff n (d_Refresh d))%Z in
  let re := {| re_Code := classify e; re_Message := run_error_text e; re_Retryable := true; re_At := "" |} in
  let prev_doc := cs ← previous; doc ← cs_Document cs; Some (cs, doc) in
  if (3 <=? n)%Z then
    let open := (now_open + minDuration (5 * minute) (backoff n (d_Refresh d)))%Z in
    (Some open,
     match prev_doc with
     | Some (cs, doc) =>
         with_history (StaleAfterErrorWithOpenCircuit now_stale id doc (d_Source d)
                         (parseTime (ex_GeneratedAt (cs_Execution cs))) now_stale n open re) (cs_History cs)
     | None => ErrorWithOpenCircuit now_stale id (d_Source d) re open
     end)
  else
    (None,
     match prev_doc with
     | Some (cs, doc) =>
         with_history (StaleAfterError now_stale id doc (d_Source d)
                         (parseTime (ex_GeneratedAt (cs_Execution cs))) now_stale n retry re) (cs_History cs)
     | None => let cs := ErrorState now_stale id (d_Source d) re in
               set_execution cs (set_retry (cs_Execution cs) n (Format_RFC3339Nano retry))
     end).

(** [publish]: a subscriber whose buffer is full is dropped. *)
Definition publish (ev : Event) (s : gmap nat (nat * list Event)) : gmap nat (nat * list Event) :=
  omap (fun c => if Nat.ltb (length c.2) c.1 then Some (c.1, c.2 ++ [ev]) else None) s.

(** [commitWithHistory] *)
Definition commitWithHistory (store : option Store) (m : Manager) (d : CardDef) (cs : CardState)
  (history : gmap string Float64) : Manager * option sched_error :=
  match Validate cs with
  | Some e => (m, Some (InvalidState e))
  | None =>
      match defs m !! d_ID d with
      | None => (m, Some ErrSuperseded)
      | Some current =>
          if negb (d_generation current =? d_generation d)%Z then (m, Some ErrSuperseded)
          else match (st ← store; PutCardWithSignals st (record_of d) cs history) with
               | Some e => (m, Some (StoreError e))
               | None =>
                   let next := (nextID m + 1)%Z in
                   ({| defs := defs m; states := <[d_ID d := cs]> (states m); failures := failures m;
                       openUntil := openUntil m; manualAt := manualAt m; flights := flights m;
                       subs := publish {| ev_ID := next; ev_State := cs |} (subs m); nextID := next;
                       generation := generation m |}, None)
               end
      end
  end.

Definition commit (store : option Store) (m : Manager) (d : CardDef) (cs : CardState) : Manager * option sched_error :=
  commitWithHistory store m d cs ∅.

(** The entry of [Refresh] and [RefreshNow]: the definition to refresh. *)
Definition Refresh (m : Manager) (id : string) : res sched_error CardDef :=
  match defs m !! id with Some d => Ok d | None => Err ErrUnknownCard end.

Definition RefreshNow (now : Time) (m : Manager) (id : string) : Manager * res sched_error CardDef :=
  match defs m !! id with
  | None => (m, Err ErrUnknownCard)
  | Some d =>
      let last := default 0%Z (manualAt m !! id) in
      if negb (isZero last) && (now - last <? second)%Z then (m, Err ErrRateLimited)
      else ({| defs := defs m; states := states m; failures := failures m; openUntil := openUntil m;
               manualAt := <[id := now]> (manualAt m); flights := flights m; subs := subs m; nextID := nextID m;
               generation := generation m |}, Ok d)
  end.

(** The wait of [loop] after a refresh. *)
Definition loop_wait (now : Time) (m : Manager) (d : CardDef) (err : option sched_error) : Duration :=
  let wait := jitter (d_ID d) (d_Refresh d) in
  let wait := match err with
              | Some _ => wait
              | None =>
                  let next := match states m !! d_ID d with
                              | Some cs => parseTime (ex_NextRunAt (cs_Execution cs))
                              | None => 0%Z
                              end in
                  if negb (isZero next) && (next - now <? wait)%Z then (next - now)%Z else wait
              end in
  if (wait <? 0)%Z then 0%Z else wait.

(** [States]: by card id. A card without a state has the zero one. *)
Definition no_state : CardState :=
  {| cs_CardID := ""; cs_Document := None; cs_Execution := execution ""; cs_History := ∅ |}.
Definition States (m : Manager) : list CardState :=
  isort (fun a b => str_leb (cs_CardID a) (cs_CardID b))
    (map (fun p => default no_state (states m !! p.1)) (map_to_list (defs m))).

Definition Definitions (m : Manager) : list CardDef := map snd (map_to_list (defs m)).

Definition set_subs (m : Manager) (s : gmap nat (nat * list Event)) : Manager :=
  {| defs := defs m; states := states m; failures := failures m; openUntil := openUntil m; manualAt := manualAt m;
     flights := flights m; subs := s; nextID := nextID m; generation := generation m |}.

(** [Subscribe] under a fresh channel, its cancellation, and [Close]. *)
Definition Subscribe (m : Manager) (ch buffer : nat) : Manager :=
  set_subs m (<[ch := (if Nat.ltb buffer 1 then 1 else buffer, [])]> (subs m)).
Definition unsubscribe (m : Manager) (ch : nat) : Manager := set_subs m (delete ch (subs m)).
Definition Close (m : Manager) : Manager := set_subs m ∅.

(** ** Runs in flight and interleaving *)

Definition run_result : Type := (res run_error Document * Duration)%type.

(** Where a refresh is: before the gate, waiting for another's run, owning a run and waiting for a
    worker, running, having given its worker back, with a result, and through the sections above. *)
Inductive phase :=
| PStart (d : CardDef)
| PRun (d : CardDef)
| PWait (d : CardDef) (f : nat)
| POwn (d : CardDef) (f : nat)
| PExec (d : CardDef) (f : nat)
| PRelease (d : CardDef) (f : nat) (r : run_result)
| PRan (d : CardDef) (r : run_result)
| PReset (d : CardDef) (cs : CardState) (history : gmap string Float64)
| PCount (d : CardDef) (e : run_error)
| POpen (d : CardDef) (until : Time) (cs : CardState)
| PCommit (d : CardDef) (cs : CardState) (history : gmap string Float64)
| PEnd (err : option sched_error).

(** The key [runShared] shares a run under. *)
Definition flight_key (d : CardDef) : string :=
  decimal (d_generation d) +:+ ":" +:+ (if String.eqb (d_Key d) "" then d_ID d else d_Key d).

Definition set_flights (m : Manager) (f : gmap string nat) : Manager :=
  {| defs := defs m; states := states m; failures := failures m; openUntil := openUntil m; manualAt := manualAt m;
     flights := f; subs := subs m; nextID := nextID m; generation := generation m |}.

(** The manager, the refreshes under way, the results of finished runs, the next run's number, the
    workers taken, and every definition a refresh loop or a caller may still hold. *)
Record system := {
  sys_m : Manager; sys_threads : gmap nat phase; sys_done : gmap nat run_result; sys_next : nat;
  sys_workers : nat; sys_known : list CardDef }.

Definition maxWorkers : nat := 8.

Definition set_m (s : system) (m : Manager) : system :=
  {| sys_m := m; sys_threads := sys_threads s; sys_done := sys_done s; sys_next := sys_next s;
     sys_workers := sys_workers s; sys_known := sys_known s |}.
Definition set_phase (s : system) (t : nat) (p : phase) : system :=
  {| sys_m := sys_m s; sys_threads := <[t := p]> (sys_threads s); sys_done := sys_done s; sys_next := sys_next s;
     sys_workers := sys_workers s; sys_known := sys_known s |}.
Definition set_workers (s : system) (n : nat) : system :=
  {| sys_m := sys_m s; sys_threads := sys_threads s; sys_done := sys_done s; sys_next := sys_next s;
     sys_workers := n; sys_known := sys_known s |}.

(** [runShared] up to the worker: join the run under the key, or start one. *)
Definition join (s : system) (t : nat) (d : CardDef) : system :=
  match flights (sys_m s) !! flight_key d with
  | Some f => set_phase s t (PWait d f)
  | None => let f := sys_next s in
            {| sys_m := set_flights (sys_m s) (<[flight_key d := f]> (flights (sys_m s)));
               sys_threads := <[t := POwn d f]> (sys_threads s); sys_done := sys_done s; sys_next := S f;
               sys_workers := sys_workers s; sys_known := sys_known s |}
  end.

(** The deferred end of an owned run. *)
Definition finish (s : system) (t : nat) (d : CardDef) (f : nat) (r : run_result) : system :=
  {| sys_m := set_flights (sys_m s) (delete (flight_key d) (flights (sys_m s)));
     sys_threads := <[t := PRan d r]> (sys_threads s); sys_done := <[f := r]> (sys_done s); sys_next := sys_next s;
     sys_workers := sys_workers s; sys_known := sys_known s |}.

(** After the run: the checks and, on success, the state to commit. *)
Definition judge (now : Time) (store : option Store) (d : CardDef) (r : run_result) : phase :=
  match check_run d r.1 with
  | Err e => PCount d e
  | Ok (doc, history) =>
      match success_state now store d doc r.2 history with
      | Err e => PEnd (Some e)
      | Ok cs => PReset d cs history
      end
  end.

End Scheduler.

(** ** The steps *)

Section Steps.
Context {RunFunc : Type}.
Variable sortSlice : list Sample -> list Sample.
Local Abbreviation system := (system (RunFunc := RunFunc)).
Local Abbreviation CardDef := (CardDef (RunFunc := RunFunc)).

(** One step of the refresh [t], [reg] being the secrets known then, while nothing is cancelled. *)
Inductive run_step (reg : option Registry) (t : nat) (s : system) : system -> Prop :=
| step_gate d now p :
    sys_threads s !! t = Some (PStart d) ->
    p = match refresh_gate (sys_m s) now d with
        | GateSuperseded => PEnd (Some ErrSuperseded)
        | GateCommit cs => PCommit d cs ∅
        | GateSkip => PEnd None
        | GateRun => PRun d
        end ->
    run_step reg t s (set_phase s t p)
| step_join d :
    sys_threads s !! t = Some (PRun d) -> run_step reg t s (join s t d)
| step_waited d f r :
    sys_threads s !! t = Some (PWait d f) -> sys_done s !! f = Some r -> run_step reg t s (set_phase s t (PRan d r))
| step_acquire d f :
    sys_threads s !! t = Some (POwn d f) -> sys_workers s < maxWorkers ->
    run_step reg t s (set_phase (set_workers s (S (sys_workers s))) t (PExec d f))
| step_run d f r :
    sys_threads s !! t = Some (PExec d f) ->
    run_step reg t s (set_phase (set_workers s (pred (sys_workers s))) t (PRelease d f r))
| step_finish d f r :
    sys_threads s !! t = Some (PRelease d f r) -> run_step reg t s (finish s t d f r)
| step_judge d r now store :
    sys_threads s !! t = Some (PRan d r) -> run_step reg t s (set_phase s t (judge reg sortSlice now store d r))
| step_reset d cs h :
    sys_threads s !! t = Some (PReset d cs h) ->
    run_step reg t s (set_phase (set_m s (reset_failures (sys_m s) (d_ID d))) t (PCommit d cs h))
| step_count d e now1 now2 now3 m n prev p :
    sys_threads s !! t = Some (PCount d e) -> count_failure (sys_m s) (d_ID d) = (m, n, prev) ->
    p = match failure_state now1 now2 now3 d e n prev with
        | (Some until, cs) => POpen d until cs
        | (None, cs) => PCommit d cs ∅
        end ->
    run_step reg t s (set_phase (set_m s m) t p)
| step_open d until cs :
    sys_threads s !! t = Some (POpen d until cs) ->
    run_step reg t s (set_phase (set_m s (open_breaker (sys_m s) (d_ID d) until)) t (PCommit d cs ∅))
| step_commit d cs h store m err :
    sys_threads s !! t = Some (PCommit d cs h) -> commitWithHistory store (sys_m s) d cs h = (m, err) ->
    run_step reg t s (set_phase (set_m s m) t (PEnd err)).

(** What the end of its context does to a refresh: while it waits for another's run, or for a worker
    (a run that has one ends itself, in [step_run]). *)
Inductive cancel_step (t : nat) (s : system) : system -> Prop :=
| step_wait_cancelled d f text :
    sys_threads s !! t = Some (PWait d f) -> cancel_step t s (set_phase s t (PRan d (Err (RunDeadline text), 0%Z)))
| step_own_cancelled d f text :
    sys_threads s !! t = Some (POwn d f) -> cancel_step t s (finish s t d f (Err (RunDeadline text), 0%Z)).

(** One step of the refresh [t]. *)
Definition thread_step (reg : option Registry) (t : nat) (s s' : system) : Prop := run_step reg t s s' \/ cancel_step t s s'.

(** The store gives back what was committed: a legal state of the card asked for. *)
Definition store_sound (st : Store) : Prop :=
  forall id rec cs, GetCardFor st id rec = Ok (Some cs) -> cs_CardID cs = id /\ Validate cs = None.

(** A configuration is applied while [reg] is known. *)
Inductive apply_step (reg : option Registry) (s : system) : system -> Prop :=
| step_apply now store ds m :
    (forall st, store = Some st -> store_sound st) ->
    Apply reg now store (sys_m s) ds = Ok m ->
    apply_step reg s {| sys_m := m; sys_threads := sys_threads s; sys_done := sys_done s; sys_next := sys_next s;
                        sys_workers := sys_workers s; sys_known := sys_known s ++ Definitions m |}.

(** The rest of the program: a refresh begins with a definition some caller holds, a manual one is
    asked for, subscribers come, read and go. *)
Inductive env_step (s : system) : system -> Prop :=
| step_begin t d :
    sys_threads s !! t = None -> d ∈ sys_known s -> env_step s (set_phase s t (PStart d))
| step_manual t now id m d :
    sys_threads s !! t = None -> RefreshNow now (sys_m s) id = (m, Ok d) ->
    env_step s (set_phase (set_m s m) t (PStart d))
| step_subs u : env_step s (set_m s (set_subs (sys_m s) u)).

(** Anything that can happen. *)
Definition moves (s s' : system) : Prop :=
  (exists reg, apply_step reg s s') \/ env_step s s' \/ exists reg t, thread_step reg t s s'.

Definition start : system :=
  {| sys_m := NewManager; sys_threads := ∅; sys_done := ∅; sys_next := 0; sys_workers := 0; sys_known := [] |}.

(** Every secret [known] is known to [reg] as well. *)
Definition tracks (known reg : option Registry) : Prop :=
  match known with
  | None => True
  | Some r => exists r', reg = Some r' /\ values r ⊆ values r'
  end.

(** [reachable known s]: the program can be in [s], [known] being the secrets that were known when the
    configuration in force was applied. From then on the registry only grows. *)
Inductive reachable : option Registry -> system -> Prop :=
| reach_start : reachable None start
| reach_apply known reg s s' : reachable known s -> apply_step reg s s' -> reachable reg s'
| reach_env known s s' : reachable known s -> env_step s s' -> reachable known s'
| reach_thread known reg t s s' : reachable known s -> tracks known reg -> thread_step reg t s s' -> reachable known s'.

(** Steps of the refreshes under way, whoever's turn it is; and such steps with nothing cancelled. *)
Inductive thread_steps : nat -> system -> system -> Prop :=
| steps_none s : thread_steps 0 s s
| steps_one n reg t s s' s'' : thread_step reg t s s' -> thread_steps n s' s'' -> thread_steps (S n) s s''.
Inductive run_steps (reg : option Registry) : system -> system -> Prop :=
| runs_none s : run_steps reg s s
| runs_one t s s' s'' : run_step reg t s s' -> run_steps reg s' s'' -> run_steps reg s s''.

(** ** Specifications *)

(** A state fit to be served for a card. *)
Definition state_ok (known : option Registry) (id : string) (cs : CardState) : Prop :=
  Validate cs = None /\ cs_CardID cs = id /\ documentLeaksSecret known (cs_Document cs) = false.

(** A state about to be committed, before [Validate]. *)
Definition candidate (known : option Registry) (id : string) (cs : CardState) : Prop :=
  cs_CardID cs = id /\ documentLeaksSecret known (cs_Document cs) = false.

Local Abbreviation phase := (phase (RunFunc := RunFunc)).
Local Abbreviation Manager := (Manager (RunFunc := RunFunc)).

Definition phase_def (p : phase) : option CardDef :=
  match p with
  | PStart d | PRun d | PWait d _ | POwn d _ | PExec d _ | PRelease d _ _ | PRan d _ | PReset d _ _
  | PCount d _ | POpen d _ _ | PCommit d _ _ => Some d
  | PEnd _ => None
  end.

Definition phase_state (p : phase) : option CardState :=
  match p with PReset _ cs _ | POpen _ _ cs | PCommit _ cs _ => Some cs | _ => None end.

(** The run a refresh owns. *)
Definition owns (p : phase) : option (CardDef * nat) :=
  match p with POwn d f | PExec d f | PRelease d f _ => Some (d, f) | _ => None end.

Definition running (p : phase) : Prop := match p with PExec _ _ => True | _ => False end.
#[local] Instance running_dec p : Decision (running p).
Proof. destruct p; simpl; apply _. Defined.

Definition workers_busy (th : gmap nat phase) : nat := size (filter (fun x => running x.2) th).

(** How far a refresh has come. *)
Definition rank (p : phase) : nat :=
  match p with
  | PStart _ => 11 | PRun _ => 10 | PWait _ _ => 6 | POwn _ _ => 9 | PExec _ _ => 8 | PRelease _ _ _ => 7
  | PRan _ _ => 5 | PReset _ _ _ => 4 | PCount _ _ => 3 | POpen _ _ _ => 2 | PCommit _ _ _ => 1 | PEnd _ => 0
  end.

(** The definition is no longer the one in force for its card. *)
Definition superseded (m : Manager) (d : CardDef) : Prop :=
  forall cur, defs m !! d_ID d = Some cur -> d_generation cur <> d_generation d.

Record data_inv (known : option Registry) (s : system) : Prop := {
  di_dom : forall id, is_Some (states (sys_m s) !! id) <-> is_Some (defs (sys_m s) !! id);
  di_defs : forall id d, defs (sys_m s) !! id = Some d -> d_ID d = id /\ d_generation d = generation (sys_m s);
  di_states : forall id cs, states (sys_m s) !! id = Some cs -> state_ok known id cs;
  di_known : forall d, d ∈ sys_known s -> (d_generation d <= generation (sys_m s))%Z;
  di_gen : forall t p d, sys_threads s !! t = Some p -> phase_def p = Some d -> (d_generation d <= generation (sys_m s))%Z;
  di_pending : forall t p d cs, sys_threads s !! t = Some p -> phase_def p = Some d -> phase_state p = Some cs ->
    d_generation d = generation (sys_m s) -> candidate known (d_ID d) cs }.

Record flight_inv (s : system) : Prop := {
  fi_own : forall t p d f, sys_threads s !! t = Some p -> owns p = Some (d, f) -> flights (sys_m s) !! flight_key d = Some f;
  fi_fresh : forall k f, flights (sys_m s) !! k = Some f -> f < sys_next s;
  fi_unique : forall t t' p p' d d' f, sys_threads s !! t = Some p -> sys_threads s !! t' = Some p' ->
    owns p = Some (d, f) -> owns p' = Some (d', f) -> t = t';
  fi_workers : sys_workers s = workers_busy (sys_threads s) /\ sys_workers s <= maxWorkers }.

(** A run is in flight only while a refresh owns it, and a refresh waits only for a run that is done or
    still owned. *)
Definition owned_by_some (s : system) (f : nat) (k : option string) : Prop :=
  exists t p d, sys_threads s !! t = Some p /\ owns p = Some (d, f) /\ (forall k', k = Some k' -> flight_key d = k').
Record owner_inv (s : system) : Prop := {
  oi_owned : forall k f, flights (sys_m s) !! k = Some f -> owned_by_some s f (Some k);
  oi_wait : forall t d f, sys_threads s !! t = Some (PWait d f) -> is_Some (sys_done s !! f) \/ owned_by_some s f None }.

(** How far all the refreshes are from their ends. *)
Definition distance (th : gmap nat phase) : nat := map_fold (fun _ p n => rank p + n) 0 th.

(** Every refresh has ended, and none left a worker taken or a run in flight. *)
Definition quiet (s : system) : Prop :=
  (forall t p, sys_threads s !! t = Some p -> phase_def p = None) /\ sys_workers s = 0 /\ flights (sys_m s) = ∅.

(** ** Lemmas on states *)

Lemma valid_Stale id doc src gen since n next : Validate (Stale id doc src gen since n next) = None.
Proof. unfold Validate; simpl. by rewrite !(proj2 (String.eqb_neq _ _) (Format_nonempty _)). Qed.

(** The secrets known only grow: what is clean of the later ones is clean of the earlier. *)
Lemma tracks_refl known : tracks known known.
Proof. destruct known; simpl; eauto. Qed.

Lemma tracks_clean known reg doc :
  tracks known reg -> documentLeaksSecret reg doc = false -> documentLeaksSecret known doc = false.
Proof.
  unfold documentLeaksSecret. destruct known as [r|]; [|done]. intros (r' & -> & Hr). destruct doc as [doc|]; [|done].
  rewrite <- !not_true_iff_false, !document_scan_exact. intros Hn [H|(s & v & Hs & Hv & H)]; apply Hn; [by left|right].
  exists s, v. split; [done|]. split; [by apply Hr|done].
Qed.

Lemma no_document_clean reg : documentLeaksSecret reg None = false.
Proof. by destruct reg. Qed.

Lemma restored_ok known now id cs src : state_ok known id cs -> state_ok known id (restored now cs src).
Proof.
  intros Hok. assert (H := Hok). destruct H as (_ & Hid & Hl). unfold restored. destruct (String.eqb _ StateOK); [|exact Hok].
  destruct (cs_Document cs) as [doc|] eqn:Ed; [|exact Hok]. destruct (negb _ && negb _); [|exact Hok].
  split_and!; [apply valid_Stale|exact Hid|exact Hl].
Qed.

Lemma pending_ok known id : state_ok known id (Pending id).
Proof. split_and!; [done|done|apply no_document_clean]. Qed.

(** What a run leaves is a candidate: the document was checked, or is the one already held. *)
Lemma judge_candidate reg now store (d : CardDef) r p cs :
  judge reg sortSlice now store d r = p -> phase_state p = Some cs -> phase_def p = Some d /\ candidate reg (d_ID d) cs.
Proof.
  unfold judge, check_run. intros <-. destruct r.1 as [doc|e]; cbn [res_bind]; [|done].
  destruct (documentLeaksSecret reg (Some doc)) eqn:El; [done|].
  destruct (historicalValues d doc) as [h|e]; cbn [res_bind]; [|done].
  destruct (unretained d doc); [done|]. unfold success_state. cbv zeta.
  destruct (boundHistory _ _ _ _ _ _); cbn [res_bind]; [|done]. intros [= <-]. done.
Qed.

Lemma judge_def reg now store (d : CardDef) r d' : phase_def (judge reg sortSlice now store d r) = Some d' -> d' = d.
Proof.
  unfold judge. destruct (check_run reg d r.1) as [[doc h]|e]; [|by intros [= ->]].
  destruct (success_state sortSlice now store d doc r.2 h); [by intros [= ->]|done].
Qed.

Lemma failure_candidate known now1 now2 now3 (d : CardDef) e n prev :
  (forall cs, prev = Some cs -> state_ok known (d_ID d) cs) -> candidate known (d_ID d) (failure_state now1 now2 now3 d e n prev).2.
Proof.
  intros Hp. assert (Hn := no_document_clean known).
  unfold failure_state. destruct prev as [cs|]; simpl; [|by destruct (3 <=? n)%Z].
  destruct (Hp cs eq_refl) as (_ & _ & Hl). destruct (cs_Document cs) as [doc|] eqn:Ed; simpl; by destruct (3 <=? n)%Z.
Qed.

Record prepared_ok (known : option Registry) (p : prepared (RunFunc := RunFunc)) : Prop := {
  po_dom : forall id, is_Some (p_states p !! id) <-> is_Some (p_defs p !! id);
  po_id : forall id d, p_defs p !! id = Some d -> d_ID d = id;
  po_states : forall id cs, p_states p !! id = Some cs -> state_ok known id cs }.

Lemma prepared_insert known p id d cs f o :
  prepared_ok known p -> d_ID d = id -> state_ok known id cs ->
  prepared_ok known {| p_defs := <[id := d]> (p_defs p); p_states := <[id := cs]> (p_states p); p_failures := f; p_open := o |}.
Proof.
  intros [H1 H2 H3] Hd Hc. split; simpl; intros id'; (destruct (decide (id = id')) as [<-|Hne];
    [rewrite ?lookup_insert_eq|rewrite ?lookup_insert_ne by done]).
  - split; intros _; by eexists.
  - apply H1.
  - intros d0 [= <-]. exact Hd.
  - apply H2.
  - intros cs0 [= <-]. exact Hc.
  - apply H3.
Qed.

Lemma prepare_ok reg now store ds p p' :
  (forall st, store = Some st -> store_sound st) -> prepared_ok reg p -> prepare reg now store p ds = Ok p' -> prepared_ok reg p'.
Proof.
  intros Hs. revert p. induction ds as [|d ds IH]; intros p Hp; simpl; [by intros [= <-]|].
  destruct (prepare_one reg now store p d) as [q|e] eqn:E; cbn [res_bind]; [|done]. apply IH. clear IH.
  unfold prepare_one in E. cbv zeta in E. set (d' := with_defaults d) in *.
  destruct (String.eqb (d_ID d') ""); [done|]. case_bool_decide; [done|].
  assert (Hq : prepared_ok reg {| p_defs := <[d_ID d' := d']> (p_defs p); p_states := <[d_ID d' := Pending (d_ID d')]> (p_states p);
            p_failures := p_failures p; p_open := p_open p |}) by (apply prepared_insert; [done|done|apply pending_ok]).
  destruct store as [st|]; [|by injection E as <-].
  destruct (GetCardFor st (d_ID d') (record_of d')) as [[old|]|] eqn:Eg; [|by injection E as <-|done].
  destruct (documentLeaksSecret reg (cs_Document old)) eqn:El; [by injection E as <-|]. injection E as <-. simpl.
  rewrite insert_insert_eq. apply prepared_insert; [done|done|]. destruct (Hs st eq_refl _ _ _ Eg) as [H1 H2]. by apply restored_ok.
Qed.

Lemma commit_cases store (m : Manager) d cs h m' err :
  commitWithHistory store m d cs h = (m', err) ->
  (m' = m /\ err <> None)
  \/ (err = None /\ Validate cs = None
      /\ (exists cur, defs m !! d_ID d = Some cur /\ d_generation cur = d_generation d)
      /\ defs m' = defs m /\ states m' = <[d_ID d := cs]> (states m) /\ generation m' = generation m
      /\ flights m' = flights m /\ nextID m' = (nextID m + 1)%Z).
Proof.
  unfold commitWithHistory. destruct (Validate cs); [intros [= <- <-]; by left|].
  destruct (defs m !! d_ID d) as [cur|] eqn:Ed; [|intros [= <- <-]; by left].
  destruct (Z.eqb_spec (d_generation cur) (d_generation d)); cbn [negb]; [|intros [= <- <-]; by left].
  destruct (store ≫= _); intros [= <- <-]; [by left|]. right. split_and!; try done. by exists cur.
Qed.

(** ** The states served stay sound *)

Lemma di_equiv known s s' :
  defs (sys_m s') = defs (sys_m s) -> states (sys_m s') = states (sys_m s) -> generation (sys_m s') = generation (sys_m s) ->
  sys_threads s' = sys_threads s -> sys_known s' = sys_known s -> data_inv known s -> data_inv known s'.
Proof. intros E1 E2 E3 E4 E5 []. split; rewrite ?E1, ?E2, ?E3, ?E4, ?E5; done. Qed.

Lemma di_phase known s t p :
  data_inv known s -> (forall d, phase_def p = Some d -> (d_generation d <= generation (sys_m s))%Z) ->
  (forall d cs, phase_def p = Some d -> phase_state p = Some cs -> d_generation d = generation (sys_m s) -> candidate known (d_ID d) cs) ->
  data_inv known (set_phase s t p).
Proof.
  intros [H1 H2 H3 H4 H5 H6] Hg Hc. split; simpl; try done; intros t'; (destruct (decide (t = t')) as [<-|Hne];
    [rewrite lookup_insert_eq; intros q|rewrite lookup_insert_ne by done]).
  - intros d [= <-]. apply Hg.
  - apply H5.
  - intros d cs [= <-]. apply Hc.
  - apply H6.
Qed.

(** The new phase speaks of the same definition, and has no state or the same one. *)
Lemma di_step known s t q p :
  data_inv known s -> sys_threads s !! t = Some q -> (forall d, phase_def p = Some d -> phase_def q = Some d) ->
  (forall cs, phase_state p = Some cs -> phase_state q = Some cs) -> data_inv known (set_phase s t p).
Proof.
  intros Hi Hq Hd Hs. apply di_phase; [done|..].
  - intros d Hp. eapply (di_gen _ s Hi); [exact Hq|by apply Hd].
  - intros d cs Hp Hc. eapply (di_pending _ s Hi); [exact Hq|by apply Hd|by apply Hs].
Qed.

Lemma di_commit known s store d cs h m err :
  data_inv known s -> (d_generation d = generation (sys_m s) -> candidate known (d_ID d) cs) ->
  commitWithHistory store (sys_m s) d cs h = (m, err) -> data_inv known (set_m s m).
Proof.
  intros Hi Hc [[-> _]|(_ & Hv & (cur & Hcur & Eg) & E1 & E2 & E3 & _)]%commit_cases.
  { by apply (di_equiv _ s). }
  rewrite (proj2 (di_defs _ s Hi _ _ Hcur)) in Eg. specialize (Hc (eq_sym Eg)).
  destruct Hi as [H1 H2 H3 H4 H5 H6]. split; simpl; rewrite ?E1, ?E2, ?E3; try done.
  - intros id. destruct (decide (d_ID d = id)) as [<-|Hne]; [rewrite lookup_insert_eq|by rewrite lookup_insert_ne].
    split; intros _; by eexists.
  - intros id cs'. destruct (decide (d_ID d = id)) as [<-|Hne]; [rewrite lookup_insert_eq|rewrite lookup_insert_ne by done; apply H3].
    intros [= <-]. by split.
Qed.

Lemma di_apply known reg s s' : data_inv known s -> apply_step reg s s' -> data_inv reg s'.
Proof.
  intros [H1 H2 H3 H4 H5 H6]. destruct 1 as [now store ds m Hs Ha]. revert Ha. unfold Apply.
  destruct (prepare reg now store no_prepared ds) as [p|e] eqn:E; cbn [res_bind]; [|done]. intros [= <-].
  apply prepare_ok in E as [P1 P2 P3]; [|done|split; intros id; simpl; rewrite ?lookup_empty; [split; by intros [? ?]|done|done]].
  split; simpl.
  - intros id. rewrite lookup_fmap, fmap_is_Some. apply P1.
  - intros id d. rewrite lookup_fmap. intros (d0 & Hd & ->)%fmap_Some. simpl. split; [by apply P2|done].
  - apply P3.
  - intros d [Hd|Hd]%elem_of_app; [specialize (H4 d Hd); lia|]. unfold Definitions in Hd. simpl in Hd.
    apply elem_of_map in Hd as ([id d'] & -> & Hd). apply elem_of_map_to_list in Hd. simpl.
    rewrite lookup_fmap in Hd. apply fmap_Some in Hd as (d0 & _ & ->). simpl. lia.
  - intros t q d Hq Hd. specialize (H5 t q d Hq Hd). lia.
  - intros t q d cs Hq Hd _ Hg. specialize (H5 t q d Hq Hd). lia.
Qed.

Lemma di_env known s s' : data_inv known s -> env_step s s' -> data_inv known s'.
Proof.
  intros Hi. destruct 1 as [t d Ht Hk|t now id m d Ht Hr|u].
  - apply di_phase; [done|intros d' [= <-]; by apply (di_known _ s Hi)|done].
  - unfold RefreshNow in Hr. destruct (defs (sys_m s) !! id) as [d0|] eqn:Ed; [|done].
    destruct (negb _ && _); [done|]. injection Hr as <- <-.
    apply di_phase; [by apply (di_equiv _ s)| |done]. intros d' [= <-]. simpl. by destruct (di_defs _ s Hi _ _ Ed) as [_ ->].
  - by apply (di_equiv _ s).
Qed.

Lemma di_run known reg t s s' : data_inv known s -> tracks known reg -> run_step reg t s s' -> data_inv known s'.
Proof.
  intros Hi Hk. destruct 1 as [d now p Ht Hp|d Ht|d f r Ht Hd|d f Ht Hw|d f r Ht|d f r Ht
    |d r now store Ht|d cs h Ht|d e n1 n2 n3 m n prev p Ht Hc Hp|d until cs Ht|d cs h store m err Ht Hc].
  - apply di_phase; [done|..]; subst p; unfold refresh_gate.
    + intros d'. assert (Hg := di_gen _ s Hi _ _ d Ht eq_refl). by repeat case_match; intros [= <-].
    + assert (Hn := no_document_clean known).
      intros d' cs. repeat case_match; simplify_eq/=; intros [= <-] [= <-]; done.
  - unfold join. destruct (flights (sys_m s) !! flight_key d) as [f|].
    + by eapply di_step.
    + apply (di_equiv _ (set_phase s t (POwn d (sys_next s)))); try done. by eapply di_step.
  - by eapply di_step.
  - eapply di_step; [by apply (di_equiv _ s)|exact Ht|done|done].
  - eapply di_step; [by apply (di_equiv _ s)|exact Ht|done|done].
  - apply (di_equiv _ (set_phase s t (PRan d r))); try done. by eapply di_step.
  - apply di_phase; [done|..].
    + intros d' ->%judge_def. by apply (di_gen _ s Hi _ _ d Ht).
    + intros d' cs Hd Hs _. destruct (judge_candidate reg now store d r _ cs eq_refl Hs) as [E [H1 H2]].
      rewrite E in Hd. injection Hd as <-. split; [done|by eapply tracks_clean].
  - eapply di_step; [by apply (di_equiv _ s)|exact Ht|done|done].
  - unfold count_failure in Hc. injection Hc as <- <- Hprev.
    assert (Hg := di_gen _ s Hi _ _ d Ht eq_refl).
    assert (Hcand := failure_candidate known n1 n2 n3 d e (default 0 (failures (sys_m s) !! d_ID d) + 1)%Z prev).
    destruct (failure_state n1 n2 n3 d e _ prev) as [o cs]. simpl in Hcand.
    assert (Hk' : candidate known (d_ID d) cs) by (apply Hcand; intros cs0 ->; by apply (di_states _ s Hi)).
    subst p. apply di_phase; [by apply (di_equiv _ s)|intros d'|intros d' cs']; destruct o; intros [= <-]; try done; by intros [= <-].
  - eapply di_step; [by apply (di_equiv _ s)|exact Ht|done|by intros ? [= <-]].
  - apply di_phase; [|done|done]. eapply di_commit; [exact Hi| |exact Hc]. by eapply (di_pending _ s Hi _ _ d cs Ht).
Qed.

Lemma di_cancel known t s s' : data_inv known s -> cancel_step t s s' -> data_inv known s'.
Proof.
  intros Hi. destruct 1 as [d f text Ht|d f text Ht]; [by eapply di_step|].
  apply (di_equiv _ (set_phase s t (PRan d (Err (RunDeadline text), 0%Z)))); try done. by eapply di_step.
Qed.

Lemma di_thread known reg t s s' : data_inv known s -> tracks known reg -> thread_step reg t s s' -> data_inv known s'.
Proof. intros Hi Hk [Hs|Hs]; [by eapply di_run|by eapply di_cancel]. Qed.

Lemma reachable_data known s : reachable known s -> data_inv known s.
Proof.
  induction 1 as [|known reg s s' _ IH Hs|known s s' _ IH Hs|known reg t s s' _ IH Hk Hs];
    [|by eapply di_apply|by eapply di_env|by eapply di_thread].
  split; simpl; try (intros *; rewrite ?lookup_empty; done).
  intros d H. by apply elem_of_nil in H.
Qed.

(** ** One run per key, eight workers *)

Lemma busy_insert th t p q :
  th !! t = Some q ->
  workers_busy (<[t := p]> th) + (if decide (running q) then 1 else 0) = workers_busy th + (if decide (running p) then 1 else 0).
Proof.
  intros Hq. unfold workers_busy. set (F := filter (fun x : nat * phase => running x.2)).
  assert (Hrest : F (delete t th) !! t = None) by (apply map_lookup_filter_None; left; apply lookup_delete_eq).
  assert (H : forall x, size (F (<[t := x]> (delete t th))) = size (F (delete t th)) + (if decide (running x) then 1 else 0)).
  { intros x. destruct (decide (running x)) as [Hx|Hx].
    - unfold F. rewrite map_filter_insert_True by done. rewrite map_size_insert_None by done. lia.
    - unfold F. rewrite map_filter_insert_False by done. rewrite delete_delete_eq. lia. }
  assert (Hp := H p). rewrite insert_delete_eq in Hp. rewrite Hp.
  assert (Hth := H q). rewrite insert_delete_id in Hth by done. rewrite Hth. lia.
Qed.

Lemma busy_positive s t p : sys_threads s !! t = Some p -> running p -> 0 < workers_busy (sys_threads s).
Proof.
  intros Ht Hp. unfold workers_busy. apply Nat.neq_0_lt_0. intros E. apply map_size_empty_inv in E.
  assert (Hl : filter (fun x => running x.2) (sys_threads s) !! t = Some p) by by apply map_lookup_filter_Some.
  by rewrite E in Hl.
Qed.

Lemma busy_new th t p : th !! t = None -> ~ running p -> workers_busy (<[t := p]> th) = workers_busy th.
Proof.
  intros Ht Hp. unfold workers_busy. rewrite map_filter_insert_False by done. by rewrite delete_id.
Qed.

(** A step that keeps the runs in flight, and after which the refresh owns nothing it did not own. *)
Lemma fi_step s t q p m w :
  flight_inv s -> flights m = flights (sys_m s) -> sys_threads s !! t = Some q ->
  (forall o, owns p = Some o -> owns q = Some o) ->
  w + (if decide (running q) then 1 else 0) = sys_workers s + (if decide (running p) then 1 else 0) -> w <= maxWorkers ->
  flight_inv (set_phase (set_m (set_workers s w) m) t p).
Proof.
  intros [H1 H2 H3 [H4 H5]] Em Hq Ho Hw Hle.
  assert (Hold : forall t' p' o, <[t := p]> (sys_threads s) !! t' = Some p' -> owns p' = Some o ->
                 exists q', sys_threads s !! t' = Some q' /\ owns q' = Some o).
  { intros t' p' o. destruct (decide (t = t')) as [<-|Hne]; [rewrite lookup_insert_eq|rewrite lookup_insert_ne by done; eauto].
    intros [= <-] Hp. exists q. auto. }
  split; simpl; rewrite ?Em; try done.
  - intros t' p' d f Ht Hp. destruct (Hold _ _ _ Ht Hp) as (q' & ? & ?). by eapply H1.
  - intros t1 t2 p1 p2 d1 d2 f Ht1 Ht2 Hp1 Hp2.
    destruct (Hold _ _ _ Ht1 Hp1) as (q1 & ? & ?). destruct (Hold _ _ _ Ht2 Hp2) as (q2 & ? & ?). by eapply (H3 t1 t2 q1 q2).
  - split; [|done]. assert (Hb := busy_insert (sys_threads s) t p q Hq). lia.
Qed.

(** The same for a step that leaves the workers alone. *)
Lemma fi_local s t q p m :
  flight_inv s -> flights m = flights (sys_m s) -> sys_threads s !! t = Some q ->
  (forall o, owns p = Some o -> owns q = Some o) -> ~ running q -> ~ running p ->
  flight_inv (set_phase (set_m s m) t p).
Proof.
  intros Hi Em Hq Ho Hrq Hrp. assert (H := fi_step s t q p m (sys_workers s) Hi Em Hq Ho).
  rewrite !decide_False in H by done. destruct s. apply H; [done|apply Hi].
Qed.

Lemma fi_new s t d m :
  flight_inv s -> flights m = flights (sys_m s) -> sys_threads s !! t = None -> flight_inv (set_phase (set_m s m) t (PStart d)).
Proof.
  intros [H1 H2 H3 [H4 H5]] Em Ht.
  assert (Hold : forall t' p' o, <[t := PStart d]> (sys_threads s) !! t' = Some p' -> owns p' = Some o -> sys_threads s !! t' = Some p').
  { intros t' p' o. destruct (decide (t = t')) as [<-|Hne]; [rewrite lookup_insert_eq|by rewrite lookup_insert_ne].
    by intros [= <-]. }
  split; simpl; rewrite ?Em; try done.
  - intros t' p' d' f Ht' Hp. eapply H1; [by eapply Hold|done].
  - intros t1 t2 p1 p2 d1 d2 f Ht1 Ht2 Hp1 Hp2. eapply (H3 t1 t2 p1 p2); eauto.
  - split; [|done]. rewrite busy_new; [done|done|by intros []].
Qed.

Lemma fi_join s t d : flight_inv s -> sys_threads s !! t = Some (PRun d) -> flight_inv (join s t d).
Proof.
  intros Hi Ht. unfold join. destruct (flights (sys_m s) !! flight_key d) as [f|] eqn:Ef.
  { apply (fi_local s t (PRun d) _ (sys_m s)); try done; by intros []. }
  destruct Hi as [H1 H2 H3 [H4 H5]].
  assert (Hfresh : forall t' p' d' f', sys_threads s !! t' = Some p' -> owns p' = Some (d', f') -> f' < sys_next s).
  { intros t' p' d' f' Ht' Ho. eapply H2. by eapply H1. }
  split; simpl.
  - intros t' p' d' f' Ht' Ho. destruct (decide (t = t')) as [<-|Hne].
    + rewrite lookup_insert_eq in Ht'. injection Ht' as <-. injection Ho as <- <-. by rewrite lookup_insert_eq.
    + rewrite lookup_insert_ne in Ht' by done. assert (Hf := H1 _ _ _ _ Ht' Ho).
      rewrite lookup_insert_ne; [done|]. intros E. rewrite E in Ef. congruence.
  - intros k f'. destruct (decide (flight_key d = k)) as [<-|Hne]; [rewrite lookup_insert_eq|rewrite lookup_insert_ne by done].
    + intros [= <-]. lia.
    + intros Hk. specialize (H2 _ _ Hk). lia.
  - intros t1 t2 p1 p2 d1 d2 f' Ht1 Ht2 Ho1 Ho2.
    destruct (decide (t = t1)) as [<-|N1]; destruct (decide (t = t2)) as [<-|N2]; try done;
      rewrite ?lookup_insert_eq in Ht1; rewrite ?lookup_insert_eq in Ht2;
      rewrite ?lookup_insert_ne in Ht1 by done; rewrite ?lookup_insert_ne in Ht2 by done.
    + injection Ht1 as <-. injection Ho1 as <- <-. specialize (Hfresh _ _ _ _ Ht2 Ho2). lia.
    + injection Ht2 as <-. injection Ho2 as <- <-. specialize (Hfresh _ _ _ _ Ht1 Ho1). lia.
    + by eapply (H3 t1 t2).
  - split; [|done]. assert (Hb := busy_insert (sys_threads s) t (POwn d (sys_next s)) (PRun d) Ht).
    rewrite !decide_False in Hb by (by intros []). lia.
Qed.

Lemma fi_finish s t d f r q :
  flight_inv s -> sys_threads s !! t = Some q -> owns q = Some (d, f) -> ~ running q -> flight_inv (finish s t d f r).
Proof.
  intros [H1 H2 H3 [H4 H5]] Hq Ho Hr.
  assert (Hold : forall t' p' o, <[t := PRan d r]> (sys_threads s) !! t' = Some p' -> owns p' = Some o ->
                 t <> t' /\ sys_threads s !! t' = Some p').
  { intros t' p' o. destruct (decide (t = t')) as [<-|Hne]; [rewrite lookup_insert_eq|by rewrite lookup_insert_ne].
    by intros [= <-]. }
  split; simpl.
  - intros t' p' d' f' Ht' Hp'. destruct (Hold _ _ _ Ht' Hp') as [Hne Ht0]. assert (Hf := H1 _ _ _ _ Ht0 Hp').
    rewrite lookup_delete_ne; [done|]. intros E. rewrite <- E, (H1 _ _ _ _ Hq Ho) in Hf. injection Hf as <-.
    apply Hne. by eapply (H3 t t' q p').
  - intros k f' [_ Hk]%lookup_delete_Some. by eapply H2.
  - intros t1 t2 p1 p2 d1 d2 f' Ht1 Ht2 Hp1 Hp2. destruct (Hold _ _ _ Ht1 Hp1), (Hold _ _ _ Ht2 Hp2). by eapply (H3 t1 t2 p1 p2).
  - split; [|done]. assert (Hb := busy_insert (sys_threads s) t (PRan d r) q Hq). rewrite !decide_False in Hb by (done || by intros []). lia.
Qed.

Lemma commit_flights store (m : Manager) d cs h m' err : commitWithHistory store m d cs h = (m', err) -> flights m' = flights m.
Proof. intros [[-> _]|(_ & _ & _ & _ & _ & _ & E & _)]%commit_cases; done. Qed.

Lemma fi_run reg t s s' : flight_inv s -> run_step reg t s s' -> flight_inv s'.
Proof.
  intros Hi. assert (Hw := proj2 (fi_workers s Hi)).
  destruct 1 as [d now p Ht Hp|d Ht|d f r Ht Hd|d f Ht Hlt|d f r Ht|d f r Ht
    |d r now store Ht|d cs h Ht|d e n1 n2 n3 m n prev p Ht Hc Hp|d until cs Ht|d cs h store m err Ht Hc].
  - apply (fi_local s t (PStart d) p (sys_m s)); try done; [subst p; by destruct (refresh_gate _ _ _)|by intros []|].
    subst p; by destruct (refresh_gate _ _ _); intros [].
  - by apply fi_join.
  - apply (fi_local s t (PWait d f) _ (sys_m s)); try done; by intros [].
  - apply (fi_step s t (POwn d f) (PExec d f) (sys_m s) (S (sys_workers s))); try done; simpl; lia.
  - assert (Hpos := busy_positive s t (PExec d f) Ht I). rewrite <- (proj1 (fi_workers s Hi)) in Hpos.
    apply (fi_step s t (PExec d f) (PRelease d f r) (sys_m s) (pred (sys_workers s))); try done; simpl; lia.
  - apply (fi_finish s t d f _ (PRelease d f r)); try done; by intros [].
  - apply (fi_local s t (PRan d r) _ (sys_m s)); try done; [| |]; unfold judge;
      destruct (check_run reg d r.1) as [[doc h]|e]; try (by intros ? [=] || by intros []);
      destruct (success_state sortSlice now store d doc r.2 h); (by intros ? [=] || by intros []).
  - apply (fi_local s t (PReset d cs h) _ (reset_failures (sys_m s) (d_ID d))); try done; by intros [].
  - unfold count_failure in Hc. injection Hc as <- <- Hprev. subst p.
    apply (fi_local s t (PCount d e)); try done; try (by intros []);
      destruct (failure_state n1 n2 n3 d e _ prev) as [[until|] cs]; (by intros ? [=] || by intros []).
  - apply (fi_local s t (POpen d until cs)); try done; by intros [].
  - apply (fi_local s t (PCommit d cs h)); try done; [by apply commit_flights in Hc|by intros []..].
Qed.

Lemma fi_thread reg t s s' : flight_inv s -> thread_step reg t s s' -> flight_inv s'.
Proof.
  intros Hi [Hs|[d f text Ht|d f text Ht]]; [by eapply fi_run| |].
  - apply (fi_local s t (PWait d f) _ (sys_m s)); try done; by intros [].
  - apply (fi_finish s t d f _ (POwn d f)); try done; by intros [].
Qed.

Lemma Apply_flights reg now store (m m' : Manager) ds : Apply reg now store m ds = Ok m' -> flights m' = flights m.
Proof. unfold Apply. destruct (prepare _ _ _ _ _); cbn [res_bind]; [|done]. by intros [= <-]. Qed.

Lemma RefreshNow_flights now (m m' : Manager) id d : RefreshNow now m id = (m', Ok d) -> flights m' = flights m.
Proof. unfold RefreshNow. destruct (defs m !! id); [|done]. destruct (negb _ && _); [done|]. by intros [= <- <-]. Qed.

Lemma reachable_flights known s : reachable known s -> flight_inv s.
Proof.
  induction 1 as [|known reg s s' _ IH [now store ds m _ Ha]|known s s' _ IH Hs|known reg t s s' _ IH _ Hs]; [| | |by eapply fi_thread].
  - split; simpl; try (intros *; rewrite ?lookup_empty; done). split; [by vm_compute|unfold maxWorkers; lia].
  - apply Apply_flights in Ha. destruct IH. split; simpl; rewrite ?Ha; done.
  - destruct Hs as [t d Ht Hk|t now id m d Ht Hr|u].
    + apply (fi_new s t d (sys_m s)); try done.
    + apply fi_new; try done. by eapply RefreshNow_flights.
    + by destruct IH.
Qed.

(** ** Every run in flight is owned, and every wait has an end *)

(** A step of [t] that keeps what it owns, and starts no wait but one with an end. *)
Lemma oi_step s t q p m w :
  owner_inv s -> flights m = flights (sys_m s) -> sys_threads s !! t = Some q -> owns p = owns q ->
  (forall d f, p = PWait d f -> is_Some (sys_done s !! f) \/ owned_by_some s f None) ->
  owner_inv (set_phase (set_m (set_workers s w) m) t p).
Proof.
  intros [H1 H2] Em Hq Ho Hp.
  assert (Hkeep : forall f k, owned_by_some s f k -> owned_by_some (set_phase (set_m (set_workers s w) m) t p) f k).
  { intros f k (t' & p' & d & Ht' & Hp' & Hk). destruct (decide (t = t')) as [<-|Hne].
    - rewrite Hq in Ht'. injection Ht' as <-. exists t, p, d. simpl. by rewrite lookup_insert_eq, Ho.
    - exists t', p', d. simpl. by rewrite lookup_insert_ne. }
  split; simpl; rewrite ?Em.
  - intros k f Hf. by apply Hkeep, H1.
  - intros t' d f. destruct (decide (t = t')) as [<-|Hne]; [rewrite lookup_insert_eq|rewrite lookup_insert_ne by done].
    + intros [= ->]. destruct (Hp d f eq_refl); [by left|right; by apply Hkeep].
    + intros Hw. destruct (H2 _ _ _ Hw); [by left|right; by apply Hkeep].
Qed.

Lemma oi_local s t q p m :
  owner_inv s -> flights m = flights (sys_m s) -> sys_threads s !! t = Some q -> owns p = owns q ->
  (forall d f, p = PWait d f -> is_Some (sys_done s !! f) \/ owned_by_some s f None) ->
  owner_inv (set_phase (set_m s m) t p).
Proof. intros Hi Em Hq Ho Hp. assert (H := oi_step s t q p m (sys_workers s) Hi Em Hq Ho Hp). by destruct s. Qed.

Lemma oi_new s t d m :
  owner_inv s -> flights m = flights (sys_m s) -> sys_threads s !! t = None -> owner_inv (set_phase (set_m s m) t (PStart d)).
Proof.
  intros [H1 H2] Em Ht.
  assert (Hkeep : forall f k, owned_by_some s f k -> owned_by_some (set_phase (set_m s m) t (PStart d)) f k).
  { intros f k (t' & p' & d' & Ht' & Hp' & Hk). exists t', p', d'. simpl. rewrite lookup_insert_ne; [done|]. by intros ->; rewrite Ht in Ht'. }
  split; simpl; rewrite ?Em.
  - intros k f Hf. by apply Hkeep, H1.
  - intros t' d' f. destruct (decide (t = t')) as [<-|Hne]; [by rewrite lookup_insert_eq|rewrite lookup_insert_ne by done].
    intros Hw. destruct (H2 _ _ _ Hw); [by left|right; by apply Hkeep].
Qed.

Lemma oi_finish s t d f r q :
  owner_inv s -> sys_threads s !! t = Some q -> owns q = Some (d, f) -> owner_inv (finish s t d f r).
Proof.
  intros [H1 H2] Hq Ho.
  assert (Hkeep : forall f' k, owned_by_some s f' k -> (f' = f \/ owned_by_some (finish s t d f r) f' k)).
  { intros f' k (t' & p' & d' & Ht' & Hp' & Hk). destruct (decide (t = t')) as [<-|Hne].
    - left. rewrite Hq in Ht'. injection Ht' as <-. rewrite Ho in Hp'. by injection Hp' as _ ->.
    - right. exists t', p', d'. simpl. by rewrite lookup_insert_ne. }
  split; simpl.
  - intros k f' [Hne Hf]%lookup_delete_Some. destruct (H1 _ _ Hf) as (t' & p' & d' & Ht' & Hp' & Hk).
    exists t', p', d'. simpl. rewrite lookup_insert_ne; [done|]. intros ->. rewrite Hq in Ht'. injection Ht' as <-.
    rewrite Ho in Hp'. injection Hp' as -> ->. by apply Hne, Hk.
  - intros t' d' f'. destruct (decide (t = t')) as [<-|Hne]; [by rewrite lookup_insert_eq|rewrite lookup_insert_ne by done].
    intros Hw. destruct (decide (f = f')) as [<-|Hf]; [rewrite lookup_insert_eq; left; by eexists|rewrite lookup_insert_ne by done].
    destruct (H2 _ _ _ Hw) as [H|H]; [by left|]. destruct (Hkeep _ _ H) as [->|?]; [done|by right].
Qed.

Lemma oi_join s t d : owner_inv s -> sys_threads s !! t = Some (PRun d) -> owner_inv (join s t d).
Proof.
  intros Hi Ht. unfold join. destruct (flights (sys_m s) !! flight_key d) as [f|] eqn:Ef.
  { apply (oi_local s t (PRun d) _ (sys_m s)); try done. intros d' f' [= _ <-]. right.
    destruct (oi_owned s Hi _ _ Ef) as (t' & p' & d0 & ? & ? & _). by exists t', p', d0. }
  destruct Hi as [H1 H2].
  assert (Hkeep : forall f k, owned_by_some s f k -> exists t' p' d', <[t := POwn d (sys_next s)]> (sys_threads s) !! t' = Some p'
                    /\ owns p' = Some (d', f) /\ (forall k', k = Some k' -> flight_key d' = k')).
  { intros f k (t' & p' & d' & Ht' & Hp' & Hk). exists t', p', d'. rewrite lookup_insert_ne; [done|]. intros ->. rewrite Ht in Ht'. by injection Ht' as <-. }
  split; simpl.
  - intros k f. destruct (decide (flight_key d = k)) as [<-|Hne]; [rewrite lookup_insert_eq|rewrite lookup_insert_ne by done].
    + intros [= <-]. exists t, (POwn d (sys_next s)), d. simpl. rewrite lookup_insert_eq. split_and!; [done|done|by intros ? [= <-]].
    + intros Hf. by apply Hkeep, H1.
  - intros t' d' f. destruct (decide (t = t')) as [<-|Hne]; [by rewrite lookup_insert_eq|rewrite lookup_insert_ne by done].
    intros Hw. destruct (H2 _ _ _ Hw); [by left|right; by apply Hkeep].
Qed.

Lemma judge_local reg now store (d : CardDef) r : owns (judge reg sortSlice now store d r) = None /\ forall d' f, judge reg sortSlice now store d r <> PWait d' f.
Proof.
  unfold judge. destruct (check_run reg d r.1) as [[doc h]|e]; [|done]. by destruct (success_state sortSlice now store d doc r.2 h).
Qed.

Lemma oi_thread reg t s s' : owner_inv s -> thread_step reg t s s' -> owner_inv s'.
Proof.
  intros Hi [Hs|[d f text Ht|d f text Ht]]; [|by apply (oi_local s t (PWait d f) _ (sys_m s))|by apply (oi_finish s t d f _ (POwn d f))].
  destruct Hs as [d now p Ht Hp|d Ht|d f r Ht Hd|d f Ht Hlt|d f r Ht|d f r Ht
    |d r now store Ht|d cs h Ht|d e n1 n2 n3 m n prev p Ht Hc Hp|d until cs Ht|d cs h store m err Ht Hc].
  - apply (oi_local s t (PStart d) p (sys_m s)); subst p; try done; by destruct (refresh_gate _ _ _).
  - by apply oi_join.
  - by apply (oi_local s t (PWait d f) _ (sys_m s)).
  - by apply (oi_step s t (POwn d f) (PExec d f) (sys_m s)).
  - by apply (oi_step s t (PExec d f) (PRelease d f r) (sys_m s)).
  - by apply (oi_finish s t d f _ (PRelease d f r)).
  - destruct (judge_local reg now store d r) as [Ho Hn]. apply (oi_local s t (PRan d r) _ (sys_m s)); try done.
    intros d' f E. by destruct (Hn d' f).
  - by apply (oi_local s t (PReset d cs h) _ (reset_failures (sys_m s) (d_ID d))).
  - unfold count_failure in Hc. injection Hc as <- <- Hprev. subst p.
    apply (oi_local s t (PCount d e)); try done; by destruct (failure_state n1 n2 n3 d e _ prev) as [[until|] cs].
  - by apply (oi_local s t (POpen d until cs)).
  - apply (oi_local s t (PCommit d cs h)); try done. by apply commit_flights in Hc.
Qed.

Lemma reachable_owners known s : reachable known s -> owner_inv s.
Proof.
  induction 1 as [|known reg s s' _ IH [now store ds m _ Ha]|known s s' _ IH Hs|known reg t s s' _ IH _ Hs]; [| | |by eapply oi_thread].
  - split; simpl; intros *; by rewrite lookup_empty.
  - apply Apply_flights in Ha. destruct IH as [H1 H2]. split; simpl; [|exact H2]. rewrite Ha. exact H1.
  - destruct Hs as [t d Ht Hk|t now id m d Ht Hr|u].
    + by apply (oi_new s t d (sys_m s)).
    + apply oi_new; try done. by eapply RefreshNow_flights.
    + by destruct IH.
Qed.

(** ** The way to the end *)

Lemma distance_insert th t p q : th !! t = Some q -> distance (<[t := p]> th) + rank q = distance th + rank p.
Proof.
  intros Hq. assert (Hc : forall x, distance (<[t := x]> (delete t th)) = rank x + distance (delete t th)).
  { intros x. unfold distance. rewrite map_fold_insert_L; [done|intros; lia|apply lookup_delete_eq]. }
  assert (Hp := Hc p). rewrite insert_delete_eq in Hp. assert (H := Hc q). rewrite insert_delete_id in H by done. lia.
Qed.

Lemma rank_le p : rank p <= 11.
Proof. destruct p; simpl; lia. Qed.

Lemma distance_le th : distance th <= 11 * size th.
Proof.
  induction th as [|t p th Ht Hf IH] using map_first_key_ind; [by vm_compute|].
  unfold distance. rewrite map_fold_insert_L by (done || (intros; lia)). fold (distance th).
  rewrite map_size_insert_None by done. assert (H := rank_le p). lia.
Qed.

(** One step of a refresh brings it nearer its end and leaves the others where they are. *)
Lemma thread_nearer reg t s s' :
  thread_step reg t s s' -> exists p p', sys_threads s !! t = Some p /\ sys_threads s' = <[t := p']> (sys_threads s) /\ rank p' < rank p.
Proof.
  intros [Hs|[d f text Ht|d f text Ht]]; [|eexists _, _; split_and!; [exact Ht|reflexivity|simpl; lia]..].
  destruct Hs as [d now p' Ht Hp|d Ht|d f r Ht Hd|d f Ht Hlt|d f r Ht|d f r Ht
    |d r now store Ht|d cs h Ht|d e n1 n2 n3 m n prev p' Ht Hc Hp|d until cs Ht|d cs h store m err Ht Hc];
    try (eexists _, _; split_and!; [exact Ht|reflexivity|simpl; lia]).
  - eexists _, _; split_and!; [exact Ht|reflexivity|]. subst p'. destruct (refresh_gate _ _ _); simpl; lia.
  - unfold join. destruct (flights (sys_m s) !! flight_key d); eexists _, _; (split_and!; [exact Ht|reflexivity|simpl; lia]).
  - eexists _, _; split_and!; [exact Ht|reflexivity|]. unfold judge. destruct (check_run _ d r.1) as [[doc h]|e]; [|simpl; lia].
    destruct (success_state _ now store d doc r.2 h); simpl; lia.
  - eexists _, _; split_and!; [exact Ht|reflexivity|]. subst p'. destruct (failure_state n1 n2 n3 d e n prev) as [[until|] cs]; simpl; lia.
Qed.

Lemma thread_distance reg t s s' : thread_step reg t s s' -> distance (sys_threads s') < distance (sys_threads s).
Proof. intros (p & p' & Ht & -> & Hr)%thread_nearer. assert (H := distance_insert _ _ p' _ Ht). lia. Qed.

Lemma thread_steps_bound n s s' : thread_steps n s s' -> n <= distance (sys_threads s).
Proof. induction 1 as [|n reg t s s' s'' Hs _ IH]; [lia|]. apply thread_distance in Hs. lia. Qed.

(** A refresh that waits for nothing can take a step. *)
Lemma can_step reg s t p :
  sys_threads s !! t = Some p -> phase_def p <> None -> (forall d f, p <> PWait d f) ->
  (forall d f, p = POwn d f -> sys_workers s < maxWorkers) -> exists s', run_step reg t s s'.
Proof.
  intros Ht Hd Hw Hown. destruct p as [d|d|d f|d f|d f|d f r|d r|d cs h|d e|d until cs|d cs h|err]; [..|done].
  - eexists. by apply (step_gate reg t s d 0).
  - eexists. by apply step_join.
  - by destruct (Hw d f).
  - eexists. eapply step_acquire; [done|by eapply Hown].
  - eexists. by eapply (step_run reg t s d f (Err (RunFailed ""), 0%Z)).
  - eexists. by eapply step_finish.
  - eexists. by apply (step_judge reg t s d r 0 None).
  - eexists. by eapply step_reset.
  - eexists. by eapply (step_count reg t s d e 0 0 0).
  - eexists. by eapply step_open.
  - destruct (commitWithHistory None (sys_m s) d cs h) as [m err] eqn:E. eexists. by eapply (step_commit reg t s d cs h None).
Qed.

(** A refresh that owns a run can take a step, or one that executes can. *)
Lemma owner_can_step reg s t p o : flight_inv s -> sys_threads s !! t = Some p -> owns p = Some o -> exists t' s', run_step reg t' s s'.
Proof.
  intros Hi Ht Ho. destruct (decide (sys_workers s < maxWorkers)) as [Hw|Hw].
  - destruct (can_step reg s t p Ht) as [s' Hs]; [by destruct p|by intros d f ->|done|]. by exists t, s'.
  - destruct (fi_workers s Hi) as [Eb Hle]. unfold workers_busy in Eb.
    destruct (decide (filter (fun x => running x.2) (sys_threads s) = ∅)) as [E|E].
    { rewrite E, map_size_empty in Eb. unfold maxWorkers in Hw. lia. }
    apply map_choose in E as (t' & p' & Hf). apply map_lookup_filter_Some in Hf as [Ht' Hr]. simpl in Hr.
    destruct p'; try done. exists t'. eexists. by eapply (step_run reg t' s _ _ (Err (RunFailed ""), 0%Z)).
Qed.

(** Short of the end, some refresh can take a step with nothing cancelled. *)
Lemma can_run reg s t p :
  flight_inv s -> owner_inv s -> sys_threads s !! t = Some p -> phase_def p <> None -> exists t' s', run_step reg t' s s'.
Proof.
  intros Hi Ho Ht Hd. destruct (decide (owns p = None)) as [En|[o Eo]%not_eq_None_Some]; [|by eapply owner_can_step].
  destruct p as [d|d|d f|d f|d f|d f r|d r|d cs h|d e|d until cs|d cs h|err];
    try (edestruct (can_step reg s t) as [s' Hs]; [exact Ht|done|done|done|by exists t, s']); try done.
  destruct (oi_wait s Ho _ _ _ Ht) as [[r Hr]|(t' & p' & d' & Ht' & Hp' & _)].
  - exists t. eexists. by eapply step_waited.
  - by eapply owner_can_step.
Qed.

(** When every refresh has ended, nothing is held. *)
Lemma ended_quiet s :
  flight_inv s -> owner_inv s -> (forall t p, sys_threads s !! t = Some p -> phase_def p = None) -> quiet s.
Proof.
  intros Hi Ho He. split_and!; [done| |].
  - rewrite (proj1 (fi_workers s Hi)). unfold workers_busy. apply map_size_empty_iff, map_empty. intros t.
    apply map_lookup_filter_None. right. intros p Ht Hr. apply He in Ht. by destruct p.
  - apply map_empty. intros k. apply eq_None_not_Some. intros [f Hf].
    destruct (oi_owned s Ho _ _ Hf) as (t & p & d & Ht & Hp & _). apply He in Ht. by destruct p.
Qed.

Lemma runs_reachable known s s' : reachable known s -> run_steps known s s' -> reachable known s'.
Proof.
  intros Hr. induction 1 as [|t s s' s'' Hs _ IH]; [done|]. apply IH. eapply reach_thread; [exact Hr|apply tracks_refl|by left].
Qed.

Lemma phase_ended_dec (th : gmap nat phase) :
  (forall t p, th !! t = Some p -> phase_def p = None) \/ exists t p, th !! t = Some p /\ phase_def p <> None.
Proof.
  destruct (decide (filter (fun x => is_Some (phase_def x.2)) th = ∅)) as [E|E].
  - left. intros t p Ht. apply eq_None_not_Some. intros Hs.
    assert (Hf : filter (fun x => is_Some (phase_def x.2)) th !! t = Some p) by by apply map_lookup_filter_Some.
    by rewrite E in Hf.
  - right. apply map_choose in E as (t & p & Hf). apply map_lookup_filter_Some in Hf as [Ht Hs]. exists t, p. split; [done|].
    by apply not_eq_None_Some.
Qed.

Lemma runs_to_quiet known s : reachable known s -> exists s', run_steps known s s' /\ quiet s'.
Proof.
  remember (distance (sys_threads s)) as n eqn:En. revert s En.
  induction n as [n IH] using lt_wf_ind. intros s En Hr.
  assert (Hi := reachable_flights _ _ Hr). assert (Ho := reachable_owners _ _ Hr).
  destruct (phase_ended_dec (sys_threads s)) as [He|(t & p & Ht & Hd)].
  - exists s. split; [apply runs_none|by apply ended_quiet].
  - destruct (can_run known s t p Hi Ho Ht Hd) as (t' & s1 & Hs).
    assert (Hlt := thread_distance known t' s s1 (or_introl Hs)).
    destruct (IH (distance (sys_threads s1))) with (s := s1) as (s' & Hs' & Hq); [lia|done| |].
    + eapply reach_thread; [exact Hr|apply tracks_refl|by left].
    + exists s'. split; [|done]. by eapply runs_one.
Qed.

(** ** Supersession *)

Lemma thread_defs reg t s s' : thread_step reg t s s' -> defs (sys_m s') = defs (sys_m s).
Proof.
  intros [Hs|[]]; [|done..]. destruct Hs as [| | | | | | | |? ? ? ? ? ? ? ? ? ? Hc ?| |? ? ? ? ? ? ? Hc]; try done.
  - unfold join. by destruct (flights (sys_m s) !! flight_key d).
  - unfold count_failure in Hc. by injection Hc as <- _ _.
  - apply commit_cases in Hc as [[-> _]|(_ & _ & _ & E & _)]; [done|]. exact E.
Qed.

Lemma moves_superseded known s s' d :
  data_inv known s -> moves s s' -> (d_generation d <= generation (sys_m s))%Z -> superseded (sys_m s) d -> superseded (sys_m s') d.
Proof.
  intros Hi Hs Hd Hsup. destruct Hs as [[reg [now store ds m _ Ha]]|[[t d' Ht Hk|t now id m d' Ht Hr|u]|(reg & t & Hs)]]; simpl; try exact Hsup.
  - unfold Apply in Ha. destruct (prepare _ _ _ _ _) as [p|]; cbn [res_bind] in Ha; [|done]. injection Ha as <-.
    intros cur. simpl. rewrite lookup_fmap. intros (d0 & _ & ->)%fmap_Some. simpl. lia.
  - unfold RefreshNow in Hr. destruct (defs (sys_m s) !! id); [|done]. destruct (negb _ && _); [done|].
    injection Hr as <- <-. exact Hsup.
  - intros cur Hcur. rewrite (thread_defs _ _ _ _ Hs) in Hcur. by apply Hsup.
Qed.

Lemma superseded_commit store (m : Manager) d cs h m' err :
  superseded m d -> commitWithHistory store m d cs h = (m', err) -> m' = m.
Proof.
  intros Hs [[-> _]|(_ & _ & (cur & Hcur & E) & _)]%commit_cases; [done|]. by destruct (Hs cur Hcur).
Qed.

(** ** Retry times *)

Lemma double_until_min k base : (0 < base)%Z -> minDuration (double_until k base) hour = Z.min hour (base * 2 ^ Z.of_nat k).
Proof.
  revert base. induction k as [|k IH]; intros base Hb; cbn [double_until].
  - unfold minDuration. destruct (Z.ltb_spec base hour); lia.
  - destruct (Z.ltb_spec base hour) as [Hlt|Hge].
    + rewrite IH by lia. rewrite Nat2Z.inj_succ, Z.pow_succ_r by lia. f_equal. ring.
    + unfold minDuration. destruct (Z.ltb_spec base hour); [lia|].
      assert (H2 : (0 < 2 ^ Z.of_nat (S k))%Z) by (apply Z.pow_pos_nonneg; lia). nia.
Qed.

(** The wait after [n] failures doubles from the refresh interval up to an hour. *)
Lemma backoff_doubles n base :
  (0 < base)%Z -> backoff n base = Z.min hour (base * 2 ^ Z.of_nat (Z.to_nat (n - 1)))%Z.
Proof. intros Hb. unfold backoff. destruct (Z.leb_spec base 0); [lia|]. by apply double_until_min. Qed.
End Steps.

(** ** A schedule to try *)

Definition sample_card : CardDef (RunFunc := unit) :=
  {| d_ID := "c"; d_Hash := ""; d_Key := ""; d_ManifestDigest := ""; d_ApprovalRevision := ""; d_SlotRevisions := "";
     d_Refresh := 0; d_Timeout := 0; d_Source := empty_source; d_Run := Some tt; d_Disabled := "";
     d_HistorySignals := ∅; d_SignalTypes := ∅; d_generation := 0 |}.

(** One secret is known; a run fails with an error that quotes a URL with it. *)
Definition sample_known : option Registry := Some (Track NewRegistry "hunter2-hunter2").
Definition sample_error : run_error :=
  RunFailed "Get https://upstream/api?key=hunter2-hunter2: dial tcp: connection refused".

Definition sample_apply (m : Manager) : Manager :=
  match Apply sample_known 0 None m [sample_card] with Ok m => m | Err _ => m end.
Definition sample_manager : Manager := sample_apply NewManager.
Definition sample_def : CardDef := with_generation 1 (with_defaults sample_card).

(** A configuration is applied; a refresh begins, is admitted, starts a run, gets a worker. *)
Definition applied : system :=
  {| sys_m := sample_manager; sys_threads := ∅; sys_done := ∅; sys_next := 0; sys_workers := 0;
     sys_known := [] ++ Definitions sample_manager |}.
Definition begun : system := set_phase applied 0 (PStart sample_def).
Definition admitted : system := set_phase begun 0 (PRun sample_def).
Definition joined : system := join admitted 0 sample_def.
Definition executing : system := set_phase (set_workers joined 1) 0 (PExec sample_def 0).
Definition released : system := set_phase (set_workers executing 0) 0 (PRelease sample_def 0 (Err sample_error, 0%Z)).
Definition failed : system := finish released 0 sample_def 0 (Err sample_error, 0%Z).
Definition counting : system := set_phase failed 0 (PCount sample_def sample_error).
Definition counted : system :=
  let '(m, n, prev) := count_failure (sys_m counting) "c" in
  set_phase (set_m counting m) 0 (PCommit sample_def (failure_state 0 0 0 sample_def sample_error n prev).2 ∅).
Definition committed : system :=
  match sys_threads counted !! 0 with
  | Some (PCommit d cs h) => set_phase (set_m counted (commitWithHistory None (sys_m counted) d cs h).1) 0 (PEnd None)
  | _ => counted
  end.

(** While it runs, or before its failure is counted, a second configuration is applied. *)
Definition reapplied (s : system) : system :=
  {| sys_m := sample_apply (sys_m s); sys_threads := sys_threads s; sys_done := sys_done s; sys_next := sys_next s;
     sys_workers := sys_workers s; sys_known := sys_known s ++ Definitions (sample_apply (sys_m s)) |}.

Lemma sample_step t (s s' : system (RunFunc := unit)) : reachable id sample_known s -> run_step id sample_known t s s' -> reachable id sample_known s'.
Proof. intros Hr Hs. eapply reach_thread; [exact Hr|apply tracks_refl|left; exact Hs]. Qed.

Lemma executing_reachable : reachable id sample_known executing.
Proof.
  eapply (sample_step 0); [|eapply (step_acquire _ _ 0 joined sample_def 0); [reflexivity|vm_compute; lia]].
  eapply (sample_step 0); [|eapply (step_join _ _ 0 admitted sample_def); reflexivity].
  eapply (sample_step 0); [|eapply (step_gate _ _ 0 begun sample_def 1); vm_compute; reflexivity].
  eapply reach_env; [|eapply (step_begin applied 0 sample_def); [reflexivity|left]].
  eapply reach_apply; [apply reach_start|]. eapply (step_apply _ start 0 None [sample_card]); [done|vm_compute; reflexivity].
Qed.

Lemma counting_reachable : reachable id sample_known counting.
Proof.
  eapply (sample_step 0); [|eapply (step_judge _ _ 0 failed sample_def (Err sample_error, 0%Z) 0 None); reflexivity].
  eapply (sample_step 0); [|eapply (step_finish _ _ 0 released sample_def 0); reflexivity].
  eapply (sample_step 0); [|eapply (step_run _ _ 0 executing sample_def 0); reflexivity].
  apply executing_reachable.
Qed.

Lemma committed_reachable : reachable id sample_known committed.
Proof.
  eapply (sample_step 0); [|eapply (step_commit _ _ 0 counted sample_def _ _ None); reflexivity].
  eapply (sample_step 0); [|eapply (step_count _ _ 0 counting sample_def sample_error 0 0 0); reflexivity].
  apply counting_reachable.
Qed.

Lemma reapplied_reachable s :
  reachable id sample_known s -> is_ok (Apply sample_known 0 None (sys_m s) [sample_card]) = true -> reachable id sample_known (reapplied s).
Proof.
  intros Hr Ho. eapply reach_apply; [exact Hr|]. unfold reapplied, sample_apply.
  destruct (Apply sample_known 0 None (sys_m s) [sample_card]) as [m|] eqn:E; [|done]. by eapply (step_apply _ s 0 None [sample_card]).
Qed.

(** The failure of a replaced definition's run still counts against the card that replaced it:
    counting is not fenced by the generation, only committing is. *)
Example superseded_failure_counted :
  reachable id sample_known (reapplied counting)
  /\ superseded (sys_m (reapplied counting)) sample_def
  /\ failures (sys_m (reapplied counting)) !! "c" = None
  /\ exists s', thread_step id sample_known 0 (reapplied counting) s' /\ failures (sys_m s') !! "c" = Some 1%Z.
Proof.
  split_and!.
  - apply reapplied_reachable; [apply counting_reachable|reflexivity].
  - intros cur H. vm_compute in H. injection H as <-. discriminate.
  - reflexivity.
  - eexists. split; [left; eapply (step_count _ _ 0 _ sample_def sample_error 0 0 0); reflexivity|vm_compute; reflexivity].
Qed.

(** The scan reads the document only: the text of a run's error is served as it is, a known secret
    in it included. *)
Example error_text_not_scanned :
  reachable id sample_known committed
  /\ (cs ← states (sys_m committed) !! "c"; re_Message <$> ex_Error (cs_Execution cs))
     = Some "Get https://upstream/api?key=hunter2-hunter2: dial tcp: connection refused"
  /\ (r ← sample_known; Some (bool_decide ("hunter2-hunter2" ∈ values r))) = Some true.
Proof. split_and!; [apply committed_reachable|vm_compute; reflexivity..]. Qed.

(** ** The properties *)

Section Properties.
Context {RunFunc : Type}.
Variable sortSlice : list Sample -> list Sample.

Local Abbreviation reachable := (@reachable RunFunc sortSlice).
Local Abbreviation run_step := (@run_step RunFunc sortSlice).
Local Abbreviation thread_step := (@thread_step RunFunc sortSlice).
Local Abbreviation thread_steps := (@thread_steps RunFunc sortSlice).
Local Abbreviation run_steps := (@run_steps RunFunc sortSlice).
Local Abbreviation moves := (@moves RunFunc sortSlice).

(** C2. However refreshes, configuration changes and manual requests interleave, and however the
    registry of secrets grows meanwhile, each configured card has exactly one state, which is legal, is
    that card's own, and in whose document no text that is scanned (see [document_texts]) contains a
    secret that was known when the configuration in force was applied. The text of a run's error is not
    scanned: [error_text_not_scanned]. *)
Theorem served_states_sound known s :
  reachable known s ->
  (forall id, is_Some (states (sys_m s) !! id) <-> is_Some (defs (sys_m s) !! id))
  /\ forall id cs, states (sys_m s) !! id = Some cs ->
     Validate cs = None /\ cs_CardID cs = id
     /\ forall reg doc text v, known = Some reg -> cs_Document cs = Some doc -> text ∈ document_texts doc -> v ∈ values reg ->
          ~ exists a b, text = a +:+ v +:+ b.
Proof.
  intros H%reachable_data. split; [apply H|]. intros id cs Hcs. destruct (di_states _ _ H _ _ Hcs) as (H1 & H2 & H3).
  split_and!; [done..|]. intros reg doc text v -> Hdoc Ht Hv He. rewrite Hdoc in H3. simpl in H3.
  apply not_true_iff_false in H3. apply H3, document_scan_exact. right. by exists text, v.
Qed.

(** At most eight runs execute at once, and never two for the same key: two refreshes that are
    running for one generation and key are the same refresh. *)
Theorem single_flight known s :
  reachable known s ->
  workers_busy (sys_threads s) <= 8
  /\ forall t t' d d' f f', sys_threads s !! t = Some (PExec d f) -> sys_threads s !! t' = Some (PExec d' f') ->
     flight_key d = flight_key d' -> t = t' /\ f = f'.
Proof.
  intros H%reachable_flights. split.
  - destruct (fi_workers s H) as [<- Hle]. exact Hle.
  - intros t t' d d' f f' Ht Ht' Hk. assert (Hf := fi_own s H _ _ _ _ Ht eq_refl).
    assert (Hf' := fi_own s H _ _ _ _ Ht' eq_refl). rewrite Hk, Hf' in Hf. injection Hf as ->.
    split; [|done]. by eapply (fi_unique s H).
Qed.

(** C25. A refresh of a replaced definition changes nothing that is served: no step of it touches the
    states, the event numbers or the subscribers, and a definition once replaced stays replaced,
    whatever happens. *)
Theorem superseded_writes_nothing known s t p d :
  reachable known s -> sys_threads s !! t = Some p -> phase_def p = Some d -> superseded (sys_m s) d ->
  (forall reg s', thread_step reg t s s' -> states (sys_m s') = states (sys_m s) /\ nextID (sys_m s') = nextID (sys_m s)
     /\ subs (sys_m s') = subs (sys_m s))
  /\ (forall s', moves s s' -> superseded (sys_m s') d).
Proof.
  intros Hr Ht Hd Hs. assert (Hi := reachable_data _ _ _ Hr). split.
  - intros reg s' [Hstep|[]]; [|done..].
    destruct Hstep as [| | | | | | | |d' e n1 n2 n3 m n prev p' Ht' Hc _| |d' cs h store m err Ht' Hc]; try done.
    + unfold join. by destruct (flights (sys_m s) !! flight_key d0).
    + unfold count_failure in Hc. by injection Hc as <- _ _.
    + rewrite Ht in Ht'. injection Ht' as ->. injection Hd as ->. by rewrite (superseded_commit _ _ _ _ _ _ _ Hs Hc).
  - intros s' Hm. eapply moves_superseded; [exact Hi|exact Hm|by eapply (di_gen _ _ Hi)|exact Hs].
Qed.

(** C39. Every refresh ends, and leaves nothing taken behind. The refreshes under way can take only so
    many steps, in whatever order they take them; there is a way to the end of all of them on which
    no wait is cancelled; and when all have ended no worker is taken and no run in flight, so a later
    refresh of any key finds its worker and starts a run of its own. Until then the workers taken are
    those of the refreshes that execute, and each run in flight is owned by a refresh still under way. *)
Theorem refresh_terminates known s :
  reachable known s ->
  (forall n s', thread_steps n s s' -> n <= 11 * size (sys_threads s))
  /\ (exists s', run_steps known s s' /\ quiet s')
  /\ (forall t p, sys_threads s !! t = Some p -> phase_def p <> None -> exists t' s', run_step known t' s s')
  /\ ((forall t p, sys_threads s !! t = Some p -> phase_def p = None) -> sys_workers s = 0 /\ flights (sys_m s) = ∅)
  /\ sys_workers s = workers_busy (sys_threads s)
  /\ (forall k f, flights (sys_m s) !! k = Some f ->
        exists t p d, sys_threads s !! t = Some p /\ owns p = Some (d, f) /\ flight_key d = k).
Proof.
  intros Hr. assert (Hi := reachable_flights _ _ _ Hr). assert (Ho := reachable_owners _ _ _ Hr). split_and!.
  - intros n s' H%thread_steps_bound. assert (Hle := distance_le (sys_threads s)). lia.
  - by apply runs_to_quiet.
  - intros t p Ht Hd. by eapply can_run.
  - intros He. by apply ended_quiet.
  - apply (fi_workers s Hi).
  - intros k f Hf. destruct (oi_owned s Ho _ _ Hf) as (t & p & d & H1 & H2 & H3). exists t, p, d. split_and!; [done..|by apply H3].
Qed.
End Properties.

Example served_states_sound_witness :
  states (sys_m executing) !! "c" = Some (Pending "c") /\ Validate (Pending "c") = None.
Proof.
  split; [reflexivity|].
  destruct (served_states_sound id sample_known executing executing_reachable) as [_ H].
  by destruct (H "c" (Pending "c") eq_refl).
Defined.

Example single_flight_witness :
  workers_busy (sys_threads executing) = 1 /\ workers_busy (sys_threads executing) <= 8.
Proof. split; [reflexivity|]. apply (single_flight id sample_known executing executing_reachable). Defined.

Example superseded_writes_nothing_witness :
  sys_threads (reapplied counting) !! 0 = Some (PCount sample_def sample_error)
  /\ forall s', thread_step id sample_known 0 (reapplied counting) s' -> states (sys_m s') = states (sys_m (reapplied counting)).
Proof.
  split; [reflexivity|]. intros s' Hs.
  refine (proj1 (proj1 (superseded_writes_nothing id sample_known (reapplied counting) 0 (PCount sample_def sample_error) sample_def
                          _ _ _ _) sample_known s' Hs)).
  - apply reapplied_reachable; [apply counting_reachable|reflexivity].
  - reflexivity.
  - reflexivity.
  - intros cur H. vm_compute in H. injection H as <-. discriminate.
Defined.

Example refresh_terminates_witness :
  sys_workers executing = 1 /\ flights (sys_m executing) <> ∅ /\ exists s', run_steps id sample_known executing s' /\ quiet s'.
Proof.
  split; [reflexivity|]. split; [discriminate|].
  exact (proj1 (proj2 (refresh_terminates id sample_known executing executing_reachable))).
Defined.
