(* ===== verification/Storage.v ===== *)
(** * internal/storage: what the database keeps between runs

    Card states bound to the identity they were produced under, signal history, events, connection
    revisions, settings, rule states and the notification outbox. Each operation is a computation
    over the tables of [Database.v] in which any statement may fail; the current time is an
    argument of whatever reads the clock. [Storage_store] shows the store to the scheduler through
    the interface its refreshes are written against. *)
From S2P Require Import Prelude GoSort GoTime TimeText Sql Database State Scheduler.
From Stdlib Require Import Sorting.Sorted.

Abbreviation SqlDB := (Sql DB) (only parsing).

Definition stamp (t : Time) : string := Format_RFC3339Nano t.

(** [Event] *)
Record StoredEvent := {
  se_Timestamp : string; se_Type : string; se_Severity : string; se_Source : string; se_CardID : string;
  se_Message : string; se_Data : string }.

Record Notification := { no_ID : Z; no_Channel : string; no_Payload : string; no_Attempts : Z }.

Record NotificationRequest := {
  nr_Channel : string; nr_DedupeKey : string; nr_Payload : string; nr_Now : Time; nr_Cooldown : Duration; nr_PerHour : Z }.

Record RuleState := {
  rs_RuleID : string; rs_RuleHash : string; rs_LastResult : string; rs_Since : Time; rs_Deadline : Time; rs_FiredAt : Time;
  rs_ResolvedAt : Time; rs_WrongType : bool }.

Section Storage.
Variable marshal_state : CardState -> res string string.         (* json.Marshal of a card state *)
Variable unmarshal_state : string -> res string CardState.       (* json.Unmarshal *)
Variable json_Valid : string -> bool.
Variable marshal_channel : string -> string.                     (* json.Marshal of {"channel": id} *)

(** ** storage.go *)

(** One turn of [migrate]: the migrations of the embedded directory, in name order. *)
Definition migrate_one (m : Z * SqlDB unit) : SqlDB unit :=
  do* exists_ <- query (fun d => bool_decide (m.1 ∈ t_versions d));
  if exists_ : bool then sql_ret tt
  else transaction (
    do* _ <- m.2;
    do* _ <- update (on_versions (fun v => {[m.1]} ∪ v));
    sql_ret (tt, true)).
Definition migrate (ms : list (Z * SqlDB unit)) : SqlDB unit := sql_each migrate_one ms.

Definition card_row_of (now : Time) (r : CardRecord) (cs : CardState) (envelope : string) : card_row :=
  let e := cs_Execution cs in
  {| cw_card_hash := cr_CardHash r; cw_manifest_digest := cr_ManifestDigest r; cw_approval_revision := cr_ApprovalRevision r;
     cw_slot_revisions := cr_SlotRevisions r; cw_envelope := envelope; cw_state := ex_State e;
     cw_generated_at := nullString (ex_GeneratedAt e); cw_expires_at := nullString (ex_ExpiresAt e);
     cw_next_run_at := nullString (ex_NextRunAt e); cw_updated_at := stamp now |}.

(** The samples of one execution, one statement each. *)
Definition put_samples (cardID timestamp : string) (values : gmap string Float64) : SqlDB unit :=
  sql_each (fun p => update (on_history (<[(cardID, p.1, timestamp) := p.2]>))) (map_to_list values).

Definition put_card (now : Time) (r : CardRecord) (cs : CardState) (signals : gmap string Float64) : SqlDB unit :=
  match Validate cs with
  | Some e => sql_fail e
  | None =>
      match marshal_state cs with
      | Err e => sql_fail e
      | Ok b => transaction (
          do* _ <- update (on_cards (<[cs_CardID cs := card_row_of now r cs b]>));
          do* _ <- put_samples (cs_CardID cs) (ex_GeneratedAt (cs_Execution cs)) signals;
          sql_ret (tt, true))
      end
  end.

(** A component of the identity is checked when the caller supplies it. *)
Definition component_ok (expected stored : string) : bool := String.eqb expected "" || String.eqb stored expected.
Definition identity_ok (expected : CardRecord) (row : card_row) : bool :=
  String.eqb (cw_card_hash row) (cr_CardHash expected)
  && component_ok (cr_ManifestDigest expected) (cw_manifest_digest row)
  && component_ok (cr_ApprovalRevision expected) (cw_approval_revision row)
  && component_ok (cr_SlotRevisions expected) (cw_slot_revisions row).

Definition get_card (id : string) (expected : CardRecord) : SqlDB (option CardState) :=
  do* row <- query (fun d => t_cards d !! id);
  match row with
  | None => sql_ret None
  | Some row =>
      if negb (identity_ok expected row)
      then do* _ <- update (on_cards (delete id)); sql_ret None
      else match unmarshal_state (cw_envelope row) with
           | Err e => sql_fail e
           | Ok out => match Validate out with
                       | Some e => sql_fail e
                       | None => sql_ret (Some out)
                       end
           end
  end.

(** [Setting]: it calls itself again after inserting, whoever's insert won. [random] is what
    [rand.Read] gives this attempt. *)
Fixpoint Setting (fuel : nat) (key : string) (size : nat) (random : res string string) : SqlDB string :=
  match fuel with
  | 0 => sql_fail "recursion"
  | S fuel =>
      do* value <- query (fun d => t_settings d !! key);
      match value with
      | Some v => if negb (Nat.eqb (String.length v) size) then sql_fail "setting size" else sql_ret v
      | None =>
          match random with
          | Err e => sql_fail e
          | Ok v => do* _ <- update (on_settings (fun m => if bool_decide (is_Some (m !! key)) then m else <[key := v]> m));
                    Setting fuel key size random
          end
      end
  end.

(** The revision of one connection: kept while its material is the same and it has one. *)
Definition next_revision (old : gmap string connection_row) (random : string -> res string string) (id material : string)
  : res string string :=
  let revision := match old !! id with
                  | Some p => if String.eqb (cx_material_hmac p) material then cx_revision p else ""
                  | None => ""
                  end in
  if String.eqb revision "" then random id else Ok revision.

Fixpoint sync_each (now : Time) (old : gmap string connection_row) (random : string -> res string string)
  (l : list (string * string)) (out : gmap string string) : SqlDB (gmap string string) :=
  match l with
  | [] => sql_ret out
  | (id, material) :: l =>
      match next_revision old random id material with
      | Err e => sql_fail e
      | Ok revision =>
          do* _ <- exec (fun d => if bool_decide (is_Some (t_connections d !! id)) then Err "UNIQUE constraint failed"
                    else Ok (on_connections (<[id := {| cx_revision := revision; cx_material_hmac := material; cx_rotated_at := stamp now |}]>) d, tt));
          sync_each now old random l (<[id := revision]> out)
      end
  end.

Definition SyncConnectionRevisions (now : Time) (random : string -> res string string) (materials : gmap string string)
  : SqlDB (gmap string string) :=
  transaction (
    do* old <- query t_connections;
    do* _ <- update (on_connections (fun _ => ∅));
    do* out <- sync_each now old random (map_to_list materials) ∅;
    sql_ret (out, true)).

Definition ConnectionRevision (id : string) : SqlDB (option string) :=
  query (fun d => cx_revision <$> t_connections d !! id).

(** [Prune] *)
Definition Prune (before_ : Time) : SqlDB unit :=
  do* _ <- update (on_history (filter (fun p => str_ltb p.1.2 (stamp before_) = false)));
  do* _ <- update (on_events (filter (fun e => str_ltb (er_ts e) (stamp before_) = false)));
  update (on_kv (filter (fun p => bool_decide (is_Some p.2.2) && str_ltb (default "" p.2.2) (stamp before_) = false))).

(** ** events.go *)

Definition maxEventData : nat := 65536.
Definition maxEventMessage : nat := 4096.

Definition validateEvent (now : Time) (e : StoredEvent) : res string StoredEvent :=
  if String.eqb (se_Type e) "" || String.eqb (se_Severity e) "" then Err "storage: event type and severity are required"
  else if (Nat.ltb maxEventData (String.length (se_Data e)) || Nat.ltb maxEventMessage (String.length (se_Message e)))
  then Err "storage: event exceeds size limit"
  else if (Nat.ltb 0 (String.length (se_Data e)) && negb (json_Valid (se_Data e)))%bool
  then Err "storage: event data is not valid JSON"
  else Ok (if String.eqb (se_Timestamp e) ""
           then {| se_Timestamp := stamp now; se_Type := se_Type e; se_Severity := se_Severity e; se_Source := se_Source e;
                   se_CardID := se_CardID e; se_Message := se_Message e; se_Data := se_Data e |}
           else e).

(** [INSERT INTO events]: the next id. *)
Definition insert_event (ts type severity : string) (source card message : option string) (data : string) (d : DB) : DB :=
  let id := (t_event_seq d + 1)%Z in
  on_event_seq (fun _ => id) (on_events (fun es => es ++
    [{| er_id := id; er_ts := ts; er_type := type; er_severity := severity; er_source := source; er_card_id := card;
        er_message := message; er_data := data |}]) d).

Definition appendEventTx (now : Time) (e : StoredEvent) : SqlDB unit :=
  match validateEvent now e with
  | Err er => sql_fail er
  | Ok e => update (insert_event (se_Timestamp e) (se_Type e) (se_Severity e) (nullString (se_Source e))
                      (nullString (se_CardID e)) (nullString (se_Message e)) (se_Data e))
  end.
Definition AppendEvent : Time -> StoredEvent -> SqlDB unit := appendEventTx.

Definition defaultRecentEventsLimit : Z := 100.
Definition maxRecentEventsLimit : Z := 200.

Definition RecentEvents (limit : Z) : SqlDB (list event_row) :=
  let limit := if ((limit <=? 0) || (maxRecentEventsLimit <? limit))%Z then defaultRecentEventsLimit else limit in
  query (fun d => take (Z.to_nat limit) (reverse (t_events d))).

Definition PutSignalHistory (cardID timestamp : string) (values : gmap string Float64) : SqlDB unit :=
  transaction (do* _ <- put_samples cardID timestamp values; sql_ret (tt, true)).

(** [Duration.Hours] *)
Definition Hours (d : Duration) : Float64 :=
  float_add (float_of (Z.quot d hour)) (float_div (float_of (Z.rem d hour)) (float_of 3600000000000)).

(** [SignalHistory]. The engine groups the readings of the text range by [julianday] and averages
    them: [aggregate base perDay rows] gives the latest time and the average of each group. *)
Definition text_range (from to : Time) (ts : string) : bool :=
  str_leb (Format_RFC3339 (from - second)) ts && str_leb ts (stamp (to + second)).
Definition history_rows (cardID signal : string) (from to : Time) (d : DB) : list (string * Float64) :=
  omap (fun p => let '((c, s, ts), v) := p in
                 if String.eqb c cardID && String.eqb s signal && text_range from to ts then Some (ts, v) else None)
    (map_to_list (t_history d)).
Definition keep_sample (from to : Time) (row : string * Float64) : option Sample :=
  match time_Parse row.1 with
  | None => None
  | Some t => if before t from || before to t then None else Some {| sm_T := t; sm_V := row.2 |}
  end.
Definition signal_history (aggregate : string -> Float64 -> list (string * Float64) -> list (string * Float64))
  (cardID signal : string) (from to : Time) (buckets : nat) : SqlDB (list Sample) :=
  let buckets := Nat.max 1 buckets in
  let perDay := float_mul (float_div (float_of (Z.of_nat buckets)) (Hours (to - from))) (float_of 24) in
  do* rows <- query (fun d => aggregate (stamp from) perDay (history_rows cardID signal from to d));
  sql_ret (omap (keep_sample from to) rows).

(** ** notifications.go *)

Definition active (state : string) : bool := String.eqb state "pending" || String.eqb state "sending".

(** The key of the unique index [notifications_dedupe]. *)
Definition active_key (n : note_row) : option string := if active (nt_state n) then nt_dedupe_key n else None.
Definition holds_key (k : string) (n : note_row) : bool := bool_decide (active_key n = Some k).

Definition set_note (n : note_row) (state : string) (attempts : Z) (next err : option string) : note_row :=
  {| nt_id := nt_id n; nt_created_at := nt_created_at n; nt_channel := nt_channel n; nt_dedupe_key := nt_dedupe_key n;
     nt_payload := nt_payload n; nt_state := state; nt_attempts := attempts; nt_next_attempt_at := next; nt_last_error := err |}.

(** [INSERT OR IGNORE INTO notifications]: whether a row was inserted. *)
Definition insert_note (r : NotificationRequest) (d : DB) : DB * bool :=
  let key := nullString (nr_DedupeKey r) in
  if (match key with Some k => existsb (holds_key k) (t_notes d) | None => false end) then (d, false)
  else let id := (t_note_seq d + 1)%Z in
       (on_note_seq (fun _ => id) (on_notes (fun ns => ns ++
         [{| nt_id := id; nt_created_at := stamp (nr_Now r); nt_channel := nr_Channel r; nt_dedupe_key := key;
             nt_payload := nr_Payload r; nt_state := "pending"; nt_attempts := 0;
             nt_next_attempt_at := Some (stamp (nr_Now r)); nt_last_error := None |}]) d), true).

(** The rows that hold a request back: same key and still to be sent, or created in the cooldown. *)
Definition recent_duplicates (r : NotificationRequest) (d : DB) : list note_row :=
  filter (fun n => nt_dedupe_key n = Some (nr_DedupeKey r)
                   /\ (active (nt_state n) = true \/ str_leb (stamp (nr_Now r - nr_Cooldown r)) (nt_created_at n) = true))
    (t_notes d).

(** The rows of the channel created in the last hour. *)
Definition last_hour (channel : string) (now : Time) (ns : list note_row) : list note_row :=
  filter (fun n => nt_channel n = channel /\ str_leb (stamp (now - hour)) (nt_created_at n) = true) ns.

Definition per_hour (r : NotificationRequest) : Z := if (nr_PerHour r <=? 0)%Z then 20%Z else nr_PerHour r.

Definition suspended_message : string := "Notification channel suspended after reaching its hourly ceiling".

Definition enqueueNotificationTx (r : NotificationRequest) : SqlDB (bool * bool) :=
  do* suspended <- query (fun d => t_channels d !! nr_Channel r ≫= ch_suspended_until);
  match (match suspended with
         | Some s => match time_Parse s with None => Err "time" | Some until => Ok (before (nr_Now r) until) end
         | None => Ok false
         end) with
  | Err e => sql_fail e
  | Ok true => sql_ret (false, false)
  | Ok false =>
      do* count <- (if ((0 <? nr_Cooldown r)%Z && negb (String.eqb (nr_DedupeKey r) ""))%bool
                    then query (fun d => length (recent_duplicates r d)) else sql_ret 0);
      if Nat.ltb 0 count then sql_ret (false, false)
      else
        do* hourly <- query (fun d => Z.of_nat (length (last_hour (nr_Channel r) (nr_Now r) (t_notes d))));
        if (per_hour r <=? hourly)%Z then
          do* _ <- update (on_channels (<[nr_Channel r := {| ch_suspended_until := Some (stamp (nr_Now r + hour));
                                                            ch_suspension_reported_at := Some (stamp (nr_Now r)) |}]>));
          do* _ <- update (insert_event (stamp (nr_Now r)) "notification.suspended" "warning" (Some "notifications") None
                             (Some suspended_message) (marshal_channel (nr_Channel r)));
          sql_ret (false, true)
        else
          do* inserted <- exec (fun d => Ok (insert_note r d));
          sql_ret (inserted, false)
  end.

Definition EnqueueNotification (r : NotificationRequest) : SqlDB (bool * bool) :=
  transaction (do* out <- enqueueNotificationTx r; sql_ret (out, true)).

Definition ResetSendingNotifications : SqlDB unit :=
  update (on_notes (map (fun n => if String.eqb (nt_state n) "sending"
                                  then set_note n "pending" (nt_attempts n) (nt_next_attempt_at n) (nt_last_error n) else n))).

Definition due (now : Time) (n : note_row) : bool :=
  String.eqb (nt_state n) "pending"
  && match nt_next_attempt_at n with None => true | Some x => str_leb x (stamp now) end.

(** [ClaimNotification]: [None] when nothing is due. *)
Definition ClaimNotification (now : Time) : SqlDB (option Notification) :=
  transaction (
    do* row <- query (fun d => List.find (due now) (t_notes d));
    match row with
    | None => sql_ret (None, true)
    | Some n =>
        let out := {| no_ID := nt_id n; no_Channel := nt_channel n; no_Payload := nt_payload n; no_Attempts := nt_attempts n + 1 |} in
        do* changed <- exec (fun d => Ok
          (on_notes (map (fun m => if ((nt_id m =? nt_id n)%Z && String.eqb (nt_state m) "pending")%bool
                                   then set_note m "sending" (no_Attempts out) (nt_next_attempt_at m) (nt_last_error m) else m)) d,
           length (filter (fun m => nt_id m = nt_id n /\ nt_state m = "pending") (t_notes d))));
        if negb (Nat.eqb changed 1) then sql_ret (None, false) else sql_ret (Some out, true)
    end).

Definition CompleteNotification (id : Z) : SqlDB unit :=
  update (on_notes (map (fun n => if (nt_id n =? id)%Z then set_note n "sent" (nt_attempts n) None None else n))).

(** [FailNotification]; making a row pending again can hit the unique index. *)
Definition FailNotification (id : Z) (next : Time) (message : string) (abandon : bool) : SqlDB unit :=
  exec (fun d =>
    let ns := map (fun n => if (nt_id n =? id)%Z
                            then set_note n (if abandon then "abandoned" else "pending") (nt_attempts n)
                                   (if abandon then None else Some (stamp next)) (Some message) else n) (t_notes d) in
    if bool_decide (NoDup (omap active_key ns)) then Ok (on_notes (fun _ => ns) d, tt) else Err "UNIQUE constraint failed").

(** ** rules.go *)

Definition nullTime (t : Time) : option string := if isZero t then None else Some (stamp t).

Definition rule_row_of (v : RuleState) : rule_row :=
  {| rl_rule_hash := rs_RuleHash v; rl_since := nullTime (rs_Since v); rl_deadline_at := nullTime (rs_Deadline v);
     rl_last_result := rs_LastResult v; rl_fired_at := nullTime (rs_FiredAt v); rl_resolved_at := nullTime (rs_ResolvedAt v);
     rl_wrong_type := rs_WrongType v |}.

Definition putRuleState (v : RuleState) : SqlDB unit := update (on_rules (<[rs_RuleID v := rule_row_of v]>)).
Definition PutRuleState : RuleState -> SqlDB unit := putRuleState.

(** A NULL leaves the zero time. *)
Definition read_time (o : option string) : option Time :=
  match o with None => Some 0%Z | Some s => time_Parse s end.

Definition rule_of_row (id : string) (r : rule_row) : res string RuleState :=
  match read_time (rl_since r), read_time (rl_deadline_at r), read_time (rl_fired_at r), read_time (rl_resolved_at r) with
  | Some s, Some dl, Some f, Some rs =>
      Ok {| rs_RuleID := id; rs_RuleHash := rl_rule_hash r; rs_LastResult := rl_last_result r; rs_Since := s; rs_Deadline := dl;
            rs_FiredAt := f; rs_ResolvedAt := rs; rs_WrongType := rl_wrong_type r |}
  | _, _, _, _ => Err "time"
  end.

Definition GetRuleState (id hash : string) : SqlDB (option RuleState) :=
  do* row <- query (fun d => t_rules d !! id);
  match row with
  | None => sql_ret None
  | Some r => if negb (String.eqb (rl_rule_hash r) hash) then sql_ret None
              else match rule_of_row id r with Err e => sql_fail e | Ok v => sql_ret (Some v) end
  end.

Fixpoint enqueue_all (rs : list NotificationRequest) (wake : bool) : SqlDB bool :=
  match rs with
  | [] => sql_ret wake
  | r :: rs => do* ' (enqueued, _) <- enqueueNotificationTx r; enqueue_all rs (wake || enqueued)
  end.

Definition CommitRuleTransition (now : Time) (v : RuleState) (event : option StoredEvent)
  (notifications : list NotificationRequest) : SqlDB bool :=
  match (match event with Some e => validateEvent now e | None => Ok {| se_Timestamp := ""; se_Type := ""; se_Severity := "";
           se_Source := ""; se_CardID := ""; se_Message := ""; se_Data := "" |} end) with
  | Err e => sql_fail e
  | Ok _ => transaction (
      do* wake <- enqueue_all notifications false;
      do* _ <- match event with Some e => appendEventTx now e | None => sql_ret tt end;
      do* _ <- putRuleState v;
      sql_ret (wake, true))
  end.
End Storage.

(** ** The operations as one alphabet *)

Inductive store_op :=
| OpPutCard (now : Time) (r : CardRecord) (cs : CardState) (signals : gmap string Float64)
| OpGetCard (id : string) (expected : CardRecord)
| OpSetting (fuel : nat) (key : string) (size : nat) (random : res string string)
| OpSync (now : Time) (random : string -> res string string) (materials : gmap string string)
| OpPrune (before_ : Time)
| OpAppendEvent (now : Time) (e : StoredEvent)
| OpPutHistory (cardID timestamp : string) (values : gmap string Float64)
| OpEnqueue (r : NotificationRequest)
| OpResetSending
| OpClaim (now : Time)
| OpComplete (id : Z)
| OpFail (id : Z) (next : Time) (message : string) (abandon : bool)
| OpPutRule (v : RuleState)
| OpCommitRule (now : Time) (v : RuleState) (event : option StoredEvent) (notifications : list NotificationRequest).

Definition drop_result {A} (m : SqlDB A) : SqlDB unit := do* _ <- m; sql_ret tt.

Lemma preserves_drop {A} (I : DB -> Prop) (m : SqlDB A) : preserves I m -> preserves I (drop_result m).
Proof. intros. by apply preserves_bind; [|intros; apply preserves_ret]. Qed.

(** Opens an operation down to its statements. *)
Ltac open_op := repeat first [apply preserves_drop|unfold AppendEvent, appendEventTx, PutSignalHistory, put_samples, Prune,
  EnqueueNotification, ClaimNotification, PutRuleState, putRuleState, CommitRuleTransition, SyncConnectionRevisions,
  get_card, put_card; progress sql_walk].

Section Operations.
Variable marshal_state : CardState -> res string string.
Variable unmarshal_state : string -> res string CardState.
Variable json_Valid : string -> bool.
Variable marshal_channel : string -> string.

Definition op_sql (o : store_op) : SqlDB unit :=
  match o with
  | OpPutCard now r cs signals => put_card marshal_state now r cs signals
  | OpGetCard id expected => drop_result (get_card unmarshal_state id expected)
  | OpSetting fuel key size random => drop_result (Setting fuel key size random)
  | OpSync now random materials => drop_result (SyncConnectionRevisions now random materials)
  | OpPrune t => Prune t
  | OpAppendEvent now e => AppendEvent json_Valid now e
  | OpPutHistory c ts values => PutSignalHistory c ts values
  | OpEnqueue r => drop_result (EnqueueNotification marshal_channel r)
  | OpResetSending => ResetSendingNotifications
  | OpClaim now => drop_result (ClaimNotification now)
  | OpComplete id => CompleteNotification id
  | OpFail id next message abandon => FailNotification id next message abandon
  | OpPutRule v => PutRuleState v
  | OpCommitRule now v event ns => drop_result (CommitRuleTransition json_Valid marshal_channel now v event ns)
  end.

(** A history of the store, each operation with whatever the engine lets happen. *)
Inductive history_of (ok : store_op -> Prop) : DB -> Prop :=
| history_start : history_of ok empty_db
| history_step d o fs : history_of ok d -> ok o -> history_of ok (db (op_sql o {| db := d; faults := fs |}).1).

Lemma history_invariant (ok : store_op -> Prop) (I : DB -> Prop) d :
  I empty_db -> (forall o, ok o -> preserves I (op_sql o)) -> history_of ok d -> I d.
Proof.
  intros H0 Hop. induction 1 as [|d o fs Hd IH Ho]; [done|]. specialize (Hop o Ho {| db := d; faults := fs |} IH).
  by destruct (op_sql o _) as [s' [a|e]].
Qed.

(** Whether the field [get] of the database is one the operation leaves alone. *)
Lemma preserves_field {B} (get : DB -> B) (P : B -> Prop) f :
  (forall d, get (f d) = get d) -> preserves (fun d => P (get d)) (update f).
Proof. intros Hf. apply preserves_update. intros d Hd. by rewrite Hf. Qed.

(** *** Cards *)

(** What is stored under a card's id reads back as a state of that card. *)
Definition cards_ok (d : DB) : Prop :=
  forall id row cs, t_cards d !! id = Some row -> unmarshal_state (cw_envelope row) = Ok cs -> cs_CardID cs = id.

Definition json_keeps_id : Prop :=
  forall cs b cs', marshal_state cs = Ok b -> unmarshal_state b = Ok cs' -> cs_CardID cs' = cs_CardID cs.

Lemma cards_other f : (forall d, t_cards (f d) = t_cards d) -> preserves cards_ok (update f).
Proof. intros Hf. by apply (preserves_field t_cards (fun m => forall id row cs, m !! id = Some row -> _ -> _)). Qed.

Lemma cards_exec {A} (f : DB -> res string (DB * A)) :
  (forall d d' a, f d = Ok (d', a) -> t_cards d' = t_cards d) -> preserves cards_ok (exec f).
Proof. intros Hf. apply preserves_exec. intros d d' a Hd Hfd. unfold cards_ok. by rewrite (Hf d d' a Hfd). Qed.

Lemma insert_note_tables r d : t_cards (insert_note r d).1 = t_cards d.
Proof. unfold insert_note. by case_match; [case_match|]. Qed.

Lemma cards_enqueue r : preserves cards_ok (enqueueNotificationTx marshal_channel r).
Proof.
  unfold enqueueNotificationTx. sql_walk; try by apply cards_other.
  apply cards_exec. intros d d' x [= E]. by rewrite <- (insert_note_tables r d), E.
Qed.

Lemma preserves_enqueue_all (I : DB -> Prop) rs wake :
  (forall r, r ∈ rs -> preserves I (enqueueNotificationTx marshal_channel r)) ->
  preserves I (enqueue_all marshal_channel rs wake).
Proof.
  revert wake; induction rs as [|r rs IH]; intros wake Hr; simpl; [apply preserves_ret|].
  apply preserves_bind; [apply Hr; left|]. intros [e n]. apply IH. intros r' H. apply Hr. by right.
Qed.

Lemma preserves_sync_each (I : DB -> Prop) now old random l out :
  (forall c d, I d -> I (on_connections c d)) -> preserves I (sync_each now old random l out).
Proof.
  intros Hc. revert out; induction l as [|[id m] l IH]; intros out; simpl; [apply preserves_ret|].
  sql_step; [|sql_walk]. apply preserves_bind; [|intros; apply IH]. apply preserves_exec. intros d d' x Hd.
  case_bool_decide; [done|]. intros [= <- <-]. by apply Hc.
Qed.

Lemma preserves_setting (I : DB -> Prop) fuel key size random :
  (forall c d, I d -> I (on_settings c d)) -> preserves I (Setting fuel key size random).
Proof.
  intros Hc. induction fuel as [|fuel IH]; simpl; [apply preserves_fail|]. sql_walk; [|exact IH].
  apply preserves_update. auto.
Qed.

Lemma cards_op o : json_keeps_id -> preserves cards_ok (op_sql o).
Proof.
  intros Hj. destruct o; cbn [op_sql]; open_op; try by apply cards_other.
  - apply preserves_update. intros d Hd id row cs'. cbn [t_cards on_cards].
    destruct (decide (id = cs_CardID cs)) as [->|Hn]; [|rewrite lookup_insert_ne by done; apply Hd].
    rewrite lookup_insert_eq. intros [= <-]. cbn [cw_envelope card_row_of]. by apply Hj.
  - apply preserves_update. intros d Hd id' row cs'. cbn [t_cards on_cards]. rewrite lookup_delete_Some.
    intros [_ H]. by apply (Hd _ _ _ H).
  - by apply preserves_setting.
  - by apply preserves_sync_each.
  - apply cards_enqueue.
  - by apply cards_exec; intros d d' x [= <- _].
  - apply cards_exec. intros d d' x. cbv zeta. by case_bool_decide; intros [= <-].
  - apply preserves_enqueue_all. intros. apply cards_enqueue.
Qed.

(** *** The outbox *)

Definition ids_ok (d : DB) : Prop :=
  StronglySorted Z.lt (map nt_id (t_notes d)) /\ Forall (fun n => nt_id n <= t_note_seq d)%Z (t_notes d).

(** The unique index. *)
Definition unique_ok (d : DB) : Prop := NoDup (omap active_key (t_notes d)).

(** Every row was, when it was created, within the ceiling of its channel's last hour. *)
Definition ceiling_ok (limit : string -> Z) (ns : list note_row) : Prop :=
  forall l1 n l2, ns = l1 ++ n :: l2 -> exists now, written now /\ written (now - hour) /\ nt_created_at n = stamp now /\
    (Z.of_nat (length (last_hour (nt_channel n) now (l1 ++ [n]))) <= limit (nt_channel n))%Z.

Definition outbox_ok (limit : string -> Z) (d : DB) : Prop := ids_ok d /\ unique_ok d /\ ceiling_ok limit (t_notes d).

(** A change of a row that keeps what it was created with. *)
Definition keeps (f : note_row -> note_row) : Prop :=
  forall n, nt_id (f n) = nt_id n /\ nt_created_at (f n) = nt_created_at n /\ nt_channel (f n) = nt_channel n
            /\ nt_dedupe_key (f n) = nt_dedupe_key n.

Lemma last_hour_map f c now l : keeps f -> length (last_hour c now (map f l)) = length (last_hour c now l).
Proof.
  intros Hf. induction l as [|n l IH]; [done|]. unfold last_hour in *. cbn [map]. rewrite !filter_cons.
  destruct (Hf n) as (_ & -> & -> & _). case_decide; simpl; by rewrite IH.
Qed.

Lemma ceiling_map limit f l : keeps f -> ceiling_ok limit l -> ceiling_ok limit (map f l).
Proof.
  intros Hf H l1 n l2 E. apply map_eq_app in E as (k1 & k2 & -> & <- & E). apply map_eq_cons in E as (m & k3 & -> & <- & <-).
  destruct (H k1 m k3 eq_refl) as (now & Hw & Hw' & Hn & Hl). exists now. destruct (Hf m) as (_ & -> & -> & _).
  split; [done|]. split; [done|]. split; [done|]. change [f m] with (map f [m]). rewrite <- map_app, last_hour_map by done. done.
Qed.

Lemma outbox_map limit f d :
  keeps f -> NoDup (omap active_key (map f (t_notes d))) -> outbox_ok limit d -> outbox_ok limit (on_notes (map f) d).
Proof.
  intros Hf Hu ((Hs & Hle) & _ & Hc). split; [|split; [exact Hu|by apply ceiling_map]]. split; cbn [t_notes on_notes t_note_seq].
  - rewrite map_map. rewrite (map_ext _ nt_id) by (intros n; apply (Hf n)). done.
  - apply Forall_map. eapply Forall_impl; [exact Hle|]. intros n Hn. simpl. by rewrite (proj1 (Hf n)).
Qed.

Lemma omap_map_same (f : note_row -> note_row) l :
  (forall n, active_key (f n) = active_key n) -> omap active_key (map f l) = omap active_key l.
Proof. intros Hf. induction l as [|n l IH]; [done|]. csimpl. by rewrite Hf, IH. Qed.

Lemma omap_map_less (f : note_row -> note_row) l :
  (forall n, active_key (f n) = active_key n \/ active_key (f n) = None) ->
  omap active_key (map f l) `sublist_of` omap active_key l.
Proof.
  intros Hf. induction l as [|n l IH]; [done|]. csimpl. destruct (Hf n) as [->| ->]; [by case_match; [constructor|]|].
  case_match; [by constructor|done].
Qed.

Lemma StronglySorted_snoc l (z : Z) : StronglySorted Z.lt l -> Forall (fun x => x < z)%Z l -> StronglySorted Z.lt (l ++ [z]).
Proof.
  induction l as [|x l IH]; intros Hs Hf; simpl; [repeat constructor|]. apply StronglySorted_inv in Hs as [Hs Hx].
  inversion_clear Hf as [|?? Hxz Hl]. constructor; [by apply IH|]. apply Forall_app. by split; [|repeat constructor].
Qed.

Lemma last_hour_last limit c now l : (Z.of_nat (length (last_hour c now l)) < limit)%Z ->
  forall n, (Z.of_nat (length (last_hour c now (l ++ [n]))) <= limit)%Z.
Proof.
  intros H n. unfold last_hour in *. rewrite filter_app, length_app.
  assert (length (filter (fun n => nt_channel n = c /\ str_leb (stamp (now - hour)) (nt_created_at n) = true) [n]) <= 1)
    by (rewrite filter_cons, filter_nil; case_decide; simpl; lia). lia.
Qed.

(** A request made at an instant whose last hour can be written, within its channel's ceiling. *)
Definition request_ok (limit : string -> Z) (r : NotificationRequest) : Prop :=
  written (nr_Now r) /\ written (nr_Now r - hour) /\ (per_hour r <= limit (nr_Channel r))%Z.

Lemma insert_note_ok limit r d : request_ok limit r ->
  (Z.of_nat (length (last_hour (nr_Channel r) (nr_Now r) (t_notes d))) < per_hour r)%Z ->
  outbox_ok limit d -> outbox_ok limit (insert_note r d).1.
Proof.
  intros (Hw & Hw' & Hp) Hl ((Hs & Hle) & Hu & Hc). unfold insert_note.
  set (key := nullString (nr_DedupeKey r)). set (row := {| nt_id := _ |}).
  destruct (match key with Some k => existsb (holds_key k) (t_notes d) | None => false end) eqn:Ek; [done|]. cbn [fst].
  split; [split|split]; cbn [t_notes t_note_seq on_notes on_note_seq].
  - rewrite map_app. apply StronglySorted_snoc; [done|]. apply Forall_map. eapply Forall_impl; [exact Hle|]. simpl. lia.
  - apply Forall_app. split; [eapply Forall_impl; [exact Hle|]; simpl; lia|]. repeat constructor. simpl. lia.
  - unfold unique_ok. cbn [t_notes on_notes on_note_seq]. rewrite omap_app. apply NoDup_app. split; [done|]. split.
    + intros k Hk%list_elem_of_omap. destruct Hk as (n & Hn & Ha). simpl. destruct key as [k'|] eqn:Ekey; [|simpl; by intros ?%elem_of_nil].
      cbn. intros ->%list_elem_of_singleton. rewrite <- not_true_iff_false, existsb_elem in Ek. apply Ek.
      exists n. split; [done|]. unfold holds_key. by apply bool_decide_eq_true.
    + simpl. destruct key; repeat constructor. by apply not_elem_of_nil.
  - intros l1 n l2 E. destruct l2 as [|m l2 _] using rev_ind.
    + apply app_inj_tail in E as [<- <-]. exists (nr_Now r). split; [done|]. split; [done|]. split; [done|].
      cbn [nt_channel row]. pose proof (last_hour_last _ _ _ _ Hl row). lia.
    + rewrite app_comm_cons, app_assoc in E. apply app_inj_tail in E as [E _]. by apply (Hc l1 n l2).
Qed.

Lemma outbox_same limit d d' : t_notes d' = t_notes d -> t_note_seq d' = t_note_seq d -> outbox_ok limit d -> outbox_ok limit d'.
Proof. intros E1 E2. unfold outbox_ok, ids_ok, unique_ok. by rewrite E1, E2. Qed.

Lemma outbox_other limit f : (forall d, t_notes (f d) = t_notes d) -> (forall d, t_note_seq (f d) = t_note_seq d) ->
  preserves (outbox_ok limit) (update f).
Proof. intros H1 H2. apply preserves_update. intros d. by apply outbox_same. Qed.

Lemma outbox_enqueue limit r : request_ok limit r -> preserves (outbox_ok limit) (enqueueNotificationTx marshal_channel r).
Proof.
  intros Hr. unfold enqueueNotificationTx. apply preserves_bind; [apply preserves_query|]. intros sus.
  destruct (match sus with Some _ => _ | None => _ end) as [[]|]; [apply preserves_ret| |apply preserves_fail].
  apply preserves_bind; [by sql_walk|]. intros c. destruct (Nat.ltb 0 c); [apply preserves_ret|].
  eapply (hoare_bind _ _ _ (fun h d => outbox_ok limit d /\ h = Z.of_nat (length (last_hour (nr_Channel r) (nr_Now r) (t_notes d))))).
  { apply hoare_exec; [done|]. by intros d d' x Hd [= <- <-]. }
  intros h. destruct (Z.leb_spec (per_hour r) h).
  - apply (hoare_conseq _ (outbox_ok limit) _ (fun _ => outbox_ok limit) _ (outbox_ok limit)); [|by intros d []|done|done].
    change (preserves (outbox_ok limit) (sql_bind (update (on_channels (<[nr_Channel r := {| ch_suspended_until := Some (stamp (nr_Now r + hour));
       ch_suspension_reported_at := Some (stamp (nr_Now r)) |}]>))) (fun _ => sql_bind (update (insert_event (stamp (nr_Now r)) "notification.suspended" "warning" (Some "notifications") None
                             (Some suspended_message) (marshal_channel (nr_Channel r)))) (fun _ => sql_ret (false, true))))).
    sql_walk; by apply outbox_other.
  - eapply hoare_bind; [|intros x; by apply (preserves_ret (outbox_ok limit))].
    apply hoare_exec; [by intros d []|]. intros d d' x [Hd ->] [= E]. pose proof (insert_note_ok limit r d Hr ltac:(lia) Hd) as Hi. by rewrite E in Hi.
Qed.

(** The conditions on what the store is asked. *)
Definition op_ok (limit : string -> Z) (o : store_op) : Prop :=
  match o with
  | OpEnqueue r => request_ok limit r
  | OpCommitRule _ _ _ ns => Forall (request_ok limit) ns
  | _ => True
  end.

Lemma outbox_op limit o : op_ok limit o -> preserves (outbox_ok limit) (op_sql o).
Proof.
  intros Ho. destruct o; cbn [op_sql op_ok] in *; open_op; try by apply outbox_other.
  - apply preserves_setting. intros c d. by apply outbox_same.
  - apply preserves_sync_each. intros c d. by apply outbox_same.
  - by apply outbox_enqueue.
  - apply preserves_update. intros d Hd. apply outbox_map; [by intros n; case_match| |done].
    rewrite omap_map_same; [apply Hd|]. intros n. case_match eqn:E; [|done]. apply String.eqb_eq in E. unfold active_key. by rewrite E.
  - apply preserves_exec. intros d d' x Hd [= <- <-]. apply outbox_map; [by intros m; case_match| |done].
    rewrite omap_map_same; [apply Hd|]. intros m. case_match eqn:E; [|done]. apply andb_true_iff in E as [_ E%String.eqb_eq].
    unfold active_key. by rewrite E.
  - apply preserves_update. intros d Hd. apply outbox_map; [by intros n; case_match| |done].
    eapply sublist_NoDup; [apply Hd|]. apply omap_map_less. intros n. case_match; [by right|by left].
  - apply preserves_exec. intros d d' x Hd. cbv zeta. case_bool_decide as Hu; [|done]. intros [= <-].
    change (outbox_ok limit (on_notes (map (fun n => if (nt_id n =? id)%Z then set_note n (if abandon then "abandoned" else "pending") (nt_attempts n)
      (if abandon then None else Some (stamp next)) (Some message) else n)) d)).
    apply outbox_map; [by intros n; cbv beta; destruct (nt_id n =? id)%Z|done|done].
  - apply preserves_enqueue_all. intros r Hr. apply outbox_enqueue. rewrite Forall_forall in Ho. by apply Ho.
Qed.

(** *** Reading a card back *)

(** What [get_card] answers about the row it finds. *)
Lemma get_card_spec id expected s s' r : get_card unmarshal_state id expected s = (s', r) ->
  match r with
  | Ok (Some cs) => exists row, t_cards (db s) !! id = Some row /\ identity_ok expected row = true
                    /\ unmarshal_state (cw_envelope row) = Ok cs /\ Validate cs = None /\ db s' = db s
  | Ok None => (forall row, t_cards (db s) !! id = Some row -> identity_ok expected row = false)
               /\ t_cards (db s') = delete id (t_cards (db s))
  | Err _ => True
  end.
Proof.
  unfold get_card, sql_bind. destruct (query_run (fun d => t_cards d !! id) s) as (s1 & E1 & [Eq|[e Eq]]); rewrite Eq; [|by intros [= <- <-]].
  destruct (t_cards (db s) !! id) as [row|] eqn:Er.
  - destruct (identity_ok expected row) eqn:Ei; cbn [negb].
    + destruct (unmarshal_state (cw_envelope row)) as [cs|] eqn:Eu; [|by intros [= <- <-]].
      destruct (Validate cs) eqn:Ev; intros [= <- <-]; [done|]. by exists row.
    + unfold update, exec. pose proof (tick_db s1) as Ht. destruct (tick s1) as [s2 [e|]]; simpl in Ht; intros [= <- <-]; [done|].
      split; [by intros row' [= <-]|]. simpl. by rewrite Ht, E1.
  - intros [= <- <-]. split; [done|]. rewrite E1. by rewrite delete_id.
Qed.

(** What a successful write leaves under the card's id. *)
Lemma put_card_ok now r cs signals s s' : put_card marshal_state now r cs signals s = (s', Ok tt) ->
  exists b, marshal_state cs = Ok b /\ Validate cs = None
    /\ t_cards (db s') = <[cs_CardID cs := card_row_of now r cs b]> (t_cards (db s)).
Proof.
  unfold put_card. destruct (Validate cs); [done|]. destruct (marshal_state cs) as [b|]; [|done]. intros Ht.
  exists b. split; [done|]. split; [done|].
  match type of Ht with transaction ?body _ = _ =>
    assert (Hh : hoare (fun d => t_cards d = t_cards (db s)) (transaction body)
      (fun _ d => t_cards d = <[cs_CardID cs := card_row_of now r cs b]> (t_cards (db s))) (fun _ => True)) end.
  - pose (I := fun d => t_cards d = <[cs_CardID cs := card_row_of now r cs b]> (t_cards (db s))).
    apply hoare_transaction; [| |done].
    + eapply (hoare_bind _ _ _ (fun _ => I)); [apply hoare_update; intros d Hd; unfold I; cbn [t_cards on_cards]; by rewrite Hd|].
      intros _. eapply (hoare_bind _ _ _ (fun _ => I)); [|intros _; by apply hoare_ret].
      apply (hoare_conseq _ I _ (fun _ => I) _ I); [|done|done|done].
      apply preserves_each. intros p. by apply (preserves_field t_cards (fun m => m = _)).
    + intros s0 a s1 _. unfold sql_bind, sql_ret. repeat case_match; congruence.
  - specialize (Hh s eq_refl). by rewrite Ht in Hh.
Qed.

(** *** Rule transitions *)

Lemma read_null t : (0 <= t < last_second * second)%Z -> read_time (nullTime t) = Some t.
Proof.
  intros Ht. unfold nullTime, isZero. destruct (Z.eqb_spec t 0) as [->|]; [done|]. simpl. by apply parse_format.
Qed.

Definition storable (v : RuleState) : Prop :=
  written (rs_Since v) /\ written (rs_Deadline v) /\ written (rs_FiredAt v) /\ written (rs_ResolvedAt v).

Lemma rule_round_trip v : storable v -> rule_of_row (rs_RuleID v) (rule_row_of v) = Ok v.
Proof.
  intros (H1 & H2 & H3 & H4). unfold rule_of_row, rule_row_of. simpl. rewrite !read_null by done. by destruct v.
Qed.

(** From database [d] to [d'] the outbox only gained rows, some if [w]; the rules are the same. *)
Definition gained (w : bool) (d d' : DB) : Prop :=
  t_rules d' = t_rules d /\ exists new, t_notes d' = t_notes d ++ new /\ (w = false <-> new = [])
    /\ Forall (fun n => nt_state n = "pending" /\ nt_attempts n = 0%Z) new.

Lemma gained_refl d : gained false d d.
Proof. split; [done|]. exists []. rewrite app_nil_r. by repeat split. Qed.
Lemma gained_same w d d1 d2 : t_rules d2 = t_rules d1 -> t_notes d2 = t_notes d1 -> gained w d d1 -> gained w d d2.
Proof. intros E1 E2. unfold gained. by rewrite E1, E2. Qed.
Lemma gained_trans a b d d1 d2 : gained a d d1 -> gained b d1 d2 -> gained (a || b) d d2.
Proof.
  intros (E1 & n1 & H1 & W1 & F1) (E2 & n2 & H2 & W2 & F2). split; [congruence|]. exists (n1 ++ n2).
  rewrite H2, H1, app_assoc. split; [done|]. split; [|by apply Forall_app]. rewrite orb_false_iff, W1, W2. by rewrite app_nil_iff.
Qed.

Lemma enqueue_gained r d0 w0 :
  hoare (gained w0 d0) (enqueueNotificationTx marshal_channel r) (fun p => gained (w0 || p.1) d0) (fun _ => True).
Proof.
  unfold enqueueNotificationTx. eapply (hoare_bind _ _ _ (fun _ => gained w0 d0)); [by apply hoare_query|]. intros sus.
  destruct (match sus with Some _ => _ | None => _ end) as [[]|]; [apply hoare_ret; simpl; by rewrite orb_false_r| |by apply hoare_fail].
  eapply (hoare_bind _ _ _ (fun _ => gained w0 d0)); [case_match; [by apply hoare_query|by apply hoare_ret]|]. intros c.
  destruct (Nat.ltb 0 c); [apply hoare_ret; simpl; by rewrite orb_false_r|].
  eapply (hoare_bind _ _ _ (fun _ => gained w0 d0)); [by apply hoare_query|]. intros h. destruct (_ <=? _)%Z.
  - eapply (hoare_bind _ _ _ (fun _ => gained w0 d0)); [apply hoare_update; intros d; by apply gained_same|]. intros _.
    eapply (hoare_bind _ _ _ (fun _ => gained w0 d0)); [apply hoare_update; intros d; by apply gained_same|]. intros _.
    apply hoare_ret. simpl. by rewrite orb_false_r.
  - eapply (hoare_bind _ _ _ (fun b => gained (w0 || b) d0)); [|intros b; by apply hoare_ret].
    apply hoare_exec; [done|]. intros d d' b Hd [= E]. eapply gained_trans; [exact Hd|]. unfold insert_note in E.
    case_match; injection E as <- <-; [apply gained_refl|]. split; [done|]. eexists. split; [reflexivity|]. split; [done|].
    by repeat constructor.
Qed.

Lemma enqueue_all_gained rs d0 w0 :
  hoare (gained w0 d0) (enqueue_all marshal_channel rs w0) (fun w => gained w d0) (fun _ => True).
Proof.
  revert w0; induction rs as [|r rs IH]; intros w0; simpl; [by apply hoare_ret|].
  eapply hoare_bind; [apply enqueue_gained|]. intros [e n]. apply IH.
Qed.

Lemma commit_body_gained now v event ns d0 :
  hoare (gained false d0) (sql_bind (enqueue_all marshal_channel ns false) (fun wake =>
      sql_bind (match event with Some e => appendEventTx json_Valid now e | None => sql_ret tt end) (fun _ =>
      sql_bind (putRuleState v) (fun _ => sql_ret (wake, true)))))
    (fun p d => exists d1, gained p.1 d0 d1 /\ t_notes d = t_notes d1 /\ t_rules d = <[rs_RuleID v := rule_row_of v]> (t_rules d1))
    (fun _ => True).
Proof.
  eapply hoare_bind; [apply enqueue_all_gained|]. intros wake. eapply (hoare_bind _ _ _ (fun _ => gained wake d0)).
  - destruct event as [e|]; [|by apply hoare_ret]. unfold appendEventTx. case_match; [|by apply hoare_fail].
    apply hoare_update. intros d. by apply gained_same.
  - intros _. eapply (hoare_bind _ _ _ (fun _ d => exists d1, gained wake d0 d1 /\ t_notes d = t_notes d1
      /\ t_rules d = <[rs_RuleID v := rule_row_of v]> (t_rules d1))); [|intros _; by apply hoare_ret].
    apply hoare_update. intros d Hd. by exists d.
Qed.

Lemma commit_rule_spec now v event ns s s' r :
  CommitRuleTransition json_Valid marshal_channel now v event ns s = (s', r) ->
  match r with
  | Err _ => db s' = db s
  | Ok wake => t_rules (db s') = <[rs_RuleID v := rule_row_of v]> (t_rules (db s))
               /\ exists new, t_notes (db s') = t_notes (db s) ++ new /\ (wake = true <-> new <> [])
                  /\ Forall (fun n => nt_state n = "pending" /\ nt_attempts n = 0%Z) new
  end.
Proof.
  unfold CommitRuleTransition. destruct (match event with Some _ => _ | None => _ end); [|by intros [= <- <-]].
  intros Ht. apply transaction_outcome in Ht. destruct r as [wake|e]; [|done]. destruct Ht as (s0 & s1 & c & E0 & Hb & Hd).
  pose proof (commit_body_gained now v event ns (db s0) s0 (gained_refl _)) as Hg. rewrite Hb in Hg.
  destruct Hg as (d1 & (Er & new & En & Hw & Hf) & En' & Er'). cbn [fst] in *.
  assert (c = true) as ->.
  { unfold sql_bind, sql_ret in Hb. repeat case_match; try done; by injection Hb. }
  rewrite Hd, Er', Er, E0. split; [done|]. exists new. rewrite En', En, E0. split; [done|]. split; [|done].
  destruct wake, new; naive_solver.
Qed.

(** What [GetRuleState] reads. *)
Definition rule_lookup (d : DB) (id hash : string) : res string (option RuleState) :=
  match t_rules d !! id with
  | None => Ok None
  | Some r => if negb (String.eqb (rl_rule_hash r) hash) then Ok None
              else match rule_of_row id r with Err e => Err e | Ok v => Ok (Some v) end
  end.

Lemma GetRuleState_run id hash s s' p : GetRuleState id hash s = (s', Ok p) -> db s' = db s /\ rule_lookup (db s) id hash = Ok p.
Proof.
  unfold GetRuleState, sql_bind, rule_lookup. destruct (query_run (fun d => t_rules d !! id) s) as (s1 & E1 & [Eq|[e Eq]]); rewrite Eq; [|done].
  destruct (t_rules (db s) !! id) as [r|]; [|by intros [= <- <-]]. destruct (String.eqb _ _); cbn [negb]; [|by intros [= <- <-]].
  destruct (rule_of_row id r); intros [= <- <-]. done.
Qed.

(** *** Connection revisions *)

Lemma sync_each_spec now old random l : forall out s s' out',
  NoDup l.*1 -> sync_each now old random l out s = (s', Ok out') ->
  (forall id, id ∉ l.*1 -> out' !! id = out !! id /\ t_connections (db s') !! id = t_connections (db s) !! id)
  /\ (forall id material, (id, material) ∈ l -> exists rev, next_revision old random id material = Ok rev /\ out' !! id = Some rev
       /\ t_connections (db s') !! id = Some {| cx_revision := rev; cx_material_hmac := material; cx_rotated_at := stamp now |}).
Proof.
  induction l as [|[id m] l IH]; intros out s s' out' Hnd; cbn [sync_each].
  - intros [= <- <-]. split; [done|]. by intros id m ?%elem_of_nil.
  - destruct (next_revision old random id m) as [rev|] eqn:En; [|done]. apply NoDup_cons in Hnd as [Hid Hnd].
    unfold sql_bind at 1, exec. pose proof (tick_db s) as Ht. destruct (tick s) as [s0 [e|]]; simpl in Ht; [done|].
    case_bool_decide; [done|]. intros Hs. apply IH in Hs as [Ho Hi]; [|done]. cbn [db t_connections on_connections] in Ho.
    split.
    + intros id' Hn. apply not_elem_of_cons in Hn as [Hne Hn]. destruct (Ho id' Hn) as [-> ->].
      rewrite !lookup_insert_ne by done. by rewrite Ht.
    + intros id' m' [[= -> ->]|Hin]%elem_of_cons; [|by apply Hi]. exists rev. destruct (Ho id Hid) as [-> ->].
      rewrite !lookup_insert_eq. done.
Qed.

(** ** The interface the scheduler is written against *)

Variable aggregate : string -> Float64 -> list (string * Float64) -> list (string * Float64).

(** The store as it answers while the database is [d] and the engine does [fs]. *)
Definition Storage_store (now : Time) (d : DB) (fs : list (option string)) : Store :=
  let s := {| db := d; faults := fs |} in
  {| GetCardFor := fun id expected => (get_card unmarshal_state id expected s).2;
     PutCardWithSignals := fun r cs signals => match (put_card marshal_state now r cs signals s).2 with Ok _ => None | Err e => Some e end;
     SignalHistory := fun c signal from to n => (signal_history aggregate c signal from to n s).2 |}.

End Operations.

(** ** The properties *)

(** The identity a state was stored under, against the one expected of it. *)
Definition agrees (expected r : CardRecord) : Prop :=
  cr_CardHash r = cr_CardHash expected
  /\ (cr_ManifestDigest expected = "" \/ cr_ManifestDigest r = cr_ManifestDigest expected)
  /\ (cr_ApprovalRevision expected = "" \/ cr_ApprovalRevision r = cr_ApprovalRevision expected)
  /\ (cr_SlotRevisions expected = "" \/ cr_SlotRevisions r = cr_SlotRevisions expected).

Lemma identity_agrees now expected r cs b : identity_ok expected (card_row_of now r cs b) = true <-> agrees expected r.
Proof.
  unfold identity_ok, component_ok, agrees. simpl. rewrite !andb_true_iff, !orb_true_iff, !String.eqb_eq. tauto.
Qed.

Section Claims.
Variable marshal_state : CardState -> res string string.
Variable unmarshal_state : string -> res string CardState.
Variable json_Valid : string -> bool.
Variable marshal_channel : string -> string.

(** A stored card state comes back only under the identity it was produced under: after a state
    was stored, asking for its card gives that very state when the configuration hash and every
    other component the caller supplies agree, and the database is not touched; otherwise the
    caller gets nothing and the row is gone. An error means a statement failed. *)
Theorem restore_identity_bound now r cs signals s s1 expected s2 res :
  (forall b, marshal_state cs = Ok b -> unmarshal_state b = Ok cs) ->
  put_card marshal_state now r cs signals s = (s1, Ok tt) ->
  get_card unmarshal_state (cs_CardID cs) expected s1 = (s2, res) ->
  match res with
  | Ok (Some x) => x = cs /\ agrees expected r /\ db s2 = db s1
  | Ok None => ~ agrees expected r /\ t_cards (db s2) !! cs_CardID cs = None
  | Err _ => faults s1 <> []
  end.
Proof using Type.
  intros Hj Hput Hget. apply put_card_ok in Hput as (b & Hb & Hv & Ec). pose proof (get_card_spec _ _ _ _ _ _ Hget) as Hs.
  specialize (Hj b Hb). destruct res as [[x|]|e].
  - destruct Hs as (row & Hr & Hi & Hu & _ & Hd). rewrite Ec, lookup_insert_eq in Hr. injection Hr as <-. simpl in Hu.
    rewrite Hj in Hu. injection Hu as <-. by rewrite identity_agrees in Hi.
  - destruct Hs as [Hi Hd]. rewrite Ec, lookup_insert_eq in Hi. specialize (Hi _ eq_refl).
    rewrite <- not_true_iff_false, identity_agrees in Hi. split; [done|]. rewrite Hd. apply lookup_delete_eq.
  - intros Hf. destruct s1 as [d fs]. simpl in Hf. subst fs. unfold get_card, sql_bind in Hget. rewrite faultless_query in Hget.
    cbn [db] in Ec. rewrite Ec, lookup_insert_eq in Hget. destruct (identity_ok _ _); cbn [negb] in Hget; [|done].
    cbn [cw_envelope card_row_of] in Hget. by rewrite Hj, Hv in Hget.
Qed.

(** A row of the outbox created in a later second than [t]. *)
Definition created_after (t : Time) (n : note_row) : bool :=
  match time_Parse (nt_created_at n) with Some x => (t / second <? x / second)%Z | None => false end.

(** Whatever the store is asked and whichever statements fail, at most one notification per
    dedupe key is waiting or being sent, and no channel was ever given a notification beyond its
    hourly ceiling: of the rows up to any row, those of its channel created within the hour before
    it, to the second, are at most the channel's ceiling. *)
Theorem outbox_bounded (limit : string -> Z) d :
  history_of marshal_state unmarshal_state json_Valid marshal_channel (op_ok limit) d ->
  NoDup (omap active_key (t_notes d))
  /\ forall l1 n l2, t_notes d = l1 ++ n :: l2 -> exists now, time_Parse (nt_created_at n) = Some now /\
       (Z.of_nat (length (filter (fun m => nt_channel m = nt_channel n /\ created_after (now - hour) m = true) (l1 ++ [n])))
        <= limit (nt_channel n))%Z.
Proof using Type.
  intros H. assert (outbox_ok limit d) as (_ & Hu & Hc).
  { revert H. apply history_invariant; [|intros; by apply outbox_op].
    split; [split; constructor|]. split; [apply NoDup_nil_2|]. intros l1 n l2 E. by destruct l1. }
  split; [exact Hu|]. intros l1 n l2 E. destruct (Hc l1 n l2 E) as (now & Hw & Hw' & Hn & Hl). exists now.
  split; [rewrite Hn; by apply parse_format|]. etransitivity; [|exact Hl]. apply inj_le, sublist_length.
  unfold last_hour. assert (Hall : forall m, m ∈ l1 ++ [n] -> exists x, written x /\ nt_created_at m = stamp x).
  { intros m [Hm|Hm%list_elem_of_singleton]%elem_of_app; [|subst m; eauto]. apply list_elem_of_split in Hm as (k1 & k2 & ->).
    destruct (Hc k1 m (k2 ++ n :: l2)) as (x & ? & _ & ? & _); [by rewrite E, <- app_assoc|]. eauto. }
  clear -Hall Hw'. induction (l1 ++ [n]) as [|m l IH]; [done|]. rewrite !filter_cons.
  assert (Hl : forall x, x ∈ l -> exists t, written t /\ nt_created_at x = stamp t) by (intros x Hx; apply Hall; by right).
  specialize (IH Hl). case_decide as H1; case_decide as H2; [by constructor| |by constructor|done].
  destruct H2. destruct H1 as [E1 Hm]. split; [done|]. destruct (Hall m ltac:(by left)) as (x & Hx & Ex).
  unfold created_after in Hm. rewrite Ex in Hm |- *. unfold stamp in Hm. rewrite parse_format in Hm by done. apply Z.ltb_lt in Hm.
  pose proof (nano_order (now - hour) x Hw' Hx Hm) as Hlt. unfold stamp. unfold str_ltb in Hlt. apply negb_true_iff in Hlt.
  destruct (str_leb_total (Format_RFC3339Nano (now - hour)) (Format_RFC3339Nano x)) as [|H']; [done|congruence].
Qed.

(** A rule transition is all or nothing. Refused, it changes nothing. Accepted, the rule's state
    is the one given and reads back as it, the outbox has only gained pending rows, and the caller
    is told to wake the dispatcher exactly when it gained one. *)
Theorem rule_transition_atomic now v event ns s s' r :
  storable v ->
  CommitRuleTransition json_Valid marshal_channel now v event ns s = (s', r) ->
  match r with
  | Err _ => db s' = db s
  | Ok wake => t_rules (db s') = <[rs_RuleID v := rule_row_of v]> (t_rules (db s))
               /\ (GetRuleState (rs_RuleID v) (rs_RuleHash v) {| db := db s'; faults := [] |}).2 = Ok (Some v)
               /\ exists new, t_notes (db s') = t_notes (db s) ++ new /\ (wake = true <-> new <> [])
                  /\ Forall (fun n => nt_state n = "pending" /\ nt_attempts n = 0%Z) new
  end.
Proof using Type.
  intros Hst Hc. apply commit_rule_spec in Hc. destruct r as [wake|e]; [|done].
  destruct Hc as (Er & new & En & Hw & Hf). split; [done|]. split; [|by exists new].
  unfold GetRuleState, sql_bind. rewrite faultless_query, Er, lookup_insert_eq. simpl. rewrite String.eqb_refl. simpl.
  by rewrite rule_round_trip.
Qed.

(** Synchronising the connection revisions leaves exactly the configured connections: each keeps
    the revision it had while its material is unchanged and gets the fresh random one otherwise;
    a failure leaves the table as it was. *)
Theorem revisions_exact now random materials s s' r :
  SyncConnectionRevisions now random materials s = (s', r) ->
  match r with
  | Err _ => db s' = db s
  | Ok out => dom out = dom materials /\ dom (t_connections (db s')) = dom materials
      /\ forall id material, materials !! id = Some material -> exists rev,
           out !! id = Some rev /\ ConnectionRevision id {| db := db s'; faults := [] |} = ({| db := db s'; faults := [] |}, Ok (Some rev))
           /\ match t_connections (db s) !! id with
              | Some old => if decide (cx_material_hmac old = material /\ cx_revision old <> "")
                            then rev = cx_revision old else random id = Ok rev
              | None => random id = Ok rev
              end
  end.
Proof using Type.
  intros Ht. apply transaction_outcome in Ht. destruct r as [out|e]; [|done]. destruct Ht as (s0 & s1 & c & E0 & Hb & Hd).
  unfold sql_bind at 1 in Hb. destruct (query_run t_connections s0) as (s2 & E2 & [Hq|[e Hq]]); rewrite Hq in Hb; [|done].
  unfold sql_bind at 1, update, exec in Hb. pose proof (tick_db s2) as Ht. destruct (tick s2) as [s3 [e|]]; simpl in Ht; [done|].
  unfold sql_bind, sql_ret in Hb. destruct (sync_each _ _ _ _ _ _) as [s4 [out'|e]] eqn:Es; [|done]. injection Hb as <- <- <-.
  apply sync_each_spec in Es as [Ho Hi]; [|apply NoDup_fst_map_to_list]. cbn [db t_connections on_connections] in Ho. rewrite Hd.
  assert (Hin : forall id, id ∈ (map_to_list materials).*1 <-> is_Some (materials !! id)).
  { intros id. rewrite list_elem_of_fmap. split; [intros ([k m] & -> & Hm%elem_of_map_to_list); eauto|].
    intros [m Hm%elem_of_map_to_list]. by exists (id, m). }
  assert (Hdom : forall id, (is_Some (out' !! id) <-> is_Some (materials !! id))
      /\ (is_Some (t_connections (db s4) !! id) <-> is_Some (materials !! id))).
  { intros id. destruct (materials !! id) as [m|] eqn:Em.
    - destruct (Hi id m ltac:(by apply elem_of_map_to_list)) as (rev & _ & -> & ->). split; split; eauto.
    - destruct (Ho id) as [-> ->]; [rewrite Hin, Em; by intros []|]. rewrite !lookup_empty. split; split; intros []; done. }
  split; [apply set_eq; intros id; rewrite !elem_of_dom; apply Hdom|]. split; [apply set_eq; intros id; rewrite !elem_of_dom; apply Hdom|].
  intros id material Hm. destruct (Hi id material ltac:(by apply elem_of_map_to_list)) as (rev & Hr & -> & Hc). exists rev.
  split; [done|]. split; [unfold ConnectionRevision; rewrite faultless_query, Hc; done|]. rewrite <- E0.
  unfold next_revision in Hr. destruct (t_connections (db s0) !! id) as [old|]; [|by destruct (String.eqb_spec "" "")].
  destruct (String.eqb_spec (cx_material_hmac old) material) as [->|Hne].
  - destruct (String.eqb_spec (cx_revision old) "") as [E|Hn]; case_decide as Hdec; [by destruct Hdec| done|by injection Hr|].
    by destruct Hdec.
  - cbn in Hr. case_decide as Hdec; [by destruct Hdec|done].
Qed.

(** C21. The database is a store as the scheduler's refreshes assume it. Whatever happened to it, a
    state it gives back is a legal state of the card asked for, kept under an identity the expected one
    agrees with; a write it refuses changes nothing; and a sample it reports is at a time in the window
    asked for at which one was recorded for that card and signal. The sample's value is what the database
    computes for that time, an average when it thins the samples out; it is not pinned. *)
Theorem storage_refines_store aggregate now d fs :
  json_keeps_id marshal_state unmarshal_state ->
  (forall base perDay rows row, row ∈ aggregate base perDay rows -> row.1 ∈ rows.*1) ->
  history_of marshal_state unmarshal_state json_Valid marshal_channel (fun _ => True) d ->
  let st := Storage_store marshal_state unmarshal_state aggregate now d fs in
  store_sound st
  /\ (forall id expected cs, GetCardFor st id expected = Ok (Some cs) ->
       exists row, t_cards d !! id = Some row /\ identity_ok expected row = true)
  /\ (forall r cs signals e, PutCardWithSignals st r cs signals = Some e ->
       db (put_card marshal_state now r cs signals {| db := d; faults := fs |}).1 = d)
  /\ (forall c signal from to n samples x, SignalHistory st c signal from to n = Ok samples -> x ∈ samples ->
       (from <= sm_T x <= to)%Z /\ exists ts, time_Parse ts = Some (sm_T x) /\ is_Some (t_history d !! (c, signal, ts))).
Proof using Type.
  intros Hj Hag Hd. assert (Hc : cards_ok unmarshal_state d).
  { revert Hd. apply history_invariant; [|intros; by apply cards_op]. intros id row cs H. cbn in H. by rewrite lookup_empty in H. }
  cbv zeta. unfold Storage_store. split; [|split; [|split]]; cbn [GetCardFor PutCardWithSignals SignalHistory].
  - intros id rec cs H. cbn [GetCardFor] in H. destruct (get_card unmarshal_state _ _ _) as [s' r] eqn:Eg. simpl in H. subst r.
    apply get_card_spec in Eg as (row & Hr & _ & Hu & Hv & _). split; [by eapply Hc|done].
  - intros id expected cs H. cbn [GetCardFor] in H. destruct (get_card unmarshal_state _ _ _) as [s' r] eqn:Eg. simpl in H. subst r.
    apply get_card_spec in Eg as (row & Hr & Hi & _). eauto.
  - intros r cs signals e. unfold put_card. destruct (Validate cs); [done|]. destruct (marshal_state cs) as [b|]; [|done].
    destruct (transaction _ _) as [s' r'] eqn:Et. apply transaction_outcome in Et. by destruct r'.
  - intros c signal from to n samples x. unfold signal_history, sql_bind.
    match goal with |- context [query ?f ?s] => destruct (query_run f s) as (s1 & _ & [Hq|[e Hq]]); rewrite Hq; [|done] end.
    intros [= <-] Hx. cbn [db] in Hx. apply list_elem_of_omap in Hx as (row & Hrow & Hk). unfold keep_sample in Hk.
    destruct (time_Parse row.1) as [t|] eqn:Et; [|done]. destruct (before t from || before to t) eqn:Eb; [done|]. injection Hk as <-.
    apply orb_false_iff in Eb as [E1%Z.ltb_ge E2%Z.ltb_ge]. split; [by simpl|]. exists row.1. split; [done|].
    apply Hag, list_elem_of_fmap in Hrow as ([ts v] & -> & Hrow). unfold history_rows in Hrow.
    apply list_elem_of_omap in Hrow as ([[[c' s'] ts'] v'] & Hin & E). cbn in E.
    destruct (String.eqb_spec c' c) as [->|]; [|done]. destruct (String.eqb_spec s' signal) as [->|]; [|done]. simpl in E.
    destruct (text_range _ _ _); [|done]. injection E as <- <-. apply elem_of_map_to_list in Hin. by exists v'.
Qed.
End Claims.

(** ** The properties at concrete inputs *)

Definition sample_rec : CardRecord :=
  {| cr_CardHash := "h1"; cr_ManifestDigest := "m1"; cr_ApprovalRevision := "a1"; cr_SlotRevisions := "" |}.
Definition marshal_id (cs : CardState) : res string string := Ok (cs_CardID cs).
Definition unmarshal_pending (b : string) : res string CardState := Ok (Pending b).
Definition noon : Time := (738000 * 86400 * second + 43200 * second)%Z.
Definition fresh_db : session DB := {| db := empty_db; faults := [] |}.
Definition stored : session DB :=
  (op_sql marshal_id unmarshal_pending (fun _ => true) id (OpPutCard noon sample_rec (Pending "weather") ∅) fresh_db).1.

Example restore_identity_bound_witness :
  (get_card unmarshal_pending "weather" sample_rec stored).2 = Ok (Some (Pending "weather"))
  /\ Pending "weather" = Pending "weather" /\ agrees sample_rec sample_rec /\ db stored = db stored.
Proof.
  split; [vm_compute; reflexivity|].
  refine (restore_identity_bound marshal_id unmarshal_pending noon sample_rec (Pending "weather") ∅ fresh_db stored sample_rec stored
            (Ok (Some (Pending "weather"))) _ _ _).
  - intros b [= <-]. reflexivity.
  - vm_compute. reflexivity.
  - vm_compute. reflexivity.
Defined.

(** Another approval: the state is gone. *)
Example restore_other_approval :
  (get_card unmarshal_pending "weather" {| cr_CardHash := "h1"; cr_ManifestDigest := "m1"; cr_ApprovalRevision := "a2"; cr_SlotRevisions := "" |}
     stored).2 = Ok None.
Proof. vm_compute. reflexivity. Qed.

Definition sample_request : NotificationRequest :=
  {| nr_Channel := "ops"; nr_DedupeKey := "ops:disk:fired"; nr_Payload := "{}"; nr_Now := noon; nr_Cooldown := minute; nr_PerHour := 1 |}.
Definition outbox_db : DB := db (op_sql marshal_id unmarshal_pending (fun _ => true) id (OpEnqueue sample_request) fresh_db).1.

Lemma noon_written : written noon /\ written (noon - hour).
Proof. unfold written, last_second, noon, hour, second. lia. Qed.

Example outbox_bounded_witness :
  length (t_notes outbox_db) = 1 /\ NoDup (omap active_key (t_notes outbox_db)).
Proof.
  split; [vm_compute; reflexivity|].
  refine (proj1 (outbox_bounded marshal_id unmarshal_pending (fun _ => true) id (fun _ => 1%Z) outbox_db _)).
  apply (history_step _ _ _ _ _ empty_db (OpEnqueue sample_request) []); [apply history_start|].
  split; [apply noon_written|]. split; [apply noon_written|]. reflexivity.
Defined.

(** The second request within the hour suspends the channel. *)
Example outbox_suspends :
  (EnqueueNotification id {| nr_Channel := "ops"; nr_DedupeKey := "ops:disk:resolved"; nr_Payload := "{}"; nr_Now := (noon + minute)%Z;
     nr_Cooldown := minute; nr_PerHour := 1 |} {| db := outbox_db; faults := [] |}).2 = Ok (false, true).
Proof. vm_compute. reflexivity. Qed.

Definition sample_rule : RuleState :=
  {| rs_RuleID := "disk"; rs_RuleHash := "r1"; rs_LastResult := "true"; rs_Since := noon; rs_Deadline := noon; rs_FiredAt := noon;
     rs_ResolvedAt := 0; rs_WrongType := false |}.

Example rule_transition_atomic_witness :
  (GetRuleState "disk" "r1" {| db := db (CommitRuleTransition (fun _ => true) id noon sample_rule None [sample_request] fresh_db).1; faults := [] |}).2
    = Ok (Some sample_rule).
Proof.
  refine (proj1 (proj2 (rule_transition_atomic (fun _ => true) id noon sample_rule None [sample_request] fresh_db
    (CommitRuleTransition (fun _ => true) id noon sample_rule None [sample_request] fresh_db).1 (Ok true) _ _))).
  - unfold storable, written, last_second, sample_rule, noon, second. cbn [rs_Since rs_Deadline rs_FiredAt rs_ResolvedAt]. lia.
  - vm_compute. reflexivity.
Defined.

Definition synced : session DB * res string (gmap string string) :=
  SyncConnectionRevisions noon (fun _ => Ok "f00d") {["nas" := "k"]} fresh_db.

Example revisions_exact_witness :
  dom ({["nas" := "f00d"]} : gmap string string) = dom ({["nas" := "k"]} : gmap string string).
Proof.
  assert (E : SyncConnectionRevisions noon (fun _ => Ok "f00d") {["nas" := "k"]} fresh_db = (synced.1, Ok {["nas" := "f00d"]}))
    by (vm_compute; reflexivity).
  exact (proj1 (revisions_exact _ _ _ _ _ _ E)).
Defined.

Lemma marshal_keeps_id : json_keeps_id marshal_id unmarshal_pending.
Proof. intros cs b cs' [= <-] [= <-]. reflexivity. Qed.

Example storage_refines_store_witness :
  store_sound (Storage_store marshal_id unmarshal_pending (fun _ _ rows => rows) noon (db stored) []).
Proof.
  assert (Hd : history_of marshal_id unmarshal_pending (fun _ => true) id (fun _ => True) (db stored)).
  { exact (history_step _ _ _ _ _ empty_db (OpPutCard noon sample_rec (Pending "weather") ∅) [] (history_start _ _ _ _ _) I). }
  assert (Ha : forall (base : string) (perDay : Float64) (rows : list (string * Float64)) row, row ∈ rows -> row.1 ∈ rows.*1).
  { intros base perDay rows row H. by apply list_elem_of_fmap_2. }
  exact (proj1 (storage_refines_store marshal_id unmarshal_pending (fun _ => true) id (fun _ _ rows => rows) noon (db stored) []
                  marshal_keeps_id Ha Hd)).
Defined.
