(* ===== verification/AuditLog.v ===== *)
(** * internal/audit: the persistent log

    [audit.go]: a record is one insertion, its detail serialised and bounded. [json.Marshal] of the
    detail is an argument. *)
From S2P Require Import Prelude GoAny GoTime Sql Database Storage.

Record Entry := {
  en_Actor : string; en_IP : string; en_Action : string; en_Target : string; en_Outcome : string; en_Detail : option any }.

Definition maxDetail : nat := Nat.shiftl 64 10.

Section Audit.
Variable marshal : any -> res string string.

Definition marshal_detail (d : option any) : res string (option string) :=
  match d with
  | None => Ok None
  | Some v => let! text := marshal v in
              guard! negb (Nat.ltb maxDetail (String.length text)) else "audit: detail exceeds 64 KiB"; Ok (Some text)
  end.
Definition row_of (now : Time) (e : Entry) (detail : option string) : audit_row :=
  {| au_ts := stamp now; au_actor := nullString (en_Actor e); au_ip := nullString (en_IP e); au_action := en_Action e;
     au_target := nullString (en_Target e); au_outcome := en_Outcome e; au_detail := detail |}.
(** [Record] *)
Definition Record_ (now : Time) (e : Entry) : Sql DB unit :=
  if String.eqb (en_Action e) "" || String.eqb (en_Outcome e) "" then sql_fail "audit: action and outcome are required"
  else do* detail <- lift (marshal_detail (en_Detail e));
       update (on_audit (fun l => l ++ [row_of now e detail])).
Definition Denied (now : Time) (pluginID method cause : string) : Sql DB unit :=
  do* _ <- sql_try (Record_ now {| en_Actor := ""; en_IP := ""; en_Action := "capability.denied"; en_Target := pluginID; en_Outcome := "failure";
                                   en_Detail := Some (AMap [("error", AString cause); ("method", AString method)]) |});
  sql_ret tt.

(** The log only grows, by at most the one row, and nothing else changes. *)
Lemma Record_spec now e d : hoare (fun d' => d' = d) (Record_ now e)
  (fun _ d' => exists detail, marshal_detail (en_Detail e) = Ok detail /\ d' = on_audit (fun l => l ++ [row_of now e detail]) d)
  (fun d' => d' = d).
Proof.
  unfold Record_. destruct (_ || _); [by apply hoare_fail|]. destruct (marshal_detail (en_Detail e)) as [detail|err].
  - intros s Hs. unfold sql_bind, lift, sql_ret. cbn. unfold update, exec.
    pose proof (tick_db s) as Ht. destruct (tick s) as [s0 [f|]]; cbn in *; [congruence|]. exists detail. by rewrite Ht, Hs.
  - by intros s Hs.
Qed.
End Audit.
