(* ===== verification/Rules.v ===== *)
(** * internal/rules: compiling, evaluating and debouncing alert rules

    [evaluator.go] checks a rule's references when it is loaded and evaluates it against the card
    states, three-valued: one signal that is not fresh makes the whole predicate unknown.
    [manager.go] turns evaluations into transitions, debounced by the rule's [for], and commits each
    with its event and its notifications. The expression library is not part of the source: a
    compiled program is the tree of what its run asks and answers. *)
From S2P Require Import Prelude GoTime TimeText Sql Database Config Widgets State Storage.

(** ** evaluator.go *)

Inductive Result := ResultTrue | ResultFalse | ResultUnknown.
#[export] Instance Result_eq_dec : EqDecision Result.
Proof. solve_decision. Defined.

Definition result_string (r : Result) : string :=
  match r with ResultTrue => "true" | ResultFalse => "false" | ResultUnknown => "unknown" end.

(** [CardDefinition] *)
Record RuleCard := { rc_Hash : string; rc_Signals : gmap string string }.

(** A run of a compiled program: it ends with a value or an error, or calls one of its two
    functions and goes on with the answer. *)
Inductive expr_run :=
| ExprDone (v : Scalar)
| ExprFail (e : string)
| AskSignal (card name : string) (k : Scalar -> expr_run)
| AskState (card : string) (k : string -> expr_run).

(** [Definition] *)
Record RuleDef := {
  rd_ID : string; rd_Hash : string; rd_For : Duration; rd_Severity : string; rd_Notify : list string; rd_Resolve : bool;
  rd_program : expr_run }.

Record Evaluation := { ev_Result : Result; ev_WrongTypes : list string }.

(** A node of the parsed tree: a call of an identifier, with its arguments (a literal string or
    something else), or any other node. *)
Inductive node :=
| CallNode (callee : string) (arguments : list (option string))
| OtherNode.

Record references := { rf_cards : gmap string string; rf_err : option string }.

Definition nul : ascii := ascii_of_nat 0.
Definition signal_key (card name : string) : string := card +:+ String nul name.

(** [Visit] *)
Definition Visit (v : references) (n : node) : references :=
  match n with
  | OtherNode => v
  | CallNode callee arguments =>
      if negb (String.eqb callee "signal" || String.eqb callee "state") then v
      else
        let want := if String.eqb callee "signal" then 2 else 1 in
        if negb (Nat.eqb (length arguments) want)
        then {| rf_cards := rf_cards v; rf_err := Some "rules: literal string arguments required" |}
        else match mapM (fun a => a) arguments with
             | None => {| rf_cards := rf_cards v; rf_err := Some "rules: arguments must be literal strings" |}
             | Some values =>
                 match values with
                 | [card; name] => {| rf_cards := <[signal_key card name := "signal"]> (rf_cards v); rf_err := rf_err v |}
                 | [card] => {| rf_cards := <[card := "state"]> (rf_cards v); rf_err := rf_err v |}
                 | _ => v
                 end
             end
  end.

(** [splitReference]: at the first NUL. *)
Fixpoint splitReference (ref : string) : string * string :=
  match ref with
  | "" => ("", "")
  | String c r => if Ascii.eqb c nul then ("", r) else let '(a, b) := splitReference r in (String c a, b)
  end.

(** [parseDuration]: [None] is the error. *)
Definition rule_duration (value : string) : option Duration :=
  if String.eqb value "" then Some 0%Z
  else d ← ParseDuration value; if (d <? 0)%Z then None else Some d.

Inductive compile_error :=
| ParseFailed (e : string) | BadReference (e : string) | UnknownCard (card : string) | UndeclaredSignal (card signal : string)
| ExprRefused (e : string) | BadFor | HashFailed (e : string).

Section Compile.
Variable parse_walk : string -> res string (list node).        (* parser.Parse, and the nodes ast.Walk visits *)
Variable expr_Compile : string -> res string expr_run.         (* no builtins, result a bool *)
Variable rule_hash : Rule -> gmap string string -> res string string.  (* storage.DefinitionHash *)

(** The loop over the references found: each card's hash. *)
Definition check_reference (cards : gmap string RuleCard) (hashes : gmap string string) (ref kind : string)
  : res compile_error (gmap string string) :=
  let '(cardID, signalName) := splitReference ref in
  match cards !! cardID with
  | None => Err (UnknownCard cardID)
  | Some card =>
      if (String.eqb kind "signal" && negb (bool_decide (is_Some (rc_Signals card !! signalName))))%bool
      then Err (UndeclaredSignal cardID signalName)
      else Ok (<[cardID := rc_Hash card]> hashes)
  end.

Fixpoint check_references (cards : gmap string RuleCard) (refs : list (string * string)) (hashes : gmap string string)
  : res compile_error (gmap string string) :=
  match refs with
  | [] => Ok hashes
  | (ref, kind) :: refs => let! hashes := check_reference cards hashes ref kind in check_references cards refs hashes
  end.

Definition Compile (rule : Rule) (cards : gmap string RuleCard) : res compile_error RuleDef :=
  match parse_walk (When rule) with
  | Err e => Err (ParseFailed e)
  | Ok nodes =>
      let refs := foldl Visit {| rf_cards := ∅; rf_err := None |} nodes in
      match rf_err refs with
      | Some e => Err (BadReference e)
      | None =>
          let! hashes := check_references cards (map_to_list (rf_cards refs)) ∅ in
          match expr_Compile (When rule) with
          | Err e => Err (ExprRefused e)
          | Ok program =>
              match rule_duration (For rule) with
              | None => Err BadFor
              | Some d =>
                  match rule_hash rule hashes with
                  | Err e => Err (HashFailed e)
                  | Ok hash =>
                      Ok {| rd_ID := rule_ID rule; rd_Hash := hash; rd_For := d;
                            rd_Severity := if String.eqb (rule_Severity rule) "" then "warning" else rule_Severity rule;
                            rd_Notify := Notify rule; rd_Resolve := Resolve rule; rd_program := program |}
                  end
              end
          end
      end
  end.
End Compile.

Definition float_zero : Float64 := float_of 0.

(** What [signal(card, name)] sees: a fresh value of the declared type, or nothing, with the value
    the predicate goes on with and whether the type was the reason. *)
Inductive observation :=
| Fresh (v : Scalar)
| NotFresh (default_ : Scalar) (wrong_type : bool).

Section Evaluate.
Variable cards : gmap string CardState.
Variable declarations : gmap string RuleCard.

Definition observe (cardID name : string) : observation :=
  let declaredType := default "" (declarations !! cardID ≫= fun d => rc_Signals d !! name) in
  let missing := NotFresh (SNumber float_zero) false in
  match cards !! cardID with
  | None => missing
  | Some card =>
      if negb (String.eqb (ex_State (cs_Execution card)) StateOK) then missing
      else match cs_Document card ≫= fun doc => doc_Signals doc !! name with
           | None => missing
           | Some s =>
               match sig_Value s with
               | SNull => missing
               | v =>
                   if String.eqb declaredType "number"
                   then match v with SNumber f => Fresh v | _ => NotFresh (SNumber float_zero) true end
                   else if String.eqb declaredType "string"
                   then match v with SString t => Fresh v | _ => NotFresh (SString "") true end
                   else if String.eqb declaredType "boolean"
                   then match v with SBool b => Fresh v | _ => NotFresh (SBool false) true end
                   else missing
               end
           end
  end.

Definition state_of (cardID : string) : string :=
  match cards !! cardID with
  | None => StatePending
  | Some card => ex_State (cs_Execution card)
  end.

(** [expr.Run] over the two functions, which set [unknown] and [wrongTypes]. *)
Fixpoint expr_Run (p : expr_run) (unknown : bool) (wrong : list string) : bool * list string * res string Scalar :=
  match p with
  | ExprDone v => (unknown, wrong, Ok v)
  | ExprFail e => (unknown, wrong, Err e)
  | AskSignal c n k =>
      match observe c n with
      | Fresh v => expr_Run (k v) unknown wrong
      | NotFresh v w => expr_Run (k v) true (if w then wrong ++ [c +:+ "." +:+ n] else wrong)
      end
  | AskState c k => expr_Run (k (state_of c)) unknown wrong
  end.

Definition Evaluate (d : RuleDef) : res string Evaluation :=
  match expr_Run (rd_program d) false [] with
  | (true, wrong, _) => Ok {| ev_Result := ResultUnknown; ev_WrongTypes := wrong |}
  | (false, _, Err e) => Err e
  | (false, _, Ok (SBool b)) => Ok {| ev_Result := if b then ResultTrue else ResultFalse; ev_WrongTypes := [] |}
  | (false, _, Ok _) => Err "rules: predicate did not return bool"
  end.

(** *** The reference: a run that stops at the first signal that is not fresh *)

Fixpoint strict (p : expr_run) : option (res string Scalar) :=
  match p with
  | ExprDone v => Some (Ok v)
  | ExprFail e => Some (Err e)
  | AskSignal c n k => match observe c n with Fresh v => strict (k v) | NotFresh _ _ => None end
  | AskState c k => strict (k (state_of c))
  end.

(** The signals a run consults, in order. *)
Fixpoint consulted (p : expr_run) : list (string * string) :=
  match p with
  | ExprDone _ | ExprFail _ => []
  | AskSignal c n k => (c, n) :: match observe c n with Fresh v | NotFresh v _ => consulted (k v) end
  | AskState c k => consulted (k (state_of c))
  end.

Definition fresh (p : string * string) : bool := match observe p.1 p.2 with Fresh _ => true | NotFresh _ _ => false end.
Definition wrongly_typed (p : string * string) : bool := match observe p.1 p.2 with NotFresh _ w => w | Fresh _ => false end.

Lemma expr_Run_spec p u w :
  (expr_Run p u w).1.1 = u || negb (forallb fresh (consulted p))
  /\ (expr_Run p u w).1.2 = w ++ map (fun p => p.1 +:+ "." +:+ p.2) (List.filter wrongly_typed (consulted p))
  /\ strict p = if forallb fresh (consulted p) then Some (expr_Run p u w).2 else None.
Proof.
  revert u w; induction p as [v|e|c n k IH|c k IH]; intros u w; simpl.
  - by rewrite orb_false_r, app_nil_r.
  - by rewrite orb_false_r, app_nil_r.
  - unfold fresh at 1 3, wrongly_typed at 1. simpl. destruct (observe c n) as [v|v b]; simpl; [apply IH|].
    destruct (IH v true (if b then w ++ [c +:+ "." +:+ n] else w)) as (-> & -> & _). rewrite orb_true_r.
    split; [done|]. split; [|done]. destruct b; simpl; by rewrite <- ?app_assoc.
  - apply IH.
Qed.
End Evaluate.

(** ** manager.go *)

Record Alert := { al_RuleID : string; al_Event : string; al_Severity : string; al_Channels : list string }.

(** [NotificationSink]: the requests of an alert, or the reason there are none. *)
Class NotificationSink (N : Type) :=
  PrepareRuleAlert : N -> string -> string -> string -> list string -> Time -> res string (list NotificationRequest).

(** A timer holds the hash it was set for and the instant it fires at. *)
Record RuleManager := {
  rm_definitions : gmap string RuleDef; rm_declarations : gmap string RuleCard; rm_states : gmap string RuleState;
  rm_timers : gmap string (string * Time); rm_active : bool }.

Definition NewRuleManager : RuleManager :=
  {| rm_definitions := ∅; rm_declarations := ∅; rm_states := ∅; rm_timers := ∅; rm_active := false |}.

Definition set_timers (m : RuleManager) (t : gmap string (string * Time)) : RuleManager :=
  {| rm_definitions := rm_definitions m; rm_declarations := rm_declarations m; rm_states := rm_states m; rm_timers := t;
     rm_active := rm_active m |}.
Definition set_state (m : RuleManager) (id : string) (v : RuleState) : RuleManager :=
  {| rm_definitions := rm_definitions m; rm_declarations := rm_declarations m; rm_states := <[id := v]> (rm_states m);
     rm_timers := rm_timers m; rm_active := rm_active m |}.
Definition set_active (m : RuleManager) : RuleManager :=
  {| rm_definitions := rm_definitions m; rm_declarations := rm_declarations m; rm_states := rm_states m;
     rm_timers := rm_timers m; rm_active := true |}.

Definition Close (m : RuleManager) : RuleManager := set_timers m ∅.

(** The state of a rule that has none stored. *)
Definition unknown_state (id hash : string) : RuleState :=
  {| rs_RuleID := id; rs_RuleHash := hash; rs_LastResult := result_string ResultUnknown; rs_Since := 0; rs_Deadline := 0;
     rs_FiredAt := 0; rs_ResolvedAt := 0; rs_WrongType := false |}.
Definition zero_state : RuleState :=
  {| rs_RuleID := ""; rs_RuleHash := ""; rs_LastResult := ""; rs_Since := 0; rs_Deadline := 0; rs_FiredAt := 0;
     rs_ResolvedAt := 0; rs_WrongType := false |}.

(** The loop of [Apply]. *)
Fixpoint prepare_rules (ds : list RuleDef) (defs : gmap string RuleDef) (states : gmap string RuleState)
  : SqlDB (gmap string RuleDef * gmap string RuleState) :=
  match ds with
  | [] => sql_ret (defs, states)
  | d :: ds =>
      if bool_decide (is_Some (defs !! rd_ID d)) then sql_fail ("rules: duplicate rule id " +:+ rd_ID d)
      else
        do* persisted <- GetRuleState (rd_ID d) (rd_Hash d);
        prepare_rules ds (<[rd_ID d := d]> defs)
          (<[rd_ID d := default (unknown_state (rd_ID d) (rd_Hash d)) persisted]> states)
  end.

Definition ApplyRules (ds : list RuleDef) (declarations : gmap string RuleCard) : SqlDB RuleManager :=
  do* ' (defs, states) <- prepare_rules ds ∅ ∅;
  sql_ret {| rm_definitions := defs; rm_declarations := declarations; rm_states := states; rm_timers := ∅; rm_active := false |}.

Section Manager.
Context {N : Type} `{NotificationSink N}.
Variable notify : option N.
Variable json_Valid : string -> bool.
Variable marshal_channel : string -> string.
Variable marshal_rule : string -> list string -> res string string.    (* json.Marshal of {"rule", "notify"} *)
Variable marshal_wrong : string -> list string -> string.              (* json.Marshal of {"rule", "signals"} *)

Definition ruleEvent (d : RuleDef) (eventType : string) (now : Time) : res string StoredEvent :=
  match marshal_rule (rd_ID d) (rd_Notify d) with
  | Err e => Err e
  | Ok data => Ok {| se_Timestamp := stamp now; se_Type := eventType; se_Severity := rd_Severity d; se_Source := "rules";
                     se_CardID := ""; se_Message := if String.eqb eventType "rule.resolved" then "Rule resolved" else "Rule fired";
                     se_Data := data |}
  end.

Definition wrong_type_event (id : string) (signals : list string) (now : Time) : StoredEvent :=
  {| se_Timestamp := stamp now; se_Type := "rule.signal-type"; se_Severity := "warning"; se_Source := "rules"; se_CardID := "";
     se_Message := "Declared signal has the wrong runtime type"; se_Data := marshal_wrong id signals |}.

Definition alert_of (d : RuleDef) (event : string) : option Alert :=
  if notify then Some {| al_RuleID := rd_ID d; al_Event := event; al_Severity := rd_Severity d; al_Channels := rd_Notify d |} else None.

Definition with_times (v : RuleState) (since deadline fired resolved : Time) : RuleState :=
  {| rs_RuleID := rs_RuleID v; rs_RuleHash := rs_RuleHash v; rs_LastResult := rs_LastResult v; rs_Since := since;
     rs_Deadline := deadline; rs_FiredAt := fired; rs_ResolvedAt := resolved; rs_WrongType := rs_WrongType v |}.
Definition with_wrong (v : RuleState) (b : bool) : RuleState :=
  {| rs_RuleID := rs_RuleID v; rs_RuleHash := rs_RuleHash v; rs_LastResult := rs_LastResult v; rs_Since := rs_Since v;
     rs_Deadline := rs_Deadline v; rs_FiredAt := rs_FiredAt v; rs_ResolvedAt := rs_ResolvedAt v; rs_WrongType := b |}.
Definition with_result (v : RuleState) (id hash : string) (r : Result) : RuleState :=
  {| rs_RuleID := id; rs_RuleHash := hash; rs_LastResult := result_string r; rs_Since := rs_Since v;
     rs_Deadline := rs_Deadline v; rs_FiredAt := rs_FiredAt v; rs_ResolvedAt := rs_ResolvedAt v; rs_WrongType := rs_WrongType v |}.

(** The transition of one evaluation: the new state, its event, its alert, and whether a timer is
    to be set for the deadline. *)
Record Transition := { tr_state : RuleState; tr_event : option StoredEvent; tr_alert : option Alert; tr_schedule : bool }.

Definition transition_true (d : RuleDef) (now : Time) (current : RuleState) (event : option StoredEvent) : res string Transition :=
  let current := if isZero (rs_Since current)
                 then with_times current now (now + rd_For d) (rs_FiredAt current) (rs_ResolvedAt current) else current in
  if (negb (before now (rs_Deadline current)) && isZero (rs_FiredAt current))%bool then
    let! e := ruleEvent d "rule.fired" now in
    Ok {| tr_state := with_times current (rs_Since current) (rs_Deadline current) now 0; tr_event := Some e;
          tr_alert := alert_of d "fired"; tr_schedule := false |}
  else Ok {| tr_state := current; tr_event := event; tr_alert := None; tr_schedule := isZero (rs_FiredAt current) |}.

Definition transition_false (d : RuleDef) (now : Time) (current : RuleState) (event : option StoredEvent) : res string Transition :=
  let current := with_times current 0 0 (rs_FiredAt current) (rs_ResolvedAt current) in
  if isZero (rs_FiredAt current) then Ok {| tr_state := current; tr_event := event; tr_alert := None; tr_schedule := false |}
  else
    let resolved := with_times current 0 0 0 now in
    if rd_Resolve d then
      let! e := ruleEvent d "rule.resolved" now in
      Ok {| tr_state := resolved; tr_event := Some e; tr_alert := alert_of d "resolved"; tr_schedule := false |}
    else Ok {| tr_state := resolved; tr_event := event; tr_alert := None; tr_schedule := false |}.

Definition transition (d : RuleDef) (id : string) (ev : Evaluation) (now : Time) (current : RuleState) : res string Transition :=
  let bad := negb (Nat.eqb (length (ev_WrongTypes ev)) 0) in
  let event := if bad && negb (rs_WrongType current) then Some (wrong_type_event id (ev_WrongTypes ev) now) else None in
  let current := with_wrong current bad in
  let! t := match ev_Result ev with
            | ResultTrue => transition_true d now current event
            | ResultFalse => transition_false d now current event
            | ResultUnknown => Ok {| tr_state := with_times current 0 0 (rs_FiredAt current) (rs_ResolvedAt current);
                                     tr_event := event; tr_alert := None; tr_schedule := false |}
            end in
  Ok {| tr_state := with_result (tr_state t) id (rd_Hash d) (ev_Result ev); tr_event := tr_event t; tr_alert := tr_alert t;
        tr_schedule := tr_schedule t |}.

(** [scheduleLocked]: at the deadline, or at once when it has passed. *)
Definition scheduleLocked (m : RuleManager) (id hash : string) (now deadline : Time) : RuleManager :=
  let delay := Z.max 0 (deadline - now) in
  set_timers m (<[id := (hash, (now + delay)%Z)]> (rm_timers m)).

(** [evaluateLocked]: the manager and the session after it, whether the dispatcher is woken, and
    the error. [now'] is the clock when the timer is set. *)
Definition evaluateLocked (m : RuleManager) (id : string) (cards : gmap string CardState) (now now' : Time) (s : session DB)
  : RuleManager * session DB * bool * option string :=
  match rm_definitions m !! id with
  | None => (m, s, false, None)
  | Some d =>
      match Evaluate cards (rm_declarations m) d with
      | Err e => (m, s, false, Some e)
      | Ok ev =>
          let m := set_timers m (delete id (rm_timers m)) in
          match transition d id ev now (default zero_state (rm_states m !! id)) with
          | Err e => (m, s, false, Some e)
          | Ok t =>
              let m := if tr_schedule t then scheduleLocked m id (rd_Hash d) now' (rs_Deadline (tr_state t)) else m in
              match match notify, tr_alert t with
                    | Some n, Some a => PrepareRuleAlert n (al_RuleID a) (al_Event a) (al_Severity a) (al_Channels a) now
                    | _, _ => Ok []
                    end with
              | Err e => (m, s, false, Some e)
              | Ok notifications =>
                  match CommitRuleTransition json_Valid marshal_channel now (tr_state t) (tr_event t) notifications s with
                  | (s', Err e) => (m, s', false, Some e)
                  | (s', Ok wake) => (set_state m id (tr_state t), s', wake, None)
                  end
              end
          end
      end
  end.

(** The loop of [evaluateAll]: the definitions in some order, each with the clock's two readings;
    the first error ends it. *)
Fixpoint evaluate_each (m : RuleManager) (ids : list (string * Time * Time)) (cards : gmap string CardState) (s : session DB)
  : RuleManager * session DB * bool * option string :=
  match ids with
  | [] => (m, s, false, None)
  | (id, now, now') :: ids =>
      match evaluateLocked m id cards now now' s with
      | (m', s', wake, Some e) => (m', s', wake, Some e)
      | (m', s', wake, None) => let '(m2, s2, w2, e) := evaluate_each m' ids cards s' in (m2, s2, wake || w2, e)
      end
  end.

Definition cards_of (states : list CardState) : gmap string CardState :=
  foldl (fun m c => <[cs_CardID c := c]> m) ∅ states.

Definition evaluateAll (m : RuleManager) (ids : list (string * Time * Time)) (states : list CardState) (s : session DB)
  : RuleManager * session DB * bool * option string :=
  if negb (rm_active m) then (m, s, false, None) else evaluate_each m ids (cards_of states) s.

Definition EvaluateNow (m : RuleManager) (ids : list (string * Time * Time)) (states : list CardState) (s : session DB)
  : RuleManager * session DB * bool * option string := evaluateAll (set_active m) ids states s.

(** A timer that fired: it evaluates everything unless its rule is gone or changed. *)
Definition timer_fires (m : RuleManager) (id hash : string) (ids : list (string * Time * Time)) (states : list CardState)
  (s : session DB) : RuleManager * session DB * bool * option string :=
  match rm_definitions m !! id with
  | Some d => if negb (String.eqb (rd_Hash d) hash) then (m, s, false, None) else evaluateAll m ids states s
  | None => (m, s, false, None)
  end.
End Manager.

(** ** Histories of one rule *)

(** An evaluation that was committed. *)
Record entry := { en_time : Time; en_result : Result; en_fired : bool; en_resolved : bool }.

Definition emitted (t : Transition) (type : string) : bool := bool_decide (se_Type <$> tr_event t = Some type).

Section History.
Context {N : Type} `{NotificationSink N}.
Variable notify : option N.
Variable json_Valid : string -> bool.
Variable marshal_channel : string -> string.
Variable marshal_rule : string -> list string -> res string string.
Variable marshal_wrong : string -> list string -> string.
Variable d : RuleDef.

Definition entry_of (cards : gmap string CardState) (declarations : gmap string RuleCard) (now : Time) (current : RuleState)
  : option entry :=
  match Evaluate cards declarations d with
  | Err _ => None
  | Ok ev => match transition notify marshal_rule marshal_wrong d (rd_ID d) ev now current with
             | Err _ => None
             | Ok t => Some {| en_time := now; en_result := ev_Result ev; en_fired := emitted t "rule.fired";
                               en_resolved := emitted t "rule.resolved" |}
             end
  end.

(** The rule's part of the manager and of the database, and what was committed so far: it is
    evaluated, with whatever fails; the rest of the program does anything that leaves the rule
    alone; the manager is rebuilt from the database, as on a restart or a reload that keeps the
    rule as it is. *)
Inductive rule_trace : RuleManager -> DB -> list entry -> Prop :=
| trace_start m db0 :
    rm_definitions m !! rd_ID d = Some d -> rm_states m !! rd_ID d = Some (unknown_state (rd_ID d) (rd_Hash d)) ->
    (forall row, t_rules db0 !! rd_ID d = Some row -> rl_rule_hash row <> rd_Hash d) -> rule_trace m db0 []
| trace_evaluate m s tr cards now now' m' s' wake err :
    rule_trace m (db s) tr -> now <> 0%Z -> written now -> written (now + rd_For d) ->
    evaluateLocked notify json_Valid marshal_channel marshal_rule marshal_wrong m (rd_ID d) cards now now' s = (m', s', wake, err) ->
    rule_trace m' (db s')
      (tr ++ match err with
             | Some _ => []
             | None => option_list (entry_of cards (rm_declarations m) now (default zero_state (rm_states m !! rd_ID d)))
             end)
| trace_other m db0 tr m' db1 :
    rule_trace m db0 tr -> rm_definitions m' !! rd_ID d = rm_definitions m !! rd_ID d ->
    rm_states m' !! rd_ID d = rm_states m !! rd_ID d -> t_rules db1 !! rd_ID d = t_rules db0 !! rd_ID d -> rule_trace m' db1 tr
| trace_restart m s tr ds declarations s' m' :
    rule_trace m (db s) tr -> d ∈ ds -> ApplyRules ds declarations s = (s', Ok m') -> rule_trace m' (db s') tr.

Definition all_true (l : list entry) : Prop := Forall (fun e => en_result e = ResultTrue) l.
Definition no_false (l : list entry) : Prop := Forall (fun e => en_result e <> ResultFalse) l.

(** The rule fired and has not been seen false since. *)
Definition firing (tr : list entry) : Prop := exists l1 e l2, tr = l1 ++ e :: l2 /\ en_fired e = true /\ no_false l2.

(** Since when the predicate has held without a break. *)
Definition holding (tr : list entry) (rs : RuleState) : Prop :=
  rs_Since rs = 0%Z \/ exists l1 e l2, tr = l1 ++ e :: l2 /\ all_true (e :: l2) /\ en_time e = rs_Since rs
                                   /\ rs_Deadline rs = (rs_Since rs + rd_For d)%Z.

Definition in_step (tr : list entry) (rs : RuleState) : Prop := holding tr rs /\ (firing tr <-> rs_FiredAt rs <> 0%Z).

Lemma holding_true tr rs rs' e :
  holding tr rs -> rs_Since rs <> 0%Z -> en_result e = ResultTrue -> rs_Since rs' = rs_Since rs -> rs_Deadline rs' = rs_Deadline rs ->
  holding (tr ++ [e]) rs'.
Proof.
  intros [H0|(l1 & x & l2 & -> & Ht & E1 & E2)] Hn He Es Ed; [done|]. right. exists l1, x, (l2 ++ [e]).
  rewrite <- app_assoc, Es, Ed. split; [done|]. split; [|done]. change (x :: l2 ++ [e]) with ((x :: l2) ++ [e]).
  apply Forall_app. split; [done|]. by repeat constructor.
Qed.

Lemma firing_snoc tr e : firing (tr ++ [e]) <-> en_fired e = true \/ (firing tr /\ en_result e <> ResultFalse).
Proof.
  split.
  - intros (l1 & x & l2 & E & Hf & Hn). destruct l2 as [|y l2 _] using rev_ind.
    + apply app_inj_tail in E as [-> ->]. by left.
    + rewrite app_comm_cons, app_assoc in E. apply app_inj_tail in E as [-> ->]. apply Forall_app in Hn as [Hn Hy].
      right. split; [by exists l1, x, l2|]. by apply Forall_inv in Hy.
  - intros [Hf|[(l1 & x & l2 & -> & Hf & Hn) He]].
    + exists tr, e, []. by repeat constructor.
    + exists l1, x, (l2 ++ [e]). rewrite <- app_assoc. split; [done|]. split; [done|]. apply Forall_app. by repeat constructor.
Qed.

(** What one transition does to the history. *)
Lemma transition_in_step tr rs ev now t e :
  in_step tr rs -> now <> 0%Z -> transition notify marshal_rule marshal_wrong d (rd_ID d) ev now rs = Ok t ->
  e = {| en_time := now; en_result := ev_Result ev; en_fired := emitted t "rule.fired"; en_resolved := emitted t "rule.resolved" |} ->
  in_step (tr ++ [e]) (tr_state t)
  /\ (en_fired e = true -> ~ firing tr /\ exists l1 x l2, tr ++ [e] = l1 ++ x :: l2 /\ all_true (x :: l2)
        /\ (en_time x + rd_For d <= now)%Z)
  /\ (en_resolved e = true -> firing tr /\ ev_Result ev = ResultFalse)
  /\ (ev_Result ev = ResultFalse -> firing tr -> rd_Resolve d = true -> en_resolved e = true).
Proof.
  intros [Hh Hf] Hnow. unfold transition. set (bad := negb _). set (event := if bad && _ then _ else _). set (cur := with_wrong rs bad).
  assert (Hev : forall ty, ty <> "rule.signal-type" -> bool_decide (se_Type <$> event = Some ty) = false).
  { intros ty Hty. apply bool_decide_eq_false. unfold event. case_match; [|done]. simpl. congruence. }
  intros Ht He. apply res_bind_Ok in Ht as (t0 & Ht0 & [= <-]). subst e. simpl.
  unfold emitted. cbn [tr_event tr_state en_fired en_resolved en_result].
  destruct (ev_Result ev).
  - unfold transition_true in Ht0. set (cur' := if isZero (rs_Since cur) then _ else cur) in Ht0.
    assert (Hcur : holding (tr ++ [{| en_time := now; en_result := ResultTrue; en_fired := emitted t0 "rule.fired"; en_resolved := emitted t0 "rule.resolved" |}]) cur'
                   /\ rs_FiredAt cur' = rs_FiredAt rs /\ rs_Since cur' <> 0%Z).
    { unfold cur', isZero. change (rs_Since cur) with (rs_Since rs). destruct (Z.eqb_spec (rs_Since rs) 0) as [E|E].
      - split; [|done]. right. eexists tr, _, []. split; [reflexivity|]. by repeat constructor.
      - split; [|done]. by eapply holding_true. }
    destruct Hcur as (Hcur & EF & Hs). clearbody cur'.
    destruct (negb (before now (rs_Deadline cur')) && isZero (rs_FiredAt cur')) eqn:Efire.
    + apply andb_true_iff in Efire as [Hb Hz]. apply negb_true_iff, Z.ltb_ge in Hb. apply Z.eqb_eq in Hz. rewrite EF in Hz.
      apply res_bind_Ok in Ht0 as (e & He & [= <-]). cbn [tr_event]. unfold ruleEvent in He.
      destruct (marshal_rule _ _); [|done]. injection He as <-. cbn [fmap option_fmap option_map se_Type].
      rewrite (bool_decide_eq_true_2 (Some "rule.fired" = Some "rule.fired")) in * by done.
      rewrite (bool_decide_eq_false_2 (Some "rule.fired" = Some "rule.resolved")) in * by done.
      unfold emitted in Hcur. cbn in Hcur. split; [|split; [|split]]; [| |done|done].
      * split; [exact Hcur|]. rewrite firing_snoc. simpl. split; [done|by left].
      * intros _. split; [by intros Hfi%Hf|]. destruct Hcur as [?|(l1 & x & l2 & E & Ha & E1 & E2)]; [done|].
        exists l1, x, l2. split; [exact E|]. split; [done|]. lia.
    + injection Ht0 as <-. cbn [tr_event tr_state]. rewrite !Hev by done. unfold emitted in Hcur. cbn [tr_event] in Hcur. rewrite !Hev in Hcur by done.
      split; [|done]. split; [exact Hcur|]. cbn [with_result rs_FiredAt]. rewrite EF, firing_snoc, Hf. simpl. split; [by intros [?|[]]|by right].
  - unfold transition_false in Ht0. cbn [rs_FiredAt with_times] in Ht0. change (rs_FiredAt cur) with (rs_FiredAt rs) in Ht0.
    unfold isZero in Ht0. destruct (Z.eqb_spec (rs_FiredAt rs) 0) as [E|E].
    + injection Ht0 as <-. cbn [tr_event tr_state]. rewrite !Hev by done. split; [|split; [done|split; [done|tauto]]].
      split; [by left|]. rewrite firing_snoc. simpl. change (rs_FiredAt cur) with (rs_FiredAt rs). naive_solver.
    + destruct (rd_Resolve d) eqn:Er.
      * apply res_bind_Ok in Ht0 as (e & He & [= <-]). cbn [tr_event]. unfold ruleEvent in He.
        destruct (marshal_rule _ _); [|done]. injection He as <-. cbn [fmap option_fmap option_map se_Type].
        rewrite (bool_decide_eq_true_2 (Some "rule.resolved" = Some "rule.resolved")) by done.
        rewrite (bool_decide_eq_false_2 (Some "rule.resolved" = Some "rule.fired")) by done.
        split; [|split; [done|split; [|done]]]; [split; [by left|]|naive_solver]. rewrite firing_snoc. simpl. naive_solver.
      * injection Ht0 as <-. cbn [tr_event tr_state]. rewrite !Hev by done. split; [|split; [done|split; done]].
        split; [by left|]. rewrite firing_snoc. simpl. naive_solver.
  - injection Ht0 as <-. cbn [tr_event tr_state]. rewrite !Hev by done. split; [|done].
    split; [by left|]. rewrite firing_snoc. simpl. change (rs_FiredAt cur) with (rs_FiredAt rs). rewrite Hf. split; [by intros [?|[]]|by right].
Qed.

Lemma evaluateLocked_spec m cards now now' s m' s' wake err :
  rm_definitions m !! rd_ID d = Some d ->
  evaluateLocked notify json_Valid marshal_channel marshal_rule marshal_wrong m (rd_ID d) cards now now' s = (m', s', wake, err) ->
  rm_definitions m' = rm_definitions m /\
  match err with
  | Some _ => rm_states m' = rm_states m /\ db s' = db s
  | None => exists ev t, Evaluate cards (rm_declarations m) d = Ok ev
      /\ transition notify marshal_rule marshal_wrong d (rd_ID d) ev now (default zero_state (rm_states m !! rd_ID d)) = Ok t
      /\ rm_states m' = <[rd_ID d := tr_state t]> (rm_states m)
      /\ t_rules (db s') = <[rs_RuleID (tr_state t) := rule_row_of (tr_state t)]> (t_rules (db s))
      /\ rm_timers m' !! rd_ID d = if tr_schedule t then Some (rd_Hash d, Z.max now' (rs_Deadline (tr_state t))) else None
  end.
Proof.
  intros Hd. unfold evaluateLocked. rewrite Hd. destruct (Evaluate _ _ _) as [ev|e]; [|by intros [= <- <- <- <-]].
  cbn [set_timers rm_states]. destruct (transition _ _ _ _ _ _ _ _) as [t|e] eqn:Et; [|by intros [= <- <- <- <-]].
  set (m1 := if tr_schedule t then _ else _).
  assert (Hm1 : rm_definitions m1 = rm_definitions m /\ rm_states m1 = rm_states m
    /\ rm_timers m1 !! rd_ID d = if tr_schedule t then Some (rd_Hash d, Z.max now' (rs_Deadline (tr_state t))) else None).
  { unfold m1. destruct (tr_schedule t); cbn; [|by rewrite lookup_delete_eq]. rewrite lookup_insert_eq.
    split; [done|]. split; [done|]. do 2 f_equal. lia. }
  destruct Hm1 as (E1 & E2 & E3). destruct (match notify with Some _ => _ | None => _ end) as [ns|e]; [|by intros [= <- <- <- <-]].
  destruct (CommitRuleTransition _ _ _ _ _ _ _) as [s1 r] eqn:Ec. apply commit_rule_spec in Ec.
  destruct r as [w|e]; intros [= <- <- <- <-]; [|done]. destruct Ec as [Er _]. split; [done|]. exists ev, t.
  cbn [set_state rm_states rm_timers]. by rewrite E2.
Qed.

Lemma transition_storable rs ev now t :
  storable rs -> written now -> written (now + rd_For d) ->
  transition notify marshal_rule marshal_wrong d (rd_ID d) ev now rs = Ok t ->
  storable (tr_state t) /\ rs_RuleID (tr_state t) = rd_ID d /\ rs_RuleHash (tr_state t) = rd_Hash d.
Proof.
  intros (H1 & H2 & H3 & H4) Hn Hf. unfold transition. intros Ht. apply res_bind_Ok in Ht as (t0 & Ht0 & [= <-]).
  cbn [tr_state with_result rs_RuleID rs_RuleHash]. split; [|done]. unfold storable. cbn [with_result rs_Since rs_Deadline rs_FiredAt rs_ResolvedAt].
  assert (written 0) by (unfold written, last_second, second; lia).
  destruct (ev_Result ev); [unfold transition_true in Ht0|unfold transition_false in Ht0|injection Ht0 as <-; done];
    repeat case_match; try done; repeat (let H := fresh in first [apply res_bind_Ok in Ht0 as (? & H & [= <-])|injection Ht0 as <-]); done.
Qed.

(** What the history promises about each evaluation in it. *)
Definition debounced (tr : list entry) : Prop := forall l1 e l2, tr = l1 ++ e :: l2 ->
  (en_fired e = true -> ~ firing l1 /\ exists k1 x k2, l1 ++ [e] = k1 ++ x :: k2 /\ all_true (x :: k2)
     /\ (en_time x + rd_For d <= en_time e)%Z)
  /\ (en_resolved e = true -> firing l1 /\ en_result e = ResultFalse)
  /\ (en_result e = ResultFalse -> firing l1 -> rd_Resolve d = true -> en_resolved e = true).

(** What is stored for the rule gives back the state held in memory. *)
Definition persisted (d0 : DB) (rs : RuleState) : Prop :=
  t_rules d0 !! rd_ID d = Some (rule_row_of rs)
  \/ (rs = unknown_state (rd_ID d) (rd_Hash d) /\ forall row, t_rules d0 !! rd_ID d = Some row -> rl_rule_hash row <> rd_Hash d).

Lemma prepare_rules_spec ds : forall defs states s s' defs' states',
  prepare_rules ds defs states s = (s', Ok (defs', states')) ->
  db s' = db s /\ (forall id, is_Some (defs !! id) -> defs' !! id = defs !! id /\ states' !! id = states !! id)
  /\ forall x, x ∈ ds -> defs' !! rd_ID x = Some x /\ exists p, rule_lookup (db s) (rd_ID x) (rd_Hash x) = Ok p
       /\ states' !! rd_ID x = Some (default (unknown_state (rd_ID x) (rd_Hash x)) p).
Proof.
  induction ds as [|x ds IH]; intros defs states s s' defs' states'; cbn [prepare_rules].
  - intros [= <- <- <-]. split; [done|]. split; [done|]. by intros x ?%elem_of_nil.
  - case_bool_decide as Hx; [done|]. unfold sql_bind. destruct (GetRuleState _ _ s) as [s1 [p|e]] eqn:Eg; [|done].
    apply GetRuleState_run in Eg as [E1 El]. intros Hp. apply IH in Hp as (E2 & Hk & Hi). rewrite E2, E1. split; [done|].
    assert (Hnew : defs' !! rd_ID x = Some x /\ states' !! rd_ID x = Some (default (unknown_state (rd_ID x) (rd_Hash x)) p)).
    { destruct (Hk (rd_ID x)) as [-> ->]; [by rewrite lookup_insert_eq|]. by rewrite !lookup_insert_eq. }
    split.
    + intros id Hid. assert (id <> rd_ID x) by (intros ->; done).
      destruct (Hk id) as [-> ->]; [by rewrite lookup_insert_ne|]. by rewrite !lookup_insert_ne.
    + intros y [->|Hy]%elem_of_cons; [destruct Hnew; eauto|]. rewrite <- E1. by apply Hi.
Qed.

Lemma persisted_lookup d0 rs : storable rs -> rs_RuleID rs = rd_ID d -> rs_RuleHash rs = rd_Hash d -> persisted d0 rs ->
  exists p, rule_lookup d0 (rd_ID d) (rd_Hash d) = Ok p /\ default (unknown_state (rd_ID d) (rd_Hash d)) p = rs.
Proof.
  intros Hs Hi Hh [E|[-> Hn]]; unfold rule_lookup.
  - rewrite E. cbn [rl_rule_hash rule_row_of]. rewrite Hh, String.eqb_refl. cbn [negb]. rewrite <- Hi, rule_round_trip by done. by eexists.
  - destruct (t_rules d0 !! rd_ID d) as [row|]; [|by eexists]. specialize (Hn row eq_refl).
    destruct (String.eqb_spec (rl_rule_hash row) (rd_Hash d)); [done|]. by eexists.
Qed.

Lemma rule_trace_inv m d0 tr : rule_trace m d0 tr ->
  rm_definitions m !! rd_ID d = Some d /\ debounced tr /\ exists rs, rm_states m !! rd_ID d = Some rs /\ in_step tr rs
    /\ storable rs /\ rs_RuleID rs = rd_ID d /\ rs_RuleHash rs = rd_Hash d /\ persisted d0 rs.
Proof.
  induction 1 as [m d0 Hdef Hst Hrow|m s tr cards now now' m' s' wake err Htr IH Hnz Hw Hwf Hev|m d0 tr m' d1 Htr IH E1 E2 E3
                 |m s tr ds decls s' m' Htr IH Hin Hap].
  - split; [done|]. split; [by intros [] ? ? ?|]. eexists. split; [exact Hst|].
    split; [split; [by left|]|]; [split; [by intros ([] & ? & ? & ? & _)|done]|].
    split; [unfold storable, written, last_second, unknown_state, second; cbn; lia|]. split; [done|]. split; [done|]. by right.
  - destruct IH as (Hdef & Hdeb & rs & Hrs & Hin & Hsto & Hid & Hha & Hp).
    apply evaluateLocked_spec in Hev as [Ed Hev]; [|done]. rewrite Ed. split; [done|]. destruct err as [e|].
    { destruct Hev as [-> ->]. rewrite app_nil_r. split; [done|]. by exists rs. }
    destruct Hev as (ev & t & HE & Ht & Es & Er & _). rewrite Hrs in Ht |- *. cbn [default] in Ht |- *. cbn [from_option id] in *.
    unfold entry_of. rewrite HE, Ht.
    match goal with |- context [option_list (Some ?x)] => set (e := x); change (option_list (Some e)) with [e] end.
    pose proof (transition_in_step tr rs ev now t e Hin Hnz Ht eq_refl) as (Hin' & Hfire & Hres1 & Hres2).
    destruct (transition_storable rs ev now t Hsto Hw Hwf Ht) as (Hsto' & Hid' & Hha'). split.
    + intros l1 x l2 E. destruct l2 as [|y l2 _] using rev_ind.
      * apply app_inj_tail in E as [<- <-]. done.
      * rewrite app_comm_cons, app_assoc in E. apply app_inj_tail in E as [-> _]. by apply (Hdeb l1 x l2).
    + exists (tr_state t). rewrite Es, lookup_insert_eq. split; [done|]. split; [done|]. split; [done|]. split; [done|]. split; [done|].
      left. by rewrite Er, Hid', lookup_insert_eq.
  - destruct IH as (Hdef & Hdeb & rs & Hrs & Hin & Hsto & Hid & Hha & Hp). rewrite E1, E2. split; [done|]. split; [done|].
    exists rs. repeat (split; [done|]). unfold persisted. by rewrite E3.
  - destruct IH as (Hdef & Hdeb & rs & Hrs & Hst & Hsto & Hid & Hha & Hp). unfold ApplyRules, sql_bind in Hap.
    destruct (prepare_rules ds ∅ ∅ s) as [s1 [[defs states]|e]] eqn:Epr; [|done]. injection Hap as <- <-.
    apply prepare_rules_spec in Epr as (E & _ & Hds). destruct (Hds d Hin) as (Hd & p & Hl & Hs). cbn [rm_definitions rm_states].
    split; [done|]. split; [done|]. exists rs. destruct (persisted_lookup (db s) rs Hsto Hid Hha Hp) as (p' & Hl' & Hp'). rewrite Hl in Hl'. injection Hl' as <-.
    rewrite Hs, Hp', E. done.
Qed.
End History.

(** ** References of a compiled rule *)

(** The literal arguments of the nodes hold no NUL byte. *)
Definition nul_free (n : node) : Prop :=
  match n with
  | CallNode _ args => Forall (fun a => match a with Some t => contains_byte nul t = false | None => True end) args
  | OtherNode => True
  end.

(** What a visited call has left in the table of references. *)
Definition recorded (m : gmap string string) (n : node) : Prop :=
  match n with
  | CallNode "signal" args => exists c x, args = [Some c; Some x] /\ m !! signal_key c x = Some "signal"
  | CallNode "state" args => exists c, args = [Some c] /\ m !! c = Some "state"
  | _ => True
  end.

Lemma split_nul_free c x : contains_byte nul c = false -> splitReference (signal_key c x) = (c, x).
Proof.
  unfold signal_key. intros H. apply contains_byte_false in H. induction c as [|a c IH]; [done|].
  apply andb_true_iff in H as [Ha Hc]. cbn [String.append splitReference]. rewrite app_cons_str. cbn [splitReference].
  apply negb_true_iff in Ha. rewrite Ascii.eqb_sym in Ha. rewrite Ha, (IH Hc). done.
Qed.

Definition kind_of_key (k : string) : string := if contains_byte nul k then "signal" else "state".

Lemma signal_key_nul c x : contains_byte nul (signal_key c x) = true.
Proof.
  destruct (contains_byte nul (signal_key c x)) eqn:E; [done|]. apply contains_byte_false in E. unfold signal_key in E.
  rewrite all_bytes_app in E. apply andb_true_iff in E as [_ E]. done.
Qed.

Lemma recorded_insert m k n : nul_free n -> recorded m n -> recorded (<[k := kind_of_key k]> m) n.
Proof.
  assert (H : forall k', m !! k' = Some (kind_of_key k') -> <[k := kind_of_key k]> m !! k' = Some (kind_of_key k')).
  { intros k' Hk. destruct (decide (k = k')) as [->|Hn]; [by rewrite lookup_insert_eq|by rewrite lookup_insert_ne]. }
  destruct n as [callee args|]; [|done]. intros Hn. unfold recorded.
  destruct (decide (callee = "signal")) as [->|Hs].
  - intros (c & x & -> & Hm). exists c, x. split; [done|]. specialize (H (signal_key c x)). unfold kind_of_key at 1 3 in H.
    rewrite signal_key_nul in H. auto.
  - destruct (decide (callee = "state")) as [->|Ht]; [|by repeat case_match].
    intros (c & -> & Hm). exists c. split; [done|]. apply Forall_inv in Hn. specialize (H c). unfold kind_of_key at 1 3 in H. rewrite Hn in H. auto.
Qed.

Lemma visit_recorded v n : nul_free n -> rf_err (Visit v n) = None ->
  rf_err v = None /\ recorded (rf_cards (Visit v n)) n
  /\ forall n', nul_free n' -> recorded (rf_cards v) n' -> recorded (rf_cards (Visit v n)) n'.
Proof.
  destruct n as [callee args|]; [|done]. intros Hn. unfold Visit.
  destruct (String.eqb_spec callee "signal") as [->|Hs]; [|destruct (String.eqb_spec callee "state") as [->|Ht]]; cbn [orb negb].
  - change (String.eqb "signal" "signal") with true. cbn [orb negb]. destruct (Nat.eqb_spec (length args) 2) as [El|]; cbn [negb]; [|done].
    destruct args as [|[c|] [|[x|] []]]; try done. cbn. intros He. split; [done|].
    pose proof (signal_key_nul c x) as Hk. assert (Ek : kind_of_key (signal_key c x) = "signal") by (unfold kind_of_key; by rewrite Hk).
    split; [exists c, x; split; [done|]; by rewrite lookup_insert_eq|]. intros n' Hn' Hr. rewrite <- Ek. by apply recorded_insert.
  - cbn [orb negb]. destruct (Nat.eqb_spec (length args) 1) as [El|]; cbn [negb]; [|done].
    destruct args as [|[c|] []]; try done. cbn. intros He. split; [done|]. apply Forall_inv in Hn.
    assert (Ek : kind_of_key c = "state") by (unfold kind_of_key; by rewrite Hn).
    split; [exists c; split; [done|]; by rewrite lookup_insert_eq|]. intros n' Hn' Hr. rewrite <- Ek. by apply recorded_insert.
  - intros He. split; [done|]. split; [|done]. unfold recorded. repeat case_match; done.
Qed.

Lemma visits_recorded nodes v : Forall nul_free nodes -> rf_err (foldl Visit v nodes) = None ->
  rf_err v = None /\ Forall (recorded (rf_cards (foldl Visit v nodes))) nodes
  /\ forall n', nul_free n' -> recorded (rf_cards v) n' -> recorded (rf_cards (foldl Visit v nodes)) n'.
Proof.
  revert v; induction nodes as [|n nodes IH]; intros v Hn He; [done|]. inversion_clear Hn as [|?? H1 H2]. cbn [foldl] in *.
  destruct (IH _ H2 He) as (E & Hf & Hk). destruct (visit_recorded v n H1 E) as (E' & Hr & Hk'). split; [done|].
  split; [constructor; [by apply Hk|done]|]. intros n' Hn' Hr'. apply Hk; [done|]. by apply Hk'.
Qed.

Lemma check_references_ok cards refs hashes out : check_references cards refs hashes = Ok out ->
  forall ref kind, (ref, kind) ∈ refs -> exists h, is_ok (check_reference cards h ref kind) = true.
Proof.
  revert hashes; induction refs as [|[r k] refs IH]; intros hashes; cbn [check_references]; [intros _ ? ? ?%elem_of_nil; done|].
  intros H. apply res_bind_Ok in H as (h & Hc & Hr). intros ref kind [[= -> ->]|Hin]%elem_of_cons; [|by eapply IH].
  exists hashes. by rewrite Hc.
Qed.

(** ** The properties *)

(** Evaluation is the strict three-valued reading of the predicate: it is unknown exactly when
    the run consults a signal that is not fresh and of its declared type, with every such wrongly
    typed signal reported in order; otherwise it is what the program answers from the fresh values.
    Card states never make it unknown. *)
Theorem evaluate_three_valued cards declarations d :
  let p := rd_program d in
  let seen := consulted cards declarations p in
  Evaluate cards declarations d =
    match strict cards declarations p with
    | None => Ok {| ev_Result := ResultUnknown;
                    ev_WrongTypes := map (fun s => s.1 +:+ "." +:+ s.2) (List.filter (wrongly_typed cards declarations) seen) |}
    | Some (Ok (SBool b)) => Ok {| ev_Result := if b then ResultTrue else ResultFalse; ev_WrongTypes := [] |}
    | Some (Ok _) => Err "rules: predicate did not return bool"
    | Some (Err e) => Err e
    end
  /\ (strict cards declarations p = None <-> exists s, s ∈ seen /\ fresh cards declarations s = false).
Proof.
  cbv zeta. destruct (expr_Run_spec cards declarations (rd_program d) false []) as (H1 & H2 & H3). unfold Evaluate.
  destruct (expr_Run _ _ (rd_program d) false []) as [[u w] r]. cbn in H1, H2, H3. subst u w. rewrite H3. split.
  - destruct (forallb _ _); [|done]. cbn [negb]. by destruct r as [[]|].
  - destruct (forallb (fresh cards declarations) _) eqn:Ef; split; try done.
    + intros (s & Hs & Hf). rewrite forallb_forall in Ef. rewrite (Ef s) in Hf; [done|]. by apply list_elem_of_In.
    + intros _. apply not_true_iff_false in Ef. rewrite forallb_forall in Ef.
      destruct (decide (Exists (fun s => fresh cards declarations s = false) (consulted cards declarations (rd_program d)))) as [Hx|Hx].
      * apply Exists_exists in Hx as (s & Hs & Hf). by exists s.
      * exfalso. apply Ef. intros s Hs%list_elem_of_In. destruct (fresh _ _ s) eqn:E; [done|]. exfalso. apply Hx, Exists_exists. eauto.
Qed.

(** Every reference of a compiled rule is to a configured card and a signal it declares. *)
Theorem compile_checks_references parse_walk expr_Compile rule_hash rule cards d nodes callee args :
  Compile parse_walk expr_Compile rule_hash rule cards = Ok d -> parse_walk (When rule) = Ok nodes -> Forall nul_free nodes ->
  CallNode callee args ∈ nodes ->
  (callee = "signal" -> exists c x card, args = [Some c; Some x] /\ cards !! c = Some card /\ is_Some (rc_Signals card !! x))
  /\ (callee = "state" -> exists c, args = [Some c] /\ is_Some (cards !! c)).
Proof.
  unfold Compile. intros Hc Hp Hn Hin. rewrite Hp in Hc. set (refs := foldl Visit _ nodes) in *.
  destruct (rf_err refs) eqn:Ee; [done|]. apply res_bind_Ok in Hc as (hashes & Hck & _).
  destruct (visits_recorded nodes _ Hn Ee) as (_ & Hrec & _). rewrite Forall_forall in Hrec, Hn. specialize (Hrec _ Hin). specialize (Hn _ Hin).
  pose proof (check_references_ok _ _ _ _ Hck) as Hok. split; intros ->; cbn in Hrec.
  - destruct Hrec as (c & x & -> & Hl). apply elem_of_map_to_list in Hl. destruct (Hok _ _ Hl) as (h & Hh). apply Forall_inv in Hn.
    unfold check_reference in Hh. rewrite split_nul_free in Hh by done. destruct (cards !! c) as [card|] eqn:Ec; [|done].
    exists c, x, card. split; [done|]. split; [done|]. cbn in Hh. case_bool_decide; [done|]. done.
  - destruct Hrec as (c & -> & Hl). exists c. split; [done|]. apply elem_of_map_to_list in Hl. destruct (Hok _ _ Hl) as (h & Hh). apply Forall_inv in Hn.
    assert (Es : splitReference c = (c, "")).
    { clear -Hn. apply contains_byte_false in Hn. induction c as [|a c IH]; [done|]. cbn [all_bytes] in Hn. apply andb_true_iff in Hn as [Ha Hc].
      cbn [splitReference]. apply negb_true_iff in Ha. rewrite Ascii.eqb_sym in Ha. by rewrite Ha, (IH Hc). }
    unfold check_reference in Hh. rewrite Es in Hh. destruct (cards !! c); [by eexists|done].
Qed.

(** C27. A rule fires only after its predicate has held without a break for its whole [for], however
    evaluations fail and restarts fall in between: among the evaluations of a rule that were committed, one
    that fires ends an unbroken stretch of true ones that began at least [for] earlier, and the rule had not
    fired since it was last seen false; one that resolves is the first false one after a firing, and every
    such one resolves when the rule is set to resolve. An evaluation whose commit failed is not among them:
    a false reading lost with it breaks no stretch. *)
Theorem rule_fires_after_debounce {N : Type} `{NotificationSink N} (notify : option N) json_Valid marshal_channel marshal_rule
  marshal_wrong d m d0 tr :
  rule_trace notify json_Valid marshal_channel marshal_rule marshal_wrong d m d0 tr ->
  forall l1 e l2, tr = l1 ++ e :: l2 ->
  (en_fired e = true -> ~ firing l1 /\ exists k1 x k2, l1 ++ [e] = k1 ++ x :: k2 /\ all_true (x :: k2)
     /\ (en_time x + rd_For d <= en_time e)%Z)
  /\ (en_resolved e = true -> firing l1 /\ en_result e = ResultFalse)
  /\ (en_result e = ResultFalse -> firing l1 -> rd_Resolve d = true -> en_resolved e = true).
Proof. intros Ht. apply rule_trace_inv in Ht as (_ & Hd & _). exact Hd. Qed.

(** After an evaluation that was committed, a rule whose predicate holds and that has not fired has
    a timer for its deadline, and no other rule state has one. *)
Theorem waiting_rule_has_timer {N : Type} `{NotificationSink N} (notify : option N) json_Valid marshal_channel marshal_rule
  marshal_wrong d m cards now now' s m' s' wake rs :
  rm_definitions m !! rd_ID d = Some d ->
  evaluateLocked notify json_Valid marshal_channel marshal_rule marshal_wrong m (rd_ID d) cards now now' s = (m', s', wake, None) ->
  now <> 0%Z -> rm_states m' !! rd_ID d = Some rs ->
  rm_timers m' !! rd_ID d =
    if String.eqb (rs_LastResult rs) "true" && isZero (rs_FiredAt rs) then Some (rd_Hash d, Z.max now' (rs_Deadline rs)) else None.
Proof.
  intros Hd He Hnow Hrs. apply evaluateLocked_spec in He as [_ (ev & t & _ & Ht & Es & _ & Etm)]; [|done].
  rewrite Es, lookup_insert_eq in Hrs. injection Hrs as <-. rewrite Etm. unfold transition in Ht.
  apply res_bind_Ok in Ht as (t0 & Ht0 & [= <-]). cbn [tr_schedule tr_state with_result rs_Deadline rs_LastResult rs_FiredAt].
  destruct (ev_Result ev); cbn [result_string].
  - unfold transition_true in Ht0. cbv zeta in Ht0.
    match type of Ht0 with (if negb ?a && ?b then _ else _) = _ => destruct (negb a && b) end; [|by injection Ht0 as <-].
    apply res_bind_Ok in Ht0 as (e & _ & [= <-]). cbn. unfold isZero. by destruct (Z.eqb_spec now 0).
  - unfold transition_false in Ht0. cbv zeta in Ht0.
    match type of Ht0 with (if ?b then _ else _) = _ => destruct b end; [by injection Ht0 as <-|].
    destruct (rd_Resolve d); [|by injection Ht0 as <-]. by apply res_bind_Ok in Ht0 as (e & _ & [= <-]).
  - by injection Ht0 as <-.
Qed.

(** ** The properties at concrete inputs *)

#[export] Instance no_sink : NotificationSink unit := fun _ _ _ _ _ _ => Ok [].

Definition sample_program : expr_run := AskState "nas" (fun st => ExprDone (SBool (String.eqb st "pending"))).
Definition sample_rule_def : RuleDef :=
  {| rd_ID := "up"; rd_Hash := "h"; rd_For := (5 * minute)%Z; rd_Severity := "warning"; rd_Notify := []; rd_Resolve := true;
     rd_program := sample_program |}.
Definition sample_rules : RuleManager :=
  {| rm_definitions := {["up" := sample_rule_def]}; rm_declarations := ∅; rm_states := {["up" := unknown_state "up" "h"]};
     rm_timers := ∅; rm_active := true |}.

Definition run_at (m : RuleManager) (now : Time) (s : session DB) : RuleManager * session DB * bool * option string :=
  evaluateLocked (N:=unit) None (fun _ => true) id (fun _ _ => Ok "{}") (fun _ _ => "") m "up" ∅ now now s.
Definition entry_at (m : RuleManager) (now : Time) : list entry :=
  option_list (entry_of (N:=unit) None (fun _ _ => Ok "{}") (fun _ _ => "") sample_rule_def ∅ (rm_declarations m) now
                 (default zero_state (rm_states m !! "up"))).

Definition turn1 := run_at sample_rules noon fresh_db.
Definition turn2 := run_at turn1.1.1.1 (noon + 5 * minute)%Z turn1.1.1.2.
Definition fired_history : list entry := ([] ++ entry_at sample_rules noon) ++ entry_at turn1.1.1.1 (noon + 5 * minute)%Z.

Example fired_at_its_deadline : map en_fired fired_history = [false; true].
Proof. vm_compute. reflexivity. Qed.

Example rule_fires_after_debounce_witness :
  exists l1 e, fired_history = l1 ++ [e] /\ en_fired e = true /\ ~ firing l1.
Proof.
  assert (H1 : rule_trace (N:=unit) None (fun _ => true) id (fun _ _ => Ok "{}") (fun _ _ => "") sample_rule_def sample_rules (db fresh_db) []).
  { apply trace_start; [reflexivity|reflexivity|]. intros row. cbn. by rewrite lookup_empty. }
  assert (H2 : rule_trace (N:=unit) None (fun _ => true) id (fun _ _ => Ok "{}") (fun _ _ => "") sample_rule_def turn1.1.1.1 (db turn1.1.1.2)
                 ([] ++ entry_at sample_rules noon)).
  { refine (trace_evaluate _ _ _ _ _ _ sample_rules fresh_db [] ∅ noon noon turn1.1.1.1 turn1.1.1.2 turn1.1.2 None H1 _ _ _ _).
    - vm_compute. discriminate.
    - unfold written, last_second, noon, second. lia.
    - cbn [rd_For sample_rule_def]. unfold written, last_second, noon, second, minute. lia.
    - vm_compute. reflexivity. }
  assert (H3 : rule_trace (N:=unit) None (fun _ => true) id (fun _ _ => Ok "{}") (fun _ _ => "") sample_rule_def turn2.1.1.1 (db turn2.1.1.2)
                 fired_history).
  { refine (trace_evaluate _ _ _ _ _ _ turn1.1.1.1 turn1.1.1.2 _ ∅ (noon + 5 * minute)%Z (noon + 5 * minute)%Z turn2.1.1.1 turn2.1.1.2 turn2.1.2 None H2 _ _ _ _).
    - vm_compute. discriminate.
    - unfold written, last_second, noon, second, minute. lia.
    - cbn [rd_For sample_rule_def]. unfold written, last_second, noon, second, minute. lia.
    - vm_compute. reflexivity. }
  eexists (entry_at sample_rules noon), {| en_time := (noon + 5 * minute)%Z; en_result := ResultTrue; en_fired := true; en_resolved := false |}.
  split; [vm_compute; reflexivity|]. split; [reflexivity|].
  refine (proj1 (proj1 (rule_fires_after_debounce _ _ _ _ _ _ _ _ _ H3 (entry_at sample_rules noon)
    {| en_time := (noon + 5 * minute)%Z; en_result := ResultTrue; en_fired := true; en_resolved := false |} [] _) _)).
  - vm_compute. reflexivity.
  - reflexivity.
Defined.
