(* ===== verification/NotifyOut.v ===== *)
(** * internal/notify: transports and the dispatcher of the outbox

    [notify.go] builds the configured channels, resolving their secrets once, and classifies what a
    transport answers; [dispatcher.go] turns rule transitions into outbox requests and drains the
    outbox with bounded retries. The dispatcher is the rules' notification sink. The HTTP client is
    an argument. *)
From S2P Require Import Prelude RoutePath NetHttp GoTime TimeText Sql Database Config Secrets State Scheduler Storage Rules.

(** ** notify.go *)

Record Message := { ms_RuleID : string; ms_Event : string; ms_Severity : string; ms_Title : string; ms_Body : string }.

(** [webhookNotifier] and [ntfyNotifier], without the client. *)
Inductive Notifier :=
| WebhookNotifier (endpoint method : string) (headers : gmap string string)
| NtfyNotifier (endpoint token : string) (priority : Z).

(** [Channel] *)
Record OutChannel := { oc_Notifier : Notifier; oc_PerHour : Z; oc_Cooldown : Duration }.

Definition resolveRef (ref : SecretRef) (resolved : gmap string Value) : option string :=
  if negb (String.eqb (sr_Name ref) "") then Reveal <$> resolved !! sr_Name ref
  else if negb (String.eqb (sr_Template ref) "") then
    foldl (fun acc name => value ← acc; secret ← resolved !! name;
             Some (ReplaceAll value ("${secret:" +:+ name +:+ "}") (Reveal secret)))
      (Some (sr_Template ref)) (sr_Names ref)
  else Some (sr_Literal ref).

Definition ratePerHour (value : Z) : Z := if (value <=? 0)%Z then 20%Z else value.
Definition rateCooldown (value : string) : Duration :=
  if String.eqb value "" then (5 * minute)%Z else default (5 * minute)%Z (ParseDuration value).

(** [url.PathEscape] *)
Definition path_plain (c : ascii) : bool :=
  isLetter c || in_range 48 57 c || existsb (Ascii.eqb c) ["-"; "_"; "."; "~"; "$"; "&"; "+"; "="; ":"; "@"]%char.
Definition hex_digit (n : N) : ascii := ascii_of_N (if (n <? 10)%N then 48 + n else 55 + n).
Fixpoint PathEscape (s : string) : string :=
  match s with
  | "" => ""
  | String c r => if path_plain c then String c (PathEscape r)
                  else String "%" (String (hex_digit (byteN c / 16)) (String (hex_digit (byteN c mod 16)) (PathEscape r)))
  end.

(** [strings.TrimRight(s, "/")] *)
Fixpoint trim_slashes (s : string) : string :=
  match s with
  | "" => ""
  | String c r => let r' := trim_slashes r in
                  if Ascii.eqb c "/" && String.eqb r' "" then "" else String c r'
  end.

Inductive build_error :=
| NoWebhook (id : string) | NoNtfy (id : string) | UnresolvedURL (id : string) | UnresolvedHeader (id name : string)
| UnresolvedToken (id : string) | UnsupportedType (id type : string).

Definition build_channel (resolved : gmap string Value) (id : string) (value : Channel) : res build_error OutChannel :=
  if String.eqb (ch_Type value) "webhook" then
    match Webhook value with
    | None => Err (NoWebhook id)
    | Some wh =>
        match resolveRef (wh_URL wh) resolved with
        | None => Err (UnresolvedURL id)
        | Some endpoint =>
            let! headers := foldl (fun acc p => let! out := acc in
                                     match resolveRef p.2 resolved with
                                     | None => Err (UnresolvedHeader id p.1)
                                     | Some v => Ok (<[p.1 := v]> out)
                                     end) (Ok ∅) (map_to_list (wh_Headers wh)) in
            let method := if String.eqb (wh_Method wh) "" then "POST" else wh_Method wh in
            Ok {| oc_Notifier := WebhookNotifier endpoint method headers; oc_PerHour := ratePerHour (PerHour (wh_RateLimit wh));
                  oc_Cooldown := rateCooldown (Cooldown (wh_RateLimit wh)) |}
        end
    end
  else if String.eqb (ch_Type value) "ntfy" then
    match Ntfy value with
    | None => Err (NoNtfy id)
    | Some n =>
        match resolveRef (Token n) resolved with
        | None => Err (UnresolvedToken id)
        | Some token =>
            Ok {| oc_Notifier := NtfyNotifier (trim_slashes (ntfy_URL n) +:+ "/" +:+ PathEscape (Topic n)) token (Priority n);
                  oc_PerHour := ratePerHour (PerHour (ntfy_RateLimit n)); oc_Cooldown := rateCooldown (Cooldown (ntfy_RateLimit n)) |}
        end
    end
  else Err (UnsupportedType id (ch_Type value)).

Definition BuildChannels (values : gmap string Channel) (resolved : gmap string Value) : res build_error (gmap string OutChannel) :=
  foldl (fun acc p => let! out := acc in let! c := build_channel resolved p.1 p.2 in Ok (<[p.1 := c]> out)) (Ok ∅) (map_to_list values).

(** A request of a notifier. *)
Record out_request := { or_Method : string; or_URL : string; or_Header : gmap string (list string); or_Body : string }.

Inductive send_error :=
| SendOther (e : string)
| PermanentError (status : Z).

Section Notify.
Variable marshal_message : Message -> res string string.     (* json.Marshal of a message *)
Variable unmarshal_message : string -> res string Message.
Variable new_request : string -> string -> bool.             (* whether http.NewRequest takes the method and URL *)
Variable client_Do : out_request -> option Z.                (* the client: the status, or a failure; redirects are not followed *)
Variable scrub : string -> string.                           (* the default registry's Scrub *)

(** [send] *)
Definition send (r : out_request) : option send_error :=
  match client_Do r with
  | None => Some (SendOther "notify: request failed")
  | Some status =>
      if ((200 <=? status) && (status <? 300))%Z then None
      else if ((400 <=? status) && (status <? 500) && negb (status =? 408) && negb (status =? 429))%Z
      then Some (PermanentError status)
      else Some (SendOther ("notify: transient HTTP " +:+ decimal status))
  end.

Definition notifier_request (n : Notifier) (m : Message) : res send_error out_request :=
  match n with
  | WebhookNotifier endpoint method headers =>
      match marshal_message m with
      | Err e => Err (SendOther e)
      | Ok payload =>
          if negb (new_request method endpoint) then Err (SendOther "notify: build webhook request")
          else Ok {| or_Method := method; or_URL := endpoint;
                     or_Header := set_all_headers headers (header_Set ∅ "Content-Type" "application/json"); or_Body := payload |}
      end
  | NtfyNotifier endpoint token priority =>
      if negb (new_request "POST" endpoint) then Err (SendOther "notify: build ntfy request")
      else
        let h := header_Set (header_Set ∅ "Title" (ms_Title m)) "Tags" (ms_Severity m) in
        let h := if (0 <? priority)%Z then header_Set h "Priority" (decimal priority) else h in
        let h := if negb (String.eqb token "") then header_Set h "Authorization" ("Bearer " +:+ token) else h in
        Ok {| or_Method := "POST"; or_URL := endpoint; or_Header := h; or_Body := ms_Body m |}
  end.

(** [Notifier.Send] *)
Definition Send (n : Notifier) (m : Message) : option send_error :=
  match notifier_request n m with
  | Err e => Some e
  | Ok r => send r
  end.

(** ** dispatcher.go *)

Record DispatcherConfig := { dc_MaxAttempts : Z; dc_RetryBase : Duration; dc_PollEvery : Duration }.

Definition config_defaults (c : DispatcherConfig) : DispatcherConfig :=
  {| dc_MaxAttempts := if (dc_MaxAttempts c <=? 0)%Z then 5%Z else dc_MaxAttempts c;
     dc_RetryBase := if (dc_RetryBase c <=? 0)%Z then second else dc_RetryBase c;
     dc_PollEvery := if (dc_PollEvery c <=? 0)%Z then second else dc_PollEvery c |}.

(** [wake] holds at most one token. *)
Record Dispatcher := { dp_config : DispatcherConfig; dp_channels : gmap string OutChannel; dp_wake : bool }.

Definition NewDispatcher (channels : gmap string OutChannel) (c : DispatcherConfig) : Dispatcher :=
  {| dp_config := config_defaults c; dp_channels := channels; dp_wake := false |}.
Definition ApplyChannels (d : Dispatcher) (channels : gmap string OutChannel) : Dispatcher :=
  {| dp_config := dp_config d; dp_channels := channels; dp_wake := dp_wake d |}.
Definition Wake (d : Dispatcher) : Dispatcher :=
  {| dp_config := dp_config d; dp_channels := dp_channels d; dp_wake := true |}.

(** The request for one channel of an alert. *)
Definition request_for (d : Dispatcher) (ruleID event payload : string) (now : Time) (id : string) : res string NotificationRequest :=
  match dp_channels d !! id with
  | None => Err ("notify: channel " +:+ id +:+ " is not configured")
  | Some ch => Ok {| nr_Channel := id; nr_DedupeKey := id +:+ ":" +:+ ruleID +:+ ":" +:+ event; nr_Payload := payload; nr_Now := now;
                     nr_Cooldown := oc_Cooldown ch; nr_PerHour := oc_PerHour ch |}
  end.

Definition rule_message (ruleID event severity : string) : Message :=
  {| ms_RuleID := ruleID; ms_Event := event; ms_Severity := severity; ms_Title := "Veduta rule " +:+ event;
     ms_Body := "Rule " +:+ ruleID +:+ " " +:+ event |}.

#[export] Instance dispatcher_sink : NotificationSink Dispatcher := fun d ruleID event severity channels now =>
  match marshal_message (rule_message ruleID event severity) with
  | Err e => Err e
  | Ok payload => res_mapM (request_for d ruleID event payload now) channels
  end.

(** The loop of [Enqueue]: each channel with the clock's reading. *)
Fixpoint enqueue_each (marshal_channel : string -> string) (d : Dispatcher) (ruleID event payload : string)
  (ids : list (string * Time)) : session DB -> session DB * Dispatcher * option string := fun s =>
  match ids with
  | [] => (s, d, None)
  | (id, now) :: ids =>
      match request_for d ruleID event payload now id with
      | Err e => (s, d, Some e)
      | Ok r => match EnqueueNotification marshal_channel r s with
                | (s, Err e) => (s, d, Some e)
                | (s, Ok (enqueued, _)) =>
                    enqueue_each marshal_channel (if enqueued : bool then Wake d else d) ruleID event payload ids s
                end
      end
  end.
Definition Enqueue (marshal_channel : string -> string) (d : Dispatcher) (m : Message) (ids : list (string * Time)) (s : session DB)
  : session DB * Dispatcher * option string :=
  match marshal_message m with
  | Err e => (s, d, Some e)
  | Ok payload => enqueue_each marshal_channel d (ms_RuleID m) (ms_Event m) payload ids s
  end.

(** What happens to a claimed item. *)
Inductive verdict :=
| Delivered
| Failed (delay : option Duration) (message : string) (abandon : bool).   (* no delay: the zero time *)

(** The delay before the next attempt. *)
Definition retry_delay (base : Duration) (attempts : Z) : Duration := Z.min hour (double_until (Z.to_nat (attempts - 1)) base).

Definition send_text (e : send_error) : string :=
  match e with
  | SendOther e => e
  | PermanentError status => "notification rejected with HTTP " +:+ decimal status
  end.

(** The transport call of [RunOnce], if it makes one. *)
Definition transport (d : Dispatcher) (item : Notification) : option (Notifier * Message) :=
  match unmarshal_message (no_Payload item) with
  | Err _ => None
  | Ok m => (fun ch => (oc_Notifier ch, m)) <$> dp_channels d !! no_Channel item
  end.

Definition judge_item (d : Dispatcher) (item : Notification) : verdict :=
  match unmarshal_message (no_Payload item) with
  | Err _ => Failed None "invalid outbox payload" true
  | Ok m =>
      match dp_channels d !! no_Channel item with
      | None => Failed None "channel is not configured" true
      | Some ch =>
          match Send (oc_Notifier ch) m with
          | None => Delivered
          | Some e =>
              let permanent := match e with PermanentError _ => true | SendOther _ => false end in
              Failed (Some (retry_delay (dc_RetryBase (dp_config d)) (no_Attempts item))) (scrub (send_text e))
                ((dc_MaxAttempts (dp_config d) <=? no_Attempts item)%Z || permanent)
          end
      end
  end.

Definition settle (id : Z) (v : verdict) (now : Time) : SqlDB unit :=
  match v with
  | Delivered => CompleteNotification id
  | Failed delay message abandon => FailNotification id (match delay with Some x => (now + x)%Z | None => 0%Z end) message abandon
  end.

(** [RunOnce]: whether something was claimed. *)
Definition RunOnce (d : Dispatcher) (now now' : Time) : SqlDB bool :=
  do* item <- ClaimNotification now;
  match item with
  | None => sql_ret false
  | Some item => do* _ <- settle (no_ID item) (judge_item d item) now'; sql_ret true
  end.

(** The inner loop of [Run]: until nothing is due or an error. *)
Fixpoint drain (d : Dispatcher) (clock : list (Time * Time)) : SqlDB unit :=
  match clock with
  | [] => sql_ret tt
  | (now, now') :: clock =>
      do* r <- sql_try (RunOnce d now now');
      match r with Ok true => drain d clock | _ => sql_ret tt end
  end.
End Notify.

(** ** The life of an outbox row *)

(** The operations of the rest of the program: they only add rows. *)
Definition harmless (o : store_op) : Prop :=
  match o with OpResetSending | OpClaim _ | OpComplete _ | OpFail _ _ _ _ => False | _ => True end.

(** From [d] to [d'] the outbox gained untouched rows with new ids. *)
Definition appends (d d' : DB) : Prop :=
  (t_note_seq d <= t_note_seq d')%Z /\ exists new, t_notes d' = t_notes d ++ new
    /\ Forall (fun n => nt_state n = "pending" /\ nt_attempts n = 0%Z /\ (t_note_seq d < nt_id n <= t_note_seq d')%Z) new
    /\ NoDup (map nt_id new).

Lemma appends_refl d : appends d d.
Proof. split; [lia|]. exists []. rewrite app_nil_r. split; [done|]. split; constructor. Qed.

Lemma appends_same d d1 d2 : t_notes d2 = t_notes d1 -> t_note_seq d2 = t_note_seq d1 -> appends d d1 -> appends d d2.
Proof. intros E1 E2. unfold appends. by rewrite E1, E2. Qed.

Lemma appends_insert d d1 r : appends d d1 -> appends d (insert_note r d1).1.
Proof.
  intros (Hle & new & En & Hf & Hn). unfold insert_note. set (row := {| nt_id := _ |}).
  case_match; [by split; eauto|]. cbn [fst]. split; cbn [t_notes t_note_seq on_notes on_note_seq]; [lia|].
  exists (new ++ [row]). rewrite En, app_assoc. split; [done|]. split.
  - apply Forall_app. split; [|repeat constructor; simpl; lia]. eapply Forall_impl; [exact Hf|]. intros n (? & ? & ?). simpl. split; [done|]. split; [done|]. lia.
  - rewrite map_app. apply NoDup_app. split; [done|]. split; [|repeat constructor; by apply not_elem_of_nil].
    intros x Hx ->%list_elem_of_singleton. apply elem_of_map in Hx as (n & E & Hx). rewrite Forall_forall in Hf.
    destruct (Hf n Hx) as (_ & _ & ?). simpl in E. lia.
Qed.

Lemma appends_update d f : (forall x, t_notes (f x) = t_notes x) -> (forall x, t_note_seq (f x) = t_note_seq x) ->
  preserves (appends d) (update f).
Proof. intros H1 H2. apply preserves_update. intros x. by apply appends_same. Qed.

Lemma enqueue_appends marshal_channel r d : preserves (appends d) (enqueueNotificationTx marshal_channel r).
Proof.
  unfold enqueueNotificationTx. sql_walk; try by apply appends_update.
  apply preserves_exec. intros d1 d2 x Hd [= E]. pose proof (appends_insert d d1 r Hd) as Hi. by rewrite E in Hi.
Qed.

Lemma harmless_appends marshal_state unmarshal_state json_Valid marshal_channel o d :
  harmless o -> preserves (appends d) (op_sql marshal_state unmarshal_state json_Valid marshal_channel o).
Proof.
  intros Ho. destruct o; try done; cbn [op_sql]; open_op; try by apply appends_update.
  - apply preserves_setting. intros c x. by apply appends_same.
  - apply preserves_sync_each. intros c x. by apply appends_same.
  - apply enqueue_appends.
  - apply preserves_enqueue_all. intros r _. apply enqueue_appends.
Qed.

Section Life.
Variable marshal_state : CardState -> res string string.
Variable unmarshal_state : string -> res string CardState.
Variable json_Valid : string -> bool.
Variable marshal_channel : string -> string.
Variable marshal_message : Message -> res string string.
Variable unmarshal_message : string -> res string Message.
Variable new_request : string -> string -> bool.
Variable scrub : string -> string.
Variable config : DispatcherConfig.

Definition max_attempts : Z := dc_MaxAttempts (config_defaults config).

(** The outbox, the item the one dispatcher holds with its verdict, the transport calls made so far
    (row and whether it was delivered), and how often the process was restarted. *)
Record outbox_system := { ob_db : DB; ob_holding : option (Notification * verdict); ob_log : list (Z * bool); ob_resets : nat }.

Definition is_delivered (v : verdict) : bool := match v with Delivered => true | Failed _ _ _ => false end.

Definition judged (client_Do : out_request -> option Z) (d : Dispatcher) (item : Notification) : verdict :=
  judge_item marshal_message unmarshal_message new_request client_Do scrub d item.

Inductive outbox_step (s : outbox_system) : outbox_system -> Prop :=
| ob_claim now fs client_Do d item s' :
    ob_holding s = None -> dp_config d = config_defaults config ->
    ClaimNotification now {| db := ob_db s; faults := fs |} = (s', Ok (Some item)) ->
    outbox_step s {| ob_db := db s'; ob_holding := Some (item, judged client_Do d item);
                     ob_log := ob_log s ++ (if transport unmarshal_message d item
                                            then [(no_ID item, is_delivered (judged client_Do d item))] else []);
                     ob_resets := ob_resets s |}
| ob_claim_nothing now fs s' r :
    ob_holding s = None -> ClaimNotification now {| db := ob_db s; faults := fs |} = (s', r) ->
    (forall item, r <> Ok (Some item)) ->
    outbox_step s {| ob_db := db s'; ob_holding := None; ob_log := ob_log s; ob_resets := ob_resets s |}
| ob_settle item v now fs :
    ob_holding s = Some (item, v) ->
    outbox_step s {| ob_db := db (settle (no_ID item) v now {| db := ob_db s; faults := fs |}).1; ob_holding := None;
                     ob_log := ob_log s; ob_resets := ob_resets s |}
| ob_other o fs :
    harmless o ->
    outbox_step s {| ob_db := db (op_sql marshal_state unmarshal_state json_Valid marshal_channel o {| db := ob_db s; faults := fs |}).1;
                     ob_holding := ob_holding s; ob_log := ob_log s; ob_resets := ob_resets s |}
| ob_restart fs :
    outbox_step s {| ob_db := db (ResetSendingNotifications {| db := ob_db s; faults := fs |}).1; ob_holding := None;
                     ob_log := ob_log s; ob_resets := S (ob_resets s) |}.

Definition outbox_start : outbox_system := {| ob_db := empty_db; ob_holding := None; ob_log := []; ob_resets := 0 |}.

Inductive outbox_reachable : outbox_system -> Prop :=
| ob_reach_start : outbox_reachable outbox_start
| ob_reach_step s s' : outbox_reachable s -> outbox_step s s' -> outbox_reachable s'.

(** The transport calls made for a row. *)
Definition sends (log : list (Z * bool)) (id : Z) : nat := length (List.filter (fun p => (p.1 =? id)%Z) log).

Definition row_ok (log : list (Z * bool)) (resets : nat) (n : note_row) : Prop :=
  (0 <= nt_attempts n <= max_attempts + Z.of_nat resets)%Z
  /\ (nt_state n = "pending" -> nt_attempts n < max_attempts + Z.of_nat resets)%Z
  /\ (Z.of_nat (sends log (nt_id n)) <= nt_attempts n)%Z
  /\ (nt_state n = "sent" -> (nt_id n, true) ∈ log).

Definition holding_ok (ns : list note_row) (log : list (Z * bool)) (h : option (Notification * verdict)) : Prop :=
  match h with
  | None => True
  | Some (item, v) =>
      (exists n, n ∈ ns /\ nt_id n = no_ID item /\ nt_state n = "sending" /\ nt_attempts n = no_Attempts item)
      /\ (v = Delivered -> (no_ID item, true) ∈ log)
      /\ (forall delay msg, v = Failed delay msg false -> no_Attempts item < max_attempts)%Z
  end.

Definition outbox_inv (s : outbox_system) : Prop :=
  NoDup (map nt_id (t_notes (ob_db s)))
  /\ Forall (fun n => nt_id n <= t_note_seq (ob_db s))%Z (t_notes (ob_db s))
  /\ Forall (fun p => p.1 <= t_note_seq (ob_db s))%Z (ob_log s)
  /\ Forall (row_ok (ob_log s) (ob_resets s)) (t_notes (ob_db s))
  /\ holding_ok (t_notes (ob_db s)) (ob_log s) (ob_holding s).

Lemma max_attempts_pos : (1 <= max_attempts)%Z.
Proof. unfold max_attempts, config_defaults. cbn. case_match; lia. Qed.

Lemma sends_app l k id : sends (l ++ k) id = sends l id + sends k id.
Proof. unfold sends. by rewrite List.filter_app, length_app. Qed.

Lemma unique_id ns n m : NoDup (map nt_id ns) -> n ∈ ns -> m ∈ ns -> nt_id n = nt_id m -> n = m.
Proof.
  induction ns as [|x ns IH]; intros Hn Hin Hm E; [by apply elem_of_nil in Hin|]. cbn [map] in Hn. apply NoDup_cons in Hn as [Hx Hn].
  apply elem_of_cons in Hin as [->|Hin], Hm as [->|Hm]; [done| | |by apply IH].
  - destruct Hx. rewrite E. by apply elem_of_map_2.
  - destruct Hx. rewrite <- E. by apply elem_of_map_2.
Qed.

(** A claim marks one pending row and leaves the others. *)
Lemma claim_spec now s s' r : ClaimNotification now s = (s', r) ->
  match r with
  | Ok (Some item) => exists n, n ∈ t_notes (db s) /\ nt_state n = "pending" /\ no_ID item = nt_id n
      /\ no_Attempts item = (nt_attempts n + 1)%Z /\ no_Payload item = nt_payload n /\ no_Channel item = nt_channel n
      /\ t_notes (db s') = map (fun m => if ((nt_id m =? nt_id n)%Z && String.eqb (nt_state m) "pending")%bool
                                         then set_note m "sending" (nt_attempts n + 1) (nt_next_attempt_at m) (nt_last_error m) else m)
                             (t_notes (db s))
      /\ t_note_seq (db s') = t_note_seq (db s)
  | _ => t_notes (db s') = t_notes (db s) /\ t_note_seq (db s') = t_note_seq (db s)
  end.
Proof.
  unfold ClaimNotification. intros Ht. apply transaction_outcome in Ht. destruct r as [item|e]; [|by rewrite Ht].
  destruct Ht as (s0 & s1 & c & E0 & Hb & Hd). unfold sql_bind at 1 in Hb.
  destruct (query_run (fun d => List.find (due now) (t_notes d)) s0) as (s2 & E2 & [Hq|[e Hq]]); rewrite Hq in Hb; [|done].
  destruct (List.find (due now) (t_notes (db s0))) as [n|] eqn:Ef; [|by injection Hb as <- <- <-; rewrite Hd, E2, E0].
  apply List.find_some in Ef as [Hin Hdue]. apply list_elem_of_In in Hin. rewrite E0 in Hin. unfold sql_bind, exec in Hb. pose proof (tick_db s2) as Ht.
  destruct (tick s2) as [s3 [e|]]; simpl in Ht; [done|]. cbn [db] in Hb.
  destruct (negb _) in Hb; injection Hb as <- <- <-; rewrite Hd; [done|]. exists n. split; [done|].
  unfold due in Hdue. apply andb_true_iff in Hdue as [Hp%String.eqb_eq _]. cbn [t_notes on_notes t_note_seq db no_ID no_Attempts no_Payload no_Channel].
  by rewrite Ht, E2, E0.
Qed.

Lemma appended_inv d d' log h resets : appends d d' ->
  outbox_inv {| ob_db := d; ob_holding := h; ob_log := log; ob_resets := resets |} ->
  outbox_inv {| ob_db := d'; ob_holding := h; ob_log := log; ob_resets := resets |}.
Proof.
  intros (Hle & new & En & Hf & Hnd) (H1 & H2 & H3 & H4 & H5). unfold outbox_inv in *. cbn [ob_db ob_log ob_resets ob_holding] in *.
  rewrite Forall_forall in Hf, H2. rewrite Forall_forall in H3. rewrite En. split; [|split; [|split; [|split]]].
  - rewrite map_app. apply NoDup_app. split; [done|]. split; [|done]. intros x Hx Hy.
    apply elem_of_map in Hx as (n & -> & Hn). apply elem_of_map in Hy as (m & E & Hm).
    pose proof (H2 n Hn). destruct (Hf m Hm) as (_ & _ & ?). lia.
  - apply Forall_app. split; apply Forall_forall; intros n Hn; [pose proof (H2 n Hn); lia|destruct (Hf n Hn) as (_ & _ & ?); lia].
  - apply Forall_forall. intros p Hp. pose proof (H3 p Hp). lia.
  - apply Forall_app. split; [done|]. apply Forall_forall. intros n Hn. destruct (Hf n Hn) as (Hp & Ha & Hi).
    pose proof max_attempts_pos. assert (Hs : sends log (nt_id n) = 0).
    { unfold sends. destruct (List.filter _ log) as [|p l] eqn:E; [done|]. exfalso.
      assert (Hin : In p (List.filter (fun p => (p.1 =? nt_id n)%Z) log)) by (rewrite E; by left).
      apply List.filter_In in Hin as [Hin Hq%Z.eqb_eq]. apply list_elem_of_In in Hin. pose proof (H3 p Hin). lia. }
    unfold row_ok. rewrite Hs, Ha, Hp. split; [lia|]. split; [intros _; lia|]. split; [lia|done].
  - unfold holding_ok in *. destruct h as [[item v]|]; [|done]. destruct H5 as ((n & Hn & ?) & H5). split; [|done]. exists n.
    split; [apply elem_of_app; by left|done].
Qed.

(** A change of rows that keeps ids keeps the ids distinct and bounded. *)
Lemma mapped_ids f (d d' : DB) : (forall n, nt_id (f n) = nt_id n) -> t_notes d' = map f (t_notes d) -> t_note_seq d' = t_note_seq d ->
  NoDup (map nt_id (t_notes d)) /\ Forall (fun n => nt_id n <= t_note_seq d)%Z (t_notes d) ->
  NoDup (map nt_id (t_notes d')) /\ Forall (fun n => nt_id n <= t_note_seq d')%Z (t_notes d').
Proof.
  intros Hf -> -> [H1 H2]. rewrite map_map, (map_ext _ nt_id) by done. split; [done|]. apply Forall_map.
  eapply Forall_impl; [exact H2|]. intros n Hn. simpl. by rewrite Hf.
Qed.

Lemma row_other log resets n p : nt_id n <> p.1 -> row_ok log resets n -> row_ok (log ++ [p]) resets n.
Proof.
  intros Hp (H1 & H2 & H3 & H4). unfold row_ok. rewrite sends_app. unfold sends at 2. cbn [List.filter].
  destruct (Z.eqb_spec p.1 (nt_id n)) as [E|_]; [by destruct Hp|]. simpl. split; [done|]. split; [done|]. split; [lia|].
  intros Hs. apply elem_of_app. left. auto.
Qed.

Lemma outbox_claim s s' : outbox_inv s -> forall now fs client_Do d item x,
  ob_holding s = None -> dp_config d = config_defaults config ->
  ClaimNotification now {| db := ob_db s; faults := fs |} = (x, Ok (Some item)) ->
  s' = {| ob_db := db x; ob_holding := Some (item, judged client_Do d item);
          ob_log := ob_log s ++ (if transport unmarshal_message d item then [(no_ID item, is_delivered (judged client_Do d item))] else []);
          ob_resets := ob_resets s |} -> outbox_inv s'.
Proof.
  intros (H1 & H2 & H3 & H4 & H5) now fs client_Do d item x Hh Hcfg Hc ->.
  apply claim_spec in Hc as (n & Hin & Hp & Eid & Eatt & _ & _ & En & Es). cbn [db] in *.
  set (f := fun m => if ((nt_id m =? nt_id n)%Z && String.eqb (nt_state m) "pending")%bool
                     then set_note m "sending" (nt_attempts n + 1) (nt_next_attempt_at m) (nt_last_error m) else m) in *.
  assert (Hid : forall m, nt_id (f m) = nt_id m) by (intros m; unfold f; by case_match).
  assert (Hfn : f n = set_note n "sending" (nt_attempts n + 1) (nt_next_attempt_at n) (nt_last_error n)).
  { unfold f. rewrite Z.eqb_refl, Hp. done. }
  assert (Hfo : forall m, m ∈ t_notes (ob_db s) -> nt_id m <> nt_id n -> f m = m).
  { intros m _ Hne. unfold f. by destruct (Z.eqb_spec (nt_id m) (nt_id n)). }
  rewrite Forall_forall in H4. destruct (H4 n Hin) as (Ha & Hpa & Hsn & _). specialize (Hpa Hp).
  destruct (mapped_ids f (ob_db s) (db x) Hid En Es (conj H1 H2)) as [M1 M2].
  unfold outbox_inv. cbn [ob_db ob_log ob_resets ob_holding]. split; [done|]. split; [done|]. split; [|split].
  - apply Forall_app. rewrite Es. split; [done|]. rewrite Forall_forall in H2. pose proof (H2 n Hin). case_match; repeat constructor. simpl. lia.
  - rewrite En. apply Forall_map, Forall_forall. intros m Hm. simpl. destruct (decide (nt_id m = nt_id n)) as [E|Hne].
    + assert (m = n) as -> by (by apply (unique_id (t_notes (ob_db s)))). rewrite Hfn. unfold row_ok. cbn [set_note nt_attempts nt_state nt_id].
      rewrite sends_app. split; [lia|]. split; [done|]. split; [|done].
      assert (sends (if transport unmarshal_message d item then [(no_ID item, is_delivered (judged client_Do d item))] else []) (nt_id n) <= 1)
        by (case_match; unfold sends; simpl; [case_match; simpl|]; lia). lia.
    + rewrite Hfo by done. case_match; [|rewrite app_nil_r; by apply H4]. apply row_other; [|by apply H4]. simpl. by rewrite Eid.
  - cbn [holding_ok]. split; [|split].
    + exists (f n). rewrite Hfn at 2 3 4. rewrite En, Eid, Eatt. split; [by apply elem_of_map_2|done].
    + unfold judged, judge_item, transport. intros Hv. destruct (unmarshal_message (no_Payload item)); [|done].
      destruct (dp_channels d !! no_Channel item) as [ch|]; [|done]. cbn [fmap option_fmap option_map]. rewrite Hv.
      apply elem_of_app. right. by left.
    + unfold judged, judge_item. intros delay msg Hv. destruct (unmarshal_message (no_Payload item)); [|done].
      destruct (dp_channels d !! no_Channel item) as [ch|]; [|done]. destruct (Send _ _ _ _ _) as [e|]; [|done].
      injection Hv as _ _ Hb. apply orb_false_iff in Hb as [Hb _]. apply Z.leb_gt in Hb. by rewrite Hcfg in Hb.
Qed.

(** What settling writes: the held row's new state, or nothing. *)
Lemma settle_spec id v now s : exists f,
  t_notes (db (settle id v now s).1) = map f (t_notes (db s)) /\ t_note_seq (db (settle id v now s).1) = t_note_seq (db s)
  /\ forall n, f n = n \/ (nt_id n = id /\ exists st next err, f n = set_note n st (nt_attempts n) next err
        /\ ((st = "sent" /\ v = Delivered) \/ st = "abandoned" \/ (st = "pending" /\ exists delay msg, v = Failed delay msg false))).
Proof.
  assert (Hsame : exists f, t_notes (db s) = map f (t_notes (db s)) /\ forall n : note_row, f n = n).
  { exists (fun n => n). by rewrite map_id. }
  destruct v as [|delay msg ab]; cbn [settle].
  - unfold CompleteNotification, update, exec. pose proof (tick_db s) as Ht. destruct (tick s) as [s0 [e|]]; simpl in Ht; cbn [fst db]; rewrite ?Ht.
    + destruct Hsame as (f & E & Hf). exists f. split; [exact E|]. split; [done|]. intros n. left. apply Hf.
    + eexists. split; [reflexivity|]. split; [done|]. intros n. cbv beta. destruct (Z.eqb_spec (nt_id n) id); [|by left]. right.
      split; [done|]. eexists _, _, _. split; [reflexivity|]. by left.
  - unfold FailNotification, exec. pose proof (tick_db s) as Ht. destruct (tick s) as [s0 [e|]]; simpl in Ht; cbn [fst db]; rewrite ?Ht.
    + destruct Hsame as (f & E & Hf). exists f. split; [exact E|]. split; [done|]. intros n. left. apply Hf.
    + cbv zeta. case_bool_decide; cbn [fst db t_notes on_notes t_note_seq].
      * eexists. split; [reflexivity|]. split; [done|]. intros n. cbv beta. destruct (Z.eqb_spec (nt_id n) id); [|by left]. right.
        split; [done|]. eexists _, _, _. split; [reflexivity|]. destruct ab; [by right; left|]. right. right. eauto.
      * rewrite Ht. destruct Hsame as (f & E & Hf). exists f. split; [exact E|]. split; [done|]. intros n. left. apply Hf.
Qed.

Lemma outbox_settled s item v now fs : outbox_inv s -> ob_holding s = Some (item, v) ->
  outbox_inv {| ob_db := db (settle (no_ID item) v now {| db := ob_db s; faults := fs |}).1; ob_holding := None;
                ob_log := ob_log s; ob_resets := ob_resets s |}.
Proof.
  intros (H1 & H2 & H3 & H4 & H5) Hh. rewrite Hh in H5. destruct H5 as ((n & Hn & Eid & Est & Eat) & Hd & Hf).
  destruct (settle_spec (no_ID item) v now {| db := ob_db s; faults := fs |}) as (f & En & Es & Hfs). cbn [db] in *.
  assert (Hid : forall m, nt_id (f m) = nt_id m) by (intros m; destruct (Hfs m) as [->|(_ & ? & ? & ? & -> & _)]; done).
  destruct (mapped_ids f (ob_db s) _ Hid En Es (conj H1 H2)) as [M1 M2].
  unfold outbox_inv. cbn [ob_db ob_log ob_resets ob_holding]. split; [done|]. split; [done|]. split; [by rewrite Es|]. split; [|done].
  rewrite En. apply Forall_map, Forall_forall. intros m Hm. simpl. rewrite Forall_forall in H4.
  destruct (Hfs m) as [->|(E & st & next & err & -> & Hst)]; [by apply H4|].
  assert (m = n) as -> by (apply (unique_id (t_notes (ob_db s))); [done|done|done|congruence]). destruct (H4 n Hn) as (Ha & _ & Hs & _).
  unfold row_ok. cbn [set_note nt_attempts nt_state nt_id]. split; [done|]. split; [|split; [done|]].
  - intros ->. destruct Hst as [[]|[|(_ & delay & msg & Hv)]]; [done|done|]. pose proof (Hf delay msg Hv). lia.
  - intros ->. destruct Hst as [[_ Hv]|[|[]]]; [|done|done]. rewrite E. by apply Hd.
Qed.

Lemma outbox_restarted s fs : outbox_inv s ->
  outbox_inv {| ob_db := db (ResetSendingNotifications {| db := ob_db s; faults := fs |}).1; ob_holding := None;
                ob_log := ob_log s; ob_resets := S (ob_resets s) |}.
Proof.
  intros (H1 & H2 & H3 & H4 & H5). rewrite Forall_forall in H4. unfold ResetSendingNotifications, update, exec.
  pose proof (tick_db {| db := ob_db s; faults := fs |}) as Ht. destruct (tick _) as [s0 [e|]]; simpl in Ht; cbn [fst db]; unfold outbox_inv;
    cbn [ob_db ob_log ob_resets ob_holding t_notes on_notes t_note_seq]; rewrite Ht; cbn [db].
  - repeat (split; [done|]). split; [|done]. apply Forall_forall. intros n Hn. destruct (H4 n Hn) as (A & B & C & D).
    split; [lia|]. split; [|done]. intros Hp. specialize (B Hp). lia.
  - set (f := fun n => if String.eqb (nt_state n) "sending" then _ else n).
    assert (Hid : forall m, nt_id (f m) = nt_id m) by (intros m; unfold f; by case_match).
    destruct (mapped_ids f (ob_db s) (on_notes (map f) (ob_db s)) Hid eq_refl eq_refl (conj H1 H2)) as [M1 M2].
    split; [exact M1|]. split; [exact M2|]. split; [done|]. split; [|done]. apply Forall_map, Forall_forall. intros n Hn. simpl.
    destruct (H4 n Hn) as (A & B & C & D). unfold row_ok. rewrite Hid. unfold f. destruct (String.eqb_spec (nt_state n) "sending").
    + cbn [set_note nt_attempts nt_state]. split; [lia|]. split; [intros _; lia|]. by split.
    + split; [lia|]. split; [|done]. intros Hp. specialize (B Hp). lia.
Qed.

Lemma outbox_reachable_inv s : outbox_reachable s -> outbox_inv s.
Proof.
  induction 1 as [|s s' Hr IH Hs]; [split; [|split; [|split; [|split]]]; constructor|].
  destruct Hs as [now fs client_Do d item x Hh Hcfg Hc|now fs x r Hh Hc Hr'|item v now fs Hh|o fs Ho|fs].
  - by eapply outbox_claim.
  - apply claim_spec in Hc. assert (E : t_notes (db x) = t_notes (ob_db s) /\ t_note_seq (db x) = t_note_seq (ob_db s)).
    { destruct r as [[item|]|]; [by destruct (Hr' item)|done|done]. }
    destruct IH as (H1 & H2 & H3 & H4 & H5). unfold outbox_inv. cbn [ob_db ob_log ob_resets ob_holding]. destruct E as [-> ->]. done.
  - by eapply outbox_settled.
  - apply (appended_inv (ob_db s)); [|by destruct s].
    pose proof (harmless_appends marshal_state unmarshal_state json_Valid marshal_channel o (ob_db s) Ho {| db := ob_db s; faults := fs |} (appends_refl _)) as Hp.
    by destruct (op_sql _ _ _ _ _ _) as [x [a|e]].
  - by apply outbox_restarted.
Qed.

(** *** Retry delays *)

Lemma double_until_bounds k b : (0 < b <= hour)%Z -> (b <= double_until k b < 2 * hour)%Z.
Proof.
  revert b; induction k as [|k IH]; intros b Hb; cbn [double_until]; [unfold hour in *; lia|].
  destruct (Z.ltb_spec b hour); [|unfold hour in *; lia].
  destruct (Z.le_gt_cases (b * 2) hour) as [Hle|Hgt]; [specialize (IH (b * 2)%Z ltac:(lia)); lia|].
  destruct k as [|k]; cbn [double_until]; [lia|]. destruct (Z.ltb_spec (b * 2) hour); lia.
Qed.
End Life.

(** ** The properties *)

(** C28. A notification is sent a bounded number of times and only marked sent when it was: whatever
    fails, whatever the rest of the program does in between and however often the process restarts,
    the transport is called for a row at most the configured number of attempts plus once per
    restart, and a row marked sent had a call that delivered it. *)
Theorem delivery_bounded marshal_state unmarshal_state json_Valid marshal_channel marshal_message unmarshal_message new_request scrub config s :
  outbox_reachable marshal_state unmarshal_state json_Valid marshal_channel marshal_message unmarshal_message new_request scrub config s ->
  forall n, n ∈ t_notes (ob_db s) ->
    (Z.of_nat (sends (ob_log s) (nt_id n)) <= dc_MaxAttempts (config_defaults config) + Z.of_nat (ob_resets s))%Z
    /\ (nt_state n = "sent" -> (nt_id n, true) ∈ ob_log s).
Proof.
  intros H n Hn. apply outbox_reachable_inv in H as (_ & _ & _ & H & _). rewrite Forall_forall in H.
  destruct (H n Hn) as (Ha & _ & Hs & Hd). split; [|done]. unfold max_attempts in Ha. lia.
Qed.

(** The delay before another attempt is at least the configured base and at most an hour. *)
Theorem retry_delay_bounded base attempts : (0 < base <= hour)%Z -> (base <= retry_delay base attempts <= hour)%Z.
Proof. intros Hb. unfold retry_delay. pose proof (double_until_bounds (Z.to_nat (attempts - 1)) base Hb). lia. Qed.

(** ** The properties at concrete inputs *)

Definition sample_message : Message := rule_message "disk" "fired" "warning".
Definition sample_config : DispatcherConfig := {| dc_MaxAttempts := 3; dc_RetryBase := second; dc_PollEvery := second |}.
Definition sample_dispatcher : Dispatcher :=
  NewDispatcher {["ops" := {| oc_Notifier := WebhookNotifier "https://hooks.lan/x" "POST" ∅; oc_PerHour := 1; oc_Cooldown := minute |}]} sample_config.
Definition answers (status : Z) : out_request -> option Z := fun _ => Some status.
Definition sample_verdict (status : Z) (item : Notification) : verdict :=
  judged (fun _ => Ok "{}") (fun _ => Ok sample_message) (fun _ _ => true) id (answers status) sample_dispatcher item.

(** A 503 is retried after a second, a 404 abandoned. *)
Example verdicts :
  let item := {| no_ID := 1; no_Channel := "ops"; no_Payload := "{}"; no_Attempts := 1 |} in
  (sample_verdict 503 item, sample_verdict 404 item, sample_verdict 204 item)
  = (Failed (Some second) "notify: transient HTTP 503" false, Failed (Some second) "notification rejected with HTTP 404" true, Delivered).
Proof. vm_compute. reflexivity. Qed.

Definition queued_system : outbox_system :=
  {| ob_db := db (op_sql marshal_id unmarshal_pending (fun _ => true) id (OpEnqueue sample_request) {| db := empty_db; faults := [] |}).1;
     ob_holding := None; ob_log := []; ob_resets := 0 |}.
Definition claimed := ClaimNotification noon {| db := ob_db queued_system; faults := [] |}.
Definition claimed_item : Notification := {| no_ID := 1; no_Channel := "ops"; no_Payload := "{}"; no_Attempts := 1 |}.
Definition held_system : outbox_system :=
  {| ob_db := db claimed.1; ob_holding := Some (claimed_item, sample_verdict 204 claimed_item);
     ob_log := [] ++ (if transport (fun _ => Ok sample_message) sample_dispatcher claimed_item
                      then [(1%Z, is_delivered (sample_verdict 204 claimed_item))] else []); ob_resets := 0 |}.
Definition sent_system : outbox_system :=
  {| ob_db := db (settle 1 (sample_verdict 204 claimed_item) noon {| db := ob_db held_system; faults := [] |}).1; ob_holding := None;
     ob_log := ob_log held_system; ob_resets := 0 |}.

Example delivery_bounded_witness :
  exists n, n ∈ t_notes (ob_db sent_system) /\ nt_state n = "sent" /\ (nt_id n, true) ∈ ob_log sent_system.
Proof.
  assert (R : outbox_reachable marshal_id unmarshal_pending (fun _ => true) id (fun _ => Ok "{}") (fun _ => Ok sample_message)
                (fun _ _ => true) id sample_config sent_system).
  { eapply ob_reach_step; [eapply ob_reach_step; [eapply ob_reach_step; [apply ob_reach_start|]|]|].
    - exact (ob_other _ _ _ _ _ _ _ _ _ outbox_start (OpEnqueue sample_request) [] I).
    - refine (ob_claim _ _ _ _ _ _ _ _ _ queued_system noon [] (answers 204) sample_dispatcher claimed_item claimed.1 _ _ _); [done|done|].
      vm_compute. reflexivity.
    - exact (ob_settle _ _ _ _ _ _ _ _ _ held_system claimed_item (sample_verdict 204 claimed_item) noon [] eq_refl). }
  set (row := {| nt_id := 1; nt_created_at := stamp noon; nt_channel := "ops"; nt_dedupe_key := Some "ops:disk:fired"; nt_payload := "{}";
                 nt_state := "sent"; nt_attempts := 1; nt_next_attempt_at := None; nt_last_error := None |}).
  assert (Hrow : row ∈ t_notes (ob_db sent_system)).
  { assert (E : t_notes (ob_db sent_system) = [row]) by (vm_compute; reflexivity). rewrite E. by left. }
  exists row. split; [exact Hrow|]. split; [reflexivity|].
  exact (proj2 (delivery_bounded _ _ _ _ _ _ _ _ _ _ R row Hrow) eq_refl).
Defined.
