(* ===== verification/AssetCache.v ===== *)
(** * internal/storage/assetcache: upstream images on disk

    Bodies in files named by their key and prefixed with their digest, their sizes and ages in the
    asset_cache table; the least recently used go when the sizes exceed the budget. A computation
    works on the database and the files together and any statement or file operation may fail.
    Concurrent misses of one key share a flight. *)
From S2P Require Import Prelude GoSort GoTime TimeText Sql Database Storage Assets.
From Stdlib Require Import Sorting.Sorted.

(** [Result] *)
Record Result := { r_Body : string; r_ContentType : string }.

(** [Cache]: its directory and budget; its store and files are the world, its flights below. *)
Record Cache := { ca_dir : string; ca_budget : Z }.

Record World := { w_db : DB; w_files : gmap string string }.
Definition on_db (f : DB -> DB) (w : World) : World := {| w_db := f (w_db w); w_files := w_files w |}.
Definition on_files (f : gmap string string -> gmap string string) (w : World) : World :=
  {| w_db := w_db w; w_files := f (w_files w) |}.
Definition rows (w : World) : gmap string asset_row := t_assets (w_db w).
Definition set_rows (f : gmap string asset_row -> gmap string asset_row) : World -> World := on_db (on_assets f).

Abbreviation Disk := (Sql World) (only parsing).

(** An operation that fails or does nothing the model keeps: sync, close, mkdir. *)
Definition attempt : Disk unit := query (fun _ => tt).

Definition New (dataDir : string) (budget : Z) : Disk Cache :=
  let budget := if (budget <=? 0)%Z then 536870912%Z else budget in
  do* _ <- attempt;
  sql_ret {| ca_dir := dataDir +:+ "/assets"; ca_budget := budget |}.

(** [sha256.Size], and a decoded key of that many bytes. *)
Definition digest_size : nat := 32.
Definition valid_key (key : string) : bool :=
  match b64url_decode key with Some d => Nat.eqb (String.length d) digest_size | None => false end.

(** [equal], over every byte. *)
Fixpoint xor_all (v : N) (a b : string) : N :=
  match a, b with
  | String x a, String y b => xor_all (N.lor v (N.lxor (byteN x) (byteN y))) a b
  | _, _ => v
  end.
Definition equal (a b : string) : bool :=
  if negb (Nat.eqb (String.length a) (String.length b)) then false else N.eqb (xor_all 0 a b) 0.

Definition now (t : Time) : string := stamp t.

Section Cache.
Variable sha256 : string -> string.
Variable c : Cache.

(** [filepath.Join(c.dir, key)]; [path] panics on an invalid key. *)
Definition file_of (key : string) : string := ca_dir c +:+ "/" +:+ key.
Definition path (key : string) : Disk string :=
  if valid_key key then sql_ret (file_of key) else sql_fail ("assetcache: invalid internal key " +:+ key).

Definition remove (key : string) : Disk unit :=
  do* p <- path key;
  do* _ <- sql_try (update (on_files (delete p)));
  update (set_rows (delete key)).

(** [SELECT hash ... ORDER BY last_access_at, hash LIMIT 1] *)
Definition older (p q : string * asset_row) : bool :=
  str_ltb (ar_last_access_at p.2) (ar_last_access_at q.2)
  || String.eqb (ar_last_access_at p.2) (ar_last_access_at q.2) && str_leb p.1 q.1.
Definition least_recent (m : gmap string asset_row) : option string := fst <$> head (isort older (map_to_list m)).

(** [SELECT coalesce(sum(bytes),0)], an error past 64 bits. *)
Definition total (m : gmap string asset_row) : Z := map_fold (fun _ r acc => ar_bytes r + acc)%Z 0%Z m.
Definition select_total : Disk Z :=
  exec (fun w => if bool_decide (total (rows w) < 2 ^ 63)%Z then Ok (w, total (rows w)) else Err "integer overflow").

Fixpoint evict (fuel : nat) : Disk unit :=
  match fuel with
  | 0 => sql_fail "fuel"
  | S fuel =>
      do* sum <- select_total;
      if (sum <=? ca_budget c)%Z then sql_ret tt
      else
        do* key <- query (fun w => least_recent (rows w));
        match key with
        | None => sql_fail "sql: no rows in result set"
        | Some key => do* _ <- remove key; evict fuel
        end
  end.

Definition touch (t : Time) (r : asset_row) : asset_row :=
  {| ar_connection_id := ar_connection_id r; ar_content_type := ar_content_type r; ar_bytes := ar_bytes r;
     ar_created_at := ar_created_at r; ar_last_access_at := now t |}.

(** What the file of a body holds, and what of it may be served. *)
Definition sealed (body : string) : string := sha256 body +:+ body.
Definition take_str (n : nat) (s : string) : string := String.substring 0 n s.
Definition intact (size : Z) (data : string) : bool :=
  Z.eqb (Z.of_nat (String.length data)) (wrap64 (size + Z.of_nat digest_size))
  && equal (take_str digest_size data) (sha256 (drop_str digest_size data)).

Definition get (t : Time) (key : string) : Disk (option Result) :=
  do* row <- query (fun w => rows w !! key);
  match row with
  | None => sql_ret None
  | Some row =>
      do* p <- path key;
      do* file <- query (fun w => w_files w !! p);
      match file with
      | None => do* _ <- sql_try (remove key); sql_ret None
      | Some data =>
          if negb (intact (ar_bytes row) data) then do* _ <- sql_try (remove key); sql_ret None
          else
            do* _ <- sql_try (update (set_rows (alter (touch t) key)));
            sql_ret (Some {| r_Body := drop_str digest_size data; r_ContentType := ar_content_type row |})
      end
  end.

(** The upsert: a row that is there keeps its creation time. *)
Definition upsert (key connectionID : string) (t : Time) (result : Result) (m : gmap string asset_row) : gmap string asset_row :=
  <[key := {| ar_connection_id := connectionID; ar_content_type := r_ContentType result;
              ar_bytes := Z.of_nat (String.length (r_Body result));
              ar_created_at := from_option ar_created_at (now t) (m !! key); ar_last_access_at := now t |}]> m.

(** [os.Rename], over whatever is there. *)
Definition rename (from to : string) (files : gmap string string) : gmap string string :=
  match files !! from with Some d => <[to := d]> (delete from files) | None => files end.

(** Written, synced unless the write failed, and closed; the first error of the three is returned. *)
Definition write_temp (tmp data : string) : Disk unit :=
  do* written <- sql_try (do* _ <- update (on_files (<[tmp := data]>)); attempt);
  do* closed <- sql_try attempt;
  match written with Err e => sql_fail e | Ok _ => lift closed end.

Definition put_file (tmp key connectionID : string) (t : Time) (result : Result) (fuel : nat) : Disk unit :=
  do* _ <- write_temp tmp (sealed (r_Body result));
  do* p <- path key;
  do* _ <- update (on_files (rename tmp p));
  do* _ <- update (set_rows (upsert key connectionID t result));
  evict fuel.

(** [tmp] is the name [os.CreateTemp] picks; whatever happens next, it is removed. *)
Definition put (tmp key connectionID : string) (t : Time) (result : Result) (fuel : nat) : Disk unit :=
  if (ca_budget c <? Z.of_nat (String.length (r_Body result)))%Z then sql_ret tt
  else
    do* _ <- update (on_files (<[tmp := ""]>));
    do* r <- sql_try (put_file tmp key connectionID t result fuel);
    do* _ <- sql_try (update (on_files (delete tmp)));
    lift r.

(** ** Flights

    The leader of a flight does the work under no lock; callers that find a flight wait for its
    result or for their own context. *)

(** The leader's work: [fetched] is what the fetch function returns if it is called, and the
    boolean says whether it was. *)
Definition fill (t1 t2 : Time) (tmp key connectionID : string) (fetched : res string Result) (fuel : nat) : Disk (Result * bool) :=
  do* cached <- get t1 key;
  match cached with
  | Some result => sql_ret (result, false)
  | None =>
      do* result <- lift fetched;
      do* _ <- put tmp key connectionID t2 result fuel;
      sql_ret (result, true)
  end.
End Cache.

Record Flights := {
  fl_open : gmap string nat;                  (* flights: by key, the leader's number *)
  fl_done : gmap nat (res string Result);     (* closed flights, as their waiters see them *)
  fl_next : nat }.

Inductive arrival := NilFetch | InvalidKey | Wait (flight : nat) | Lead (flight : nat).

(** The first critical section of [GetOrFetch]. *)
Definition arrive (has_fetch : bool) (key : string) (f : Flights) : Flights * arrival :=
  if negb has_fetch then (f, NilFetch)
  else if negb (valid_key key) then (f, InvalidKey)
  else match fl_open f !! key with
       | Some n => (f, Wait n)
       | None => ({| fl_open := <[key := fl_next f]> (fl_open f); fl_done := fl_done f; fl_next := S (fl_next f) |},
                  Lead (fl_next f))
       end.

(** The second: the flight leaves the map and its waiters are released. *)
Definition land (key : string) (n : nat) (r : res string Result) (f : Flights) : Flights :=
  {| fl_open := delete key (fl_open f); fl_done := <[n := r]> (fl_done f); fl_next := fl_next f |}.

(** A waiter's [select] takes either of the channels that are ready: its context's or the flight's. *)
Definition await (n : nat) (cancelled : option string) (f : Flights) : list (res string Result) :=
  match cancelled with Some e => [Err e] | None => [] end ++ match fl_done f !! n with Some r => [r] | None => [] end.

(** ** Lemmas *)

Lemma xor_all_zero v a b : String.length a = String.length b ->
  N.eqb (xor_all v a b) 0 = N.eqb v 0 && String.eqb a b.
Proof.
  revert v b; induction a as [|x a IH]; intros v [|y b] Hl; simpl in *; try done; [by rewrite andb_true_r|].
  rewrite IH by lia. destruct (Ascii.eqb_spec x y) as [->|Hne].
  - by rewrite N.lxor_nilpotent, N.lor_0_r.
  - destruct (N.eqb_spec (N.lor v (N.lxor (byteN x) (byteN y))) 0) as [E|]; [|by rewrite andb_false_r].
    apply N.lor_eq_0_iff in E as [_ E]. apply N.lxor_eq in E. by apply byteN_inj in E.
Qed.

Lemma equal_eqb a b : equal a b = String.eqb a b.
Proof.
  unfold equal. destruct (Nat.eqb_spec (String.length a) (String.length b)) as [E|E]; simpl; [by rewrite xor_all_zero|].
  symmetry. apply String.eqb_neq. congruence.
Qed.

Lemma take_str_app a b : take_str (String.length a) (a +:+ b) = a.
Proof. unfold take_str. induction a as [|x a IH]; [by destruct b|]. rewrite app_cons_str. simpl. by rewrite IH. Qed.

Lemma older_total p q : older p q = true \/ older q p = true.
Proof.
  unfold older, str_ltb. destruct (str_leb_total (ar_last_access_at p.2) (ar_last_access_at q.2)) as [H|H], (str_leb_total p.1 q.1) as [K|K];
    destruct (String.eqb_spec (ar_last_access_at p.2) (ar_last_access_at q.2)) as [E|E];
    destruct (String.eqb_spec (ar_last_access_at q.2) (ar_last_access_at p.2)) as [E'|E']; try congruence;
    rewrite ?K; simpl; rewrite ?orb_true_r; try (by left); try (by right).
  all: rewrite ?orb_false_r.
  all: destruct (str_leb (ar_last_access_at q.2) (ar_last_access_at p.2)) eqn:H1; [|by left].
  all: destruct (str_leb (ar_last_access_at p.2) (ar_last_access_at q.2)) eqn:H2; [|by right].
  all: by destruct E; apply str_leb_antisym.
Qed.

Lemma older_spec p q : older p q = true <->
  str_leb (ar_last_access_at p.2) (ar_last_access_at q.2) = true
  /\ (ar_last_access_at p.2 = ar_last_access_at q.2 -> str_leb p.1 q.1 = true).
Proof.
  unfold older, str_ltb. rewrite orb_true_iff, negb_true_iff, andb_true_iff. split.
  - intros [H|[->%String.eqb_eq H]]; [|split; [apply str_leb_refl|done]]. split; [|intros E; by rewrite E, str_leb_refl in H].
    destruct (str_leb_total (ar_last_access_at p.2) (ar_last_access_at q.2)); [done|congruence].
  - intros [H K]. destruct (String.eqb_spec (ar_last_access_at p.2) (ar_last_access_at q.2)) as [E|E]; [by right; auto|].
    left. apply not_true_iff_false. intros K2. apply E. by apply str_leb_antisym.
Qed.

Lemma older_trans p q r : older p q = true -> older q r = true -> older p r = true.
Proof.
  rewrite !older_spec. intros [H1 K1] [H2 K2]. split; [by eapply str_leb_trans|].
  intros E. rewrite E in H1. assert (E' : ar_last_access_at q.2 = ar_last_access_at r.2) by (by apply str_leb_antisym).
  eapply str_leb_trans; [apply K1; congruence|by apply K2].
Qed.

Lemma least_recent_None m : least_recent m = None -> m = ∅.
Proof.
  unfold least_recent. intros H. apply map_to_list_empty_iff. apply Permutation_nil_r. rewrite <- (isort_perm older).
  by destruct (isort _ _).
Qed.

Lemma least_recent_Some m k : least_recent m = Some k ->
  exists r, m !! k = Some r /\ forall k' r', m !! k' = Some r' -> older (k, r) (k', r') = true.
Proof.
  unfold least_recent. intros H. pose proof (isort_sorted older older_total older_trans (map_to_list m)) as Hs.
  pose proof (isort_perm older (map_to_list m)) as Hp. destruct (isort older (map_to_list m)) as [|[k0 r0] l] eqn:E; [done|].
  simpl in H. injection H as ->. exists r0. split; [apply elem_of_map_to_list; rewrite <- Hp; by left|].
  intros k' r' Hk'%elem_of_map_to_list. rewrite <- Hp in Hk'. apply elem_of_cons in Hk' as [[= -> ->]|Hk'].
  - match goal with |- older ?x ?x = true => by destruct (older_total x x) end.
  - inversion_clear Hs as [|?? _ Hall]. rewrite Forall_forall in Hall. by apply Hall.
Qed.

Lemma total_delete m k r : m !! k = Some r -> total m = (ar_bytes r + total (delete k m))%Z.
Proof. intros H. unfold total at 1. rewrite (map_fold_delete_L _ _ k r m); [done|intros; lia|done]. Qed.

(** What removing rows until the total fits makes of a table: nothing is kept that is older than
    something removed, and nothing is removed that would still have fitted. *)
Record trimmed (budget : Z) (m m' : gmap string asset_row) : Prop := {
  tr_total : (total m' <= budget)%Z;
  tr_sub : m' ⊆ m;
  tr_order : forall k r k' r', m !! k = Some r -> m' !! k = None -> m' !! k' = Some r' -> older (k, r) (k', r') = true;
  tr_needed : m' = m \/ exists k r, m !! k = Some r /\ m' !! k = None /\ (budget < total m' + ar_bytes r)%Z }.

Lemma trimmed_refl b m : (total m <= b)%Z -> trimmed b m m.
Proof. intros. split; [done..|congruence|by left]. Qed.

Lemma trimmed_step b m m' k : least_recent m = Some k -> (b < total m)%Z -> trimmed b (delete k m) m' -> trimmed b m m'.
Proof.
  intros (r & Hr & Hold)%least_recent_Some Hb [Ht Hs Ho Hn].
  assert (Hk : m' !! k = None).
  { destruct (m' !! k) eqn:E; [|done]. eapply lookup_weaken in E; [|exact Hs]. by rewrite lookup_delete_eq in E. }
  assert (Hsub : m' ⊆ m) by (etransitivity; [exact Hs|apply delete_subseteq]).
  split; [done..| |].
  - intros k1 r1 k2 r2 H1 H2 H3. destruct (decide (k1 = k)) as [->|Hne].
    + simplify_eq. apply Hold. by eapply lookup_weaken.
    + eapply Ho; [|exact H2|exact H3]. by rewrite lookup_delete_ne.
  - right. destruct Hn as [->|(k1 & r1 & H1 & H2 & H3)].
    + exists k, r. split; [done|]. split; [done|]. rewrite (total_delete m k r Hr) in Hb. lia.
    + exists k1, r1. split; [|done]. destruct (decide (k1 = k)) as [->|]; [by rewrite lookup_delete_eq in H1|].
      by rewrite lookup_delete_ne in H1.
Qed.

Section CacheLemmas.
Variable sha256 : string -> string.
Variable c : Cache.

Lemma file_of_inj k k' : file_of c k = file_of c k' -> k = k'.
Proof. intros H%app_inj_l. by injection H. Qed.

(** A removal that is not refused takes the row away; the file of another key stays. *)
Definition others_kept (key : string) (w w' : World) : Prop :=
  forall k, k <> key -> w_files w' !! file_of c k = w_files w !! file_of c k.

Lemma remove_Ok key s s' : remove c key s = (s', Ok tt) ->
  rows (db s') = delete key (rows (db s)) /\ others_kept key (db s) (db s').
Proof.
  unfold remove. intros (s1 & p & Hp & H)%bind_Ok. unfold path in Hp. destruct (valid_key key); [|done].
  injection Hp as <- <-. apply bind_Ok in H as (s2 & r & H2%try_Ok%update_outcome & H3%update_run).
  rewrite H3. destruct H2 as [->| ->]; (split; [done|]); intros k Hk; simpl; [|done].
  apply lookup_delete_ne. intros E%file_of_inj. done.
Qed.

Lemma select_total_Ok s s' z : select_total s = (s', Ok z) -> db s' = db s /\ z = total (rows (db s)) /\ (z < 2 ^ 63)%Z.
Proof.
  unfold select_total, exec. pose proof (tick_db s) as Ht. destruct (tick s) as [s0 [e|]]; simpl in *; [done|].
  case_bool_decide; [|done]. intros [= <- <-]. simpl. by rewrite <- Ht.
Qed.

Lemma evict_Ok fuel s s' : evict c fuel s = (s', Ok tt) ->
  trimmed (ca_budget c) (rows (db s)) (rows (db s'))
  /\ forall k, is_Some (rows (db s') !! k) -> w_files (db s') !! file_of c k = w_files (db s) !! file_of c k.
Proof.
  revert s; induction fuel as [|fuel IH]; intros s H; [done|]. simpl in H.
  apply bind_Ok in H as (s1 & z & (Ed & -> & Hz)%select_total_Ok & H).
  destruct (Z.leb_spec (total (rows (db s))) (ca_budget c)) as [Hle|Hgt].
  - injection H as <-. rewrite Ed. split; [by apply trimmed_refl|done].
  - apply bind_Ok in H as (s2 & o & [E2 Eo]%query_Ok & H). rewrite Ed in E2, Eo. subst o.
    destruct (least_recent _) as [key|] eqn:El; [|done].
    apply bind_Ok in H as (s3 & [] & [Er Hf]%remove_Ok & [Ht Hk]%IH). rewrite E2 in Er, Hf. rewrite Er in Ht.
    split; [by eapply trimmed_step|]. intros k Hs. rewrite Hk by done. apply Hf. intros ->.
    destruct Hs as [r Hr]. eapply lookup_weaken in Hr; [|exact (tr_sub _ _ _ Ht)]. by rewrite lookup_delete_eq in Hr.
Qed.

(** The loop ends by itself: fuel beyond the number of rows is not used. *)
Lemma evict_fuel fuel fuel' s : size (rows (db s)) < fuel -> size (rows (db s)) < fuel' -> evict c fuel s = evict c fuel' s.
Proof.
  revert fuel' s; induction fuel as [|fuel IH]; intros [|fuel'] s H H'; try lia. simpl. unfold sql_bind at 1 4.
  destruct (select_total s) as [s1 [z|e]] eqn:Es; [|done]. apply select_total_Ok in Es as (E1 & -> & _).
  case_match; [done|]. unfold sql_bind at 1 3. destruct (query _ s1) as [s2 [o|e]] eqn:Eq; [|done].
  apply query_Ok in Eq as [E2 ->]. rewrite E1 in E2 |- *. destruct (least_recent _) as [key|] eqn:El; [|done].
  unfold sql_bind. destruct (remove c key s2) as [s3 [[]|e]] eqn:Er; [|done]. apply remove_Ok in Er as [Er _].
  apply least_recent_Some in El as (r & Hr & _). apply IH; rewrite Er, E2, (map_size_delete_Some _ _ (mk_is_Some _ _ Hr));
    assert (size (rows (db s)) <> 0) by (intros E; apply map_size_empty_inv in E; by rewrite E, lookup_empty in Hr); lia.
Qed.

(** *** Without faults *)

Definition clear (w : World) : session World := {| db := w; faults := [] |}.

(** Rows as [put] leaves them: their keys name files, their sizes are lengths. *)
Definition good_rows (m : gmap string asset_row) : Prop :=
  map_Forall (fun k r => valid_key k = true /\ (0 <= ar_bytes r)%Z) m.

Lemma remove_clear key w : valid_key key = true ->
  remove c key (clear w) = (clear (set_rows (delete key) (on_files (delete (file_of c key)) w)), Ok tt).
Proof. intros H. unfold remove, path, sql_bind. by rewrite H. Qed.

Lemma total_nonneg m : good_rows m -> (0 <= total m)%Z.
Proof.
  induction m as [|k r m Hk IH] using map_ind; [done|]. intros Hg. assert (Hm : good_rows m) by (by eapply map_Forall_insert_1_2).
  pose proof (map_Forall_insert_1_1 _ _ _ _ Hg) as [_ Hr]. specialize (IH Hm).
  rewrite (total_delete (<[k:=r]> m) k r), delete_insert_id by (done || by rewrite lookup_insert_eq). lia.
Qed.

Lemma good_rows_delete k m : good_rows m -> good_rows (delete k m).
Proof. apply map_Forall_delete. Qed.

Lemma evict_clear fuel w : good_rows (rows w) -> (0 <= ca_budget c)%Z -> (total (rows w) < 2 ^ 63)%Z -> size (rows w) < fuel ->
  exists w', evict c fuel (clear w) = (clear w', Ok tt).
Proof.
  revert w; induction fuel as [|fuel IH]; intros w Hg Hb Ht Hf; [lia|]. cbn [evict]. unfold sql_bind at 1, select_total, exec.
  cbn [tick faults clear db]. rewrite bool_decide_true by done.
  destruct (Z.leb_spec (total (rows w)) (ca_budget c)); [by eexists|]. unfold sql_bind, query, exec. cbn [tick faults clear db].
  destruct (least_recent (rows w)) as [k|] eqn:El.
  - apply least_recent_Some in El as (r & Hr & _). destruct (Hg k r Hr) as [Hk Hk2].
    change {| db := w; faults := [] |} with (clear w). rewrite remove_clear by done.
    assert (E : rows (set_rows (delete k) (on_files (delete (file_of c k)) w)) = delete k (rows w)) by done.
    pose proof (total_delete _ _ _ Hr). pose proof (map_size_delete_Some _ _ (mk_is_Some _ _ Hr)) as Hsz.
    apply IH; rewrite ?E; [by apply good_rows_delete|done|lia|].
    assert (size (rows w) <> 0) by (intros E0; apply map_size_empty_inv in E0; by rewrite E0, lookup_empty in Hr). lia.
  - apply least_recent_None in El. rewrite El in *. unfold total in *. rewrite map_fold_empty in *. lia.
Qed.

(** *** [put] and [get] *)

(** The temporary file is none of the cache's own. *)
Definition fresh_temp (tmp : string) : Prop := forall k, valid_key k = true -> tmp <> file_of c k.

Lemma write_temp_Ok tmp data s s' : write_temp tmp data s = (s', Ok tt) ->
  db s' = on_files (<[tmp := data]>) (db s).
Proof.
  unfold write_temp. intros (s1 & r & H1%try_Ok & (s2 & r2 & H2%try_Ok & H3)%bind_Ok)%bind_Ok.
  destruct r as [[]|]; [|done]. apply bind_Ok in H1 as (s0 & [] & H0%update_run & [H1 _]%query_Ok).
  destruct r2 as [[]|]; [|done]. injection H3 as <-. apply query_Ok in H2 as [H2 _]. by rewrite H2, H1, H0.
Qed.

Lemma put_Ok tmp key conn t result fuel s s' :
  fresh_temp tmp -> (Z.of_nat (String.length (r_Body result)) <= ca_budget c)%Z ->
  put sha256 c tmp key conn t result fuel s = (s', Ok tt) ->
  trimmed (ca_budget c) (upsert key conn t result (rows (db s))) (rows (db s'))
  /\ (is_Some (rows (db s') !! key) -> w_files (db s') !! file_of c key = Some (sealed sha256 (r_Body result))).
Proof.
  intros Hfresh Hlen H. unfold put in H. destruct (Z.ltb_spec (ca_budget c) (Z.of_nat (String.length (r_Body result)))); [lia|].
  apply bind_Ok in H as (s1 & [] & H1%update_run & H). apply bind_Ok in H as (s2 & r & H2%try_Ok & H).
  apply bind_Ok in H as (s3 & r3 & H3%try_Ok%update_outcome & H). unfold lift in H. destruct r as [[]|]; [|done]. injection H as <-.
  unfold put_file in H2. apply bind_Ok in H2 as (s4 & [] & H4%write_temp_Ok & H2).
  apply bind_Ok in H2 as (s5 & p & H5 & H2). unfold path in H5. destruct (valid_key key) eqn:Hv; [|done]. injection H5 as <- <-.
  apply bind_Ok in H2 as (s6 & [] & H6%update_run & H2). apply bind_Ok in H2 as (s7 & [] & H7%update_run & [Ht Hk]%evict_Ok).
  specialize (Hfresh key Hv).
  assert (Er : rows (db s7) = upsert key conn t result (rows (db s))) by (by rewrite H7, H6, H4, H1).
  assert (Ef : w_files (db s7) !! file_of c key = Some (sealed sha256 (r_Body result))).
  { rewrite H7, H6, H4, H1. cbn [set_rows on_files on_db w_files rows]. unfold rename. rewrite lookup_insert_eq. apply lookup_insert_eq. }
  rewrite Er in Ht. assert (Es : rows (db s3) = rows (db s2)) by (destruct H3 as [->| ->]; done). rewrite Es.
  split; [done|]. intros Hs. specialize (Hk key Hs). rewrite Ef in Hk.
  destruct H3 as [->| ->]; [|done]. simpl. by rewrite lookup_delete_ne by done.
Qed.

Lemma intact_sealed body : String.length (sha256 body) = digest_size -> (Z.of_nat (String.length body) + 32 < 2 ^ 63)%Z ->
  intact sha256 (Z.of_nat (String.length body)) (sealed sha256 body) = true /\ drop_str digest_size (sealed sha256 body) = body.
Proof.
  intros Hl Hb. unfold intact, sealed. rewrite <- Hl, take_str_app, drop_str_app, equal_eqb, String.eqb_refl, length_app_str, Hl.
  rewrite wrap64_id by (unfold in64, digest_size; lia). split; [|done]. rewrite andb_true_r. apply Z.eqb_eq. unfold digest_size. lia.
Qed.

(** A hit is a file whose digest and length are right, and costs only the row's age. *)
Lemma get_clear t key w row body :
  rows w !! key = Some row -> valid_key key = true -> w_files w !! file_of c key = Some (sealed sha256 body) ->
  ar_bytes row = Z.of_nat (String.length body) -> String.length (sha256 body) = digest_size -> (Z.of_nat (String.length body) + 32 < 2 ^ 63)%Z ->
  get sha256 c t key (clear w) =
    (clear (set_rows (alter (touch t) key) w), Ok (Some {| r_Body := body; r_ContentType := ar_content_type row |})).
Proof.
  intros Hr Hv Hf Hb Hl Hn. destruct (intact_sealed body Hl Hn) as [Hi Hd]. unfold get, sql_bind, query, exec. cbn [tick faults clear db].
  rewrite Hr. unfold path. rewrite Hv. cbn [sql_ret tick faults db]. rewrite Hf, Hb, Hi. cbn [negb]. by rewrite Hd.
Qed.

Lemma total_insert_le k r m : good_rows m -> (total (<[k := r]> m) <= total m + ar_bytes r)%Z.
Proof.
  intros Hg. rewrite (total_delete (<[k := r]> m) k r), delete_insert_eq by apply lookup_insert_eq.
  destruct (m !! k) as [r'|] eqn:E; [|rewrite delete_id by done; lia]. destruct (Hg k r' E) as [_ H]. rewrite (total_delete m k r') by done. lia.
Qed.

Lemma good_upsert key conn t result m : valid_key key = true -> good_rows m -> good_rows (upsert key conn t result m).
Proof. intros Hv Hg. apply map_Forall_insert_2; [|done]. split; [done|]. simpl. lia. Qed.

(** With nothing failing, a put of a body within the budget comes to its end. *)
Lemma put_clear tmp key conn t result fuel w :
  valid_key key = true -> (Z.of_nat (String.length (r_Body result)) <= ca_budget c)%Z -> good_rows (rows w) ->
  (total (rows w) + Z.of_nat (String.length (r_Body result)) < 2 ^ 63)%Z -> S (size (rows w)) < fuel ->
  exists w', put sha256 c tmp key conn t result fuel (clear w) = (clear w', Ok tt).
Proof.
  intros Hv Hb Hg Ht Hf. unfold put. destruct (Z.ltb_spec (ca_budget c) (Z.of_nat (String.length (r_Body result)))); [lia|].
  set (w4 := set_rows (upsert key conn t result) (on_files (rename tmp (file_of c key)) (on_files (<[tmp := sealed sha256 (r_Body result)]>) (on_files (<[tmp := ""]>) w)))).
  assert (E4 : rows w4 = upsert key conn t result (rows w)) by done.
  pose proof (total_insert_le key {| ar_connection_id := conn; ar_content_type := r_ContentType result; ar_bytes := Z.of_nat (String.length (r_Body result));
    ar_created_at := from_option ar_created_at (now t) (rows w !! key); ar_last_access_at := now t |} (rows w) Hg) as Hle. cbn [ar_bytes] in Hle.
  destruct (evict_clear fuel w4) as [w5 E5]; rewrite ?E4.
  - by apply good_upsert.
  - lia.
  - unfold upsert. lia.
  - unfold upsert. rewrite map_size_insert. destruct (rows w !! key); simpl; lia.
  - assert (E : put_file sha256 c tmp key conn t result fuel (clear (on_files (<[tmp := ""]>) w)) = (clear w5, Ok tt)).
    { rewrite <- E5. unfold put_file, path. rewrite Hv. reflexivity. }
    eexists. unfold sql_bind at 1, update, exec at 1. cbn [tick faults clear db]. unfold sql_bind at 1, sql_try at 1.
    change {| db := on_files (<[tmp := ""]>) w; faults := [] |} with (clear (on_files (<[tmp := ""]>) w)). rewrite E. reflexivity.
Qed.
End CacheLemmas.

(** *** What the cache may serve

    [K] are the keys of one kind of content, [T] its types and [B] its bodies: the rows of those keys
    have such a type and their files hold such a body under its digest, whatever fails and whoever
    else uses the cache. Type and body are apart, since the row and the file are written apart. *)
Section Served.
Variable sha256 : string -> string.
Variable c : Cache.
Variable K T B : string -> Prop.

Definition served (w : World) : Prop :=
  (forall k r, K k -> rows w !! k = Some r -> T (ar_content_type r))
  /\ (forall k d, K k -> w_files w !! file_of c k = Some d -> exists b, d = sealed sha256 b /\ B b).

Lemma served_rows f w : served w -> (forall k r, K k -> f (rows w) !! k = Some r -> T (ar_content_type r)) -> served (set_rows f w).
Proof. intros [_ H2] Hf. split; [exact Hf|exact H2]. Qed.

Lemma served_files f w : served w ->
  (forall k d, K k -> f (w_files w) !! file_of c k = Some d -> exists b, d = sealed sha256 b /\ B b) -> served (on_files f w).
Proof. intros [H1 _] Hf. split; [exact H1|exact Hf]. Qed.

Lemma served_delete_file p w : served w -> served (on_files (delete p) w).
Proof. intros H. apply served_files; [done|]. intros k d Hk [_ Hd]%lookup_delete_Some. by eapply H. Qed.

Lemma served_temp tmp data w : (forall k, K k -> tmp <> file_of c k) -> served w -> served (on_files (<[tmp := data]>) w).
Proof. intros Ht H. apply served_files; [done|]. intros k d Hk Hd. rewrite lookup_insert_ne in Hd by auto. by eapply H. Qed.

Lemma served_remove key : preserves served (remove c key).
Proof.
  unfold remove, path. apply preserves_bind; [destruct (valid_key key); [apply preserves_ret|apply preserves_fail]|intros p]. apply preserves_bind.
  - apply preserves_try, preserves_update. apply served_delete_file.
  - intros _. apply preserves_update. intros w H. apply served_rows; [done|]. intros k r Hk [_ Hr]%lookup_delete_Some. by eapply H.
Qed.

Lemma served_evict fuel : preserves served (evict c fuel).
Proof.
  induction fuel as [|fuel IH]; [apply preserves_fail|]. cbn [evict]. apply preserves_bind.
  - apply preserves_exec. intros d d' a Hd. case_bool_decide; [|done]. by intros [= <- <-].
  - intros z. destruct (z <=? ca_budget c)%Z; [apply preserves_ret|]. apply preserves_bind; [apply preserves_query|].
    intros [k|]; [|apply preserves_fail]. apply preserves_bind; [apply served_remove|done].
Qed.

Lemma served_get t key : (forall b, String.length (sha256 b) = digest_size) ->
  hoare served (get sha256 c t key) (fun o w => served w /\ forall r, o = Some r -> K key -> T (r_ContentType r) /\ B (r_Body r)) served.
Proof.
  intros Hl s Hs. destruct (get sha256 c t key s) as [s' r] eqn:E.
  assert (Hp : preserves served (get sha256 c t key)).
  { unfold get, path. apply preserves_bind; [apply preserves_query|intros [row|]; [|apply preserves_ret]].
    apply preserves_bind; [destruct (valid_key key); [apply preserves_ret|apply preserves_fail]|intros p].
    apply preserves_bind; [apply preserves_query|intros [data|]].
    2:{ apply preserves_bind; [apply preserves_try, served_remove|intros; apply preserves_ret]. }
    destruct (intact _ _ _); cbn [negb]; (apply preserves_bind; [apply preserves_try|intros; apply preserves_ret]).
    - apply preserves_update. intros w H. apply served_rows; [done|]. intros k r0 Hk Hr. rewrite lookup_alter in Hr.
      case_decide; [|by eapply H]. apply fmap_Some in Hr as (r1 & Hr & ->). subst. by apply H in Hr.
    - apply served_remove. }
  specialize (Hp s Hs). rewrite E in Hp. destruct r as [o|]; [|done]. split; [done|]. intros res -> HK.
  unfold get in E. apply bind_Ok in E as (s1 & row & [E1 ->]%query_Ok & E). destruct (rows (db s) !! key) as [row|] eqn:Hrow; [|done].
  apply bind_Ok in E as (s2 & p & Hpath & E). unfold path in Hpath. destruct (valid_key key); [|done]. injection Hpath as <- <-.
  apply bind_Ok in E as (s3 & f & [E3 ->]%query_Ok & E). rewrite E1 in E. destruct (w_files (db s) !! file_of c key) as [data|] eqn:Hf.
  2:{ by apply bind_Ok in E as (? & ? & _ & E). }
  destruct (intact _ _ _); cbn [negb] in E; [|by apply bind_Ok in E as (? & ? & _ & E)].
  apply bind_Ok in E as (s4 & ? & _ & E). injection E as _ <-. cbn [r_ContentType r_Body].
  split; [by eapply (proj1 Hs)|]. destruct (proj2 Hs _ _ HK Hf) as (b & -> & Hb).
  assert (Hd : drop_str digest_size (sealed sha256 b) = b) by (unfold sealed; by rewrite <- (Hl b), drop_str_app). exact (eq_ind_r B Hb Hd).
Qed.

Lemma served_write_temp tmp data : (forall k, K k -> tmp <> file_of c k) ->
  hoare served (write_temp tmp data) (fun _ w => served w /\ w_files w !! tmp = Some data) served.
Proof.
  intros Ht s Hs. destruct (write_temp tmp data s) as [s' r] eqn:E.
  assert (Hp : preserves served (write_temp tmp data)).
  { unfold write_temp. apply preserves_bind; [|intros a; apply preserves_bind; [apply preserves_try, preserves_query|]].
    - apply preserves_try, preserves_bind; [apply preserves_update; intros w; by apply served_temp|intros; apply preserves_query].
    - intros b. destruct a; [destruct b; [apply preserves_ret|apply preserves_fail]|apply preserves_fail]. }
  specialize (Hp s Hs). rewrite E in Hp. destruct r as [[]|]; [|done]. split; [done|].
  apply write_temp_Ok in E. rewrite E. apply lookup_insert_eq.
Qed.

Lemma served_put tmp key conn t result fuel : (forall k, K k -> tmp <> file_of c k) ->
  (K key -> T (r_ContentType result) /\ B (r_Body result)) -> preserves served (put sha256 c tmp key conn t result fuel).
Proof.
  intros Ht HK. unfold put. destruct (_ <? _)%Z; [apply preserves_ret|].
  apply preserves_bind; [apply preserves_update; intros w; by apply served_temp|intros _].
  apply preserves_bind; [apply preserves_try|intros r; apply preserves_bind; [apply preserves_try, preserves_update, served_delete_file|]].
  2:{ intros _. destruct r; [apply preserves_ret|apply preserves_fail]. }
  unfold put_file. eapply hoare_bind; [by apply served_write_temp|intros ?; cbv beta].
  unfold path. destruct (valid_key key); [|intros s [Hs _]; exact Hs].
  eapply hoare_bind; [by apply hoare_ret with (Q := fun p w => served w /\ w_files w !! tmp = Some (sealed sha256 (r_Body result)) /\ p = file_of c key); intros d [??]|].
  intros p. eapply hoare_bind with (R := fun _ => served).
  - eapply hoare_exec; [by intros d [??]|]. intros d d' u (Hd & Hf & ->) [= <- <-]. unfold rename.
    apply served_files; [done|]. intros k x Hk Hx. rewrite Hf in Hx. destruct (decide (k = key)) as [->|Hne].
    + rewrite lookup_insert_eq in Hx. injection Hx as <-. eexists. split; [done|]. by apply HK.
    + rewrite lookup_insert_ne in Hx by (by intros E%file_of_inj). apply lookup_delete_Some in Hx as [_ Hx]. by eapply Hd.
  - intros _. apply preserves_bind; [|intros; apply served_evict]. apply preserves_update. intros w H. apply served_rows; [done|].
    intros k r Hk. unfold upsert. destruct (decide (k = key)) as [->|Hne].
    + rewrite lookup_insert_eq. intros [= <-]. by apply HK.
    + rewrite lookup_insert_ne by done. by eapply H.
Qed.

Lemma served_fill t1 t2 tmp key conn fetched fuel : (forall b, String.length (sha256 b) = digest_size) ->
  (forall k, K k -> tmp <> file_of c k) -> (forall r, fetched = Ok r -> K key -> T (r_ContentType r) /\ B (r_Body r)) ->
  hoare served (fill sha256 c t1 t2 tmp key conn fetched fuel)
    (fun o w => served w /\ (K key -> T (r_ContentType o.1) /\ B (r_Body o.1))) served.
Proof.
  intros Hl Ht HK. unfold fill. eapply hoare_bind; [by apply served_get|]. intros [r|].
  - apply hoare_ret. intros d [Hd H]. split; [done|]. intros. by apply H.
  - destruct fetched as [r|e]; [|intros s [Hs _]; exact Hs].
    eapply hoare_bind with (R := fun r' w => served w /\ r' = r); [by apply hoare_ret; intros d [Hd _]|]. intros r'.
    eapply hoare_bind with (R := fun _ w => served w /\ r' = r).
    + intros s [Hs ->]. pose proof (served_put tmp key conn t2 r fuel Ht (HK r eq_refl) s Hs) as H.
      destruct (put _ _ _ _ _ _ _ _ s) as [s' []]; [done|exact H].
    + intros _. apply hoare_ret. intros d [Hd ->]. split; [done|]. intros. by apply HK.
Qed.

(** The cache under its users, in any number and order: those of this kind, whose fetch function returns
    what [own] admits; the others, whose keys are different; the rest of the database; and restarts. The
    list holds the results of flights, which the requests that waited for them were handed. *)
Variable own : Result -> Prop.
Inductive used : World -> list Result -> Prop :=
| us_start w : rows w = ∅ -> w_files w = ∅ -> used w []
| us_own l t1 t2 tmp key conn fetched fuel s s' o :
    used (db s) l -> fresh_temp c tmp -> K key -> (forall r, fetched = Ok r -> own r) ->
    fill sha256 c t1 t2 tmp key conn fetched fuel s = (s', o) -> used (db s') (match o with Ok r => r.1 :: l | Err _ => l end)
| us_other l t1 t2 tmp key conn fetched fuel s s' o :
    used (db s) l -> fresh_temp c tmp -> ~ K key -> fill sha256 c t1 t2 tmp key conn fetched fuel s = (s', o) -> used (db s') l
| us_database w w' l : used w l -> rows w' = rows w -> w_files w' = w_files w -> used w' l
| us_restart w l : used w l -> used w [].

Lemma used_served w l : (forall b, String.length (sha256 b) = digest_size) -> (forall k, K k -> valid_key k = true) ->
  (forall r, own r -> T (r_ContentType r) /\ B (r_Body r)) -> used w l ->
  served w /\ Forall (fun r => T (r_ContentType r) /\ B (r_Body r)) l.
Proof.
  intros Hl Hvalid Hown. induction 1 as [w Hr Hf|l t1 t2 tmp key conn fetched fuel s s' o _ [IHw IHl] Htmp Hk Hfetched Hrun
    |l t1 t2 tmp key conn fetched fuel s s' o _ [IHw IHl] Htmp Hk Hrun|w w' l _ [IHw IHl] Hr Hf|w l _ [IHw IHl]].
  - split; [|done]. split; [rewrite Hr|rewrite Hf]; intros k ? _ Hx; by rewrite lookup_empty in Hx.
  - pose proof (served_fill t1 t2 tmp key conn fetched fuel Hl ltac:(intros k ?; by apply Htmp, Hvalid) ltac:(intros r Hr _; by apply Hown, Hfetched) s IHw) as Hf.
    rewrite Hrun in Hf. destruct o as [r|]; [|done]. destruct Hf as [Hf1 Hf2]. split; [done|]. constructor; [by apply Hf2|done].
  - split; [|done]. pose proof (served_fill t1 t2 tmp key conn fetched fuel Hl ltac:(intros k ?; by apply Htmp, Hvalid) ltac:(by intros) s IHw) as Hf.
    rewrite Hrun in Hf. destruct o; [apply Hf|done].
  - split; [|done]. unfold served in *. by rewrite Hr, Hf.
  - done.
Qed.
End Served.

(** *** Flights *)

(** The callers of the cache, one at a time: one arrives, or a leader comes back. *)
Inductive flying : Flights -> Flights -> Prop :=
| FlyArrive has_fetch key f : flying f (arrive has_fetch key f).1
| FlyLand key n r f : fl_open f !! key = Some n -> flying f (land key n r f).

(** Open flights have numbers of their own and no result yet. *)
Record flights_ok (f : Flights) : Prop := {
  fk_open : forall key n, fl_open f !! key = Some n -> n < fl_next f /\ fl_done f !! n = None;
  fk_inj : forall key key' n, fl_open f !! key = Some n -> fl_open f !! key' = Some n -> key = key';
  fk_done : forall n, is_Some (fl_done f !! n) -> n < fl_next f }.

Lemma arrive_ok has_fetch key f : flights_ok f -> flights_ok (arrive has_fetch key f).1.
Proof.
  intros [Ho Hi Hd]. unfold arrive. destruct has_fetch, (valid_key key); try done. simpl.
  destruct (fl_open f !! key) as [n|] eqn:E; [done|]. simpl. split; simpl.
  - intros k n [[<- <-]|[Hne H]]%lookup_insert_Some; [|apply Ho in H as [H H']; split; [lia|done]].
    split; [lia|]. destruct (fl_done f !! fl_next f) eqn:Ed; [|done]. specialize (Hd _ (mk_is_Some _ _ Ed)). lia.
  - intros k k' n [[<- <-]|[Hne H]]%lookup_insert_Some [[E1 E2]|[Hne' H']]%lookup_insert_Some; [done| | |by eapply Hi].
    + apply Ho in H' as [H' _]. lia.
    + apply Ho in H as [H _]. lia.
  - intros n H. specialize (Hd n H). lia.
Qed.

Lemma land_ok key n r f : fl_open f !! key = Some n -> flights_ok f -> flights_ok (land key n r f).
Proof.
  intros E [Ho Hi Hd]. split; simpl.
  - intros k m [Hne H]%lookup_delete_Some. pose proof (Ho k m H) as [H1 H2]. split; [done|].
    rewrite lookup_insert_ne; [done|]. intros ->. apply Hne. by eapply Hi.
  - intros k k' m [_ H]%lookup_delete_Some [_ H']%lookup_delete_Some. by eapply Hi.
  - intros m H. destruct (decide (m = n)) as [->|]; [by apply (Ho key)|]. rewrite lookup_insert_ne in H by done. by apply Hd.
Qed.

(** The result of a flight is never replaced: every waiter sees the leader's. *)
Lemma flight_result_stable f f' n r : flights_ok f -> rtc flying f f' -> fl_done f !! n = Some r -> fl_done f' !! n = Some r.
Proof.
  intros Hok H. revert Hok; induction H as [|f1 f2 f3 Hs _ IH]; intros Hok Hn; [done|]. inversion Hs; subst.
  - apply IH; [by apply arrive_ok|]. unfold arrive. destruct has_fetch, (valid_key key); try done. simpl. by destruct (fl_open f1 !! key).
  - apply IH; [by apply land_ok|]. simpl. rewrite lookup_insert_ne; [done|]. intros ->. destruct Hok as [Ho _ _].
    destruct (Ho _ _ H) as [_ E]. congruence.
Qed.

(** ** The properties *)

(** Storing and fetching an asset. A put of a body within the budget ends on its own, with
    success if nothing fails; whenever it succeeds, whatever failed on the way, the recorded sizes
    fit the budget, what was removed was older than everything kept and no more was removed than
    needed; and if the new asset was not itself removed, a get returns exactly the body and the
    content type stored. *)
Theorem cache_put_get (sha256 : string -> string) (c : Cache) (tmp key conn : string) (t : Time) (result : Result) (fuel : nat) (w : World)
  (Hsha : String.length (sha256 (r_Body result)) = digest_size) (Hkey : valid_key key = true) (Htmp : fresh_temp c tmp)
  (Hbudget : (Z.of_nat (String.length (r_Body result)) <= ca_budget c)%Z) (Hslice : (Z.of_nat (String.length (r_Body result)) + 32 < 2 ^ 63)%Z)
  (Hfuel : S (size (rows w)) < fuel) :
  (good_rows (rows w) -> (total (rows w) + Z.of_nat (String.length (r_Body result)) < 2 ^ 63)%Z ->
     exists w', put sha256 c tmp key conn t result fuel (clear w) = (clear w', Ok tt))
  /\ forall s s', db s = w -> put sha256 c tmp key conn t result fuel s = (s', Ok tt) ->
     trimmed (ca_budget c) (upsert key conn t result (rows w)) (rows (db s'))
     /\ (is_Some (rows (db s') !! key) ->
           forall t2, exists w2, get sha256 c t2 key (clear (db s')) = (clear w2, Ok (Some result))).
Proof.
  split; [intros; by apply put_clear|]. intros s s' <- Hput.
  destruct (put_Ok sha256 c tmp key conn t result fuel s s' Htmp Hbudget Hput) as [Ht Hfile]. split; [done|].
  intros Hs t2. destruct Hs as [row Hrow]. pose proof (lookup_weaken _ _ _ _ Hrow (tr_sub _ _ _ Ht)) as Hr.
  unfold upsert in Hr. rewrite lookup_insert_eq in Hr. eexists.
  rewrite (get_clear sha256 c t2 key (db s') row (r_Body result)); [|done|done|by eauto|by simplify_eq|done..].
  simplify_eq. simpl. by destruct result.
Qed.

Definition sample_digest (s : string) : string := take_str 32 (s +:+ "0123456789abcdef0123456789abcdef").
Definition sample_cache : Cache := {| ca_dir := "/data/assets"; ca_budget := 10 |}.
Definition poster_key : string := b64url_encode "poster--poster--poster--poster--".
Definition banner_key : string := b64url_encode "banner--banner--banner--banner--".
Definition poster : Result := {| r_Body := "PNGPNG"; r_ContentType := "image/png" |}.
Definition banner_row : asset_row :=
  {| ar_connection_id := "c"; ar_content_type := "image/gif"; ar_bytes := 7; ar_created_at := "2001-01-01T00:00:00Z"; ar_last_access_at := "2001-01-01T00:00:00Z" |}.
Definition sample_world : World :=
  {| w_db := on_assets (<[banner_key := banner_row]>) empty_db;
     w_files := {[file_of sample_cache banner_key := sealed sample_digest "GIFGIFG"]} |}.

Lemma sample_digest_length b : String.length (sample_digest b) = digest_size.
Proof.
  unfold sample_digest, take_str. assert (H : 32 <= String.length (b +:+ "0123456789abcdef0123456789abcdef")) by (rewrite length_app_str; cbn; lia).
  revert H. generalize (b +:+ "0123456789abcdef0123456789abcdef"). intros s. change digest_size with 32. generalize 32. intros n. revert s.
  induction n as [|n IH]; intros [|a s] H; simpl in *; try lia. f_equal. apply IH. lia.
Qed.
Lemma sample_temp_fresh : fresh_temp sample_cache "/data/assets/.asset-1.tmp".
Proof.
  intros k Hk E. change "/data/assets/.asset-1.tmp" with (ca_dir sample_cache +:+ "/" +:+ ".asset-1.tmp") in E.
  apply file_of_inj in E. subst k. vm_compute in Hk. discriminate Hk.
Qed.

(** The poster does not fit beside the banner, which goes. *)
Example cache_put_get_witness :
  exists w', put sample_digest sample_cache "/data/assets/.asset-1.tmp" poster_key "c" noon poster 3 (clear sample_world) = (clear w', Ok tt)
    /\ rows w' !! banner_key = None /\ trimmed 10 (upsert poster_key "c" noon poster (rows sample_world)) (rows w')
    /\ exists w2, get sample_digest sample_cache noon poster_key (clear w') = (clear w2, Ok (Some poster)).
Proof.
  destruct (cache_put_get sample_digest sample_cache "/data/assets/.asset-1.tmp" poster_key "c" noon poster 3 sample_world) as [Hrun Hget];
    [reflexivity|vm_compute; reflexivity|exact sample_temp_fresh|vm_compute; discriminate|vm_compute; reflexivity|vm_compute; lia|].
  destruct Hrun as [w' Hw'].
  { unfold rows, sample_world, on_assets. cbn [w_db t_assets empty_db]. apply map_Forall_insert_2; [|apply map_Forall_empty].
    split; [vm_compute; reflexivity|vm_compute; discriminate]. }
  { vm_compute. reflexivity. }
  destruct (Hget (clear sample_world) (clear w') eq_refl Hw') as [Ht Hk].
  assert (E : (put sample_digest sample_cache "/data/assets/.asset-1.tmp" poster_key "c" noon poster 3 (clear sample_world)).1 = clear w') by (rewrite Hw'; reflexivity).
  assert (Hb : rows w' !! banner_key = None /\ is_Some (rows w' !! poster_key)).
  { change w' with (db (clear w')). rewrite <- E. split; [vm_compute; reflexivity|vm_compute; eexists; reflexivity]. }
  exists w'. destruct Hb as [Hb1 Hb2]. split; [exact Hw'|]. split; [exact Hb1|]. split; [exact Ht|]. exact (Hk Hb2 noon).
Defined.
