(* ===== verification/Password.v ===== *)
(** * internal/auth/password.go: Argon2id hashes in PHC form

    Reading one ([parseArgon2ID]) within the cost limits, making one ([HashPassword]) and checking
    a password against it. The key derivation itself is an argument. *)
From S2P Require Import Prelude RoutePath GoTime TimeText Assets.

(** ** base64.RawStdEncoding.Strict *)

Fixpoint map_str (f : ascii -> ascii) (s : string) : string :=
  match s with "" => "" | String c r => String (f c) (map_str f r) end.
Definition to_std (c : ascii) : ascii := if Ascii.eqb c "-" then "+" else if Ascii.eqb c "_" then "/" else c.
Definition to_url (c : ascii) : ascii :=
  if Ascii.eqb c "+" then "-" else if Ascii.eqb c "/" then "_"
  else if Ascii.eqb c "-" || Ascii.eqb c "_" then "!" else c.
Definition b64std_encode (s : string) : string := map_str to_std (b64url_encode s).

(** Strict: the bits a last group does not use must be zero, which is that what was decoded
    encodes to the same text. *)
Definition b64std_decode (s : string) : option string :=
  let u := map_str to_url (drop_newlines s) in
  d ← b64url_groups u;
  if String.eqb (b64url_encode d) u then Some d else None.

(** [strconv.ParseUint(s, 10, bits)]. *)
Definition ParseUint (s : string) (bits : Z) : option Z :=
  if String.eqb s "" then None
  else n ← atoi_digits s 0; if (n <? 2 ^ bits)%Z then Some n else None.
(** ** password.go *)

Record argonParams := { memory : Z; iterations : Z; parallelism : Z; salt : string; hash : string }.
Record HashCost := { MemoryKiB : Z; Iterations : Z; Parallelism : Z }.
Definition DefaultHashCost : HashCost := {| MemoryKiB := 65536; Iterations := 3; Parallelism := 4 |}.

Inductive password_error :=
| NotPHC | MalformedParameters | ParallelismTooLarge | UnknownParameter (key : string) | UnsafeCost
| InvalidSalt | InvalidHash | EmptyPassword | ReadSalt (e : string) | DoesNotParse (e : password_error) | DoesNotVerify.

Definition checkCost (memory iterations parallelism : Z) : bool :=
  negb ((memory <? 8 * 1024) || (256 * 1024 <? memory) || (iterations <? 1) || (10 <? iterations)
        || (parallelism <? 1) || (16 <? parallelism))%Z.

(** One field of the third part, onto the cost read so far. *)
Definition read_field (cost : HashCost) (field : string) : res password_error HashCost :=
  match Cut field "=" with
  | None => Err MalformedParameters
  | Some (key, value) =>
      match ParseUint value 32 with
      | None => Err MalformedParameters
      | Some n =>
          if String.eqb key "m" then Ok {| MemoryKiB := n; Iterations := Iterations cost; Parallelism := Parallelism cost |}
          else if String.eqb key "t" then Ok {| MemoryKiB := MemoryKiB cost; Iterations := n; Parallelism := Parallelism cost |}
          else if String.eqb key "p" then
            if (255 <? n)%Z then Err ParallelismTooLarge
            else Ok {| MemoryKiB := MemoryKiB cost; Iterations := Iterations cost; Parallelism := n |}
          else Err (UnknownParameter key)
      end
  end.

Fixpoint read_fields (cost : HashCost) (fields : list string) : res password_error HashCost :=
  match fields with
  | [] => Ok cost
  | f :: r => let! cost := read_field cost f in read_fields cost r
  end.

Definition decoded_length_ok (s : string) : bool := Nat.leb 16 (String.length s) && Nat.leb (String.length s) 64.
Definition decode_part (s : string) (e : password_error) : res password_error string :=
  match b64std_decode s with
  | Some d => if decoded_length_ok d then Ok d else Err e
  | None => Err e
  end.

Definition parseArgon2ID (encoded : string) : res password_error argonParams :=
  match Split "$" encoded with
  | [p0; p1; p2; p3; p4; p5] =>
      if negb (String.eqb p0 "") || negb (String.eqb p1 "argon2id") || negb (String.eqb p2 "v=19") then Err NotPHC
      else
        let! cost := read_fields {| MemoryKiB := 0; Iterations := 0; Parallelism := 0 |} (Split "," p3) in
        guard! checkCost (MemoryKiB cost) (Iterations cost) (Parallelism cost) else UnsafeCost;
        let! salt := decode_part p4 InvalidSalt in
        let! hash := decode_part p5 InvalidHash in
        Ok {| memory := MemoryKiB cost; iterations := Iterations cost; parallelism := Parallelism cost; salt := salt; hash := hash |}
  | _ => Err NotPHC
  end.

Section Argon.
Variable IDKey : string -> string -> Z -> Z -> Z -> nat -> string.   (* argon2.IDKey *)

Definition verifyPassword (params : argonParams) (password : string) : bool :=
  String.eqb (IDKey password (salt params) (iterations params) (memory params) (parallelism params) (String.length (hash params)))
    (hash params).

Definition phc (cost : HashCost) (salt key : string) : string :=
  "$argon2id$v=19$m=" +:+ decimal (MemoryKiB cost) +:+ ",t=" +:+ decimal (Iterations cost) +:+ ",p=" +:+ decimal (Parallelism cost)
  +:+ "$" +:+ b64std_encode salt +:+ "$" +:+ b64std_encode key.

(** [random] is what [rand.Read] fills the salt with. *)
Definition HashPassword (password : string) (cost : HashCost) (random : res string string) : res password_error string :=
  if String.eqb password "" then Err EmptyPassword
  else
    guard! checkCost (MemoryKiB cost) (Iterations cost) (Parallelism cost) else UnsafeCost;
    let! salt := res_map_err ReadSalt random in
    let key := IDKey password salt (Iterations cost) (MemoryKiB cost) (Parallelism cost) 32 in
    let encoded := phc cost salt key in
    let! params := res_map_err DoesNotParse (parseArgon2ID encoded) in
    guard! verifyPassword params password else DoesNotVerify;
    Ok encoded.
End Argon.

(** ** Lemmas *)

Lemma ParseUint_decimal z bits : (0 <= z < 2 ^ bits)%Z -> ParseUint (decimal z) bits = Some z.
Proof.
  intros Hz. unfold ParseUint. destruct (String.eqb_spec (decimal z) ""); [by apply decimal_nonempty in e; [|lia]|].
  rewrite atoi_decimal by lia. simpl. destruct (Z.ltb_spec z (2 ^ bits)); [done|lia].
Qed.

Lemma map_str_all (P Q : ascii -> bool) f s : (forall c, P c = true -> Q (f c) = true) -> all_bytes P s = true -> all_bytes Q (map_str f s) = true.
Proof. intros H. induction s as [|c s IH]; [done|]. simpl. intros [Hc Hs]%andb_true_iff. by rewrite H, IH. Qed.

Lemma map_str_comp_id f g s (P : ascii -> bool) : (forall c, P c = true -> f (g c) = c) -> all_bytes P s = true -> map_str f (map_str g s) = s.
Proof. intros H. induction s as [|c s IH]; [done|]. simpl. intros [Hc Hs]%andb_true_iff. by rewrite H, IH. Qed.

Definition std_byte (c : ascii) : bool := isLetter c || in_range 48 57 c || Ascii.eqb c "+" || Ascii.eqb c "/".

Lemma b64_byte_std c : b64_byte c = true -> std_byte (to_std c) = true /\ to_url (to_std c) = c.
Proof. all_ascii c; vm_compute; split; congruence. Qed.
Lemma std_byte_plain c : std_byte c = true -> Ascii.eqb c "$" = false /\ Ascii.eqb c "010" = false /\ Ascii.eqb c "013" = false.
Proof. all_ascii c; vm_compute; repeat split; congruence. Qed.

Lemma b64std_bytes s : all_bytes std_byte (b64std_encode s) = true.
Proof. eapply map_str_all; [|apply b64url_encode_clean]. intros c Hc. by apply b64_byte_std. Qed.

Lemma drop_newlines_std s : all_bytes std_byte s = true -> drop_newlines s = s.
Proof.
  induction s as [|c s IH]; [done|]. simpl. intros [Hc Hs]%andb_true_iff. destruct (std_byte_plain c Hc) as (_ & -> & ->).
  simpl. by rewrite IH.
Qed.

Lemma b64std_roundtrip s : b64std_decode (b64std_encode s) = Some s.
Proof.
  unfold b64std_decode. rewrite drop_newlines_std by apply b64std_bytes. unfold b64std_encode.
  rewrite (map_str_comp_id to_url to_std _ b64_byte) by (apply b64url_encode_clean || (intros c Hc; by apply b64_byte_std)).
  rewrite b64url_groups_encode. cbn [mbind option_bind]. by rewrite String.eqb_refl.
Qed.

Lemma no_sep_bytes sep (P : ascii -> bool) s : P sep = false -> all_bytes P s = true -> no_sep sep s.
Proof.
  intros Hp. unfold no_sep. apply all_bytes_impl. intros c Hc. destruct (Ascii.eqb_spec c sep) as [->|]; [congruence|done].
Qed.

Lemma phc_parts cost salt key :
  phc cost salt key = Join "$" [""; "argon2id"; "v=19";
    Join "," ["m=" +:+ decimal (MemoryKiB cost); "t=" +:+ decimal (Iterations cost); "p=" +:+ decimal (Parallelism cost)];
    b64std_encode salt; b64std_encode key].
Proof. unfold phc. cbn [Join]. repeat first [rewrite app_assoc_str|rewrite app_cons_str]. reflexivity. Qed.

Lemma checkCost_bounds m t p : checkCost m t p = true -> (8192 <= m <= 262144 /\ 1 <= t <= 10 /\ 1 <= p <= 16)%Z.
Proof. unfold checkCost. rewrite negb_true_iff, !orb_false_iff, !Z.ltb_ge. lia. Qed.

Lemma parse_phc cost salt key :
  checkCost (MemoryKiB cost) (Iterations cost) (Parallelism cost) = true ->
  decoded_length_ok salt = true -> decoded_length_ok key = true ->
  parseArgon2ID (phc cost salt key) =
    Ok {| memory := MemoryKiB cost; iterations := Iterations cost; parallelism := Parallelism cost; salt := salt; hash := key |}.
Proof.
  intros Hc Hs Hk. pose proof (checkCost_bounds _ _ _ Hc) as (Hm & Ht & Hp). rewrite phc_parts. unfold parseArgon2ID.
  assert (Hd : forall n, (0 <= n)%Z -> forall sep, isDigit sep = false -> no_sep sep (decimal n)).
  { intros n Hn sep Hsep. apply (no_sep_bytes sep isDigit); [done|by apply decimal_digits]. }
  assert (Hb : forall s, no_sep "$" (b64std_encode s)) by (intros s; apply (no_sep_bytes "$" std_byte); [done|apply b64std_bytes]).
  set (fields := ["m=" +:+ decimal (MemoryKiB cost); "t=" +:+ decimal (Iterations cost); "p=" +:+ decimal (Parallelism cost)]).
  assert (Hf : forall sep, isDigit sep = false -> Ascii.eqb "=" sep = false -> Ascii.eqb "m" sep = false -> Ascii.eqb "t" sep = false -> Ascii.eqb "p" sep = false ->
                 Forall (no_sep sep) fields).
  { intros sep H1 H2 H3 H4 H5. unfold fields. repeat constructor; unfold no_sep; rewrite all_bytes_app; cbn [all_bytes]; rewrite ?H2, ?H3, ?H4, ?H5; cbn [negb andb];
      by apply Hd; [lia|]. }
  rewrite Split_Join; [|done|].
  2: { repeat constructor; try done; [|apply Hb..]. change (no_sep "$" (Join "," fields)). unfold no_sep.
       apply Join_all_bytes; [done|]. by apply Hf. }
  cbn [String.eqb negb orb Ascii.eqb Bool.eqb]. rewrite Split_Join by (done || by apply Hf).
  assert (Hfield : forall k n, no_sep "=" k -> (0 <= n < 2 ^ 32)%Z -> forall c, read_field c (k +:+ String "=" (decimal n)) =
    if String.eqb k "m" then Ok {| MemoryKiB := n; Iterations := Iterations c; Parallelism := Parallelism c |}
    else if String.eqb k "t" then Ok {| MemoryKiB := MemoryKiB c; Iterations := n; Parallelism := Parallelism c |}
    else if String.eqb k "p" then if (255 <? n)%Z then Err ParallelismTooLarge else Ok {| MemoryKiB := MemoryKiB c; Iterations := Iterations c; Parallelism := n |}
    else Err (UnknownParameter k)).
  { intros k n Hk' Hn c. unfold read_field. rewrite Cut_first, ParseUint_decimal by done. done. }
  unfold fields. cbn [read_fields]. change ("m=" +:+ ?x) with ("m" +:+ String "=" x). 
  rewrite (Hfield "m" (MemoryKiB cost)) by (done || lia). cbn [String.eqb Ascii.eqb Bool.eqb res_bind].
  rewrite (Hfield "t" (Iterations cost)) by (done || lia). cbn [String.eqb Ascii.eqb Bool.eqb res_bind].
  rewrite (Hfield "p" (Parallelism cost)) by (done || lia). cbn [String.eqb Ascii.eqb Bool.eqb res_bind].
  destruct (Z.ltb_spec 255 (Parallelism cost)); [lia|]. cbn [res_bind MemoryKiB Iterations Parallelism]. rewrite Hc.
  unfold decode_part. rewrite !b64std_roundtrip, Hs, Hk. done.
Qed.

(** A hash that is made can be used: it parses back to the cost, salt and key it was made of and
    verifies its password, and another password exactly when the derivation gives the same key. *)
Theorem hash_verifies (IDKey : string -> string -> Z -> Z -> Z -> nat -> string) (password : string) (cost : HashCost) (salt : string) :
  password <> "" -> checkCost (MemoryKiB cost) (Iterations cost) (Parallelism cost) = true -> String.length salt = 16 ->
  let key pw := IDKey pw salt (Iterations cost) (MemoryKiB cost) (Parallelism cost) 32 in
  String.length (key password) = 32 ->
  exists encoded params, HashPassword IDKey password cost (Ok salt) = Ok encoded /\ parseArgon2ID encoded = Ok params
    /\ params = {| memory := MemoryKiB cost; iterations := Iterations cost; parallelism := Parallelism cost; salt := salt; hash := key password |}
    /\ forall pw, verifyPassword IDKey params pw = true <-> key pw = key password.
Proof.
  intros Hp Hc Hs key Hk. eexists _, _. split; [|split; [|split; [reflexivity|]]].
  - unfold HashPassword. rewrite (proj2 (String.eqb_neq _ _)) by done. rewrite Hc. cbn [res_map_err res_bind]. fold (key password).
    rewrite parse_phc; [|done|by unfold decoded_length_ok; rewrite Hs|by unfold decoded_length_ok; rewrite Hk]. cbn [res_map_err res_bind].
    unfold verifyPassword. cbn [Password.salt iterations memory parallelism hash]. rewrite Hk. fold (key password). by rewrite String.eqb_refl.
  - apply parse_phc; [done|by unfold decoded_length_ok; rewrite Hs|by unfold decoded_length_ok; rewrite Hk].
  - intros pw. unfold verifyPassword. cbn [Password.salt iterations memory parallelism hash]. rewrite Hk. fold (key pw). apply String.eqb_eq.
Qed.
