(* ===== verification/Auth.v ===== *)
(** * internal/auth: the administrator's sessions

    [service.go]: logins with a lockout per source, sessions in the database, the sudo windows, and
    the rotation of the configured credentials; [verifier.go]: the admission to password hashing. An
    operation works on the database, where any statement may fail, and on the service's own memory
    beside it. [configMu] makes a login and a rotation exclusive of each other, so each is one step
    here; calls are taken one after another, also [OpenSudo], whose first check of the session is
    outside that lock. SHA-256, Argon2id, the Unicode lower case and the order a map is ranged in are arguments. *)
From S2P Require Import Prelude RoutePath GoSort GoTime TimeText Sql Database Secrets Storage Password.
From Stdlib Require Import Sorting.Sorted.

(** ** service.go *)

(** [ErrInvalidCredentials] and the others; any other error is the computation's own. *)
Inductive auth_error := ErrInvalidCredentials | ErrRateLimited | ErrNoSession | ErrCSRF | ErrBusy.

Record AuthConfig := { ac_Username : string; ac_PasswordHash : string; ac_ResolvedSecrets : gmap string Value; ac_SessionTTL : string }.
Record Session := { ses_Token : string; ses_CSRFToken : string; ses_ExpiresAt : Time }.
Record Identity := { id_Username : string; id_SessionID : string; id_Mode : string; id_Admin : bool; id_Groups : list string }.
Record Attempts := { at_count : Z; at_windowStart : Time; at_lockedUntil : Time }.
Definition no_attempts : Attempts := {| at_count := 0; at_windowStart := 0; at_lockedUntil := 0 |}.

(** [Service], less its store, clock and locks. *)
Record AuthService := {
  sv_username : string; sv_params : argonParams; sv_ttl : Duration;
  sv_attempts : gmap string Attempts; sv_sudoUntil : gmap string Time }.

Record AuthWorld := { aw_db : DB; aw_svc : AuthService }.
Definition on_tables (f : DB -> DB) (w : AuthWorld) : AuthWorld := {| aw_db := f (aw_db w); aw_svc := aw_svc w |}.
Definition on_attempts (f : gmap string Attempts -> gmap string Attempts) (w : AuthWorld) : AuthWorld :=
  let s := aw_svc w in
  {| aw_db := aw_db w; aw_svc := {| sv_username := sv_username s; sv_params := sv_params s; sv_ttl := sv_ttl s;
       sv_attempts := f (sv_attempts s); sv_sudoUntil := sv_sudoUntil s |} |}.
Definition on_sudo (f : gmap string Time -> gmap string Time) (w : AuthWorld) : AuthWorld :=
  let s := aw_svc w in
  {| aw_db := aw_db w; aw_svc := {| sv_username := sv_username s; sv_params := sv_params s; sv_ttl := sv_ttl s;
       sv_attempts := sv_attempts s; sv_sudoUntil := f (sv_sudoUntil s) |} |}.
Definition set_credentials (username : string) (params : argonParams) (ttl : Duration) (w : AuthWorld) : AuthWorld :=
  {| aw_db := aw_db w; aw_svc := {| sv_username := username; sv_params := params; sv_ttl := ttl;
       sv_attempts := sv_attempts (aw_svc w); sv_sudoUntil := sv_sudoUntil (aw_svc w) |} |}.

Abbreviation Auth := (Sql AuthWorld) (only parsing).
Definition deny {A} (e : auth_error) : Auth (res auth_error A) := sql_ret (Err e).

(** [secretPlaceholder] and [resolvePasswordHash] *)
Definition word_byte (c : ascii) : bool := isLetter c || in_range 48 57 c || Ascii.eqb c "_".
Definition placeholder_name (s : string) : option string :=
  r ← strip_prefix "${secret:" s; name ← strip_suffix "}" r;
  if negb (String.eqb name "") && all_bytes word_byte name then Some name else None.
Definition resolvePasswordHash (configured : string) (resolved : gmap string Value) : res string Value :=
  match placeholder_name configured with
  | None => Ok {| Secrets.resolved := configured |}
  | Some name => match resolved !! name with
                 | Some v => Ok v
                 | None => Err "auth: configured password hash secret is unresolved"
                 end
  end.

(** [parseTTL]: a number of days is multiplied out at 64 bits. *)
Definition parseTTL (value : string) : res string Duration :=
  if String.eqb value "" then Ok (30 * 24 * hour)%Z
  else if HasSuffix value "d" then
    match ParseUint (TrimSuffix value "d") 32 with
    | Some days => if (days =? 0)%Z then Err "auth: invalid sessionTTL" else Ok (wrap64 (wrap64 (days * 24) * hour))
    | None => Err "auth: invalid sessionTTL"
    end
  else match ParseDuration value with
       | Some ttl => if (ttl <=? 0)%Z then Err "auth: invalid sessionTTL" else Ok ttl
       | None => Err "auth: invalid sessionTTL"
       end.

(** [randomToken], over what [rand.Read] gives. *)
Definition randomToken (random : res string string) : res string string :=
  let! b := random in Ok (Assets.b64url_encode b).

(** *** Attempts *)

Definition maxTrackedSources : nat := 4096.
Definition attempt_of (m : gmap string Attempts) (key : string) : Attempts := default no_attempts (m !! key).
Definition window : Duration := (10 * minute)%Z.
Definition lock : Duration := (15 * minute)%Z.

(** The window over and the lock, if any, too. *)
Definition lapsed (now : Time) (a : Attempts) : bool :=
  (window <=? now - at_windowStart a)%Z && negb (before now (at_lockedUntil a)).

Section Service.
Variable sha256 : string -> string.
Variable IDKey : string -> string -> Z -> Z -> Z -> nat -> string.
Variable to_lower : string -> string.                                          (* strings.ToLower *)
Variable range : gmap string Attempts -> list (string * Attempts).             (* the order a map is ranged in *)

Definition tokenHash (token : string) : string := hex_encode (sha256 token).

(** The search of [evictLocked] for the oldest window. *)
Definition oldest_step (acc : string * Time) (p : string * Attempts) : string * Time :=
  if isZero acc.2 || before (at_windowStart p.2) acc.2 then (p.1, at_windowStart p.2) else acc.
Definition evictLocked (now : Time) (m : gmap string Attempts) : gmap string Attempts :=
  if Nat.ltb (size m) maxTrackedSources then m
  else
    let m := filter (fun p => lapsed now p.2 = false) m in
    if Nat.ltb (size m) maxTrackedSources then m
    else delete (foldl oldest_step ("", 0%Z) (range m)).1 m.

Definition recordFailure (key : string) (now : Time) (m : gmap string Attempts) : gmap string Attempts :=
  let m := if bool_decide (is_Some (m !! key)) then m else evictLocked now m in
  let a := attempt_of m key in
  let a := if isZero (at_windowStart a) || (window <=? now - at_windowStart a)%Z
           then {| at_count := 0; at_windowStart := now; at_lockedUntil := 0 |} else a in
  let count := (at_count a + 1)%Z in
  <[key := {| at_count := count; at_windowStart := at_windowStart a;
              at_lockedUntil := if (5 <=? count)%Z then (now + lock)%Z else at_lockedUntil a |}]> m.

Definition locked (key : string) (now : Time) (m : gmap string Attempts) : bool :=
  before now (at_lockedUntil (attempt_of m key)).

(** *** Sessions *)

Definition PruneExpired (now : Time) : Auth unit :=
  update (on_tables (on_sessions (filter (fun p => str_leb (ss_expires_at p.2) (stamp now) = false)))).

Definition login_key (username ip : string) : string :=
  to_lower (TrimSpace username) +:+ String "000" ip.

Definition session_row_of (csrf : string) (now expires : Time) (userAgent ip : string) : session_row :=
  {| ss_user_id := "admin"; ss_csrf_token := csrf; ss_created_at := stamp now; ss_expires_at := stamp expires;
     ss_last_seen_at := Some (stamp now); ss_user_agent := userAgent; ss_ip := ip |}.
Definition insert_session (id : string) (row : session_row) : Auth unit :=
  exec (fun w => match t_sessions (aw_db w) !! id with
                 | Some _ => Err "UNIQUE constraint failed: sessions.id"
                 | None => Ok (on_tables (on_sessions (<[id := row]>)) w, tt)
                 end).
Definition seen_login (now : Time) (u : user_row) : user_row :=
  {| us_username := us_username u; us_password_hash := us_password_hash u; us_created_at := us_created_at u;
     us_last_login_at := Some (stamp now) |}.

(** The session of verified credentials. *)
Definition issue (now now2 : Time) (token csrf userAgent ip : string) (ttl : Duration) : Auth (res auth_error Session) :=
  let expires := (now + ttl)%Z in
  do* _ <- insert_session (tokenHash token) (session_row_of csrf now expires userAgent ip);
  do* _ <- sql_try (update (on_tables (on_users (alter (seen_login now) "admin"))));
  do* _ <- sql_try (PruneExpired now2);
  sql_ret (Ok {| ses_Token := token; ses_CSRFToken := csrf; ses_ExpiresAt := expires |}).

(** [admitted] is the verifier's answer; [r1] and [r2] are what the random source gives. *)
Definition Login (now now2 : Time) (admitted : bool) (r1 r2 : res string string) (username password userAgent ip : string)
  : Auth (res auth_error Session) :=
  do* svc <- look aw_svc;
  let key := login_key username ip in
  if locked key now (sv_attempts svc) then deny ErrRateLimited
  else if negb admitted then deny ErrBusy
  else
    let valid := verifyPassword IDKey (sv_params svc) password && String.eqb username (sv_username svc) in
    if negb valid then do* _ <- assign (on_attempts (recordFailure key now)); deny ErrInvalidCredentials
    else
      do* _ <- assign (on_attempts (delete key));
      do* token <- lift (randomToken r1);
      do* csrf <- lift (randomToken r2);
      issue now now2 token csrf userAgent ip (sv_ttl svc).

Definition session_user (id : string) (d : DB) : option (user_row * session_row) :=
  row ← t_sessions d !! id; user ← t_users d !! ss_user_id row; Some (user, row).
Definition see_session (now : Time) (r : session_row) : session_row :=
  {| ss_user_id := ss_user_id r; ss_csrf_token := ss_csrf_token r; ss_created_at := ss_created_at r;
     ss_expires_at := ss_expires_at r; ss_last_seen_at := Some (stamp now); ss_user_agent := ss_user_agent r; ss_ip := ss_ip r |}.
Definition live_session (now : Time) (row : session_row) : bool :=
  match time_Parse (ss_expires_at row) with Some expiresAt => before now expiresAt | None => false end.

Definition Authenticate (now now2 : Time) (token : string) : Auth (res auth_error (Identity * string)) :=
  if String.eqb token "" then deny ErrNoSession
  else
    let id := tokenHash token in
    do* found <- query (fun w => session_user id (aw_db w));
    match found with
    | None => deny ErrNoSession
    | Some (user, row) =>
        if negb (live_session now row) then
          do* _ <- sql_try (update (on_tables (on_sessions (delete id)))); deny ErrNoSession
        else
          do* _ <- sql_try (update (on_tables (on_sessions (alter (see_session now2) id))));
          sql_ret (Ok ({| id_Username := us_username user; id_SessionID := id; id_Mode := "password"; id_Admin := true; id_Groups := [] |},
                       ss_csrf_token row))
    end.

Definition Logout (token : string) : Auth unit :=
  if String.eqb token "" then sql_ret tt
  else
    let id := tokenHash token in
    do* r <- sql_try (update (on_tables (on_sessions (delete id))));
    do* _ <- assign (on_sudo (delete id));
    lift r.

Definition sudo_key (sessionID ip : string) : string := "sudo" +:+ String "000" (sessionID +:+ String "000" ip).

(** [t1] and [t2] are the readings of [Authenticate], [now] its own and [later] that of the grant. *)
Definition OpenSudo (t1 t2 now later : Time) (admitted : bool) (sessionToken password ip : string) : Auth (res auth_error unit) :=
  do* who <- Authenticate t1 t2 sessionToken;
  match who with
  | Err e => deny e
  | Ok (identity, _) =>
      do* svc <- look aw_svc;
      let key := sudo_key (id_SessionID identity) ip in
      if locked key now (sv_attempts svc) then deny ErrRateLimited
      else if negb admitted then deny ErrBusy
      else if negb (verifyPassword IDKey (sv_params svc) password) then
        do* _ <- assign (on_attempts (recordFailure key now)); deny ErrInvalidCredentials
      else
        do* _ <- assign (on_attempts (delete key));
        do* _ <- assign (on_sudo (<[id_SessionID identity := (later + 5 * minute)%Z]>));
        sql_ret (Ok tt)
  end.

Definition AllowsPrivileged (now : Time) (identity : Identity) : Auth bool :=
  do* svc <- look aw_svc;
  if negb (before now (default 0%Z (sv_sudoUntil svc !! id_SessionID identity)))
  then do* _ <- assign (on_sudo (delete (id_SessionID identity))); sql_ret false
  else sql_ret true.

Definition CheckCSRF (now now2 : Time) (sessionToken cookieToken headerToken : string) : Auth (res auth_error Identity) :=
  do* who <- Authenticate now now2 sessionToken;
  match who with
  | Err e => deny e
  | Ok (identity, stored) =>
      if String.eqb cookieToken "" || String.eqb headerToken "" || negb (String.eqb stored cookieToken) || negb (String.eqb stored headerToken)
      then deny ErrCSRF else sql_ret (Ok identity)
  end.

(** *** Credentials *)

Definition credentialsDiffer (username passwordHash : string) : Auth bool :=
  do* stored <- query (fun w => t_users (aw_db w) !! "admin");
  sql_ret (match stored with
           | None => false
           | Some u => negb (String.eqb (us_username u) username) || negb (String.eqb (us_password_hash u) passwordHash)
           end).

Definition delete_sessions : Auth unit := update (on_tables (on_sessions (fun _ => ∅))).
Definition revokeEverythingLocked : Auth unit :=
  do* _ <- delete_sessions;
  assign (on_sudo (fun _ => ∅)).

(** What [Reconfigure] and [New] read off a configuration before they change anything; they check
    the last two in either order. *)
Definition read_hash (cfg : AuthConfig) : res string (string * argonParams) :=
  let! h := resolvePasswordHash (ac_PasswordHash cfg) (ac_ResolvedSecrets cfg) in
  let! params := res_map_err (fun _ => "auth: bad Argon2id hash") (parseArgon2ID (Reveal h)) in
  Ok (Reveal h, params).
Definition has_username (cfg : AuthConfig) : bool := negb (String.eqb (TrimSpace (ac_Username cfg)) "").
Definition read_config (cfg : AuthConfig) : res string (string * argonParams * Duration) :=
  let! hp := read_hash cfg in
  let! ttl := parseTTL (ac_SessionTTL cfg) in
  guard! has_username cfg else "auth: username is required";
  Ok (hp, ttl).
Definition read_new_config (cfg : AuthConfig) : res string (string * argonParams * Duration) :=
  let! hp := read_hash cfg in
  guard! has_username cfg else "auth: store and username are required";
  let! ttl := parseTTL (ac_SessionTTL cfg) in
  Ok (hp, ttl).

Definition set_user (username passwordHash : string) (u : user_row) : user_row :=
  {| us_username := username; us_password_hash := passwordHash; us_created_at := us_created_at u; us_last_login_at := us_last_login_at u |}.

Definition Reconfigure (cfg : AuthConfig) : Auth unit :=
  do* read <- lift (read_config cfg);
  let '(h, params, ttl) := read in
  do* changed <- credentialsDiffer (ac_Username cfg) h;
  do* _ <- update (on_tables (on_users (alter (set_user (ac_Username cfg) h) "admin")));
  do* _ <- assign (set_credentials (ac_Username cfg) params ttl);
  if changed : bool then revokeEverythingLocked else sql_ret tt.

(** The upsert of [New]. *)
Definition upsert_user (now : Time) (username passwordHash : string) (m : gmap string user_row) : gmap string user_row :=
  match m !! "admin" with
  | Some u => <["admin" := set_user username passwordHash u]> m
  | None => <["admin" := {| us_username := username; us_password_hash := passwordHash; us_created_at := stamp now; us_last_login_at := None |}]> m
  end.

Definition fresh_service (username : string) (params : argonParams) (ttl : Duration) : AuthService :=
  {| sv_username := username; sv_params := params; sv_ttl := ttl; sv_attempts := ∅; sv_sudoUntil := ∅ |}.

(** A new process over the same database. *)
Definition NewService (now : Time) (cfg : AuthConfig) : Auth unit :=
  do* read <- lift (read_new_config cfg);
  let '(h, params, ttl) := read in
  do* changed <- credentialsDiffer (ac_Username cfg) h;
  do* _ <- update (on_tables (on_users (upsert_user now (ac_Username cfg) h)));
  do* _ <- (if changed : bool then delete_sessions else sql_ret tt);
  assign (fun w => {| aw_db := aw_db w; aw_svc := fresh_service (ac_Username cfg) params ttl |}).
End Service.

(** ** verifier.go

    Callers move in steps: one adds itself to the count and is then either turned away or in the
    queue; one of the queue takes a slot; one of the slots leaves. [vf_waiting] is the counter. *)
Record Verifier := { vf_slots : Z; vf_queue : Z; vf_waiting : Z; vf_refused : Z; vf_queued : Z; vf_running : Z; vf_admitted : Z }.
Definition newVerifier (concurrency queue : Z) : Verifier :=
  {| vf_slots := if (concurrency <? 1)%Z then 1 else concurrency; vf_queue := if (queue <? 0)%Z then 0 else queue;
     vf_waiting := 0; vf_refused := 0; vf_queued := 0; vf_running := 0; vf_admitted := 0 |}.
Definition maxConcurrentVerifications : Z := 2.
Definition maxQueuedVerifications : Z := 8.

(** The counter, the callers on their way out, in the queue and in a slot, and those ever admitted. *)
Definition counts (v : Verifier) (waiting refused queued running admitted : Z) : Verifier :=
  {| vf_slots := vf_slots v; vf_queue := vf_queue v; vf_waiting := waiting; vf_refused := refused; vf_queued := queued;
     vf_running := running; vf_admitted := admitted |}.

Inductive verify_step : Verifier -> Verifier -> Prop :=
| VerifyAdd v :
    verify_step v (if (vf_queue v + vf_slots v <? vf_waiting v + 1)%Z
                   then counts v (vf_waiting v + 1) (vf_refused v + 1) (vf_queued v) (vf_running v) (vf_admitted v)
                   else counts v (vf_waiting v + 1) (vf_refused v) (vf_queued v + 1) (vf_running v) (vf_admitted v))
| VerifyRefuse v : (0 < vf_refused v)%Z ->
    verify_step v (counts v (vf_waiting v - 1) (vf_refused v - 1) (vf_queued v) (vf_running v) (vf_admitted v))
| VerifyStart v : (0 < vf_queued v)%Z -> (vf_running v < vf_slots v)%Z ->
    verify_step v (counts v (vf_waiting v) (vf_refused v) (vf_queued v - 1) (vf_running v + 1) (vf_admitted v + 1))
| VerifyDone v : (0 < vf_running v)%Z ->
    verify_step v (counts v (vf_waiting v - 1) (vf_refused v) (vf_queued v) (vf_running v - 1) (vf_admitted v)).

(** ** Histories

    The calls a process receives one after another, with restarts between them, and what the stored
    credentials were before and after each. *)

Inductive auth_op :=
| OpNew (now : Time) (cfg : AuthConfig)
| OpReconfigure (cfg : AuthConfig)
| OpLogin (now now2 : Time) (admitted : bool) (r1 r2 : res string string) (username password userAgent ip : string)
| OpAuthenticate (now now2 : Time) (token : string)
| OpCheckCSRF (now now2 : Time) (sessionToken cookieToken headerToken : string)
| OpLogout (token : string)
| OpSudo (t1 t2 now later : Time) (admitted : bool) (sessionToken password ip : string)
| OpPrivileged (now : Time) (identity : Identity)
| OpPrune (now : Time).

Inductive outcome := OSession (s : Session) | ODone | ODenied (e : auth_error) | OError (e : string).
Definition done_of {A} (r : res string A) : outcome := match r with Ok _ => ODone | Err e => OError e end.
Definition answer_of {A} (r : res string (res auth_error A)) : outcome :=
  match r with Ok (Ok _) => ODone | Ok (Err e) => ODenied e | Err e => OError e end.
Definition session_of (r : res string (res auth_error Session)) : outcome :=
  match r with Ok (Ok s) => OSession s | Ok (Err e) => ODenied e | Err e => OError e end.

Definition credentials (w : AuthWorld) : option (string * string) :=
  (fun u => (us_username u, us_password_hash u)) <$> t_users (aw_db w) !! "admin".

Record event := { ev_op : auth_op; ev_out : outcome; ev_before : option (string * string); ev_after : option (string * string) }.

Definition is_new (op : auth_op) : bool := match op with OpNew _ _ => true | _ => false end.
Definition succeeded (o : outcome) : bool := match o with ODone => true | _ => false end.

Section Histories.
Variable sha256 : string -> string.
Variable IDKey : string -> string -> Z -> Z -> Z -> nat -> string.
Variable to_lower : string -> string.
Variable range : gmap string Attempts -> list (string * Attempts).

Definition run_op (op : auth_op) (s : session AuthWorld) : session AuthWorld * outcome :=
  match op with
  | OpNew now cfg => let '(s, r) := NewService now cfg s in (s, done_of r)
  | OpReconfigure cfg => let '(s, r) := Reconfigure cfg s in (s, done_of r)
  | OpLogin now now2 admitted r1 r2 username password userAgent ip =>
      let '(s, r) := Login sha256 IDKey to_lower range now now2 admitted r1 r2 username password userAgent ip s in (s, session_of r)
  | OpAuthenticate now now2 token => let '(s, r) := Authenticate sha256 now now2 token s in (s, answer_of r)
  | OpCheckCSRF now now2 t c h => let '(s, r) := CheckCSRF sha256 now now2 t c h s in (s, answer_of r)
  | OpLogout token => let '(s, r) := Logout sha256 token s in (s, done_of r)
  | OpSudo t1 t2 now later admitted token password ip =>
      let '(s, r) := OpenSudo sha256 IDKey range t1 t2 now later admitted token password ip s in (s, answer_of r)
  | OpPrivileged now identity => let '(s, r) := AllowsPrivileged now identity s in (s, done_of r)
  | OpPrune now => let '(s, r) := PruneExpired now s in (s, done_of r)
  end.

(** From an installation without users; the boolean says whether a service is up. The faults of each
    call are any. *)
Inductive reaches : list event -> bool -> AuthWorld -> Prop :=
| reach_start w : t_users (aw_db w) = ∅ -> t_sessions (aw_db w) = ∅ -> reaches [] false w
| reach_op h up s op s' o :
    reaches h up (db s) -> up || is_new op = true -> run_op op s = (s', o) ->
    reaches (h ++ [{| ev_op := op; ev_out := o; ev_before := credentials (db s); ev_after := credentials (db s') |}])
      (if is_new op then succeeded o else up) (db s').
End Histories.

(** A rotation that changed the stored credentials and then failed. *)
Definition torn (e : event) : Prop :=
  ev_before e <> None /\ ev_before e <> ev_after e /\ exists msg, ev_out e = OError msg.

(** ** Lemmas *)

(** What of a session no operation but its removal touches. *)
Definition same_session (r r' : session_row) : Prop :=
  ss_user_id r' = ss_user_id r /\ ss_csrf_token r' = ss_csrf_token r /\ ss_expires_at r' = ss_expires_at r.
Definition kept (m m' : gmap string session_row) : Prop :=
  forall id r', m' !! id = Some r' -> exists r, m !! id = Some r /\ same_session r r'.
Abbreviation sessions w := (t_sessions (aw_db w)) (only parsing).

Lemma kept_refl m : kept m m.
Proof. intros id r H. by exists r. Qed.
Lemma kept_trans m1 m2 m3 : kept m1 m2 -> kept m2 m3 -> kept m1 m3.
Proof.
  intros H1 H2 id r3 H3. destruct (H2 _ _ H3) as (r2 & Hr2 & S2). destruct (H1 _ _ Hr2) as (r1 & Hr1 & S1).
  exists r1. split; [done|]. unfold same_session in *. intuition congruence.
Qed.
Lemma kept_filter P `{!forall p, Decision (P p)} m m' : kept m m' -> kept m (filter P m').
Proof. intros Hk id r [Hr _]%map_lookup_filter_Some. by apply Hk. Qed.
Lemma kept_delete k m m' : kept m m' -> kept m (delete k m').
Proof. intros H id r [_ Hr]%lookup_delete_Some. by apply H. Qed.
Lemma kept_see k t m m' : kept m m' -> kept m (alter (see_session t) k m').
Proof.
  intros H id r [(-> & r0 & Hr & ->)|[_ Hr]]%lookup_alter_Some; [|by apply H].
  destruct (H _ _ Hr) as (r1 & H1 & S1). exists r1. split; [done|]. done.
Qed.
Lemma kept_empty m : kept m ∅.
Proof. intros id r H. by rewrite lookup_empty in H. Qed.

(** Nothing new in the sessions, the credentials as they were, in the database and in memory. *)
Record quiet (w0 w : AuthWorld) : Prop := {
  qt_sessions : kept (sessions w0) (sessions w);
  qt_credentials : credentials w = credentials w0;
  qt_username : sv_username (aw_svc w) = sv_username (aw_svc w0);
  qt_params : sv_params (aw_svc w) = sv_params (aw_svc w0) }.

Lemma quiet_refl w : quiet w w.
Proof. by split; [apply kept_refl|..]. Qed.
Lemma quiet_sessions w0 w f : (forall m, kept m (f m)) -> quiet w0 w -> quiet w0 (on_tables (on_sessions f) w).
Proof. intros Hf [H1 H2 H3 H4]. split; [|done..]. eapply kept_trans; [exact H1|apply Hf]. Qed.
Lemma quiet_attempts w0 w f : quiet w0 w -> quiet w0 (on_attempts f w).
Proof. by intros []. Qed.
Lemma quiet_sudo w0 w f : quiet w0 w -> quiet w0 (on_sudo f w).
Proof. by intros []. Qed.
Lemma quiet_seen w0 w t : quiet w0 w -> quiet w0 (on_tables (on_users (alter (seen_login t) "admin")) w).
Proof.
  intros [H1 H2 H3 H4]. split; [done| |done..]. rewrite <- H2. unfold credentials. simpl. rewrite lookup_alter_eq.
  by destruct (t_users (aw_db w) !! "admin").
Qed.

Create HintDb quiet.
#[export] Hint Resolve quiet_refl quiet_attempts quiet_sudo quiet_seen kept_refl kept_empty : quiet.
#[export] Hint Extern 1 (quiet _ (on_tables (on_sessions (delete _)) _)) => (apply quiet_sessions; [intros; apply kept_delete, kept_refl|]) : quiet.
#[export] Hint Extern 1 (quiet _ (on_tables (on_sessions (alter _ _)) _)) => (apply quiet_sessions; [intros; apply kept_see, kept_refl|]) : quiet.
#[export] Hint Extern 1 (quiet _ (on_tables (on_sessions (fun _ => ∅)) _)) => (apply quiet_sessions; [intros; apply kept_empty|]) : quiet.

(** A computation of statements each of which is quiet. *)
Ltac quiet_walk :=
  repeat first [ sql_step | apply preserves_update; intros; eauto with quiet | apply preserves_assign; intros; eauto with quiet ].

Section Quiet.
Variable sha256 : string -> string.
Variable IDKey : string -> string -> Z -> Z -> Z -> nat -> string.
Variable to_lower : string -> string.
Variable range : gmap string Attempts -> list (string * Attempts).

Lemma quiet_prune w0 t : preserves (quiet w0) (PruneExpired t).
Proof. apply preserves_update. intros w. apply quiet_sessions. intros m. apply kept_filter, kept_refl. Qed.

Lemma quiet_authenticate w0 t t2 token : preserves (quiet w0) (Authenticate sha256 t t2 token).
Proof. unfold Authenticate, deny. cbv zeta. quiet_walk. Qed.

Lemma quiet_csrf w0 t t2 a b c : preserves (quiet w0) (CheckCSRF sha256 t t2 a b c).
Proof. unfold CheckCSRF, deny. apply preserves_bind; [apply quiet_authenticate|intros; quiet_walk]. Qed.

Lemma quiet_logout w0 token : preserves (quiet w0) (Logout sha256 token).
Proof. unfold Logout, lift. cbv zeta. quiet_walk. Qed.

Lemma quiet_privileged w0 t i : preserves (quiet w0) (AllowsPrivileged t i).
Proof. unfold AllowsPrivileged. quiet_walk. Qed.

Lemma quiet_open_sudo w0 t1 t2 t t3 adm token password ip :
  preserves (quiet w0) (OpenSudo sha256 IDKey range t1 t2 t t3 adm token password ip).
Proof. unfold OpenSudo, deny. apply preserves_bind; [apply quiet_authenticate|intros; cbv zeta; quiet_walk]. Qed.

(** A login that hands out a session adds it under the credentials it verified; any other is quiet. *)
Record issued_from (w0 w : AuthWorld) (now : Time) (username password : string) (s : Session) : Prop := {
  is_sessions : exists row, kept (<[tokenHash sha256 (ses_Token s) := row]> (sessions w0)) (sessions w)
    /\ ss_user_id row = "admin" /\ ss_csrf_token row = ses_CSRFToken s /\ ss_expires_at row = stamp (ses_ExpiresAt s);
  is_username : username = sv_username (aw_svc w0);
  is_password : verifyPassword IDKey (sv_params (aw_svc w0)) password = true;
  is_credentials : credentials w = credentials w0;
  is_svc : sv_username (aw_svc w) = sv_username (aw_svc w0) /\ sv_params (aw_svc w) = sv_params (aw_svc w0) }.

Lemma issue_spec w0 w1 now now2 token csrf ua ip ttl : quiet w0 w1 ->
  let w2 := on_tables (on_sessions (<[tokenHash sha256 token := session_row_of csrf now (now + ttl) ua ip]>)) w1 in
  hoare (eq w1) (issue sha256 now now2 token csrf ua ip ttl)
    (fun r w => quiet w2 w /\ r = Ok {| ses_Token := token; ses_CSRFToken := csrf; ses_ExpiresAt := now + ttl |}) (quiet w0).
Proof.
  intros Hq w2. unfold issue. cbv zeta. apply hoare_bind with (R := fun _ => quiet w2).
  { apply hoare_exec; [by intros d <-|]. intros d d' [] <- Hx. case_match; [done|]. injection Hx as <-. apply quiet_refl. }
  intros _. apply hoare_bind with (R := fun _ => quiet w2); [apply hoare_try_keep; quiet_walk|].
  intros _. apply hoare_bind with (R := fun _ => quiet w2); [apply hoare_try_keep, quiet_prune|].
  intros _. by apply hoare_ret.
Qed.

Lemma login_spec w0 now now2 adm r1 r2 username password ua ip :
  hoare (eq w0) (Login sha256 IDKey to_lower range now now2 adm r1 r2 username password ua ip)
    (fun r w => match r with Ok s => issued_from w0 w now username password s /\ adm = true | Err _ => quiet w0 w end) (quiet w0).
Proof.
  unfold Login, deny. apply hoare_bind with (R := fun svc w => w = w0 /\ svc = aw_svc w0); [by apply hoare_look; intros d <-|].
  intros svc. cbv zeta. destruct (locked _ _ _); [apply hoare_ret; intros d [-> ->]; apply quiet_refl|].
  destruct adm; cbn [negb]; [|apply hoare_ret; intros d [-> ->]; apply quiet_refl].
  destruct (verifyPassword _ _ _ && _) eqn:Ev; cbn [negb].
  2: { apply hoare_bind with (R := fun _ => quiet w0); [apply hoare_assign; intros d [-> ->]; eauto with quiet|].
       intros _. by apply hoare_ret. }
  set (w1 := on_attempts (delete (login_key to_lower username ip)) w0).
  apply hoare_bind with (R := fun _ w => w1 = w /\ svc = aw_svc w0); [by apply hoare_assign; intros d [-> ->]|]. intros _.
  assert (Hq1 : quiet w0 w1) by (subst w1; eauto with quiet).
  apply hoare_bind with (R := fun _ w => w1 = w /\ svc = aw_svc w0); [apply hoare_lift; [done|by intros d [<- _]]|]. intros token.
  apply hoare_bind with (R := fun _ w => w1 = w /\ svc = aw_svc w0); [apply hoare_lift; [done|by intros d [<- _]]|]. intros csrf.
  intros s [Hs ->]. pose proof (issue_spec w0 w1 now now2 token csrf ua ip (sv_ttl (aw_svc w0)) Hq1 s Hs) as Hi.
  destruct (issue _ _ _ _ _ _ _ _ s) as [s' [r|e]]; [|done]. destruct Hi as [[H1 H2 H3 H4] ->]. split; [|done].
  apply andb_true_iff in Ev as [Ev Eu%String.eqb_eq]. split; [|done|done|by rewrite H2|done].
  eexists. split; [exact H1|]. done.
Qed.

(** A rotation that comes back with success has the configured credentials stored and in memory, and
    no session of others. *)
Record rotated (cfg : AuthConfig) (w0 w : AuthWorld) : Prop := {
  ro_credentials : exists h params, read_hash cfg = Ok (h, params)
    /\ credentials w = Some (sv_username (aw_svc w), h) /\ sv_params (aw_svc w) = params;
  ro_kept : kept (sessions w0) (sessions w);
  ro_revoked : credentials w0 <> None -> credentials w <> credentials w0 -> sessions w = ∅ }.

Lemma read_config_hash cfg x : read_config cfg = Ok x -> read_hash cfg = Ok x.1.
Proof. intros (hp & Hh & (ttl & _ & (_ & [= <-])%guard_Ok)%res_bind_Ok)%res_bind_Ok. done. Qed.
Lemma read_new_config_hash cfg x : read_new_config cfg = Ok x -> read_hash cfg = Ok x.1.
Proof. intros (hp & Hh & (_ & (ttl & _ & [= <-])%res_bind_Ok)%guard_Ok)%res_bind_Ok. done. Qed.
Lemma read_hash_parses cfg h params : read_hash cfg = Ok (h, params) -> parseArgon2ID h = Ok params.
Proof.
  intros (v & _ & (p & Hp & [= <- <-])%res_bind_Ok)%res_bind_Ok. unfold res_map_err in Hp.
  destruct (parseArgon2ID (Reveal v)); congruence.
Qed.

(** Whether the credentials stored in [w0], if any, are not the given ones. *)
Definition differ (w0 : AuthWorld) (username h : string) : bool :=
  match credentials w0 with None => false | Some c => negb (String.eqb c.1 username) || negb (String.eqb c.2 h) end.
Lemma differ_false w0 username h : differ w0 username h = false -> credentials w0 = None \/ credentials w0 = Some (username, h).
Proof.
  unfold differ. destruct (credentials w0) as [[u k]|]; [|by left]. rewrite orb_false_iff, !negb_false_iff. simpl.
  intros [->%String.eqb_eq ->%String.eqb_eq]. by right.
Qed.

Lemma credentialsDiffer_spec w0 w username h (E : AuthWorld -> Prop) : E w -> credentials w = credentials w0 ->
  hoare (eq w) (credentialsDiffer username h) (fun b w' => w = w' /\ b = differ w0 username h) E.
Proof.
  intros HE Hc. unfold credentialsDiffer. apply hoare_bind with (R := fun o w' => w = w' /\ o = t_users (aw_db w) !! "admin").
  - apply hoare_exec; [by intros d <-|]. by intros d d' a <- [= <- <-].
  - intros o. apply hoare_ret. intros d [<- ->]. split; [done|]. unfold differ. rewrite <- Hc. unfold credentials.
    by destruct (t_users (aw_db w) !! "admin").
Qed.

Lemma lift_ok_bind {A B} (r : res string A) (k : A -> Sql AuthWorld B) w0 (Q : B -> AuthWorld -> Prop) (E : AuthWorld -> Prop) :
  E w0 -> (forall a, r = Ok a -> hoare (eq w0) (k a) Q E) -> hoare (eq w0) (sql_bind (lift r) k) Q E.
Proof. intros HE Hk s Hs. destruct r as [a|e]; [by apply (Hk a)|]. simpl. by rewrite <- Hs. Qed.

(** The service's memory says what is stored. *)
Definition agrees (w : AuthWorld) : Prop :=
  exists k, credentials w = Some (sv_username (aw_svc w), k) /\ parseArgon2ID k = Ok (sv_params (aw_svc w)).
Lemma rotated_agrees cfg w0 w : rotated cfg w0 w -> agrees w.
Proof. intros [(h & params & Hr & Hc & <-) _ _]. exists h. split; [done|]. by apply read_hash_parses in Hr. Qed.

Lemma reconfigure_spec w0 cfg : agrees w0 ->
  hoare (eq w0) (Reconfigure cfg) (fun _ => rotated cfg w0) (fun w => kept (sessions w0) (sessions w) /\ agrees w).
Proof.
  intros Ha. assert (Hn : credentials w0 <> None) by (destruct Ha as (? & -> & _); done).
  assert (HE : kept (sessions w0) (sessions w0) /\ agrees w0) by (split; [apply kept_refl|done]). unfold Reconfigure. apply lift_ok_bind; [done|]. intros [[h params] ttl] Hr%read_config_hash. simpl in Hr.
  eapply hoare_bind; [by apply (credentialsDiffer_spec w0 w0)|]. intros changed.
  set (w1 := on_tables (on_users (alter (set_user (ac_Username cfg) h) "admin")) w0).
  apply hoare_bind with (R := fun _ w => w1 = w /\ changed = differ w0 (ac_Username cfg) h).
  { apply hoare_exec; [by intros d [<- _]|]. by intros d d' a [<- ->] [= <- <-]. }
  intros _. set (w2 := set_credentials (ac_Username cfg) params ttl w1).
  apply hoare_bind with (R := fun _ w => w2 = w /\ changed = differ w0 (ac_Username cfg) h); [by apply hoare_assign; intros d [<- ->]|].
  intros _. assert (Hc2 : credentials w2 = Some (ac_Username cfg, h)).
  { unfold credentials in *. simpl. rewrite lookup_alter_eq. by destruct (t_users (aw_db w0) !! "admin"). }
  assert (Ha2 : agrees w2) by (exists h; split; [done|by apply read_hash_parses in Hr]).
  destruct changed.
  - apply hoare_bind with (R := fun _ w => on_tables (on_sessions (fun _ => ∅)) w2 = w).
    { apply hoare_exec; [intros d [<- _]; split; [apply kept_refl|done]|]. by intros d d' a [<- _] [= <- <-]. }
    intros _. apply hoare_assign. intros d <-. split; [by exists h, params|apply kept_empty|done].
  - apply hoare_ret. intros d [<- Hd]. symmetry in Hd. apply differ_false in Hd as [Hd|Hd]; [done|].
    split; [by exists h, params|apply kept_refl|]. intros _ Hne. destruct Hne. by rewrite Hc2, Hd.
Qed.

Lemma new_spec w0 now cfg :
  hoare (eq w0) (NewService now cfg) (fun _ => rotated cfg w0) (fun w => kept (sessions w0) (sessions w)).
Proof.
  unfold NewService. apply lift_ok_bind; [apply kept_refl|]. intros [[h params] ttl] Hr%read_new_config_hash. simpl in Hr.
  eapply hoare_bind; [by apply (credentialsDiffer_spec w0 w0); [apply kept_refl|]|]. intros changed.
  set (w1 := on_tables (on_users (upsert_user now (ac_Username cfg) h)) w0).
  apply hoare_bind with (R := fun _ w => w1 = w /\ changed = differ w0 (ac_Username cfg) h).
  { apply hoare_exec; [intros d [<- _]; apply kept_refl|]. by intros d d' a [<- ->] [= <- <-]. }
  intros _. assert (Hc1 : credentials w1 = Some (ac_Username cfg, h)).
  { unfold credentials. simpl. unfold upsert_user. destruct (t_users (aw_db w0) !! "admin"); by rewrite lookup_insert_eq. }
  destruct changed.
  - apply hoare_bind with (R := fun _ w => on_tables (on_sessions (fun _ => ∅)) w1 = w).
    { apply hoare_exec; [intros d [<- _]; apply kept_refl|]. by intros d d' a [<- _] [= <- <-]. }
    intros _. apply hoare_assign. intros d <-. split; [by exists h, params|apply kept_empty|done].
  - apply hoare_bind with (R := fun _ w => w1 = w /\ differ w0 (ac_Username cfg) h = false); [apply hoare_ret; by intros d [<- <-]|].
    intros _. apply hoare_assign. intros d [<- Hd]. apply differ_false in Hd.
    split; [by exists h, params|apply kept_refl|]. intros Hn Hne. destruct Hd as [Hd|Hd]; [done|]. destruct Hne. unfold credentials in *. simpl in *. by rewrite Hc1, Hd.
Qed.
End Quiet.

(** *** The invariant of histories *)

Section SessionInvariant.
Variable sha256 : string -> string.
Variable IDKey : string -> string -> Z -> Z -> Z -> nat -> string.
Variable to_lower : string -> string.
Variable range : gmap string Attempts -> list (string * Attempts).
Abbreviation run := (run_op sha256 IDKey to_lower range).

Definition logs_out (id : string) (e : event) : Prop :=
  exists token, ev_op e = OpLogout token /\ ev_out e = ODone /\ token <> "" /\ tokenHash sha256 token = id.

(** The event [e] is the login that handed out the session [s] of [id], under credentials [c]; since
    then the credentials were the same and nobody logged the session out. *)
Record issued_by (c : string * string) (id : string) (s : Session) (e : event) (h2 : list event) : Prop := {
  ib_login : exists now now2 r1 r2 username password ua ip params,
    ev_op e = OpLogin now now2 true r1 r2 username password ua ip /\ username = c.1
    /\ parseArgon2ID c.2 = Ok params /\ verifyPassword IDKey params password = true;
  ib_out : ev_out e = OSession s;
  ib_token : tokenHash sha256 (ses_Token s) = id;
  ib_before : ev_before e = Some c;
  ib_since : Forall (fun e' => ev_after e' = Some c /\ ~ logs_out id e') (e :: h2) }.

Definition issued (h : list event) (c : string * string) (id : string) (row : session_row) : Prop :=
  exists h1 e h2 s, h = h1 ++ e :: h2 /\ issued_by c id s e h2
    /\ ss_user_id row = "admin" /\ ss_csrf_token row = ses_CSRFToken s /\ ss_expires_at row = stamp (ses_ExpiresAt s).

Record auth_ok (h : list event) (up : bool) (w : AuthWorld) : Prop := {
  ak_service : up = true -> agrees w;
  ak_issued : Forall (fun e => ~ torn e) h -> forall id row, sessions w !! id = Some row ->
    exists c, credentials w = Some c /\ issued h c id row }.

Lemma issued_later h c id row row' e : issued h c id row -> same_session row row' -> ev_after e = Some c -> ~ logs_out id e ->
  issued (h ++ [e]) c id row'.
Proof.
  intros (h1 & e0 & h2 & s & -> & [H1 H2 H3 H4 H5] & Hu & Hc & He) (S1 & S2 & S3) Ha Hl.
  exists h1, e0, (h2 ++ [e]), s. rewrite <- app_assoc. split; [done|]. rewrite S1, S2, S3. split; [|done]. split; [done..|].
  rewrite app_comm_cons. apply Forall_app. auto.
Qed.

Lemma op_quiet op s s' o : run op s = (s', o) -> is_new op = false -> (forall cfg, op <> OpReconfigure cfg) ->
  (forall sess, o <> OSession sess) -> quiet (db s) (db s').
Proof.
  intros H Hn Hr Ho. pose proof (quiet_refl (db s)) as Hq. destruct op; simpl in H; try done; [by edestruct Hr| | | | | | |].
  - pose proof (login_spec sha256 IDKey to_lower range (db s) now now2 admitted r1 r2 username password userAgent ip s eq_refl) as K.
    destruct (Login _ _ _ _ _ _ _ _ _ _ _ _ _ s) as [s1 [[sess|e]|e]]; injection H as <- <-; [by edestruct Ho|done..].
  - pose proof (quiet_authenticate sha256 (db s) now now2 token s Hq) as K. destruct (Authenticate _ _ _ _ s) as [s1 [r|e]]; by injection H as <- <-.
  - pose proof (quiet_csrf sha256 (db s) now now2 sessionToken cookieToken headerToken s Hq) as K.
    destruct (CheckCSRF _ _ _ _ _ _ s) as [s1 [r|e]]; by injection H as <- <-.
  - pose proof (quiet_logout sha256 (db s) token s Hq) as K. destruct (Logout _ _ s) as [s1 [r|e]]; by injection H as <- <-.
  - pose proof (quiet_open_sudo sha256 IDKey range (db s) t1 t2 now later admitted sessionToken password ip s Hq) as K.
    destruct (OpenSudo _ _ _ _ _ _ _ _ _ _ _ s) as [s1 [r|e]]; by injection H as <- <-.
  - pose proof (quiet_privileged (db s) now identity s Hq) as K. destruct (AllowsPrivileged _ _ s) as [s1 [r|e]]; by injection H as <- <-.
  - pose proof (quiet_prune (db s) now s Hq) as K. destruct (PruneExpired _ s) as [s1 [r|e]]; by injection H as <- <-.
Qed.

Lemma logout_gone token s s' : Logout sha256 token s = (s', Ok tt) -> token <> "" -> sessions (db s') !! tokenHash sha256 token = None.
Proof.
  unfold Logout. destruct (String.eqb_spec token ""); [done|]. intros H _. cbv zeta in H.
  apply bind_Ok in H as (s1 & r & H1%try_Ok & H). apply bind_Ok in H as (s2 & [] & H2 & H3). destruct r as [[]|]; [|done].
  injection H3 as <-. injection H2 as <-. apply update_run in H1. simpl. rewrite H1. simpl. apply lookup_delete_eq.
Qed.

Definition event_of (op : auth_op) (o : outcome) (w w' : AuthWorld) : event :=
  {| ev_op := op; ev_out := o; ev_before := credentials w; ev_after := credentials w' |}.

Lemma auth_ok_quiet h up op s s' o : run op s = (s', o) -> is_new op = false -> (forall cfg, op <> OpReconfigure cfg) ->
  (forall sess, o <> OSession sess) -> auth_ok h up (db s) -> auth_ok (h ++ [event_of op o (db s) (db s')]) up (db s').
Proof.
  intros H Hn Hr Ho [Hs Hi]. pose proof (op_quiet _ _ _ _ H Hn Hr Ho) as [Q1 Q2 Q3 Q4].
  split; [unfold agrees; by rewrite Q2, Q3, Q4|]. intros [Ht _]%Forall_app id row Hrow. destruct (Q1 _ _ Hrow) as (row0 & Hrow0 & Hsame).
  destruct (Hi Ht _ _ Hrow0) as (c & Hc & Hiss). exists c. rewrite Q2. split; [done|].
  eapply issued_later; [done..| |]; simpl; [by rewrite Q2|]. intros (token & Eop & Eout & Htok & <-). simpl in Eop, Eout. subst op.
  simpl in H. destruct (Logout sha256 token s) as [s1 [[]|]] eqn:El; [|injection H as <- <-; done].
  injection H as <- <-. apply logout_gone in El; [|done]. congruence.
Qed.

Lemma auth_ok_login h now now2 adm r1 r2 username password ua ip s s' sess :
  let op := OpLogin now now2 adm r1 r2 username password ua ip in
  run op s = (s', OSession sess) -> auth_ok h true (db s) -> auth_ok (h ++ [event_of op (OSession sess) (db s) (db s')]) true (db s').
Proof.
  intros op H [Hs Hi]. simpl in H.
  pose proof (login_spec sha256 IDKey to_lower range (db s) now now2 adm r1 r2 username password ua ip s eq_refl) as K.
  destruct (Login _ _ _ _ _ _ _ _ _ _ _ _ _ s) as [s1 [[s0|e]|e]]; simpl in H; try discriminate H. injection H as <- <-.
  destruct K as [[(row & Hk & Hu & Hcs & He) Eu Hp Hc [Hv1 Hv2]] ->]. destruct (Hs eq_refl) as (k & Hk1 & Hk2).
  split; [unfold agrees; rewrite Hc, Hv1, Hv2; eauto|]. intros [Ht _]%Forall_app id r Hr. exists (sv_username (aw_svc (db s)), k).
  split; [congruence|]. destruct (Hk _ _ Hr) as (r0 & Hr0 & Hsame). apply lookup_insert_Some in Hr0 as [[<- <-]|[_ Hr0]].
  - exists h, (event_of op (OSession s0) (db s) (db s1)), [], s0. destruct Hsame as (S1 & S2 & S3). rewrite S1, S2, S3. split; [done|].
    split; [|done]. split; simpl; [|done..|].
    + exists now, now2, r1, r2, username, password, ua, ip, (sv_params (aw_svc (db s))). done.
    + constructor; [|done]. simpl. rewrite Hc. split; [done|]. by intros (? & [=] & _).
  - destruct (Hi Ht _ _ Hr0) as (c & Hc0 & Hiss). rewrite Hk1 in Hc0. injection Hc0 as <-.
    eapply issued_later; [done..| |]; simpl; [by rewrite Hc|]. by intros (? & [=] & _).
Qed.

(** A rotation that fails keeps the sessions it had; unless it is torn, the credentials too. *)
Lemma auth_ok_rotation h up up' op w w' o :
  kept (sessions w) (sessions w') -> (credentials w <> None -> credentials w' <> credentials w -> o = ODone -> sessions w' = ∅) ->
  (forall e, o <> ODenied e) -> (forall s, o <> OSession s) -> (up' = true -> agrees w') -> (forall token, op <> OpLogout token) ->
  auth_ok h up w -> auth_ok (h ++ [event_of op o w w']) up' w'.
Proof.
  intros Hk Hr Hd Hs' Ha Hl [Hs Hi]. split; [done|]. intros [Ht Htorn]%Forall_app id row Hrow. rewrite Forall_singleton in Htorn.
  destruct (Hk _ _ Hrow) as (row0 & Hrow0 & Hsame). destruct (Hi Ht _ _ Hrow0) as (c & Hc & Hiss).
  assert (Hsame_c : credentials w' = credentials w).
  { destruct (decide (credentials w' = credentials w)) as [|Hne]; [done|]. exfalso. destruct o as [s| |e|e].
    - by eapply Hs'.
    - rewrite Hr in Hrow by (done || congruence). by rewrite lookup_empty in Hrow.
    - by eapply Hd.
    - apply Htorn. split; [simpl; congruence|]. split; [simpl; congruence|by eexists]. }
  exists c. rewrite Hsame_c. split; [done|]. eapply issued_later; [done..| |]; simpl; [congruence|]. intros (t & E & _). by eapply Hl.
Qed.

Lemma session_login op s s' sess : run op s = (s', OSession sess) ->
  exists now now2 adm r1 r2 u p ua ip, op = OpLogin now now2 adm r1 r2 u p ua ip.
Proof.
  intros H. destruct op; [..|]; simpl in H; try (match type of H with (let '(_, _) := ?m in _) = _ => destruct m as [? [|]] end;
    try discriminate H; unfold answer_of in H; repeat case_match; discriminate H). by eauto 20.
Qed.
Global Instance reconfigure_dec op : Decision (exists cfg, op = OpReconfigure cfg).
Proof. destruct op; try (right; by intros [? [=]]). left. by eexists. Defined.

Lemma reaches_ok h up w : reaches sha256 IDKey to_lower range h up w -> auth_ok h up w.
Proof.
  induction 1 as [w _ Hs|h up s op s' o _ IH Hup H].
  { split; [done|]. intros _ id row Hrow. by rewrite Hs, lookup_empty in Hrow. }
  fold (event_of op o (db s) (db s')). destruct (is_new op) eqn:En.
  - destruct op; try done. simpl in H. pose proof (new_spec (db s) now cfg s eq_refl) as K.
    destruct (NewService now cfg s) as [s1 [[]|e]]; injection H as <- <-; simpl in *.
    + pose proof (rotated_agrees _ _ _ K) as Ha. destruct K as [_ K1 K2]. apply auth_ok_rotation with up; auto; done.
    + apply auth_ok_rotation with up; auto; done.
  - rewrite orb_false_r in Hup. subst up. destruct (decide (exists cfg, op = OpReconfigure cfg)) as [[cfg ->]|Hnr].
    + simpl in H. pose proof (reconfigure_spec (db s) cfg (ak_service _ _ _ IH eq_refl) s eq_refl) as K.
      destruct (Reconfigure cfg s) as [s1 [[]|e]]; injection H as <- <-; simpl in *.
      * pose proof (rotated_agrees _ _ _ K) as Ha. destruct K as [_ K1 K2]. apply auth_ok_rotation with true; auto; done.
      * destruct K as [K1 K2]. apply auth_ok_rotation with true; auto; done.
    + assert (Hr : forall cfg, op <> OpReconfigure cfg) by (intros cfg ->; eauto).
      destruct o as [sess| |e|e]; [|by eapply auth_ok_quiet..].
      destruct (session_login _ _ _ _ H) as (now & now2 & adm & r1 & r2 & u & p & ua & ip & ->). by apply auth_ok_login.
Qed.
End SessionInvariant.

(** ** Guessing *)

Record login_call := {
  lc_now : Time; lc_now2 : Time; lc_admitted : bool; lc_r1 : res string string; lc_r2 : res string string;
  lc_username : string; lc_password : string; lc_userAgent : string; lc_ip : string }.

(** The tracked failures of one key, of which [n] were recorded since [t0], none after [last]. *)
Record tracked (t0 last : Time) (n : Z) (entry : option Attempts) : Prop := {
  tk_none : entry = None -> n = 0%Z;
  tk_some : forall a, entry = Some a ->
    (t0 <= at_windowStart a <= last)%Z /\ (1 <= at_count a <= 5)%Z /\ (n <= 5 * ((at_windowStart a - t0) / window) + at_count a)%Z
    /\ (at_count a = 5 -> at_windowStart a + lock <= at_lockedUntil a)%Z }.

Lemma tracked_later t0 last last' n e : (last <= last')%Z -> tracked t0 last n e -> tracked t0 last' n e.
Proof. intros Hl [H1 H2]. split; [done|]. intros a Ha. destruct (H2 a Ha). intuition lia. Qed.

(** A failure recorded while its key is not locked. *)
Lemma recordFailure_tracked range t0 last now n key m : (0 < t0)%Z -> (t0 <= last <= now)%Z ->
  size m < maxTrackedSources -> locked key now m = false ->
  tracked t0 last n (m !! key) -> tracked t0 now (n + 1) (recordFailure range key now m !! key).
Proof.
  intros H0 Hl Hsz Hlock [Hn Hs]. unfold recordFailure, evictLocked, locked, attempt_of in *. rewrite (proj2 (Nat.ltb_lt _ _) Hsz).
  assert (E : (if bool_decide (is_Some (m !! key)) then m else m) = m) by (by case_bool_decide). rewrite E.
  assert (Hw : (0 < window < lock)%Z) by (split; vm_compute; reflexivity).
  rewrite lookup_insert_eq. split; [done|]. intros a [= <-]. set (W := window) in *. set (L := lock) in *. clearbody W L. cbn [at_windowStart at_count at_lockedUntil]. unfold isZero, before in *.
  destruct (m !! key) as [a|]; simpl in *.
  - destruct (Hs a eq_refl) as (Hwin & Hc & Hb & H5). apply Z.ltb_ge in Hlock.
    destruct (Z.eqb_spec (at_windowStart a) 0); [lia|]. simpl. destruct (Z.leb_spec W (now - at_windowStart a)); cbn [at_windowStart at_count at_lockedUntil].
    + split; [lia|]. split; [lia|]. split; [|lia].
      assert (Hd : ((at_windowStart a - t0) / W + 1 <= (now - t0) / W)%Z).
      { rewrite <- Z.div_add with (b := 1%Z) by lia. apply Z.div_le_mono; lia. }
      lia.
    + split; [lia|]. split; [lia|]. split; [lia|]. intros E5. destruct (Z.leb_spec 5 (at_count a + 1)); lia.
  - rewrite (Hn eq_refl). cbn [at_windowStart at_count at_lockedUntil]. split; [lia|]. split; [lia|]. split; [|lia].
    pose proof (Z.div_pos (now - t0) W ltac:(lia) ltac:(lia)). lia.
Qed.

Lemma recordFailure_other range key k now m : size m < maxTrackedSources -> k <> key -> recordFailure range key now m !! k = m !! k.
Proof.
  intros Hsz Hne. unfold recordFailure, evictLocked. rewrite (proj2 (Nat.ltb_lt _ _) Hsz).
  assert (E : (if bool_decide (is_Some (m !! key)) then m else m) = m) by (by case_bool_decide). rewrite E. by apply lookup_insert_ne.
Qed.

Lemma recordFailure_dom range key now m (D : gset string) : size m < maxTrackedSources -> dom m ⊆ D -> key ∈ D ->
  dom (recordFailure range key now m) ⊆ D.
Proof.
  intros Hsz HD Hk. unfold recordFailure, evictLocked. rewrite (proj2 (Nat.ltb_lt _ _) Hsz).
  assert (E : (if bool_decide (is_Some (m !! key)) then m else m) = m) by (by case_bool_decide). rewrite E, dom_insert. set_solver.
Qed.

Section Guessing.
Variable sha256 : string -> string.
Variable IDKey : string -> string -> Z -> Z -> Z -> nat -> string.
Variable to_lower : string -> string.
Variable range : gmap string Attempts -> list (string * Attempts).

Definition run_login (c : login_call) : Sql AuthWorld (res auth_error Session) :=
  Login sha256 IDKey to_lower range (lc_now c) (lc_now2 c) (lc_admitted c) (lc_r1 c) (lc_r2 c) (lc_username c) (lc_password c)
    (lc_userAgent c) (lc_ip c).
Fixpoint run_logins (calls : list login_call) (s : session AuthWorld) : session AuthWorld * list (login_call * outcome) :=
  match calls with
  | [] => (s, [])
  | c :: r => let '(s1, o) := run_login c s in let '(s2, l) := run_logins r s1 in (s2, (c, session_of o) :: l)
  end.
Definition call_key (c : login_call) : string := login_key to_lower (lc_username c) (lc_ip c).

(** The guesses of a key: its password checks that failed. *)
Definition is_guess (key : string) (p : login_call * outcome) : bool :=
  String.eqb (call_key p.1) key && match p.2 with ODenied ErrInvalidCredentials => true | _ => false end.
Definition guesses (key : string) (l : list (login_call * outcome)) : Z := Z.of_nat (length (List.filter (is_guess key) l)).

Abbreviation attempts_of s := (sv_attempts (aw_svc (db s))) (only parsing).

Lemma run_login_attempts c s s' r : run_login c s = (s', r) ->
  match session_of r with
  | ODenied ErrInvalidCredentials => locked (call_key c) (lc_now c) (attempts_of s) = false
      /\ attempts_of s' = recordFailure range (call_key c) (lc_now c) (attempts_of s)
  | ODenied _ => attempts_of s' = attempts_of s
  | _ => attempts_of s' = delete (call_key c) (attempts_of s)
  end.
Proof.
  unfold run_login, Login, deny, call_key. set (k := login_key to_lower (lc_username c) (lc_ip c)). unfold sql_bind at 1, look. cbv zeta.
  destruct (locked k (lc_now c) (attempts_of s)) eqn:El; [by intros [= <- <-]|].
  destruct (lc_admitted c); cbn [negb]; [|by intros [= <- <-]]. destruct (_ && _); cbn [negb]; [|by intros [= <- <-]].
  unfold sql_bind at 1, assign. cbv beta iota. match goal with |- context [{| db := ?d; faults := ?f |}] => set (s1 := {| db := d; faults := f |}) end.
  assert (H : forall {A} (m : Sql AuthWorld A), preserves (fun w => sv_attempts (aw_svc w) = delete k (attempts_of s)) m ->
    forall s' r, m s1 = (s', r) -> attempts_of s' = delete k (attempts_of s)).
  { intros A m Hm s2 r2 E. specialize (Hm s1 eq_refl). rewrite E in Hm. by destruct r2. }
  match goal with |- ?m s1 = _ -> _ => assert (Hp : preserves (fun w => sv_attempts (aw_svc w) = delete k (attempts_of s)) m) end.
  { unfold lift, issue, insert_session, PruneExpired. cbv zeta. repeat first [sql_step|apply preserves_update; done|apply preserves_exec].
    intros d d' [] Hd He. case_match; [done|]. by injection He as <-. }
  match goal with |- ?m s1 = _ -> _ => assert (Hd : forall s' e, m s1 <> (s', Ok (Err e))) end.
  { intros s2 e. unfold sql_bind at 1. destruct (lift _ s1) as [s3 [t|]]; [|done]. unfold sql_bind at 1. destruct (lift _ s3) as [s4 [t'|]]; [|done].
    unfold issue. cbv zeta. unfold sql_bind at 1. destruct (insert_session _ _ s4) as [s5 [[]|]]; [|done].
    unfold sql_bind, sql_try. destruct (update _ s5) as [s6 ?]. by destruct (PruneExpired _ s6). }
  intros E. pose proof (H _ _ Hp _ _ E) as Ha. destruct r as [[x|e]|e]; simpl; [done|by edestruct Hd|done].
Qed.

Lemma run_logins_tracked calls s s' l key t0 last T n (D : gset string) :
  run_logins calls s = (s', l) -> (0 < t0 <= last)%Z -> (last <= T)%Z ->
  StronglySorted (fun a b => lc_now a <= lc_now b)%Z calls -> Forall (fun c => last <= lc_now c <= T)%Z calls ->
  dom (attempts_of s) ⊆ D -> size D < maxTrackedSources -> Forall (fun c => call_key c ∈ D) calls ->
  Forall (fun p => call_key p.1 = key -> exists e, p.2 = ODenied e) l ->
  tracked t0 last n (attempts_of s !! key) -> tracked t0 T (n + guesses key l) (attempts_of s' !! key).
Proof.
  revert s s' l last n; induction calls as [|c calls IH]; intros s s' l last n H Ht HT Hsort Htimes Hdom Hsz Hkeys Hden Htr; simpl in H.
  { injection H as <- <-. unfold guesses. simpl. rewrite Z.add_0_r. by apply tracked_later with last. }
  destruct (run_login c s) as [s1 o] eqn:E1. destruct (run_logins calls s1) as [s2 l1] eqn:E2. injection H as <- <-.
  inversion Hsort as [|?? Hsort' Hall]; subst. inversion Htimes as [|?? Hc Htimes']; subst. inversion Hkeys as [|?? Hk Hkeys']; subst.
  inversion Hden as [|?? Hd Hden']; subst. simpl in Hd.
  assert (Hm : size (attempts_of s) < maxTrackedSources) by (rewrite <- size_dom; pose proof (subseteq_size _ _ Hdom); lia).
  pose proof (run_login_attempts _ _ _ _ E1) as Ha.
  assert (Hnext : dom (attempts_of s1) ⊆ D
    /\ tracked t0 (lc_now c) (n + (if is_guess key (c, session_of o) then 1 else 0)) (attempts_of s1 !! key)).
  { unfold is_guess. cbn [fst snd]. destruct (session_of o) as [x| |[]|e] eqn:Eo.
    all: lazymatch type of Ha with _ /\ _ => destruct Ha as [Hlk Ha] | _ => idtac end. all: rewrite Ha.
    3: { split; [by apply recordFailure_dom|]. destruct (String.eqb_spec (call_key c) key) as [<-|Hne]; simpl.
         - apply recordFailure_tracked with last; (done || lia).
         - rewrite recordFailure_other by done || congruence. rewrite Z.add_0_r. apply tracked_later with last; [lia|done]. }
    all: rewrite ?andb_false_r, Z.add_0_r; simpl.
    all: try (split; [done|]; apply tracked_later with last; [lia|done]).
    all: split; [rewrite dom_delete; set_solver|]; destruct (decide (call_key c = key)) as [Eq|Hne]; [destruct (Hd Eq) as [? ?]; congruence|].
    all: rewrite lookup_delete_ne by done; apply tracked_later with last; [lia|done]. }
  destruct Hnext as [Hdom1 Htr1].
  assert (Hg : guesses key ((c, session_of o) :: l1) = ((if is_guess key (c, session_of o) then 1 else 0) + guesses key l1)%Z).
  { unfold guesses. simpl. destruct (is_guess _ _); simpl; lia. }
  rewrite Hg, Z.add_assoc. apply (IH s1 s2 l1 (lc_now c)); [exact E2|lia|lia|done| |done..].
  rewrite Forall_forall in Hall, Htimes' |- *. intros c' Hc'. specialize (Hall c' Hc'). specialize (Htimes' c' Hc'). lia.
Qed.
End Guessing.

(** The oldest window is found, and its source forgotten though it may be locked out: a flood of
    fresh sources unlocks the first. *)
Lemma foldl_oldest l acc key a :
  (key, a) ∈ l -> (0 < at_windowStart a)%Z -> (forall p, p ∈ l -> p = (key, a) \/ (at_windowStart a < at_windowStart p.2)%Z) ->
  acc.1 = key /\ acc.2 = at_windowStart a \/ acc.2 = 0%Z \/ (at_windowStart a < acc.2)%Z ->
  (foldl oldest_step acc l).1 = key /\ (foldl oldest_step acc l).2 = at_windowStart a.
Proof.
  intros Hin Hpos Hold Hacc.
  assert (Hgen : forall l acc, (forall p, p ∈ l -> p = (key, a) \/ (at_windowStart a < at_windowStart p.2)%Z) ->
    (acc.1 = key /\ acc.2 = at_windowStart a \/ (key, a) ∈ l /\ (acc.2 = 0%Z \/ (at_windowStart a < acc.2)%Z)) ->
    (foldl oldest_step acc l).1 = key /\ (foldl oldest_step acc l).2 = at_windowStart a); [|apply Hgen; [done|tauto]].
  clear -Hpos. induction l as [|p l IH]; intros acc Hold Hacc; simpl; [destruct Hacc as [H|[H _]]; [done|by apply elem_of_nil in H]|].
  apply IH; [intros q Hq; apply Hold; by right|]. unfold oldest_step, isZero, before.
  pose proof (Hold p ltac:(left)) as Hp. destruct Hacc as [[E1 E2]|[Hin Hacc]].
  - destruct (Z.eqb_spec acc.2 0); [lia|]. destruct (Z.ltb_spec (at_windowStart p.2) acc.2); [|by left]. destruct Hp as [->|]; simpl; [by left|lia].
  - apply elem_of_cons in Hin as [<-|Hin].
    + left. simpl. destruct (Z.eqb_spec acc.2 0), (Z.ltb_spec (at_windowStart a) acc.2); simpl; (done || lia).
    + destruct Hp as [->|Hp].
      * left. simpl. destruct (Z.eqb_spec acc.2 0), (Z.ltb_spec (at_windowStart a) acc.2); simpl; (done || lia).
      * right. split; [done|]. destruct (_ || _); simpl; lia.
Qed.

Lemma eviction_unlocks range key now m victim a :
  range m ≡ₚ map_to_list m -> m !! victim = Some a -> m !! key = None -> maxTrackedSources <= size m -> (0 < at_windowStart a)%Z ->
  (forall k b, m !! k = Some b -> lapsed now b = false /\ (k = victim \/ (at_windowStart a < at_windowStart b)%Z)) ->
  recordFailure range key now m !! victim = None.
Proof.
  intros Hr Hv Hk Hsz Hpos Hall. unfold recordFailure. rewrite Hk, bool_decide_eq_false_2 by (intros [? ?]; done).
  rewrite lookup_insert_ne by congruence. unfold evictLocked.
  assert (Ef : filter (fun p : string * Attempts => lapsed now p.2 = false) m = m) by (apply map_filter_id; intros k b Hb; by apply (Hall k b)).
  rewrite Ef. rewrite (proj2 (Nat.ltb_ge _ _) Hsz). cbv zeta.
  assert (E : (foldl oldest_step ("", 0%Z) (range m)).1 = victim); [|rewrite E; apply lookup_delete_eq].
  apply (foldl_oldest _ _ victim a); [rewrite Hr; by apply elem_of_map_to_list|done| |by right; left].
  intros [k b] Hb. rewrite Hr, elem_of_map_to_list in Hb. destruct (Hall k b Hb) as [_ [->|H]]; [left; congruence|by right].
Qed.

(** ** The verifier's bounds *)

Record verifier_ok (v : Verifier) : Prop := {
  vo_counter : vf_waiting v = (vf_refused v + vf_queued v + vf_running v)%Z;
  vo_positive : (0 <= vf_refused v /\ 0 <= vf_queued v /\ 0 <= vf_running v)%Z;
  vo_running : (vf_running v <= vf_slots v)%Z;
  vo_admitted : (vf_queued v + vf_running v <= vf_queue v + vf_slots v)%Z }.

(** At most the slots run a hash at once and at most the queue waits, however the callers interleave. *)
Lemma verifier_bounded concurrency queue v : rtc verify_step (newVerifier concurrency queue) v -> verifier_ok v.
Proof.
  intros H. assert (H0 : verifier_ok (newVerifier concurrency queue)).
  { split; simpl; try lia; destruct (Z.ltb_spec concurrency 1), (Z.ltb_spec queue 0); lia. }
  revert H0; induction H as [|v1 v2 v3 Hs _ IH]; intros H0; [done|]. apply IH. destruct H0 as [H1 H2 H3 H4].
  destruct Hs as [v|v Hv|v Hv Hv'|v Hv]; [destruct (Z.ltb_spec (vf_queue v + vf_slots v) (vf_waiting v + 1))|..]; split; simpl; lia.
Qed.

(** ** The properties *)

(** C7. Who a session token speaks for. Across any calls, failures and restarts, a token that
    authenticates was handed out by a login whose password was verified against the credentials
    stored then, which are the ones stored now and were at every moment between; nobody logged it
    out and it is not past its expiry. The one exception is excluded: a rotation that stored new
    credentials and failed before it revoked. *)
Theorem session_authority (sha256 : string -> string) (IDKey : string -> string -> Z -> Z -> Z -> nat -> string)
  (to_lower : string -> string) (range : gmap string Attempts -> list (string * Attempts))
  (h : list event) (up : bool) (s s' : session AuthWorld) (now now2 : Time) (token : string) (identity : Identity) (csrf : string)
  (Hreach : reaches sha256 IDKey to_lower range h up (db s)) (Huntorn : Forall (fun e => ~ torn e) h)
  (Hauth : Authenticate sha256 now now2 token s = (s', Ok (Ok (identity, csrf)))) :
  exists h1 e h2 sess c,
    h = h1 ++ e :: h2 /\ issued_by sha256 IDKey c (tokenHash sha256 token) sess e h2
    /\ credentials (db s) = Some c /\ id_Username identity = c.1 /\ id_SessionID identity = tokenHash sha256 token
    /\ csrf = ses_CSRFToken sess /\ (written (ses_ExpiresAt sess) -> (now < ses_ExpiresAt sess)%Z).
Proof.
  destruct (reaches_ok _ _ _ _ _ _ _ Hreach) as [_ Hi]. unfold Authenticate, deny in Hauth. destruct (String.eqb token ""); [done|].
  cbv zeta in Hauth. apply bind_Ok in Hauth as (s1 & found & [E1 ->]%query_Ok & H). unfold session_user in H.
  destruct (sessions (db s) !! tokenHash sha256 token) as [row|] eqn:Er; [|done].
  destruct (Hi Huntorn _ _ Er) as (c & Hc & h1 & e & h2 & sess & -> & Hib & Hu & Hcs & He). simpl in H.
  destruct (t_users (aw_db (db s)) !! ss_user_id row) as [u|] eqn:Eu; [|done]. simpl in H.
  destruct (live_session now row) eqn:El; cbn [negb] in H; apply bind_Ok in H as (s2 & r & _ & H); [|discriminate H]. injection H as <- <- <-.
  exists h1, e, h2, sess, c. rewrite Hu in Eu. unfold credentials in Hc. rewrite Eu in Hc. simpl in Hc.
  split; [done|]. split; [done|]. split; [unfold credentials; by rewrite Eu|]. split; [by injection Hc as <-|]. split; [done|]. split; [done|].
  intros Hw. unfold live_session in El. rewrite He in El. unfold stamp in El. rewrite parse_format in El by done. unfold before in El. lia.
Qed.

(** C32. Password guessing through the login is rate limited. Of the logins a process receives one after
    another, from its start, for one user name and address, none of which verifies, at most five in the
    first ten minutes and five more per further ten are checked against the password, as long as the logins
    come from fewer different sources (user name and address) than the table holds, 4096: a flood of sources
    evicts an entry and its count. *)
Theorem guesses_bounded (sha256 : string -> string) (IDKey : string -> string -> Z -> Z -> Z -> nat -> string)
  (to_lower : string -> string) (range : gmap string Attempts -> list (string * Attempts))
  (calls : list login_call) (s s' : session AuthWorld) (l : list (login_call * outcome)) (key : string) (t0 T : Time)
  (Hrun : run_logins sha256 IDKey to_lower range calls s = (s', l))
  (Hstart : sv_attempts (aw_svc (db s)) = ∅) (Hpos : (0 < t0 <= T)%Z)
  (Hsorted : StronglySorted (fun a b => lc_now a <= lc_now b)%Z calls)
  (Htimes : Forall (fun c => t0 <= lc_now c <= T)%Z calls)
  (Hroom : size (list_to_set (map (call_key to_lower) calls) : gset string) < maxTrackedSources)
  (Hdenied : Forall (fun p => call_key to_lower p.1 = key -> exists e, p.2 = ODenied e) l) :
  (guesses to_lower key l <= 5 * ((T - t0) / window + 1))%Z.
Proof.
  assert (Ht : tracked t0 t0 0 (sv_attempts (aw_svc (db s)) !! key)) by (rewrite Hstart, lookup_empty; by split).
  eapply (run_logins_tracked sha256 IDKey to_lower range calls s s' l key t0 t0 T 0 (list_to_set (map (call_key to_lower) calls))) in Ht;
    [|done|lia|lia|done|done|rewrite Hstart, dom_empty; set_solver|done| |done].
  2: { rewrite Forall_forall. intros c Hc. rewrite elem_of_list_to_set. apply elem_of_map_2. exact Hc. }
  destruct Ht as [Hn Hs]. rewrite Z.add_0_l in *. assert (Hw : (0 < window)%Z) by (vm_compute; reflexivity).
  pose proof (Z.div_pos (T - t0) window ltac:(lia) Hw). destruct (sv_attempts (aw_svc (db s')) !! key) as [a|]; [|rewrite Hn by done; lia].
  destruct (Hs a eq_refl) as (H1 & H2 & H3 & _). pose proof (Z.div_le_mono (at_windowStart a - t0) (T - t0) window Hw ltac:(lia)). lia.
Qed.

Definition sample_idkey (pw salt : string) (t m p : Z) (n : nat) : string :=
  String.substring 0 n (pw +:+ salt +:+ "0123456789abcdef0123456789abcdef").
Definition sample_sha (s : string) : string := s.
Definition sample_hash (pw : string) : string :=
  match HashPassword sample_idkey pw DefaultHashCost (Ok "salt-salt-salt-s") with Ok s => s | Err _ => "" end.
Definition sample_config (pw : string) : AuthConfig :=
  {| ac_Username := "admin"; ac_PasswordHash := sample_hash pw; ac_ResolvedSecrets := ∅; ac_SessionTTL := "1h" |}.
Definition stopped : AuthWorld :=
  {| aw_db := empty_db; aw_svc := fresh_service "" {| memory := 0; iterations := 0; parallelism := 0; salt := ""; hash := "" |} 0 |}.

(** A sequence of calls, none of which meets a fault, with the history it makes. *)
Fixpoint sample_run (ops : list auth_op) (h : list event) (w : AuthWorld) : list event * AuthWorld :=
  match ops with
  | [] => (h, w)
  | op :: r =>
      let '(s', o) := run_op sample_sha sample_idkey ToLower map_to_list op {| db := w; faults := [] |} in
      sample_run r (h ++ [event_of op o w (db s')]) (db s')
  end.
Lemma sample_reaches ops h w : Forall (fun op => is_new op = false) ops ->
  reaches sample_sha sample_idkey ToLower map_to_list h true w ->
  reaches sample_sha sample_idkey ToLower map_to_list (sample_run ops h w).1 true (sample_run ops h w).2.
Proof.
  intros Hops. revert h w; induction Hops as [|op ops Hop _ IH]; intros h w H; [done|]. simpl.
  destruct (run_op _ _ _ _ op _) as [s' o] eqn:E. apply IH.
  pose proof (reach_op sample_sha sample_idkey ToLower map_to_list h true {| db := w; faults := [] |} op s' o H eq_refl E) as K.
  by rewrite Hop in K.
Qed.

Definition login_op (pw : string) : auth_op :=
  OpLogin noon noon true (Ok "tokentokentokentokentokentokento") (Ok "csrfcsrfcsrfcsrfcsrfcsrfcsrfcsrf") "admin" pw "curl" "192.0.2.1".
Definition sample_token : string := Assets.b64url_encode "tokentokentokentokentokentokento".
Definition started : list event * AuthWorld := sample_run [OpNew noon (sample_config "correct horse")] [] stopped.
Definition logged_in : list event * AuthWorld :=
  sample_run [login_op "wrong"; login_op "correct horse"; OpPrune (noon + minute)] started.1 started.2.

Example session_authority_witness : exists h1 e h2 sess c,
  logged_in.1 = h1 ++ e :: h2 /\ issued_by sample_sha sample_idkey c (tokenHash sample_sha sample_token) sess e h2
  /\ c.1 = "admin" /\ credentials logged_in.2 = Some c.
Proof.
  assert (H0 : reaches sample_sha sample_idkey ToLower map_to_list started.1 true started.2).
  { assert (E : exists s', run_op sample_sha sample_idkey ToLower map_to_list (OpNew noon (sample_config "correct horse")) {| db := stopped; faults := [] |} = (s', ODone)
      /\ started = ([event_of (OpNew noon (sample_config "correct horse")) ODone stopped (db s')], db s')).
    { eexists. split; [vm_compute; reflexivity|vm_compute; reflexivity]. }
    destruct E as (s' & E & ->).
    exact (reach_op sample_sha sample_idkey ToLower map_to_list [] false {| db := stopped; faults := [] |}
      (OpNew noon (sample_config "correct horse")) s' ODone (reach_start _ _ _ _ stopped eq_refl eq_refl) eq_refl E). }
  assert (H1 : reaches sample_sha sample_idkey ToLower map_to_list logged_in.1 true logged_in.2)
    by (apply sample_reaches; [repeat constructor|exact H0]).
  assert (Hu : Forall (fun e => ~ torn e) logged_in.1).
  { assert (E : forallb (fun e => match ev_out e with OError _ => false | _ => true end) logged_in.1 = true) by (vm_compute; reflexivity).
    rewrite forallb_forall in E. apply Forall_forall. intros e He (_ & _ & msg & Em). apply list_elem_of_In in He. specialize (E e He). rewrite Em in E. discriminate E. }
  assert (Ha : exists s' csrf, Authenticate sample_sha (noon + minute) (noon + minute) sample_token {| db := logged_in.2; faults := [] |}
    = (s', Ok (Ok ({| id_Username := "admin"; id_SessionID := tokenHash sample_sha sample_token; id_Mode := "password"; id_Admin := true; id_Groups := [] |}, csrf)))).
  { eexists _, _. vm_compute. reflexivity. }
  destruct Ha as (s' & csrf & Ha).
  destruct (session_authority sample_sha sample_idkey ToLower map_to_list logged_in.1 true {| db := logged_in.2; faults := [] |} s'
    (noon + minute) (noon + minute) sample_token _ csrf H1 Hu Ha) as (h1 & e & h2 & sess & c & K1 & K2 & K3 & K4 & _).
  exists h1, e, h2, sess, c. split; [exact K1|]. split; [exact K2|]. split; [exact (eq_sym K4)|exact K3].
Defined.

Definition guess (pw : string) (t : Time) : login_call :=
  {| lc_now := t; lc_now2 := t; lc_admitted := true; lc_r1 := Ok ""; lc_r2 := Ok ""; lc_username := "Admin"; lc_password := pw;
     lc_userAgent := "curl"; lc_ip := "192.0.2.1" |}.
(** Seven guesses in seven minutes: the sixth and the seventh are not checked. *)
Definition guessing : list login_call := map (fun i => guess "wrong" (noon + Z.of_nat i * minute)%Z) (seq 0 7).

Example guesses_bounded_witness :
  let l := (run_logins sample_sha sample_idkey ToLower map_to_list guessing {| db := started.2; faults := [] |}).2 in
  guesses ToLower (login_key ToLower "admin" "192.0.2.1") l = 5%Z /\ (5 <= 5 * ((noon + 6 * minute - noon) / window + 1))%Z.
Proof.
  intros l. assert (Hg : guesses ToLower (login_key ToLower "admin" "192.0.2.1") l = 5%Z) by (vm_compute; reflexivity).
  split; [exact Hg|]. rewrite <- Hg.
  refine (guesses_bounded sample_sha sample_idkey ToLower map_to_list guessing {| db := started.2; faults := [] |} _ l
    (login_key ToLower "admin" "192.0.2.1") noon (noon + 6 * minute) (surjective_pairing _) _ _ _ _ _ _).
  - vm_compute. reflexivity.
  - split; vm_compute; congruence.
  - repeat first [apply SSorted_nil|apply SSorted_cons|apply Forall_nil; exact I|apply Forall_cons; split]; vm_compute; congruence.
  - repeat first [apply Forall_nil; exact I|apply Forall_cons; split; [split; vm_compute; congruence|]].
  - vm_compute. lia.
  - assert (E : forallb (fun p => match p.2 with ODenied _ => true | _ => false end) l = true) by (vm_compute; reflexivity).
    rewrite forallb_forall in E. apply Forall_forall. intros p Hp _. apply list_elem_of_In in Hp. specialize (E p Hp). destruct p.2; try discriminate E. eexists. reflexivity.
Defined.

(** A rotation torn by a fault and then repeated: it reports success, and the old session lives. *)
Example torn_rotation_keeps_session :
  let s1 := (Reconfigure (sample_config "battery staple") {| db := logged_in.2; faults := [None; None; Some "disk I/O error"] |}).1 in
  let '(s2, r) := Reconfigure (sample_config "battery staple") s1 in
  let '(_, who) := Authenticate sample_sha (noon + minute) (noon + minute) sample_token s2 in
  r = Ok tt /\ credentials (db s2) = Some ("admin", sample_hash "battery staple") /\ answer_of who = ODone.
Proof. vm_compute. repeat split. Qed.
