(* ===== verification/Forward.v ===== *)
(** * internal/auth: identities a reverse proxy asserts

    [forward.go]: the trusted networks and header policy of a generation, the identity read from a
    request whose direct peer is trusted, and the refusal of cross-site mutations. The mutex makes a
    generation one value, replaced whole by [Reconfigure]. SHA-256, [url.Parse] of an Origin (to its
    host) and [strings.EqualFold] are arguments. *)
From S2P Require Import Prelude RoutePath NetHttp NetIP Sql Database Auth.

Record ForwardConfig := {
  fc_TrustedProxies : list string; fc_UserHeader : string; fc_GroupsHeader : string; fc_AdminGroups : list string;
  fc_PrivilegedOperations : string }.
Record forwardGeneration := {
  fg_trusted : list Prefix; fg_userHeader : string; fg_groupsHeader : string; fg_adminGroups : gset string;
  fg_privilegedOperations : string }.

Definition parsePrefix (raw : string) : option Prefix :=
  match ParsePrefix raw with
  | Some p => Some (Masked p)
  | None => (fun a => PrefixFrom a (BitLen a)) <$> ParseAddr raw
  end.
Definition peerAddress (remote : string) : option Addr := '(host, _) ← SplitHostPort remote; ParseAddr host.
Definition contains (prefixes : list Prefix) (address : Addr) : bool := existsb (fun p => Contains_addr p address) prefixes.
Definition splitGroups (raw : string) : list string :=
  if String.eqb raw "" then []
  else List.filter (fun g => negb (String.eqb g "")) (map TrimSpace (Split "," raw)).

Definition or_default (v d : string) : string := if String.eqb v "" then d else v.

(** [Reconfigure]: the new generation; on an error the old one stays. *)
Definition read_trusted (raws : list string) : res string (list Prefix) :=
  res_mapM (fun raw => match parsePrefix raw with Some p => Ok p | None => Err ("auth: invalid trusted proxy " +:+ raw) end) raws.
Definition new_generation (cfg : ForwardConfig) : res string forwardGeneration :=
  let userHeader := or_default (fc_UserHeader cfg) "Remote-User" in
  let policy := or_default (fc_PrivilegedOperations cfg) "cli-only" in
  let! trusted := read_trusted (fc_TrustedProxies cfg) in
  guard! negb (Nat.eqb (length trusted) 0) else "auth: at least one trusted proxy is required";
  let groups := CanonicalHeaderKey (fc_GroupsHeader cfg) in
  let admins := list_to_set (fc_AdminGroups cfg) : gset string in
  guard! negb (String.eqb policy "admin-group" && (String.eqb groups "" || Nat.eqb (size admins) 0))
    else "auth: admin-group requires a groups header and at least one admin group";
  Ok {| fg_trusted := trusted; fg_userHeader := CanonicalHeaderKey userHeader; fg_groupsHeader := groups;
        fg_adminGroups := admins; fg_privilegedOperations := policy |}.
Definition forward_Reconfigure (cfg : ForwardConfig) (g : forwardGeneration) : forwardGeneration * res string unit :=
  match new_generation cfg with Ok g' => (g', Ok tt) | Err e => (g, Err e) end.
Definition zero_generation : forwardGeneration :=
  {| fg_trusted := []; fg_userHeader := ""; fg_groupsHeader := ""; fg_adminGroups := ∅; fg_privilegedOperations := "" |}.
Definition NewForward (cfg : ForwardConfig) : res string forwardGeneration :=
  let '(g, r) := forward_Reconfigure cfg zero_generation in let! _ := r in Ok g.

Section Forward.
Variable sha256 : string -> string.
Variable origin_host : string -> option string.           (* url.Parse(origin), its Host *)
Variable EqualFold : string -> string -> bool.

Definition session_id (username : string) : string := hex_encode (sha256 ("forward" +:+ String "000" username)).

Definition forward_Authenticate (g : forwardGeneration) (r : http_request) : res auth_error Identity :=
  match peerAddress (hr_remote r) with
  | None => Err ErrNoSession
  | Some peer =>
      if negb (contains (fg_trusted g) peer) then Err ErrNoSession
      else
        let username := TrimSpace (header_Get (hr_headers r) (fg_userHeader g)) in
        if String.eqb username "" || (256 <? String.length username)%nat then Err ErrNoSession
        else
          let groups := splitGroups (header_Get (hr_headers r) (fg_groupsHeader g)) in
          Ok {| id_Username := username; id_SessionID := session_id username; id_Mode := "forward";
                id_Admin := existsb (fun x => bool_decide (x ∈ fg_adminGroups g)) groups; id_Groups := groups |}
  end.

Definition forward_AllowsPrivileged (g : forwardGeneration) (identity : Identity) : bool :=
  String.eqb (fg_privilegedOperations g) "admin-group" && id_Admin identity.

Definition CheckMutation (r : http_request) : res auth_error unit :=
  if EqualFold (header_Get (hr_headers r) "Sec-Fetch-Site") "cross-site" then Err ErrCSRF
  else
    let origin := header_Get (hr_headers r) "Origin" in
    if String.eqb origin "" then Ok tt
    else match origin_host origin with
         | Some h => if EqualFold h (hr_host r) then Ok tt else Err ErrCSRF
         | None => Err ErrCSRF
         end.
End Forward.

(** ** Lemmas *)

(** The network a configured proxy denotes: a prefix's block, or one address, whose zone is dropped. *)
Definition in_network (raw : string) (a : Addr) : Prop :=
  (exists p, ParsePrefix raw = Some p /\ Contains_addr p a = true)
  \/ ParsePrefix raw = None /\ exists p, ParseAddr raw = Some p /\ a = {| ad_v6 := ad_v6 p; ad_bits := ad_bits p; ad_zone := "" |}.

Lemma parsePrefix_network raw p a : parsePrefix raw = Some p -> Contains_addr p a = true <-> in_network raw a.
Proof.
  unfold parsePrefix, in_network. destruct (ParsePrefix raw) as [q|] eqn:E.
  - intros [= <-]. rewrite Masked_contains by (by eapply ParsePrefix_bits). naive_solver.
  - intros (b & Hb & ->)%fmap_Some. rewrite full_prefix, Hb. naive_solver.
Qed.

Lemma read_trusted_contains raws ps a : read_trusted raws = Ok ps ->
  contains ps a = true <-> exists raw, raw ∈ raws /\ in_network raw a.
Proof.
  unfold read_trusted, contains. intros H%res_mapM_Ok. rewrite existsb_elem. split.
  - intros (p & Hp & Hc). apply list_elem_of_lookup_1 in Hp as [i Hi].
    destruct (Forall2_lookup_r _ _ _ _ _ H Hi) as (raw & Hr & Hf). exists raw. split; [by eapply list_elem_of_lookup_2|].
    destruct (parsePrefix raw) as [q|] eqn:E; [|done]. injection Hf as ->. by apply (parsePrefix_network raw p).
  - intros (raw & Hr & Hn). apply list_elem_of_lookup_1 in Hr as [i Hi].
    destruct (Forall2_lookup_l _ _ _ _ _ H Hi) as (p & Hp & Hf). exists p. split; [by eapply list_elem_of_lookup_2|].
    destruct (parsePrefix raw) as [q|] eqn:E; [|done]. injection Hf as ->. by apply (parsePrefix_network raw p).
Qed.

Record trusted_identity (cfg : ForwardConfig) (r : http_request) (i : Identity) : Prop := {
  ti_peer : exists host port peer raw, SplitHostPort (hr_remote r) = Some (host, port) /\ ParseAddr host = Some peer
    /\ raw ∈ fc_TrustedProxies cfg /\ in_network raw peer;
  ti_user : id_Username i = TrimSpace (header_Get (hr_headers r) (CanonicalHeaderKey (or_default (fc_UserHeader cfg) "Remote-User")));
  ti_size : id_Username i <> "" /\ String.length (id_Username i) <= 256;
  ti_mode : id_Mode i = "forward";
  ti_admin : id_Admin i = true <-> exists g, g ∈ id_Groups i /\ g ∈ fc_AdminGroups cfg }.

(** An identity is asserted by a peer inside a configured network, whose headers name it. *)
Lemma forward_Authenticate_sound sha256 cfg g r i : new_generation cfg = Ok g ->
  forward_Authenticate sha256 g r = Ok i -> trusted_identity cfg r i.
Proof.
  intros Hg H. unfold new_generation in Hg. apply res_bind_Ok in Hg as (ps & Hps & Hg).
  apply guard_Ok in Hg as [_ Hg]. cbv zeta in Hg. apply guard_Ok in Hg as [_ [= <-]].
  unfold forward_Authenticate in H. cbn [fg_trusted fg_userHeader fg_groupsHeader fg_adminGroups] in H.
  destruct (peerAddress (hr_remote r)) as [peer|] eqn:Hp; [|done].
  destruct (contains ps peer) eqn:Hc; [|done]. cbn [negb] in H. cbv zeta in H.
  destruct (String.eqb_spec (TrimSpace (header_Get (hr_headers r) (CanonicalHeaderKey (or_default (fc_UserHeader cfg) "Remote-User")))) "") as [|Hu]; [done|].
  destruct (Nat.ltb_spec 256 (String.length (TrimSpace (header_Get (hr_headers r) (CanonicalHeaderKey (or_default (fc_UserHeader cfg) "Remote-User"))))));
    [done|]. injection H as <-.
  apply (read_trusted_contains _ _ _ Hps) in Hc as (raw & Hr & Hn).
  unfold peerAddress in Hp. destruct (SplitHostPort (hr_remote r)) as [[host port]|] eqn:Hs; [|done].
  split; cbn [id_Username id_Mode id_Admin id_Groups]; [by exists host, port, peer, raw|done|by split|done|].
  rewrite existsb_elem. setoid_rewrite bool_decide_eq_true. setoid_rewrite elem_of_list_to_set. done.
Qed.

Lemma CheckMutation_Ok origin_host EqualFold r : CheckMutation origin_host EqualFold r = Ok tt ->
  EqualFold (header_Get (hr_headers r) "Sec-Fetch-Site") "cross-site" = false
  /\ (header_Get (hr_headers r) "Origin" <> "" ->
      exists h, origin_host (header_Get (hr_headers r) "Origin") = Some h /\ EqualFold h (hr_host r) = true).
Proof.
  unfold CheckMutation. destruct (EqualFold _ "cross-site"); [done|].
  destruct (String.eqb_spec (header_Get (hr_headers r) "Origin") ""); [done|].
  destruct (origin_host _) as [h|]; [|done]. destruct (EqualFold h (hr_host r)) eqn:E; [|done]. eauto.
Qed.

(** A proxy configured by a link-local address with its zone is accepted and never recognised. *)
Definition sample_forward : ForwardConfig :=
  {| fc_TrustedProxies := ["fe80::1%eth0"; "10.0.0.0/8"]; fc_UserHeader := ""; fc_GroupsHeader := "remote-groups";
     fc_AdminGroups := ["admins"]; fc_PrivilegedOperations := "admin-group" |}.
Definition sample_http (method path remote : string) (headers : Header) (cookies : list (string * string)) : http_request :=
  {| hr_method := method; hr_path := path; hr_escaped := path; hr_query := ∅; hr_host := "dash.example"; hr_remote := remote; hr_tls := true;
     hr_headers := headers; hr_cookies := cookies; hr_body := "" |}.
Definition forwarded : Header := {["Remote-User" := [" ann "]; "Remote-Groups" := ["staff, admins"]]}.
Definition forward_user (remote : string) : option (string * bool) :=
  match new_generation sample_forward with
  | Ok g => match forward_Authenticate (fun s => s) g (sample_http "GET" "/api/v1/cards" remote forwarded []) with
            | Ok i => Some (id_Username i, id_Admin i)
            | Err _ => None
            end
  | Err _ => None
  end.
Example forward_samples : map forward_user ["10.1.2.3:4711"; "[fe80::1%eth0]:4711"; "[fe80::1]:4711"; "192.0.2.1:4711"; "10.1.2.3"]
  = [Some ("ann", true); None; Some ("ann", true); None; None].
Proof. vm_compute. reflexivity. Qed.
