(* ===== verification/Sse.v ===== *)
(** * internal/api/sse.go: the event stream

    A hub numbers every card state and configuration change, keeps the last of them for clients
    that reconnect, and hands each to the buffer of every connected client; a client whose buffer is
    full is dropped. Each operation runs under the hub's mutex and is one step here; between them
    the handlers take events out of their buffers. *)
From S2P Require Import Prelude.

Definition replaySize : nat := 256.
Definition maxSSEClients : nat := 128.
Definition maxSSEClientsPerSession : Z := 4.

Record sseEvent := { ev_id : string; ev_event : string; ev_data : string }.

(** A channel of a client: what is buffered and whether it is closed. *)
Record Chan := { cn_buf : list sseEvent; cn_closed : bool }.
Definition chan_size : nat := 32.

(** [sseHub]; channels are numbered as they are made. *)
Record sseHub := {
  hub_nonce : string; hub_next : Z; hub_ring : list sseEvent;
  hub_clients : gmap nat string; hub_sessions : gmap string Z;
  hub_chans : gmap nat Chan; hub_fresh : nat }.

Definition newSSEHub (nonce : string) : sseHub :=
  {| hub_nonce := nonce; hub_next := 0; hub_ring := []; hub_clients := ∅; hub_sessions := ∅; hub_chans := ∅; hub_fresh := 0 |}.

Definition with_chans (f : gmap nat Chan -> gmap nat Chan) (h : sseHub) : sseHub :=
  {| hub_nonce := hub_nonce h; hub_next := hub_next h; hub_ring := hub_ring h; hub_clients := hub_clients h;
     hub_sessions := hub_sessions h; hub_chans := f (hub_chans h); hub_fresh := hub_fresh h |}.

Definition count_of (m : gmap string Z) (s : string) : Z := default 0%Z (m !! s).
Definition release (session : string) (m : gmap string Z) : gmap string Z :=
  let n := (count_of m session - 1)%Z in if (n <=? 0)%Z then delete session m else <[session := n]> m.
Definition close_chan (c : Chan) : Chan := {| cn_buf := cn_buf c; cn_closed := true |}.

Definition removeClient (ch : nat) (h : sseHub) : sseHub :=
  match hub_clients h !! ch with
  | None => h
  | Some sessionID =>
      {| hub_nonce := hub_nonce h; hub_next := hub_next h; hub_ring := hub_ring h; hub_clients := delete ch (hub_clients h);
         hub_sessions := if String.eqb sessionID "" then hub_sessions h else release sessionID (hub_sessions h);
         hub_chans := alter close_chan ch (hub_chans h); hub_fresh := hub_fresh h |}
  end.

(** The [select] on one client's channel; different clients' do not touch each other, whatever the
    order a map is ranged in. *)
Definition deliver (e : sseEvent) (h : sseHub) (ch : nat) : sseHub :=
  match hub_chans h !! ch with
  | Some c => if Nat.ltb (length (cn_buf c)) chan_size
              then with_chans (<[ch := {| cn_buf := cn_buf c ++ [e]; cn_closed := cn_closed c |}]>) h
              else removeClient ch h
  | None => h
  end.

(** The events past the last [replaySize] are cut off. *)
Definition trim_ring (l : list sseEvent) : list sseEvent := drop (length l - replaySize) l.
Definition next_event (event data : string) (h : sseHub) : sseEvent :=
  {| ev_id := hub_nonce h +:+ "-" +:+ decimal ((hub_next h + 1) mod 2 ^ 64); ev_event := event; ev_data := data |}.
Definition append_event (e : sseEvent) (h : sseHub) : sseHub :=
  {| hub_nonce := hub_nonce h; hub_next := (hub_next h + 1) mod 2 ^ 64; hub_ring := trim_ring (hub_ring h ++ [e]);
     hub_clients := hub_clients h; hub_sessions := hub_sessions h; hub_chans := hub_chans h; hub_fresh := hub_fresh h |}.
Definition broadcast (event data : string) (h : sseHub) : sseHub :=
  let e := next_event event data h in
  foldl (deliver e) (append_event e h) (map fst (map_to_list (hub_clients h))).

(** [state] is the state's JSON, and empty when it does not marshal. *)
Definition publish (state : res string string) (h : sseHub) : sseHub :=
  broadcast "card" (match state with Ok s => s | Err _ => "" end) h.
Definition dquote : string := String "034" "".
Definition publishConfig (generation : Z) (h : sseHub) : sseHub :=
  broadcast "config" ("{" +:+ dquote +:+ "generation" +:+ dquote +:+ ":" +:+ decimal generation +:+ "}") h.

(** The index after the first event of that id. *)
Fixpoint after_id (last : string) (l : list sseEvent) : option nat :=
  match l with
  | [] => None
  | e :: r => if String.eqb (ev_id e) last then Some 1 else S <$> after_id last r
  end.

Record Subscription := { sb_replay : list sseEvent; sb_ch : nat; sb_reset : bool }.

(** [None] is a refusal. *)
Definition subscribe (last sessionID : string) (h : sseHub) : sseHub * option Subscription :=
  if Nat.leb maxSSEClients (size (hub_clients h))
     || negb (String.eqb sessionID "") && (maxSSEClientsPerSession <=? count_of (hub_sessions h) sessionID)%Z
  then (h, None)
  else
    let '(reset, start) :=
      if String.eqb last "" then (true, length (hub_ring h))
      else match after_id last (hub_ring h) with
           | Some n => (false, n)
           | None => (true, length (hub_ring h))
           end in
    let ch := hub_fresh h in
    ({| hub_nonce := hub_nonce h; hub_next := hub_next h; hub_ring := hub_ring h; hub_clients := <[ch := sessionID]> (hub_clients h);
        hub_sessions := if String.eqb sessionID "" then hub_sessions h
                        else <[sessionID := (count_of (hub_sessions h) sessionID + 1)%Z]> (hub_sessions h);
        hub_chans := <[ch := {| cn_buf := []; cn_closed := false |}]> (hub_chans h); hub_fresh := S ch |},
     Some {| sb_replay := drop start (hub_ring h); sb_ch := ch; sb_reset := reset |}).

(** A receive from a client's channel that does not block: an event, or none because it is closed
    and empty. *)
Definition receive (ch : nat) (h : sseHub) : option (sseHub * option sseEvent) :=
  c ← hub_chans h !! ch;
  match cn_buf c with
  | e :: r => Some (with_chans (<[ch := {| cn_buf := r; cn_closed := cn_closed c |}]>) h, Some e)
  | [] => if cn_closed c then Some (h, None) else None
  end.

(** ** The wire *)

Definition newline : string := String "010" "".
Definition writeSSE (event id data : string) : string :=
  (if String.eqb id "" then "" else "id: " +:+ id +:+ newline)
  +:+ "event: " +:+ event +:+ newline
  +:+ String.concat "" (map (fun line => "data: " +:+ line +:+ newline) (Split "010" data))
  +:+ newline.
Definition write_event (e : sseEvent) : string := writeSSE (ev_event e) (ev_id e) (ev_data e).
(** What the handler writes when a stream opens. *)
Definition opening (s : Subscription) : list string :=
  (if sb_reset s then [writeSSE "reset" "" "{}"] else []) ++ map write_event (sb_replay s).

(** ** The system

    [lg] is everything published; of each stream it is recorded what it resumed from, whether it was
    told to reset, where in the log it begins and what its handler has written to it. *)

Record Stream := { st_last : string; st_reset : bool; st_from : nat; st_got : list sseEvent }.
Record Sys := { sy_hub : sseHub; sy_log : list sseEvent; sy_streams : gmap nat Stream }.

Definition opened (last : string) (s : Subscription) (log : list sseEvent) : Stream :=
  {| st_last := last; st_reset := sb_reset s; st_from := length log - length (sb_replay s); st_got := sb_replay s |}.
Definition read_on (e : sseEvent) (s : Stream) : Stream :=
  {| st_last := st_last s; st_reset := st_reset s; st_from := st_from s; st_got := st_got s ++ [e] |}.

Inductive sse_step : Sys -> Sys -> Prop :=
| SseBroadcast event data y :
    sse_step y {| sy_hub := broadcast event data (sy_hub y); sy_log := sy_log y ++ [next_event event data (sy_hub y)]; sy_streams := sy_streams y |}
| SseSubscribe last sessionID y h' s : subscribe last sessionID (sy_hub y) = (h', Some s) ->
    sse_step y {| sy_hub := h'; sy_log := sy_log y; sy_streams := <[sb_ch s := opened last s (sy_log y)]> (sy_streams y) |}
| SseReceive ch y h' e : receive ch (sy_hub y) = Some (h', Some e) ->
    sse_step y {| sy_hub := h'; sy_log := sy_log y; sy_streams := alter (read_on e) ch (sy_streams y) |}
| SseDone ch y :
    sse_step y {| sy_hub := removeClient ch (sy_hub y); sy_log := sy_log y; sy_streams := sy_streams y |}.

Definition sse_start (nonce : string) : Sys := {| sy_hub := newSSEHub nonce; sy_log := []; sy_streams := ∅ |}.

(** ** Lemmas *)

(** *** The slots of sessions *)

Definition streams_of (s : string) (m : gmap nat string) : nat := size (filter (fun p => p.2 = s) m).
Record slots_ok (h : sseHub) : Prop := {
  sl_count : forall s, s <> "" -> count_of (hub_sessions h) s = Z.of_nat (streams_of s (hub_clients h));
  sl_none : forall s n, hub_sessions h !! s = Some n -> s <> "" /\ (0 < n)%Z;
  sl_clients : size (hub_clients h) <= maxSSEClients;
  sl_session : forall s, s <> "" -> (count_of (hub_sessions h) s <= maxSSEClientsPerSession)%Z }.

Lemma streams_of_delete s ch s0 m : m !! ch = Some s0 ->
  Z.of_nat (streams_of s (delete ch m)) = (Z.of_nat (streams_of s m) - if String.eqb s s0 then 1 else 0)%Z.
Proof.
  intros H. unfold streams_of. rewrite map_filter_delete. destruct (String.eqb_spec s s0) as [->|Hne].
  - assert (Hf : filter (fun p : nat * string => p.2 = s0) m !! ch = Some s0) by (by apply map_lookup_filter_Some).
    rewrite (map_size_delete_Some _ _ (mk_is_Some _ _ Hf)).
    assert (size (filter (fun p : nat * string => p.2 = s0) m) <> 0) by (intros E%map_size_empty_inv; by rewrite E, lookup_empty in Hf). lia.
  - rewrite delete_id; [lia|]. apply map_lookup_filter_None. right. intros x Hx. simpl. congruence.
Qed.
Lemma streams_of_insert s ch s0 m : m !! ch = None ->
  Z.of_nat (streams_of s (<[ch := s0]> m)) = (Z.of_nat (streams_of s m) + if String.eqb s s0 then 1 else 0)%Z.
Proof.
  intros H. pose proof (streams_of_delete s ch s0 (<[ch := s0]> m) (lookup_insert_eq _ _ _)) as E. rewrite delete_insert_id in E by done. lia.
Qed.

Lemma count_of_release s s0 m : count_of (release s0 m) s = if String.eqb s s0 then Z.max 0 (count_of m s0 - 1) else count_of m s.
Proof.
  unfold release, count_of. cbv zeta. destruct (String.eqb_spec s s0) as [->|Hne]; destruct (Z.leb_spec (default 0 (m !! s0) - 1)%Z 0%Z).
  - rewrite lookup_delete_eq. simpl. lia.
  - rewrite lookup_insert_eq. simpl. lia.
  - by rewrite lookup_delete_ne.
  - by rewrite lookup_insert_ne.
Qed.

Lemma slots_removeClient ch h : slots_ok h -> slots_ok (removeClient ch h).
Proof.
  intros [H1 H2 H3 H4]. unfold removeClient. destruct (hub_clients h !! ch) as [s0|] eqn:E; [|done].
  assert (Hcount : forall s, s <> "" -> count_of (if String.eqb s0 "" then hub_sessions h else release s0 (hub_sessions h)) s
    = Z.of_nat (streams_of s (delete ch (hub_clients h)))).
  { intros s Hs. rewrite (streams_of_delete s ch s0) by done. pose proof (streams_of_delete s ch s0 _ E). rewrite <- (H1 s Hs) in *.
    destruct (String.eqb_spec s0 "") as [->|Hne].
    - destruct (String.eqb_spec s ""); [done|]. lia.
    - rewrite count_of_release. destruct (String.eqb_spec s s0) as [->|]; lia. }
  split; simpl.
  - done.
  - destruct (String.eqb_spec s0 ""); [done|]. intros s k. unfold release. cbv zeta. destruct (Z.leb_spec (count_of (hub_sessions h) s0 - 1) 0).
    + intros [_ Hk]%lookup_delete_Some. by apply H2.
    + intros [[<- <-]|[_ Hk]]%lookup_insert_Some; [done|by apply H2].
  - rewrite (map_size_delete_Some _ _ (mk_is_Some _ _ E)). lia.
  - intros s Hs. rewrite Hcount by done. pose proof (streams_of_delete s ch s0 _ E). specialize (H4 s Hs). rewrite (H1 s Hs) in H4.
    destruct (String.eqb s s0); lia.
Qed.

Lemma slots_deliver e h ch : slots_ok h -> slots_ok (deliver e h ch).
Proof. unfold deliver. intros H. destruct (hub_chans h !! ch); [|done]. destruct (Nat.ltb _ _); [by destruct H|by apply slots_removeClient]. Qed.
Lemma slots_broadcast event data h : slots_ok h -> slots_ok (broadcast event data h).
Proof.
  intros H. unfold broadcast. generalize (map fst (map_to_list (hub_clients h))). set (e := next_event event data h). clearbody e.
  assert (H1 : slots_ok (append_event e h)) by (by destruct H). revert H1. generalize (append_event e h). clear.
  intros h H l. revert h H. induction l as [|ch l IH]; intros h H; [done|]. simpl. apply IH. by apply slots_deliver.
Qed.

Lemma slots_subscribe last sessionID h h' s : subscribe last sessionID h = (h', Some s) -> hub_clients h !! hub_fresh h = None ->
  slots_ok h -> slots_ok h'.
Proof.
  intros H Hf [H1 H2 H3 H4]. unfold subscribe in H. destruct (_ || _) eqn:Eb; [done|]. apply orb_false_iff in Eb as [Esz Ess].
  apply Nat.leb_gt in Esz. destruct (if String.eqb last "" then _ else _) as [reset start]. injection H as <- _.
  assert (Hcount : forall s, s <> "" -> count_of (if String.eqb sessionID "" then hub_sessions h
      else <[sessionID := (count_of (hub_sessions h) sessionID + 1)%Z]> (hub_sessions h)) s
    = Z.of_nat (streams_of s (<[hub_fresh h := sessionID]> (hub_clients h)))).
  { intros s' Hs. rewrite streams_of_insert by done. rewrite <- (H1 s' Hs). destruct (String.eqb_spec sessionID "") as [->|Hne].
    - destruct (String.eqb_spec s' ""); [done|lia].
    - unfold count_of. destruct (String.eqb_spec s' sessionID) as [->|]; [by rewrite lookup_insert_eq|rewrite lookup_insert_ne by done; lia]. }
  split; simpl.
  - done.
  - destruct (String.eqb_spec sessionID ""); [done|]. intros s' k [[<- <-]|[_ Hk]]%lookup_insert_Some; [|by apply H2].
    split; [done|]. rewrite (H1 _ n). lia.
  - rewrite map_size_insert, Hf. simpl. lia.
  - intros s' Hs. rewrite Hcount by done. rewrite streams_of_insert by done. specialize (H4 s' Hs). rewrite (H1 s' Hs) in H4.
    destruct (String.eqb_spec s' sessionID) as [->|]; [|lia]. destruct (String.eqb_spec sessionID ""); [done|]. simpl in Ess.
    apply Z.leb_gt in Ess. rewrite (H1 _ Hs) in Ess. lia.
Qed.

(** *** What a broadcast does to each client *)

(** The channel of a client after an event: it is in the buffer, or the client is dropped. *)
Definition delivered (e : sseEvent) (h h' : sseHub) (ch : nat) : Prop :=
  match hub_clients h !! ch, hub_chans h !! ch with
  | Some s, Some c =>
      if Nat.ltb (length (cn_buf c)) chan_size
      then hub_clients h' !! ch = Some s /\ hub_chans h' !! ch = Some {| cn_buf := cn_buf c ++ [e]; cn_closed := cn_closed c |}
      else hub_clients h' !! ch = None /\ hub_chans h' !! ch = Some (close_chan c)
  | None, _ => hub_clients h' !! ch = None /\ hub_chans h' !! ch = hub_chans h !! ch
  | Some _, None => True
  end.

Definition same_at (h h' : sseHub) (ch : nat) : Prop := hub_clients h' !! ch = hub_clients h !! ch /\ hub_chans h' !! ch = hub_chans h !! ch.
Definition same_log (h h' : sseHub) : Prop :=
  hub_nonce h' = hub_nonce h /\ hub_next h' = hub_next h /\ hub_ring h' = hub_ring h /\ hub_fresh h' = hub_fresh h.

Lemma removeClient_other ch ch' h : ch <> ch' -> same_at h (removeClient ch h) ch'.
Proof. intros Hne. unfold removeClient, same_at. destruct (hub_clients h !! ch); [|done]. simpl. by rewrite lookup_delete_ne, lookup_alter_ne. Qed.
Lemma removeClient_log ch h : same_log h (removeClient ch h).
Proof. unfold removeClient. by destruct (hub_clients h !! ch). Qed.
Lemma deliver_other e ch ch' h : ch <> ch' -> same_at h (deliver e h ch) ch'.
Proof.
  intros Hne. unfold deliver. destruct (hub_chans h !! ch); [|done]. destruct (Nat.ltb _ _); [|by apply removeClient_other].
  unfold same_at. simpl. by rewrite lookup_insert_ne.
Qed.
Lemma deliver_log e h ch : same_log h (deliver e h ch).
Proof. unfold deliver. destruct (hub_chans h !! ch); [|done]. destruct (Nat.ltb _ _); [done|apply removeClient_log]. Qed.
Lemma deliver_self e h ch s : hub_clients h !! ch = Some s -> delivered e h (deliver e h ch) ch.
Proof.
  intros Hs. unfold delivered, deliver. rewrite Hs. destruct (hub_chans h !! ch) as [c|] eqn:Ec; [|done].
  destruct (Nat.ltb _ _); simpl; [by rewrite lookup_insert_eq|]. unfold removeClient. rewrite Hs. simpl.
  by rewrite lookup_delete_eq, lookup_alter_eq, Ec.
Qed.

Lemma deliver_all e l h : NoDup l ->
  same_log h (foldl (deliver e) h l)
  /\ (forall ch, ch ∉ l -> same_at h (foldl (deliver e) h l) ch)
  /\ (forall ch, ch ∈ l -> is_Some (hub_clients h !! ch) -> delivered e h (foldl (deliver e) h l) ch).
Proof.
  intros Hl. revert h. induction Hl as [|ch l Hnin Hl IH]; intros h; simpl; [split; [done|]; split; [done|]; by intros ? ?%elem_of_nil|].
  destruct (IH (deliver e h ch)) as (I1 & I2 & I3). pose proof (deliver_log e h ch) as Hd. split; [unfold same_log in *; intuition congruence|]. split.
  - intros ch' [Hne Hn]%not_elem_of_cons. pose proof (deliver_other e ch ch' h (not_eq_sym Hne)) as [D1 D2]. destruct (I2 ch' Hn) as [E1 E2].
    split; congruence.
  - intros ch' [->|Hin]%elem_of_cons [s Hs].
    + pose proof (deliver_self e h ch s Hs) as D. destruct (I2 ch Hnin) as [E1 E2]. unfold delivered in *. rewrite Hs in *.
      destruct (hub_chans h !! ch); [|done]. destruct (Nat.ltb _ _); intuition congruence.
    + assert (Hne : ch <> ch') by (intros ->; done). pose proof (deliver_other e ch ch' h Hne) as [D1 D2].
      specialize (I3 ch' Hin). rewrite D1 in I3. specialize (I3 (mk_is_Some _ _ Hs)). unfold delivered in *. by rewrite D1, D2 in I3.
Qed.

Lemma broadcast_effect event data h :
  let e := next_event event data h in let h' := broadcast event data h in
  same_log (append_event e h) h' /\ forall ch, delivered e h h' ch.
Proof.
  cbv zeta. set (e := next_event event data h). unfold broadcast. fold e. set (l := map fst _).
  assert (Hnd : NoDup l) by apply NoDup_fst_map_to_list.
  destruct (deliver_all e l (append_event e h) Hnd) as (H1 & H2 & H3). split; [done|]. intros ch.
  destruct (decide (is_Some (hub_clients h !! ch))) as [Hs|Hn].
  - destruct Hs as [s Hs]. apply (H3 ch); [|by eexists]. apply elem_of_map. exists (ch, s). split; [done|]. by apply elem_of_map_to_list.
  - destruct (H2 ch) as [E1 E2].
    { intros ([k s] & -> & Hin)%elem_of_map. apply Hn. simpl. apply elem_of_map_to_list in Hin. by eexists. }
    unfold delivered. apply eq_None_not_Some in Hn. rewrite Hn. simpl in E1, E2. by rewrite E1, E2.
Qed.

(** *** The invariant *)

Definition event_id (nonce : string) (n : nat) : string := nonce +:+ "-" +:+ decimal (Z.of_nat n mod 2 ^ 64).

(** The handler and its buffer hold an unbroken run of the log; while the client is connected it
    reaches to the end. *)
Definition run_of (log : list sseEvent) (st : Stream) (c : Chan) : Prop :=
  exists rest, drop (st_from st) log = st_got st ++ cn_buf c ++ rest /\ (cn_closed c = false -> rest = []) /\ st_from st <= length log.
Definition resumes (log : list sseEvent) (st : Stream) : Prop :=
  st_reset st = false -> exists i e, st_from st = S i /\ log !! i = Some e /\ ev_id e = st_last st.

Record sys_ok (nonce : string) (y : Sys) : Prop := {
  so_nonce : hub_nonce (sy_hub y) = nonce;
  so_ring : hub_ring (sy_hub y) = trim_ring (sy_log y);
  so_next : hub_next (sy_hub y) = (Z.of_nat (length (sy_log y)) mod 2 ^ 64)%Z;
  so_ids : forall i e, sy_log y !! i = Some e -> ev_id e = event_id nonce (S i);
  so_slots : slots_ok (sy_hub y);
  so_fresh : forall ch, hub_fresh (sy_hub y) <= ch -> hub_chans (sy_hub y) !! ch = None;
  so_open : forall ch, is_Some (hub_clients (sy_hub y) !! ch) <-> exists c, hub_chans (sy_hub y) !! ch = Some c /\ cn_closed c = false;
  so_stream : forall ch st, sy_streams y !! ch = Some st -> is_Some (hub_chans (sy_hub y) !! ch) /\ resumes (sy_log y) st;
  so_chan : forall ch c, hub_chans (sy_hub y) !! ch = Some c -> length (cn_buf c) <= chan_size
    /\ exists st, sy_streams y !! ch = Some st /\ run_of (sy_log y) st c }.

Lemma trim_ring_snoc l e : trim_ring (trim_ring l ++ [e]) = trim_ring (l ++ [e]).
Proof.
  unfold trim_ring. rewrite <- (drop_app_le l [e] (length l - replaySize)) by lia. rewrite drop_drop, !length_drop, !length_app. f_equal. simpl. lia.
Qed.

Lemma resumes_later log e st : resumes log st -> resumes (log ++ [e]) st.
Proof. intros H Hr. destruct (H Hr) as (i & e0 & H1 & H2 & H3). exists i, e0. split; [done|]. split; [by apply lookup_app_l_Some|done]. Qed.

Lemma run_of_closed log e st c c' : cn_buf c' = cn_buf c -> cn_closed c' = true -> run_of log st c -> run_of (log ++ [e]) st c'.
Proof.
  intros Eb Ec (rest & H & _ & Hl). exists (rest ++ [e]). rewrite Eb, Ec, drop_app_le, H, <- !app_assoc, length_app by done. simpl. split; [done|]. split; [done|lia].
Qed.
Lemma run_of_push log e st c : cn_closed c = false -> run_of log st c -> run_of (log ++ [e]) st {| cn_buf := cn_buf c ++ [e]; cn_closed := cn_closed c |}.
Proof.
  intros Ec (rest & H & Hr & Hl). exists []. rewrite (Hr Ec) in H. rewrite drop_app_le, H, length_app by done. simpl.
  rewrite !app_nil_r, <- !app_assoc. split; [done|]. split; [done|lia].
Qed.

Lemma sys_broadcast nonce event data y : sys_ok nonce y ->
  sys_ok nonce {| sy_hub := broadcast event data (sy_hub y); sy_log := sy_log y ++ [next_event event data (sy_hub y)]; sy_streams := sy_streams y |}.
Proof.
  intros [H1 H2 H3 H4 H5 H6 H7 H8 H9]. set (e := next_event event data (sy_hub y)).
  destruct (broadcast_effect event data (sy_hub y)) as ((E1 & E2 & E3 & E4) & Hd). fold e in E1, E2, E3, E4, Hd. simpl in E1, E2, E3, E4.
  assert (Hnext : ((hub_next (sy_hub y) + 1) mod 2 ^ 64 = Z.of_nat (S (length (sy_log y))) mod 2 ^ 64)%Z).
  { rewrite H3, Z.add_mod_idemp_l by lia. f_equal. lia. }
  assert (Hchan : forall ch c', hub_chans (broadcast event data (sy_hub y)) !! ch = Some c' -> exists c, hub_chans (sy_hub y) !! ch = Some c
    /\ (cn_closed c = false /\ Nat.ltb (length (cn_buf c)) chan_size = true /\ c' = {| cn_buf := cn_buf c ++ [e]; cn_closed := cn_closed c |}
          /\ is_Some (hub_clients (broadcast event data (sy_hub y)) !! ch)
        \/ cn_closed c' = true /\ cn_buf c' = cn_buf c /\ hub_clients (broadcast event data (sy_hub y)) !! ch = None)).
  { intros ch c' Hc'. specialize (Hd ch). unfold delivered in Hd. destruct (hub_clients (sy_hub y) !! ch) as [s|] eqn:Es.
    - destruct (proj1 (H7 ch) (mk_is_Some _ _ Es)) as (c & Hc & Hopen). rewrite Hc in Hd. exists c. split; [done|].
      destruct (Nat.ltb _ _); destruct Hd as [D1 D2]; rewrite D2 in Hc'; injection Hc' as <-; [left|right; by rewrite D1].
      rewrite D1. repeat split; first [done|by eexists].
    - destruct Hd as [D1 D2]. rewrite D2 in Hc'. exists c'. split; [done|]. right. split; [|done]. destruct (cn_closed c') eqn:Ec; [done|].
      destruct (proj2 (H7 ch) (ex_intro _ c' (conj Hc' Ec))) as [? ?]. congruence. }
  split; cbn [sy_hub sy_log sy_streams].
  - by rewrite E1.
  - by rewrite E3, H2, trim_ring_snoc.
  - by rewrite E2, Hnext, length_app, Nat.add_1_r.
  - intros i e0 [Hi|[Hi He]]%lookup_app_Some; [by apply H4|]. destruct (i - length (sy_log y)) eqn:Ei; [|done]. injection He as <-.
    unfold e, next_event, event_id. simpl. rewrite Hnext, H1. by replace i with (length (sy_log y)) by lia.
  - by apply slots_broadcast.
  - intros ch Hch. rewrite E4 in Hch. destruct (hub_chans (broadcast event data (sy_hub y)) !! ch) eqn:Ec; [|done].
    destruct (Hchan _ _ Ec) as (c0 & Hc & _). rewrite H6 in Hc by done. done.
  - intros ch. split.
    + intros Hs. specialize (Hd ch). unfold delivered in Hd. destruct (hub_clients (sy_hub y) !! ch) as [s|] eqn:Es.
      * destruct (proj1 (H7 ch) (mk_is_Some _ _ Es)) as (c & Hc & Hopen). rewrite Hc in Hd.
        destruct (Nat.ltb _ _); destruct Hd as [D1 D2]; [by eexists|rewrite D1 in Hs; by destruct Hs].
      * destruct Hd as [D1 _]. rewrite D1 in Hs. by destruct Hs.
    + intros (c' & Hc' & Ho). destruct (Hchan _ _ Hc') as (c & _ & [(_ & _ & _ & H)|(H & _)]); [done|congruence].
  - intros ch st Hst. destruct (H8 ch st Hst) as [[c Hc] Hr]. split; [|by apply resumes_later].
    specialize (Hd ch). unfold delivered in Hd. rewrite Hc in Hd. destruct (hub_clients (sy_hub y) !! ch).
    + destruct (Nat.ltb _ _); destruct Hd as [_ ->]; by eexists.
    + destruct Hd as [_ ->]. by eexists.
  - intros ch c' Hc'. destruct (Hchan _ _ Hc') as (c & Hc & Hcase). destruct (H9 ch c Hc) as (Hlen & st & Hst & Hrun).
    destruct Hcase as [(Ho & Hlt & -> & _)|(Hcl & Hb & _)].
    + split; [apply Nat.ltb_lt in Hlt; simpl; rewrite length_app; simpl; lia|]. exists st. split; [done|]. by apply run_of_push.
    + split; [by rewrite Hb|]. exists st. split; [done|]. by eapply run_of_closed.
Qed.

Lemma after_id_spec last l n : after_id last l = Some n -> exists i e, n = S i /\ l !! i = Some e /\ ev_id e = last.
Proof.
  revert n; induction l as [|e l IH]; intros n; simpl; [done|]. destruct (String.eqb_spec (ev_id e) last) as [<-|]; [by intros [= <-]; exists 0, e|].
  destruct (after_id last l) as [m|]; [|done]. intros [= <-]. destruct (IH m eq_refl) as (i & e' & -> & H1 & H2). by exists (S i), e'.
Qed.

Lemma sys_subscribe nonce last sessionID y h' s : subscribe last sessionID (sy_hub y) = (h', Some s) -> sys_ok nonce y ->
  sys_ok nonce {| sy_hub := h'; sy_log := sy_log y; sy_streams := <[sb_ch s := opened last s (sy_log y)]> (sy_streams y) |}.
Proof.
  intros Hsub [H1 H2 H3 H4 H5 H6 H7 H8 H9]. assert (Hfc : hub_clients (sy_hub y) !! hub_fresh (sy_hub y) = None).
  { destruct (hub_clients _ !! _) eqn:E; [|done]. destruct (proj1 (H7 _) (mk_is_Some _ _ E)) as (c & Hc & _). by rewrite H6 in Hc. }
  pose proof (slots_subscribe _ _ _ _ _ Hsub Hfc H5) as Hslots. unfold subscribe in Hsub. destruct (_ || _); [done|].
  set (rs := if String.eqb last "" then (true, length (hub_ring (sy_hub y)))
    else match after_id last (hub_ring (sy_hub y)) with Some n => (false, n) | None => (true, length (hub_ring (sy_hub y))) end) in Hsub.
  destruct rs as [reset start] eqn:Ers. injection Hsub as <- <-. set (ring := hub_ring (sy_hub y)) in *.
  assert (Hstart : start <= length ring /\ (reset = false -> exists i e, start = S i /\ ring !! i = Some e /\ ev_id e = last)).
  { subst rs. destruct (String.eqb last ""); [injection Ers as <- <-; split; [lia|done]|].
    destruct (after_id last ring) as [k|] eqn:Ea; injection Ers as <- <-; [|split; [lia|done]].
    apply after_id_spec in Ea as (i & e & -> & Hi & He). split; [apply lookup_lt_Some in Hi; lia|by eauto]. }
  destruct Hstart as [Hle Hres]. set (base := length (sy_log y) - replaySize).
  assert (Hring : ring = drop base (sy_log y)) by (subst ring; by rewrite H2).
  assert (Hlen : length ring = length (sy_log y) - base) by (by rewrite Hring, length_drop).
  assert (Hbase : base <= length (sy_log y)) by (unfold base; lia).
  assert (Hfrom : length (sy_log y) - length (drop start ring) = base + start) by (rewrite length_drop, Hlen; lia).
  split; cbn [sy_hub sy_log sy_streams hub_nonce hub_ring hub_next hub_clients hub_chans hub_fresh sb_ch]; try done.
  - intros ch Hch. rewrite lookup_insert_ne by lia. apply H6. lia.
  - intros ch. destruct (decide (ch = hub_fresh (sy_hub y))) as [->|Hne].
    + rewrite !lookup_insert_eq. split; [intros _; by eexists|intros _; by eexists].
    + by rewrite !lookup_insert_ne.
  - intros ch st [[<- <-]|[Hne Hst]]%lookup_insert_Some.
    + rewrite lookup_insert_eq. split; [by eexists|]. unfold opened. intros Hr. cbn [st_reset st_from st_last sb_reset sb_replay] in *.
      destruct (Hres Hr) as (i & e & -> & Hi & He). exists (base + i), e. rewrite Hfrom. split; [lia|]. split; [|done].
      by rewrite Hring, lookup_drop in Hi.
    + rewrite lookup_insert_ne by done. by apply H8.
  - intros ch c [[<- <-]|[Hne Hc]]%lookup_insert_Some.
    + split; [simpl; lia|]. exists (opened last {| sb_replay := drop start ring; sb_ch := hub_fresh (sy_hub y); sb_reset := reset |} (sy_log y)).
      split; [apply lookup_insert_eq|]. exists []. unfold opened. cbn [st_from st_got sb_replay cn_buf]. rewrite Hfrom, !app_nil_r.
      split; [by rewrite Hring, drop_drop|]. split; [done|lia].
    + rewrite lookup_insert_ne by done. by apply H9.
Qed.

Lemma sys_receive nonce ch y h' e : receive ch (sy_hub y) = Some (h', Some e) -> sys_ok nonce y ->
  sys_ok nonce {| sy_hub := h'; sy_log := sy_log y; sy_streams := alter (read_on e) ch (sy_streams y) |}.
Proof.
  intros H [H1 H2 H3 H4 H5 H6 H7 H8 H9]. unfold receive in H. destruct (hub_chans (sy_hub y) !! ch) as [c|] eqn:Ec; [|done]. simpl in H.
  destruct (cn_buf c) as [|e0 r] eqn:Eb; [by destruct (cn_closed c)|]. injection H as <- <-.
  destruct (H9 ch c Ec) as (Hlen & st & Hst & rest & Hrun & Hr & Hl). rewrite Eb in Hlen, Hrun. simpl in Hlen.
  split; cbn [sy_hub sy_log sy_streams with_chans hub_nonce hub_ring hub_next hub_clients hub_chans hub_fresh]; try done.
  - by destruct H5.
  - intros k Hk. rewrite lookup_insert_ne; [by apply H6|]. intros <-. by rewrite H6 in Ec.
  - intros k. rewrite (H7 k). destruct (decide (k = ch)) as [->|]; [|by rewrite lookup_insert_ne]. rewrite Ec, lookup_insert_eq.
    split; intros (x & [= <-] & Hx); by eexists.
  - intros k st' [(-> & st0 & Hst0 & ->)|[Hne Hst']]%lookup_alter_Some.
    + rewrite lookup_insert_eq. split; [by eexists|]. exact (proj2 (H8 _ _ Hst0)).
    + rewrite lookup_insert_ne by done. by apply H8.
  - intros k c' [[<- <-]|[Hne Hc']]%lookup_insert_Some; [|rewrite lookup_alter_ne by done; by apply H9].
    split; [simpl; lia|]. exists (read_on e0 st). rewrite lookup_alter_eq, Hst. split; [done|]. exists rest. simpl. by rewrite <- app_assoc.
Qed.

Lemma sys_done nonce ch y : sys_ok nonce y ->
  sys_ok nonce {| sy_hub := removeClient ch (sy_hub y); sy_log := sy_log y; sy_streams := sy_streams y |}.
Proof.
  intros [H1 H2 H3 H4 H5 H6 H7 H8 H9]. pose proof (slots_removeClient ch _ H5) as Hs. destruct (hub_clients (sy_hub y) !! ch) as [s|] eqn:E.
  2: { unfold removeClient in *. rewrite E in *. by split. }
  destruct (proj1 (H7 ch) (mk_is_Some _ _ E)) as (c & Hc & Hopen). unfold removeClient in *. rewrite E in *.
  split; cbn [sy_hub sy_log sy_streams hub_nonce hub_ring hub_next hub_clients hub_chans hub_fresh]; try done.
  - intros k Hk. rewrite lookup_alter_ne; [by apply H6|]. intros <-. by rewrite H6 in Hc.
  - intros k. destruct (decide (k = ch)) as [->|Hne].
    + rewrite lookup_delete_eq, lookup_alter_eq, Hc. split; [by intros []|]. by intros (x & [= <-] & Hx).
    + rewrite lookup_delete_ne, lookup_alter_ne by done. apply H7.
  - intros k st Hst. destruct (H8 k st Hst) as [[c0 Hc0] Hr]. split; [|done].
    destruct (decide (k = ch)) as [->|Hne]; [rewrite lookup_alter_eq, Hc0; by eexists|rewrite lookup_alter_ne by done; by eexists].
  - intros k c' [(-> & c0 & Hc0 & ->)|[Hne Hc']]%lookup_alter_Some; [|by apply H9].
    destruct (H9 _ c0 Hc0) as (Hlen & st & Hst & rest & Hrun & _ & Hl). split; [done|]. exists st. split; [done|]. by exists rest.
Qed.

Lemma sys_reach nonce y : rtc sse_step (sse_start nonce) y -> sys_ok nonce y.
Proof.
  intros H. assert (H0 : sys_ok nonce (sse_start nonce)).
  { split; simpl; try done.
    - split; simpl; [|done| |].
      + intros s Hs. unfold count_of, streams_of. by rewrite lookup_empty, map_filter_empty, map_size_empty.
      + rewrite map_size_empty. unfold maxSSEClients. lia.
      + done.
    - intros ch. rewrite !lookup_empty. split; [by intros []|]. by intros (? & ? & _). }
  revert H0; induction H as [|y1 y2 y3 Hs _ IH]; intros H0; [done|]. apply IH.
  destruct Hs; [by apply sys_broadcast|by eapply sys_subscribe|by eapply sys_receive|by apply sys_done].
Qed.

(** A client that names one of the last [replaySize] events is not told to reset. *)
Lemma event_id_inj nonce i j : event_id nonce i = event_id nonce j -> (Z.of_nat i mod 2 ^ 64 = Z.of_nat j mod 2 ^ 64)%Z.
Proof. unfold event_id. intros H%app_inj_l. simpl in H. injection H as H. by apply pretty_Z_inj in H. Qed.

Lemma after_id_first last l i e : l !! i = Some e -> ev_id e = last -> (forall j e', j < i -> l !! j = Some e' -> ev_id e' <> last) ->
  after_id last l = Some (S i).
Proof.
  revert i; induction l as [|e0 l IH]; intros i Hi He Hfirst; [done|]. simpl. destruct i as [|i]; simpl in Hi.
  - injection Hi as ->. by rewrite He, String.eqb_refl.
  - rewrite (proj2 (String.eqb_neq _ _)) by (apply (Hfirst 0); [lia|done]). rewrite (IH i Hi He); [done|]. intros j e' Hj. apply (Hfirst (S j)). lia.
Qed.

Lemma resume_from_ring nonce y i e sessionID h' s : sys_ok nonce y -> sy_log y !! i = Some e -> length (sy_log y) <= i + replaySize ->
  ev_id e <> "" -> subscribe (ev_id e) sessionID (sy_hub y) = (h', Some s) ->
  sb_reset s = false /\ sb_replay s = drop (S i) (sy_log y).
Proof.
  intros [H1 H2 H3 H4 H5 H6 H7 H8 H9] Hi Hrecent Hne Hsub. unfold subscribe in Hsub. destruct (_ || _); [done|].
  rewrite (proj2 (String.eqb_neq _ _)) in Hsub by done. rewrite H2 in Hsub. unfold trim_ring in *. set (base := length (sy_log y) - replaySize) in *.
  assert (Hb : base <= i) by (unfold base; lia). assert (Ha : after_id (ev_id e) (drop base (sy_log y)) = Some (S (i - base))).
  { apply (after_id_first _ _ _ e); [rewrite lookup_drop, <- Hi; f_equal; lia|done|]. intros j e' Hj He' E. rewrite lookup_drop in He'.
    rewrite (H4 _ _ He'), (H4 _ _ Hi) in E. apply event_id_inj in E. apply lookup_lt_Some in Hi. unfold base, replaySize in *.
    assert (Hd : (Z.of_nat (S i) - Z.of_nat (S (length (sy_log y) - 256 + j)) < 256)%Z) by lia.
    set (a := Z.of_nat (S i)) in *. set (b := Z.of_nat (S (length (sy_log y) - 256 + j))) in *. assert (b < a)%Z by lia.
    clearbody a b. Z.div_mod_to_equations. lia. }
  rewrite Ha in Hsub. injection Hsub as _ <-. simpl. split; [done|]. rewrite drop_drop. f_equal. lia.
Qed.

(** ** The properties *)

(** C26. What an event stream carries. In every state the hub and its clients can reach, what a
    stream's handler has written and what is still buffered for it is one unbroken run of the events
    published, without gap, repetition or reordering; while the client is connected the run reaches
    to the last event and at most 32 are buffered. It begins right after the event the client named,
    unless the client was told to reset, which one that named any of the last 256 is not. At most 128
    streams are connected, at most four of a session. *)
Theorem streams_gapless (nonce : string) (y : Sys) (Hreach : rtc sse_step (sse_start nonce) y) :
  (forall ch st, sy_streams y !! ch = Some st ->
     exists buf rest, drop (st_from st) (sy_log y) = st_got st ++ buf ++ rest /\ length buf <= chan_size
       /\ (is_Some (hub_clients (sy_hub y) !! ch) -> rest = [])
       /\ (st_reset st = false -> exists i e, st_from st = S i /\ sy_log y !! i = Some e /\ ev_id e = st_last st))
  /\ (forall i e sessionID h' s, sy_log y !! i = Some e -> length (sy_log y) <= i + replaySize -> ev_id e <> "" ->
       subscribe (ev_id e) sessionID (sy_hub y) = (h', Some s) -> sb_reset s = false /\ sb_replay s = drop (S i) (sy_log y))
  /\ size (hub_clients (sy_hub y)) <= maxSSEClients
  /\ forall session, session <> "" -> (Z.of_nat (streams_of session (hub_clients (sy_hub y))) <= maxSSEClientsPerSession)%Z.
Proof.
  pose proof (sys_reach nonce y Hreach) as Hok. split; [|split; [intros; by eapply resume_from_ring|]].
  - intros ch st Hst. destruct Hok as [H1 H2 H3 H4 H5 H6 H7 H8 H9]. destruct (H8 ch st Hst) as [[c Hc] Hr].
    destruct (H9 ch c Hc) as (Hlen & st' & Hst' & rest & Hrun & Hrest & Hl). rewrite Hst in Hst'. injection Hst' as <-.
    exists (cn_buf c), rest. split; [done|]. split; [done|]. split; [|done]. intros Ho. apply Hrest.
    apply H7 in Ho as (c' & Hc' & Ho). rewrite Hc in Hc'. by injection Hc' as <-.
  - destruct (so_slots _ _ Hok) as [S1 _ S3 S4]. split; [done|]. intros s Hs. rewrite <- S1 by done. by apply S4.
Qed.

(** Two events; a client that read the first comes back and names it. *)
Definition step_broadcast (event data : string) (y : Sys) : Sys :=
  {| sy_hub := broadcast event data (sy_hub y); sy_log := sy_log y ++ [next_event event data (sy_hub y)]; sy_streams := sy_streams y |}.
Definition sample_sys : Sys := step_broadcast "config" "{}" (step_broadcast "card" "{}" (sse_start "n")).
Definition resumed_hub : sseHub := (subscribe "n-1" "s" (sy_hub sample_sys)).1.
Definition resumed : Subscription := {| sb_replay := drop 1 (sy_log sample_sys); sb_ch := 0; sb_reset := false |}.
Definition resumed_sys : Sys :=
  {| sy_hub := resumed_hub; sy_log := sy_log sample_sys; sy_streams := {[0 := opened "n-1" resumed (sy_log sample_sys)]} |}.

Example streams_gapless_witness : exists st,
  sy_streams resumed_sys !! 0 = Some st /\ map ev_id (st_got st) = ["n-2"]
  /\ exists i e, st_from st = S i /\ sy_log resumed_sys !! i = Some e /\ ev_id e = "n-1".
Proof.
  assert (Hsub : subscribe "n-1" "s" (sy_hub sample_sys) = (resumed_hub, Some resumed)) by (vm_compute; reflexivity).
  assert (Hr : rtc sse_step (sse_start "n") resumed_sys).
  { eapply rtc_l; [exact (SseBroadcast "card" "{}" (sse_start "n"))|]. eapply rtc_l; [exact (SseBroadcast "config" "{}" _)|].
    eapply rtc_l; [exact (SseSubscribe "n-1" "s" sample_sys resumed_hub resumed Hsub)|]. apply rtc_refl. }
  destruct (streams_gapless "n" resumed_sys Hr) as [H _].
  destruct (H 0 (opened "n-1" resumed (sy_log sample_sys)) eq_refl) as (buf & rest & _ & _ & _ & Hres).
  exists (opened "n-1" resumed (sy_log sample_sys)). split; [reflexivity|]. split; [vm_compute; reflexivity|]. exact (Hres eq_refl).
Defined.
