(* ===== verification/Api.v ===== *)
(** * internal/api: who may ask what of the server

    [server.go]: the refusals of [New], the middlewares, the route table and the card routes;
    [auth.go]: the authentication of every request to the API and the session routes;
    [integrations.go]: the approval transaction; [connections.go], [events.go] and the opening of
    [sse.go]. A handler is a computation on the server's state that ends in a response, and a panic is its
    failure, which the recovery turns into one. [approveMu] makes the approval one step. The asset,
    icon, background and static handlers change none of this state and are arguments, as are the JSON
    decoders, a connection's health, the run of a refresh, the clock's readings and the random tokens of
    a request. The development fixtures are not served. *)
From S2P Require Import Prelude GoSort GoAny GoPath RoutePath GoTime NetHttp NetIP Sql Database.
From S2P Require Import Config HttpClient Approval ConfigStore State Scheduler Storage AuditLog Auth Forward Sse.

(** ** The response *)

Record cookie := {
  ck_name : string; ck_value : string; ck_expires : Time; ck_maxAge : Z; ck_httpOnly : bool; ck_secure : bool }.
Record integrationSummary := {
  is_ID : string; is_Builtin : bool; is_Status : string; is_Runtime : string; is_Version : string; is_Capabilities : list string;
  is_Error : string }.
Record approvalPreview := {
  pv_ManifestSHA256 : string; pv_CurrentLock : option LockEntry; pv_Diff : Diff; pv_ManifestLimits : Limits }.
Record connectionSummary := { cs_ID : string; cs_Kind : string; cs_Health : Health }.
Record dashCard := { dc_ID : string; dc_Title : string; dc_Icon : string; dc_Href : string; dc_Span : Span }.
Record dashSection := { dsn_Title : string; dsn_Cards : list dashCard }.

(** The value that is encoded as JSON, or the text written. *)
Inductive payload :=
| PNone
| PText (s : string)
| PObject (fields : list (string * any))
| PStatus (s : ConfigStore.Status)
| PDashboard (appearance : string) (sections : list dashSection) (background : bool)
| PCards (l : list CardState)
| PCard (c : CardState)
| PEvents (l : list event_row)
| PIntegrations (l : list integrationSummary)
| PPreview (p : approvalPreview)
| PEntry (e : LockEntry)
| PConnections (l : list connectionSummary)
| PConnection (c : connectionSummary)
| PStream (s : Subscription).

(** [rp_headers] are the calls of [Header().Set], in order. *)
Record response := { rp_status : Z; rp_headers : list (string * string); rp_cookies : list cookie; rp_body : payload }.
Definition header_of (resp : response) : Header := foldl (fun h kv => header_Set h kv.1 kv.2) ∅ (rp_headers resp).

Definition writeJSON (sets : list (string * string)) (status : Z) (body : payload) : response :=
  {| rp_status := status; rp_headers := sets ++ [("Content-Type", "application/json; charset=utf-8"); ("X-Content-Type-Options", "nosniff")];
     rp_cookies := []; rp_body := body |}.
Definition error_body (message : string) : payload := PObject [("error", AString message)].
Definition fail_with (status : Z) (message : string) : response := writeJSON [] status (error_body message).
(** [http.Error] and [http.NotFound] *)
Definition http_Error (sets : list (string * string)) (status : Z) (text : string) : response :=
  {| rp_status := status; rp_headers := sets ++ [("Content-Type", "text/plain; charset=utf-8"); ("X-Content-Type-Options", "nosniff")];
     rp_cookies := []; rp_body := PText (text +:+ String "010" "") |}.
Definition http_NotFound : response := http_Error [] 404 "404 page not found".
Definition no_content (cookies : list cookie) : response := {| rp_status := 204; rp_headers := []; rp_cookies := cookies; rp_body := PNone |}.

(** ** server.go: the refusals of New *)

Section New.
Variable lookup : string -> option (list Addr).            (* net.LookupIP *)
Definition net_loopback (a : Addr) : bool := IsLoopback (Unmap a).
(** [isPublicAddr]: [None] is an address without a port. *)
Definition isPublicAddr (addr : string) : option bool :=
  '(host, _) ← SplitHostPort addr;
  if String.eqb host "" then Some true
  else match ParseIP host with
       | None => match lookup host with
                 | None => Some true
                 | Some ips => Some (existsb (fun a => negb (net_loopback a)) ips)
                 end
       | Some ip => if (ad_bits ip =? 0)%Z then Some true else Some (negb (net_loopback ip))
       end.

Record listen_config := {
  ln_Listen : string; ln_AuthConfigured : bool; ln_AllowPublicWithoutAuth : bool; ln_Auth : bool; ln_Forward : bool; ln_Fixtures : bool;
  ln_ConfigStore : bool }.
Inductive new_error := errBothFixturesAndConfigStore | ListenAddress | ErrPublicWithoutAuth.
(** [New]: the address it will listen on. *)
Definition New (cfg : listen_config) : res new_error string :=
  guard! negb (ln_Fixtures cfg && ln_ConfigStore cfg) else errBothFixturesAndConfigStore;
  let listen := or_default (ln_Listen cfg) "127.0.0.1:8099" in
  let configured := ln_AuthConfigured cfg || ln_Auth cfg || ln_Forward cfg in
  match isPublicAddr listen with
  | None => Err ListenAddress
  | Some public => if public && negb configured && negb (ln_AllowPublicWithoutAuth cfg) then Err ErrPublicWithoutAuth else Ok listen
  end.
End New.

(** ** server.go: the middlewares around the handlers *)

Definition isAPIPath (path : string) : bool := String.eqb path "/api" || String.eqb path "/api/" || HasPrefix path "/api/".

Definition base_headers (r : http_request) : list (string * string) :=
  [("X-Content-Type-Options", "nosniff"); ("X-Frame-Options", "DENY"); ("Referrer-Policy", "no-referrer");
   ("Permissions-Policy", "camera=(), microphone=(), geolocation=(), payment=(), usb=()");
   ("Cross-Origin-Opener-Policy", "same-origin"); ("Cross-Origin-Resource-Policy", "same-origin");
   ("Content-Security-Policy", "default-src 'none'; frame-ancestors 'none'; base-uri 'none'")]
  ++ (if isAPIPath (hr_path r) then [("Cache-Control", "no-store")] else [])
  ++ (if hr_tls r then [("Strict-Transport-Security", "max-age=31536000")] else []).
Definition securityHeaders (r : http_request) (resp : response) : response :=
  {| rp_status := rp_status resp; rp_headers := base_headers r ++ rp_headers resp; rp_cookies := rp_cookies resp; rp_body := rp_body resp |}.

(** What a handler can read of the body: its first mebibyte, and whether reading on fails. *)
Definition maxRequestBodyBytes : nat := Nat.shiftl 1 20.
Record reader := { rd_data : string; rd_fails : bool }.
Definition limitBody (body : string) : reader :=
  {| rd_data := String.substring 0 maxRequestBodyBytes body; rd_fails := Nat.ltb maxRequestBodyBytes (String.length body) |}.

(** ** The route table *)

Inductive endpoint :=
| EHealth | EVersion | ENotices | EMe | ELogin | ELogout | ESudo | EEvents | EIcons | EConfigStatus | EDashboard | ECards | ECard | ERefresh
| EBackground | EStream | EIntegrations | EApproval | EApprove | EConnections | EConnectionTest | EAssets | EStatic.
#[export] Instance endpoint_eq_dec : EqDecision endpoint.
Proof. solve_decision. Defined.

Inductive segment := Lit (s : string) | Wild.
#[export] Instance segment_eq_dec : EqDecision segment.
Proof. solve_decision. Defined.
Definition pattern := (string * list segment)%type.

(** [Config], as far as the routes depend on it; the generation in force is the request's. *)
Record services := {
  cf_auth : bool; cf_forward : option forwardGeneration; cf_audit : bool; cf_authMode : string; cf_events : bool; cf_icons : bool;
  cf_store : option ConfigStore.Store; cf_registry : bool; cf_scheduler : bool; cf_assets : bool }.

Definition api (l : list string) : list segment := map Lit ("api" :: "v1" :: l).
Definition routes (cfg : services) : list (pattern * endpoint) :=
  [("GET", api ["health"], EHealth); ("GET", api ["version"], EVersion); ("GET", api ["notices"], ENotices); ("GET", api ["auth"; "me"], EMe)]
  ++ (if cf_auth cfg then [("POST", api ["auth"; "session"], ELogin); ("DELETE", api ["auth"; "session"], ELogout);
                           ("POST", api ["auth"; "sudo"], ESudo)] else [])
  ++ (if cf_events cfg then [("GET", api ["events"], EEvents)] else [])
  ++ (if cf_icons cfg then [("GET", api ["icons"] ++ [Wild], EIcons)] else [])
  ++ match cf_store cfg with
     | None => []
     | Some _ =>
         [("GET", api ["config"; "status"], EConfigStatus); ("GET", api ["dashboard"], EDashboard); ("GET", api ["cards"], ECards)]
         ++ (if cf_scheduler cfg then [("GET", api ["cards"] ++ [Wild], ECard); ("POST", api ["cards"] ++ [Wild; Lit "refresh"], ERefresh)] else [])
         ++ [("GET", api ["background"], EBackground)]
         ++ (if cf_scheduler cfg then [("GET", api ["stream"], EStream)] else [])
         ++ [("GET", api ["integrations"], EIntegrations); ("GET", api ["integrations"] ++ [Wild; Lit "approval"], EApproval);
             ("POST", api ["integrations"] ++ [Wild; Lit "approve"], EApprove)]
         ++ (if cf_registry cfg then [("GET", api ["connections"], EConnections); ("POST", api ["connections"] ++ [Wild; Lit "test"], EConnectionTest)] else [])
         ++ (if cf_assets cfg then [("GET", api ["assets"] ++ [Wild], EAssets)] else [])
     end.

(** [http.ServeMux]: the escaped path is cleaned, a request for another one is redirected; segments
    match when unescaped, [GET] admits [HEAD], and ["/"] takes what no pattern matches. *)
Definition cleanPath (p : string) : string :=
  let p' := if HasPrefix p "/" then p else "/" +:+ p in
  let np := filepath_Clean p' in
  if HasSuffix p' "/" && negb (String.eqb np "/") then np +:+ "/" else np.
Definition unescape_segment (s : string) : string := default s (path_unescape s).
Definition path_segments (escaped : string) : list string := map unescape_segment (tail (Split "/" escaped)).
Fixpoint match_segments (pat : list segment) (segs : list string) : option (list string) :=
  match pat, segs with
  | [], [] => Some []
  | Lit a :: pat', s :: segs' => if String.eqb a s then match_segments pat' segs' else None
  | Wild :: pat', s :: segs' => if String.eqb s "" then None else cons s <$> match_segments pat' segs'
  | _, _ => None
  end.
Definition method_matches (pat method : string) : bool := String.eqb pat method || String.eqb pat "GET" && String.eqb method "HEAD".
Definition match_route (method : string) (segs : list string) (rt : pattern * endpoint) : option (endpoint * list string) :=
  if method_matches rt.1.1 method then (fun vars => (rt.2, vars)) <$> match_segments rt.1.2 segs else None.
Fixpoint first_match (method : string) (segs : list string) (l : list (pattern * endpoint)) : option (endpoint * list string) :=
  match l with
  | [] => None
  | rt :: l' => match match_route method segs rt with Some x => Some x | None => first_match method segs l' end
  end.

Inductive destination := Redirect (path : string) | To (e : endpoint) (vars : list string).
Definition dispatch (cfg : services) (r : http_request) : destination :=
  if negb (String.eqb (hr_method r) "CONNECT") && negb (String.eqb (cleanPath (hr_escaped r)) (hr_escaped r))
  then Redirect (cleanPath (hr_escaped r))
  else match first_match (hr_method r) (path_segments (hr_escaped r)) (routes cfg) with
       | Some (e, vars) => To e vars
       | None => To EStatic []
       end.

(** ** The server's state and a request's computation *)

(** [w_files] are the files the server can see: the lock and the manifests. *)
Record ApiWorld {RunFunc : Type} := {
  w_auth : AuthWorld; w_mgr : @Manager RunFunc; w_files : gmap string (string * Z); w_hub : sseHub }.
Section World.
Context {RunFunc : Type}.
Local Notation ApiWorld := (@ApiWorld RunFunc).
Definition put_auth (a : AuthWorld) (w : ApiWorld) : ApiWorld :=
  {| w_auth := a; w_mgr := w_mgr w; w_files := w_files w; w_hub := w_hub w |}.
Definition put_mgr (m : @Manager RunFunc) (w : ApiWorld) : ApiWorld :=
  {| w_auth := w_auth w; w_mgr := m; w_files := w_files w; w_hub := w_hub w |}.
Definition put_files (f : gmap string (string * Z)) (w : ApiWorld) : ApiWorld :=
  {| w_auth := w_auth w; w_mgr := w_mgr w; w_files := f; w_hub := w_hub w |}.
Definition put_hub (h : sseHub) (w : ApiWorld) : ApiWorld :=
  {| w_auth := w_auth w; w_mgr := w_mgr w; w_files := w_files w; w_hub := h |}.
Definition w_db (w : ApiWorld) : DB := aw_db (w_auth w).
Definition put_db (d : DB) (w : ApiWorld) : ApiWorld := put_auth {| aw_db := d; aw_svc := aw_svc (w_auth w) |} w.
End World.

(** What refuses a request: an error of the authentication, or any other. *)
Inductive failure := FAuth (e : auth_error) | FText (e : string).
Definition auth_text (e : auth_error) : string :=
  match e with
  | Auth.ErrInvalidCredentials => "invalid username or password"
  | Auth.ErrRateLimited => "too many login attempts; try again later"
  | ErrNoSession => "authentication required"
  | ErrCSRF => "invalid CSRF token"
  | ErrBusy => "too many authentication requests in flight; try again shortly"
  end.
Definition failure_text (f : failure) : string := match f with FAuth e => auth_text e | FText t => t end.
Definition run_auth {RunFunc A} (m : Sql AuthWorld (res auth_error A)) : Sql (@ApiWorld RunFunc) (res failure A) :=
  do* r <- sql_try (zoom w_auth put_auth m);
  sql_ret (match r with Err e => Err (FText e) | Ok (Err e) => Err (FAuth e) | Ok (Ok a) => Ok a end).

Definition SessionCookie : string := "veduta_session".
Definition CSRFCookie : string := "veduta_csrf".
Definition CSRFHeader : string := "X-CSRF-Token".
Definition ClientIP (r : http_request) : string := match SplitHostPort (hr_remote r) with Some (h, _) => h | None => hr_remote r end.
Definition anonymous : Identity := {| id_Username := ""; id_SessionID := ""; id_Mode := ""; id_Admin := false; id_Groups := [] |}.
Definition who_of (who : option Identity) : Identity := default anonymous who.

(** What the request's computation draws from outside. *)
Record draws := { dr_clock : nat -> Time; dr_random : nat -> res string string; dr_admitted : bool }.

(** What the server is given from outside this file: SHA-256, Argon2id, the Unicode functions and the map order of [Auth] and [Forward]; JSON: the audit details, the request bodies ([decode_approve] with whether the body ends there), the grants; YAML, the lock's schema, the manifest's digest and decoding, MIME types, as in [Approval]; the temporary file of a lock write, how the write is cut, where it fails, and which files cannot be read; a connection's health, the run of a refresh, the texts of errors, the constants served, and the handlers of icons, assets, backgrounds and static files ([Icons] and [AssetApi] are about two of them): what they do to files, those of their caches, and what they answer. *)
Record environment {RunFunc Y : Type} := {
  ev_sha256 : string -> string;
  ev_IDKey : string -> string -> Z -> Z -> Z -> nat -> string;
  ev_to_lower : string -> string;
  ev_range : gmap string Attempts -> list (string * Attempts);
  ev_origin_host : string -> option string;
  ev_EqualFold : string -> string -> bool;
  ev_marshal_detail : any -> res string string;
  ev_decode_login : reader -> option (string * string);
  ev_decode_sudo : reader -> option string;
  ev_decode_approve : reader -> res string (string * Grants * bool);
  ev_grants_json : Grants -> any;
  ev_unmarshal_any : string -> option Y;
  ev_unmarshal_lock : string -> option Lock;
  ev_marshal_lock : Lock -> option string;
  ev_lockSchema : option (Y -> bool);
  ev_manifest_digest : string -> option string;
  ev_decode_manifest : string -> option manifestDoc;
  ev_ParseMediaType : string -> option (string * gmap string string);
  ev_FormatMediaType : string -> gmap string string -> string;
  ev_tmp : string;
  ev_cut : string -> list string;
  ev_write_fails : option nat;
  ev_unreadable : string -> bool;
  ev_health : string -> Health;
  ev_refresh_run : @Manager RunFunc -> @CardDef RunFunc -> @Manager RunFunc * option sched_error;
  ev_sched_text : sched_error -> string;
  ev_lock_text : lock_error -> string;
  ev_load_text : load_error -> string;
  ev_approve_text : approve_error -> string;
  ev_route_text : route_error -> string;
  ev_other : endpoint -> list string -> http_request -> list fs_op * response;
  ev_version_info : payload;
  ev_notices : string }.

Section Server.
Context {RunFunc Y : Type}.
Local Notation Manager := (@Manager RunFunc).
Local Notation Api := (Sql (@ApiWorld RunFunc)).
Variable ev : @environment RunFunc Y.
Local Notation sha256 := (ev_sha256 ev).
Local Notation IDKey := (ev_IDKey ev).
Local Notation to_lower := (ev_to_lower ev).
Local Notation range := (ev_range ev).
Local Notation origin_host := (ev_origin_host ev).
Local Notation EqualFold := (ev_EqualFold ev).
Local Notation marshal_detail := (ev_marshal_detail ev).
Local Notation decode_login := (ev_decode_login ev).
Local Notation decode_sudo := (ev_decode_sudo ev).
Local Notation decode_approve := (ev_decode_approve ev).
Local Notation grants_json := (ev_grants_json ev).
Local Notation unmarshal_any := (ev_unmarshal_any ev).
Local Notation unmarshal_lock := (ev_unmarshal_lock ev).
Local Notation marshal_lock := (ev_marshal_lock ev).
Local Notation lockSchema := (ev_lockSchema ev).
Local Notation manifest_digest := (ev_manifest_digest ev).
Local Notation decode_manifest := (ev_decode_manifest ev).
Local Notation ParseMediaType := (ev_ParseMediaType ev).
Local Notation FormatMediaType := (ev_FormatMediaType ev).
Local Notation tmp := (ev_tmp ev).
Local Notation cut := (ev_cut ev).
Local Notation write_fails := (ev_write_fails ev).
Local Notation unreadable := (ev_unreadable ev).
Local Notation health := (ev_health ev).
Local Notation refresh_run := (ev_refresh_run ev).
Local Notation sched_text := (ev_sched_text ev).
Local Notation lock_text := (ev_lock_text ev).
Local Notation load_text := (ev_load_text ev).
Local Notation approve_text := (ev_approve_text ev).
Local Notation route_text := (ev_route_text ev).
Local Notation other := (ev_other ev).
Local Notation version_info := (ev_version_info ev).
Local Notation notices := (ev_notices ev).
Variable cfg : services.
Variable dr : draws.
Local Notation clock := (dr_clock dr).

(** [s.audit]: a failure to record is only logged. *)
Definition audit (now : Time) (e : Entry) : Api unit :=
  if cf_audit cfg then do* _ <- sql_try (zoom w_db put_db (Record_ marshal_detail now e)); sql_ret tt else sql_ret tt.
Definition entry (actor : string) (r : http_request) (action target outcome : string) (detail : option any) : Entry :=
  {| en_Actor := actor; en_IP := ClientIP r; en_Action := action; en_Target := target; en_Outcome := outcome; en_Detail := detail |}.

(** *** auth.go: the sessions *)

Definition session_cookies (r : http_request) (now : Time) (s : Session) : list cookie :=
  let maxAge := Z.quot (ses_ExpiresAt s - now) second in
  [{| ck_name := SessionCookie; ck_value := ses_Token s; ck_expires := ses_ExpiresAt s; ck_maxAge := maxAge; ck_httpOnly := true; ck_secure := hr_tls r |};
   {| ck_name := CSRFCookie; ck_value := ses_CSRFToken s; ck_expires := ses_ExpiresAt s; ck_maxAge := maxAge; ck_httpOnly := false; ck_secure := hr_tls r |}].
Definition cleared_cookies (secure : bool) : list cookie :=
  map (fun name => {| ck_name := name; ck_value := ""; ck_expires := (62135596801 * second)%Z; ck_maxAge := -1;
                      ck_httpOnly := String.eqb name SessionCookie; ck_secure := secure |}) [SessionCookie; CSRFCookie].

Definition refusal_headers (f : failure) : list (string * string) :=
  match f with FAuth Auth.ErrRateLimited => [("Retry-After", "900")] | FAuth ErrBusy => [("Retry-After", "1")] | _ => [] end.
Definition refusal_status (f : failure) : Z :=
  match f with FAuth Auth.ErrRateLimited => 429 | FAuth ErrBusy => 503 | _ => 401 end.
Definition login (r : http_request) : Api response :=
  match decode_login (limitBody (hr_body r)) with
  | None => sql_ret (fail_with 400 "invalid login request")
  | Some (username, password) =>
      do* res_ <- run_auth (Login sha256 IDKey to_lower range (clock 0) (clock 1) (dr_admitted dr) (dr_random dr 0) (dr_random dr 1)
                              username password (header_Get (hr_headers r) "User-Agent") (ClientIP r));
      match res_ with
      | Err f =>
          do* _ <- audit (clock 2) (entry username r "auth.login" "" "failure" None);
          sql_ret (writeJSON (refusal_headers f) (refusal_status f) (error_body (failure_text f)))
      | Ok session =>
          do* _ <- audit (clock 2) (entry username r "auth.login" "" "success" None);
          let resp := writeJSON [] 201 (PObject [("capabilities", AList [AString "admin"]); ("csrfToken", AString (ses_CSRFToken session));
                                                 ("mode", AString "password"); ("username", AString username)]) in
          sql_ret {| rp_status := rp_status resp; rp_headers := rp_headers resp; rp_cookies := session_cookies r (clock 3) session; rp_body := rp_body resp |}
      end
  end.
Definition logout (who : option Identity) (r : http_request) : Api response :=
  do* done_ <- match Cookie r SessionCookie with
               | None => sql_ret (Ok tt)
               | Some token => sql_try (zoom w_auth put_auth (Logout sha256 token))
               end;
  match done_ with
  | Err _ => sql_ret (fail_with 500 "logout failed")
  | Ok _ =>
      do* _ <- audit (clock 2) (entry (id_Username (who_of who)) r "auth.logout" "" "success" None);
      sql_ret (no_content (cleared_cookies (hr_tls r)))
  end.
Definition sudo_message (f : failure) : string :=
  match f with FAuth Auth.ErrRateLimited | FAuth ErrBusy => failure_text f | _ => auth_text Auth.ErrInvalidCredentials end.
Definition sudo (who : option Identity) (r : http_request) : Api response :=
  match decode_sudo (limitBody (hr_body r)) with
  | None => sql_ret (fail_with 400 "invalid sudo request")
  | Some password =>
      match Cookie r SessionCookie with
      | None => sql_ret (fail_with 401 (auth_text ErrNoSession))
      | Some token =>
          do* res_ <- run_auth (OpenSudo sha256 IDKey range (clock 2) (clock 3) (clock 4) (clock 5) (dr_admitted dr) token password (ClientIP r));
          let actor := id_Username (who_of who) in
          match res_ with
          | Err f =>
              do* _ <- audit (clock 6) (entry actor r "auth.sudo" "" "failure" None);
              sql_ret (writeJSON (refusal_headers f) (refusal_status f) (error_body (sudo_message f)))
          | Ok _ =>
              do* _ <- audit (clock 6) (entry actor r "auth.sudo" "" "success" None);
              sql_ret (no_content [])
          end
      end
  end.
Definition identity_body (username mode : string) (capabilities : list string) (csrf : option string) : payload :=
  PObject ([("capabilities", AList (map AString capabilities))] ++ match csrf with Some t => [("csrfToken", AString t)] | None => [] end
           ++ [("mode", AString mode); ("username", AString username)]).
Definition me (who : option Identity) (r : http_request) : Api response :=
  match who with
  | None => sql_ret (writeJSON [] 200 (identity_body "anonymous" "none" [] None))
  | Some i =>
      let answer csrf := writeJSON [] 200 (identity_body (id_Username i) (id_Mode i) ("viewer" :: (if id_Admin i then ["admin"] else [])) (Some csrf)) in
      if cf_auth cfg then
        match Cookie r SessionCookie with
        | None => sql_fail "nil pointer dereference"
        | Some token =>
            do* res_ <- run_auth (Authenticate sha256 (clock 2) (clock 3) token);
            sql_ret (match res_ with Err _ => fail_with 401 (auth_text ErrNoSession) | Ok (_, csrf) => answer csrf end)
        end
      else sql_ret (answer "")
  end.

Definition allowsPrivileged (now : Time) (identity : Identity) : Api bool :=
  if cf_auth cfg then zoom w_auth put_auth (AllowsPrivileged now identity)
  else match cf_forward cfg with
       | Some g => sql_ret (forward_AllowsPrivileged g identity)
       | None => sql_ret false
       end.

(** *** server.go: the configuration and card routes *)

Definition dashboard_of (c : Config) : payload :=
  let card_of (c : Card) := {| dc_ID := card_ID c; dc_Title := or_default (card_Title c) (card_ID c); dc_Icon := card_Icon c;
                               dc_Href := card_Href c; dc_Span := card_Span c |} in
  PDashboard (or_default (Appearance (cfg_Dashboard c)) "clean")
    (map (fun s => {| dsn_Title := sec_Title s; dsn_Cards := map card_of (Cards s) |}) (Sections c))
    (negb (String.eqb (Background (cfg_Dashboard c)) "")).
Definition no_config : response := fail_with 503 "no valid configuration loaded".
Definition dashboard (st : ConfigStore.Store) : response :=
  match sr_current st with None => no_config | Some snap => writeJSON [] 200 (dashboard_of (snap_Config snap)) end.
Definition pending_cards (st : ConfigStore.Store) : list CardState :=
  match sr_current st with None => [] | Some snap => map (fun c => Pending (card_ID c)) (all_cards (snap_Config snap)) end.
Definition cards (st : ConfigStore.Store) : Api response :=
  if cf_scheduler cfg then do* m <- look w_mgr; sql_ret (writeJSON [] 200 (PCards (States m)))
  else sql_ret (writeJSON [] 200 (PCards (pending_cards st))).
Definition card (id : string) : Api response :=
  do* m <- look w_mgr;
  sql_ret (match states m !! id with None => fail_with 404 "no such card" | Some cs => writeJSON [] 200 (PCard cs) end).
(** [RefreshNow] to its end: the gate, then the run. *)
Definition refresh_now (now : Time) (id : string) : Api (option sched_error) :=
  do* m <- look w_mgr;
  let '(m1, gate) := RefreshNow now m id in
  match gate with
  | Err e => do* _ <- assign (put_mgr m1); sql_ret (Some e)
  | Ok d => let '(m2, err) := refresh_run m1 d in do* _ <- assign (put_mgr m2); sql_ret err
  end.
Definition refresh_status (e : sched_error) : Z :=
  match e with ErrUnknownCard => 404 | Scheduler.ErrRateLimited => 429 | _ => 500 end.
Definition refresh (who : option Identity) (id : string) (r : http_request) : Api response :=
  let actor := id_Username (who_of who) in
  do* err <- refresh_now (clock 2) id;
  match err with
  | Some e => do* _ <- audit (clock 3) (entry actor r "card.refresh" id "failure" None); sql_ret (fail_with (refresh_status e) (sched_text e))
  | None => do* _ <- audit (clock 3) (entry actor r "card.refresh" id "success" None);
            do* m <- look w_mgr; sql_ret (writeJSON [] 200 (PCard (default no_state (states m !! id))))
  end.
Definition events (r : http_request) : Api response :=
  let limit := default 0%Z (Atoi (first_value (hr_query r !! "limit"))) in
  do* res_ <- sql_try (zoom w_db put_db (RecentEvents limit));
  sql_ret (match res_ with Err _ => fail_with 500 "load events" | Ok l => writeJSON [] 200 (PEvents l) end).
Definition stream_headers : list (string * string) :=
  [("Content-Type", "text/event-stream"); ("Cache-Control", "no-cache"); ("X-Accel-Buffering", "no")].
Definition stream (who : option Identity) (r : http_request) : Api response :=
  do* h <- look w_hub;
  let '(h', sub) := subscribe (header_Get (hr_headers r) "Last-Event-ID") (id_SessionID (who_of who)) h in
  do* _ <- assign (put_hub h');
  sql_ret (match sub with
           | None => http_Error stream_headers 503 "too many streams"
           | Some s => {| rp_status := 200; rp_headers := stream_headers; rp_cookies := []; rp_body := PStream s |}
           end).

(** *** integrations.go *)

Definition LockFileName : string := "veduta.lock.yaml".
Definition configDir (st : ConfigStore.Store) : string := filepath_Dir (sr_path st).
Definition read_file (fs : gmap string (string * Z)) (path : string) : file_read :=
  match fs !! path with
  | None => FileMissing
  | Some (s, _) => if unreadable path then FileUnreadable else FileData s
  end.
Definition file_text (fs : gmap string (string * Z)) (path : string) : option string :=
  match read_file fs path with FileData s => Some s | _ => None end.
Definition manifest_in (fs : gmap string (string * Z)) (dir : string) : res Approval.load_error Manifest :=
  LoadManifest (fun name => file_text fs (filepath_Join dir name)) (fun name => bool_decide (is_Some (fs !! filepath_Join dir name)))
    manifest_digest decode_manifest.
Definition lock_path (st : ConfigStore.Store) : string := filepath_Join (configDir st) LockFileName.
Definition read_lock (fs : gmap string (string * Z)) (st : ConfigStore.Store) : res lock_error Lock :=
  ReadLock unmarshal_any unmarshal_lock lockSchema (read_file fs (lock_path st)).
Definition lock_entry (l : Lock) (id : string) : option LockEntry := default ∅ (lk_Integrations l) !! id.

Inductive resolve_error :=
| NoConfiguration | errIntegrationNotDeclared | BadSource | errIntegrationBuiltin | ManifestFailed (e : Approval.load_error) | LockFailed (e : lock_error).
Definition resolve_text (e : resolve_error) : string :=
  match e with
  | NoConfiguration => "no valid configuration loaded"
  | errIntegrationNotDeclared => "integration not declared in configuration"
  | BadSource => "unsupported integration source"
  | errIntegrationBuiltin => "builtin integrations are exempt from the lock"
  | ManifestFailed e => load_text e
  | LockFailed e => lock_text e
  end.
Definition resolveForApproval (st : ConfigStore.Store) (fs : gmap string (string * Z)) (id : string)
  : res resolve_error (Manifest * option LockEntry) :=
  match sr_current st with
  | None => Err NoConfiguration
  | Some snap =>
      match IntegrationByID snap id with
      | None => Err errIntegrationNotDeclared
      | Some i =>
          match ResolveSource (configDir st) (in_Source i) with
          | None => Err BadSource
          | Some src =>
              guard! negb (so_Builtin src) else errIntegrationBuiltin;
              let! m := res_map_err ManifestFailed (manifest_in fs (so_Dir src)) in
              let! lock := res_map_err LockFailed (read_lock fs st) in
              Ok (m, lock_entry lock id)
          end
      end
  end.
Definition writeIntegrationError (e : resolve_error) : response :=
  fail_with (match e with
             | errIntegrationNotDeclared => 404
             | errIntegrationBuiltin => 409
             | ManifestFailed ErrManifestNotFound => 404
             | _ => 500
             end) (resolve_text e).
Definition summariseIntegration (st : ConfigStore.Store) (snap : Snapshot) (fs : gmap string (string * Z)) (lock : Lock) (id : string) : integrationSummary :=
  let failed e := {| is_ID := id; is_Builtin := false; is_Status := ""; is_Runtime := ""; is_Version := ""; is_Capabilities := []; is_Error := e |} in
  let source := match IntegrationByID snap id with Some i => in_Source i | None => "" end in
  match ResolveSource (configDir st) source with
  | None => failed (resolve_text BadSource)
  | Some src =>
      if so_Builtin src
      then {| is_ID := id; is_Builtin := true; is_Status := StatusBuiltin; is_Runtime := ""; is_Version := ""; is_Capabilities := []; is_Error := "" |}
      else match manifest_in fs (so_Dir src) with
           | Err e => failed (load_text e)
           | Ok m => {| is_ID := id; is_Builtin := false; is_Status := Evaluate m (lock_entry lock id); is_Runtime := mf_Runtime m;
                        is_Version := mf_Version m;
                        is_Capabilities := match lock_entry lock id with Some e => le_Capabilities e | None => [] end; is_Error := "" |}
           end
  end.
Definition integrations (st : ConfigStore.Store) : Api response :=
  match sr_current st with
  | None => sql_ret no_config
  | Some snap =>
      do* fs <- look w_files;
      sql_ret (match read_lock fs st with
               | Err e => fail_with 500 (lock_text e)
               | Ok lock => writeJSON [] 200 (PIntegrations (map (summariseIntegration st snap fs lock)
                                                               (isort str_leb (map in_ID (Integrations (snap_Config snap))))))
               end)
  end.
Definition preview (m : Manifest) (entry : option LockEntry) (limits : Limits) (d : Diff) : payload :=
  PPreview {| pv_ManifestSHA256 := mf_Digest m; pv_CurrentLock := entry; pv_Diff := d; pv_ManifestLimits := limits |}.
Definition zero_limits : Limits :=
  {| lm_MemoryMB := None; lm_TimeoutMs := None; lm_OutputKB := None; lm_HTTPRequests := None; lm_ResponseMB := None; lm_CacheEntries := None;
     lm_InputMB := None; lm_JSONDepth := None; lm_JSONNodes := None; lm_ExprNodes := None; lm_Iterations := None; lm_RequestBodyKB := None;
     lm_HostCalls := None; lm_CacheBytesKB := None |}.
Definition approval_ (st : ConfigStore.Store) (id : string) : Api response :=
  do* fs <- look w_files;
  sql_ret (match resolveForApproval st fs id with
           | Err e => writeIntegrationError e
           | Ok (m, entry) => match ComputeDiff ParseMediaType FormatMediaType m entry with
                              | Err e => fail_with 500 (route_text e)
                              | Ok d => writeJSON [] 200 (preview m entry (mf_Limits m) d)
                              end
           end).

Definition unauthenticatedApprovedBy : string := "rest-api (unauthenticated)".
Definition exceeds (e : approve_error) : bool :=
  match e with ExceedsCapability _ | ExceedsRoute _ | ExceedsBadRoute _ | ExceedsLimit _ => true | _ => false end.

(** The end of the transaction: the lock is read again, gets the entry, and is written. *)
Definition store_entry (st : ConfigStore.Store) (id approvedBy : string) (r : http_request) (grants : Grants) (e : LockEntry) : Api response :=
  do* fs <- look w_files;
  match read_lock fs st with
  | Err err => sql_ret (fail_with 500 (lock_text err))
  | Ok lock =>
      match lk_Integrations lock with
      | None => sql_fail "assignment to entry in nil map"
      | Some m =>
          match WriteLock unmarshal_any marshal_lock lockSchema tmp (lock_path st) cut write_fails
                  {| lk_Version := lk_Version lock; lk_Integrations := Some (<[id := e]> m) |} with
          | Err err => sql_ret (fail_with 500 (lock_text err))
          | Ok ops =>
              do* _ <- assign (fun w => put_files (foldl fs_apply (w_files w) ops) w);
              match write_fails with
              | Some _ => sql_ret (fail_with 500 "write veduta.lock.yaml")
              | None =>
                  do* _ <- audit (clock 5) (entry approvedBy r "integration.approve" id "success"
                                              (Some (AMap [("grants", grants_json grants); ("manifestDigest", AString (le_ManifestSHA256 e))])));
                  sql_ret (writeJSON [] 200 (PEntry e))
              end
          end
      end
  end.

Definition approve_answer (m : Manifest) (current : option LockEntry) (e : approve_error) : response :=
  match e with
  | ErrDigestChanged =>
      match ComputeDiff ParseMediaType FormatMediaType m current with
      | Err de => fail_with 500 (route_text de)
      | Ok d => writeJSON [] 409 (preview m current zero_limits d)
      end
  | _ => fail_with (if exceeds e then 400 else 500) (approve_text e)
  end.

(** What follows the privilege check, under [approveMu]. *)
Definition approve_locked (st : ConfigStore.Store) (who : option Identity) (id : string) (r : http_request) : Api response :=
  do* fs <- look w_files;
  match resolveForApproval st fs id with
  | Err e => sql_ret (writeIntegrationError e)
  | Ok (m, current) =>
      match decode_approve (limitBody (hr_body r)) with
      | Err e => sql_ret (fail_with 400 ("invalid JSON body: " +:+ e))
      | Ok (_, _, false) => sql_ret (fail_with 400 "trailing content after the JSON body")
      | Ok (expected, grants, true) =>
          let approvedBy := match who with Some i => id_Username i | None => unauthenticatedApprovedBy end in
          match Approve ParseMediaType FormatMediaType m expected grants approvedBy (clock 4) with
          | Err e =>
              do* _ <- audit (clock 5) (entry approvedBy r "integration.approve" id "failure"
                                          (Some (AMap [("actualDigest", AString (mf_Digest m)); ("expectedDigest", AString expected)])));
              sql_ret (approve_answer m current e)
          | Ok e => store_entry st id approvedBy r grants e
          end
      end
  end.
Definition approve (st : ConfigStore.Store) (who : option Identity) (id : string) (r : http_request) : Api response :=
  do* allowed <- (if String.eqb (cf_authMode cfg) "" then sql_ret true
                  else match who with None => sql_ret false | Some i => allowsPrivileged (clock 2) i end);
  if negb allowed then
    do* _ <- audit (clock 3) (entry (id_Username (who_of who)) r "integration.approve" id "failure"
                                (Some (AMap [("reason", AString "fresh privileged authorization required")])));
    sql_ret (fail_with 403 "fresh privileged authorization required")
  else approve_locked st who id r.

(** *** connections.go *)

Definition connections (st : ConfigStore.Store) : response :=
  match sr_current st with
  | None => no_config
  | Some snap =>
      writeJSON [] 200 (PConnections (map (fun p => {| cs_ID := p.1; cs_Kind := conn_Kind p.2; cs_Health := health p.1 |})
                                        (isort (fun a b => str_leb a.1 b.1) (map_to_list (Connections (snap_Config snap))))))
  end.
Definition test_connection (st : ConfigStore.Store) (who : option Identity) (id : string) (r : http_request) : Api response :=
  match sr_current st with
  | None => sql_ret no_config
  | Some snap =>
      let record outcome := audit (clock 2) (entry (id_Username (who_of who)) r "connection.test" id outcome None) in
      match Connections (snap_Config snap) !! id with
      | None => do* _ <- record "failure"; sql_ret (fail_with 404 "no such connection")
      | Some conn =>
          let h := health id in
          do* _ <- record (if Reachable h then "success" else "failure");
          sql_ret (writeJSON [] 200 (PConnection {| cs_ID := id; cs_Kind := conn_Kind conn; cs_Health := h |}))
      end
  end.

(** *** The server *)

Definition handle (e : endpoint) (vars : list string) (who : option Identity) (r : http_request) : Api response :=
  let id := default "" (head vars) in
  let with_store (k : ConfigStore.Store -> Api response) := match cf_store cfg with Some st => k st | None => sql_ret http_NotFound end in
  match e with
  | EHealth => sql_ret (writeJSON [] 200 (PObject [("status", AString "ok")]))
  | EVersion => sql_ret (writeJSON [] 200 version_info)
  | ENotices => sql_ret {| rp_status := 200; rp_headers := [("Content-Type", "text/plain; charset=utf-8"); ("Cache-Control", "public, max-age=86400")];
                           rp_cookies := []; rp_body := PText notices |}
  | EMe => me who r
  | ELogin => login r
  | ELogout => logout who r
  | ESudo => sudo who r
  | EEvents => events r
  | EConfigStatus => with_store (fun st => sql_ret (writeJSON [] 200 (PStatus (sr_status st))))
  | EDashboard => with_store (fun st => sql_ret (dashboard st))
  | ECards => with_store cards
  | ECard => card id
  | ERefresh => refresh who id r
  | EStream => stream who r
  | EIntegrations => with_store integrations
  | EApproval => with_store (fun st => approval_ st id)
  | EApprove => with_store (fun st => approve st who id r)
  | EConnections => with_store (fun st => sql_ret (connections st))
  | EConnectionTest => with_store (fun st => test_connection st who id r)
  | EIcons | EBackground | EAssets | EStatic =>
      let '(ops, resp) := other e vars r in
      do* _ <- assign (fun w => put_files (foldl fs_apply (w_files w) ops) w);
      sql_ret resp
  end.

Definition redirect (path : string) : response :=
  {| rp_status := 301; rp_headers := [("Location", path)]; rp_cookies := []; rp_body := PNone |}.
Definition mux (who : option Identity) (r : http_request) : Api response :=
  match dispatch cfg r with
  | Redirect p => sql_ret (redirect p)
  | To e vars => handle e vars who r
  end.

(** [authenticate] *)
Definition reading (method : string) : bool := String.eqb method "GET" || String.eqb method "HEAD" || String.eqb method "OPTIONS".
Definition unauthenticated (r : http_request) : bool :=
  String.eqb (hr_path r) "/api/v1/health" || String.eqb (hr_path r) "/api/v1/version" || String.eqb (hr_path r) "/api/v1/notices"
  || String.eqb (hr_path r) "/api/v1/auth/session" && String.eqb (hr_method r) "POST" && cf_auth cfg || negb (isAPIPath (hr_path r)).
Definition identify (r : http_request) : Api (res failure Identity) :=
  match cf_forward cfg with
  | Some g =>
      sql_ret (res_map_err FAuth
        (let! i := forward_Authenticate sha256 g r in
         if reading (hr_method r) then Ok i else let! _ := CheckMutation origin_host EqualFold r in Ok i))
  | None =>
      match Cookie r SessionCookie with
      | None => sql_ret (Err (FAuth ErrNoSession))
      | Some token =>
          if reading (hr_method r) then
            do* a <- run_auth (Authenticate sha256 (clock 0) (clock 1) token);
            sql_ret (let! x := a in Ok x.1)
          else match Cookie r CSRFCookie with
               | None => sql_ret (Err (FAuth ErrCSRF))
               | Some csrf => run_auth (CheckCSRF sha256 (clock 0) (clock 1) token csrf (header_Get (hr_headers r) CSRFHeader))
               end
      end
  end.
Definition refused (f : failure) : response :=
  writeJSON (match cf_forward cfg with Some _ => [("X-Veduta-Auth-Mode", "forward")] | None => [] end)
    (match f with FAuth ErrCSRF => 403 | _ => 401 end) (error_body (failure_text f)).
Definition authenticate (next : option Identity -> http_request -> Api response) (r : http_request) : Api response :=
  if (negb (cf_auth cfg) && match cf_forward cfg with None => true | Some _ => false end) || unauthenticated r then next None r
  else
    do* who <- identify r;
    match who with
    | Err f => sql_ret (refused f)
    | Ok i => next (Some i) r
    end.
Definition recoverPanics (m : Api response) : Api response :=
  do* res_ <- sql_try m;
  sql_ret (match res_ with Ok resp => resp | Err _ => fail_with 500 "internal" end).
Definition serve (r : http_request) : Api response :=
  do* resp <- recoverPanics (authenticate mux r);
  sql_ret (securityHeaders r resp).
End Server.

(** ** Lemmas on paths *)

Lemma path_unescape_join l s : l <> [] -> path_unescape (Join "/" l) = Some s -> s = Join "/" (map unescape_segment l).
Proof.
  revert s. induction l as [|x l IH]; intros s Hl H; [done|]. destruct l as [|y l].
  - cbn in *. unfold unescape_segment. by rewrite H.
  - rewrite Join_cons in H by done. rewrite path_unescape_slash in H. cbn [map]. rewrite Join_cons by done.
    destruct (path_unescape x) as [x'|] eqn:Ex; [|done]. destruct (path_unescape (Join "/" (y :: l))) as [z|] eqn:Ez; [|done].
    injection H as <-.
    rewrite (IH z) by done. assert (unescape_segment x = x') as -> by (unfold unescape_segment; by rewrite Ex). done.
Qed.

Lemma cleanPath_rooted p : exists rest, cleanPath p = "/" +:+ rest.
Proof.
  unfold cleanPath. set (p' := if HasPrefix p "/" then p else "/" +:+ p).
  assert (H : HasPrefix p' "/" = true) by (subst p'; destruct (HasPrefix p "/") eqn:E; [done|apply HasPrefix_true; by exists p]).
  unfold filepath_Clean. rewrite H. destruct (_ && _); eexists; [by rewrite app_assoc_str|done].
Qed.

(** A routed path: the segments, unescaped and joined, are the path the authentication sees. *)
Lemma dispatched_path cfg r e vars : well_formed r -> dispatch cfg r = To e vars -> e <> EStatic ->
  exists rt, rt ∈ routes cfg /\ match_route (hr_method r) (path_segments (hr_escaped r)) rt = Some (e, vars)
    /\ hr_path r = "/" +:+ Join "/" (path_segments (hr_escaped r)).
Proof.
  intros Hw H He. unfold dispatch in H. destruct (_ && _) eqn:Hc; [done|].
  destruct (first_match _ _ _) as [[e' vars']|] eqn:Hf; [|congruence]. injection H as -> ->.
  assert (Hm : exists rt, rt ∈ routes cfg /\ match_route (hr_method r) (path_segments (hr_escaped r)) rt = Some (e, vars)).
  { revert Hf. generalize (routes cfg). intros l. induction l as [|rt l IH]; [done|]. cbn.
    destruct (match_route _ _ rt) eqn:E; intros Hf; [injection Hf as ->; exists rt; split; [by left|done]|].
    destruct (IH Hf) as (rt' & Hin & Hm). exists rt'. split; [by right|done]. }
  destruct Hm as (rt & Hin & Hm). exists rt. split; [done|]. split; [done|].
  apply andb_false_iff in Hc as [Hc|Hc]; apply negb_false_iff, String.eqb_eq in Hc.
  - exfalso. clear - Hin Hm Hc. unfold match_route in Hm. rewrite Hc in Hm.
    assert (Hno : forallb (fun rt : pattern * endpoint => negb (method_matches rt.1.1 "CONNECT")) (routes cfg) = true).
    { unfold routes. by destruct (cf_auth cfg), (cf_events cfg), (cf_icons cfg), (cf_store cfg), (cf_scheduler cfg), (cf_registry cfg), (cf_assets cfg). }
    rewrite forallb_forall in Hno. apply list_elem_of_In in Hin. apply Hno in Hin. apply negb_true_iff in Hin. by rewrite Hin in Hm.
  - destruct (cleanPath_rooted (hr_escaped r)) as [rest Hr]. rewrite Hr in Hc. unfold well_formed in Hw. rewrite <- Hc in *.
    change ("/" +:+ rest) with (String "/" rest) in *. cbn in Hw.
    destruct (path_unescape rest) as [x|] eqn:Ex; [|done]. injection Hw as <-. unfold path_segments. cbn.
    rewrite <- (Join_Split "/" rest) in Ex. apply path_unescape_join in Ex as ->; [done|apply Split_nonempty].
Qed.

(** The endpoints anyone may ask for. *)
Definition public (e : endpoint) : bool :=
  match e with EHealth | EVersion | ENotices | ELogin | EStatic => true | _ => false end.

Lemma match_literals l segs vars : match_segments (map Lit l) segs = Some vars -> segs = l.
Proof.
  revert segs vars. induction l as [|a l IH]; intros [|s segs] vars; cbn; try done.
  destruct (String.eqb_spec a s) as [->|]; [|done]. intros H. f_equal. by eapply IH.
Qed.
Lemma match_prefix l pat segs vars : match_segments (map Lit l ++ pat) segs = Some vars ->
  exists rest, segs = l ++ rest /\ match_segments pat rest = Some vars.
Proof.
  revert segs. induction l as [|a l IH]; intros segs; cbn; [by exists segs|]. destruct segs as [|s segs]; [done|].
  destruct (String.eqb_spec a s) as [->|]; [|done]. intros (rest & -> & H)%IH. by exists rest.
Qed.

(** Every route there can be. *)
Definition all_services : services :=
  {| cf_auth := true; cf_forward := None; cf_audit := true; cf_authMode := ""; cf_events := true; cf_icons := true;
     cf_store := Some {| sr_path := ""; sr_current := None; sr_status := {| st_OK := false; st_Generation := 0; st_Checksum := "";
       st_LoadedAt := 0; st_AttemptedAt := 0; st_Diagnostics := [] |} |}; cf_registry := true; cf_scheduler := true; cf_assets := true |}.
Lemma elem_if {A} (x : A) (b : bool) l : x ∈ (if b then l else []) -> x ∈ l.
Proof. destruct b; [done|]. intros []%not_elem_of_nil. Qed.
Lemma routes_all cfg rt : rt ∈ routes cfg -> rt ∈ routes all_services.
Proof.
  unfold routes. cbn [all_services cf_auth cf_events cf_icons cf_store cf_registry cf_scheduler cf_assets]. rewrite !elem_of_app.
  intros [H|[H%elem_if|[H%elem_if|[H%elem_if|H]]]]; [by left|by right; left|by right; right; left|by right; right; right; left|].
  do 4 right. destruct (cf_store cfg); [|by apply elem_of_nil in H]. rewrite !elem_of_app in *.
  destruct H as [H|[H%elem_if|[H|[H%elem_if|[H|[H%elem_if|H%elem_if]]]]]]; tauto.
Qed.

Lemma protected_path cfg r e vars : well_formed r -> dispatch cfg r = To e vars -> public e = false -> unauthenticated cfg r = false.
Proof.
  intros Hw Hd Hp. destruct (dispatched_path cfg r e vars Hw Hd) as (rt & Hin & Hm & Hpath); [by intros ->|].
  unfold unauthenticated. rewrite Hpath. unfold match_route in Hm.
  destruct (method_matches rt.1.1 (hr_method r)) eqn:Hmeth; [|done].
  apply fmap_Some in Hm as (vs & Hm & E). injection E as -> ->.
  set (segs := path_segments (hr_escaped r)) in *. clearbody segs. clear Hpath Hw Hd.
  apply routes_all in Hin. unfold routes in Hin. cbn [all_services cf_auth cf_events cf_icons cf_store cf_registry cf_scheduler cf_assets app] in Hin.
  unfold api in Hin.
  repeat (apply elem_of_cons in Hin as [->|Hin]); [..|by apply elem_of_nil in Hin]; cbn [fst snd] in *; try discriminate Hp;
    first [ apply match_literals in Hm as -> | apply match_prefix in Hm as ([|? rest] & -> & Hm); [discriminate Hm|] ]; try reflexivity.
  unfold method_matches in Hmeth. change (String.eqb "DELETE" "GET") with false in Hmeth. rewrite andb_false_l, orb_false_r in Hmeth. apply String.eqb_eq in Hmeth as <-. reflexivity.
Qed.

(** No request matches two routes, so the order of the table does not matter. *)
Fixpoint overlap (a b : list segment) : bool :=
  match a, b with
  | [], [] => true
  | Lit x :: a', Lit y :: b' => String.eqb x y && overlap a' b'
  | _ :: a', _ :: b' => overlap a' b'
  | _, _ => false
  end.
Lemma match_overlap a b segs va vb : match_segments a segs = Some va -> match_segments b segs = Some vb -> overlap a b = true.
Proof.
  revert b segs va vb. induction a as [|x a IH]; intros [|y b] [|s segs] va vb; cbn; try done; try (by destruct x); try (by destruct y).
  destruct x as [x|], y as [y|]; cbn.
  - destruct (String.eqb_spec x s) as [->|]; [|done]. destruct (String.eqb_spec y s) as [->|]; [|done].
    rewrite String.eqb_refl. apply IH.
  - destruct (String.eqb x s); [|done]. destruct (String.eqb s ""); [done|]. intros H (v & Hv & _)%fmap_Some. by eapply IH.
  - destruct (String.eqb s ""); [done|]. destruct (String.eqb y s); [|done]. intros (v & Hv & _)%fmap_Some H. by eapply IH.
  - destruct (String.eqb s ""); [done|]. intros (v & Hv & _)%fmap_Some (v' & Hv' & _)%fmap_Some. by eapply IH.
Qed.
Definition clash (l : list (pattern * endpoint)) : list (endpoint * endpoint) :=
  concat (imap (fun i p => omap (fun q : pattern * endpoint => if String.eqb p.1.1 q.1.1 && overlap p.1.2 q.1.2 then Some (p.2, q.2) else None)
                             (drop (S i) l)) l).
Example routes_unambiguous : clash (routes all_services) = [].
Proof. vm_compute. reflexivity. Qed.

(** ** Lemmas on the state *)

Section Frames.
Context {RunFunc : Type}.
Local Notation ApiWorld := (@ApiWorld RunFunc).

(** What of the server a statement on the tables or on the sessions leaves alone. *)
Definition outside (w : ApiWorld) : Manager * gmap string (string * Z) * sseHub := (w_mgr w, w_files w, w_hub w).

Lemma put_auth_get (w : ApiWorld) : put_auth (w_auth w) w = w.
Proof. by destruct w. Qed.
Lemma put_db_get (w : ApiWorld) : put_db (w_db w) w = w.
Proof. by destruct w as [[] ? ? ?]. Qed.
Lemma preserves_const {D A} (P : Prop) (m : Sql D A) : P -> preserves (fun _ => P) m.
Proof. intros HP s _. by destruct (m s) as [s' [a|e]]. Qed.
Lemma outside_auth {A} (P : _ -> Prop) (m : Sql AuthWorld A) : preserves (fun w : ApiWorld => P (outside w)) (zoom w_auth put_auth m).
Proof. apply preserves_zoom; [|apply put_auth_get]. intros d Hd. by apply (preserves_const (P (outside d))). Qed.
Lemma outside_db {A} (P : _ -> Prop) (m : Sql DB A) : preserves (fun w : ApiWorld => P (outside w)) (zoom w_db put_db m).
Proof. apply preserves_zoom; [|apply put_db_get]. intros d Hd. by apply (preserves_const (P (outside d))). Qed.
Lemma outside_run_auth {A} (P : _ -> Prop) (m : Sql AuthWorld (res auth_error A)) : preserves (fun w : ApiWorld => P (outside w)) (run_auth m).
Proof. unfold run_auth. apply preserves_bind; [apply preserves_try, outside_auth|intros r; apply preserves_ret]. Qed.
Lemma outside_audit {Y} (P : _ -> Prop) (ev : @environment RunFunc Y) cfg now e : preserves (fun w : ApiWorld => P (outside w)) (audit ev cfg now e).
Proof. unfold audit. destruct (cf_audit cfg); [|apply preserves_ret]. apply preserves_bind; [apply preserves_try, outside_db|intros r; apply preserves_ret]. Qed.
End Frames.

(** *** The identity a request is given *)

(** The session and the user the database has for a token, the session not expired. *)
Definition session_of_token (sha256 : string -> string) (d : DB) (now : Time) (token : string) (i : Identity) (csrf : string) : Prop :=
  exists u row, session_user (tokenHash sha256 token) d = Some (u, row) /\ live_session now row = true /\ token <> ""
    /\ id_Username i = us_username u /\ id_SessionID i = tokenHash sha256 token /\ id_Mode i = "password" /\ csrf = ss_csrf_token row.

(** The service as it was, the tables too but for sessions, of which none is new. *)
Definition same_but_sessions (w0 w : AuthWorld) : Prop :=
  aw_svc w = aw_svc w0 /\ kept (t_sessions (aw_db w0)) (t_sessions (aw_db w))
  /\ aw_db w = on_sessions (fun _ => t_sessions (aw_db w)) (aw_db w0).
Lemma same_but_sessions_refl w : same_but_sessions w w.
Proof. split; [done|]. split; [apply kept_refl|]. by destruct w as [[] ?]. Qed.
Lemma same_but_sessions_on w0 w f : (forall m, kept m (f m)) -> same_but_sessions w0 w -> same_but_sessions w0 (on_tables (on_sessions f) w).
Proof.
  intros Hf (H1 & H2 & H3). split; [done|]. split; [eapply kept_trans; [exact H2|apply Hf]|]. cbn. rewrite H3. done.
Qed.
Lemma same_authenticate sha256 w0 t t2 token : preserves (same_but_sessions w0) (Authenticate sha256 t t2 token).
Proof.
  unfold Authenticate, deny. cbv zeta. repeat first [ sql_step | apply preserves_update; intros w Hw; apply same_but_sessions_on; [|exact Hw] ];
    intros m; [apply kept_delete, kept_refl|apply kept_see, kept_refl].
Qed.
Lemma same_csrf sha256 w0 t t2 a b c : preserves (same_but_sessions w0) (CheckCSRF sha256 t t2 a b c).
Proof. unfold CheckCSRF, deny. apply preserves_bind; [apply same_authenticate|intros x]. repeat sql_step. Qed.

Lemma authenticate_session sha256 t t2 token s s' i csrf :
  Authenticate sha256 t t2 token s = (s', Ok (Ok (i, csrf))) -> session_of_token sha256 (aw_db (db s)) t token i csrf.
Proof.
  unfold Authenticate, deny. intros H. destruct (String.eqb_spec token "") as [|Hne]; [done|]. cbv zeta in H.
  apply bind_Ok in H as (s1 & found & [E1 ->]%query_Ok & H).
  destruct (session_user (tokenHash sha256 token) (aw_db (db s))) as [[u row]|] eqn:E; [|done].
  destruct (live_session t row) eqn:El; cbn [negb] in H; apply bind_Ok in H as (s2 & r & _ & H); [|discriminate H]. injection H as <- <- <-.
  exists u, row. done.
Qed.
Lemma csrf_session sha256 t t2 token cookie header s s' i :
  CheckCSRF sha256 t t2 token cookie header s = (s', Ok (Ok i)) ->
  session_of_token sha256 (aw_db (db s)) t token i cookie /\ header = cookie /\ cookie <> "".
Proof.
  unfold CheckCSRF, deny. intros H. apply bind_Ok in H as (s1 & [[j stored]|e] & Ha & H); [|discriminate H].
  destruct (String.eqb_spec cookie ""); [done|]. destruct (String.eqb_spec header ""); [done|].
  destruct (String.eqb_spec stored cookie) as [<-|]; [|done]. destruct (String.eqb_spec stored header) as [<-|]; [|done].
  injection H as <- <-. split; [|done]. by eapply authenticate_session.
Qed.

(** *** The authentication's outcome *)

Section Outcome.
Context {RunFunc Y : Type}.
Local Notation ApiWorld := (@ApiWorld RunFunc).
Variable ev : @environment RunFunc Y.
Variable cfg : services.
Variable dr : draws.

(** The identity [i] is the request's, on a server whose state is [w]. *)
Inductive accepted (w : ApiWorld) (r : http_request) (i : Identity) : Prop :=
| by_proxy g fcfg :
    cf_forward cfg = Some g -> new_generation fcfg = Ok g -> trusted_identity fcfg r i ->
    (reading (hr_method r) = false ->
     ev_EqualFold ev (header_Get (hr_headers r) "Sec-Fetch-Site") "cross-site" = false
     /\ (header_Get (hr_headers r) "Origin" <> "" ->
         exists h, ev_origin_host ev (header_Get (hr_headers r) "Origin") = Some h /\ ev_EqualFold ev h (hr_host r) = true)) ->
    accepted w r i
| by_session token csrf :
    cf_forward cfg = None -> Cookie r SessionCookie = Some token ->
    session_of_token (ev_sha256 ev) (w_db w) (dr_clock dr 0) token i csrf ->
    (reading (hr_method r) = false ->
     Cookie r CSRFCookie = Some csrf /\ header_Get (hr_headers r) CSRFHeader = csrf /\ csrf <> "") ->
    accepted w r i.

(** Only sessions are touched, and none is new. *)
Definition touched (w0 w : ApiWorld) : Prop := outside w = outside w0 /\ same_but_sessions (w_auth w0) (w_auth w).
Lemma touched_refl w : touched w w.
Proof. split; [done|apply same_but_sessions_refl]. Qed.
Lemma touched_run_auth {A} w0 (m : Sql AuthWorld (res auth_error A)) :
  preserves (same_but_sessions (w_auth w0)) m -> preserves (touched w0) (run_auth m).
Proof.
  intros Hm. unfold run_auth. apply preserves_bind; [|intros x; apply preserves_ret]. apply preserves_try, preserves_zoom; [|apply put_auth_get].
  intros d [Hd _] s [_ Hs]. specialize (Hm s Hs). by destruct (m s) as [s' [a|e]].
Qed.
Lemma identify_touches w0 r : preserves (touched w0) (identify ev cfg dr r).
Proof.
  unfold identify. destruct (cf_forward cfg); [apply preserves_ret|]. destruct (Cookie r SessionCookie); [|apply preserves_ret].
  destruct (reading (hr_method r)).
  - apply preserves_bind; [apply touched_run_auth, same_authenticate|intros x; apply preserves_ret].
  - destruct (Cookie r CSRFCookie); [|apply preserves_ret]. apply touched_run_auth, same_csrf.
Qed.

Lemma run_auth_Ok {A} (m : Sql AuthWorld (res auth_error A)) (s s' : session ApiWorld) a :
  run_auth m s = (s', Ok (Ok a)) -> exists t, m {| db := w_auth (db s); faults := faults s |} = (t, Ok (Ok a)).
Proof.
  unfold run_auth, sql_bind, sql_try, zoom, sql_ret. destruct (m _) as [t [[x|e]|e]] eqn:E; intros [= _ H]; [|done..]. subst. by exists t.
Qed.
Lemma run_auth_total {A} (m : Sql AuthWorld (res auth_error A)) (s : session ApiWorld) : exists s' x, run_auth m s = (s', Ok x).
Proof. unfold run_auth, sql_bind, sql_try, sql_ret. destruct (zoom w_auth put_auth m s) as [s' x]. by eexists _, _. Qed.

Lemma identify_sound r s s' i : (forall g, cf_forward cfg = Some g -> exists fcfg, new_generation fcfg = Ok g) ->
  identify ev cfg dr r s = (s', Ok (Ok i)) -> accepted (db s) r i.
Proof.
  intros Hgen. unfold identify. destruct (cf_forward cfg) as [g|] eqn:Ef.
  - intros [= <- H]. destruct (Hgen g eq_refl) as [fcfg Hg].
    destruct (forward_Authenticate (ev_sha256 ev) g r) as [j|] eqn:Ea; [|done]. cbn in H.
    assert (Ht : trusted_identity fcfg r j) by by eapply forward_Authenticate_sound.
    destruct (reading (hr_method r)) eqn:Er; [injection H as ->; eapply by_proxy; [done..|by rewrite Er]|].
    destruct (CheckMutation (ev_origin_host ev) (ev_EqualFold ev) r) as [[]|] eqn:Ec; [|done]. injection H as ->.
    eapply by_proxy; [done..|]. intros _. by apply CheckMutation_Ok.
  - destruct (Cookie r SessionCookie) as [token|] eqn:Ec; [|done]. destruct (reading (hr_method r)) eqn:Er.
    + intros (s1 & a & Ha & H)%bind_Ok. injection H as -> Hi. destruct a as [[j csrf]|]; [|done]. injection Hi as ->.
      apply run_auth_Ok in Ha as [t Ht]. apply authenticate_session in Ht. eapply by_session; [done..|by rewrite Er].
    + destruct (Cookie r CSRFCookie) as [csrf|] eqn:Ecs; [|done]. intros [t Ht]%run_auth_Ok.
      apply csrf_session in Ht as (Hs & Hh & Hne). by eapply by_session.
Qed.
Lemma identify_total r s : exists s' x, identify ev cfg dr r s = (s', Ok x).
Proof.
  unfold identify. destruct (cf_forward cfg); [by eexists _, _|]. destruct (Cookie r SessionCookie); [|by eexists _, _].
  destruct (reading (hr_method r)); [|destruct (Cookie r CSRFCookie); [apply run_auth_total|by eexists _, _]].
  unfold sql_bind. destruct (run_auth_total (Authenticate (ev_sha256 ev) (dr_clock dr 0) (dr_clock dr 1) s0) s) as (s' & x & ->). by eexists _, _.
Qed.

(** A request for a protected endpoint is refused, or handled for the identity it is accepted with. *)
Lemma serve_protected r e vars s s' resp :
  well_formed r -> cf_auth cfg = true \/ is_Some (cf_forward cfg) ->
  (forall g, cf_forward cfg = Some g -> exists fcfg, new_generation fcfg = Ok g) ->
  dispatch cfg r = To e vars -> public e = false -> serve ev cfg dr r s = (s', Ok resp) ->
  (touched (db s) (db s') /\ exists f, resp = securityHeaders r (refused cfg f))
  \/ exists i s1 answer, accepted (db s) r i /\ touched (db s) (db s1)
     /\ recoverPanics (handle ev cfg dr e vars (Some i) r) s1 = (s', Ok answer) /\ resp = securityHeaders r answer.
Proof.
  intros Hw Hon Hgen Hto Hp Hs. unfold serve in Hs. apply bind_Ok in Hs as (s1 & answer & Hr & [= -> <-]).
  unfold recoverPanics in Hr. apply bind_Ok in Hr as (s2 & out & Hr & [= -> <-]). apply try_Ok in Hr.
  unfold authenticate in Hr. rewrite (protected_path cfg r e vars Hw Hto Hp) in Hr.
  assert (Hauth : negb (cf_auth cfg) && match cf_forward cfg with None => true | Some _ => false end = false).
  { destruct Hon as [->|[g ->]]; [done|by rewrite andb_false_r]. }
  rewrite Hauth in Hr. cbn [orb] in Hr. unfold sql_bind in Hr.
  destruct (identify_total r s) as (s3 & who & Ei). rewrite Ei in Hr.
  assert (Ht : touched (db s) (db s3)).
  { pose proof (identify_touches (db s) r s (touched_refl _)) as Ht. by rewrite Ei in Ht. }
  destruct who as [i|f].
  - right. exists i, s3, (match out with Ok resp => resp | Err _ => fail_with 500 "internal" end). split; [by eapply identify_sound|]. split; [done|].
    split; [|done]. unfold mux in Hr. rewrite Hto in Hr. unfold recoverPanics, sql_bind, sql_try, sql_ret. by rewrite Hr.
  - left. unfold sql_ret in Hr. injection Hr as <- <-. split; [done|]. by exists f.
Qed.
End Outcome.

(** *** What becomes of the lock file *)

Section Lock.
Context {RunFunc Y : Type}.
Local Notation ApiWorld := (@ApiWorld RunFunc).
Variable ev : @environment RunFunc Y.
Variable cfg : services.
Variable dr : draws.

(** A statement that keeps what lies outside the tables, and one that keeps the files. *)
Ltac outside_step :=
  first [ sql_step | apply outside_auth | apply outside_db | apply outside_run_auth | apply outside_audit
        | apply preserves_assign; intros ? ?; assumption ].

Definition on_files (P : gmap string (string * Z) -> Prop) (w : ApiWorld) : Prop := P (w_files w).
Lemma files_auth {A} P (m : Sql AuthWorld A) : preserves (on_files P) (zoom w_auth put_auth m).
Proof. apply (outside_auth (fun o => P o.1.2)). Qed.
Lemma files_db {A} P (m : Sql DB A) : preserves (on_files P) (zoom w_db put_db m).
Proof. apply (outside_db (fun o => P o.1.2)). Qed.
Lemma files_run_auth {A} P (m : Sql AuthWorld (res auth_error A)) : preserves (on_files P) (run_auth m).
Proof. apply (outside_run_auth (fun o => P o.1.2)). Qed.
Lemma files_audit P now e : preserves (on_files P) (audit ev cfg now e).
Proof. apply (outside_audit (fun o => P o.1.2)). Qed.

Ltac files_step :=
  first [ sql_step | apply files_auth | apply files_db | apply files_run_auth | apply files_audit
        | apply preserves_fail | apply preserves_assign; intros w Hw; exact Hw ].

Lemma refresh_now_files P now id : preserves (on_files P) (refresh_now ev now id).
Proof.
  unfold refresh_now. apply preserves_bind; [apply preserves_look|intros m]. destruct (RefreshNow now m id) as [m1 [d|e]].
  - destruct (ev_refresh_run ev m1 d) as [m2 err]. repeat files_step.
  - repeat files_step.
Qed.

Lemma identify_files P r : preserves (on_files P) (identify ev cfg dr r).
Proof. unfold identify. repeat (files_step || case_match). Qed.

(** The handlers of cached files keep to the files of [cache]. *)
Definition keeps_to (cache : string -> Prop) : Prop :=
  forall e vars r o p, o ∈ (ev_other ev e vars r).1 -> p ∈ touched_by o -> cache p.

(** No handler but the approval's changes a file outside the caches. *)
Lemma handle_files cache (fs : gmap string (string * Z)) e vars who r :
  keeps_to cache -> e <> EApprove -> preserves (on_files (fun f => forall p, ~ cache p -> f !! p = fs !! p)) (handle ev cfg dr e vars who r).
Proof.
  intros Hc He. destruct e; try done; unfold handle; cbv zeta;
    unfold me, login, logout, sudo, events, cards, card, refresh, stream, integrations, approval_, test_connection;
    try (repeat first [ apply refresh_now_files | files_step | case_match ]; done).
  all: destruct (ev_other ev _ vars r) as [ops resp] eqn:E; apply preserves_bind; [|intros []; apply preserves_ret].
  all: apply preserves_assign; intros w Hw p Hp; cbn [w_files put_files].
  all: rewrite (run_elsewhere cache) by (done || (intros o q Ho; by eapply Hc; rewrite E)); by apply Hw.
Qed.

Inductive privileged (w : ApiWorld) (i : Identity) : Prop :=
| pv_sudo : cf_auth cfg = true ->
    (dr_clock dr 2 < default 0 (sv_sudoUntil (aw_svc (w_auth w)) !! id_SessionID i))%Z -> privileged w i
| pv_group g : cf_auth cfg = false -> cf_forward cfg = Some g -> fg_privilegedOperations g = "admin-group" -> id_Admin i = true ->
    privileged w i.

Lemma allowsPrivileged_spec w0 i : hoare (fun w => w = w0) (allowsPrivileged cfg (dr_clock dr 2) i)
  (fun b w => w_files w = w_files w0 /\ (b = true -> privileged w0 i)) (fun w => w_files w = w_files w0).
Proof.
  unfold allowsPrivileged. destruct (cf_auth cfg) eqn:Ea.
  - apply hoare_zoom. intros d ->. unfold AllowsPrivileged. eapply hoare_bind; [apply (hoare_look _ _ (fun s w => w = w_auth w0 /\ s = aw_svc w)); by intros w ->|].
    intros svc. cbn beta. destruct (before _ _) eqn:Eb; cbn [negb].
    + apply hoare_ret. intros w [-> ->]. split; [done|]. intros _. apply pv_sudo; [done|]. unfold before in Eb. lia.
    + apply (hoare_bind _ _ _ (fun _ _ => True)); [by apply hoare_assign|]. intros []. by apply hoare_ret.
  - destruct (cf_forward cfg) as [g|] eqn:Eg; apply hoare_ret; intros w ->; (split; [done|]); [|done].
    unfold forward_AllowsPrivileged. intros [H1%String.eqb_eq H2]%andb_true_iff. by eapply pv_group.
Qed.

(** What an approval writes: the entry of the grant an identity approved, under its digest, in place of
    the integration's own, into the lock as it was read. *)
Record approval_written (files0 files : gmap string (string * Z)) (st : ConfigStore.Store) (id : string) (i : Identity) (r : http_request)
  (m : Manifest) (grants : Grants) (lock : Lock) (es : gmap string LockEntry) (ops : list fs_op) : Prop := {
  aw_manifest : exists current, resolveForApproval ev st files0 id = Ok (m, current);
  aw_request : ev_decode_approve ev (limitBody (hr_body r)) = Ok (mf_Digest m, grants, true);
  aw_approved : approved (ev_ParseMediaType ev) (ev_FormatMediaType ev) m (mf_Digest m) grants;
  aw_lock : read_lock ev files0 st = Ok lock /\ lk_Integrations lock = Some es;
  aw_write : WriteLock (ev_unmarshal_any ev) (ev_marshal_lock ev) (ev_lockSchema ev) (ev_tmp ev) (lock_path st) (ev_cut ev) (ev_write_fails ev)
               {| lk_Version := lk_Version lock;
                  lk_Integrations := Some (<[id := entry_of m grants (id_Username i) (dr_clock dr 4)]> es) |} = Ok ops;
  aw_files : files = foldl fs_apply files0 ops }.
Definition effect (w0 : ApiWorld) st id who r (files : gmap string (string * Z)) : Prop :=
  files = w_files w0
  \/ exists i m grants lock es ops, who = Some i /\ privileged w0 i /\ approval_written (w_files w0) files st id i r m grants lock es ops.

Lemma store_entry_effect w0 st id i r m grants current :
  privileged w0 i -> resolveForApproval ev st (w_files w0) id = Ok (m, current) ->
  ev_decode_approve ev (limitBody (hr_body r)) = Ok (mf_Digest m, grants, true) ->
  approved (ev_ParseMediaType ev) (ev_FormatMediaType ev) m (mf_Digest m) grants ->
  hoare (fun w => w_files w = w_files w0)
    (store_entry ev cfg dr st id (id_Username i) r grants (entry_of m grants (id_Username i) (dr_clock dr 4)))
    (fun _ => on_files (effect w0 st id (Some i) r)) (on_files (effect w0 st id (Some i) r)).
Proof.
  intros Hp Hr Hd Ha. unfold store_entry.
  eapply hoare_bind; [apply (hoare_look _ _ (fun fs w => w_files w = w_files w0 /\ fs = w_files w0)); by intros w Hw|].
  intros fs. intros s [Hs ->]. cbv beta.
  set (e := entry_of m grants (id_Username i) (dr_clock dr 4)).
  assert (Hsame : effect w0 st id (Some i) r (w_files (db s))) by (by left).
  destruct (read_lock ev (w_files w0) st) as [lock|err] eqn:El; [|exact Hsame].
  destruct (lk_Integrations lock) as [es|] eqn:Ees; [|exact Hsame].
  destruct (WriteLock _ _ _ _ _ _ _ _) as [ops|err] eqn:Ew; [|exact Hsame].
  set (s1 := {| db := put_files (foldl fs_apply (w_files (db s)) ops) (db s); faults := faults s |}).
  assert (Hnew : effect w0 st id (Some i) r (w_files (db s1))).
  { right. exists i, m, grants, lock, es, ops. split; [done|]. split; [done|]. split; try done; [by exists current|]. cbn. by rewrite Hs. }
  unfold sql_bind at 1, assign. fold s1. destruct (ev_write_fails ev); [exact Hnew|].
  pose proof (files_audit (effect w0 st id (Some i) r) (dr_clock dr 5) (entry (id_Username i) r "integration.approve" id "success"
    (Some (AMap [("grants", ev_grants_json ev grants); ("manifestDigest", AString (le_ManifestSHA256 e))]))) s1 Hnew) as Ha'.
  unfold sql_bind. destruct (audit _ _ _ _ s1) as [s2 [x|x]]; exact Ha'.
Qed.

Lemma approve_effect w0 st who id r : cf_authMode cfg <> "" ->
  hoare (fun w => w = w0) (approve ev cfg dr st who id r) (fun _ => on_files (effect w0 st id who r)) (on_files (effect w0 st id who r)).
Proof.
  intros Hmode. unfold approve. rewrite (proj2 (String.eqb_neq _ _) Hmode).
  apply (hoare_bind _ _ _ (fun b w => w_files w = w_files w0 /\ (b = true -> exists i, who = Some i /\ privileged w0 i))).
  { destruct who as [i|]; [|apply hoare_ret; by intros w ->].
    eapply hoare_conseq; [apply (allowsPrivileged_spec w0 i)|done| |by intros w Hw; left].
    intros b w [H1 H2]. split; [done|]. intros Hb. exists i. auto. }
  intros allowed. destruct allowed; cbn [negb].
  - intros s [Hf Hp]. destruct (Hp eq_refl) as (i & -> & Hpi). clear Hp. cbv beta.
    assert (Hsame : effect w0 st id (Some i) r (w_files (db s))) by (by left).
    unfold approve_locked. unfold sql_bind at 1, look. rewrite Hf.
    destruct (resolveForApproval ev st (w_files w0) id) as [[m current]|e] eqn:Er; [|exact Hsame].
    destruct (ev_decode_approve ev (limitBody (hr_body r))) as [[[expected grants] [|]]|e] eqn:Ed; [|exact Hsame|exact Hsame].
    cbv zeta. destruct (Approve _ _ _ _ _ _ _) as [e|e] eqn:Ea.
    + apply Approve_approved in Ea as [Ha ->]. assert (mf_Digest m = expected) as <- by apply Ha.
      exact (store_entry_effect w0 st id i r m grants current Hpi Er Ed Ha s Hf).
    + pose proof (files_audit (effect w0 st id (Some i) r) (dr_clock dr 5) (entry (id_Username i) r "integration.approve" id "failure"
        (Some (AMap [("actualDigest", AString (mf_Digest m)); ("expectedDigest", AString expected)]))) s Hsame) as Ha'.
      unfold sql_bind. destruct (audit _ _ _ _ s) as [s2 [x|x]]; exact Ha'.
  - apply (hoare_conseq _ (on_files (effect w0 st id who r)) _ (fun _ => on_files (effect w0 st id who r)) _ (on_files (effect w0 st id who r)) _);
      [|intros w [Hw _]; by left|done|done].
    apply preserves_bind; [apply files_audit|intros x; apply preserves_ret].
Qed.

(** A request that changed a file outside the caches was an approval by an accepted and privileged identity. *)
Lemma serve_files cache r s s' resp p :
  keeps_to cache -> well_formed r -> cf_authMode cfg <> "" ->
  (forall g, cf_forward cfg = Some g -> exists fcfg, new_generation fcfg = Ok g) ->
  serve ev cfg dr r s = (s', Ok resp) -> ~ cache p -> w_files (db s') !! p <> w_files (db s) !! p ->
  exists st vars i m grants lock es ops,
    dispatch cfg r = To EApprove vars /\ cf_store cfg = Some st /\ accepted ev cfg dr (db s) r i
    /\ privileged (db s) i /\ approval_written (w_files (db s)) (w_files (db s')) st (default "" (head vars)) i r m grants lock es ops.
Proof.
  intros Hc Hw Hmode Hgen Hs Hp Hne. assert (Hs0 := Hs). unfold serve in Hs. apply bind_Ok in Hs as (s1 & answer & Hr & [= -> <-]).
  unfold recoverPanics in Hr. apply bind_Ok in Hr as (s2 & out & Hr & [= -> <-]). apply try_Ok in Hr.
  destruct (dispatch cfg r) as [to|e vars] eqn:Hto.
  { exfalso. apply Hne. assert (Hk : preserves (on_files (fun f => forall p, ~ cache p -> f !! p = w_files (db s) !! p)) (authenticate ev cfg dr (mux ev cfg dr) r)).
    { unfold authenticate, mux. rewrite Hto. destruct (_ || _); [apply preserves_ret|].
      apply preserves_bind; [apply identify_files|intros [i|f]; apply preserves_ret]. }
    specialize (Hk s (fun _ _ => eq_refl)). rewrite Hr in Hk. by destruct out; apply Hk. }
  destruct (decide (e = EApprove)) as [->|He].
  2: { exfalso. apply Hne. assert (Hk : preserves (on_files (fun f => forall p, ~ cache p -> f !! p = w_files (db s) !! p)) (authenticate ev cfg dr (mux ev cfg dr) r)).
       { unfold authenticate, mux. rewrite Hto. destruct (_ || _); [by apply handle_files|].
         apply preserves_bind; [apply identify_files|intros [i|f]; [by apply handle_files|apply preserves_ret]]. }
       specialize (Hk s (fun _ _ => eq_refl)). rewrite Hr in Hk. by destruct out; apply Hk. }
  assert (Hcase : forall who t, handle ev cfg dr EApprove vars who r t = (s', out) ->
    w_files (db s') = w_files (db t)
    \/ exists st, cf_store cfg = Some st /\ effect (db t) st (default "" (head vars)) who r (w_files (db s'))).
  { intros who t Ht. unfold handle in Ht. cbv zeta in Ht. destruct (cf_store cfg) as [st|]; [|injection Ht as <- _; by left]. right. exists st. split; [done|].
    pose proof (approve_effect (db t) st who (default "" (head vars)) r Hmode t eq_refl) as Hef. rewrite Ht in Hef. by destruct out. }
  unfold authenticate in Hr. rewrite (protected_path cfg r EApprove vars Hw Hto eq_refl), orb_false_r in Hr.
  destruct (negb (cf_auth cfg) && _).
  - unfold mux in Hr. rewrite Hto in Hr. destruct (Hcase None s Hr) as [E|(st & _ & [E|(i & m & g & l & es & ops & H & _)])]; [by rewrite E in Hne..|done].
  - unfold sql_bind in Hr. destruct (identify_total ev cfg dr r s) as (s3 & who & Ei). rewrite Ei in Hr.
    assert (Ht : touched (db s) (db s3)).
    { pose proof (identify_touches ev cfg dr (db s) r s (touched_refl _)) as Ht. by rewrite Ei in Ht. }
    assert (Hf : w_files (db s3) = w_files (db s)) by (destruct Ht as [Ht _]; unfold outside in Ht; congruence).
    destruct who as [i|f]; [|unfold sql_ret in Hr; injection Hr as <- _; congruence].
    unfold mux in Hr. rewrite Hto in Hr. destruct (Hcase (Some i) s3 Hr) as [E|(st & Hst & [E|(j & m & g & l & es & ops & [= <-] & Hpv & Ha)])]; [by rewrite E, Hf in Hne..|].
    exists st, vars, i, m, g, l, es, ops. rewrite Hf in Ha. split_and!; try done; [by eapply identify_sound|].
    destruct Ht as [_ (Hsvc & _)]. destruct Hpv as [Hau Hpv|gg Hau Hpv Hq Ha']; [apply pv_sudo; [done|by rewrite <- Hsvc]|by eapply pv_group].
Qed.

(** Serving always answers. *)
Lemma serve_total r s : exists s' resp, serve ev cfg dr r s = (s', Ok resp).
Proof.
  unfold serve, recoverPanics, sql_bind, sql_try, sql_ret. destruct (authenticate _ _ _ _ r s) as [s1 out]. by eexists _, _.
Qed.
End Lock.

Lemma approve_route cfg r vars : well_formed r -> dispatch cfg r = To EApprove vars -> hr_method r = "POST".
Proof.
  intros Hw Hd. destruct (dispatched_path cfg r EApprove vars Hw Hd) as (rt & Hin & Hm & _); [done|]. unfold match_route in Hm.
  destruct (method_matches rt.1.1 (hr_method r)) eqn:Hmeth; [|done]. apply fmap_Some in Hm as (vs & _ & E). injection E as E _.
  apply routes_all in Hin. unfold routes in Hin. cbn [all_services cf_auth cf_events cf_icons cf_store cf_registry cf_scheduler cf_assets app] in Hin.
  repeat (apply elem_of_cons in Hin as [->|Hin]); [..|by apply elem_of_nil in Hin]; cbn [fst snd] in *; try discriminate E.
  unfold method_matches in Hmeth. change (String.eqb "POST" "GET") with false in Hmeth. rewrite andb_false_l, orb_false_r in Hmeth.
  by apply String.eqb_eq in Hmeth.
Qed.

(** The server does not listen beyond the host without an authentication, unless it is told to. *)
Lemma New_guarded lookup cfg l : New lookup cfg = Ok l ->
  isPublicAddr lookup l = Some false \/ ln_AuthConfigured cfg = true \/ ln_Auth cfg = true \/ ln_Forward cfg = true
  \/ ln_AllowPublicWithoutAuth cfg = true.
Proof.
  unfold New. intros [_ H]%guard_Ok. cbv zeta in H. destruct (isPublicAddr lookup _) as [[|]|] eqn:E; [|injection H as <-; by left|done].
  destruct (ln_AuthConfigured cfg), (ln_Auth cfg), (ln_Forward cfg), (ln_AllowPublicWithoutAuth cfg); cbn in H; try done; tauto.
Qed.
Example public_samples : map (isPublicAddr (fun h => if String.eqb h "localhost" then Some [addr4 2130706433; addr6 1 ""] else None))
    ["127.0.0.1:8099"; ":8099"; "0.0.0.0:80"; "[::]:80"; "[::1]:80"; "localhost:80"; "dash.example:80"; "[::ffff:127.0.0.1]:80"; "8099"]
  = [Some false; Some true; Some true; Some true; Some false; Some false; Some true; Some false; None].
Proof. vm_compute. reflexivity. Qed.

(** ** The properties *)

(** C9. Nothing behind the API is reached without an identity. With an authentication configured,
    a request that the route table sends to anything but the health, version and notices routes, the
    login and the static files is refused, having touched nothing but sessions, or handled for an
    identity: one a trusted proxy asserts, or that of an unexpired session in the database; and one
    that is not merely reading carries the session's CSRF token twice, or is no cross-site request.
    The authentication looks at the decoded path and the routing at the escaped one. *)
Theorem protected_endpoints_authenticated {RunFunc Y : Type} (ev : @environment RunFunc Y) (cfg : services) (dr : draws)
  (r : http_request) (e : endpoint) (vars : list string) (s s' : session ApiWorld) (resp : response)
  (Hwf : well_formed r) (Hon : cf_auth cfg = true \/ is_Some (cf_forward cfg))
  (Hgen : forall g, cf_forward cfg = Some g -> exists fcfg, new_generation fcfg = Ok g)
  (Hto : dispatch cfg r = To e vars) (Hprotected : public e = false) (Hserve : serve ev cfg dr r s = (s', Ok resp)) :
  (touched (db s) (db s') /\ rp_status resp ∈ [401; 403]%Z)
  \/ exists i s1 answer, accepted ev cfg dr (db s) r i /\ touched (db s) (db s1)
     /\ recoverPanics (handle ev cfg dr e vars (Some i) r) s1 = (s', Ok answer) /\ resp = securityHeaders r answer.
Proof.
  destruct (serve_protected ev cfg dr r e vars s s' resp Hwf Hon Hgen Hto Hprotected Hserve) as [[Ht [f ->]]|H]; [left|by right].
  split; [done|]. cbn. destruct f as [[]|]; set_solver.
Qed.

(** C8. The lock changes only by an approval. Whatever request is served, if a file outside the caches
    changed (the handlers of icons and assets keep to [cache]: the lock, the configuration and the
    manifests are not in it) then it was a POST to the approve route by an accepted identity that is
    privileged: its session has a sudo window open, or the proxy put it in an administrator group under
    that policy. What is written is the lock as it was read, with the integration's own entry replaced by
    the grant the identity approved, a subset of what the manifest asks for, under the digest it named,
    which is the manifest's. This is for a server with an authentication mode, as every one with a
    configuration has (the loader's schema asks for one): with the empty mode [approve] asks for no
    identity at all. *)
Theorem lock_changes_only_by_approval {RunFunc Y : Type} (ev : @environment RunFunc Y) (cfg : services) (dr : draws)
  (cache : string -> Prop) (r : http_request) (s s' : session ApiWorld) (resp : response) (p : string)
  (Hcache : keeps_to ev cache) (Hwf : well_formed r) (Hmode : cf_authMode cfg <> "")
  (Hgen : forall g, cf_forward cfg = Some g -> exists fcfg, new_generation fcfg = Ok g)
  (Hserve : serve ev cfg dr r s = (s', Ok resp)) (Hp : ~ cache p) (Hchanged : w_files (db s') !! p <> w_files (db s) !! p) :
  exists st vars i m grants lock es ops,
    hr_method r = "POST" /\ dispatch cfg r = To EApprove vars /\ cf_store cfg = Some st
    /\ accepted ev cfg dr (db s) r i /\ privileged cfg dr (db s) i
    /\ approval_written ev dr (w_files (db s)) (w_files (db s')) st (default "" (head vars)) i r m grants lock es ops.
Proof.
  destruct (serve_files ev cfg dr cache r s s' resp p Hcache Hwf Hmode Hgen Hserve Hp Hchanged) as (st & vars & i & m & g & l & es & ops & Hd & H).
  exists st, vars, i, m, g, l, es, ops. split; [by eapply approve_route|done].
Qed.

(** ** Samples and witnesses *)

Definition plugin_config : Config :=
  {| Version := 1; cfg_Server := cfg_Server Config.sample_config; cfg_Auth := cfg_Auth Config.sample_config;
     cfg_Dashboard := cfg_Dashboard Config.sample_config; Connections := ∅;
     Integrations := [{| in_ID := "p"; in_Source := "path:plugins/p"; in_Enabled := None; in_Description := "" |}];
     Sections := []; Rules := []; Channels := ∅ |}.
Definition sample_store : ConfigStore.Store :=
  (Open (fun _ => "") (fun s => s) "/etc/veduta/veduta.yaml" (fun _ => (Some (newSnapshot plugin_config []), [])) Storage.noon).1.
Definition sample_services : services :=
  {| cf_auth := true; cf_forward := None; cf_audit := true; cf_authMode := "password"; cf_events := true; cf_icons := true;
     cf_store := Some sample_store; cf_registry := true; cf_scheduler := true; cf_assets := true |}.
Definition sample_env : @environment unit unit :=
  {| ev_sha256 := sample_sha; ev_IDKey := sample_idkey; ev_to_lower := ToLower; ev_range := map_to_list; ev_origin_host := fun _ => None;
     ev_EqualFold := fun a b => String.eqb (ToLower a) (ToLower b); ev_marshal_detail := fun _ => Ok "{}"; ev_decode_login := fun _ => None;
     ev_decode_sudo := fun _ => None; ev_decode_approve := fun _ => Ok ("sha256:ab", grants_of Approval.sample_manifest, true);
     ev_grants_json := fun _ => ANil; ev_unmarshal_any := fun _ => Some tt; ev_unmarshal_lock := fun _ => None; ev_marshal_lock := fun _ => Some "v: 1";
     ev_lockSchema := Some (fun _ => true); ev_manifest_digest := fun _ => Some "sha256:ab";
     ev_decode_manifest := fun _ => Some {| md_ID := "p"; md_Name := "P"; md_Version := "1"; md_Runtime := "wasm"; md_Capabilities := ["http"; "cache"];
       md_Limits := no_limits; md_Module := ""; md_SHA256 := "";
       md_Operations := [[sample_plugin_route "/a"; sample_plugin_route "/b"]; [sample_plugin_route "/a"]] |};
     ev_ParseMediaType := fun _ => None; ev_FormatMediaType := fun _ _ => ""; ev_tmp := "/etc/veduta/tmp"; ev_cut := fun s => [s];
     ev_write_fails := None; ev_unreadable := fun _ => false;
     ev_health := fun _ => {| Reachable := true; hl_Stage := ""; hl_StatusCode := 200; hl_Error := "" |}; ev_refresh_run := fun m _ => (m, None);
     ev_sched_text := fun _ => ""; ev_lock_text := fun _ => ""; ev_load_text := fun _ => ""; ev_approve_text := fun _ => ""; ev_route_text := fun _ => "";
     ev_other := fun _ _ _ => ([CreateTemp "/var/cache/t"], http_NotFound); ev_version_info := PNone; ev_notices := "" |}.
Definition sample_draws : draws := {| dr_clock := fun n => (Storage.noon + minute + Z.of_nat n)%Z; dr_random := fun _ => Err ""; dr_admitted := true |}.
Definition sample_csrf : string := Assets.b64url_encode "csrfcsrfcsrfcsrfcsrfcsrfcsrfcsrf".
Definition sample_state (sudo : bool) : session (@ApiWorld unit) :=
  {| db := {| w_auth := if sudo then on_sudo (<[tokenHash sample_sha sample_token := (Storage.noon + 5 * minute)%Z]>) logged_in.2 else logged_in.2;
              w_mgr := NewManager; w_files := {["/etc/veduta/plugins/p/manifest.yaml" := ("id: p", 420%Z)]}; w_hub := newSSEHub "n" |};
     faults := [] |}.
Definition browser (method path : string) (headers : Header) : http_request :=
  sample_http method path "192.0.2.7:4711" headers [(SessionCookie, sample_token); (CSRFCookie, sample_csrf)].
Definition csrf_header : Header := {["X-Csrf-Token" := [sample_csrf]]}.
Definition status_of (x : session (@ApiWorld unit) * res string response) : Z := match x.2 with Ok resp => rp_status resp | Err _ => 0 end.
Definition files_of (x : session (@ApiWorld unit) * res string response) : list (string * Z) :=
  map (fun p => (p.1, p.2.2)) (map_to_list (w_files (db x.1))).
Definition serve_sample (sudo : bool) : http_request -> session (@ApiWorld unit) * res string response :=
  fun r => serve sample_env sample_services sample_draws r (sample_state sudo).

(** An escaped slash, a path to clean, a missing token, a mutation without its CSRF header, and a
    privileged request without and with a sudo window. *)
Example serve_samples :
  map (fun r => status_of (serve_sample false r))
    [browser "GET" "/api/v1/cards" ∅; browser "GET" "//api/v1/cards" ∅; sample_http "GET" "/api/v1/cards" "192.0.2.7:1" ∅ [];
     sample_http "GET" "/api/v1/health" "192.0.2.7:1" ∅ []; browser "POST" "/api/v1/integrations/p/approve" ∅;
     browser "POST" "/api/v1/integrations/p/approve" csrf_header; browser "GET" "/api/v1/nothing" ∅]
    = [200; 301; 401; 200; 403; 403; 404]%Z
  /\ status_of (serve_sample true (browser "POST" "/api/v1/integrations/p/approve" csrf_header)) = 200%Z
  /\ path_segments "/api/v1/cards/a%2Fb" = ["api"; "v1"; "cards"; "a/b"].
Proof. split; [|split]; vm_compute; reflexivity. Qed.

Example protected_endpoints_authenticated_witness :
  exists i, accepted sample_env sample_services sample_draws (db (sample_state false)) (browser "GET" "/api/v1/cards" ∅) i.
Proof.
  set (r := browser "GET" "/api/v1/cards" ∅).
  assert (E : exists s' resp, serve_sample false r = (s', Ok resp) /\ rp_status resp = 200%Z).
  { destruct (serve_total sample_env sample_services sample_draws r (sample_state false)) as (s' & resp & E). exists s', resp. split; [exact E|].
    assert (Hs : status_of (serve_sample false r) = 200%Z) by (vm_compute; reflexivity).
    unfold serve_sample in Hs. rewrite E in Hs. exact Hs. }
  destruct E as (s' & resp & E & H200).
  destruct (protected_endpoints_authenticated sample_env sample_services sample_draws r ECards [] (sample_state false) s' resp)
    as [[_ H]|(i & s1 & answer & Ha & _)].
  - reflexivity.
  - left. reflexivity.
  - intros g Hg. discriminate Hg.
  - vm_compute. reflexivity.
  - reflexivity.
  - exact E.
  - exfalso. rewrite H200 in H. apply list_elem_of_In in H. destruct H as [H|[H|[]]]; discriminate H.
  - exists i. exact Ha.
Defined.

Example lock_changes_only_by_approval_witness :
  let r := browser "POST" "/api/v1/integrations/p/approve" csrf_header in
  let x := serve_sample true r in
  w_files (db x.1) !! "/etc/veduta/veduta.lock.yaml" = Some (lock_header +:+ "v: 1", 416%Z)
  /\ exists st i m grants lock es ops,
    privileged sample_services sample_draws (db (sample_state true)) i
    /\ approval_written sample_env sample_draws (w_files (db (sample_state true))) (w_files (db x.1)) st "p" i r m grants lock es ops.
Proof.
  intros r x. assert (Hf : w_files (db x.1) !! "/etc/veduta/veduta.lock.yaml" = Some (lock_header +:+ "v: 1", 416%Z)) by (vm_compute; reflexivity).
  split; [exact Hf|].
  destruct (serve_total sample_env sample_services sample_draws r (sample_state true)) as (s' & resp & E).
  assert (Ex : x.1 = s') by (unfold x, serve_sample; rewrite E; reflexivity).
  destruct (lock_changes_only_by_approval sample_env sample_services sample_draws (fun q => q = "/var/cache/t") r (sample_state true) s' resp
              "/etc/veduta/veduta.lock.yaml")
    as (st & vars & i & m & g & l & es & ops & _ & Hd & _ & _ & Hp & Ha).
  - intros e vars0 r0 o q Ho Hq. cbn in Ho. apply list_elem_of_In in Ho. destruct Ho as [<-|[]].
    apply list_elem_of_In in Hq. destruct Hq as [<-|[]]. reflexivity.
  - reflexivity.
  - discriminate.
  - intros g Hg. discriminate Hg.
  - exact E.
  - discriminate.
  - rewrite <- Ex. intros Heq. rewrite Heq in Hf. vm_compute in Hf. discriminate Hf.
  - exists st, i, m, g, l, es, ops. rewrite Ex. split; [exact Hp|].
    assert (Ev : dispatch sample_services r = To EApprove ["p"]) by (vm_compute; reflexivity). rewrite Ev in Hd. injection Hd as <-. exact Ha.
Defined.
