(* ===== verification/App.v ===== *)
(** * internal/app: from an accepted configuration to runnable cards

    The manifest types of [manifestload/types.go] as far as composition reads them, the http-json
    escape hatch of [integrations/httpjson], and [runtime.go]: the grant an approved integration
    runs under, the decision per card whether it runs and as what, and the panic barrier. Reading
    manifests from disk, compiling expressions, hashing definitions and loading a runtime are
    arguments. This file also proves that what the lock approves is contained in what the manifest
    asks for, in the terms the broker decides by. *)
From S2P Require Import Prelude GoAny GoSort RoutePath GoTime Config Manifest Secrets Connections Grant Approval Widgets State Scheduler.

(** ** httpjson *)

(** [httpjson.Card] *)
Record HTTPJSONCard := {
  hj_Path : string; hj_Method : string; hj_Query : gmap string string; hj_View : list (string * any) }.

Definition effectiveLimits (l : MLimits) : EffectiveLimits :=
  {| el_MemoryMB := ml_MemoryMB l; el_TimeoutMs := ml_TimeoutMs l; el_OutputKB := ml_OutputKB l;
     el_HTTPRequests := ml_HTTPRequests l; el_ResponseMB := ml_ResponseMB l; el_CacheEntries := ml_CacheEntries l;
     el_InputMB := ml_InputMB l; el_JSONDepth := ml_JSONDepth l; el_JSONNodes := ml_JSONNodes l;
     el_ExprNodes := ml_ExprNodes l; el_Iterations := ml_Iterations l; el_RequestBodyKB := ml_RequestBodyKB l;
     el_HostCalls := ml_HostCalls l; el_CacheBytesKB := ml_CacheBytesKB l |}.

Definition brokerLimits (l : MLimits) : Grant.Limits :=
  {| HTTPRequests := ml_HTTPRequests l; ResponseMB := ml_ResponseMB l; CacheEntries := ml_CacheEntries l;
     CacheBytesKB := ml_CacheBytesKB l; HostCalls := ml_HostCalls l; RequestBodyKB := ml_RequestBodyKB l |}.

(** [httpjson.Build] *)
Definition Build (parse : string -> res string Ast.Node) (walk : Ast.Node -> list Ast.Node) (lower : string -> string)
  (print : Ast.Node -> string) (slot connectionID : string) (card : HTTPJSONCard) (connPolicy : ConnectionPolicy)
  : res Manifest.load_error (MManifest * LockEntry * Grant) :=
  let! m := SynthesizeHTTPJSON parse walk lower print slot (hj_Method card) (hj_Path card) (map_to_list (hj_Query card)) (hj_View card) in
  let lock := {| le_ManifestSHA256 := HTTPJSONDigest; le_ModuleSHA256 := ""; le_Version := ""; le_Runtime := "";
                 le_ApprovedAt := ""; le_ApprovedBy := ""; le_Capabilities := mm_Capabilities m; le_Routes := [];
                 le_Limits := None; le_EffectiveLimits := effectiveLimits (mm_Limits m) |} in
  let routes := map (fun r => {| rt_Slot := mr_Slot r; rt_Method := mr_Method r; rt_Path := mr_Path r; rt_Use := UseData;
                                 rt_QueryKeys := None; rt_ContentType := ""; rt_MaxBodyKB := 0 |})
                    (match mm_Operations m with o :: _ => op_Routes o | [] => [] end) in
  let '(grant, _) := NewGrant "http-json" "1.0.0" connectionID {[slot := connectionID]} (NewCapSet ["http"]) routes routes
    {[slot := connPolicy]} (brokerLimits (mm_Limits m))
    {| SnapshotGen := 0; CardHash := ""; ManifestDigest := HTTPJSONDigest; ApprovalRevision := ""; SlotRevisions := ∅ |} in
  Ok (m, lock, grant).

(** ** runtime.go: the grant *)

Definition runtimeUse (value : string) : string := if String.eqb value "" then UseData else value.

(** The authority of a manifest's and of a lock's route, as the broker has it. *)
Definition manifest_route (r : MRoute) : Grant.Route :=
  {| rt_Slot := mr_Slot r; rt_Method := mr_Method r; rt_Path := mr_Path r; rt_Use := runtimeUse (mr_Use r);
     rt_QueryKeys := mr_QueryKeys r; rt_ContentType := mr_ContentType r; rt_MaxBodyKB := mr_MaxBodyKB r |}.

Definition lock_route (r : Approval.Route) : Grant.Route :=
  {| rt_Slot := ir_Slot r; rt_Method := ir_Method r; rt_Path := ir_Path r; rt_Use := runtimeUse (ir_Use r);
     rt_QueryKeys := ir_QueryKeys r; rt_ContentType := ir_ContentType r; rt_MaxBodyKB := ir_MaxBodyKB r |}.

(** [revisionsFor]: a connection without a revision has the empty one. *)
Definition revisionsFor (slots revisions : gmap string string) : gmap string string :=
  (fun id => default "" (revisions !! id)) <$> slots.

Definition eff_limits (e : EffectiveLimits) : Grant.Limits :=
  {| HTTPRequests := el_HTTPRequests e; ResponseMB := el_ResponseMB e; CacheEntries := el_CacheEntries e;
     CacheBytesKB := el_CacheBytesKB e; HostCalls := el_HostCalls e; RequestBodyKB := el_RequestBodyKB e |}.

Definition grant (m : MManifest) (l : LockEntry) (c : Card) (reg : string -> option Conn) (revisions : gmap string string)
  (snapshot : Z) (approvalRevision cardHash : string) : Grant :=
  (NewGrant (mm_ID m) (mm_Version m) (card_ID c) (card_Slots c) (NewCapSet (le_Capabilities l))
     (map manifest_route (concat (map op_Routes (mm_Operations m)))) (map lock_route (le_Routes l))
     (omap (fun id => x ← reg id; h ← c_HTTP x; Some {| cp_AllowedPaths := h_AllowedPaths h |}) (card_Slots c))
     (eff_limits (le_EffectiveLimits l))
     {| SnapshotGen := snapshot; CardHash := cardHash; ManifestDigest := mm_Digest m; ApprovalRevision := approvalRevision;
        SlotRevisions := revisionsFor (card_Slots c) revisions |}).1.

Definition find_operation (m : MManifest) (id : string) : option OperationDef :=
  snd <$> list_find (fun o => op_ID o = id) (mm_Operations m).

(** [firstSlot] *)
Definition firstSlot (m : gmap string string) : string * string :=
  match sort_strings (map fst (map_to_list m)) with
  | k :: _ => (k, default "" (m !! k))
  | [] => ("server", "")
  end.

Definition param (m : list (string * any)) (k : string) : option any := (fun p => p.2.2) <$> list_find (fun q => q.1 = k) m.

Definition stringParam (m : list (string * any)) (k : string) : string :=
  match param m k with Some (AString s) => s | _ => "" end.

Definition stringMapParam (m : list (string * any)) (k : string) : gmap string string :=
  match param m k with
  | Some (AMap l) => list_to_map (omap (fun p => match p.2 with AString s => Some (p.1, s) | _ => None end) l)
  | _ => ∅
  end.

(** [parseDuration] *)
Definition parseDuration (v : string) (d : Duration) : Duration :=
  match ParseDuration v with Some x => if (x <=? 0)%Z then d else x | None => d end.

Definition signalTypes (signals : list SignalDecl) : gmap string string :=
  foldl (fun out s => <[sd_Name s := sd_Type s]> out) ∅ signals.

Definition historicalSignals (signals : list SignalDecl) : gset string :=
  list_to_set (map sd_Name (filter (fun s => sd_History s && String.eqb (sd_Type s) "number" = true) signals)).

(** ** runtime.go: the cards *)

(** What a card's run calls, and under which authority. *)
Inductive run_plan :=
| RunDocker (connectionID : string)
| RunHTTPJSON (m : MManifest) (l : LockEntry) (g : Grant)
| RunPlugin (m : MManifest) (l : LockEntry) (operation : string) (g : Grant).

Record PluginLoad := { pl_ID : string; pl_Runtime : string; pl_Version : string; pl_Digest : string }.

Inductive generation_error :=
| HashFailed
| RuntimeUnavailable
| LoadFailed (id : string).

(** What a generation is built from: the accepted configuration, the connections and whether they
    have a Docker surface, the lock, the revisions of connections, and the code and files outside. *)
Record world := {
  w_integration : string -> option Integration;          (* snap.IntegrationByID *)
  w_conn : string -> option Conn;                        (* reg.Get *)
  w_docker : bool;                                       (* reg is a DockerRegistry *)
  w_lock : gmap string LockEntry;
  w_revisions : gmap string string;
  w_generation : Z;
  w_configDir : string;
  w_parse : string -> res string Ast.Node;               (* the expression library, and strings.ToLower *)
  w_walk : Ast.Node -> list Ast.Node;
  w_lower : string -> string;
  w_print : Ast.Node -> string;
  w_manifest_file : string -> option string;             (* integrations.ManifestFile *)
  w_manifest : string -> option MManifest;               (* manifestload.Load *)
  w_card_hash : Card -> option string;                   (* storage.DefinitionHash of the card's identity *)
  w_entry_hash : LockEntry -> option string;             (* storage.DefinitionHash of the entry *)
  w_key : string -> Card -> gmap string string -> string;   (* definitionKey *)
  w_revisions_json : gmap string string -> string;
  w_wasm : bool;                                         (* wasmrt.NewWithBroker succeeds *)
  w_load : string -> MManifest -> LockEntry -> bool }.   (* Runtime.Load succeeds *)

(** A definition as it is built up in the loop. *)
Definition card_def (w : world) (card : Card) (hash version runtime digest approval key disabled : string)
  (timeout : Duration) (types : gmap string string) (hist : gset string) (run : option run_plan) : CardDef :=
  {| d_ID := card_ID card; d_Hash := hash; d_Key := key; d_ManifestDigest := digest; d_ApprovalRevision := approval;
     d_SlotRevisions := w_revisions_json w (revisionsFor (card_Slots card) (w_revisions w));
     d_Refresh := parseDuration (card_Refresh card) minute; d_Timeout := timeout;
     d_Source := {| src_Integration := card_Integration card; src_IntegrationVersion := version; src_Runtime := runtime;
                    src_Operation := card_Operation card; src_Slots := card_Slots card |};
     d_Run := run; d_Disabled := disabled; d_HistorySignals := hist; d_SignalTypes := types; d_generation := 0 |}.

(** A card that does not run, for a reason. *)
Definition disabled_def (w : world) (card : Card) (hash reason : string) (types : gmap string string) (hist : gset string) : CardDef :=
  card_def w card hash "" "" "" "" "" reason (10 * second) types hist None.

Definition docker_card (w : world) (card : Card) (hash : string) : CardDef :=
  let types := {["containers.running" := "number"; "containers.total" := "number"]} in
  let refused := disabled_def w card hash ReasonConfigError types ∅ in
  match w_integration w "docker", card_Slots card !! "server" with
  | Some declared, Some connectionID =>
      match w_conn w connectionID with
      | None => refused
      | Some connection =>
          if negb (String.eqb (in_Source declared) "builtin") || negb (String.eqb (c_Kind connection) "docker")
             || negb (w_docker w) || negb (String.eqb (card_Operation card) "containers")
          then refused
          else card_def w card hash "1.0.0" RuntimeBuiltin "docker-builtin-v1" "" (w_key w "docker-builtin-v1" card
                 (revisionsFor (card_Slots card) (w_revisions w))) "" (10 * second) types ∅ (Some (RunDocker connectionID))
      end
  | _, _ => refused
  end.

Definition http_json_card (w : world) (card : Card) (hash : string) : res generation_error CardDef :=
  let '(slot, connID) := firstSlot (card_Slots card) in
  let policy := {| cp_AllowedPaths := match (x ← w_conn w connID; c_HTTP x) with Some h => h_AllowedPaths h | None => [] end |} in
  let hc := {| hj_Path := stringParam (card_Params card) "path"; hj_Method := stringParam (card_Params card) "method";
               hj_Query := stringMapParam (card_Params card) "query"; hj_View := card_View card |} in
  match Build (w_parse w) (w_walk w) (w_lower w) (w_print w) slot connID hc policy with
  | Err _ => Ok (disabled_def w card hash ReasonConfigError ∅ ∅)
  | Ok (m, l, g) =>
      let g := {| PluginID := PluginID g; g_Version := g_Version g; InstanceID := InstanceID g; Slots := Slots g; Caps := Caps g;
                  ManifestRoutes := ManifestRoutes g; ApprovedRoutes := ApprovedRoutes g; g_ConnectionPolicy := g_ConnectionPolicy g;
                  g_Limits := g_Limits g;
                  Ident := {| SnapshotGen := w_generation w; CardHash := hash; ManifestDigest := ManifestDigest (Ident g);
                              ApprovalRevision := ApprovalRevision (Ident g);
                              SlotRevisions := revisionsFor (card_Slots card) (w_revisions w) |} |} in
      if negb (w_load w "declarative" m l) then Err (LoadFailed "http-json")
      else Ok (card_def w card hash "1.0.0" RuntimeBuiltin (mm_Digest m) ""
                 (w_key w (mm_Digest m) card (revisionsFor (card_Slots card) (w_revisions w))) "" (10 * second) ∅ ∅
                 (Some (RunHTTPJSON m l g)))
  end.

(** The manifest of a declared integration, or the reason its cards do not run. *)
Definition plugin_manifest (w : world) (card : Card) : string + Integration * MManifest * OperationDef :=
  match w_integration w (card_Integration card) with
  | None => inl ReasonIntegrationMissing
  | Some decl =>
      if negb (IsEnabled decl) then inl ReasonIntegrationMissing
      else match ResolveSource (w_configDir w) (in_Source decl) with
           | None => inl ReasonIntegrationMissing
           | Some src =>
               if so_Builtin src then inl ReasonIntegrationMissing
               else match w_manifest_file w (so_Dir src) with
                    | None => inl ReasonIntegrationMissing
                    | Some path =>
                        match w_manifest w path with
                        | None => inl ReasonConfigError
                        | Some m => match find_operation m (card_Operation card) with
                                    | None => inl ReasonConfigError
                                    | Some op => inr (decl, m, op)
                                    end
                        end
                    end
           end
  end.

Definition plugin_card (w : world) (card : Card) (hash : string) : res generation_error (CardDef * option PluginLoad) :=
  match plugin_manifest w card with
  | inl reason => Ok (disabled_def w card hash reason ∅ ∅, None)
  | inr (decl, m, op) =>
      let types := signalTypes (op_Signals op) in
      let hist := historicalSignals (op_Signals op) in
      match w_lock w !! in_ID decl with
      | None => Ok (disabled_def w card hash ReasonUnapproved types hist, None)
      | Some entry =>
          if negb (String.eqb (le_ManifestSHA256 entry) (mm_Digest m))
          then Ok (disabled_def w card hash ReasonPermissionsChanged types hist, None)
          else match w_entry_hash w entry with
               | None => Err HashFailed
               | Some approval =>
                   if negb (String.eqb (mm_Runtime m) "declarative") && negb (String.eqb (mm_Runtime m) "wasm")
                   then Ok (card_def w card hash "" "" "" approval "" ReasonConfigError (10 * second) types hist None, None)
                   else if String.eqb (mm_Runtime m) "wasm" && negb (w_wasm w) then Err RuntimeUnavailable
                   else if negb (w_load w (mm_Runtime m) m entry) then Err (LoadFailed (in_ID decl))
                   else
                     let g := grant m entry card (w_conn w) (w_revisions w) (w_generation w) approval hash in
                     Ok (card_def w card hash (mm_Version m) (mm_Runtime m) (mm_Digest m) approval
                           (w_key w (mm_Digest m) card (revisionsFor (card_Slots card) (w_revisions w))) ""
                           (wrap64 (el_TimeoutMs (le_EffectiveLimits entry) * millisecond)) types hist
                           (Some (RunPlugin m entry (card_Operation card) g)),
                         Some {| pl_ID := in_ID decl; pl_Runtime := mm_Runtime m; pl_Version := mm_Version m; pl_Digest := mm_Digest m |})
               end
      end
  end.

(** One turn of [BuildGeneration]'s loop. *)
Definition build_card (w : world) (card : Card) : res generation_error (CardDef * option PluginLoad) :=
  match w_card_hash w card with
  | None => Err HashFailed
  | Some hash =>
      if String.eqb (card_Integration card) "docker" then Ok (docker_card w card hash, None)
      else if String.eqb (card_Integration card) "http-json" then let! d := http_json_card w card hash in Ok (d, None)
      else plugin_card w card hash
  end.

(** The loop over the cards: the definitions, and each integration's first load. *)
Fixpoint build_cards (w : world) (cards : list Card) : res generation_error (list CardDef * list PluginLoad) :=
  match cards with
  | [] => Ok ([], [])
  | c :: rest =>
      let! (d, load) := build_card w c in
      let! (ds, loads) := build_cards w rest in
      Ok (d :: ds, match load with
                   | Some l => l :: filter (fun x => pl_ID x <> pl_ID l) loads
                   | None => loads
                   end)
  end.

Definition BuildGeneration (w : world) (sections : list ConfigSection) : res generation_error (list CardDef * list PluginLoad) :=
  build_cards w (concat (map Cards sections)).

(** [guarded]: what a run does, and what the scheduler sees of it. *)
Inductive run_outcome :=
| Returned (doc : Document)
| Failed (e : run_error)
| Panicked (value : string).

Definition guarded (o : run_outcome) : res run_error Document :=
  match o with Returned doc => Ok doc | Failed e => Err e | Panicked _ => Err ErrRunPanicked end.

(** ** Lemmas on authority tuples *)

(** Query keys a tuple tells apart: none empty, none with a NUL byte. *)
Definition plain_keys (keys : option (list string)) : Prop :=
  forall ks, keys = Some ks -> Forall (fun k => k <> "" /\ no_sep nul k) ks.

Lemma dedup_sorted_subset prev l : forall k, k ∈ dedup_sorted prev l -> k ∈ l.
Proof.
  revert prev. induction l as [|x l IH]; intros prev k; simpl; [done|].
  case_bool_decide; [right; by eapply IH|]. intros [->|Hk]%elem_of_cons; [left|right; by eapply IH].
Qed.

Lemma dedup_sorted_all prev l : forall k, k ∈ l -> k ∈ dedup_sorted prev l \/ prev = Some k.
Proof.
  revert prev. induction l as [|x l IH]; intros prev k Hk; simpl; [by apply elem_of_nil in Hk|].
  case_bool_decide as E.
  - apply elem_of_cons in Hk as [->|Hk]; [by right|]. by apply IH.
  - left. apply elem_of_cons in Hk as [->|Hk]; [left|]. destruct (IH (Some x) k Hk) as [?|[= ->]]; [by right|left].
Qed.

Lemma dedup_sorted_elem l k : k ∈ dedup_sorted None (sort_strings l) <-> k ∈ l.
Proof.
  rewrite <- (sort_strings_perm l) at 2. split; [apply dedup_sorted_subset|].
  intros Hk. by destruct (dedup_sorted_all None (sort_strings l) k Hk).
Qed.

Lemma Join_plain_inj l k :
  Forall (fun x => x <> "" /\ no_sep nul x) l -> Forall (fun x => x <> "" /\ no_sep nul x) k ->
  Join nul l = Join nul k -> l = k.
Proof.
  intros Hl Hk E.
  assert (Hns : forall l, Forall (fun x => x <> "" /\ no_sep nul x) l -> Forall (no_sep nul) l)
    by (intros ? H; eapply Forall_impl; [exact H|by intros ? []]).
  assert (Hne : forall x l, Forall (fun x => x <> "" /\ no_sep nul x) (x :: l) -> Join nul (x :: l) <> "").
  { intros x k' H. apply Forall_cons in H as [[Hx _] _]. destruct x; [done|]. destruct k'; discriminate. }
  destruct l as [|x l], k as [|y k]; [done| | |].
  - by destruct (Hne y k Hk).
  - by destruct (Hne x l Hl).
  - apply (f_equal (Split nul)) in E. by rewrite !Split_Join in E by (done || by apply Hns).
Qed.

Lemma canonicalQueryKeys_plain a b :
  plain_keys a -> plain_keys b -> canonicalQueryKeys a = canonicalQueryKeys b ->
  match a, b with
  | None, None => True
  | Some ks, Some ks' => forall k, k ∈ ks <-> k ∈ ks'
  | _, _ => False
  end.
Proof.
  intros Ha Hb. destruct a as [ks|], b as [ks'|]; unfold canonicalQueryKeys; try discriminate; [|done].
  intros [= E]. intros k. rewrite <- (dedup_sorted_elem ks), <- (dedup_sorted_elem ks').
  assert (Hp : forall l, Forall (fun x => x <> "" /\ no_sep nul x) l -> Forall (fun x => x <> "" /\ no_sep nul x) (dedup_sorted None (sort_strings l))).
  { intros l Hl. rewrite Forall_forall in *. intros x Hx. apply Hl. by apply (proj1 (dedup_sorted_elem l x)). }
  by rewrite (Join_plain_inj _ _ (Hp ks (Ha ks eq_refl)) (Hp ks' (Hb ks' eq_refl)) E).
Qed.

Lemma body_ceiling_identity a b r kb :
  (0 < kb <= r)%Z -> effectiveMaxBodyKB a r = effectiveMaxBodyKB b r -> body_ceiling a kb = body_ceiling b kb.
Proof.
  intros Hk. unfold effectiveMaxBodyKB, body_ceiling. cbv zeta. destruct (Z.leb_spec kb 0); [lia|].
  destruct (Z.ltb_spec 0 a), (Z.ltb_spec 0 b); destruct (Z.ltb_spec 0 r); lia.
Qed.

Section Containment.
Variable PM : string -> option (string * gmap string string).
Variable FM : string -> gmap string string -> string.

Lemma normaliseContentType_media v c :
  normaliseContentType PM FM v = Some c -> (v = "" /\ c = "") \/ (v <> "" /\ c <> "" /\ normaliseMediaType PM FM v = Some c).
Proof.
  unfold normaliseContentType, normaliseMediaType. destruct (String.eqb_spec v ""); [intros [= <-]; by left|].
  destruct (PM v) as [[mt params]|]; [|done]. cbv zeta.
  destruct (String.eqb_spec (FM (ToLower mt) (match params !! "charset" with Some cs => <["charset" := ToLower cs]> params | None => params end)) "");
    [done|]. intros [= <-]. by right.
Qed.

(** Routes with one authority tuple permit the same requests. *)
Lemma identity_permits r r' id rkb kb req path use :
  plain_keys (ir_QueryKeys r) -> plain_keys (ir_QueryKeys r') -> (0 < kb <= rkb)%Z ->
  route_identity PM FM r rkb = Ok id -> route_identity PM FM r' rkb = Ok id ->
  permits PM FM kb (lock_route r) req path use -> permits PM FM kb (lock_route r') req path use.
Proof.
  intros Hk Hk' Hkb. unfold route_identity.
  destruct (Canonicalise (ir_Path r)) as [p|] eqn:Ep; [|done]. destruct (normaliseContentType PM FM (ir_ContentType r)) as [c|] eqn:Ec; [|done].
  destruct (Canonicalise (ir_Path r')) as [p'|] eqn:Ep'; [|done]. destruct (normaliseContentType PM FM (ir_ContentType r')) as [c'|] eqn:Ec'; [|done].
  intros [= <-] [= E1 E2 E3 E4 E5 E6 E7] [P1 P2 P3 P4 P5 P6 P7]. simpl in *. subst p' c'.
  assert (Hq := canonicalQueryKeys_plain _ _ Hk Hk' (eq_sym E5)).
  split; simpl.
  - congruence.
  - rewrite <- P2. unfold runtimeUse, UseData. destruct (String.eqb (ir_Use r')  ""), (String.eqb (ir_Use r) ""); congruence.
  - congruence.
  - destruct P4 as (pat & Hpat & Hm). rewrite Ep in Hpat. injection Hpat as <-. exists p. done.
  - intros keys Hkeys. rewrite Hkeys in Hq. destruct (ir_QueryKeys r) as [ks|]; [|done].
    intros k Hin. apply Hq. by apply (P5 ks).
  - apply normaliseContentType_media in Ec, Ec'. destruct Ec' as [[-> _]|(Hne' & Hc & Hn')]; [done|]. intros _.
    destruct Ec as [[_ ->]|(Hne & _ & Hn)]; [done|]. destruct (P6 Hne) as (t & Ht & Ht'). rewrite Hn in Ht'. injection Ht' as <-.
    by exists c.
  - by rewrite (body_ceiling_identity (ir_MaxBodyKB r') (ir_MaxBodyKB r) rkb kb).
Qed.
End Containment.

(** ** Lemmas on cards *)

Section Cards.

(** A plugin's run: its integration is declared and enabled, [m] is the manifest read from the
    directory its source resolves to, the lock's entry approves exactly that manifest, and the run has
    the entry's capabilities, routes and limits on the card's own slots. *)
Definition approved_run (w : world) (card : Card) (m : MManifest) (entry : LockEntry) (op : string) (g : Grant) : Prop :=
  exists decl src path, w_integration w (card_Integration card) = Some decl /\ IsEnabled decl = true
    /\ ResolveSource (w_configDir w) (in_Source decl) = Some src /\ so_Builtin src = false
    /\ w_manifest_file w (so_Dir src) = Some path /\ w_manifest w path = Some m
    /\ w_lock w !! in_ID decl = Some entry /\ le_ManifestSHA256 entry = mm_Digest m
    /\ op = card_Operation card /\ is_Some (find_operation m op)
    /\ Slots g = card_Slots card /\ Caps g = NewCapSet (le_Capabilities entry)
    /\ ManifestRoutes g = map manifest_route (concat (map op_Routes (mm_Operations m)))
    /\ ApprovedRoutes g = map lock_route (le_Routes entry)
    /\ g_Limits g = eff_limits (le_EffectiveLimits entry) /\ ManifestDigest (Ident g) = mm_Digest m.

(** A docker run: the built-in integration is declared, and the slot is bound to a docker connection.
    It has no entry in the lock, and whether the declaration is enabled is not asked. *)
Definition docker_run (w : world) (card : Card) (id : string) : Prop :=
  card_Integration card = "docker" /\ card_Operation card = "containers" /\ card_Slots card !! "server" = Some id
  /\ (exists decl, w_integration w "docker" = Some decl /\ in_Source decl = "builtin")
  /\ exists c, w_conn w id = Some c /\ c_Kind c = "docker".

(** The one request an http-json card describes: its method, GET when it names none, its path in
    canonical form and its query, all literal. *)
Definition card_request (card : Card) (slot path : string) (r : RequestDef) : Prop :=
  r = {| rqd_Slot := slot;
         rqd_Method := (let named := stringParam (card_Params card) "method" in if String.eqb named "" then "GET" else named);
         rqd_Path := Some (TLiteral (AString path)); rqd_PathTemplate := rqd_PathTemplate r;
         rqd_Query := map (fun q => (q.1, Some (TLiteral (AString q.2)))) (map_to_list (stringMapParam (card_Params card) "query"));
         rqd_Headers := []; rqd_Body := None |}.

(** An http-json run, which has no entry in the lock either: a pipeline of that one request, GET or POST,
    and a grant for one data route of the same slot, method and path, with no other capability and the
    default limits. *)
Definition http_json_run (card : Card) (m : MManifest) (g : Grant) : Prop :=
  let '(slot, connID) := firstSlot (card_Slots card) in
  card_Integration card = "http-json" /\ Slots g = {[slot := connID]} /\ Caps g = {["http"]}
  /\ g_Limits g = brokerLimits (WithDefaults zero_limits) /\ ManifestRoutes g = ApprovedRoutes g
  /\ exists path op step, Canonicalise (stringParam (card_Params card) "path") = Ok path /\ canonical path
     /\ mm_Operations m = [op] /\ op_Pipeline op = [step] /\ card_request card slot path (ps_Request step)
     /\ (rqd_Method (ps_Request step) = "GET" \/ rqd_Method (ps_Request step) = "POST")
     /\ ApprovedRoutes g = [{| rt_Slot := slot; rt_Method := rqd_Method (ps_Request step); rt_Path := path; rt_Use := UseData;
                               rt_QueryKeys := None; rt_ContentType := ""; rt_MaxBodyKB := 0 |}].

(** What a card that was built runs as; one without a run carries a reason. *)
Definition run_sound (w : world) (card : Card) (d : CardDef (RunFunc := run_plan)) : Prop :=
  match d_Run d with
  | None => d_Disabled d <> ""
  | Some (RunDocker id) => docker_run w card id
  | Some (RunHTTPJSON m l g) => http_json_run card m g
  | Some (RunPlugin m entry op g) => approved_run w card m entry op g
  end.

Lemma docker_card_sound (w : world) card hash : card_Integration card = "docker" -> run_sound w card (docker_card w card hash).
Proof.
  intros Hc. unfold docker_card. cbv zeta.
  destruct (w_integration w "docker") as [decl|] eqn:Ed; [|by unfold run_sound].
  destruct (card_Slots card !! "server") as [id|] eqn:Es; [|by unfold run_sound].
  destruct (w_conn w id) as [c|] eqn:Ec; [|by unfold run_sound].
  destruct (negb _ || _ || _ || _) eqn:E; [by unfold run_sound|].
  apply orb_false_iff in E as [E E4]. apply orb_false_iff in E as [E _].
  apply orb_false_iff in E as [E1 E2]. apply negb_false_iff, String.eqb_eq in E1, E2, E4.
  unfold run_sound, docker_run. simpl. split_and!; try done; by eexists.
Qed.

Lemma Build_sound parse walk lower print slot id hc policy m l g :
  Build parse walk lower print slot id hc policy = Ok (m, l, g) ->
  Slots g = {[slot := id]} /\ Caps g = {["http"]} /\ g_Limits g = brokerLimits (WithDefaults zero_limits) /\ ManifestRoutes g = ApprovedRoutes g
  /\ exists cp op step, Canonicalise (hj_Path hc) = Ok cp /\ canonical cp /\ mm_Operations m = [op] /\ op_Pipeline op = [step]
     /\ ps_Request step = {| rqd_Slot := slot; rqd_Method := (if String.eqb (hj_Method hc) "" then "GET" else hj_Method hc);
                             rqd_Path := Some (TLiteral (AString cp)); rqd_PathTemplate := rqd_PathTemplate (ps_Request step);
                             rqd_Query := map (fun q => (q.1, Some (TLiteral (AString q.2)))) (map_to_list (hj_Query hc));
                             rqd_Headers := []; rqd_Body := None |}
     /\ (rqd_Method (ps_Request step) = "GET" \/ rqd_Method (ps_Request step) = "POST")
     /\ ApprovedRoutes g = [{| rt_Slot := slot; rt_Method := rqd_Method (ps_Request step); rt_Path := cp; rt_Use := UseData;
                               rt_QueryKeys := None; rt_ContentType := ""; rt_MaxBodyKB := 0 |}].
Proof.
  unfold Build. intros (m' & Hm & H)%res_bind_Ok.
  apply SynthesizeHTTPJSON_Ok in Hm as (cp & meth & step & op & Hcp & Em & Hmeth & _ & Hcaps & Hlim & _ & Hops & _ & Hpipe & _ & _ & _ & Hroutes & Hreq & _).
  rewrite Hops, Hroutes, Hlim in H. cbn [map] in H. injection H as <- <- <-.
  split_and!; [done|apply set_eq; intros x; unfold NewCapSet; simpl; set_solver|done|done|].
  assert (Hmr : rqd_Method (ps_Request step) = meth) by (rewrite Hreq; reflexivity).
  exists cp, op, step. rewrite <- Em, Hmr. split_and!; [exact Hcp|by eapply Canonicalise_canonical|done..].
Qed.

Lemma http_json_card_sound (w : world) card hash d :
  card_Integration card = "http-json" -> http_json_card w card hash = Ok d -> run_sound w card d.
Proof.
  intros Hc. unfold http_json_card. destruct (firstSlot (card_Slots card)) as [slot id] eqn:Ef. cbv zeta.
  destruct (Build _ _ _ _ slot id _ _) as [[[m l] g]|e] eqn:Eb; [|by intros [= <-]].
  apply Build_sound in Eb. destruct (negb (w_load w "declarative" m l)); [done|]. intros [= <-].
  unfold run_sound, http_json_run. simpl. rewrite Ef. split; [done|exact Eb].
Qed.

Lemma plugin_manifest_inr (w : world) card decl m op :
  plugin_manifest w card = inr (decl, m, op) ->
  w_integration w (card_Integration card) = Some decl /\ IsEnabled decl = true /\ find_operation m (card_Operation card) = Some op
  /\ exists src path, ResolveSource (w_configDir w) (in_Source decl) = Some src /\ so_Builtin src = false
     /\ w_manifest_file w (so_Dir src) = Some path /\ w_manifest w path = Some m.
Proof.
  unfold plugin_manifest. destruct (w_integration w (card_Integration card)) as [decl'|]; [|discriminate].
  destruct (IsEnabled decl') eqn:E2; cbn [negb]; [|discriminate].
  destruct (ResolveSource (w_configDir w) (in_Source decl')) as [src|] eqn:E3; [|discriminate].
  destruct (so_Builtin src) eqn:E4; [discriminate|]. destruct (w_manifest_file w (so_Dir src)) as [path|] eqn:E5; [|discriminate].
  destruct (w_manifest w path) as [m'|] eqn:E6; [|discriminate].
  destruct (find_operation m' (card_Operation card)) as [op'|] eqn:E7; [|discriminate]. intros [= <- <- <-].
  split; [reflexivity|]. split; [exact E2|]. split; [exact E7|]. exists src, path. by rewrite E5.
Qed.

Lemma plugin_manifest_inl (w : world) card reason : plugin_manifest w card = inl reason -> reason <> "".
Proof. unfold plugin_manifest. intros H. by repeat case_match; simplify_eq. Qed.

Lemma plugin_card_sound (w : world) card hash d load : plugin_card w card hash = Ok (d, load) -> run_sound w card d.
Proof.
  unfold plugin_card. destruct (plugin_manifest w card) as [reason|[[decl m] op]] eqn:E.
  { intros [= <- _]. unfold run_sound. simpl. by eapply plugin_manifest_inl. }
  apply plugin_manifest_inr in E as (H1 & H2 & H3 & src & path & H4 & H5 & H6 & H7). cbv zeta.
  destruct (w_lock w !! in_ID decl) as [entry|] eqn:El; [|by intros [= <- _]].
  destruct (String.eqb_spec (le_ManifestSHA256 entry) (mm_Digest m)) as [Hd|]; cbn [negb]; [|by intros [= <- _]].
  destruct (w_entry_hash w entry) as [approval|]; [|done].
  destruct (negb _ && negb _); [by intros [= <- _]|]. destruct (_ && negb (w_wasm w)); [done|].
  destruct (negb (w_load w (mm_Runtime m) m entry)); [done|]. intros [= <- _]. unfold run_sound. simpl.
  exists decl, src, path. by split_and!.
Qed.
End Cards.

(** A limit approved as zero is no ceiling to the broker, although the lock records it: only
    [cacheEntries] may be zero. *)
Example zero_cache_entries_unbounded :
  let zero := {| lm_MemoryMB := None; lm_TimeoutMs := None; lm_OutputKB := None; lm_HTTPRequests := None; lm_ResponseMB := None;
     lm_CacheEntries := Some 0%Z; lm_InputMB := None; lm_JSONDepth := None; lm_JSONNodes := None; lm_ExprNodes := None;
     lm_Iterations := None; lm_RequestBodyKB := None; lm_HostCalls := None; lm_CacheBytesKB := None |} in
  el_CacheEntries (ReconcileAtApproval zero zero) = 0%Z
  /\ is_Some (consumeCacheWrite (eff_limits (ReconcileAtApproval zero zero))
       {| hostCallsUsed := 0; httpRequestsUsed := 0; cacheEntriesUsed := 1000000; cacheBytesKBUsed := 0 |} 1).
Proof. split; [reflexivity|by eexists]. Qed.

(** ** The properties *)

(** C16. What an approval grants is contained in what the manifest asks for, in the broker's own terms:
    at the approved body ceiling, any request some approved route admits is admitted by a route of the
    manifest, although approval only compares authority tuples. This needs a positive body ceiling, and
    routes whose query keys are not empty strings and hold no NUL byte: a tuple writes the keys in one
    string, where the empty key and no key look alike. *)
Theorem approval_is_containment PM FM m d g by_ now e :
  Approve PM FM m d g by_ now = Ok e ->
  (forall r, r ∈ mf_Routes m -> plain_keys (ir_QueryKeys r)) ->
  (forall r, r ∈ gr_Routes g -> plain_keys (ir_QueryKeys r)) ->
  let kb := el_RequestBodyKB (le_EffectiveLimits e) in
  (0 < kb)%Z ->
  forall req path use,
  anyRouteAllows PM FM (map lock_route (le_Routes e)) req path use kb = true ->
  anyRouteAllows PM FM (map lock_route (mf_Routes m)) req path use kb = true.
Proof.
  intros [Ha ->]%Approve_approved Hm Hg kb Hkb req path use. rewrite !anyRouteAllows_spec.
  intros (r & Hr & Hp). apply elem_of_map in Hr as (r1 & -> & Hr). simpl in Hr. apply elem_of_map in Hr as (r0 & -> & Hr).
  destruct (ap_routes _ _ _ _ _ Ha r0 Hr) as (r' & id & Hr' & Hid & Hid'). exists (lock_route r'). split; [apply elem_of_map; eauto|].
  apply (identity_permits PM FM (without_reason r0) r' id (requested "requestBodyKB" (mf_Limits m))).
  - apply (Hg r0 Hr).
  - by apply Hm.
  - split; [done|]. unfold kb. simpl.
    change (eff_field (ReconcileAtApproval (mf_Limits m) (gr_Limits g)) "requestBodyKB" <= requested "requestBodyKB" (mf_Limits m))%Z.
    rewrite reconcile_field, effectiveLimit_min by (unfold limitFieldOrder; rewrite !elem_of_cons; tauto). lia.
  - by apply without_reason_Ok.
  - done.
  - exact Hp.
Qed.

Example approval_is_containment_witness :
  let e := entry_of sample_manifest (grants_of sample_manifest) "admin" 0 in
  let req := {| hq_Slot := "nas"; hq_Method := "GET"; hq_Path := "/a"; hq_Query := {["a" := "1"]}; hq_Header := ∅;
                hq_Body := None; hq_BodyLen := 0 |} in
  Approve (fun _ => None) (fun _ _ => "") sample_manifest "sha256:ab" (grants_of sample_manifest) "admin" 0 = Ok e
  /\ anyRouteAllows (fun _ => None) (fun _ _ => "") (map lock_route (mf_Routes sample_manifest)) req "/a" "data" 64 = true.
Proof.
  intros e req. split; [vm_compute; reflexivity|].
  assert (Hk : forall r, r ∈ mf_Routes sample_manifest -> plain_keys (ir_QueryKeys r)).
  { apply Forall_forall. vm_compute. repeat constructor; intros ks [= <-]; repeat constructor; discriminate. }
  apply (approval_is_containment (fun _ => None) (fun _ _ => "") sample_manifest "sha256:ab" (grants_of sample_manifest) "admin" 0 e);
    [vm_compute; reflexivity|exact Hk|exact Hk|vm_compute; reflexivity|vm_compute; reflexivity].
Defined.

(** C4. A card runs only with authority someone gave it. A plugin's card runs only if its integration
    is declared and enabled and the lock holds an approval of exactly the manifest in the directory its
    source names, and then under that approval's capabilities, routes and limits. Two kinds of card need
    no approval: an http-json card runs a pipeline of the one request its own method, path and query
    name, under a grant for that method and path alone, and a docker card, if the built-in integration is declared, lists the containers of a
    docker connection. Any other card carries a reason, and the scheduler never runs it. *)
Theorem card_runs_only_approved (w : world) card d load :
  build_card w card = Ok (d, load) ->
  run_sound w card d
  /\ (d_Run d = None -> forall m now, refresh_gate (RunFunc := run_plan) m now d <> GateRun).
Proof.
  intros H. assert (Hs : run_sound w card d).
  { unfold build_card in H. destruct (w_card_hash w card) as [hash|]; [|done].
    destruct (String.eqb_spec (card_Integration card) "docker").
    { injection H as <- _. by apply docker_card_sound. }
    destruct (String.eqb_spec (card_Integration card) "http-json").
    { destruct (http_json_card w card hash) as [d'|] eqn:E; cbn [res_bind] in H; [|done]. injection H as <- _.
      by eapply http_json_card_sound. }
    by eapply plugin_card_sound. }
  split; [exact Hs|]. intros Hn m now. unfold run_sound in Hs. rewrite Hn in Hs. unfold refresh_gate.
  destruct (defs m !! d_ID d); [|done]. destruct (negb _); [done|].
  destruct (String.eqb_spec (d_Disabled d) ""); cbn [negb]; [by destruct Hs|done].
Qed.

(** ** A world to build cards in *)

Definition sample_mmanifest : @MManifest :=
  {| mm_Path := ""; mm_Module := ""; mm_Digest := "sha256:ab"; mm_ID := "p"; mm_Name := "P"; mm_Version := "1"; mm_Runtime := "wasm"; mm_ModuleSHA256 := "";
     mm_Capabilities := ["http"]; mm_Slots := []; mm_Limits := WithDefaults zero_limits;
     mm_Operations := [{| op_ID := "status"; op_Name := ""; op_DefaultRefresh := ""; op_Params := ANil; op_Routes := []; op_Signals := []; op_Pipeline := []; op_Output := None |}] |}.

(** The lock approves the digest [approved]. *)
Definition sample_world (approved : string) : world :=
  {| w_integration := fun id => if String.eqb id "p" then Some {| in_ID := "p"; in_Source := "path:p"; in_Enabled := None; in_Description := "" |} else None;
     w_conn := fun _ => None; w_docker := false;
     w_lock := {["p" := entry_of {| mf_ID := "p"; mf_Name := "P"; mf_Version := "1"; mf_Runtime := "wasm"; mf_Capabilities := ["http"];
       mf_Limits := no_limits; mf_Routes := []; mf_ModuleSHA256 := ""; mf_Digest := approved |} (grants_of sample_manifest) "admin" 0]};
     w_revisions := ∅; w_generation := 1; w_configDir := "/etc"; w_manifest_file := fun d => Some d;
     w_manifest := fun _ => Some sample_mmanifest; w_parse := fun _ => Err "parse"; w_walk := fun _ => []; w_lower := fun s => s; w_print := fun _ => ""; w_card_hash := fun _ => Some "h";
     w_entry_hash := fun _ => Some "a"; w_key := fun d _ _ => d; w_revisions_json := fun _ => "{}"; w_wasm := true;
     w_load := fun _ _ _ => true |}.

Definition sample_app_card : Card :=
  {| card_ID := "c"; card_Title := ""; card_Href := ""; card_Icon := ""; card_Integration := "p"; card_Operation := "status";
     card_Slots := ∅; card_Params := []; card_View := []; card_Refresh := ""; card_Span := {| span_Columns := 1; span_Rows := 1 |};
     card_Tags := [] |}.

(** Unlike a plugin's, a docker card runs even when the configuration disables its integration. *)
Example disabled_docker_runs :
  let w := {| w_integration := fun id => if String.eqb id "docker" then Some {| in_ID := "docker"; in_Source := "builtin"; in_Enabled := Some false; in_Description := "" |} else None;
     w_conn := fun _ => Some {| c_ID := "d"; c_Kind := "docker"; c_HTTP := None; c_Docker := None |}; w_docker := true; w_lock := ∅;
     w_revisions := ∅; w_generation := 1; w_configDir := "/etc"; w_manifest_file := fun d => Some d;
     w_manifest := fun _ => None; w_parse := fun _ => Err "parse"; w_walk := fun _ => []; w_lower := fun s => s; w_print := fun _ => "";
     w_card_hash := fun _ => Some "h"; w_entry_hash := fun _ => None; w_key := fun d _ _ => d; w_revisions_json := fun _ => "{}"; w_wasm := true;
     w_load := fun _ _ _ => true |} in
  let card := {| card_ID := "c"; card_Title := ""; card_Href := ""; card_Icon := ""; card_Integration := "docker"; card_Operation := "containers";
     card_Slots := {["server" := "d"]}; card_Params := []; card_View := []; card_Refresh := ""; card_Span := {| span_Columns := 1; span_Rows := 1 |};
     card_Tags := [] |} in
  (IsEnabled <$> w_integration w "docker") = Some false
  /\ (let! p := build_card w card in Ok (d_Run p.1)) = Ok (Some (RunDocker "d")).
Proof. by vm_compute. Qed.

Example card_runs_only_approved_witness :
  (exists d load m e g, build_card (sample_world "sha256:ab") sample_app_card = Ok (d, load) /\ d_Run d = Some (RunPlugin m e "status" g)
     /\ approved_run (sample_world "sha256:ab") sample_app_card m e "status" g)
  /\ (exists d load, build_card (sample_world "sha256:old") sample_app_card = Ok (d, load) /\ d_Run d = None
     /\ forall m now, refresh_gate (RunFunc := run_plan) m now d <> GateRun).
Proof.
  split.
  - destruct (build_card (sample_world "sha256:ab") sample_app_card) as [[d load]|] eqn:E; [|vm_compute in E; discriminate].
    assert (Hs := proj1 (card_runs_only_approved (sample_world "sha256:ab") sample_app_card d load E)).
    exists d, load. assert (Hr : is_Some (d_Run d)) by (vm_compute in E; injection E as <- _; by eexists).
    destruct Hr as [r Hr]. unfold run_sound in Hs. rewrite Hr in Hs.
    assert (Hp : exists m e g, r = RunPlugin m e "status" g) by (vm_compute in E; injection E as <- _; injection Hr as <-; by eexists _, _, _).
    destruct Hp as (m & e & g & ->). by exists m, e, g.
  - destruct (build_card (sample_world "sha256:old") sample_app_card) as [[d load]|] eqn:E; [|vm_compute in E; discriminate].
    exists d, load. assert (Hn : d_Run d = None) by (vm_compute in E; by injection E as <- _).
    split_and!; [done|exact Hn|]. by apply (proj2 (card_runs_only_approved (sample_world "sha256:old") sample_app_card d load E)).
Defined.
