(* ===== verification/AssetApi.v ===== *)
(** * Signed assets: internal/app/assets.go and internal/api/assets.go

    A plugin's document names pictures by signed references; a browser asks the server for them. The
    token says what was allowed when it was signed; [AssetAuthorized] asks again of the configuration,
    the manifest, the lock and the connection as they are now, and once more for every redirect. What
    comes back is kept in the cache [AssetCache] and served only if it is a picture.

    Reading the manifest and the lock, the media type parser, the hashes, the JSON of a payload, the
    image decoders and the texts of errors are arguments. *)
From S2P Require Import Prelude GoSort GoAny GoPath RoutePath GoTime NetHttp NetSniff Sql Database Config Manifest Connections HttpClient Grant Assets Broker.
From S2P Require Import Approval Storage Api App AssetCache.

(** ** The image check *)

Definition maxAssetBytes : Z := 8 * 2 ^ 20.

Section Handler.
Context {R : Type} `{RegistryOps R}.
Variable ParseMediaType : string -> option (string * gmap string string).
Variable FormatMediaType : string -> gmap string string -> string.
Variable hmac : string -> string -> string.
Variable sha256 : string -> string.
Variable marshal : Payload -> string.
Variable unmarshal : string -> option Payload.
Variable DecodeConfig : string -> option (Z * Z).      (* image.DecodeConfig: width and height *)
Variable do_text : do_error -> string.
Variable svc : Service.
Variable c : Cache.

Definition sniffImage (body : string) : option string :=
  let n := Z.of_nat (String.length body) in
  if (n =? 0)%Z || (maxAssetBytes <? n)%Z then None
  else
    let mime := default "" (head (Split ";" (DetectContentType body))) in
    if negb (existsb (String.eqb mime) ["image/jpeg"; "image/png"; "image/gif"]) then None
    else match DecodeConfig body with
         | None => None
         | Some (width, height) =>
             if (width <=? 0)%Z || (height <=? 0)%Z || (16384 <? width)%Z || (16384 <? height)%Z || (40000000 <? width * height)%Z
             then None else Some mime
         end.

(** ** app/assets.go *)

(** What is current when the question is asked. *)
Record asset_world := {
  aw_snapshot : Snapshot; aw_configDir : string;
  aw_manifest_file : string -> res string string;   (* integrations.ManifestFile *)
  aw_manifest : string -> res string MManifest;     (* manifestload.Load *)
  aw_lock : res string Lock;                        (* integrations.ReadLock *)
  aw_conn : string -> option Conn }.                (* reg.Get *)

(** The loop over the slots of one card; any that fits is enough, so their order does not matter. *)
Definition slot_authorised (aw : asset_world) (m : MManifest) (entry : LockEntry) (card : Card) (p : Payload) (query : Values)
  (slot : string * string) : bool :=
  String.eqb slot.2 (pl_Connection p)
  && match Authorize ParseMediaType FormatMediaType (grant m entry card (aw_conn aw) ∅ 0 "" "")
             (asset_request slot.1 (pl_Path p) query) UseAsset with
     | None => true
     | Some _ => false
     end.
Definition AssetAuthorized (aw : asset_world) (p : Payload) : res string bool :=
  match Cut (pl_Plugin p) "@" with
  | None => Ok false
  | Some (pluginID, version) =>
      match IntegrationByID (aw_snapshot aw) pluginID with
      | None => Ok false
      | Some declared =>
          match ResolveSource (aw_configDir aw) (in_Source declared) with
          | None => Err "unsupported source"
          | Some src =>
              if so_Builtin src then Ok false
              else
                let! path := aw_manifest_file aw (so_Dir src) in
                let! m := aw_manifest aw path in
                if negb (String.eqb (mm_Version m) version) then Ok false
                else
                  let! lock := aw_lock aw in
                  match default ∅ (lk_Integrations lock) !! pluginID with
                  | None => Ok false
                  | Some entry =>
                      if negb (String.eqb (le_ManifestSHA256 entry) (mm_Digest m)) then Ok false
                      else match ParseQuery (pl_Query p) with
                           | None => Err "invalid query"
                           | Some query =>
                               Ok (existsb (fun card => String.eqb (card_Integration card) pluginID
                                              && existsb (slot_authorised aw m entry card p query) (map_to_list (card_Slots card)))
                                     (all_cards (snap_Config (aw_snapshot aw))))
                           end
                  end
          end
      end
  end.

(** ** api/assets.go *)

(** [url.Values.Encode] *)
Definition Encode (q : Values) : string :=
  Join "&" (concat (map (fun k => map (fun v => QueryEscape k +:+ "=" +:+ QueryEscape v) (default [] (q !! k)))
                        (sort_strings (map fst (map_to_list q))))).
Definition valuesOf (q : gmap string string) : Values := (fun v => [v]) <$> q.
Definition validTransform : string -> bool := transformPattern.

Definition maxAge (exp : Z) (t : Time) : string := let n := (exp - unix t)%Z in decimal (if (n <? 0)%Z then 0 else n).

(** [Store.ConnectionRevision] *)
Definition ConnectionRevision (id : string) : Disk (option string) :=
  query (fun w => cx_revision <$> t_connections (w_db w) !! id).

(** The handler up to the cache: a refusal, or what the token allows. *)
Definition vet (aw : asset_world) (now : Time) (token : string) : Disk (response + Payload * Values) :=
  match Verify hmac unmarshal svc now token with
  | None => sql_ret (inl http_NotFound)
  | Some p =>
      do* revision <- sql_try (ConnectionRevision (pl_Connection p));
      match revision with
      | Err _ => sql_ret (inl (fail_with 500 "asset lookup failed"))
      | Ok None => sql_ret (inl http_NotFound)
      | Ok (Some revision) =>
          if negb (equal revision (pl_ConnectionRevision p)) then sql_ret (inl http_NotFound)
          else if negb (match Canonicalise (pl_Path p) with Ok canonical => String.eqb canonical (pl_Path p) | Err _ => false end)
          then sql_ret (inl http_NotFound)
          else match ParseQuery (pl_Query p) with
               | None => sql_ret (inl http_NotFound)
               | Some query =>
                   if negb (String.eqb (Encode query) (pl_Query p) && validTransform (pl_Transform p)) then sql_ret (inl http_NotFound)
                   else match AssetAuthorized aw p with
                        | Ok true => sql_ret (inr (p, query))
                        | _ => sql_ret (inl http_NotFound)
                        end
               end
      end
  end.

(** The payload a redirect destination is judged as. *)
Definition redirected (p : Payload) (dest : RedirectRequest) : Payload :=
  {| pl_V := pl_V p; pl_Connection := pl_Connection p; pl_ConnectionRevision := pl_ConnectionRevision p;
     pl_Path := rr_Path dest; pl_Query := Encode (valuesOf (rr_Query dest)); pl_Transform := pl_Transform p;
     pl_Plugin := pl_Plugin p; pl_Expires := pl_Expires p |}.
(** [aw] is what is current while the request runs. *)
Definition asset_env (e : env) (aw : asset_world) (p : Payload) : env :=
  {| limiter_err := limiter_err e; acquire_err := acquire_err e; send := send e;
     redirect_authorizer := Some (fun dest =>
       match AssetAuthorized aw (redirected p dest) with
       | Err text => Some text
       | Ok true => None
       | Ok false => Some ("no asset route permits a redirect to " +:+ rr_Method dest +:+ " " +:+ rr_Path dest)
       end) |}.
Definition asset_get (p : Payload) (query : Values) : Request :=
  {| rq_Method := "GET"; rq_Path := pl_Path p; rq_Query := firstValues query; rq_Headers := ∅; rq_Body := None;
     rq_MaxResponseBytes := maxAssetBytes |}.
(** The fetch function: the requests on the wire and what it returns. *)
Definition fetch (e : env) (aw : asset_world) (r : R) (p : Payload) (query : Values) : list wire_request * res string Result :=
  let '(trace, resp) := rg_Do (asset_env e aw p) r (pl_Connection p) (asset_get p query) in
  (trace, match resp with
          | Err er => Err (do_text er)
          | Ok resp =>
              if (rs_StatusCode resp <? 200)%Z || (300 <=? rs_StatusCode resp)%Z
              then Err ("upstream returned HTTP " +:+ decimal (rs_StatusCode resp))
              else match sniffImage (rs_Body resp) with
                   | None => Err "upstream response is not a safe image"
                   | Some contentType => Ok {| r_Body := rs_Body resp; r_ContentType := contentType |}
                   end
          end).

Definition asset_headers (contentType age : string) : list (string * string) :=
  [("Content-Type", contentType); ("Cache-Control", "private, max-age=" +:+ age +:+ ", immutable");
   ("Content-Security-Policy", "default-src 'none'; sandbox"); ("X-Content-Type-Options", "nosniff"); ("Content-Disposition", "inline")].
Definition reply (p : Payload) (now : Time) (result : res string Result) : response :=
  match result with
  | Err _ => fail_with 502 "asset unavailable"
  | Ok result => {| rp_status := 200; rp_headers := asset_headers (r_ContentType result) (maxAge (pl_Expires p) now);
                    rp_cookies := []; rp_body := PText (r_Body result) |}
  end.

(** What a request draws from outside: the current state when it is admitted and while it fetches, the
    clock, the name of the temporary file, and, if another request leads its flight, what that one
    got. *)
Record asset_draws := {
  ad_admitted : asset_world; ad_fetching : asset_world; ad_env : env; ad_registry : R;
  ad_clock : nat -> Time; ad_tmp : string; ad_fuel : nat; ad_flight : option (res string Result) }.

Definition serve_asset (d : asset_draws) (token : string) : Disk (response * option (string * res string Result)) :=
  do* admitted <- vet (ad_admitted d) (ad_clock d 0) token;
  match admitted with
  | inl refusal => sql_ret (refusal, None)
  | inr (p, query) =>
      match ad_flight d with
      | Some result => sql_ret (reply p (ad_clock d 3) result, None)
      | None =>
          let key := CacheKey sha256 marshal p in
          do* led <- sql_try (fill sha256 c (ad_clock d 1) (ad_clock d 2) (ad_tmp d) key (pl_Connection p)
                                (fetch (ad_env d) (ad_fetching d) (ad_registry d) p query).2 (ad_fuel d));
          let result := let! r := led in Ok r.1 in
          sql_ret (reply p (ad_clock d 3) result, Some (key, result))
      end
  end.

(** ** api/background.go *)

Definition maxBackgroundBytes : Z := 8 * 2 ^ 20.
Definition resolveBackground (configDir raw : string) : string :=
  if String.eqb raw "" then ""
  else if filepath_IsAbs raw then filepath_Clean raw
  else filepath_Clean (filepath_Join configDir raw).
(** What [os.Stat] and [os.ReadFile] find: whether the file is regular, its size, its bytes. *)
Record background_file := { bf_regular : bool; bf_size : Z; bf_data : option string }.
Definition readBackground (stat : option background_file) : option string :=
  f ← stat;
  if negb (bf_regular f) || (maxBackgroundBytes <? bf_size f)%Z then None else bf_data f.
Definition backgroundPath (configDir : string) (snapshot : option Snapshot) : string :=
  match snapshot with
  | None => ""
  | Some snap => resolveBackground configDir (Background (cfg_Dashboard (snap_Config snap)))
  end.
(** [http.ServeContent] answers with the headers set so far. *)
Variable ServeContent : http_request -> list (string * string) -> string -> string -> response.
Definition quoted (s : string) : string := String "034" (s +:+ String "034" "").
Definition background (configDir : string) (snapshot : option Snapshot) (stat : string -> option background_file) (r : http_request) : response :=
  let path := backgroundPath configDir snapshot in
  if String.eqb path "" then http_NotFound
  else match readBackground (stat path) with
       | None => http_NotFound
       | Some body =>
           match sniffImage body with
           | None => http_NotFound
           | Some contentType =>
               let etag := quoted (hex_encode (String.substring 0 8 (sha256 body))) in
               let sets := [("ETag", etag); ("Cache-Control", "private, max-age=300"); ("Content-Type", contentType);
                            ("Content-Length", decimal (Z.of_nat (String.length body))); ("X-Content-Type-Options", "nosniff")] in
               if String.eqb (header_Get (hr_headers r) "If-None-Match") etag
               then {| rp_status := 304; rp_headers := sets; rp_cookies := []; rp_body := PNone |}
               else ServeContent r sets (filepath_Base path) body
           end
       end.
(** A mistyped path serves nothing: what is answered at all is a bounded picture. *)
Lemma background_is_a_picture configDir snapshot stat r :
  background configDir snapshot stat r = http_NotFound
  \/ exists f body ct, stat (backgroundPath configDir snapshot) = Some f /\ bf_regular f = true /\ (bf_size f <= maxBackgroundBytes)%Z
     /\ bf_data f = Some body /\ sniffImage body = Some ct.
Proof.
  unfold background, readBackground. destruct (String.eqb _ ""); [by left|]. destruct (stat _) as [f|]; [|by left]. cbn [mbind option_bind].
  destruct (bf_regular f) eqn:Er; [|by left]. cbn [negb orb]. destruct (Z.ltb_spec maxBackgroundBytes (bf_size f)); [by left|].
  destruct (bf_data f) as [body|] eqn:Ed; [|by left]. destruct (sniffImage body) as [ct|] eqn:Es; [|by left].
  right. by exists f, body, ct.
Qed.
End Handler.

(** ** Lemmas on queries *)

Definition plain_query_byte (b : ascii) : bool := negb (Ascii.eqb b "&" || Ascii.eqb b ";" || Ascii.eqb b "=").
Lemma escape_byte b : query_unescape (String percent (String (hexUpper (byteN b / 16)) (String (hexUpper (byteN b mod 16)) ""))) = Some (String b "")
  /\ isHex (hexUpper (byteN b / 16)) && isHex (hexUpper (byteN b mod 16)) = true
  /\ hexByte (hexUpper (byteN b / 16)) (hexUpper (byteN b mod 16)) = b
  /\ plain_query_byte (hexUpper (byteN b / 16)) && plain_query_byte (hexUpper (byteN b mod 16)) = true.
Proof. all_ascii b; vm_compute; done. Qed.
Lemma unreserved_plain b : isUnreserved b = true -> Ascii.eqb b "+" = false /\ Ascii.eqb b percent = false /\ plain_query_byte b = true.
Proof. all_ascii b; vm_compute; done. Qed.

Lemma query_unescape_escape s : query_unescape (QueryEscape s) = Some s.
Proof.
  induction s as [|b s IH]; [done|]. cbn [QueryEscape]. destruct (isUnreserved b) eqn:Hu.
  - apply unreserved_plain in Hu as (H1 & H2 & _). cbn [query_unescape]. by rewrite H1, H2, IH.
  - destruct (Ascii.eqb_spec b " ") as [->|_]; [by cbn; rewrite IH|].
    destruct (escape_byte b) as (_ & Hh & Hb & _). cbn [query_unescape]. rewrite Hh, Hb, IH. done.
Qed.

Lemma QueryEscape_plain s : all_bytes plain_query_byte (QueryEscape s) = true.
Proof.
  induction s as [|b s IH]; [done|]. cbn [QueryEscape]. destruct (isUnreserved b) eqn:Hu.
  - apply unreserved_plain in Hu as (_ & _ & H). cbn [all_bytes]. by rewrite H, IH.
  - destruct (Ascii.eqb b " "); [done|]. destruct (escape_byte b) as (_ & _ & _ & H). apply andb_true_iff in H as [H1 H2].
    cbn [all_bytes]. by rewrite H1, H2, IH.
Qed.

Definition pair_text (k v : string) : string := QueryEscape k +:+ "=" +:+ QueryEscape v.
Lemma pair_text_parts k v : contains_byte ";" (pair_text k v) = false /\ no_sep "&" (pair_text k v)
  /\ pair_text k v <> "" /\ Cut (pair_text k v) "=" = Some (QueryEscape k, QueryEscape v).
Proof.
  pose proof (QueryEscape_plain k) as Hk. pose proof (QueryEscape_plain v) as Hv. unfold pair_text.
  assert (Hp : forall b, plain_query_byte b = true -> Ascii.eqb ";" b = false /\ Ascii.eqb b "&" = false /\ Ascii.eqb b "=" = false)
    by (intros b; all_ascii b; vm_compute; done).
  split_and!.
  - unfold contains_byte. apply negb_false_iff. rewrite !all_bytes_app. apply andb_true_iff. split.
    + eapply all_bytes_impl; [|exact Hk]. intros b (H & _)%Hp. by rewrite H.
    + apply andb_true_iff. split; [done|]. eapply all_bytes_impl; [|exact Hv]. intros b (H & _)%Hp. by rewrite H.
  - unfold no_sep. rewrite !all_bytes_app. apply andb_true_iff. split.
    + eapply all_bytes_impl; [|exact Hk]. intros b (_ & H & _)%Hp. by rewrite H.
    + apply andb_true_iff. split; [done|]. eapply all_bytes_impl; [|exact Hv]. intros b (_ & H & _)%Hp. by rewrite H.
  - by destruct (QueryEscape k).
  - apply Cut_first. eapply all_bytes_impl; [|exact Hk]. intros b (_ & _ & H)%Hp. by rewrite H.
Qed.

Lemma parse_pairs_texts (f : string -> string) ks acc : parse_pairs (map (fun k => pair_text k (f k)) ks) acc
  = Some (foldl (fun q k => values_Add q k (f k)) acc ks).
Proof.
  revert acc. induction ks as [|k ks IH]; intros acc; [done|]. cbn [map parse_pairs foldl].
  destruct (pair_text_parts k (f k)) as (H1 & _ & H3 & H4). rewrite H1, (proj2 (String.eqb_neq _ _) H3), H4, !query_unescape_escape.
  apply IH.
Qed.

Lemma added_lookup (f : string -> string) ks (acc : Values) k : NoDup ks -> (forall j, j ∈ ks -> acc !! j = None) ->
  foldl (fun q j => values_Add q j (f j)) acc ks !! k = if bool_decide (k ∈ ks) then Some [f k] else acc !! k.
Proof.
  revert acc. induction ks as [|j ks IH]; intros acc Hn Hacc; [done|]. apply NoDup_cons in Hn as [Hj Hn]. cbn [foldl].
  rewrite IH; [|done|].
  - unfold values_Add. rewrite (Hacc j) by left. case_bool_decide as Hk.
    + by rewrite bool_decide_true by (by right).
    + destruct (decide (k = j)) as [->|Hne].
      * rewrite lookup_insert_eq, bool_decide_true by left. done.
      * rewrite lookup_insert_ne by done. rewrite bool_decide_false; [done|]. by intros [->|?]%elem_of_cons.
  - intros i Hi. unfold values_Add. rewrite lookup_insert_ne by (by intros ->). apply Hacc. by right.
Qed.

(** The canonical text of a query is read back as the first values, and written as itself again. *)
Definition only_first (q : Values) : Values := (fun l => [first_value (Some l)]) <$> q.

Lemma query_keys (q : Values) : NoDup (sort_strings (map fst (map_to_list q)))
  /\ forall k, k ∈ sort_strings (map fst (map_to_list q)) <-> is_Some (q !! k).
Proof.
  assert (Hp := sort_strings_perm (map fst (map_to_list q))). split.
  - rewrite Hp. apply NoDup_fst_map_to_list.
  - intros k. rewrite Hp. split.
    + intros ([k' v] & -> & Hin)%elem_of_map. apply elem_of_map_to_list in Hin. by eexists.
    + intros [v Hv]. apply (elem_of_map_2 fst _ (k, v)). by apply elem_of_map_to_list.
Qed.

Lemma ParseQuery_canonicalQuery q : ParseQuery (canonicalQuery q) = Some (only_first q).
Proof.
  destruct (query_keys q) as [Hn Hk]. set (ks := sort_strings (map fst (map_to_list q))) in *.
  set (f := fun k => first_value (q !! k)).
  assert (Hs : parse_pairs (Split "&" (canonicalQuery q)) ∅ = Some (foldl (fun acc k => values_Add acc k (f k)) ∅ ks)).
  { rewrite <- parse_pairs_texts. change (canonicalQuery q) with (Join "&" (map (fun k => pair_text k (f k)) ks)).
    destruct ks as [|k0 ks0] eqn:E; [done|]. rewrite Split_Join; [done|done|].
    apply Forall_map, Forall_forall. intros k _. apply pair_text_parts. }
  unfold ParseQuery. rewrite Hs. f_equal. apply map_eq. intros k. rewrite added_lookup by (done || by intros; apply lookup_empty).
  unfold only_first. rewrite lookup_fmap, lookup_empty. unfold f. case_bool_decide as Hin.
  - apply Hk in Hin as [v Hv]. by rewrite Hv.
  - destruct (q !! k) eqn:E; [|done]. exfalso. apply Hin, Hk. by eexists.
Qed.

Lemma Encode_only_first q : Encode (only_first q) = canonicalQuery q.
Proof.
  unfold Encode, canonicalQuery, only_first. rewrite map_to_list_fmap.
  assert (E : map fst (prod_map id (fun l => [first_value (Some l)]) <$> map_to_list q) = map fst (map_to_list q)).
  { unfold fmap. rewrite map_map. apply map_ext. by intros []. }
  rewrite E. clear E. destruct (query_keys q) as [_ Hk]. f_equal.
  assert (Hall : Forall (fun k => is_Some (q !! k)) (sort_strings (map fst (map_to_list q)))) by (apply Forall_forall; intros; by apply Hk).
  clear Hk. induction Hall as [|k ks [v Hv] _ IH]; [done|]. cbn [map concat]. rewrite IH, lookup_fmap, Hv. done.
Qed.

(** ** What is authorised *)

Section Authorised.
Variable PM : string -> option (string * gmap string string).
Variable FM : string -> gmap string string -> string.

(** Some card of the current configuration binds a slot to the payload's connection, and for that slot
    the manifest of the payload's version, the lock entry of its digest and the connection all vet
    the path as an asset. *)
Definition asset_allowed (aw : asset_world) (p : Payload) : Prop :=
  exists id version declared src path m lock entry card slot query,
    Cut (pl_Plugin p) "@" = Some (id, version)
    /\ IntegrationByID (aw_snapshot aw) id = Some declared
    /\ ResolveSource (aw_configDir aw) (in_Source declared) = Some src /\ so_Builtin src = false
    /\ aw_manifest_file aw (so_Dir src) = Ok path /\ aw_manifest aw path = Ok m /\ mm_Version m = version
    /\ aw_lock aw = Ok lock /\ default ∅ (lk_Integrations lock) !! id = Some entry /\ le_ManifestSHA256 entry = mm_Digest m
    /\ card ∈ all_cards (snap_Config (aw_snapshot aw)) /\ card_Integration card = id
    /\ card_Slots card !! slot = Some (pl_Connection p) /\ ParseQuery (pl_Query p) = Some query
    /\ authorised PM FM (grant m entry card (aw_conn aw) ∅ 0 "" "") (asset_request slot (pl_Path p) query) UseAsset.

Lemma slot_authorised_true aw m entry card p q slot :
  slot_authorised PM FM aw m entry card p q slot = true <->
  slot.2 = pl_Connection p /\ authorised PM FM (grant m entry card (aw_conn aw) ∅ 0 "" "") (asset_request slot.1 (pl_Path p) q) UseAsset.
Proof.
  unfold slot_authorised. rewrite andb_true_iff, String.eqb_eq, <- Authorize_authorised.
  destruct (Authorize _ _ _ _ _); naive_solver.
Qed.

Lemma AssetAuthorized_allowed aw p : AssetAuthorized PM FM aw p = Ok true <-> asset_allowed aw p.
Proof.
  unfold AssetAuthorized. split.
  - destruct (Cut _ _) as [[id version]|] eqn:Ec; [|done]. destruct (IntegrationByID _ _) as [declared|] eqn:Ei; [|done].
    destruct (ResolveSource _ _) as [src|] eqn:Es; [|done]. destruct (so_Builtin src) eqn:Eb; [done|].
    intros (path & Ep & (m & Em & H)%res_bind_Ok)%res_bind_Ok. destruct (String.eqb_spec (mm_Version m) version) as [Ev|]; [|done].
    cbn [negb] in H. apply res_bind_Ok in H as (lock & El & H). destruct (_ !! id) as [entry|] eqn:Ee; [|done].
    destruct (String.eqb_spec (le_ManifestSHA256 entry) (mm_Digest m)) as [Ed|]; [|done]. cbn [negb] in H.
    destruct (ParseQuery _) as [query|] eqn:Eq; [|done]. injection H as H. apply existsb_elem in H as (card & Hc & [Hi Hs]%andb_true_iff).
    apply existsb_elem in Hs as ([slot conn] & Hin & [Hconn Ha]%slot_authorised_true). apply elem_of_map_to_list in Hin.
    cbn [fst snd] in *. subst conn. apply String.eqb_eq in Hi.
    exists id, version, declared, src, path, m, lock, entry, card, slot, query. split_and!; done.
  - intros (id & version & declared & src & path & m & lock & entry & card & slot & query & -> & -> & -> & -> & -> & Em & Ev & El & Ee & Ed & Hc & Hi & Hs & -> & Ha).
    cbn [res_bind]. rewrite Em. cbn [res_bind]. rewrite Ev, String.eqb_refl. cbn [negb]. rewrite El. cbn [res_bind]. rewrite Ee, Ed, String.eqb_refl.
    cbn [negb]. f_equal. apply existsb_elem. exists card. split; [done|]. rewrite Hi, String.eqb_refl. apply existsb_elem.
    exists (slot, pl_Connection p). split; [by apply elem_of_map_to_list|]. by apply slot_authorised_true.
Qed.

(** A grant of the same approval allows the canonical form of what another allowed. *)
Lemma ParseQuery_valuesOf m : ParseQuery (Encode (valuesOf m)) = Some (valuesOf m).
Proof.
  assert (E : only_first (valuesOf m) = valuesOf m).
  { apply map_eq. intros k. unfold only_first, valuesOf. rewrite !lookup_fmap. by destruct (m !! k). }
  rewrite <- E at 1. by rewrite Encode_only_first, ParseQuery_canonicalQuery, E.
Qed.
Lemma firstValues_only_first q : map_Forall (fun _ v => v <> []) q -> firstValues (only_first q) = firstValues q.
Proof.
  intros Hq. apply map_eq. intros k. unfold firstValues, only_first. rewrite !lookup_omap, lookup_fmap.
  destruct (q !! k) as [l|] eqn:E; [|done]. specialize (Hq k l E). by destruct l.
Qed.
Lemma permits_again kb route slot path path' q cp :
  permits PM FM kb route (asset_request slot path q) cp UseAsset -> map_Forall (fun _ v => v <> []) q ->
  permits PM FM kb route (asset_request slot path' (only_first q)) cp UseAsset.
Proof. intros [] Hq. split; try done. cbn. by rewrite firstValues_only_first. Qed.
Lemma authorised_again m entry card reg revisions generation approval hash slot path query cp :
  authorised PM FM (grant m entry card reg revisions generation approval hash) (asset_request slot path query) UseAsset ->
  Canonicalise path = Ok cp -> map_Forall (fun _ v => v <> []) query ->
  authorised PM FM (grant m entry card reg ∅ 0 "" "") (asset_request slot cp (only_first query)) UseAsset.
Proof.
  intros [(cp' & Hcp & (r1 & Hr1 & Hp1) & (r2 & Hr2 & Hp2) & Hpol)] Hc Hq. cbn in Hcp. rewrite Hc in Hcp. injection Hcp as <-.
  split. exists cp. split; [by apply (Canonicalise_canonical path)|]. split; [exists r1; split; [done|by eapply permits_again]|].
  split; [exists r2; split; [done|by eapply permits_again]|exact Hpol].
Qed.
End Authorised.

(** ** The handler *)

Section Handling.
Context {R : Type} `{RegistryLaws R}.
Variable PM : string -> option (string * gmap string string).
Variable FM : string -> gmap string string -> string.
Variable hmac : string -> string -> string.
Variable sha256 : string -> string.
Variable marshal : Payload -> string.
Variable unmarshal : string -> option Payload.
Variable DecodeConfig : string -> option (Z * Z).
Variable do_text : do_error -> string.
Variable svc : Service.
Variable c : Cache.

(** A branch that answers without going on. *)
Ltac refuse no := let Hx := fresh in intros Hx; eapply no; [exact Hx|(by left) || (by right)].

(** What the token and the tables say when a request is admitted. *)
Record admitted (aw : asset_world) (now : Time) (token : string) (w : World) (p : Payload) (q : Values) : Prop := {
  am_token : Verify hmac unmarshal svc now token = Some p;
  am_revision : cx_revision <$> t_connections (w_db w) !! pl_Connection p = Some (pl_ConnectionRevision p);
  am_path : canonical (pl_Path p);
  am_query : ParseQuery (pl_Query p) = Some q /\ Encode q = pl_Query p;
  am_transform : validTransform (pl_Transform p) = true;
  am_allowed : asset_allowed PM FM aw p }.

Lemma vet_spec aw now token s s' r : vet PM FM hmac unmarshal svc aw now token s = (s', r) ->
  db s' = db s /\ ((exists resp, r = Ok (inl resp) /\ (rp_status resp = 404 \/ rp_status resp = 500)%Z)
                   \/ exists p q, r = Ok (inr (p, q)) /\ admitted aw now token (db s) p q).
Proof.
  unfold vet. destruct (Verify _ _ _ _ _) as [p|] eqn:Ev; [|intros [= <- <-]; split; [done|left; eexists; split; [done|by left]]].
  unfold sql_bind. destruct (sql_try _ s) as [s1 [rev|e]] eqn:E1.
  2:{ exfalso. unfold sql_try in E1. by destruct (ConnectionRevision _ s). }
  apply try_Ok in E1. assert (Hs1 : db s1 = db s).
  { unfold ConnectionRevision in E1. destruct (query_run (fun w => cx_revision <$> t_connections (w_db w) !! pl_Connection p) s) as (s2 & Hs2 & [E2|[e E2]]);
      rewrite E2 in E1; injection E1 as <- <-; done. }
  assert (Hno : forall resp, (sql_ret (inl resp) : Disk (response + Payload * Values)) s1 = (s', r) -> (rp_status resp = 404 \/ rp_status resp = 500)%Z ->
    db s' = db s /\ ((exists resp, r = Ok (inl resp) /\ (rp_status resp = 404 \/ rp_status resp = 500)%Z) \/ exists p q, r = Ok (inr (p, q)) /\ admitted aw now token (db s) p q)).
  { intros resp [= <- <-] Hr. split; [done|]. left. by eexists. }
  destruct rev as [[revision|]|e]; [|refuse Hno|refuse Hno].
  apply query_Ok in E1 as [_ Erev]. rewrite equal_eqb. destruct (String.eqb_spec revision (pl_ConnectionRevision p)) as [->|]; [|refuse Hno].
  cbn [negb]. destruct (Canonicalise (pl_Path p)) as [cp|] eqn:Ep; [|refuse Hno].
  destruct (String.eqb_spec cp (pl_Path p)) as [->|]; [|refuse Hno]. cbn [negb].
  destruct (ParseQuery _) as [q|] eqn:Eq; [|refuse Hno].
  destruct (String.eqb_spec (Encode q) (pl_Query p)) as [En|]; [|refuse Hno].
  destruct (validTransform _) eqn:Et; [|refuse Hno]. cbn [andb negb].
  destruct (AssetAuthorized _ _ _ _) as [[]|] eqn:Ea; [|refuse Hno..].
  intros [= <- <-]. split; [done|]. right. exists p, q. split; [done|]. apply AssetAuthorized_allowed in Ea. by split.
Qed.

(** *** What the handler keeps in the cache *)

Definition asset_key (k : string) : Prop := exists p, k = CacheKey sha256 marshal p.
Definition raster (ct : string) : Prop := ct ∈ ["image/jpeg"; "image/png"; "image/gif"].
Definition picture (body : string) : Prop := is_Some (sniffImage DecodeConfig body).

(** What the fetch function returns. *)
Definition fetched (r : Result) : Prop := exists e aw (reg : R) p q, (fetch PM FM DecodeConfig do_text e aw reg p q).2 = Ok r.
Definition cache_reach : World -> list Result -> Prop := used sha256 c asset_key fetched.

Hypothesis sha256_length : forall b, String.length (sha256 b) = digest_size.

Lemma asset_key_valid k : asset_key k -> valid_key k = true.
Proof. intros [p ->]. unfold CacheKey, valid_key. by rewrite b64url_roundtrip, sha256_length. Qed.

Lemma sniffImage_raster body ct : sniffImage DecodeConfig body = Some ct -> raster ct.
Proof.
  unfold sniffImage. cbv zeta. case_match; [done|]. destruct (existsb _ _) eqn:E; [|done]. apply existsb_elem in E as (x & Hx & ->%String.eqb_eq).
  cbn [negb]. destruct (DecodeConfig body) as [[]|]; [|done]. case_match; [done|]. by intros [= <-].
Qed.

Lemma fetch_pictures e aw (r : R) p q result : (fetch PM FM DecodeConfig do_text e aw r p q).2 = Ok result ->
  raster (r_ContentType result) /\ picture (r_Body result).
Proof.
  unfold fetch. destruct (rg_Do _ _ _ _) as [tr [resp|]]; cbn [snd]; [|done]. case_match; [done|].
  destruct (sniffImage DecodeConfig (rs_Body resp)) as [ct|] eqn:E; [|done]. intros [= <-]. cbn.
  split; [by eapply sniffImage_raster|by eexists].
Qed.

(** Whatever a request does, the cache keeps holding pictures, and what it serves is one. *)
Lemma serve_asset_spec d token l s s' resp led :
  served sha256 c asset_key raster picture (db s) -> Forall (fun r => raster (r_ContentType r) /\ picture (r_Body r)) l ->
  fresh_temp c (ad_tmp d) -> (forall r, ad_flight d = Some (Ok r) -> r ∈ l) ->
  serve_asset PM FM hmac sha256 marshal unmarshal DecodeConfig do_text svc c d token s = (s', Ok (resp, led)) ->
  served sha256 c asset_key raster picture (db s')
  /\ (forall k r, led = Some (k, Ok r) -> raster (r_ContentType r) /\ picture (r_Body r))
  /\ (rp_status resp = 200%Z -> exists p q r, admitted (ad_admitted d) (ad_clock d 0) token (db s) p q
       /\ raster (r_ContentType r) /\ picture (r_Body r) /\ resp = reply p (ad_clock d 3) (Ok r)).
Proof.
  intros Hs Hl Htmp Hfl. unfold serve_asset. intros (s1 & a & Ha & Hrun)%bind_Ok. apply vet_spec in Ha as [Hd Ha].
  destruct Ha as [(resp0 & [= ->] & Hst)|(p & q & [= ->] & Hadm)].
  { injection Hrun as <- <- <-. rewrite Hd. split; [done|]. split; [done|]. intros E. rewrite E in Hst. by destruct Hst. }
  rewrite <- Hd in Hs. destruct (ad_flight d) as [result|] eqn:Ef.
  { injection Hrun as <- <- <-. split; [done|]. split; [done|]. intros E. destruct result as [r|e]; [|done].
    specialize (Hfl r eq_refl). rewrite Forall_forall in Hl. exists p, q, r. destruct (Hl r Hfl). done. }
  apply bind_Ok in Hrun as (s2 & o & Hfill%try_Ok & [= <- <- <-]).
  pose proof (served_fill sha256 c asset_key raster picture (ad_clock d 1) (ad_clock d 2) (ad_tmp d) (CacheKey sha256 marshal p) (pl_Connection p)
    (fetch PM FM DecodeConfig do_text (ad_env d) (ad_fetching d) (ad_registry d) p q).2 (ad_fuel d) sha256_length) as Hf.
  specialize (Hf ltac:(intros k Hk; by apply Htmp, asset_key_valid) ltac:(intros r Hr _; by eapply fetch_pictures) s1 Hs). rewrite Hfill in Hf.
  destruct o as [[r b]|e]; cbn [res_bind fst] in *.
  - destruct Hf as [Hf1 Hf2]. specialize (Hf2 ltac:(by eexists)). split; [done|]. split; [by intros k r0 [= _ <-]|].
    intros _. exists p, q, r. destruct Hf2. done.
  - split; [done|]. split; [done|]. intros E. done.
Qed.

Lemma cache_reach_ok w l : cache_reach w l ->
  served sha256 c asset_key raster picture w /\ Forall (fun r => raster (r_ContentType r) /\ picture (r_Body r)) l.
Proof. apply used_served; [done|exact asset_key_valid|]. intros r (e & aw & reg & p & q & Hr). by eapply fetch_pictures. Qed.
End Handling.

(** ** The properties *)

Section Properties.
Context {R : Type} `{RegistryLaws R}.
Variable PM : string -> option (string * gmap string string).
Variable FM : string -> gmap string string -> string.
Variable hmac : string -> string -> string.
Variable sha256 : string -> string.
Variable marshal : Payload -> string.
Variable unmarshal : string -> option Payload.
Variable DecodeConfig : string -> option (Z * Z).
Variable do_text : do_error -> string.
Variable svc : Service.
Variable c : Cache.

(** C12. What is served for a signed reference is allowed now, and is a picture. Whatever other requests,
    other users of the cache, failures and restarts came before, and whoever led the flight: a reply of
    200 comes only for a token that verifies, whose connection has the revision the token names, for
    which a card of the current configuration, the manifest, the lock and the connection allow the
    path; and its body is a JPEG, PNG or GIF within the limits, sent sandboxed and not to be sniffed. *)
Theorem asset_served_authorised (d : asset_draws) token l s s' resp led
  (Hl : forall b, String.length (sha256 b) = digest_size)
  (Hreach : cache_reach (R := R) PM FM sha256 marshal DecodeConfig do_text c (db s) l)
  (Htmp : fresh_temp c (ad_tmp d)) (Hflight : forall r, ad_flight d = Some (Ok r) -> r ∈ l)
  (Hrun : serve_asset PM FM hmac sha256 marshal unmarshal DecodeConfig do_text svc c d token s = (s', Ok (resp, led)))
  (Hok : rp_status resp = 200%Z) :
  exists p q body ct age, admitted PM FM hmac unmarshal svc (ad_admitted d) (ad_clock d 0) token (db s) p q
    /\ rp_body resp = PText body /\ picture DecodeConfig body /\ (Z.of_nat (String.length body) <= maxAssetBytes)%Z
    /\ rp_headers resp = asset_headers ct age /\ raster ct.
Proof.
  destruct (cache_reach_ok _ _ _ _ _ _ _ Hl _ _ Hreach) as [Hs Hall].
  destruct (serve_asset_spec _ _ _ _ _ _ _ _ _ _ Hl _ _ _ _ _ _ _ Hs Hall Htmp Hflight Hrun) as (_ & _ & H1).
  destruct (H1 Hok) as (p & q & r & Hadm & Hct & Hpic & ->). exists p, q, (r_Body r), (r_ContentType r), (maxAge (pl_Expires p) (ad_clock d 3)).
  split_and!; try done. destruct Hpic as [mime Hm]. unfold sniffImage in Hm. cbv zeta in Hm.
  destruct (Z.ltb_spec maxAssetBytes (Z.of_nat (String.length (r_Body r)))); [by rewrite orb_true_r in Hm|done].
Qed.

(** C13. Every request sent upstream for a signed reference is authorised: the first is the reference's
    own, with its path under the connection's base and its query, which was allowed when the request was admitted, and each
    redirect that is followed was allowed, as a reference to the path and query it is sent with, by the state of
    the moment. The key a connection adds to a query itself is left aside. *)
Theorem asset_requests_authorised aw aw' now token e (r : R) s s' p q i wr
  (Hadmit : vet PM FM hmac unmarshal svc aw now token s = (s', Ok (inr (p, q))))
  (Hwire : (fetch PM FM DecodeConfig do_text e aw' r p q).1 !! i = Some wr) :
  asset_allowed PM FM aw p
  /\ exists base, rg_base r (pl_Connection p) = Some base
     /\ match i with
        | 0 => ParseQuery (pl_Query p) = Some q
               /\ as_authorised base (rg_owned r (pl_Connection p)) true (asset_request "" (pl_Path p) q) wr
        | S _ => exists dest, redirect_of base (rg_owned r (pl_Connection p)) wr dest
                 /\ as_authorised base (rg_owned r (pl_Connection p)) false (redirect_request "" dest) wr
                 /\ asset_allowed PM FM aw' (redirected p dest)
                 /\ ParseQuery (pl_Query (redirected p dest)) = Some (valuesOf (rr_Query dest))
        end.
Proof.
  apply vet_spec in Hadmit as (_ & [(? & ? & _)|(p' & q' & [= <- <-] & Hadm)]); [done|]. split; [apply Hadm|].
  assert (Hw : (rg_Do (asset_env PM FM e aw' p) r (pl_Connection p) (asset_get p q)).1 !! i = Some wr).
  { unfold fetch in Hwire. by destruct (rg_Do _ _ _ _). }
  destruct i as [|i].
  - destruct (rl_first _ _ _ _ _ Hw) as (base & u & Hb & Hj & Hu & Hh & Hs & Hm & Hl & Hq). exists base. split; [done|]. split; [apply Hadm|].
    apply (first_as_authorised _ _ _ _ u (pl_Path p) (firstValues q)); solve [done|apply Hadm].
  - destruct (rl_redirect _ _ _ _ _ _ _ Hw eq_refl) as (base & dest & Hb & Hr & Ha). exists base. split; [done|]. exists dest. split; [done|].
    split; [by apply redirect_as_authorised|]. split; [|apply ParseQuery_valuesOf].
    apply AssetAuthorized_allowed. cbn in Ha. by destruct (AssetAuthorized _ _ _ _) as [[]|].
Qed.

(** A reference is honoured while it lasts. What [AssetRef] signs for a card's run is admitted by
    the server, with the first values of the query, until it expires, as long as the integration is
    declared under its manifest's id and its manifest, its approval, the card and the connection's
    revision are what they were. *)
Theorem asset_reference_honoured text fb now now' sb sb' m entry card reg revisions generation approval hash slot path query t p tok
  aw declared src mpath lock s
  (Hmint : AssetRef PM FM text hmac marshal svc fb now sb (grant m entry card reg revisions generation approval hash) slot path query t
           = (sb', Ok (p, tok)))
  (Hcodec : unmarshal (marshal p) = Some p) (Hconn : pl_Connection p <> "") (Hfb : fb <> "")
  (Hvalues : map_Forall (fun _ v => v <> []) query) (Hid : no_sep "@" (mm_ID m))
  (Hdecl : IntegrationByID (aw_snapshot aw) (mm_ID m) = Some declared) (Hcard : card ∈ all_cards (snap_Config (aw_snapshot aw)))
  (Hint : card_Integration card = mm_ID m)
  (Hsrc : ResolveSource (aw_configDir aw) (in_Source declared) = Some src) (Hext : so_Builtin src = false)
  (Hfile : aw_manifest_file aw (so_Dir src) = Ok mpath) (Hload : aw_manifest aw mpath = Ok m) (Hlock : aw_lock aw = Ok lock)
  (Hentry : default ∅ (lk_Integrations lock) !! mm_ID m = Some entry) (Hdigest : le_ManifestSHA256 entry = mm_Digest m)
  (Hreg : aw_conn aw = reg) (Hclear : faults s = [])
  (Hrev : cx_revision <$> t_connections (w_db (db s)) !! pl_Connection p = Some (pl_ConnectionRevision p))
  (Hlasts : (unix now' < pl_Expires p)%Z) :
  vet PM FM hmac unmarshal svc aw now' tok s = (s, Ok (inr (p, only_first query))).
Proof.
  apply AssetRef_Ok in Hmint as [[_ Hslot Haz%Authorize_authorised [Hpath Hpath'] Hquery [Htr Htr'] [Hpl Hpl'] Hrev' [HV _]] ->].
  assert (Hcan := Canonicalise_canonical _ _ Hpath). unfold vet. rewrite Verify_Mint, payload_ok_complete by auto.
  rewrite (proj2 (Z.ltb_lt _ _) Hlasts). unfold sql_bind, sql_try, ConnectionRevision, Sql.query, exec, tick. rewrite Hclear, Hrev. cbn [db faults].
  rewrite equal_eqb, String.eqb_refl. cbn [negb]. rewrite Hcan, String.eqb_refl, Hquery, ParseQuery_canonicalQuery. cbn [negb].
  rewrite Encode_only_first, String.eqb_refl, Htr. change (validTransform (transformString t)) with (validateTransform t). rewrite Htr'. cbn [andb negb].
  rewrite (proj2 (AssetAuthorized_allowed PM FM aw p)); [by destruct s; cbn in *; rewrite Hclear|].
  exists (mm_ID m), (mm_Version m), declared, src, mpath, m, lock, entry, card, slot, (only_first query). rewrite Hpl, Hquery.
  split_and!; try done; [by apply Cut_first|apply ParseQuery_canonicalQuery|].
  rewrite Hreg. by eapply authorised_again.
Qed.
End Properties.

(** ** A thumbnail *)

Definition thumb_manifest : MManifest :=
  {| mm_Path := ""; mm_Module := ""; mm_Digest := "sha256:ab"; mm_ID := "p"; mm_Name := "P"; mm_Version := "1"; mm_Runtime := "declarative"; mm_ModuleSHA256 := "";
     mm_Capabilities := ["http"; "assets"]; mm_Slots := []; mm_Limits := Manifest.WithDefaults Manifest.zero_limits;
     mm_Operations := [{| op_ID := "recent"; op_Name := ""; op_DefaultRefresh := ""; op_Params := ANil;
       op_Routes := [{| mr_Slot := "nas"; mr_Method := "GET"; mr_Path := "/thumb/*"; mr_Use := "asset"; mr_ContentType := "";
                        mr_QueryKeys := Some ["size"]; mr_MaxBodyKB := 0 |}];
       op_Signals := []; op_Pipeline := []; op_Output := None |}] |}.
Definition thumb_limits : EffectiveLimits :=
  {| el_MemoryMB := 1; el_TimeoutMs := 1; el_OutputKB := 1; el_HTTPRequests := 1; el_ResponseMB := 1; el_CacheEntries := 1; el_InputMB := 1;
     el_JSONDepth := 1; el_JSONNodes := 1; el_ExprNodes := 1; el_Iterations := 1; el_RequestBodyKB := 1; el_HostCalls := 1; el_CacheBytesKB := 1 |}.
Definition thumb_entry (capabilities : list string) : LockEntry :=
  {| le_ManifestSHA256 := "sha256:ab"; le_ModuleSHA256 := ""; le_Version := "1"; le_Runtime := "declarative"; le_ApprovedAt := ""; le_ApprovedBy := "admin";
     le_Capabilities := capabilities;
     le_Routes := [{| ir_Slot := "nas"; ir_Method := "GET"; ir_Path := "/thumb/*"; ir_Use := "asset"; ir_Reason := ""; ir_QueryKeys := Some ["size"];
                      ir_ContentType := ""; ir_MaxBodyKB := 0 |}];
     le_Limits := None; le_EffectiveLimits := thumb_limits |}.
Definition thumb_card (integration : string) : Card :=
  {| card_ID := "c"; card_Title := ""; card_Href := ""; card_Icon := ""; card_Integration := integration; card_Operation := "recent";
     card_Slots := {["nas" := "nas"]}; card_Params := []; card_View := []; card_Refresh := ""; card_Span := {| span_Columns := 1; span_Rows := 1 |};
     card_Tags := [] |}.
Definition thumb_config (integration : string) (enabled : option bool) : Config :=
  {| Version := 1; cfg_Server := cfg_Server sample_config; cfg_Auth := cfg_Auth sample_config; cfg_Dashboard := cfg_Dashboard sample_config;
     Connections := ∅; Integrations := [{| in_ID := integration; in_Source := "path:p"; in_Enabled := enabled; in_Description := "" |}];
     Sections := [{| sec_Title := "s"; Collapsed := false; Cards := [thumb_card integration] |}]; Rules := []; Channels := ∅ |}.
Definition thumb_lock (integration : string) (capabilities : list string) : Lock :=
  {| lk_Version := 1; lk_Integrations := Some {[integration := thumb_entry capabilities]} |}.
Definition thumb_world (integration : string) (enabled : option bool) (capabilities : list string) : asset_world :=
  {| aw_snapshot := newSnapshot (thumb_config integration enabled) []; aw_configDir := "/etc"; aw_manifest_file := fun d => Ok (d +:+ "/manifest.yaml");
     aw_manifest := fun _ => Ok thumb_manifest; aw_lock := Ok (thumb_lock integration capabilities); aw_conn := fun _ => None |}.
Definition thumb_now : Time := ((62135596800 + 1700000000) * second)%Z.
Definition thumb_grant : Grant := grant thumb_manifest (thumb_entry ["http"; "assets"]) (thumb_card "p") (fun _ => None) {["nas" := "r1"]} 3 "a" "h".
Definition thumb_query : Values := {["size" := ["small"; "large"]]}.
Definition thumb_payload : Payload :=
  {| pl_V := 1; pl_Connection := "nas"; pl_ConnectionRevision := "r1"; pl_Path := "/thumb/1"; pl_Query := "size=small"; pl_Transform := "w=160";
     pl_Plugin := "p@1"; pl_Expires := 1700086400 |}.
Definition thumb_unmarshal (s : string) : option Payload := if String.eqb s "nas|/thumb/1" then Some thumb_payload else None.
Definition thumb_service : Service := {| key := "k" |}.
Definition thumb_token : string := Mint sample_hmac sample_marshal thumb_service thumb_payload.
Definition thumb_files : World :=
  {| w_db := on_connections (<["nas" := {| cx_revision := "r1"; cx_material_hmac := ""; cx_rotated_at := "" |}]>) empty_db; w_files := ∅ |}.
Definition thumb_upstream : env :=
  {| limiter_err := None; acquire_err := None; redirect_authorizer := None;
     send := fun w => if String.eqb (upath (wr_URL w)) "/api/v1/thumb/2"
                      then WResponse 200 ∅ {| HttpClient.rd_data := "GIF89a"; HttpClient.rd_err := None |}
                      else WRedirect {| wr_Method := "GET"; wr_URL := with_path sample_base_url "/api/v1/thumb/2" ∅; wr_Header := wr_Header w; wr_ContentLength := 0 |} |}.
Definition thumb_draws (admitted fetching : asset_world) : asset_draws (R := registry) :=
  {| ad_admitted := admitted; ad_fetching := fetching; ad_env := thumb_upstream; ad_registry := sample_broker_registry;
     ad_clock := fun n => (thumb_now + Z.of_nat n)%Z; ad_tmp := "/data/assets/.asset-1.tmp"; ad_fuel := 2; ad_flight := None |}.
Definition one_pixel (body : string) : option (Z * Z) := if String.eqb body "GIF89a" then Some (1%Z, 1%Z) else None.
Definition no_media (v : string) : option (string * gmap string string) := None.
Definition no_format (v : string) (params : gmap string string) : string := "".
Definition thumb_served (admitted fetching : asset_world) (s : session World) : session World * res string (response * option (string * res string Result)) :=
  serve_asset no_media no_format sample_hmac sample_digest sample_marshal thumb_unmarshal one_pixel (fun _ => "failed") thumb_service sample_cache
    (thumb_draws admitted fetching) thumb_token s.
Definition approved_world : asset_world := thumb_world "p" None ["http"; "assets"].
Definition gone_world : asset_world := thumb_world "other" None ["http"; "assets"].

(** The picture is served through a redirect while the integration is approved; if it is gone by the
    time of the redirect, the redirect is refused. *)
Example thumb_samples :
  let served r := match r with Ok (resp, _) => (rp_status resp, rp_body resp, header_Get (header_of resp) "content-type") | Err _ => (0%Z, PNone, "") end in
  served (thumb_served approved_world approved_world (clear thumb_files)).2 = (200%Z, PText "GIF89a", "image/gif")
  /\ (let '(status, _, _) := served (thumb_served approved_world gone_world (clear thumb_files)).2 in status) = 502%Z
  /\ (let '(status, _, _) := served (thumb_served gone_world approved_world (clear thumb_files)).2 in status) = 404%Z.
Proof. vm_compute. split; [|split]; reflexivity. Qed.

(** Disabling the integration, or approving it again without the capability to name assets, does not
    take a reference back; an integration declared under another id than its manifest's has none that
    is honoured. *)
Example references_outlive_the_capability :
  AssetAuthorized no_media no_format (thumb_world "p" (Some false) ["http"]) thumb_payload = Ok true
  /\ AssetAuthorized no_media no_format (thumb_world "photos" None ["http"; "assets"]) thumb_payload = Ok false.
Proof. vm_compute. split; reflexivity. Qed.

Example asset_served_authorised_witness :
  exists s' resp led, thumb_served approved_world approved_world (clear thumb_files) = (s', Ok (resp, led)) /\ rp_status resp = 200%Z
    /\ exists p q, admitted no_media no_format sample_hmac thumb_unmarshal thumb_service approved_world thumb_now thumb_token thumb_files p q.
Proof.
  destruct (thumb_served approved_world approved_world (clear thumb_files)) as [s' r] eqn:E.
  assert (Er : exists resp led, r = Ok (resp, led) /\ rp_status resp = 200%Z)
    by (change r with (s', r).2; rewrite <- E; eexists _, _; split; vm_compute; reflexivity).
  destruct Er as (resp & led & -> & Hok). exists s', resp, led. split; [reflexivity|]. split; [exact Hok|].
  destruct (asset_served_authorised (R := registry) no_media no_format sample_hmac sample_digest sample_marshal thumb_unmarshal one_pixel (fun _ => "failed")
    thumb_service sample_cache (thumb_draws approved_world approved_world) thumb_token [] (clear thumb_files) s' resp led
    sample_digest_length (us_start _ _ _ _ thumb_files eq_refl eq_refl) sample_temp_fresh ltac:(discriminate) E Hok) as (p & q & _ & _ & _ & Hadm & _).
  exists p, q. assert (Et : ad_clock (thumb_draws approved_world approved_world) 0 = thumb_now) by (vm_compute; reflexivity).
  rewrite Et in Hadm. exact Hadm.
Defined.

Example asset_requests_authorised_witness :
  exists wr, (fetch no_media no_format one_pixel (fun _ => "failed") thumb_upstream approved_world sample_broker_registry thumb_payload
                {["size" := ["small"]]}).1 !! 1 = Some wr
  /\ exists dest, as_authorised sample_base_url (rg_owned sample_broker_registry "nas") false (redirect_request "" dest) wr
     /\ asset_allowed no_media no_format approved_world (redirected thumb_payload dest).
Proof.
  destruct ((fetch no_media no_format one_pixel (fun _ => "failed") thumb_upstream approved_world sample_broker_registry thumb_payload
               {["size" := ["small"]]}).1 !! 1) as [wr|] eqn:E; [|vm_compute in E; discriminate E].
  exists wr. split; [reflexivity|].
  destruct (asset_requests_authorised no_media no_format sample_hmac thumb_unmarshal one_pixel (fun _ => "failed") thumb_service approved_world approved_world
    thumb_now thumb_token thumb_upstream sample_broker_registry (clear thumb_files) (clear thumb_files) thumb_payload {["size" := ["small"]]} 1 wr)
    as (_ & base & Hb & dest & _ & Hr & Ha & _); [vm_compute; reflexivity|exact E|].
  exists dest. assert (Eb : base = sample_base_url) by (vm_compute in Hb; injection Hb as <-; reflexivity). rewrite <- Eb. split; [exact Hr|exact Ha].
Defined.

Example asset_reference_honoured_witness :
  vet no_media no_format sample_hmac thumb_unmarshal thumb_service approved_world thumb_now thumb_token (clear thumb_files)
  = (clear thumb_files, Ok (inr (thumb_payload, only_first thumb_query))).
Proof.
  assert (Hm : exists sb', AssetRef no_media no_format (fun _ => "denied") sample_hmac sample_marshal thumb_service "fb" thumb_now sample_bstate thumb_grant
                 "nas" "/thumb/1" thumb_query {| tf_Width := 160; tf_Format := "" |} = (sb', Ok (thumb_payload, thumb_token)))
    by (eexists; vm_compute; reflexivity).
  destruct Hm as [sb' Hm].
  apply (asset_reference_honoured no_media no_format sample_hmac sample_marshal thumb_unmarshal thumb_service (fun _ => "denied") "fb" thumb_now thumb_now sample_bstate sb'
    thumb_manifest (thumb_entry ["http"; "assets"]) (thumb_card "p") (fun _ => None) {["nas" := "r1"]} 3 "a" "h" "nas" "/thumb/1" thumb_query
    {| tf_Width := 160; tf_Format := "" |} thumb_payload thumb_token approved_world
    {| in_ID := "p"; in_Source := "path:p"; in_Enabled := None; in_Description := "" |} {| so_Builtin := false; so_Dir := "/etc/p" |}
    "/etc/p/manifest.yaml" (thumb_lock "p" ["http"; "assets"]) (clear thumb_files) Hm); [..|vm_compute; reflexivity|vm_compute; reflexivity].
  - vm_compute. reflexivity.
  - discriminate.
  - discriminate.
  - apply map_Forall_singleton. discriminate.
  - vm_compute. reflexivity.
  - vm_compute. reflexivity.
  - apply list_elem_of_lookup_2 with 0. reflexivity.
  - reflexivity.
  - vm_compute. reflexivity.
  - reflexivity.
  - reflexivity.
  - reflexivity.
  - reflexivity.
  - vm_compute. reflexivity.
  - reflexivity.
  - reflexivity.
  - reflexivity.
Defined.
