(* ===== verification/Icons.v ===== *)
(** * Icons: internal/icons and internal/api/icons.go

    A card's icon is named by a specification: a name in one of three public sets, some of which are
    embedded, or a URL anyone who sees the dashboard may have written. The server fetches it itself, so
    it must not be led to the network behind it, and serves it itself, so it must be a picture.

    The embedded files, URL parsing, the resolver, the network, the XML decoder, Unicode's lower case
    and folding, and SHA-256 are arguments. *)
From Stdlib Require Import Btauto.
From S2P Require Import Prelude RoutePath GoTime NetHttp NetIP NetSniff Sql Database Storage Assets Api HttpClient AssetCache.

(** ** The address check *)

Definition blockedNetworks : list Prefix :=
  Eval vm_compute in omap ParsePrefix ["0.0.0.0/8"; "100.64.0.0/10"; "192.0.0.0/24"; "198.18.0.0/15"; "240.0.0.0/4"].
Definition publicAddress (address : Addr) : bool :=
  let address := Unmap address in
  if IsUnspecified address || IsLoopback address || IsPrivate address || IsLinkLocalUnicast address || IsLinkLocalMulticast address
     || IsMulticast address then false
  else negb (existsb (fun network => Contains_addr network address) blockedNetworks).

(** ** Specifications *)

Definition maxIconBytes : Z := Z.shiftl 512 10.
Definition cacheVersion : string := "icon-v1".
Definition mdiVersion : string := "7.4.47".
Definition siVersion : string := "16.29.0".
Definition shCommit : string := "c1f7e6b91c9e23317ac72b81f0ee3f9a4ac14aec".

Definition slug_byte (b : ascii) : bool := in_range 97 122 b || in_range 48 57 b.
(** [slugPattern] *)
Definition slugPattern (s : string) : bool :=
  match s with
  | EmptyString => false
  | String b r => slug_byte b && all_bytes (fun b => slug_byte b || Ascii.eqb b "-") r && Nat.leb (String.length r) 63
  end.

Inductive icon_error := ErrInvalid | ErrNoNetwork | IconFailed (e : string).

(** Where the set of a prefix keeps its pictures. *)
Definition remote_of (kind name : string) : string :=
  if String.eqb kind "mdi" then "https://cdn.jsdelivr.net/npm/@mdi/svg@" +:+ mdiVersion +:+ "/svg/" +:+ name +:+ ".svg"
  else if String.eqb kind "si" then "https://cdn.jsdelivr.net/npm/simple-icons@" +:+ siVersion +:+ "/icons/" +:+ name +:+ ".svg"
  else "https://raw.githubusercontent.com/homarr-labs/dashboard-icons/" +:+ shCommit +:+ "/svg/" +:+ name +:+ ".svg".

Section Icons.
Variable url_parse : string -> option full_URL.
Variable url_string : full_URL -> string.
Variable offline : string -> option string.                 (* the embedded file of a name *)
Variable lookup : string -> res string (list Addr).         (* LookupNetIP *)
Variable connect : Addr -> string -> option string.         (* dialing an address and port: an error, if any *)
Variable dial_address : full_URL -> string.                 (* host and port of a URL, as the transport dials it *)
Variable sha256 : string -> string.
Variable to_lower : string -> string.                       (* strings.ToLower *)
Variable EqualFold : string -> string -> bool.

(** The normalised specification, the URL to fetch and the embedded file's name. *)
Definition parse_url_spec (spec : string) : res icon_error (string * string * string) :=
  match url_parse spec with
  | None => Err ErrInvalid
  | Some parsed =>
      if negb (String.eqb (scheme (fu_URL parsed)) "http") && negb (String.eqb (scheme (fu_URL parsed)) "https")
         || String.eqb (host (fu_URL parsed)) "" || fu_User parsed || negb (String.eqb (fu_Fragment parsed) "")
      then Err ErrInvalid
      else Ok (url_string parsed, url_string parsed, "")
  end.
Fixpoint parse_named (kinds : list string) (spec : string) : res icon_error (string * string * string) :=
  match kinds with
  | [] => parse_url_spec spec
  | kind :: rest =>
      match strip_prefix (kind +:+ ":") spec with
      | None => parse_named rest spec
      | Some name =>
          if negb (slugPattern name) then Err ErrInvalid
          else Ok (spec, remote_of kind name, kind +:+ "-" +:+ name +:+ ".svg")
      end
  end.
Definition parseSpec (spec : string) : res icon_error (string * string * string) :=
  if Nat.eqb (String.length spec) 0 || Nat.ltb 2048 (String.length spec) || negb (String.eqb (TrimSpace spec) spec)
  then Err ErrInvalid
  else parse_named ["mdi"; "si"; "sh"] spec.

Definition cacheKey (spec : string) : string := b64url_encode (sha256 (cacheVersion +:+ String "000" "" +:+ spec)).

(** ** The dialer *)

(** The addresses tried, and the one that answered. *)
Fixpoint dial_each (port : string) (addresses : list Addr) (lastErr : option string) : list Addr * res string Addr :=
  match addresses with
  | [] => ([], Err (default "icon host resolves only to non-public addresses" lastErr))
  | address :: rest =>
      if negb (publicAddress address) then dial_each port rest lastErr
      else match connect address port with
           | None => ([address], Ok address)
           | Some dialErr => let '(tried, r) := dial_each port rest (Some dialErr) in (address :: tried, r)
           end
  end.
Definition DialContext (address : string) : list Addr * res string Addr :=
  match SplitHostPort address with
  | None => ([], Err "missing port in address")
  | Some (host, port) =>
      match lookup host with
      | Err e => ([], Err e)
      | Ok addresses => dial_each port addresses None
      end
  end.

(** ** The client *)

Inductive upstream :=
| UResponse (status : Z) (body : body_reader)
| URedirect (next : full_URL)
| UError (e : string).
Variable exchange : Addr -> full_URL -> upstream.           (* one request on a connection *)

Definition CheckRedirect (next : full_URL) (via : nat) : option string :=
  if Nat.leb 3 via then Some "icon fetch exceeded redirect limit"
  else if negb (String.eqb (scheme (fu_URL next)) "http") && negb (String.eqb (scheme (fu_URL next)) "https") then Some "invalid icon specification"
  else if fu_User next then Some "invalid icon specification"
  else None.
Definition icon_fuel : nat := 3.
(** [client.Do]: each request with the addresses tried for it. *)
Fixpoint icon_do (fuel via : nat) (u : full_URL) : list (full_URL * list Addr) * res string (Z * body_reader) :=
  match fuel with
  | O => ([], Err "fuel")
  | S fuel =>
      let '(tried, conn) := DialContext (dial_address u) in
      match conn with
      | Err e => ([(u, tried)], Err e)
      | Ok address =>
          match exchange address u with
          | UError e => ([(u, tried)], Err e)
          | UResponse status body => ([(u, tried)], Ok (status, body))
          | URedirect next =>
              match CheckRedirect next (S via) with
              | Some e => ([(u, tried)], Err e)
              | None => let '(trace, r) := icon_do fuel (S via) next in ((u, tried) :: trace, r)
              end
          end
      end
  end.

(** ** The picture check *)

Definition safeStyle (value : string) : bool :=
  let value := to_lower value in
  negb (Contains value "@import") && negb (Contains (ReplaceAll value "url(#" "") "url(").

(** The tokens of [encoding/xml] the check looks at; names are the local ones. *)
Inductive token :=
| StartElement (name : string) (attrs : list (string * string))
| EndElement (name : string)
| CharData (text : string)
| OtherToken.
(** The tokens before the end of the file, or before an error. *)
Variable xml_tokens : string -> list token * bool.

Definition forbidden : list string := ["script"; "foreignobject"; "iframe"; "object"; "embed"; "audio"; "video"].
Definition safe_attr (attr : string * string) : bool :=
  let attrName := to_lower attr.1 in
  let value := TrimSpace (to_lower attr.2) in
  negb (HasPrefix attrName "on")
  && negb ((String.eqb attrName "href" || String.eqb attrName "src") && negb (String.eqb value "") && negb (HasPrefix value "#"))
  && negb (String.eqb attrName "style" && negb (safeStyle value)).
Fixpoint safe_tokens (tokens : list token) (eof rootSeen inStyle : bool) : bool :=
  match tokens with
  | [] => eof && rootSeen
  | CharData text :: rest => if inStyle && negb (safeStyle text) then false else safe_tokens rest eof rootSeen inStyle
  | EndElement name :: rest => safe_tokens rest eof rootSeen (if EqualFold name "style" then false else inStyle)
  | OtherToken :: rest => safe_tokens rest eof rootSeen inStyle
  | StartElement name attrs :: rest =>
      let name := to_lower name in
      if negb rootSeen && negb (String.eqb name "svg") then false
      else if existsb (String.eqb name) forbidden then false
      else if negb (forallb safe_attr attrs) then false
      else safe_tokens rest eof true (String.eqb name "style")
  end.
Definition safeSVG (body : string) : bool := let '(tokens, eof) := xml_tokens body in safe_tokens tokens eof false false.

Definition detected (body : string) : string := default "" (head (Split ";" (DetectContentType body))).
Definition validateImage (body : string) : option string :=
  let n := Z.of_nat (String.length body) in
  if (n =? 0)%Z || (maxIconBytes <? n)%Z then None
  else
    if existsb (String.eqb (detected body)) ["image/png"; "image/jpeg"; "image/gif"; "image/webp"] then Some (detected body)
    else if existsb (String.eqb (detected body)) ["text/xml"; "text/plain"; "application/xml"; "application/octet-stream"] && safeSVG body
         then Some "image/svg+xml"
         else None.

(** ** Resolve *)

(** [io.ReadAll] of one byte more than the limit. *)
Definition read_icon (b : body_reader) : res string string :=
  let data := String.substring 0 (Z.to_nat (maxIconBytes + 1)) (rd_data b) in
  if (maxIconBytes + 1 <=? Z.of_nat (String.length (rd_data b)))%Z then Ok data
  else match rd_err b with Some e => Err e | None => Ok data end.
(** The fetch function: the requests, and what it returns. *)
Definition fetch_icon (remoteURL : string) : list (full_URL * list Addr) * res string Result :=
  match url_parse remoteURL with
  | None => ([], Err "parse")
  | Some u =>
      let '(trace, r) := icon_do icon_fuel 0 u in
      (trace,
       let! (status, body) := r in
       if (status <? 200)%Z || (300 <=? status)%Z then Err ("icon upstream returned HTTP " +:+ decimal status)
       else
         let! data := read_icon body in
         match validateImage data with
         | None => Err "icon upstream did not return a safe image"
         | Some contentType => Ok {| r_Body := data; r_ContentType := contentType |}
         end)
  end.

(** What the resolution of one specification draws from outside; [ic_flight] is what the leader of its
    flight got, if another request leads it. *)
Record icon_draws := { ic_t1 : Time; ic_t2 : Time; ic_tmp : string; ic_fuel : nat; ic_flight : option (res string Result) }.

(** [cache] is [None] for a resolver that only has the embedded files. *)
Definition Resolve (cache : option Cache) (d : icon_draws) (spec : string) : Disk (res icon_error Result * option (res string Result)) :=
  match parseSpec spec with
  | Err e => sql_ret (Err e, None)
  | Ok (normalised, remoteURL, offlineName) =>
      match (if String.eqb offlineName "" then None else offline offlineName) with
      | Some body => sql_ret (Ok {| r_Body := body; r_ContentType := "image/svg+xml" |}, None)
      | None =>
          match cache with
          | None => sql_ret (Err ErrNoNetwork, None)
          | Some c =>
              match ic_flight d with
              | Some r => sql_ret (res_map_err IconFailed r, None)
              | None =>
                  do* led <- sql_try (fill sha256 c (ic_t1 d) (ic_t2 d) (ic_tmp d) (cacheKey normalised) "icons"
                                        (fetch_icon remoteURL).2 (ic_fuel d));
                  let result := let! r := led in Ok r.1 in
                  sql_ret (res_map_err IconFailed result, Some result)
              end
          end
      end
  end.

(** api/icons.go *)
Definition icon_headers (contentType : string) : list (string * string) :=
  [("Content-Type", contentType); ("Cache-Control", "private, max-age=86400");
   ("Content-Security-Policy", "default-src 'none'; sandbox"); ("X-Content-Type-Options", "nosniff"); ("Content-Disposition", "inline")].
Definition icon_reply (r : res icon_error Result) : response :=
  match r with
  | Err ErrInvalid => http_NotFound
  | Err _ => fail_with 502 "icon unavailable"
  | Ok result => {| rp_status := 200; rp_headers := icon_headers (r_ContentType result); rp_cookies := []; rp_body := PText (r_Body result) |}
  end.
Definition serve_icon (cache : option Cache) (d : icon_draws) (spec : string) : Disk (response * option (res string Result)) :=
  do* r <- Resolve cache d spec;
  sql_ret (icon_reply r.1, r.2).
End Icons.

(** ** The address check, as ranges *)

(** The networks the fetch must stay out of. *)
Definition special_networks : list Prefix :=
  Eval vm_compute in omap ParsePrefix ["0.0.0.0/8"; "10.0.0.0/8"; "100.64.0.0/10"; "127.0.0.0/8"; "169.254.0.0/16"; "172.16.0.0/12"; "192.0.0.0/24";
                    "192.168.0.0/16"; "198.18.0.0/15"; "224.0.0.0/4"; "240.0.0.0/4"; "::/128"; "::1/128"; "fc00::/7"; "fe80::/10"; "ff00::/8"].
Definition without_zone (a : Addr) : Addr := {| ad_v6 := ad_v6 a; ad_bits := ad_bits a; ad_zone := "" |}.

Section Ranges.
Local Open Scope Z_scope.

Lemma land_high w n k : 0 <= n -> 0 <= k -> 0 <= w < 2 ^ (n + k) -> Z.land w (Z.shiftl (Z.ones n) k) = w / 2 ^ k * 2 ^ k.
Proof.
  intros Hn Hk Hw.
  assert (E : Z.land w (Z.shiftl (Z.ones n) k) = Z.shiftl (Z.land (Z.shiftr w k) (Z.ones n)) k).
  { apply Z.bits_inj'. intros m Hm. rewrite Z.land_spec, !Z.shiftl_spec, Z.land_spec by done.
    destruct (Z.ltb_spec (m - k) 0).
    - rewrite !(Z.testbit_neg_r _ (m - k)) by done. by rewrite andb_false_r.
    - rewrite Z.shiftr_spec by done. by replace (m - k + k) with m by lia. }
  rewrite E, Z.land_ones, Z.shiftl_mul_pow2, Z.shiftr_div_pow2 by lia. rewrite Z.mod_small; [done|]. split; [apply Z.div_pos; lia|].
  rewrite Z.pow_add_r in Hw by lia. apply Z.div_lt_upper_bound; lia.
Qed.
Definition in_net (p : Prefix) (a : Addr) : bool := Contains_addr p (without_zone a).

Lemma octet_div a k : 0 <= k -> octet a k = ad_bits a / 2 ^ k mod 256.
Proof. intros. unfold octet. change 255 with (Z.ones 8). rewrite Z.land_ones, Z.shiftr_div_pow2 by lia. done. Qed.
Lemma word0_div a : word0 a = ad_bits a / 2 ^ 112 mod 65536.
Proof. unfold word0. change 65535 with (Z.ones 16). rewrite Z.land_ones, Z.shiftr_div_pow2 by lia. done. Qed.

Lemma special_v4 bits : 0 <= bits < 2 ^ 32 ->
  existsb (fun p => in_net p (addr4 bits)) special_networks
  = IsUnspecified (addr4 bits) || IsLoopback (addr4 bits) || IsPrivate (addr4 bits) || IsLinkLocalUnicast (addr4 bits) || IsLinkLocalMulticast (addr4 bits)
     || IsMulticast (addr4 bits) || existsb (fun network => Contains_addr network (addr4 bits)) blockedNetworks.
Proof.
  intros H.
  unfold special_networks, blockedNetworks, in_net, Contains_addr, IsUnspecified, IsLoopback, IsPrivate, IsLinkLocalUnicast, IsLinkLocalMulticast, IsMulticast.
  cbn [existsb addr4 without_zone ad_v6 ad_bits ad_zone px_v6 px_addr px_bits px_len Bool.eqb andb orb].
  rewrite String.eqb_refl. cbn [andb]. 
  assert (Hm : 0 <= octet (addr4 bits) 24 < 256 /\ 0 <= octet (addr4 bits) 16 < 256) by (rewrite !octet_div by lia; split; apply Z.mod_pos_bound; lia).
  change 240 with (Z.shiftl (Z.ones 4) 4). rewrite !land_high by (cbn; lia).
  rewrite !octet_div, !Z.shiftr_div_pow2 by lia. cbn [ad_bits addr4].
  rewrite (Z.mod_small (bits / 2 ^ 24)) by (split; [apply Z.div_pos; lia|apply Z.div_lt_upper_bound; lia]).
  rewrite !andb_true_r, !orb_false_r.
  assert (D24 : bits / 2 ^ 24 = bits / 65536 / 256) by (rewrite Z.div_div by lia; done).
  assert (D20 : bits / 2 ^ (32 - 12) = bits / 65536 / 16) by (rewrite Z.div_div by lia; done).
  assert (D28 : bits / 2 ^ (32 - 4) = bits / 65536 / 4096) by (rewrite Z.div_div by lia; done).
  change (2 ^ (32 - 8)) with (2 ^ 24). change (2 ^ (32 - 16)) with 65536. change (2 ^ 16) with 65536. rewrite D20, D28, D24.
  assert (Ha : 0 <= bits / 65536 < 65536) by (split; [apply Z.div_pos; lia|apply Z.div_lt_upper_bound; lia]).
  assert (H0 : bits = 0 -> bits / 65536 = 0) by (by intros ->).
  revert Ha H0. generalize (bits / 65536). intros a Ha H0. clear D24 D20 D28 Hm H.
  assert (E1 : (a / 256 =? 172) && (a mod 256 / 2 ^ 4 * 2 ^ 4 =? 16) = (a / 16 =? 2886729728 / 2 ^ (32 - 12)))
    by (apply eq_true_iff_eq; rewrite andb_true_iff, !Z.eqb_eq; cbn; div_lia).
  assert (E2 : (a / 256 =? 192) && (a mod 256 =? 168) = (a =? 3232235520 / 65536))
    by (apply eq_true_iff_eq; rewrite andb_true_iff, !Z.eqb_eq; cbn; div_lia).
  assert (E3 : (a / 256 =? 169) && (a mod 256 =? 254) = (a =? 2851995648 / 65536))
    by (apply eq_true_iff_eq; rewrite andb_true_iff, !Z.eqb_eq; cbn; div_lia).
  assert (E4 : (a / 256 / 2 ^ 4 * 2 ^ 4 =? 224) = (a / 4096 =? 3758096384 / 2 ^ (32 - 4)))
    by (rewrite Z.div_div by lia; apply eq_true_iff_eq; rewrite !Z.eqb_eq; change (256 * 2 ^ 4) with 4096; change (2 ^ 4) with 16;
        change (3758096384 / 2 ^ (32 - 4)) with 14; lia).
  assert (E5 : (a / 256 =? 224) = (a / 256 =? 224) && (a / 4096 =? 3758096384 / 2 ^ (32 - 4))).
  { destruct (Z.eqb_spec (a / 256) 224) as [E|]; [|done]. symmetry. apply Z.eqb_eq.
    change 4096 with (256 * 16). by rewrite <- Z.div_div, E by lia. }
  assert (E6 : (bits =? 0) = (bits =? 0) && (a / 256 =? 0 / 2 ^ 24)).
  { destruct (Z.eqb_spec bits 0) as [E%H0|]; [|done]. by rewrite E. }
  rewrite E1, E2, E3, E4, E5, E6. change (167772160 / 2 ^ 24) with 10. change (2130706432 / 2 ^ 24) with 127.
  btauto.
Qed.
Lemma special_v6 bits zone : 0 <= bits < 2 ^ 128 ->
  existsb (fun p => in_net p (addr6 bits zone)) special_networks
  = (bits =? 0) || IsLoopback (addr6 bits zone) || IsPrivate (addr6 bits zone) || IsLinkLocalUnicast (addr6 bits zone)
     || IsLinkLocalMulticast (addr6 bits zone) || IsMulticast (addr6 bits zone).
Proof.
  intros H.
  unfold special_networks, in_net, Contains_addr, IsLoopback, IsPrivate, IsLinkLocalUnicast, IsLinkLocalMulticast, IsMulticast.
  cbn [existsb addr6 without_zone ad_v6 ad_bits ad_zone px_v6 px_addr px_bits px_len Bool.eqb andb orb].
  rewrite String.eqb_refl. cbn [andb].
  rewrite !word0_div. cbn [ad_bits addr6].
  assert (Ha : 0 <= bits / 2 ^ 112 < 65536) by (split; [apply Z.div_pos; lia|apply Z.div_lt_upper_bound; lia]).
  rewrite (Z.mod_small (bits / 2 ^ 112)) by done.
  change 65024 with (Z.shiftl (Z.ones 7) 9). change 65472 with (Z.shiftl (Z.ones 10) 6). rewrite !land_high by (cbn; lia).
  rewrite !Z.shiftr_div_pow2 by lia.
  assert (D7 : bits / 2 ^ (128 - 7) = bits / 2 ^ 112 / 512) by (rewrite Z.div_div by lia; done).
  assert (D10 : bits / 2 ^ (128 - 10) = bits / 2 ^ 112 / 64) by (rewrite Z.div_div by lia; done).
  assert (D8 : bits / 2 ^ (128 - 8) = bits / 2 ^ 112 / 256) by (rewrite Z.div_div by lia; done).
  rewrite D7, D10, D8. change (2 ^ (128 - 128)) with 1. rewrite !Z.div_1_r. clear D7 D10 D8. revert Ha. generalize (bits / 2 ^ 112). intros a Ha.
  assert (E1 : (a / 2 ^ 9 * 2 ^ 9 =? 64512) = (a / 512 =? 126)) by (apply eq_true_iff_eq; rewrite !Z.eqb_eq; change (2 ^ 9) with 512; lia).
  assert (E2 : (a / 2 ^ 6 * 2 ^ 6 =? 65152) = (a / 64 =? 1018)) by (apply eq_true_iff_eq; rewrite !Z.eqb_eq; change (2 ^ 6) with 64; lia).
  assert (E3 : (Z.land a 65295 =? 65282) = (Z.land a 65295 =? 65282) && (a / 2 ^ 8 =? 255)).
  { destruct (Z.eqb_spec (Z.land a 65295) 65282) as [E|]; [|done]. symmetry. apply Z.eqb_eq.
    apply (f_equal (fun x => Z.shiftr x 8)) in E. rewrite Z.shiftr_land in E. change (Z.shiftr 65295 8) with (Z.ones 8) in E.
    rewrite Z.land_ones, Z.shiftr_div_pow2 in E by lia. change (Z.shiftr 65282 8) with 255 in E.
    rewrite Z.mod_small in E; [done|]. split; [apply Z.div_pos; lia|apply Z.div_lt_upper_bound; lia]. }
  rewrite E1, E2, E3. change (2 ^ 8) with 256. change (334965454937798799971759379190646833152 / 2 ^ (128 - 7)) with 126.
  change (338288524927261089654018896841347694592 / 2 ^ (128 - 10)) with 1018. change (338953138925153547590470800371487866880 / 2 ^ (128 - 8)) with 255.
  btauto.
Qed.

Lemma Unmap_ok a : addr_ok a -> addr_ok (Unmap a).
Proof.
  unfold Unmap. destruct (Is4In6 a); [|done]. intros _. unfold addr_ok. change 4294967295 with (Z.ones 32). rewrite Z.land_ones by lia.
  cbn [ad_bits ad_v6 addr4 BitLen]. apply Z.mod_pos_bound. lia.
Qed.
Lemma blocked_v6 bits zone : existsb (fun network => Contains_addr network (addr6 bits zone)) blockedNetworks = false.
Proof.
  unfold blockedNetworks, Contains_addr. cbn [existsb px_v6 ad_v6 addr6 Bool.eqb]. by rewrite !andb_false_r.
Qed.
(** The check, as ranges of addresses: an address passes exactly if, apart from its zone, it is in none of
    the special networks, or it is the unspecified address with a zone. *)
Lemma public_address_exact a : addr_ok a -> (ad_v6 a = false -> ad_zone a = "") ->
  publicAddress a = true <->
  Forall (fun p => Contains_addr p (without_zone (Unmap a)) = false) special_networks
  \/ (ad_v6 a = true /\ ad_bits a = 0 /\ ad_zone a <> "").
Proof.
  intros Hok%Unmap_ok Hz. assert (Hf : forall b, Forall (fun p => in_net p b = false) special_networks <-> existsb (fun p => in_net p b) special_networks = false).
  { intros b. rewrite <- not_true_iff_false, existsb_elem, Forall_forall. split.
    - intros Hall (p & Hp & Ht). by rewrite Hall in Ht.
    - intros Hn p Hp. apply not_true_iff_false. intros Ht. apply Hn. by exists p. }
  change (Forall _ special_networks) with (Forall (fun p => in_net p (Unmap a) = false) special_networks). rewrite Hf. clear Hf.
  unfold publicAddress. cbv zeta.
  assert (Hun : Unmap a = a \/ exists bits, Unmap a = addr4 bits /\ (ad_v6 a = true -> ad_bits a <> 0)).
  { unfold Unmap. destruct (Is4In6 a) eqn:E; [right; eexists; split; [done|]|by left]. intros _ E0. unfold Is4In6 in E. rewrite E0 in E.
    by rewrite andb_false_r in E. }
  destruct Hun as [E|(bits & E & Hne)]; rewrite E in Hok |- *.
  - destruct a as [[] bits zone]; unfold addr_ok in Hok; cbn in Hok, Hz.
    + change (Build_Addr true bits zone) with (addr6 bits zone). rewrite special_v6, blocked_v6 by done.
      unfold IsUnspecified. cbn [ad_bits ad_zone ad_v6 addr6 negb]. destruct (Z.eqb_spec bits 0) as [->|Hb].
      * assert (IsLoopback (addr6 0 zone) || IsPrivate (addr6 0 zone) || IsLinkLocalUnicast (addr6 0 zone) || IsLinkLocalMulticast (addr6 0 zone)
                || IsMulticast (addr6 0 zone) = false) as En by done.
        destruct (String.eqb_spec zone "") as [->|Hzn]; [split; [done|by intros [|(_ & _ & [])]]|]. cbn [andb orb]. rewrite En. split; [by right|done].
      * cbn [andb orb]. split; [intros H; left; by destruct (_ || _)|intros [->|(_ & ? & _)]; done].
    + rewrite (Hz eq_refl). change (Build_Addr false bits "") with (addr4 bits). rewrite special_v4 by done. split.
      * intros H. left. destruct (IsUnspecified _ || _ || _ || _ || _ || _); [done|]. by apply negb_true_iff.
      * intros [Hn|(? & _)]; [|done]. apply orb_false_iff in Hn as [-> ->]. done.
  - rewrite special_v4 by done. split.
    + intros H. left. destruct (IsUnspecified _ || _ || _ || _ || _ || _); [done|]. by apply negb_true_iff.
    + intros [Hn|(Hv & H0 & _)]; [|by destruct (Hne Hv)]. apply orb_false_iff in Hn as [-> ->]. done.
Qed.
End Ranges.

(** ** The picture check, as a property of the tokens *)

Section Svg.
Variable to_lower : string -> string.
Variable EqualFold : string -> string -> bool.

(** A text with nothing before it that would end a style element. *)
Definition quiet (t : token) : Prop :=
  match t with StartElement _ _ => False | EndElement name => EqualFold name "style" = false | _ => True end.
Inductive opens_with : list token -> string -> Prop :=
| ow_here text rest : opens_with (CharData text :: rest) text
| ow_later t rest text : quiet t -> opens_with rest text -> opens_with (t :: rest) text.
(** A text directly inside a style element. *)
Inductive styled : list token -> string -> Prop :=
| st_here name attrs rest text : to_lower name = "style" -> opens_with rest text -> styled (StartElement name attrs :: rest) text
| st_later t rest text : styled rest text -> styled (t :: rest) text.
(** The first element is an svg. *)
Inductive rooted : list token -> Prop :=
| rt_here name attrs rest : to_lower name = "svg" -> rooted (StartElement name attrs :: rest)
| rt_later t rest : (forall name attrs, t <> StartElement name attrs) -> rooted rest -> rooted (t :: rest).
Definition element_safe (name : string) (attrs : list (string * string)) : Prop :=
  to_lower name ∉ forbidden /\ Forall (fun a => safe_attr to_lower a = true) attrs.

Record svg_safe (tokens : list token) (rootSeen inStyle : bool) : Prop := {
  sv_root : rootSeen = true \/ rooted tokens;
  sv_elements : forall name attrs, StartElement name attrs ∈ tokens -> element_safe name attrs;
  sv_styles : forall text, styled tokens text -> safeStyle to_lower text = true;
  sv_open : inStyle = true -> forall text, opens_with tokens text -> safeStyle to_lower text = true }.

Lemma svg_safe_skip t tokens rootSeen inStyle inStyle' :
  (forall name attrs, t <> StartElement name attrs) -> (forall text, t <> CharData text) -> (inStyle' = true <-> inStyle = true /\ quiet t) ->
  svg_safe (t :: tokens) rootSeen inStyle <-> svg_safe tokens rootSeen inStyle'.
Proof.
  intros Hs Hc Hq. split; intros [H1 H2 H3 H4]; split.
  - destruct H1 as [|H1]; [by left|right]. inversion H1; subst; [by destruct (Hs name attrs)|done].
  - intros. apply H2. by right.
  - intros. apply H3. by constructor.
  - intros [Hi Hqt]%Hq text Ho. apply H4; [done|]. by constructor.
  - destruct H1 as [|H1]; [by left|right]. by constructor.
  - intros name attrs [E|H]%elem_of_cons; [by destruct (Hs name attrs)|by apply H2].
  - intros text H. inversion H; subst; [by destruct (Hs name attrs)|by apply H3].
  - intros Hi text H. inversion H; subst; [by destruct (Hc text)|]. apply H4; [by apply Hq|done].
Qed.

Lemma svg_safe_text text tokens rootSeen inStyle :
  svg_safe (CharData text :: tokens) rootSeen inStyle <-> (inStyle = true -> safeStyle to_lower text = true) /\ svg_safe tokens rootSeen inStyle.
Proof.
  split.
  - intros [H1 H2 H3 H4]. split; [intros Hi; apply H4; [done|constructor]|]. split.
    + destruct H1 as [|H1]; [by left|right]. by inversion H1.
    + intros. apply H2. by right.
    + intros. apply H3. by constructor.
    + intros Hi x Ho. apply H4; [done|]. by constructor.
  - intros [Ht [H1 H2 H3 H4]]. split.
    + destruct H1 as [|H1]; [by left|right]. by constructor.
    + intros name attrs [|H]%elem_of_cons; [done|by apply H2].
    + intros x H. inversion H; subst. by apply H3.
    + intros Hi x H. inversion H; subst; [by apply Ht|by apply H4].
Qed.

Lemma svg_safe_start name attrs tokens rootSeen inStyle :
  svg_safe (StartElement name attrs :: tokens) rootSeen inStyle <->
  (rootSeen = true \/ to_lower name = "svg") /\ element_safe name attrs /\ svg_safe tokens true (String.eqb (to_lower name) "style").
Proof.
  split.
  - intros [H1 H2 H3 H4]. split; [|split; [apply H2; by left|split]].
    + destruct H1 as [|H1]; [by left|right]. inversion H1 as [|? ? Hno]; subst; [done|]. by destruct (Hno name attrs).
    + by left.
    + intros. apply H2. by right.
    + intros. apply H3. by constructor.
    + intros Hn%String.eqb_eq x Ho. apply H3. by constructor.
  - intros (H0 & He & [H1 H2 H3 H4]). split.
    + destruct H0 as [|H0]; [by left|right; by constructor].
    + intros n a [[= -> ->]|H]%elem_of_cons; [done|by apply H2].
    + intros x H. inversion H; subst; [|by apply H3]. apply H4; [by apply String.eqb_eq|done].
    + intros Hi x H. inversion H; subst. contradiction.
Qed.

(** [safe_tokens] decides it, for a document that is read to its end. *)
Lemma safe_tokens_exact tokens eof rootSeen inStyle :
  safe_tokens to_lower EqualFold tokens eof rootSeen inStyle = true <-> eof = true /\ svg_safe tokens rootSeen inStyle.
Proof.
  revert rootSeen inStyle. induction tokens as [|t tokens IH]; intros rootSeen inStyle; cbn [safe_tokens].
  - rewrite andb_true_iff. split; [intros [-> ->]|intros [-> [[->|H] _ _ _]]; [done|inversion H]].
    split; [done|]. split; [by left|by intros n a Hin%elem_of_nil|intros x Hx; inversion Hx|intros _ x Hx; inversion Hx].
  - destruct t as [name attrs|name|text|].
    + rewrite svg_safe_start. unfold element_safe. destruct (negb rootSeen && negb (String.eqb (to_lower name) "svg")) eqn:Er.
      { split; [done|]. intros (_ & [->|E] & _); [done|]. by rewrite E, String.eqb_refl, andb_false_r in Er. }
      assert (Hr : rootSeen = true \/ to_lower name = "svg") by (destruct rootSeen; [by left|right; by apply String.eqb_eq, negb_false_iff]).
      destruct (existsb _ forbidden) eqn:Ef.
      { apply existsb_elem in Ef as (x & Hx & ->%String.eqb_eq). split; [done|]. by intros (_ & _ & [Hn _] & _). }
      assert (Hf : to_lower name ∉ forbidden).
      { intros Hin. apply not_true_iff_false in Ef. apply Ef, existsb_elem. exists (to_lower name). split; [done|]. by apply String.eqb_eq. }
      destruct (forallb _ attrs) eqn:Ea; cbn [negb].
      * rewrite IH. assert (Ha : Forall (fun a => safe_attr to_lower a = true) attrs) by (by apply Forall_forall; intros x Hx; eapply forallb_forall in Ea; [|by apply list_elem_of_In]). tauto.
      * split; [done|]. intros (_ & _ & [_ Ha] & _). apply not_true_iff_false in Ea. exfalso. apply Ea, forallb_forall. intros x Hx.
        rewrite Forall_forall in Ha. by apply Ha, list_elem_of_In.
    + rewrite IH. rewrite (svg_safe_skip (EndElement name) tokens rootSeen inStyle (if EqualFold name "style" then false else inStyle)); [done|done..|].
      cbn. destruct (EqualFold name "style"), inStyle; naive_solver.
    + rewrite svg_safe_text. destruct inStyle; cbn [andb].
      * destruct (safeStyle to_lower text); cbn [negb]; [rewrite IH; tauto|]. split; [done|]. intros (_ & H & _). by specialize (H eq_refl).
      * rewrite IH. naive_solver.
    + rewrite IH. rewrite (svg_safe_skip OtherToken tokens rootSeen inStyle inStyle); [done|done..|]. cbn. tauto.
Qed.

(** *** What it keeps out, read off the tokens *)

(** A style that imports nothing and refers only to what is in the document. *)
Definition style_clean (value : string) : Prop :=
  (forall a b, to_lower value <> a +:+ "@import" +:+ b)
  /\ (forall a b, to_lower value = a +:+ "url(" +:+ b -> HasPrefix b "#" = true).

(** An attribute that is no event handler, no reference out of the document, and no unclean style. *)
Definition attr_clean (attr : string * string) : Prop :=
  let name := to_lower attr.1 in
  let value := TrimSpace (to_lower attr.2) in
  HasPrefix name "on" = false /\ (name = "href" \/ name = "src" -> value = "" \/ HasPrefix value "#" = true)
  /\ (name = "style" -> style_clean value).

(** The first element is an svg, no element scripts or embeds, every attribute is clean, and so is the
    text directly inside a style element, up to its first child. *)
Record svg_clean (tokens : list token) : Prop := {
  cl_root : rooted tokens;
  cl_elements : forall name attrs, StartElement name attrs ∈ tokens ->
    to_lower name ∉ ["script"; "foreignobject"; "iframe"; "object"; "embed"; "audio"; "video"] /\ Forall attr_clean attrs;
  cl_styles : forall text, styled tokens text -> style_clean text }.

(** An outside url keeps its "url(" when every "url(#" is taken out. *)
Lemma outside_url_stays b : HasPrefix b "#" = false -> forall a k, k <= String.length a ->
  Contains (replace_from "url(#" "" k (a +:+ "url(" +:+ b)) "url(" = true.
Proof.
  intros Hb. assert (Hcons : forall c s, Contains s "url(" = true -> Contains (String c s) "url(" = true).
  { intros c s (x & y & ->)%Contains_true. apply Contains_true. by exists (String c x), y. }
  induction a as [|c a IH]; intros k Hk.
  - simpl in Hk. assert (k = 0) as -> by lia. apply Contains_true. exists "", (replace_from "url(#" "" 0 b).
    assert (Hp : HasPrefix ("url(" +:+ b) "url(#" = false).
    { apply not_true_iff_false. intros (r & E)%HasPrefix_true. cbn in E. injection E as E. apply not_true_iff_false in Hb.
      apply Hb, HasPrefix_true. exists r. exact E. }
    change (replace_from "url(#" "" 0 ("" +:+ "url(" +:+ b)) with
      (if HasPrefix ("url(" +:+ b) "url(#" then "" +:+ replace_from "url(#" "" 4 ("rl(" +:+ b) else String "u" ("rl(" +:+ replace_from "url(#" "" 0 b)).
    by rewrite Hp.
  - rewrite app_cons_str. cbn [replace_from]. destruct k as [|k]; [|apply IH; simpl in Hk; lia].
    destruct (HasPrefix (String c (a +:+ "url(" +:+ b)) "url(#") eqn:E; [|apply Hcons, IH; lia].
    apply HasPrefix_true in E as (r & E). apply (IH (String.length "url(#" - 1)). change (String.length "url(#" - 1) with 4.
    destruct a as [|c1 [|c2 [|c3 [|c4 a]]]]; [discriminate E..|simpl; lia].
Qed.

Lemma safeStyle_clean value : safeStyle to_lower value = true -> style_clean value.
Proof.
  unfold safeStyle. cbv zeta. intros [H1%negb_true_iff H2%negb_true_iff]%andb_true_iff. split.
  - intros a b E. apply not_true_iff_false in H1. apply H1, Contains_true. by exists a, b.
  - intros a b E. apply not_false_iff_true. intros Hb. apply not_true_iff_false in H2. apply H2. rewrite E.
    apply (outside_url_stays b Hb a 0). lia.
Qed.

Lemma safe_attr_clean a : safe_attr to_lower a = true -> attr_clean a.
Proof.
  unfold safe_attr. cbv zeta. intros [[H1%negb_true_iff H2%negb_true_iff]%andb_true_iff H3%negb_true_iff]%andb_true_iff. split_and!; [done| |].
  - intros Hn. destruct (String.eqb_spec (TrimSpace (to_lower a.2)) "") as [|_]; [by left|right].
    apply not_false_iff_true. intros Hp. rewrite Hp in H2. by destruct Hn as [E|E]; rewrite E in H2.
  - cbv zeta. intros Hn. rewrite Hn in H3. apply safeStyle_clean. by destruct (safeStyle to_lower (TrimSpace (to_lower a.2))).
Qed.

Lemma svg_safe_clean tokens : svg_safe tokens false false -> svg_clean tokens.
Proof.
  intros [[|H1] H2 H3 _]; [done|]. split; [done| |].
  - intros name attrs [Hn Ha]%H2. split; [done|]. eapply Forall_impl; [exact Ha|]. apply safe_attr_clean.
  - intros text Ht. by apply safeStyle_clean, H3.
Qed.
End Svg.

(** ** The fetch and the cache *)

Section Fetching.
Variable url_parse : string -> option full_URL.
Variable url_string : full_URL -> string.
Variable offline : string -> option string.
Variable lookup : string -> res string (list Addr).
Variable connect : Addr -> string -> option string.
Variable dial_address : full_URL -> string.
Variable sha256 : string -> string.
Variable to_lower : string -> string.
Variable EqualFold : string -> string -> bool.
Variable exchange : Addr -> full_URL -> upstream.
Variable xml_tokens : string -> list token * bool.

Lemma dial_each_public port addresses lastErr :
  Forall (fun a => a ∈ addresses /\ publicAddress a = true) (dial_each connect port addresses lastErr).1.
Proof.
  revert lastErr. induction addresses as [|a l IH]; intros lastErr; cbn [dial_each]; [constructor|].
  assert (Hw : forall e, Forall (fun x => x ∈ a :: l /\ publicAddress x = true) (dial_each connect port l e).1).
  { intros e. eapply Forall_impl; [apply IH|]. intros x [Hx Hp]. split; [by right|done]. }
  destruct (publicAddress a) eqn:Ep; [|apply Hw]. cbn [negb]. destruct (connect a port) as [e|].
  - specialize (Hw (Some e)). destruct (dial_each connect port l (Some e)) as [tried r]. constructor; [split; [by left|done]|done].
  - constructor; [split; [by left|done]|constructor].
Qed.

(** The requests of the client: how the [i]-th may look, and where it was tried. *)
Definition hop_safe (first : full_URL) (i : nat) (h : full_URL * list Addr) : Prop :=
  match i with
  | 0 => h.1 = first
  | S _ => (scheme (fu_URL h.1) = "http" \/ scheme (fu_URL h.1) = "https") /\ fu_User h.1 = false
  end
  /\ Forall (fun a => publicAddress a = true /\ exists host l, lookup host = Ok l /\ a ∈ l) h.2.

Lemma DialContext_public address : Forall (fun a => publicAddress a = true /\ exists host l, lookup host = Ok l /\ a ∈ l) (DialContext lookup connect address).1.
Proof.
  unfold DialContext. destruct (SplitHostPort address) as [[host port]|]; [|constructor].
  destruct (lookup host) as [l|] eqn:El; [|constructor]. eapply Forall_impl; [apply dial_each_public|].
  intros a [Ha Hp]. split; [done|]. by exists host, l.
Qed.

Lemma icon_do_safe fuel via u : forall i h, (icon_do lookup connect dial_address exchange fuel via u).1 !! i = Some h -> hop_safe u i h.
Proof.
  revert via u. induction fuel as [|fuel IH]; intros via u i h; cbn [icon_do]; [done|].
  pose proof (DialContext_public (dial_address u)) as Hd. destruct (DialContext lookup connect (dial_address u)) as [tried [a|e]]; cbn [fst] in Hd.
  2:{ destruct i; [intros [= <-]; by split|done]. }
  destruct (exchange a u) as [status body|next|e]; [destruct i; [intros [= <-]; by split|done]| |destruct i; [intros [= <-]; by split|done]].
  destruct (CheckRedirect next (S via)) as [e|] eqn:Ec; [destruct i; [intros [= <-]; by split|done]|].
  specialize (IH (S via) next). destruct (icon_do _ _ _ _ fuel (S via) next) as [trace r]. cbn [fst] in *.
  destruct i as [|i]; [intros [= <-]; by split|]. intros Hi. specialize (IH i h Hi). destruct IH as [Hh Ht]. split; [|done].
  destruct i; [|done]. rewrite Hh. unfold CheckRedirect in Ec. destruct (Nat.leb 3 (S via)); [done|].
  destruct (negb _ && negb _) eqn:Es; [done|]. destruct (fu_User next); [done|]. split; [|done].
  apply andb_false_iff in Es as [H|H]; apply negb_false_iff, String.eqb_eq in H; [by left|by right].
Qed.

(** The limit on redirects ends the loop: more fuel changes nothing. *)
Lemma icon_do_fuel fuel fuel' via u : 3 <= fuel + via -> 3 <= fuel' + via -> 0 < fuel -> 0 < fuel' ->
  icon_do lookup connect dial_address exchange fuel via u = icon_do lookup connect dial_address exchange fuel' via u
  /\ length (icon_do lookup connect dial_address exchange fuel via u).1 <= fuel.
Proof.
  revert fuel' via u. induction fuel as [|fuel IH]; intros [|fuel'] via u H H' H0 H0'; try lia. cbn [icon_do].
  destruct (DialContext _ _ _) as [tried [a|e]]; [|cbn; split; [done|lia]].
  destruct (exchange a u) as [status body|next|e]; [cbn; split; [done|lia]| |cbn; split; [done|lia]].
  destruct (CheckRedirect next (S via)) as [e|] eqn:Ec; [cbn; split; [done|lia]|].
  unfold CheckRedirect in Ec. destruct (Nat.leb_spec 3 (S via)); [done|].
  destruct (IH fuel' (S via) next) as [E Hl]; try lia. rewrite <- E. destruct (icon_do _ _ _ _ fuel (S via) next) as [trace r]. cbn in *. split; [done|lia].
Qed.

Definition icon_types : list string := ["image/png"; "image/jpeg"; "image/gif"; "image/webp"].
(** A picture: bounded, and of a raster type or an XML document whose tokens are those of a safe SVG. *)
Definition icon_safe (body : string) : Prop :=
  (0 < Z.of_nat (String.length body) <= maxIconBytes)%Z
  /\ (detected body ∈ icon_types
      \/ exists tokens, xml_tokens body = (tokens, true) /\ svg_clean to_lower EqualFold tokens).

Lemma validateImage_safe body ct : validateImage to_lower EqualFold xml_tokens body = Some ct -> icon_safe body /\ ct ∈ "image/svg+xml" :: icon_types.
Proof.
  unfold validateImage. cbv zeta. destruct (Z.eqb_spec (Z.of_nat (String.length body)) 0); [done|].
  destruct (Z.ltb_spec maxIconBytes (Z.of_nat (String.length body))); [done|]. cbn [orb]. intros Hv.
  assert (Hb : (0 < Z.of_nat (String.length body) <= maxIconBytes)%Z) by lia.
  destruct (existsb (String.eqb (detected body)) ["image/png"; "image/jpeg"; "image/gif"; "image/webp"]) eqn:E1.
  - injection Hv as <-. apply existsb_elem in E1 as (x & Hx & E%String.eqb_eq). rewrite <- E in Hx. split; [split; [done|left; exact Hx]|right; exact Hx].
  - destruct (existsb _ _ && _) eqn:E2; [|done]. injection Hv as <-. apply andb_true_iff in E2 as [_ E2]. unfold safeSVG in E2.
    destruct (xml_tokens body) as [tokens eof] eqn:Ex. apply safe_tokens_exact in E2 as [-> Hs%svg_safe_clean]. split; [|by left]. split; [done|]. right. by exists tokens.
Qed.

Definition icon_key (k : string) : Prop := exists spec, k = cacheKey sha256 spec.
Definition icon_fetched (r : Result) : Prop :=
  exists url, (fetch_icon url_parse lookup connect dial_address to_lower EqualFold exchange xml_tokens url).2 = Ok r.
Definition icon_type (ct : string) : Prop := ct ∈ "image/svg+xml" :: icon_types.

Lemma icon_fetched_safe r : icon_fetched r -> icon_type (r_ContentType r) /\ icon_safe (r_Body r).
Proof.
  intros [url H]. unfold fetch_icon in H. destruct (url_parse url) as [u|]; [|done].
  destruct (icon_do _ _ _ _ _ _ _) as [trace [[status body]|]]; cbn [snd res_bind] in H; [|done].
  case_match; [done|]. apply res_bind_Ok in H as (data & _ & H). destruct (validateImage _ _ _ data) as [ct|] eqn:Ev; [|done].
  injection H as <-. cbn. apply validateImage_safe in Ev as [? ?]. done.
Qed.
Lemma icon_key_valid k : (forall b, String.length (sha256 b) = digest_size) -> icon_key k -> valid_key k = true.
Proof. intros Hl [spec ->]. unfold cacheKey, valid_key. by rewrite b64url_roundtrip, Hl. Qed.

(** ** The properties *)

(** C19. Fetching an icon stays on the public network. Whatever URL is asked for, whatever names resolve
    to and wherever the servers redirect: at most three requests are made, every one after the first to
    an http or https URL without credentials, and a connection is tried only to addresses the name
    resolved to that, apart from a zone, lie in none of the special networks; the one exception is the
    unspecified IPv6 address written with a zone. The loop ends by itself. *)
Theorem icon_fetch_stays_public url fuel
  (Haddr : forall host l a, lookup host = Ok l -> a ∈ l -> addr_ok a /\ (ad_v6 a = false -> ad_zone a = "")) (Hfuel : 3 <= fuel) :
  let trace := (fetch_icon url_parse lookup connect dial_address to_lower EqualFold exchange xml_tokens url).1 in
  length trace <= 3
  /\ (forall u, icon_do lookup connect dial_address exchange fuel 0 u = icon_do lookup connect dial_address exchange icon_fuel 0 u)
  /\ forall i u tried, trace !! i = Some (u, tried) ->
     match i with 0 => url_parse url = Some u | S _ => (scheme (fu_URL u) = "http" \/ scheme (fu_URL u) = "https") /\ fu_User u = false end
     /\ forall a, a ∈ tried -> (exists host l, lookup host = Ok l /\ a ∈ l)
        /\ (Forall (fun p => Contains_addr p (without_zone (Unmap a)) = false) special_networks
            \/ ad_v6 a = true /\ ad_bits a = 0%Z /\ ad_zone a <> "").
Proof.
  assert (Hf : forall u, icon_do lookup connect dial_address exchange fuel 0 u = icon_do lookup connect dial_address exchange icon_fuel 0 u)
    by (intros u; apply icon_do_fuel; unfold icon_fuel; lia).
  unfold fetch_icon. destruct (url_parse url) as [u0|]; [|cbn; split_and!; [lia|done|done]].
  pose proof (icon_do_safe icon_fuel 0 u0) as Hs. pose proof (proj2 (icon_do_fuel icon_fuel icon_fuel 0 u0 ltac:(by cbv) ltac:(by cbv) ltac:(cbv; lia) ltac:(cbv; lia))) as Hl.
  destruct (icon_do _ _ _ _ icon_fuel 0 u0) as [trace r]. cbn [fst] in *. split; [done|]. split; [done|].
  intros i u tried Hi. apply Hs in Hi as [Hi Ht]. cbn [fst snd] in *. split; [destruct i; [by rewrite Hi|done]|].
  intros a Ha. rewrite Forall_forall in Ht. destruct (Ht a Ha) as [Hp (host & l & Hlk & Hin)]. split; [by exists host, l|].
  destruct (Haddr host l a Hlk Hin). by apply public_address_exact.
Qed.

(** C20. An icon that is served is a picture. Whatever was fetched, cached, lost or failed before: a reply
    of 200 carries an embedded file, or a body within the limit that is of a raster type or an XML
    document that is an SVG without scripting or embedding elements, event attributes, or href and src
    attributes that lead out of it, and without an import or an outside url in a style attribute or in
    the text of a style element up to its first child; under a picture's type, sandboxed and not to be
    sniffed. The text of a style element after a child, and presentation attributes, are not looked at:
    [style_check_ends_at_a_child]. *)
Theorem icon_served_safe c (d : icon_draws) spec l s s' resp led
  (Hl : forall b, String.length (sha256 b) = digest_size)
  (Hused : used sha256 c icon_key icon_fetched (db s) l)
  (Htmp : fresh_temp c (ic_tmp d)) (Hflight : forall r, ic_flight d = Some (Ok r) -> r ∈ l)
  (Hrun : serve_icon url_parse url_string offline lookup connect dial_address sha256 to_lower EqualFold exchange xml_tokens (Some c) d spec s
          = (s', Ok (resp, led)))
  (Hok : rp_status resp = 200%Z) :
  exists body ct, rp_body resp = PText body /\ rp_headers resp = icon_headers ct /\ icon_type ct
    /\ ((exists name, offline name = Some body) \/ icon_safe body).
Proof.
  destruct (used_served sha256 c icon_key icon_type icon_safe icon_fetched (db s) l Hl (fun k => icon_key_valid k Hl) icon_fetched_safe Hused) as [Hs Hall].
  unfold serve_icon in Hrun. apply bind_Ok in Hrun as (s1 & [r led'] & Hr & [= <- <- <-]). cbn [fst] in Hok.
  destruct r as [r|[]]; [|done..]. exists (r_Body r), (r_ContentType r). split; [done|]. split; [done|].
  unfold Resolve in Hr. destruct (parseSpec _ _ _) as [[[normalised remoteURL] offlineName]|]; [|done].
  destruct (if String.eqb offlineName "" then None else offline offlineName) as [body|] eqn:Eo.
  { injection Hr as _ <- _. cbn. split; [by left|]. left. exists offlineName. by destruct (String.eqb offlineName ""). }
  destruct (ic_flight d) as [[r0|]|] eqn:Ef.
  - injection Hr as _ <- _. rewrite Forall_forall in Hall. destruct (Hall r0 (Hflight r0 eq_refl)). split; [done|by right].
  - done.
  - apply bind_Ok in Hr as (s2 & o & Hfill%try_Ok & Hr). destruct o as [[r0 b]|]; [|done]. injection Hr as _ <- _. cbn.
    pose proof (served_fill sha256 c icon_key icon_type icon_safe (ic_t1 d) (ic_t2 d) (ic_tmp d) (cacheKey sha256 normalised) "icons"
      (fetch_icon url_parse lookup connect dial_address to_lower EqualFold exchange xml_tokens remoteURL).2 (ic_fuel d) Hl
      ltac:(intros k Hk; by apply Htmp, icon_key_valid) ltac:(intros r1 Hr1 _; apply icon_fetched_safe; by eexists) s Hs) as Hf.
    rewrite Hfill in Hf. destruct Hf as [_ Hf]. destruct (Hf ltac:(by eexists)). split; [done|by right].
Qed.
End Fetching.

(** ** An icon *)

Definition addr_of (s : string) : Addr := default (addr4 0) (ParseAddr s).
(** A wildcard address with a zone passes the check: it is not equal to the unspecified address and in no
    prefix, and a connection to it reaches the host itself. *)
Example unspecified_with_zone :
  map (fun s => publicAddress (addr_of s)) ["::%lo"; "::"; "0.0.0.0"; "::ffff:10.0.0.1"; "fe80::1%eth0"; "192.168.1.1"; "93.184.216.34"; "2606:4700::1"]
  = [true; false; false; false; false; false; true; true].
Proof. vm_compute. reflexivity. Qed.

Definition fold_eq (a b : string) : bool := String.eqb (ToLower a) (ToLower b).
Definition svg_of (inner : list token) : list token := StartElement "svg" [] :: inner ++ [EndElement "svg"].
Definition import_rule : token := CharData "@import url(http://10.0.0.1/)".
(** A child element inside a style element ends the check of the style, though the text after it is as
    much part of the style sheet; and a presentation attribute may refer to the outside. *)
Example style_check_ends_at_a_child :
  map (fun inner => safe_tokens ToLower fold_eq (svg_of inner) true false false)
    [[StartElement "style" []; import_rule; EndElement "style"];
     [StartElement "style" []; StartElement "a" []; EndElement "a"; import_rule; EndElement "style"];
     [StartElement "rect" [("style", "fill:url(http://10.0.0.1/)")]];
     [StartElement "rect" [("fill", "url(http://10.0.0.1/)")]]]
  = [false; true; false; true].
Proof. vm_compute. reflexivity. Qed.

Definition icon_url (host path : string) : full_URL :=
  {| fu_URL := {| scheme := "https"; host := host; upath := path; uquery := ∅ |}; fu_User := false; fu_RawQuery := ""; fu_Fragment := "" |}.
Definition icon_parse (s : string) : option full_URL :=
  if String.eqb s "https://icons.example/tv.svg" then Some (icon_url "icons.example" "/tv.svg") else None.
Definition icon_string (u : full_URL) : string := "https://" +:+ host (fu_URL u) +:+ upath (fu_URL u).
(** A name that also resolves to an address behind the server. *)
Definition icon_lookup (host : string) : res string (list Addr) :=
  if String.eqb host "icons.example" then Ok [addr_of "10.0.0.1"; addr_of "93.184.216.34"] else Ok [addr_of "2606:4700::1"].
Definition icon_dial (u : full_URL) : string := host (fu_URL u) +:+ ":443".
Definition icon_exchange (a : Addr) (u : full_URL) : upstream :=
  if String.eqb (host (fu_URL u)) "icons.example" then URedirect (icon_url "cdn.example" "/tv.svg")
  else UResponse 200 {| rd_data := "<svg><path/></svg>"; rd_err := None |}.
Definition icon_tokens (s : string) : list token * bool :=
  if String.eqb s "<svg><path/></svg>" then (svg_of [StartElement "path" []; EndElement "path"], true) else ([], false).
Definition no_offline (name : string) : option string := None.
Definition icon_draw : icon_draws := {| ic_t1 := noon; ic_t2 := noon; ic_tmp := "/data/assets/.asset-1.tmp"; ic_fuel := 2; ic_flight := None |}.
Definition no_files : World := {| w_db := empty_db; w_files := ∅ |}.
Definition icon_fetch : list (full_URL * list Addr) * res string Result :=
  fetch_icon icon_parse icon_lookup (fun _ _ => None) icon_dial ToLower fold_eq icon_exchange icon_tokens "https://icons.example/tv.svg".
Definition icon_served (spec : string) : session World * res string (response * option (res string Result)) :=
  serve_icon icon_parse icon_string no_offline icon_lookup (fun _ _ => None) icon_dial sample_digest ToLower fold_eq icon_exchange icon_tokens
    (Some sample_cache) icon_draw spec (clear no_files).

Example parse_samples :
  map (parseSpec icon_parse icon_string) ["mdi:home"; "sh:Plex"; "si:"; " mdi:home"; "https://icons.example/tv.svg"; "ftp://x"]
  = [Ok ("mdi:home", "https://cdn.jsdelivr.net/npm/@mdi/svg@7.4.47/svg/home.svg", "mdi-home.svg"); Err ErrInvalid; Err ErrInvalid; Err ErrInvalid;
     Ok ("https://icons.example/tv.svg", "https://icons.example/tv.svg", ""); Err ErrInvalid].
Proof. vm_compute. reflexivity. Qed.

Example icon_fetch_stays_public_witness :
  map snd icon_fetch.1 = [[addr_of "93.184.216.34"]; [addr_of "2606:4700::1"]]
  /\ Forall (fun p => Contains_addr p (without_zone (Unmap (addr_of "93.184.216.34"))) = false) special_networks.
Proof.
  split; [vm_compute; reflexivity|].
  assert (Haddr : forall host l a, icon_lookup host = Ok l -> a ∈ l -> addr_ok a /\ (ad_v6 a = false -> ad_zone a = "")).
  { intros h l a H Ha. unfold icon_lookup in H. destruct (String.eqb h "icons.example"); injection H as <-.
    - apply elem_of_cons in Ha as [->|Ha]; [split; [vm_compute; split; [discriminate|reflexivity]|reflexivity]|].
      apply elem_of_cons in Ha as [->|Ha]; [split; [vm_compute; split; [discriminate|reflexivity]|reflexivity]|]. apply elem_of_nil in Ha. destruct Ha.
    - apply elem_of_cons in Ha as [->|Ha]; [split; [vm_compute; split; [discriminate|reflexivity]|discriminate]|]. apply elem_of_nil in Ha. destruct Ha. }
  destruct (icon_fetch_stays_public icon_parse icon_lookup (fun _ _ => None) icon_dial ToLower fold_eq icon_exchange icon_tokens
    "https://icons.example/tv.svg" 3 Haddr (le_n 3)) as (_ & _ & H).
  destruct (H 0 (icon_url "icons.example" "/tv.svg") [addr_of "93.184.216.34"]) as [_ Ha]; [vm_compute; reflexivity|].
  destruct (Ha (addr_of "93.184.216.34")) as [_ [Hs|(Hv & _)]]; [left|exact Hs|vm_compute in Hv; discriminate Hv].
Defined.

Example icon_served_safe_witness :
  exists s' resp led, icon_served "https://icons.example/tv.svg" = (s', Ok (resp, led)) /\ rp_status resp = 200%Z
    /\ exists body, rp_body resp = PText body /\ icon_safe ToLower fold_eq icon_tokens body.
Proof.
  destruct (icon_served "https://icons.example/tv.svg") as [s' r] eqn:E.
  assert (Er : exists resp led, r = Ok (resp, led) /\ rp_status resp = 200%Z)
    by (change r with (s', r).2; rewrite <- E; eexists _, _; split; vm_compute; reflexivity).
  destruct Er as (resp & led & -> & Hok). exists s', resp, led. split; [reflexivity|]. split; [exact Hok|].
  destruct (icon_served_safe icon_parse icon_string no_offline icon_lookup (fun _ _ => None) icon_dial sample_digest ToLower fold_eq icon_exchange icon_tokens
    sample_cache icon_draw "https://icons.example/tv.svg" [] (clear no_files) s' resp led sample_digest_length
    (us_start _ _ _ _ no_files eq_refl eq_refl) sample_temp_fresh ltac:(discriminate) E Hok) as (body & ct & Hb & _ & _ & [[name Hn]|Hs]).
  - discriminate Hn.
  - exists body. split; [exact Hb|exact Hs].
Defined.
