(* ===== verification/Declarative.v ===== *)
(** * internal/integrations/declarative: running a declarative manifest

    [Load] compiles an approved manifest's expressions; [Invoke] runs an operation's pipeline of broker
    requests and renders its output within a budget of iterations, bytes and nodes. The broker is the
    interface the runtime has of it. A compiled expression is the tree of what its run asks of the
    functions the runtime registers; every range over a map has an order of its own, and every check of
    the budget its own answer from the clock and the context. *)
From S2P Require Import Prelude GoAny GoSort RoutePath GoTime TimeText NetHttp Widgets Config Canonical Manifest Connections HttpClient Grant Assets Broker Approval App.

(** ** exprenv.go: compiling *)

Definition one_of (l : list string) (s : string) : bool := existsb (String.eqb s) l.

Definition predicates : string -> bool := one_of ["filter"; "map"; "all"; "none"; "any"; "one"; "count"; "sum"; "find"; "findIndex";
  "findLast"; "findLastIndex"; "groupBy"; "sortBy"; "reduce"].
Definition scalarBuiltins : string -> bool := one_of ["len"; "abs"; "ceil"; "floor"; "round"; "int"; "float"; "string"; "trim"; "upper";
  "lower"; "split"; "replace"; "hasPrefix"; "hasSuffix"; "date"; "duration"; "now"].

(** [chargePatcher.Visit]: what a predicate runs over is charged first. *)
Definition chargePatcher (n : Ast.Node) : Ast.Node :=
  match n with
  | Ast.BuiltinNode name (a :: r) =>
      if predicates name
      then Ast.BuiltinNode name (Ast.CallNode (Ast.IdentifierNode "__d3_charge") [a; Ast.StringNode name] :: r)
      else n
  | _ => n
  end.

(** The options of [expr.Compile] that vary or carry code; undefined variables are allowed. *)
Record compile_options := {
  co_MaxNodes : Z; co_Patch : Ast.Node -> Ast.Node; co_Enabled : string -> bool; co_Functions : list string }.
Definition options (max : Z) : compile_options := {|
  co_MaxNodes := max; co_Patch := chargePatcher; co_Enabled := fun n => predicates n || scalarBuiltins n;
  co_Functions := ["__d3_charge"; "first"; "last"; "take"; "fromUnix"; "unix"] |}.

(** A run: it ends, or calls one of the functions and goes on with what that returns. *)
Inductive expr_run :=
| ExprDone (r : res string any)
| CallCharge (v : any) (name : string) (k : any -> expr_run)
| CallEndpoint (v : any) (end_ : bool) (k : any -> expr_run)
| CallTake (v n : any) (k : any -> expr_run)
| CallFromUnix (v : any) (k : any -> expr_run)
| CallUnix (v : any) (k : any -> expr_run).

Definition Env := gmap string any.

Inductive eval_error :=
| ECancelled | EDeadline | EBudget | EExpr (e : string) | ENoProgram | ECollection | EInteger | ENotTimestamp | ENotTime (s : string)
| ECondition | EEach | EOmitted | ENotString | EBroker (e : broker_error) | EUnknownOperation (id : string) | EParams (e : string)
| ENotValidated | EPathParam (name : string) | EPath (e : path_error) | EMarshal (e : string) | EStatus (status : Z)
| EInputBytes | EJSONDepth | EJSONToken | EJSONNodes | EJSON (e : string) | EDocument (ps : list problem)
| ESignalType (name : string) | ESignal (name : string).

(** ** exprenv.go: the functions *)

Definition as_collection (v : any) : option (list any) := match v with AList l => Some l | _ => None end.

(** [integer]: an int, a float that is one, or the text of one. *)
Definition integer (v : any) : option Z :=
  match v with
  | AInt n => Some n
  | AFloat f => match float_integral f with Integral z => if ((- 2 ^ 63 <=? z) && (z <? 2 ^ 63))%Z then Some z else None | _ => None end
  | ANumber s => Atoi s
  | _ => None
  end.

Definition endpoint (v : any) (end_ : bool) : res eval_error any :=
  match as_collection v with
  | None => Err ECollection
  | Some l => Ok (default ANil (if end_ then last l else head l))
  end.

Definition float_of_int (z : Z) : Float64 := SpecFloat.binary_normalize 53 1024 z 0 false.

(** [math.Round] of a finite float: half away from zero. *)
Definition round_half_away (f : Float64) : Z :=
  match f with
  | SpecFloat.S754_finite s m e =>
      let z := if (0 <=? e)%Z then (Z.pos m * 2 ^ e)%Z else ((2 * Z.pos m + 2 ^ (- e)) / 2 ^ (1 - e))%Z in
      if s then (- z)%Z else z
  | _ => 0%Z
  end.

Definition maxUnixSeconds : Z := 253402300799.

Section Functions.
Variable ParseFloat : string -> option Float64.     (* json.Number.Float64 *)

Definition seconds_of (v : any) : option Float64 :=
  match v with AInt n => Some (float_of_int n) | AFloat f => Some f | ANumber s => ParseFloat s | _ => None end.

Definition fromUnix (v : any) : res eval_error any :=
  match seconds_of v with
  | None => Err ENotTimestamp
  | Some f =>
      match f with
      | SpecFloat.S754_nan => Err ENotTimestamp
      | _ => if float_lt f (SpecFloat.S754_zero false) || float_lt (float_of_int maxUnixSeconds) f then Err ENotTimestamp
             else Ok (AString (Format_RFC3339Nano (round_half_away (SpecFloat.SFmul 53 1024 f (float_of_int 1000)) * millisecond)%Z))
      end
  end.
End Functions.

Definition unix_seconds (t : Time) : Z := (t / second)%Z.
Definition unix (v : any) : res eval_error any :=
  match v with
  | ATime t => Ok (AInt (unix_seconds t))
  | AString s => match time_Parse s with Some t => Ok (AInt (unix_seconds t)) | None => Err (ENotTime s) end
  | _ => Err (ENotTime "")
  end.

(** ** runtime.go: parameters and paths *)

(** [segmentValue]: a parameter as path text. *)
Definition segmentValue (v : any) : option string :=
  match v with
  | AString s => Some s
  | AFloat f => match float_integral f with Integral z => if (2 ^ 53 <? Z.abs z)%Z then None else Some (decimal z) | _ => None end
  | AInt n => Some (decimal n)
  | ANumber s => match Atoi s with Some _ => Some s | None => None end
  | _ => None
  end.

(** The values of a path's placeholders; one that is absent is left for [Expand] to report. *)
Fixpoint path_values (params : list (string * any)) (names : list string) : res eval_error (gmap string string) :=
  match names with
  | [] => Ok ∅
  | name :: r =>
      match assoc name params with
      | None => path_values params r
      | Some v => match segmentValue v with
                  | None => Err (EPathParam name)
                  | Some s => let! m := path_values params r in Ok (<[name := s]> m)
                  end
      end
  end.

Definition requestPath (r : RequestDef) (params : list (string * any)) : res eval_error string :=
  match rqd_PathTemplate r with
  | None => Err ENotValidated
  | Some tpl => let! values := path_values params (Placeholders tpl) in res_map_err EPath (Expand tpl values)
  end.

(** [applyParamDefaults]: each property in turn, absent ones from their default, into objects. *)
Fixpoint applyParamDefaults (schema : any) (value : list (string * any)) : list (string * any) :=
  match schema with
  | AMap s =>
      (fix find (s : list (string * any)) : list (string * any) :=
         match s with
         | [] => value
         | (k, p) :: s =>
             if String.eqb k "properties" then
               match p with
               | AMap props =>
                   (fix each (props : list (string * any)) (value : list (string * any)) : list (string * any) :=
                      match props with
                      | [] => value
                      | (name, rule) :: props =>
                          each props
                            match rule with
                            | AMap fields =>
                                match (match assoc name value with Some v => Some v | None => assoc "default" fields end) with
                                | None => value
                                | Some (AMap child) => assign_key name (AMap (applyParamDefaults rule child)) value
                                | Some v => assign_key name v value
                                end
                            | _ => value
                            end
                      end) props value
               | _ => value
               end
             else find s
         end) s
  | _ => value
  end.

Definition signalType (v : Scalar) (want : string) : bool :=
  match v with
  | SString _ => String.eqb want "string"
  | SBool _ => String.eqb want "boolean"
  | SNumber _ => String.eqb want "number"
  | SNull => false
  end.

(** The transform of an asset node: [strconv.Atoi]'s value, whatever its error. *)
Definition atoi_value (s : string) : Z :=
  match Atoi s with
  | Some z => z
  | None =>
      let '(neg, ds) := match s with String "-" r => (true, r) | String "+" r => (false, r) | _ => (false, s) end in
      match ds with
      | "" => 0
      | _ => match atoi_digits ds 0 with Some _ => if neg then - 2 ^ 63 else 2 ^ 63 - 1 | None => 0 end
      end%Z
  end.
Definition transform_part (t : Transform) (part : string) : Transform :=
  if HasPrefix part "w=" then {| tf_Width := atoi_value (TrimPrefix part "w="); tf_Format := tf_Format t |}
  else if HasPrefix part "f=" then {| tf_Width := tf_Width t; tf_Format := TrimPrefix part "f=" |} else t.
Definition parse_transform (s : string) : Transform := foldl transform_part {| tf_Width := 0; tf_Format := "" |} (Split "," s).

(** [url.Values.Encode] with one value per key. *)
Definition form_Encode (m : gmap string string) : string :=
  Join "&" (map (fun k => QueryEscape k +:+ "=" +:+ QueryEscape (default "" (m !! k))) (sort_strings (map fst (map_to_list m)))).

(** The tokens of a JSON text before its end or its first error. *)
Inductive json_token := TOpen | TClose | TText (length : Z) | TScalar.

(** ** budget.go

    The budget of an invocation with the broker it works on. A check of the clock and the context and
    a range over a map each count, since no two need have the same outcome. *)
Section Runtime.
Context {B : Type}.
Variable broker_HTTP : B -> Grant -> HTTPRequest -> B * res broker_error Response.
Variable broker_AssetRef : B -> Grant -> string -> string -> Values -> Transform -> B * res broker_error string.
Variable expired : nat -> option eval_error.
Variable order : forall A : Type, nat -> list A -> list A.
Variable ceil_n_log2_n : Z -> Z.                      (* int(math.Ceil(float64(n) * math.Log2(float64(n)))) *)
Variable ParseFloat : string -> option Float64.
Variable expr_Compile : compile_options -> string -> res string (Env -> expr_run).
Variable json_Marshal : any -> res string string.
Variable json_tokens : string -> list json_token.
Variable json_Decode : string -> res string any.      (* the first value; numbers are floats *)
Variable Json : Type.
Variable decode_generic : string -> option Json.
Variable schema_problems : Json -> list string.
Variable unmarshal : string -> res string Document.

Record St := { st_iterations : Z; st_bytes : Z; st_nodes : Z; st_ticks : nat; st_ranges : nat; st_broker : B }.

Definition M (A : Type) : Type := St -> St * res eval_error A.
Definition ret {A} (a : A) : M A := fun s => (s, Ok a).
Definition fail {A} (e : eval_error) : M A := fun s => (s, Err e).
Definition bind {A C} (m : M A) (k : A -> M C) : M C :=
  fun s => match m s with (s, Ok a) => k a s | (s, Err e) => (s, Err e) end.
Definition lift {A} (r : res eval_error A) : M A := fun s => (s, r).
Local Notation "'do!' x ':=' m 'in' k" := (bind m (fun x => k)) (at level 200, x pattern, m at level 100, k at level 200).

Definition with_iterations (s : St) (n : Z) : St :=
  {| st_iterations := n; st_bytes := st_bytes s; st_nodes := st_nodes s; st_ticks := st_ticks s; st_ranges := st_ranges s; st_broker := st_broker s |}.

Definition check : M unit := fun s =>
  ({| st_iterations := st_iterations s; st_bytes := st_bytes s; st_nodes := st_nodes s; st_ticks := S (st_ticks s);
      st_ranges := st_ranges s; st_broker := st_broker s |},
   match expired (st_ticks s) with Some e => Err e | None => Ok tt end).

Definition spend (cost : Z) : M unit := fun s =>
  if (st_iterations s <? cost)%Z then (s, Err EBudget) else (with_iterations s (st_iterations s - cost), Ok tt).

Definition length_of (v : any) : Z :=
  match v with
  | AString s | ANumber s => Z.of_nat (String.length s)
  | AList l => Z.of_nat (length l)
  | AMap m => Z.of_nat (length m)
  | _ => 0
  end.

Definition charge_cost (v : any) (name : string) : Z :=
  let n := length_of v in
  if (String.eqb name "sortBy" || String.eqb name "reduce") && (1 <? n)%Z then ceil_n_log2_n n else n.
Definition charge (v : any) (name : string) : M any :=
  do! _ := check in do! _ := spend (charge_cost v name) in ret v.
Definition template : M unit := do! _ := spend 1 in check.

Definition take (v n : any) : M any :=
  match integer n with
  | None => fail EInteger
  | Some n =>
      match as_collection v with
      | None => fail ECollection
      | Some l =>
          let n := Z.min (Z.max n 0) (Z.of_nat (length l)) in
          do! _ := spend n in ret (AList (firstn (Z.to_nat n) l))
      end
  end.

(** ** Running an expression *)

Fixpoint run_calls (p : expr_run) : M any :=
  match p with
  | ExprDone r => lift (res_map_err EExpr r)
  | CallCharge v name k => do! x := charge v name in run_calls (k x)
  | CallEndpoint v end_ k => do! x := lift (endpoint v end_) in run_calls (k x)
  | CallTake v n k => do! x := take v n in run_calls (k x)
  | CallFromUnix v k => do! x := lift (fromUnix ParseFloat v) in run_calls (k x)
  | CallUnix v k => do! x := lift (unix v) in run_calls (k x)
  end.

Definition compile (source : string) (max : Z) : res string (Env -> expr_run) := expr_Compile (options max) source.

Section Instance_.
Variable limits : MLimits.                            (* the approved limits *)
Variable grant : Grant.

(** [run] of the program an expression was compiled to. *)
Definition run (e : Expression) (env : Env) : M any :=
  match compile (ex_Source e) (ml_ExprNodes limits) with
  | Err _ => fail ENoProgram
  | Ok p => run_calls (p (<["__ctx" := AOther "context.Context"]> env))
  end.

(** ** Rendering a template: [None] is [omitted] *)

Definition ranged {A} (l : list A) : M (list A) := fun s =>
  ({| st_iterations := st_iterations s; st_bytes := st_bytes s; st_nodes := st_nodes s; st_ticks := st_ticks s;
      st_ranges := S (st_ranges s); st_broker := st_broker s |}, Ok (order A (st_ranges s) l)).

Fixpoint seq_list (l : list (M (option any))) : M (list any) :=
  match l with
  | [] => ret []
  | m :: r => do! v := m in do! vs := seq_list r in ret (match v with Some v => v :: vs | None => vs end)
  end.
Fixpoint seq_entries {A C} (f : A -> option C) (l : list (string * M A)) : M (list (string * C)) :=
  match l with
  | [] => ret []
  | (k, m) :: r => do! v := m in do! es := seq_entries f r in ret (match f v with Some v => (k, v) :: es | None => es end)
  end.

(** [evalString] of what [eval] gives. *)
Definition to_string (m : M (option any)) : M string :=
  do! v := m in match v with None => fail EOmitted | Some (AString s) => ret s | Some _ => fail ENotString end.

Definition zero_grant : Grant :=
  {| PluginID := ""; g_Version := ""; InstanceID := ""; Slots := ∅; Caps := ∅; ManifestRoutes := []; ApprovedRoutes := [];
     g_ConnectionPolicy := ∅; g_Limits := {| HTTPRequests := 0; ResponseMB := 0; CacheEntries := 0; CacheBytesKB := 0; HostCalls := 0; RequestBodyKB := 0 |};
     Ident := {| SnapshotGen := 0; CardHash := ""; ManifestDigest := ""; ApprovalRevision := ""; SlotRevisions := ∅ |} |}.
Definition grant_value : any := AOther "capabilities.Grant".
Definition envGrant (env : Env) : Grant :=
  match env !! "__grant" with Some (AOther t) => if String.eqb t "capabilities.Grant" then grant else zero_grant | _ => zero_grant end.

Definition asset_ref (env : Env) (slot path tr : string) (q : gmap string string) : M (option any) := fun s =>
  let '(b, r) := broker_AssetRef (st_broker s) (envGrant env) slot path ((fun v => [v]) <$> q) (parse_transform tr) in
  ({| st_iterations := st_iterations s; st_bytes := st_bytes s; st_nodes := st_nodes s; st_ticks := st_ticks s;
      st_ranges := st_ranges s; st_broker := b |},
   match r with Ok ref => Ok (Some (AString ref)) | Err e => Err (EBroker e) end).

Fixpoint eval (t : Template) (env : Env) : M (option any) :=
  do! _ := template in
  match t with
  | TLiteral v => ret (Some v)
  | TExpr e => do! v := run e env in ret (Some v)
  | TArray l => do! vs := seq_list (map (fun x => eval x env) l) in ret (Some (AList vs))
  | TObject m =>
      do! cs := ranged (map (fun p => (p.1, eval p.2 env)) m) in
      do! es := seq_entries id cs in ret (Some (AMap es))
  | TCond c body =>
      do! v := run c env in
      match v with ABool true => eval body env | ABool false => ret None | _ => fail ECondition end
  | TEach e name item =>
      do! v := run e env in
      match as_collection v with
      | None => fail EEach
      | Some l => do! vs := seq_list (map (fun x => eval item (<[name := x]> env)) l) in ret (Some (AList vs))
      end
  | TAsset slot path query tr =>
      do! p := to_string (match path with Some t => eval t env | None => ret (Some ANil) end) in
      do! cs := ranged (map (fun q => (q.1, to_string (match q.2 with Some t => eval t env | None => ret (Some ANil) end))) query) in
      do! q := seq_entries Some cs in
      asset_ref env slot p tr (list_to_map q)
  end.

Definition eval_nil (t : option Template) (env : Env) : M (option any) :=
  match t with Some t => eval t env | None => ret (Some ANil) end.
Definition evalStrings (m : list (string * option Template)) (env : Env) : M (gmap string string) :=
  do! cs := ranged (map (fun q => (q.1, to_string (eval_nil q.2 env))) m) in
  do! q := seq_entries Some cs in ret (list_to_map q).

(** ** jsondecode.go *)


Fixpoint scan_tokens (budget : Z) (depth nodes : Z) (l : list json_token) : res eval_error Z :=
  match l with
  | [] => Ok nodes
  | t :: r =>
      let nodes := (nodes + 1)%Z in
      let depth := match t with TOpen => depth + 1 | TClose => depth - 1 | _ => depth end%Z in
      if match t with TOpen => (ml_JSONDepth limits <? depth)%Z | _ => false end then Err EJSONDepth
      else if match t with TText n => (1024 * 1024 <? n)%Z | _ => false end then Err EJSONToken
      else if (budget <? nodes)%Z then Err EJSONNodes
      else scan_tokens budget depth nodes r
  end.

Definition maxBytes : Z := ml_InputMB limits * 1024 * 1024.
Definition add_bytes (s : St) (n : Z) : St :=
  {| st_iterations := st_iterations s; st_bytes := st_bytes s + n; st_nodes := st_nodes s; st_ticks := st_ticks s;
     st_ranges := st_ranges s; st_broker := st_broker s |}.
Definition add_nodes (s : St) (n : Z) : St :=
  {| st_iterations := st_iterations s; st_bytes := st_bytes s; st_nodes := st_nodes s + n; st_ticks := st_ticks s;
     st_ranges := st_ranges s; st_broker := st_broker s |}.

Definition decodeJSON (raw : string) : M any := fun s =>
  let n := Z.of_nat (String.length raw) in
  if (maxBytes - st_bytes s <? n)%Z then (s, Err EInputBytes)
  else
    let s := add_bytes s n in
    match scan_tokens (ml_JSONNodes limits - st_nodes s) 0 0 (json_tokens raw) with
    | Err e => (s, Err e)
    | Ok nodes => (add_nodes s nodes, res_map_err EJSON (json_Decode raw))
    end.

(** ** runtime.go: an invocation *)

(** What [json.Marshal] makes of what [eval] gives: the sentinel is a struct without exported fields. *)
Definition marshal (v : option any) : res eval_error string :=
  match v with None => Ok "{}" | Some v => res_map_err EMarshal (json_Marshal v) end.

Definition send (req : HTTPRequest) : M Response := fun s =>
  let '(b, r) := broker_HTTP (st_broker s) grant req in
  ({| st_iterations := st_iterations s; st_bytes := st_bytes s; st_nodes := st_nodes s; st_ticks := st_ticks s;
      st_ranges := st_ranges s; st_broker := b |}, res_map_err EBroker r).

(** The body of a step's request, with the headers it sets. *)
Definition request_body (b : option BodyDef) (h : gmap string string) (env : Env) : M (gmap string string * option string) :=
  match b with
  | None => ret (h, None)
  | Some b =>
      match bd_JSON b with
      | Some t =>
          do! v := eval t env in
          do! body := lift (marshal v) in
          ret (<["Content-Type" := "application/json"]> h, Some body)
      | None =>
          do! form := evalStrings (default [] (bd_Form b)) env in
          ret (<["Content-Type" := "application/x-www-form-urlencoded"]> h, Some (form_Encode form))
      end
  end.

(** The condition of a step: anything but [true] skips it. *)
Definition wanted (when_ : option Expression) (env : Env) : M bool :=
  match when_ with
  | None => ret true
  | Some e => do! v := run e env in ret (match v with ABool b => b | _ => false end)
  end.

Definition run_step (params : list (string * any)) (step : PipelineStep) (env : Env) : M Env :=
  let r := ps_Request step in
  do! _ := check in
  do! go := wanted (ps_When step) env in
  if go : bool then
    do! path := lift (requestPath r params) in
    do! q := evalStrings (rqd_Query r) env in
    do! h := evalStrings (rqd_Headers r) env in
    do! (h, body) := request_body (rqd_Body r) h env in
    do! resp := send {| hq_Slot := rqd_Slot r; hq_Method := rqd_Method r; hq_Path := path; hq_Query := q; hq_Header := h;
                        hq_Body := body; hq_BodyLen := 0 |} in
    if ((rs_StatusCode resp <? 200) || (299 <? rs_StatusCode resp))%Z then fail (EStatus (rs_StatusCode resp))
    else do! decoded := decodeJSON (rs_Body resp) in ret (<[ps_As step := decoded]> env)
  else ret env.

Fixpoint run_pipeline (params : list (string * any)) (steps : list PipelineStep) (env : Env) : M Env :=
  match steps with
  | [] => ret env
  | step :: r => do! env := run_step params step env in run_pipeline params r env
  end.


Definition set_schema_version (v : option any) : option any :=
  match v with Some (AMap m) => Some (AMap (assign_key "schemaVersion" (AInt 1) m)) | _ => v end.

(** The declared signals have their types, and no other signal is there. *)
Fixpoint signals_typed (decls : list SignalDecl) (signals : gmap string Signal) : option eval_error :=
  match decls with
  | [] => None
  | d :: r =>
      match signals !! sd_Name d with
      | Some sig => if signalType (sig_Value sig) (sd_Type d) then signals_typed r signals else Some (ESignalType (sd_Name d))
      | None => signals_typed r signals
      end
  end.
Definition undeclared (decls : list SignalDecl) (signals : gmap string Signal) : list string :=
  List.filter (fun n => negb (existsb (fun d => String.eqb (sd_Name d) n) decls)) (map fst (map_to_list signals)).

Definition check_document (op : OperationDef) (doc : Document) : res eval_error Document :=
  match signals_typed (op_Signals op) (doc_Signals doc) with
  | Some e => Err e
  | None => match order string 0 (undeclared (op_Signals op) (doc_Signals doc)) with
            | n :: _ => Err (ESignal n)
            | [] => Ok doc
            end
  end.

Definition render (op : OperationDef) (env : Env) : M Document :=
  do! raw := eval_nil (op_Output op) env in
  do! body := lift (marshal (set_schema_version raw)) in
  do! doc := lift (res_map_err EDocument
                     (ValidateWithLimit Json decode_generic schema_problems unmarshal body (ml_OutputKB limits * 1024))) in
  lift (check_document op doc).

(** An operation on the parameters of its card. *)
Definition run_operation (op : OperationDef) (params : list (string * any)) (now : Time) : M Document :=
  do! env := run_pipeline params (op_Pipeline op) {["params" := AMap params; "now" := ATime now; "__grant" := grant_value]} in
  render op env.
End Instance_.

(** ** Loading an instance *)

Variable Schema : Type.
Variable compile_schema : any -> res string Schema.
Variable validate_params : Schema -> any -> option string.
Variable decode_params : string -> res string (option (list (string * any))).   (* [None] is null *)

Record Instance_ := { in_manifest : MManifest; in_params : gmap string Schema }.

Inductive runtime_error := RNotApproved | RRuntime (name : string) | RDigest | RCompile (e : string) | RSchema (e : string).

Definition approved_limits (e : EffectiveLimits) : MLimits := WithDefaults
  {| ml_MemoryMB := el_MemoryMB e; ml_TimeoutMs := el_TimeoutMs e; ml_OutputKB := el_OutputKB e; ml_HTTPRequests := el_HTTPRequests e;
     ml_ResponseMB := el_ResponseMB e; ml_CacheEntries := el_CacheEntries e; ml_InputMB := el_InputMB e; ml_JSONDepth := el_JSONDepth e;
     ml_JSONNodes := el_JSONNodes e; ml_ExprNodes := el_ExprNodes e; ml_Iterations := el_Iterations e; ml_RequestBodyKB := el_RequestBodyKB e;
     ml_HostCalls := el_HostCalls e; ml_CacheBytesKB := el_CacheBytesKB e |}.
Definition with_limits (m : MManifest) (l : MLimits) : MManifest :=
  {| mm_Path := mm_Path m; mm_Digest := mm_Digest m; mm_ID := mm_ID m; mm_Name := mm_Name m; mm_Version := mm_Version m;
     mm_Runtime := mm_Runtime m; mm_Module := mm_Module m; mm_ModuleSHA256 := mm_ModuleSHA256 m; mm_Capabilities := mm_Capabilities m;
     mm_Slots := mm_Slots m; mm_Limits := l; mm_Operations := mm_Operations m |}.

(** The expressions of an operation in the order they are compiled in. *)
Definition compiled_exprs (op : OperationDef) : list Expression := exprs_nil (op_Output op) ++ concat (map exprs_step (op_Pipeline op)).
Fixpoint compile_exprs (max : Z) (l : list Expression) : res runtime_error unit :=
  match l with
  | [] => Ok tt
  | e :: r => match compile (ex_Source e) max with Err x => Err (RCompile x) | Ok _ => compile_exprs max r end
  end.
Fixpoint load_operations (max : Z) (ops : list OperationDef) (params : gmap string Schema) : res runtime_error (gmap string Schema) :=
  match ops with
  | [] => Ok params
  | op :: r =>
      let! _ := compile_exprs max (compiled_exprs op) in
      match op_Params op with
      | ANil => load_operations max r params
      | p => match compile_schema p with
             | Err e => Err (RSchema e)
             | Ok c => load_operations max r (<[op_ID op := c]> params)
             end
      end
  end.

Definition Load (manifest : option MManifest) (lock : option LockEntry) : res runtime_error Instance_ :=
  match manifest, lock with
  | Some m, Some l =>
      if negb (String.eqb (mm_Runtime m) "declarative") then Err (RRuntime (mm_Runtime m))
      else if negb (String.eqb (le_ManifestSHA256 l) (mm_Digest m)) then Err RDigest
      else
        let approved := with_limits m (approved_limits (le_EffectiveLimits l)) in
        let! params := load_operations (ml_ExprNodes (mm_Limits approved)) (mm_Operations m) ∅ in
        Ok {| in_manifest := approved; in_params := params |}
  | _, _ => Err RNotApproved
  end.

(** ** Invoking it *)

Definition invoke_params (op : OperationDef) (raw : string) : res eval_error (list (string * any)) :=
  if String.eqb raw "" then Ok []
  else match decode_params raw with
       | Err e => Err (EParams e)
       | Ok None => Ok []
       | Ok (Some p) => Ok p
       end.

Definition start (l : MLimits) (b : B) : St :=
  {| st_iterations := ml_Iterations l; st_bytes := 0; st_nodes := 0; st_ticks := 0; st_ranges := 1; st_broker := b |}.

Definition Invoke (i : Instance_) (operation params : string) (grant : Grant) (now : Time) (b : B) : St * res eval_error Document :=
  let m := in_manifest i in
  let s := start (mm_Limits m) b in
  match find_operation m operation with
  | None => (s, Err (EUnknownOperation operation))
  | Some op =>
      match invoke_params op params with
      | Err e => (s, Err e)
      | Ok p =>
          let p := applyParamDefaults (op_Params op) p in
          match (c ← in_params i !! op_ID op; validate_params c (AMap p)) with
          | Some e => (s, Err (EParams e))
          | None => run_operation (mm_Limits m) grant op p now s
          end
      end
  end.

(** ** Invariants of a run

    A computation keeps [I], and what it returns satisfies [Q]. *)
Section Keeps.
Variable limits : MLimits.
Variable grant : Grant.
Hypothesis Horder : forall A n l, order A n l ≡ₚ l.
Hypothesis Hlog : forall n, (1 < n)%Z -> (0 <= ceil_n_log2_n n)%Z.
Variable I : St -> Prop.
Hypothesis I_spend : forall s c, (0 <= c <= st_iterations s)%Z -> I s -> I (with_iterations s (st_iterations s - c)).
Hypothesis I_tick : forall s, I s -> I (check s).1.
Hypothesis I_range : forall A (l : list A) s, I s -> I (ranged l s).1.
Hypothesis I_asset : forall env slot p tr q s, I s -> I (asset_ref grant env slot p tr q s).1.

Definition keeps {A} (m : M A) (Q : A -> Prop) : Prop := forall s, I s -> I (m s).1 /\ forall a, (m s).2 = Ok a -> Q a.
Definition any_result {A} : A -> Prop := fun _ => True.

Lemma keeps_ret {A} (a : A) (Q : A -> Prop) : Q a -> keeps (ret a) Q.
Proof. intros Ha s Hs. split; [done|]. by intros ? [= <-]. Qed.
Lemma keeps_fail {A} e (Q : A -> Prop) : keeps (fail e) Q.
Proof. intros s Hs. by split. Qed.
Lemma keeps_lift {A} (r : res eval_error A) (Q : A -> Prop) : (forall a, r = Ok a -> Q a) -> keeps (lift r) Q.
Proof. intros Hr s Hs. by split. Qed.
Lemma keeps_bind {A C} (m : M A) (k : A -> M C) P Q : keeps m P -> (forall a, P a -> keeps (k a) Q) -> keeps (bind m k) Q.
Proof.
  intros Hm Hk s Hs. unfold bind. destruct (Hm s Hs) as [H1 H2]. destruct (m s) as [s' [a|e]]; [|by split]. by apply (Hk a (H2 a eq_refl)).
Qed.
Lemma keeps_weaken {A} (m : M A) (P Q : A -> Prop) : keeps m P -> (forall a, P a -> Q a) -> keeps m Q.
Proof. intros Hm H s Hs. destruct (Hm s Hs) as [H1 H2]. split; [done|]. intros a Ha. by apply H, H2. Qed.
Lemma keeps_any {A} (m : M A) : (forall s, I s -> I (m s).1) -> keeps m any_result.
Proof. intros H s Hs. split; [by apply H|done]. Qed.

Lemma keeps_check : keeps check any_result.
Proof. apply keeps_any, I_tick. Qed.
Lemma keeps_spend c : (0 <= c)%Z -> keeps (spend c) any_result.
Proof.
  intros Hc. apply keeps_any. intros s Hs. unfold spend. destruct (Z.ltb_spec (st_iterations s) c); [done|]. apply I_spend; [lia|done].
Qed.
Lemma charge_cost_nonneg v name : (0 <= charge_cost v name)%Z.
Proof. unfold charge_cost. assert (H : (0 <= length_of v)%Z) by (destruct v; simpl; lia). destruct (Z.ltb_spec 1 (length_of v)); [|by rewrite andb_false_r]. destruct (_ && _); [by apply Hlog|done]. Qed.
Lemma keeps_charge v name : keeps (charge v name) any_result.
Proof.
  eapply keeps_bind; [apply keeps_check|intros _ _]. eapply keeps_bind; [apply keeps_spend, charge_cost_nonneg|intros _ _]. by apply keeps_ret.
Qed.
Lemma keeps_template : keeps template any_result.
Proof. eapply keeps_bind; [by apply keeps_spend|intros _ _; apply keeps_check]. Qed.
Lemma keeps_take v n : keeps (take v n) any_result.
Proof.
  unfold take. destruct (integer n) as [z|]; [|apply keeps_fail]. destruct (as_collection v) as [l|]; [|apply keeps_fail].
  eapply keeps_bind; [apply keeps_spend; lia|intros _ _]. by apply keeps_ret.
Qed.

Lemma keeps_run_calls p : keeps (run_calls p) any_result.
Proof.
  induction p as [r|v name k IH|v e k IH|v n k IH|v k IH|v k IH]; cbn [run_calls].
  - by apply keeps_lift.
  - eapply keeps_bind; [apply keeps_charge|intros x _; apply IH].
  - eapply keeps_bind; [by apply (keeps_lift _ any_result)|intros x _; apply IH].
  - eapply keeps_bind; [apply keeps_take|intros x _; apply IH].
  - eapply keeps_bind; [by apply (keeps_lift _ any_result)|intros x _; apply IH].
  - eapply keeps_bind; [by apply (keeps_lift _ any_result)|intros x _; apply IH].
Qed.
Lemma keeps_run e env : keeps (run limits e env) any_result.
Proof. unfold run. destruct (compile _ _); [apply keeps_run_calls|apply keeps_fail]. Qed.

Lemma keeps_ranged {A} (l : list A) (Q : A -> Prop) : Forall Q l -> keeps (ranged l) (Forall Q).
Proof. intros Hl s Hs. split; [by apply I_range|]. intros a [= <-]. by rewrite Horder. Qed.
Lemma keeps_seq_list l : Forall (fun m => keeps m any_result) l -> keeps (seq_list l) any_result.
Proof.
  induction 1 as [|m l Hm _ IH]; [by apply keeps_ret|]. cbn [seq_list]. eapply keeps_bind; [exact Hm|intros v _].
  eapply keeps_bind; [exact IH|intros vs _]. by apply keeps_ret.
Qed.
(** The keys that come out are among those that went in. *)
Lemma keeps_seq_entries {A C} (f : A -> option C) (l : list (string * M A)) (K : string -> Prop) :
  Forall (fun p => keeps p.2 any_result /\ K p.1) l -> keeps (seq_entries f l) (Forall (fun p => K p.1)).
Proof.
  induction 1 as [|[k m] l [Hm Hk] _ IH]; [apply keeps_ret; constructor|]. cbn [seq_entries]. eapply keeps_bind; [exact Hm|intros v _].
  eapply keeps_bind; [exact IH|intros es Hes]. apply keeps_ret. destruct (f v); [by constructor|done].
Qed.
Lemma keeps_to_string m : keeps m any_result -> keeps (to_string m) any_result.
Proof.
  intros Hm. eapply keeps_bind; [exact Hm|intros v _]. destruct v as [[]|]; try apply keeps_fail. by apply keeps_ret.
Qed.

Lemma keeps_eval t : forall env, keeps (eval limits grant t env) any_result.
Proof.
  induction t as [v|m IH|l IH|e|slot path q tr IHp IHq|e n t IH|e t IH] using Template_nested_ind; intros env; cbn [eval];
    (eapply keeps_bind; [apply keeps_template|intros _ _]).
  - by apply keeps_ret.
  - eapply keeps_bind; [apply (keeps_ranged _ (fun p => keeps p.2 any_result /\ True))|].
    + apply Forall_map. eapply Forall_impl; [exact IH|]. intros p Hp. split; [apply Hp|done].
    + intros cs Hcs. eapply keeps_bind; [by apply (keeps_seq_entries id cs (fun _ => True))|intros es _; by apply keeps_ret].
  - eapply keeps_bind; [apply keeps_seq_list|intros vs _; by apply keeps_ret]. apply Forall_map. eapply Forall_impl; [exact IH|]. by intros p Hp.
  - eapply keeps_bind; [apply keeps_run|intros v _; by apply keeps_ret].
  - eapply keeps_bind; [apply keeps_to_string; destruct path; [by apply IHp|by apply keeps_ret]|intros p _].
    eapply keeps_bind; [apply (keeps_ranged _ (fun p => keeps p.2 any_result /\ True))|].
    + apply Forall_map. eapply Forall_impl; [exact IHq|]. intros [k o] Ho. split; [|done]. apply keeps_to_string. simpl in *. destruct o; [by apply Ho|by apply keeps_ret].
    + intros cs Hcs. eapply keeps_bind; [by apply (keeps_seq_entries Some cs (fun _ => True))|intros es _]. apply keeps_any. apply I_asset.
  - eapply keeps_bind; [apply keeps_run|intros v _]. destruct (as_collection v) as [l|]; [|apply keeps_fail].
    eapply keeps_bind; [apply keeps_seq_list|intros vs _; by apply keeps_ret]. apply Forall_map, Forall_forall. intros x _. apply IH.
  - eapply keeps_bind; [apply keeps_run|intros v _]. destruct v as [|[]| | | | | | | |]; try apply keeps_fail; [apply IH|by apply keeps_ret].
Qed.
Lemma keeps_eval_nil t env : keeps (eval_nil limits grant t env) any_result.
Proof. destruct t; [apply keeps_eval|by apply keeps_ret]. Qed.

Lemma keeps_evalStrings m env : keeps (evalStrings limits grant m env) (fun q => forall k v, q !! k = Some v -> k ∈ map fst m).
Proof.
  unfold evalStrings. eapply keeps_bind; [apply (keeps_ranged _ (fun p => keeps p.2 any_result /\ p.1 ∈ map fst m))|].
  - apply Forall_map, Forall_forall. intros p Hp. split; [apply keeps_to_string, keeps_eval_nil|]. exact (elem_of_map_2 fst m p Hp).
  - intros cs Hcs. eapply keeps_bind; [by apply (keeps_seq_entries Some cs (fun k => k ∈ map fst m))|intros es Hes].
    apply keeps_ret. intros k v H%elem_of_list_to_map_2. rewrite Forall_forall in Hes. by apply (Hes (k, v)).
Qed.

(** *** The pipeline *)

Hypothesis I_bytes : forall s n, (0 <= n <= maxBytes limits - st_bytes s)%Z -> I s -> I (add_bytes s n).
Hypothesis I_nodes : forall s n, (0 <= n)%Z -> n = 0%Z \/ (n <= ml_JSONNodes limits - st_nodes s)%Z -> I s -> I (add_nodes s n).

Lemma scan_tokens_bound budget l : forall d n m, scan_tokens limits budget d n l = Ok m -> (n <= m)%Z /\ (m = n \/ (m <= budget)%Z).
Proof.
  induction l as [|t l IH]; intros d n m H; cbn [scan_tokens] in H; [injection H as <-; lia|].
  destruct (match t with TOpen => _ | _ => false end); [done|]. destruct (match t with TText _ => _ | _ => false end); [done|].
  destruct (Z.ltb_spec budget (n + 1)); [done|]. apply IH in H. lia.
Qed.
Lemma keeps_decodeJSON raw : keeps (decodeJSON limits raw) any_result.
Proof.
  apply keeps_any. intros s Hs. unfold decodeJSON. destruct (Z.ltb_spec (maxBytes limits - st_bytes s) (Z.of_nat (String.length raw))) as [|Hn]; [done|].
  assert (H1 : I (add_bytes s (Z.of_nat (String.length raw)))) by (apply I_bytes; [lia|done]).
  destruct (scan_tokens _ _ _ _ _) as [n|] eqn:En; [|done]. apply scan_tokens_bound in En. apply I_nodes; [lia|lia|done].
Qed.

(** A request some data route of the operation covers, but for its body. *)
Definition declared (op : OperationDef) (req : HTTPRequest) : Prop :=
  Canonicalise (hq_Path req) = Ok (hq_Path req)
  /\ exists rt, rt ∈ op_Routes op
     /\ routeMatchesSlotMethodAndPath (manifest_route rt) (hq_Slot req) (hq_Method req) (hq_Path req) UseData = true
     /\ queryKeysAllowed (mr_QueryKeys rt) (hq_Query req) = true.

Variable strings_ToLower : string -> string.
Variable op : OperationDef.
Hypothesis I_send : forall req s, declared op req -> I s -> I (send grant req s).1.

Lemma requestPath_declared m r params path : request_ok strings_ToLower m op r -> requestPath r params = Ok path ->
  Canonicalise path = Ok path /\ exists rt, rt ∈ op_Routes op
    /\ routeMatchesSlotMethodAndPath (manifest_route rt) (rqd_Slot r) (rqd_Method r) path UseData = true
    /\ forall q : gmap string string, (forall k v, q !! k = Some v -> k ∈ map fst (rqd_Query r)) -> queryKeysAllowed (mr_QueryKeys rt) q = true.
Proof.
  intros (_ & _ & p & tpl & rt & _ & Hp & Ht & _ & Hrt & Hslot & Hmeth & Huse & Hcov & Hr) H. unfold requestPath in H. rewrite Ht in H.
  apply res_bind_Ok in H as (values & _ & H). destruct (Expand tpl values) as [x|] eqn:Ex; simplify_eq/=.
  destruct (covered_expansion _ _ _ _ _ Hp Hcov Ex) as (cp & Hcp & Hm).
  split; [by eapply Expand_canonical|]. exists rt. split; [done|]. split.
  - unfold routeMatchesSlotMethodAndPath, manifest_route. cbn [rt_Slot rt_Use rt_Method rt_Path]. rewrite Hslot, Hmeth, !String.eqb_refl, Hcp.
    unfold runtimeUse. by destruct Huse as [-> | ->].
  - intros q Hq. unfold routeCoversRequest in Hr. apply andb_true_iff in Hr as [Hr _]. unfold queryKeysAllowed.
    destruct (mr_QueryKeys rt) as [l|]; [|done]. rewrite forallb_forall in Hr. apply forallb_forall. intros [k v] Hkv%list_elem_of_In%elem_of_map_to_list.
    apply Hq in Hkv. apply elem_of_map in Hkv as ([k' o] & -> & Hin). by apply (Hr (k', o)), list_elem_of_In.
Qed.

Lemma keeps_wanted w env : keeps (wanted limits w env) any_result.
Proof. destruct w as [e|]; [|by apply keeps_ret]. eapply keeps_bind; [apply keeps_run|intros v _; by apply keeps_ret]. Qed.
Lemma keeps_request_body b h env : keeps (request_body limits grant b h env) any_result.
Proof.
  destruct b as [b|]; [|by apply keeps_ret]. unfold request_body. destruct (bd_JSON b).
  - eapply keeps_bind; [apply keeps_eval|intros v _]. eapply keeps_bind; [by apply (keeps_lift _ any_result)|intros x _; by apply keeps_ret].
  - eapply keeps_bind; [apply keeps_evalStrings|intros f _; by apply keeps_ret].
Qed.

Lemma keeps_run_step m params step env : request_ok strings_ToLower m op (ps_Request step) -> keeps (run_step limits grant params step env) any_result.
Proof.
  intros Hok. unfold run_step. eapply keeps_bind; [apply keeps_check|intros _ _]. eapply keeps_bind; [apply keeps_wanted|intros go _].
  destruct go; [|by apply keeps_ret].
  eapply (keeps_bind _ _ (fun path => requestPath (ps_Request step) params = Ok path)); [by apply keeps_lift|intros path Hpath].
  eapply keeps_bind; [apply keeps_evalStrings|intros q Hq]. eapply keeps_bind; [apply keeps_evalStrings|intros h _].
  eapply keeps_bind; [apply keeps_request_body|intros [h' body] _]. eapply (keeps_bind _ _ any_result).
  - apply keeps_any. intros s Hs. apply I_send; [|done]. destruct (requestPath_declared _ _ _ _ Hok Hpath) as (Hc & rt & Hrt & Hm & Hk).
    split; [done|]. exists rt. split; [done|]. split; [done|]. by apply Hk.
  - intros resp _. destruct (_ || _); [apply keeps_fail|]. eapply keeps_bind; [apply keeps_decodeJSON|intros x _; by apply keeps_ret].
Qed.

Lemma keeps_run_operation m params now : Forall (fun s => request_ok strings_ToLower m op (ps_Request s)) (op_Pipeline op) ->
  keeps (run_operation limits grant op params now) any_result.
Proof.
  intros Hok. unfold run_operation. eapply (keeps_bind _ _ any_result).
  - generalize ({["params" := AMap params; "now" := ATime now; "__grant" := grant_value]} : Env). induction Hok as [|s l Hs _ IH]; intros env; [by apply keeps_ret|].
    cbn [run_pipeline]. eapply keeps_bind; [by eapply keeps_run_step|intros e _; apply IH].
  - intros env _. unfold render. eapply keeps_bind; [apply keeps_eval_nil|intros raw _]. do 2 (eapply keeps_bind; [by apply (keeps_lift _ any_result)|intros ? _]).
    by apply keeps_lift.
Qed.
End Keeps.

Lemma Load_Ok m lock i : Load (Some m) lock = Ok i -> mm_Runtime m = "declarative"
  /\ exists l, lock = Some l /\ le_ManifestSHA256 l = mm_Digest m /\ in_manifest i = with_limits m (approved_limits (le_EffectiveLimits l)).
Proof.
  unfold Load. destruct lock as [l|]; [|done]. destruct (String.eqb_spec (mm_Runtime m) "declarative"); [|done]. cbn [negb].
  destruct (String.eqb_spec (le_ManifestSHA256 l) (mm_Digest m)); [|done]. cbn [negb]. intros (p & _ & [= <-])%res_bind_Ok. split; [done|]. by exists l.
Qed.

Lemma find_operation_in m id op : find_operation m id = Some op -> op ∈ mm_Operations m.
Proof.
  unfold find_operation. destruct (list_find _ _) as [[i o]|] eqn:E; [|done]. intros [= <-]. apply list_find_Some in E as (E & _). by eapply list_elem_of_lookup_2.
Qed.

(** An invocation ends in a state its operation, run from the start, ends in, or where it started. *)
Lemma Invoke_cases i operation params grant now b :
  (Invoke i operation params grant now b).1 = start (mm_Limits (in_manifest i)) b
  \/ exists op p, op ∈ mm_Operations (in_manifest i)
     /\ (Invoke i operation params grant now b).1 = (run_operation (mm_Limits (in_manifest i)) grant op p now (start (mm_Limits (in_manifest i)) b)).1.
Proof.
  unfold Invoke. destruct (find_operation _ operation) as [op|] eqn:Ef; [|by left]. destruct (invoke_params op params) as [p|]; [|by left].
  destruct (_ ≫= _); [by left|]. right. exists op, (applyParamDefaults (op_Params op) p). split; [by eapply find_operation_in|done].
Qed.

Lemma signals_typed_None decls signals : signals_typed decls signals = None ->
  forall d sig, d ∈ decls -> signals !! sd_Name d = Some sig -> signalType (sig_Value sig) (sd_Type d) = true.
Proof.
  induction decls as [|d decls IH]; intros H d' sig Hd Hs; [by apply not_elem_of_nil in Hd|]. simpl in H.
  apply elem_of_cons in Hd as [->|Hd].
  - rewrite Hs in H. by destruct (signalType _ _).
  - apply IH; [|done..]. destruct (signals !! sd_Name d) as [sg|]; [|done]. by destruct (signalType _ _).
Qed.

Lemma check_document_Ok op doc d : (forall A n l, order A n l ≡ₚ l) -> check_document op doc = Ok d ->
  (forall x sig, x ∈ op_Signals op -> doc_Signals d !! sd_Name x = Some sig -> signalType (sig_Value sig) (sd_Type x) = true)
  /\ forall name sig, doc_Signals d !! name = Some sig -> name ∈ map sd_Name (op_Signals op).
Proof.
  intros Ho. unfold check_document. destruct (signals_typed _ _) eqn:Et; [done|]. destruct (order string 0 _) as [|n l] eqn:E; [|done]. intros [= <-].
  split; [by apply signals_typed_None|]. intros name sig Hs.
  assert (Hn : undeclared (op_Signals op) (doc_Signals doc) = []) by (apply Permutation_nil; rewrite <- E; apply Ho). unfold undeclared in Hn.
  destruct (existsb (fun x => String.eqb (sd_Name x) name) (op_Signals op)) eqn:Ex.
  - apply existsb_elem in Ex as (x & Hx & <-%String.eqb_eq). by apply elem_of_map_2.
  - exfalso. assert (Hin : name ∈ List.filter (fun n => negb (existsb (fun d => String.eqb (sd_Name d) n) (op_Signals op))) (map fst (map_to_list (doc_Signals doc)))).
    { apply list_elem_of_In, filter_In. rewrite Ex. split; [|done]. apply list_elem_of_In.
      by apply (elem_of_map_2 fst _ (name, sig)), elem_of_map_to_list. }
    rewrite Hn in Hin. by apply not_elem_of_nil in Hin.
Qed.

Lemma run_operation_Ok limits grant op p now s s' d : (forall A n l, order A n l ≡ₚ l) -> run_operation limits grant op p now s = (s', Ok d) ->
  (forall x sig, x ∈ op_Signals op -> doc_Signals d !! sd_Name x = Some sig -> signalType (sig_Value sig) (sd_Type x) = true)
  /\ forall name sig, doc_Signals d !! name = Some sig -> name ∈ map sd_Name (op_Signals op).
Proof.
  intros Ho. unfold run_operation, render, bind, lift. repeat case_match; try done. intros [= _ Hd]. by eapply check_document_Ok.
Qed.

(** What an invocation has used of its limits. *)
Definition within (l : MLimits) (s : St) : Prop :=
  ((st_iterations s <= ml_Iterations l /\ (st_iterations s = ml_Iterations l \/ 0 <= st_iterations s))
   /\ (st_bytes s = 0 \/ 0 <= st_bytes s <= maxBytes l) /\ (st_nodes s = 0 \/ 0 <= st_nodes s <= ml_JSONNodes l))%Z.

(** ** The properties *)

Section Properties.
(** The arguments of the loader, and a manifest it loaded that the runtime accepted with its lock entry. *)
Variable parse : string -> res string Ast.Node.
Variable walk : Ast.Node -> list Ast.Node.
Variable decode_value : Node -> res string any.
Variable decode_expr : Node -> res string string.
Variable decode_asset : Node -> res string rawAsset.
Variable decode_manifest : Node -> res string rawManifest.
Variable yaml_unmarshal : string -> res string Node.
Variable validateSchema : any -> option string.
Variable yaml_documents : string -> list (res string (yaml * (nat -> yaml))).
Variable json_document : string -> res string (any * bool).
Variable sha256 : string -> string.
Variable strings_ToLower : string -> string.

Definition loaded (path raw : string) (m : MManifest) (lock : option LockEntry) (i : Instance_) : Prop :=
  loadBytes parse walk decode_value decode_expr decode_asset decode_manifest yaml_unmarshal validateSchema yaml_documents json_document sha256
    strings_ToLower path raw = Ok m
  /\ Load (Some m) lock = Ok i.

Lemma loaded_requests path raw m lock i op : loaded path raw m lock i -> op ∈ mm_Operations (in_manifest i) ->
  op ∈ mm_Operations m /\ Forall (fun s => request_ok strings_ToLower m op (ps_Request s)) (op_Pipeline op).
Proof.
  intros [Hl Hi] Hop. apply loadBytes_sound in Hl as (_ & Hops & _). apply Load_Ok in Hi as (_ & l & _ & _ & Ei). rewrite Ei in Hop.
  cbn [with_limits mm_Operations] in Hop. split; [done|]. rewrite Forall_forall in Hops. by apply (Hops _ Hop).
Qed.

(** C3. From a manifest's bytes to the wire: whatever is invoked, with whatever parameters, upstream
    answers and expressions, every request the runtime hands the broker has a canonical path and is
    admitted, in slot, method, path and query keys, by a data route its operation declares. So any
    property of the broker's state that such requests and the minting of asset references keep, an
    invocation keeps. *)
Theorem pipeline_stays_declared (P : B -> Prop) path raw m lock i (Hi : loaded path raw m lock i)
  (Horder : forall A n l, order A n l ≡ₚ l) (Hlog : forall n, (1 < n)%Z -> (0 <= ceil_n_log2_n n)%Z)
  operation params grant now b
  (Hasset : forall g slot p q t b, P b -> P (broker_AssetRef b g slot p q t).1)
  (Hhttp : forall op req b, op ∈ mm_Operations m -> declared op req -> P b -> P (broker_HTTP b grant req).1) :
  P b -> P (st_broker (Invoke i operation params grant now b).1).
Proof.
  intros Hb. destruct (Invoke_cases i operation params grant now b) as [->|(op & p & Hop & ->)]; [done|].
  destruct (loaded_requests _ _ _ _ _ _ Hi Hop) as [Hin Hreq].
  assert (H : keeps (fun s => P (st_broker s)) (run_operation (mm_Limits (in_manifest i)) grant op p now) any_result).
  { apply (keeps_run_operation (mm_Limits (in_manifest i)) grant Horder Hlog (fun s => P (st_broker s))) with (strings_ToLower := strings_ToLower) (m := m); try done.
    - intros env slot pth tr q s Hs. unfold asset_ref. pose proof (Hasset (envGrant grant env) slot pth ((fun v => [v]) <$> q) (parse_transform tr) _ Hs) as H.
      by destruct (broker_AssetRef _ _ _ _ _ _).
    - intros req s Hd Hs. unfold send. pose proof (Hhttp op req _ Hin Hd Hs) as H. by destruct (broker_HTTP _ _ _). }
  by destruct (H (start (mm_Limits (in_manifest i)) b) Hb).
Qed.

(** C31. An invocation stays within what was approved: it never spends more iterations than the limit,
    decodes more upstream bytes than inputMB or more JSON tokens than jsonNodes, however it ends; and
    a document it returns has only signals its operation declares, each of the declared type. *)
Theorem invocation_bounded path raw m lock i (Hi : loaded path raw m lock i)
  (Horder : forall A n l, order A n l ≡ₚ l) (Hlog : forall n, (1 < n)%Z -> (0 <= ceil_n_log2_n n)%Z)
  operation params grant now b :
  within (mm_Limits (in_manifest i)) (Invoke i operation params grant now b).1
  /\ forall d, (Invoke i operation params grant now b).2 = Ok d -> exists op, op ∈ mm_Operations m /\ op_ID op = operation
     /\ (forall x sig, x ∈ op_Signals op -> doc_Signals d !! sd_Name x = Some sig -> signalType (sig_Value sig) (sd_Type x) = true)
     /\ forall name sig, doc_Signals d !! name = Some sig -> name ∈ map sd_Name (op_Signals op).
Proof.
  split.
  - set (l := mm_Limits (in_manifest i)). assert (Hs : within l (start l b)) by (unfold within; simpl; lia).
    destruct (Invoke_cases i operation params grant now b) as [->|(op & p & Hop & ->)]; [done|].
    destruct (loaded_requests _ _ _ _ _ _ Hi Hop) as [Hin Hreq]. fold l.
    assert (H : keeps (within l) (run_operation l grant op p now) any_result).
    { apply (keeps_run_operation l grant Horder Hlog (within l)) with (strings_ToLower := strings_ToLower) (m := m); try done.
      + unfold within, with_iterations. simpl. intros. lia.
      + intros env slot pth tr q s H. unfold asset_ref. by destruct (broker_AssetRef _ _ _ _ _ _).
      + unfold within, add_bytes. simpl. intros. lia.
      + unfold within, add_nodes. simpl. intros. lia.
      + intros req s _ H. unfold send. by destruct (broker_HTTP _ _ _). }
    by destruct (H (start l b) Hs).
  - intros d. unfold Invoke. destruct (find_operation _ operation) as [op|] eqn:Ef; [|done]. destruct (invoke_params op params) as [p|]; [|done].
    destruct (_ ≫= _); [done|]. intros H. exists op. pose proof (find_operation_in _ _ _ Ef) as Hop.
    destruct (loaded_requests _ _ _ _ _ _ Hi Hop) as [Hin _]. split; [done|].
    destruct (run_operation _ _ _ _ _ _) as [s' r] eqn:Er in H. simpl in H. subst r. split; [|by eapply run_operation_Ok].
    unfold find_operation in Ef. destruct (list_find _ _) as [[n o]|] eqn:E; [|done]. injection Ef as ->. by apply list_find_Some in E as (_ & E & _).
Qed.
End Properties.
End Runtime.

(** ** A manifest, run *)

Definition sample_lock (m : MManifest) : LockEntry :=
  {| le_ManifestSHA256 := mm_Digest m; le_ModuleSHA256 := ""; le_Version := "1.0.0"; le_Runtime := "declarative"; le_ApprovedAt := ""; le_ApprovedBy := "";
     le_Capabilities := ["http"]; le_Routes := []; le_Limits := None; le_EffectiveLimits := App.effectiveLimits (WithDefaults zero_limits) |}.
Definition sample_compile (o : compile_options) (src : string) : res string (Env -> expr_run) :=
  Ok (fun _ => CallCharge (AList [AInt 1]) "filter" (fun _ => ExprDone (Ok (AInt 3)))).
Definition sample_instance : option (Instance_ unit) :=
  match loaded_manifest with
  | Some m => match Load sample_compile unit (fun _ => Ok tt) (Some m) (Some (sample_lock m)) with Ok i => Some i | Err _ => None end
  | None => None
  end.
Definition sample_document : Document :=
  {| doc_Title := "Items"; doc_Subtitle := ""; doc_Link := ""; doc_Status := None; doc_Blocks := [];
     doc_Signals := {["count" := {| sig_Value := SNumber (float_of_int 3); sig_Unit := ""; sig_Level := "" |}]}; doc_Notices := []; doc_Hints := None |}.
(** The requests the broker was handed, all answered with an object. *)
Definition sample_http (b : list HTTPRequest) (g : Grant) (req : HTTPRequest) : list HTTPRequest * res broker_error Response :=
  (b ++ [req], Ok {| rs_StatusCode := 200; rs_Header := ∅; rs_Body := "{}" |}).
Definition sample_asset (b : list HTTPRequest) (g : Grant) (slot p : string) (q : Values) (t : Transform) : list HTTPRequest * res broker_error string := (b, Ok "ref").
Definition sample_invoke (i : Instance_ unit) : St * res eval_error Document :=
  Invoke sample_http sample_asset (fun _ => None) (fun _ _ l => l) (fun n => (n * n)%Z) (fun _ => None) sample_compile (fun _ => Ok "{}")
    (fun _ => [TOpen; TClose]) (fun _ => Ok (AMap [])) unit (fun _ => Some tt) (fun _ => []) (fun _ => Ok sample_document)
    unit (fun _ _ => None) (fun _ => Ok (Some [("id", AString "7")])) i "status" "params" zero_grant 0 [].

Lemma sample_loaded : exists m i, loaded_manifest = Some m /\ sample_instance = Some i
  /\ loaded sample_compile unit (fun _ => Ok tt) Manifest.sample_parse sample_walk sample_decode_value sample_decode_expr (fun _ => Err "no assets")
       (fun _ => Ok sample_raw) sample_yaml (fun _ => None) sample_documents (fun _ => Err "json") (fun s => s) (fun s => s) "manifest.yaml" "x"
       m (Some (sample_lock m)) i.
Proof.
  destruct loaded_manifest as [m|] eqn:Em; [|by vm_compute in Em]. destruct sample_instance as [i|] eqn:Ei; [|by vm_compute in Ei].
  exists m, i. split; [done|]. split; [done|]. unfold sample_instance in Ei. rewrite Em in Ei. cbv beta iota in Ei. split.
  - assert (H : (match sample_load "x" with Ok m => Some m | Err _ => None end) = loaded_manifest) by (vm_compute; reflexivity).
    rewrite Em in H. change (sample_load "x" = Ok m). destruct (sample_load "x") as [m'|]; [by injection H as ->|done].
  - destruct (Load sample_compile () _ _ _) as [i'|]; [by injection Ei as ->|done].
Qed.

(** What is sent is what the manifest declares: /api/items/7 for the parameter 7. *)
Example pipeline_stays_declared_witness : exists m i, loaded_manifest = Some m /\ sample_instance = Some i
  /\ map hq_Path (st_broker (sample_invoke i).1) = ["/api/items/7"]
  /\ Forall (fun req => exists op, op ∈ mm_Operations m /\ declared op req) (st_broker (sample_invoke i).1).
Proof.
  destruct sample_loaded as (m & i & Hm & Hi & Hl). exists m, i. split; [exact Hm|]. split; [exact Hi|]. split.
  - assert (H : option_map (fun i => map hq_Path (st_broker (sample_invoke i).1)) sample_instance = Some ["/api/items/7"]) by (vm_compute; reflexivity).
    rewrite Hi in H. injection H as H. exact H.
  - apply (pipeline_stays_declared sample_http sample_asset (fun _ => None) (fun _ _ l => l) (fun n => (n * n)%Z) (fun _ => None) sample_compile (fun _ => Ok "{}")
      (fun _ => [TOpen; TClose]) (fun _ => Ok (AMap [])) unit (fun _ => Some tt) (fun _ => []) (fun _ => Ok sample_document)
      unit (fun _ => Ok tt) (fun _ _ => None) (fun _ => Ok (Some [("id", AString "7")])) Manifest.sample_parse sample_walk sample_decode_value sample_decode_expr (fun _ => Err "no assets")
      (fun _ => Ok sample_raw) sample_yaml (fun _ => None) sample_documents (fun _ => Err "json") (fun s => s) (fun s => s)
      (Forall (fun req => exists op, op ∈ mm_Operations m /\ declared op req)) "manifest.yaml" "x" m (Some (sample_lock m)) i Hl).
    + intros A n l. reflexivity.
    + intros n _. apply Z.square_nonneg.
    + intros g slot p q t b Hb. exact Hb.
    + intros op req b Hop Hd Hb. apply Forall_app. split; [exact Hb|]. constructor; [|constructor]. exists op. split; [exact Hop|exact Hd].
    + constructor.
Defined.

Example invocation_bounded_witness : exists m i, loaded_manifest = Some m /\ sample_instance = Some i
  /\ (sample_invoke i).2 = Ok sample_document /\ within (mm_Limits (in_manifest unit i)) (sample_invoke i).1.
Proof.
  destruct sample_loaded as (m & i & Hm & Hi & Hl). exists m, i. split; [exact Hm|]. split; [exact Hi|]. split.
  - assert (H : option_map (fun i => (sample_invoke i).2) sample_instance = Some (Ok sample_document)) by (vm_compute; reflexivity).
    rewrite Hi in H. injection H as H. exact H.
  - exact (proj1 (invocation_bounded sample_http sample_asset (fun _ => None) (fun _ _ l => l) (fun n => (n * n)%Z) (fun _ => None) sample_compile (fun _ => Ok "{}")
      (fun _ => [TOpen; TClose]) (fun _ => Ok (AMap [])) unit (fun _ => Some tt) (fun _ => []) (fun _ => Ok sample_document)
      unit (fun _ => Ok tt) (fun _ _ => None) (fun _ => Ok (Some [("id", AString "7")])) Manifest.sample_parse sample_walk sample_decode_value sample_decode_expr (fun _ => Err "no assets")
      (fun _ => Ok sample_raw) sample_yaml (fun _ => None) sample_documents (fun _ => Err "json") (fun s => s) (fun s => s)
      "manifest.yaml" "x" m (Some (sample_lock m)) i Hl (fun A n l => reflexivity l) (fun n _ => Z.square_nonneg n) "status" "params" zero_grant 0 [])).
Defined.

(** A condition that is false at the root of a JSON body is sent, as an empty object. *)
Example omitted_body_is_sent : forall e, snd (request_body sample_asset (fun _ => None) (fun _ _ l => l) (fun n => n) (fun _ => None)
    (fun _ _ => Ok (fun _ => ExprDone (Ok (ABool false)))) (fun _ => Err "unused") (WithDefaults zero_limits) zero_grant
    (Some {| bd_JSON := Some (TCond e (TLiteral (AString "on"))); bd_Form := None |}) ∅ ∅ (start (WithDefaults zero_limits) []))
  = Ok (<["Content-Type" := "application/json"]> ∅, Some "{}").
Proof. intros e. reflexivity. Qed.

(** The loader takes a route of another JSON media type to cover a JSON body; the broker compares
    the whole type and refuses the request. *)
Example loader_admits_what_the_broker_refuses :
  let route := {| mr_Slot := "s"; mr_Method := "POST"; mr_Path := "/p"; mr_Use := ""; mr_ContentType := "application/json; charset=utf-8"; mr_QueryKeys := None; mr_MaxBodyKB := 0 |} in
  let req := {| rqd_Slot := "s"; rqd_Method := "POST"; rqd_Path := None; rqd_PathTemplate := None; rqd_Query := []; rqd_Headers := [];
                rqd_Body := Some {| bd_JSON := Some (TLiteral ANil); bd_Form := None |} |} in
  let parse (s : string) := if String.eqb s "application/json" then Some (s, ∅ : gmap string string)
                            else Some ("application/json", {["charset" := "utf-8"]}) in
  let print (s : string) (p : gmap string string) := if decide (p = ∅) then s else s +:+ "; charset=utf-8" in
  routeCoversRequest ToLower route req = true
  /\ contentTypeAllowed parse print (mr_ContentType route) {["Content-Type" := "application/json"]} = false.
Proof. split; vm_compute; reflexivity. Qed.
