(* ===== verification/Wasm.v ===== *)
(** * internal/integrations/wasm: running an approved WebAssembly module

    runtime.go loads and invokes modules, host.go answers their calls, validate.go tries a module out.
    The engine is wazero under Extism: compiling a module, and what a linked guest does on an input, are
    arguments. A guest's run is the tree of its calls of host functions and of [output_set], each with
    the guest memory the host meets, and of what it does with the answers; a run ends because every
    invocation has a deadline at which the engine stops it. *)
From S2P Require Import Prelude GoAny GoSort GoPath RoutePath GoTime NetHttp Widgets Config Canonical Manifest Connections HttpClient Grant Assets Broker Approval.

(** ** host.go: the requests of a guest *)

Definition hostNamespace : string := "extism:host/user".
Definition maxHostInput : Z := 2 ^ 20.
Definition maxUint32 : Z := 2 ^ 32 - 1.

Definition hostFunctionNames (name : string) : bool :=
  existsb (String.eqb name) ["veduta_http"; "veduta_cache_get"; "veduta_cache_put"; "veduta_asset_ref"; "veduta_log"].

Record httpRequest := {
  q_Slot : string; q_Method : string; q_Path : string; q_Query : gmap string string; q_Headers : gmap string string;
  q_Body : option string }.
Record cachePutRequest := { cp_Key : string; cp_Value : string; cp_TTLSeconds : Z }.
Record assetRefRequest := { ar_Slot : string; ar_Path : string; ar_Query : gmap string string; ar_Width : Z; ar_Format : string }.
Record logRequest := { lg_Level : string; lg_Msg : string; lg_Fields : list (string * any) }.

(** The value of a result: nothing, an upstream's answer, raw JSON, or a reference. *)
Inductive http_body := HRawJSON (raw : string) | HBase64 (text : string).
Inductive host_value :=
| HNil | HHTTP (status : Z) (headers : Header) (body : http_body) | HRaw (raw : string) | HText (s : string).

Inductive host_error :=
| HPointer | HLength (e : string) | HTooLarge | HMemory | HUnavailable | HDecode (e : string) | HMultiple
| HBroker (e : broker_error) | HEmptyKey | HNotJSON | HCacheValue | HNegativeTTL | HLogLevel.

Record hostResult := { hr_OK : bool; hr_Value : host_value; hr_Error : option (string * string) }.

(** A text written with apostrophes for its quotation marks. *)
Fixpoint quoted (s : string) : string :=
  match s with
  | EmptyString => ""
  | String c r => String (if Ascii.eqb c "'" then "034" else c)%char (quoted r)
  end.
Definition internal_error_body : string :=
  quoted "{'ok':false,'error':{'code':'internal','message':'could not encode host response'}}".

(** The guest memory as the host meets it during one call: the length of the block at an offset, its
    bytes, a new block, and whether a write fits. *)
Record memory := {
  mem_length : Z -> res string Z; mem_read : Z -> Z -> option string; mem_alloc : Z -> res string Z;
  mem_write : Z -> string -> bool }.

(** [readHostInput] *)
Definition readHostInput (m : memory) (offset : Z) : res host_error string :=
  if (maxUint32 <? offset)%Z then Err HPointer
  else match mem_length m offset with
       | Err e => Err (HLength e)
       | Ok len =>
           if ((maxHostInput <? len) || (maxUint32 <? (offset + len) mod 2 ^ 64))%Z then Err HTooLarge
           else match mem_read m offset len with Some input => Ok input | None => Err HMemory end
       end.

(** What goes on the wire, what the broker keeps, and how many host calls there were. *)
Record world := { w_broker : bstate; w_wire : list wire_request; w_calls : nat }.

Section Host.
Context {R : Type} `{RegistryOps R}.
Variable ParseMediaType : string -> option (string * gmap string string).
Variable FormatMediaType : string -> gmap string string -> string.
Variable error_text : cap_error -> string.
Variable hmac : string -> string -> string.
Variable marshal : Payload -> string.
Variable svc : Service.
Variable fallback : string.
Variable envs : nat -> env.                   (* the network, at each call *)
Variable clock : nat -> Time.
Variable json_Valid : string -> bool.
(** [decoder.Decode]'s value, and whether the input ends after it. *)
Variable decode_http : string -> res string (httpRequest * bool).
Variable decode_cache_put : string -> res string (cachePutRequest * bool).
Variable decode_asset_ref : string -> res string (assetRefRequest * bool).
Variable decode_log : string -> res string (logRequest * bool).
Variable marshal_result : hostResult -> res string string.
Variable host_error_text : host_error -> string.
(** [errors.Is] of the two errors of a context. *)
Variable is_deadline is_cancelled : host_error -> bool.

Definition decodeHostRequest {A} (decode : string -> res string (A * bool)) (input : string) : res host_error A :=
  match decode input with
  | Err e => Err (HDecode e)
  | Ok (v, true) => Ok v
  | Ok (_, false) => Err HMultiple
  end.

(** A host function's answer: the world after it, the value and the error. *)
Definition answer : Type := world * host_value * option host_error.
Definition refuse (w : world) (e : host_error) : answer := (w, HNil, Some e).
Definition keep_broker (w : world) (b : bstate) : world := {| w_broker := b; w_wire := w_wire w; w_calls := w_calls w |}.

Definition hostHTTP (r : R) (g : Grant) (w : world) (input : string) : answer :=
  match decodeHostRequest decode_http input with
  | Err e => refuse w e
  | Ok q =>
      let '(b, tr, resp) := HTTP_call ParseMediaType FormatMediaType error_text (envs (w_calls w)) r (w_broker w) g
        {| hq_Slot := q_Slot q; hq_Method := q_Method q; hq_Path := q_Path q; hq_Query := q_Query q; hq_Header := q_Headers q;
           hq_Body := q_Body q; hq_BodyLen := 0 |} in
      let w := {| w_broker := b; w_wire := w_wire w ++ tr; w_calls := w_calls w |} in
      match resp with
      | Err e => refuse w (HBroker e)
      | Ok rs => (w, HHTTP (rs_StatusCode rs) (rs_Header rs)
                       (if json_Valid (rs_Body rs) then HRawJSON (rs_Body rs) else HBase64 (base64 (rs_Body rs))), None)
      end
  end.

Definition hostCacheGet (g : Grant) (w : world) (key : string) : answer :=
  if String.eqb key "" then refuse w HEmptyKey
  else
    let '(b, v) := CacheGet error_text (clock (w_calls w)) (w_broker w) g key in
    let w := keep_broker w b in
    match v with
    | Err e => refuse w (HBroker e)
    | Ok None => (w, HNil, None)
    | Ok (Some value) => if json_Valid value then (w, HRaw value, None) else refuse w HNotJSON
    end.

Definition ttl_of (seconds : Z) : Duration := wrap64 (seconds * second).

Definition hostCachePut (g : Grant) (w : world) (input : string) : answer :=
  match decodeHostRequest decode_cache_put input with
  | Err e => refuse w e
  | Ok q =>
      if negb (json_Valid (cp_Value q)) then refuse w HCacheValue
      else if (cp_TTLSeconds q <? 0)%Z then refuse w HNegativeTTL
      else
        let '(b, v) := CachePut error_text (clock (w_calls w)) (w_broker w) g (cp_Key q) (cp_Value q) (ttl_of (cp_TTLSeconds q)) in
        (keep_broker w b, HNil, match v with Ok _ => None | Err e => Some (HBroker e) end)
  end.

(** The reference is a string also when the broker refuses it. *)
Definition hostAssetRef (g : Grant) (w : world) (input : string) : answer :=
  match decodeHostRequest decode_asset_ref input with
  | Err e => refuse w e
  | Ok q =>
      let query : Values := (fun v => [v]) <$> ar_Query q in
      let '(b, v) := AssetRef ParseMediaType FormatMediaType error_text hmac marshal svc fallback (clock (w_calls w)) (w_broker w) g
                       (ar_Slot q) (ar_Path q) query {| tf_Width := ar_Width q; tf_Format := ar_Format q |} in
      match v with
      | Ok (_, token) => (keep_broker w b, HText token, None)
      | Err e => (keep_broker w b, HText "", Some (HBroker e))
      end
  end.

Definition log_levels (l : string) : bool := existsb (String.eqb l) ["debug"; "info"; "warn"; "error"].

Definition hostLog (g : Grant) (w : world) (input : string) : answer :=
  match decodeHostRequest decode_log input with
  | Err e => refuse w e
  | Ok q =>
      if negb (log_levels (lg_Level q)) then refuse w HLogLevel
      else
        let '(b, v) := Log error_text (w_broker w) g (lg_Level q) (lg_Msg q) (lg_Fields q) in
        (keep_broker w b, HNil, match v with Ok _ => None | Err e => Some (HBroker e) end)
  end.

Definition hostErrorCode (e : host_error) : string :=
  match e with
  | HBroker (BDenied ErrCapDenied) => "capability_denied"
  | HBroker (BDenied ErrSlotDenied) => "slot_denied"
  | HBroker (BDenied (RoutePathRefused _ | NoManifestRoute | NoApprovedRoute | ConnectionForbids)) => "route_denied"
  | HBroker (BDenied ErrBudgetExceeded | BResponseTooLarge) => "budget_exceeded"
  | _ => if is_deadline e then "deadline_exceeded" else if is_cancelled e then "cancelled" else "invalid_request"
  end.

(** [hostFunctions]: the functions by the names they are linked under. *)
Definition hostFunctions : list (string * (R -> Grant -> world -> string -> answer)) :=
  [("veduta_http", hostHTTP); ("veduta_cache_get", fun _ => hostCacheGet); ("veduta_cache_put", fun _ => hostCachePut);
   ("veduta_asset_ref", fun _ => hostAssetRef); ("veduta_log", fun _ => hostLog)].

(** [writeHostResult]: the offset the guest is given, 0 if there is none, and the bytes there. *)
Definition writeHostResult (m : memory) (r : hostResult) : Z * option string :=
  let body := match marshal_result r with Ok b => b | Err _ => internal_error_body end in
  match mem_alloc m (Z.of_nat (String.length body)) with
  | Err _ => (0%Z, None)
  | Ok offset => if (maxUint32 <? offset)%Z || negb (mem_write m offset body) then (0%Z, None) else (offset, Some body)
  end.

(** What [build] makes of a function: [None] is a context without a broker. *)
Definition host_call (call : R -> Grant -> world -> string -> answer) (inv : option (R * Grant)) (w : world) (m : memory) (ptr : Z)
  : world * (Z * option string) :=
  let '(w, value, err) :=
    match readHostInput m ptr with
    | Err e => refuse w e
    | Ok input => match inv with None => refuse w HUnavailable | Some (r, g) => call r g w input end
    end in
  let w := {| w_broker := w_broker w; w_wire := w_wire w; w_calls := S (w_calls w) |} in
  (w, writeHostResult m {| hr_OK := match err with None => true | Some _ => false end; hr_Value := value;
                           hr_Error := (fun e => (hostErrorCode e, host_error_text e)) <$> err |}).

(** ** A guest's run *)

Inductive guest :=
| GCall (name : string) (m : memory) (ptr : Z) (k : Z -> option string -> guest)
| GOutput (length : Z) (output : string) (k : guest)
| GReturn (status : Z)
| GTrap (e : string).

Inductive run_error := RTrap (e : string) | ROutputLimit | RNotLinked (name : string).

(** [outputLimiter]: the length is checked before the engine reads the output; it is an unsigned
    64-bit integer. *)
Definition output_over (limit length : Z) : bool := (limit <? length)%Z.

Fixpoint run_guest (inv : option (R * Grant)) (limit : Z) (t : guest) (output : string) (w : world)
  : world * res run_error (Z * string) :=
  match t with
  | GCall name m ptr k =>
      match assoc name hostFunctions with
      | None => (w, Err (RNotLinked name))
      | Some call => let '(w, (offset, body)) := host_call call inv w m ptr in run_guest inv limit (k offset body) output w
      end
  | GOutput len out k => if output_over limit len then (w, Err ROutputLimit) else run_guest inv limit k out w
  | GReturn status => (w, Ok (status, output))
  | GTrap e => (w, Err (RTrap e))
  end.
End Host.

(** ** runtime.go: loading *)

Definition MaxModuleBytes : Z := 32 * 2 ^ 20.

Inductive ValueType := ValueTypeI32 | ValueTypeI64 | ValueTypeF32 | ValueTypeF64 | ValueTypeOther.
#[export] Instance ValueType_eq_dec : EqDecision ValueType.
Proof. solve_decision. Defined.

(** What the engine says of a module: its imports by module and name, and its exports. *)
Record CompiledModule := {
  ImportedFunctions : list (string * string); ImportedMemories : nat; ExportedFunctions : gmap string (list ValueType * list ValueType) }.

Definition allowed (name : string) : bool :=
  existsb (String.eqb name) ["alloc"; "free"; "length"; "length_unsafe"; "load_u8"; "load_u64"; "store_u8"; "store_u64";
    "input_length"; "input_load_u8"; "input_load_u64"; "output_set"; "error_set"].

Inductive wasm_error :=
| EContext (e : string) | ECache (e : string) | ENoBroker | ERuntimeClosed | EPins | EModuleHash | EApprovedLimits | EManifestLimits
| ENotLocal | EFile (e : string) | ENotRegular | EModuleSize | EModuleDigest | ESchema (e : string) | ECompile (e : string)
| EForbiddenImports (names : list string) | EImportedMemory | EInvokeExport | EInstanceClosed | EOperation (id : string)
| EInputSize | EParams (e : string) | EParamsObject | EEncode (e : string) | EInstantiate (e : string) | ERun (e : run_error)
| EStatus (status : Z) | EDocument (ps : list problem) | ESignal (name : string).

Definition import_forbidden (i : string * string) : bool :=
  if String.eqb i.1 hostNamespace && hostFunctionNames i.2 then false
  else negb (String.eqb i.1 "extism:host/env") || negb (allowed i.2).

Definition invoke_ok (m : CompiledModule) : bool :=
  bool_decide (ExportedFunctions m !! "invoke" = Some ([], [ValueTypeI32])).

(** A file as it is opened: whether it is a regular one, and its first bytes. *)
Record module_file := { f_regular : res string bool; f_read : Z -> res string string }.

Record Installed := { ins_Manifest : option MManifest; ins_Lock : option LockEntry }.

Definition in_range (lo hi v : Z) : bool := (lo <=? v)%Z && (v <=? hi)%Z.
Definition approved_limits_ok (l : EffectiveLimits) : bool :=
  in_range 1 256 (el_MemoryMB l) && in_range 1 30000 (el_TimeoutMs l) && in_range 1 256 (el_OutputKB l) && in_range 1 16 (el_InputMB l).
Definition narrow (l : EffectiveLimits) (ml : MLimits) : EffectiveLimits :=
  {| el_MemoryMB := Z.min (el_MemoryMB l) (ml_MemoryMB ml); el_TimeoutMs := Z.min (el_TimeoutMs l) (ml_TimeoutMs ml);
     el_OutputKB := Z.min (el_OutputKB l) (ml_OutputKB ml); el_HTTPRequests := el_HTTPRequests l; el_ResponseMB := el_ResponseMB l;
     el_CacheEntries := el_CacheEntries l; el_InputMB := Z.min (el_InputMB l) (ml_InputMB ml); el_JSONDepth := el_JSONDepth l;
     el_JSONNodes := el_JSONNodes l; el_ExprNodes := el_ExprNodes l; el_Iterations := el_Iterations l;
     el_RequestBodyKB := el_RequestBodyKB l; el_HostCalls := el_HostCalls l; el_CacheBytesKB := el_CacheBytesKB l |}.
Definition positive_limits (l : EffectiveLimits) : bool :=
  (1 <=? el_MemoryMB l)%Z && (1 <=? el_TimeoutMs l)%Z && (1 <=? el_OutputKB l)%Z && (1 <=? el_InputMB l)%Z.

(** The pins: manifest and lock name the same manifest, module and version. *)
Definition pinned (m : MManifest) (l : LockEntry) : bool :=
  String.eqb (mm_Runtime m) "wasm" && String.eqb (le_Runtime l) "wasm" && negb (String.eqb (mm_Digest m) "")
  && String.eqb (le_ManifestSHA256 l) (mm_Digest m) && String.eqb (le_ModuleSHA256 l) (mm_ModuleSHA256 m)
  && String.eqb (le_Version l) (mm_Version m).
Definition module_hash (m : MManifest) : option string :=
  match hex_decode (mm_ModuleSHA256 m) with
  | Some h => if Nat.eqb (String.length h) 32 then Some h else None
  | None => None
  end.

Section Runtime.
Context {R : Type}.
Variable Schema Compiled : Type.
Variable sha256 : string -> string.
Variable CompileModule : string -> res string CompiledModule.        (* wazero: decode, nothing is run *)
Variable NewCompiledPlugin : string -> Z -> res string Compiled.     (* Extism: the code and its page limit *)
Variable close_plugin : Compiled -> option string.
Variable OpenRoot : string -> res string (string -> res string module_file).
Variable json_Marshal : any -> res string string.
Variable jsonschema_UnmarshalJSON : string -> res string any.
Variable compile_schema : any -> res string Schema.

Record operation := {
  o_ID : string; o_Name : string; o_DefaultRefresh : string; o_Signals : list SignalDecl; o_schema : option Schema;
  o_defaults : list (string * any) }.

Record instance := {
  in_compiled : Compiled; in_operations : list operation; in_limits : EffectiveLimits;
  in_broker : option R; in_closed : bool }.

(** [Runtime]: instances are shared with its callers, so they live in a store the runtime's own list
    points into. *)
Record runtime := { rt_broker : option R; rt_instances : list nat; rt_closed : bool; rt_store : list instance }.

Definition openRuntime (ctx_Err cache_err : option string) (broker : option R) : res wasm_error runtime :=
  match ctx_Err, cache_err with
  | Some e, _ => Err (EContext e)
  | None, Some e => Err (ECache e)
  | None, None => Ok {| rt_broker := broker; rt_instances := []; rt_closed := false; rt_store := [] |}
  end.
Definition New (ctx_Err cache_err : option string) : res wasm_error runtime := openRuntime ctx_Err cache_err None.
Definition NewWithBroker (ctx_Err cache_err : option string) (broker : option R) : res wasm_error runtime :=
  match broker with None => Err ENoBroker | Some b => openRuntime ctx_Err cache_err (Some b) end.

Definition preflight (code : string) : res wasm_error unit :=
  match CompileModule code with
  | Err e => Err (ECompile e)
  | Ok m =>
      match List.filter import_forbidden (ImportedFunctions m) with
      | [] => if negb (Nat.eqb (ImportedMemories m) 0) then Err EImportedMemory
              else if invoke_ok m then Ok tt else Err EInvokeExport
      | forbidden => Err (EForbiddenImports (sort_strings (map (fun i => i.1 +:+ "." +:+ i.2) forbidden)))
      end
  end.

(** Reading at most one byte more than a module may have. *)
Definition read_module (f : module_file) : res wasm_error string :=
  match f_read f (MaxModuleBytes + 1) with
  | Err e => Err (EFile e)
  | Ok code => if (MaxModuleBytes <? Z.of_nat (String.length code))%Z then Err EModuleSize else Ok code
  end.

Definition open_module (m : MManifest) : res wasm_error module_file :=
  if negb (filepath_IsLocal (mm_Module m)) then Err ENotLocal
  else
    let! root := res_map_err EFile (OpenRoot (filepath_Dir (mm_Path m))) in
    let! f := res_map_err EFile (root (mm_Module m)) in
    match f_regular f with
    | Err e => Err (EFile e)
    | Ok regular => if regular then Ok f else Err ENotRegular
    end.

Definition load_operation (op : OperationDef) : res wasm_error operation :=
  let build schema defaults :=
    {| o_ID := op_ID op; o_Name := op_Name op; o_DefaultRefresh := op_DefaultRefresh op; o_Signals := op_Signals op;
       o_schema := schema; o_defaults := defaults |} in
  match op_Params op with
  | ANil => Ok (build None [])
  | p =>
      let! body := res_map_err EEncode (json_Marshal p) in
      let! doc := res_map_err ESchema (jsonschema_UnmarshalJSON body) in
      let! schema := res_map_err ESchema (compile_schema doc) in
      Ok (build (Some schema) (as_map doc))
  end.

(** Everything [Load] does before the instance is kept. *)
Definition load_instance (broker : option R) (p : Installed) : res wasm_error instance :=
  match ins_Manifest p, ins_Lock p with
  | Some m, Some lock =>
      guard! pinned m lock else EPins;
      match module_hash m with
      | None => Err EModuleHash
      | Some expected =>
          guard! approved_limits_ok (le_EffectiveLimits lock) else EApprovedLimits;
          let l := narrow (le_EffectiveLimits lock) (WithDefaults (mm_Limits m)) in
          guard! positive_limits l else EManifestLimits;
          let! f := open_module m in
          let! code := read_module f in
          guard! String.eqb (sha256 code) expected else EModuleDigest;
          let! ops := res_mapM load_operation (mm_Operations m) in
          let! _ := preflight code in
          let! compiled := res_map_err ECompile (NewCompiledPlugin code (el_MemoryMB l * 16)) in
          Ok {| in_compiled := compiled; in_operations := ops; in_limits := l; in_broker := broker; in_closed := false |}
      end
  | _, _ => Err EPins
  end.

Definition Load (rt : runtime) (p : Installed) : runtime * res wasm_error nat :=
  if rt_closed rt then (rt, Err ERuntimeClosed)
  else match load_instance (rt_broker rt) p with
       | Err e => (rt, Err e)
       | Ok i =>
           let n := length (rt_store rt) in
           ({| rt_broker := rt_broker rt; rt_instances := rt_instances rt ++ [n]; rt_closed := false; rt_store := rt_store rt ++ [i] |}, Ok n)
       end.

(** [instance.Close] on a store of instances, with the error of closing the module. *)
Definition close_instance (store : list instance) (n : nat) : list instance * option string :=
  match store !! n with
  | None => (store, None)
  | Some i =>
      if in_closed i then (store, None)
      else (<[n := {| in_compiled := in_compiled i; in_operations := in_operations i; in_limits := in_limits i;
                      in_broker := in_broker i; in_closed := true |}]> store, close_plugin (in_compiled i))
  end.

(** [Runtime.Close]: the errors joined. *)
Definition Close (cache_Close : option string) (rt : runtime) : runtime * list string :=
  if rt_closed rt then (rt, [])
  else
    let '(store, errs) := foldl (fun s n => let '(store, e) := close_instance s.1 n in (store, s.2 ++ option_list e))
                            (rt_store rt, []) (rt_instances rt) in
    ({| rt_broker := rt_broker rt; rt_instances := []; rt_closed := true; rt_store := store |}, errs ++ option_list cache_Close).

(** [Operations] *)
Definition Operations (i : instance) : list (string * string * string * list SignalDecl) :=
  map (fun o => (o_ID o, o_Name o, o_DefaultRefresh o, o_Signals o)) (in_operations i).
End Runtime.

(** ** runtime.go: invoking *)

Record InvokeRequest := { iv_Operation : string; iv_Params : string; iv_Grant : Grant }.

Definition signalType (v : Scalar) (want : string) : bool :=
  if String.eqb want "string" then match v with SString _ => true | _ => false end
  else if String.eqb want "boolean" then match v with SBool _ => true | _ => false end
  else if String.eqb want "number" then match v with SNumber _ => true | _ => false end
  else false.

Definition declared (signals : list SignalDecl) : gmap string string :=
  foldl (fun m s => <[sd_Name s := sd_Type s]> m) ∅ signals.

Section Defaults.
Variable json_Marshal : any -> res string string.
Variable json_Decode : string -> res string any.       (* with UseNumber *)

(** A default is copied through its JSON. *)
Definition copy_value (d : any) : any :=
  let raw := match json_Marshal d with Ok raw => raw | Err _ => "" end in
  match json_Decode raw with Ok v => v | Err _ => ANil end.

(** [applyDefaults]: each property in turn, absent ones from their default, into objects. *)
Fixpoint applyDefaults (schema : any) (params : list (string * any)) : list (string * any) :=
  match schema with
  | AMap s =>
      (fix find (s : list (string * any)) : list (string * any) :=
         match s with
         | [] => params
         | (k, p) :: s =>
             if String.eqb k "properties" then
               match p with
               | AMap props =>
                   (fix each (props : list (string * any)) (params : list (string * any)) : list (string * any) :=
                      match props with
                      | [] => params
                      | (name, rule) :: props =>
                          let params :=
                            match assoc name params, assoc "default" (as_map rule) with
                            | None, Some d => assign_key name (copy_value d) params
                            | _, _ => params
                            end in
                          each props
                            match assoc name params with
                            | Some (AMap child) => assign_key name (AMap (applyDefaults rule child)) params
                            | _ => params
                            end
                      end) props params
               | _ => params
               end
             else find s
         end) s
  | _ => params
  end.
End Defaults.

Section Invoke.
Context {R : Type} `{RegistryOps R}.
Variable Schema Compiled : Type.
Variable ParseMediaType : string -> option (string * gmap string string).
Variable FormatMediaType : string -> gmap string string -> string.
Variable error_text : cap_error -> string.
Variable hmac : string -> string -> string.
Variable marshal : Payload -> string.
Variable svc : Service.
Variable fallback : string.
Variable envs : nat -> env.
Variable clock : nat -> Time.
Variable json_Valid : string -> bool.
Variable decode_http : string -> res string (httpRequest * bool).
Variable decode_cache_put : string -> res string (cachePutRequest * bool).
Variable decode_asset_ref : string -> res string (assetRefRequest * bool).
Variable decode_log : string -> res string (logRequest * bool).
Variable marshal_result : hostResult -> res string string.
Variable host_error_text : host_error -> string.
Variable is_deadline is_cancelled : host_error -> bool.
Variable json_Marshal : any -> res string string.
Variable json_Decode : string -> res string any.
Variable decode_params : string -> res string (option (list (string * any))).   (* [None] is null *)
Variable validate_params : Schema -> any -> option string.
Variable marshal_input : string -> list (string * any) -> Time -> res string string.
(** Extism: a fresh guest of a module, called by an export's name on an input. *)
Variable Instance : Compiled -> res string (string -> string -> guest).
Variable Json : Type.
Variable decode_generic : string -> option Json.
Variable schema_problems : Json -> list string.
Variable unmarshal : string -> res string Document.
Variable range : list (string * Signal) -> list (string * Signal).    (* the order a map is ranged in *)

Definition run_linked : option (R * Grant) -> Z -> guest -> string -> world -> world * res run_error (Z * string) :=
  run_guest ParseMediaType FormatMediaType error_text hmac marshal svc fallback envs clock json_Valid decode_http decode_cache_put
    decode_asset_ref decode_log marshal_result host_error_text is_deadline is_cancelled.

Definition params_object (raw : string) : res wasm_error (list (string * any)) :=
  if String.eqb raw "" then Ok []
  else if negb (json_Valid raw) then Err (EParams "invalid")
  else match decode_params raw with
       | Err e => Err (EParams e)
       | Ok None => Err EParamsObject
       | Ok (Some p) => Ok p
       end.

Definition input_limit (l : EffectiveLimits) : Z := Z.shiftl (el_InputMB l) 20.
Definition output_limit (l : EffectiveLimits) : Z := Z.shiftl (el_OutputKB l) 10.

(** The input of the guest: the operation, its validated parameters and the time. *)
Definition guest_input (l : EffectiveLimits) (op : operation Schema) (raw : string) (now : Time) : res wasm_error string :=
  guard! (Z.of_nat (String.length raw) <=? input_limit l)%Z else EInputSize;
  let! p := params_object raw in
  let p := applyDefaults json_Marshal json_Decode (AMap (o_defaults _ op)) p in
  match (s ← o_schema _ op; validate_params s (AMap p)) with
  | Some e => Err (EParams e)
  | None =>
      let! input := res_map_err EEncode (marshal_input (o_ID _ op) p now) in
      guard! (Z.of_nat (String.length input) <=? input_limit l)%Z else EInputSize;
      Ok input
  end.

(** What becomes of a guest's output. *)
Definition document_of (l : EffectiveLimits) (op : operation Schema) (status : Z) (output : string) (ctx_after : option string)
  : res wasm_error Document :=
  if negb (status =? 0)%Z then Err (EStatus status)
  else match ctx_after with
       | Some e => Err (EContext e)
       | None =>
           let! doc := res_map_err EDocument (ValidateWithLimit Json decode_generic schema_problems unmarshal output (output_limit l)) in
           match List.find (fun p => negb (signalType (sig_Value p.2) (default "" (declared (o_Signals _ op) !! p.1))))
                   (range (map_to_list (doc_Signals doc))) with
           | Some (name, _) => Err (ESignal name)
           | None => Ok doc
           end
       end.

Definition find_op (i : instance (R := R) Schema Compiled) (id : string) : option (operation Schema) :=
  snd <$> list_find (fun o => o_ID _ o = id) (in_operations _ _ i).

Definition Invoke (i : instance (R := R) Schema Compiled) (req : InvokeRequest) (ctx_before ctx_after : option string) (now : Time)
  (w : world) : world * res wasm_error Document :=
  if in_closed _ _ i then (w, Err EInstanceClosed)
  else match ctx_before with
       | Some e => (w, Err (EContext e))
       | None =>
           match find_op i (iv_Operation req) with
           | None => (w, Err (EOperation (iv_Operation req)))
           | Some op =>
               match guest_input (in_limits _ _ i) op (iv_Params req) now with
               | Err e => (w, Err e)
               | Ok input =>
                   match Instance (in_compiled _ _ i) with
                   | Err e => (w, Err (EInstantiate e))
                   | Ok call =>
                       let '(w, r) := run_linked ((fun b => (b, iv_Grant req)) <$> in_broker _ _ i)
                                        (output_limit (in_limits _ _ i)) (call "invoke" input) "" w in
                       (w, match r with
                           | Err e => Err (ERun e)
                           | Ok (status, output) => document_of (in_limits _ _ i) op status output ctx_after
                           end)
                   end
               end
           end
       end.

(** ** validate.go *)

Definition validation_input : string :=
  quoted "{'operation':'__veduta_validate__','params':{},'now':'2000-01-01T00:00:00Z'}".

(** [ValidateFile]: no broker is linked in. *)
Definition ValidateFile (CompileModule : string -> res string CompiledModule) (NewCompiledPlugin : string -> Z -> res string Compiled)
  (open_file : string -> res string module_file) (path : string) (w : world) : world * res wasm_error unit :=
  match (let! f := res_map_err EFile (open_file path) in
         let! code := read_module f in
         let! _ := preflight CompileModule code in
         let! compiled := res_map_err ECompile (NewCompiledPlugin code (64 * 16)%Z) in
         res_map_err EInstantiate (Instance compiled)) with
  | Err e => (w, Err e)
  | Ok call =>
      let '(w, r) := run_linked None (Z.shiftl 64 10) (call "invoke" validation_input) "" w in
      (w, match r with
          | Err e => Err (ERun e)
          | Ok (status, output) =>
              if (status =? 0)%Z
              then let! _ := res_map_err EDocument (ValidateWithLimit Json decode_generic schema_problems unmarshal output (Z.shiftl 64 10)) in Ok tt
              else Ok tt
          end)
  end.
End Invoke.

(** ** What a guest can do *)

Section Confined.
Context {R : Type} `{RegistryLaws R}.
Variable ParseMediaType : string -> option (string * gmap string string).
Variable FormatMediaType : string -> gmap string string -> string.
Variable error_text : cap_error -> string.
Variable hmac : string -> string -> string.
Variable marshal : Payload -> string.
Variable svc : Service.
Variable fallback : string.

(** A request on the wire that the grant stands for: to the connection of a slot, and authorised as it is sent. *)
Definition wire_ok (r : R) (g : Grant) (w : wire_request) : Prop :=
  exists hr id base first, Authorize ParseMediaType FormatMediaType g hr UseData = None /\ Slots g !! hq_Slot hr = Some id
    /\ rg_base r id = Some base /\ as_authorised base (rg_owned r id) first hr w.

Definition broker_run (r : R) (g : Grant) : bstate -> list call -> bstate :=
  foldl (run_call ParseMediaType FormatMediaType error_text hmac marshal None svc fallback r g).

(** What happened between two worlds is a sequence of broker calls under the grant, and requests it
    allows; without a broker, nothing. *)
Definition confined (inv : option (R * Grant)) (w w' : world) : Prop :=
  match inv with
  | None => w_broker w' = w_broker w /\ w_wire w' = w_wire w
  | Some (r, g) =>
      (exists cs, w_broker w' = broker_run r g (w_broker w) cs /\ Forall (fun c => forall ev, c <> CEmit ev) cs)
      /\ exists tr, w_wire w' = w_wire w ++ tr /\ Forall (wire_ok r g) tr
  end.

Lemma confined_same inv w w' : w_broker w' = w_broker w -> w_wire w' = w_wire w -> confined inv w w'.
Proof.
  intros Eb Ew. destruct inv as [[r g]|]; [|done]. split; [by exists []|]. exists []. by rewrite app_nil_r.
Qed.
Lemma confined_refl inv w : confined inv w w.
Proof. by apply confined_same. Qed.

Lemma confined_trans inv w1 w2 w3 : confined inv w1 w2 -> confined inv w2 w3 -> confined inv w1 w3.
Proof.
  destruct inv as [[r g]|]; simpl; [|by intros [-> ->] [-> ->]].
  intros [(cs & E & F) (tr & Et & Ft)] [(cs' & E' & F') (tr' & Et' & Ft')]. split.
  - exists (cs ++ cs'). unfold broker_run in *. rewrite foldl_app, <- E. split; [done|by apply Forall_app].
  - exists (tr ++ tr'). rewrite Et', Et, app_assoc. split; [done|by apply Forall_app].
Qed.

(** One broker call without traffic. *)
Lemma confined_call r g w w' (c : call) :
  (forall ev, c <> CEmit ev) -> w_wire w' = w_wire w ->
  w_broker w' = run_call ParseMediaType FormatMediaType error_text hmac marshal None svc fallback r g (w_broker w) c ->
  confined (Some (r, g)) w w'.
Proof.
  intros Hc Ew Eb. split.
  - exists [c]. split; [exact Eb|]. constructor; [exact Hc|constructor].
  - exists []. by rewrite app_nil_r.
Qed.

(** A call leaves the cache entries of other namespaces alone. *)
Lemma run_call_cache r g s c key :
  (forall k, key <> cacheNamespace g +:+ ":" +:+ k) ->
  bs_cache (run_call ParseMediaType FormatMediaType error_text hmac marshal None svc fallback r g s c) !! key = bs_cache s !! key.
Proof.
  intros Hk. destruct c; simpl.
  - unfold HTTP_call. destruct (authorize_fields error_text s g "HTTP" (http_check ParseMediaType FormatMediaType g req)) as (_ & _ & _ & Ec & _).
    destruct (authorize _ _ _ _ _) as [s1 [id|e0]]; simpl in *; [|by rewrite Ec].
    destruct (rg_Get r id ≫= c_HTTP); simpl; [|by rewrite Ec].
    destruct (rg_Do _ _ _ _) as [tr [rs|[]]]; simpl; by rewrite Ec.
  - unfold CacheGet. destruct (authorize_fields error_text s g "CacheGet" (cap_check g "cache" id)) as (_ & _ & _ & Ec & _).
    destruct (authorize _ _ _ _ _) as [s1 [u|e0]]; simpl in *; [|by rewrite Ec].
    unfold cache_Get. destruct (bs_cache s1 !! _) as [[v x]|]; simpl; [|by rewrite Ec].
    destruct (negb (isZero x) && before x now); simpl; [|by rewrite Ec].
    rewrite lookup_delete_ne, Ec; [done|]. intros E. by apply (Hk k).
  - unfold CachePut. destruct (authorize_fields error_text s g "CachePut" (cap_check g "cache" (then_spend (fun b => consumeCacheWrite (g_Limits g) b (Z.of_nat (String.length val)))))) as (_ & _ & _ & Ec & _).
    destruct (authorize _ _ _ _ _) as [s1 [u|e0]]; simpl in *; [|by rewrite Ec].
    unfold cache_Put. rewrite lookup_insert_ne, Ec; [done|]. intros E. by apply (Hk k).
  - unfold Log. destruct (authorize_fields error_text s g "Log" (cap_check g "log" id)) as (_ & _ & _ & Ec & _).
    destruct (authorize _ _ _ _ _) as [s1 [u|e0]]; simpl in *; by rewrite Ec.
  - unfold Emit. destruct (authorize_fields error_text s g "Emit" (cap_check g "events" id)) as (_ & _ & _ & Ec & _).
    destruct (authorize _ _ _ _ _) as [s1 [u|e0]]; simpl in *; [|by rewrite Ec]. by destruct (String.eqb _ _); simpl; rewrite Ec.
  - unfold AssetRef. destruct (authorize_fields error_text s g "AssetRef" (asset_check ParseMediaType FormatMediaType g slot path query)) as (_ & _ & _ & Ec & _).
    destruct (authorize _ _ _ _ _) as [s1 [u|e0]]; simpl in *; [|by rewrite Ec].
    destruct (Canonicalise path); simpl; [|by rewrite Ec]. by destruct (negb _); simpl; rewrite Ec.
Qed.

Variable envs : nat -> env.
Variable clock : nat -> Time.
Variable json_Valid : string -> bool.
Variable decode_http : string -> res string (httpRequest * bool).
Variable decode_cache_put : string -> res string (cachePutRequest * bool).
Variable decode_asset_ref : string -> res string (assetRefRequest * bool).
Variable decode_log : string -> res string (logRequest * bool).
Variable marshal_result : hostResult -> res string string.
Variable host_error_text : host_error -> string.
Variable is_deadline is_cancelled : host_error -> bool.

Local Abbreviation functions := (hostFunctions ParseMediaType FormatMediaType error_text hmac marshal svc fallback envs clock json_Valid
  decode_http decode_cache_put decode_asset_ref decode_log).
Local Abbreviation answer_of call inv w m ptr := (host_call marshal_result host_error_text is_deadline is_cancelled call inv w m ptr).
Local Abbreviation run := (run_guest ParseMediaType FormatMediaType error_text hmac marshal svc fallback envs clock json_Valid
  decode_http decode_cache_put decode_asset_ref decode_log marshal_result host_error_text is_deadline is_cancelled).

Lemma hostHTTP_confined r g w input :
  confined (Some (r, g)) w
    (hostHTTP ParseMediaType FormatMediaType error_text envs json_Valid decode_http r g w input).1.1.
Proof.
  unfold hostHTTP. destruct (decodeHostRequest _ _) as [q|e]; [|apply confined_refl].
  set (hq := {| hq_Slot := _ |}).
  assert (Hw := HTTP_call_wire ParseMediaType FormatMediaType error_text (envs (w_calls w)) r (w_broker w) g hq).
  destruct (HTTP_call _ _ _ _ _ _ _ _) as [[b tr] resp] eqn:E.
  assert (Hc : confined (Some (r, g)) w {| w_broker := b; w_wire := w_wire w ++ tr; w_calls := w_calls w |}).
  { split.
    - exists [CHTTP (envs (w_calls w)) hq]. cbn. rewrite E. split; [done|]. by constructor.
    - exists tr. split; [done|]. apply Forall_forall. intros x (i & Hi)%list_elem_of_lookup.
      destruct (Hw i x Hi) as (hr & id & base & Ha & Hs & Hid & Hb & _ & Hx). exists hr, id, base, (Nat.eqb i 0). by rewrite Hs. }
  by destruct resp.
Qed.

(** Every host function is confined to the grant it is called with. *)
Lemma functions_confined name call r g w input :
  assoc name functions = Some call -> confined (Some (r, g)) w (call r g w input).1.1.
Proof.
  intros Hin%assoc_Some. unfold hostFunctions in Hin.
  repeat (apply elem_of_cons in Hin as [[= _ ->]|Hin]); [apply hostHTTP_confined|..|by apply elem_of_nil in Hin].
  - unfold hostCacheGet. destruct (String.eqb _ _); [apply confined_refl|].
    destruct (CacheGet _ _ _ _ _) as [b v] eqn:E.
    assert (Hc : confined (Some (r, g)) w (keep_broker w b)).
    { apply (confined_call r g w _ (CCacheGet (clock (w_calls w)) input)); [done|done|]. cbn. by rewrite E. }
    destruct v as [[v|]|e]; [destruct (json_Valid v)|..]; exact Hc.
  - unfold hostCachePut. destruct (decodeHostRequest _ _) as [q|e]; [|apply confined_refl].
    destruct (negb _); [apply confined_refl|]. destruct (_ <? 0)%Z; [apply confined_refl|].
    destruct (CachePut _ _ _ _ _ _ _) as [b v] eqn:E.
    apply (confined_call r g w _ (CCachePut (clock (w_calls w)) (cp_Key q) (cp_Value q) (ttl_of (cp_TTLSeconds q)))); [done|done|].
    cbn. by rewrite E.
  - unfold hostAssetRef. destruct (decodeHostRequest _ _) as [q|e]; [|apply confined_refl].
    destruct (AssetRef _ _ _ _ _ _ _ _ _ _ _ _ _ _) as [b v] eqn:E.
    assert (Hc : confined (Some (r, g)) w (keep_broker w b)).
    { apply (confined_call r g w _ (CAssetRef (clock (w_calls w)) (ar_Slot q) (ar_Path q) ((fun v => [v]) <$> ar_Query q)
               {| tf_Width := ar_Width q; tf_Format := ar_Format q |})); [done|done|]. cbn. by rewrite E. }
    destruct v as [[p t]|e]; exact Hc.
  - unfold hostLog. destruct (decodeHostRequest _ _) as [q|e]; [|apply confined_refl].
    destruct (negb _); [apply confined_refl|]. destruct (Log _ _ _ _ _ _) as [b v] eqn:E.
    apply (confined_call r g w _ (CLog (lg_Level q) (lg_Msg q) (lg_Fields q))); [done|done|]. cbn. by rewrite E.
Qed.

Lemma host_call_confined name call inv w m ptr :
  assoc name functions = Some call -> confined inv w (answer_of call inv w m ptr).1.
Proof.
  intros Hf. unfold host_call. destruct (readHostInput m ptr) as [input|e]; [|by apply confined_same].
  destruct inv as [[r g]|]; [|by apply confined_same].
  assert (Hc := functions_confined name call r g w input Hf). by destruct (call r g w input) as [[w1 v] e].
Qed.

Lemma run_guest_confined inv limit t output w : confined inv w (run inv limit t output w).1.
Proof.
  revert output w. induction t as [name m ptr k IH|len out k IH|status|e]; intros output w; simpl; try apply confined_refl.
  - destruct (assoc name functions) as [call|] eqn:Ef; [|apply confined_refl].
    assert (Hc := host_call_confined name call inv w m ptr Ef).
    destruct (answer_of call inv w m ptr) as [w1 [offset body]]. eapply confined_trans; [exact Hc|apply IH].
  - destruct (output_over limit len); [apply confined_refl|apply IH].
Qed.

(** The accounting and the cache after confined steps. *)
Lemma confined_accounted r g w w' :
  confined (Some (r, g)) w w' -> accounted (g_Limits g) (w_broker w) -> accounted (g_Limits g) (w_broker w').
Proof.
  intros [(cs & -> & _) _] Ha. by apply (run_calls_accounted ParseMediaType FormatMediaType error_text hmac marshal None svc fallback r g).
Qed.

Lemma confined_cache r g w w' key :
  confined (Some (r, g)) w w' -> (forall k, key <> cacheNamespace g +:+ ":" +:+ k) ->
  bs_cache (w_broker w') !! key = bs_cache (w_broker w) !! key.
Proof.
  intros [(cs & -> & _) _] Hk. generalize (w_broker w) as s. induction cs as [|c cs IH]; intros s; [done|].
  etrans; [apply IH|by apply run_call_cache].
Qed.
End Confined.

(** ** What a loaded module is *)

Definition linkable (m : CompiledModule) : Prop :=
  Forall (fun i => i.1 = hostNamespace /\ hostFunctionNames i.2 = true \/ i.1 = "extism:host/env" /\ allowed i.2 = true) (ImportedFunctions m)
  /\ ImportedMemories m = 0 /\ ExportedFunctions m !! "invoke" = Some ([], [ValueTypeI32]).

(** The limits of an instance: positive, and within those the manifest asks for and those approved. *)
Definition limit_within (get : EffectiveLimits -> Z) (ask : MLimits -> Z) (m : MManifest) (l : LockEntry) (e : EffectiveLimits) : Prop :=
  (1 <= get e /\ get e <= get (le_EffectiveLimits l) /\ get e <= ask (WithDefaults (mm_Limits m)))%Z.
Definition limits_within (m : MManifest) (l : LockEntry) (e : EffectiveLimits) : Prop :=
  limit_within el_MemoryMB ml_MemoryMB m l e /\ limit_within el_TimeoutMs ml_TimeoutMs m l e
  /\ limit_within el_OutputKB ml_OutputKB m l e /\ limit_within el_InputMB ml_InputMB m l e
  /\ (el_MemoryMB e <= 256 /\ el_TimeoutMs e <= 30000 /\ el_OutputKB e <= 256 /\ el_InputMB e <= 16)%Z.

Section Loaded.
Context {R : Type}.
Variable Schema Compiled : Type.
Variable sha256 : string -> string.
Variable CompileModule : string -> res string CompiledModule.
Variable NewCompiledPlugin : string -> Z -> res string Compiled.
Variable OpenRoot : string -> res string (string -> res string module_file).
Variable json_Marshal : any -> res string string.
Variable jsonschema_UnmarshalJSON : string -> res string any.
Variable compile_schema : any -> res string Schema.

(** The instance is the module both the manifest and the lock pin, read from a regular file of the
    manifest's own directory. *)
Record approved_module (m : MManifest) (l : LockEntry) (i : instance (R := R) Schema Compiled) (code : string) : Prop := {
  am_runtime : mm_Runtime m = "wasm" /\ le_Runtime l = "wasm";
  am_manifest : mm_Digest m <> "" /\ le_ManifestSHA256 l = mm_Digest m /\ le_Version l = mm_Version m;
  am_module : le_ModuleSHA256 l = mm_ModuleSHA256 m /\ hex_decode (le_ModuleSHA256 l) = Some (sha256 code)
    /\ (Z.of_nat (String.length code) <= MaxModuleBytes)%Z;
  am_file : filepath_IsLocal (mm_Module m) = true
    /\ exists root f, OpenRoot (filepath_Dir (mm_Path m)) = Ok root /\ root (mm_Module m) = Ok f /\ f_regular f = Ok true
       /\ f_read f (MaxModuleBytes + 1) = Ok code;
  am_links : exists cm, CompileModule code = Ok cm /\ linkable cm;
  am_limits : limits_within m l (in_limits _ _ i);
  am_compiled : NewCompiledPlugin code (el_MemoryMB (in_limits _ _ i) * 16)%Z = Ok (in_compiled _ _ i);
  am_operations : map (o_ID Schema) (in_operations _ _ i) = map op_ID (mm_Operations m)
    /\ map (o_Signals Schema) (in_operations _ _ i) = map op_Signals (mm_Operations m) }.

Lemma preflight_Ok code u : preflight CompileModule code = Ok u -> exists cm, CompileModule code = Ok cm /\ linkable cm.
Proof.
  unfold preflight. destruct (CompileModule code) as [cm|]; [|done]. destruct (List.filter _ _) eqn:Ef; [|done].
  destruct (Nat.eqb_spec (ImportedMemories cm) 0) as [Em|]; [|done]. cbn [negb].
  unfold invoke_ok. destruct (bool_decide_reflect (ExportedFunctions cm !! "invoke" = Some ([], [ValueTypeI32]))) as [Ei|]; [|done].
  intros _. exists cm. split; [done|]. split; [|done]. apply Forall_forall. intros x Hx.
  assert (Hn : import_forbidden x = false).
  { destruct (import_forbidden x) eqn:E; [|done]. exfalso.
    assert (In x (List.filter import_forbidden (ImportedFunctions cm))) by (apply filter_In; by rewrite <- list_elem_of_In).
    by rewrite Ef in *. }
  unfold import_forbidden in Hn. destruct (String.eqb_spec x.1 hostNamespace), (hostFunctionNames x.2); try by left.
  all: right; apply orb_false_iff in Hn as [H1%negb_false_iff H2%negb_false_iff]; by apply String.eqb_eq in H1.
Qed.

Lemma read_module_Ok f code : read_module f = Ok code ->
  f_read f (MaxModuleBytes + 1) = Ok code /\ (Z.of_nat (String.length code) <= MaxModuleBytes)%Z.
Proof.
  unfold read_module. destruct (f_read f _) as [c|]; [|done].
  destruct (Z.ltb_spec MaxModuleBytes (Z.of_nat (String.length c))); [done|]. by intros [= <-].
Qed.

Lemma open_module_Ok m f : open_module OpenRoot m = Ok f ->
  filepath_IsLocal (mm_Module m) = true
  /\ exists root, OpenRoot (filepath_Dir (mm_Path m)) = Ok root /\ root (mm_Module m) = Ok f /\ f_regular f = Ok true.
Proof.
  unfold open_module. destruct (filepath_IsLocal _); [|done]. cbn [negb].
  destruct (OpenRoot _) as [root|]; [|done]. cbn [res_map_err res_bind]. destruct (root _) as [f'|] eqn:Er; [|done]. cbn [res_map_err res_bind].
  destruct (f_regular f') as [[|]|] eqn:Ef; try done. intros [= <-]. split; [done|]. by exists root.
Qed.

Lemma narrow_within m l :
  approved_limits_ok (le_EffectiveLimits l) = true ->
  positive_limits (narrow (le_EffectiveLimits l) (WithDefaults (mm_Limits m))) = true ->
  limits_within m l (narrow (le_EffectiveLimits l) (WithDefaults (mm_Limits m))).
Proof.
  unfold approved_limits_ok, positive_limits, in_range, limits_within, limit_within.
  generalize (WithDefaults (mm_Limits m)) as d. intros d. rewrite !andb_true_iff, !Z.leb_le. cbn. lia.
Qed.

Lemma load_operations_ids ops out : res_mapM (load_operation Schema json_Marshal jsonschema_UnmarshalJSON compile_schema) ops = Ok out ->
  map (o_ID Schema) out = map op_ID ops /\ map (o_Signals Schema) out = map op_Signals ops.
Proof.
  revert out. induction ops as [|op ops IH]; simpl; [by intros out [= <-]|]. intros out.
  intros (o & Ho & (os & Hos & [= <-])%res_bind_Ok)%res_bind_Ok. destruct (IH os Hos) as [E1 E2]. simpl. rewrite E1, E2.
  unfold load_operation in Ho. destruct (op_Params op); try by injection Ho as <-.
  all: apply res_bind_Ok in Ho as (body & _ & Ho); apply res_bind_Ok in Ho as (doc & _ & Ho); apply res_bind_Ok in Ho as (schema & _ & Ho); by injection Ho as <-.
Qed.

Lemma load_instance_Ok broker p i :
  load_instance Schema Compiled sha256 CompileModule NewCompiledPlugin OpenRoot json_Marshal jsonschema_UnmarshalJSON compile_schema broker p = Ok i ->
  exists m l code, ins_Manifest p = Some m /\ ins_Lock p = Some l /\ approved_module m l i code
    /\ in_broker _ _ i = broker /\ in_closed _ _ i = false.
Proof.
  unfold load_instance. destruct (ins_Manifest p) as [m|]; [|done]. destruct (ins_Lock p) as [l|]; [|done].
  intros [Hpin Hl]%guard_Ok. destruct (module_hash m) as [expected|] eqn:Eh; [|done].
  apply guard_Ok in Hl as [Hr Hl]. apply guard_Ok in Hl as [Hpos Hl].
  apply res_bind_Ok in Hl as (f & (Hloc & root & Ho & Hf & Hreg)%open_module_Ok & Hl).
  apply res_bind_Ok in Hl as (code & [Hc Hsize]%read_module_Ok & Hl). apply guard_Ok in Hl as [Hd%String.eqb_eq Hl].
  apply res_bind_Ok in Hl as (ops & Hops & Hl). apply res_bind_Ok in Hl as (u & Hp%preflight_Ok & Hl).
  apply res_bind_Ok in Hl as (c & Hcomp & [= <-]). exists m, l, code.
  unfold pinned in Hpin. rewrite !andb_true_iff, negb_true_iff, !String.eqb_eq, String.eqb_neq in Hpin.
  destruct Hpin as (((((P1 & P2) & P3) & P4) & P5) & P6). unfold module_hash in Eh.
  destruct (hex_decode (mm_ModuleSHA256 m)) as [h|] eqn:Ex; [|done]. destruct (Nat.eqb _ _); [|done]. injection Eh as <-.
  split_and!; try done. split; cbn; try done.
  - split_and!; [done| |done]. by rewrite P5, Ex, Hd.
  - split; [done|]. by exists root, f.
  - by apply narrow_within.
  - revert Hcomp. cbn. destruct (NewCompiledPlugin _ _); [by intros [= ->]|done].
  - by apply load_operations_ids.
Qed.
End Loaded.

Lemma signalType_declared v ty : signalType v ty = true -> ty <> "".
Proof. by intros H ->. Qed.

Lemma declared_Some signals name ty : declared signals !! name = Some ty -> exists d, d ∈ signals /\ sd_Name d = name /\ sd_Type d = ty.
Proof.
  unfold declared. induction signals as [|d l IH] using rev_ind; [cbn; by rewrite lookup_empty|]. rewrite foldl_app. cbn.
  destruct (decide (sd_Name d = name)) as [E|Hne].
  - rewrite E, lookup_insert_eq. intros [= <-]. exists d. split; [apply elem_of_app; right; by left|done].
  - rewrite lookup_insert_ne by done. intros (d' & Hd & H)%IH. exists d'. split; [by apply elem_of_app; left|done].
Qed.

Lemma close_instance_closed {R} Schema Compiled close_plugin (store : list (instance (R := R) Schema Compiled)) n i :
  (close_instance Schema Compiled close_plugin store n).1 !! n = Some i -> in_closed _ _ i = true.
Proof.
  unfold close_instance. destruct (store !! n) as [x|] eqn:Ek; [|simpl; by rewrite Ek].
  destruct (in_closed _ _ x) eqn:Ex; simpl; [rewrite Ek; by intros [= <-]|].
  rewrite list_lookup_insert_eq by (by eapply lookup_lt_Some). by intros [= <-].
Qed.

(** Closing a runtime closes every instance loaded through it. *)
Lemma Close_all {R} Schema Compiled close_plugin cache_Close (rt : runtime (R := R) Schema Compiled) n i :
  rt_closed _ _ rt = false -> n ∈ rt_instances _ _ rt -> rt_store _ _ (Close Schema Compiled close_plugin cache_Close rt).1 !! n = Some i ->
  in_closed _ _ i = true.
Proof.
  intros Hc Hn. unfold Close. rewrite Hc.
  set (step := fun (s : list (instance Schema Compiled) * list string) n => _).
  assert (Hkeep : forall ns s, (forall i, s.1 !! n = Some i -> in_closed _ _ i = true) ->
    forall i, (foldl step s ns).1 !! n = Some i -> in_closed _ _ i = true).
  { induction ns as [|k ns IH]; intros s Hs; [exact Hs|]. apply IH. unfold step, close_instance.
    destruct (s.1 !! k) as [x|] eqn:Ek; [|exact Hs]. destruct (in_closed _ _ x); [exact Hs|]. intros y. cbn.
    rewrite list_lookup_insert. case_decide as Hd; [by intros [= <-]|apply Hs]. }
  assert (Hall : forall ns s, n ∈ ns -> forall i, (foldl step s ns).1 !! n = Some i -> in_closed _ _ i = true).
  { induction ns as [|k ns IH]; intros s Hin; [by apply elem_of_nil in Hin|]. apply elem_of_cons in Hin as [<-|Hin]; [|by apply IH].
    apply (Hkeep ns (step s n)). assert (Hstep := close_instance_closed Schema Compiled close_plugin s.1 n). unfold step.
    destruct (close_instance Schema Compiled close_plugin s.1 n) as [st e]. exact Hstep. }
  specialize (Hall (rt_instances _ _ rt) (rt_store _ _ rt, []) Hn).
  destruct (foldl step (rt_store _ _ rt, []) (rt_instances _ _ rt)) as [store errs]. exact (Hall i).
Qed.

Lemma document_of_Ok Schema Json dg sp um range (Hrange : forall l, range l ≡ₚ l) l (op : operation Schema) status output after doc :
  document_of Schema Json dg sp um range l op status output after = Ok doc ->
  status = 0%Z /\ doc_ok doc /\ forall name s, doc_Signals doc !! name = Some s ->
    exists d, d ∈ o_Signals _ op /\ sd_Name d = name /\ signalType (sig_Value s) (sd_Type d) = true.
Proof.
  unfold document_of. destruct (Z.eqb_spec status 0) as [->|]; [|done]. cbn [negb]. destruct after; [done|].
  intros (d & Hv & Hs)%res_bind_Ok. destruct (ValidateWithLimit _ _ _ _ _ _) as [d'|] eqn:Ev; [|done]. injection Hv as ->.
  destruct (List.find _ _) as [[]|] eqn:Ef; [done|]. injection Hs as <-. apply ValidateWithLimit_Ok in Ev as (_ & _ & _ & Hok).
  split; [done|]. split; [done|]. intros name s Hn%elem_of_map_to_list. rewrite <- (Hrange (map_to_list _)) in Hn.
  apply list_elem_of_In in Hn. assert (Ht := find_none _ _ Ef _ Hn). apply negb_false_iff in Ht. cbn in Ht.
  destruct (declared (o_Signals Schema op) !! name) as [ty|] eqn:Ed; [|by apply signalType_declared in Ht].
  apply declared_Some in Ed as (d' & Hd & <- & <-). by exists d'.
Qed.

Lemma Invoke_confined {R} `{RegistryLaws R} Schema Compiled PM FM text hmac marshal svc fb envs clock valid dh dp da dl mr het isd isc
  jm jd dparams validate minput Instance_ Json dg sp um range (i : instance (R := R) Schema Compiled) req before after now w w' result :
  (forall l, range l ≡ₚ l) ->
  Invoke Schema Compiled PM FM text hmac marshal svc fb envs clock valid dh dp da dl mr het isd isc jm jd dparams
    validate minput Instance_ Json dg sp um range i req before after now w = (w', result) ->
  confined PM FM text hmac marshal svc fb ((fun b => (b, iv_Grant req)) <$> in_broker _ _ i) w w'
  /\ forall doc, result = Ok doc -> in_closed _ _ i = false /\ doc_ok doc
     /\ exists op, op ∈ in_operations _ _ i /\ o_ID _ op = iv_Operation req
        /\ forall name s, doc_Signals doc !! name = Some s ->
            exists d, d ∈ o_Signals _ op /\ sd_Name d = name /\ signalType (sig_Value s) (sd_Type d) = true.
Proof.
  intros Hrange. unfold Invoke. destruct (in_closed _ _ i); [intros [= <- <-]; split; [apply confined_refl|done]|].
  destruct before; [intros [= <- <-]; split; [apply confined_refl|done]|].
  destruct (find_op _ _ i _) as [op|] eqn:Eo; [|intros [= <- <-]; split; [apply confined_refl|done]].
  destruct (guest_input _ _ _ _ _ _ _ _ _ _ _) as [input|]; [|intros [= <- <-]; split; [apply confined_refl|done]].
  destruct (Instance_ _) as [call|]; [|intros [= <- <-]; split; [apply confined_refl|done]].
  assert (Hr := run_guest_confined PM FM text hmac marshal svc fb envs clock valid dh dp da dl mr het isd isc
    ((fun b => (b, iv_Grant req)) <$> in_broker _ _ i) (output_limit (in_limits _ _ i)) (call "invoke" input) "" w).
  unfold run_linked. destruct (run_guest _ _ _ _ _ _ _ _ _ _ _ _ _ _ _ _ _ _ _ _ _ _ _) as [w1 r]. intros [= <- <-].
  split; [exact Hr|]. intros doc Hd. destruct r as [[status output]|]; [|done].
  apply document_of_Ok in Hd as (_ & Hok & Hsig); [|done]. split_and!; [done..|]. exists op. unfold find_op in Eo.
  destruct (list_find _ _) as [[n o]|] eqn:El; [|done]. injection Eo as ->. apply list_find_Some in El as (Hn & Hid & _).
  split; [by eapply list_elem_of_lookup_2|]. by split.
Qed.

(** ** A module, loaded and run *)

Definition sample_code : string := "module".
Definition sample_sha (s : string) : string := if String.eqb s sample_code then "aaaaaaaaaaaaaaaaaaaaaaaaaaaaaaaa" else "".
Definition sample_pin : string := hex_encode "aaaaaaaaaaaaaaaaaaaaaaaaaaaaaaaa".
Definition sample_compiled (imports : list (string * string)) : CompiledModule :=
  {| ImportedFunctions := imports; ImportedMemories := 0; ExportedFunctions := {["invoke" := ([], [ValueTypeI32])]} |}.
Definition sample_memory : memory :=
  {| mem_length := fun _ => Ok 4%Z; mem_read := fun _ _ => Some "data"; mem_alloc := fun _ => Ok 64%Z; mem_write := fun _ _ => true |}.
(** A guest that makes a request of its own slot, one of another slot, writes its cache and answers. *)
Definition sample_guest (input : string) : guest :=
  GCall "veduta_http" sample_memory 8 (fun p body =>
  GCall "veduta_http" sample_memory 16 (fun _ refused =>
  GCall "veduta_cache_put" sample_memory 8 (fun _ _ => GOutput 2 "{}" (GReturn 0)))).
Definition wasm_op : OperationDef :=
  {| op_ID := "status"; op_Name := ""; op_DefaultRefresh := ""; op_Params := ANil; op_Routes := [];
     op_Signals := [{| sd_Name := "up"; sd_Type := "boolean"; sd_Unit := ""; sd_History := false |}]; op_Pipeline := []; op_Output := None |}.
Definition wasm_manifest : MManifest :=
  {| mm_Path := "/plugins/p/manifest.yaml"; mm_Digest := "sha256:ab"; mm_ID := "p"; mm_Name := ""; mm_Version := "1"; mm_Runtime := "wasm";
     mm_Module := "p.wasm"; mm_ModuleSHA256 := sample_pin; mm_Capabilities := ["http"; "cache"]; mm_Slots := [];
     mm_Limits := Manifest.zero_limits; mm_Operations := [wasm_op] |}.
Definition wasm_lock : LockEntry :=
  {| le_ManifestSHA256 := "sha256:ab"; le_ModuleSHA256 := sample_pin; le_Version := "1"; le_Runtime := "wasm"; le_ApprovedAt := "";
     le_ApprovedBy := ""; le_Capabilities := ["http"; "cache"]; le_Routes := []; le_Limits := None;
     le_EffectiveLimits := narrow {| el_MemoryMB := 32; el_TimeoutMs := 1000; el_OutputKB := 64; el_HTTPRequests := 1; el_ResponseMB := 1;
       el_CacheEntries := 1; el_InputMB := 1; el_JSONDepth := 1; el_JSONNodes := 1; el_ExprNodes := 1; el_Iterations := 1;
       el_RequestBodyKB := 1; el_HostCalls := 3; el_CacheBytesKB := 1 |} (WithDefaults Manifest.zero_limits) |}.
Definition sample_files (dir : string) : res string (string -> res string module_file) :=
  if String.eqb dir "/plugins/p" then Ok (fun name => if String.eqb name "p.wasm" then Ok {| f_regular := Ok true; f_read := fun _ => Ok sample_code |} else Err "no file")
  else Err "no directory".
Definition sample_runtime : runtime (R := registry) unit unit :=
  {| rt_broker := Some sample_broker_registry; rt_instances := []; rt_closed := false; rt_store := [] |}.
Definition sample_load (imports : list (string * string)) (manifest : MManifest) : runtime (R := registry) unit unit * res wasm_error nat :=
  Load unit unit sample_sha (fun _ => Ok (sample_compiled imports)) (fun _ _ => Ok tt) sample_files (fun _ => Ok "") (fun _ => Ok ANil) (fun _ => Ok tt)
    sample_runtime {| ins_Manifest := Some manifest; ins_Lock := Some wasm_lock |}.
Definition sample_imports : list (string * string) := [("extism:host/env", "output_set"); ("extism:host/user", "veduta_http")].

Definition sample_world : world := {| w_broker := sample_bstate; w_wire := []; w_calls := 0 |}.
Definition sample_decode_http (input : string) : res string (httpRequest * bool) :=
  Ok ({| q_Slot := "nas"; q_Method := "GET"; q_Path := "/status"; q_Query := ∅; q_Headers := ∅; q_Body := None |}, true).
Definition wasm_document : Document :=
  {| doc_Title := "P"; doc_Subtitle := ""; doc_Link := ""; doc_Status := None; doc_Blocks := [];
     doc_Signals := {["up" := {| sig_Value := SBool true; sig_Unit := ""; sig_Level := "" |}]}; doc_Notices := []; doc_Hints := None |}.
Definition sample_instance : instance (R := registry) unit unit :=
  {| in_compiled := tt;
     in_operations := [{| o_ID := "status"; o_Name := ""; o_DefaultRefresh := ""; o_Signals := op_Signals wasm_op; o_schema := None; o_defaults := [] |}];
     in_limits := le_EffectiveLimits wasm_lock; in_broker := Some sample_broker_registry; in_closed := false |}.
Definition sample_request : InvokeRequest := {| iv_Operation := "status"; iv_Params := ""; iv_Grant := sample_grant "p" |}.
Definition wasm_env (n : nat) : env := sample_env (with_path sample_base_url "/api/v1/other" ∅).
Definition sample_invoke (run : string -> guest) : world * res wasm_error Document :=
  Invoke unit unit (fun _ => None) (fun _ _ => "") (fun _ => "denied") sample_hmac sample_marshal {| key := "k" |} "fb" wasm_env (fun _ => 1%Z)
    (fun _ => true) sample_decode_http (fun _ => Ok ({| cp_Key := "k"; cp_Value := "1"; cp_TTLSeconds := 60 |}, true)) (fun _ => Err "") (fun _ => Err "")
    (fun _ => Ok "{}") (fun _ => "") (fun _ => false) (fun _ => false) (fun _ => Ok "") (fun _ => Ok ANil) (fun _ => Ok None) (fun _ _ => None)
    (fun _ _ _ => Ok "{}") (fun _ => Ok (fun _ => run)) unit (fun _ => Some tt) (fun _ => []) (fun _ => Ok wasm_document) (fun l => l)
    sample_instance sample_request None None 0 sample_world.

Example load_samples :
  is_ok (sample_load sample_imports wasm_manifest).2 = true
  /\ (sample_load (("wasi_snapshot_preview1", "fd_write") :: sample_imports) wasm_manifest).2 = Err (EForbiddenImports ["wasi_snapshot_preview1.fd_write"])
  /\ (sample_load [("extism:host/env", "http_request")] wasm_manifest).2 = Err (EForbiddenImports ["extism:host/env.http_request"]).
Proof. by vm_compute. Qed.

(** The second request is over the budget of one; the document is returned all the same. *)
Example invoke_samples :
  (upstream_calls (w_broker (sample_invoke sample_guest).1), length (w_wire (sample_invoke sample_guest).1)) = (1%Z, 2)
  /\ (sample_invoke sample_guest).2 = Ok wasm_document
  /\ (sample_invoke (fun _ => GOutput (64 * 1024 + 1) "" (GReturn 0))).2 = Err (ERun ROutputLimit)
  /\ (sample_invoke (fun _ => GCall "fd_write" sample_memory 0 (fun _ _ => GReturn 0))).2 = Err (ERun (RNotLinked "fd_write"))
  /\ (sample_invoke (fun _ => GReturn 3)).2 = Err (EStatus 3).
Proof. split_and!; vm_compute; reflexivity. Qed.

(** A cache entry's time to live is multiplied out in 64 bits: 584 years and a second are 290
    milliseconds, and three hundred years are negative, which the cache takes for no expiry. *)
Example ttl_wraps : ttl_of 18446744074 = 290448384%Z /\ (ttl_of (300 * 365 * 86400) < 0)%Z.
Proof. by vm_compute. Qed.

(** ** The properties *)

(** C15. What [Load] keeps is the approved module: manifest and lock name the same manifest digest,
    module digest and version; the code is a regular file of the manifest's own directory, no larger
    than the limit, with the pinned sha256; every import of it is one of the engine's memory functions
    or one of the five host functions, it imports no memory, and it exports [invoke]; its limits are
    within those asked for and those approved. A closed runtime loads nothing, and the instances
    loaded before are as they were. *)
Theorem loaded_module_approved {R} Schema Compiled sha CompileModule NewCompiledPlugin OpenRoot json_Marshal UnmarshalJSON compile_schema
  (rt rt' : runtime (R := R) Schema Compiled) p n :
  Load Schema Compiled sha CompileModule NewCompiledPlugin OpenRoot json_Marshal UnmarshalJSON compile_schema rt p = (rt', Ok n) ->
  rt_closed _ _ rt = false
  /\ (exists m l i code, ins_Manifest p = Some m /\ ins_Lock p = Some l /\ rt_store _ _ rt' = rt_store _ _ rt ++ [i]
      /\ rt_store _ _ rt' !! n = Some i
      /\ approved_module Schema Compiled sha CompileModule NewCompiledPlugin OpenRoot m l i code
      /\ in_broker _ _ i = rt_broker _ _ rt /\ in_closed _ _ i = false).
Proof.
  unfold Load. destruct (rt_closed _ _ rt); [done|]. destruct (load_instance _ _ _ _ _ _ _ _ _ _ _) as [i|] eqn:E; [|done].
  intros [= <- <-]. apply load_instance_Ok in E as (m & l & code & Hm & Hl & Ha & Hb & Hc). split; [done|].
  exists m, l, i, code. split_and!; try done. cbn. by rewrite lookup_app_r, Nat.sub_diag.
Qed.

Example loaded_module_approved_witness :
  exists rt n i, sample_load sample_imports wasm_manifest = (rt, Ok n) /\ rt_store _ _ rt !! n = Some i
    /\ hex_decode sample_pin = Some (sample_sha sample_code) /\ exists m l code, approved_module unit unit sample_sha (fun _ => Ok (sample_compiled sample_imports)) (fun _ _ => Ok tt) sample_files m l i code.
Proof.
  assert (E : exists rt n, sample_load sample_imports wasm_manifest = (rt, Ok n)) by (eexists _, _; vm_compute; reflexivity).
  destruct E as (rt & n & E). pose proof (loaded_module_approved unit unit sample_sha (fun _ => Ok (sample_compiled sample_imports)) (fun _ _ => Ok tt) sample_files
    (fun _ => Ok "") (fun _ => Ok ANil) (fun _ => Ok tt) sample_runtime rt {| ins_Manifest := Some wasm_manifest; ins_Lock := Some wasm_lock |} n E) as (_ & m & l & i & code & _ & _ & _ & Hi & Ha & _).
  exists rt, n, i. split; [exact E|]. split; [exact Hi|]. split; [vm_compute; reflexivity|]. exists m, l, code. exact Ha.
Defined.

(** C14. Whatever a guest does, all it reaches is its grant: every request it puts on the wire goes to the
    connection of one of the grant's slots and is one the grant authorises, with its method, path, query and body length
    ([as_authorised]); what is let through stays within the grant's budgets; no cache entry outside the grant's own namespace
    changes. What it returns is a document only if it passes every check of a document, and each of
    its signals is declared by the operation with its type. *)
Theorem guest_confined {R} `{RegistryLaws R} Schema Compiled PM FM text hmac marshal svc fb envs clock valid dh dp da dl mr het isd isc
  jm jd dparams validate minput Instance_ Json dg sp um range (Hrange : forall l, range l ≡ₚ l)
  (i : instance (R := R) Schema Compiled) r req before after now w :
  in_broker _ _ i = Some r ->
  let g := iv_Grant req in
  let '(w', result) := Invoke Schema Compiled PM FM text hmac marshal svc fb envs clock valid dh dp da dl mr het isd isc jm jd dparams
                         validate minput Instance_ Json dg sp um range i req before after now w in
  (exists tr, w_wire w' = w_wire w ++ tr /\ Forall (wire_ok PM FM r g) tr)
  /\ (accounted (g_Limits g) (w_broker w) -> accounted (g_Limits g) (w_broker w'))
  /\ (forall key, (forall k, key <> cacheNamespace g +:+ ":" +:+ k) -> bs_cache (w_broker w') !! key = bs_cache (w_broker w) !! key)
  /\ forall doc, result = Ok doc -> in_closed _ _ i = false /\ doc_ok doc
     /\ exists op, op ∈ in_operations _ _ i /\ o_ID _ op = iv_Operation req
        /\ forall name s, doc_Signals doc !! name = Some s ->
            exists d, d ∈ o_Signals _ op /\ sd_Name d = name /\ signalType (sig_Value s) (sd_Type d) = true.
Proof.
  intros Hb g. destruct (Invoke _ _ _ _ _ _ _ _ _ _ _ _ _ _ _ _ _ _ _ _ _ _ _ _ _ _ _ _ _ _ _ _ _ _ _ _) as [w' result] eqn:E.
  apply (Invoke_confined Schema Compiled) in E as [Hc Hd]; [|done]. rewrite Hb in Hc. cbn in Hc.
  split; [apply Hc|]. split; [by eapply confined_accounted|]. split; [by intros key; eapply confined_cache|]. exact Hd.
Qed.

Example guest_confined_witness :
  (sample_invoke sample_guest).2 = Ok wasm_document
  /\ Forall (wire_ok (fun _ => None) (fun _ _ => "") sample_broker_registry (sample_grant "p")) (w_wire (sample_invoke sample_guest).1).
Proof.
  split; [vm_compute; reflexivity|].
  pose proof (guest_confined unit unit (fun _ => None) (fun _ _ => "") (fun _ => "denied") sample_hmac sample_marshal {| key := "k" |} "fb" wasm_env (fun _ => 1%Z)
    (fun _ => true) sample_decode_http (fun _ => Ok ({| cp_Key := "k"; cp_Value := "1"; cp_TTLSeconds := 60 |}, true)) (fun _ => Err "") (fun _ => Err "")
    (fun _ => Ok "{}") (fun _ => "") (fun _ => false) (fun _ => false) (fun _ => Ok "") (fun _ => Ok ANil) (fun _ => Ok None) (fun _ _ => None)
    (fun _ _ _ => Ok "{}") (fun _ => Ok (fun _ => sample_guest)) unit (fun _ => Some tt) (fun _ => []) (fun _ => Ok wasm_document) (fun l => l) (fun l => reflexivity l)
    sample_instance sample_broker_registry sample_request None None 0%Z sample_world eq_refl) as Hg.
  unfold sample_invoke. destruct (Invoke _ _ _ _ _ _ _ _ _ _ _ _ _ _ _ _ _ _ _ _ _ _ _ _ _ _ _ _ _ _ _ _ _ _ _ _) as [w' result].
  destruct Hg as ((tr & Ew & Hf) & _). cbn [fst]. rewrite Ew. exact Hf.
Defined.

(** Trying a module out reaches nothing: a file is validated without a broker, so whatever its
    guest calls, nothing is sent and nothing is kept; and a file that passes has only the imports
    that [Load] allows. *)
Theorem validation_reaches_nothing {R} `{RegistryLaws R} Compiled PM FM text hmac marshal svc fb envs clock valid dh dp da dl mr het isd isc
  Instance_ Json dg sp um CompileModule NewCompiledPlugin open_file path w :
  let '(w', result) := ValidateFile (R := R) Compiled PM FM text hmac marshal svc fb envs clock valid dh dp da dl mr het isd isc
                         Instance_ Json dg sp um CompileModule NewCompiledPlugin open_file path w in
  w_broker w' = w_broker w /\ w_wire w' = w_wire w
  /\ (result = Ok tt -> exists f code cm, open_file path = Ok f /\ f_read f (MaxModuleBytes + 1) = Ok code
        /\ (Z.of_nat (String.length code) <= MaxModuleBytes)%Z /\ CompileModule code = Ok cm /\ linkable cm).
Proof.
  unfold ValidateFile. destruct (let! f := res_map_err EFile (open_file path) in _) as [call|e] eqn:E; [|done].
  apply res_bind_Ok in E as (f & Hf & E). apply res_bind_Ok in E as (code & [Hc Hs]%read_module_Ok & E).
  apply res_bind_Ok in E as (u & (cm & Hcm & Hl)%preflight_Ok & _).
  assert (Hr := run_guest_confined PM FM text hmac marshal svc fb envs clock valid dh dp da dl mr het isd isc None (Z.shiftl 64 10) (call "invoke" validation_input) "" w).
  unfold run_linked. destruct (run_guest _ _ _ _ _ _ _ _ _ _ _ _ _ _ _ _ _ _ _ _ _ _ _) as [w' r]. destruct Hr as [Hb Hw].
  split_and!; [done..|]. intros _. exists f, code, cm. split_and!; try done. revert Hf. by destruct (open_file path); [intros [= ->]|].
Qed.
