(* ===== verification/Docker.v ===== *)
(** * internal/integrations/docker: the container list of a Docker connection

    The built-in integration: one request of the read-only surface of HttpClient, and the document made
    of its answer. Decoding the answer's JSON and lower-casing text are arguments. *)
From S2P Require Import Prelude RoutePath GoTime TimeText NetHttp Widgets Config Secrets Connections HttpClient Assets Declarative.

Record container := { ct_ID : string; ct_Names : list string; ct_Image : string; ct_State : string; ct_Status : string; ct_Created : Z }.

Inductive docker_failure := DFRequest (e : docker_error) | DFStatus (status : Z) | DFDecode (e : string).

Definition first (values : list string) : string := default "" (head values).
Definition shortID (id : string) : string := String.substring 0 12 id.

(** [time.Unix]: seconds from 1970 to Go's zero instant. *)
Definition time_Unix (seconds : Z) : Time := (wrap64 (seconds + 62135596800) * second)%Z.

Section Containers.
Variable strings_ToLower : string -> string.
Variable decode : string -> res string (list container).

Definition levelFor (state status : string) : Level :=
  if Contains (strings_ToLower status) "unhealthy" then "warn"
  else if String.eqb state "running" then "ok"
  else if String.eqb state "exited" || String.eqb state "dead" then "error"
  else "muted".

Definition item_of (c : container) : ListItem :=
  let name := TrimPrefix (first (ct_Names c)) "/" in
  {| li_ID := ct_ID c; li_Title := if String.eqb name "" then shortID (ct_ID c) else name; li_Subtitle := ct_Image c;
     li_Value := SString (ct_Status c); li_Format := ""; li_Level := levelFor (ct_State c) (ct_Status c); li_Icon := ""; li_Image := None;
     li_Link := ""; li_Timestamp := if (0 <? ct_Created c)%Z then Format_RFC3339 (time_Unix (ct_Created c)) else "" |}.

Definition is_running (c : container) : bool := String.eqb (ct_State c) "running".
Definition is_unhealthy (c : container) : bool :=
  let level := levelFor (ct_State c) (ct_Status c) in String.eqb level "warn" || String.eqb level "error".

(** The loop: the items, the running and the unhealthy ones counted. *)
Definition count (f : container -> bool) (l : list container) : Z := Z.of_nat (length (List.filter f l)).

Definition status_only (level text : string) : option Status := Some {| st_Level := level; st_Text := text; st_Since := "" |}.
Definition list_block (empty : string) (items : list ListItem) : Block :=
  BList {| bl_Title := ""; bl_Emphasis := ""; bl_Empty := empty; bl_Items := items |}.

Definition restricted_document : Document :=
  {| doc_Title := "Containers"; doc_Subtitle := ""; doc_Link := ""; doc_Status := status_only "warn" "Docker API access restricted";
     doc_Blocks := [list_block "Container listing is not allowed by the socket proxy" []]; doc_Signals := ∅;
     doc_Notices := [{| no_Level := "warn"; no_Message := "The Docker socket proxy denied container listing" |}]; doc_Hints := None |}.

Definition count_signal (n : Z) : Signal := {| sig_Value := SNumber (float_of_int n); sig_Unit := "count"; sig_Level := "" |}.

Definition document_of (all : list container) : Document :=
  let cs := firstn 100 all in
  let running := count is_running cs in
  let total := Z.of_nat (length cs) in
  {| doc_Title := "Containers"; doc_Subtitle := ""; doc_Link := "";
     doc_Status := status_only (if (0 <? count is_unhealthy cs)%Z then "warn" else "ok") (decimal running +:+ " running · " +:+ decimal total +:+ " total");
     doc_Blocks := [list_block "No containers" (map item_of cs)];
     doc_Signals := <["containers.running" := count_signal running]> {["containers.total" := count_signal total]};
     doc_Notices := []; doc_Hints := None |}.

Definition Containers (send : wire_request -> wire_result) (r : registry) (connectionID : string)
  : list wire_request * res docker_failure Document :=
  let '(tr, response) := DockerGET send r connectionID "/containers/json?all=1" in
  (tr, match response with
       | Err e => Err (DFRequest e)
       | Ok response =>
           let code := rs_StatusCode response in
           if ((code =? 403) || (code =? 401))%Z then Ok restricted_document
           else if ((code <? 200) || (300 <=? code))%Z then Err (DFStatus code)
           else match decode (rs_Body response) with
                | Err e => Err (DFDecode e)
                | Ok containers => Ok (document_of containers)
                end
       end).

(** ** What it makes of an answer *)

(** Every instant up to the end of the year 9999 is written so that it can be read. *)
Lemma unix_time_ok created : (0 < created <= maxUnixSeconds)%Z -> time_ok (Format_RFC3339 (time_Unix created)).
Proof.
  unfold maxUnixSeconds. intros Hc. right. assert (E : wrap64 (created + 62135596800) = (created + 62135596800)%Z).
  { unfold wrap64. rewrite Z.mod_small; lia. }
  unfold time_Unix. rewrite E. set (t := ((created + 62135596800) * second)%Z).
  assert (Hm : (t mod second = 0)%Z) by (unfold t; rewrite Z.mod_mul; done).
  assert (Hp := parse_format t). unfold Format_RFC3339Nano in Hp. rewrite Hm in Hp. cbn in Hp. exists t. apply Hp.
  unfold written, last_second, t, second. lia.
Qed.

(** The document is one that validation accepts: of at most a hundred containers, each with a time
    that can be read or none. *)
Lemma document_of_ok cs : Forall (fun c => ct_Created c <= maxUnixSeconds)%Z cs -> doc_ok (document_of cs).
Proof.
  intros Hc. split_and!.
  - intros s [= <-]. by left.
  - constructor; [|constructor]. simpl. apply Forall_map, Forall_forall. intros c Hin. simpl.
    destruct (Z.ltb_spec 0 (ct_Created c)); [|by left]. apply unix_time_ok. split; [done|].
    rewrite Forall_forall in Hc. apply Hc. by eapply elem_of_take in Hin as (? & ? & ?); eauto using list_elem_of_lookup_2.
  - intros sg w w' H. by apply elem_of_nil in H.
Qed.
End Containers.
