(* ===== verification/Serve.v ===== *)
(** * cmd/veduta: from a configuration to a running server

    [main.go]: the loader the configuration store is given, with its checks of auth.mode; building a
    generation of everything a configuration governs; its activation in the running server, and the
    rollback of one that fails half way. The server's parts are those the other files model, side by
    side in one state; between the calls of an activation the other goroutines may run, as functions
    that leave the configured parts alone. Secret providers, the files a generation is built from,
    URL parsing, HMAC, the clock and the faults of the database are arguments, as are the store's
    answers while schedules are applied. *)
From S2P Require Import Prelude GoAny GoPath RoutePath GoTime TimeText NetHttp NetIP Sql Database Config Manifest Secrets Connections HttpClient Fingerprint Grant Approval Widgets State Scheduler Storage Rules NotifyOut Auth Forward App ConfigStore.

(** ** The loader *)

Fixpoint containsAction (v : any) : bool :=
  match v with
  | AMap m => existsb (fun e => String.eqb e.1 "type" && match e.2 with AString s => String.eqb s "actions" | _ => false end) m
              || existsb (fun e => containsAction e.2) m
  | AList l => existsb containsAction l
  | _ => false
  end.
Definition configuredActions (cfg : Config) : bool :=
  existsb (fun c => match Docker c.2 with Some d => AllowActions d | None => false end) (map_to_list (Connections cfg))
  || existsb (fun s => existsb (fun c => containsAction (AMap (card_View c))) (Cards s)) (Sections cfg).
Definition mode_of (s : Snapshot) : string := Mode (cfg_Auth (snap_Config s)).
Definition auth_none_text : string :=
  "auth.mode is none but the configuration enables actions or references secrets; pass --i-know-what-im-doing to acknowledge the risk".
Definition validateAuthNone (override : bool) (s : Snapshot) : option string :=
  if String.eqb (mode_of s) AuthNone && negb override && (negb (Nat.eqb (length (SecretRefs s)) 0) || configuredActions (snap_Config s))
  then Some auth_none_text else None.

(** [initialMode], and the registry of known secrets. *)
Record loader := { ld_mode : string; ld_secrets : Secrets.Registry }.
Definition error_diag (path text : string) : Diagnostic :=
  {| d_Severity := SeverityError; d_File := path; d_Line := 0; d_Column := 0; d_Message := MText text |}.
Definition mode_change : string := "auth.mode changes require a server restart".
(** The function [configLoader] returns; [r] is what [LoadPath] gives it. *)
Definition configLoader (override : bool) (ps : list Provider) (path : string) (r : option Snapshot * list Diagnostic) (l : loader)
  : loader * (option Snapshot * list Diagnostic) :=
  match r with
  | (Some snapshot, diags) =>
      if HasErrors diags then (l, (None, diags))
      else
        let '(_, secretDiags, reg) := ResolveAll ps (ld_secrets l) (SecretRefs snapshot) in
        let l := {| ld_mode := ld_mode l; ld_secrets := reg |} in
        let diags := diags ++ secretDiags in
        if HasErrors diags then (l, (None, diags))
        else match validateAuthNone override snapshot with
             | Some e => (l, (None, diags ++ [error_diag path e]))
             | None =>
                 if String.eqb (ld_mode l) "" then ({| ld_mode := mode_of snapshot; ld_secrets := reg |}, (Some snapshot, diags))
                 else if negb (String.eqb (mode_of snapshot) (ld_mode l)) then (l, (None, diags ++ [error_diag path mode_change]))
                 else (l, (Some snapshot, diags))
             end
  | (None, diags) => (l, (None, diags))
  end.
(** The loads of one process, one after another. *)
Record load := { lo_providers : list Provider; lo_path : string; lo_result : option Snapshot * list Diagnostic }.
Fixpoint loads (override : bool) (l : loader) (ls : list load) : list (option Snapshot * list Diagnostic) :=
  match ls with
  | [] => []
  | x :: rest => let '(l', r) := configLoader override (lo_providers x) (lo_path x) (lo_result x) l in r :: loads override l' rest
  end.
Definition fresh_loader : loader := {| ld_mode := ""; ld_secrets := NewRegistry |}.

(** [effectiveDataDir]: the directory, and what chose it. *)
Definition effectiveDataDir (quote : string -> string) (configured flagValue configPath : string) : string * string :=
  if negb (String.eqb flagValue "") then (flagValue, "--data-dir " +:+ flagValue)
  else if negb (String.eqb configured "") && filepath_IsAbs configured then (configured, "server.dataDir " +:+ quote configured +:+ " in " +:+ configPath)
  else if negb (String.eqb configured "")
  then (configured, "server.dataDir " +:+ quote configured +:+ " in " +:+ configPath +:+ ", relative to the working directory")
  else ("", "the default ./data, relative to the working directory").

(** ** A generation *)

Abbreviation PlannedCard := (CardDef (RunFunc := run_plan)) (only parsing).

(** [Generation]; its runtimes are a number, by which [sv_closed] knows those that were closed. *)
Record Generation := {
  g_runtimes : nat; g_Definitions : list PlannedCard; g_PluginLoads : list PluginLoad;
  g_RuleDefinitions : list RuleDef; g_RuleDeclarations : gmap string RuleCard }.

(** The end of [BuildGenerationWithAuditAndEvents]. *)
Definition declared (ds : list PlannedCard) : gmap string RuleCard :=
  foldl (fun m d => <[d_ID d := {| rc_Hash := d_Hash d; rc_Signals := d_SignalTypes d |}]> m) ∅ ds.

(** ** The running server *)

Record server := {
  sv_tables : DB; sv_known : Secrets.Registry; sv_manager : Manager (RunFunc := run_plan); sv_rules : RuleManager;
  sv_dispatcher : Dispatcher; sv_auth : option AuthService; sv_forward : option forwardGeneration; sv_registry : option registry;
  sv_current : option Generation; sv_built : nat; sv_closed : list nat }.

Definition set_tables (x : DB) (s : server) : server :=
  {| sv_tables := x; sv_known := sv_known s; sv_manager := sv_manager s; sv_rules := sv_rules s; sv_dispatcher := sv_dispatcher s;
     sv_auth := sv_auth s; sv_forward := sv_forward s; sv_registry := sv_registry s; sv_current := sv_current s; sv_built := sv_built s; sv_closed := sv_closed s |}.
Definition set_known (x : Secrets.Registry) (s : server) : server :=
  {| sv_tables := sv_tables s; sv_known := x; sv_manager := sv_manager s; sv_rules := sv_rules s; sv_dispatcher := sv_dispatcher s;
     sv_auth := sv_auth s; sv_forward := sv_forward s; sv_registry := sv_registry s; sv_current := sv_current s; sv_built := sv_built s; sv_closed := sv_closed s |}.
Definition set_manager (x : Manager (RunFunc := run_plan)) (s : server) : server :=
  {| sv_tables := sv_tables s; sv_known := sv_known s; sv_manager := x; sv_rules := sv_rules s; sv_dispatcher := sv_dispatcher s;
     sv_auth := sv_auth s; sv_forward := sv_forward s; sv_registry := sv_registry s; sv_current := sv_current s; sv_built := sv_built s; sv_closed := sv_closed s |}.
Definition set_rules (x : RuleManager) (s : server) : server :=
  {| sv_tables := sv_tables s; sv_known := sv_known s; sv_manager := sv_manager s; sv_rules := x; sv_dispatcher := sv_dispatcher s;
     sv_auth := sv_auth s; sv_forward := sv_forward s; sv_registry := sv_registry s; sv_current := sv_current s; sv_built := sv_built s; sv_closed := sv_closed s |}.
Definition set_dispatcher (x : Dispatcher) (s : server) : server :=
  {| sv_tables := sv_tables s; sv_known := sv_known s; sv_manager := sv_manager s; sv_rules := sv_rules s; sv_dispatcher := x;
     sv_auth := sv_auth s; sv_forward := sv_forward s; sv_registry := sv_registry s; sv_current := sv_current s; sv_built := sv_built s; sv_closed := sv_closed s |}.
Definition set_auth (x : option AuthService) (s : server) : server :=
  {| sv_tables := sv_tables s; sv_known := sv_known s; sv_manager := sv_manager s; sv_rules := sv_rules s; sv_dispatcher := sv_dispatcher s;
     sv_auth := x; sv_forward := sv_forward s; sv_registry := sv_registry s; sv_current := sv_current s; sv_built := sv_built s; sv_closed := sv_closed s |}.
Definition set_forward (x : option forwardGeneration) (s : server) : server :=
  {| sv_tables := sv_tables s; sv_known := sv_known s; sv_manager := sv_manager s; sv_rules := sv_rules s; sv_dispatcher := sv_dispatcher s;
     sv_auth := sv_auth s; sv_forward := x; sv_registry := sv_registry s; sv_current := sv_current s; sv_built := sv_built s; sv_closed := sv_closed s |}.
Definition set_registry (x : option registry) (s : server) : server :=
  {| sv_tables := sv_tables s; sv_known := sv_known s; sv_manager := sv_manager s; sv_rules := sv_rules s; sv_dispatcher := sv_dispatcher s;
     sv_auth := sv_auth s; sv_forward := sv_forward s; sv_registry := x; sv_current := sv_current s; sv_built := sv_built s; sv_closed := sv_closed s |}.
(** [runtimeHolder]'s [current], and the numbers of runtimes built and closed. *)
Definition set_current (c : option Generation) (built : nat) (closed : list nat) (s : server) : server :=
  {| sv_tables := sv_tables s; sv_known := sv_known s; sv_manager := sv_manager s; sv_rules := sv_rules s; sv_dispatcher := sv_dispatcher s;
     sv_auth := sv_auth s; sv_forward := sv_forward s; sv_registry := sv_registry s; sv_current := c; sv_built := built; sv_closed := closed |}.

(** A computation on a part of the server. *)
Definition zoom {S T A : Type} (get : S -> T) (put : T -> S -> S) (m : Sql T A) : Sql S A := fun s =>
  let '(t, r) := m {| db := get (db s); faults := faults s |} in ({| db := put (db t) (db s); faults := faults t |}, r).
Abbreviation Serve := (Sql server) (only parsing).
Definition on_db {A} (m : SqlDB A) : Serve A := zoom sv_tables set_tables m.

(** [closeRuntimeGeneration] of runtimes, and [runtimeHolder]'s methods. *)
Definition close_runtimes (g : option nat) (s : server) : server :=
  match g with Some n => set_current (sv_current s) (sv_built s) (n :: sv_closed s) s | None => s end.
Definition holder_Swap (next : Generation) (s : server) : server :=
  let old := g_runtimes <$> sv_current s in close_runtimes old (set_current (Some next) (sv_built s) (sv_closed s) s).
Definition holder_Close (s : server) : server :=
  let old := g_runtimes <$> sv_current s in close_runtimes old (set_current None (sv_built s) (sv_closed s) s).

(** What the server stands in: the texts of errors are arguments too. *)
Record surroundings := {
  e_providers : list Provider;  (* the providers as they answer the build, and a rollback *)
  e_providers_later : list Provider;
  e_url_parse : string -> option full_URL;
  e_ca_file : string -> option bool;
  e_fmt_float : Float64 -> string;
  e_hmac : string -> string -> string;
  e_conn_order : list (string * Connection) -> list (string * Connection);  (* the order a map of connections is ranged in *)
  e_random : string -> res string string;  (* a new revision, or no random bytes *)
  e_instanceKey : string;
  e_configPath : string;
  e_read_lock : res string (gmap string LockEntry);  (* integrations.ReadLock beside the configuration *)
  e_outside : world;  (* the files and libraries [BuildGeneration] uses *)
  e_parse_walk : string -> res string (list node);
  e_expr_Compile : string -> res string expr_run;
  e_rule_hash : Rule -> gmap string string -> res string string;
  e_generation_text : generation_error -> string;  (* the texts of errors *)
  e_compile_text : compile_error -> string;
  e_new_text : HttpClient.new_error -> string;
  e_conn_text : Connections.build_error -> string;
  e_channel_text : NotifyOut.build_error -> string;
  e_sched_text : sched_error -> string;
  e_json_Valid : string -> bool;
  e_marshal_channel : string -> string;
  e_marshal_message : Message -> res string string;
  e_marshal_rule : string -> list string -> res string string;
  e_marshal_wrong : string -> list string -> string;
  e_leak_check : option Secrets.Registry;  (* what the manager scans restored documents for *)
  e_clock : nat -> Time;
  e_store_at : nat -> Scheduler.Store;  (* the store during each [Manager.Apply] *)
  e_ticks : nat -> list (string * Time * Time);  (* the order and clock of each [Evaluate] *)
  e_others : nat -> server -> server  (* the other goroutines, between calls *) }.

Section Runtime.
Variable E : surroundings.

Definition world_of (snap : Snapshot) (generation : Z) (reg : registry) (revisions : gmap string string) (lock : gmap string LockEntry) : world :=
  {| w_integration := IntegrationByID snap; w_conn := Get reg; w_docker := true; w_lock := lock; w_revisions := revisions;
     w_generation := generation; w_configDir := filepath_Dir (e_configPath E); w_parse := w_parse (e_outside E); w_walk := w_walk (e_outside E);
     w_lower := w_lower (e_outside E); w_print := w_print (e_outside E); w_manifest_file := w_manifest_file (e_outside E); w_manifest := w_manifest (e_outside E);
     w_card_hash := w_card_hash (e_outside E); w_entry_hash := w_entry_hash (e_outside E); w_key := w_key (e_outside E); w_revisions_json := w_revisions_json (e_outside E);
     w_wasm := w_wasm (e_outside E); w_load := w_load (e_outside E) |}.

(** [BuildGenerationWithAuditAndEvents], but for the number of its runtimes. *)
Definition BuildWithRules (snap : Snapshot) (generation : Z) (reg : registry) (revisions : gmap string string) (n : nat) : res string Generation :=
  let! lock := (e_read_lock E) in
  let! (ds, loads) := res_map_err (e_generation_text E) (BuildGeneration (world_of snap generation reg revisions lock) (Sections (snap_Config snap))) in
  let! rules := res_mapM (fun r => res_map_err (e_compile_text E) (Compile (e_parse_walk E) (e_expr_Compile E) (e_rule_hash E) r (declared ds))) (Rules (snap_Config snap)) in
  Ok {| g_runtimes := n; g_Definitions := ds; g_PluginLoads := loads; g_RuleDefinitions := rules; g_RuleDeclarations := declared ds |}.

Definition track_known (r : Secrets.Registry) : Serve unit := assign (set_known r).
(** Resolving against the known secrets, which keep what was resolved. *)
Definition resolve_secrets (providers : list Provider) (snap : Snapshot) : Serve (gmap string Value * list Diagnostic) :=
  do* known <- look sv_known;
  let '(resolved, diags, known) := ResolveAll providers known (SecretRefs snap) in
  do* _ <- track_known known;
  sql_ret (resolved, diags).
(** The connections of a configuration, and what their credentials hash to. *)
Definition build_connections (cfg : Config) (resolved : gmap string Value) : Serve (registry * gmap string string) :=
  do* known <- look sv_known;
  let '(known, r) := New_registry (e_url_parse E) (e_ca_file E) known ((e_conn_order E) (map_to_list (Connections cfg))) resolved in
  do* _ <- track_known known;
  do* reg <- lift (res_map_err (e_new_text E) r);
  let '(known, m) := MaterialHMACs (e_fmt_float E) (e_hmac E) known (e_conn_order E) (Connections cfg) resolved (e_instanceKey E) in
  do* _ <- track_known known;
  do* material <- lift (res_map_err (e_conn_text E) m);
  sql_ret (reg, material).
(** Runtimes are opened before anything can fail, and closed again when something does. *)
Definition open_runtimes : Serve nat :=
  do* n <- look sv_built;
  do* _ <- assign (fun s => set_current (sv_current s) (S n) (sv_closed s) s);
  sql_ret n.
Definition or_close {A} (n : nat) (r : res string A) : Serve A :=
  match r with Ok a => sql_ret a | Err e => do* _ <- assign (close_runtimes (Some n)); sql_fail e end.

Definition buildRuntime (snap : Snapshot) (generation : Z)
  : Serve (registry * gmap string Value * Generation * gmap string OutChannel) :=
  do* found <- resolve_secrets (e_providers E) snap;
  let '(resolved, diags) := found in
  if HasErrors diags then sql_fail "resolve secrets"
  else
    do* conns <- build_connections (snap_Config snap) resolved;
    let '(reg, material) := conns in
    do* revisions <- on_db (SyncConnectionRevisions ((e_clock E) 0) (e_random E) material);
    do* n <- open_runtimes;
    do* built <- or_close n (BuildWithRules snap generation reg revisions n);
    do* channels <- or_close n (res_map_err (e_channel_text E) (BuildChannels (Channels (snap_Config snap)) resolved));
    sql_ret (reg, resolved, built, channels).

(** ** Activation *)

Definition auth_config (snap : Snapshot) (admin : AdminAuth) (resolved : gmap string Value) : AuthConfig :=
  {| ac_Username := Username admin; ac_PasswordHash := PasswordHash admin; ac_ResolvedSecrets := resolved;
     ac_SessionTTL := SessionTTL (cfg_Auth (snap_Config snap)) |}.
Definition forward_config (f : ForwardAuth) : ForwardConfig :=
  {| fc_TrustedProxies := Config.TrustedProxies f; fc_UserHeader := UserHeader f; fc_GroupsHeader := GroupsHeader f;
     fc_AdminGroups := AdminGroups f; fc_PrivilegedOperations := PrivilegedOperations f |}.
Definition nil_dereference : string := "invalid memory address or nil pointer dereference".

Definition on_service (svc : AuthService) {A} (m : Sql AuthWorld A) : Serve A :=
  zoom (fun s => {| aw_db := sv_tables s; aw_svc := default svc (sv_auth s) |}) (fun w s => set_auth (Some (aw_svc w)) (set_tables (aw_db w) s)) m.
Definition reconfigurePassword (snap : Snapshot) (resolved : gmap string Value) : Serve unit :=
  do* auth <- look sv_auth;
  match auth, String.eqb (mode_of snap) AuthPassword with
  | Some svc, true =>
      match Admin (cfg_Auth (snap_Config snap)) with
      | None => sql_fail nil_dereference
      | Some admin => on_service svc (Reconfigure (auth_config snap admin resolved))
      end
  | _, _ => sql_ret tt
  end.
Definition reconfigureForward (snap : Snapshot) : Serve unit :=
  do* forward <- look sv_forward;
  match forward, String.eqb (mode_of snap) AuthForward with
  | Some g, true =>
      match Forward (cfg_Auth (snap_Config snap)) with
      | None => sql_fail nil_dereference
      | Some f => let '(g, r) := forward_Reconfigure (forward_config f) g in do* _ <- assign (set_forward (Some g)); lift r
      end
  | _, _ => sql_ret tt
  end.
Definition reconfigureAuthenticationResolved (snap : Snapshot) (resolved : gmap string Value) : Serve unit :=
  do* _ <- reconfigurePassword snap resolved; reconfigureForward snap.
Definition reconfigureAuthentication (snap : Snapshot) : Serve unit :=
  do* found <- resolve_secrets (e_providers_later E) snap;
  let '(resolved, diags) := found in
  if HasErrors diags then sql_fail "secret diagnostics" else reconfigureAuthenticationResolved snap resolved.

(** The calls on the rule manager, the scheduler and the dispatcher. *)
Definition rules_Apply (ds : list RuleDef) (decls : gmap string RuleCard) : Serve unit :=
  do* m <- on_db (ApplyRules ds decls); assign (set_rules m).
Definition rules_Evaluate (ids : list (string * Time * Time)) : Serve unit := fun s =>
  let v := db s in
  let '(m, t, wake, err) := EvaluateNow (H := dispatcher_sink (e_marshal_message E)) (Some (sv_dispatcher v)) (e_json_Valid E) (e_marshal_channel E) (e_marshal_rule E) (e_marshal_wrong E) (sv_rules v) ids
                              (States (sv_manager v)) {| db := sv_tables v; faults := faults s |} in
  let d := if wake : bool then Wake (sv_dispatcher v) else sv_dispatcher v in
  ({| db := set_dispatcher d (set_rules m (set_tables (db t) v)); faults := faults t |}, match err with Some e => Err e | None => Ok tt end).
Definition manager_Apply (now : Time) (st : Scheduler.Store) (ds : list CardDef) : Serve unit :=
  do* m <- look sv_manager;
  do* m <- lift (res_map_err (e_sched_text E) (Scheduler.Apply (e_leak_check E) now (Some st) m ds));
  assign (set_manager m).
Definition dispatcher_Apply (channels : gmap string OutChannel) : Serve unit :=
  assign (fun s => set_dispatcher (ApplyChannels (sv_dispatcher s) channels) s).
Definition run_others (n : nat) : Serve unit := assign ((e_others E) n).

(** What the server held when the activation began. *)
Record previous := {
  pv_snapshot : Snapshot; pv_scheduler : list PlannedCard; pv_rules : list RuleDef; pv_declarations : gmap string RuleCard;
  pv_channels : gmap string OutChannel }.
Definition previous_of (snap : Snapshot) (s : server) : previous :=
  {| pv_snapshot := snap; pv_scheduler := Definitions (sv_manager s); pv_rules := map snd (map_to_list (rm_definitions (sv_rules s)));
     pv_declarations := rm_declarations (sv_rules s); pv_channels := dp_channels (sv_dispatcher s) |}.

(** How it ends: in force, or refused for a reason, with what went wrong rolling back. *)
Inductive activation := Activated | Refused (cause : string) (rollback : list string).
Definition appendIfError (values : list string) (r : res string unit) : list string :=
  match r with Ok _ => values | Err e => values ++ [e] end.

(** The closure [rollback]; [authChanged] is what was assigned before it is called. *)
Definition rollback_rules (p : previous) : Serve unit :=
  do* r <- sql_try (do* _ <- rules_Apply (pv_rules p) (pv_declarations p); do* _ <- run_others 6; rules_Evaluate ((e_ticks E) 1));
  do* _ <- dispatcher_Apply (pv_channels p);
  lift r.
Definition rollback (p : previous) (cause : string) (schedulerChanged rulesChanged authChanged : bool) : Serve activation :=
  do* r1 <- (if schedulerChanged then sql_try (manager_Apply ((e_clock E) 2) ((e_store_at E) 1) (pv_scheduler p)) else sql_ret (Ok tt));
  do* _ <- run_others 5;
  do* r2 <- (if rulesChanged then sql_try (rollback_rules p) else sql_ret (Ok tt));
  do* _ <- run_others 7;
  do* r3 <- (if authChanged then sql_try (reconfigureAuthentication (pv_snapshot p)) else sql_ret (Ok tt));
  sql_ret (Refused cause (appendIfError (appendIfError (appendIfError [] r1) r2) r3)).

(** The calls of [activateRuntime] in their order, each with what is rolled back when it fails. *)
Definition switch (p : previous) (snap : Snapshot) (reg : registry) (resolved : gmap string Value) (next : Generation)
  (channels : gmap string OutChannel) : Serve activation :=
  do* r <- sql_try (reconfigureAuthenticationResolved snap resolved);
  match r with
  | Err e => sql_ret (Refused e [])
  | Ok _ =>
      do* s <- look (fun s => s);
      let authChanged := bool_decide (is_Some (sv_auth s)) || bool_decide (is_Some (sv_forward s)) in
      do* _ <- run_others 1;
      do* r <- sql_try (rules_Apply (g_RuleDefinitions next) (g_RuleDeclarations next));
      match r with
      | Err e => rollback p e false false authChanged
      | Ok _ =>
          do* _ <- run_others 2;
          do* _ <- dispatcher_Apply channels;
          do* r <- sql_try (manager_Apply ((e_clock E) 1) ((e_store_at E) 0) (g_Definitions next));
          match r with
          | Err e => rollback p e false true authChanged
          | Ok _ =>
              do* _ <- run_others 3;
              do* r <- sql_try (rules_Evaluate ((e_ticks E) 0));
              match r with
              | Err e => rollback p e true true authChanged
              | Ok _ =>
                  do* _ <- run_others 4;
                  do* _ <- assign (fun s => set_registry (HttpClient.Swap (sv_registry s) reg) s);
                  do* _ <- assign (holder_Swap next);
                  sql_ret Activated
              end
          end
      end
  end.

Definition activateRuntime (snap previousSnapshot : Snapshot) (generation : Z) : Serve activation :=
  do* built <- sql_try (buildRuntime snap generation);
  match built with
  | Err e => sql_ret (Refused e [])
  | Ok (reg, resolved, next, channels) =>
      do* _ <- run_others 0;
      do* p <- look (previous_of previousSnapshot);
      do* out <- switch p snap reg resolved next channels;
      match out with
      | Activated => sql_ret out
      | Refused _ _ => do* _ <- assign (close_runtimes (Some (g_runtimes next))); sql_ret out
      end
  end.

(** *** The part of [serve] that starts the runtime, and what the activator makes of a reload *)

Definition or_stop (next : Generation) (m : Serve unit) : Serve unit :=
  do* r <- sql_try m;
  match r with
  | Ok _ => sql_ret tt
  | Err e => do* _ <- assign (fun s => close_runtimes (Some (g_runtimes next)) (set_rules (Rules.Close (sv_rules s)) s)); sql_fail e
  end.
Definition startRuntime (snap : Snapshot) (generation : Z) : Serve unit :=
  do* built <- buildRuntime snap generation;
  let '(reg, _, next, channels) := built in
  do* _ <- or_stop next (manager_Apply (e_clock E 1) (e_store_at E 0) (g_Definitions next));
  do* _ <- assign (set_dispatcher (NewDispatcher channels {| dc_MaxAttempts := 0; dc_RetryBase := 0; dc_PollEvery := 0 |}));
  do* _ <- run_others 1;
  do* _ <- or_stop next (rules_Apply (g_RuleDefinitions next) (g_RuleDeclarations next));
  do* _ <- run_others 2;
  do* _ <- or_stop next (rules_Evaluate (e_ticks E 0));
  do* _ <- run_others 3;
  assign (fun s => set_registry (Some reg) (set_current (Some next) (sv_built s) (sv_closed s) s)).

Definition verdict (a : res string activation) : option string :=
  match a with Ok Activated => None | Ok (Refused e _) => Some e | Err e => Some e end.
(** A reload of the configuration store with its activator: the store, the server and how the activation ended, if there was one. *)
Definition reload_runtime (marshal : Config -> string) (sha256 : string -> string) (load : string -> option Snapshot * list Diagnostic) (now : Time)
  (st : ConfigStore.Store) (s : session server) : ConfigStore.Store * session server * option (res string activation) :=
  match good (load (sr_path st)), sr_current st with
  | Some snap, Some prev =>
      let '(s', a) := activateRuntime snap prev (next_generation st) s in
      ((reload marshal sha256 load (Some (fun _ _ => verdict a)) now st).1, s', Some a)
  | _, _ => ((reload marshal sha256 load None now st).1, s, None)
  end.
End Runtime.

(** ** The configured parts *)

(** What of the server comes from the configuration, credentials apart. *)
Record live := {
  lv_cards : gmap string PlannedCard; lv_rules : gmap string RuleDef; lv_declarations : gmap string RuleCard;
  lv_channels : gmap string OutChannel; lv_registry : option registry; lv_current : option Generation }.
Definition live_of (s : server) : live :=
  {| lv_cards := with_generation 0 <$> defs (sv_manager s); lv_rules := rm_definitions (sv_rules s); lv_declarations := rm_declarations (sv_rules s);
     lv_channels := dp_channels (sv_dispatcher s); lv_registry := sv_registry s; lv_current := sv_current s |}.
Definition indexed_cards (ds : list PlannedCard) : gmap string CardDef :=
  index_by d_ID (map (fun d => with_generation 0 (with_defaults d)) ds).
Definition live_generation (reg : registry) (channels : gmap string OutChannel) (g : Generation) : live :=
  {| lv_cards := indexed_cards (g_Definitions g); lv_rules := index_by rd_ID (g_RuleDefinitions g); lv_declarations := g_RuleDeclarations g;
     lv_channels := channels; lv_registry := Some reg; lv_current := Some g |}.
(** Cards and rules under their own names, with the defaults filled in. *)
Record well_kept (l : live) : Prop := {
  wk_cards : forall id d, lv_cards l !! id = Some d -> d_ID d = id /\ with_generation 0 (with_defaults d) = d;
  wk_rules : forall id d, lv_rules l !! id = Some d -> rd_ID d = id }.

(** ** Lemmas *)

Lemma index_by_snoc {A} (id : A -> string) l x : index_by id (l ++ [x]) = <[id x := x]> (index_by id l).
Proof. unfold index_by. by rewrite foldl_app. Qed.
Lemma index_by_nodup {A} (id : A -> string) l : NoDup (map id l) -> index_by id l = list_to_map (map (fun x => (id x, x)) l).
Proof.
  induction l as [|x l IH] using rev_ind; [done|]. rewrite map_app, NoDup_app. intros (Hl & Hx & _). rewrite index_by_snoc, map_app, IH by done.
  rewrite list_to_map_app. assert (Hn : (list_to_map (map (fun x => (id x, x)) l) : gmap string A) !! id x = None).
  { apply not_elem_of_list_to_map_1. rewrite <- list_fmap_compose. intros Hin. apply (Hx (id x)); [|by apply list_elem_of_singleton]. exact Hin. }
  cbn [map list_to_map foldr fst snd]. rewrite insert_union_singleton_r by done. done.
Qed.
Lemma index_by_back {A} (id : A -> string) (m : gmap string A) : (forall k x, m !! k = Some x -> id x = k) -> index_by id (map snd (map_to_list m)) = m.
Proof.
  intros H. assert (E : map (fun x => (id x, x)) (map snd (map_to_list m)) = map_to_list m).
  { rewrite map_map. rewrite <- (map_id (map_to_list m)) at 2. apply map_ext_in. intros [k x] Hp%list_elem_of_In%elem_of_map_to_list. cbn. by rewrite (H k x Hp). }
  rewrite index_by_nodup; [by rewrite E, list_to_map_to_list|].
  assert (Hk : map id (map snd (map_to_list m)) = (map_to_list m).*1).
  { rewrite map_map. apply map_ext_in. intros [k x] Hp%list_elem_of_In%elem_of_map_to_list. cbn. by apply H. }
  rewrite Hk. apply NoDup_fst_map_to_list.
Qed.

Lemma on_db_keeps {A} (m : SqlDB A) (I : server -> Prop) : (forall t s, I s -> I (set_tables t s)) -> preserves I (on_db m).
Proof. intros H s Hs. unfold on_db, zoom. destruct (m _) as [t [a|e]]; by apply H. Qed.
Lemma prepare_indexes leak now st (ds : list PlannedCard) : forall p p',
  prepare leak now st p ds = Ok p' -> p_defs p' = foldl (fun m d => <[d_ID d := d]> m) (p_defs p) (map with_defaults ds).
Proof.
  induction ds as [|d ds IH]; intros p p'; cbn [prepare map foldl]; [by intros [= <-]|].
  intros H. apply res_bind_Ok in H as (q & Hq & Hr). rewrite (IH _ _ Hr). f_equal. unfold prepare_one in Hq.
  destruct (String.eqb _ ""); [done|]. destruct (bool_decide _); [done|]. destruct st as [st|]; [|by injection Hq as <-].
  destruct (GetCardFor _ _ _) as [[old|]|e]; [|by injection Hq as <-|done]. destruct (documentLeaksSecret _ _); by injection Hq as <-.
Qed.
Lemma foldl_index_fmap {A B} (key : A -> string) (key' : B -> string) (f : A -> B) (l : list A) (m : gmap string A) :
  (forall x, key' (f x) = key x) -> f <$> foldl (fun m x => <[key x := x]> m) m l = foldl (fun m x => <[key' x := x]> m) (f <$> m) (map f l).
Proof. intros Hk. revert m. induction l as [|x l IH]; intros m; [done|]. cbn [foldl map]. by rewrite IH, fmap_insert, Hk. Qed.
(** Applying definitions leaves exactly them. *)
Lemma Apply_cards leak now st (m m' : Manager (RunFunc := run_plan)) ds : Scheduler.Apply leak now (Some st) m ds = Ok m' -> with_generation 0 <$> defs m' = indexed_cards ds.
Proof.
  unfold Scheduler.Apply. intros H. apply res_bind_Ok in H as (p & Hp & [= <-]). cbn [swap defs]. rewrite (prepare_indexes _ _ _ _ _ _ Hp).
  change (p_defs no_prepared) with (∅ : gmap string PlannedCard). rewrite <- map_fmap_compose. unfold indexed_cards, index_by.
  rewrite (foldl_index_fmap d_ID d_ID (fun d : PlannedCard => with_generation 0 (with_generation (generation m + 1) d))) by done.
  rewrite fmap_empty, map_map. done.
Qed.
Lemma prepare_rules_indexes ds : forall defs states s s' defs' states',
  prepare_rules ds defs states s = (s', Ok (defs', states')) -> defs' = foldl (fun m d => <[rd_ID d := d]> m) defs ds.
Proof.
  induction ds as [|x ds IH]; intros defs states s s' defs' states'; cbn [prepare_rules foldl]; [by intros [= <- <- <-]|].
  case_bool_decide; [done|]. intros H1. apply bind_Ok in H1 as (s1 & p & _ & H1). by apply IH in H1.
Qed.
Lemma evaluate_each_keeps {N} `{NotificationSink N} (n : option N) jv mc mr mw ids : forall m cards s m' s' w e,
  evaluate_each n jv mc mr mw m ids cards s = (m', s', w, e) -> rm_definitions m' = rm_definitions m /\ rm_declarations m' = rm_declarations m.
Proof.
  induction ids as [|[[id now] now'] ids IH]; intros m cards s m' s' w e; cbn [evaluate_each]; [by intros [= <- <- <- <-]|].
  destruct (evaluateLocked _ _ _ _ _ _ _ _ _ _ _) as [[[m1 s1] w1] e1] eqn:E1.
  assert (H1 : rm_definitions m1 = rm_definitions m /\ rm_declarations m1 = rm_declarations m).
  { revert E1. unfold evaluateLocked. destruct (rm_definitions m !! id) as [d|]; [|by intros [= <- <- <- <-]].
    destruct (Evaluate _ _ _) as [ev|]; [|by intros [= <- <- <- <-]]. destruct (transition _ _ _ _ _ _ _ _) as [t|]; [|by intros [= <- <- <- <-]].
    set (m2 := if tr_schedule t then _ else _). assert (H2 : rm_definitions m2 = rm_definitions m /\ rm_declarations m2 = rm_declarations m) by (unfold m2; by destruct (tr_schedule t)).
    destruct (match n with Some _ => _ | None => _ end) as [ns|]; [|by intros [= <- <- <- <-]].
    destruct (CommitRuleTransition _ _ _ _ _ _ _) as [s2 [w2|]]; by intros [= <- <- <- <-]. }
  destruct e1; [by intros [= <- <- <- <-]|]. destruct (evaluate_each _ _ _ _ _ _ _ _ _) as [[[m2 s2] w2] e2] eqn:E2. intros [= <- <- <- <-].
  apply IH in E2 as [-> ->]. done.
Qed.
Lemma EvaluateNow_keeps {N} `{NotificationSink N} (n : option N) jv mc mr mw m ids states s m' s' w e :
  EvaluateNow n jv mc mr mw m ids states s = (m', s', w, e) -> rm_definitions m' = rm_definitions m /\ rm_declarations m' = rm_declarations m.
Proof. unfold EvaluateNow, evaluateAll. cbn [negb set_active rm_active]. intros [-> ->]%evaluate_each_keeps. done. Qed.

(** The server's configured parts, and the runtimes opened and closed. *)
Definition holds (l : live) (b : nat) (c : list nat) (v : server) : Prop := live_of v = l /\ sv_built v = b /\ sv_closed v = c.
(** What the other goroutines leave alone. *)
Definition leaves_alone (f : server -> server) : Prop := forall v, holds (live_of v) (sv_built v) (sv_closed v) (f v).
Lemma leaves_holds f l b c v : leaves_alone f -> holds l b c v -> holds l b c (f v).
Proof. intros Hf (<- & <- & <-). apply Hf. Qed.
#[local] Hint Resolve preserves_ret preserves_fail preserves_bind preserves_try : core.
Lemma srv_preserves_assign {DB} (I : DB -> Prop) f : (forall d, I d -> I (f d)) -> preserves I (assign f).
Proof. intros H. by apply hoare_assign. Qed.
Lemma srv_preserves_look {DB A} (I : DB -> Prop) (f : DB -> A) : preserves I (look f).
Proof. by apply hoare_look. Qed.
Lemma preserves_lift {DB A} (I : DB -> Prop) (r : res string A) : preserves I (lift r).
Proof. by apply hoare_lift. Qed.
#[local] Hint Resolve srv_preserves_look preserves_lift : core.
Lemma on_service_keeps {A} svc (m : Sql AuthWorld A) l b c : preserves (holds l b c) (on_service svc m).
Proof. intros s Hs. unfold on_service, zoom. destruct (m _) as [t [a|e]]; exact Hs. Qed.
Lemma reconfigure_keeps snap resolved l b c : preserves (holds l b c) (reconfigureAuthenticationResolved snap resolved).
Proof.
  unfold reconfigureAuthenticationResolved, reconfigurePassword, reconfigureForward. apply preserves_bind; [|intros _]; apply preserves_bind; auto; intros [x|]; auto; destruct (String.eqb _ _); auto.
  - destruct (Admin _); [apply on_service_keeps|auto].
  - destruct (Forward _); [|auto]. destruct (forward_Reconfigure _ _) as [g r]. apply preserves_bind; auto. by apply srv_preserves_assign.
Qed.

Lemma resolve_secrets_keeps providers snap l b c : preserves (holds l b c) (resolve_secrets providers snap).
Proof.
  unfold resolve_secrets, track_known. apply preserves_bind; auto. intros known. destruct (ResolveAll _ _ _) as [[resolved diags] known']. apply preserves_bind; auto. by apply srv_preserves_assign.
Qed.
Lemma reconfigureAuthentication_keeps E snap l b c : preserves (holds l b c) (reconfigureAuthentication E snap).
Proof.
  unfold reconfigureAuthentication. apply preserves_bind; [apply resolve_secrets_keeps|]. intros [resolved diags]. destruct (HasErrors diags); auto using reconfigure_keeps.
Qed.
Lemma rules_Evaluate_keeps E ids l b c : preserves (holds l b c) (rules_Evaluate E ids).
Proof.
  intros s (Hl & Hb & Hc). unfold rules_Evaluate. destruct (EvaluateNow _ _ _ _ _ _ _ _ _) as [[[m t] wake] err] eqn:Ev. apply EvaluateNow_keeps in Ev as [E1 E2].
  assert (H : holds l b c (set_dispatcher (if wake then Wake (sv_dispatcher (db s)) else sv_dispatcher (db s)) (set_rules m (set_tables (db t) (db s))))).
  { split; [|done]. rewrite <- Hl. unfold live_of. cbn. rewrite E1, E2. by destruct wake. }
  by destruct err.
Qed.
(** Replacing one configured part, or none when the call fails. *)
Definition with_rules (r : gmap string RuleDef) (d : gmap string RuleCard) (l : live) : live :=
  {| lv_cards := lv_cards l; lv_rules := r; lv_declarations := d; lv_channels := lv_channels l; lv_registry := lv_registry l; lv_current := lv_current l |}.
Definition with_channels (h : gmap string OutChannel) (l : live) : live :=
  {| lv_cards := lv_cards l; lv_rules := lv_rules l; lv_declarations := lv_declarations l; lv_channels := h; lv_registry := lv_registry l; lv_current := lv_current l |}.
Definition with_cards (cs : gmap string PlannedCard) (l : live) : live :=
  {| lv_cards := cs; lv_rules := lv_rules l; lv_declarations := lv_declarations l; lv_channels := lv_channels l; lv_registry := lv_registry l; lv_current := lv_current l |}.
Lemma rules_Apply_sets ds decls l b c :
  hoare (holds l b c) (rules_Apply ds decls) (fun _ => holds (with_rules (index_by rd_ID ds) decls l) b c) (holds l b c).
Proof.
  intros s Hs. unfold rules_Apply, sql_bind, on_db, zoom. destruct (ApplyRules ds decls _) as [t [m|e]] eqn:E; [|exact Hs].
  cbn [assign db faults]. unfold ApplyRules in E. apply bind_Ok in E as (s1 & [defs' states'] & E & [= <- <-]).
  apply prepare_rules_indexes in E as ->. destruct Hs as (<- & <- & <-). done.
Qed.
Lemma manager_Apply_sets E now st ds l b c :
  hoare (holds l b c) (manager_Apply E now st ds) (fun _ => holds (with_cards (indexed_cards ds) l) b c) (holds l b c).
Proof.
  intros s Hs. unfold manager_Apply, sql_bind, look. destruct (Scheduler.Apply _ _ _ _ _) as [m|e] eqn:Em; cbn [res_map_err lift sql_ret sql_fail]; [|exact Hs].
  cbn [assign db faults]. apply Apply_cards in Em. destruct Hs as (<- & <- & <-). split; [|done]. unfold live_of, with_cards. cbn. by rewrite Em.
Qed.
Lemma dispatcher_Apply_sets h l b c E : hoare (holds l b c) (dispatcher_Apply h) (fun _ => holds (with_channels h l) b c) E.
Proof. apply hoare_assign. intros v (<- & <- & <-). done. Qed.

(** An error the code looks at is never one of its own. *)
Lemma hoare_tried {DB A} (m : Sql DB A) P Q E Q' E' :
  hoare P m Q E -> (forall a d, Q a d -> Q' (Ok a) d) -> (forall e d, E d -> Q' (Err e) d) -> hoare P (sql_try m) Q' E'.
Proof. intros Hm H1 H2 s HP. specialize (Hm s HP). unfold sql_try. destruct (m s) as [s' [a|e]]; auto. Qed.

Section Activation.
Variable E : surroundings.
Hypothesis others_alone : forall n, leaves_alone (e_others E n).
Lemma others_keep n l b c : preserves (holds l b c) (run_others E n).
Proof. apply srv_preserves_assign. intros v. by apply leaves_holds. Qed.

(** What a rollback leaves: the registry and the runtimes as they are, and, if nothing went wrong, what was there before. *)
Definition rolled_back (l : live) (b : nat) (c : list nat) (v : server) (a : activation) : Prop :=
  match a with
  | Activated => False
  | Refused _ [] => holds l b c v
  | Refused _ _ => exists l', holds l' b c v /\ lv_registry l' = lv_registry l /\ lv_current l' = lv_current l
  end.
(** The previous parts, as they are found in a server that is well kept. *)
Definition remembers (p : previous) (l : live) : Prop :=
  indexed_cards (pv_scheduler p) = lv_cards l /\ index_by rd_ID (pv_rules p) = lv_rules l
  /\ pv_declarations p = lv_declarations l /\ pv_channels p = lv_channels l.
Lemma previous_remembers snap v : well_kept (live_of v) -> remembers (previous_of snap v) (live_of v).
Proof.
  intros [Hc Hr]. split; [|split; [|done]].
  - unfold previous_of, pv_scheduler, Definitions, indexed_cards. rewrite <- (index_by_back (d_ID : PlannedCard -> string) (lv_cards (live_of v))) by (intros k x Hx; by apply Hc).
    cbn [live_of lv_cards] in *. rewrite map_to_list_fmap. unfold index_by. f_equal. rewrite !map_map. apply map_ext_in. intros [k d] Hd%list_elem_of_In%elem_of_map_to_list.
    cbn. destruct (Hc k (with_generation 0 d)) as [_ He]; [by rewrite lookup_fmap, Hd|]. exact He.
  - by apply index_by_back.
Qed.
Lemma rollback_rules_sets p l0 l b c :
  remembers p l0 -> hoare (holds l b c) (rollback_rules E p) (fun _ => holds (with_channels (lv_channels l0) (with_rules (lv_rules l0) (lv_declarations l0) l)) b c)
    (fun v => exists r d, holds (with_channels (lv_channels l0) (with_rules r d l)) b c v).
Proof.
  intros (_ & Hr & Hd & Hh). unfold rollback_rules.
  set (R := fun (r : res string unit) v => exists rs ds, holds (with_rules rs ds l) b c v /\ (is_ok r = true -> rs = lv_rules l0 /\ ds = lv_declarations l0)).
  apply hoare_bind with (R := R).
  - apply (hoare_tried _ _ (fun _ => holds (with_rules (lv_rules l0) (lv_declarations l0) l) b c) (fun v => exists rs ds, holds (with_rules rs ds l) b c v) R _); unfold R.
    + apply hoare_bind with (R := fun _ => holds (with_rules (lv_rules l0) (lv_declarations l0) l) b c).
      * rewrite Hd. eapply hoare_conseq; [apply rules_Apply_sets|done|by rewrite Hr|]. intros v Hv. exists (lv_rules l), (lv_declarations l). by destruct l.
      * intros _. apply hoare_bind with (R := fun _ => holds (with_rules (lv_rules l0) (lv_declarations l0) l) b c).
        -- eapply hoare_conseq; [apply others_keep|done|done|]. eauto.
        -- intros _. eapply hoare_conseq; [apply rules_Evaluate_keeps|done|done|]. eauto.
    + eauto.
    + intros e v (rs & ds & Hv). exists rs, ds. done.
  - intros r. apply hoare_bind with (R := fun _ v => exists rs ds, holds (with_channels (lv_channels l0) (with_rules rs ds l)) b c v /\ (is_ok r = true -> rs = lv_rules l0 /\ ds = lv_declarations l0)).
    + intros s (rs & ds & Hs & Hok). pose proof (dispatcher_Apply_sets (pv_channels p) _ _ _ (fun _ => False) s Hs) as Ha. destruct (dispatcher_Apply _ s) as [s' [u|e]]; [|done].
      rewrite Hh in Ha. eauto.
    + intros _. apply hoare_lift; [intros u v -> (rs & ds & Hv & Hok)|intros v (rs & ds & Hv & _); eauto]. destruct (Hok eq_refl) as [-> ->]. done.
Qed.

(** How far a state is from what was there: which of the parts may differ. *)
Record strayed (cards rules : bool) (l0 l : live) : Prop := {
  st_registry : lv_registry l = lv_registry l0; st_current : lv_current l = lv_current l0;
  st_cards : cards = false -> lv_cards l = lv_cards l0;
  st_rules : rules = false -> lv_rules l = lv_rules l0 /\ lv_declarations l = lv_declarations l0 /\ lv_channels l = lv_channels l0 }.
Definition astray (cards rules : bool) (l0 : live) (b : nat) (c : list nat) (v : server) : Prop := exists l, holds l b c v /\ strayed cards rules l0 l.
Lemma strayed_none l0 l : strayed false false l0 l -> l = l0.
Proof. intros [Hr Hc Hk Hl]. specialize (Hk eq_refl). destruct (Hl eq_refl) as (H1 & H2 & H3). destruct l, l0. cbn in *. by subst. Qed.
Lemma strayed_refl l : strayed false false l l.
Proof. by constructor. Qed.
Lemma astray_keeps {A} (m : Serve A) k r l0 b c : (forall l, preserves (holds l b c) m) -> preserves (astray k r l0 b c) m.
Proof. intros Hm s (l & Hs & Hl). specialize (Hm l s Hs). destruct (m s) as [s' [a|e]]; by exists l. Qed.
Lemma others_stray n k r l0 b c X : hoare (astray k r l0 b c) (run_others E n) (fun _ => astray k r l0 b c) X.
Proof. apply hoare_assign. intros v (l & Hs & Hl). exists l. split; [|done]. by apply leaves_holds. Qed.

Lemma restore_cards p l0 k r b c : remembers p l0 ->
  hoare (astray k r l0 b c) (sql_try (manager_Apply E (e_clock E 2) (e_store_at E 1) (pv_scheduler p)))
    (fun x => astray (k && negb (is_ok x)) r l0 b c) (fun _ => False).
Proof.
  intros (Hp & _) s (l & Hs & Hl). pose proof (manager_Apply_sets E (e_clock E 2) (e_store_at E 1) (pv_scheduler p) l b c s Hs) as Hm.
  unfold sql_try. destruct (manager_Apply _ _ _ _ s) as [s' [u|e]]; destruct Hl as [H1 H2 H3 H4].
  - exists (with_cards (lv_cards l0) l). rewrite <- Hp. split; [done|]. rewrite Hp. by constructor.
  - exists l. split; [done|]. cbn [is_ok negb]. rewrite andb_true_r. by constructor.
Qed.
Lemma restore_rules p l0 k r b c : remembers p l0 ->
  hoare (astray k r l0 b c) (sql_try (rollback_rules E p)) (fun x => astray k (negb (is_ok x)) l0 b c) (fun _ => False).
Proof.
  intros Hp s (l & Hs & [H1 H2 H3 H4]). pose proof (rollback_rules_sets p l0 l b c Hp s Hs) as Hm. unfold sql_try. destruct (rollback_rules E p s) as [s' [u|e]].
  - eexists. split; [exact Hm|]. by constructor.
  - destruct Hm as (rs & ds & Hm). eexists. split; [exact Hm|]. by constructor.
Qed.
Lemma appendIfError_app errs r : appendIfError errs r = errs ++ appendIfError [] r.
Proof. destruct r; cbn; [by rewrite app_nil_r|done]. Qed.
Lemma no_errors (r : res string unit) : appendIfError [] r = [] -> is_ok r = true.
Proof. by destruct r. Qed.
Lemma rollback_restores p l0 cause k r a b c :
  remembers p l0 -> hoare (astray k r l0 b c) (rollback E p cause k r a) (fun x v => rolled_back l0 b c v x) (fun _ => False).
Proof.
  intros Hp. unfold rollback.
  apply hoare_bind with (R := fun x => astray (negb (is_ok x)) r l0 b c).
  { destruct k; [eapply hoare_conseq; [by apply (restore_cards p l0 true)|done..]|by apply hoare_ret]. }
  intros r1. apply hoare_bind with (R := fun _ => astray (negb (is_ok r1)) r l0 b c); [apply others_stray|].
  intros _. apply hoare_bind with (R := fun x => astray (negb (is_ok r1)) (negb (is_ok x)) l0 b c).
  { destruct r; [by apply restore_rules|by apply hoare_ret]. }
  intros r2. apply hoare_bind with (R := fun _ => astray (negb (is_ok r1)) (negb (is_ok r2)) l0 b c); [apply others_stray|].
  intros _. apply hoare_bind with (R := fun _ => astray (negb (is_ok r1)) (negb (is_ok r2)) l0 b c).
  { destruct a; [|by apply hoare_ret]. apply (hoare_tried _ _ (fun _ => astray (negb (is_ok r1)) (negb (is_ok r2)) l0 b c) (astray (negb (is_ok r1)) (negb (is_ok r2)) l0 b c)); [|done|done].
    apply astray_keeps. intros l. apply reconfigureAuthentication_keeps. }
  intros r3. apply hoare_ret. intros v (l & Hv & Hl). unfold rolled_back. rewrite (appendIfError_app (appendIfError _ r2)), (appendIfError_app (appendIfError [] r1)).
  destruct ((appendIfError [] r1 ++ appendIfError [] r2) ++ appendIfError [] r3) as [|e es] eqn:He.
  - apply app_eq_nil in He as [[H1 H2]%app_eq_nil _]. rewrite (no_errors _ H1), (no_errors _ H2) in Hl. cbn [negb] in Hl. apply strayed_none in Hl as ->. done.
  - exists l. by destruct Hl.
Qed.

Definition closing (old : option Generation) (c : list nat) : list nat := match old with Some g => g_runtimes g :: c | None => c end.
(** How the calls end. *)
Definition switched (l0 : live) (b : nat) (c : list nat) (l : live) (a : activation) (v : server) : Prop :=
  match a with Activated => holds l b (closing (lv_current l0) c) v | Refused _ _ => rolled_back l0 b c v a end.
Lemma refuse_restores p l0 l cause k r a b c l' :
  remembers p l0 -> strayed k r l0 l -> hoare (holds l b c) (rollback E p cause k r a) (switched l0 b c l') (fun _ => False).
Proof.
  intros Hp Hl. eapply hoare_conseq; [by apply (rollback_restores p l0 cause k r a b c)| | |done].
  - intros v Hv. by exists l.
  - intros [|e es] v Hv; done.
Qed.
(** A call that sets a part or leaves everything. *)
Lemma tried_sets (m : Serve unit) l l' b c X :
  hoare (holds l b c) m (fun _ => holds l' b c) (holds l b c) ->
  hoare (holds l b c) (sql_try m) (fun x => holds (if is_ok x then l' else l) b c) X.
Proof. intros Hm. by eapply hoare_tried. Qed.
Lemma others_pass n l b c X : hoare (holds l b c) (run_others E n) (fun _ => holds l b c) X.
Proof. apply hoare_assign. intros v. by apply leaves_holds. Qed.
Lemma tried_keeps {A} (m : Serve A) l b c X : preserves (holds l b c) m -> hoare (holds l b c) (sql_try m) (fun _ => holds l b c) X.
Proof. intros Hm. by apply (hoare_tried _ _ (fun _ => holds l b c) (holds l b c)). Qed.

Lemma switch_ends p snap reg resolved next channels l0 b c :
  remembers p l0 -> hoare (holds l0 b c) (switch E p snap reg resolved next channels) (switched l0 b c (live_generation reg channels next)) (fun _ => False).
Proof.
  intros Hp. unfold switch. eapply hoare_bind; [apply (tried_keeps _ l0 b c), reconfigure_keeps|]. intros [u|e]; [|by apply hoare_ret].
  eapply hoare_bind; [by apply (hoare_look _ _ (fun _ => holds l0 b c))|]. intros s. set (a := _ || _). clearbody a.
  eapply hoare_bind; [apply others_pass|]. intros []. eapply hoare_bind; [eapply tried_sets, rules_Apply_sets|]. intros [u1|e]; cbn [is_ok]; [|apply refuse_restores; [done|by constructor]].
  eapply hoare_bind; [apply others_pass|]. intros []. eapply hoare_bind; [apply dispatcher_Apply_sets|]. intros [].
  eapply hoare_bind; [eapply tried_sets, manager_Apply_sets|]. intros [u2|e]; cbn [is_ok]; [|apply refuse_restores; [done|by constructor]].
  eapply hoare_bind; [apply others_pass|]. intros []. eapply hoare_bind; [apply tried_keeps, rules_Evaluate_keeps|]. intros [u3|e]; [|apply refuse_restores; [done|by constructor]].
  eapply hoare_bind; [apply others_pass|]. intros [].
  set (l := with_cards _ _).
  eapply hoare_bind with (R := fun _ v => holds (live_generation reg channels next) b c (set_current (Some next) (sv_built v) (sv_closed v) v) /\ sv_current v = lv_current l0).
  - apply hoare_assign. intros v (Hl & <- & <-). assert (Hc := f_equal lv_current Hl). split; [|exact Hc]. split; [|done].
    unfold live_of, live_generation in *. cbn. unfold l in Hl. destruct l0. cbn in Hl. injection Hl as -> -> -> -> _ _. done.
  - intros _. eapply hoare_bind with (R := fun _ => holds (live_generation reg channels next) b (closing (lv_current l0) c)); [|intros _; by apply hoare_ret].
    apply hoare_assign. intros v [Hv Hcur]. unfold holder_Swap. rewrite Hcur. destruct (lv_current l0) as [g|]; [|exact Hv].
    destruct Hv as (Hl & Hb & Hc). cbn [fmap option_fmap option_map close_runtimes closing]. split; [exact Hl|]. split; [exact Hb|]. cbn in *. by rewrite Hc.
Qed.
End Activation.

(** What a configuration's runtime is built from: every secret it names was resolved, the registry is that of its
    connections, the generation that of its cards under the lock, the rules compiled against those, and the channels. *)
Definition built_from (E : surroundings) (snap : Snapshot) (generation : Z) (l : live) : Prop :=
  exists known resolved diags known' known'' known3 reg revisions n next channels,
    ResolveAll (e_providers E) known (SecretRefs snap) = (resolved, diags, known') /\ HasErrors diags = false
    /\ New_registry (e_url_parse E) (e_ca_file E) known'' (e_conn_order E (map_to_list (Connections (snap_Config snap)))) resolved = (known3, Ok reg)
    /\ BuildWithRules E snap generation reg revisions n = Ok next
    /\ BuildChannels (Channels (snap_Config snap)) resolved = Ok channels
    /\ l = live_generation reg channels next.
Lemma res_map_err_Ok {E E' A} (f : E -> E') (r : res E A) a : res_map_err f r = Ok a -> r = Ok a.
Proof. by destruct r; [intros [= ->]|]. Qed.
Lemma indexed_well_kept reg channels g : well_kept (live_generation reg channels g).
Proof.
  constructor; cbn [live_generation lv_cards lv_rules]; intros id d Hd; apply index_by_inv in Hd as [Hin Hid]; split_and?; try done.
  apply list_elem_of_In, in_map_iff in Hin as (d0 & <- & _). unfold with_generation, with_defaults. cbn. destruct d0 as [i h k md ar sr rf to so ru di hi ty g0]. cbn. f_equal.
  - destruct (Z.leb_spec rf 0) as [H|H]; [done|]. by rewrite (proj2 (Z.leb_gt rf 0)).
  - destruct (Z.leb_spec to 0) as [H|H]; [done|]. by rewrite (proj2 (Z.leb_gt to 0)).
Qed.

Section Build.
Variable E : surroundings.
(** A build ends with runtimes opened and not closed, or with none open that was not. *)
Definition unbuilt (l : live) (b : nat) (c : list nat) (v : server) : Prop := holds l b c v \/ holds l (S b) (b :: c) v.
Lemma or_close_holds {A} n (r : res string A) l b c :
  n = b -> hoare (holds l (S b) c) (or_close n r) (fun a v => holds l (S b) c v /\ r = Ok a) (unbuilt l b c).
Proof.
  intros ->. destruct r as [a|e]; cbn [or_close]; [apply hoare_ret; by intros v Hv|]. apply hoare_bind with (R := fun _ => unbuilt l b c); [|intros []; by apply hoare_fail].
  apply hoare_assign. intros v (Hl & Hb & Hc). right. split; [exact Hl|]. cbn. split; [done|]. by rewrite Hc.
Qed.
Lemma build_connections_holds cfg resolved l b c :
  hoare (holds l b c) (build_connections E cfg resolved)
    (fun x v => holds l b c v /\ exists known known', New_registry (e_url_parse E) (e_ca_file E) known (e_conn_order E (map_to_list (Connections cfg))) resolved = (known', Ok x.1))
    (holds l b c).
Proof.
  unfold build_connections. eapply hoare_bind; [by apply (hoare_look _ _ (fun _ => holds l b c))|]. intros known. cbn beta.
  destruct (New_registry _ _ _ _ _) as [known1 r] eqn:Er. eapply hoare_bind with (R := fun _ => holds l b c); [by apply hoare_assign|]. intros [].
  destruct r as [reg|e]; cbn [res_map_err lift]; [|eapply hoare_bind with (R := fun _ _ => False); [by apply hoare_fail|by intros ? ? ?]].
  eapply hoare_bind; [by apply (hoare_ret reg _ (fun x v => holds l b c v /\ x = reg))|]. intros x. cbn beta. destruct (MaterialHMACs _ _ _ _ _ _ _) as [known2 m].
  eapply hoare_bind with (R := fun _ v => holds l b c v /\ x = reg); [by apply hoare_assign|]. intros []. cbn beta.
  eapply hoare_bind with (R := fun _ v => holds l b c v /\ x = reg); [apply hoare_lift; [done|by intros v []]|]. intros material. cbn beta.
  apply hoare_ret. intros v [Hv ->]. split; [done|]. eauto.
Qed.
Lemma buildRuntime_holds snap generation l b c :
  hoare (holds l b c) (buildRuntime E snap generation)
    (fun x v => let '(reg, _, next, channels) := x in holds l (S b) c v /\ g_runtimes next = b /\ built_from E snap generation (live_generation reg channels next))
    (unbuilt l b c).
Proof.
  unfold buildRuntime. eapply hoare_bind with (R := fun x v => holds l b c v /\ exists known known', ResolveAll (e_providers E) known (SecretRefs snap) = (x.1, x.2, known')).
  { intros s Hs. unfold resolve_secrets, sql_bind, look. destruct (ResolveAll _ _ _) as [[resolved diags] known'] eqn:Er. cbn. split; [done|]. eauto. }
  intros [resolved diags]. destruct (HasErrors diags) eqn:Hd; [apply hoare_fail; intros v [Hv _]; by left|].
  eapply hoare_bind with (R := fun x v => holds l b c v /\ (exists known known', ResolveAll (e_providers E) known (SecretRefs snap) = (resolved, diags, known'))
    /\ exists known known', New_registry (e_url_parse E) (e_ca_file E) known (e_conn_order E (map_to_list (Connections (snap_Config snap)))) resolved = (known', Ok x.1)).
  { intros s [Hs Hx]. pose proof (build_connections_holds (snap_Config snap) resolved l b c s Hs) as H. destruct (build_connections _ _ _ s) as [s' [x|e]]; [|by left]. by destruct H. }
  intros [reg material]. set (P1 := exists known known', ResolveAll _ _ _ = _). set (P2 := exists known known', New_registry _ _ _ _ _ = _). cbn beta.
  eapply hoare_bind with (R := fun _ v => holds l b c v /\ P1 /\ P2).
  { eapply hoare_conseq; [apply (on_db_keeps _ (fun v => holds l b c v /\ P1 /\ P2))|done|done|]; [by intros t v|]. intros v [Hv _]. by left. }
  intros revisions. eapply hoare_bind with (R := fun n v => holds l (S b) c v /\ n = b /\ P1 /\ P2).
  { intros s (Hs & Hp). unfold open_runtimes, sql_bind, look. cbn. destruct Hs as (<- & <- & <-). done. }
  intros n. eapply hoare_bind with (R := fun next v => holds l (S b) c v /\ n = b /\ BuildWithRules E snap generation reg revisions n = Ok next /\ P1 /\ P2).
  { intros s (Hs & Hn & Hp). pose proof (or_close_holds n (BuildWithRules E snap generation reg revisions n) l b c Hn s Hs) as H. destruct (or_close _ _ s) as [s' [x|e]]; [|done]. by destruct H. }
  intros next. eapply hoare_bind with (R := fun channels v => holds l (S b) c v /\ n = b /\ BuildWithRules E snap generation reg revisions n = Ok next /\ BuildChannels (Channels (snap_Config snap)) resolved = Ok channels /\ P1 /\ P2).
  { intros s (Hs & Hn & Hb & Hp). pose proof (or_close_holds n (res_map_err (e_channel_text E) (BuildChannels (Channels (snap_Config snap)) resolved)) l b c Hn s Hs) as H.
    destruct (or_close _ _ s) as [s' [x|e]]; [|done]. destruct H as [H ->%res_map_err_Ok]. done. }
  intros channels. apply hoare_ret. intros v (Hv & -> & Hb & Hc & (k1 & k2 & H1) & k3 & k4 & H2). split; [done|].
  split; [|exists k1, resolved, diags, k2, k3, k4, reg, revisions, b, next, channels; done].
  unfold BuildWithRules in Hb. apply res_bind_Ok in Hb as (lock & _ & Hb). apply res_bind_Ok in Hb as ([ds loads] & _ & Hb). apply res_bind_Ok in Hb as (rules & _ & [= <-]). done.
Qed.
End Build.

Section Serving.
Variable E : surroundings.
Hypothesis others_alone : forall n, leaves_alone (e_others E n).

Definition ended (snap : Snapshot) (generation : Z) (l : live) (b : nat) (c : list nat) (a : activation) (v : server) : Prop :=
  match a with
  | Activated => exists reg channels next, holds (live_generation reg channels next) (S b) (closing (lv_current l) c) v
      /\ g_runtimes next = b /\ built_from E snap generation (live_generation reg channels next)
  | Refused _ [] => unbuilt l b c v
  | Refused _ _ => exists l', holds l' (S b) (b :: c) v /\ lv_registry l' = lv_registry l /\ lv_current l' = lv_current l
  end.
Lemma activate_ends snap prev generation l b c : well_kept l -> hoare (holds l b c) (activateRuntime E snap prev generation) (ended snap generation l b c) (fun _ => False).
Proof.
  intros Hwk. unfold activateRuntime.
  set (R := fun (x : res string (registry * gmap string Value * Generation * gmap string OutChannel)) v => match x with
    | Ok (reg, _, next, channels) => holds l (S b) c v /\ g_runtimes next = b /\ built_from E snap generation (live_generation reg channels next)
    | Err _ => unbuilt l b c v end).
  apply hoare_bind with (R := R).
  { eapply hoare_tried; [apply buildRuntime_holds| |done]. by intros [[[reg resolved] next] channels] v. }
  unfold R. intros [[[[reg resolved] next] channels]|e]; [|by apply hoare_ret].
  set (K := g_runtimes next = b /\ built_from E snap generation (live_generation reg channels next)).
  apply hoare_bind with (R := fun _ v => holds l (S b) c v /\ K).
  { apply hoare_assign. intros v [Hv Hk]. split; [by apply leaves_holds|done]. }
  intros _. apply hoare_bind with (R := fun p v => holds l (S b) c v /\ K /\ remembers p l).
  { apply hoare_look. intros v [Hv Hk]. split; [done|]. split; [done|]. destruct Hv as (<- & _). by apply previous_remembers. }
  intros p. apply hoare_bind with (R := fun a v => K /\ switched l (S b) c (live_generation reg channels next) a v).
  { intros s (Hs & Hk & Hp). pose proof (switch_ends E others_alone p snap reg resolved next channels l (S b) c Hp s Hs) as H. by destruct (switch _ _ _ _ _ _ _ s) as [s' [a|e]]. }
  intros [|cause errs].
  - apply hoare_ret. intros v [[Hn Hb] Hv]. by exists reg, channels, next.
  - apply hoare_bind with (R := fun _ => ended snap generation l b c (Refused cause errs)); [|intros []; by apply hoare_ret].
    apply hoare_assign. intros v [[Hn _] Hv]. cbn [switched rolled_back] in Hv. unfold ended. destruct errs as [|e errs].
    + right. destruct Hv as (H1 & H2 & H3). split; [exact H1|]. split; [exact H2|]. cbn. by rewrite Hn, H3.
    + destruct Hv as (l' & (H1 & H2 & H3) & Hrest). exists l'. split; [|done]. split; [exact H1|]. split; [exact H2|]. cbn. by rewrite Hn, H3.
Qed.

Lemma or_stop_sets next m l l' b c :
  hoare (holds l b c) m (fun _ => holds l' b c) (holds l b c) -> hoare (holds l b c) (or_stop next m) (fun _ => holds l' b c) (fun _ => True).
Proof.
  intros Hm. unfold or_stop. eapply hoare_bind; [by eapply tried_sets|]. intros [u|e]; cbn [is_ok]; [by apply hoare_ret|].
  apply hoare_bind with (R := fun _ _ => True); [by apply hoare_assign|]. intros []. by apply hoare_fail.
Qed.
Lemma start_ends snap generation l c :
  lv_current l = None ->
  hoare (holds l 0 c) (startRuntime E snap generation)
    (fun _ v => exists reg channels next, holds (live_generation reg channels next) 1 c v /\ g_runtimes next = 0 /\ built_from E snap generation (live_generation reg channels next))
    (fun _ => True).
Proof.
  intros Hc. unfold startRuntime. eapply hoare_bind; [eapply hoare_conseq; [apply (buildRuntime_holds E snap generation l 0 c)|done..]|].
  intros [[[reg resolved] next] channels]. cbn beta iota. intros s (Hs & K). revert s Hs. change (hoare (holds l 1 c)
    (do* _ <- or_stop next (manager_Apply E (e_clock E 1) (e_store_at E 0) (g_Definitions next));
     do* _ <- assign (set_dispatcher (NewDispatcher channels {| dc_MaxAttempts := 0; dc_RetryBase := 0; dc_PollEvery := 0 |}));
     do* _ <- run_others E 1; do* _ <- or_stop next (rules_Apply (g_RuleDefinitions next) (g_RuleDeclarations next));
     do* _ <- run_others E 2; do* _ <- or_stop next (rules_Evaluate E (e_ticks E 0)); do* _ <- run_others E 3;
     assign (fun s => set_registry (Some reg) (set_current (Some next) (sv_built s) (sv_closed s) s)))
    (fun _ v => exists reg channels next, holds (live_generation reg channels next) 1 c v /\ g_runtimes next = 0 /\ built_from E snap generation (live_generation reg channels next)) (fun _ => True)).
  eapply hoare_bind; [eapply or_stop_sets, manager_Apply_sets|]. intros [].
  eapply hoare_bind with (R := fun _ => holds (with_channels channels (with_cards (indexed_cards (g_Definitions next)) l)) 1 c).
  { apply hoare_assign. by intros v (<- & <- & <-). }
  intros []. eapply hoare_bind; [by apply others_pass|]. intros []. eapply hoare_bind; [eapply or_stop_sets, rules_Apply_sets|]. intros [].
  eapply hoare_bind; [by apply others_pass|]. intros []. eapply hoare_bind; [eapply or_stop_sets, rules_Evaluate_keeps|]. intros [].
  eapply hoare_bind; [by apply others_pass|]. intros [].
  apply hoare_assign. intros v (Hl & Hb & Hcl). exists reg, channels, next. split; [|done]. split; [|done].
  unfold live_of in *. cbn. destruct l. cbn in Hl. injection Hl as -> -> -> -> _ _. done.
Qed.
End Serving.

(** ** The server over its life *)

(** Runtimes opened are those of the current generation or were closed, once. *)
Definition accounted (v : server) : Prop := option_list (g_runtimes <$> sv_current v) ++ sv_closed v ≡ₚ seq 0 (sv_built v).
(** What runs is built from the configuration that is live. *)
Definition serves (st : ConfigStore.Store) (v : server) : Prop :=
  exists E generation snap, sr_current st = Some snap /\ built_from E snap generation (live_of v).
Definition clean (a : option (res string activation)) : Prop := forall cause e errs, a <> Some (Ok (Refused cause (e :: errs))).
Definition unstarted (auth : option AuthService) (forward : option forwardGeneration) (known : Secrets.Registry) (d : DB) : server :=
  {| sv_tables := d; sv_known := known; sv_manager := NewManager; sv_rules := NewRuleManager;
     sv_dispatcher := {| dp_config := config_defaults {| dc_MaxAttempts := 0; dc_RetryBase := 0; dc_PollEvery := 0 |}; dp_channels := ∅; dp_wake := false |};
     sv_auth := auth; sv_forward := forward; sv_registry := None; sv_current := None; sv_built := 0; sv_closed := [] |}.
(** A server's life: started on the configuration the store was opened with, other work, and reloads
    whose rollback, if it came to one, went through. *)
Inductive lives (marshal : Config -> string) (sha256 : string -> string) : ConfigStore.Store -> server -> Prop :=
| lives_start E path load now auth forward known d fs snap s :
    (forall n, leaves_alone (e_others E n)) ->
    sr_current (Open marshal sha256 path load now).1 = Some snap ->
    startRuntime E snap 1 {| db := unstarted auth forward known d; faults := fs |} = (s, Ok tt) ->
    lives marshal sha256 (Open marshal sha256 path load now).1 (db s)
| lives_others st v f : lives marshal sha256 st v -> leaves_alone f -> lives marshal sha256 st (f v)
| lives_reload st v E load now fs st' s a :
    lives marshal sha256 st v -> (forall n, leaves_alone (e_others E n)) ->
    reload_runtime E marshal sha256 load now st {| db := v; faults := fs |} = (st', s, a) -> clean a ->
    lives marshal sha256 st' (db s).

Lemma built_well_kept E snap generation l : built_from E snap generation l -> well_kept l.
Proof. intros (? & ? & ? & ? & ? & ? & reg & ? & ? & next & channels & _ & _ & _ & _ & _ & ->). apply indexed_well_kept. Qed.
Lemma reload_kept marshal sha256 load act now st :
  good (activated (sr_path st) act (next_generation st) (load (sr_path st))) = None ->
  sr_current (reload marshal sha256 load act now st).1 = sr_current st.
Proof. intros H. unfold reload, commit_reload. by rewrite H. Qed.
Lemma reload_taken marshal sha256 load act now st snap :
  good (activated (sr_path st) act (next_generation st) (load (sr_path st))) = Some snap ->
  sr_current (reload marshal sha256 load act now st).1 = Some snap.
Proof. intros H. unfold reload, commit_reload. by rewrite H. Qed.
Lemma activated_refused path act next r snap e : good r = Some snap -> act snap next = Some e -> good (activated path (Some act) next r) = None.
Proof. intros H He. unfold activated. rewrite H, He. unfold good. cbn. unfold HasErrors. by rewrite existsb_app, orb_true_r. Qed.
Lemma activated_accepted path act next r snap : good r = Some snap -> act snap next = None -> good (activated path (Some act) next r) = Some snap.
Proof. intros H He. unfold activated. by rewrite H, He. Qed.

(** What holds of a server through its life. *)
Definition life_inv (st : ConfigStore.Store) (v : server) : Prop := serves st v /\ accounted v.
Lemma accounted_closing l b c reg channels next :
  option_list (g_runtimes <$> lv_current l) ++ c ≡ₚ seq 0 b -> g_runtimes next = b ->
  option_list (g_runtimes <$> lv_current (live_generation reg channels next)) ++ closing (lv_current l) c ≡ₚ seq 0 (S b).
Proof. intros H Hn. rewrite seq_S, <- H. cbn. rewrite Hn. rewrite (Permutation_app_comm _ [b]). by destruct (lv_current l). Qed.
Lemma accounted_closed (cur : option Generation) b c :
  option_list (g_runtimes <$> cur) ++ c ≡ₚ seq 0 b -> option_list (g_runtimes <$> cur) ++ b :: c ≡ₚ seq 0 (S b).
Proof. intros H. rewrite seq_S, <- H. cbn. rewrite <- Permutation_middle, (Permutation_app_comm _ [b]). done. Qed.
Lemma holds_accounted l b c v : holds l b c v -> option_list (g_runtimes <$> lv_current l) ++ c ≡ₚ seq 0 b -> accounted v.
Proof. intros (<- & <- & <-) H. exact H. Qed.
Lemma reload_life E marshal sha256 load now st s st' s' a :
  (forall n, leaves_alone (e_others E n)) -> life_inv st (db s) ->
  reload_runtime E marshal sha256 load now st s = (st', s', a) -> accounted (db s') /\ (clean a -> serves st' (db s')).
Proof.
  intros Ho [(E0 & g0 & cur & Hcur & Hb) Hacc]. unfold reload_runtime. rewrite Hcur. destruct (good (load (sr_path st))) as [snap|] eqn:Hg.
  - destruct (activateRuntime E snap cur (next_generation st) s) as [s1 r] eqn:Ea. intros [= <- <- <-].
    pose proof (activate_ends E Ho snap cur (next_generation st) (live_of (db s)) (sv_built (db s)) (sv_closed (db s)) (built_well_kept _ _ _ _ Hb) s) as Hend.
    rewrite Ea in Hend. specialize (Hend ltac:(done)). destruct r as [[|cause [|e errs]]|e]; cbn [ended] in Hend; [| | |done].
    + destruct Hend as (reg & channels & next & Hv & Hn & Hbf). split; [eapply holds_accounted; [exact Hv|by apply accounted_closing]|]. intros _. exists E, (next_generation st), snap.
      split; [by apply reload_taken, activated_accepted|]. by destruct Hv as (-> & _).
    + split; [destruct Hend as [Hv|Hv]; (eapply holds_accounted; [exact Hv|]); [done|by apply accounted_closed]|]. intros _. exists E0, g0, cur.
      split; [rewrite <- Hcur; apply reload_kept; by eapply activated_refused|]. by destruct Hend as [(-> & _)|(-> & _)].
    + destruct Hend as (l' & Hv & _ & Hc). split; [|by intros Hcl; destruct (Hcl cause e errs)]. eapply holds_accounted; [exact Hv|]. rewrite Hc. by apply accounted_closed.
  - intros [= <- <- <-]. split; [done|]. intros _. exists E0, g0, cur. split; [|done]. rewrite <- Hcur. apply reload_kept. unfold activated. by rewrite Hg.
Qed.
Lemma lives_inv marshal sha256 st v : lives marshal sha256 st v -> life_inv st v.
Proof.
  induction 1 as [E path load now auth forward known d fs snap s Ho Hsnap Hs|st v f _ [(E & g & snap & Hc & Hb) Ha] Hf|st v E load now fs st' s a _ IH Ho Hr Hcl].
  - pose proof (start_ends E Ho snap 1 (live_of (unstarted auth forward known d)) [] eq_refl {| db := unstarted auth forward known d; faults := fs |}) as H.
    rewrite Hs in H. destruct H as (reg & channels & next & Hv & Hn & Hb); [done|]. split.
    + exists E, 1%Z, snap. split; [done|]. by destruct Hv as (-> & _).
    + eapply holds_accounted; [exact Hv|]. cbn. by rewrite Hn.
  - specialize (Hf v). destruct Hf as (H1 & H2 & H3). split; [exists E, g, snap; by rewrite H1|].
    assert (H4 := f_equal lv_current H1). cbn in H4. unfold accounted in *. by rewrite H4, H2, H3.
  - destruct (reload_life E marshal sha256 load now st {| db := v; faults := fs |} st' s a Ho IH Hr) as [Ha Hs]. split; [by apply Hs|done].
Qed.

(** *** The loader *)

Lemma configLoader_cases override ps path r l l' out :
  configLoader override ps path r l = (l', out) ->
  match out.1 with
  | None => ld_mode l' = ld_mode l
  | Some a => exists ds sds,
      r = (Some a, ds) /\ HasErrors out.2 = false /\ sds = (ResolveAll ps (ld_secrets l) (SecretRefs a)).1.2 /\ out.2 = ds ++ sds
      /\ validateAuthNone override a = None /\ ld_mode l' = mode_of a /\ (ld_mode l = "" \/ ld_mode l = mode_of a)
  end.
Proof.
  unfold configLoader. destruct r as [[a|] ds]; [|by intros [= <- <-]]. destruct (HasErrors ds); [by intros [= <- <-]|].
  destruct (ResolveAll ps (ld_secrets l) (SecretRefs a)) as [[vals sds] reg] eqn:Er. destruct (HasErrors (ds ++ sds)) eqn:He; [by intros [= <- <-]|].
  destruct (validateAuthNone override a) eqn:Hv; [by intros [= <- <-]|]. cbn [ld_mode].
  destruct (String.eqb_spec (ld_mode l) "") as [Hm|Hm].
  - intros [= <- <-]. cbn [fst snd ld_mode]. exists ds, sds. rewrite Er. auto 10.
  - destruct (String.eqb_spec (mode_of a) (ld_mode l)) as [Hs|Hs]; intros [= <- <-]; [|done]. cbn [fst snd ld_mode]. exists ds, sds. rewrite Er. auto 10.
Qed.
Definition accepted (r : option Snapshot * list Diagnostic) (m : string) : Prop := forall a, r.1 = Some a -> mode_of a = m.
Lemma loads_pinned override ls : forall l, ld_mode l <> "" -> Forall (fun r => accepted r (ld_mode l)) (loads override l ls).
Proof.
  induction ls as [|x ls IH]; intros l Hl; cbn [loads]; [done|]. destruct (configLoader _ _ _ _ l) as [l' out] eqn:Ec. apply configLoader_cases in Ec.
  assert (Hm : ld_mode l' = ld_mode l /\ accepted out (ld_mode l)).
  { unfold accepted. destruct out.1 as [a|]; [|by split]. destruct Ec as (ds & sds & _ & _ & _ & _ & _ & Hl' & [H|H]); [done|]. rewrite Hl', H. split; [done|]. by intros b [= <-]. }
  destruct Hm as [Hm Ha]. constructor; [done|]. rewrite <- Hm. apply IH. by rewrite Hm.
Qed.
Lemma loads_one_mode override ls : Forall (fun x => forall a, (lo_result x).1 = Some a -> mode_of a <> "") ls ->
  forall l, ld_mode l = "" -> exists m, Forall (fun r => accepted r m) (loads override l ls).
Proof.
  induction 1 as [|x ls Hx _ IH]; intros l Hl; cbn [loads]; [by exists ""|]. destruct (configLoader _ _ _ _ l) as [l' out] eqn:Ec. apply configLoader_cases in Ec.
  destruct out as [[a|] ds]; cbn [fst] in *.
  - destruct Ec as (ds0 & sds & Hr & _ & _ & _ & _ & Hl' & _). exists (mode_of a). constructor; [by intros b [= <-]|]. rewrite <- Hl'. apply loads_pinned.
    rewrite Hl'. apply Hx. by rewrite Hr.
  - destruct (IH l') as [m Hm]; [by rewrite Ec|]. exists m. by constructor.
Qed.
Lemma loads_come_from override ls : forall l out a, out ∈ loads override l ls -> out.1 = Some a ->
  exists x, x ∈ ls /\ (lo_result x).1 = Some a /\ HasErrors out.2 = false /\ validateAuthNone override a = None
    /\ forall ref, ref ∈ SecretRefs a -> exists v, provided (lo_providers x) (loc_Name ref) = Ok (Some v).
Proof.
  induction ls as [|x ls IH]; intros l out a Hin Ha; cbn [loads] in Hin; [by apply elem_of_nil in Hin|].
  destruct (configLoader _ _ _ _ l) as [l' o] eqn:Ec. apply configLoader_cases in Ec. apply elem_of_cons in Hin as [->|Hin].
  - rewrite Ha in Ec. destruct Ec as (ds & sds & Hr & He & Hsd & Hout & Hv & _). exists x. split; [left|]. split; [by rewrite Hr|]. split; [done|]. split; [done|].
    intros ref Href. pose proof (resolve_all_exact (lo_providers x) (ld_secrets l) (SecretRefs a)) as H. destruct (ResolveAll _ _ _) as [[vals diags] reg]. cbn [fst snd] in Hsd. subst sds.
    destruct H as (_ & Hdiags & _). rewrite Hout in He. unfold HasErrors in He. rewrite existsb_app in He. apply orb_false_iff in He as [_ He].
    destruct (failure (lo_providers x) (loc_Name ref)) as [f|] eqn:Hf.
    + exfalso. assert (Hd : ref_diag ref f ∈ diags). { rewrite Hdiags. apply list_elem_of_omap. exists ref. split; [done|]. by rewrite Hf. }
      assert (existsb isError diags = true) by (apply existsb_exists; exists (ref_diag ref f); split; [by apply list_elem_of_In|done]). congruence.
    + unfold failure in Hf. destruct (provided _ _) as [[v|]|e]; [by exists v|done..].
  - destruct (IH l' out a Hin Ha) as (y & Hy & Hrest). exists y. split; [by right|done].
Qed.

(** A value somewhere inside another. *)
Inductive inside (x : any) : any -> Prop :=
| inside_here : inside x x
| inside_map k v m : (k, v) ∈ m -> inside x v -> inside x (AMap m)
| inside_list v l : v ∈ l -> inside x v -> inside x (AList l).
(** An object of type [actions] somewhere inside. *)
Definition has_action (v : any) : Prop := exists m, inside (AMap m) v /\ ("type", AString "actions") ∈ m.
Lemma containsAction_inside : forall v, containsAction v = true -> has_action v.
Proof.
  fix IH 1. intros v H. destruct v as [|b|s|z|s|f|t|o|l|m]; try discriminate H; cbn [containsAction] in H.
  - induction l as [|v l IHl]; [discriminate H|]. cbn [existsb] in H. apply orb_true_iff in H as [H|H].
    + destruct (IH v H) as (m & Hm & Hin). exists m. split; [|done]. eapply inside_list; [left|done].
    + destruct (IHl H) as (m & Hm & Hin). exists m. split; [|done]. inversion Hm as [|? ? ? ? ? E|w l' Hw Hx E]; subst. eapply inside_list; [right; exact Hw|done].
  - apply orb_true_iff in H as [H|H].
    + exists m. split; [constructor|]. apply existsb_exists in H as ([k v] & Hin & [Hk Hv]%andb_true_iff). cbn in Hk, Hv. apply String.eqb_eq in Hk as ->.
      destruct v; try discriminate Hv. apply String.eqb_eq in Hv as ->. by apply list_elem_of_In.
    + assert (Hg : exists k v, (k, v) ∈ m /\ has_action v).
      { induction m as [|[k v] m IHm]; [discriminate H|]. cbn [existsb snd] in H. apply orb_true_iff in H as [H|H].
        - exists k, v. split; [left|]. apply IH, H.
        - destruct (IHm H) as (k' & v' & Hin & Ha). exists k', v'. split; [by right|done]. }
      destruct Hg as (k & v & Hin & n & Hn & Ht). exists n. split; [by eapply inside_map|done].
Qed.
Lemma inside_containsAction v x : inside x v -> containsAction x = true -> containsAction v = true.
Proof.
  induction 1 as [|k v m Hin _ IH|v l Hin _ IH]; intros Hx; [done| |]; cbn [containsAction].
  - apply orb_true_iff. right. apply existsb_exists. exists (k, v). split; [by apply list_elem_of_In|auto].
  - apply existsb_exists. exists v. split; [by apply list_elem_of_In|auto].
Qed.
Lemma containsAction_exact v : containsAction v = true <-> has_action v.
Proof.
  split; [apply containsAction_inside|]. intros (m & Hm & Hin). eapply inside_containsAction; [exact Hm|]. cbn [containsAction]. apply orb_true_iff. left.
  apply existsb_exists. exists ("type", AString "actions"). split; [by apply list_elem_of_In|done].
Qed.
Lemma configuredActions_exact cfg :
  configuredActions cfg = true <->
  (exists id c d, Connections cfg !! id = Some c /\ Docker c = Some d /\ AllowActions d = true)
  \/ exists c, c ∈ all_cards cfg /\ has_action (AMap (card_View c)).
Proof.
  unfold configuredActions. rewrite orb_true_iff, !existsb_exists. split; (intros [H|H]; [left|right]).
  - destruct H as ([id c] & Hin & Hc). apply list_elem_of_In, elem_of_map_to_list in Hin. cbn in Hc. destruct (Docker c) as [d|] eqn:Hd; [|done]. by exists id, c, d.
  - destruct H as (s & Hs & Hc). apply existsb_exists in Hc as (c & Hin & Hc). exists c. split; [|by apply containsAction_exact].
    unfold all_cards. apply list_elem_of_In, in_concat. exists (Cards s). split; [by apply in_map|done].
  - destruct H as (id & c & d & Hc & Hd & Ha). exists (id, c). split; [by apply list_elem_of_In, elem_of_map_to_list|]. cbn. by rewrite Hd.
  - destruct H as (c & Hin & Hc). unfold all_cards in Hin. apply list_elem_of_In, in_concat in Hin as (l & (s & <- & Hs)%in_map_iff & Hin). exists s. split; [done|].
    apply existsb_exists. exists c. split; [done|]. by apply containsAction_exact.
Qed.

(** ** Properties *)

(** C5. Whatever reloads follow the start, what runs (cards, rules, channels, registry, runtimes) was built from the configuration that
    is live, as long as no rollback failed: a refused reload leaves what ran before, an accepted one puts its own in force. *)
Theorem live_config_runs marshal sha256 st v (Hlife : lives marshal sha256 st v) :
  exists E generation snap, sr_current st = Some snap /\ built_from E snap generation (live_of v).
Proof. by destruct (lives_inv marshal sha256 st v Hlife) as [H _]. Qed.

(** Every generation of runtimes that was opened is the current one or was closed, and closed once; the current one is not closed. *)
Theorem runtimes_closed_once marshal sha256 st v (Hlife : lives marshal sha256 st v) :
  option_list (g_runtimes <$> sv_current v) ++ sv_closed v ≡ₚ seq 0 (sv_built v)
  /\ NoDup (sv_closed v) /\ forall g, sv_current v = Some g -> g_runtimes g ∉ sv_closed v.
Proof.
  destruct (lives_inv marshal sha256 st v Hlife) as [_ H]. split; [exact H|]. assert (Hn := NoDup_seq 0 (sv_built v)). unfold accounted in H. rewrite <- H in Hn.
  apply NoDup_app in Hn as (_ & Hd & Hn). split; [done|]. intros g Hg. apply Hd. rewrite Hg. by left.
Qed.

(** C6. An activation puts the whole of the new configuration in force or, whichever of its calls fails
    and whatever else runs in between, leaves the cards, rules, channels, registry and runtimes of the old
    one, provided its rollback succeeds. If the rollback fails as well only the registry and the runtimes
    are sure to be the old ones; the answer then names what of the rollback failed. *)
Theorem activation_all_or_nothing E (Hothers : forall n, leaves_alone (e_others E n)) snap prev generation v fs s r
  (Hkept : well_kept (live_of v)) (Hrun : activateRuntime E snap prev generation {| db := v; faults := fs |} = (s, r)) :
  match r with
  | Ok Activated => built_from E snap generation (live_of (db s))
  | Ok (Refused _ []) => live_of (db s) = live_of v
  | Ok (Refused _ (_ :: _)) => sv_registry (db s) = sv_registry v /\ sv_current (db s) = sv_current v
  | Err _ => False
  end.
Proof.
  pose proof (activate_ends E Hothers snap prev generation (live_of v) (sv_built v) (sv_closed v) Hkept {| db := v; faults := fs |}) as H. rewrite Hrun in H. specialize (H ltac:(done)).
  destruct r as [[|cause [|e errs]]|e]; cbn [ended] in H; [| | |done].
  - by destruct H as (reg & channels & next & (-> & _) & _ & Hb).
  - by destruct H as [[H _]|[H _]].
  - destruct H as (l' & (Hl & _) & Hr & Hc). by rewrite <- Hl in Hr, Hc.
Qed.

(** However often the configuration is loaded, every snapshot the loader lets through has the first one's authentication mode, has all
    its secrets resolved, and without the override, when that mode is none, names no secret and allows no action. *)
Theorem loader_guards override ls (Hmode : Forall (fun x => forall a, (lo_result x).1 = Some a -> mode_of a <> "") ls) :
  exists mode, forall out a, out ∈ loads override fresh_loader ls -> out.1 = Some a ->
    mode_of a = mode /\ HasErrors out.2 = false
    /\ (exists x, x ∈ ls /\ (lo_result x).1 = Some a /\ forall ref, ref ∈ SecretRefs a -> exists v, provided (lo_providers x) (loc_Name ref) = Ok (Some v))
    /\ (override = false -> mode = AuthNone -> SecretRefs a = [] /\ (forall id c d, Connections (snap_Config a) !! id = Some c -> Docker c = Some d -> AllowActions d = false)
         /\ forall c, c ∈ all_cards (snap_Config a) -> ~ has_action (AMap (card_View c))).
Proof.
  destruct (loads_one_mode override ls Hmode fresh_loader eq_refl) as [m Hm]. exists m. intros out a Hin Ha.
  rewrite Forall_forall in Hm. split; [by apply (Hm out Hin)|]. destruct (loads_come_from override ls fresh_loader out a Hin Ha) as (x & Hx & Hr & He & Hv & Hsec).
  split; [done|]. split; [by exists x|]. intros -> ->. unfold validateAuthNone in Hv. rewrite (Hm out Hin a Ha) in Hv. cbn [String.eqb andb negb] in Hv.
  change (String.eqb AuthNone AuthNone) with true in Hv. cbn [andb] in Hv. destruct (negb _ || _) eqn:Hb; [done|]. apply orb_false_iff in Hb as [Hl Hb].
  split; [apply negb_false_iff, Nat.eqb_eq in Hl; by destruct (SecretRefs a)|]. pose proof (configuredActions_exact (snap_Config a)) as Hx'. rewrite Hb in Hx'. split.
  - intros id c d Hc Hd. destruct (AllowActions d) eqn:Hac; [|done]. symmetry. apply Hx'. left. by exists id, c, d.
  - intros c Hc Hact. discriminate (proj2 Hx' (or_intror (ex_intro _ c (conj Hc Hact)))).
Qed.

(** *** Examples *)

Definition demo_world : world :=
  {| w_integration := fun _ => None; w_conn := fun _ => None; w_docker := true; w_lock := ∅; w_revisions := ∅; w_generation := 0; w_configDir := "";
     w_parse := fun _ => Err ""; w_walk := fun _ => []; w_lower := fun s => s; w_print := fun _ => ""; w_manifest_file := fun _ => None;
     w_manifest := fun _ => None; w_card_hash := fun c => Some (card_ID c); w_entry_hash := fun _ => None; w_key := fun _ _ _ => ""; w_revisions_json := fun _ => "{}";
     w_wasm := false; w_load := fun _ _ _ => false |}.
(** Nothing outside answers but the hashes; [ticks] orders the rules of the one rule there is. *)
Definition demo_surroundings : surroundings :=
  {| e_providers := []; e_providers_later := []; e_url_parse := fun _ => None; e_ca_file := fun _ => None; e_fmt_float := fun _ => ""; e_hmac := fun _ s => s;
     e_conn_order := fun l => l; e_random := fun _ => Ok "r"; e_instanceKey := ""; e_configPath := "/etc/veduta.yaml"; e_read_lock := Ok ∅; e_outside := demo_world;
     e_parse_walk := fun _ => Ok []; e_expr_Compile := fun _ => Ok (ExprDone (SBool false)); e_rule_hash := fun r _ => Ok (rule_ID r);
     e_generation_text := fun _ => "generation"; e_compile_text := fun _ => "compile"; e_new_text := fun _ => "registry"; e_conn_text := fun _ => "connection";
     e_channel_text := fun _ => "channel"; e_sched_text := fun _ => "duplicate card id"; e_json_Valid := fun _ => true; e_marshal_channel := fun s => s;
     e_marshal_message := fun _ => Ok ""; e_marshal_rule := fun _ _ => Ok ""; e_marshal_wrong := fun _ _ => ""; e_leak_check := None; e_clock := fun _ => 0%Z;
     e_store_at := fun _ => {| GetCardFor := fun _ _ => Ok None; PutCardWithSignals := fun _ _ _ => None; SignalHistory := fun _ _ _ _ _ => Ok [] |};
     e_ticks := fun _ => []; e_others := fun _ v => v |}.
Definition demo_card (id : string) : Card :=
  {| card_ID := id; card_Title := ""; card_Href := ""; card_Icon := ""; card_Integration := "docker"; card_Operation := "containers"; card_Slots := ∅;
     card_Params := []; card_View := []; card_Refresh := ""; card_Span := {| span_Columns := 0; span_Rows := 0 |}; card_Tags := [] |}.
Definition demo_rule (id : string) : Rule := {| rule_ID := id; When := "true"; For := ""; rule_Severity := ""; Notify := []; Resolve := false |}.
Definition demo_snapshot (auth : Config.Auth) (rule : string) (cards : list string) : Snapshot :=
  newSnapshot {| Version := 1; cfg_Server := cfg_Server Config.sample_config; cfg_Auth := auth; cfg_Dashboard := cfg_Dashboard Config.sample_config;
                 Connections := ∅; Integrations := []; Sections := [{| sec_Title := "s"; Collapsed := false; Cards := map demo_card cards |}];
                 Rules := [demo_rule rule]; Channels := ∅ |} [].
Definition open_auth : Config.Auth := {| Mode := "none"; Admin := None; Forward := None; SessionTTL := "" |}.
Definition demo_start : server := unstarted None None NewRegistry empty_db.
Definition first_snapshot : Snapshot := demo_snapshot open_auth "r" ["a"].
Definition demo_open : ConfigStore.Store := (Open (fun _ => "") (fun s => s) "/etc/veduta.yaml" (fun _ => (Some first_snapshot, [])) 0).1.
Definition demo_started : session server := (startRuntime demo_surroundings first_snapshot 1 {| db := demo_start; faults := [] |}).1.
Lemma demo_quiet n : leaves_alone (e_others demo_surroundings n).
Proof. by intros v. Qed.
Lemma demo_lives : lives (fun _ => "") (fun s => s) demo_open (db demo_started).
Proof.
  eapply (lives_start (fun _ => "") (fun s => s) demo_surroundings "/etc/veduta.yaml" (fun _ => (Some first_snapshot, [])) 0%Z None None NewRegistry empty_db [] first_snapshot demo_started);
    [apply demo_quiet|reflexivity|]. change (startRuntime demo_surroundings first_snapshot 1 {| db := demo_start; faults := [] |} = (demo_started, Ok tt)).
  unfold demo_started. destruct (startRuntime _ _ _ _) as [s r] eqn:E. cbn [fst]. f_equal. assert (H := f_equal snd E). vm_compute in H. by rewrite <- H.
Qed.
(** A second configuration is accepted, a third has one card twice and is refused. *)
Definition demo_reload (snap : Snapshot) (p : ConfigStore.Store * session server) : ConfigStore.Store * session server * option (res string activation) :=
  reload_runtime demo_surroundings (fun _ => "") (fun s => s) (fun _ => (Some snap, [])) 0 p.1 {| db := db p.2; faults := faults p.2 |}.
Definition demo_second := demo_reload (demo_snapshot open_auth "q" ["a"; "b"]) (demo_open, demo_started).
Definition demo_third := demo_reload (demo_snapshot open_auth "z" ["c"; "c"]) demo_second.1.
Definition ending (a : option (res string activation)) : option (res string (bool * list string)) :=
  match a with Some (Ok Activated) => Some (Ok (true, [])) | Some (Ok (Refused c l)) => Some (Ok (false, c :: l)) | Some (Err e) => Some (Err e) | None => None end.
Lemma ending_clean a x : ending a = Some (Ok x) -> length x.2 <= 1 -> clean a.
Proof. intros H Hx cause e errs ->. cbn in H. injection H as <-. cbn in Hx. lia. Qed.
Lemma demo_lives_on : lives (fun _ => "") (fun s => s) demo_third.1.1 (db demo_third.1.2).
Proof.
  eapply (lives_reload _ _ demo_second.1.1 (db demo_second.1.2) demo_surroundings (fun _ => (Some (demo_snapshot open_auth "z" ["c"; "c"]), [])) 0 (faults demo_second.1.2) _ _ demo_third.2);
    [|apply demo_quiet| |eapply (ending_clean _ (false, ["duplicate card id"])); [vm_compute; reflexivity|cbn; lia]].
  - eapply (lives_reload _ _ demo_open (db demo_started) demo_surroundings (fun _ => (Some (demo_snapshot open_auth "q" ["a"; "b"]), [])) 0 (faults demo_started) _ _ demo_second.2);
      [apply demo_lives|apply demo_quiet| |eapply (ending_clean _ (true, [])); [vm_compute; reflexivity|cbn; lia]].
    change (demo_second = (demo_second.1.1, demo_second.1.2, demo_second.2)). by destruct demo_second as [[st s] a].
  - change (demo_third = (demo_third.1.1, demo_third.1.2, demo_third.2)). by destruct demo_third as [[st s] a].
Qed.

Example live_config_runs_witness : exists E generation snap, sr_current demo_third.1.1 = Some snap /\ built_from E snap generation (live_of (db demo_third.1.2)).
Proof. apply (live_config_runs (fun _ => "") (fun s => s)). apply demo_lives_on. Defined.
Example runtimes_closed_once_witness : sv_closed (db demo_third.1.2) = [2; 0] /\ NoDup (sv_closed (db demo_third.1.2)).
Proof. split; [vm_compute; reflexivity|]. apply (runtimes_closed_once (fun _ => "") (fun s => s) demo_third.1.1 (db demo_third.1.2) demo_lives_on). Defined.
(** The rules were replaced before the schedules failed, and are put back. *)
Definition demo_refused : session server * res string activation :=
  activateRuntime demo_surroundings (demo_snapshot open_auth "z" ["c"; "c"]) first_snapshot 2 {| db := db demo_started; faults := [] |}.
Lemma demo_kept : well_kept (live_of (db demo_started)).
Proof. destruct (lives_inv _ _ _ _ demo_lives) as [(E & g & snap & _ & Hb) _]. by apply built_well_kept in Hb. Qed.
Example activation_all_or_nothing_witness : demo_refused.2 = Ok (Refused "duplicate card id" []) /\ live_of (db demo_refused.1) = live_of (db demo_started).
Proof.
  assert (Hr : demo_refused.2 = Ok (Refused "duplicate card id" [])) by (vm_compute; reflexivity). split; [exact Hr|].
  pose proof (activation_all_or_nothing demo_surroundings demo_quiet (demo_snapshot open_auth "z" ["c"; "c"]) first_snapshot 2 (db demo_started) [] demo_refused.1 demo_refused.2 demo_kept
    (surjective_pairing demo_refused)) as H. rewrite Hr in H. exact H.
Defined.
Definition demo_load (s : Snapshot) : load := {| lo_providers := []; lo_path := "/etc/veduta.yaml"; lo_result := (Some s, []) |}.
Definition password_auth (pw : string) : Config.Auth :=
  {| Mode := "password"; Admin := Some {| Username := "admin"; PasswordHash := sample_hash pw |}; Forward := None; SessionTTL := "1h" |}.
Example loader_guards_witness :
  let ls := [demo_load first_snapshot; demo_load (demo_snapshot (password_auth "x") "r" ["a"]); demo_load (demo_snapshot open_auth "q" [])] in
  map (fun out => bool_decide (is_Some out.1)) (loads false fresh_loader ls) = [true; false; true]
  /\ exists mode, forall out a, out ∈ loads false fresh_loader ls -> out.1 = Some a -> mode_of a = mode.
Proof.
  intros ls. split; [vm_compute; reflexivity|]. destruct (loader_guards false ls) as [mode Hm].
  - repeat constructor; intros a [= <-]; vm_compute; discriminate.
  - exists mode. intros out a Hin Ha. apply (Hm out a Hin Ha).
Defined.

(** *** What a refusal does not undo *)

(** A server with a password and one session. *)
Definition demo_guarded : server :=
  set_auth (Some (aw_svc logged_in.2)) (set_tables (aw_db logged_in.2) (db demo_started)).
Definition guarded_world (s : server) : option AuthWorld := (fun svc => {| aw_db := sv_tables s; aw_svc := svc |}) <$> sv_auth s.
Definition rotate (cards : list string) (fs : list (option string)) : session server * res string activation :=
  activateRuntime demo_surroundings (demo_snapshot (password_auth "battery staple") "r" cards) (demo_snapshot (password_auth "correct horse") "r" ["a"]) 2
    {| db := demo_guarded; faults := fs |}.
(** The configuration is refused because the sessions could not be deleted; its password is in force all the same, and the old session lives. *)
Example refused_password_in_force :
  let '(s, r) := rotate ["a"] [None; None; None; None; None; None; Some "disk I/O error"] in
  r = Ok (Refused "disk I/O error" [])
  /\ (guarded_world (db s) ≫= credentials) = Some ("admin", sample_hash "battery staple") /\ size (t_sessions (sv_tables (db s))) = 1.
Proof. vm_compute. repeat split. Qed.
(** The configuration is refused over its cards and the old password is back; everyone was signed out. *)
Example refused_config_signs_out :
  let '(s, r) := rotate ["c"; "c"] [] in
  r = Ok (Refused "duplicate card id" [])
  /\ (guarded_world (db s) ≫= credentials) = Some ("admin", sample_hash "correct horse") /\ t_sessions (sv_tables (db s)) = ∅.
Proof. vm_compute. repeat split. Qed.
