(* ===== verification/Cli.v ===== *)
(** * cmd/veduta: the commands

    [main.go]'s dispatch, manifest and health commands, [integration.go]: listing, diffing and approving integrations from
    the command line, [auth.go]: hashing a password from standard input, and [init.go]: the first configuration. Flags come
    parsed; what a command prints is its lines, and what it does to files is a list of operations, as in [Approval]. Who owns
    a directory and who runs the process, the network, the random source, Argon2id, YAML and the canonical digest's inputs are
    arguments. *)
From S2P Require Import Prelude GoSort GoPath GoTime TimeText Utf8 Config Approval Password ConfigStore.

Definition newline : string := String (ascii_of_nat 10) "".
Definition carriage_return : string := String (ascii_of_nat 13) "".

(** ** main.go *)

Inductive command := CmdCheckConfig | CmdServe | CmdVersion | CmdHealth | CmdInit | CmdAuth | CmdManifest | CmdIntegration | CmdPlugin | CmdImport.
#[export] Instance command_eq_dec : EqDecision command.
Proof. solve_decision. Defined.
Definition isFlag (s : string) : bool := match s with String c _ => Ascii.eqb c "-" | "" => false end.
Definition commands : list (string * command) :=
  [("serve", CmdServe); ("version", CmdVersion); ("health", CmdHealth); ("init", CmdInit); ("auth", CmdAuth); ("manifest", CmdManifest);
   ("integration", CmdIntegration); ("plugin", CmdPlugin); ("import", CmdImport)].
Definition unknown_command (quote : string -> string) (cmd : string) : string :=
  "unknown command " +:+ quote cmd +:+ " (try: serve, init, health, version, auth, manifest, integration, plugin, import)".
(** The command and its arguments. *)
Definition run (quote : string -> string) (args : list string) : res string (command * list string) :=
  let pick cmd rest := match List.find (fun p => String.eqb p.1 cmd) commands with Some p => Ok (p.2, rest) | None => Err (unknown_command quote cmd) end in
  match args with
  | "--check-config" :: rest => Ok (CmdCheckConfig, rest)
  | a :: rest => if isFlag a then pick "version" args else pick a rest
  | [] => pick "version" []
  end.

Definition manifest_usage : string := "usage: veduta manifest digest <file> [file...]".
(** [manifestCmd]: the lines printed before the first file that has no digest, and that error. *)
Fixpoint digest_files (digest : string -> res string string) (files : list string) : list string * res string unit :=
  match files with
  | [] => ([], Ok tt)
  | f :: rest =>
      match digest f with
      | Err e => ([], Err (f +:+ ": " +:+ e))
      | Ok d => let '(out, r) := digest_files digest rest in ((d +:+ "  " +:+ f) :: out, r)
      end
  end.
Definition manifestCmd (digest : string -> res string string) (args : list string) : list string * res string unit :=
  match args with
  | sub :: f :: rest => if String.eqb sub "digest" then digest_files digest (f :: rest) else ([], Err manifest_usage)
  | _ => ([], Err manifest_usage)
  end.

(** [healthCmd], given the answer of the request: a status, or an error. *)
Definition health_url (addr : string) : string := addr +:+ "/api/v1/health".
Definition healthCmd (get : string -> res string Z) (addr : string) : res string unit :=
  let! status := get (health_url addr) in
  if Z.eqb status 200 then Ok tt else Err ("health check returned HTTP " +:+ decimal status).

(** ** auth.go *)

(** Up to and with the first newline, and the rest; or all of it. *)
Fixpoint read_line (s : string) : string * option string :=
  match s with
  | "" => ("", None)
  | String c r => if Ascii.eqb c (ascii_of_nat 10) then (newline, Some r) else let '(l, rest) := read_line r in (String c l, rest)
  end.
(** [readPassword]: what standard input holds, and the error it ends with, if not with its end. *)
Definition readPassword (input : string) (broken : option string) : res string string :=
  let '(line, rest) := read_line input in
  match rest, broken with
  | None, Some e => Err ("read password: " +:+ e)
  | _, _ =>
      let password := TrimSuffix (TrimSuffix line newline) carriage_return in
      if String.eqb password "" then Err "no password on stdin"
      else match rest, broken with
           | Some _, Some e => Err ("read password: " +:+ e)
           | _, _ => if negb (String.eqb (TrimSpace (default "" rest)) "") then Err "stdin holds more than one line; the password must be the only content"
                     else Ok password
           end
  end.
Definition auth_usage : string := "usage: veduta auth hash [--memory KiB] [--iterations n] [--parallelism n]".
Definition cost_range : string := "cost is outside the supported range: --memory 8192-262144, --iterations 1-10, --parallelism 1-16".
(** [authCmd], given its flags and the arguments left over. *)
Definition authCmd (IDKey : string -> string -> Z -> Z -> Z -> nat -> string) (text : password_error -> string) (random : res string string)
  (sub : option string) (memory iterations parallelism : Z) (left : list string) (input : string) (broken : option string) : res string string :=
  if negb (bool_decide (sub = Some "hash")) then Err auth_usage
  else if negb (Nat.eqb (length left) 0) then Err "veduta auth hash reads the password from stdin; it is never an argument"
  else if ((memory <? 8192) || (262144 <? memory) || (iterations <? 1) || (10 <? iterations) || (parallelism <? 1) || (16 <? parallelism))%Z then Err cost_range
  else
    let! password := readPassword input broken in
    res_map_err text (HashPassword IDKey password {| MemoryKiB := memory; Iterations := iterations; Parallelism := parallelism |} random).

(** ** integration.go *)

(** Padded with blanks to a width in characters. *)
Definition pad (width : nat) (s : string) : string := s +:+ String.concat "" (repeat " " (width - length (runes s))).
Definition confirms (line : string) (to_lower : string -> string) : bool :=
  let l := TrimSpace (to_lower line) in String.eqb l "y" || String.eqb l "yes".
Definition confirm (to_lower : string -> string) (input : string) : bool := confirms (read_line input).1 to_lower.
Definition routeReason (r : Route) : string := if String.eqb (ir_Reason r) "" then "" else "(" +:+ ir_Reason r +:+ ")".
Definition opening (id : string) (m : Manifest) (status : string) : string :=
  if String.eqb status StatusUnapproved then id +:+ ": not yet approved. Manifest digest " +:+ mf_Digest m +:+ " requests:"
  else if String.eqb status StatusChanged then id +:+ ": manifest changed (now digests to " +:+ mf_Digest m +:+ "). Permission diff:"
  else id +:+ ": approved, but the manifest requests more than what is currently granted:".
Definition printDiff (id : string) (m : Manifest) (d : Diff) (status : string) : list string :=
  if Empty d then [id +:+ ": manifest digest " +:+ mf_Digest m +:+ " - already approved, nothing to review"]
  else opening id m status
       :: map (fun c => "  + capability " +:+ c) (df_AddedCapabilities d)
       ++ map (fun r => "  + route " +:+ ir_Method r +:+ " " +:+ ir_Path r +:+ " " +:+ routeReason r) (df_AddedRoutes d)
       ++ map (fun r => "  - route " +:+ ir_Method r +:+ " " +:+ ir_Path r +:+ " (no longer requested)") (df_RemovedRoutes d)
       ++ map (fun l => "  ~ limit " +:+ ld_Field l +:+ ": " +:+ decimal (ld_Current l) +:+ " -> " +:+ decimal (ld_Requested l)) (df_RaisedLimits d)
       ++ map (fun r => "  ! " +:+ ir_Method r +:+ " " +:+ ir_Path r +:+ " carries a request body: approving it approves whatever the body selects")
              (df_BodyBearingRoutes d).

(** What a command prints, does to the files and ends with. *)
Record outcome := { oc_out : list string; oc_ops : list fs_op; oc_result : res string unit }.
Definition fails (e : string) : outcome := {| oc_out := []; oc_ops := []; oc_result := Err e |}.

Section Integration.
Context {Y : Type}.
Variable load_config : string -> option Snapshot * list Diagnostic.      (* config.LoadPath *)
Variable manifest_digest : string -> option string.                      (* canonical.DigestBytes of a manifest *)
Variable decode_manifest : string -> option manifestDoc.                 (* yaml *)
Variable unmarshal_any : string -> option Y.
Variable unmarshal_lock : string -> option Lock.
Variable marshal_lock : Lock -> option string.
Variable lockSchema : option (Y -> bool).
Variable ParseMediaType : string -> option (string * gmap string string).
Variable FormatMediaType : string -> gmap string string -> string.
Variable diags_text : list Diagnostic -> string.                         (* the texts of errors *)
Variable lock_text : lock_error -> string.
Variable load_text : Approval.load_error -> string.
Variable route_text : route_error -> string.
Variable approve_text : approve_error -> string.
Variable quote : string -> string.                                       (* %q *)
Variable to_lower : string -> string.                                    (* strings.ToLower *)
Variable tmp : string.                                                   (* the name os.CreateTemp picks *)
Variable cut : string -> list string.                                    (* the pieces a write is done in *)
Variable write_fails : option nat.

Record integrationSet := { is_snapshot : Snapshot; is_dir : string; is_lockPath : string; is_lock : Lock }.
Definition read_at (fs : gmap string (string * Z)) (path : string) : file_read :=
  match fs !! path with Some f => FileData f.1 | None => FileMissing end.
Definition loadIntegrationSet (configPath : string) (fs : gmap string (string * Z)) : res string integrationSet :=
  match load_config configPath with
  | (Some snapshot, diags) =>
      if HasErrors diags then Err ("load config:" +:+ newline +:+ diags_text diags)
      else
        let dir := filepath_Dir configPath in
        let lockPath := filepath_Join dir "veduta.lock.yaml" in
        match ReadLock unmarshal_any unmarshal_lock lockSchema (read_at fs lockPath) with
        | Err e => Err (lockPath +:+ ": " +:+ lock_text e)
        | Ok lock => Ok {| is_snapshot := snapshot; is_dir := dir; is_lockPath := lockPath; is_lock := lock |}
        end
  | (None, diags) => Err ("load config:" +:+ newline +:+ diags_text diags)
  end.
Definition entry_in (l : Lock) (id : string) : option LockEntry := default ∅ (lk_Integrations l) !! id.
Definition manifest_at (fs : gmap string (string * Z)) (dir : string) : res Approval.load_error Manifest :=
  LoadManifest (fun name => fst <$> fs !! filepath_Join dir name) (fun name => bool_decide (is_Some (fs !! filepath_Join dir name)))
    manifest_digest decode_manifest.

(** One line of [integrationList]; an id comes from the configuration, so it is declared. *)
Definition list_line (set : integrationSet) (fs : gmap string (string * Z)) (id : string) : string :=
  let source := match IntegrationByID (is_snapshot set) id with Some i => in_Source i | None => "" end in
  match ResolveSource (is_dir set) source with
  | None => pad 16 id +:+ " error: unsupported integration source"
  | Some src =>
      if so_Builtin src then pad 16 id +:+ " " +:+ pad 11 StatusBuiltin +:+ " (ships in the binary, no separate trust boundary)"
      else match manifest_at fs (so_Dir src) with
           | Err e => pad 16 id +:+ " error: " +:+ load_text e
           | Ok m => pad 16 id +:+ " " +:+ pad 11 (Evaluate m (entry_in (is_lock set) id)) +:+ " runtime=" +:+ pad 11 (mf_Runtime m) +:+ " version="
                     +:+ pad 8 (mf_Version m) +:+ " capabilities=" +:+ String.concat "," (mf_Capabilities m)
           end
  end.
Definition integrationList (configPath : string) (fs : gmap string (string * Z)) : outcome :=
  match loadIntegrationSet configPath fs with
  | Err e => fails e
  | Ok set => {| oc_out := map (list_line set fs) (isort str_leb (map in_ID (Integrations (snap_Config (is_snapshot set))))); oc_ops := []; oc_result := Ok tt |}
  end.

Definition resolveManifest (configPath id : string) (fs : gmap string (string * Z)) : res string (integrationSet * Manifest) :=
  let! set := loadIntegrationSet configPath fs in
  match IntegrationByID (is_snapshot set) id with
  | None => Err ("no integration " +:+ quote id +:+ " declared in " +:+ configPath)
  | Some i =>
      match ResolveSource (is_dir set) (in_Source i) with
      | None => Err "unsupported integration source"
      | Some src =>
          if so_Builtin src then Err (quote id +:+ " is a builtin integration - exempt from the lock, nothing to approve")
          else let! m := res_map_err load_text (manifest_at fs (so_Dir src)) in Ok (set, m)
      end
  end.
(** The manifest, the diff and what [diff] and [approve] print of it. *)
Definition reviewed (configPath id : string) (fs : gmap string (string * Z)) : res string (integrationSet * Manifest * Diff * list string) :=
  let! (set, m) := resolveManifest configPath id fs in
  let entry := entry_in (is_lock set) id in
  let! d := res_map_err route_text (ComputeDiff ParseMediaType FormatMediaType m entry) in
  Ok (set, m, d, printDiff id m d (Evaluate m entry)).
Definition integrationDiff (configPath : string) (args : list string) (fs : gmap string (string * Z)) : outcome :=
  match args with
  | [id] => match reviewed configPath id fs with
            | Err e => fails e
            | Ok (_, _, _, lines) => {| oc_out := lines; oc_ops := []; oc_result := Ok tt |}
            end
  | _ => fails "usage: veduta integration diff <id> [--config path]"
  end.

(** The whole of what a manifest asks for. *)
Definition full_request (m : Manifest) : Grants := {| gr_Capabilities := mf_Capabilities m; gr_Routes := mf_Routes m; gr_Limits := mf_Limits m |}.
Definition with_entry (l : Lock) (id : string) (e : LockEntry) : Lock :=
  {| lk_Version := lk_Version l; lk_Integrations := Some (<[id := e]> (default ∅ (lk_Integrations l))) |}.
Definition prompt : string := "Approve? [y/N]: ".
(** [integrationApprove]; [fs] are the files as they are read, before the prompt. *)
Definition integrationApprove (configPath by_ : string) (yes : bool) (input : string) (now : Time) (args : list string) (fs : gmap string (string * Z)) : outcome :=
  match args with
  | [id] =>
      match reviewed configPath id fs with
      | Err e => fails e
      | Ok (set, m, d, lines) =>
          if Empty d then {| oc_out := lines; oc_ops := []; oc_result := Ok tt |}
          else
            let out := if yes then lines else lines ++ [prompt] in
            let stop e := {| oc_out := out; oc_ops := []; oc_result := Err e |} in
            if negb yes && negb (confirm to_lower input) then stop "not approved"
            else match Approve ParseMediaType FormatMediaType m (mf_Digest m) (full_request m) by_ now with
                 | Err e => stop (approve_text e)
                 | Ok e =>
                     match WriteLock unmarshal_any marshal_lock lockSchema tmp (is_lockPath set) cut write_fails (with_entry (is_lock set) id e) with
                     | Err e => stop (lock_text e)
                     | Ok ops =>
                         match write_fails with
                         | Some _ => {| oc_out := out; oc_ops := ops; oc_result := Err "write veduta.lock.yaml" |}
                         | None => {| oc_out := out ++ [id +:+ ": approved, " +:+ is_lockPath set +:+ " updated"]; oc_ops := ops; oc_result := Ok tt |}
                         end
                     end
                 end
      end
  | _ => fails "usage: veduta integration approve <id> [--config path] [--by name] [--yes]"
  end.
Definition integration_usage : string := "usage: veduta integration list|diff|approve [--config path]".
Definition integrationCmd (sub : option string) (configPath by_ : string) (yes : bool) (input : string) (now : Time) (args : list string)
  (fs : gmap string (string * Z)) : outcome :=
  match sub with
  | Some "list" => integrationList configPath fs
  | Some "diff" => integrationDiff configPath args fs
  | Some "approve" => integrationApprove configPath by_ yes input now args fs
  | _ => fails integration_usage
  end.
End Integration.

(** ** init.go *)

(** Texts are written with a tilde for the double quote. *)
Definition text (s : string) : string := map_str (fun c => if Ascii.eqb c "~" then ascii_of_nat 34 else c) s.
Definition nl : string := newline.
Definition containerUID : Z := 65532.
Definition passwordAlphabet : string := "abcdefghijkmnpqrstuvwxyz23456789".
Definition passwordLength : nat := 20.
Definition starterCards : string := text (
  "" +:+ nl +:+
  "# Everything Veduta may contact is declared here; nothing else is reachable. This starter" +:+ nl +:+
  "# connection is the only outbound request a fresh install makes - remove it, and the card that" +:+ nl +:+
  "# uses it, to make none." +:+ nl +:+
  "connections:" +:+ nl +:+
  "  open-meteo:" +:+ nl +:+
  "    kind: http" +:+ nl +:+
  "    baseUrl: https://api.open-meteo.com" +:+ nl +:+
  "" +:+ nl +:+
  "integrations:" +:+ nl +:+
  "  - id: http-json" +:+ nl +:+
  "    source: builtin" +:+ nl +:+
  "" +:+ nl +:+
  "sections:" +:+ nl +:+
  "  - title: Today" +:+ nl +:+
  "    cards:" +:+ nl +:+
  "      # Weather for Berlin, as a placeholder. Set latitude and longitude to yours, and the title" +:+ nl +:+
  "      # to match. Open-Meteo needs no account or key: https://open-meteo.com" +:+ nl +:+
  "      - id: weather" +:+ nl +:+
  "        title: Weather in Berlin" +:+ nl +:+
  "        span: { columns: 2 }" +:+ nl +:+
  "        integration: http-json" +:+ nl +:+
  "        operation: request" +:+ nl +:+
  "        slots: { server: open-meteo }" +:+ nl +:+
  "        params:" +:+ nl +:+
  "          path: /v1/forecast" +:+ nl +:+
  "          query:" +:+ nl +:+
  "            latitude: ~52.52~" +:+ nl +:+
  "            longitude: ~13.41~" +:+ nl +:+
  "            current: temperature_2m,apparent_temperature,relative_humidity_2m,wind_speed_10m" +:+ nl +:+
  "        refresh: 15m" +:+ nl +:+
  "        view:" +:+ nl +:+
  "          blocks:" +:+ nl +:+
  "            - type: metrics" +:+ nl +:+
  "              items:" +:+ nl +:+
  "                - { label: Temperature °C, value: ~current.temperature_2m~, format: number }" +:+ nl +:+
  "                - { label: Feels like °C, value: ~current.apparent_temperature~, format: number }" +:+ nl +:+
  "                - { label: Humidity %, value: ~current.relative_humidity_2m~, format: number }" +:+ nl +:+
  "                - { label: Wind km/h, value: ~current.wind_speed_10m~, format: number }" +:+ nl +:+
  "").

Definition pick (b : ascii) : ascii := default "?"%char (String.get (Nat.modulo (nat_of_ascii b) (String.length passwordAlphabet)) passwordAlphabet).
(** [generatePassword], given the bytes [rand.Read] fills the buffer with. *)
Definition generatePassword (random : res string string) : res string string := let! buf := random in Ok (map_str pick buf).

(** The file [writeConfig] puts together; the listening address and the hash are quoted. *)
Definition config_text (quote : string -> string) (listen dataDir title username hash : string) : string :=
  "# Written by `veduta init`. Edit freely - Veduta reloads this file when it changes." +:+ nl +:+
  "# The configuration reference is docs/configuration.md; examples/veduta.yaml is a" +:+ nl +:+
  "# worked configuration with connections and cards to borrow from." +:+ nl +:+
  "version: 1" +:+ nl +:+ nl +:+ "server:" +:+ nl +:+
  "  listen: " +:+ quote listen +:+ nl +:+
  "  dataDir: " +:+ dataDir +:+ nl +:+
  nl +:+ "auth:" +:+ nl +:+ "  mode: password" +:+ nl +:+ "  admin:" +:+ nl +:+
  "    username: " +:+ username +:+ nl +:+
  "    passwordHash: " +:+ quote hash +:+ nl +:+
  nl +:+ "dashboard:" +:+ nl +:+
  "  title: " +:+ title +:+ nl +:+ starterCards.

(** What [os.Stat] says of a path: its owner, if that can be told, that there is none, or another error. *)
Inductive stat_result := Found (uid : option Z) | NotFound | StatFails (e : string).
Inductive init_op :=
| OMkdirAll (dir : string)
| OChown (path : string) (uid gid : Z)
| OChmod (path : string) (mode : Z)
| OFile (o : fs_op).
(** The lines written to standard error, the operations, and the result. *)
Definition Init (A : Type) : Type := list string * list init_op * res string A.
Definition init_ret {A} (a : A) : Init A := ([], [], Ok a).
Definition init_fail {A} (e : string) : Init A := ([], [], Err e).
Definition init_bind {A B} (m : Init A) (k : A -> Init B) : Init B :=
  match m with
  | (out, ops, Ok a) => let '(out2, ops2, r) := k a in (out ++ out2, ops ++ ops2, r)
  | (out, ops, Err e) => (out, ops, Err e)
  end.
Definition say (lines : list string) : Init unit := (lines, [], Ok tt).
(** An operation that may fail, and then does nothing. *)
Definition try_op (o : init_op) (failure : option string) (context : string) : Init unit :=
  match failure with None => ([], [o], Ok tt) | Some e => ([], [], Err (context +:+ ": " +:+ e)) end.
Notation "'do+' x <- m ; k" := (init_bind m (fun x => k)) (at level 200, x binder, m at level 100, k at level 200).

(** The system [init] runs on; a directory's owner is the one it has once it exists. *)
Record system := {
  sy_euid : Z; sy_stat : string -> stat_result; sy_mkdir : option string; sy_chown : string -> option string; sy_chmod : option string;
  sy_readdir : res string (list string);
  sy_tmp : res string string;                            (* the name os.CreateTemp picks *)
  sy_cut : string -> list string; sy_write_fails : option (nat * string);   (* after CreateTemp *)
  sy_password : res string string; sy_salt : res string string;            (* random bytes *)
  sy_supplied : string }.                                (* VEDUTA_ADMIN_PASSWORD *)

Section Init.
Variable IDKey : string -> string -> Z -> Z -> Z -> nat -> string.
Variable password_text : password_error -> string.
Variable quote : string -> string.
Variable S : system.

Definition owner_of (dir : string) : option Z := match sy_stat S dir with Found uid => uid | _ => None end.
Definition diagnoseUID (dir : string) : string :=
  match owner_of dir with
  | None => ""
  | Some owner =>
      if Z.eqb owner (sy_euid S) then ""
      else nl +:+ "  " +:+ dir +:+ " is owned by uid " +:+ decimal owner +:+ ", but this process runs as uid " +:+ decimal (sy_euid S) +:+ "." +:+ nl +:+
        "  In Docker, set the container to your own uid - VEDUTA_UID and VEDUTA_GID in .env:" +:+ nl +:+
        text "      printf 'VEDUTA_UID=%s\nVEDUTA_GID=%s\n' ~$(id -u)~ ~$(id -g)~ > .env" +:+ nl +:+
        "  See docs/docker.md for the alternatives."
  end.
Definition shareWithContainer (dir path : string) : Init unit :=
  match sy_stat S dir with
  | NotFound => init_fail ("inspecting " +:+ dir +:+ ": file does not exist")
  | StatFails e => init_fail ("inspecting " +:+ dir +:+ ": " +:+ e)
  | Found None => init_ret tt
  | Found (Some uid) =>
      try_op (OChown path uid containerUID) (sy_chown S path)
        ("sharing " +:+ path +:+ " between uid " +:+ decimal uid +:+ " and group " +:+ decimal containerUID)
  end.
Fixpoint share_all (dir : string) (names : list string) : Init unit :=
  match names with
  | [] => init_ret tt
  | n :: rest => do+ _ <- shareWithContainer dir (filepath_Join dir n); share_all dir rest
  end.
Definition owned_by_root (dir : string) : list string :=
  ["veduta init: " +:+ dir +:+ " is owned by root, which usually means Docker created it because it did not exist." +:+ nl +:+
    "            The server can use it, but editing veduta.yaml will take sudo. To take it" +:+ nl +:+
    "            back, on the host, against the directory mounted here:" +:+ nl +:+
    "              sudo chown -R $(id -u) ./config"].
Definition fixOwnership (dir : string) : Init unit :=
  if negb (Z.eqb (sy_euid S) 0) then say ["veduta init: --fix-permissions needs root, skipping (not an error outside a container)"]
  else
    do+ _ <- try_op (OMkdirAll dir) (sy_mkdir S) ("creating " +:+ dir);
    do+ _ <- try_op (OChown dir (-1) containerUID) (sy_chown S dir) ("granting group " +:+ decimal containerUID +:+ " access to " +:+ dir);
    do+ _ <- try_op (OChmod dir 504) (sy_chmod S) ("making " +:+ dir +:+ " group-writable");
    do+ entries <- ([], [], res_map_err (fun e => "reading " +:+ dir +:+ ": " +:+ e) (sy_readdir S));
    do+ _ <- share_all dir entries;
    do+ _ <- say (if bool_decide (owner_of dir = Some 0%Z) then owned_by_root dir else []);
    say ["veduta init: " +:+ dir +:+ " is now group " +:+ decimal containerUID +:+ " and group-writable; its owner is unchanged"].

Definition writeConfig (configPath body : string) : Init unit :=
  let dir := filepath_Dir configPath in
  match sy_tmp S with
  | Err e => init_fail ("creating a temporary file in " +:+ dir +:+ ": " +:+ e +:+ diagnoseUID dir)
  | Ok tmp =>
      match sy_write_fails S with
      | None => ([], map OFile (write_ops tmp configPath (sy_cut S body) None), Ok tt)
      | Some (k, e) => ([], map OFile (write_ops tmp configPath (sy_cut S body) (Some (Datatypes.S k))), Err e)
      end
  end.
Definition announce (configPath username password : string) (generated : bool) : Init unit :=
  do+ _ <- say ["veduta init: wrote " +:+ configPath];
  if negb generated then say ["veduta init: hashed the password from VEDUTA_ADMIN_PASSWORD for user " +:+ quote username]
  else say [""; "  Veduta is configured. Sign in as " +:+ quote username +:+ " with this password:"; ""; "      " +:+ password; "";
            "  It is shown once and stored only as a hash. Save it now."; "  Change it by replacing auth.admin.passwordHash with `veduta auth hash`."; ""].
(** The password, and whether it was made up. *)
Definition choose_password : res string (string * bool) :=
  let! password := res_map_err (fun e => "generating a password: " +:+ e) (generatePassword (sy_password S)) in
  Ok (if String.eqb (sy_supplied S) "" then (password, true) else (sy_supplied S, false)).
Definition runInit (configPath listen dataDir title username : string) (fixPerms : bool) : Init unit :=
  let dir := filepath_Dir configPath in
  do+ _ <- (if fixPerms then fixOwnership dir else init_ret tt);
  match sy_stat S configPath with
  | Found _ => say ["veduta init: " +:+ configPath +:+ " already exists, leaving it alone"]
  | StatFails e => init_fail ("checking " +:+ configPath +:+ ": " +:+ e)
  | NotFound =>
      do+ chosen <- ([], [], choose_password);
      let '(password, generated) := chosen in
      do+ hash <- ([], [], res_map_err (fun e => "hashing the password: " +:+ password_text e) (HashPassword IDKey password DefaultHashCost (sy_salt S)));
      do+ _ <- try_op (OMkdirAll dir) (sy_mkdir S) ("creating " +:+ dir);
      do+ _ <- writeConfig configPath (config_text quote listen dataDir title username hash);
      do+ _ <- (if fixPerms then shareWithContainer dir configPath else init_ret tt);
      announce configPath username password generated
  end.
End Init.

(** ** Lemmas *)

Definition all_byte_values : list ascii := map ascii_of_nat (seq 0 256).
(** Every symbol is picked by as many of the bytes as every other: a uniform byte gives a uniform symbol. *)
Lemma pick_uniform : Forall (fun c => length (List.filter (fun b => Ascii.eqb (pick b) c) all_byte_values) = 8) (String.list_ascii_of_string passwordAlphabet)
  /\ NoDup (String.list_ascii_of_string passwordAlphabet) /\ length (String.list_ascii_of_string passwordAlphabet) = 32.
Proof. split; [|split; [|reflexivity]]. - repeat (constructor; [reflexivity|]). constructor. - apply (bool_decide_unpack _). vm_compute. exact I. Qed.
Definition in_alphabet (c : ascii) : bool := existsb (Ascii.eqb c) (String.list_ascii_of_string passwordAlphabet).
Lemma pick_in_alphabet b : in_alphabet (pick b) = true.
Proof. all_ascii b; reflexivity. Qed.
Lemma generated_symbols s : all_bytes in_alphabet (map_str pick s) = true /\ String.length (map_str pick s) = String.length s.
Proof. induction s as [|c s [IH1 IH2]]; [done|]. cbn [map_str all_bytes String.length]. rewrite pick_in_alphabet, IH2. done. Qed.

Definition file_op (o : init_op) : option fs_op := match o with OFile x => Some x | _ => None end.
Lemma omap_take {A B} (f : A -> option B) l k : exists j, omap f (take k l) = take j (omap f l).
Proof.
  revert k. induction l as [|x l IH]; intros [|k]; try (by exists 0). destruct (IH k) as [j Hj]. cbn [take]. change (omap f (x :: ?y)) with (match f x with Some b => b :: omap f y | None => omap f y end).
  destruct (f x); [exists (S j); cbn [take]; by rewrite Hj|by exists j].
Qed.
Lemma omap_files l : omap file_op (map OFile l) = l.
Proof. induction l as [|x l IH]; [done|]. cbn [map]. change (omap file_op (OFile x :: ?y)) with (x :: omap file_op y). by rewrite IH. Qed.
Lemma init_bind_ops {A B} (m : Init A) (k : A -> Init B) :
  (init_bind m k).1.2 = m.1.2 ++ match m.2 with Ok a => (k a).1.2 | Err _ => [] end
  /\ (init_bind m k).2 = match m.2 with Ok a => (k a).2 | Err e => Err e end.
Proof. destruct m as [[out ops] [a|e]]; cbn; [destruct (k a) as [[o2 p2] r]; done|by rewrite app_nil_r]. Qed.
(** No file is written. *)
Definition fileless {A} (m : Init A) : Prop := omap file_op m.1.2 = [].
Lemma fileless_bind {A B} (m : Init A) (k : A -> Init B) : fileless m -> (forall a, fileless (k a)) -> fileless (init_bind m k).
Proof. intros Hm Hk. unfold fileless in *. rewrite (proj1 (init_bind_ops m k)), omap_app, Hm. destruct m.2 as [a|e]; [apply Hk|done]. Qed.
Lemma fileless_try o failure context : file_op o = None -> fileless (try_op o failure context).
Proof. intros Ho. unfold fileless, try_op. destruct failure; [done|]. cbn. by rewrite Ho. Qed.
Lemma share_fileless S dir path : fileless (shareWithContainer S dir path).
Proof. unfold shareWithContainer. destruct (sy_stat S dir) as [[uid|]| |e]; try done. by apply fileless_try. Qed.
Lemma fix_fileless S dir : fileless (fixOwnership S dir).
Proof.
  unfold fixOwnership. destruct (negb _); [done|]. repeat (apply fileless_bind; [first [by apply fileless_try|done|idtac]|intros ?]); [|done].
  clear. revert a2. intros entries. induction entries as [|n l IH]; [done|]. apply fileless_bind; [apply share_fileless|done].
Qed.

(** The name of a file that a command writes is, at any point, what it was or what it is to be. *)
Definition replaces (fs : gmap string (string * Z)) (tmp path body : string) (ops : list fs_op) : Prop :=
  forall k, let fs' := foldl fs_apply fs (take k ops) in
    (fs' !! path = fs !! path \/ fs' !! path = Some (body, LockFileMode)) /\ forall p, p <> path -> p <> tmp -> fs' !! p = fs !! p.
Lemma write_replaces fs tmp path body cut fail : tmp <> path -> concat_str (cut body) = body -> replaces fs tmp path body (write_ops tmp path (cut body) fail).
Proof. intros Ht Hc k. destruct (write_ops_atomic tmp path (cut body) fail fs Ht) as [H _]. specialize (H k). by rewrite Hc in H. Qed.
Lemma no_ops_replaces fs tmp path body : replaces fs tmp path body [].
Proof. intros k. rewrite take_nil. by split; [left|]. Qed.

Lemma hash_own IDKey password cost salt hash : HashPassword IDKey password cost salt = Ok hash ->
  exists params, parseArgon2ID hash = Ok params /\ verifyPassword IDKey params password = true.
Proof.
  unfold HashPassword. destruct (String.eqb password ""); [done|]. destruct (checkCost _ _ _); [|done]. cbn [res_bind]. intros H.
  apply res_bind_Ok in H as (s & _ & H). apply res_bind_Ok in H as (params & Hp & H). destruct (verifyPassword _ _ _) eqn:Hv; [|done]. injection H as <-.
  exists params. split; [|done]. by destruct (parseArgon2ID _); cbn in Hp; [injection Hp as ->|].
Qed.
(** What a file written by [init] is made of. *)
Record made (IDKey : string -> string -> Z -> Z -> Z -> nat -> string) (S : system) (password hash : string) (generated : bool) : Prop := {
  md_chosen : choose_password S = Ok (password, generated);
  md_hash : HashPassword IDKey password DefaultHashCost (sy_salt S) = Ok hash }.
Lemma made_password IDKey S password hash generated : made IDKey S password hash generated ->
  (if generated then sy_supplied S = "" /\ all_bytes in_alphabet password = true /\ exists buf, sy_password S = Ok buf /\ String.length password = String.length buf
   else password = sy_supplied S /\ password <> "")
  /\ exists params, parseArgon2ID hash = Ok params /\ verifyPassword IDKey params password = true.
Proof.
  intros [Hc Hh]. split; [|by eapply hash_own]. unfold choose_password in Hc. apply res_bind_Ok in Hc as (p & Hp & Hc). unfold generatePassword in Hp.
  destruct (sy_password S) as [buf|e]; [|done]. cbn in Hp. injection Hp as <-. destruct (String.eqb_spec (sy_supplied S) ""); injection Hc as <- <-; [|by split].
  destruct (generated_symbols buf) as [H1 H2]. split; [done|]. split; [done|]. by exists buf.
Qed.

Section RunInit.
Variable IDKey : string -> string -> Z -> Z -> Z -> nat -> string.
Variable password_text : password_error -> string.
Variable quote : string -> string.
Variable S : system.
Variables configPath listen dataDir title username : string.
Local Notation body hash := (config_text quote listen dataDir title username hash).
(** A property of what a run does to files, past a step that does nothing to them. *)
Lemma past_fileless {A B} (m : Init A) (k : A -> Init B) (P : list fs_op -> res string B -> Prop) :
  fileless m -> (forall e, m.2 = Err e -> P [] (Err e)) -> (forall a, m.2 = Ok a -> P (omap file_op (k a).1.2) (k a).2) ->
  P (omap file_op (init_bind m k).1.2) (init_bind m k).2.
Proof.
  unfold fileless. intros Hm He Hk. destruct (init_bind_ops m k) as [H1 H2]. rewrite H1, H2, omap_app, Hm. destruct m.2 as [a|e]; [by apply Hk|by apply He].
Qed.
(** The files of a run: none, or those of one write. *)
Definition run_writes (ops : list fs_op) (r : res string unit) : Prop :=
  (ops = [] /\ (sy_stat S configPath = NotFound -> r <> Ok tt))
  \/ (sy_stat S configPath = NotFound /\ exists password hash generated, made IDKey S password hash generated
      /\ let w := writeConfig S configPath (config_text quote listen dataDir title username hash) in
         ops = omap file_op w.1.2 /\ (r = Ok tt -> w.2 = Ok tt)).
Definition finish (fixPerms : bool) (password : string) (generated : bool) : Init unit :=
  do+ _ <- (if fixPerms then shareWithContainer S (filepath_Dir configPath) configPath else init_ret tt); announce quote configPath username password generated.
Lemma after_write fixPerms password generated hash :
  let w := writeConfig S configPath (body hash) in
  let o := init_bind w (fun _ : unit => finish fixPerms password generated) in
  omap file_op o.1.2 = omap file_op w.1.2 /\ (o.2 = Ok tt -> w.2 = Ok tt).
Proof.
  cbv zeta. set (w := writeConfig _ _ _). destruct (init_bind_ops w (fun _ : unit => finish fixPerms password generated)) as [-> ->].
  rewrite omap_app. destruct w.2 as [[]|e]; [|split; [apply app_nil_r|done]]. split; [|done].
  assert (Ha : fileless (finish fixPerms password generated)).
  { unfold finish. apply fileless_bind; [destruct fixPerms; [apply share_fileless|done]|]. intros _. unfold announce. by destruct generated. }
  by rewrite Ha, app_nil_r.
Qed.
Lemma runInit_files fixPerms :
  let o := runInit IDKey password_text quote S configPath listen dataDir title username fixPerms in
  run_writes (omap file_op o.1.2) o.2.
Proof.
  cbv zeta. unfold runInit. apply past_fileless; [destruct fixPerms; [apply fix_fileless|done]|by left|]. intros _ _.
  destruct (sy_stat S configPath) as [uid| |e] eqn:Hs; [by left; rewrite Hs| |by left; rewrite Hs].
  apply past_fileless; [done|by left|]. intros [password generated] Hc. apply past_fileless; [done|by left|]. intros hash Hh. cbn [snd] in Hc, Hh.
  apply past_fileless; [by apply fileless_try|by left|]. intros _ _. right. split; [done|]. exists password, hash, generated.
  split; [constructor; [done|]|apply after_write]. by destruct (HashPassword _ _ _ _); cbn in Hh; [injection Hh as ->|].
Qed.
End RunInit.

(** What [writeConfig] does to files: nothing, when it gets no temporary file, or one write that replaces the configuration. *)
Lemma config_write S configPath body ops (r : res string unit) :
  ops = omap file_op (writeConfig S configPath body).1.2 -> (r = Ok tt -> (writeConfig S configPath body).2 = Ok tt) ->
  (r <> Ok tt /\ ops = []) \/ exists tmp fail, sy_tmp S = Ok tmp /\ ops = write_ops tmp configPath (sy_cut S body) fail /\ (r = Ok tt -> fail = None).
Proof.
  unfold writeConfig. destruct (sy_tmp S) as [tmp|e].
  - intros Ho Hr. right. exists tmp. destruct (sy_write_fails S) as [[k e]|]; cbn [fst snd] in Ho, Hr; rewrite omap_files in Ho; eexists; (split; [done|]; split; [exact Ho|]); [intros Hok; by specialize (Hr Hok)|done].
  - intros Ho Hr. left. split; [|exact Ho]. intros Hok. by specialize (Hr Hok).
Qed.

(** ** Properties *)

(** C34. [init] writes no file when there is a configuration; otherwise, wherever it fails or is interrupted, the configuration is absent (as it
    was) or complete with mode 0640, no other file but the temporary one changes, and on success it is complete. It holds the hash of a password, which the
    hash verifies: the supplied one, or one of the alphabet's symbols, one for each random byte. *)
Theorem init_writes_once IDKey password_text quote S configPath listen dataDir title username fixPerms fs
  (Hne : sy_tmp S <> Ok configPath) (Hcut : forall s, concat_str (sy_cut S s) = s) :
  let '(_, ops, r) := runInit IDKey password_text quote S configPath listen dataDir title username fixPerms in
  (sy_stat S configPath <> NotFound -> omap file_op ops = [])
  /\ (omap file_op ops <> [] \/ sy_stat S configPath = NotFound /\ r = Ok tt ->
      exists (password hash : string) (generated : bool),
        (if generated then sy_supplied S = "" /\ all_bytes in_alphabet password = true /\ exists buf, sy_password S = Ok buf /\ String.length password = String.length buf
         else password = sy_supplied S /\ password <> "")
        /\ (exists params, parseArgon2ID hash = Ok params /\ verifyPassword IDKey params password = true)
        /\ let body := config_text quote listen dataDir title username hash in
           (forall k, let fs' := foldl fs_apply fs (omap file_op (take k ops)) in
             (fs' !! configPath = fs !! configPath \/ fs' !! configPath = Some (body, LockFileMode)) /\ forall p, p <> configPath -> sy_tmp S <> Ok p -> fs' !! p = fs !! p)
           /\ (r = Ok tt -> foldl fs_apply fs (omap file_op ops) !! configPath = Some (body, LockFileMode))).
Proof.
  pose proof (runInit_files IDKey password_text quote S configPath listen dataDir title username fixPerms) as H.
  destruct (runInit _ _ _ _ _ _ _ _ _ _) as [[out ops] r]. cbn [fst snd] in H. destruct H as [[Ho Hr]|(Hs & password & hash & generated & Hm & Ho & Hr)].
  - split; [done|]. intros [?|[Hs ->]]; [done|]. by destruct (Hr Hs).
  - split; [done|]. intros _. exists password, hash, generated. destruct (made_password _ _ _ _ _ Hm) as [H1 H2]. split; [exact H1|]. split; [exact H2|]. cbv zeta. set (body := config_text _ _ _ _ _ _) in *.
    destruct (config_write S configPath body (omap file_op ops) r Ho Hr) as [(Hbad & Hf)|(tmp & fail & Htmp & Hw & Hnone)].
    { split; [|by intros]. intros k. destruct (omap_take file_op ops k) as [j Hj]. rewrite Hj, Hf, take_nil. by split; [left|]. }
    assert (Hne' : tmp <> configPath) by congruence. split.
    + intros k. destruct (omap_take file_op ops k) as [j ->]. rewrite Hw. destruct (write_replaces fs tmp configPath body (sy_cut S) fail Hne' (Hcut body) j) as [H3 H4].
      split; [exact H3|]. intros p Hp Hpt. apply H4; congruence.
    + intros Hok. rewrite Hw. destruct (write_ops_atomic tmp configPath (sy_cut S body) fail fs Hne') as (_ & Hdone & _). rewrite Hdone by auto. by rewrite Hcut.
Qed.

(** C35. Whatever the answer and whatever the files have become since, [integration approve] changes the lock only after it has shown a diff that is not
    empty and was told to go on; what it then writes, whole or not at all, is the lock it read with one entry replaced by the approval of all that
    the manifest it read asks for, under that manifest's digest, and no other file but the temporary one changes. *)
Theorem approve_writes_what_was_shown {Y} load_config manifest_digest decode_manifest (unmarshal_any : string -> option Y) unmarshal_lock marshal_lock lockSchema
  ParseMediaType FormatMediaType diags_text lock_text load_text route_text approve_text quote to_lower tmp cut write_fails configPath by_ yes input now id fs fs1
  (Hcut : forall s, concat_str (cut s) = s) :
  let read := reviewed load_config manifest_digest decode_manifest unmarshal_any unmarshal_lock lockSchema ParseMediaType FormatMediaType diags_text lock_text load_text route_text quote configPath id fs in
  let o := integrationApprove load_config manifest_digest decode_manifest unmarshal_any unmarshal_lock marshal_lock lockSchema ParseMediaType FormatMediaType
             diags_text lock_text load_text route_text approve_text quote to_lower tmp cut write_fails configPath by_ yes input now [id] fs in
  oc_ops o <> [] ->
  exists set m d lines e body, read = Ok (set, m, d, lines) /\ Empty d = false /\ take (length lines) (oc_out o) = lines
    /\ (yes = true \/ confirm to_lower input = true)
    /\ Approve ParseMediaType FormatMediaType m (mf_Digest m) (full_request m) by_ now = Ok e
    /\ marshal_lock (with_entry (is_lock set) id e) = Some body
    /\ (tmp <> is_lockPath set ->
        (forall k, let fs' := foldl fs_apply fs1 (take k (oc_ops o)) in
          (fs' !! is_lockPath set = fs1 !! is_lockPath set \/ fs' !! is_lockPath set = Some (lock_header +:+ body, LockFileMode))
          /\ forall p, p <> is_lockPath set -> p <> tmp -> fs' !! p = fs1 !! p)
        /\ (oc_result o = Ok tt -> foldl fs_apply fs1 (oc_ops o) !! is_lockPath set = Some (lock_header +:+ body, LockFileMode))).
Proof.
  cbv zeta. unfold integrationApprove. destruct (reviewed _ _ _ _ _ _ _ _ _ _ _ _ _ _ _ _) as [[[[set m] d] lines]|e0]; [|by intros []]. destruct (Empty d) eqn:Hd; [by intros []|].
  destruct (negb yes && negb (confirm to_lower input)) eqn:Hy; [by intros []|]. destruct (Approve _ _ _ _ _ _ _) as [e|err] eqn:Ha; [|by intros []].
  destruct (WriteLock _ _ _ _ _ _ _ _) as [ops|err] eqn:Hw; [|by intros []]. intros _.
  assert (Hlines : forall more, take (length lines) ((if yes then lines else lines ++ [prompt]) ++ more) = lines).
  { intros more. destruct yes; rewrite <- ?app_assoc; apply take_app_length. }
  assert (Hlines' := Hlines []). rewrite app_nil_r in Hlines'.
  assert (Hbody : exists body, marshal_lock (with_entry (is_lock set) id e) = Some body
    /\ (tmp <> is_lockPath set -> (forall k, let fs' := foldl fs_apply fs1 (take k ops) in
          (fs' !! is_lockPath set = fs1 !! is_lockPath set \/ fs' !! is_lockPath set = Some (lock_header +:+ body, LockFileMode))
          /\ forall p, p <> is_lockPath set -> p <> tmp -> fs' !! p = fs1 !! p)
        /\ (write_fails = None -> foldl fs_apply fs1 ops !! is_lockPath set = Some (lock_header +:+ body, LockFileMode)))).
  { unfold WriteLock in Hw. destruct (marshal_lock (with_entry (is_lock set) id e)) as [body|] eqn:Hm; [|done]. exists body. split; [done|]. intros Hne.
    destruct (schema_check unmarshal_any lockSchema body); [|done]. cbn [res_bind] in Hw. injection Hw as <-.
    destruct (write_ops_atomic tmp (is_lockPath set) (cut (lock_header +:+ body)) write_fails fs1 Hne) as (H1 & H2 & _). rewrite Hcut in H1, H2. by split. }
  destruct Hbody as (body & Hb & Hatomic). exists set, m, d, lines, e, body.
  assert (Hyes : yes = true \/ confirm to_lower input = true) by (destruct yes, (confirm to_lower input); auto).
  destruct write_fails as [n|]; cbn [oc_out oc_ops oc_result]; do 6 (split; [done || apply Hlines || exact Hlines'|]); intros Hne;
    (split; [apply (Hatomic Hne)|]); intros Hok; first [discriminate Hok | by apply (Hatomic Hne)].
Qed.

(** ** Samples and witnesses *)

Definition cli_config : Config :=
  {| Version := 1; cfg_Server := cfg_Server sample_config; cfg_Auth := cfg_Auth sample_config; cfg_Dashboard := cfg_Dashboard sample_config; Connections := ∅;
     Integrations := [{| in_ID := "p"; in_Source := "path:p"; in_Enabled := None; in_Description := "" |};
                      {| in_ID := "http-json"; in_Source := "builtin"; in_Enabled := None; in_Description := "" |}];
     Sections := []; Rules := []; Channels := ∅ |}.
Definition cli_doc : manifestDoc :=
  {| md_ID := "p"; md_Name := "P"; md_Version := "1"; md_Runtime := "wasm"; md_Capabilities := ["http"; "cache"];
     md_Limits := no_limits; md_Module := ""; md_SHA256 := ""; md_Operations := [[sample_plugin_route "/a"]] |}.
Definition cli_files : gmap string (string * Z) := {["/config/p/manifest.yaml" := ("manifest", 420%Z)]}.
Definition no_text {A} (_ : A) : string := "".
Definition cli_load (path : string) : option Snapshot * list Diagnostic := (Some (newSnapshot cli_config []), []).
Definition cli_reviewed := reviewed cli_load (fun _ => Some "sha256:ab") (fun _ => Some cli_doc) (fun _ => Some tt) (fun _ => None) (Some (fun _ => true))
  (fun _ => None) (fun _ _ => "") no_text no_text no_text no_text no_text "/config/veduta.yaml" "p" cli_files.
(** A lock is written as the ids it holds. *)
Definition cli_marshal (l : Lock) : option string := Some (String.concat "," (isort str_leb (map fst (map_to_list (default ∅ (lk_Integrations l)))))).
Definition cli_approve (yes : bool) (input : string) (fs : gmap string (string * Z)) : outcome :=
  integrationApprove cli_load (fun _ => Some "sha256:ab") (fun _ => Some cli_doc) (fun _ => Some tt) (fun _ => None) cli_marshal (Some (fun _ => true))
    (fun _ => None) (fun _ _ => "") no_text no_text no_text no_text no_text no_text (fun s => s) "t" (fun s => [s]) None
    "/config/veduta.yaml" "admin" yes input 0 ["p"] fs.
Example approve_samples :
  oc_ops (cli_approve false (text "n") cli_files) = [] /\ oc_result (cli_approve false "n" cli_files) = Err "not approved"
  /\ oc_out (cli_approve false ("y" +:+ newline) cli_files) =
     ["p: not yet approved. Manifest digest sha256:ab requests:"; "  + capability http"; "  + capability cache"; "  + route GET /a (shown)"]
     ++ map (fun l => "  ~ limit " +:+ l)
          ["cacheBytesKB: 0 -> 256"; "cacheEntries: 0 -> 64"; "exprNodes: 0 -> 512"; "hostCalls: 0 -> 256"; "httpRequests: 0 -> 8"; "inputMB: 0 -> 4"; "iterations: 0 -> 20000";
           "jsonDepth: 0 -> 32"; "jsonNodes: 0 -> 200000"; "memoryMB: 0 -> 64"; "outputKB: 0 -> 64"; "requestBodyKB: 0 -> 64"; "responseMB: 0 -> 4"; "timeoutMs: 0 -> 3000"]
     ++ [prompt; "p: approved, /config/veduta.lock.yaml updated"]
  /\ fst <$> foldl fs_apply cli_files (oc_ops (cli_approve false "yes" cli_files)) !! "/config/veduta.lock.yaml" = Some (lock_header +:+ "p").
Proof. split_and!; vm_compute; reflexivity. Qed.

Example approve_writes_what_was_shown_witness :
  oc_ops (cli_approve true "" cli_files) <> []
  /\ exists e body, Approve (fun _ => None) (fun _ _ => "") (manifest_of_doc cli_doc "sha256:ab") "sha256:ab" (full_request (manifest_of_doc cli_doc "sha256:ab")) "admin" 0 = Ok e
     /\ cli_marshal (with_entry emptyLock "p" e) = Some body.
Proof.
  assert (H : oc_ops (cli_approve true "" cli_files) <> []) by (vm_compute; discriminate). split; [exact H|].
  destruct (approve_writes_what_was_shown cli_load (fun _ => Some "sha256:ab") (fun _ => Some cli_doc) (fun _ => Some tt) (fun _ => None) cli_marshal (Some (fun _ => true))
    (fun _ => None) (fun _ _ => "") no_text no_text no_text no_text no_text no_text (fun s => s) "t" (fun s => [s]) None
    "/config/veduta.yaml" "admin" true "" 0 "p" cli_files cli_files) as (set & m & d & lines & e & body & Hr & _ & _ & _ & He & Hm & _).
  - intros s. first [reflexivity|apply app_nil_str].
  - exact H.
  - exists e, body. assert (Hset : (fun x : res string (integrationSet * Manifest * Diff * list string) => match x with Ok (s, m', _, _) => Some (is_lock s, m') | Err _ => None end) cli_reviewed
      = Some (emptyLock, manifest_of_doc cli_doc "sha256:ab")) by (vm_compute; reflexivity).
    unfold cli_reviewed in Hset. rewrite Hr in Hset. assert (Hl : is_lock set = emptyLock) by (by injection Hset). assert (Hm2 : m = manifest_of_doc cli_doc "sha256:ab") by (by injection Hset).
    rewrite Hl in Hm. rewrite Hm2 in He. split; [exact He|exact Hm].
Defined.

(** An approval made while the prompt is open is lost: the lock as it was read before the prompt is written back. *)
Example prompted_approval_drops_another :
  let fs1 := <["/config/veduta.lock.yaml" := (lock_header +:+ "other", 416%Z)]> cli_files in
  fst <$> foldl fs_apply fs1 (oc_ops (cli_approve false "y" cli_files)) !! "/config/veduta.lock.yaml" = Some (lock_header +:+ "p").
Proof. vm_compute. reflexivity. Qed.

Definition cli_idkey (pw salt : string) (t m p : Z) (n : nat) : string := String.substring 0 n (pw +:+ salt +:+ "0123456789abcdef0123456789abcdef").
Definition cli_system : system :=
  {| sy_euid := 0; sy_stat := fun p => if String.eqb p "/config" then Found (Some 1000%Z) else NotFound; sy_mkdir := None; sy_chown := fun _ => None; sy_chmod := None;
     sy_readdir := Ok ["old"]; sy_tmp := Ok "/config/t"; sy_cut := fun s => [s]; sy_write_fails := None; sy_password := Ok "abcdefghijklmnopqrst"; sy_salt := Ok "salt-salt-salt-s";
     sy_supplied := "" |}.
Definition cli_init (title : string) : Init unit := runInit cli_idkey no_text (fun s => text "~" +:+ s +:+ text "~") cli_system "/config/veduta.yaml" "0.0.0.0:8099" "/data" title "admin" true.
Example init_samples :
  (cli_init "Home").2 = Ok tt
  /\ omap (fun o => match o with OFile _ => None | x => Some x end) (cli_init "Home").1.2 =
     [OMkdirAll "/config"; OChown "/config" (-1) 65532; OChmod "/config" 504; OChown "/config/old" 1000 65532; OMkdirAll "/config"; OChown "/config/veduta.yaml" 1000 65532]
  /\ match generatePassword (sy_password cli_system) with Ok p => String.length p = passwordLength | Err _ => False end.
Proof. split_and!; vm_compute; reflexivity. Qed.
(** The title is written as it is: one that is not a plain scalar makes a file that is not the configuration it should be. *)
Example title_is_not_quoted :
  HasSuffix (config_text (fun s => s) "0.0.0.0:8099" "/data" "a: b" "admin" "h") ("dashboard:" +:+ newline +:+ "  title: a: b" +:+ newline +:+ starterCards) = true.
Proof. vm_compute. reflexivity. Qed.

Example init_writes_once_witness :
  (cli_init "Home").2 = Ok tt
  /\ exists password hash, String.length password = passwordLength /\ foldl fs_apply ∅ (omap file_op (cli_init "Home").1.2) !! "/config/veduta.yaml"
       = Some (config_text (fun s => text "~" +:+ s +:+ text "~") "0.0.0.0:8099" "/data" "Home" "admin" hash, LockFileMode).
Proof.
  assert (Hok : (cli_init "Home").2 = Ok tt) by (vm_compute; reflexivity). split; [exact Hok|].
  pose proof (init_writes_once cli_idkey no_text (fun s => text "~" +:+ s +:+ text "~") cli_system "/config/veduta.yaml" "0.0.0.0:8099" "/data" "Home" "admin" true ∅) as H.
  fold (cli_init "Home") in H. destruct (cli_init "Home") as [[out ops] r]. cbn [fst snd] in Hok |- *. destruct H as [_ H].
  - discriminate.
  - intros s. first [reflexivity|apply app_nil_str].
  - destruct H as (password & hash & generated & Hg & _ & _ & Hdone); [right; split; [reflexivity|exact Hok]|]. exists password, hash. split; [|by apply Hdone].
    destruct generated; [destruct Hg as (_ & _ & buf & Hb & ->); by injection Hb as <-|by destruct Hg as [-> []]].
Defined.
